(* ===== verification/_CoqProject ===== *)
-Q . S2P
Prelude.v
GoStrings.v
GoSort.v
GoFloat.v
Json.v
JobSchema.v
JobStore.v
JobInvariant.v
JobRefine.v
JobQueue.v
JobAdmission.v
JobTheorems.v
WorkLimit.v
JsonParse.v
MediaFragment.v
TargetGeometry.v
Presentation.v
PageNormal.v
PageTheorems.v
LineIndex.v
TextFields.v
Annotations.v
DerivedFacts.v
SpatialWords.v
SpatialSweep.v
SpatialOwners.v
Drafts.v
DraftOps.v
DraftFacts.v
SplitOwners.v
DraftTheorems.v
TranscribedTheorems.v
TokenTheorems.v
EditedLines.v
EditedTheorems.v
UneditedSave.v
SafeFailures.v
Quota.v
QuotaStore.v
QuotaOps.v
ResourceCleanup.v
QuotaInvariant.v
QuotaSteps.v
QuotaAdmission.v
QuotaFence.v
Requests.v
RequestTheorems.v
Webhooks.v
WebhookTheorems.v
Resources.v
Mirrors.v
MirrorTheorems.v
ItemDb.v
ItemOps.v
UploadBatches.v
UploadOps.v
ItemAudit.v
ItemPurge.v
ItemSound.v
ItemSteps.v
UploadSteps.v
ItemKeeps.v
UploadKeeps.v
UploadTheorems.v
UploadOutcomes.v
PageIndex.v
PageDb.v
PageStore.v
PageSteps.v
IngestStore.v
PageHistory.v
AnnotationTheorems.v
PageKeeps.v
PageBooks.v
IngestBooks.v
IngestTheorems.v
ContextDb.v
ContextStore.v
ContextKeeps.v
ContextTheorems.v
