(* ===== verification/Prelude.v ===== *)
(** * Scribe: a verification library

    Scribe is a service that transcribes images of manuscripts: workspaces hold items, items hold
    images, an image has an IIIF annotation page of lines and words, and transcription jobs, uploads,
    publications and webhooks run around that page.  This library models the program's own logic in
    Rocq and proves what makes it correct.  Paths below are under src/internal.

    ** How the program is put together, and which file models what

    The state is a MySQL database without foreign keys.  A store method runs one transaction of SQL
    statements (internal/db, generated, one definition per statement here) and its guards; workers and
    request handlers call store methods and pure functions on IIIF documents.  A method is a definition
    of type [tx State error A]: [Ok] of a value and the new tables, or an error, and [run_tx] gives back
    the old tables on an error, as the deferred Rollback does.  The generic layer:
    - this file: results, transactions with their inversion tactics ([tx_bind], [tx_pure]), integers at Go's
      widths, shared list and map lemmas;
    - [GoStrings] (UTF-8, strings, strconv), [GoSort] (container/heap, sort), [GoFloat] (float64 and
      ParseFloat), [Json], [JsonParse] (iiif/json.go and encoding/json as it is used there).

    Transcription queue (store/transcription_jobs.go, transcription_admission.go, transcription_checkpoints.go):
    [JobSchema] tables and statements, [JobStore] methods, [JobInvariant] the invariant of the tables,
    [JobRefine] each method as steps on them, [JobQueue], [JobAdmission], [JobTheorems] the theorems.
    Idempotency keys (the same file): [Requests], [RequestTheorems].  Event outbox and subscriptions
    (also webhook_subscriptions.go): [Webhooks], [WebhookTheorems].  Failure texts (safe_failures.go):
    [SafeFailures].  Limits on work in progress (worklimit/): [WorkLimit], a transition system of callers.

    Accounts (store/storage_quota.go, the reservation part of ingest.go): [Quota] amounts and limits, [QuotaStore]
    statements, [QuotaOps] operations, [ResourceCleanup] the outbox of deletions (resource_cleanup.go), module [UploadRef]
    of [Quota] the names of uploads (uploadref/); [QuotaInvariant], [QuotaSteps] the invariant and that every operation keeps
    it, [QuotaAdmission] exact admission, sweep and rebuild, [QuotaFence] the fence around a deleted upload.

    Items and upload batches (store/items.go, upload_batches.go, relationship_integrity.go): [ItemDb] the tables
    and the statements of the resource graph, [ItemOps] items and images, [UploadBatches] and [UploadOps] batches,
    [ItemAudit] the audit; [ItemPurge] what a deletion leaves, [ItemSound] the invariant, [ItemSteps],
    [UploadSteps], [ItemKeeps], [UploadKeeps] its preservation, [UploadTheorems], [UploadOutcomes].
    Statements of the accounts run on a view of these tables ([ItemDb.quota]), so the
    quota operations are the same definitions; the queue's tables are those of [JobSchema].

    IIIF documents (iiif/): [MediaFragment], [TargetGeometry] targets and boxes, [Presentation] annotation pages,
    [PageNormal], [PageTheorems], [Resources] standalone annotations; publication mirrors
    (store/annotation_mirrors.go, PublishPage): [Mirrors], [MirrorTheorems].

    Annotation pages, OCR runs and ground truth (store/annotations.go, ocr_runs.go, ground_truth.go): [PageIndex] the
    entries of the text index, [PageDb] tables and statements, [PageStore] saves, publications, completions and
    reprocessing on the tables of the items and the queue, [PageSteps] each operation as steps, [PageHistory] what
    every history keeps, [AnnotationTheorems].  [PageKeeps] (module [PageSound]: changes of the rows of one image) and
    [PageBooks] show that each transaction keeps the tables sound.

    Ingests (store/ingest.go): [IngestStore] the commit of a single image and of a manifest, from the locks to the
    reservation that becomes usage; [IngestBooks] that both keep the tables sound, [IngestTheorems] histories of the
    whole library (pages, ingests, items, uploads), and what an ingest leaves.

    Recognition contexts (store/contexts.go, app/contexts.go): [ContextDb] contexts and selection rules beside the
    tables of the items, [ContextStore] the catalog, the rules, their resolution and the presets of a start,
    [ContextKeeps] each operation as steps that keep the invariant, [ContextTheorems] histories that interleave them
    with the item and upload stores.

    Editing (server/): [Annotations], [DerivedFacts], module [LineGeometry] of [SpatialWords] annotations as the server reads and
    writes them; [LineIndex], [SpatialWords], [SpatialSweep], [SpatialOwners] the assignment of words to lines
    (transcription_service.go); [Drafts], [DraftOps], [DraftFacts], [SplitOwners], [DraftTheorems]
    the structural operations (annotation_page_transforms.go); [TextFields], [TranscribedTheorems]
    words after a transcription; [TokenTheorems], [EditedLines], [EditedTheorems],
    [UneditedSave] interactive saves (annotation_reconciliation.go).

    ** What the theorems show

    - Queue (C1, C2, C30, C31, C38): reachable tables are consistent, a worker without the lease changes
      nothing, claims take leases, admission bounds the queue, active jobs can be claimed.
    - Keys, webhooks, mirrors (C18, C34, C35): leases are exclusive, deliveries are fenced, the stored
      removals refine the history of publications.
    - Accounts (C3, C27-C29): the accounts agree with each other; admission is exact, a rebuild measures every owner anew
      and leaves only the rows of vanished owners that still count something, a blob that is deleted is fenced.
    - The whole library (C4): after any history of pages, ingests, items and uploads the accounts count what is stored and
      the audit stays silent.  Items and uploads (C5, C20, C21, C39): deletions remove exactly a resource graph, batches follow
      their files, an attempt on a file is exclusive, a retried start returns the batch.
    - Page store (C6-C8, C23, C24): stored pages are canonical and indexed, saves never overwrite a newer revision,
      publications are snapshots, a job is completed in the commit of its page.
    - Ingests (C9, C10): a commit leaves every image with its page, index, run and job (with the document of its context), the answered
      request, and no reservation; a failure leaves nothing.
    - Contexts (C11-C13, C19, C22, C32): names and defaults stay unique and links valid, workspaces are isolated, the
      first matching rule decides, a start installs its presets, following the cursors of a listing ends, admission
      keeps resolution within its limit.
    - Pages and JSON (C25, C40): normalisation is canonical (the identifiers of the items where no key folds to items),
      decoding inverts encoding.
    - Editing (C14-C17, C26, C36, C37): words follow lines and texts (a transcribed word where no other body with
      text precedes its textual body, the words of a split line where no earlier line covers them), the sweep equals a search, unedited saves
      change nothing, the token matching is optimal.
    - Limiter (C33): counters equal the callers and stay within the limits.
    Theorems of the same files that carry no number: terminal jobs are final, cancellation closes a batch, sweeps
    free expired reservations, a line joined from words owns them, normalisation is idempotent, targets and fragments read back, and others.

    ** Bounds and fuel

    No theorem depends on a fuel that may run out: the claim loop gets the number of jobs plus one and each round
    uses up a job; the parsers and walks get the length of their input; the nonces of a generated identity are
    tried up to one more than there are identities in use; loops of the segment tree and heaps recurse on their
    structure or size, each with a theorem that the result is reached.  The token matching is limited to 1,000,000
    cells as in the code, so its entries fit their 16 bits.  Sweeps take at most 500 rows.

    ** Assumptions

    One clock reading per operation (that of the program, [go_now], and that of the database, [db_now], may differ),
    whole seconds; transactions are atomic, rows another transaction has locked are an argument
    where a statement skips them; row counts are of changed rows, as the driver is configured; rows of equal
    sort keys come in the order of their ids.  Strings compare by bytes, where MySQL uses a collation; column lengths,
    JSON column validity and failures of the infrastructure (connections, deadlocks) are left out.  Payload columns that
    are only measured are lengths.  The order in which Go ranges over a map is an argument or a class.  Code that is not
    in the repository is a class parameter ([UrlParser], the IIIF schema, sha256, the htr library's SVG and IIIF
    readers).  Documents updated in place are returned, or live in a store with positions where they are shared; a draft whose
    operation fails is discarded, as its only caller does.  float64 is the IEEE format with the operations the
    code uses; a stored temperature is its shortest literal.  The advisory lock around the seeding of contexts is taken, and
    the provider registry's verdict on a preset is an argument.  Of an ingest: the identifier of the item has no space around it,
    a single file comes without a source manifest, and the page a factory builds names no editor or the ingesting user, as both
    callers in server/ make them; a factory is a function of the image and its Canvas, as its type's comment asks.

    ** Not modelled

    Request handling and authentication (server/ handlers and connect services, auth/, handlers/, proxytrust/,
    safehttp/), configuration and secrets (config/, vaultkv/, secretmanager/, gcpidentity/), the providers and the image
    tools (providerregistry/, segmentor/, worddetection/, imageservice/, imagemagick/, hocr/, pdfexport/), Pub/Sub,
    telemetry and the commands: mostly input and output around the logic above.  Of the stores: identity, keys, secrets and
    editor sessions (identity.go, api_keys.go, provider_secrets.go, editor_review.go), which keep rows of tokens and
    memberships. *)

From Stdlib Require Import ZArith Lia.
From stdpp Require Import base gmap strings list sorting.

#[global] Set Default Goal Selector "!".
#[export] Set Warnings "-clear-no-such-hyp".
#[global] Open Scope Z_scope.

(** ** Results: a Go function returning [(T, error)] *)

Inductive result (E A : Type) : Type :=
| Ok (a : A)
| Err (e : E).
Arguments Ok {E A} a.
Arguments Err {E A} e.

#[export] Instance result_ret E : MRet (result E) := fun _ a => Ok a.
#[export] Instance result_bind E : MBind (result E) := fun _ _ f m =>
  match m with Ok a => f a | Err e => Err e end.
#[export] Instance result_eq_dec `{EqDecision E, EqDecision A} : EqDecision (result E A).
Proof. solve_decision. Defined.

(** [guard_ok b e]: the early return [if !b { return e }]. *)
Definition guard_ok {E} (b : bool) (e : E) : result E unit :=
  if b then Ok tt else Err e.

(** A missing row ([sql.ErrNoRows]) turned into the error [e]. *)
Definition of_option {E A} (e : E) (o : option A) : result E A :=
  match o with Some a => Ok a | None => Err e end.

Definition is_ok {E A} (r : result E A) : bool :=
  match r with Ok _ => true | Err _ => false end.

Section result_lemmas.
Context {E A B : Type}.
Implicit Types (m : result E A) (k : A -> result E B).

Lemma result_bind_Ok m k b :
  (m ≫= k) = Ok b <-> exists a, m = Ok a /\ k a = Ok b.
Proof.
  destruct m as [a|e]; simpl; split.
  - eauto.
  - intros (a' & [= ->] & ?). done.
  - done.
  - intros (a' & ? & ?). done.
Qed.

Lemma result_bind_Err m k e :
  (m ≫= k) = Err e <-> m = Err e \/ exists a, m = Ok a /\ k a = Err e.
Proof. destruct m; simpl; naive_solver. Qed.

Lemma guard_ok_Ok (b : bool) (e : E) : guard_ok b e = Ok tt <-> b = true.
Proof. destruct b; naive_solver. Qed.

Lemma of_option_Ok (e : E) (o : option A) a : of_option e o = Ok a <-> o = Some a.
Proof. destruct o; naive_solver. Qed.
End result_lemmas.

(** ** Database transactions

    A store method runs inside [BeginTx ... Commit] with a deferred
    [Rollback]: it threads the database state and discards it on error. *)

Definition tx (S E A : Type) : Type := S -> result E (A * S).

#[export] Instance tx_ret S E : MRet (tx S E) := fun _ a s => Ok (a, s).
#[export] Instance tx_bind S E : MBind (tx S E) := fun _ _ f m s =>
  match m s with
  | Ok (a, s') => f a s'
  | Err e => Err e
  end.

Definition tx_fail {S E A} (e : E) : tx S E A := fun _ => Err e.
Definition tx_get {S E} : tx S E S := fun s => Ok (s, s).
Definition tx_put {S E} (s : S) : tx S E unit := fun _ => Ok (tt, s).
Definition tx_modify {S E} (f : S -> S) : tx S E unit := fun s => Ok (tt, f s).
Definition tx_reads {S E A} (f : S -> A) : tx S E A := fun s => Ok (f s, s).
Definition tx_lift {S E A} (r : result E A) : tx S E A := fun s =>
  match r with Ok a => Ok (a, s) | Err e => Err e end.

(** Running a transaction: [Commit] on success, [Rollback] on error. *)
Definition run_tx {S E A} (m : tx S E A) (s : S) : result E A * S :=
  match m s with
  | Ok (a, s') => (Ok a, s')
  | Err e => (Err e, s)
  end.

Section tx_lemmas.
Context {S E : Type}.

Lemma tx_bind_Ok {A B} (m : tx S E A) (k : A -> tx S E B) s b s2 :
  (m ≫= k) s = Ok (b, s2) <-> exists a s1, m s = Ok (a, s1) /\ k a s1 = Ok (b, s2).
Proof.
  unfold mbind, tx_bind. destruct (m s) as [[a s1]|e]; naive_solver.
Qed.

Lemma tx_lift_Ok {A} (r : result E A) (s : S) a s' :
  tx_lift r s = Ok (a, s') <-> r = Ok a /\ s' = s.
Proof. unfold tx_lift. destruct r; naive_solver. Qed.

Lemma run_tx_Err {A} (m : tx S E A) s e s' :
  run_tx m s = (Err e, s') -> s' = s.
Proof. unfold run_tx. destruct (m s) as [[? ?]|?]; naive_solver. Qed.

Lemma run_tx_Ok {A} (m : tx S E A) s a s' :
  run_tx m s = (Ok a, s') <-> m s = Ok (a, s').
Proof. unfold run_tx. destruct (m s) as [[? ?]|?]; naive_solver. Qed.

(** An invariant kept by a transaction's success is kept by running it. *)
Lemma run_tx_preserves {A} (I : S -> Prop) (m : tx S E A) s :
  I s -> (forall a s', m s = Ok (a, s') -> I s') -> I (run_tx m s).2.
Proof. unfold run_tx. destruct (m s) as [[? ?]|?]; naive_solver. Qed.
End tx_lemmas.

(** [tx_inv H] takes a successful run apart along its binds. *)
Ltac tx_inv_step :=
  match goal with
  | H : (_ ≫= _) _ = Ok (_, _) |- _ =>
      let a := fresh "a" in let s := fresh "s" in
      let H1 := fresh "Hrun" in let H2 := fresh "Hrun" in
      apply tx_bind_Ok in H as (a & s & H1 & H2); cbv beta in H2
  | H : tx_lift _ _ = Ok (_, _) |- _ =>
      let H1 := fresh "Hres" in apply tx_lift_Ok in H as [H1 ->]
  | H : tx_fail _ _ = Ok _ |- _ => discriminate H
  | H : tx_get _ = Ok (_, _) |- _ => injection H; clear H; intros; subst
  | H : tx_put _ _ = Ok (_, _) |- _ => injection H; clear H; intros; subst
  | H : tx_modify _ _ = Ok (_, _) |- _ => injection H; clear H; intros; subst
  | H : tx_reads _ _ = Ok (_, _) |- _ => injection H; clear H; intros; subst
  | H : mret _ _ = Ok (_, _) |- _ => injection H; clear H; intros; subst
  | H : guard_ok _ _ = Ok _ |- _ =>
      lazymatch type of H with
      | guard_ok _ _ = Ok ?u => destruct u; apply guard_ok_Ok in H
      end
  | H : of_option _ _ = Ok _ |- _ => apply of_option_Ok in H
  | H : Ok _ = Ok _ |- _ => injection H; clear H; intros; subst
  | H : Err _ = Ok _ |- _ => discriminate H
  end.
Ltac tx_inv := repeat tx_inv_step.

(** The effect of a statement that cannot fail. *)
Ltac tx_pure H := cbv [tx_reads tx_modify tx_get tx_put mret tx_ret] in H;
  injection H; clear H; first [intros <- <- | intros <- | intros; subst].

(** One bind of a successful run, with chosen names. *)
Tactic Notation "tx_bind" hyp(H) "as" simple_intropattern(x) ident(s1) ident(H1) :=
  apply tx_bind_Ok in H as (x & s1 & H1 & H); cbv beta in H.

(** ** Integers at their Go width *)

Definition MaxInt32 : Z := 2 ^ 31 - 1.
Definition MinInt32 : Z := - 2 ^ 31.
Definition MaxInt64 : Z := 2 ^ 63 - 1.
Definition MaxUint64 : Z := 2 ^ 64 - 1.

(** Two's complement wrap-around of a 64-bit [int]. *)
Definition wrap64 (z : Z) : Z := (z + 2 ^ 63) mod 2 ^ 64 - 2 ^ 63.

Lemma wrap64_id z : - 2 ^ 63 <= z < 2 ^ 63 -> wrap64 z = z.
Proof. intros H. unfold wrap64. rewrite Z.mod_small; lia. Qed.

(** Go's integer division truncates toward zero. *)
Definition go_div (a b : Z) : Z := Z.quot a b.

Create HintDb scribe.
#[export] Hint Resolve wrap64_id run_tx_Err : scribe.

(** ** Booleans *)

Ltac split_bools :=
  repeat match goal with
  | H : (_ && _) = true |- _ => apply andb_true_iff in H as [? ?]
  | H : (_ || _) = false |- _ => apply orb_false_iff in H as [? ?]
  | H : negb _ = true |- _ => apply negb_true_iff in H
  | H : negb _ = false |- _ => apply negb_false_iff in H
  | H : bool_decide _ = true |- _ => apply bool_decide_eq_true in H
  | H : bool_decide _ = false |- _ => apply bool_decide_eq_false in H
  | H : (_ =? _) = true |- _ => apply Z.eqb_eq in H
  | H : (_ =? _) = false |- _ => apply Z.eqb_neq in H
  | H : (_ <? _) = true |- _ => apply Z.ltb_lt in H
  | H : (_ <? _) = false |- _ => apply Z.ltb_ge in H
  | H : (_ <=? _) = true |- _ => apply Z.leb_le in H
  | H : (_ <=? _) = false |- _ => apply Z.leb_gt in H
  end.
