(* ===== verification/GoStrings.v ===== *)
(** * Go's [strings] and [strconv], as the program uses them

    Strings are byte strings ([String.string]), as in Go.  The definitions
    follow the documented behaviour of the standard library functions the
    sources call: [TrimSpace] and [Fields] on Unicode white space in UTF-8,
    [EqualFold] and [ToLower] as compared with ASCII constants, [Cut], [Split],
    [Join], [HasPrefix], [Contains], and the decimal conversions. *)

From Stdlib Require Import ZArith Lia Ascii String DecimalPos DecimalString DecimalZ.
From stdpp Require Import base gmap strings list.
From S2P Require Import Prelude.

Module GoStr.

#[local] Open Scope string_scope.

Definition byte_is (c : ascii) (n : N) : bool := bool_decide (N_of_ascii c = n).
Definition byte_in (c : ascii) (lo hi : N) : bool :=
  N.leb lo (N_of_ascii c) && N.leb (N_of_ascii c) hi.

(** The UTF-8 encodings of the code points [unicode.IsSpace] accepts: six
    ASCII ones, U+0085 and U+00A0 on two bytes, the others on three. *)
Definition space1 (c : ascii) : bool := byte_in c 9 13 || byte_is c 32.
Definition space2 (c1 c2 : ascii) : bool :=
  byte_is c1 194 && (byte_is c2 133 || byte_is c2 160).
Definition space3 (c1 c2 c3 : ascii) : bool :=
  (byte_is c1 225 && byte_is c2 154 && byte_is c3 128)
  || (byte_is c1 226 && byte_is c2 128 &&
      (byte_in c3 128 138 || byte_is c3 168 || byte_is c3 169 || byte_is c3 175))
  || (byte_is c1 226 && byte_is c2 129 && byte_is c3 159)
  || (byte_is c1 227 && byte_is c2 128 && byte_is c3 128).

(** [space_len s]: the byte length of the space [s] starts with, 0 if none. *)
Definition space_len (s : string) : nat :=
  match s with
  | EmptyString => 0
  | String c1 r1 =>
      if space1 c1 then 1 else
      match r1 with
      | EmptyString => 0
      | String c2 r2 =>
          if space2 c1 c2 then 2 else
          match r2 with
          | EmptyString => 0
          | String c3 _ => if space3 c1 c2 c3 then 3 else 0
          end
      end
  end%nat.

Fixpoint trim_left (s : string) : string :=
  match s with
  | EmptyString => s
  | String c1 r1 =>
      if space1 c1 then trim_left r1 else
      match r1 with
      | EmptyString => s
      | String c2 r2 =>
          if space2 c1 c2 then trim_left r2 else
          match r2 with
          | EmptyString => s
          | String c3 r3 => if space3 c1 c2 c3 then trim_left r3 else s
          end
      end
  end.

Fixpoint rev_app (s acc : string) : string :=
  match s with
  | EmptyString => acc
  | String c r => rev_app r (String c acc)
  end.
Definition rev (s : string) : string := rev_app s "".

(** Left trimming of the reversed string: the encodings are read backwards. *)
Fixpoint trim_rev (s : string) : string :=
  match s with
  | EmptyString => s
  | String c1 r1 =>
      if space1 c1 then trim_rev r1 else
      match r1 with
      | EmptyString => s
      | String c2 r2 =>
          if space2 c2 c1 then trim_rev r2 else
          match r2 with
          | EmptyString => s
          | String c3 r3 => if space3 c3 c2 c1 then trim_rev r3 else s
          end
      end
  end.

(** [strings.TrimSpace] *)
Definition TrimSpace (s : string) : string := rev (trim_rev (rev (trim_left s))).

Definition snoc (s : string) (c : ascii) : string := s ++ String c "".
Definition flush (cur : string) : list string :=
  match cur with EmptyString => [] | _ => [cur] end.

(** [strings.Fields]: [cur] is the field being read. *)
Fixpoint fields_go (s cur : string) : list string :=
  match s with
  | EmptyString => flush cur
  | String c1 r1 =>
      if space1 c1 then flush cur ++ fields_go r1 "" else
      match r1 with
      | EmptyString => flush (snoc cur c1)
      | String c2 r2 =>
          if space2 c1 c2 then flush cur ++ fields_go r2 "" else
          match r2 with
          | EmptyString => fields_go r1 (snoc cur c1)
          | String c3 r3 =>
              if space3 c1 c2 c3 then flush cur ++ fields_go r3 ""
              else fields_go r1 (snoc cur c1)
          end
      end
  end%list.
Definition Fields (s : string) : list string := fields_go s "".

(** [strings.Join] *)
Fixpoint Join (l : list string) (sep : string) : string :=
  match l with
  | [] => ""
  | [x] => x
  | x :: l' => x ++ sep ++ Join l' sep
  end.

(** [strings.HasPrefix] and [strings.TrimPrefix] *)
Fixpoint strip_prefix (p s : string) : option string :=
  match p, s with
  | EmptyString, _ => Some s
  | String a p', String b s' => if bool_decide (a = b) then strip_prefix p' s' else None
  | String _ _, EmptyString => None
  end.
Definition HasPrefix (s p : string) : bool := bool_decide (is_Some (strip_prefix p s)).
Definition TrimPrefix (s p : string) : string := default s (strip_prefix p s).

(** [strings.CutPrefix] *)
Definition CutPrefix (s p : string) : string * bool :=
  match strip_prefix p s with Some r => (r, true) | None => (s, false) end.

(** [strings.Cut] at a one-byte separator: before, after, found. *)
Fixpoint Cut (s : string) (sep : ascii) : string * string * bool :=
  match s with
  | EmptyString => ("", "", false)
  | String c r =>
      if bool_decide (c = sep) then ("", r, true)
      else let '(b, a, f) := Cut r sep in (String c b, a, f)
  end.

(** [strings.Split] at a one-byte separator: never empty. *)
Fixpoint Split (s : string) (sep : ascii) : list string :=
  match s with
  | EmptyString => [""]
  | String c r =>
      if bool_decide (c = sep) then "" :: Split r sep
      else match Split r sep with
           | [] => [String c ""]
           | x :: l => String c x :: l
           end
  end.

(** [strings.Contains] *)
Fixpoint Contains (s p : string) : bool :=
  HasPrefix s p || match s with EmptyString => false | String _ r => Contains r p end.

Definition lower_byte (c : ascii) : ascii :=
  if byte_in c 65 90 then ascii_of_N (N_of_ascii c + 32)%N else c.

(** [strings.ToLower], exact wherever the result is compared with or searched
    for an ASCII string: the ASCII letters, and the two code points outside
    ASCII whose lower case is an ASCII letter, U+0130 (i) and U+212A (k).
    Other code points have a lower case outside ASCII and stay as they are. *)
Fixpoint ToLower (s : string) : string :=
  match s with
  | EmptyString => ""
  | String c1 r1 =>
      match r1 with
      | EmptyString => String (lower_byte c1) ""
      | String c2 r2 =>
          if byte_is c1 196 && byte_is c2 176 then String "i" (ToLower r2) else
          match r2 with
          | EmptyString => String (lower_byte c1) (ToLower r1)
          | String c3 r3 =>
              if byte_is c1 226 && byte_is c2 132 && byte_is c3 170
              then String "k" (ToLower r3)
              else String (lower_byte c1) (ToLower r1)
          end
      end
  end.

(** Simple folding of a string to be compared with an ASCII constant: the ASCII
    letters, U+017F (folds with s) and U+212A (folds with k). *)
Fixpoint fold (s : string) : string :=
  match s with
  | EmptyString => ""
  | String c1 r1 =>
      match r1 with
      | EmptyString => String (lower_byte c1) ""
      | String c2 r2 =>
          if byte_is c1 197 && byte_is c2 191 then String "s" (fold r2) else
          match r2 with
          | EmptyString => String (lower_byte c1) (fold r1)
          | String c3 r3 =>
              if byte_is c1 226 && byte_is c2 132 && byte_is c3 170
              then String "k" (fold r3)
              else String (lower_byte c1) (fold r1)
          end
      end
  end.

(** [strings.EqualFold s t] for an ASCII [t]. *)
Definition EqualFold (s t : string) : bool := bool_decide (fold s = fold t).

(** [len(s)] as a Go [int] *)
Fixpoint len (s : string) : Z :=
  match s with EmptyString => 0 | String _ r => (1 + len r)%Z end.

(** [strconv.Itoa], and [fmt]'s [%d] *)
Definition itoa (z : Z) : string := NilZero.string_of_int (Z.to_int z).

Definition digit (c : ascii) : option Z :=
  if byte_in c 48 57 then Some (Z.of_N (N_of_ascii c) - 48)%Z else None.

Fixpoint digits_go (s : string) (acc : Z) : option Z :=
  match s with
  | EmptyString => Some acc
  | String c r => match digit c with Some d => digits_go r (acc * 10 + d)%Z | None => None end
  end.

(** [strconv.ParseUint(s, 10, 64)] *)
Definition ParseUint (s : string) : option Z :=
  match s with
  | EmptyString => None
  | _ => match digits_go s 0 with
         | Some v => if (v <=? MaxUint64)%Z then Some v else None
         | None => None
         end
  end.

(** [strconv.Atoi]: an optional sign and digits, in the range of [int]. *)
Definition Atoi (s : string) : option Z :=
  let parse neg r :=
    match r with
    | EmptyString => None
    | _ => match digits_go r 0 with
           | Some v => let v := if (neg : bool) then (- v)%Z else v in
                       if ((- 2 ^ 63 <=? v) && (v <? 2 ^ 63))%Z then Some v else None
           | None => None
           end
    end in
  match s with
  | String "-" r => parse true r
  | String "+" r => parse false r
  | _ => parse false s
  end.

(** [strings.TrimRight(s, c)] at a one-byte cutset *)
Fixpoint trim_byte (c : ascii) (s : string) : string :=
  match s with
  | String d r => if bool_decide (d = c) then trim_byte c r else s
  | EmptyString => ""
  end.
Definition TrimRight (s : string) (c : ascii) : string := rev (trim_byte c (rev s)).

(** What precedes and follows the last occurrence of [p] ([strings.LastIndex]). *)
Fixpoint CutLast (s p : string) : option (string * string) :=
  match s with
  | EmptyString => match strip_prefix p "" with Some r => Some ("", r) | None => None end
  | String c r =>
      match CutLast r p with
      | Some (b, a) => Some (String c b, a)
      | None => match strip_prefix p s with Some a => Some ("", a) | None => None end
      end
  end.

(** ** Lemmas *)

Fixpoint all_chars (P : ascii -> bool) (s : string) : bool :=
  match s with EmptyString => true | String c r => P c && all_chars P r end.

(** A printable ASCII byte other than the space. *)
Definition visible (c : ascii) : bool := byte_in c 33 126.

Lemma visible_not_space c : visible c = true -> space1 c = false
  /\ (forall c', space2 c c' = false) /\ (forall c', space2 c' c = false)
  /\ (forall c' c'', space3 c c' c'' = false) /\ (forall c' c'', space3 c' c'' c = false).
Proof.
  unfold visible, space1, space2, space3, byte_in, byte_is. intros H. split_bools.
  apply N.leb_le in H, H0.
  assert (Hne : forall n, (n < 33)%N \/ (126 < n)%N -> bool_decide (N_of_ascii c = n) = false).
  { intros n Hn. apply bool_decide_eq_false. lia. }
  split_and!.
  - rewrite Hne by lia. apply orb_false_iff. split; [|done]. apply andb_false_iff. right.
    apply N.leb_gt. lia.
  - intros c'. by rewrite Hne by lia.
  - intros c'. rewrite !Hne by lia. apply andb_false_r.
  - intros c' c''. by rewrite !Hne by lia.
  - intros c' c''. rewrite !Hne by lia.
    assert ((128 <=? N_of_ascii c)%N = false) as -> by (apply N.leb_gt; lia).
    by rewrite !andb_false_r.
Qed.

Lemma sapp_cons c a b : (String c a ++ b)%string = String c (a ++ b).
Proof. done. Qed.

Lemma sapp_nil_r s : (s ++ "")%string = s.
Proof. induction s as [|c s IH]; [done|]. by rewrite sapp_cons, IH. Qed.

Lemma sapp_assoc a b c : ((a ++ b) ++ c)%string = (a ++ (b ++ c))%string.
Proof. induction a as [|x a IH]; [done|]. by rewrite !sapp_cons, IH. Qed.

Lemma rev_app_app s acc : rev_app s acc = (rev_app s "" ++ acc)%string.
Proof.
  revert acc. induction s as [|c s IH]; intros acc; simpl; [done|].
  rewrite (IH (String c acc)), (IH (String c "")), sapp_assoc. done.
Qed.

Lemma rev_rev_app s acc : rev (rev_app s acc) = (rev acc ++ s)%string.
Proof.
  revert acc. induction s as [|c s IH]; intros acc; simpl.
  - by rewrite sapp_nil_r.
  - rewrite IH. unfold rev at 1. simpl. rewrite rev_app_app. fold (rev acc).
    by rewrite sapp_assoc.
Qed.

Lemma rev_rev s : rev (rev s) = s.
Proof. unfold rev at 2. by rewrite rev_rev_app. Qed.

Lemma all_chars_rev_app P s acc :
  all_chars P (rev_app s acc) = all_chars P s && all_chars P acc.
Proof.
  revert acc. induction s as [|c s IH]; intros acc; simpl; [done|].
  rewrite IH. simpl. destruct (P c), (all_chars P s); simpl; done.
Qed.

Lemma trim_left_visible c s : visible c = true -> trim_left (String c s) = String c s.
Proof.
  intros (H1 & H2 & _ & H3 & _)%visible_not_space. simpl. rewrite H1.
  destruct s as [|c2 s]; [done|]. rewrite H2. destruct s as [|c3 s]; [done|]. by rewrite H3.
Qed.

Lemma trim_rev_visible c s : visible c = true -> trim_rev (String c s) = String c s.
Proof.
  intros (H1 & _ & H2 & _ & H3)%visible_not_space. simpl. rewrite H1.
  destruct s as [|c2 s]; [done|]. rewrite H2. destruct s as [|c3 s]; [done|]. by rewrite H3.
Qed.

(** A string of visible ASCII bytes is already trimmed. *)
Lemma TrimSpace_visible s : all_chars visible s = true -> TrimSpace s = s.
Proof.
  intros H. unfold TrimSpace.
  assert (trim_left s = s) as ->.
  { destruct s as [|c s]; [done|]. simpl in H. split_bools. by apply trim_left_visible. }
  assert (trim_rev (rev s) = rev s) as ->; [|apply rev_rev].
  assert (Hr : all_chars visible (rev s) = true).
  { unfold rev. rewrite all_chars_rev_app, H. done. }
  destruct (rev s) as [|c t]; [done|]. simpl in Hr. split_bools. by apply trim_rev_visible.
Qed.

(** ** Separators *)

Lemma all_chars_app P a b : all_chars P (a ++ b)%string = all_chars P a && all_chars P b.
Proof. induction a as [|c a IH]; [done|]. rewrite sapp_cons. simpl. rewrite IH. apply andb_assoc. Qed.

Lemma all_chars_impl (P Q : ascii -> bool) s :
  (forall c, P c = true -> Q c = true) -> all_chars P s = true -> all_chars Q s = true.
Proof.
  intros H. induction s as [|c s IH]; [done|]. simpl. intros [? ?]%andb_true_iff.
  apply andb_true_iff. auto.
Qed.

(** Bytes other than the separator. *)
Definition other_than (sep c : ascii) : bool := negb (bool_decide (c = sep)).

Lemma other_than_same sep : other_than sep sep = false.
Proof. unfold other_than. by rewrite bool_decide_eq_true_2. Qed.

Lemma Cut_app k v sep :
  all_chars (other_than sep) k = true -> Cut (k ++ String sep v) sep = (k, v, true).
Proof.
  induction k as [|c k IH]; simpl; intros H.
  - simpl. by rewrite bool_decide_eq_true_2.
  - rewrite ?sapp_cons; simpl. apply andb_true_iff in H as [Hc Hk]. unfold other_than in Hc.
    apply negb_true_iff in Hc. by rewrite Hc, IH.
Qed.

Lemma Cut_true s sep b a :
  Cut s sep = (b, a, true) -> s = (b ++ String sep a)%string /\ all_chars (other_than sep) b = true.
Proof.
  revert b a. induction s as [|c s IH]; intros b a H; simpl in H; [done|].
  destruct (bool_decide (c = sep)) eqn:E.
  - apply bool_decide_eq_true in E as ->. injection H as <- <-. done.
  - destruct (Cut s sep) as [[b' a'] f] eqn:Hc. injection H as <- <- ->.
    destruct (IH b' a' eq_refl) as [-> Hb]. split; [done|]. simpl.
    unfold other_than at 1. by rewrite E.
Qed.

Lemma Cut_none s sep : all_chars (other_than sep) s = true -> Cut s sep = (s, "", false).
Proof.
  induction s as [|c s IH]; simpl; [done|]. intros [Hc Hs]%andb_true_iff.
  unfold other_than in Hc. apply negb_true_iff in Hc. by rewrite Hc, IH.
Qed.

Lemma Split_ne s sep : Split s sep <> [].
Proof. destruct s as [|c s]; simpl; [done|]. case_bool_decide; [done|]. by destruct (Split s sep). Qed.

Lemma Split_single s sep : all_chars (other_than sep) s = true -> Split s sep = [s].
Proof.
  induction s as [|c s IH]; simpl; [done|]. intros [Hc Hs]%andb_true_iff.
  unfold other_than in Hc. apply negb_true_iff in Hc. by rewrite Hc, IH.
Qed.

Lemma Split_app p s sep :
  all_chars (other_than sep) p = true -> Split (p ++ String sep s) sep = p :: Split s sep.
Proof.
  induction p as [|c p IH]; simpl; intros H.
  - simpl. by rewrite bool_decide_eq_true_2.
  - apply andb_true_iff in H as [Hc Hp]. rewrite ?sapp_cons; simpl. unfold other_than in Hc.
    apply negb_true_iff in Hc. by rewrite Hc, IH.
Qed.

Lemma Split_Join ps sep :
  ps <> [] -> Forall (fun p => all_chars (other_than sep) p = true) ps ->
  Split (Join ps (String sep "")) sep = ps.
Proof.
  intros Hne H. induction H as [|p ps Hp Hps IH]; [done|].
  destruct ps as [|q ps].
  - by apply Split_single.
  - change (Join (p :: q :: ps) (String sep "")) with (p ++ String sep "" ++ Join (q :: ps) (String sep ""))%string.
    rewrite sapp_cons. change ("" ++ ?x)%string with x. rewrite Split_app by done. by rewrite IH.
Qed.

Lemma Split_other s sep : Forall (fun p => all_chars (other_than sep) p = true) (Split s sep).
Proof.
  induction s as [|c s IH]; simpl; [by repeat constructor|].
  destruct (bool_decide (c = sep)) eqn:E; [by constructor|].
  destruct (Split s sep) as [|x l]; [by repeat constructor; simpl; unfold other_than; rewrite E|].
  inversion IH; subst. constructor; [|done]. simpl. unfold other_than at 1. rewrite E. done.
Qed.

Lemma Split_all_chars P s sep :
  all_chars P s = true -> Forall (fun p => all_chars P p = true) (Split s sep).
Proof.
  induction s as [|c s IH]; simpl; [by repeat constructor|]. intros [Hc Hs]%andb_true_iff.
  specialize (IH Hs). destruct (bool_decide (c = sep)); [by constructor|].
  destruct (Split s sep) as [|x l].
  - repeat constructor. simpl. by rewrite Hc.
  - inversion IH; subst. constructor; [|done]. simpl. by rewrite Hc.
Qed.

Lemma Join_Split s sep : Join (Split s sep) (String sep "") = s.
Proof.
  induction s as [|c s IH]; simpl; [done|]. case_bool_decide as E.
  - subst. pose proof (Split_ne s sep). destruct (Split s sep) as [|x l] eqn:Hs; [done|].
    change (Join ("" :: x :: l) (String sep "")) with ("" ++ String sep "" ++ Join (x :: l) (String sep ""))%string.
    by rewrite IH.
  - pose proof (Split_ne s sep). destruct (Split s sep) as [|x l] eqn:Hs; [done|].
    destruct l as [|y l].
    + simpl in *. by subst.
    + change (Join (String c x :: y :: l) (String sep ""))
        with (String c (x ++ String sep "" ++ Join (y :: l) (String sep "")))%string.
      f_equal. exact IH.
Qed.

Lemma all_chars_Join P ps sep :
  Forall (fun p => all_chars P p = true) ps -> all_chars P sep = true -> all_chars P (Join ps sep) = true.
Proof.
  intros H Hsep. induction H as [|p ps Hp Hps IH]; [done|]. destruct ps as [|q ps]; [done|].
  change (Join (p :: q :: ps) sep) with (p ++ sep ++ Join (q :: ps) sep)%string.
  by rewrite !all_chars_app, Hp, Hsep, IH.
Qed.

(** ** Prefixes *)

Lemma strip_prefix_app p s : strip_prefix p (p ++ s) = Some s.
Proof.
  induction p as [|c p IH]; [by destruct s|]. rewrite sapp_cons. simpl.
  by rewrite bool_decide_eq_true_2.
Qed.

Lemma strip_prefix_Some p s r : strip_prefix p s = Some r -> s = (p ++ r)%string.
Proof.
  revert s. induction p as [|c p IH]; intros s H; simpl in H.
  - by injection H as ->.
  - destruct s as [|d s]; [done|]. case_bool_decide as E; [|done]. subst.
    rewrite sapp_cons. f_equal. by apply IH.
Qed.

Lemma HasPrefix_app p s : HasPrefix (p ++ s) p = true.
Proof. unfold HasPrefix. rewrite strip_prefix_app. by apply bool_decide_eq_true_2. Qed.

Lemma TrimPrefix_app p s : TrimPrefix (p ++ s) p = s.
Proof. unfold TrimPrefix. by rewrite strip_prefix_app. Qed.

Lemma TrimPrefix_none s p : HasPrefix s p = false -> TrimPrefix s p = s.
Proof. unfold HasPrefix, TrimPrefix. by destruct (strip_prefix p s). Qed.

Lemma HasPrefix_true s p : HasPrefix s p = true -> s = (p ++ TrimPrefix s p)%string.
Proof.
  unfold HasPrefix, TrimPrefix. destruct (strip_prefix p s) eqn:E; [|done].
  intros _. by apply strip_prefix_Some.
Qed.

(** ** Decimal numbers *)

Definition is_digit (c : ascii) : bool := byte_in c 48 57.

Lemma digits_go_digits s acc v : digits_go s acc = Some v -> all_chars is_digit s = true.
Proof.
  revert acc. induction s as [|c s IH]; intros acc H; simpl in *; [done|].
  unfold digit in H. unfold is_digit at 1. destruct (byte_in c 48 57); [|done]. by eapply IH.
Qed.

Lemma ParseUint_digits s v : ParseUint s = Some v -> all_chars is_digit s = true.
Proof.
  unfold ParseUint. destruct s as [|c s]; [done|].
  destruct (digits_go (String c s) 0) eqn:E; [|done]. intros _. by eapply digits_go_digits.
Qed.

Lemma ParseUint_range s v : ParseUint s = Some v -> (0 <= v <= MaxUint64)%Z.
Proof.
  assert (Hpos : forall s acc v, (0 <= acc)%Z -> digits_go s acc = Some v -> (0 <= v)%Z).
  { clear. intros s. induction s as [|c s IH]; intros acc v Ha H; simpl in H.
    - injection H as <-. done.
    - destruct (digit c) as [d|] eqn:Hd; [|done]. eapply IH; [|exact H].
      unfold digit, byte_in in Hd. destruct (_ && _) eqn:E; [|done]. injection Hd as <-.
      apply andb_true_iff in E as [E _]. apply N.leb_le in E. lia. }
  unfold ParseUint. destruct s as [|c s]; [done|].
  destruct (digits_go (String c s) 0) as [x|] eqn:E; [|done].
  destruct (x <=? MaxUint64)%Z eqn:Hx; [|done]. intros [= <-]. apply Z.leb_le in Hx.
  split; [by eapply Hpos|done].
Qed.

Lemma digits_go_uint_acc d p :
  digits_go (NilEmpty.string_of_uint d) (Z.pos p) = Some (Z.pos (Pos.of_uint_acc d p)).
Proof.
  revert p. induction d as [|d IH|d IH|d IH|d IH|d IH|d IH|d IH|d IH|d IH|d IH]; intros p;
    [done|cbn [NilEmpty.string_of_uint digits_go]..];
    match goal with |- context [digit ?c] => let r := eval vm_compute in (digit c) in
      change (digit c) with r end; cbn [Pos.of_uint_acc]; rewrite <-IH; f_equal; lia.
Qed.

Lemma digits_go_uint d :
  digits_go (NilEmpty.string_of_uint d) 0 = Some (Z.of_N (Pos.of_uint d)).
Proof.
  induction d as [|d IH|d IH|d IH|d IH|d IH|d IH|d IH|d IH|d IH|d IH];
    [done|cbn [NilEmpty.string_of_uint digits_go]..];
    match goal with |- context [digit ?c] => let r := eval vm_compute in (digit c) in
      change (digit c) with r end; cbn [Pos.of_uint Z.of_N]; [exact IH|..];
    rewrite <-digits_go_uint_acc; f_equal; lia.
Qed.

Lemma itoa_digits v : (0 <= v)%Z -> all_chars is_digit (itoa v) = true /\ itoa v <> "".
Proof.
  assert (Hu : forall d, all_chars is_digit (NilEmpty.string_of_uint d) = true).
  { induction d; [done|..]; simpl; rewrite IHd; reflexivity. }
  intros Hv. unfold itoa. destruct v as [|p|p]; [by split|simpl|lia].
  destruct (Pos.to_uint p) eqn:E; unfold NilZero.string_of_uint; simpl; split; try done; apply Hu.
Qed.

Lemma ParseUint_itoa v : (0 <= v <= MaxUint64)%Z -> ParseUint (itoa v) = Some v.
Proof.
  intros Hv. assert (Hgo : digits_go (itoa v) 0 = Some v).
  { unfold itoa. destruct v as [|p|p]; [done|simpl|lia].
    pose proof (digits_go_uint (Pos.to_uint p)) as H.
    rewrite DecimalPos.Unsigned.of_to in H. cbn in H.
    unfold NilZero.string_of_uint. pose proof (DecimalPos.Unsigned.to_uint_nonnil p).
    by destruct (Pos.to_uint p). }
  unfold ParseUint. rewrite Hgo. destruct (itoa v) eqn:E; [|].
  - by destruct (itoa_digits v) as [_ ?]; [lia|].
  - by rewrite (proj2 (Z.leb_le v MaxUint64)) by lia.
Qed.

Lemma is_digit_visible c : is_digit c = true -> visible c = true.
Proof.
  unfold is_digit, visible, byte_in. intros [H1 H2]%andb_true_iff.
  apply N.leb_le in H1, H2. apply andb_true_iff. split; apply N.leb_le; lia.
Qed.

Lemma is_digit_other sep c : is_digit sep = false -> is_digit c = true -> other_than sep c = true.
Proof.
  intros Hs Hc. unfold other_than. apply negb_true_iff, bool_decide_eq_false. intros ->. congruence.
Qed.

(** ** Trimming twice *)

Lemma trim_left_done s : space_len s = 0%nat -> trim_left s = s.
Proof.
  destruct s as [|c1 s]; [done|]. cbn. destruct (space1 c1); [done|].
  destruct s as [|c2 s]; [done|]. destruct (space2 c1 c2); [done|].
  destruct s as [|c3 s]; [done|]. by destruct (space3 c1 c2 c3).
Qed.

Lemma trim_left_head s : space_len (trim_left s) = 0%nat.
Proof.
  induction s as [s IH] using (induction_ltof1 _ String.length). unfold ltof in IH.
  destruct s as [|c1 s]; [done|]. cbn [trim_left]. destruct (space1 c1) eqn:E1; [apply IH; cbn; lia|].
  destruct s as [|c2 s]; [cbn; by rewrite E1|]. destruct (space2 c1 c2) eqn:E2; [apply IH; cbn; lia|].
  destruct s as [|c3 s]; [cbn; by rewrite E1, E2|]. destruct (space3 c1 c2 c3) eqn:E3; [apply IH; cbn; lia|].
  cbn. by rewrite E1, E2, E3.
Qed.

Lemma space_len_prefix p q : space_len (p ++ q)%string = 0%nat -> space_len p = 0%nat.
Proof.
  destruct p as [|c1 p]; [done|]. rewrite sapp_cons. cbn. destruct (space1 c1); [done|].
  destruct p as [|c2 p]; [done|]. rewrite sapp_cons. cbn. destruct (space2 c1 c2); [done|].
  destruct p as [|c3 p]; [done|]. by rewrite sapp_cons.
Qed.

Lemma trim_rev_suffix s : exists p, s = (p ++ trim_rev s)%string.
Proof.
  induction s as [s IH] using (induction_ltof1 _ String.length). unfold ltof in IH.
  destruct s as [|c1 s]; [by exists ""|]. cbn [trim_rev]. destruct (space1 c1).
  { destruct (IH s) as [p Hp]; [cbn; lia|]. exists (String c1 p). by rewrite sapp_cons, <-Hp. }
  destruct s as [|c2 s]; [by exists ""|]. destruct (space2 c2 c1).
  { destruct (IH s) as [p Hp]; [cbn; lia|]. exists (String c1 (String c2 p)). by rewrite !sapp_cons, <-Hp. }
  destruct s as [|c3 s]; [by exists ""|]. destruct (space3 c3 c2 c1); [|by exists ""].
  destruct (IH s) as [p Hp]; [cbn; lia|]. exists (String c1 (String c2 (String c3 p))). by rewrite !sapp_cons, <-Hp.
Qed.

Lemma trim_rev_idem s : trim_rev (trim_rev s) = trim_rev s.
Proof.
  induction s as [s IH] using (induction_ltof1 _ String.length). unfold ltof in IH.
  destruct s as [|c1 s]; [done|]. cbn [trim_rev]. destruct (space1 c1) eqn:E1; [apply IH; cbn; lia|].
  destruct s as [|c2 s]; [cbn; by rewrite E1|]. destruct (space2 c2 c1) eqn:E2; [apply IH; cbn; lia|].
  destruct s as [|c3 s]; [cbn; by rewrite E1, E2|]. destruct (space3 c3 c2 c1) eqn:E3; [apply IH; cbn; lia|].
  cbn. by rewrite E1, E2, E3.
Qed.

Lemma TrimSpace_idem s : TrimSpace (TrimSpace s) = TrimSpace s.
Proof.
  unfold TrimSpace. set (t := trim_left s). destruct (trim_rev_suffix (rev t)) as [p Hp].
  set (u := trim_rev (rev t)) in *.
  assert (Ht : t = (rev u ++ rev p)%string).
  { rewrite <-(rev_rev t), Hp. unfold rev at 1. assert (Happ : forall a b acc, rev_app (a ++ b)%string acc = rev_app b (rev_app a acc)).
    { clear. induction a as [|c a IH]; intros b acc; [done|]. rewrite sapp_cons. apply IH. }
    by rewrite Happ, (rev_app_app u). }
  rewrite (trim_left_done (rev u)).
  - rewrite rev_rev. unfold u. by rewrite trim_rev_idem.
  - apply (space_len_prefix _ (rev p)). rewrite <-Ht. apply trim_left_head.
Qed.

End GoStr.
