(* ===== verification/GoSort.v ===== *)
(** * [container/heap] and [sort.SliceStable]

    The heap operations on a slice, with [Less] the comparison of a key: [Push] and
    [Pop] with their sift loops, and the stable sort, as an insertion sort (a stable
    sort by a strict weak order has one result).

    Modules [GoHeap]: [container/heap] and [sort.SliceStable];
    [GoSort]: [sort]: stable sorting and binary search. *)

From Stdlib Require Import ZArith Lia.
From stdpp Require Import base list sorting.
From S2P Require Import Prelude.

Module GoHeap.
#[local] Open Scope nat_scope.

Section heap.
Context {A : Type} (key : A -> Z).
Implicit Types (l : list A).

Definition Less (a b : A) : bool := (key a <? key b)%Z.

(** [h.Less(i, j)] and [h.Swap(i, j)] *)
Definition less_at l (i j : nat) : bool :=
  match l !! i, l !! j with Some x, Some y => Less x y | _, _ => false end.
Definition swap l (i j : nat) : list A :=
  match l !! i, l !! j with Some x, Some y => <[i := y]> (<[j := x]> l) | _, _ => l end.

Definition parent (j : nat) : nat := (j - 1) / 2.

(** The position strictly decreases: [fuel] above it is enough. *)
Fixpoint up (fuel : nat) l (j : nat) : list A :=
  match fuel with
  | O => l
  | S n =>
      let i := parent j in
      if (i =? j) || negb (less_at l j i) then l else up n (swap l i j) i
  end.

Definition Push l (x : A) : list A :=
  let l := l ++ [x] in up (length l) l (length l - 1).

(** [down(h, i, n)]; the position strictly increases below [n]. *)
Fixpoint down (fuel : nat) l (i n : nat) : list A :=
  match fuel with
  | O => l
  | S m =>
      let j1 := 2 * i + 1 in
      if n <=? j1 then l else
      let j2 := j1 + 1 in
      let j := if (j2 <? n) && less_at l j2 j1 then j2 else j1 in
      if negb (less_at l j i) then l else down m (swap l i j) j n
  end.

(** [None] is the index panic on an empty heap. *)
Definition Pop l : option (A * list A) :=
  match l with
  | [] => None
  | _ =>
      let n := length l - 1 in
      let l := down (S n) (swap l 0 n) 0 n in
      x ← l !! n; Some (x, take n l)
  end.

(** ** Keys by position *)

Definition K l (i : nat) : Z := match l !! i with Some x => key x | None => 0%Z end.

Definition heap l : Prop := forall i, 0 < i < length l -> (K l (parent i) <= K l i)%Z.

Lemma swap_length l i j : length (swap l i j) = length l.
Proof. unfold swap. destruct (l !! i), (l !! j); by rewrite ?length_insert. Qed.

Lemma swap_K l i j k : i < length l -> j < length l ->
  K (swap l i j) k = if k =? i then K l j else if k =? j then K l i else K l k.
Proof.
  intros Hi Hj. unfold K, swap.
  destruct (lookup_lt_is_Some_2 l i Hi) as [x Hx], (lookup_lt_is_Some_2 l j Hj) as [y Hy]. rewrite Hx, Hy.
  destruct (Nat.eqb_spec k i) as [-> |Hki].
  { by rewrite list_lookup_insert_eq by (by rewrite length_insert). }
  rewrite list_lookup_insert_ne by done. destruct (Nat.eqb_spec k j) as [-> |Hkj].
  { by rewrite list_lookup_insert_eq by done. }
  by rewrite list_lookup_insert_ne by done.
Qed.

Lemma swap_Permutation l i j : swap l i j ≡ₚ l.
Proof.
  unfold swap. destruct (l !! i) as [x|] eqn:Hx, (l !! j) as [y|] eqn:Hy; try done.
  by apply Permutation_insert_swap.
Qed.

Lemma less_at_K l i j : i < length l -> j < length l -> less_at l i j = (K l i <? K l j)%Z.
Proof.
  intros Hi Hj. unfold less_at, K, Less.
  by destruct (lookup_lt_is_Some_2 l i Hi) as [x ->], (lookup_lt_is_Some_2 l j Hj) as [y ->].
Qed.

(** ** Sifting *)


Lemma parent_lt j : 0 < j -> parent j < j.
Proof. intros. unfold parent. apply Nat.Div0.div_lt_upper_bound; lia. Qed.

Lemma parent_children i c : 0 < c -> (parent c = i <-> c = 2 * i + 1 \/ c = 2 * i + 2).
Proof.
  intros Hc. unfold parent. pose proof (Nat.div_mod_eq (c - 1) 2). pose proof (Nat.mod_upper_bound (c - 1) 2). lia.
Qed.

Lemma up_Permutation n l j : up n l j ≡ₚ l.
Proof.
  revert l j. induction n as [|n IH]; intros l j; [done|]. cbn [up]. destruct (_ || _); [done|].
  by rewrite IH, swap_Permutation.
Qed.

Lemma up_heap n l j : j < n -> j < length l ->
  (forall i, 0 < i < length l -> i <> j -> (K l (parent i) <= K l i)%Z) ->
  (forall c, 0 < c < length l -> parent c = j -> 0 < j -> (K l (parent j) <= K l c)%Z) ->
  heap (up n l j).
Proof.
  revert l j. induction n as [|n IH]; intros l j Hn Hj Hord Hch; [lia|]. cbn [up].
  destruct (Nat.eqb_spec (parent j) j) as [Heq|Hne]; cbn [orb].
  { intros i Hi. apply Hord; [done|]. intros ->. pose proof (parent_lt j). lia. }
  assert (Hj0 : 0 < j) by (destruct j; [done|lia]). pose proof (parent_lt j Hj0) as Hp.
  rewrite less_at_K by lia. destruct (Z.ltb_spec (K l j) (K l (parent j))) as [Hlt|Hge]; cbn [negb].
  2:{ intros i Hi. destruct (decide (i = j)) as [-> |]; [done|by apply Hord]. }
  apply IH; rewrite ?swap_length; [lia|lia| |].
  - intros i Hi Hne'. rewrite !swap_K by lia.
    destruct (Nat.eqb_spec i (parent j)) as [->|_]; [done|].
    destruct (Nat.eqb_spec i j) as [-> |Hij].
    { rewrite Nat.eqb_refl. lia. }
    destruct (Nat.eqb_spec (parent i) (parent j)) as [Hpe|_]; [specialize (Hord i Hi Hij); rewrite Hpe in Hord; lia|].
    destruct (Nat.eqb_spec (parent i) j) as [Hpe|_]; [by apply Hch|by apply Hord].
  - intros c Hc Hpc Hpj. rewrite !swap_K by lia. pose proof (parent_lt _ Hpj).
    assert (Hgp : (K l (parent (parent j)) <= K l (parent j))%Z) by (apply Hord; lia).
    destruct (Nat.eqb_spec (parent (parent j)) (parent j)); [lia|].
    destruct (Nat.eqb_spec (parent (parent j)) j); [lia|].
    destruct (Nat.eqb_spec c (parent j)) as [-> |]; [lia|].
    destruct (Nat.eqb_spec c j) as [-> |Hcj]; [done|].
    pose proof (Hord c Hc Hcj) as Hoc. rewrite Hpc in Hoc. lia.
Qed.

Lemma down_Permutation m l i n : down m l i n ≡ₚ l.
Proof.
  revert l i. induction m as [|m IH]; intros l i; [done|]. cbn [down]. destruct (n <=? _); [done|].
  destruct (negb _); [done|]. by rewrite IH, swap_Permutation.
Qed.

(** Positions from [n] on are not touched. *)
Lemma down_beyond m l i n k : n <= length l -> i < n -> n <= k -> down m l i n !! k = l !! k.
Proof.
  revert l i. induction m as [|m IH]; intros l i Hn Hi Hk; [done|]. cbn [down].
  destruct (Nat.leb_spec n (2 * i + 1)) as [|Hj1]; [done|].
  set (j := if _ && _ then _ else _). assert (Hj : j < n).
  { unfold j. destruct (Nat.ltb_spec (2 * i + 1 + 1) n); cbn; [destruct (less_at _ _ _)|]; lia. }
  destruct (negb _); [done|]. rewrite IH by (rewrite ?swap_length; lia). unfold swap.
  destruct (l !! i), (l !! j); try done. by rewrite !list_lookup_insert_ne by lia.
Qed.

Lemma down_heap m l i n : n <= length l -> n - i < m ->
  (forall k, 0 < k < n -> parent k <> i -> (K l (parent k) <= K l k)%Z) ->
  (forall c, 0 < c < n -> parent c = i -> 0 < i -> (K l (parent i) <= K l c)%Z) ->
  forall k, 0 < k < n -> (K (down m l i n) (parent k) <= K (down m l i n) k)%Z.
Proof.
  revert l i. induction m as [|m IH]; intros l i Hn Hm Hord Hch; [lia|]. cbn [down].
  destruct (Nat.leb_spec n (2 * i + 1)) as [Hle|Hj1].
  { intros k Hk. apply Hord; [done|]. intros Hp%parent_children; lia. }
  set (j := if _ && _ then _ else _).
  assert (Hj : 0 < j < n /\ parent j = i /\ forall c, 0 < c < n -> parent c = i -> (K l j <= K l c)%Z).
  { unfold j. destruct (Nat.ltb_spec (2 * i + 1 + 1) n) as [Hj2|Hj2]; cbn [andb].
    - rewrite less_at_K by lia. destruct (Z.ltb_spec (K l (2 * i + 1 + 1)) (K l (2 * i + 1))).
      + split; [lia|]. split; [apply parent_children; lia|]. intros c Hc [-> | ->]%parent_children; try lia.
        by replace (2 * i + 2) with (2 * i + 1 + 1) by lia.
      + split; [lia|]. split; [apply parent_children; lia|]. intros c Hc [-> | ->]%parent_children; try lia.
        replace (2 * i + 2) with (2 * i + 1 + 1) by lia. lia.
    - split; [lia|]. split; [apply parent_children; lia|]. intros c Hc [-> | ->]%parent_children; lia. }
  destruct Hj as (Hjn & Hpj & Hmin). clearbody j.
  assert (Hij : i < j) by (rewrite <-Hpj; apply parent_lt; lia).
  rewrite less_at_K by lia. destruct (Z.ltb_spec (K l j) (K l i)) as [Hlt|Hge]; cbn [negb].
  2:{ intros k Hk. destruct (decide (parent k = i)) as [Hp|Hp]; [|by apply Hord].
      rewrite Hp. specialize (Hmin k Hk Hp). lia. }
  apply IH; rewrite ?swap_length; [lia|lia| |].
  - intros k Hk Hpk. rewrite !swap_K by lia.
    destruct (Nat.eqb_spec k i) as [-> |Hki].
    + destruct (Nat.eqb_spec (parent i) i); [pose proof (parent_lt i); lia|].
      destruct (Nat.eqb_spec (parent i) j); [pose proof (parent_lt i); lia|]. apply Hch; [lia|done|lia].
    + destruct (Nat.eqb_spec k j) as [-> |Hkj].
      { rewrite Hpj, Nat.eqb_refl. lia. }
      destruct (Nat.eqb_spec (parent k) i) as [Hp|Hp]; [by apply Hmin|].
      destruct (Nat.eqb_spec (parent k) j); [done|]. by apply Hord.
  - intros c Hc Hpc Hj0. rewrite !swap_K by lia.
    assert (Hjc : j < c) by (rewrite <-Hpc; apply parent_lt; lia).
    rewrite Hpj, Nat.eqb_refl.
    destruct (Nat.eqb_spec c i); [lia|]. destruct (Nat.eqb_spec c j); [lia|].
    rewrite <-Hpc. apply Hord; [done|lia].
Qed.

(** ** The contract of the heap *)

Lemma heap_least l x : heap l -> l !! 0 = Some x -> Forall (fun y => (key x <= key y)%Z) l.
Proof.
  intros Hh Hx. apply Forall_lookup. intros i y Hy.
  assert (H : (K l 0 <= K l i)%Z).
  { assert (Hi : i < length l) by (by eapply lookup_lt_Some). clear Hy. revert Hi.
    induction (lt_wf i) as [i _ IH]. intros Hi. destruct (decide (i = 0)) as [-> |Hne]; [done|].
    pose proof (parent_lt i ltac:(lia)). specialize (IH (parent i) ltac:(lia) ltac:(lia)).
    specialize (Hh i ltac:(lia)). lia. }
  unfold K in H. by rewrite Hx, Hy in H.
Qed.

Lemma Push_Permutation l x : Push l x ≡ₚ x :: l.
Proof. unfold Push. rewrite up_Permutation. symmetry. apply Permutation_cons_append. Qed.

Lemma Push_heap l x : heap l -> heap (Push l x).
Proof.
  intros Hh. unfold Push. rewrite length_app. cbn [length].
  apply up_heap; rewrite ?length_app; cbn [length]; [lia|lia| |].
  - intros i Hi Hne. pose proof (parent_lt i ltac:(lia)).
    assert (Hi' : i < length l) by lia. specialize (Hh i ltac:(lia)). revert Hh. unfold K.
    by rewrite !lookup_app_l by lia.
  - intros c Hc Hpc. pose proof (parent_lt c ltac:(lia)). lia.
Qed.

Lemma K_take l n i : i < n -> K (take n l) i = K l i.
Proof. intros Hi. unfold K. by rewrite lookup_take_lt. Qed.

Lemma Pop_spec l : heap l -> l <> [] ->
  exists x l', Pop l = Some (x, l') /\ l !! 0 = Some x /\ l ≡ₚ x :: l' /\ heap l'.
Proof.
  intros Hh Hl. unfold Pop. destruct l as [|x t]; [done|]. set (l := x :: t) in *.
  set (n := length l - 1). assert (Hlen : length l = S n) by (unfold n, l; cbn [length]; lia).
  set (d := down (S n) (swap l 0 n) 0 n).
  assert (Hdl : length d = S n) by (unfold d; by rewrite down_Permutation, swap_length).
  destruct (lookup_lt_is_Some_2 l n ltac:(lia)) as [y Hy].
  assert (Hx : d !! n = Some x).
  { unfold d. destruct (decide (n = 0)) as [Hn0|Hn0].
    - destruct t as [|z t]; [reflexivity|]. unfold n in Hn0. cbn in Hn0. lia.
    - assert (H0 : l !! 0 = Some x) by done.
      rewrite down_beyond by (rewrite ?swap_length; lia). unfold swap. rewrite H0, Hy.
      rewrite list_lookup_insert_ne by lia. rewrite list_lookup_insert_eq by lia. done. }
  rewrite Hx. cbn. exists x, (take n d). split_and!; [done|done| |].
  - assert (Hd : d ≡ₚ l) by (unfold d; by rewrite down_Permutation, swap_Permutation).
    rewrite <-Hd. rewrite <-(take_drop n d) at 1. rewrite (drop_S d x n Hx).
    rewrite (drop_ge d (S n)) by lia. by rewrite Permutation_app_comm.
  - intros i Hi. rewrite length_take in Hi. rewrite !K_take by (pose proof (parent_lt i); lia).
    apply down_heap; rewrite ?swap_length; [lia|lia| |lia|lia].
    intros k Hk Hp. rewrite !swap_K by lia. pose proof (parent_lt k ltac:(lia)).
    destruct (Nat.eqb_spec k 0); [lia|]. destruct (Nat.eqb_spec k n); [lia|].
    destruct (Nat.eqb_spec (parent k) 0); [done|]. destruct (Nat.eqb_spec (parent k) n); [lia|].
    apply Hh. lia.
Qed.

End heap.
End GoHeap.

(** * [sort]: stable sorting and binary search

    [sort.SliceStable] as an insertion sort: a stable sort by a strict weak order has
    one result, whatever the algorithm.  [sort.Search] is its binary search. *)

Module GoSort.
#[local] Open Scope nat_scope.

Section sort.
Context {A : Type} (less : A -> A -> bool).

(** After the elements that are not greater. *)
Fixpoint insert_stable (x : A) (l : list A) : list A :=
  match l with
  | [] => [x]
  | y :: l' => if less x y then x :: l else y :: insert_stable x l'
  end.

Definition SliceStable (l : list A) : list A := foldl (fun acc x => insert_stable x acc) [] l.

Lemma insert_stable_Permutation x l : insert_stable x l ≡ₚ x :: l.
Proof.
  induction l as [|y l IH]; [done|]. cbn [insert_stable]. destruct (less x y); [done|].
  rewrite IH. apply Permutation_swap.
Qed.

Lemma foldl_insert_Permutation acc l : foldl (fun acc x => insert_stable x acc) acc l ≡ₚ acc ++ l.
Proof.
  revert acc. induction l as [|x l IH]; intros acc; cbn [foldl]; [by rewrite app_nil_r|].
  rewrite IH, insert_stable_Permutation. cbn. by rewrite <-Permutation_middle.
Qed.

Lemma SliceStable_Permutation l : SliceStable l ≡ₚ l.
Proof. unfold SliceStable. by rewrite foldl_insert_Permutation. Qed.

(** The order of the result: by [less], and equal elements as they stood. *)
Definition before (R : A -> A -> Prop) (a b : A) : Prop :=
  less a b = true \/ (less b a = false /\ R a b).

Context (less_trans : forall a b c, less a b = true -> less b c = true -> less a c = true)
        (less_asym : forall a b, less a b = true -> less b a = false)
        (less_weak : forall a b c, less a b = false -> less b c = false -> less a c = false).

Lemma less_before_trans (R : A -> A -> Prop) x y z : less x y = true -> before R y z -> less x z = true.
Proof.
  intros Hxy [Hyz|[Hzy _]]; [by eapply less_trans|].
  destruct (less x z) eqn:E; [done|]. by rewrite (less_weak x z y E Hzy) in Hxy.
Qed.

Lemma insert_stable_sorted R x l :
  StronglySorted (before R) l -> Forall (fun y => R y x) l -> StronglySorted (before R) (insert_stable x l).
Proof.
  induction 1 as [|y l Hs IH Hy]; intros HR; cbn [insert_stable]; [by repeat constructor|].
  apply Forall_cons in HR as [HR HRs]. destruct (less x y) eqn:E.
  - constructor; [by constructor|]. constructor; [by left|].
    eapply Forall_impl; [exact Hy|]. intros z Hz. left. by eapply less_before_trans.
  - constructor; [by apply IH|]. rewrite insert_stable_Permutation. constructor; [|done]. by right.
Qed.

Lemma SliceStable_sorted R l : StronglySorted R l -> StronglySorted (before R) (SliceStable l).
Proof.
  intros Hl. unfold SliceStable.
  assert (H : forall acc, StronglySorted (before R) acc -> Forall (fun y => Forall (R y) l) acc ->
    StronglySorted (before R) (foldl (fun acc x => insert_stable x acc) acc l)).
  { induction Hl as [|x l Hl IH Hx]; intros acc Ha Hf; [done|]. cbn [foldl]. apply IH.
    - apply insert_stable_sorted; [done|]. eapply Forall_impl; [exact Hf|]. by intros y [? _]%Forall_cons.
    - rewrite insert_stable_Permutation. constructor; [done|]. eapply Forall_impl; [exact Hf|].
      by intros y [_ ?]%Forall_cons. }
  apply H; constructor.
Qed.
End sort.

(** ** Binary search *)

Section search.
Context (f : nat -> bool).

(** The interval shrinks: [fuel] above its length is enough. *)
Fixpoint search_loop (fuel i j : nat) : nat :=
  match fuel with
  | O => i
  | S n => if i <? j then let h := (i + j) / 2 in if f h then search_loop n i h else search_loop n (h + 1) j else i
  end.
Definition Search (n : nat) : nat := search_loop (S n) 0 n.

Context (bound : nat) (mono : forall i j, i <= j < bound -> f i = true -> f j = true).

Lemma search_loop_spec fuel i j : j - i < fuel -> i <= j <= bound ->
  let r := search_loop fuel i j in
  i <= r <= j /\ (forall k, i <= k < r -> f k = false) /\ (forall k, r <= k < j -> f k = true).
Proof.
  revert i j. induction fuel as [|n IH]; intros i j Hf Hij; [lia|]. cbn [search_loop].
  destruct (Nat.ltb_spec i j) as [Hlt|]; [|split_and!; intros; lia].
  assert (Hh : i <= (i + j) / 2 < j).
  { split; [apply Nat.div_le_lower_bound; lia|apply Nat.Div0.div_lt_upper_bound; lia]. }
  set (h := (i + j) / 2) in *. destruct (f h) eqn:E; cbn zeta.
  - destruct (IH i h ltac:(lia) ltac:(lia)) as (Hr & Hlo & Hhi). split_and!; [lia|lia|done|].
    intros k Hk. destruct (decide (k < h)); [apply Hhi; lia|]. apply (mono h); [lia|done].
  - destruct (IH (h + 1) j ltac:(lia) ltac:(lia)) as (Hr & Hlo & Hhi). split_and!; [lia|lia| |done].
    intros k Hk. destruct (decide (h < k)); [apply Hlo; lia|].
    destruct (f k) eqn:Ek; [|done]. by rewrite (mono k h ltac:(lia) Ek) in E.
Qed.

Lemma Search_spec : let n := bound in Search n <= n /\ (forall k, k < Search n -> f k = false) /\
  (forall k, Search n <= k < n -> f k = true).
Proof.
  intros n. destruct (search_loop_spec (S n) 0 n ltac:(lia) ltac:(unfold n; lia)) as (? & Hlo & Hhi). unfold Search.
  split_and!; [lia| |done]. intros k Hk. apply Hlo. lia.
Qed.
End search.

(** [sort.SearchInts] on the elements of [l]; positions out of range are not asked. *)
Definition at_ (l : list Z) (i : nat) : Z := match l !! i with Some v => v | None => 0%Z end.
Definition SearchInts (l : list Z) (x : Z) : nat := Search (fun i => (x <=? at_ l i)%Z) (length l).

(** [sort.Ints] *)
Definition Ints (l : list Z) : list Z := SliceStable Z.ltb l.

End GoSort.
