(* ===== verification/GoFloat.v ===== *)
(** * [float64]: rounding, [strconv.ParseFloat] and [math.Round]

    A finite [float64] is the fraction it stands for; [nearest] rounds a fraction to
    the nearest one, ties to even, with the 53-bit significand and the least exponent
    -1074 of IEEE 754.  [ParseFloat] reads decimal and hexadecimal literals with
    underscores, as [readFloat] of the standard library does. *)

From Stdlib Require Import ZArith Lia Ascii String.
From stdpp Require Import base list strings.
From S2P Require Import Prelude GoStrings.

Module GoFloat.
Import GoStr.
#[local] Open Scope Z_scope.

(** [Fin n d] is [n / d], [d > 0]. *)
Inductive float64 := Fin (num den : Z) | Inf (neg : bool) | NaN.

(** [a / b] to the nearest integer, ties to even. *)
Definition half_even (a b : Z) : Z :=
  let q := a / b in
  let r := a mod b in
  if 2 * r <? b then q else if b <? 2 * r then q + 1 else if Z.even q then q else q + 1.

(** The exponent of the last place of [n / d], [n > 0]. *)
Definition last_place (n d : Z) : Z :=
  let e := Z.log2 n - Z.log2 d - 52 in
  let below := if 0 <=? e then n <? 2 ^ 52 * (d * 2 ^ e) else n * 2 ^ (- e) <? 2 ^ 52 * d in
  Z.max (if below : bool then e - 1 else e) (-1074).

Definition nearest_mag (n d : Z) : Z * Z :=
  if n =? 0 then (0, 1) else
  let e := last_place n d in
  if 0 <=? e then (half_even n (d * 2 ^ e) * 2 ^ e, 1) else (half_even (n * 2 ^ (- e)) d, 2 ^ (- e)).

Definition nearest (n d : Z) : float64 :=
  let '(a, b) := nearest_mag (Z.abs n) d in
  if 2 ^ 1024 * b <=? a then Inf (n <? 0) else Fin (Z.sgn n * a) b.

(** [math.Round], then [int(...)]: half away from zero. *)
Definition round_away (n d : Z) : Z := Z.sgn n * ((2 * Z.abs n + d) / (2 * d)).

(** [float64(i)], [a * b] and [a / b]; [None] at a division by zero, an infinity or a
    NaN, which the arithmetic of the program does not meet. *)
Definition of_int (i : Z) : float64 := nearest i 1.
Definition fmul (a b : float64) : option float64 :=
  match a, b with Fin n d, Fin n' d' => Some (nearest (n * n') (d * d')) | _, _ => None end.
Definition fdiv (a b : float64) : option float64 :=
  match a, b with
  | Fin n d, Fin n' d' => if n' =? 0 then None else Some (nearest (Z.sgn n' * n * d') (d * Z.abs n'))
  | _, _ => None
  end.
Definition fround (a : float64) : option Z := match a with Fin n d => Some (round_away n d) | _ => None end.

(** ** [strconv.ParseFloat] *)

Definition hex_value (c : ascii) : option Z :=
  let c := lower_byte c in
  if byte_in c 97 102 then Some (Z.of_N (N_of_ascii c) - 87) else None.

Definition digit_value (hex : bool) (c : ascii) : option Z :=
  match digit c with Some d => Some d | None => if hex then hex_value c else None end.

(** The mantissa as far as it goes: its digits, how many followed the point, whether
    there was a point and whether there was a digit; the rest of the literal. *)
Record mantissa := { digits : Z; decimals : Z; sawdot : bool; sawdigits : bool }.

Fixpoint read_mantissa (hex : bool) (s : string) (m : mantissa) : mantissa * string :=
  match s with
  | EmptyString => (m, "")
  | String c r =>
      if bool_decide (c = "_"%char) then read_mantissa hex r m else
      if bool_decide (c = "."%char) then
        if sawdot m then (m, s)
        else read_mantissa hex r
               {| digits := digits m; decimals := decimals m; sawdot := true; sawdigits := sawdigits m |}
      else
        match digit_value hex c with
        | Some d => read_mantissa hex r
            {| digits := digits m * (if hex then 16 else 10) + d;
               decimals := if sawdot m then decimals m + 1 else decimals m;
               sawdot := sawdot m; sawdigits := true |}
        | None => (m, s)
        end
  end%string.

(** The digits of the exponent; the value stops growing at 10000. *)
Fixpoint read_exponent (s : string) (e : Z) : option Z :=
  match s with
  | EmptyString => Some e
  | String c r =>
      if bool_decide (c = "_"%char) then read_exponent r e else
      match digit c with
      | Some d => read_exponent r (if e <? 10000 then e * 10 + d else e)
      | None => None
      end
  end.

Definition exponent_digits (s : string) (sign : Z) : option Z :=
  match s with
  | String c _ => match digit c with
                  | Some _ => match read_exponent s 0 with Some e => Some (sign * e) | None => None end
                  | None => None
                  end
  | EmptyString => None
  end.

(** The optional exponent, up to the end of the literal. *)
Definition read_exponent_part (hex : bool) (s : string) : option Z :=
  match s with
  | EmptyString => if hex then None else Some 0
  | String c r =>
      if bool_decide (lower_byte c = if hex then "p"%char else "e"%char) then
        match r with
        | String "+" r' => exponent_digits r' 1
        | String "-" r' => exponent_digits r' (-1)
        | _ => exponent_digits r 1
        end
      else None
  end.

Inductive seen := Start | Digit | Underscore | Other.

(** [underscoreOK] after the sign and the base prefix. *)
Fixpoint underscores (hex : bool) (s : string) (saw : seen) : bool :=
  match s with
  | EmptyString => match saw with Underscore => false | _ => true end
  | String c r =>
      match digit_value hex c with
      | Some _ => underscores hex r Digit
      | None =>
          if bool_decide (c = "_"%char)
          then match saw with Digit => underscores hex r Underscore | _ => false end
          else match saw with Underscore => false | _ => underscores hex r Other end
      end
  end.

Definition underscoreOK (s : string) : bool :=
  match s with
  | String "0" (String c r) =>
      let c' := lower_byte c in
      if bool_decide (c' = "b"%char) || bool_decide (c' = "o"%char) || bool_decide (c' = "x"%char)
      then underscores (bool_decide (c' = "x"%char)) r Digit
      else underscores false s Start
  | _ => underscores false s Start
  end.

(** An optional sign. *)
Definition cut_sign (s : string) : bool * string :=
  match s with String "+" r => (false, r) | String "-" r => (true, r) | _ => (false, s) end.

(** The base prefix [0x], when something follows it. *)
Definition cut_hex (s : string) : bool * string :=
  match s with
  | String "0" (String c (String c' r)) =>
      if bool_decide (lower_byte c = "x"%char) then (true, String c' r) else (false, s)
  | _ => (false, s)
  end.

(** [readFloat] of a whole literal, correctly rounded. *)
Definition read_number (neg : bool) (s : string) : option float64 :=
  let '(hex, body) := cut_hex s in
  let '(m, rest) := read_mantissa hex body {| digits := 0; decimals := 0; sawdot := false; sawdigits := false |} in
  if negb (sawdigits m) then None else
  match read_exponent_part hex rest with
  | None => None
  | Some e =>
      if negb (underscoreOK s) then None else
      let sign := if neg then -1 else 1 in
      let '(base, e) := if hex then (2, e - 4 * decimals m) else (10, e - decimals m) in
      Some (if 0 <=? e then nearest (sign * digits m * base ^ e) 1
            else nearest (sign * digits m) (base ^ (- e)))
  end.

Fixpoint lower_bytes (s : string) : string :=
  match s with EmptyString => "" | String c r => String (lower_byte c) (lower_bytes r) end.

(** [None] is an error: of the syntax, or a value out of range. *)
Definition ParseFloat (s : string) : option float64 :=
  let '(neg, body) := cut_sign s in
  let lowered := lower_bytes body in
  if bool_decide (lowered = "inf"%string) || bool_decide (lowered = "infinity"%string) then Some (Inf neg) else
  if bool_decide (lower_bytes s = "nan"%string) then Some NaN else
  match read_number neg body with
  | Some (Inf _) => None
  | r => r
  end.

(** ** Integers are exact *)

Definition is_int (f : float64) (z : Z) : Prop := exists d, 0 < d /\ f = Fin (z * d) d.

Lemma half_even_exact a b : 0 < b -> half_even (a * b) b = a.
Proof.
  intros Hb. unfold half_even. rewrite Z.div_mul, Z.mod_mul by lia.
  by rewrite (proj2 (Z.ltb_lt _ _)) by lia.
Qed.

Lemma nearest_int z : Z.abs z < 2 ^ 53 -> is_int (nearest z 1) z.
Proof.
  intros Hz. unfold nearest, nearest_mag. destruct (Z.eqb_spec (Z.abs z) 0) as [E|E].
  { exists 1. assert (z = 0) as -> by lia. done. }
  set (n := Z.abs z) in *. assert (Hn : 0 < n < 2 ^ 53) by (unfold n; lia).
  assert (Hl : 0 <= Z.log2 n <= 52).
  { split; [apply Z.log2_nonneg|]. apply Z.lt_succ_r. apply Z.log2_lt_pow2; [lia|exact (proj2 Hn)]. }
  assert (He : -1074 < last_place n 1 <= 0).
  { unfold last_place. change (Z.log2 1) with 0. destruct (_ : bool); lia. }
  set (e := last_place n 1) in *. clearbody e.
  assert (Hfin : forall d, 0 < d -> is_int (if 2 ^ 1024 * d <=? n * d then Inf (z <? 0) else Fin (Z.sgn z * (n * d)) d) z).
  { intros d Hd. destruct (Z.leb_spec (2 ^ 1024 * d) (n * d)).
    - assert (n * d < 2 ^ 1024 * d); [|lia]. apply Z.mul_lt_mono_pos_r; [done|].
      apply Z.lt_trans with (2 ^ 53); [lia|by vm_compute].
    - exists d. split; [done|]. f_equal. unfold n. rewrite Z.mul_assoc, <-Z.sgn_abs. lia. }
  destruct (Z.leb_spec 0 e).
  - assert (e = 0) as -> by lia. change (2 ^ 0) with 1. replace (half_even n (1 * 1)) with n by (rewrite <-(half_even_exact n 1) at 1 by lia; by rewrite Z.mul_1_r).
    exact (Hfin 1 ltac:(lia)).
  - pose proof (Z.pow_pos_nonneg 2 (- e) ltac:(lia) ltac:(lia)) as Hp.
    replace (half_even (n * 2 ^ (- e)) 1) with (n * 2 ^ (- e)); [by apply Hfin|].
    rewrite <-(Z.mul_1_r (n * 2 ^ (- e))) at 2. by rewrite half_even_exact.
Qed.

Lemma round_int z d : 0 < d -> round_away (z * d) d = z.
Proof.
  intros Hd. unfold round_away. rewrite Z.abs_mul, (Z.abs_eq d), Z.sgn_mul, (Z.sgn_pos d) by lia.
  replace (2 * (Z.abs z * d) + d) with (d + Z.abs z * (2 * d)) by lia.
  rewrite Z.div_add, Z.div_small by lia. rewrite Z.mul_1_r, Z.add_0_l, Z.mul_comm. apply Z.abs_sgn.
Qed.

(** ** Digit strings *)

Lemma read_mantissa_digits s acc v b :
  digits_go s acc = Some v ->
  exists b', read_mantissa false s {| digits := acc; decimals := 0; sawdot := false; sawdigits := b |} =
    ({| digits := v; decimals := 0; sawdot := false; sawdigits := b' |}, ""%string) /\
    (b = true \/ s <> ""%string -> b' = true).
Proof.
  revert acc b. induction s as [|c s IH]; intros acc b H; cbn in H |- *.
  { injection H as <-. exists b. split; [done|]. by intros [|]. }
  destruct (digit c) as [d|] eqn:Hd; [|done].
  assert (Hc : c <> "_"%char /\ c <> "."%char) by (split; intros ->; done).
  rewrite !bool_decide_false by apply Hc. unfold digit_value. rewrite Hd. cbn [digits decimals sawdot sawdigits].
  destruct (IH _ true H) as (b' & Heq & Hb). exists b'. split; [done|]. intros _. apply Hb. by left.
Qed.

Lemma underscores_digits s saw : all_chars is_digit s = true -> saw <> Underscore -> underscores false s saw = true.
Proof.
  revert saw. induction s as [|c s IH]; intros saw Hs Hn; cbn in *; [by destruct saw|].
  apply andb_true_iff in Hs as [Hc Hs]. unfold digit_value, digit. unfold is_digit in Hc. rewrite Hc. by apply IH.
Qed.

Lemma digit_lower c : is_digit c = true -> lower_byte c = c.
Proof.
  unfold is_digit, lower_byte, byte_in. intros [H1 H2]%andb_true_iff. apply N.leb_le in H1, H2.
  destruct (_ && _) eqn:E; [|done]. apply andb_true_iff in E as [E1 E2]. apply N.leb_le in E1, E2. lia.
Qed.

Lemma digit_range c d : digit c = Some d -> 0 <= d <= 9.
Proof.
  unfold digit, byte_in. destruct (_ && _) eqn:E; [|done]. apply andb_true_iff in E as [E1 E2].
  apply N.leb_le in E1, E2. intros [= <-]. lia.
Qed.

(** The digits of a number read as that number, up to 2^53. *)
Lemma ParseFloat_digits s v : ParseUint s = Some v -> v < 2 ^ 53 -> exists f, ParseFloat s = Some f /\ is_int f v.
Proof.
  intros Hp Hv. pose proof (ParseUint_digits s v Hp) as Hd. pose proof (ParseUint_range s v Hp) as [Hpos _].
  unfold ParseUint in Hp. destruct s as [|c s]; [done|].
  destruct (digits_go (String c s) 0) as [x|] eqn:Hgo; [|done].
  destruct (x <=? MaxUint64); [injection Hp as ->|done].
  pose proof Hd as Hds. cbn [all_chars] in Hds. apply andb_true_iff in Hds as [Hc Hs].
  assert (Hne : forall c', is_digit c' = false -> c <> c') by (intros c' H ->; congruence).
  unfold ParseFloat. replace (cut_sign (String c s)) with (false, String c s).
  2:{ unfold cut_sign. pose proof (Hne "+"%char eq_refl). pose proof (Hne "-"%char eq_refl).
      destruct c as [[] [] [] [] [] [] [] []]; done. }
  cbn [lower_bytes]. rewrite (digit_lower c Hc).
  rewrite !bool_decide_false by (intros [= -> _]; done).
  assert (Hnum : read_number false (String c s) = Some (nearest v 1)).
  { unfold read_number.
    replace (cut_hex (String c s)) with (false, String c s).
    2:{ unfold cut_hex. destruct s as [|c2 [|c3 s]]; [by destruct c as [[] [] [] [] [] [] [] []]..|].
        cbn [all_chars] in Hs. apply andb_true_iff in Hs as [Hc2 _]. rewrite (digit_lower c2 Hc2).
        rewrite bool_decide_false by (intros ->; done). by destruct c as [[] [] [] [] [] [] [] []]. }
    destruct (read_mantissa_digits _ _ _ false Hgo) as (b & -> & Hb). cbn [sawdigits].
    rewrite Hb by (by right). cbn [negb read_exponent_part].
    replace (underscoreOK (String c s)) with true.
    2:{ symmetry. assert (Hu : underscores false (String c s) Start = true) by (by apply underscores_digits).
        unfold underscoreOK. destruct s as [|c2 s]; [by destruct c as [[] [] [] [] [] [] [] []]|].
        cbn [all_chars] in Hs. apply andb_true_iff in Hs as [Hc2 _]. rewrite (digit_lower c2 Hc2).
        rewrite !bool_decide_false by (intros ->; done). by destruct c as [[] [] [] [] [] [] [] []]. }
    cbn [negb decimals digits]. rewrite Z.leb_refl. f_equal. f_equal. lia. }
  rewrite Hnum. destruct (nearest_int v ltac:(lia)) as (d & Hd0 & ->). exists (Fin (v * d) d). split; [done|by exists d].
Qed.

End GoFloat.
