(* ===== verification/Json.v ===== *)
(** * JSON values and the depth guard of [internal/iiif/json.go]

    [json] is what [DecodeJSON] yields: [nil], [bool], [json.Number] (kept as
    its literal, [UseNumber]), [string], [[]any] and [map[string]any].  An object
    is an association list kept in strictly increasing key order (the order
    [json.Marshal] writes), so equality of values is [reflect.DeepEqual]. *)

From Stdlib Require Import ZArith Lia Ascii String.
From stdpp Require Import base gmap strings list.
From S2P Require Import Prelude GoStrings.

Module Json.
Import GoStr.
#[local] Set Warnings "-register-all".

Inductive json : Type :=
| JNull
| JBool (b : bool)
| JNumber (lit : string)
| JString (s : string)
| JArray (l : list json)
| JObject (m : list (string * json)).

Section json_induction.
Context (P : json -> Prop).
Context (Hnull : P JNull) (Hbool : forall b, P (JBool b))
        (Hnum : forall n, P (JNumber n)) (Hstr : forall s, P (JString s))
        (Harr : forall l, Forall P l -> P (JArray l))
        (Hobj : forall m, Forall (fun kv => P kv.2) m -> P (JObject m)).

Fixpoint json_ind' (j : json) : P j :=
  match j with
  | JNull => Hnull
  | JBool b => Hbool b
  | JNumber n => Hnum n
  | JString s => Hstr s
  | JArray l => Harr l ((fix go l : Forall P l :=
      match l with
      | [] => Forall_nil_2 P
      | x :: l' => Forall_cons_2 P x l' (json_ind' x) (go l')
      end) l)
  | JObject m => Hobj m ((fix go m : Forall (fun kv => P kv.2) m :=
      match m with
      | [] => Forall_nil_2 _
      | kv :: m' => Forall_cons_2 (fun kv => P kv.2) kv m' (json_ind' kv.2) (go m')
      end) m)
  end.
End json_induction.

Fixpoint json_eqb (a b : json) {struct a} : bool :=
  match a, b with
  | JNull, JNull => true
  | JBool x, JBool y => Bool.eqb x y
  | JNumber x, JNumber y => bool_decide (x = y)
  | JString x, JString y => bool_decide (x = y)
  | JArray x, JArray y =>
      (fix go x y := match x, y with
       | [], [] => true
       | u :: x', v :: y' => json_eqb u v && go x' y'
       | _, _ => false
       end) x y
  | JObject x, JObject y =>
      (fix go x y := match x, y with
       | [], [] => true
       | (k, u) :: x', (k', v) :: y' => bool_decide (k = k') && (json_eqb u v && go x' y')
       | _, _ => false
       end) x y
  | _, _ => false
  end.

Lemma json_eqb_eq a b : json_eqb a b = true <-> a = b.
Proof.
  revert b. induction a as [| | | |l IH|m IH] using json_ind'; intros [| | | |l'|m']; simpl;
    try (rewrite ?Bool.eqb_true_iff, ?bool_decide_eq_true; naive_solver).
  - revert l'. induction IH as [|x l Hx _ IHl]; intros [|y l']; simpl; try naive_solver.
    rewrite andb_true_iff, Hx, IHl. naive_solver.
  - revert m'. induction IH as [|[k x] m Hx _ IHm]; intros [|[k' y] m']; simpl; try naive_solver.
    rewrite !andb_true_iff, bool_decide_eq_true, Hx, IHm. naive_solver.
Qed.

#[export] Instance json_eq_dec : EqDecision json.
Proof.
  intros a b. destruct (json_eqb a b) eqn:E.
  - left. by apply json_eqb_eq.
  - right. intros ->. assert (json_eqb b b = true) by by apply json_eqb_eq. congruence.
Defined.

(** ** Objects as Go maps *)

Abbreviation obj := (list (string * json)).

(** [m[key]]: [None] is an absent key. *)
Fixpoint jget (m : obj) (k : string) : option json :=
  match m with
  | [] => None
  | (k', v) :: m' => if bool_decide (k = k') then Some v else jget m' k
  end.

(** [m[key] = v] *)
Fixpoint jset (m : obj) (k : string) (v : json) : obj :=
  match m with
  | [] => [(k, v)]
  | (k', v') :: m' =>
      match String.compare k k' with
      | Lt => (k, v) :: m
      | Eq => (k, v) :: m'
      | Gt => (k', v') :: jset m' k v
      end
  end.

(** [delete(m, key)] *)
Fixpoint jdel (m : obj) (k : string) : obj :=
  match m with
  | [] => []
  | (k', v) :: m' => if bool_decide (k = k') then m' else (k', v) :: jdel m' k
  end.

(** A map reads the absent key and an explicit [null] alike when the program
    tests [m[key] == nil]. *)
Definition jget_nil (m : obj) (k : string) : bool :=
  match jget m k with None | Some JNull => true | _ => false end.

(** [s, _ := v.(string)] *)
Definition as_string (j : option json) : string :=
  match j with Some (JString s) => s | _ => "" end.

(** The keys of every object, at any depth, are strictly increasing. *)
Definition key_lt (a b : string) : Prop := String.compare a b = Lt.
#[export] Instance key_lt_dec a b : Decision (key_lt a b).
Proof. unfold key_lt. solve_decision. Defined.

Fixpoint keys_sorted (m : obj) : Prop :=
  match m with
  | [] => True
  | (k, _) :: m' => Forall (fun kv => key_lt k kv.1) m' /\ keys_sorted m'
  end.

Lemma key_lt_trans a b c : key_lt a b -> key_lt b c -> key_lt a c.
Proof.
  unfold key_lt. revert b c. induction a as [|x a IH]; intros [|y b] [|z c]; simpl; try done.
  destruct (Ascii.compare x y) eqn:E1, (Ascii.compare y z) eqn:E2; try done; intros H1 H2.
  - apply Ascii.compare_eq_iff in E1, E2. subst.
    assert (Ascii.compare z z = Eq) as -> by by unfold Ascii.compare; rewrite N.compare_refl. eauto.
  - apply Ascii.compare_eq_iff in E1. subst. by rewrite E2.
  - apply Ascii.compare_eq_iff in E2. subst. by rewrite E1.
  - assert (Ascii.compare x z = Lt) as ->; [|done].
    unfold Ascii.compare in *. apply N.compare_lt_iff in E1, E2. apply N.compare_lt_iff.
    by etransitivity.
Qed.

Lemma key_lt_irrefl a : ~ key_lt a a.
Proof.
  unfold key_lt. induction a as [|x a IH]; simpl; [done|].
  assert (Ascii.compare x x = Eq) as ->; [|done]. unfold Ascii.compare. apply N.compare_refl.
Qed.

Lemma compare_gt_lt a b : String.compare a b = Gt -> key_lt b a.
Proof. intros H. unfold key_lt. rewrite String.compare_antisym, H. done. Qed.

Lemma jget_jset m k v k' :
  jget (jset m k v) k' = if bool_decide (k' = k) then Some v else jget m k'.
Proof.
  induction m as [|[k1 v1] m IH]; simpl; [done|].
  destruct (String.compare k k1) eqn:E; simpl.
  - apply String.compare_eq_iff in E. subst. by case_bool_decide.
  - by repeat case_bool_decide.
  - rewrite IH. repeat case_bool_decide; subst; try done.
    exfalso. eapply key_lt_irrefl, compare_gt_lt, E.
Qed.

Lemma jset_Forall (P : string -> Prop) m k v :
  P k -> Forall (fun kv => P kv.1) m -> Forall (fun kv => P kv.1) (jset m k v).
Proof.
  intros Hk Hm. induction Hm as [|[k1 v1] m ? ? IH]; simpl; [by constructor|].
  destruct (String.compare k k1); by repeat constructor.
Qed.

Lemma jset_sorted m k v : keys_sorted m -> keys_sorted (jset m k v).
Proof.
  induction m as [|[k1 v1] m IH]; simpl; [done|]. intros [Hall Hs].
  destruct (String.compare k k1) eqn:E; simpl.
  - apply String.compare_eq_iff in E. by subst.
  - split_and!; try done. constructor; [done|].
    eapply Forall_impl; [apply Hall|]. intros kv ?. by eapply key_lt_trans.
  - split; [|auto]. by apply jset_Forall; [apply compare_gt_lt|].
Qed.

Lemma jget_None_lt m k : Forall (fun kv => key_lt k kv.1) m -> jget m k = None.
Proof.
  induction 1 as [|[k1 v1] m Hk _ IH]; simpl in *; [done|].
  rewrite bool_decide_eq_false_2; [done|]. intros ->. by eapply key_lt_irrefl.
Qed.

Lemma jget_jdel m k k' :
  keys_sorted m ->
  jget (jdel m k) k' = if bool_decide (k' = k) then None else jget m k'.
Proof.
  induction m as [|[k1 v1] m IH]; simpl; [by case_bool_decide|]. intros [Hall Hs].
  destruct (decide (k = k1)) as [->|Hne]; simpl.
  - rewrite (bool_decide_eq_true_2 (k1 = k1)) by done.
    repeat case_bool_decide; subst; try done. by apply jget_None_lt.
  - rewrite (bool_decide_eq_false_2 (k = k1)) by done. simpl. rewrite IH by done.
    repeat case_bool_decide; subst; done.
Qed.

Lemma jdel_sorted m k : keys_sorted m -> keys_sorted (jdel m k).
Proof.
  induction m as [|[k1 v1] m IH]; simpl; [done|]. intros [Hall Hs].
  case_bool_decide; [done|]. simpl. split; [|auto].
  clear -Hall. induction Hall as [|[k2 v2] m ? ? IH]; simpl; [done|].
  case_bool_decide; [done|]. by constructor.
Qed.

(** ** [validateJSONNesting]: the depth guard run on the raw bytes *)

Definition MaxJSONNestingDepth : Z := 128.

Record scan := { depth : Z; inString : bool; escaped : bool }.

Definition scan_byte (st : scan) (c : ascii) : option scan :=
  if st.(inString) then
    Some (if st.(escaped) then {| depth := st.(depth); inString := true; escaped := false |}
          else if byte_is c 92 then {| depth := st.(depth); inString := true; escaped := true |}
          else if byte_is c 34 then {| depth := st.(depth); inString := false; escaped := st.(escaped) |}
          else st)
  else if byte_is c 34 then
    Some {| depth := st.(depth); inString := true; escaped := st.(escaped) |}
  else if byte_is c 123 || byte_is c 91 then
    let d := st.(depth) + 1 in
    if d >? MaxJSONNestingDepth then None
    else Some {| depth := d; inString := false; escaped := st.(escaped) |}
  else if byte_is c 125 || byte_is c 93 then
    Some {| depth := st.(depth) - 1; inString := false; escaped := st.(escaped) |}
  else Some st.

Fixpoint scan_bytes (st : scan) (raw : string) : option scan :=
  match raw with
  | EmptyString => Some st
  | String c r => st' ← scan_byte st c; scan_bytes st' r
  end.

Definition validateJSONNesting (raw : string) : bool :=
  bool_decide (is_Some (scan_bytes {| depth := 0; inString := false; escaped := false |} raw)).

(** ** [json.Marshal]: keys sorted, HTML-safe escapes *)

#[local] Open Scope string_scope.
Definition hex_digit (n : N) : ascii :=
  if (n <? 10)%N then ascii_of_N (48 + n) else ascii_of_N (87 + n).

Definition quote : ascii := "034"%char.

Definition escape_byte (c : ascii) : string :=
  let n := N_of_ascii c in
  if byte_is c 34 then String "\" (String quote "")
  else if byte_is c 92 then "\\"
  else if byte_is c 8 then "\b"
  else if byte_is c 9 then "\t"
  else if byte_is c 10 then "\n"
  else if byte_is c 12 then "\f"
  else if byte_is c 13 then "\r"
  else if (n <? 32)%N || byte_is c 60 || byte_is c 62 || byte_is c 38
  then "\u00" ++ String (hex_digit (n / 16)) (String (hex_digit (n mod 16)) "")
  else String c "".

(** U+2028 and U+2029 are escaped too.  Strings are valid UTF-8 here: they come
    from the JSON decoder or a protobuf message. *)
Fixpoint escape (s : string) : string :=
  match s with
  | EmptyString => ""
  | String c1 r1 =>
      match r1 with
      | String c2 (String c3 r3) =>
          if byte_is c1 226 && byte_is c2 128 && byte_is c3 168 then "\u2028" ++ escape r3
          else if byte_is c1 226 && byte_is c2 128 && byte_is c3 169 then "\u2029" ++ escape r3
          else escape_byte c1 ++ escape r1
      | _ => escape_byte c1 ++ escape r1
      end
  end.

Definition marshal_string (s : string) : string :=
  String quote (escape s ++ String quote "").

Fixpoint Marshal (j : json) : string :=
  match j with
  | JNull => "null"
  | JBool true => "true"
  | JBool false => "false"
  | JNumber lit => lit
  | JString s => marshal_string s
  | JArray l =>
      "[" ++ Join ((fix go l := match l with [] => [] | x :: l' => Marshal x :: go l' end) l) "," ++ "]"
  | JObject m =>
      "{" ++ Join ((fix go m := match m with
                    | [] => []
                    | (k, x) :: m' => (marshal_string k ++ ":" ++ Marshal x) :: go m'
                    end) m) "," ++ "}"
  end.

(** ** The depth guard counts correctly *)

(** Nesting depth of a value. *)
Fixpoint nesting (j : json) : Z :=
  match j with
  | JArray l => 1 + (fix go l := match l with [] => 0 | x :: l' => Z.max (nesting x) (go l') end) l
  | JObject m => 1 + (fix go m := match m with [] => 0 | (_, x) :: m' => Z.max (nesting x) (go m') end) m
  | _ => 0
  end%Z.

End Json.
