(* ===== verification/JobSchema.v ===== *)
(** * The transcription job tables and the SQL that touches them

    The rows of [transcription_jobs], [transcription_job_attempts] and
    [transcription_job_checkpoints], their CHECK and UNIQUE constraints
    (internal/database/migrations/0001_initial.sql), and one definition per
    statement of sqlc/queries/transcription_jobs.sql,
    transcription_job_leases.sql, transcription_job_attempts.sql and
    transcription_checkpoints.sql.

    Times are whole seconds, the precision of the DATETIME columns.  A statement
    that would violate a constraint fails with [ESql].  The affected-row count is
    the MySQL driver's default (no data source name of the repository sets
    [clientFoundRows]): the number of rows whose stored value changed. *)

From Stdlib Require Import ZArith Lia Ascii String.
From stdpp Require Import base gmap strings list sorting.
From S2P Require Import Prelude GoStrings Json.

Module Jobs.
Import GoStr Json.

Inductive status := Pending | Running | Completed | Failed | Canceled | Superseded.
#[export] Instance status_eq_dec : EqDecision status.
Proof. solve_decision. Defined.

(** [TranscriptionAttemptOutcome] *)
Inductive outcome :=
| AttemptRunning | AttemptCompleted | AttemptRetryableFailed | AttemptFailed
| AttemptCanceled | AttemptSuperseded | AttemptLeaseExpired.
#[export] Instance outcome_eq_dec : EqDecision outcome.
Proof. solve_decision. Defined.

(** Errors the store returns. *)
Inductive err :=
| EFence                          (* ErrTranscriptionJobFence *)
| ENoRows                         (* sql.ErrNoRows *)
| ECanonicalPageRequired          (* ErrTranscriptionCanonicalPageRequired *)
| EQuotaExceeded (ws limit : Z)   (* *TranscriptionJobQuotaExceededError *)
| EInvalid                        (* a validation error of the Go code *)
| EInvalidPage                    (* ErrInvalidTranscriptionJobPage *)
| ENotConverged                   (* createLocked: no convergence *)
| ERetention                      (* history changed during retention *)
| EOutOfFuel                      (* a loop bound of the model; never reached *)
| ESql.                           (* a constraint violation *)
#[export] Instance err_eq_dec : EqDecision err.
Proof. solve_decision. Defined.

(** The columns of a job that no UPDATE of the queue assigns. *)
Record job_key := {
  k_workspace_id : Z;
  k_item_image_id : Z;
  k_context_id : option Z;
  k_context_scope_id : option Z;
  k_context_snapshot : json;
  k_input_revision : Z;
  k_max_attempts : Z;
  k_created_at : Z;
}.
#[export] Instance job_key_eq_dec : EqDecision job_key.
Proof. solve_decision. Defined.

(** A row of [transcription_jobs]. *)
Record job_row := {
  j_key : job_key;
  j_status : status;
  j_total_segments : Z;
  j_completed_segments : Z;
  j_failed_segments : Z;
  j_attempt_count : Z;
  j_retry_after : option Z;
  j_lease_until : option Z;
  j_locked_by : option string;
  j_current_annotation_id : option string;
  j_current_annotation_json : option string;
  j_last_result_annotation_json : option string;
  j_error_message : option string;
  j_updated_at : Z;
}.
#[export] Instance job_row_eq_dec : EqDecision job_row.
Proof. solve_decision. Defined.

(** A row of [transcription_job_attempts], keyed by job and attempt number. *)
Record attempt_row := {
  a_context_snapshot : json;
  a_input_revision : Z;
  a_lease_owner : string;
  a_lease_token : string;
  a_outcome : outcome;
  a_safe_error_message : option string;
  a_result_revision : option Z;
  a_started_at : Z;
  a_finished_at : option Z;
}.
#[export] Instance attempt_row_eq_dec : EqDecision attempt_row.
Proof. solve_decision. Defined.

(** The parent rows the job statements join with. *)
Record image_row := { i_item_id : string; }.
Record item_row := { it_workspace_id : Z; it_document_type : option string }.
Record context_row := {
  c_workspace_id : option Z;
  c_scope_id : Z;
  c_fields : obj;      (* the JSON encoding of rowToContext *)
}.

(** Rows the job statements only read. *)
Record parents := {
  workspaces : gset Z;
  item_images : gmap Z image_row;
  items : gmap string item_row;
  pages : gmap (Z * Z) Z;                   (* annotation_pages: revision *)
  contexts : gmap Z context_row;
  subscriptions : gmap Z Z;                 (* webhook subscription: workspace *)
}.

(** A row of [event_outbox], keyed by its event id. *)
Record event_row := {
  e_type : string;
  e_workspace_id : option Z;
  e_subject : option string;
  e_body : string;
}.

Record db := {
  jobs : gmap Z job_row;
  attempts : gmap (Z * Z) attempt_row;
  checkpoints : gmap (Z * string) string;
  next_job_id : Z;                            (* AUTO_INCREMENT *)
  request_jobs : gmap Z (Z * option Z);       (* external_requests: workspace, job *)
  file_jobs : gmap (string * Z) (Z * option Z); (* upload_batch_files: workspace, job *)
  outbox : gmap string event_row;
  deliveries : gset (string * Z);             (* webhook_deliveries: event, subscription *)
  par : parents;
}.

Definition set_jobs (x : gmap Z job_row) (s : db) : db :=
  {| jobs := x; attempts := attempts s; checkpoints := checkpoints s; next_job_id :=
     next_job_id s; request_jobs := request_jobs s; file_jobs := file_jobs s; outbox :=
     outbox s; deliveries := deliveries s; par := par s |}.
Definition set_attempts (x : gmap (Z * Z) attempt_row) (s : db) : db :=
  {| jobs := jobs s; attempts := x; checkpoints := checkpoints s; next_job_id :=
     next_job_id s; request_jobs := request_jobs s; file_jobs := file_jobs s; outbox :=
     outbox s; deliveries := deliveries s; par := par s |}.
Definition set_checkpoints (x : gmap (Z * string) string) (s : db) : db :=
  {| jobs := jobs s; attempts := attempts s; checkpoints := x; next_job_id :=
     next_job_id s; request_jobs := request_jobs s; file_jobs := file_jobs s; outbox :=
     outbox s; deliveries := deliveries s; par := par s |}.
Definition set_next (x : Z) (s : db) : db :=
  {| jobs := jobs s; attempts := attempts s; checkpoints := checkpoints s; next_job_id
     := x; request_jobs := request_jobs s; file_jobs := file_jobs s; outbox := outbox s;
     deliveries := deliveries s; par := par s |}.
Definition set_request_jobs (x : gmap Z (Z * option Z)) (s : db) : db :=
  {| jobs := jobs s; attempts := attempts s; checkpoints := checkpoints s; next_job_id
     := next_job_id s; request_jobs := x; file_jobs := file_jobs s; outbox := outbox s;
     deliveries := deliveries s; par := par s |}.
Definition set_file_jobs (x : gmap (string * Z) (Z * option Z)) (s : db) : db :=
  {| jobs := jobs s; attempts := attempts s; checkpoints := checkpoints s; next_job_id
     := next_job_id s; request_jobs := request_jobs s; file_jobs := x; outbox := outbox
     s; deliveries := deliveries s; par := par s |}.
Definition set_outbox (x : gmap string event_row) (s : db) : db :=
  {| jobs := jobs s; attempts := attempts s; checkpoints := checkpoints s; next_job_id
     := next_job_id s; request_jobs := request_jobs s; file_jobs := file_jobs s; outbox
     := x; deliveries := deliveries s; par := par s |}.
Definition set_deliveries (x : gset (string * Z)) (s : db) : db :=
  {| jobs := jobs s; attempts := attempts s; checkpoints := checkpoints s; next_job_id
     := next_job_id s; request_jobs := request_jobs s; file_jobs := file_jobs s; outbox
     := outbox s; deliveries := x; par := par s |}.

Abbreviation stx := (tx db err).

(** ** Constraints *)

Definition is_active (st : status) : bool :=
  match st with Pending | Running => true | _ => false end.
Definition is_terminal (st : status) : bool := negb (is_active st).

(** The CHECK constraints of [transcription_jobs], and the range of its INT
    column [max_attempts] (the bound of [attempt_count]). *)
Definition job_checks (r : job_row) : bool :=
  (match k_context_id (j_key r), k_context_scope_id (j_key r) with
   | None, None => true
   | Some _, Some sc => (sc =? 0) || (sc =? k_workspace_id (j_key r))
   | _, _ => false
   end)
  && (0 <? k_input_revision (j_key r))
  && (0 <? k_max_attempts (j_key r)) && (k_max_attempts (j_key r) <=? MaxInt32)
  && (0 <=? j_attempt_count r) && (j_attempt_count r <=? k_max_attempts (j_key r))
  && (0 <=? j_total_segments r) && (0 <=? j_completed_segments r) && (0 <=? j_failed_segments r)
  && (if bool_decide (j_status r = Running)
      then (0 <? j_attempt_count r) && bool_decide (is_Some (j_lease_until r))
           && bool_decide (is_Some (j_locked_by r))
      else bool_decide (j_lease_until r = None) && bool_decide (j_locked_by r = None)).

(** UNIQUE KEY [uq_transcription_jobs_active_image]: the generated column
    [active_item_image_id] is the image of a pending or running job. *)
Definition active_image (r : job_row) : option Z :=
  if is_active (j_status r) then Some (k_item_image_id (j_key r)) else None.

Definition active_job_of (m : gmap Z job_row) (img : Z) : option (Z * job_row) :=
  head (filter (fun kr => active_image kr.2 = Some img) (map_to_list m)).

Definition active_unique (m : gmap Z job_row) (id : Z) (r : job_row) : bool :=
  match active_image r with
  | None => true
  | Some img => bool_decide (map_Forall (fun id' r' => id' = id \/ active_image r' <> Some img) m)
  end.

(** The CHECK constraints of [transcription_job_attempts]. *)
Definition attempt_checks (n : Z) (a : attempt_row) : bool :=
  (0 <? n) && (0 <? a_input_revision a)
  && (if bool_decide (a_outcome a = AttemptRunning)
      then bool_decide (a_finished_at a = None) && bool_decide (a_result_revision a = None)
      else bool_decide (is_Some (a_finished_at a)))
  && (if bool_decide (a_outcome a = AttemptCompleted)
      then bool_decide (is_Some (a_result_revision a))
      else bool_decide (a_result_revision a = None))
  && (if bool_decide (a_outcome a = AttemptRunning) || bool_decide (a_outcome a = AttemptCompleted)
      then bool_decide (a_safe_error_message a = None)
      else bool_decide (is_Some (a_safe_error_message a)))
  && (match a_finished_at a with None => true | Some f => a_started_at a <=? f end).

(** ** Row-level statements *)

(** [UPDATE transcription_jobs SET .. WHERE id = ? AND wh]; the result is the
    affected-row count. *)
Definition update_job (id : Z) (wh : job_row -> bool) (set : job_row -> job_row) : stx Z :=
  fun s =>
  match jobs s !! id with
  | Some r =>
      if wh r then
        if job_checks (set r) && active_unique (jobs s) id (set r)
        then Ok (if bool_decide (set r = r) then 0 else 1, set_jobs (<[id := set r]> (jobs s)) s)
        else Err ESql
      else Ok (0, s)
  | None => Ok (0, s)
  end.

(** [SELECT .. FROM transcription_jobs WHERE id = ?]: no row is [sql.ErrNoRows]. *)
Definition GetTranscriptionJobManual (id : Z) : stx job_row := fun s =>
  match jobs s !! id with Some r => Ok (r, s) | None => Err ENoRows end.

(** The same row, [FOR UPDATE]. *)
Definition LockTranscriptionJobForUpdateManual (id : Z) : stx job_row := GetTranscriptionJobManual id.

(** [WHERE active_item_image_id = ? LIMIT 1 FOR UPDATE]; the caller separates
    no row from a failure. *)
Definition LockActiveTranscriptionJobForUpdateManual (img : Z) : stx (option (Z * job_row)) :=
  tx_reads (fun s => active_job_of (jobs s) img).

(** [GREATEST], [COALESCE(locked_by, '')] and the fence of a worker UPDATE. *)
Definition coalesce (o : option string) : string := default ""%string o.

(** What every worker-owned statement requires of the row: the attempt, the
    revision and the token of the fence, and an unexpired lease. *)
Definition lease_held (attempt rev : Z) (token : option string) (now : Z) (r : job_row) : bool :=
  (j_attempt_count r =? attempt) && (k_input_revision (j_key r) =? rev)
  && (match token with Some t => bool_decide (coalesce (j_locked_by r) = t) | None => false end)
  && bool_decide (j_status r = Running)
  && (match j_lease_until r with Some l => now <? l | None => false end).

Definition LockActiveTranscriptionJobLeaseManual (id attempt rev : Z) (token : option string)
    (now : Z) : stx unit := fun s =>
  match jobs s !! id with
  | Some r => if lease_held attempt rev token now r then Ok (tt, s) else Err ENoRows
  | None => Err ENoRows
  end.

Definition claimable (now : Z) (r : job_row) : bool :=
  (bool_decide (j_status r = Pending)
   && (match j_retry_after r with None => true | Some t => t <=? now end)
   && (j_attempt_count r <? k_max_attempts (j_key r)))
  || (bool_decide (j_status r = Running)
      && (match j_lease_until r with Some l => l <? now | None => false end)).

Definition created_before (a b : Z * job_row) : Prop :=
  k_created_at (j_key a.2) < k_created_at (j_key b.2)
  \/ (k_created_at (j_key a.2) = k_created_at (j_key b.2) /\ a.1 <= b.1).
#[export] Instance created_before_dec a b : Decision (created_before a b).
Proof. unfold created_before. solve_decision. Defined.

(** [ORDER BY created_at ASC]; ties in primary key order. *)
Definition by_created (m : gmap Z job_row) : list (Z * job_row) :=
  merge_sort created_before (map_to_list m).

(** The claimable job with the smallest [created_at] that no other transaction
    holds ([locked], FOR UPDATE SKIP LOCKED). *)
Definition first_claimable (p : job_row -> bool) (locked : gset Z) (m : gmap Z job_row)
    : option (Z * job_row) :=
  head (filter (fun kr => p kr.2 = true /\ kr.1 ∉ locked) (by_created m)).

Definition ClaimLeasedTranscriptionJobByIDManual (id now : Z) (locked : gset Z)
    : stx (option (Z * job_row)) :=
  tx_reads (fun s =>
    match jobs s !! id with
    | Some r => if claimable now r && bool_decide (id ∉ locked) then Some (id, r) else None
    | None => None
    end).

Definition ClaimNextLeasedTranscriptionJobManual (now : Z) (locked : gset Z)
    : stx (option (Z * job_row)) :=
  tx_reads (fun s => first_claimable (claimable now) locked (jobs s)).

Definition ClaimNextLeasedTranscriptionJobOlderThanManual (cutoff now : Z) (locked : gset Z)
    : stx (option (Z * job_row)) :=
  tx_reads (fun s => first_claimable
    (fun r => (k_created_at (j_key r) <? cutoff) && claimable now r) locked (jobs s)).

(** ** UPDATE statements *)

Definition MarkTranscriptionJobLeasedManual (lease_until : Z) (token : option string)
    (id prev_attempts rev : Z) (prev_token : option string) (now : Z) : stx Z :=
  update_job id
    (fun r => (j_attempt_count r =? prev_attempts) && (k_input_revision (j_key r) =? rev)
       && bool_decide (j_locked_by r = prev_token)
       && claimable now r && (j_attempt_count r <? k_max_attempts (j_key r)))
    (fun r => {| j_key := j_key r; j_status := Running; j_total_segments := 0;
       j_completed_segments := 0; j_failed_segments := 0;
       j_attempt_count := j_attempt_count r + 1; j_retry_after := None;
       j_lease_until := Some lease_until; j_locked_by := token;
       j_current_annotation_id := None; j_current_annotation_json := None;
       j_last_result_annotation_json := None; j_error_message := None; j_updated_at := now |}).

(** The columns a terminal transition clears. *)
Definition close_row (st : status) (retry : option Z) (last error : option string) (now : Z)
    (r : job_row) : job_row :=
  {| j_key := j_key r; j_status := st; j_total_segments := j_total_segments r;
     j_completed_segments := j_completed_segments r; j_failed_segments := j_failed_segments r;
     j_attempt_count := j_attempt_count r; j_retry_after := retry;
     j_lease_until := None; j_locked_by := None;
     j_current_annotation_id := None; j_current_annotation_json := None;
     j_last_result_annotation_json := last; j_error_message := error; j_updated_at := now |}.

Definition FailExpiredTranscriptionJobManual (id attempt rev : Z) (token : option string)
    (now : Z) : stx Z :=
  update_job id
    (fun r => bool_decide (j_status r = Running)
       && (match j_lease_until r with Some l => l <? now | None => false end)
       && (j_attempt_count r =? attempt) && (k_input_revision (j_key r) =? rev)
       && (match token with Some t => bool_decide (coalesce (j_locked_by r) = t) | None => false end)
       && (k_max_attempts (j_key r) <=? j_attempt_count r))
    (close_row Failed None None (Some "worker lease expired after maximum attempts"%string) now).

Definition CompleteTranscriptionJobLeasedManual (id attempt rev : Z) (token : option string)
    (now : Z) : stx Z :=
  update_job id (lease_held attempt rev token now)
    (fun r => close_row Completed (j_retry_after r) None (j_error_message r) now r).

Definition DeferTranscriptionJobLeaseManual (retry : Z) (error : option string)
    (id attempt rev : Z) (token : option string) (now : Z) : stx Z :=
  update_job id (lease_held attempt rev token now) (close_row Pending (Some retry) None error now).

Definition ExtendTranscriptionJobLeaseManual (lease_until id attempt rev : Z)
    (token : option string) (now : Z) : stx Z :=
  update_job id (lease_held attempt rev token now)
    (fun r => {| j_key := j_key r; j_status := j_status r; j_total_segments := j_total_segments r;
       j_completed_segments := j_completed_segments r; j_failed_segments := j_failed_segments r;
       j_attempt_count := j_attempt_count r; j_retry_after := j_retry_after r;
       j_lease_until := Some lease_until; j_locked_by := j_locked_by r;
       j_current_annotation_id := j_current_annotation_id r;
       j_current_annotation_json := j_current_annotation_json r;
       j_last_result_annotation_json := j_last_result_annotation_json r;
       j_error_message := j_error_message r; j_updated_at := now |}).

(** [LEAST(300, POW(2, attempt_count) * 10)] seconds *)
Definition retry_delay (attempt_count : Z) : Z := Z.min 300 (2 ^ attempt_count * 10).

Definition RetryOrFailTranscriptionJobManual (error : option string) (id attempt rev : Z)
    (token : option string) (now : Z) : stx Z :=
  update_job id (lease_held attempt rev token now)
    (fun r =>
       let retry := j_attempt_count r <? k_max_attempts (j_key r) in
       close_row (if retry then Pending else Failed)
         (if retry then Some (now + retry_delay (j_attempt_count r)) else None)
         (j_last_result_annotation_json r) error now r).

Definition PermanentlyFailTranscriptionJobManual (error : option string) (id attempt rev : Z)
    (token : option string) (now : Z) : stx Z :=
  update_job id (lease_held attempt rev token now) (close_row Failed None None error now).

Definition CancelTranscriptionJobManual (id now : Z) : stx Z :=
  update_job id (fun r => is_active (j_status r))
    (close_row Canceled None None (Some "canceled by user"%string) now).

Definition SupersedeTranscriptionJobByIDManual (id now : Z) : stx Z :=
  update_job id (fun r => is_active (j_status r))
    (close_row Superseded None None (Some "superseded by a newer transcription request"%string) now).

Definition SetTranscriptionJobTotalSegmentsManual (total id attempt rev : Z)
    (token : option string) (now : Z) : stx Z :=
  update_job id (lease_held attempt rev token now)
    (fun r => {| j_key := j_key r; j_status := j_status r; j_total_segments := total;
       j_completed_segments := j_completed_segments r; j_failed_segments := j_failed_segments r;
       j_attempt_count := j_attempt_count r; j_retry_after := j_retry_after r;
       j_lease_until := j_lease_until r; j_locked_by := j_locked_by r;
       j_current_annotation_id := j_current_annotation_id r;
       j_current_annotation_json := j_current_annotation_json r;
       j_last_result_annotation_json := j_last_result_annotation_json r;
       j_error_message := j_error_message r; j_updated_at := now |}).

Definition UpdateTranscriptionJobProgressManual (completed failed : Z)
    (cur_id cur_json last : option string) (id attempt rev : Z) (token : option string)
    (now : Z) : stx Z :=
  update_job id (lease_held attempt rev token now)
    (fun r => {| j_key := j_key r; j_status := j_status r; j_total_segments := j_total_segments r;
       j_completed_segments := completed; j_failed_segments := failed;
       j_attempt_count := j_attempt_count r; j_retry_after := j_retry_after r;
       j_lease_until := j_lease_until r; j_locked_by := j_locked_by r;
       j_current_annotation_id := cur_id; j_current_annotation_json := cur_json;
       j_last_result_annotation_json := last;
       j_error_message := j_error_message r; j_updated_at := now |}).

(** ** Attempts *)

(** UNIQUE KEY [uq_transcription_job_attempts_token] and the primary key. *)
Definition token_free (m : gmap (Z * Z) attempt_row) (token : string) : bool :=
  bool_decide (map_Forall (fun _ a => a_lease_token a <> token) m).

Definition InsertTranscriptionJobAttemptManual (owner token : string) (id attempt rev : Z)
    (job_token : option string) (now : Z) : stx Z := fun s =>
  match jobs s !! id with
  | Some r =>
      if bool_decide (j_status r = Running) && (j_attempt_count r =? attempt)
         && (k_input_revision (j_key r) =? rev)
         && (match job_token with Some t => bool_decide (coalesce (j_locked_by r) = t) | None => false end)
      then
        let a := {| a_context_snapshot := k_context_snapshot (j_key r);
                    a_input_revision := k_input_revision (j_key r); a_lease_owner := owner;
                    a_lease_token := token; a_outcome := AttemptRunning;
                    a_safe_error_message := None; a_result_revision := None;
                    a_started_at := now; a_finished_at := None |} in
        if attempt_checks (j_attempt_count r) a && token_free (attempts s) token
           && bool_decide (attempts s !! (id, j_attempt_count r) = None)
        then Ok (1, set_attempts (<[(id, j_attempt_count r) := a]> (attempts s)) s)
        else Err ESql
      else Ok (0, s)
  | None => Ok (0, s)
  end.

Definition finish_row (oc : outcome) (msg : option string) (res : option Z) (now : Z)
    (a : attempt_row) : attempt_row :=
  {| a_context_snapshot := a_context_snapshot a; a_input_revision := a_input_revision a;
     a_lease_owner := a_lease_owner a; a_lease_token := a_lease_token a; a_outcome := oc;
     a_safe_error_message := msg; a_result_revision := res; a_started_at := a_started_at a;
     a_finished_at := Some (Z.max (a_started_at a) now) |}.

Definition FinishTranscriptionJobAttemptManual (oc : outcome) (msg : option string)
    (res : option Z) (id attempt rev : Z) (token : string) (now : Z) : stx Z := fun s =>
  match attempts s !! (id, attempt) with
  | Some a =>
      if (a_input_revision a =? rev) && bool_decide (a_lease_token a = token)
         && bool_decide (a_outcome a = AttemptRunning)
      then
        let a' := finish_row oc msg res now a in
        if attempt_checks attempt a'
        then Ok (if bool_decide (a' = a) then 0 else 1,
                 set_attempts (<[(id, attempt) := a']> (attempts s)) s)
        else Err ESql
      else Ok (0, s)
  | None => Ok (0, s)
  end.

Definition attempt_le (a b : Z * attempt_row) : Prop := a.1 <= b.1.
#[export] Instance attempt_le_dec a b : Decision (attempt_le a b).
Proof. unfold attempt_le. solve_decision. Defined.

(** [ORDER BY attempt_number ASC] *)
Definition ListTranscriptionJobAttemptsManual (id : Z) : stx (list (Z * attempt_row)) :=
  tx_reads (fun s => merge_sort attempt_le
    (omap (fun kv => if bool_decide (kv.1.1 = id) then Some (kv.1.2, kv.2) else None)
          (map_to_list (attempts s)))).

Definition DeleteRetainedTranscriptionJobAttemptsManual (id : Z) : stx unit :=
  tx_modify (fun s => set_attempts (filter (fun kv => kv.1.1 <> id) (attempts s)) s).

(** ** Checkpoints *)

Definition DeleteTranscriptionCheckpoints (id : Z) : stx unit :=
  tx_modify (fun s => set_checkpoints (filter (fun kv => kv.1.1 <> id) (checkpoints s)) s).

Definition SaveTranscriptionCheckpoint (id : Z) (line payload : string) : stx unit :=
  tx_modify (fun s => set_checkpoints (<[(id, line) := payload]> (checkpoints s)) s).

Definition GetTranscriptionCheckpoint (id attempt rev : Z) (token : option string) (now : Z)
    : stx (option string) := fun s =>
  match jobs s !! id with
  | Some r => if lease_held attempt rev token now r
              then Ok (checkpoints s !! (id, ""%string), s) else Err ENoRows
  | None => Err ENoRows
  end.

Definition ListTranscriptionLineCheckpoints (id : Z) : stx (gmap string string) :=
  tx_reads (fun s => list_to_map
    (omap (fun kv => if bool_decide (kv.1.1 = id /\ kv.1.2 <> ""%string)
                     then Some (kv.1.2, kv.2) else None) (map_to_list (checkpoints s)))).

(** ** References from other tables *)

Definition detach (ws id : Z) (v : Z * option Z) : Z * option Z :=
  if bool_decide (v = (ws, Some id)) then (ws, None) else v.

Definition DetachExternalRequestsFromRetainedJobManual (ws id : Z) : stx unit :=
  tx_modify (fun s => set_request_jobs (detach ws id <$> request_jobs s) s).
Definition DetachUploadBatchFilesFromRetainedJobManual (ws id : Z) : stx unit :=
  tx_modify (fun s => set_file_jobs (detach ws id <$> file_jobs s) s).

(** [INSERT IGNORE INTO event_outbox]: one row per event id. *)
Definition InsertEventOutbox (event_id event_type : string) (ws : option Z)
    (subject : option string) (body : string) : stx unit :=
  tx_modify (fun s =>
    if match ws with None => true | Some w => bool_decide (w ∈ workspaces (par s)) end
       && bool_decide (outbox s !! event_id = None)
    then set_outbox (<[event_id := {| e_type := event_type; e_workspace_id := ws;
                                      e_subject := subject; e_body := body |}]> (outbox s)) s
    else s).

(** [LockWebhookDeliveryExpansionWorkspaceManual], then the pending deliveries of
    every subscription of the event's workspace ([INSERT IGNORE]). *)
Definition InsertWorkspaceWebhookDeliveries (event_id : string) : stx unit := fun s =>
  match outbox s !! event_id with
  | Some e =>
      match e_workspace_id e with
      | Some w =>
          if bool_decide (w ∈ workspaces (par s)) then
            let subs := filter (fun kv => kv.2 = w) (subscriptions (par s)) in
            Ok (tt, set_deliveries
                      (deliveries s ∪ set_map (fun sub => (event_id, sub)) (dom subs)) s)
          else Err ENoRows
      | None => Err ENoRows
      end
  | None => Err ENoRows
  end.

(** ** Admission *)

(** [LockTranscriptionJobWorkspaceByItemImageManual]: the workspace of the
    image's item (every item's workspace exists). *)
Definition image_item (s : db) (img : Z) : option item_row :=
  i ← item_images (par s) !! img; items (par s) !! i_item_id i.

Definition LockTranscriptionJobWorkspaceByItemImageManual (img : Z) : stx Z := fun s =>
  match image_item s img with
  | Some it => Ok (it_workspace_id it, s)
  | None => Err ENoRows
  end.

Definition LockCanonicalRevisionForTranscriptionJobManual (img : Z) : stx (option Z) :=
  tx_reads (fun s => it ← image_item s img; pages (par s) !! (it_workspace_id it, img)).

Definition CountActiveTranscriptionJobsByWorkspaceManual (ws : Z) : stx Z :=
  tx_reads (fun s => Z.of_nat (length (filter
    (fun kr => k_workspace_id (j_key kr.2) = ws /\ is_active (j_status kr.2) = true)
    (map_to_list (jobs s))))).

Definition terminal_of (ws : Z) (m : gmap Z job_row) : list (Z * job_row) :=
  filter (fun kr => k_workspace_id (j_key kr.2) = ws /\ is_terminal (j_status kr.2) = true)
    (map_to_list m).

Definition CountTerminalTranscriptionJobsForWorkspaceManual (ws : Z) : stx Z :=
  tx_reads (fun s => Z.of_nat (length (terminal_of ws (jobs s)))).

Definition updated_before (a b : Z * job_row) : Prop :=
  j_updated_at a.2 < j_updated_at b.2 \/ (j_updated_at a.2 = j_updated_at b.2 /\ a.1 <= b.1).
#[export] Instance updated_before_dec a b : Decision (updated_before a b).
Proof. unfold updated_before. solve_decision. Defined.

(** [ORDER BY updated_at ASC, id ASC LIMIT n] *)
Definition LockOldestTerminalTranscriptionJobsForWorkspaceManual (ws limit : Z) : stx (list Z) :=
  tx_reads (fun s => map fst (take (Z.to_nat limit)
    (merge_sort updated_before (terminal_of ws (jobs s))))).

Definition DeleteRetainedTerminalTranscriptionJobManual (id ws : Z) : stx Z := fun s =>
  match jobs s !! id with
  | Some r => if (k_workspace_id (j_key r) =? ws) && is_terminal (j_status r)
              then Ok (1, set_jobs (delete id (jobs s)) s) else Ok (0, s)
  | None => Ok (0, s)
  end.

(** [INSERT .. SELECT .. ON DUPLICATE KEY UPDATE id = LAST_INSERT_ID(id)]:
    the insert id is 0 when the SELECT finds no parents, the active job's id when
    the image has one already. *)
Definition CreateTranscriptionJobManual (img : Z) (ctx : option Z) (snapshot : json) (now : Z)
    : stx Z := fun s =>
  let found :=
    it ← image_item s img;
    let ws := it_workspace_id it in
    rev ← pages (par s) !! (ws, img);
    cid ← ctx;
    c ← contexts (par s) !! cid;
    match c_workspace_id c with
    | Some w => if w =? ws then Some (ws, rev, cid, c) else None
    | None => Some (ws, rev, cid, c)
    end in
  match found with
  | None => Ok (0, s)
  | Some (ws, rev, cid, c) =>
      match active_job_of (jobs s) img with
      | Some (id, _) => Ok (id, s)
      | None =>
          let r := {| j_key := {| k_workspace_id := ws; k_item_image_id := img;
                        k_context_id := Some cid; k_context_scope_id := Some (c_scope_id c);
                        k_context_snapshot := snapshot; k_input_revision := rev;
                        k_max_attempts := 3; k_created_at := now |};
                      j_status := Pending; j_total_segments := 0; j_completed_segments := 0;
                      j_failed_segments := 0; j_attempt_count := 0; j_retry_after := None;
                      j_lease_until := None; j_locked_by := None; j_current_annotation_id := None;
                      j_current_annotation_json := None; j_last_result_annotation_json := None;
                      j_error_message := None; j_updated_at := now |} in
          let id := next_job_id s in
          if job_checks r && bool_decide (jobs s !! id = None)
          then Ok (id, set_next (id + 1) (set_jobs (<[id := r]> (jobs s)) s))
          else Err ESql
      end
  end.

End Jobs.
