(* ===== verification/JobStore.v ===== *)
(** * [internal/store/transcription_jobs.go]: the durable transcription queue

    The store methods over the tables of [JobSchema], composed as the Go code
    composes them.  [env] is what a method takes from outside: the two clocks,
    the rows other transactions hold, a fresh UUID and the host name. *)

From Stdlib Require Import ZArith Lia Ascii String.
From stdpp Require Import base gmap strings list.
From S2P Require Import Prelude GoStrings Json JobSchema.

Module JobStore.
Import GoStr Json Jobs.

Record env := {
  db_now : Z;               (* NOW() *)
  go_now : Z;               (* time.Now().UTC() *)
  locked_rows : gset Z;     (* rows locked by other transactions *)
  uuid : string;            (* uuid.NewString() *)
  hostname : option string; (* os.Hostname(); None is its error *)
}.

(** ** Conversions (store/convert.go and the helpers of transcription_jobs.go) *)

Definition int32FromInt (v : Z) : result err Z :=
  if (v <? MinInt32) || (MaxInt32 <? v) then Err EInvalid else Ok v.

Definition attemptNumberFromInt (v : Z) : result err Z :=
  if (v <=? 0) || (MaxInt32 <? v) then Err EInvalid else Ok v.

Definition int32FromUint32 (v : Z) : result err Z :=
  if MaxInt32 <? v then Err EInvalid else Ok v.

Definition nullableString (v : string) : option string :=
  let v := TrimSpace v in if bool_decide (v = ""%string) then None else Some v.

Definition nullableUint64 (v : Z) : option Z :=
  if (v =? 0) || (MaxInt64 <? v) then None else Some v.

(** [strings.Trim(s, "-")] *)
Fixpoint trim_dashes (s : string) : string :=
  match s with String "-" r => trim_dashes r | _ => s end.
Definition newLeaseOwner (prefix : string) (id : string) : string :=
  let p := GoStr.rev (trim_dashes (GoStr.rev (trim_dashes (ToLower (TrimSpace prefix))))) in
  let p := if bool_decide (p = ""%string) then "lease"%string else p in
  (p ++ "-" ++ id)%string.

Fixpoint take_bytes (n : nat) (s : string) : string :=
  match n, s with
  | S n', String c r => String c (take_bytes n' r)
  | _, _ => ""%string
  end.

Definition transcriptionLeaseOwner (e : env) : string :=
  match hostname e with
  | Some h =>
      let h := TrimSpace h in
      if bool_decide (h = ""%string) then "scribe-worker"%string else
      let owner := ("scribe-worker@" ++ h)%string in
      if len owner >? 128 then take_bytes 128 owner else owner
  | None => "scribe-worker"%string
  end.

(** [requireOneAffected] and [requireFenceAffected] *)
Definition requireOneAffected (m : stx Z) : stx unit :=
  n ← m; if n =? 1 then mret tt else tx_fail ENoRows.

Definition requireFenceAffected (m : stx Z) : stx unit :=
  fun s => match requireOneAffected m s with
           | Err ENoRows => Err EFence
           | r => r
           end.

(** ** Fences *)

Record fence := {
  JobID : Z; AttemptNumber : Z; InputRevision : Z; LeaseToken : string;
}.
#[export] Instance fence_eq_dec : EqDecision fence.
Proof. solve_decision. Defined.

Definition validateTranscriptionFence (f : fence) : result err unit :=
  guard_ok (negb ((JobID f =? 0) || (AttemptNumber f =? 0) || (MaxInt32 <? AttemptNumber f)
    || (InputRevision f =? 0) || bool_decide (TrimSpace (LeaseToken f) = ""%string))) EFence.

Definition transcriptionAttemptNumberToDB (f : fence) : result err Z :=
  _ ← validateTranscriptionFence f;
  match int32FromUint32 (AttemptNumber f) with Ok n => Ok n | Err _ => Err EFence end.

Definition attemptFenceFromRow (id : Z) (r : job_row) : result err fence :=
  match attemptNumberFromInt (j_attempt_count r) with
  | Err _ => Err EFence
  | Ok n =>
      let f := {| JobID := id; AttemptNumber := n; InputRevision := k_input_revision (j_key r);
                  LeaseToken := coalesce (j_locked_by r) |} in
      _ ← validateTranscriptionFence f; Ok f
  end.

(** ** The job as the API sees it *)

Record TranscriptionJob := {
  ID : Z; WorkspaceID : Z; ItemImageID : Z; ContextID : option Z; ContextSnapshot : json;
  JobInputRevision : Z; Status : status; TotalSegments : Z; CompletedSegments : Z;
  FailedSegments : Z; AttemptCount : Z; MaxAttempts : Z; JobLeaseToken : string;
  CurrentAnnotationID : string; CurrentAnnotationJSON : string;
  LastResultAnnotationJSON : string; ErrorMessage : string; CreatedAt : Z; UpdatedAt : Z;
  Attempts : list (Z * attempt_row);
}.

Definition uint64PtrFromNullInt64 (v : option Z) : option Z :=
  x ← v; if x <? 0 then None else Some x.

Definition rowToTranscriptionJob (id : Z) (r : job_row) : TranscriptionJob :=
  {| ID := id; WorkspaceID := k_workspace_id (j_key r);
     ItemImageID := k_item_image_id (j_key r);
     ContextID := uint64PtrFromNullInt64 (k_context_id (j_key r));
     ContextSnapshot := k_context_snapshot (j_key r);
     JobInputRevision := k_input_revision (j_key r); Status := j_status r;
     TotalSegments := j_total_segments r; CompletedSegments := j_completed_segments r;
     FailedSegments := j_failed_segments r; AttemptCount := j_attempt_count r;
     MaxAttempts := if k_max_attempts (j_key r) =? 0 then 3 else k_max_attempts (j_key r);
     JobLeaseToken := coalesce (j_locked_by r);
     CurrentAnnotationID := coalesce (j_current_annotation_id r);
     CurrentAnnotationJSON := coalesce (j_current_annotation_json r);
     LastResultAnnotationJSON := coalesce (j_last_result_annotation_json r);
     ErrorMessage := coalesce (j_error_message r);
     CreatedAt := k_created_at (j_key r); UpdatedAt := j_updated_at r; Attempts := [] |}.

Definition with_attempts (l : list (Z * attempt_row)) (j : TranscriptionJob) : TranscriptionJob :=
  {| ID := ID j; WorkspaceID := WorkspaceID j; ItemImageID := ItemImageID j;
     ContextID := ContextID j; ContextSnapshot := ContextSnapshot j;
     JobInputRevision := JobInputRevision j; Status := Status j;
     TotalSegments := TotalSegments j; CompletedSegments := CompletedSegments j;
     FailedSegments := FailedSegments j; AttemptCount := AttemptCount j;
     MaxAttempts := MaxAttempts j; JobLeaseToken := JobLeaseToken j;
     CurrentAnnotationID := CurrentAnnotationID j;
     CurrentAnnotationJSON := CurrentAnnotationJSON j;
     LastResultAnnotationJSON := LastResultAnnotationJSON j; ErrorMessage := ErrorMessage j;
     CreatedAt := CreatedAt j; UpdatedAt := UpdatedAt j; Attempts := l |}.

(** [TranscriptionJob.Fence] *)
Definition Fence (j : TranscriptionJob) : result err fence :=
  match attemptNumberFromInt (AttemptCount j) with
  | Err _ => Err EFence
  | Ok n =>
      let f := {| JobID := ID j; AttemptNumber := n; InputRevision := JobInputRevision j;
                  LeaseToken := TrimSpace (JobLeaseToken j) |} in
      if (JobID f =? 0) || (AttemptNumber f =? 0) || (InputRevision f =? 0)
         || bool_decide (LeaseToken f = ""%string)
      then Err EFence else Ok f
  end.

Definition jobWithAttempts (id : Z) (r : job_row) : stx TranscriptionJob :=
  l ← ListTranscriptionJobAttemptsManual id;
  mret (with_attempts l (rowToTranscriptionJob id r)).

Definition Get (id : Z) : stx TranscriptionJob :=
  r ← GetTranscriptionJobManual id; jobWithAttempts id r.

(** ** Finishing an attempt *)

Definition finishTranscriptionAttempt (e : env) (f : fence) (oc : outcome)
    (safeErrorMessage : string) (resultRevision : option Z) : stx unit :=
  _ ← tx_lift (validateTranscriptionFence f);
  if bool_decide (oc = AttemptRunning) then tx_fail EInvalid else
  let msg := TrimSpace safeErrorMessage in
  if bool_decide (oc = AttemptCompleted /\ msg <> ""%string) then tx_fail EInvalid else
  if bool_decide (oc <> AttemptCompleted /\ msg = ""%string) then tx_fail EInvalid else
  res ← match resultRevision with
        | Some r =>
            if bool_decide (oc <> AttemptCompleted) || (r =? 0) || (MaxInt64 <? r)
            then tx_fail EInvalid else mret (Some r)
        | None => if bool_decide (oc = AttemptCompleted) then tx_fail EInvalid else mret None
        end;
  requireFenceAffected
    (FinishTranscriptionJobAttemptManual oc (nullableString msg) res
       (JobID f) (AttemptNumber f) (InputRevision f) (LeaseToken f) (db_now e)).

(** ** Creating a job *)

Definition equivalentJSON (l r : json) : bool := bool_decide (l = r).

Definition activeTranscriptionJobMatches (r : job_row) (ctx : option Z) (snapshot : json)
    (rev : Z) : bool :=
  (match k_context_id (j_key r), ctx with
   | None, None => true
   | Some a, Some b => (0 <? a) && (a =? b)
   | _, _ => false
   end)
  && (k_input_revision (j_key r) =? rev) && equivalentJSON (k_context_snapshot (j_key r)) snapshot.

Definition terminalTranscriptionRetentionBatch : Z := 100.
Definition MaxTerminalTranscriptionJobsPerWorkspace : Z := 100.

Definition retain_one (ws id : Z) : stx unit :=
  _ ← DetachExternalRequestsFromRetainedJobManual ws id;
  _ ← DetachUploadBatchFilesFromRetainedJobManual ws id;
  _ ← DeleteTranscriptionCheckpoints id;
  _ ← DeleteRetainedTranscriptionJobAttemptsManual id;
  requireOneAffected (DeleteRetainedTerminalTranscriptionJobManual id ws).

Fixpoint retain_batch (ws : Z) (ids : list Z) : stx unit :=
  match ids with
  | [] => mret tt
  | id :: ids' => _ ← retain_one ws id; retain_batch ws ids'
  end.

(** The [for terminalCount > target] loop; [fuel] bounds its turns. *)
Fixpoint retain_loop (fuel : nat) (ws target terminalCount : Z) : stx unit :=
  if terminalCount <=? target then mret tt else
  match fuel with
  | O => tx_fail EOutOfFuel
  | S fuel' =>
      let batchSize := Z.min (terminalCount - target) terminalTranscriptionRetentionBatch in
      ids ← LockOldestTerminalTranscriptionJobsForWorkspaceManual ws batchSize;
      if bool_decide (ids = []) then tx_fail ERetention else
      _ ← retain_batch ws ids;
      retain_loop fuel' ws target (terminalCount - Z.of_nat (length ids))
  end.

Definition retainTerminalTranscriptionHistory (ws target : Z) : stx unit :=
  if (ws =? 0) || (target <? 0) then tx_fail EInvalid else
  n ← CountTerminalTranscriptionJobsForWorkspaceManual ws;
  retain_loop (Z.to_nat n) ws target n.

Definition lockTranscriptionAdmissionWorkspace (img : Z) : stx Z :=
  ws ← LockTranscriptionJobWorkspaceByItemImageManual img;
  if ws =? 0 then tx_fail EInvalid else
  _ ← retainTerminalTranscriptionHistory ws (MaxTerminalTranscriptionJobsPerWorkspace - 1);
  mret ws.

(** [TranscriptionJobAdmissionPolicy] *)
Definition maxActiveTranscriptionJobsPerWorkspace : Z := 100000.
Definition DefaultMaxActiveTranscriptionJobsPerWorkspace : Z := 1000.
Definition NewTranscriptionJobAdmissionPolicy (maxActive : Z) : result err Z :=
  if (maxActive <? 1) || (maxActiveTranscriptionJobsPerWorkspace <? maxActive)
  then Err EInvalid else Ok maxActive.

Definition enforceTranscriptionJobAdmission (ws maxActive : Z) : stx unit :=
  active ← CountActiveTranscriptionJobsByWorkspaceManual ws;
  if maxActive <=? active then tx_fail (EQuotaExceeded ws maxActive) else mret tt.

(** The superseding part of [createLocked]. *)
Definition supersede_active (e : env) (id : Z) (r : job_row) : stx unit :=
  _ ← (if bool_decide (j_status r = Running) then
         f ← tx_lift (attemptFenceFromRow id r);
         finishTranscriptionAttempt e f AttemptSuperseded
           "superseded by a newer transcription request" None
       else mret tt);
  _ ← requireOneAffected (SupersedeTranscriptionJobByIDManual id (db_now e));
  DeleteTranscriptionCheckpoints id.

(** One turn of the loop of [createLocked]: [Some id] ends it. *)
Definition create_attempt (e : env) (maxActive ws img : Z) (ctx : option Z) (snapshot : json)
    (emptyInsertErr : err) (insert : stx Z) : stx (option Z) :=
  active ← LockActiveTranscriptionJobForUpdateManual img;
  rev ← LockCanonicalRevisionForTranscriptionJobManual img;
  match rev with
  | None => tx_fail ECanonicalPageRequired
  | Some inputRevision =>
      if inputRevision =? 0 then tx_fail ECanonicalPageRequired else
      match active with
      | Some (id, r) =>
          if activeTranscriptionJobMatches r ctx snapshot inputRevision
          then mret (Some id)
          else
            _ ← supersede_active e id r;
            insertedID ← insert;
            if insertedID <=? 0 then tx_fail emptyInsertErr else
            created ← GetTranscriptionJobManual insertedID;
            mret (if activeTranscriptionJobMatches created ctx snapshot inputRevision
                  then Some insertedID else None)
      | None =>
          _ ← enforceTranscriptionJobAdmission ws maxActive;
          insertedID ← insert;
          if insertedID <=? 0 then tx_fail emptyInsertErr else
          created ← GetTranscriptionJobManual insertedID;
          mret (if activeTranscriptionJobMatches created ctx snapshot inputRevision
                then Some insertedID else None)
      end
  end.

Fixpoint create_loop (n : nat) (e : env) (maxActive ws img : Z) (ctx : option Z)
    (snapshot : json) (emptyInsertErr : err) (insert : stx Z) : stx Z :=
  match n with
  | O => tx_fail ENotConverged
  | S n' =>
      r ← create_attempt e maxActive ws img ctx snapshot emptyInsertErr insert;
      match r with
      | Some id => if id =? 0 then tx_fail ENotConverged else mret id
      | None => create_loop n' e maxActive ws img ctx snapshot emptyInsertErr insert
      end
  end.

Definition createLocked (e : env) (maxActive ws img : Z) (ctx : option Z) (snapshot : json)
    (emptyInsertErr : err) (insert : stx Z) : stx Z :=
  create_loop 3 e maxActive ws img ctx snapshot emptyInsertErr insert.

(** [lockContextSnapshotForWorkspace]: the live context row, with the document
    type of the image's item. *)
Definition lockContextSnapshotForWorkspace (cid ws img : Z) : stx (Z * json) := fun s =>
  match contexts (par s) !! cid with
  | Some c =>
      if (c_scope_id c =? 0) || (c_scope_id c =? ws) then
        match image_item s img with
        | Some it =>
            if it_workspace_id it =? ws then
              let fields := match it_document_type it with
                            | Some d => if bool_decide (d = ""%string) then c_fields c
                                        else jset (c_fields c) "document_type" (JString d)
                            | None => c_fields c
                            end in
              Ok ((cid, JObject fields), s)
            else Err ENoRows
        | None => Err ENoRows
        end
      else Err ENoRows
  | None => Err ENoRows
  end.

Definition Create (e : env) (maxActive img contextID : Z) : stx Z :=
  if img =? 0 then tx_fail EInvalid else
  if contextID =? 0 then tx_fail EInvalid else
  ws ← lockTranscriptionAdmissionWorkspace img;
  '(cid, snapshot) ← lockContextSnapshotForWorkspace contextID ws img;
  let ctx := nullableUint64 cid in
  createLocked e maxActive ws img ctx snapshot ECanonicalPageRequired
    (CreateTranscriptionJobManual img ctx snapshot (db_now e)).

(** ** Claiming *)

(** What [claim] selects: a job by id, the oldest created before a cutoff, or
    the oldest. *)
Inductive selector := ByID (id : Z) | OlderThan (cutoff : Z) | Oldest.

Definition select_claimable (e : env) (sel : selector) : stx (option (Z * job_row)) :=
  match sel with
  | ByID id => ClaimLeasedTranscriptionJobByIDManual id (db_now e) (locked_rows e)
  | OlderThan cutoff =>
      ClaimNextLeasedTranscriptionJobOlderThanManual cutoff (db_now e) (locked_rows e)
  | Oldest => ClaimNextLeasedTranscriptionJobManual (db_now e) (locked_rows e)
  end.

Definition leaseDuration10m : Z := 600.

(** The lease taken on a claimable row. *)
Definition take_lease (e : env) (id : Z) (r : job_row) : stx TranscriptionJob :=
  let leaseToken := newLeaseOwner "worker" (uuid e) in
  let leaseUntil := go_now e + leaseDuration10m in
  _ ← requireOneAffected (MarkTranscriptionJobLeasedManual leaseUntil (nullableString leaseToken)
        id (j_attempt_count r) (k_input_revision (j_key r)) (j_locked_by r) (db_now e));
  let attemptNumber := j_attempt_count r + 1 in
  _ ← requireOneAffected (InsertTranscriptionJobAttemptManual (transcriptionLeaseOwner e)
        leaseToken id attemptNumber (k_input_revision (j_key r)) (nullableString leaseToken)
        (db_now e));
  claimedRow ← GetTranscriptionJobManual id;
  jobWithAttempts id claimedRow.

(** An expired running row: its attempt ends; [true] when the attempt budget is
    spent and the job has been failed. *)
Definition recover_expired (e : env) (id : Z) (r : job_row) : stx bool :=
  if bool_decide (j_status r = Running) then
    f ← tx_lift (attemptFenceFromRow id r);
    _ ← finishTranscriptionAttempt e f AttemptLeaseExpired "worker lease expired" None;
    if k_max_attempts (j_key r) <=? j_attempt_count r then
      _ ← requireOneAffected (FailExpiredTranscriptionJobManual id (j_attempt_count r)
            (k_input_revision (j_key r)) (j_locked_by r) (db_now e));
      _ ← DeleteTranscriptionCheckpoints id;
      mret true
    else mret false
  else mret false.

Fixpoint claim_loop (fuel : nat) (e : env) (sel : selector) : stx (option TranscriptionJob) :=
  match fuel with
  | O => tx_fail EOutOfFuel
  | S fuel' =>
      row ← select_claimable e sel;
      match row with
      | None => mret None
      | Some (id, r) =>
          exhausted ← recover_expired e id r;
          if exhausted : bool then
            match sel with
            | ByID _ => mret None
            | _ => claim_loop fuel' e sel
            end
          else job ← take_lease e id r; mret (Some job)
      end
  end.

(** Each turn that goes round again fails one job, so the number of jobs bounds
    the turns ([JobClaim.claim_terminates]). *)
Definition claim (e : env) (sel : selector) : stx (option TranscriptionJob) := fun s =>
  claim_loop (S (size (jobs s))) e sel s.

Definition ClaimNextPending (e : env) : stx (option TranscriptionJob) := claim e Oldest.
Definition ClaimNextPendingOlderThan (e : env) (cutoff : Z) : stx (option TranscriptionJob) :=
  claim e (OlderThan cutoff).
Definition ClaimPendingByID (e : env) (id : Z) : stx (option TranscriptionJob) :=
  if id =? 0 then mret None else claim e (ByID id).

(** ** Worker-owned transitions *)

Definition SetTotalSegments (e : env) (f : fence) (total : Z) : stx unit :=
  n ← tx_lift (transcriptionAttemptNumberToDB f);
  total ← tx_lift (int32FromInt total);
  requireFenceAffected (SetTranscriptionJobTotalSegmentsManual total
    (JobID f) n (InputRevision f) (nullableString (LeaseToken f)) (db_now e)).

Definition UpdateProgress (e : env) (f : fence) (completed failed : Z)
    (cur_id cur_json last : string) : stx unit :=
  n ← tx_lift (transcriptionAttemptNumberToDB f);
  completed ← tx_lift (int32FromInt completed);
  failed ← tx_lift (int32FromInt failed);
  requireFenceAffected (UpdateTranscriptionJobProgressManual completed failed
    (nullableString cur_id) (nullableString cur_json) (nullableString last)
    (JobID f) n (InputRevision f) (nullableString (LeaseToken f)) (db_now e)).

Definition ExtendLease (e : env) (f : fence) (duration : Z) : stx unit :=
  n ← tx_lift (transcriptionAttemptNumberToDB f);
  let d := if duration <=? 0 then leaseDuration10m else duration in
  requireFenceAffected (ExtendTranscriptionJobLeaseManual (go_now e + d)
    (JobID f) n (InputRevision f) (nullableString (LeaseToken f)) (db_now e)).

Definition Cancel (e : env) (id : Z) : stx unit :=
  job ← LockTranscriptionJobForUpdateManual id;
  let finish : stx unit :=
    _ ← requireOneAffected (CancelTranscriptionJobManual id (db_now e));
    DeleteTranscriptionCheckpoints id in
  match j_status job with
  | Canceled => mret tt
  | Pending => finish
  | Running =>
      f ← tx_lift (attemptFenceFromRow id job);
      _ ← finishTranscriptionAttempt e f AttemptCanceled "canceled by user" None;
      finish
  | _ => tx_fail ENoRows
  end.

(** ** Failure messages *)

(** [safeTranscriptionErrorMessage]: the fixed categories a job may record. *)
Definition safeTranscriptionErrorMessage (message : string) : string :=
  let normalized := ToLower (TrimSpace message) in
  let has p := Contains normalized p in
  (if has "canonical annotation page" && has "changed"
   then "canonical annotation page changed during transcription"
   else if has "canonical annotation page" && (has "missing" || has "not found" || has "required")
   then "canonical annotation page is unavailable"
   else if has "context snapshot" then "transcription context snapshot is invalid"
   else if has "transcription job" && has "segments" && has "maximum"
   then "transcription job exceeds configured segment limit"
   else if has "workspace provider credential" && has "not configured"
   then "workspace provider credential is not configured"
   else if has "workspace provider credential" && has "invalid"
   then "workspace provider credential is invalid"
   else if has "worker shutting down" || has "context canceled" || has "deadline exceeded"
   then "transcription attempt was interrupted"
   else if has "provider" || has "transcription failed for"
   then "transcription provider request failed"
   else "transcription attempt failed")%string.

(** ** Failing, retrying and deferring *)

Definition itemImageIDFromSubject (subject : string) : option Z :=
  let '(raw, ok) := CutPrefix (TrimSpace subject) "item-images/" in
  if negb ok || bool_decide (raw = ""%string) then None else
  let '(idPart, _, _) := Cut raw "/"%char in
  match ParseUint idPart with
  | Some id => if 0 <? id then Some id else None
  | None => None
  end.

Definition eventWorkspaceID (subject : string) : stx (option Z) := fun s =>
  match itemImageIDFromSubject subject with
  | None => Err EInvalid
  | Some img =>
      match image_item s img with
      | Some it => Ok (nullableUint64 (it_workspace_id it), s)
      | None => Err ENoRows
      end
  end.

(** The outbox row and the webhook deliveries of a terminal failure. *)
Record event := { ev_id : string; ev_type : string; ev_subject : string; ev_body : string }.

Definition emit_event (ev : event) : stx unit :=
  if bool_decide (TrimSpace (ev_id ev) <> ""%string)
     && bool_decide (TrimSpace (ev_body ev) <> ""%string)
  then
    ws ← eventWorkspaceID (ev_subject ev);
    _ ← InsertEventOutbox (ev_id ev) (ev_type ev) ws (nullableString (ev_subject ev)) (ev_body ev);
    InsertWorkspaceWebhookDeliveries (ev_id ev)
  else mret tt.

(** [errors.Is(err, sql.ErrNoRows)] becomes the fence error. *)
Definition lock_lease (e : env) (f : fence) (n : Z) : stx unit := fun s =>
  match LockActiveTranscriptionJobLeaseManual (JobID f) n (InputRevision f)
          (nullableString (LeaseToken f)) (db_now e) s with
  | Err ENoRows => Err EFence
  | r => r
  end.

Definition failWithWebhookEvent (e : env) (f : fence) (errMsg : string) (ev : event)
    (permanent : bool) (retryAfter : option Z) : stx bool :=
  n ← tx_lift (transcriptionAttemptNumberToDB f);
  let safeMessage := safeTranscriptionErrorMessage errMsg in
  _ ← lock_lease e f n;
  job ← GetTranscriptionJobManual (JobID f);
  let terminal := permanent || (k_max_attempts (j_key job) <=? j_attempt_count job) in
  let oc := if terminal then AttemptFailed else AttemptRetryableFailed in
  _ ← finishTranscriptionAttempt e f oc safeMessage None;
  let msg := nullableString safeMessage in
  let tok := nullableString (LeaseToken f) in
  _ ← requireFenceAffected
    (match retryAfter with
     | Some t =>
         if permanent || terminal
         then PermanentlyFailTranscriptionJobManual msg (JobID f) n (InputRevision f) tok (db_now e)
         else DeferTranscriptionJobLeaseManual t msg (JobID f) n (InputRevision f) tok (db_now e)
     | None =>
         if permanent
         then PermanentlyFailTranscriptionJobManual msg (JobID f) n (InputRevision f) tok (db_now e)
         else RetryOrFailTranscriptionJobManual msg (JobID f) n (InputRevision f) tok (db_now e)
     end);
  _ ← (if terminal : bool then DeleteTranscriptionCheckpoints (JobID f) else mret tt);
  _ ← (if terminal : bool then emit_event ev else mret tt);
  mret terminal.

Definition no_event : event := {| ev_id := ""; ev_type := ""; ev_subject := ""; ev_body := "" |}.

Definition Fail (e : env) (f : fence) (errMsg : string) : stx unit :=
  _ ← failWithWebhookEvent e f errMsg no_event false None; mret tt.
Definition Defer (e : env) (f : fence) (errMsg : string) (retryAfter : Z) : stx unit :=
  _ ← failWithWebhookEvent e f errMsg no_event false (Some retryAfter); mret tt.
Definition FailWithWebhookEvent (e : env) (f : fence) (errMsg : string) (ev : event) : stx bool :=
  failWithWebhookEvent e f errMsg ev false None.
Definition PermanentlyFailWithWebhookEvent (e : env) (f : fence) (errMsg : string) (ev : event)
    : stx unit :=
  _ ← failWithWebhookEvent e f errMsg ev true None; mret tt.

(** The completion a canonical page save commits (store/annotations.go): the
    attempt and the job end together, and the checkpoints go. *)
Definition complete_leased (e : env) (f : fence) (resultRevision : Z) : stx unit :=
  n ← tx_lift (transcriptionAttemptNumberToDB f);
  _ ← finishTranscriptionAttempt e f AttemptCompleted "" (Some resultRevision);
  _ ← requireFenceAffected (CompleteTranscriptionJobLeasedManual
        (JobID f) n (InputRevision f) (nullableString (LeaseToken f)) (db_now e));
  DeleteTranscriptionCheckpoints (JobID f).

(** ** Checkpoints (store/transcription_checkpoints.go) *)

Definition Checkpoint (e : env) (f : fence) : stx string := fun s =>
  match transcriptionAttemptNumberToDB f with
  | Err x => Err x
  | Ok n =>
      match GetTranscriptionCheckpoint (JobID f) n (InputRevision f)
              (nullableString (LeaseToken f)) (db_now e) s with
      | Err ENoRows => Err EFence
      | Err x => Err x
      | Ok (v, s') => Ok (coalesce v, s')
      end
  end.

Definition withCheckpointLease {A} (e : env) (f : fence) (operation : stx A) : stx A :=
  n ← tx_lift (transcriptionAttemptNumberToDB f);
  _ ← lock_lease e f n;
  operation.

Definition SaveCheckpoint (e : env) (f : fence) (line payload : string) : stx unit :=
  withCheckpointLease e f (SaveTranscriptionCheckpoint (JobID f) line payload).
Definition ClearCheckpoints (e : env) (f : fence) : stx unit :=
  withCheckpointLease e f (DeleteTranscriptionCheckpoints (JobID f)).
Definition LineCheckpoints (e : env) (f : fence) : stx (gmap string string) :=
  withCheckpointLease e f (ListTranscriptionLineCheckpoints (JobID f)).

End JobStore.
