(* ===== verification/JobInvariant.v ===== *)
(** * The transcription queue as a transition system

    [qstep] is the abstract specification of the queue: the transitions a job may
    take, each with its effect on the job, attempt and checkpoint tables.
    [queue_inv] is its invariant, proved by rule induction.  [JobRefine] shows
    that the store methods only take such transitions. *)

From Stdlib Require Import ZArith Lia Ascii String.
From stdpp Require Import base gmap strings list.
From S2P Require Import Prelude GoStrings Json JobSchema JobStore.

Module JobInvariant.
Import GoStr Json Jobs JobStore.

(** ** The invariant *)

Record queue_inv (s : db) : Prop := {
  (** rows satisfy the table's constraints and have allocated ids *)
  inv_checks : forall id r, jobs s !! id = Some r ->
    job_checks r = true /\ 0 < id < next_job_id s;
  inv_next : 0 < next_job_id s;
  (** one pending or running job per image *)
  inv_active : forall id1 id2 r1 r2 img,
    jobs s !! id1 = Some r1 -> jobs s !! id2 = Some r2 ->
    active_image r1 = Some img -> active_image r2 = Some img -> id1 = id2;
  (** a running job has a running attempt that carries its lease token *)
  inv_running : forall id r, jobs s !! id = Some r -> j_status r = Running ->
    exists a, attempts s !! (id, j_attempt_count r) = Some a /\ a_outcome a = AttemptRunning
      /\ j_locked_by r = Some (a_lease_token a)
      /\ a_input_revision a = k_input_revision (j_key r);
  (** an attempt belongs to a job; only the current one of a running job runs *)
  inv_attempt : forall id n a, attempts s !! (id, n) = Some a ->
    attempt_checks n a = true /\
    exists r, jobs s !! id = Some r /\ n <= j_attempt_count r /\
      (a_outcome a = AttemptRunning -> j_status r = Running /\ n = j_attempt_count r);
  (** the attempt history has no gap *)
  inv_history : forall id r n, jobs s !! id = Some r -> 1 <= n <= j_attempt_count r ->
    is_Some (attempts s !! (id, n));
  (** a lease token names one claim *)
  inv_tokens : forall k1 k2 a1 a2, attempts s !! k1 = Some a1 -> attempts s !! k2 = Some a2 ->
    a_lease_token a1 = a_lease_token a2 -> k1 = k2;
  (** a pending job has attempts left *)
  inv_budget : forall id r, jobs s !! id = Some r -> j_status r = Pending ->
    j_attempt_count r < k_max_attempts (j_key r);
  (** checkpoints belong to live jobs *)
  inv_checkpoints : forall id line, is_Some (checkpoints s !! (id, line)) ->
    exists r, jobs s !! id = Some r /\ is_active (j_status r) = true;
}.

(** ** The transitions *)

Definition drop_checkpoints (id : Z) (m : gmap (Z * string) string) : gmap (Z * string) string :=
  filter (fun kv => kv.1.1 <> id) m.

Definition same_tables (s s' : db) : Prop :=
  jobs s' = jobs s /\ attempts s' = attempts s /\ checkpoints s' = checkpoints s
  /\ next_job_id s' = next_job_id s.

Inductive qstep (s s' : db) : Prop :=
| step_frame : same_tables s s' -> qstep s s'
(** a job is admitted *)
| step_create r :
    job_checks r = true -> active_unique (jobs s) (next_job_id s) r = true ->
    jobs s !! next_job_id s = None ->
    j_status r = Pending -> j_attempt_count r = 0 ->
    jobs s' = <[next_job_id s := r]> (jobs s) -> attempts s' = attempts s ->
    checkpoints s' = checkpoints s -> next_job_id s' = next_job_id s + 1 -> qstep s s'
(** the lease holder reports progress or renews the lease *)
| step_update id r r' :
    jobs s !! id = Some r -> j_status r = Running -> job_checks r' = true ->
    j_key r' = j_key r -> j_status r' = Running -> j_attempt_count r' = j_attempt_count r ->
    j_locked_by r' = j_locked_by r ->
    jobs s' = <[id := r']> (jobs s) -> attempts s' = attempts s ->
    checkpoints s' = checkpoints s -> next_job_id s' = next_job_id s -> qstep s s'
(** a pending or expired job is claimed; an expired claim's attempt has ended *)
| step_lease id r r' a ended :
    jobs s !! id = Some r -> is_active (j_status r) = true -> job_checks r' = true ->
    j_key r' = j_key r -> j_status r' = Running -> j_attempt_count r' = j_attempt_count r + 1 ->
    j_locked_by r' = Some (a_lease_token a) -> TrimSpace (a_lease_token a) <> ""%string ->
    a_outcome a = AttemptRunning -> a_input_revision a = k_input_revision (j_key r) ->
    attempt_checks (j_attempt_count r + 1) a = true ->
    (j_status r = Pending -> ended = attempts s) ->
    (j_status r = Running -> exists old oc msg now,
       attempts s !! (id, j_attempt_count r) = Some old /\ a_outcome old = AttemptRunning /\
       oc <> AttemptRunning /\
       attempt_checks (j_attempt_count r) (finish_row oc msg None now old) = true /\
       ended = <[(id, j_attempt_count r) := finish_row oc msg None now old]> (attempts s)) ->
    token_free ended (a_lease_token a) = true ->
    jobs s' = <[id := r']> (jobs s) ->
    attempts s' = <[(id, j_attempt_count r + 1) := a]> ended ->
    checkpoints s' = checkpoints s -> next_job_id s' = next_job_id s -> qstep s s'
(** a running attempt ends: the job is retried later, or terminal *)
| step_close id r r' a oc msg res now :
    jobs s !! id = Some r -> j_status r = Running -> job_checks r' = true ->
    j_key r' = j_key r -> j_status r' <> Running -> j_attempt_count r' = j_attempt_count r ->
    (j_status r' = Pending -> j_attempt_count r < k_max_attempts (j_key r)) ->
    attempts s !! (id, j_attempt_count r) = Some a -> oc <> AttemptRunning ->
    attempt_checks (j_attempt_count r) (finish_row oc msg res now a) = true ->
    jobs s' = <[id := r']> (jobs s) ->
    attempts s' = <[(id, j_attempt_count r) := finish_row oc msg res now a]> (attempts s) ->
    checkpoints s' = (if is_terminal (j_status r') then drop_checkpoints id (checkpoints s)
                      else checkpoints s) ->
    next_job_id s' = next_job_id s -> qstep s s'
(** a pending job is canceled or superseded *)
| step_drop id r r' :
    jobs s !! id = Some r -> j_status r = Pending -> job_checks r' = true ->
    j_key r' = j_key r -> is_terminal (j_status r') = true ->
    j_attempt_count r' = j_attempt_count r ->
    jobs s' = <[id := r']> (jobs s) -> attempts s' = attempts s ->
    checkpoints s' = drop_checkpoints id (checkpoints s) ->
    next_job_id s' = next_job_id s -> qstep s s'
(** the lease holder checkpoints its work *)
| step_checkpoint id r line payload :
    jobs s !! id = Some r -> j_status r = Running ->
    jobs s' = jobs s -> attempts s' = attempts s ->
    checkpoints s' = <[(id, line) := payload]> (checkpoints s) ->
    next_job_id s' = next_job_id s -> qstep s s'
| step_clear id :
    jobs s' = jobs s -> attempts s' = attempts s ->
    checkpoints s' = drop_checkpoints id (checkpoints s) ->
    next_job_id s' = next_job_id s -> qstep s s'
(** a terminal job leaves the retained history *)
| step_retire id r :
    jobs s !! id = Some r -> is_terminal (j_status r) = true ->
    jobs s' = delete id (jobs s) ->
    attempts s' = filter (fun kv => kv.1.1 <> id) (attempts s) ->
    checkpoints s' = drop_checkpoints id (checkpoints s) ->
    next_job_id s' = next_job_id s -> qstep s s'.

(** ** Row facts *)

Lemma active_unique_spec m id r id' r' img :
  active_unique m id r = true -> m !! id' = Some r' ->
  active_image r = Some img -> active_image r' = Some img -> id' = id.
Proof.
  unfold active_unique. intros H Hr' Hi Hi'. rewrite Hi in H. split_bools.
  specialize (H id' r' Hr'). naive_solver.
Qed.

Lemma active_image_status r r' :
  j_key r' = j_key r -> is_active (j_status r) = true ->
  forall img, active_image r' = Some img -> active_image r = Some img.
Proof. unfold active_image. intros Hk -> img. rewrite Hk. by case_match. Qed.

Lemma token_free_spec m t : token_free m t = true -> forall k a, m !! k = Some a -> a_lease_token a <> t.
Proof. unfold token_free. intros H. split_bools. apply H. Qed.

Lemma job_checks_count r : job_checks r = true -> 0 <= j_attempt_count r <= k_max_attempts (j_key r).
Proof. unfold job_checks. intros H. split_bools. lia. Qed.

Lemma drop_checkpoints_is_Some id m id' line :
  is_Some (drop_checkpoints id m !! (id', line)) <-> id' <> id /\ is_Some (m !! (id', line)).
Proof.
  unfold drop_checkpoints, is_Some. setoid_rewrite map_lookup_filter_Some. naive_solver.
Qed.

Lemma is_terminal_iff st : is_terminal st = true <-> is_active st = false.
Proof. unfold is_terminal. by rewrite negb_true_iff. Qed.

(** A job row replaced by one of the same key keeps the table's row facts. *)
Lemma replace_row_checks s s' id r r' :
  queue_inv s -> jobs s !! id = Some r -> job_checks r' = true ->
  jobs s' = <[id := r']> (jobs s) -> next_job_id s' = next_job_id s ->
  forall id' x, jobs s' !! id' = Some x -> job_checks x = true /\ 0 < id' < next_job_id s'.
Proof.
  intros I Hr Hc -> -> id' x Hx. rewrite lookup_insert in Hx. case_decide; simplify_eq.
  - split; [done|]. eapply inv_checks; eauto.
  - eapply inv_checks; eauto.
Qed.

Lemma replace_row_active s s' id r r' :
  queue_inv s -> jobs s !! id = Some r ->
  (forall img, active_image r' = Some img -> active_image r = Some img) ->
  jobs s' = <[id := r']> (jobs s) ->
  forall id1 id2 r1 r2 img, jobs s' !! id1 = Some r1 -> jobs s' !! id2 = Some r2 ->
    active_image r1 = Some img -> active_image r2 = Some img -> id1 = id2.
Proof.
  intros I Hr Himg -> id1 id2 r1 r2 img. rewrite !lookup_insert.
  repeat case_decide; intros; simplify_eq; try done; eapply inv_active; eauto.
Qed.


(** ** Each transition preserves the invariant *)

Ltac lookups :=
  repeat match goal with
  | H : context [<[_ := _]> _ !! _] |- _ => rewrite lookup_insert in H; case_decide; simplify_eq
  | |- context [<[_ := _]> _ !! _] => rewrite lookup_insert; case_decide; simplify_eq
  end.

Lemma frame_inv s s' : queue_inv s -> same_tables s s' -> queue_inv s'.
Proof. intros [] (Hj & Ha & Hc & Hn). constructor; rewrite ?Hj, ?Ha, ?Hc, ?Hn; done. Qed.

Lemma create_inv s s' r :
  queue_inv s -> job_checks r = true -> active_unique (jobs s) (next_job_id s) r = true ->
  jobs s !! next_job_id s = None -> j_status r = Pending -> j_attempt_count r = 0 ->
  jobs s' = <[next_job_id s := r]> (jobs s) -> attempts s' = attempts s ->
  checkpoints s' = checkpoints s -> next_job_id s' = next_job_id s + 1 -> queue_inv s'.
Proof.
  intros I Hc Hu Hfresh Hst Hcnt Hj Ha Hck Hn. pose proof (inv_next s I).
  constructor; rewrite ?Hj, ?Ha, ?Hck, ?Hn.
  - intros id x Hx. lookups; [split; [done|lia]|].
    destruct (inv_checks s I id x Hx). split; [done|lia].
  - lia.
  - intros id1 id2 r1 r2 img H1 H2 Hi1 Hi2. lookups; try done.
    1, 2: solve [eapply active_unique_spec; eauto | symmetry; eapply active_unique_spec; eauto].
    eapply inv_active; eauto.
  - intros id x Hx Hrun. lookups; [congruence|]. by eapply inv_running.
  - intros id n a Hx. destruct (inv_attempt s I id n a Hx) as (? & x & Hx' & ?).
    split; [done|]. exists x. by rewrite lookup_insert_ne by naive_solver.
  - intros id x n Hx Hn'. lookups; [lia|]. eapply inv_history; eauto.
  - eapply inv_tokens; eauto.
  - intros id x Hx Hp. lookups.
    + unfold job_checks in Hc. split_bools. lia.
    + eapply inv_budget; eauto.
  - intros id line Hs. destruct (inv_checkpoints s I id line Hs) as (x & Hx & ?).
    exists x. by rewrite lookup_insert_ne by naive_solver.
Qed.

Lemma update_inv s s' id r r' :
  queue_inv s -> jobs s !! id = Some r -> j_status r = Running -> job_checks r' = true ->
  j_key r' = j_key r -> j_status r' = Running -> j_attempt_count r' = j_attempt_count r ->
  j_locked_by r' = j_locked_by r ->
  jobs s' = <[id := r']> (jobs s) -> attempts s' = attempts s ->
  checkpoints s' = checkpoints s -> next_job_id s' = next_job_id s -> queue_inv s'.
Proof.
  intros I Hr Hst Hc Hk Hst' Hcnt Hlk Hj Ha Hck Hn.
  pose proof (replace_row_checks s s' id r r' I Hr Hc Hj Hn) as Hchk.
  assert (Himg : forall img, active_image r' = Some img -> active_image r = Some img).
  { apply active_image_status; [done|]. by rewrite Hst. }
  pose proof (replace_row_active s s' id r r' I Hr Himg Hj) as Hact.
  constructor; [done|rewrite Hn; by apply inv_next|done| | | | | |];
    rewrite ?Hj, ?Ha, ?Hck.
  - intros id' x Hx Hrun. lookups; [|by eapply inv_running].
    destruct (inv_running s I _ _ Hr Hst) as (a & Haa & ? & ? & ?).
    exists a. rewrite Hcnt, Hlk, Hk. done.
  - intros id' n a Hx. destruct (inv_attempt s I id' n a Hx) as (? & x & Hx' & ? & ?).
    split; [done|]. destruct (decide (id = id')) as [<-|Hne]; simplify_eq.
    + exists r'. rewrite lookup_insert_eq, Hcnt. naive_solver.
    + exists x. by rewrite lookup_insert_ne.
  - intros id' x n Hx Hn'. lookups; [rewrite Hcnt in Hn'|]; eapply inv_history; eauto.
  - eapply inv_tokens; eauto.
  - intros id' x Hx Hp. lookups; [congruence|]. eapply inv_budget; eauto.
  - intros id' line Hs. destruct (inv_checkpoints s I id' line Hs) as (x & Hx & ?).
    destruct (decide (id = id')) as [<-|Hne].
    + exists r'. rewrite lookup_insert_eq, Hst'. done.
    + exists x. by rewrite lookup_insert_ne.
Qed.

Lemma drop_checkpoints_live s s' id r' :
  queue_inv s -> (is_active (j_status r') = true -> checkpoints s' = checkpoints s) ->
  (is_active (j_status r') = false -> checkpoints s' = drop_checkpoints id (checkpoints s)) ->
  jobs s' = <[id := r']> (jobs s) ->
  forall id' line, is_Some (checkpoints s' !! (id', line)) ->
    exists x, jobs s' !! id' = Some x /\ is_active (j_status x) = true.
Proof.
  intros I Hsame Hdrop Hj id' line Hs. rewrite Hj.
  destruct (is_active (j_status r')) eqn:Hact.
  - rewrite Hsame in Hs by done. destruct (inv_checkpoints s I id' line Hs) as (x & Hx & ?).
    destruct (decide (id = id')) as [<-|]; [exists r'; by rewrite lookup_insert_eq|].
    exists x. by rewrite lookup_insert_ne.
  - rewrite Hdrop in Hs by done. apply drop_checkpoints_is_Some in Hs as [Hne Hs].
    destruct (inv_checkpoints s I id' line Hs) as (x & Hx & ?).
    exists x. by rewrite lookup_insert_ne by done.
Qed.

(** A non-running successor of a row holds no attempt open. *)
Lemma quiet_row_inv s s' id r r' :
  queue_inv s -> jobs s !! id = Some r -> is_active (j_status r) = true ->
  job_checks r' = true -> j_key r' = j_key r -> j_status r' <> Running ->
  j_attempt_count r' = j_attempt_count r ->
  (j_status r' = Pending -> j_attempt_count r < k_max_attempts (j_key r)) ->
  jobs s' = <[id := r']> (jobs s) ->
  (forall n a, attempts s' !! (id, n) = Some a -> attempt_checks n a = true
     /\ a_outcome a <> AttemptRunning /\ is_Some (attempts s !! (id, n))) ->
  (forall id' n, id' <> id -> attempts s' !! (id', n) = attempts s !! (id', n)) ->
  (forall n, is_Some (attempts s !! (id, n)) -> is_Some (attempts s' !! (id, n))) ->
  (forall k a, attempts s' !! k = Some a ->
     exists a0, attempts s !! k = Some a0 /\ a_lease_token a = a_lease_token a0) ->
  (is_active (j_status r') = true -> checkpoints s' = checkpoints s) ->
  (is_active (j_status r') = false -> checkpoints s' = drop_checkpoints id (checkpoints s)) ->
  next_job_id s' = next_job_id s -> queue_inv s'.
Proof.
  intros I Hr Hst Hc Hk Hst' Hcnt Hbud Hj Hown Hoth Hkeep Htok Hck1 Hck2 Hn.
  pose proof (replace_row_checks s s' id r r' I Hr Hc Hj Hn) as Hchk.
  pose proof (replace_row_active s s' id r r' I Hr (active_image_status r r' Hk Hst) Hj) as Hact.
  constructor; [done|rewrite Hn; by apply inv_next|done| | | | | |
                by eapply drop_checkpoints_live]; rewrite ?Hj.
  - intros id' x Hx Hrun. lookups. rewrite Hoth by done. by eapply inv_running.
  - intros id' n a Hx. destruct (decide (id' = id)) as [->|Hne].
    + destruct (Hown n a Hx) as (? & ? & [a0 Ha0]). split; [done|]. exists r'.
      rewrite lookup_insert_eq. destruct (inv_attempt s I _ _ _ Ha0) as (_ & x & ? & ? & _).
      simplify_eq. rewrite Hcnt. done.
    + rewrite Hoth in Hx by done. destruct (inv_attempt s I id' n a Hx) as (? & x & ? & ? & ?).
      split; [done|]. exists x. by rewrite lookup_insert_ne by done.
  - intros id' x n Hx Hn'. lookups.
    + apply Hkeep. rewrite Hcnt in Hn'. by eapply inv_history.
    + rewrite Hoth by done. by eapply inv_history.
  - intros k1 k2 a1 a2 H1 H2 Heq.
    destruct (Htok _ _ H1) as (b1 & ? & ?), (Htok _ _ H2) as (b2 & ? & ?).
    eapply inv_tokens; eauto. congruence.
  - intros id' x Hx Hp. lookups; [rewrite Hcnt, Hk; auto|]. by eapply inv_budget.
Qed.

Lemma running_attempt_unique s id r n a :
  queue_inv s -> jobs s !! id = Some r -> attempts s !! (id, n) = Some a ->
  a_outcome a = AttemptRunning -> j_status r = Running /\ n = j_attempt_count r.
Proof.
  intros I Hr Ha Ho. destruct (inv_attempt s I id n a Ha) as (_ & x & ? & _ & H).
  simplify_eq. auto.
Qed.

Lemma close_inv s s' id r r' a oc msg res now :
  queue_inv s -> jobs s !! id = Some r -> j_status r = Running -> job_checks r' = true ->
  j_key r' = j_key r -> j_status r' <> Running -> j_attempt_count r' = j_attempt_count r ->
  (j_status r' = Pending -> j_attempt_count r < k_max_attempts (j_key r)) ->
  attempts s !! (id, j_attempt_count r) = Some a -> oc <> AttemptRunning ->
  attempt_checks (j_attempt_count r) (finish_row oc msg res now a) = true ->
  jobs s' = <[id := r']> (jobs s) ->
  attempts s' = <[(id, j_attempt_count r) := finish_row oc msg res now a]> (attempts s) ->
  checkpoints s' = (if is_terminal (j_status r') then drop_checkpoints id (checkpoints s)
                    else checkpoints s) ->
  next_job_id s' = next_job_id s -> queue_inv s'.
Proof.
  intros I Hr Hst Hc Hk Hst' Hcnt Hbud Ha Hoc Hac Hj Has Hck Hn.
  unfold is_terminal in Hck.
  eapply quiet_row_inv; eauto.
  - by rewrite Hst.
  - rewrite Has. intros n x Hx. lookups; [done|].
    destruct (inv_attempt s I _ _ _ Hx) as (? & _). split; [done|]. split; [|done].
    intros Ho. destruct (running_attempt_unique _ _ _ _ _ I Hr Hx Ho). congruence.
  - intros id' n Hne. rewrite Has. by rewrite lookup_insert_ne by congruence.
  - intros n Hs. rewrite Has, lookup_insert. by case_decide.
  - rewrite Has. intros k x Hx. lookups; eauto.
  - intros Hact. by rewrite Hck, Hact.
  - intros Hact. by rewrite Hck, Hact.
Qed.

Lemma drop_inv s s' id r r' :
  queue_inv s -> jobs s !! id = Some r -> j_status r = Pending -> job_checks r' = true ->
  j_key r' = j_key r -> is_terminal (j_status r') = true ->
  j_attempt_count r' = j_attempt_count r ->
  jobs s' = <[id := r']> (jobs s) -> attempts s' = attempts s ->
  checkpoints s' = drop_checkpoints id (checkpoints s) ->
  next_job_id s' = next_job_id s -> queue_inv s'.
Proof.
  intros I Hr Hst Hc Hk Ht Hcnt Hj Has Hck Hn. apply is_terminal_iff in Ht.
  eapply quiet_row_inv; eauto; rewrite ?Has.
  - by rewrite Hst.
  - intros Hrun. by rewrite Hrun in Ht.
  - intros Hp. by rewrite Hp in Ht.
  - intros n x Hx. destruct (inv_attempt s I _ _ _ Hx) as (? & _). split_and!; [done| |done].
    intros Ho. destruct (running_attempt_unique _ _ _ _ _ I Hr Hx Ho). congruence.
  - done.
  - done.
  - eauto.
  - congruence.
Qed.

(** The attempt table once an expired claim has been ended. *)
Record ended_facts (s : db) (id : Z) (ended : gmap (Z * Z) attempt_row) : Prop := {
  ended_own : forall n a, ended !! (id, n) = Some a -> attempt_checks n a = true
    /\ a_outcome a <> AttemptRunning /\ is_Some (attempts s !! (id, n));
  ended_other : forall id' n, id' <> id -> ended !! (id', n) = attempts s !! (id', n);
  ended_keep : forall n, is_Some (attempts s !! (id, n)) -> is_Some (ended !! (id, n));
  ended_tokens : forall k a, ended !! k = Some a ->
    exists a0, attempts s !! k = Some a0 /\ a_lease_token a = a_lease_token a0;
}.

Lemma ended_pending s id r :
  queue_inv s -> jobs s !! id = Some r -> j_status r = Pending ->
  ended_facts s id (attempts s).
Proof.
  intros I Hr Hst. constructor; try done; [|eauto].
  intros n x Hx. destruct (inv_attempt s I _ _ _ Hx) as (? & _). split_and!; [done| |done].
  intros Ho. destruct (running_attempt_unique _ _ _ _ _ I Hr Hx Ho). congruence.
Qed.

Lemma ended_finished s id r old oc msg res now :
  queue_inv s -> jobs s !! id = Some r -> j_status r = Running ->
  attempts s !! (id, j_attempt_count r) = Some old -> oc <> AttemptRunning ->
  attempt_checks (j_attempt_count r) (finish_row oc msg res now old) = true ->
  ended_facts s id (<[(id, j_attempt_count r) := finish_row oc msg res now old]> (attempts s)).
Proof.
  intros I Hr Hst Ha Hoc Hac. constructor.
  - intros n x Hx. lookups; [done|].
    destruct (inv_attempt s I _ _ _ Hx) as (? & _). split; [done|]. split; [|done].
    intros Ho. destruct (running_attempt_unique _ _ _ _ _ I Hr Hx Ho). congruence.
  - intros id' n Hne. by rewrite lookup_insert_ne by congruence.
  - intros n Hs. rewrite lookup_insert. by case_decide.
  - intros k x Hx. lookups; eauto.
Qed.

Lemma lease_inv s s' id r r' a ended :
  queue_inv s -> jobs s !! id = Some r -> is_active (j_status r) = true ->
  job_checks r' = true -> j_key r' = j_key r -> j_status r' = Running ->
  j_attempt_count r' = j_attempt_count r + 1 ->
  j_locked_by r' = Some (a_lease_token a) ->
  a_outcome a = AttemptRunning -> a_input_revision a = k_input_revision (j_key r) ->
  attempt_checks (j_attempt_count r + 1) a = true ->
  ended_facts s id ended -> token_free ended (a_lease_token a) = true ->
  jobs s' = <[id := r']> (jobs s) -> attempts s' = <[(id, j_attempt_count r + 1) := a]> ended ->
  checkpoints s' = checkpoints s -> next_job_id s' = next_job_id s -> queue_inv s'.
Proof.
  intros I Hr Hst Hc Hk Hst' Hcnt Hlk Ho Hrev Hac [Eown Eoth Ekeep Etok] Hfree Hj Ha Hck Hn.
  pose proof (replace_row_checks s s' id r r' I Hr Hc Hj Hn) as Hchk.
  pose proof (replace_row_active s s' id r r' I Hr (active_image_status r r' Hk Hst) Hj) as Hact.
  assert (Hnew : forall k, (k = (id, j_attempt_count r + 1) /\ attempts s' !! k = Some a)
                 \/ (k <> (id, j_attempt_count r + 1) /\ attempts s' !! k = ended !! k)).
  { intros k. rewrite Ha, lookup_insert. case_decide; naive_solver. }
  constructor; [done|rewrite Hn; by apply inv_next|done| | | | | |
    eapply drop_checkpoints_live; eauto; rewrite Hst'; done]; rewrite ?Hj.
  - intros id' x Hx Hrun. lookups.
    + rewrite Hcnt. destruct (Hnew (id', j_attempt_count r + 1)) as [[_ ->]|[? _]]; [|done].
      exists a. rewrite Hk. done.
    + destruct (Hnew (id', j_attempt_count x)) as [[? _]|[_ ->]]; [congruence|].
      rewrite Eoth by done. by eapply inv_running.
  - intros id' n x Hx. destruct (Hnew (id', n)) as [[E Hx']|[E Hx']]; rewrite Hx' in Hx; simplify_eq.
    + split; [done|]. exists r'. rewrite lookup_insert_eq, Hcnt. split_and!; [done|lia|done].
    + destruct (decide (id' = id)) as [->|Hne].
      * destruct (Eown n x Hx) as (? & ? & [a0 Ha0]). split; [done|]. exists r'.
        rewrite lookup_insert_eq, Hcnt. destruct (inv_attempt s I _ _ _ Ha0) as (_ & y & ? & ? & _).
        simplify_eq. split_and!; [done|lia|done].
      * rewrite Eoth in Hx by done. destruct (inv_attempt s I id' n x Hx) as (? & y & ? & ? & ?).
        split; [done|]. exists y. by rewrite lookup_insert_ne by done.
  - intros id' x n Hx Hn'. destruct (Hnew (id', n)) as [[E ->]|[E ->]]; [done|]. lookups.
    + apply Ekeep. eapply inv_history; eauto. assert (n <> j_attempt_count r + 1) by congruence. lia.
    + rewrite Eoth by done. by eapply inv_history.
  - intros k1 k2 a1 a2 H1 H2 Heq.
    destruct (Hnew k1) as [[-> E1]|[? E1]], (Hnew k2) as [[-> E2]|[? E2]];
      rewrite E1 in H1; rewrite E2 in H2; simplify_eq; try done.
    + exfalso. by eapply (token_free_spec _ _ Hfree).
    + exfalso. by eapply (token_free_spec _ _ Hfree).
    + destruct (Etok _ _ H1) as (b1 & ? & ?), (Etok _ _ H2) as (b2 & ? & ?).
      eapply inv_tokens; eauto. congruence.
  - intros id' x Hx Hp. lookups; [congruence|]. by eapply inv_budget.
Qed.

Lemma checkpoint_inv s s' id r line payload :
  queue_inv s -> jobs s !! id = Some r -> j_status r = Running ->
  jobs s' = jobs s -> attempts s' = attempts s ->
  checkpoints s' = <[(id, line) := payload]> (checkpoints s) ->
  next_job_id s' = next_job_id s -> queue_inv s'.
Proof.
  intros [] Hr Hst Hj Ha Hck Hn. constructor; rewrite ?Hj, ?Ha, ?Hck, ?Hn; try done.
  intros id' l. rewrite lookup_insert. case_decide; simplify_eq; [|eauto].
  intros _. exists r. by rewrite Hst.
Qed.

Lemma clear_inv s s' id :
  queue_inv s -> jobs s' = jobs s -> attempts s' = attempts s ->
  checkpoints s' = drop_checkpoints id (checkpoints s) ->
  next_job_id s' = next_job_id s -> queue_inv s'.
Proof.
  intros [] Hj Ha Hck Hn. constructor; rewrite ?Hj, ?Ha, ?Hck, ?Hn; try done.
  intros id' l [_ Hs]%drop_checkpoints_is_Some. eauto.
Qed.

Lemma retire_inv s s' id r :
  queue_inv s -> jobs s !! id = Some r -> is_terminal (j_status r) = true ->
  jobs s' = delete id (jobs s) ->
  attempts s' = filter (fun kv => kv.1.1 <> id) (attempts s) ->
  checkpoints s' = drop_checkpoints id (checkpoints s) ->
  next_job_id s' = next_job_id s -> queue_inv s'.
Proof.
  intros I Hr Ht Hj Ha Hck Hn.
  constructor; rewrite ?Hj, ?Ha, ?Hck, ?Hn.
  - intros id' x [? Hx]%lookup_delete_Some. by eapply inv_checks.
  - by apply inv_next.
  - intros id1 id2 r1 r2 img [? H1]%lookup_delete_Some [? H2]%lookup_delete_Some.
    by eapply inv_active.
  - intros id' x [? Hx]%lookup_delete_Some Hrun.
    destruct (inv_running s I _ _ Hx Hrun) as (a & ? & ?). exists a.
    rewrite map_lookup_filter_Some. naive_solver.
  - intros id' n a [Hx Hne]%map_lookup_filter_Some.
    destruct (inv_attempt s I _ _ _ Hx) as (? & x & ? & ?). split; [done|]. exists x.
    by rewrite lookup_delete_ne by naive_solver.
  - intros id' x n [? Hx]%lookup_delete_Some Hn'.
    destruct (inv_history s I _ _ _ Hx Hn') as [a Haa]. exists a.
    rewrite map_lookup_filter_Some. naive_solver.
  - intros k1 k2 a1 a2 [H1 _]%map_lookup_filter_Some [H2 _]%map_lookup_filter_Some.
    by eapply inv_tokens.
  - intros id' x [? Hx]%lookup_delete_Some. by eapply inv_budget.
  - intros id' line [Hne Hs]%drop_checkpoints_is_Some.
    destruct (inv_checkpoints s I _ _ Hs) as (x & ? & ?). exists x.
    by rewrite lookup_delete_ne by done.
Qed.

Lemma qstep_inv s s' : queue_inv s -> qstep s s' -> queue_inv s'.
Proof.
  intros I Hstep. destruct Hstep.
  - by eapply frame_inv.
  - by eapply create_inv.
  - by eapply update_inv.
  - eapply lease_inv; eauto. destruct (j_status r) eqn:Hst; try done.
    + match goal with H : Pending = Pending -> _ |- _ => rewrite (H eq_refl) end.
      by eapply ended_pending.
    + match goal with H : Running = Running -> _ |- _ =>
        destruct (H eq_refl) as (old & oc & msg & now & ? & ? & ? & ? & ->) end.
      by eapply ended_finished.
  - by eapply close_inv.
  - by eapply drop_inv.
  - by eapply checkpoint_inv.
  - by eapply clear_inv.
  - by eapply retire_inv.
Qed.

(** Several transitions. *)
Lemma qsteps_inv s s' : queue_inv s -> rtc qstep s s' -> queue_inv s'.
Proof. intros I H. induction H; eauto using qstep_inv. Qed.

End JobInvariant.
