(* ===== verification/JobRefine.v ===== *)
(** * The store methods refine the queue's transitions

    Every successful run of a method of [JobStore] is a sequence of [qstep]
    transitions, so the queue invariant holds in every state the service
    reaches. *)

From Stdlib Require Import ZArith Lia Ascii String.
From stdpp Require Import base gmap strings list.
From S2P Require Import Prelude GoStrings Json JobSchema JobStore JobInvariant.

Module JobRefine.
Import GoStr Json Jobs JobStore JobInvariant.

(** ** Successful statements *)

Lemma requireOneAffected_Ok (m : stx Z) s u s' :
  requireOneAffected m s = Ok (u, s') <-> m s = Ok (1, s').
Proof.
  unfold requireOneAffected. rewrite tx_bind_Ok. split.
  - intros (n & s1 & Hm & H). destruct (n =? 1) eqn:E; [|done]. split_bools. subst.
    by tx_inv.
  - intros Hm. exists 1, s'. split; [done|]. by destruct u.
Qed.

Lemma requireFenceAffected_Ok (m : stx Z) s u s' :
  requireFenceAffected m s = Ok (u, s') <-> m s = Ok (1, s').
Proof.
  rewrite <-(requireOneAffected_Ok m s u). unfold requireFenceAffected.
  destruct (requireOneAffected m s) as [|e]; [done|]. by destruct e.
Qed.

Lemma update_job_Ok id wh set s s' :
  update_job id wh set s = Ok (1, s') -> exists r,
    jobs s !! id = Some r /\ wh r = true /\ job_checks (set r) = true /\
    active_unique (jobs s) id (set r) = true /\ set r <> r /\
    s' = set_jobs (<[id := set r]> (jobs s)) s.
Proof.
  unfold update_job. destruct (jobs s !! id) as [r|]; [|done].
  destruct (wh r) eqn:Hwh; [|done].
  destruct (job_checks (set r) && _) eqn:Hc; [|done]. split_bools.
  case_bool_decide; [done|]. intros [= <-]. eauto 10.
Qed.

Lemma lease_held_running n rev tok now r :
  lease_held n rev tok now r = true ->
  j_status r = Running /\ j_attempt_count r = n /\ k_input_revision (j_key r) = rev.
Proof. unfold lease_held. intros H. split_bools. done. Qed.

(** A statement of the lease holder that keeps the job running. *)
Lemma lease_update_step id n rev tok now set s s' :
  (forall r, j_key (set r) = j_key r /\ j_status (set r) = j_status r
     /\ j_attempt_count (set r) = j_attempt_count r /\ j_locked_by (set r) = j_locked_by r) ->
  update_job id (lease_held n rev tok now) set s = Ok (1, s') -> qstep s s'.
Proof.
  intros Hset H. apply update_job_Ok in H as (r & Hr & Hl & Hc & Hu & _ & ->).
  destruct (Hset r) as (Hk & Hst & Hcnt & Hlk).
  apply lease_held_running in Hl as (Hrun & _ & _).
  eapply (step_update _ _ id r (set r)); eauto. congruence.
Qed.

Lemma finish_Ok e f oc msg res s u s' :
  finishTranscriptionAttempt e f oc msg res s = Ok (u, s') -> exists a m r,
    attempts s !! (JobID f, AttemptNumber f) = Some a /\ a_outcome a = AttemptRunning /\
    a_lease_token a = LeaseToken f /\ a_input_revision a = InputRevision f /\
    oc <> AttemptRunning /\ (oc <> AttemptCompleted -> r = None) /\
    attempt_checks (AttemptNumber f) (finish_row oc m r (db_now e) a) = true /\
    s' = set_attempts (<[(JobID f, AttemptNumber f) := finish_row oc m r (db_now e) a]>
           (attempts s)) s.
Proof.
  unfold finishTranscriptionAttempt. intros H.
  tx_bind H as [] s1 Hv. apply tx_lift_Ok in Hv as [_ ->].
  case_bool_decide as Hoc; [done|]. case_bool_decide; [done|]. case_bool_decide; [done|].
  tx_bind H as rv s2 Hr. apply requireFenceAffected_Ok in H.
  assert (s2 = s /\ (oc <> AttemptCompleted -> rv = None)) as [-> Hres].
  { destruct res as [r|].
    - destruct (bool_decide (oc <> AttemptCompleted) || (r =? 0) || (MaxInt64 <? r)) eqn:Hb;
        [done|]. tx_inv. split_bools. naive_solver.
    - case_bool_decide; [done|]. by tx_inv. }
  clear Hr. unfold FinishTranscriptionJobAttemptManual in H.
  destruct (attempts s !! _) as [a|] eqn:Ha; [|done].
  destruct ((a_input_revision a =? _) && _ && _) eqn:Hw; [|done]. split_bools.
  destruct (attempt_checks _ _) eqn:Hc; [|done]. case_bool_decide; [done|].
  injection H as <-. by exists a, (nullableString (TrimSpace msg)), rv.
Qed.

Lemma fence_of_row id r f :
  attemptFenceFromRow id r = Ok f ->
  JobID f = id /\ AttemptNumber f = j_attempt_count r /\
  InputRevision f = k_input_revision (j_key r) /\ LeaseToken f = coalesce (j_locked_by r).
Proof.
  unfold attemptFenceFromRow, attemptNumberFromInt.
  destruct ((j_attempt_count r <=? 0) || _); [done|].
  rewrite result_bind_Ok. intros ([] & _ & [= <-]). done.
Qed.

Lemma delete_checkpoints_run id s u s' :
  DeleteTranscriptionCheckpoints id s = Ok (u, s') ->
  s' = set_checkpoints (drop_checkpoints id (checkpoints s)) s.
Proof. intros [= _ <-]. done. Qed.

(** Ending a running job: its attempt is finished, then its row is closed. *)
Lemma close_run e f oc msg res id r wh set s s1 s2 u :
  finishTranscriptionAttempt e f oc msg res s = Ok (u, s1) ->
  JobID f = id -> jobs s !! id = Some r -> AttemptNumber f = j_attempt_count r ->
  update_job id wh set s1 = Ok (1, s2) -> j_status r = Running ->
  j_key (set r) = j_key r -> j_status (set r) <> Running ->
  j_attempt_count (set r) = j_attempt_count r ->
  (j_status (set r) = Pending -> j_attempt_count r < k_max_attempts (j_key r)) ->
  jobs s2 !! id = Some (set r) /\ next_job_id s2 = next_job_id s /\
  checkpoints s2 = checkpoints s /\
  qstep s (if is_terminal (j_status (set r))
           then set_checkpoints (drop_checkpoints id (checkpoints s2)) s2 else s2).
Proof.
  intros Hf Hid Hr Hn Hup Hst Hk Hst' Hcnt Hbud.
  apply finish_Ok in Hf as (a & m & rv & Ha & Hrun & _ & _ & Hoc & _ & Hac & ->).
  rewrite Hid, Hn in *.
  apply update_job_Ok in Hup as (r0 & Hr0 & _ & Hc & _ & _ & ->). cbn in Hr0.
  assert (r0 = r) as -> by (rewrite Hr in Hr0; congruence).
  split_and!; [by cbn; rewrite lookup_insert_eq|done|done|].
  destruct (is_terminal (j_status (set r))) eqn:Ht;
    eapply (step_close _ _ id r (set r)); eauto; by rewrite Ht.
Qed.

(** ** Worker-owned transitions *)

Ltac lease_update :=
  tx_inv;
  match goal with H : requireFenceAffected _ _ = Ok _ |- _ =>
    apply requireFenceAffected_Ok in H; eapply lease_update_step; [|exact H]; done
  end.

Lemma SetTotalSegments_refines e f total s u s' :
  SetTotalSegments e f total s = Ok (u, s') -> qstep s s'.
Proof.
  unfold SetTotalSegments. intros H. lease_update.
Qed.

Lemma UpdateProgress_refines e f c d i j l s u s' :
  UpdateProgress e f c d i j l s = Ok (u, s') -> qstep s s'.
Proof.
  unfold UpdateProgress. intros H. lease_update.
Qed.

Lemma ExtendLease_refines e f d s u s' :
  ExtendLease e f d s = Ok (u, s') -> qstep s s'.
Proof.
  unfold ExtendLease. intros H. lease_update.
Qed.

(** ** Cancellation *)

Lemma get_job_Ok id s r s1 :
  GetTranscriptionJobManual id s = Ok (r, s1) -> jobs s !! id = Some r /\ s1 = s.
Proof. unfold GetTranscriptionJobManual. destruct (jobs s !! id); naive_solver. Qed.

Lemma drop_run id wh set s s1 s2 u :
  update_job id wh set s = Ok (1, s1) -> DeleteTranscriptionCheckpoints id s1 = Ok (u, s2) ->
  (forall r, jobs s !! id = Some r -> j_status r = Pending) ->
  (forall r, j_key (set r) = j_key r /\ is_terminal (j_status (set r)) = true
     /\ j_attempt_count (set r) = j_attempt_count r) ->
  qstep s s2.
Proof.
  intros Hup Hdel Hp Hset.
  apply update_job_Ok in Hup as (r & Hr & _ & Hc & _ & _ & ->).
  apply delete_checkpoints_run in Hdel as ->. destruct (Hset r) as (? & ? & ?).
  eapply (step_drop _ _ id r (set r)); eauto.
Qed.

(** The job and its checkpoints after a running attempt ended for good. *)
Lemma close_terminal_run e f oc msg res id r wh set s s1 s2 s3 u v :
  finishTranscriptionAttempt e f oc msg res s = Ok (u, s1) ->
  attemptFenceFromRow id r = Ok f -> jobs s !! id = Some r -> j_status r = Running ->
  update_job id wh set s1 = Ok (1, s2) ->
  DeleteTranscriptionCheckpoints id s2 = Ok (v, s3) ->
  j_key (set r) = j_key r -> is_terminal (j_status (set r)) = true ->
  j_attempt_count (set r) = j_attempt_count r -> qstep s s3.
Proof.
  intros Hf Hfr Hr Hrun Hup Hdel Hk Ht Hcnt.
  apply fence_of_row in Hfr as (Hid & Hn & _ & _).
  apply delete_checkpoints_run in Hdel as ->.
  assert (Hst : j_status (set r) <> Running) by (intros E; rewrite E in Ht; done).
  assert (Hb : j_status (set r) = Pending -> j_attempt_count r < k_max_attempts (j_key r))
    by (intros E; rewrite E in Ht; done).
  destruct (close_run _ _ _ _ _ _ _ _ _ _ _ _ _ Hf Hid Hr Hn Hup Hrun Hk Hst Hcnt Hb)
    as (_ & _ & _ & H). by rewrite Ht in H.
Qed.

Lemma Cancel_refines e id s u s' : Cancel e id s = Ok (u, s') -> qstep s s'.
Proof.
  unfold Cancel. intros H. tx_bind H as r s1 Hget.
  apply get_job_Ok in Hget as [Hr ->].
  destruct (j_status r) eqn:Hst; try done.
  - tx_bind H as [] s1 Hup. apply requireOneAffected_Ok in Hup.
    eapply drop_run; [exact Hup|exact H|naive_solver|done].
  - tx_bind H as f s1 Hf. apply tx_lift_Ok in Hf as [Hf ->].
    tx_bind H as [] s1 Hfin. tx_bind H as [] s2 Hup. apply requireOneAffected_Ok in Hup.
    eapply close_terminal_run; eauto.
  - tx_inv. by apply step_frame.
Qed.

(** ** Failure, retry and deferral *)

Lemma emit_event_frame ev s u s' : emit_event ev s = Ok (u, s') -> same_tables s s'.
Proof.
  unfold emit_event. intros H. destruct (_ && _); [|by tx_inv].
  tx_bind H as ws s1 Hws. tx_bind H as [] s2 Hins.
  assert (s1 = s) as ->.
  { unfold eventWorkspaceID in Hws. repeat case_match; naive_solver. }
  assert (same_tables s s2) as (Hj & Ha & Hc & Hn).
  { unfold InsertEventOutbox, tx_modify in Hins. injection Hins as <-. by case_match. }
  unfold InsertWorkspaceWebhookDeliveries in H. repeat case_match; try done.
  injection H as _ <-. done.
Qed.

Lemma lock_lease_Ok e f n s u s' :
  lock_lease e f n s = Ok (u, s') -> s' = s /\ exists r, jobs s !! JobID f = Some r /\
    lease_held n (InputRevision f) (nullableString (LeaseToken f)) (db_now e) r = true.
Proof.
  unfold lock_lease, LockActiveTranscriptionJobLeaseManual.
  destruct (jobs s !! JobID f) as [r|]; [|done].
  destruct (lease_held _ _ _ _ r) eqn:Hl; [|done]. intros [= _ <-]. eauto.
Qed.

Lemma attemptNumberToDB_Ok f n : transcriptionAttemptNumberToDB f = Ok n -> n = AttemptNumber f.
Proof.
  unfold transcriptionAttemptNumberToDB. rewrite result_bind_Ok. intros (_ & _ & H).
  unfold int32FromUint32 in H. destruct (MaxInt32 <? _); [done|]. by injection H.
Qed.

Lemma fail_close e f oc msg r (terminal : bool) wh set s s1 s2 s3 u v :
  finishTranscriptionAttempt e f oc msg None s = Ok (u, s1) ->
  jobs s !! JobID f = Some r -> j_status r = Running -> j_attempt_count r = AttemptNumber f ->
  update_job (JobID f) wh set s1 = Ok (1, s2) ->
  (if terminal then DeleteTranscriptionCheckpoints (JobID f) else mret tt) s2 = Ok (v, s3) ->
  j_key (set r) = j_key r -> j_attempt_count (set r) = j_attempt_count r ->
  (if terminal then is_terminal (j_status (set r)) = true
   else j_status (set r) = Pending /\ j_attempt_count r < k_max_attempts (j_key r)) ->
  qstep s s3.
Proof.
  intros Hf Hr Hrun Hn Hup Hck Hk Hcnt Hst.
  assert (Hnr : j_status (set r) <> Running).
  { destruct terminal; [intros E; by rewrite E in Hst|by destruct Hst as [-> _]]. }
  assert (Hb : j_status (set r) = Pending -> j_attempt_count r < k_max_attempts (j_key r)).
  { destruct terminal; [intros E; by rewrite E in Hst|by destruct Hst]. }
  destruct (close_run _ _ _ _ _ _ _ _ _ _ _ _ _ Hf eq_refl Hr (eq_sym Hn) Hup Hrun Hk Hnr Hcnt Hb)
    as (_ & _ & _ & H).
  destruct terminal.
  - apply delete_checkpoints_run in Hck as ->. by rewrite Hst in H.
  - destruct Hst as [E _]. rewrite E in H. by tx_inv.
Qed.

Lemma failWithWebhookEvent_refines e f msg ev permanent retry s b s' :
  failWithWebhookEvent e f msg ev permanent retry s = Ok (b, s') -> rtc qstep s s'.
Proof.
  unfold failWithWebhookEvent. intros H. tx_bind H as n s1 Hn.
  apply tx_lift_Ok in Hn as [Hn ->]. apply attemptNumberToDB_Ok in Hn as ->.
  tx_bind H as [] s1 Hlock. apply lock_lease_Ok in Hlock as (-> & r & Hr & Hl).
  apply lease_held_running in Hl as (Hrun & Hcnt & _).
  tx_bind H as r' s1 Hget. apply get_job_Ok in Hget as [Hr' ->]. simplify_eq.
  set (terminal := permanent || _) in *.
  tx_bind H as [] s1 Hfin. tx_bind H as [] s2 Hup. apply requireFenceAffected_Ok in Hup.
  tx_bind H as [] s3 Hck. tx_bind H as [] s4 Hev. tx_inv.
  assert (Hstep : qstep s s3).
  { destruct retry as [t|]; [destruct (permanent || terminal) eqn:E|destruct permanent eqn:E];
      eapply fail_close; try done; try exact Hup; try exact Hck; subst terminal; cbn -[Z.leb Z.ltb].
    - destruct permanent; simpl in *; [done|]. by rewrite E.
    - destruct permanent; simpl in *; [done|]. rewrite E. split_bools. done.
    - rewrite Z.ltb_antisym. destruct (k_max_attempts (j_key r) <=? j_attempt_count r) eqn:E';
        simpl; [done|]. split_bools. done. }
  eapply rtc_l; [exact Hstep|]. apply rtc_once, step_frame.
  destruct terminal; [by eapply emit_event_frame|by tx_inv].
Qed.

Lemma complete_leased_refines e f rev s u s' :
  queue_inv s -> complete_leased e f rev s = Ok (u, s') -> qstep s s'.
Proof.
  unfold complete_leased. intros I H. tx_bind H as n s1 Hn.
  apply tx_lift_Ok in Hn as [Hn ->]. apply attemptNumberToDB_Ok in Hn as ->.
  tx_bind H as [] s1 Hfin. tx_bind H as [] s2 Hup. apply requireFenceAffected_Ok in Hup.
  pose proof Hfin as Hfin'.
  apply finish_Ok in Hfin' as (a & m & rv & Ha & _ & _ & _ & _ & _ & _ & ->).
  pose proof Hup as Hup'.
  apply update_job_Ok in Hup' as (r & Hr & Hl & _). cbn in Hr.
  apply lease_held_running in Hl as (Hrun & Hcnt & _).
  destruct (close_run _ _ _ _ _ _ r _ _ _ _ _ _ Hfin eq_refl Hr (eq_sym Hcnt) Hup Hrun)
    as (_ & _ & _ & Hs); try done.
  apply delete_checkpoints_run in H as ->. exact Hs.
Qed.

(** ** Checkpoints *)

Lemma SaveCheckpoint_refines e f line payload s u s' :
  SaveCheckpoint e f line payload s = Ok (u, s') -> qstep s s'.
Proof.
  unfold SaveCheckpoint, withCheckpointLease. intros H. tx_bind H as n s1 Hn.
  apply tx_lift_Ok in Hn as [_ ->]. tx_bind H as [] s1 Hl.
  apply lock_lease_Ok in Hl as (-> & r & Hr & Hl). apply lease_held_running in Hl as (Hrun & _).
  unfold SaveTranscriptionCheckpoint in H. tx_inv. by eapply step_checkpoint.
Qed.

Lemma ClearCheckpoints_refines e f s u s' :
  ClearCheckpoints e f s = Ok (u, s') -> qstep s s'.
Proof.
  unfold ClearCheckpoints, withCheckpointLease. intros H. tx_bind H as n s1 Hn.
  apply tx_lift_Ok in Hn as [_ ->]. tx_bind H as [] s1 Hl.
  apply lock_lease_Ok in Hl as (-> & _). apply delete_checkpoints_run in H as ->.
  by eapply step_clear.
Qed.

(** ** Retention of terminal jobs *)

Lemma retain_one_refines ws id s u s' : retain_one ws id s = Ok (u, s') -> qstep s s'.
Proof.
  unfold retain_one, DetachExternalRequestsFromRetainedJobManual,
    DetachUploadBatchFilesFromRetainedJobManual, DeleteTranscriptionCheckpoints,
    DeleteRetainedTranscriptionJobAttemptsManual.
  intros H. tx_inv.
  match goal with H : requireOneAffected _ _ = Ok _ |- _ => apply requireOneAffected_Ok in H end.
  unfold DeleteRetainedTerminalTranscriptionJobManual in *. cbn in *.
  destruct (jobs s !! id) as [r|] eqn:Hr; [|done].
  destruct (_ && _) eqn:Hc; [|done]. split_bools. tx_inv. by eapply step_retire.
Qed.

Lemma retain_batch_refines ws ids s u s' : retain_batch ws ids s = Ok (u, s') -> rtc qstep s s'.
Proof.
  revert s u s'. induction ids as [|id ids IH]; simpl; intros s u s' H; [by tx_inv|].
  tx_bind H as [] s1 H1. apply retain_one_refines in H1. eapply rtc_l; eauto.
Qed.

Lemma retain_loop_refines fuel ws target n s u s' :
  retain_loop fuel ws target n s = Ok (u, s') -> rtc qstep s s'.
Proof.
  revert n s u s'. induction fuel as [|fuel IH]; intros n s u s' H; simpl in H;
    (destruct (n <=? target); [by tx_inv|]); [done|].
  tx_bind H as ids s1 Hl. unfold LockOldestTerminalTranscriptionJobsForWorkspaceManual in Hl.
  tx_pure Hl. case_bool_decide; [done|]. tx_bind H as [] s2 Hb.
  apply retain_batch_refines in Hb. etrans; eauto.
Qed.

Lemma lock_admission_refines img s ws s' :
  lockTranscriptionAdmissionWorkspace img s = Ok (ws, s') -> rtc qstep s s'.
Proof.
  unfold lockTranscriptionAdmissionWorkspace. intros H. tx_bind H as w s1 Hl.
  unfold LockTranscriptionJobWorkspaceByItemImageManual in Hl.
  destruct (image_item s img); [|done]. injection Hl as <- <-.
  destruct (_ =? 0); [done|]. tx_bind H as [] s2 Hr. tx_pure H.
  unfold retainTerminalTranscriptionHistory in Hr. destruct (_ || _); [done|].
  tx_bind Hr as n s3 Hc. unfold CountTerminalTranscriptionJobsForWorkspaceManual in Hc. tx_pure Hc.
  by eapply retain_loop_refines.
Qed.

(** ** Creation *)

Lemma active_job_of_None m img id r :
  active_job_of m img = None -> m !! id = Some r -> active_image r <> Some img.
Proof.
  unfold active_job_of. intros Hnone Hr Himg.
  destruct (filter _ _) as [|x l] eqn:E; [|done].
  assert (Hin : (id, r) ∈ filter (fun kr : Z * job_row => active_image kr.2 = Some img)
                   (map_to_list m)).
  { apply list_elem_of_filter. split; [done|]. by apply elem_of_map_to_list. }
  rewrite E in Hin. by apply not_elem_of_nil in Hin.
Qed.

Lemma active_job_of_Some m img id r :
  active_job_of m img = Some (id, r) -> m !! id = Some r /\ active_image r = Some img.
Proof.
  unfold active_job_of. intros H. apply head_Some_elem_of in H.
  apply list_elem_of_filter in H as [? H]. by apply elem_of_map_to_list in H.
Qed.

Lemma active_unique_fresh m img id r :
  active_job_of m img = None -> active_image r = Some img -> active_unique m id r = true.
Proof.
  intros Hnone Hr. unfold active_unique. rewrite Hr. apply bool_decide_eq_true.
  intros id' r' Hr'. right. by eapply active_job_of_None.
Qed.

Lemma insert_refines img ctx snapshot now s id s' :
  CreateTranscriptionJobManual img ctx snapshot now s = Ok (id, s') -> qstep s s'.
Proof.
  unfold CreateTranscriptionJobManual. intros H.
  match type of H with context [match ?m with Some _ => _ | None => _ end] =>
    destruct m as [[[[ws rev] cid] c]|]; [|by tx_inv; apply step_frame] end.
  destruct (active_job_of (jobs s) img) as [[id' r']|] eqn:Hact; [by tx_inv; apply step_frame|].
  destruct (_ && _) eqn:Hc; [|done]. split_bools. tx_inv.
  eapply step_create; eauto. by eapply active_unique_fresh.
Qed.

Lemma supersede_refines e id r s u s' :
  jobs s !! id = Some r -> is_active (j_status r) = true ->
  supersede_active e id r s = Ok (u, s') -> qstep s s'.
Proof.
  unfold supersede_active. intros Hr Hact H. tx_bind H as [] s1 Hfin.
  tx_bind H as [] s2 Hup. apply requireOneAffected_Ok in Hup.
  case_bool_decide as Hst.
  - tx_bind Hfin as f s3 Hf. apply tx_lift_Ok in Hf as [Hf ->].
    eapply close_terminal_run; eauto.
  - tx_inv. eapply drop_run; [exact Hup|exact H| |done]. intros r0 Hr0.
    assert (r0 = r) as -> by congruence. by destruct (j_status r).
Qed.

Lemma active_image_active r img : active_image r = Some img -> is_active (j_status r) = true.
Proof. unfold active_image. by destruct (is_active (j_status r)). Qed.

Lemma create_attempt_refines e q ws img ctx snapshot er insert s o s' :
  (forall s1 n s2, insert s1 = Ok (n, s2) -> qstep s1 s2) ->
  create_attempt e q ws img ctx snapshot er insert s = Ok (o, s') -> rtc qstep s s'.
Proof.
  intros Hins H. unfold create_attempt in H.
  tx_bind H as active s1 Ha. unfold LockActiveTranscriptionJobForUpdateManual in Ha. tx_pure Ha.
  tx_bind H as rev s1 Hrev. unfold LockCanonicalRevisionForTranscriptionJobManual in Hrev. tx_pure Hrev.
  destruct (image_item s img ≫= _) as [rev|]; [|done]. destruct (rev =? 0); [done|].
  destruct (active_job_of (jobs s) img) as [[id r]|] eqn:Hact.
  - destruct (activeTranscriptionJobMatches _ _ _ _); [by tx_inv|].
    apply active_job_of_Some in Hact as [Hr Himg]. apply active_image_active in Himg.
    tx_bind H as [] s1 Hsup. tx_bind H as id' s2 Hi. destruct (id' <=? 0); [done|].
    tx_bind H as r' s3 Hg. apply get_job_Ok in Hg as [_ ->]. tx_pure H.
    eapply rtc_l; [by eapply supersede_refines|]. by eapply rtc_once, Hins.
  - tx_bind H as [] s1 Hq.
    assert (s1 = s) as ->.
    { unfold enforceTranscriptionJobAdmission, CountActiveTranscriptionJobsByWorkspaceManual in Hq.
      tx_bind Hq as n s2 Hn. tx_pure Hn. destruct (_ <=? _); [done|by tx_pure Hq]. }
    tx_bind H as id' s2 Hi. destruct (id' <=? 0); [done|].
    tx_bind H as r' s3 Hg. apply get_job_Ok in Hg as [_ ->]. tx_pure H. by eapply rtc_once, Hins.
Qed.

Lemma createLocked_refines e q ws img ctx snapshot er insert s id s' :
  (forall s1 n s2, insert s1 = Ok (n, s2) -> qstep s1 s2) ->
  createLocked e q ws img ctx snapshot er insert s = Ok (id, s') -> rtc qstep s s'.
Proof.
  intros Hins. unfold createLocked. generalize 3%nat. intros n. revert s id s'.
  induction n as [|n IH]; intros s id s' H; simpl in H; [done|].
  tx_bind H as o s1 Ha. apply create_attempt_refines in Ha; [|done].
  destruct o as [id'|]; [|etrans; eauto]. destruct (id' =? 0); [done|]. by tx_inv.
Qed.

Lemma Create_refines e q img cid s id s' : Create e q img cid s = Ok (id, s') -> rtc qstep s s'.
Proof.
  unfold Create. intros H. destruct (img =? 0); [done|]. destruct (cid =? 0); [done|].
  tx_bind H as ws s1 Hl. apply lock_admission_refines in Hl.
  tx_bind H as [cid' snap] s2 Hc.
  assert (s2 = s1) as ->.
  { unfold lockContextSnapshotForWorkspace in Hc. repeat case_match; by simplify_eq. }
  apply createLocked_refines in H; [|intros; by eapply insert_refines]. by etrans.
Qed.

End JobRefine.
