(* ===== verification/JobQueue.v ===== *)
(** * Claiming a job

    What [claim] does: the loop terminates, the claimed row was claimable, no
    unexpired lease is taken away, and the claimer holds the lease.

    Modules [JobClaim]: claiming a job;
    [JobQueue]: the transcription queue: the theorems. *)

From Stdlib Require Import ZArith Lia Ascii String.
From stdpp Require Import base gmap strings list sorting.
From S2P Require Import Prelude GoStrings Json JobSchema JobStore JobInvariant JobRefine.

Module JobClaim.
Import GoStr Json Jobs JobStore JobInvariant JobRefine.

(** The textual form of a UUID: printable ASCII, no white space. *)
Definition uuid_ok (e : env) : Prop := all_chars visible (uuid e) = true.

Definition worker_token (e : env) : string := newLeaseOwner "worker" (uuid e).

Lemma worker_token_eq e : worker_token e = ("worker-" ++ uuid e)%string.
Proof. reflexivity. Qed.

Lemma worker_token_visible e : uuid_ok e -> all_chars visible (worker_token e) = true.
Proof. intros H. rewrite worker_token_eq. exact H. Qed.

Lemma worker_token_trim e : uuid_ok e -> TrimSpace (worker_token e) = worker_token e.
Proof. intros H. by apply TrimSpace_visible, worker_token_visible. Qed.

Lemma worker_token_nullable e : uuid_ok e -> nullableString (worker_token e) = Some (worker_token e).
Proof.
  intros H. unfold nullableString. rewrite worker_token_trim by done.
  by rewrite worker_token_eq.
Qed.

(** ** Selection *)

Lemma by_created_elem m id r : (id, r) ∈ by_created m <-> m !! id = Some r.
Proof.
  unfold by_created. rewrite (merge_sort_Permutation created_before). apply elem_of_map_to_list.
Qed.

Lemma first_claimable_spec p locked m id r :
  first_claimable p locked m = Some (id, r) -> m !! id = Some r /\ p r = true /\ id ∉ locked.
Proof.
  unfold first_claimable. intros Hh. apply head_Some_elem_of in Hh.
  apply list_elem_of_filter in Hh as [[? ?] Hh]. by apply by_created_elem in Hh.
Qed.

Lemma select_spec e sel s o s1 :
  select_claimable e sel s = Ok (o, s1) -> s1 = s /\
  forall id r, o = Some (id, r) -> jobs s !! id = Some r /\ claimable (db_now e) r = true
    /\ id ∉ locked_rows e.
Proof.
  unfold select_claimable. intros H.
  destruct sel as [i|cutoff|]; unfold ClaimLeasedTranscriptionJobByIDManual,
    ClaimNextLeasedTranscriptionJobOlderThanManual, ClaimNextLeasedTranscriptionJobManual in H;
    tx_pure H; (split; [done|]); intros id r Ho.
  - destruct (jobs s !! i) as [r0|] eqn:Hr; [|done].
    destruct (claimable (db_now e) r0 && _) eqn:Hc; [|done]. injection Ho as -> ->. by split_bools.
  - apply first_claimable_spec in Ho as (? & Hp & ?). split_bools. done.
  - by apply first_claimable_spec in Ho.
Qed.

Lemma claimable_active now r : claimable now r = true -> is_active (j_status r) = true.
Proof.
  unfold claimable. intros [H|H]%orb_true_iff; split_bools; by match goal with H : j_status _ = _ |- _ => rewrite H end.
Qed.

(** ** Taking the lease *)

Definition leased_row (e : env) (r : job_row) : job_row :=
  {| j_key := j_key r; j_status := Running; j_total_segments := 0;
     j_completed_segments := 0; j_failed_segments := 0;
     j_attempt_count := j_attempt_count r + 1; j_retry_after := None;
     j_lease_until := Some (go_now e + leaseDuration10m); j_locked_by := Some (worker_token e);
     j_current_annotation_id := None; j_current_annotation_json := None;
     j_last_result_annotation_json := None; j_error_message := None; j_updated_at := db_now e |}.

Definition new_attempt (e : env) (r : job_row) : attempt_row :=
  {| a_context_snapshot := k_context_snapshot (j_key r);
     a_input_revision := k_input_revision (j_key r); a_lease_owner := transcriptionLeaseOwner e;
     a_lease_token := worker_token e; a_outcome := AttemptRunning;
     a_safe_error_message := None; a_result_revision := None;
     a_started_at := db_now e; a_finished_at := None |}.

Record leased (e : env) (id : Z) (r : job_row) (s : db) (j : TranscriptionJob) (s' : db) : Prop := {
  leased_checks : job_checks (leased_row e r) = true;
  leased_budget : j_attempt_count r < k_max_attempts (j_key r);
  leased_attempt : attempt_checks (j_attempt_count r + 1) (new_attempt e r) = true;
  leased_fresh : token_free (attempts s) (worker_token e) = true;
  leased_jobs : jobs s' = <[id := leased_row e r]> (jobs s);
  leased_attempts : attempts s' = <[(id, j_attempt_count r + 1) := new_attempt e r]> (attempts s);
  leased_checkpoints : checkpoints s' = checkpoints s;
  leased_next : next_job_id s' = next_job_id s;
  leased_job : exists l, j = with_attempts l (rowToTranscriptionJob id (leased_row e r));
}.

Lemma take_lease_run e id r s j s' :
  uuid_ok e -> jobs s !! id = Some r -> take_lease e id r s = Ok (j, s') -> leased e id r s j s'.
Proof.
  intros Hu Hr H. unfold take_lease in H. fold (worker_token e) in H.
  rewrite worker_token_nullable in H by done.
  tx_bind H as [] s1 Hm. apply requireOneAffected_Ok in Hm.
  apply update_job_Ok in Hm as (r0 & Hr0 & Hw & Hc & _ & _ & ->).
  assert (r0 = r) as -> by congruence. fold (leased_row e r) in *.
  tx_bind H as [] s2 Hi. apply requireOneAffected_Ok in Hi.
  unfold InsertTranscriptionJobAttemptManual in Hi. cbn in Hi. rewrite lookup_insert_eq in Hi.
  destruct (_ && _ && _ && _); [|done]. fold (new_attempt e r) in Hi.
  destruct (_ && _ && _) eqn:Hck; [|done]. injection Hi as <-. split_bools.
  tx_bind H as r2 s3 Hg. apply get_job_Ok in Hg as [Hg ->]. cbn in Hg.
  rewrite lookup_insert_eq in Hg. injection Hg as <-.
  unfold jobWithAttempts, ListTranscriptionJobAttemptsManual in H. tx_bind H as l s3 Hl.
  tx_pure Hl. tx_pure H. constructor; try done. eauto.
Qed.

(** ** Expired claims *)

Inductive recovered (e : env) (id : Z) (r : job_row) (s : db) : bool -> db -> Prop :=
| recovered_pending : j_status r <> Running -> recovered e id r s false s
| recovered_again old msg s' :
    j_status r = Running -> j_attempt_count r < k_max_attempts (j_key r) ->
    attempts s !! (id, j_attempt_count r) = Some old -> a_outcome old = AttemptRunning ->
    attempt_checks (j_attempt_count r) (finish_row AttemptLeaseExpired msg None (db_now e) old) = true ->
    s' = set_attempts (<[(id, j_attempt_count r) :=
           finish_row AttemptLeaseExpired msg None (db_now e) old]> (attempts s)) s ->
    recovered e id r s false s'
| recovered_exhausted r' s' :
    j_status r = Running -> j_status r' = Failed -> jobs s' = <[id := r']> (jobs s) ->
    qstep s s' -> recovered e id r s true s'.

Lemma recover_run e id r s b s' :
  jobs s !! id = Some r -> recover_expired e id r s = Ok (b, s') -> recovered e id r s b s'.
Proof.
  intros Hr H. unfold recover_expired in H. case_bool_decide as Hst.
  - tx_bind H as f s1 Hf. apply tx_lift_Ok in Hf as [Hf ->]. tx_bind H as [] s1 Hfin.
    destruct (k_max_attempts (j_key r) <=? j_attempt_count r) eqn:Hmax.
    + tx_bind H as [] s2 Hup. apply requireOneAffected_Ok in Hup. tx_bind H as [] s3 Hdel.
      tx_pure H.
      assert (Hstep : qstep s s3) by (eapply close_terminal_run; eauto).
      apply finish_Ok in Hfin as (a & m & rv & _ & _ & _ & _ & _ & _ & _ & ->).
      apply update_job_Ok in Hup as (r0 & Hr0 & _ & _ & _ & _ & ->).
      cbn in Hr0. assert (r0 = r) as -> by congruence.
      apply delete_checkpoints_run in Hdel as ->.
      eapply recovered_exhausted; [done| |reflexivity|exact Hstep]. done.
    + tx_pure H. split_bools.
      apply finish_Ok in Hfin as (a & m & rv & Ha & Hrun & _ & _ & _ & Hrv & Hac & ->).
      apply fence_of_row in Hf as (Hid & Hn & _ & _). rewrite Hid, Hn in *.
      rewrite Hrv in * by done. by eapply recovered_again.
  - tx_pure H. by apply recovered_pending.
Qed.

(** ** The loop *)

(** The outcome of [claim] from state [s]: some exhausted claims are failed
    ([s1]), then either nothing is claimable or a job is leased. *)
Inductive claimed (e : env) (s : db) : option TranscriptionJob -> db -> Prop :=
| claimed_none s1 : rtc qstep s s1 -> claimed e s None s1
| claimed_some id r s1 s2 j s' :
    rtc qstep s s1 -> jobs s !! id = Some r -> jobs s1 !! id = Some r ->
    claimable (db_now e) r = true -> id ∉ locked_rows e ->
    recovered e id r s1 false s2 -> leased e id r s2 j s' -> claimed e s (Some j) s'.

Definition claimable_from (now : Z) (s0 s : db) : Prop :=
  forall id r, jobs s !! id = Some r -> claimable now r = true -> jobs s0 !! id = Some r.

Lemma failed_not_claimable now r : j_status r = Failed -> claimable now r = false.
Proof. intros H. unfold claimable. by rewrite H. Qed.

Lemma recovered_jobs e id r s s' : recovered e id r s false s' -> jobs s' = jobs s.
Proof. inversion 1; subst; done. Qed.

Lemma claim_loop_spec fuel e sel s0 s o s' :
  uuid_ok e -> rtc qstep s0 s -> claimable_from (db_now e) s0 s ->
  claim_loop fuel e sel s = Ok (o, s') -> claimed e s0 o s'.
Proof.
  intros Hu. revert s o s'. induction fuel as [|fuel IH]; intros s o s' Hsteps Hsub H; [done|].
  cbn [claim_loop] in H. tx_bind H as row s1 Hsel. apply select_spec in Hsel as [-> Hsel].
  destruct row as [[id r]|]; [|tx_pure H; by apply claimed_none].
  destruct (Hsel id r eq_refl) as (Hr & Hc & Hfree). clear Hsel.
  tx_bind H as ex s1 Hrec. apply recover_run in Hrec; [|done].
  destruct ex.
  - inversion Hrec as [| |r' s1' Hrun Hf Hj Hstep]; subst.
    assert (Hsteps' : rtc qstep s0 s1) by (eapply rtc_r; eauto).
    assert (Hsub' : claimable_from (db_now e) s0 s1).
    { intros id' x Hx Hcl. rewrite Hj in Hx. lookups.
      - by rewrite failed_not_claimable in Hcl.
      - by eapply Hsub. }
    destruct sel; [tx_pure H; by apply claimed_none|by eapply IH|by eapply IH].
  - tx_bind H as j s2 Hl. tx_pure H.
    eapply claimed_some; eauto. eapply take_lease_run; eauto.
    by rewrite (recovered_jobs _ _ _ _ _ Hrec).
Qed.

Lemma claim_spec e sel s o s' : uuid_ok e -> claim e sel s = Ok (o, s') -> claimed e s o s'.
Proof. intros Hu H. eapply claim_loop_spec; eauto; [done|by intros ??]. Qed.

Lemma claimed_refines e s o s' : uuid_ok e -> claimed e s o s' -> rtc qstep s s'.
Proof.
  intros Hu [s1 H|id r s1 s2 j s'' Hsteps _ Hr Hc _ Hrec []]; [done|].
  eapply rtc_r; [exact Hsteps|].
  pose proof (recovered_jobs _ _ _ _ _ Hrec) as Hj.
  eapply (step_lease _ _ id r (leased_row e r) (new_attempt e r) (attempts s2)); try done.
  - by eapply claimable_active.
  - change (TrimSpace (worker_token e) <> ""%string). rewrite worker_token_trim by done. by rewrite worker_token_eq.
  - intros Hp. inversion Hrec; subst; [done|congruence].
  - intros Hrun. inversion Hrec as [|old msg s2'|]; subst; [done|].
    exists old, AttemptLeaseExpired, msg, (db_now e). by split_and!.
  - by rewrite leased_jobs0, Hj.
  - rewrite leased_checkpoints0. by inversion Hrec; subst.
  - rewrite leased_next0. by inversion Hrec; subst.
Qed.

End JobClaim.

(** * The transcription queue: the theorems

    Operations as data ([op]), sequences of them run against the database
    ([run_ops]), and what holds of every such run. *)

Module JobQueue.
Import GoStr Json Jobs JobStore JobInvariant JobRefine JobClaim.

(** ** Operations *)

Inductive op :=
| OpCreate (maxActive img ctx : Z)
| OpClaim (sel : selector)
| OpCancel (id : Z)
| OpSetTotal (f : fence) (total : Z)
| OpProgress (f : fence) (completed failed : Z) (cur_id cur_json last : string)
| OpExtend (f : fence) (duration : Z)
| OpFail (f : fence) (msg : string) (ev : event) (permanent : bool) (retry : option Z)
| OpComplete (f : fence) (rev : Z)
| OpSave (f : fence) (line payload : string)
| OpClear (f : fence).

(** The result a caller sees, without its value. *)
Definition run_op (e : env) (o : op) (s : db) : result err unit * db :=
  let seal {A} (m : stx A) := run_tx (_ ← m; mret tt) s in
  match o with
  | OpCreate q img ctx => seal (Create e q img ctx)
  | OpClaim sel => seal (claim e sel)
  | OpCancel id => seal (Cancel e id)
  | OpSetTotal f n => seal (SetTotalSegments e f n)
  | OpProgress f c d i j l => seal (UpdateProgress e f c d i j l)
  | OpExtend f d => seal (ExtendLease e f d)
  | OpFail f msg ev p r => seal (failWithWebhookEvent e f msg ev p r)
  | OpComplete f rev => seal (complete_leased e f rev)
  | OpSave f line payload => seal (SaveCheckpoint e f line payload)
  | OpClear f => seal (ClearCheckpoints e f)
  end.

Fixpoint run_ops (l : list (env * op)) (s : db) : db :=
  match l with
  | [] => s
  | (e, o) :: l' => run_ops l' (run_op e o s).2
  end.

(** The fence a worker operation carries. *)
Definition op_fence (o : op) : option fence :=
  match o with
  | OpSetTotal f _ | OpProgress f _ _ _ _ _ | OpExtend f _ | OpFail f _ _ _ _
  | OpComplete f _ | OpSave f _ _ | OpClear f => Some f
  | OpCreate _ _ _ | OpClaim _ | OpCancel _ => None
  end.

(** ** Every operation is a sequence of transitions *)

Lemma seal_Ok {A} (m : stx A) s u s' :
  (_ ← m; mret tt) s = Ok (u, s') <-> exists a, m s = Ok (a, s').
Proof.
  rewrite tx_bind_Ok. split.
  - intros (a & s1 & Hm & H). cbv in H. injection H as _ ->. eauto.
  - intros [a Hm]. exists a, s'. by destruct u.
Qed.

Lemma run_op_refines e o s :
  uuid_ok e -> queue_inv s -> rtc qstep s (run_op e o s).2.
Proof.
  intros Hu I. destruct o; cbn [run_op];
    (eapply (run_tx_preserves (fun s' => rtc qstep s s')); [done|]);
    intros v s' [a H]%seal_Ok.
  - by eapply Create_refines.
  - eapply claimed_refines; [done|by eapply claim_spec].
  - by eapply rtc_once, Cancel_refines.
  - by eapply rtc_once, SetTotalSegments_refines.
  - by eapply rtc_once, UpdateProgress_refines.
  - by eapply rtc_once, ExtendLease_refines.
  - by eapply failWithWebhookEvent_refines.
  - by eapply rtc_once, complete_leased_refines.
  - by eapply rtc_once, SaveCheckpoint_refines.
  - by eapply rtc_once, ClearCheckpoints_refines.
Qed.

Lemma run_ops_refines l s :
  Forall (fun eo => uuid_ok eo.1) l -> queue_inv s -> rtc qstep s (run_ops l s).
Proof.
  intros Hl. revert s. induction Hl as [|[e o] l Hu _ IH]; intros s I; cbn [run_ops]; [done|].
  pose proof (run_op_refines e o s Hu I) as Hstep.
  etrans; [exact Hstep|]. apply IH. by eapply qsteps_inv.
Qed.

(** No job, attempt or checkpoint yet. *)
Definition empty_queue (s : db) : Prop :=
  jobs s = ∅ /\ attempts s = ∅ /\ checkpoints s = ∅ /\ 0 < next_job_id s.

Lemma empty_queue_inv s : empty_queue s -> queue_inv s.
Proof.
  intros (Hj & Ha & Hc & Hn). constructor; rewrite ?Hj, ?Ha, ?Hc; try done.
  intros id line. rewrite lookup_empty. by intros [? ?].
Qed.

(** ** Terminal jobs *)

(** A step from a state where [id] is allocated neither revives nor edits a
    terminal job, nor reuses its id. *)
Definition settled (s : db) (id : Z) (r : job_row) : Prop :=
  id < next_job_id s /\ (jobs s !! id = None \/ jobs s !! id = Some r).

Lemma settled_step s s' id r :
  is_terminal (j_status r) = true -> settled s id r -> qstep s s' -> settled s' id r.
Proof.
  intros Ht [Hlt Hs] Hstep. apply is_terminal_iff in Ht.
  assert (Hrun : forall r0, r0 = r -> j_status r0 = Running -> False)
    by (intros r0 -> E; by rewrite E in Ht).
  unfold settled. destruct Hstep as [(Hj & _ & _ & Hn)| | | | | | | |];
    repeat match goal with
    | H : jobs s' = _ |- _ => rewrite H; clear H
    | H : next_job_id s' = _ |- _ => rewrite H; clear H
    end; (split; [lia|]); try done.
  - rewrite lookup_insert_ne by lia. done.
  - rewrite lookup_insert. case_decide; [|done]. subst. destruct Hs; naive_solver.
  - rewrite lookup_insert. case_decide; [|done]. subst. destruct Hs; [naive_solver|].
    simplify_eq. congruence.
  - rewrite lookup_insert. case_decide; [|done]. subst. destruct Hs; naive_solver.
  - rewrite lookup_insert. case_decide; [|done]. subst. destruct Hs; [naive_solver|].
    simplify_eq. by match goal with H : j_status _ = Pending |- _ => rewrite H in Ht end.
  - rewrite lookup_delete. case_decide; [by left|done].
Qed.

Lemma settled_steps s s' id r :
  is_terminal (j_status r) = true -> settled s id r -> rtc qstep s s' -> settled s' id r.
Proof. intros Ht Hs H. induction H; eauto using settled_step. Qed.

(** ** Fencing *)

(** The fence names the current attempt of a running job whose lease has not
    expired. *)
Definition holds_lease (s : db) (f : fence) (now : Z) : bool :=
  match jobs s !! JobID f with
  | Some r => lease_held (AttemptNumber f) (InputRevision f) (nullableString (LeaseToken f)) now r
  | None => false
  end.

Lemma update_job_lease_Ok id n rev tok now set s s' f :
  JobID f = id -> AttemptNumber f = n -> InputRevision f = rev ->
  nullableString (LeaseToken f) = tok ->
  update_job id (lease_held n rev tok now) set s = Ok (1, s') -> holds_lease s f now = true.
Proof.
  intros <- <- <- <- H. apply update_job_Ok in H as (r & Hr & Hl & _).
  unfold holds_lease. by rewrite Hr.
Qed.

Lemma holds_lease_attempts s f now m : holds_lease (set_attempts m s) f now = holds_lease s f now.
Proof. done. Qed.

Lemma lock_lease_holds e f s u s' :
  lock_lease e f (AttemptNumber f) s = Ok (u, s') -> holds_lease s f (db_now e) = true.
Proof.
  intros H. apply lock_lease_Ok in H as (_ & r & Hr & Hl). unfold holds_lease. by rewrite Hr.
Qed.

Ltac lift_step H :=
  let n := fresh "n" in let s1 := fresh "s1" in let Hn := fresh "Hn" in
  tx_bind H as n s1 Hn; apply tx_lift_Ok in Hn as [Hn ->].

Lemma worker_op_holds e o f s u s' :
  op_fence o = Some f -> run_op e o s = (Ok u, s') -> holds_lease s f (db_now e) = true.
Proof.
  intros Hf H. destruct o; simplify_eq; cbn [run_op] in H;
    apply run_tx_Ok in H; apply seal_Ok in H as [a H];
    cbn in Hf; injection Hf as ->;
    unfold SetTotalSegments, UpdateProgress, ExtendLease, failWithWebhookEvent, complete_leased,
      SaveCheckpoint, ClearCheckpoints, withCheckpointLease in H;
    lift_step H; apply attemptNumberToDB_Ok in Hn as ->.
  - lift_step H. apply requireFenceAffected_Ok in H. by eapply update_job_lease_Ok.
  - do 2 lift_step H. apply requireFenceAffected_Ok in H. by eapply update_job_lease_Ok.
  - apply requireFenceAffected_Ok in H. by eapply update_job_lease_Ok.
  - tx_bind H as [] s1 Hl. by eapply lock_lease_holds.
  - tx_bind H as [] s1 Hfin. apply finish_Ok in Hfin as (? & ? & ? & _ & _ & _ & _ & _ & _ & _ & ->).
    tx_bind H as [] s2 Hup. apply requireFenceAffected_Ok in Hup.
    eapply update_job_lease_Ok in Hup; [|done..]. exact Hup.
  - tx_bind H as [] s1 Hl. by eapply lock_lease_holds.
  - tx_bind H as [] s1 Hl. by eapply lock_lease_holds.
Qed.

(** ** Termination of the claim loop *)

Definition fuelled {A} (m : stx A) : Prop := forall s, m s <> Err EOutOfFuel.

Lemma fuelled_bind {A B} (m : stx A) (k : A -> stx B) :
  fuelled m -> (forall a, fuelled (k a)) -> fuelled (m ≫= k).
Proof.
  intros Hm Hk s. unfold mbind, tx_bind. specialize (Hm s). destruct (m s) as [[a s1]|er].
  - apply Hk.
  - congruence.
Qed.

Lemma fuelled_reads {A} (f : db -> A) : fuelled (tx_reads f).
Proof. by intros s. Qed.
Lemma fuelled_modify f : fuelled (tx_modify f).
Proof. by intros s. Qed.
Lemma fuelled_ret {A} (a : A) : fuelled (mret a).
Proof. by intros s. Qed.
Lemma fuelled_fail {A} er : er <> EOutOfFuel -> fuelled (@tx_fail db err A er).
Proof. intros H s. unfold tx_fail. congruence. Qed.
Lemma fuelled_lift {A} (r : result err A) : r <> Err EOutOfFuel -> fuelled (tx_lift r).
Proof. intros H s. unfold tx_lift. destruct r; [done|congruence]. Qed.
Lemma fuelled_update id wh set : fuelled (update_job id wh set).
Proof. intros s. unfold update_job. by repeat case_match. Qed.
Lemma fuelled_get id : fuelled (GetTranscriptionJobManual id).
Proof. intros s. unfold GetTranscriptionJobManual. by case_match. Qed.
Lemma fuelled_one m : fuelled m -> fuelled (requireOneAffected m).
Proof.
  intros H. apply fuelled_bind; [done|]. intros n.
  destruct (n =? 1); [apply fuelled_ret|by apply fuelled_fail].
Qed.
Lemma fuelled_fence m : fuelled m -> fuelled (requireFenceAffected m).
Proof.
  intros H s. unfold requireFenceAffected. pose proof (fuelled_one m H s) as H1.
  destruct (requireOneAffected m s) as [|er]; [done|]. by destruct er.
Qed.
Lemma fence_of_row_fuel id r : attemptFenceFromRow id r <> Err EOutOfFuel.
Proof.
  unfold attemptFenceFromRow, attemptNumberFromInt, validateTranscriptionFence, guard_ok.
  destruct (_ || _); [done|]. simpl. by destruct (negb _).
Qed.

Create HintDb fuel.
#[local] Hint Resolve fuelled_bind fuelled_reads fuelled_modify fuelled_ret fuelled_fail
  fuelled_lift fuelled_update fuelled_get fuelled_one fuelled_fence fence_of_row_fuel : fuel.

Lemma finish_fuel e f oc msg res : fuelled (finishTranscriptionAttempt e f oc msg res).
Proof.
  unfold finishTranscriptionAttempt. apply fuelled_bind.
  { apply fuelled_lift. unfold validateTranscriptionFence, guard_ok. by case_match. }
  intros []. repeat case_match; try (by intros s'); try (apply fuelled_fail; done).
  all: apply fuelled_bind; [try (apply fuelled_fail; done); auto with fuel|].
  all: intros rv; apply fuelled_fence; intros s'; unfold FinishTranscriptionJobAttemptManual;
    by repeat case_match.
Qed.
#[local] Hint Resolve finish_fuel : fuel.

Lemma select_fuel e sel : fuelled (select_claimable e sel).
Proof. by destruct sel. Qed.

Lemma recover_fuel e id r : fuelled (recover_expired e id r).
Proof.
  unfold recover_expired. case_bool_decide; [|auto with fuel].
  apply fuelled_bind; [auto with fuel|]. intros f. apply fuelled_bind; [auto with fuel|].
  intros []. case_match; [|auto with fuel].
  apply fuelled_bind; [apply fuelled_one, fuelled_update|]. intros [].
  apply fuelled_bind; [apply fuelled_modify|]. auto with fuel.
Qed.

Lemma take_lease_fuel e id r : fuelled (take_lease e id r).
Proof.
  unfold take_lease. apply fuelled_bind; [apply fuelled_one, fuelled_update|]. intros [].
  apply fuelled_bind.
  { apply fuelled_one. intros s. unfold InsertTranscriptionJobAttemptManual.
    by repeat case_match. }
  intros []. apply fuelled_bind; [apply fuelled_get|]. intros r'.
  apply fuelled_bind; [apply fuelled_reads|]. auto with fuel.
Qed.

(** The running jobs of a table: each turn of the loop fails one. *)
Definition running_jobs (m : gmap Z job_row) : nat :=
  size (filter (fun kr : Z * job_row => j_status kr.2 = Running) m).

Lemma running_jobs_fail m id r r' :
  m !! id = Some r -> j_status r = Running -> j_status r' = Failed ->
  running_jobs m = S (running_jobs (<[id := r']> m)).
Proof.
  intros Hr Hst Hst'. unfold running_jobs.
  rewrite map_filter_insert_False by (simpl; congruence).
  rewrite map_filter_delete.
  assert (Hin : filter (fun kr : Z * job_row => j_status kr.2 = Running) m !! id = Some r).
  { by apply map_lookup_filter_Some. }
  assert (size (filter (fun kr : Z * job_row => j_status kr.2 = Running) m) <> 0%nat).
  { intros E. apply map_size_empty_inv in E. rewrite E in Hin. by rewrite lookup_empty in Hin. }
  rewrite map_size_delete, Hin. simpl. lia.
Qed.

Lemma claim_loop_fuel fuel e sel s :
  (running_jobs (jobs s) < fuel)%nat -> claim_loop fuel e sel s <> Err EOutOfFuel.
Proof.
  revert s. induction fuel as [|fuel IH]; intros s Hlt; [lia|]. cbn [claim_loop].
  unfold mbind, tx_bind.
  destruct (select_claimable e sel s) as [[row s1]|er] eqn:Hsel;
    [|intros [= ->]; by eapply select_fuel].
  apply select_spec in Hsel as [-> Hsel]. destruct row as [[id r]|]; [|done].
  destruct (Hsel id r eq_refl) as (Hr & _ & _).
  destruct (recover_expired e id r s) as [[ex s1]|er] eqn:Hrec;
    [|intros [= ->]; by eapply recover_fuel].
  apply recover_run in Hrec; [|done]. destruct ex.
  - inversion Hrec as [| |r' s1' Hrun Hf Hj _]; subst.
    assert (running_jobs (jobs s1) < fuel)%nat.
    { rewrite Hj. rewrite (running_jobs_fail _ _ _ r' Hr Hrun Hf) in Hlt. lia. }
    destruct sel; [done|by apply IH|by apply IH].
  - destruct (take_lease e id r s1) as [[j s2]|er] eqn:Hl; [done|].
    intros [= ->]. by eapply take_lease_fuel.
Qed.

End JobQueue.
