(* ===== verification/JobAdmission.v ===== *)
(** * Admission: what creating a job leaves behind

    Frame, retention and quota lemmas for [JobStore.Create].

    Modules [JobAdmission]: admission: what creating a job leaves behind;
    [JobProgress]: progress: an active job can always be claimed, in time. *)

From Stdlib Require Import ZArith Lia Ascii String.
From stdpp Require Import base gmap strings list sorting.
From S2P Require Import Prelude GoStrings Json JobSchema JobStore JobInvariant JobRefine JobQueue.

Module JobAdmission.
Import GoStr Json Jobs JobStore JobInvariant JobRefine JobClaim.

(** ** Statements that keep an observation of the state *)

Section keeps.
Context {B : Type} (g : db -> B).

Definition keeps {A} (m : stx A) : Prop := forall s a s', m s = Ok (a, s') -> g s' = g s.

Lemma keeps_bind {A C} (m : stx A) (k : A -> stx C) :
  keeps m -> (forall a, keeps (k a)) -> keeps (m ≫= k).
Proof.
  intros Hm Hk s a s' H. tx_bind H as x s1 H1. apply Hm in H1. apply Hk in H. congruence.
Qed.
Lemma keeps_ret {A} (a : A) : keeps (mret a).
Proof. intros s x s' H. by tx_pure H. Qed.
Lemma keeps_fail {A} er : keeps (@tx_fail db err A er).
Proof. done. Qed.
Lemma keeps_reads {A} (f : db -> A) : keeps (tx_reads f).
Proof. intros s x s' H. by tx_pure H. Qed.
Lemma keeps_modify f : (forall s, g (f s) = g s) -> keeps (tx_modify f).
Proof. intros Hf s x s' H. tx_pure H. apply Hf. Qed.
Lemma keeps_lift {A} (r : result err A) : keeps (tx_lift r).
Proof. intros s x s' [_ ->]%tx_lift_Ok. done. Qed.
Lemma keeps_get id : keeps (GetTranscriptionJobManual id).
Proof. intros s x s' [_ ->]%get_job_Ok. done. Qed.
Lemma keeps_one m : keeps m -> keeps (requireOneAffected m).
Proof. intros Hm s u s' H%requireOneAffected_Ok. by eapply Hm. Qed.
Lemma keeps_fence m : keeps m -> keeps (requireFenceAffected m).
Proof. intros Hm s u s' H%requireFenceAffected_Ok. by eapply Hm. Qed.
End keeps.

Create HintDb frame.
#[export] Hint Resolve keeps_bind keeps_ret keeps_fail keeps_reads keeps_lift keeps_get keeps_one
  keeps_fence : frame.

(** ** The parent tables are only read *)

Lemma par_update id wh set : keeps par (update_job id wh set).
Proof. intros s n s'. unfold update_job. repeat case_match; intros [= _ <-]; done. Qed.
Lemma par_modify f : (forall s, par (f s) = par s) -> keeps par (tx_modify f).
Proof. apply keeps_modify. Qed.
#[export] Hint Resolve par_update : frame.

Lemma par_finish e f oc msg res : keeps par (finishTranscriptionAttempt e f oc msg res).
Proof. intros s u s' H. by apply finish_Ok in H as (?&?&?&_&_&_&_&_&_&_&->). Qed.
#[export] Hint Resolve par_finish : frame.

Lemma par_supersede e id r : keeps par (supersede_active e id r).
Proof.
  unfold supersede_active. apply keeps_bind; [destruct (bool_decide _); auto with frame|].
  intros []. apply keeps_bind; [apply keeps_one, par_update|]. intros []. by apply keeps_modify.
Qed.

Lemma par_insert img ctx snap now : keeps par (CreateTranscriptionJobManual img ctx snap now).
Proof.
  intros s n s' H. unfold CreateTranscriptionJobManual in H.
  match type of H with context [match ?m with Some _ => _ | None => _ end] =>
    destruct m as [[[[ws rev] cid] c]|]; [|by simplify_eq] end.
  destruct (active_job_of (jobs s) img) as [[]|]; [by simplify_eq|].
  destruct (_ && _); by simplify_eq.
Qed.
#[export] Hint Resolve par_supersede par_insert : frame.

(** ** Retention *)

(** What every deletion of one job does, the whole retention does. *)
Section retention_relation.
Context (R : db -> db -> Prop) `{!PreOrder R}.
Hypothesis retain_one_R : forall ws id s u s', retain_one ws id s = Ok (u, s') -> R s s'.

Lemma retain_batch_R ws ids s u s' : retain_batch ws ids s = Ok (u, s') -> R s s'.
Proof.
  revert s. induction ids as [|id ids IH]; cbn [retain_batch]; intros s H; [by tx_pure H|].
  tx_bind H as [] s1 H1. apply retain_one_R in H1. apply IH in H. by etrans.
Qed.

Lemma retain_loop_R fuel ws target n s u s' : retain_loop fuel ws target n s = Ok (u, s') -> R s s'.
Proof.
  revert n s. induction fuel as [|fuel IH]; intros n s H; cbn [retain_loop] in H;
    (destruct (n <=? target); [by tx_pure H|]); [done|].
  tx_bind H as ids s1 Hl. unfold LockOldestTerminalTranscriptionJobsForWorkspaceManual in Hl.
  tx_pure Hl. case_bool_decide; [done|]. tx_bind H as [] s2 Hb.
  apply retain_batch_R in Hb. apply IH in H. by etrans.
Qed.

Lemma admission_R img s ws s' :
  lockTranscriptionAdmissionWorkspace img s = Ok (ws, s') ->
  R s s' /\ exists it, image_item s img = Some it /\ it_workspace_id it = ws.
Proof.
  unfold lockTranscriptionAdmissionWorkspace, LockTranscriptionJobWorkspaceByItemImageManual.
  intros H. tx_bind H as w s1 Hl. destruct (image_item s img) as [it|]; [|done].
  injection Hl as <- <-. destruct (_ =? 0); [done|]. tx_bind H as [] s2 Hr. tx_pure H.
  split; [|eauto]. unfold retainTerminalTranscriptionHistory in Hr.
  destruct (_ || _); [done|]. tx_bind Hr as n s3 Hn.
  unfold CountTerminalTranscriptionJobsForWorkspaceManual in Hn. tx_pure Hn.
  by eapply retain_loop_R.
Qed.
End retention_relation.

(** One deletion keeps the parents and every other job. *)
Definition retains (s s' : db) : Prop := par s' = par s /\ jobs s' ⊆ jobs s.
#[export] Instance retains_preorder : PreOrder retains.
Proof. split; [by intros s|]. intros s1 s2 s3 [? ?] [? ?]. split; [congruence|by etrans]. Qed.

Lemma retain_one_spec ws id s u s' :
  retain_one ws id s = Ok (u, s') -> exists r, jobs s !! id = Some r /\
    k_workspace_id (j_key r) = ws /\ is_terminal (j_status r) = true /\
    jobs s' = delete id (jobs s) /\ par s' = par s.
Proof.
  unfold retain_one, DetachExternalRequestsFromRetainedJobManual,
    DetachUploadBatchFilesFromRetainedJobManual, DeleteTranscriptionCheckpoints,
    DeleteRetainedTranscriptionJobAttemptsManual. intros H. tx_inv.
  match goal with H : requireOneAffected _ _ = Ok _ |- _ => apply requireOneAffected_Ok in H;
    unfold DeleteRetainedTerminalTranscriptionJobManual in H; cbn in H;
    destruct (jobs s !! id) as [r|] eqn:Hr; [|done]; destruct (_ && _) eqn:Hc; [|done];
    injection H as <- end.
  split_bools. by exists r.
Qed.

Lemma retain_one_retains ws id s u s' : retain_one ws id s = Ok (u, s') -> retains s s'.
Proof.
  intros (r & _ & _ & _ & Hj & Hp)%retain_one_spec. split; [done|]. rewrite Hj.
  apply delete_subseteq.
Qed.


Definition terminal_count (ws : Z) (s : db) : Z := Z.of_nat (length (terminal_of ws (jobs s))).

Lemma terminal_of_delete ws m id r :
  m !! id = Some r -> k_workspace_id (j_key r) = ws -> is_terminal (j_status r) = true ->
  S (length (terminal_of ws (delete id m))) = length (terminal_of ws m).
Proof.
  intros Hr Hw Ht. unfold terminal_of.
  rewrite <-(map_to_list_delete m id r Hr) at 1. rewrite filter_cons_True by done. done.
Qed.

Lemma retain_one_count ws id s u s' :
  retain_one ws id s = Ok (u, s') -> terminal_count ws s' = terminal_count ws s - 1.
Proof.
  intros (r & Hr & Hw & Ht & Hj & _)%retain_one_spec. unfold terminal_count. rewrite Hj.
  rewrite <-(terminal_of_delete ws (jobs s) id r) by done. lia.
Qed.

Lemma retain_batch_count ws ids s u s' :
  retain_batch ws ids s = Ok (u, s') ->
  terminal_count ws s' = terminal_count ws s - Z.of_nat (length ids).
Proof.
  revert s. induction ids as [|id ids IH]; cbn [retain_batch]; intros s H.
  - tx_pure H. cbn. lia.
  - tx_bind H as [] s1 H1. apply retain_one_count in H1. apply IH in H. cbn [length]. lia.
Qed.

Lemma retain_loop_count fuel ws target n s u s' :
  n = terminal_count ws s -> retain_loop fuel ws target n s = Ok (u, s') ->
  terminal_count ws s' <= target.
Proof.
  revert n s. induction fuel as [|fuel IH]; intros n s Hn H; cbn [retain_loop] in H;
    (destruct (n <=? target) eqn:Hle; split_bools; [tx_pure H; lia|]); [done|].
  tx_bind H as ids s1 Hl. unfold LockOldestTerminalTranscriptionJobsForWorkspaceManual in Hl.
  tx_pure Hl. case_bool_decide; [done|]. tx_bind H as [] s2 Hb.
  apply retain_batch_count in Hb. apply IH in H; lia.
Qed.

Lemma admission_count img s ws s' :
  lockTranscriptionAdmissionWorkspace img s = Ok (ws, s') -> terminal_count ws s' <= 99.
Proof.
  unfold lockTranscriptionAdmissionWorkspace. intros H. tx_bind H as w s1 Hl.
  destruct (w =? 0); [done|]. tx_bind H as [] s2 Hr. tx_pure H.
  unfold retainTerminalTranscriptionHistory in Hr. destruct (_ || _); [done|].
  tx_bind Hr as n s3 Hn. unfold CountTerminalTranscriptionJobsForWorkspaceManual in Hn. tx_pure Hn.
  by eapply retain_loop_count in Hr.
Qed.

(** ** The job a creation returns *)

Definition active_of (ws : Z) (m : gmap Z job_row) : list (Z * job_row) :=
  filter (fun kr => k_workspace_id (j_key kr.2) = ws /\ is_active (j_status kr.2) = true)
    (map_to_list m).

Lemma active_of_insert ws m id r :
  m !! id = None -> (length (active_of ws (<[id := r]> m)) <= S (length (active_of ws m)))%nat.
Proof.
  intros Hn. unfold active_of. rewrite map_to_list_insert by done.
  rewrite filter_cons. by case_decide; cbn; lia.
Qed.

Lemma insert_spec img ctx snap now s id s' :
  CreateTranscriptionJobManual img ctx snap now s = Ok (id, s') -> id <> 0 ->
  exists r, jobs s' !! id = Some r /\ active_image r = Some img /\
    (active_job_of (jobs s) img = None -> jobs s !! id = None /\ jobs s' = <[id := r]> (jobs s) /\
       exists it rev cid, image_item s img = Some it /\ ctx = Some cid /\
         pages (par s) !! (it_workspace_id it, img) = Some rev /\
         k_context_id (j_key r) = Some cid /\ k_input_revision (j_key r) = rev /\
         k_context_snapshot (j_key r) = snap /\ j_status r = Pending).
Proof.
  intros H Hid. unfold CreateTranscriptionJobManual in H.
  destruct (image_item s img) as [it|] eqn:Hit; cbn in H; [|simplify_eq; lia].
  destruct (pages (par s) !! (it_workspace_id it, img)) as [rev|] eqn:Hp; cbn in H; [|simplify_eq; lia].
  destruct ctx as [cid|]; cbn in H; [|simplify_eq; lia].
  destruct (contexts (par s) !! cid) as [c|]; cbn in H; [|simplify_eq; lia].
  match type of H with context [match ?m with Some _ => _ | None => _ end] =>
    destruct m as [[[[ws rev'] cid'] c']|] eqn:Hf end; [|simplify_eq; lia].
  assert (rev' = rev /\ cid' = cid) as [-> ->] by (repeat case_match; by simplify_eq).
  destruct (active_job_of (jobs s) img) as [[id' r']|] eqn:Hact.
  - simplify_eq. apply active_job_of_Some in Hact as [? ?]. exists r'. by split_and!.
  - destruct (_ && _) eqn:Hc; [|done]. split_bools. injection H as <- <-.
    eexists. split_and!; [apply lookup_insert_eq|done|]. intros _. split_and!; [done..|].
    exists it, rev, cid. by split_and!.
Qed.


(** What an active job that satisfies a request looks like. *)
Definition serves (s : db) (img cid : Z) (snap : json) (r : job_row) : Prop :=
  active_image r = Some img /\ k_context_id (j_key r) = Some cid /\
  k_context_snapshot (j_key r) = snap /\
  exists it, image_item s img = Some it /\
    pages (par s) !! (it_workspace_id it, img) = Some (k_input_revision (j_key r)).

Lemma matches_serves s img cid snap rev r it :
  image_item s img = Some it -> pages (par s) !! (it_workspace_id it, img) = Some rev ->
  active_image r = Some img -> activeTranscriptionJobMatches r (Some cid) snap rev = true ->
  serves s img cid snap r.
Proof.
  intros Hit Hp Ha Hm. unfold activeTranscriptionJobMatches, equivalentJSON in Hm.
  destruct (k_context_id (j_key r)) as [c|] eqn:Hc; [|done]. split_bools. subst.
  unfold serves. split_and!; [done|by rewrite Hc|done|]. exists it. by split.
Qed.

Lemma serves_par s s' img cid snap r : par s' = par s -> serves s img cid snap r -> serves s' img cid snap r.
Proof. unfold serves, image_item. by intros ->. Qed.

(** The tail shared by both branches of a creation turn. *)
Lemma insert_turn img cid snap now rev er s o s' it :
  0 < cid -> image_item s img = Some it ->
  pages (par s) !! (it_workspace_id it, img) = Some rev ->
  (insertedID ← CreateTranscriptionJobManual img (Some cid) snap now;
   if insertedID <=? 0 then tx_fail er else
   created ← GetTranscriptionJobManual insertedID;
   mret (if activeTranscriptionJobMatches created (Some cid) snap rev
         then Some insertedID else None)) s = Ok (o, s') ->
  par s' = par s /\
  (forall id, o = Some id -> exists r, jobs s' !! id = Some r /\ serves s img cid snap r) /\
  (active_job_of (jobs s) img = None -> exists id r, o = Some id /\
     jobs s !! id = None /\ jobs s' = <[id := r]> (jobs s)).
Proof.
  intros Hpos Hit Hp H. tx_bind H as id s1 Hins. destruct (id <=? 0) eqn:Hid; [done|]. split_bools.
  pose proof (par_insert _ _ _ _ _ _ _ Hins) as Hpar.
  apply insert_spec in Hins as (r & Hr & Ha & Hnew); [|lia].
  tx_bind H as c s2 Hg. apply get_job_Ok in Hg as [Hg ->]. tx_pure H.
  assert (c = r) as -> by congruence. split; [done|]. split.
  - intros id' Ho. destruct (activeTranscriptionJobMatches _ _ _ _) eqn:Hm; [|done].
    injection Ho as <-. exists r. split; [done|]. by eapply matches_serves.
  - intros (Hn & Hj & it' & rev' & cid' & Hit' & Hcid & Hp' & Hk & Hrev & Hs & _)%Hnew.
    exists id, r. split_and!; [|done|done].
    unfold activeTranscriptionJobMatches, equivalentJSON. rewrite Hk.
    simplify_eq. rewrite Z.eqb_refl, bool_decide_eq_true_2 by done.
    rewrite Z.eqb_refl, (proj2 (Z.ltb_lt 0 cid')) by done. done.
Qed.

Lemma create_attempt_spec e q ws img cid snap er s o s' :
  0 < cid ->
  create_attempt e q ws img (Some cid) snap er
    (CreateTranscriptionJobManual img (Some cid) snap (db_now e)) s = Ok (o, s') ->
  par s' = par s /\
  (forall id, o = Some id -> exists r, jobs s' !! id = Some r /\ serves s img cid snap r) /\
  (active_job_of (jobs s) img = None -> is_Some o /\
     Z.of_nat (length (active_of ws (jobs s'))) <= q).
Proof.
  intros Hcid H. unfold create_attempt in H.
  tx_bind H as active s1 Ha. unfold LockActiveTranscriptionJobForUpdateManual in Ha. tx_pure Ha.
  tx_bind H as rev s1 Hrev. unfold LockCanonicalRevisionForTranscriptionJobManual in Hrev. tx_pure Hrev.
  destruct (image_item s img) as [it|] eqn:Hit; cbn in H; [|done].
  destruct (pages (par s) !! (it_workspace_id it, img)) as [rev|] eqn:Hp; [|done].
  destruct (rev =? 0); [done|].
  destruct (active_job_of (jobs s) img) as [[aid ar]|] eqn:Hact.
  - destruct (activeTranscriptionJobMatches ar (Some cid) snap rev) eqn:Hm.
    + tx_pure H. split_and!; [done| |done]. intros id [= <-].
      apply active_job_of_Some in Hact as [? ?]. exists ar. split; [done|].
      by eapply matches_serves.
    + tx_bind H as [] s1 Hsup. apply par_supersede in Hsup.
      eapply (insert_turn _ _ _ _ _ _ s1) in H as (Hpar & Hs & _).
      * split_and!; [congruence| |done]. intros id Ho. destruct (Hs id Ho) as (r & ? & ?).
        exists r. split; [done|]. by eapply serves_par.
      * done.
      * unfold image_item. rewrite Hsup. exact Hit.
      * by rewrite Hsup.
  - tx_bind H as [] s1 Hq. unfold enforceTranscriptionJobAdmission in Hq.
    tx_bind Hq as n s2 Hn. unfold CountActiveTranscriptionJobsByWorkspaceManual in Hn. tx_pure Hn.
    destruct (q <=? _) eqn:Hle; [done|]. tx_pure Hq. split_bools.
    eapply (insert_turn _ _ _ _ _ _ s) in H as (Hpar & Hs & Hnew); [|done..].
    split_and!; [done|done|]. intros _. destruct (Hnew Hact) as (id & r & -> & Hn & ->).
    split; [done|]. pose proof (active_of_insert ws (jobs s) id r Hn).
    fold (active_of ws (jobs s)) in Hle. lia.
Qed.

Lemma createLocked_spec e q ws img cid snap er s id s' :
  0 < cid ->
  createLocked e q ws img (Some cid) snap er
    (CreateTranscriptionJobManual img (Some cid) snap (db_now e)) s = Ok (id, s') ->
  (exists r, jobs s' !! id = Some r /\ serves s img cid snap r) /\
  (active_job_of (jobs s) img = None -> Z.of_nat (length (active_of ws (jobs s'))) <= q).
Proof.
  intros Hcid. unfold createLocked. generalize 3%nat. intros n. revert s.
  induction n as [|n IH]; intros s H; cbn [create_loop] in H; [done|].
  tx_bind H as o s1 Ha. apply create_attempt_spec in Ha as (Hpar & Hs & Hq); [|done].
  destruct o as [id'|].
  - destruct (id' =? 0); [done|]. tx_pure H. split; [by apply Hs|]. by intros [_ ?]%Hq.
  - apply IH in H as ((r & Hr & Hsv) & _). split.
    + exists r. split; [done|]. by eapply serves_par.
    + by intros [[] _]%Hq.
Qed.

Lemma nullableUint64_pos v : 0 < v <= MaxInt64 -> nullableUint64 v = Some v.
Proof. intros H. unfold nullableUint64. by replace ((v =? 0) || (MaxInt64 <? v)) with false by lia. Qed.

(** The snapshot a creation freezes depends on the parent rows only. *)
Lemma snapshot_run cid ws img s v s' :
  lockContextSnapshotForWorkspace cid ws img s = Ok (v, s') -> s' = s /\ v.1 = cid.
Proof.
  unfold lockContextSnapshotForWorkspace. repeat case_match; intros [= <- <-]; done.
Qed.

Lemma snapshot_par cid ws img s s' v :
  par s' = par s -> lockContextSnapshotForWorkspace cid ws img s' = Ok (v, s') ->
  lockContextSnapshotForWorkspace cid ws img s = Ok (v, s).
Proof.
  unfold lockContextSnapshotForWorkspace, image_item. intros ->.
  repeat case_match; intros [= <-]; done.
Qed.

Lemma active_job_of_subseteq m m' img : m' ⊆ m -> active_job_of m img = None -> active_job_of m' img = None.
Proof.
  intros Hsub Hn. destruct (active_job_of m' img) as [[id r]|] eqn:H; [|done].
  apply active_job_of_Some in H as [Hr Ha]. exfalso.
  apply (active_job_of_None m img id r Hn); [by eapply lookup_weaken|done].
Qed.

End JobAdmission.

(** * Progress: an active job can always be claimed, in time

    The statements of [JobStore.claim] run forward: on a consistent queue none
    of them fails. *)

Module JobProgress.
Import GoStr Json Jobs JobStore JobInvariant JobRefine JobClaim.

(** No attempt carries a blank lease token. *)
Definition tokens_ok (s : db) : Prop :=
  forall k a, attempts s !! k = Some a -> TrimSpace (a_lease_token a) <> ""%string.

Lemma tokens_insert_same (m : gmap (Z * Z) attempt_row) k a a' :
  (forall k a, m !! k = Some a -> TrimSpace (a_lease_token a) <> ""%string) ->
  m !! k = Some a -> a_lease_token a' = a_lease_token a ->
  forall k' x, <[k := a']> m !! k' = Some x -> TrimSpace (a_lease_token x) <> ""%string.
Proof.
  intros Hm Ha Ht k' x. rewrite lookup_insert_Some. intros [[_ <-]|[_ Hx]].
  - rewrite Ht. by eapply Hm.
  - by eapply Hm.
Qed.

Lemma tokens_ok_step s s' : tokens_ok s -> qstep s s' -> tokens_ok s'.
Proof.
  unfold tokens_ok. intros Hs Hstep.
  destruct Hstep as [(_ & Ha & _)| | |id r r' a ended| | | | |];
    repeat match goal with H : attempts s' = _ |- _ => rewrite H; clear H end; try done.
  - intros k x. rewrite lookup_insert_Some. intros [[_ <-]|[_ Hx]]; [done|].
    destruct (j_status r); try done.
    + match goal with H : Pending = Pending -> _ |- _ => rewrite (H eq_refl) in Hx end.
      by eapply Hs.
    + match goal with H : Running = Running -> _ |- _ =>
        destruct (H eq_refl) as (old & oc & msg & now & Hold & _ & _ & _ & ->) end.
      eapply tokens_insert_same; [exact Hs|exact Hold| |exact Hx]; done.
  - intros k x Hx. eapply tokens_insert_same; [exact Hs|eassumption| |exact Hx]; done.
  - intros k x [Hx _]%map_lookup_filter_Some. by eapply Hs.
Qed.

Lemma tokens_ok_steps s s' : tokens_ok s -> rtc qstep s s' -> tokens_ok s'.
Proof. intros H Hr. induction Hr; eauto using tokens_ok_step. Qed.

(** ** Statements that succeed *)

Lemma update_job_run id wh set s r :
  jobs s !! id = Some r -> wh r = true -> job_checks (set r) = true ->
  active_unique (jobs s) id (set r) = true -> set r <> r ->
  requireOneAffected (update_job id wh set) s = Ok (tt, set_jobs (<[id := set r]> (jobs s)) s).
Proof.
  intros Hr Hw Hc Hu Hne. apply requireOneAffected_Ok. unfold update_job.
  by rewrite Hr, Hw, Hc, Hu, bool_decide_eq_false_2.
Qed.

Lemma finish_row_checks n oc m now a :
  attempt_checks n a = true -> oc <> AttemptRunning -> oc <> AttemptCompleted ->
  attempt_checks n (finish_row oc (Some m) None now a) = true.
Proof.
  unfold attempt_checks. intros H H1 H2. split_bools. cbn.
  rewrite !(bool_decide_eq_false_2 (oc = _)) by done. cbn.
  rewrite !andb_true_iff. repeat split; try done; lia.
Qed.

Lemma finish_run e f s a :
  validateTranscriptionFence f = Ok tt ->
  attempts s !! (JobID f, AttemptNumber f) = Some a -> a_outcome a = AttemptRunning ->
  a_lease_token a = LeaseToken f -> a_input_revision a = InputRevision f ->
  attempt_checks (AttemptNumber f) a = true ->
  finishTranscriptionAttempt e f AttemptLeaseExpired "worker lease expired" None s
  = Ok (tt, set_attempts (<[(JobID f, AttemptNumber f) := finish_row AttemptLeaseExpired
             (Some "worker lease expired"%string) None (db_now e) a]> (attempts s)) s).
Proof.
  intros Hv Ha Ho Ht Hi Hc. unfold finishTranscriptionAttempt. rewrite Hv.
  cbv [mbind tx_bind tx_lift mret tx_ret].
  change (bool_decide (AttemptLeaseExpired = AttemptRunning)) with false.
  change (TrimSpace "worker lease expired") with "worker lease expired"%string.
  rewrite (bool_decide_eq_false_2 (AttemptLeaseExpired = AttemptCompleted /\ _)) by (by intros [? _]).
  rewrite (bool_decide_eq_false_2 (AttemptLeaseExpired <> AttemptCompleted /\ _)) by (by intros [_ ?]).
  change (bool_decide (AttemptLeaseExpired = AttemptCompleted)) with false. cbn iota beta.
  apply requireFenceAffected_Ok. unfold FinishTranscriptionJobAttemptManual.
  rewrite Ha, Hi, Ht, Z.eqb_refl, Ho.
  rewrite (bool_decide_eq_true_2 (LeaseToken f = _)), (bool_decide_eq_true_2 (AttemptRunning = _)) by reflexivity.
  cbn [andb].
  change (nullableString "worker lease expired")
    with (Some "worker lease expired"%string).
  rewrite finish_row_checks by done. rewrite bool_decide_eq_false_2; [reflexivity|].
  intros E. apply (f_equal a_outcome) in E. cbn in E. congruence.
Qed.

(** ** The lease *)

Lemma leased_row_checks e r :
  job_checks r = true -> j_attempt_count r < k_max_attempts (j_key r) ->
  job_checks (leased_row e r) = true.
Proof.
  unfold job_checks, leased_row. cbn. intros H Hlt. split_bools.
  repeat match goal with H : ?b = true |- context [?b] => rewrite H end.
  rewrite !bool_decide_eq_true_2 by eauto. rewrite !andb_true_iff. repeat split; lia.
Qed.

Lemma failed_row_checks msg now r :
  job_checks r = true -> job_checks (close_row Failed None None msg now r) = true.
Proof.
  unfold job_checks, close_row. cbn. intros H. split_bools.
  repeat match goal with H : ?b = true |- context [?b] => rewrite H end.
  rewrite !andb_true_iff. repeat split; try done; lia.
Qed.

Lemma active_unique_same s id r r' :
  queue_inv s -> jobs s !! id = Some r -> is_active (j_status r) = true -> j_key r' = j_key r ->
  active_unique (jobs s) id r' = true.
Proof.
  intros I Hr Ha Hk. unfold active_unique. destruct (active_image r') as [img|] eqn:Hi; [|done].
  apply bool_decide_eq_true. intros id' x Hx. destruct (decide (id' = id)) as [|Hne]; [by left|].
  right. intros Hx'. apply Hne. eapply (inv_active s I id' id x r); eauto.
  by eapply active_image_status.
Qed.

Lemma take_lease_forward e id r s :
  uuid_ok e -> jobs s !! id = Some r -> claimable (db_now e) r = true ->
  job_checks r = true -> j_attempt_count r < k_max_attempts (j_key r) ->
  active_unique (jobs s) id (leased_row e r) = true ->
  token_free (attempts s) (worker_token e) = true ->
  attempts s !! (id, j_attempt_count r + 1) = None ->
  exists j s', take_lease e id r s = Ok (j, s') /\ ID j = id.
Proof.
  intros Hu Hr Hcl Hck Hlt Hun Hfree Hnone. pose proof (leased_row_checks e r Hck Hlt) as Hck'.
  unfold take_lease. fold (worker_token e). rewrite worker_token_nullable by done.
  unfold MarkTranscriptionJobLeasedManual.
  unfold mbind, tx_bind. erewrite update_job_run; [|exact Hr| |exact Hck'|exact Hun|].
  2:{ rewrite !Z.eqb_refl, bool_decide_eq_true_2, Hcl by done. cbn. lia. }
  2:{ intros E. apply (f_equal j_attempt_count) in E. cbn in E. lia. }
  match goal with |- context [requireOneAffected (InsertTranscriptionJobAttemptManual ?a ?b ?c ?d ?x ?t ?n) ?st] =>
    assert (H : requireOneAffected (InsertTranscriptionJobAttemptManual a b c d x t n) st
      = Ok (tt, set_attempts (<[(id, j_attempt_count r + 1) := new_attempt e r]> (attempts s)) st)) end.
  { apply requireOneAffected_Ok. unfold InsertTranscriptionJobAttemptManual. cbn [jobs set_jobs].
    rewrite lookup_insert_eq. cbn -[worker_token]. rewrite !Z.eqb_refl, bool_decide_eq_true_2 by done.
    cbn -[worker_token]. rewrite Hfree, bool_decide_eq_true_2 by done.
    assert (Hac : attempt_checks (j_attempt_count r + 1) (new_attempt e r) = true).
    { unfold attempt_checks, job_checks in *. split_bools. cbn. rewrite !andb_true_iff.
      repeat split; try done; lia. }
    unfold new_attempt in Hac. unfold new_attempt. rewrite Hac, bool_decide_eq_true_2 by exact Hnone. reflexivity. }
  rewrite H. cbn [attempts]. unfold GetTranscriptionJobManual. cbn [jobs set_jobs set_attempts].
  rewrite lookup_insert_eq. eexists _, _. split; [reflexivity|]. done.
Qed.

(** ** Expired claims *)

Lemma fence_forward s id r :
  queue_inv s -> tokens_ok s -> jobs s !! id = Some r -> j_status r = Running ->
  exists f a, attemptFenceFromRow id r = Ok f /\ validateTranscriptionFence f = Ok tt /\
    attempts s !! (JobID f, AttemptNumber f) = Some a /\ a_outcome a = AttemptRunning /\
    a_lease_token a = LeaseToken f /\ a_input_revision a = InputRevision f /\
    attempt_checks (AttemptNumber f) a = true /\
    JobID f = id /\ AttemptNumber f = j_attempt_count r /\ j_locked_by r = Some (LeaseToken f).
Proof.
  intros I Ht Hr Hrun. destruct (inv_checks s I _ _ Hr) as [Hck Hid].
  destruct (inv_running s I _ _ Hr Hrun) as (a & Ha & Ho & Hl & Hi).
  destruct (inv_attempt s I _ _ _ Ha) as (Hac & _). pose proof (Ht _ _ Ha) as Hblank.
  pose proof (job_checks_count r Hck) as Hcount.
  assert (0 < k_input_revision (j_key r) /\ k_max_attempts (j_key r) <= MaxInt32
          /\ 0 < j_attempt_count r) as (Hrev & Hmax & Hpos).
  { unfold job_checks in Hck. unfold attempt_checks in Hac. split_bools. lia. }
  set (f := {| JobID := id; AttemptNumber := j_attempt_count r;
               InputRevision := k_input_revision (j_key r); LeaseToken := a_lease_token a |}).
  assert (Hv : validateTranscriptionFence f = Ok tt).
  { apply guard_ok_Ok. subst f. cbn -[TrimSpace].
    rewrite (bool_decide_eq_false_2 (TrimSpace _ = _)) by done. lia. }
  exists f, a. split_and!; try done.
  unfold attemptFenceFromRow, attemptNumberFromInt. rewrite Hl.
  replace ((j_attempt_count r <=? 0) || (MaxInt32 <? j_attempt_count r)) with false by lia.
  fold (coalesce (Some (a_lease_token a))). change (coalesce (Some (a_lease_token a))) with (a_lease_token a).
  fold f. by rewrite Hv.
Qed.

Lemma recover_forward e id r s :
  queue_inv s -> tokens_ok s -> jobs s !! id = Some r -> claimable (db_now e) r = true ->
  (exists s1, recover_expired e id r s = Ok (false, s1) /\ jobs s1 = jobs s /\
     j_attempt_count r < k_max_attempts (j_key r) /\
     (attempts s1 = attempts s \/ exists a oc m now, attempts s !! (id, j_attempt_count r) = Some a /\
        attempts s1 = <[(id, j_attempt_count r) := finish_row oc m None now a]> (attempts s)))
  \/ (exists s1 r', recover_expired e id r s = Ok (true, s1) /\ jobs s1 !! id = Some r' /\
        j_status r' = Failed).
Proof.
  intros I Ht Hr Hc. unfold recover_expired. case_bool_decide as Hrun.
  - destruct (fence_forward s id r I Ht Hr Hrun) as (f & a & Hf & Hv & Ha & Ho & Htok & Hi & Hac & Hid & Hn & Hl).
    rewrite Hf. cbv [mbind tx_bind tx_lift].
    rewrite (finish_run e f s a) by done. rewrite Hid, Hn in *.
    destruct (k_max_attempts (j_key r) <=? j_attempt_count r) eqn:Hmax.
    + right. unfold FailExpiredTranscriptionJobManual. erewrite update_job_run; [|exact Hr| | | |].
      * cbv [DeleteTranscriptionCheckpoints tx_modify mret tx_ret]. eexists _, _.
        split; [reflexivity|]. cbn [jobs set_jobs set_checkpoints set_attempts].
        rewrite lookup_insert_eq. by split.
      * unfold claimable in Hc. rewrite Hrun in *. rewrite !Z.eqb_refl, Hl, Hmax.
        rewrite !bool_decide_eq_true_2 by (done || reflexivity).
        change (bool_decide (Running = Pending)) with false in Hc.
        change (bool_decide (Running = Running)) with true in Hc. cbn [andb orb] in Hc.
        destruct (j_lease_until r) as [l|]; [|done]. by rewrite Hc.
      * apply failed_row_checks. by apply (inv_checks s I _ _ Hr).
      * done.
      * intros E. apply (f_equal j_status) in E. cbn in E. congruence.
    + left. cbv [mret tx_ret]. eexists. split; [reflexivity|]. split_bools.
      split_and!; [done|done|]. right. exists a. eauto 10.
  - left. cbv [mret tx_ret]. exists s. split_and!; [done|done| |by left].
    unfold claimable in Hc. rewrite (bool_decide_eq_false_2 (_ = Running)) in Hc by done.
    rewrite orb_false_r in Hc. split_bools. done.
Qed.

Lemma token_free_finish m k a oc msg now t :
  token_free m t = true -> m !! k = Some a ->
  token_free (<[k := finish_row oc msg None now a]> m) t = true.
Proof.
  intros Hf Ha. pose proof (token_free_spec _ _ Hf) as Hs. apply bool_decide_eq_true.
  intros k' x. rewrite lookup_insert_Some. intros [[_ <-]|[_ Hx]]; [|by eapply Hs].
  cbn. by eapply Hs.
Qed.

Lemma claim_forward e id r s :
  queue_inv s -> tokens_ok s -> uuid_ok e -> jobs s !! id = Some r ->
  claimable (db_now e) r = true -> id ∉ locked_rows e ->
  token_free (attempts s) (worker_token e) = true ->
  exists o s', claim e (ByID id) s = Ok (o, s') /\
    ((exists j, o = Some j /\ ID j = id) \/
     (o = None /\ exists r', jobs s' !! id = Some r' /\ j_status r' = Failed)).
Proof.
  intros I Ht Hu Hr Hc Hfree Htok. unfold claim. cbn [claim_loop].
  cbn [select_claimable]. unfold ClaimLeasedTranscriptionJobByIDManual.
  cbv [mbind tx_bind tx_reads]. rewrite Hr, Hc, (bool_decide_eq_true_2 (id ∉ _)) by done. cbn [andb].
  pose proof (claimable_active _ _ Hc) as Hact.
  destruct (recover_forward e id r s I Ht Hr Hc)
    as [(s1 & -> & Hj & Hlt & Hatt)|(s1 & r' & -> & Hr' & Hf)].
  - destruct (take_lease_forward e id r s1) as (j & s' & -> & Hid); try done.
    + by rewrite Hj.
    + by apply (inv_checks s I _ _ Hr).
    + rewrite Hj. by apply active_unique_same with r.
    + destruct Hatt as [->|(a & oc & m & now & Ha & ->)]; [done|]. by apply token_free_finish.
    + assert (Hnone : attempts s !! (id, j_attempt_count r + 1) = None).
      { apply eq_None_not_Some. intros [a Ha].
        destruct (inv_attempt s I _ _ _ Ha) as (_ & x & Hx & Hle & _).
        assert (x = r) as -> by congruence. lia. }
      destruct Hatt as [->|(a & oc & m & now & Ha & ->)]; [done|].
      rewrite lookup_insert_ne; [done|]. intros [=]. lia.
    + cbv [mret tx_ret]. eexists _, _. split; [reflexivity|]. left. eauto.
  - cbv [mret tx_ret]. eexists _, _. split; [reflexivity|]. right. eauto.
Qed.

(** An active job of a consistent queue becomes claimable. *)
Lemma eventually_claimable s id r :
  queue_inv s -> jobs s !! id = Some r -> is_active (j_status r) = true ->
  exists t0, forall now, t0 <= now -> claimable now r = true.
Proof.
  intros I Hr Hact. destruct (j_status r) eqn:Hst; try done.
  - pose proof (inv_budget s I _ _ Hr Hst). exists (default 0 (j_retry_after r)). intros now Hn.
    unfold claimable. rewrite (bool_decide_eq_true_2 (_ = Pending)) by done.
    destruct (j_retry_after r); cbn in *; lia.
  - destruct (inv_checks s I _ _ Hr) as [Hck _]. unfold job_checks in Hck.
    rewrite (bool_decide_eq_true_2 (_ = Running)) in Hck by done. split_bools.
    destruct (j_lease_until r) as [l|] eqn:Hl; [|by destruct H].
    exists (l + 1). intros now Hn. unfold claimable. rewrite Hl.
    rewrite (bool_decide_eq_true_2 (_ = Running)) by done. lia.
Qed.

End JobProgress.
