(* ===== verification/JobTheorems.v ===== *)
(** * The transcription queue: its correctness theorems

    Stated over [JobQueue.run_ops], the runs of the store's methods, with a
    sample database at which every theorem applies. *)

From Stdlib Require Import ZArith Lia Ascii String.
From stdpp Require Import base gmap strings list sorting.
From S2P Require Import Prelude GoStrings Json JobSchema JobStore JobInvariant JobRefine JobQueue JobAdmission.

Module JobTheorems.
Import GoStr Json Jobs JobStore JobInvariant JobRefine JobClaim JobQueue JobAdmission JobProgress.

(** ** A sample database: one workspace, one image, one page, one context *)

Definition demo_parents : parents := {|
  workspaces := {[1]}; item_images := {[7 := {| i_item_id := "it" |}]};
  items := {["it"%string := {| it_workspace_id := 1; it_document_type := None |}]};
  pages := {[(1, 7) := 5]};
  contexts := {[3 := {| c_workspace_id := Some 1; c_scope_id := 1; c_fields := [] |}]};
  subscriptions := {[9 := 1]} |}.

Definition demo_db : db := {|
  jobs := ∅; attempts := ∅; checkpoints := ∅; next_job_id := 1; request_jobs := ∅;
  file_jobs := ∅; outbox := ∅; deliveries := ∅; par := demo_parents |}.

Definition demo_env (now : Z) (id : string) : env := {|
  db_now := now; go_now := now; locked_rows := ∅; uuid := id; hostname := None |}.

Definition demo_fence (n : Z) (id : string) : fence := {|
  JobID := 1; AttemptNumber := n; InputRevision := 5; LeaseToken := ("worker-" ++ id)%string |}.

Definition create_then_claim : list (env * op) :=
  [(demo_env 100 "c", OpCreate 10 7 3); (demo_env 101 "a", OpClaim Oldest)].

Definition claimed_db : db := run_ops create_then_claim demo_db.

(** Claimed, expired, claimed again. *)
Definition reclaimed_db : db := run_ops [(demo_env 900 "b", OpClaim Oldest)] claimed_db.

(** Created and canceled. *)
Definition canceled_db : db :=
  run_ops [(demo_env 100 "c", OpCreate 10 7 3); (demo_env 101 "d", OpCancel 1)] demo_db.

Lemma demo_empty : empty_queue demo_db.
Proof. by split_and!. Qed.

Lemma create_then_claim_uuids : Forall (fun eo => uuid_ok eo.1) create_then_claim.
Proof. repeat constructor. Qed.

(** Every run from the sample database keeps the invariant. *)
Lemma demo_run_inv l : Forall (fun eo => uuid_ok eo.1) l -> queue_inv (run_ops l demo_db).
Proof.
  intros H. eapply qsteps_inv; [apply empty_queue_inv, demo_empty|].
  apply run_ops_refines; [done|apply empty_queue_inv, demo_empty].
Qed.

Lemma claimed_db_inv : queue_inv claimed_db.
Proof. apply demo_run_inv, create_then_claim_uuids. Qed.

Lemma reclaimed_db_inv : queue_inv reclaimed_db.
Proof.
  apply (demo_run_inv (create_then_claim ++ [(demo_env 900 "b", OpClaim Oldest)])).
  repeat constructor.
Qed.

(** ** Rows outlived by a superseded fence *)

(** Attempt [n] of job [id] is in the past, for good. *)
Definition outlived (s : db) (id n : Z) : Prop :=
  id < next_job_id s /\ forall r, jobs s !! id = Some r -> n < j_attempt_count r.

Lemma outlived_insert s id n id' (r r' x : job_row) :
  (forall r, jobs s !! id = Some r -> n < j_attempt_count r) -> jobs s !! id' = Some r ->
  j_attempt_count r <= j_attempt_count r' ->
  id' = id /\ r' = x \/ id' <> id /\ jobs s !! id = Some x -> n < j_attempt_count x.
Proof.
  intros Hs Hr Hle [[-> ->]|[_ Hx]]; [|by apply Hs]. specialize (Hs r Hr). lia.
Qed.

Lemma outlived_step s s' id n : outlived s id n -> qstep s s' -> outlived s' id n.
Proof.
  intros [Hlt Hs] Hstep. unfold outlived.
  destruct Hstep as [(Hj & _ & _ & Hn)| | | | | | | |];
    repeat match goal with
    | H : jobs s' = _ |- _ => rewrite H; clear H
    | H : next_job_id s' = _ |- _ => rewrite H; clear H
    end; (split; [lia|]); try done; intros x;
    rewrite ?lookup_insert_Some, ?lookup_delete_Some.
  - intros [[? ?]|[? ?]]; [lia|by apply Hs].
  - apply outlived_insert with r; [done|done|lia].
  - apply outlived_insert with r; [done|done|lia].
  - apply outlived_insert with r; [done|done|lia].
  - apply outlived_insert with r; [done|done|lia].
  - intros [? ?]. by apply Hs.
Qed.

Lemma outlived_steps s s' id n : outlived s id n -> rtc qstep s s' -> outlived s' id n.
Proof. intros H Hr. induction Hr; eauto using outlived_step. Qed.

Lemma outlived_no_lease s f now : outlived s (JobID f) (AttemptNumber f) -> holds_lease s f now = false.
Proof.
  intros [_ H]. unfold holds_lease. destruct (jobs s !! JobID f) as [r|]; [|done].
  specialize (H r eq_refl). unfold lease_held.
  by replace (j_attempt_count r =? AttemptNumber f) with false by lia.
Qed.

(** A worker operation without the lease fails and changes nothing. *)
Lemma no_lease_rejected e o f s :
  op_fence o = Some f -> holds_lease s f (db_now e) = false ->
  exists er, run_op e o s = (Err er, s).
Proof.
  intros Hf Hl. destruct (run_op e o s) as [[u|er] s'] eqn:H.
  - pose proof (worker_op_holds e o f s u s' Hf H). congruence.
  - exists er. destruct o; cbn [run_op] in H; by apply run_tx_Err in H as ->.
Qed.

#[local] Arguments worker_token : simpl never.
#[local] Arguments TrimSpace : simpl never.

(** ** Failure *)

(** The categories of [safeTranscriptionErrorMessage]. *)
Definition safe_categories : list string := [
  "canonical annotation page changed during transcription";
  "canonical annotation page is unavailable";
  "transcription context snapshot is invalid";
  "transcription job exceeds configured segment limit";
  "workspace provider credential is not configured";
  "workspace provider credential is invalid";
  "transcription attempt was interrupted";
  "transcription provider request failed";
  "transcription attempt failed"]%string.

Lemma safe_message_category m : safeTranscriptionErrorMessage m ∈ safe_categories.
Proof.
  unfold safeTranscriptionErrorMessage.
  repeat match goal with |- context [if ?b then _ else _] => destruct b end;
    unfold safe_categories; repeat first [left|right].
Qed.

Lemma safe_message_nullable m :
  nullableString (safeTranscriptionErrorMessage m) = Some (safeTranscriptionErrorMessage m)
  /\ TrimSpace (safeTranscriptionErrorMessage m) = safeTranscriptionErrorMessage m.
Proof.
  pose proof (safe_message_category m) as H. revert H.
  generalize (safeTranscriptionErrorMessage m). intros x H.
  assert (Forall (fun c => nullableString c = Some c /\ TrimSpace c = c) safe_categories) as Hall.
  { repeat (constructor; [by vm_compute|]). constructor. }
  rewrite Forall_forall in Hall. by apply Hall.
Qed.

Lemma finish_message e f oc msg res s u s' a' :
  finishTranscriptionAttempt e f oc msg res s = Ok (u, s') ->
  attempts s' !! (JobID f, AttemptNumber f) = Some a' ->
  a_safe_error_message a' = nullableString (TrimSpace msg).
Proof.
  unfold finishTranscriptionAttempt. intros H Ha'.
  tx_bind H as [] s1 Hv. apply tx_lift_Ok in Hv as [_ ->].
  destruct (bool_decide (oc = AttemptRunning)); [done|].
  destruct (bool_decide (oc = AttemptCompleted /\ _)); [done|].
  destruct (bool_decide (oc <> AttemptCompleted /\ _)); [done|].
  tx_bind H as rv s1 Hrv. apply requireFenceAffected_Ok in H.
  unfold FinishTranscriptionJobAttemptManual in H.
  destruct (attempts s1 !! _) as [a|]; [|done]. destruct (_ && _ && _); [|done].
  destruct (attempt_checks _ _); [|done]. injection H as _ <-.
  cbn [attempts set_attempts] in Ha'. rewrite lookup_insert_eq in Ha'. by injection Ha' as <-.
Qed.

(** The job row a failed attempt leaves. *)
Record failed_row (now : Z) (terminal : bool) (retry : option Z) (msg : string) (r r' : job_row)
    : Prop := {
  fr_status : j_status r' = if terminal then Failed else Pending;
  fr_retry : j_retry_after r' =
    if terminal then None else Some (default (now + retry_delay (j_attempt_count r)) retry);
  fr_lease : j_lease_until r' = None /\ j_locked_by r' = None;
  fr_error : j_error_message r' = Some msg;
  fr_kept : j_key r' = j_key r /\ j_attempt_count r' = j_attempt_count r;
}.

Lemma emit_event_keeps ev s u s' :
  emit_event ev s = Ok (u, s') -> jobs s' = jobs s /\ attempts s' = attempts s
    /\ checkpoints s' = checkpoints s.
Proof. intros (Hj & Ha & Hc & _)%emit_event_frame. done. Qed.

(** A fence that holds the lease is well formed. *)
Lemma holds_lease_number s f now :
  queue_inv s -> holds_lease s f now = true -> transcriptionAttemptNumberToDB f = Ok (AttemptNumber f).
Proof.
  unfold holds_lease. intros I H. destruct (jobs s !! JobID f) as [r|] eqn:Hr; [|done].
  destruct (inv_checks s I _ _ Hr) as [Hck Hid]. unfold lease_held in H.
  destruct (nullableString (LeaseToken f)) as [t|] eqn:Ht;
    [|by rewrite andb_false_r in H].
  assert (TrimSpace (LeaseToken f) <> ""%string) as Hblank.
  { intros E. unfold nullableString in Ht. rewrite E in Ht. done. }
  split_bools. unfold job_checks in Hck. rewrite (bool_decide_eq_true_2 (_ = Running)) in Hck by done.
  split_bools. unfold transcriptionAttemptNumberToDB, validateTranscriptionFence.
  rewrite (bool_decide_eq_false_2 (TrimSpace _ = _)) by done.
  replace ((JobID f =? 0) || (AttemptNumber f =? 0) || (MaxInt32 <? AttemptNumber f)
    || (InputRevision f =? 0) || false) with false by lia. cbn.
  unfold int32FromUint32. by replace (MaxInt32 <? AttemptNumber f) with false by lia.
Qed.

(** ** The theorems *)

(** C1: from an empty queue, every sequence of store operations (creations,
    claims, cancellations, progress reports, failures, completions, checkpoints,
    each successful or rolled back) keeps the queue consistent: table
    constraints, one active job per image, a running attempt with the row's lease
    token for every running job and for no other, a gap-free attempt history,
    unique lease tokens, attempts left for every pending job, checkpoints of
    active jobs only. *)
Theorem queue_stays_consistent l s :
  empty_queue s -> Forall (fun eo => uuid_ok eo.1) l -> queue_inv (run_ops l s).
Proof.
  intros Hs%empty_queue_inv Hl. eapply qsteps_inv; [exact Hs|]. by apply run_ops_refines.
Qed.

Lemma queue_stays_consistent_witness :
  (j_status <$> (jobs (run_ops create_then_claim demo_db) !! 1)) = Some Running
  /\ queue_inv (run_ops create_then_claim demo_db).
Proof.
  split; [vm_compute; reflexivity|].
  apply queue_stays_consistent; [apply demo_empty|apply create_then_claim_uuids].
Defined.

(** C30: a claim that returns a job took a job that was claimable and not held by
    another transaction, used one more attempt within its budget, and the fence it
    hands to the worker holds the lease. *)
Theorem claim_takes_lease e sel s j s' :
  queue_inv s -> uuid_ok e -> db_now e < go_now e + leaseDuration10m ->
  claim e sel s = Ok (Some j, s') ->
  exists f r, Fence j = Ok f /\ jobs s !! JobID f = Some r /\
    claimable (db_now e) r = true /\ (JobID f ∉ locked_rows e) /\
    AttemptNumber f = j_attempt_count r + 1 /\ AttemptNumber f <= k_max_attempts (j_key r) /\
    holds_lease s' f (db_now e) = true.
Proof.
  intros I Hu Hnow H. apply claim_spec in H; [|done].
  inversion H as [|id r s1 s2 j' s'' Hsteps Hr Hr1 Hc Hfree Hrec Hl]; subst.
  destruct (inv_checks s I id r Hr) as [Hck Hid].
  destruct Hl as [_ Hmax _ _ Hjobs _ _ _ [l ->]].
  unfold job_checks in Hck. split_bools.
  unfold Fence. cbn. unfold attemptNumberFromInt.
  replace ((j_attempt_count r + 1 <=? 0) || (MaxInt32 <? j_attempt_count r + 1)) with false by lia.
  rewrite worker_token_trim by done.
  replace (id =? 0) with false by lia.
  replace (j_attempt_count r + 1 =? 0) with false by lia.
  replace (k_input_revision (j_key r) =? 0) with false by lia.
  rewrite (bool_decide_eq_false_2 (worker_token e = _)) by (rewrite worker_token_eq; done).
  eexists _, r. split; [reflexivity|]. cbn. split_and!; try done; [lia|].
  unfold holds_lease. cbn. rewrite Hjobs, lookup_insert_eq. unfold lease_held. cbn.
  rewrite worker_token_nullable by done. rewrite !Z.eqb_refl, !bool_decide_eq_true_2 by done.
  cbn. lia.
Qed.

Lemma claim_takes_lease_witness : exists j s',
  claim (demo_env 900 "b") Oldest claimed_db = Ok (Some j, s') /\
  exists f r, Fence j = Ok f /\ jobs claimed_db !! JobID f = Some r /\
    claimable 900 r = true /\ (JobID f ∉ locked_rows (demo_env 900 "b")) /\
    AttemptNumber f = j_attempt_count r + 1 /\ AttemptNumber f <= k_max_attempts (j_key r) /\
    holds_lease s' f 900 = true.
Proof.
  eexists _, _. split; [vm_compute; reflexivity|].
  eapply (claim_takes_lease (demo_env 900 "b") Oldest claimed_db).
  - apply claimed_db_inv.
  - reflexivity.
  - reflexivity.
  - vm_compute. reflexivity.
Defined.

(** C2: a worker operation whose fence does not hold the lease (wrong attempt,
    revision or token, a job that is not running, an expired lease) fails, and the
    database is as before: no progress, result, failure or checkpoint of a worker
    that lost its claim is recorded. *)
Theorem unfenced_worker_changes_nothing e o f s :
  op_fence o = Some f -> holds_lease s f (db_now e) = false ->
  exists er, run_op e o s = (Err er, s).
Proof. apply no_lease_rejected. Qed.

Lemma unfenced_worker_changes_nothing_witness :
  exists er, run_op (demo_env 800 "x") (OpComplete (demo_fence 1 "a") 6) claimed_db
             = (Err er, claimed_db).
Proof. apply unfenced_worker_changes_nothing with (demo_fence 1 "a"); reflexivity. Defined.

(** Once a job has been claimed again, the earlier worker is shut out for
    good: whatever the later operations, its every operation fails and changes
    nothing. *)
Theorem superseded_worker_is_shut_out l e o f r s :
  queue_inv s -> Forall (fun eo => uuid_ok eo.1) l -> jobs s !! JobID f = Some r ->
  AttemptNumber f < j_attempt_count r -> op_fence o = Some f ->
  exists er, run_op e o (run_ops l s) = (Err er, run_ops l s).
Proof.
  intros I Hl Hr Hn Hf. apply no_lease_rejected with f; [done|]. apply outlived_no_lease.
  eapply outlived_steps; [|by apply run_ops_refines]. split.
  - by apply (inv_checks s I _ _ Hr).
  - naive_solver.
Qed.

Lemma superseded_worker_is_shut_out_witness :
  exists er, run_op (demo_env 905 "x") (OpComplete (demo_fence 1 "a") 6)
    (run_ops [(demo_env 903 "x", OpSetTotal (demo_fence 2 "b") 4)] reclaimed_db)
    = (Err er, run_ops [(demo_env 903 "x", OpSetTotal (demo_fence 2 "b") 4)] reclaimed_db).
Proof.
  eapply superseded_worker_is_shut_out with (f := demo_fence 1 "a").
  - apply reclaimed_db_inv.
  - repeat constructor.
  - vm_compute. reflexivity.
  - reflexivity.
  - reflexivity.
Defined.

(** A completed, failed, canceled or superseded job is final: no sequence of
    operations changes its row, except that the retention of old history may
    delete it; its id is not used again. *)
Theorem terminal_jobs_are_final l s id r :
  queue_inv s -> Forall (fun eo => uuid_ok eo.1) l -> jobs s !! id = Some r ->
  is_terminal (j_status r) = true ->
  jobs (run_ops l s) !! id = None \/ jobs (run_ops l s) !! id = Some r.
Proof.
  intros I Hl Hr Ht. eapply (settled_steps s _ id r Ht).
  - split; [by apply (inv_checks s I _ _ Hr)|by right].
  - by apply run_ops_refines.
Qed.

Lemma terminal_jobs_are_final_witness :
  let l := [(demo_env 105 "e", OpClaim (ByID 1)); (demo_env 106 "f", OpCreate 10 7 3)] in
  jobs (run_ops l canceled_db) !! 1 = None \/
  jobs (run_ops l canceled_db) !! 1 = jobs canceled_db !! 1.
Proof.
  cbv zeta. eapply terminal_jobs_are_final.
  - apply (demo_run_inv [(demo_env 100 "c", OpCreate 10 7 3); (demo_env 101 "d", OpCancel 1)]).
    repeat constructor.
  - repeat constructor.
  - vm_compute. reflexivity.
  - reflexivity.
Defined.

(** The claim loop ends: the bound of the model, one turn more than there are
    jobs, is never exceeded, since every turn that goes round again fails one
    running job. *)
Theorem claim_terminates e sel s : claim e sel s <> Err EOutOfFuel.
Proof.
  unfold claim. apply claim_loop_fuel. unfold running_jobs.
  apply Nat.lt_succ_r, map_subseteq_size, map_filter_subseteq.
Qed.

(** A worker's failure report ends its attempt and releases the job: the job
    fails exactly when the failure is permanent or the attempt budget is spent,
    and otherwise is pending again at the requested time or after the exponential
    backoff of at most 300 seconds; the recorded message is the safe category of
    the error; checkpoints go, and the failure event is emitted, only when the job
    is terminal. *)
Theorem failure_report_outcome e f msg ev permanent retry s terminal s' :
  failWithWebhookEvent e f msg ev permanent retry s = Ok (terminal, s') ->
  exists r r' a, jobs s !! JobID f = Some r /\
    terminal = permanent || (k_max_attempts (j_key r) <=? j_attempt_count r) /\
    failed_row (db_now e) terminal retry (safeTranscriptionErrorMessage msg) r r' /\
    jobs s' = <[JobID f := r']> (jobs s) /\
    attempts s !! (JobID f, AttemptNumber f) = Some a /\
    attempts s' = <[(JobID f, AttemptNumber f) :=
      finish_row (if terminal then AttemptFailed else AttemptRetryableFailed)
        (Some (safeTranscriptionErrorMessage msg)) None (db_now e) a]> (attempts s) /\
    checkpoints s' = (if terminal then drop_checkpoints (JobID f) (checkpoints s) else checkpoints s) /\
    (terminal = false -> outbox s' = outbox s /\ deliveries s' = deliveries s).
Proof.
  unfold failWithWebhookEvent. intros H. tx_bind H as n s1 Hn.
  apply tx_lift_Ok in Hn as [Hn ->]. apply attemptNumberToDB_Ok in Hn as ->.
  tx_bind H as [] s1 Hlock. apply lock_lease_Ok in Hlock as (-> & r & Hr & Hl).
  tx_bind H as r0 s1 Hget. apply get_job_Ok in Hget as [Hr0 ->].
  assert (r0 = r) as -> by congruence. clear Hr0.
  set (t := permanent || (k_max_attempts (j_key r) <=? j_attempt_count r)) in *.
  tx_bind H as [] s1 Hfin. destruct (safe_message_nullable msg) as [Hmsg Htrim].
  pose proof (fun a' => finish_message _ _ _ _ _ _ _ _ a' Hfin) as Hm.
  rewrite Hmsg in H.
  apply finish_Ok in Hfin as (a & m & rv & Ha & _ & _ & _ & _ & Hrv & _ & ->).
  rewrite Hrv in * by (by destruct t). clear Hrv rv.
  cbn [attempts set_attempts] in Hm. specialize (Hm _ (lookup_insert_eq _ _ _)).
  rewrite Htrim, Hmsg in Hm. cbn in Hm. subst m.
  tx_bind H as [] s2 Hup. apply requireFenceAffected_Ok in Hup.
  assert (exists set, failed_row (db_now e) t retry (safeTranscriptionErrorMessage msg) r (set r) /\
    exists r0, jobs s !! JobID f = Some r0 /\
      s2 = set_jobs (<[JobID f := set r0]> (jobs s)) (set_attempts (<[(JobID f, AttemptNumber f) :=
        finish_row (if t then AttemptFailed else AttemptRetryableFailed)
        (Some (safeTranscriptionErrorMessage msg)) None (db_now e) a]> (attempts s)) s))
    as (set & Hrow & r0 & Hr0 & Hs2).
  { subst t. destruct retry as [t0|].
    - destruct permanent; cbn in Hup |- *; [|destruct (_ <=? _) eqn:Hle];
        apply update_job_Ok in Hup as (r0 & Hr0 & _ & _ & _ & _ & ->);
        eexists (fun r => _); (split; [|exists r0; split; [exact Hr0|reflexivity]]); by constructor.
    - destruct permanent; cbn in Hup |- *;
        apply update_job_Ok in Hup as (r0 & Hr0 & _ & _ & _ & _ & ->);
        eexists (fun r => _); (split; [|exists r0; split; [exact Hr0|reflexivity]]);
        constructor; cbn; try done.
      all: rewrite Z.ltb_antisym; by destruct (_ <=? _). }
  assert (r0 = r) as -> by congruence. clear Hr0.
  tx_bind H as [] s3 Hck. tx_bind H as [] s4 Hev. tx_pure H.
  exists r, (set r), a. split; [done|]. split; [done|]. split; [exact Hrow|].
  destruct t.
  - apply emit_event_keeps in Hev as (-> & -> & ->). apply delete_checkpoints_run in Hck as ->.
    subst s2. by split_and!.
  - tx_pure Hck. tx_pure Hev. subst s2. by split_and!.
Qed.

Lemma failure_report_outcome_witness : exists s',
  failWithWebhookEvent (demo_env 105 "x") (demo_fence 1 "a") "provider timeout" no_event
    false None claimed_db = Ok (false, s') /\
  exists r r' a, jobs claimed_db !! 1 = Some r /\
    false = false || (k_max_attempts (j_key r) <=? j_attempt_count r) /\
    failed_row 105 false None "transcription provider request failed" r r' /\
    jobs s' = <[1 := r']> (jobs claimed_db) /\
    attempts claimed_db !! (1, 1) = Some a /\
    attempts s' = <[(1, 1) := finish_row AttemptRetryableFailed
        (Some "transcription provider request failed"%string) None 105 a]> (attempts claimed_db) /\
    checkpoints s' = checkpoints claimed_db /\
    (false = false -> outbox s' = outbox claimed_db /\ deliveries s' = deliveries claimed_db).
Proof.
  eexists. split; [vm_compute; reflexivity|].
  apply (failure_report_outcome (demo_env 105 "x") (demo_fence 1 "a") "provider timeout" no_event
    false None claimed_db). vm_compute. reflexivity.
Defined.

(** Creating a job returns a pending or running job of the image that serves
    the request: the requested context, the context snapshot of the current rows,
    the current revision of the canonical page; an older active job is reused only
    when it matches all three. *)
Theorem create_serves_request e maxActive img cid s id s' :
  0 < cid <= MaxInt64 -> Create e maxActive img cid s = Ok (id, s') ->
  exists r it snap, jobs s' !! id = Some r /\ active_image r = Some img /\
    image_item s img = Some it /\
    lockContextSnapshotForWorkspace cid (it_workspace_id it) img s = Ok ((cid, snap), s) /\
    k_context_id (j_key r) = Some cid /\ k_context_snapshot (j_key r) = snap /\
    pages (par s) !! (it_workspace_id it, img) = Some (k_input_revision (j_key r)).
Proof.
  intros Hcid H. unfold Create in H. destruct (img =? 0); [done|]. destruct (cid =? 0); [done|].
  tx_bind H as ws s1 Hl. apply (admission_R retains) in Hl as ([Hpar Hsub] & it & Hit & <-);
    [|apply retain_one_retains].
  tx_bind H as [cid' snap] s2 Hc. pose proof (snapshot_run _ _ _ _ _ _ Hc) as [-> Hcid'].
  cbn in Hcid'. subst cid'. cbn beta iota zeta in H. rewrite nullableUint64_pos in H by done.
  apply createLocked_spec in H as ((r & Hr & Ha & Hk & Hs & it' & Hit' & Hp) & _); [|lia].
  exists r, it, snap. unfold image_item in Hit'. rewrite Hpar in Hit', Hp.
  fold (image_item s img) in Hit'. assert (it' = it) as -> by congruence.
  split_and!; try done. by eapply snapshot_par.
Qed.

Lemma create_serves_request_witness : exists s',
  Create (demo_env 100 "c") 10 7 3 demo_db = Ok (1, s') /\
  exists r it snap, jobs s' !! 1 = Some r /\ active_image r = Some 7 /\
    image_item demo_db 7 = Some it /\
    lockContextSnapshotForWorkspace 3 (it_workspace_id it) 7 demo_db = Ok ((3, snap), demo_db) /\
    k_context_id (j_key r) = Some 3 /\ k_context_snapshot (j_key r) = snap /\
    pages (par demo_db) !! (it_workspace_id it, 7) = Some (k_input_revision (j_key r)).
Proof.
  eexists. split; [vm_compute; reflexivity|].
  apply (create_serves_request (demo_env 100 "c") 10 7 3 demo_db 1); [by split|].
  vm_compute. reflexivity.
Defined.

(** C31: admission bounds a workspace's queue: a creation for an image without an
    active job leaves at most [maxActive] active jobs in the workspace, and no
    creation leaves more than the retained terminal history: before the job is
    inserted, at most 99 terminal jobs remain. *)
Theorem admission_bounds_queue e maxActive img cid s id s' :
  0 < cid <= MaxInt64 -> Create e maxActive img cid s = Ok (id, s') ->
  active_job_of (jobs s) img = None ->
  exists it s1, image_item s img = Some it /\
    lockTranscriptionAdmissionWorkspace img s = Ok (it_workspace_id it, s1) /\
    terminal_count (it_workspace_id it) s1 <= 99 /\
    Z.of_nat (length (active_of (it_workspace_id it) (jobs s'))) <= maxActive.
Proof.
  intros Hcid H Hact. unfold Create in H. destruct (img =? 0); [done|]. destruct (cid =? 0); [done|].
  tx_bind H as ws s1 Hl. pose proof Hl as Hl'.
  apply (admission_R retains) in Hl' as ([Hpar Hsub] & it & Hit & <-); [|apply retain_one_retains].
  exists it, s1. split_and!; [done|done|by eapply admission_count|].
  tx_bind H as [cid' snap] s2 Hc. apply snapshot_run in Hc as [-> Hcid'].
  cbn in Hcid'. subst cid'. cbn beta iota zeta in H. rewrite nullableUint64_pos in H by done.
  apply createLocked_spec in H as (_ & Hq); [|lia]. apply Hq. by eapply active_job_of_subseteq.
Qed.

Lemma admission_bounds_queue_witness : exists s',
  Create (demo_env 100 "c") 1 7 3 demo_db = Ok (1, s') /\
  exists it s1, image_item demo_db 7 = Some it /\
    lockTranscriptionAdmissionWorkspace 7 demo_db = Ok (it_workspace_id it, s1) /\
    terminal_count (it_workspace_id it) s1 <= 99 /\
    Z.of_nat (length (active_of (it_workspace_id it) (jobs s'))) <= 1.
Proof.
  eexists. split; [vm_compute; reflexivity|].
  apply (admission_bounds_queue (demo_env 100 "c") 1 7 3 demo_db 1); [by split| |].
  - vm_compute. reflexivity.
  - vm_compute. reflexivity.
Defined.

(** C38: no job is stuck: whatever was run before, an active job has a time from
    which every claim of it by id, when no other transaction holds its row,
    succeeds: it returns the job under a new lease, or, when the last attempt's
    lease expired, leaves the job failed. *)
Theorem active_jobs_can_be_claimed l s0 id r :
  empty_queue s0 -> Forall (fun eo => uuid_ok eo.1) l ->
  jobs (run_ops l s0) !! id = Some r -> is_active (j_status r) = true ->
  exists t0, forall e, t0 <= db_now e -> uuid_ok e -> id ∉ locked_rows e ->
    token_free (attempts (run_ops l s0)) (worker_token e) = true ->
    exists o s', claim e (ByID id) (run_ops l s0) = Ok (o, s') /\
      ((exists j, o = Some j /\ ID j = id) \/
       (o = None /\ exists r', jobs s' !! id = Some r' /\ j_status r' = Failed)).
Proof.
  intros Hs0 Hl Hr Hact. pose proof (empty_queue_inv s0 Hs0) as I0.
  pose proof (run_ops_refines l s0 Hl I0) as Hsteps.
  assert (I : queue_inv (run_ops l s0)) by by eapply qsteps_inv.
  assert (Ht : tokens_ok (run_ops l s0)).
  { eapply tokens_ok_steps; [|exact Hsteps]. intros k a Ha. destruct Hs0 as (_ & Hat & _).
    by rewrite Hat in Ha. }
  destruct (eventually_claimable _ _ _ I Hr Hact) as [t0 Hc]. exists t0.
  intros e Hnow Hu Hfree Htok. eapply claim_forward; eauto.
Qed.

Lemma active_jobs_can_be_claimed_witness :
  exists r, jobs claimed_db !! 1 = Some r /\ is_active (j_status r) = true /\
  exists t0, forall e, t0 <= db_now e -> uuid_ok e -> 1 ∉ locked_rows e ->
    token_free (attempts claimed_db) (worker_token e) = true ->
    exists o s', claim e (ByID 1) claimed_db = Ok (o, s') /\
      ((exists j, o = Some j /\ ID j = 1) \/
       (o = None /\ exists r', jobs s' !! 1 = Some r' /\ j_status r' = Failed)).
Proof.
  eexists. split; [vm_compute; reflexivity|]. split; [reflexivity|].
  eapply (active_jobs_can_be_claimed create_then_claim demo_db).
  - apply demo_empty.
  - apply create_then_claim_uuids.
  - vm_compute. reflexivity.
  - reflexivity.
Defined.

(** The message recorded for a failed job is one of nine fixed categories,
    whatever the error text: nothing of a provider's answer is stored. *)
Theorem failure_message_is_a_category m : safeTranscriptionErrorMessage m ∈ safe_categories.
Proof. apply safe_message_category. Qed.

(** A lease holder that sets the total the row already has, within the second
    of the row's last update, is told that it lost its lease: the UPDATE changes
    no row, and the affected-row count cannot tell this from a lost lease.  A
    worker whose page has no segments does this right after its claim. *)
Theorem unchanged_total_reports_lost_lease e f total r s :
  holds_lease s f (db_now e) = true -> queue_inv s -> jobs s !! JobID f = Some r ->
  j_total_segments r = total -> j_updated_at r = db_now e -> total <= MaxInt32 ->
  SetTotalSegments e f total s = Err EFence.
Proof.
  intros Hl I Hr Ht Hu. pose proof (holds_lease_number s f (db_now e) I Hl) as Hn.
  unfold holds_lease in Hl. rewrite Hr in Hl.
  destruct (inv_checks s I _ _ Hr) as [Hck _].
  assert (Hrun : j_status r = Running) by by eapply lease_held_running.
  intros Hmax. unfold SetTotalSegments. rewrite Hn. cbv [mbind tx_bind tx_lift].
  assert (Hi : int32FromInt total = Ok total).
  { unfold int32FromInt. unfold job_checks in Hck. split_bools.
    by replace ((total <? MinInt32) || (MaxInt32 <? total)) with false by (unfold MinInt32; lia). }
  rewrite Hi. unfold SetTranscriptionJobTotalSegmentsManual.
  match goal with |- requireFenceAffected (update_job _ _ ?set) _ = _ => assert (Hset : set r = r) end.
  { rewrite <-Ht, <-Hu. by destruct r. }
  unfold requireFenceAffected, requireOneAffected, update_job. cbv [mbind tx_bind].
  rewrite Hr, Hl, Hset, Hck, (active_unique_same s _ r r I Hr), bool_decide_eq_true_2 by (done || by rewrite Hrun).
  done.
Qed.

Lemma unchanged_total_reports_lost_lease_witness :
  SetTotalSegments (demo_env 101 "x") (demo_fence 1 "a") 0 claimed_db = Err EFence.
Proof.
  eapply (unchanged_total_reports_lost_lease _ (demo_fence 1 "a")).
  - vm_compute. reflexivity.
  - apply claimed_db_inv.
  - vm_compute. reflexivity.
  - reflexivity.
  - reflexivity.
  - vm_compute. congruence.
Defined.

End JobTheorems.
