(* ===== verification/WorkLimit.v ===== *)
(** * [internal/worklimit]: bounded work

    [HierarchicalLimiter] (hierarchical.go) with its critical sections as
    functions, and the goroutines that call it as a transition system: a waiter
    keeps the [changed] channel it read, and [release] closes the current one.
    Then the slot limiter of http.go. *)

From Stdlib Require Import ZArith Lia Ascii String.
From stdpp Require Import base gmap strings list.
From S2P Require Import Prelude GoStrings.

Module WorkLimit.
Import GoStr.

(** ** The limiter *)

Record HierarchicalLimiter := {
  globalLimit : Z; workspaceLimit : Z; providerLimit : Z;
  active : Z;
  activeByWorkspace : gmap Z Z;
  activeByProvider : gmap string Z;
  changed : nat;   (* the current channel; the earlier ones are closed *)
}.

Inductive limit_err := ENotPositive | EWorkspaceOverGlobal | EProviderOverGlobal | EWorkspaceRequired
| ECanceled.

Definition NewHierarchical (globalLimit workspaceLimit providerLimit : Z)
    : result limit_err HierarchicalLimiter :=
  if (globalLimit <? 1) || (workspaceLimit <? 1) || (providerLimit <? 1) then Err ENotPositive else
  if globalLimit <? workspaceLimit then Err EWorkspaceOverGlobal else
  if globalLimit <? providerLimit then Err EProviderOverGlobal else
  Ok {| globalLimit := globalLimit; workspaceLimit := workspaceLimit;
        providerLimit := providerLimit; active := 0; activeByWorkspace := ∅;
        activeByProvider := ∅; changed := 0 |}.

(** A Go map read: a missing key is zero. *)
Definition at_key {K} `{Countable K} (m : gmap K Z) (k : K) : Z := default 0 (m !! k).

Definition set_counts (l : HierarchicalLimiter) (n : Z) (w : gmap Z Z) (p : gmap string Z) (c : nat)
    : HierarchicalLimiter :=
  {| globalLimit := globalLimit l; workspaceLimit := workspaceLimit l;
     providerLimit := providerLimit l; active := n; activeByWorkspace := w;
     activeByProvider := p; changed := c |}.

(** The provider a request counts against. *)
Definition provider_key (provider : string) : string :=
  let p := TrimSpace provider in if bool_decide (p = ""%string) then "unknown"%string else p.

(** The checks of [Acquire] before its loop. *)
Definition acquire_args (workspaceID : Z) (provider : string) : result limit_err (Z * string) :=
  if workspaceID =? 0 then Err EWorkspaceRequired else Ok (workspaceID, provider_key provider).

(** The critical section of [Acquire]: [None] when a quota is exhausted. *)
Definition has_room (l : HierarchicalLimiter) (ws : Z) (p : string) : bool :=
  (active l <? globalLimit l) && (at_key (activeByWorkspace l) ws <? workspaceLimit l)
  && (at_key (activeByProvider l) p <? providerLimit l).

Definition try_acquire (l : HierarchicalLimiter) (ws : Z) (p : string) : option HierarchicalLimiter :=
  if has_room l ws p then
    Some (set_counts l (active l + 1)
            (<[ws := at_key (activeByWorkspace l) ws + 1]> (activeByWorkspace l))
            (<[p := at_key (activeByProvider l) p + 1]> (activeByProvider l)) (changed l))
  else None.

(** A decremented count; a zero entry is deleted. *)
Definition decr {K} `{Countable K} (m : gmap K Z) (k : K) : gmap K Z :=
  let n := at_key m k - 1 in if n =? 0 then delete k m else <[k := n]> m.

Definition release (l : HierarchicalLimiter) (ws : Z) (p : string) : HierarchicalLimiter :=
  if (active l <=? 0) || (at_key (activeByWorkspace l) ws <=? 0) || (at_key (activeByProvider l) p <=? 0)
  then l
  else set_counts l (active l - 1) (decr (activeByWorkspace l) ws) (decr (activeByProvider l) p)
         (S (changed l)).

(** ** Callers *)

(** Where a caller of [Acquire] is: about to take the lock, blocked in the
    [select] on the channel it read, working, or gone.  [Done] keeps the key its
    release function was made for. *)
Inductive phase :=
| Trying (ws : Z) (p : string)
| Waiting (ws : Z) (p : string) (ch : nat)
| Holding (ws : Z) (p : string)
| Done (ws : Z) (p : string)
| Canceled.
#[export] Instance phase_eq_dec : EqDecision phase.
Proof. solve_decision. Defined.

Record world := { lim : HierarchicalLimiter; callers : gmap Z phase }.

(** One step of caller [id]. *)
Inductive event :=
| Enter (ws : Z) (provider : string)  (* a call of Acquire *)
| Lock                                (* one turn of its loop *)
| Wake                                (* the channel it waits on is closed *)
| Cancel                              (* its context is done *)
| Release.                            (* its release function is called *)

Definition step (w : world) (id : Z) (e : event) : option world :=
  let upd l ph := Some {| lim := l; callers := <[id := ph]> (callers w) |} in
  match e, callers w !! id with
  | Enter ws provider, None =>
      match acquire_args ws provider with
      | Ok (ws, p) => upd (lim w) (Trying ws p)
      | Err _ => None
      end
  | Lock, Some (Trying ws p) =>
      match try_acquire (lim w) ws p with
      | Some l => upd l (Holding ws p)
      | None => upd (lim w) (Waiting ws p (changed (lim w)))
      end
  | Wake, Some (Waiting ws p ch) =>
      if (ch <? changed (lim w))%nat then upd (lim w) (Trying ws p) else None
  | Cancel, Some (Waiting _ _ _) => upd (lim w) Canceled
  | Release, Some (Holding ws p) => upd (release (lim w) ws p) (Done ws p)
  | Release, Some (Done ws p) => Some w    (* sync.Once *)
  | _, _ => None
  end.

Inductive reachable (l0 : HierarchicalLimiter) : world -> Prop :=
| reach_start : reachable l0 {| lim := l0; callers := ∅ |}
| reach_step w w' id e : reachable l0 w -> step w id e = Some w' -> reachable l0 w'.

(** ** Counting callers *)

Definition count (P : phase -> bool) (m : gmap Z phase) : Z :=
  Z.of_nat (size (filter (fun kv : Z * phase => P kv.2 = true) m)).

Definition b2z (b : bool) : Z := if b then 1 else 0.

Lemma count_nonneg P m : 0 <= count P m.
Proof. unfold count. lia. Qed.

Lemma count_delete P m id ph :
  m !! id = Some ph -> count P (delete id m) = count P m - b2z (P ph).
Proof.
  intros Hm. unfold count. rewrite map_filter_delete, map_size_delete.
  destruct (P ph) eqn:HP; cbn [b2z].
  - assert (Hin : filter (fun kv : Z * phase => P kv.2 = true) m !! id = Some ph)
      by by apply map_lookup_filter_Some.
    rewrite Hin. assert (size (filter (fun kv : Z * phase => P kv.2 = true) m) <> 0%nat).
    { intros E%map_size_empty_inv. rewrite E in Hin. by rewrite lookup_empty in Hin. }
    lia.
  - assert (Hin : filter (fun kv : Z * phase => P kv.2 = true) m !! id = None).
    { apply map_lookup_filter_None. right. intros x Hx. assert (x = ph) as -> by congruence.
      cbn. congruence. }
    rewrite Hin. unfold Datatypes.id. lia.
Qed.

Lemma count_insert_new P m id ph :
  m !! id = None -> count P (<[id := ph]> m) = count P m + b2z (P ph).
Proof.
  intros Hm. pose proof (count_delete P (<[id := ph]> m) id ph (lookup_insert_eq _ _ _)) as H.
  rewrite delete_insert_id in H by done. lia.
Qed.

Lemma count_insert P m id old ph :
  m !! id = Some old -> count P (<[id := ph]> m) = count P m - b2z (P old) + b2z (P ph).
Proof.
  intros Hm. rewrite <-insert_delete_eq, count_insert_new by apply lookup_delete_eq.
  by rewrite (count_delete P m id old).
Qed.

Definition holds (ph : phase) : bool := match ph with Holding _ _ => true | _ => false end.
Definition holds_ws (ws : Z) (ph : phase) : bool :=
  match ph with Holding ws' _ => ws' =? ws | _ => false end.
Definition holds_provider (p : string) (ph : phase) : bool :=
  match ph with Holding _ p' => bool_decide (p' = p) | _ => false end.

Lemma count_le P Q m : (forall ph, P ph = true -> Q ph = true) -> count P m <= count Q m.
Proof.
  intros HPQ. unfold count. apply Nat2Z.inj_le, map_subseteq_size, map_filter_subseteq_ext.
  intros i x _. apply HPQ.
Qed.

Lemma count_pos P m : 0 < count P m -> exists id ph, m !! id = Some ph /\ P ph = true.
Proof.
  unfold count. intros H.
  destruct (map_choose (filter (fun kv : Z * phase => P kv.2 = true) m)) as (id & ph & Hin).
  { intros E. rewrite E, map_size_empty in H. lia. }
  apply map_lookup_filter_Some in Hin. eauto.
Qed.

(** ** The invariant *)

Record limiter_inv (w : world) : Prop := {
  li_active : active (lim w) = count holds (callers w);
  li_ws : forall ws, at_key (activeByWorkspace (lim w)) ws = count (holds_ws ws) (callers w);
  li_provider : forall p, at_key (activeByProvider (lim w)) p = count (holds_provider p) (callers w);
  li_global : active (lim w) <= globalLimit (lim w);
  li_ws_limit : forall ws, at_key (activeByWorkspace (lim w)) ws <= workspaceLimit (lim w);
  li_provider_limit : forall p, at_key (activeByProvider (lim w)) p <= providerLimit (lim w);
  (** the maps keep positive counts only *)
  li_ws_pos : forall ws n, activeByWorkspace (lim w) !! ws = Some n -> 0 < n;
  li_provider_pos : forall p n, activeByProvider (lim w) !! p = Some n -> 0 < n;
  (** no lost wake-up: a waiter whose channel is open waits for a quota that is
      exhausted now *)
  li_waiting : forall id ws p ch, callers w !! id = Some (Waiting ws p ch) ->
    (ch <= changed (lim w))%nat /\ (ch = changed (lim w) -> has_room (lim w) ws p = false);
}.

Lemma at_key_insert {K} `{Countable K} (m : gmap K Z) k v k' :
  at_key (<[k := v]> m) k' = if decide (k = k') then v else at_key m k'.
Proof. unfold at_key. rewrite lookup_insert. by case_decide. Qed.

Lemma at_key_decr {K} `{Countable K} (m : gmap K Z) k k' :
  at_key (decr m k) k' = if decide (k = k') then at_key m k - 1 else at_key m k'.
Proof.
  unfold decr. destruct (at_key m k - 1 =? 0) eqn:E; split_bools.
  - unfold at_key at 1. rewrite lookup_delete. case_decide; [|done]. subst. cbn. lia.
  - apply at_key_insert.
Qed.

Lemma insert_pos {K} `{Countable K} (m : gmap K Z) k v :
  (forall k n, m !! k = Some n -> 0 < n) -> 0 < v ->
  forall k' n, <[k := v]> m !! k' = Some n -> 0 < n.
Proof. intros Hm Hv k' n. rewrite lookup_insert_Some. intros [[_ <-]|[_ Hk]]; [done|by eapply Hm]. Qed.

Lemma decr_pos {K} `{Countable K} (m : gmap K Z) k :
  (forall k n, m !! k = Some n -> 0 < n) -> 0 < at_key m k ->
  forall k' n, decr m k !! k' = Some n -> 0 < n.
Proof.
  intros Hm Hk. unfold decr. destruct (_ =? 0) eqn:E; split_bools.
  - intros k' n [_ Hn]%lookup_delete_Some. by eapply Hm.
  - apply insert_pos; [done|lia].
Qed.

Lemma holds_ws_same ws p : holds_ws ws (Holding ws p) = true.
Proof. cbn. lia. Qed.
Lemma holds_provider_same ws p : holds_provider p (Holding ws p) = true.
Proof. cbn. by rewrite bool_decide_eq_true_2. Qed.

(** Moves of a caller that neither take nor give back a slot. *)
Lemma idle_inv w id old ph :
  limiter_inv w -> callers w !! id = Some old -> holds old = false -> holds ph = false ->
  (forall ws p ch, ph = Waiting ws p ch -> ch = changed (lim w) /\ has_room (lim w) ws p = false) ->
  limiter_inv {| lim := lim w; callers := <[id := ph]> (callers w) |}.
Proof.
  intros I Hid Hold Hph Hwait.
  assert (Hcnt : forall P, P old = false -> P ph = false ->
    count P (<[id := ph]> (callers w)) = count P (callers w)).
  { intros P E1 E2. rewrite (count_insert P _ _ old) by done. rewrite E1, E2. cbn. lia. }
  constructor; cbn.
  - rewrite Hcnt by done. apply I.
  - intros ws. rewrite Hcnt; [apply I|by destruct old|by destruct ph].
  - intros p. rewrite Hcnt; [apply I|by destruct old|by destruct ph].
  - apply I.
  - apply I.
  - apply I.
  - apply I.
  - apply I.
  - intros id' ws p ch. rewrite lookup_insert_Some. intros [[_ ->]|[_ H]].
    + destruct (Hwait ws p ch eq_refl) as [-> ?]. by split.
    + by apply (li_waiting w I) in H.
Qed.

Lemma enter_inv w id ph :
  limiter_inv w -> callers w !! id = None -> (exists ws p, ph = Trying ws p) ->
  limiter_inv {| lim := lim w; callers := <[id := ph]> (callers w) |}.
Proof.
  intros I Hid (ws0 & p0 & ->). constructor; cbn.
  1-3: intros; rewrite count_insert_new by done; cbn; rewrite Z.add_0_r; apply I.
  1-5: apply I.
  intros id' ws p ch. rewrite lookup_insert_Some. intros [[_ ?]|[_ H]]; [done|].
  by apply (li_waiting w I) in H.
Qed.

Lemma acquire_inv w id ws p l :
  limiter_inv w -> callers w !! id = Some (Trying ws p) -> try_acquire (lim w) ws p = Some l ->
  limiter_inv {| lim := l; callers := <[id := Holding ws p]> (callers w) |}.
Proof.
  intros I Hid H. unfold try_acquire in H. destruct (has_room (lim w) ws p) eqn:Hroom; [|done].
  injection H as <-. unfold has_room in Hroom. split_bools.
  assert (Hcnt : forall P, P (Trying ws p) = false ->
    count P (<[id := Holding ws p]> (callers w)) = count P (callers w) + b2z (P (Holding ws p))).
  { intros P E. rewrite (count_insert P _ _ (Trying ws p)) by done. rewrite E. cbn [b2z]. lia. }
  constructor; cbn -[holds_ws holds_provider at_key].
  - rewrite Hcnt by done. cbn. rewrite (li_active w I). lia.
  - intros ws'. rewrite at_key_insert, Hcnt by done. rewrite <-(li_ws w I ws').
    case_decide; subst; [by rewrite holds_ws_same|].
    cbn. replace (ws =? ws') with false by lia. cbn. lia.
  - intros p'. rewrite at_key_insert, Hcnt by done. rewrite <-(li_provider w I p').
    case_decide; subst; [by rewrite holds_provider_same|].
    cbn. rewrite bool_decide_eq_false_2 by done. cbn. lia.
  - lia.
  - intros ws'. rewrite at_key_insert. case_decide; [lia|apply I].
  - intros p'. rewrite at_key_insert. case_decide; [lia|apply I].
  - apply insert_pos; [apply I|]. rewrite (li_ws w I). pose proof (count_nonneg (holds_ws ws) (callers w)). lia.
  - apply insert_pos; [apply I|]. rewrite (li_provider w I).
    pose proof (count_nonneg (holds_provider p) (callers w)). lia.
  - intros id' ws' p' ch. rewrite lookup_insert_Some. intros [[_ ?]|[_ Hw]]; [done|].
    apply (li_waiting w I) in Hw as [? Hw]. split; [done|]. intros E. specialize (Hw E).
    unfold has_room in *. cbn -[at_key]. rewrite !at_key_insert.
    apply not_true_iff_false. intros Hr. apply not_true_iff_false in Hw. apply Hw.
    split_bools. rewrite !andb_true_iff.
    repeat case_decide; subst; repeat split; lia.
Qed.

Lemma release_inv w id ws p :
  limiter_inv w -> callers w !! id = Some (Holding ws p) ->
  release (lim w) ws p = set_counts (lim w) (active (lim w) - 1)
    (decr (activeByWorkspace (lim w)) ws) (decr (activeByProvider (lim w)) p) (S (changed (lim w)))
  /\ limiter_inv {| lim := release (lim w) ws p; callers := <[id := Done ws p]> (callers w) |}.
Proof.
  intros I Hid.
  assert (Hcnt : forall P, P (Done ws p) = false ->
    count P (<[id := Done ws p]> (callers w)) = count P (callers w) - b2z (P (Holding ws p))).
  { intros P E. rewrite (count_insert P _ _ (Holding ws p)) by done. rewrite E. cbn [b2z]. lia. }
  assert (Hpos : forall P, P (Holding ws p) = true -> 0 < count P (callers w)).
  { intros P E. pose proof (count_delete P (callers w) id _ Hid) as Hd. rewrite E in Hd. cbn in Hd.
    pose proof (count_nonneg P (delete id (callers w))). lia. }
  pose proof (Hpos holds eq_refl) as H1. rewrite <-(li_active w I) in H1.
  pose proof (Hpos (holds_ws ws) (holds_ws_same ws p)) as H2. rewrite <-(li_ws w I) in H2.
  pose proof (Hpos (holds_provider p) (holds_provider_same ws p)) as H3. rewrite <-(li_provider w I) in H3.
  assert (Hrel : release (lim w) ws p = set_counts (lim w) (active (lim w) - 1)
    (decr (activeByWorkspace (lim w)) ws) (decr (activeByProvider (lim w)) p) (S (changed (lim w)))).
  { unfold release. by replace ((active (lim w) <=? 0) || _ || _) with false by lia. }
  split; [done|]. rewrite Hrel. constructor; cbn -[holds_ws holds_provider at_key].
  - rewrite Hcnt by done. cbn. rewrite (li_active w I). lia.
  - intros ws'. rewrite at_key_decr, Hcnt by done. rewrite <-(li_ws w I ws').
    case_decide; subst; [rewrite holds_ws_same; done|].
    cbn. replace (ws =? ws') with false by lia. cbn. lia.
  - intros p'. rewrite at_key_decr, Hcnt by done. rewrite <-(li_provider w I p').
    case_decide; subst; [rewrite holds_provider_same; done|].
    cbn. rewrite bool_decide_eq_false_2 by done. cbn. lia.
  - pose proof (li_global w I). lia.
  - intros ws'. rewrite at_key_decr. pose proof (li_ws_limit w I ws').
    case_decide; subst; lia.
  - intros p'. rewrite at_key_decr. pose proof (li_provider_limit w I p').
    case_decide; subst; lia.
  - apply decr_pos; [apply I|done].
  - apply decr_pos; [apply I|done].
  - intros id' ws' p' ch. rewrite lookup_insert_Some. intros [[_ ?]|[_ Hw]]; [done|].
    apply (li_waiting w I) in Hw as [? _]. split; [lia|]. intros ->. lia.
Qed.

Lemma step_inv w id e w' : limiter_inv w -> step w id e = Some w' -> limiter_inv w'.
Proof.
  intros I H. unfold step in H.
  destruct e as [ws provider| | | |]; destruct (callers w !! id) as [[ws0 p0|ws0 p0 ch|ws0 p0|ws0 p0|]|] eqn:Hid;
    try done.
  - destruct (acquire_args ws provider) as [[ws1 p1]|]; [|done]. injection H as <-.
    apply enter_inv; eauto.
  - destruct (try_acquire (lim w) ws0 p0) as [l|] eqn:Ha; injection H as <-.
    + by apply acquire_inv.
    + eapply idle_inv; eauto. intros ? ? ? [= -> -> <-]. split; [done|].
      unfold try_acquire in Ha. by destruct (has_room _ _ _).
  - destruct (ch <? changed (lim w))%nat; [|done]. injection H as <-. by eapply idle_inv.
  - injection H as <-. by eapply idle_inv.
  - injection H as <-. by apply release_inv.
  - by injection H as <-.
Qed.

Lemma start_inv g ws p l :
  NewHierarchical g ws p = Ok l -> limiter_inv {| lim := l; callers := ∅ |}.
Proof.
  unfold NewHierarchical. destruct (_ || _ || _) eqn:E; [done|].
  destruct (g <? ws); [done|]. destruct (g <? p); [done|]. intros [= <-]. split_bools.
  constructor; cbn; try done; try lia; unfold at_key; intros; rewrite ?lookup_empty; cbn; lia.
Qed.

Lemma reachable_inv g ws p l w : NewHierarchical g ws p = Ok l -> reachable l w -> limiter_inv w.
Proof. intros H Hr. induction Hr; [by eapply start_inv|by eapply step_inv]. Qed.

(** The limits themselves never change. *)
Lemma reachable_limits l w : reachable l w ->
  globalLimit (lim w) = globalLimit l /\ workspaceLimit (lim w) = workspaceLimit l
  /\ providerLimit (lim w) = providerLimit l.
Proof.
  induction 1 as [|w w' id e Hr IH H]; [done|]. rewrite <-(proj1 IH), <-(proj1 (proj2 IH)), <-(proj2 (proj2 IH)).
  clear IH. unfold step in H. destruct e, (callers w !! id) as [[]|]; try done.
  - destruct (acquire_args _ _) as [[]|]; [|done]. by injection H as <-.
  - unfold try_acquire in H. destruct (has_room _ _ _); by injection H as <-.
  - destruct (_ <? _)%nat; [|done]. by injection H as <-.
  - by injection H as <-.
  - injection H as <-. cbn. unfold release. by destruct (_ || _ || _).
  - by injection H as <-.
Qed.

Lemma NewHierarchical_positive g wl pl l :
  NewHierarchical g wl pl = Ok l ->
  0 < globalLimit l /\ 0 < workspaceLimit l /\ 0 < providerLimit l.
Proof.
  unfold NewHierarchical. destruct (_ || _ || _) eqn:E; [done|].
  destruct (g <? wl); [done|]. destruct (g <? pl); [done|]. intros [= <-]. split_bools. cbn. lia.
Qed.

Lemma holder_exists w :
  limiter_inv w -> 0 < count holds (callers w) ->
  exists id ws p, callers w !! id = Some (Holding ws p).
Proof. intros I (id & [] & Hid & H)%count_pos; try done. eauto. Qed.

(** ** http.go *)

(** [FromEnvironment]: the capacity of the slot channel; [getenv] is the value of
    the variable. *)
Definition FromEnvironment (getenv : string) (fallback maximum : Z) : Z :=
  let fallback := if fallback <? 1 then 1 else fallback in
  let maximum := if maximum <? fallback then fallback else maximum in
  let raw := TrimSpace getenv in
  if bool_decide (raw = ""%string) then fallback else
  match Atoi raw with
  | None => fallback
  | Some parsed => if parsed <? 1 then fallback else if maximum <? parsed then maximum else parsed
  end.

(** ** Theorems *)

Definition demo_limiter : HierarchicalLimiter :=
  {| globalLimit := 2; workspaceLimit := 1; providerLimit := 2; active := 0;
     activeByWorkspace := ∅; activeByProvider := ∅; changed := 0 |}.

Definition run_steps (l : list (Z * event)) (w : world) : option world :=
  foldl (fun w ie => w ← w; step w ie.1 ie.2) (Some w) l.

Lemma run_steps_reachable l0 l w w' :
  reachable l0 w -> run_steps l w = Some w' -> reachable l0 w'.
Proof.
  unfold run_steps. revert w. induction l as [|[id e] l IH]; intros w Hr H; cbn in H.
  - by injection H as <-.
  - destruct (step w id e) as [w1|] eqn:Hs.
    + eapply IH; [|exact H]. by eapply reach_step.
    + exfalso. clear -H. induction l as [|x l IH]; cbn in H; [done|auto].
Qed.

(** A workspace at its limit: the second request of workspace 1 waits. *)
Definition demo_waiting : list (Z * event) :=
  [(10, Enter 1 "openai"); (10, Lock); (11, Enter 1 " openai "); (11, Lock)].

(** C33: in every interleaving of callers, the work running at once respects all
    three limits, and the limiter's counters are exactly the callers that hold a
    slot, in total, per workspace and per provider. *)
Theorem limits_are_respected g wl pl l w :
  NewHierarchical g wl pl = Ok l -> reachable l w ->
  count holds (callers w) <= g /\
  (forall ws, count (holds_ws ws) (callers w) <= wl) /\
  (forall p, count (holds_provider p) (callers w) <= pl) /\
  active (lim w) = count holds (callers w) /\
  (forall ws, at_key (activeByWorkspace (lim w)) ws = count (holds_ws ws) (callers w)) /\
  (forall p, at_key (activeByProvider (lim w)) p = count (holds_provider p) (callers w)).
Proof.
  intros Hn Hr. pose proof (reachable_inv _ _ _ _ _ Hn Hr) as I.
  pose proof (reachable_limits _ _ Hr) as (Hg & Hw & Hp).
  assert (globalLimit l = g /\ workspaceLimit l = wl /\ providerLimit l = pl) as (E1 & E2 & E3).
  { unfold NewHierarchical in Hn. repeat case_match; by simplify_eq. }
  rewrite <-E1, <-E2, <-E3, <-Hg, <-Hw, <-Hp.
  split_and!; intros; rewrite <-?(li_active w I), <-?(li_ws w I), <-?(li_provider w I);
    first [apply I|done].
Qed.

Lemma limits_are_respected_witness : exists w,
  run_steps demo_waiting {| lim := demo_limiter; callers := ∅ |} = Some w /\
  count holds (callers w) = 1 /\ count holds (callers w) <= 2 /\
  (forall ws, count (holds_ws ws) (callers w) <= 1) /\
  (forall p, count (holds_provider p) (callers w) <= 2) /\
  active (lim w) = count holds (callers w) /\
  (forall ws, at_key (activeByWorkspace (lim w)) ws = count (holds_ws ws) (callers w)) /\
  (forall p, at_key (activeByProvider (lim w)) p = count (holds_provider p) (callers w)).
Proof.
  eexists. split; [vm_compute; reflexivity|]. split; [reflexivity|].
  apply (limits_are_respected 2 1 2 demo_limiter); [reflexivity|].
  eapply run_steps_reachable; [apply reach_start|].
  instantiate (1 := demo_waiting). vm_compute. reflexivity.
Defined.

(** No wake-up is lost and no waiter is stuck: a waiting caller can either
    take the lock again, because the channel it waits on has been closed, or one
    of its quotas is exhausted at this moment and some caller holds a slot whose
    release will close that channel. *)
Theorem waiting_callers_are_not_stuck g wl pl l w id ws p ch :
  NewHierarchical g wl pl = Ok l -> reachable l w -> callers w !! id = Some (Waiting ws p ch) ->
  (exists w', step w id Wake = Some w' /\ callers w' !! id = Some (Trying ws p)) \/
  (has_room (lim w) ws p = false /\
   exists id' ws' p', callers w !! id' = Some (Holding ws' p') /\
     forall w', step w id' Release = Some w' -> exists w'', step w' id Wake = Some w'').
Proof.
  intros Hn Hr Hid. pose proof (reachable_inv _ _ _ _ _ Hn Hr) as I.
  pose proof (reachable_limits _ _ Hr) as (Hg & Hw & Hp).
  destruct (li_waiting w I _ _ _ _ Hid) as [Hle Hfull].
  destruct (decide (ch = changed (lim w))) as [->|Hne].
  - right. specialize (Hfull eq_refl). split; [done|].
    destruct (holder_exists w I) as (id' & ws' & p' & Hh).
    { unfold has_room in Hfull. apply NewHierarchical_positive in Hn as (? & ? & ?).
      apply andb_false_iff in Hfull as [Hfull|Hfull]; [apply andb_false_iff in Hfull as [Hfull|Hfull]|];
        split_bools.
      - rewrite <-(li_active w I). lia.
      - pose proof (count_le (holds_ws ws) holds (callers w)) as Hc.
        rewrite <-(li_ws w I) in Hc. specialize (Hc ltac:(by intros []) ). lia.
      - pose proof (count_le (holds_provider p) holds (callers w)) as Hc.
        rewrite <-(li_provider w I) in Hc. specialize (Hc ltac:(by intros [])). lia. }
    exists id', ws', p'. split; [done|]. intros w' Hs. unfold step in Hs. rewrite Hh in Hs.
    injection Hs as <-. destruct (release_inv w id' ws' p' I Hh) as [-> _].
    unfold step. cbn -[Nat.ltb]. rewrite lookup_insert_ne by congruence. rewrite Hid.
    rewrite (proj2 (Nat.ltb_lt _ _)) by lia. eauto.
  - left. unfold step. rewrite Hid, (proj2 (Nat.ltb_lt _ _)) by lia.
    eexists. split; [reflexivity|]. cbn. by rewrite lookup_insert_eq.
Qed.

Lemma waiting_callers_are_not_stuck_witness : exists w,
  run_steps demo_waiting {| lim := demo_limiter; callers := ∅ |} = Some w /\
  ((exists w', step w 11 Wake = Some w' /\ callers w' !! 11 = Some (Trying 1 "openai")) \/
   (has_room (lim w) 1 "openai" = false /\
    exists id' ws' p', callers w !! id' = Some (Holding ws' p') /\
      forall w', step w id' Release = Some w' -> exists w'', step w' 11 Wake = Some w'')).
Proof.
  eexists. split; [vm_compute; reflexivity|].
  eapply (waiting_callers_are_not_stuck 2 1 2 demo_limiter); [reflexivity| |vm_compute; reflexivity].
  eapply run_steps_reachable; [apply reach_start|].
  instantiate (1 := demo_waiting). vm_compute. reflexivity.
Defined.

(** Nothing leaks: when no caller holds a slot any more, the limiter is empty
    again, with no entry left for any workspace or provider; a release function
    called twice gives its slot back once. *)
Theorem released_limiter_is_empty g wl pl l w :
  NewHierarchical g wl pl = Ok l -> reachable l w -> count holds (callers w) = 0 ->
  active (lim w) = 0 /\ activeByWorkspace (lim w) = ∅ /\ activeByProvider (lim w) = ∅.
Proof.
  intros Hn Hr H0. pose proof (reachable_inv _ _ _ _ _ Hn Hr) as I.
  split; [by rewrite (li_active w I)|]. split; apply map_eq; intros k; rewrite lookup_empty.
  - destruct (activeByWorkspace (lim w) !! k) as [n|] eqn:E; [|done]. exfalso.
    pose proof (li_ws_pos w I k n E) as Hpos. pose proof (li_ws w I k) as Hc.
    unfold at_key in Hc. rewrite E in Hc. cbn in Hc.
    pose proof (count_le (holds_ws k) holds (callers w) ltac:(by intros [])). lia.
  - destruct (activeByProvider (lim w) !! k) as [n|] eqn:E; [|done]. exfalso.
    pose proof (li_provider_pos w I k n E) as Hpos. pose proof (li_provider w I k) as Hc.
    unfold at_key in Hc. rewrite E in Hc. cbn in Hc.
    pose proof (count_le (holds_provider k) holds (callers w) ltac:(by intros [])). lia.
Qed.

Definition demo_drained : list (Z * event) :=
  demo_waiting ++ [(10, Release); (10, Release); (11, Wake); (11, Lock); (11, Release)].

Lemma released_limiter_is_empty_witness : exists w,
  run_steps demo_drained {| lim := demo_limiter; callers := ∅ |} = Some w /\
  active (lim w) = 0 /\ activeByWorkspace (lim w) = ∅ /\ activeByProvider (lim w) = ∅.
Proof.
  eexists. split; [vm_compute; reflexivity|].
  eapply (released_limiter_is_empty 2 1 2 demo_limiter); [reflexivity| |vm_compute; reflexivity].
  eapply run_steps_reachable; [apply reach_start|].
  instantiate (1 := demo_drained). vm_compute. reflexivity.
Defined.

End WorkLimit.
