(* ===== verification/JsonParse.v ===== *)
(** * The JSON decoder: [DecodeJSON] (internal/iiif/json.go)

    [encoding/json] as [DecodeJSON] uses it: a value, then only white space;
    numbers keep their literal ([UseNumber]); invalid UTF-8 and unpaired surrogate
    escapes become U+FFFD; the last of several equal keys wins. *)

From Stdlib Require Import ZArith NArith Lia Ascii String.
From stdpp Require Import base gmap strings list.
From S2P Require Import Prelude GoStrings Json.

Module JsonParse.
Import GoStr Json.
#[local] Open Scope string_scope.

Definition is_ws (c : ascii) : bool := byte_is c 32 || byte_is c 9 || byte_is c 10 || byte_is c 13.

Fixpoint skip_ws (s : string) : string :=
  match s with
  | EmptyString => ""
  | String c r => if is_ws c then skip_ws r else s
  end.

(** ** Strings *)

Definition hex_value (c : ascii) : option N :=
  let n := N_of_ascii c in
  if byte_in c 48 57 then Some (n - 48)%N
  else if byte_in c 97 102 then Some (n - 87)%N
  else if byte_in c 65 70 then Some (n - 55)%N
  else None.

(** The four digits of [\uXXXX]. *)
Definition u4 (a b c d : ascii) : option N :=
  x ← hex_value a; y ← hex_value b; z ← hex_value c; w ← hex_value d;
  Some (((x * 16 + y) * 16 + z) * 16 + w)%N.

Definition is_surrogate (r : N) : bool := (0xD800 <=? r)%N && (r <=? 0xDFFF)%N.

(** [utf16.DecodeRune]; [None] is U+FFFD. *)
Definition decode_surrogates (r1 r2 : N) : option N :=
  if (0xD800 <=? r1)%N && (r1 <? 0xDC00)%N && (0xDC00 <=? r2)%N && (r2 <? 0xE000)%N
  then Some ((r1 - 0xD800) * 1024 + (r2 - 0xDC00) + 0x10000)%N else None.

Definition byte_of (n : N) : ascii := ascii_of_N n.

(** [utf8.AppendRune] *)
Definition encode_rune (r : N) : string :=
  if (r <? 0x80)%N then String (byte_of r) ""
  else if (r <? 0x800)%N then
    String (byte_of (0xC0 + r / 64)) (String (byte_of (0x80 + r mod 64)) "")
  else if (r <? 0x10000)%N then
    String (byte_of (0xE0 + r / 4096))
      (String (byte_of (0x80 + (r / 64) mod 64)) (String (byte_of (0x80 + r mod 64)) ""))
  else
    String (byte_of (0xF0 + r / 262144)) (String (byte_of (0x80 + (r / 4096) mod 64))
      (String (byte_of (0x80 + (r / 64) mod 64)) (String (byte_of (0x80 + r mod 64)) ""))).

Definition replacement : string := encode_rune 0xFFFD.

(** Well-formed UTF-8 sequences of two, three and four bytes. *)
Definition cont (c : ascii) : bool := byte_in c 0x80 0xBF.
Definition utf8_2 (a b : ascii) : bool := byte_in a 0xC2 0xDF && cont b.
Definition utf8_3 (a b c : ascii) : bool :=
  ((byte_is a 0xE0 && byte_in b 0xA0 0xBF)
   || (byte_in a 0xE1 0xEC && cont b)
   || (byte_is a 0xED && byte_in b 0x80 0x9F)
   || (byte_in a 0xEE 0xEF && cont b)) && cont c.
Definition utf8_4 (a b c d : ascii) : bool :=
  ((byte_is a 0xF0 && byte_in b 0x90 0xBF)
   || (byte_in a 0xF1 0xF3 && cont b)
   || (byte_is a 0xF4 && byte_in b 0x80 0x8F)) && cont c && cont d.

Definition simple_escape (c : ascii) : option ascii :=
  if byte_is c 34 then Some "034"%char
  else if byte_is c 92 then Some "\"%char
  else if byte_is c 47 then Some "/"%char
  else if byte_is c 98 then Some "008"%char
  else if byte_is c 102 then Some "012"%char
  else if byte_is c 110 then Some "010"%char
  else if byte_is c 114 then Some "013"%char
  else if byte_is c 116 then Some "009"%char
  else None.

Definition prepend (p : string) (r : option (string * string)) : option (string * string) :=
  match r with Some (s, rest) => Some (p ++ s, rest) | None => None end.

(** The characters after an opening quote, and what follows the closing one. *)
Fixpoint unquote (s : string) : option (string * string) :=
  match s with
  | EmptyString => None
  | String c r =>
      if byte_is c 34 then Some ("", r)
      else if byte_is c 92 then
        match r with
        | EmptyString => None
        | String e r1 =>
            if byte_is e 117 then
              match r1 with
              | String a (String b (String c' (String d r2))) =>
                  match u4 a b c' d with
                  | None => None
                  | Some rr =>
                      if is_surrogate rr then
                        match r2 with
                        | String x (String y (String a1 (String b1 (String c1 (String d1 r3))))) =>
                            match (if byte_is x 92 && byte_is y 117 then u4 a1 b1 c1 d1 else None) with
                            | Some rr1 =>
                                match decode_surrogates rr rr1 with
                                | Some dec => prepend (encode_rune dec) (unquote r3)
                                | None => prepend replacement (unquote r2)
                                end
                            | None => prepend replacement (unquote r2)
                            end
                        | _ => prepend replacement (unquote r2)
                        end
                      else prepend (encode_rune rr) (unquote r2)
                  end
              | _ => None
              end
            else match simple_escape e with
                 | Some b => prepend (String b "") (unquote r1)
                 | None => None
                 end
        end
      else if (N_of_ascii c <? 32)%N then None
      else if (N_of_ascii c <? 128)%N then prepend (String c "") (unquote r)
      else
        match r with
        | EmptyString => prepend replacement (unquote r)
        | String c2 r2 =>
            if utf8_2 c c2 then prepend (String c (String c2 "")) (unquote r2) else
            match r2 with
            | EmptyString => prepend replacement (unquote r)
            | String c3 r3 =>
                if utf8_3 c c2 c3 then prepend (String c (String c2 (String c3 ""))) (unquote r3) else
                match r3 with
                | EmptyString => prepend replacement (unquote r)
                | String c4 r4 =>
                    if utf8_4 c c2 c3 c4
                    then prepend (String c (String c2 (String c3 (String c4 "")))) (unquote r4)
                    else prepend replacement (unquote r)
                end
            end
        end
  end.

(** ** Numbers *)

Fixpoint span_digits (s : string) : string * string :=
  match s with
  | String c r => if is_digit c then let '(d, rest) := span_digits r in (String c d, rest) else ("", s)
  | EmptyString => ("", "")
  end.

(** At least one digit. *)
Definition digits1 (s : string) : option (string * string) :=
  match span_digits s with ("", _) => None | p => Some p end.

(** What follows the byte [n], if the string starts with it. *)
Definition expect (n : N) (s : string) : option string :=
  match s with
  | String c r => if byte_is c n then Some r else None
  | EmptyString => None
  end.

Definition parse_int (s : string) : option (string * string) :=
  match expect 48 s with
  | Some r => Some ("0", r)
  | None => digits1 s
  end.

Definition parse_frac (s : string) : option (string * string) :=
  match expect 46 s with
  | Some r => '(d, rest) ← digits1 r; Some ("." ++ d, rest)
  | None => Some ("", s)
  end.

Definition parse_sign (s : string) : string * string :=
  match expect 43 s with
  | Some r => ("+", r)
  | None => match expect 45 s with Some r => ("-", r) | None => ("", s) end
  end.

Definition parse_exp_digits (e : string) (s : string) : option (string * string) :=
  let '(sign, r) := parse_sign s in
  '(d, rest) ← digits1 r; Some (e ++ sign ++ d, rest).

Definition parse_exp (s : string) : option (string * string) :=
  match expect 101 s with
  | Some r => parse_exp_digits "e" r
  | None => match expect 69 s with Some r => parse_exp_digits "E" r | None => Some ("", s) end
  end.

Definition parse_minus (s : string) : string * string :=
  match expect 45 s with Some r => ("-", r) | None => ("", s) end.

Definition parse_number (s : string) : option (string * string) :=
  let '(m, r) := parse_minus s in
  '(i, r1) ← parse_int r;
  '(f, r2) ← parse_frac r1;
  '(x, r3) ← parse_exp r2;
  Some (m ++ i ++ f ++ x, r3).

(** ** Values *)

Definition literal (word : string) (v : json) (s : string) : option (json * string) :=
  match strip_prefix word s with Some r => Some (v, r) | None => None end.

(** Literals, strings and numbers. *)
Definition parse_scalar (c : ascii) (r : string) : option (json * string) :=
  if byte_is c 34 then '(v, r') ← unquote r; Some (JString v, r')
  else if byte_is c 116 then literal "true" (JBool true) (String c r)
  else if byte_is c 102 then literal "false" (JBool false) (String c r)
  else if byte_is c 110 then literal "null" JNull (String c r)
  else '(lit, r') ← parse_number (String c r); Some (JNumber lit, r').

Fixpoint parse_value (fuel : nat) (s : string) {struct fuel} : option (json * string) :=
  match fuel with
  | O => None
  | S n =>
      match skip_ws s with
      | EmptyString => None
      | String c r =>
          if byte_is c 123 then
            match expect 125 (skip_ws r) with
            | Some r' => Some (JObject [], r')
            | None => parse_members n r []
            end
          else if byte_is c 91 then
            match expect 93 (skip_ws r) with
            | Some r' => Some (JArray [], r')
            | None => parse_elements n r []
            end
          else parse_scalar c r
      end
  end
with parse_members (fuel : nat) (s : string) (acc : obj) {struct fuel} : option (json * string) :=
  match fuel with
  | O => None
  | S n =>
      q ← expect 34 (skip_ws s);
      '(k, r1) ← unquote q;
      r2 ← expect 58 (skip_ws r1);
      '(v, r3) ← parse_value n r2;
      match expect 44 (skip_ws r3) with
      | Some r4 => parse_members n r4 (jset acc k v)
      | None => r4 ← expect 125 (skip_ws r3); Some (JObject (jset acc k v), r4)
      end
  end
with parse_elements (fuel : nat) (s : string) (acc : list json) {struct fuel} : option (json * string) :=
  match fuel with
  | O => None
  | S n =>
      '(v, r) ← parse_value n s;
      match expect 44 (skip_ws r) with
      | Some r' => parse_elements n r' (acc ++ [v])
      | None => r' ← expect 93 (skip_ws r); Some (JArray (acc ++ [v]), r')
      end
  end.

(** [DecodeJSON]: the depth guard, one value, then the end of the input. *)
Definition DecodeJSON (raw : string) : option json :=
  if validateJSONNesting raw then
    '(v, rest) ← parse_value (S (String.length raw)) raw;
    if bool_decide (skip_ws rest = "") then Some v else None
  else None.

(** The members of an object in the order they are written, as the decoder meets
    them when the destination is a struct. *)
Fixpoint parse_fields (fuel : nat) (s : string) {struct fuel} : option (obj * string) :=
  match fuel with
  | O => None
  | S n =>
      q ← expect 34 (skip_ws s);
      '(k, r1) ← unquote q;
      r2 ← expect 58 (skip_ws r1);
      '(v, r3) ← parse_value n r2;
      match expect 44 (skip_ws r3) with
      | Some r4 => '(ms, r5) ← parse_fields n r4; Some ((k, v) :: ms, r5)
      | None => r4 ← expect 125 (skip_ws r3); Some ([(k, v)], r4)
      end
  end.

(** [DecodeJSON] into a struct: its members in order; [null] leaves the zero
    struct, any other value is an error. *)
Definition DecodeFields (raw : string) : option obj :=
  match DecodeJSON raw with
  | Some JNull => Some []
  | Some (JObject _) =>
      r ← expect 123 (skip_ws raw);
      match expect 125 (skip_ws r) with
      | Some _ => Some []
      | None => fst <$> parse_fields (String.length raw) r
      end
  | _ => None
  end.

(** ** Well-formed values: what the decoder returns *)

Fixpoint valid_utf8 (s : string) : bool :=
  match s with
  | EmptyString => true
  | String c r =>
      if (N_of_ascii c <? 128)%N then valid_utf8 r else
      match r with
      | EmptyString => false
      | String c2 r2 =>
          if utf8_2 c c2 then valid_utf8 r2 else
          match r2 with
          | EmptyString => false
          | String c3 r3 =>
              if utf8_3 c c2 c3 then valid_utf8 r3 else
              match r3 with
              | EmptyString => false
              | String c4 r4 => utf8_4 c c2 c3 c4 && valid_utf8 r4
              end
          end
      end
  end.

Fixpoint well_formed (j : json) : Prop :=
  match j with
  | JNumber lit => parse_number lit = Some (lit, "")
  | JString s => valid_utf8 s = true
  | JArray l => (fix go l := match l with [] => True | x :: l' => well_formed x /\ go l' end) l
  | JObject m =>
      keys_sorted m /\
      (fix go m := match m with
       | [] => True
       | (k, x) :: m' => valid_utf8 k = true /\ well_formed x /\ go m'
       end) m
  | _ => True
  end.

(** ** Strings read back *)

Lemma prepend_prepend a b r : prepend a (prepend b r) = prepend (a ++ b) r.
Proof. destruct r as [[s rest]|]; [|done]. cbn. by rewrite sapp_assoc. Qed.

Lemma prepend_Some p s rest : prepend p (Some (s, rest)) = Some (p ++ s, rest).
Proof. done. Qed.

(** An escaped ASCII byte. *)
Lemma unquote_escape_byte c r :
  (N_of_ascii c <? 128)%N = true -> unquote (escape_byte c ++ r) = prepend (String c "") (unquote r).
Proof. destruct c as [[] [] [] [] [] [] [] []]; try discriminate; intros _; reflexivity. Qed.

Lemma escape_byte_high c : (N_of_ascii c <? 128)%N = false -> escape_byte c = String c "".
Proof. destruct c as [[] [] [] [] [] [] [] []]; try discriminate; intros _; reflexivity. Qed.

(** The first byte of a two-byte sequence, a continuation byte and the bytes of
    ASCII are not the byte that starts U+2028. *)
Lemma escape_cons c r : byte_is c 226 = false -> escape (String c r) = escape_byte c ++ escape r.
Proof. intros H. cbn [escape]. rewrite H. cbn [andb]. by destruct r as [|? [|]]. Qed.

Lemma byte_in_not_is c lo hi n :
  byte_in c lo hi = true -> (n < lo)%N \/ (hi < n)%N -> byte_is c n = false.
Proof.
  unfold byte_in, byte_is. intros [H1 H2]%andb_true_iff Hn. apply N.leb_le in H1, H2.
  apply bool_decide_eq_false. lia.
Qed.

Lemma byte_in_high c lo hi : byte_in c lo hi = true -> (128 <= lo)%N -> (N_of_ascii c <? 128)%N = false.
Proof. unfold byte_in. intros [H1 H2]%andb_true_iff Hl. apply N.leb_le in H1. apply N.ltb_ge. lia. Qed.

(** A continuation byte is written as it is. *)
Lemma escape_cont c r : cont c = true -> escape (String c r) = String c (escape r).
Proof.
  intros H. rewrite escape_cons by (eapply byte_in_not_is; [exact H|lia]).
  by rewrite escape_byte_high by (eapply byte_in_high; [exact H|lia]).
Qed.

Lemma unquote_high c r :
  (N_of_ascii c <? 128)%N = false ->
  unquote (String c r) =
    match r with
    | EmptyString => prepend replacement (unquote r)
    | String c2 r2 =>
        if utf8_2 c c2 then prepend (String c (String c2 "")) (unquote r2) else
        match r2 with
        | EmptyString => prepend replacement (unquote r)
        | String c3 r3 =>
            if utf8_3 c c2 c3 then prepend (String c (String c2 (String c3 ""))) (unquote r3) else
            match r3 with
            | EmptyString => prepend replacement (unquote r)
            | String c4 r4 =>
                if utf8_4 c c2 c3 c4
                then prepend (String c (String c2 (String c3 (String c4 "")))) (unquote r4)
                else prepend replacement (unquote r)
            end
        end
    end.
Proof.
  intros H. apply N.ltb_ge in H.
  assert (Hne : forall n, (n < 128)%N -> byte_is c n = false)
    by (intros n Hn; unfold byte_is; apply bool_decide_eq_false; lia).
  cbn [unquote]. rewrite (Hne 34%N), (Hne 92%N) by lia.
  by rewrite (proj2 (N.ltb_ge (N_of_ascii c) 32)), (proj2 (N.ltb_ge (N_of_ascii c) 128)) by lia.
Qed.

Lemma byte_is_eq c n : byte_is c n = true -> c = ascii_of_N n.
Proof. unfold byte_is. intros H%bool_decide_eq_true. by rewrite <-H, ascii_N_embedding. Qed.

Lemma utf8_2_cont a b : utf8_2 a b = true -> byte_is a 226 = false /\ cont b = true.
Proof.
  unfold utf8_2. intros [Ha Hb]%andb_true_iff. split; [|done].
  eapply byte_in_not_is; [exact Ha|lia].
Qed.

Lemma byte_in_widen c lo hi : byte_in c lo hi = true -> (128 <= lo)%N -> (hi <= 191)%N -> cont c = true.
Proof.
  unfold cont, byte_in. intros [H1 H2]%andb_true_iff. apply N.leb_le in H1, H2. intros.
  apply andb_true_iff. split; apply N.leb_le; lia.
Qed.

Lemma utf8_3_cont a b c : utf8_3 a b c = true -> cont b = true /\ cont c = true.
Proof.
  unfold utf8_3. intros [H Hc]%andb_true_iff. split; [|done].
  repeat rewrite orb_true_iff in H. rewrite !andb_true_iff in H.
  destruct H as [[[[_ H]|[_ H]]|[_ H]]|[_ H]]; try exact H; eapply byte_in_widen; try exact H; lia.
Qed.

Lemma utf8_4_cont a b c d :
  utf8_4 a b c d = true -> byte_is a 226 = false /\ cont b = true /\ cont c = true /\ cont d = true.
Proof.
  unfold utf8_4. intros [[H Hc]%andb_true_iff Hd]%andb_true_iff.
  repeat rewrite orb_true_iff in H. rewrite !andb_true_iff in H.
  assert (byte_is a 226 = false /\ cont b = true); [|naive_solver].
  destruct H as [[[Ha H]|[Ha H]]|[Ha H]].
  - apply byte_is_eq in Ha as ->. split; [done|]. eapply byte_in_widen; [exact H|lia..].
  - split; [|exact H]. eapply byte_in_not_is; [exact Ha|lia].
  - apply byte_is_eq in Ha as ->. split; [done|]. eapply byte_in_widen; [exact H|lia..].
Qed.

(** The line and paragraph separators, escaped, are read back as their bytes. *)
Lemma escape_3 a b c r :
  (N_of_ascii a <? 128)%N = false -> cont b = true -> cont c = true ->
  (escape (String a (String b (String c r))) = String a (String b (String c (escape r)))) \/
  (forall rest, unquote (escape (String a (String b (String c r))) ++ rest)
     = prepend (String a (String b (String c ""))) (unquote (escape r ++ rest))).
Proof.
  intros Ha Hb Hc. destruct (byte_is a 226) eqn:E1.
  2:{ left. rewrite escape_cons, escape_byte_high, (escape_cont b), (escape_cont c) by done. done. }
  assert (Heq : escape (String a (String b (String c r))) =
    if byte_is a 226 && byte_is b 128 && byte_is c 168 then "\u2028" ++ escape r
    else if byte_is a 226 && byte_is b 128 && byte_is c 169 then "\u2029" ++ escape r
    else escape_byte a ++ escape (String b (String c r))) by reflexivity.
  rewrite E1 in Heq. cbn [andb] in Heq.
  destruct (byte_is b 128) eqn:E2; [destruct (byte_is c 168) eqn:E3; [|destruct (byte_is c 169) eqn:E4]|];
    cbn [andb] in Heq; rewrite Heq.
  1-2: right; intros rest; apply byte_is_eq in E1 as ->, E2 as ->;
       first [apply byte_is_eq in E3 as ->|apply byte_is_eq in E4 as ->]; reflexivity.
  all: left; rewrite escape_byte_high, (escape_cont b), (escape_cont c) by done; done.
Qed.

Lemma sapp_nil_l s : "" ++ s = s.
Proof. done. Qed.

Ltac sapp := repeat first [rewrite sapp_cons|rewrite sapp_nil_l].

Lemma unquote_escape s rest :
  valid_utf8 s = true -> unquote (escape s ++ String quote rest) = Some (s, rest).
Proof.
  remember (String.length s) as n eqn:Hn. revert s Hn.
  induction (lt_wf n) as [n _ IH]. intros s Hn Hv. subst n.
  assert (IH' : forall s', (String.length s' < String.length s)%nat -> valid_utf8 s' = true ->
    unquote (escape s' ++ String quote rest) = Some (s', rest)) by eauto. clear IH.
  destruct s as [|c r]; [done|]. cbn [valid_utf8] in Hv.
  destruct (N_of_ascii c <? 128)%N eqn:Hc.
  { rewrite escape_cons; [|].
    - rewrite sapp_assoc, unquote_escape_byte by done. rewrite IH' by (cbn; lia || done). done.
    - apply N.ltb_lt in Hc. unfold byte_is. apply bool_decide_eq_false. lia. }
  destruct r as [|c2 r2]; [done|]. destruct (utf8_2 c c2) eqn:H2.
  { destruct (utf8_2_cont _ _ H2) as [Ha Hb].
    rewrite escape_cons, escape_byte_high, (escape_cont c2) by done. sapp.
        rewrite unquote_high by done. cbv beta iota. rewrite H2. rewrite IH' by (cbn; lia || done). done. }
  destruct r2 as [|c3 r3]; [done|]. destruct (utf8_3 c c2 c3) eqn:H3.
  { destruct (utf8_3_cont _ _ _ H3) as [Hb Hc3].
    destruct (escape_3 c c2 c3 r3 Hc Hb Hc3) as [-> | ->].
    - sapp.
    rewrite unquote_high by done. cbv beta iota. rewrite H2, H3. rewrite IH' by (cbn; lia || done). done.
    - rewrite IH' by (cbn; lia || done). done. }
  destruct r3 as [|c4 r4]; [done|]. apply andb_true_iff in Hv as [H4 Hv].
  destruct (utf8_4_cont _ _ _ _ H4) as (Ha & Hb & Hc3 & Hc4).
  rewrite escape_cons, escape_byte_high, (escape_cont c2), (escape_cont c3), (escape_cont c4) by done.
  sapp.
    rewrite unquote_high by done. cbv beta iota. rewrite H2, H3, H4. rewrite IH' by (cbn; lia || done). done.
Qed.

(** ** Numbers read back *)

(** What follows a value: a separator, a closing bracket or white space. *)
Definition stops (rest : string) : Prop :=
  match rest with
  | EmptyString => True
  | String c _ => byte_is c 44 || byte_is c 93 || byte_is c 125 || is_ws c = true
  end.

Lemma byte_is_ne c n m : byte_is c n = true -> n <> m -> byte_is c m = false.
Proof. unfold byte_is. intros H%bool_decide_eq_true Hn. apply bool_decide_eq_false. congruence. Qed.

(** A stopping byte is none of the bytes of a number. *)
Lemma stops_byte c r n :
  stops (String c r) -> n ∉ [44; 93; 125; 32; 9; 10; 13]%N -> byte_is c n = false.
Proof.
  unfold stops, is_ws. rewrite !orb_true_iff. intros H Hn. rewrite !not_elem_of_cons in Hn.
  repeat destruct H as [H|H]; (eapply byte_is_ne; [exact H|]); naive_solver.
Qed.

Lemma stops_not_digit c r : stops (String c r) -> is_digit c = false.
Proof.
  unfold stops, is_ws. rewrite !orb_true_iff.
  intros H. repeat destruct H as [H|H]; by apply byte_is_eq in H as ->.
Qed.

Lemma stops_expect rest n :
  stops rest -> n ∉ [44; 93; 125; 32; 9; 10; 13]%N -> expect n rest = None.
Proof. destruct rest as [|c r]; [done|]. intros. cbn. by rewrite (stops_byte c r n). Qed.

Lemma expect_app n s r rest : expect n s = Some r -> expect n (s ++ rest) = Some (r ++ rest).
Proof. destruct s as [|c s]; [done|]. rewrite sapp_cons. cbn. destruct (byte_is c n); [|done]. by intros [= ->]. Qed.

Lemma expect_none_app n s rest :
  stops rest -> n ∉ [44; 93; 125; 32; 9; 10; 13]%N -> expect n s = None -> expect n (s ++ rest) = None.
Proof.
  intros Hs Hn. destruct s as [|c s]; [intros _; by apply stops_expect|].
  rewrite sapp_cons. cbn. by destruct (byte_is c n).
Qed.

Lemma span_digits_app s d r rest :
  stops rest -> span_digits s = (d, r) -> span_digits (s ++ rest) = (d, r ++ rest).
Proof.
  intros Hs. revert d r. induction s as [|c s IH]; intros d r H.
  - injection H as <- <-. rewrite !sapp_nil_l. destruct rest as [|c r]; [done|]. cbn.
    by rewrite (stops_not_digit c r).
  - rewrite sapp_cons. cbn in *. destruct (is_digit c).
    + destruct (span_digits s) as [d' r']. injection H as <- <-. by rewrite (IH d' r').
    + by injection H as <- <-.
Qed.

Lemma digits1_app s d r rest :
  stops rest -> digits1 s = Some (d, r) -> digits1 (s ++ rest) = Some (d, r ++ rest).
Proof.
  intros Hs H. unfold digits1 in *. destruct (span_digits s) as [d' r'] eqn:E.
  rewrite (span_digits_app s d' r' rest Hs E). destruct d'; [done|]. by injection H as <- <-.
Qed.

Lemma parse_int_app s d r rest :
  stops rest -> parse_int s = Some (d, r) -> parse_int (s ++ rest) = Some (d, r ++ rest).
Proof.
  intros Hs H. unfold parse_int in *. destruct (expect 48 s) as [r'|] eqn:E.
  - rewrite (expect_app _ _ _ _ E). by injection H as <- <-.
  - rewrite expect_none_app by first [done | set_solver]. by apply digits1_app.
Qed.

Lemma parse_frac_app s d r rest :
  stops rest -> parse_frac s = Some (d, r) -> parse_frac (s ++ rest) = Some (d, r ++ rest).
Proof.
  intros Hs H. unfold parse_frac in *. destruct (expect 46 s) as [r'|] eqn:E.
  - rewrite (expect_app _ _ _ _ E). destruct (digits1 r') as [[d' r'']|] eqn:E'; [|done].
    rewrite (digits1_app _ _ _ rest Hs E'). cbn in *. by injection H as <- <-.
  - rewrite expect_none_app by first [done | set_solver]. by injection H as <- <-.
Qed.

Lemma parse_sign_app s d r rest :
  stops rest -> parse_sign s = (d, r) -> parse_sign (s ++ rest) = (d, r ++ rest).
Proof.
  intros Hs H. unfold parse_sign in *. destruct (expect 43 s) as [r'|] eqn:E.
  - rewrite (expect_app _ _ _ _ E). by injection H as <- <-.
  - rewrite expect_none_app by first [done | set_solver]. destruct (expect 45 s) as [r'|] eqn:E'.
    + rewrite (expect_app _ _ _ _ E'). by injection H as <- <-.
    + rewrite expect_none_app by first [done | set_solver]. by injection H as <- <-.
Qed.

Lemma parse_exp_digits_app e s d r rest :
  stops rest -> parse_exp_digits e s = Some (d, r) -> parse_exp_digits e (s ++ rest) = Some (d, r ++ rest).
Proof.
  intros Hs H. unfold parse_exp_digits in *. destruct (parse_sign s) as [sg r'] eqn:E.
  rewrite (parse_sign_app _ _ _ rest Hs E). destruct (digits1 r') as [[d' r'']|] eqn:E'; [|done].
  rewrite (digits1_app _ _ _ rest Hs E'). cbn in *. by injection H as <- <-.
Qed.

Lemma parse_exp_app s d r rest :
  stops rest -> parse_exp s = Some (d, r) -> parse_exp (s ++ rest) = Some (d, r ++ rest).
Proof.
  intros Hs H. unfold parse_exp in *. destruct (expect 101 s) as [r'|] eqn:E.
  - rewrite (expect_app _ _ _ _ E). by apply parse_exp_digits_app.
  - rewrite expect_none_app by first [done | set_solver]. destruct (expect 69 s) as [r'|] eqn:E'.
    + rewrite (expect_app _ _ _ _ E'). by apply parse_exp_digits_app.
    + rewrite expect_none_app by first [done | set_solver]. by injection H as <- <-.
Qed.

Lemma parse_number_app s d r rest :
  stops rest -> parse_number s = Some (d, r) -> parse_number (s ++ rest) = Some (d, r ++ rest).
Proof.
  intros Hs H. unfold parse_number in *.
  assert (Hm : parse_minus (s ++ rest) = ((parse_minus s).1, (parse_minus s).2 ++ rest)).
  { unfold parse_minus. destruct (expect 45 s) as [r'|] eqn:E.
    - by rewrite (expect_app _ _ _ _ E).
    - rewrite expect_none_app by first [done | set_solver]. done. }
  rewrite Hm. destruct (parse_minus s) as [m r0]. cbn [fst snd].
  destruct (parse_int r0) as [[i r1]|] eqn:E1; [|done]. cbn in H.
  rewrite (parse_int_app _ _ _ rest Hs E1). cbn.
  destruct (parse_frac r1) as [[f r2]|] eqn:E2; [|done]. cbn in H.
  rewrite (parse_frac_app _ _ _ rest Hs E2). cbn.
  destruct (parse_exp r2) as [[x r3]|] eqn:E3; [|done]. cbn in H.
  rewrite (parse_exp_app _ _ _ rest Hs E3). cbn. by injection H as <- <-.
Qed.

(** A number starts with a minus sign or a digit. *)
Lemma number_head lit r :
  parse_number lit = Some (lit, r) -> exists c t, lit = String c t /\ (is_digit c = true \/ c = "-"%char).
Proof.
  unfold parse_number, parse_minus. destruct lit as [|c t]; [done|]. intros H. exists c, t. split; [done|].
  destruct (expect 45 (String c t)) as [r'|] eqn:E.
  - right. cbn in E. destruct (byte_is c 45) eqn:Eb; [|done]. by apply byte_is_eq in Eb.
  - left. unfold parse_int in H. destruct (expect 48 (String c t)) as [r'|] eqn:E'.
    + cbn in E'. destruct (byte_is c 48) eqn:Eb; [|done]. by apply byte_is_eq in Eb as ->.
    + unfold digits1 in H. cbn [span_digits] in H. by destruct (is_digit c).
Qed.

(** ** Values read back *)

Lemma slen_app a b : String.length (a ++ b) = (String.length a + String.length b)%nat.
Proof. induction a as [|c a IH]; [done|]. rewrite sapp_cons. cbn. by rewrite IH. Qed.

Definition member (kx : string * json) : string := marshal_string kx.1 ++ ":" ++ Marshal kx.2.

Lemma Marshal_array l : Marshal (JArray l) = "[" ++ Join (Marshal <$> l) "," ++ "]".
Proof. reflexivity. Qed.

Lemma Marshal_object m : Marshal (JObject m) = "{" ++ Join (member <$> m) "," ++ "}".
Proof.
  cbn [Marshal]. do 3 f_equal. induction m as [|[k x] m IH]; [done|]. cbn. by f_equal.
Qed.

Lemma well_formed_array l : well_formed (JArray l) <-> Forall well_formed l.
Proof.
  cbn. induction l as [|x l IH]; [done|]. rewrite Forall_cons, <-IH. done.
Qed.

Lemma well_formed_object m :
  well_formed (JObject m) <->
  keys_sorted m /\ Forall (fun kx => valid_utf8 kx.1 = true /\ well_formed kx.2) m.
Proof.
  cbn. apply and_iff_compat_l. induction m as [|[k x] m IH]; [done|].
  rewrite Forall_cons, <-IH. cbn. tauto.
Qed.

(** The first byte of a value. *)
Definition starts (c : ascii) : Prop :=
  is_ws c = false /\ byte_is c 93 = false /\ byte_is c 125 = false.

Lemma digit_byte c n :
  is_digit c = true -> (n < 48)%N \/ (57 < n)%N -> byte_is c n = false.
Proof. intros H Hn. by eapply byte_in_not_is. Qed.

Lemma digit_starts c : is_digit c = true -> starts c.
Proof. intros H. unfold starts, is_ws. by rewrite !digit_byte by (done || lia). Qed.

Lemma Marshal_head j : well_formed j -> exists c t, Marshal j = String c t /\ starts c.
Proof.
  destruct j as [|[]|lit|s|l|m]; intros H; try (eexists _, _; split; [reflexivity|done]).
  destruct (number_head _ _ H) as (c & t & -> & Hc). exists c, t. split; [done|].
  destruct Hc as [Hc| ->]; [by apply digit_starts|done].
Qed.

Lemma skip_ws_starts c t : is_ws c = false -> skip_ws (String c t) = String c t.
Proof. intros H. cbn. by rewrite H. Qed.

Lemma expect_head n c t : byte_is c n = false -> expect n (String c t) = None.
Proof. intros H. cbn. by rewrite H. Qed.

(** The round trip at one value, for any large enough fuel. *)
Definition reads_back (j : json) : Prop :=
  well_formed j -> forall fuel rest, stops rest -> (String.length (Marshal j) < fuel)%nat ->
  parse_value fuel (Marshal j ++ rest) = Some (j, rest).

Lemma parse_string_value n s rest :
  valid_utf8 s = true -> parse_value (S n) (marshal_string s ++ rest) = Some (JString s, rest).
Proof.
  intros H. unfold marshal_string. rewrite sapp_cons, sapp_assoc. sapp.
  cbn [parse_value]. rewrite skip_ws_starts by done. cbn iota beta.
  change (byte_is quote 123) with false. change (byte_is quote 91) with false. cbn iota.
  unfold parse_scalar. change (byte_is quote 34) with true. cbn iota.
  by rewrite unquote_escape.
Qed.

Lemma parse_number_value n lit rest :
  parse_number lit = Some (lit, "") -> stops rest -> parse_value (S n) (lit ++ rest) = Some (JNumber lit, rest).
Proof.
  intros H Hs. pose proof (parse_number_app _ _ _ rest Hs H) as Hp.
  destruct (number_head _ _ H) as (c & t & -> & Hc). rewrite sapp_cons in *.
  assert (Hn : forall n, (n < 45)%N \/ (57 < n)%N -> byte_is c n = false).
  { intros m Hm. destruct Hc as [Hc| ->]; [apply digit_byte; [done|lia]|].
    unfold byte_is. apply bool_decide_eq_false. change (N_of_ascii "-") with 45%N. lia. }
  assert (Hw : is_ws c = false) by (unfold is_ws; by rewrite !Hn by lia).
  cbn [parse_value]. rewrite skip_ws_starts by done. cbn iota beta. rewrite !Hn by lia.
  unfold parse_scalar. rewrite !Hn by lia. by rewrite Hp.
Qed.

Lemma parse_elements_marshal l : Forall reads_back l -> Forall well_formed l -> l <> [] ->
  forall n acc rest, (String.length (Join (Marshal <$> l) ",") + 1 < n)%nat ->
  parse_elements n (Join (Marshal <$> l) "," ++ String "]" rest) acc = Some (JArray (acc ++ l), rest).
Proof.
  induction l as [|x l IH]; [done|]. intros [Hx Hl]%Forall_cons [Wx Wl]%Forall_cons _ n acc rest Hn.
  destruct n as [|n]; [lia|]. destruct l as [|y l].
  - cbn [fmap list_fmap Join] in *. cbn [parse_elements].
    rewrite Hx by (done || lia). reflexivity.
  - change (Join (Marshal <$> (x :: y :: l)) ",")
      with (Marshal x ++ String "," (Join (Marshal <$> (y :: l)) ",")) in *.
    rewrite slen_app in Hn. cbn [String.length] in Hn.
    rewrite sapp_assoc, sapp_cons. cbn [parse_elements]. rewrite Hx by (done || lia).
    cbn [mbind option_bind]. rewrite skip_ws_starts by done.
    change (expect 44 (String "," ?t)) with (Some t). cbn iota.
    rewrite IH by (done || lia). by rewrite <-app_assoc.
Qed.

Lemma jset_last (m : obj) k v : Forall (fun kv => key_lt kv.1 k) m -> jset m k v = (m ++ [(k, v)])%list.
Proof.
  induction 1 as [|[k1 v1] m Hk Hm IH]; [done|]. cbn in *.
  assert (String.compare k k1 = Gt) as ->; [|by rewrite IH].
  unfold key_lt in Hk. by rewrite String.compare_antisym, Hk.
Qed.

Lemma parse_members_marshal m :
  Forall (fun kx => reads_back kx.2) m -> keys_sorted m ->
  Forall (fun kx => valid_utf8 kx.1 = true /\ well_formed kx.2) m -> m <> [] ->
  forall n acc rest, Forall (fun kv => Forall (fun kx => key_lt kv.1 kx.1) m) acc ->
  (String.length (Join (member <$> m) ",") + 1 < n)%nat ->
  parse_members n (Join (member <$> m) "," ++ String "}" rest) acc = Some (JObject (acc ++ m)%list, rest).
Proof.
  induction m as [|[k x] m IH]; [done|].
  intros [Hx Hl]%Forall_cons [Sx Sm] [[Wk Wx] Wl]%Forall_cons _ n acc rest Hacc Hn.
  cbn [fst snd] in *. destruct n as [|n]; [lia|].
  assert (Hkx : Forall (fun kv : string * json => key_lt kv.1 k) acc)
    by (eapply Forall_impl; [exact Hacc|]; by intros kv [? _]%Forall_cons).
  assert (Hlen : String.length (member (k, x)) = (String.length (escape k) + String.length (Marshal x) + 3)%nat).
  { unfold member, marshal_string. cbn [fst snd]. rewrite sapp_cons. cbn [String.length].
    rewrite !slen_app. cbn. lia. }
  assert (Hstep : forall u, stops u -> (String.length (member (k, x)) < S n)%nat ->
    parse_members (S n) (member (k, x) ++ u) acc =
      match expect 44 (skip_ws u) with
      | Some r4 => parse_members n r4 (acc ++ [(k, x)])
      | None => r4 ← expect 125 (skip_ws u); Some (JObject (acc ++ [(k, x)]), r4)
      end).
  { intros u Hu Hlt. unfold member, marshal_string. cbn [fst snd]. rewrite !sapp_cons, !sapp_assoc. sapp.
    cbn [parse_members]. rewrite skip_ws_starts by done. change (expect 34 (String quote ?t)) with (Some t).
    cbn [mbind option_bind]. rewrite unquote_escape by done. cbn [mbind option_bind]. rewrite skip_ws_starts by done.
    change (expect 58 (String ":" ?t)) with (Some t). cbn [mbind option_bind].
    rewrite Hx by (done || lia). cbn [mbind option_bind]. by rewrite jset_last. }
  destruct m as [|y m].
  - cbn [fmap list_fmap Join] in *. rewrite Hstep by (done || lia). reflexivity.
  - change (Join (member <$> ((k, x) :: y :: m)) ",")
      with (member (k, x) ++ String "," (Join (member <$> (y :: m)) ",")) in *.
    rewrite slen_app in Hn. cbn [String.length] in Hn. rewrite sapp_assoc, sapp_cons.
    rewrite Hstep by (done || lia). rewrite skip_ws_starts by done.
    change (expect 44 (String "," ?t)) with (Some t). cbn iota.
    rewrite IH; try done; [by rewrite <-app_assoc| |lia].
    apply Forall_app. split; [|constructor; [exact Sx|constructor]].
    eapply Forall_impl; [exact Hacc|]. by intros kv [_ ?]%Forall_cons.
Qed.

Lemma parse_marshal j : reads_back j.
Proof.
  induction j as [|b|lit|s|l IH|m IH] using json_ind'; intros Hw fuel rest Hs Hf;
    (destruct fuel as [|n]; [lia|]).
  - reflexivity.
  - by destruct b.
  - by apply parse_number_value.
  - by apply parse_string_value.
  - rewrite Marshal_array in *. apply well_formed_array in Hw. rewrite !sapp_assoc. sapp.
    rewrite sapp_cons, sapp_nil_l in Hf. cbn [String.length] in Hf. rewrite slen_app in Hf.
    change (String.length "]") with 1%nat in Hf.
    cbn [parse_value]. rewrite skip_ws_starts by done.
    change (byte_is "[" 123) with false. change (byte_is "[" 91) with true. cbn iota.
    destruct l as [|x l]; [done|].
    pose proof Hw as [Wx _]%Forall_cons. destruct (Marshal_head x Wx) as (c & t & Hc & H1 & H2 & H3).
    assert (Hh : exists t', Join (Marshal <$> (x :: l)) "," ++ String "]" rest = String c t').
    { destruct l; cbn [fmap list_fmap Join]; rewrite Hc; eexists; sapp; reflexivity. }
    destruct Hh as [t' Hh]. rewrite Hh, skip_ws_starts, expect_head by done. rewrite <-Hh.
    rewrite parse_elements_marshal by (done || lia). done.
  - rewrite Marshal_object in *. apply well_formed_object in Hw as [Hk Hw]. rewrite !sapp_assoc. sapp.
    rewrite sapp_cons, sapp_nil_l in Hf. cbn [String.length] in Hf. rewrite slen_app in Hf.
    change (String.length "}") with 1%nat in Hf.
    cbn [parse_value]. rewrite skip_ws_starts by done.
    change (byte_is "{" 123) with true. cbn iota.
    destruct m as [|[k x] m]; [done|].
    assert (Hh : exists t', Join (member <$> ((k, x) :: m)) "," ++ String "}" rest = String quote t').
    { destruct m; cbn [fmap list_fmap Join]; unfold member at 1, marshal_string; eexists; sapp; reflexivity. }
    destruct Hh as [t' Hh]. rewrite Hh, skip_ws_starts, expect_head by done. rewrite <-Hh.
    rewrite parse_members_marshal by (done || lia || by constructor). done.
Qed.

(** ** The depth guard on encoded values *)

#[local] Open Scope Z_scope.

Definition outside (d : Z) : scan := {| depth := d; inString := false; escaped := false |}.
Definition inside (d : Z) : scan := {| depth := d; inString := true; escaped := false |}.

(** Bytes that change nothing outside a string. *)
Definition neutral (c : ascii) : bool :=
  negb (byte_is c 34 || byte_is c 123 || byte_is c 91 || byte_is c 125 || byte_is c 93).

Lemma scan_neutral d s r :
  all_chars neutral s = true -> scan_bytes (outside d) (s ++ r) = scan_bytes (outside d) r.
Proof.
  induction s as [|c s IH]; [done|]. cbn [all_chars]. intros [Hc Hs]%andb_true_iff.
  rewrite sapp_cons. cbn [scan_bytes]. unfold neutral in Hc. apply negb_true_iff in Hc.
  rewrite !orb_false_iff in Hc. destruct Hc as [[[[H1 H2] H3] H4] H5].
  unfold scan_byte. cbn. rewrite H1, H2, H3, H4, H5. cbn. by apply IH.
Qed.

Lemma scan_escape_byte d c r : scan_bytes (inside d) (escape_byte c ++ r) = scan_bytes (inside d) r.
Proof. destruct c as [[] [] [] [] [] [] [] []]; reflexivity. Qed.

(** One byte, or one separator, at a time. *)
Lemma escape_split c r :
  escape (String c r) = escape_byte c ++ escape r \/
  exists p r3, (p = "\u2028" \/ p = "\u2029") /\ escape (String c r) = p ++ escape r3 /\
    (String.length r3 < String.length (String c r))%nat.
Proof.
  destruct r as [|c2 [|c3 r3]]; [by left..|].
  assert (Heq : escape (String c (String c2 (String c3 r3))) =
    if byte_is c 226 && byte_is c2 128 && byte_is c3 168 then "\u2028" ++ escape r3
    else if byte_is c 226 && byte_is c2 128 && byte_is c3 169 then "\u2029" ++ escape r3
    else escape_byte c ++ escape (String c2 (String c3 r3))) by reflexivity.
  rewrite Heq. destruct (_ && _ && _); [right; exists "\u2028", r3|destruct (_ && _ && _); [right; exists "\u2029", r3|by left]];
    (split; [eauto|]; split; [done|]; cbn; lia).
Qed.

Lemma scan_escape d s r : scan_bytes (inside d) (escape s ++ r) = scan_bytes (inside d) r.
Proof.
  remember (String.length s) as n eqn:Hn. revert s Hn.
  induction (lt_wf n) as [n _ IH]. intros s ->. destruct s as [|c s]; [done|].
  destruct (escape_split c s) as [E|(p & r3 & Hp & E & Hl)]; rewrite E, sapp_assoc.
  - rewrite scan_escape_byte. eapply IH; [|done]. cbn. lia.
  - assert (scan_bytes (inside d) (p ++ escape r3 ++ r) = scan_bytes (inside d) (escape r3 ++ r)) as ->
      by by destruct Hp as [-> | ->].
    by eapply IH; [exact Hl|].
Qed.

Lemma scan_string d s r : scan_bytes (outside d) (marshal_string s ++ r) = scan_bytes (outside d) r.
Proof.
  unfold marshal_string. rewrite sapp_cons, sapp_assoc. sapp. cbn [scan_bytes].
  change (scan_byte (outside d) quote) with (Some (inside d)). cbn [mbind option_bind].
  rewrite scan_escape. reflexivity.
Qed.

(** The bytes of a number are neutral. *)
Lemma span_digits_neutral s d r : span_digits s = (d, r) -> all_chars neutral d = true.
Proof.
  revert d r. induction s as [|c s IH]; intros d r H; cbn in H; [by injection H as <- <-|].
  destruct (is_digit c) eqn:Hc; [|by injection H as <- <-].
  destruct (span_digits s) as [d' r'] eqn:E. injection H as <- <-. cbn [all_chars].
  rewrite (IH d' r' eq_refl), andb_true_r. unfold neutral. by rewrite !digit_byte by (done || lia).
Qed.

Lemma digits1_neutral s d r : digits1 s = Some (d, r) -> all_chars neutral d = true.
Proof.
  unfold digits1. destruct (span_digits s) as [d' r'] eqn:E. destruct d'; [done|].
  intros [= <- <-]. by eapply span_digits_neutral.
Qed.

Lemma number_neutral s d r : parse_number s = Some (d, r) -> all_chars neutral d = true.
Proof.
  unfold parse_number. destruct (parse_minus s) as [m r0] eqn:Em.
  assert (Hm : all_chars neutral m = true).
  { unfold parse_minus in Em. destruct (expect 45 s); by injection Em as <- <-. }
  destruct (parse_int r0) as [[i r1]|] eqn:Ei; [|done]. cbn [mbind option_bind].
  assert (Hi : all_chars neutral i = true).
  { unfold parse_int in Ei. destruct (expect 48 r0); [by injection Ei as <- <-|by eapply digits1_neutral]. }
  destruct (parse_frac r1) as [[f r2]|] eqn:Ef; [|done]. cbn [mbind option_bind].
  assert (Hf : all_chars neutral f = true).
  { unfold parse_frac in Ef. destruct (expect 46 r1) as [r'|]; [|by injection Ef as <- <-].
    destruct (digits1 r') as [[d' r'']|] eqn:E; [|done]. cbn in Ef. injection Ef as <- <-.
    rewrite all_chars_app. by rewrite (digits1_neutral _ _ _ E). }
  destruct (parse_exp r2) as [[x r3]|] eqn:Ex; [|done]. cbn [mbind option_bind].
  assert (Hd : forall e r', e = "e" \/ e = "E" -> parse_exp_digits e r' = Some (x, r3) ->
    all_chars neutral x = true).
  { intros e r' He H. unfold parse_exp_digits in H. destruct (parse_sign r') as [sg r''] eqn:Es.
    assert (Hs : all_chars neutral sg = true).
    { unfold parse_sign in Es. destruct (expect 43 r'); [|destruct (expect 45 r')]; by injection Es as <- <-. }
    destruct (digits1 r'') as [[d' r4]|] eqn:E; [|done]. cbn in H. injection H as <- <-.
    rewrite !all_chars_app, Hs, (digits1_neutral _ _ _ E). by destruct He as [-> | ->]. }
  assert (Hx : all_chars neutral x = true).
  { unfold parse_exp in Ex. destruct (expect 101 r2) as [r'|]; [by eapply Hd; [left|]|].
    destruct (expect 69 r2) as [r'|]; [by eapply Hd; [right|]|by injection Ex as <- <-]. }
  intros [= <- <-]. by rewrite !all_chars_app, Hm, Hi, Hf, Hx.
Qed.

Definition scans (j : json) : Prop :=
  well_formed j -> forall d r, d <= MaxJSONNestingDepth ->
  scan_bytes (outside d) (Marshal j ++ r) =
    if d + nesting j <=? MaxJSONNestingDepth then scan_bytes (outside d) r else None.

Fixpoint max_nesting (l : list json) : Z :=
  match l with [] => 0 | x :: l' => Z.max (nesting x) (max_nesting l') end.

Lemma nesting_array l : nesting (JArray l) = 1 + max_nesting l.
Proof. cbn. f_equal. Qed.
Lemma nesting_object m : nesting (JObject m) = 1 + max_nesting (snd <$> m).
Proof. cbn. f_equal. induction m as [|[k x] m IH]; [done|]. cbn. by rewrite IH. Qed.

Lemma nesting_nonneg j : 0 <= nesting j.
Proof.
  induction j as [| | | |l IH|m IH] using json_ind'; try done.
  - rewrite nesting_array. assert (0 <= max_nesting l); [|lia]. induction IH; cbn; lia.
  - rewrite nesting_object. assert (0 <= max_nesting (snd <$> m)); [|lia]. induction IH; cbn; lia.
Qed.
Lemma max_nesting_nonneg l : 0 <= max_nesting l.
Proof. induction l as [|x l IH]; cbn; [lia|]. pose proof (nesting_nonneg x). lia. Qed.

(** A list of parts, each scanned like a value. *)
Lemma scan_join {A} (f : A -> string) (g : A -> json) (l : list A) d r :
  d <= MaxJSONNestingDepth ->
  Forall (fun a => forall r, scan_bytes (outside d) (f a ++ r) =
     if d + nesting (g a) <=? MaxJSONNestingDepth then scan_bytes (outside d) r else None) l ->
  scan_bytes (outside d) (Join (f <$> l) "," ++ r) =
    if d + max_nesting (g <$> l) <=? MaxJSONNestingDepth then scan_bytes (outside d) r else None.
Proof.
  intros Hd H. induction H as [|a l Ha Hl IH].
  - cbn [fmap list_fmap Join max_nesting]. rewrite Z.add_0_r, (proj2 (Z.leb_le _ _)) by done. done.
  - destruct l as [|b l].
    + cbn [fmap list_fmap Join max_nesting]. rewrite Ha. pose proof (nesting_nonneg (g a)).
      by rewrite Z.max_l by lia.
    + change (Join (f <$> (a :: b :: l)) ",") with (f a ++ "," ++ Join (f <$> (b :: l)) ",").
      change (max_nesting (g <$> (a :: b :: l))) with (Z.max (nesting (g a)) (max_nesting (g <$> (b :: l)))).
      rewrite sapp_assoc, Ha, sapp_assoc. rewrite (scan_neutral d "," _) by done. rewrite IH.
      repeat match goal with |- context [?x <=? ?y] => destruct (Z.leb_spec x y) end; lia || done.
Qed.

Lemma scan_open d c r :
  byte_is c 123 || byte_is c 91 = true ->
  scan_bytes (outside d) (String c r) =
    if d + 1 <=? MaxJSONNestingDepth then scan_bytes (outside (d + 1)) r else None.
Proof.
  intros Hc. cbn [scan_bytes]. unfold scan_byte. cbn [inString outside].
  assert (byte_is c 34 = false) as ->.
  { apply orb_true_iff in Hc as [->%byte_is_eq | ->%byte_is_eq]; done. }
  rewrite Hc. cbn [depth outside escaped]. rewrite Z.gtb_ltb, Z.ltb_antisym.
  by destruct (d + 1 <=? MaxJSONNestingDepth).
Qed.

Lemma scan_marshal j : scans j.
Proof.
  induction j as [|b|lit|s|l IH|m IH] using json_ind'; intros Hw d r Hd.
  1-4: cbn [nesting]; rewrite Z.add_0_r, (proj2 (Z.leb_le _ _)) by done.
  - reflexivity.
  - by destruct b.
  - apply scan_neutral. by eapply number_neutral.
  - apply scan_string.
  - rewrite Marshal_array, nesting_array, !sapp_assoc. sapp. rewrite scan_open by done.
    apply well_formed_array in Hw. pose proof (max_nesting_nonneg l).
    destruct (Z.leb_spec (d + 1) MaxJSONNestingDepth); [|by rewrite (proj2 (Z.leb_gt _ _)) by lia].
    rewrite (scan_join Marshal id); [|done|].
    + rewrite list_fmap_id, Z.add_assoc. destruct (_ <=? _); [|done].
      cbn [scan_bytes]. unfold scan_byte. cbn. by rewrite Z.add_simpl_r.
    + rewrite Forall_forall in *. intros x Hx r'. by apply IH; [|apply Hw|].
  - rewrite Marshal_object, nesting_object, !sapp_assoc. sapp. rewrite scan_open by done.
    apply well_formed_object in Hw as [_ Hw]. pose proof (max_nesting_nonneg (snd <$> m)).
    destruct (Z.leb_spec (d + 1) MaxJSONNestingDepth); [|by rewrite (proj2 (Z.leb_gt _ _)) by lia].
    rewrite (scan_join member snd); [|done|].
    + rewrite Z.add_assoc. destruct (_ <=? _); [|done].
      cbn [scan_bytes]. unfold scan_byte. cbn. by rewrite Z.add_simpl_r.
    + rewrite Forall_forall in *. intros [k x] Hx r'. unfold member. cbn [fst snd].
      rewrite sapp_assoc, scan_string, sapp_assoc, (scan_neutral _ ":" _) by done.
      apply (IH (k, x) Hx); [by apply (Hw (k, x) Hx)|done].
Qed.

Lemma nesting_guard j : well_formed j -> validateJSONNesting (Marshal j) = (nesting j <=? MaxJSONNestingDepth).
Proof.
  intros Hw. unfold validateJSONNesting. pose proof (scan_marshal j Hw 0 "" ltac:(done)) as H.
  unfold outside in H. rewrite sapp_nil_r in H. rewrite H, Z.add_0_l.
  destruct (nesting j <=? MaxJSONNestingDepth); [by apply bool_decide_eq_true|].
  apply bool_decide_eq_false. by intros [? ?].
Qed.

(** ** Decoded values are well formed *)

#[local] Close Scope Z_scope.

Lemma valid_utf8_app a b : valid_utf8 a = true -> valid_utf8 (a ++ b) = valid_utf8 b.
Proof.
  remember (String.length a) as n eqn:Hn. revert a Hn.
  induction (lt_wf n) as [n _ IH]. intros a -> Ha.
  assert (IH' : forall a', (String.length a' < String.length a)%nat -> valid_utf8 a' = true ->
    valid_utf8 (a' ++ b) = valid_utf8 b) by eauto. clear IH.
  destruct a as [|c r]; [done|]. rewrite sapp_cons. cbn [valid_utf8] in Ha.
  destruct (N_of_ascii c <? 128)%N eqn:Hc.
  { cbn [valid_utf8]. rewrite Hc. apply IH'; [cbn; lia|done]. }
  destruct r as [|c2 r2]; [done|]. rewrite sapp_cons. destruct (utf8_2 c c2) eqn:H2.
  { cbn [valid_utf8]. rewrite Hc, H2. apply IH'; [cbn; lia|done]. }
  destruct r2 as [|c3 r3]; [done|]. rewrite sapp_cons. destruct (utf8_3 c c2 c3) eqn:H3.
  { cbn [valid_utf8]. rewrite Hc, H2, H3. apply IH'; [cbn; lia|done]. }
  destruct r3 as [|c4 r4]; [done|]. rewrite sapp_cons. apply andb_true_iff in Ha as [H4 Ha].
  cbn [valid_utf8]. rewrite Hc, H2, H3, H4. apply IH'; [cbn; lia|done].
Qed.

Lemma N_of_byte n : (n < 256)%N -> N_of_ascii (byte_of n) = n.
Proof. apply N_ascii_embedding. Qed.

Lemma byte_in_of n lo hi : (n < 256)%N -> byte_in (byte_of n) lo hi = ((lo <=? n) && (n <=? hi))%N.
Proof. intros H. unfold byte_in. by rewrite N_of_byte. Qed.

Lemma byte_is_of n m : (n < 256)%N -> byte_is (byte_of n) m = (n =? m)%N.
Proof.
  intros H. unfold byte_is. rewrite N_of_byte by done.
  destruct (N.eqb_spec n m); [by apply bool_decide_eq_true_2|by apply bool_decide_eq_false_2].
Qed.

Lemma cont_of n : (n < 64)%N -> cont (byte_of (0x80 + n)) = true.
Proof. intros H. unfold cont. rewrite byte_in_of by lia. apply andb_true_iff. rewrite !N.leb_le. lia. Qed.

Lemma mod_64 r : (r mod 64 < 64)%N.
Proof. apply N.mod_lt. lia. Qed.

(** A scalar value is encoded as valid UTF-8. *)
Lemma encode_rune_valid r :
  (r < 0x110000)%N -> is_surrogate r = false -> valid_utf8 (encode_rune r) = true.
Proof.
  intros Hr Hs. unfold encode_rune. pose proof (mod_64 r) as Hm0. pose proof (mod_64 (r / 64)) as Hm1.
  pose proof (mod_64 (r / 4096)) as Hm2.
  destruct (N.ltb_spec r 0x80) as [H1|H1].
  { cbn [valid_utf8]. rewrite N_of_byte by lia. by rewrite (proj2 (N.ltb_lt r 128)) by lia. }
  destruct (N.ltb_spec r 0x800) as [H2|H2].
  { assert (r / 64 < 32)%N by (apply N.Div0.div_lt_upper_bound; lia).
    assert (2 <= r / 64)%N by (apply N.div_le_lower_bound; lia).
    cbn [valid_utf8]. rewrite N_of_byte, (proj2 (N.ltb_ge _ 128)) by lia.
    unfold utf8_2. rewrite cont_of, byte_in_of by lia.
    by rewrite (proj2 (N.leb_le _ _)), (proj2 (N.leb_le _ _)) by lia. }
  unfold is_surrogate in Hs.
  destruct (N.ltb_spec r 0x10000) as [H3|H3].
  { assert (r / 4096 < 16)%N by (apply N.Div0.div_lt_upper_bound; lia).
    pose proof (N.div_mod r 64 ltac:(done)). pose proof (N.div_mod (r / 64) 64 ltac:(done)) as Hd.
    rewrite N.Div0.div_div in Hd. change (64 * 64)%N with 4096%N in Hd.
    cbn [valid_utf8]. rewrite N_of_byte, (proj2 (N.ltb_ge _ 128)) by lia.
    assert (utf8_2 (byte_of (0xE0 + r / 4096)) (byte_of (0x80 + (r / 64) mod 64)) = false) as ->.
    { unfold utf8_2. rewrite byte_in_of by lia. apply andb_false_iff. left. apply andb_false_iff. right.
      apply N.leb_gt. lia. }
    assert (utf8_3 (byte_of (0xE0 + r / 4096)) (byte_of (0x80 + (r / 64) mod 64))
              (byte_of (0x80 + r mod 64)) = true) as ->; [|done].
    unfold utf8_3. rewrite !cont_of, !byte_is_of, !byte_in_of by lia. rewrite andb_true_r, !andb_true_r.
    rewrite !orb_true_iff, !andb_true_iff, !N.leb_le, !N.eqb_eq.
    apply andb_false_iff in Hs. rewrite !N.leb_gt in Hs. clear Hm2.
    generalize dependent (r / 4096)%N. intros q Hq. intros.
    generalize dependent (r / 64)%N. intros q1 Hm1 Hr1 Hd.
    generalize dependent (q1 mod 64)%N. generalize dependent (r mod 64)%N. intros. lia. }
  assert (r / 262144 < 5)%N by (apply N.Div0.div_lt_upper_bound; lia).
  pose proof (N.div_mod (r / 4096) 64 ltac:(done)) as Hd.
  rewrite N.Div0.div_div in Hd. change (4096 * 64)%N with 262144%N in Hd.
  pose proof (N.div_mod r 4096 ltac:(done)). pose proof (N.mod_lt r 4096 ltac:(done)).
  set (a := byte_of (0xF0 + r / 262144)). set (b := byte_of (0x80 + (r / 4096) mod 64)).
  assert (Ha2 : forall c, utf8_2 a c = false).
  { intros c. unfold utf8_2, a. rewrite byte_in_of by lia. apply andb_false_iff. left.
    apply andb_false_iff. right. apply N.leb_gt. lia. }
  assert (Ha3 : forall c d, utf8_3 a c d = false).
  { intros c d. unfold utf8_3, a. rewrite !byte_is_of, !byte_in_of by lia.
    repeat match goal with |- context [(?x =? ?y)%N] => rewrite (proj2 (N.eqb_neq x y)) by lia end.
    rewrite (proj2 (N.leb_gt (0xF0 + r / 262144) 0xEC)), (proj2 (N.leb_gt (0xF0 + r / 262144) 0xEF)) by lia.
    by rewrite !andb_false_r. }
  cbn [valid_utf8]. unfold a at 1. rewrite N_of_byte, (proj2 (N.ltb_ge _ 128)) by lia.
  rewrite Ha2, Ha3. rewrite andb_true_r. unfold utf8_4. rewrite !cont_of by lia. rewrite !andb_true_r.
  unfold a, b. rewrite !byte_is_of, !byte_in_of by lia.
  rewrite cont_of by lia. rewrite !orb_true_iff, !andb_true_iff, !N.leb_le, !N.eqb_eq. clear Hm0 Hm1 Ha2 Ha3 a b Hs.
  generalize dependent (r / 262144)%N. generalize dependent (r mod 4096)%N.
  intros m Hm. generalize dependent (r / 4096)%N. intros q1 Hq1 Hm1 q Hq Hr1.
  generalize dependent (q1 mod 64)%N. intros. lia.
Qed.

Lemma hex_value_lt c v : hex_value c = Some v -> (v < 16)%N.
Proof.
  unfold hex_value, byte_in.
  repeat match goal with |- context [if ?b then _ else _] => destruct b eqn:?Hb end; intros [= <-];
    rewrite ?andb_true_iff, ?N.leb_le in *; lia.
Qed.

Lemma u4_lt a b c d v : u4 a b c d = Some v -> (v < 0x10000)%N.
Proof.
  unfold u4. destruct (hex_value a) as [x|] eqn:Ha; [|done]. destruct (hex_value b) as [y|] eqn:Hb; [|done].
  destruct (hex_value c) as [z|] eqn:Hc; [|done]. destruct (hex_value d) as [w|] eqn:Hd; [|done].
  apply hex_value_lt in Ha, Hb, Hc, Hd. cbn [mbind option_bind]. intros [= <-]. lia.
Qed.

Lemma decode_surrogates_scalar r1 r2 r :
  decode_surrogates r1 r2 = Some r -> (r < 0x110000)%N /\ is_surrogate r = false.
Proof.
  unfold decode_surrogates, is_surrogate. destruct (_ && _) eqn:H; [|done]. intros [= <-].
  rewrite !andb_true_iff, !N.leb_le, !N.ltb_lt in H. split; [lia|].
  apply andb_false_iff. right. apply N.leb_gt. lia.
Qed.

Lemma prepend_valid p r s rest :
  prepend p r = Some (s, rest) -> valid_utf8 p = true ->
  (forall s', r = Some (s', rest) -> valid_utf8 s' = true) -> valid_utf8 s = true.
Proof.
  destruct r as [[s' r']|]; [|done]. cbn. intros [= <- <-] Hp H. rewrite valid_utf8_app by done. by apply H.
Qed.

Lemma byte_is_N c n : byte_is c n = true <-> N_of_ascii c = n.
Proof. apply bool_decide_eq_true. Qed.

Ltac bytes := unfold utf8_2, utf8_3, utf8_4, cont, byte_in in *;
  rewrite ?andb_true_iff, ?orb_true_iff, ?andb_true_iff, ?byte_is_N, ?N.leb_le, ?N.ltb_lt in *; lia.

Lemma valid_2 a b : utf8_2 a b = true -> valid_utf8 (String a (String b "")) = true.
Proof. intros H. cbn [valid_utf8]. rewrite H. destruct (_ <? _)%N eqn:E; [bytes|done]. Qed.

Lemma valid_3 a b c : utf8_3 a b c = true -> valid_utf8 (String a (String b (String c ""))) = true.
Proof.
  intros H. cbn [valid_utf8]. rewrite H. destruct (_ <? _)%N eqn:E; [bytes|].
  destruct (utf8_2 a b) eqn:E2; [bytes|done].
Qed.

Lemma valid_4 a b c d :
  utf8_4 a b c d = true -> valid_utf8 (String a (String b (String c (String d "")))) = true.
Proof.
  intros H. cbn [valid_utf8]. rewrite H. destruct (_ <? _)%N eqn:E; [bytes|].
  destruct (utf8_2 a b) eqn:E2; [bytes|]. destruct (utf8_3 a b c) eqn:E3; [bytes|done].
Qed.

Lemma valid_replacement : valid_utf8 replacement = true.
Proof. reflexivity. Qed.

Lemma valid_escape c b : simple_escape c = Some b -> valid_utf8 (String b "") = true.
Proof. unfold simple_escape. repeat (destruct (byte_is _ _); [by intros [= <-]|]). done. Qed.

(** A decoded string is valid UTF-8, whatever the raw bytes are. *)
Lemma unquote_valid s v r : unquote s = Some (v, r) -> valid_utf8 v = true.
Proof.
  remember (String.length s) as n eqn:Hn. revert s v r Hn.
  induction (lt_wf n) as [n _ IH]. intros s v r ->.
  assert (IH' : forall s' v', (String.length s' < String.length s)%nat ->
    unquote s' = Some (v', r) -> valid_utf8 v' = true) by eauto. clear IH. intros H.
  destruct s as [|c s]; [done|]. cbn [unquote] in H. cbn [String.length] in IH'.
  destruct (byte_is c 34); [by injection H as <- <-|].
  repeat match type of H with
  | context [match unquote ?s' with _ => _ end] => fail
  | (if ?b then _ else _) = _ => destruct b eqn:?Hb
  | (match ?s' with EmptyString => _ | String _ _ => _ end) = _ => destruct s' eqn:?
  | (match ?s' with Some _ => _ | None => _ end) = _ => destruct s' eqn:?
  end; try done; subst; cbn [String.length] in IH';
  (eapply prepend_valid; [exact H| |intros ? ?; eapply IH'; [|eassumption]; cbn [String.length]; lia]);
  eauto using valid_2, valid_3, valid_4, valid_replacement, valid_escape.
  all: try match goal with H : decode_surrogates _ _ = Some _ |- _ =>
    apply decode_surrogates_scalar in H as [? ?]; by apply encode_rune_valid end.
  all: try match goal with H : u4 _ _ _ _ = Some _ |- _ => apply u4_lt in H; by apply encode_rune_valid; [lia|] end.
  cbn [valid_utf8]. by rewrite Hb1.
Qed.

(** A string that does not start with a byte of [p]. *)
Definition starts_without (p : ascii -> bool) (s : string) : Prop :=
  match s with EmptyString => True | String c _ => p c = false end.

Lemma expect_without n p s : (forall c, byte_is c n = true -> p c = true) -> starts_without p s -> expect n s = None.
Proof.
  intros Hp. destruct s as [|c s]; [done|]. cbn. destruct (byte_is c n) eqn:E; [|done].
  by rewrite (Hp c E).
Qed.

Lemma span_digits_again s d r t :
  span_digits s = (d, r) -> starts_without is_digit t -> span_digits (d ++ t) = (d, t).
Proof.
  intros H Ht. revert d r H. induction s as [|c s IH]; intros d r H; cbn [span_digits] in H.
  1: injection H as <- <-. 2: destruct (is_digit c) eqn:Hc.
  1, 3: try injection H as <- <-; rewrite sapp_nil_l; destruct t; [done|]; cbn in *; by rewrite Ht.
  destruct (span_digits s) as [d' r']. injection H as <- <-. rewrite sapp_cons. cbn. rewrite Hc.
  by rewrite (IH d' r').
Qed.

Lemma digits1_again s d r t :
  digits1 s = Some (d, r) -> starts_without is_digit t ->
  digits1 (d ++ t) = Some (d, t) /\ exists c d' s', s = String c s' /\ d = String c d'.
Proof.
  unfold digits1. destruct (span_digits s) as [d' r'] eqn:E. destruct d' as [|c d']; [done|].
  intros [= <- <-] Ht. rewrite (span_digits_again _ _ _ _ E Ht). split; [done|].
  destruct s as [|c' s]; [done|]. cbn in E. destruct (is_digit c'); [|done].
  destruct (span_digits s). injection E as <- <- <-. eauto.
Qed.

Lemma parse_int_again s d r t :
  parse_int s = Some (d, r) -> starts_without is_digit t -> parse_int (d ++ t) = Some (d, t).
Proof.
  unfold parse_int. destruct (expect 48 s) eqn:E; [by intros [= <- <-] _|].
  intros H Ht. destruct (digits1_again _ _ _ _ H Ht) as [-> (c & d' & s' & -> & ->)].
  rewrite sapp_cons. cbn in *. by destruct (byte_is c 48).
Qed.

Definition frac_stop (c : ascii) : bool := is_digit c || byte_is c 46.

Lemma starts_without_weaken (p q : ascii -> bool) s :
  (forall c, p c = true -> q c = true) -> starts_without q s -> starts_without p s.
Proof. intros H. destruct s as [|c s]; [done|]. cbn. specialize (H c). destruct (p c), (q c); naive_solver. Qed.

Lemma parse_frac_again s d r t :
  parse_frac s = Some (d, r) -> starts_without frac_stop t ->
  parse_frac (d ++ t) = Some (d, t) /\ starts_without is_digit (d ++ t).
Proof.
  intros H Ht. unfold parse_frac in *.
  assert (Hd : starts_without is_digit t)
    by (eapply starts_without_weaken; [|exact Ht]; unfold frac_stop; by intros c ->).
  destruct (expect 46 s) as [r'|].
  - destruct (digits1 r') as [[d' r'']|] eqn:E; [|done]. cbn in H. injection H as <- <-.
    destruct (digits1_again _ _ _ t E Hd) as [Hr _]. sapp. change (expect 46 (String "." ?u)) with (Some u). cbv beta iota. rewrite Hr. split; [done|]. reflexivity.
  - injection H as <- <-. rewrite sapp_nil_l. rewrite (expect_without 46 frac_stop); [done| |done].
    intros c Hc. unfold frac_stop. by rewrite Hc, orb_true_r.
Qed.

Lemma parse_exp_digits_again e s d r :
  parse_exp_digits e s = Some (d, r) ->
  exists d', d = e ++ d' /\ parse_exp_digits e d' = Some (d, "").
Proof.
  unfold parse_exp_digits. destruct (parse_sign s) as [sg r'] eqn:Es.
  destruct (digits1 r') as [[d' r'']|] eqn:E; [|done]. cbn [mbind option_bind]. intros [= <- <-].
  exists (sg ++ d'). split; [done|]. destruct (digits1_again _ _ _ "" E I) as [Hd (c & d1 & s1 & Hs & Hc)].
  rewrite sapp_nil_r in Hd. assert (Hcd : is_digit c = true).
  { subst r'. unfold digits1 in E. cbn in E. by destruct (is_digit c). }
  assert (parse_sign (sg ++ d') = (sg, d')) as ->; [|by rewrite Hd].
  unfold parse_sign in Es. destruct (expect 43 s); [by injection Es as <- <-|].
  destruct (expect 45 s); [by injection Es as <- <-|]. injection Es as <- <-. rewrite sapp_nil_l, Hc.
  unfold parse_sign. cbn. by rewrite !digit_byte by (done || lia).
Qed.

Lemma parse_exp_again s d r :
  parse_exp s = Some (d, r) -> parse_exp d = Some (d, "") /\ starts_without frac_stop d.
Proof.
  unfold parse_exp. destruct (expect 101 s); [|destruct (expect 69 s)].
  3: by intros [= <- <-].
  all: intros (d' & -> & H)%parse_exp_digits_again; split; [|done]; exact H.
Qed.

(** A number literal that was read is a number literal. *)
Lemma parse_number_again s d r : parse_number s = Some (d, r) -> parse_number d = Some (d, "").
Proof.
  unfold parse_number. destruct (parse_minus s) as [m r0] eqn:Em.
  destruct (parse_int r0) as [[i r1]|] eqn:Ei; [|done]. cbn [mbind option_bind].
  destruct (parse_frac r1) as [[f r2]|] eqn:Ef; [|done]. cbn [mbind option_bind].
  destruct (parse_exp r2) as [[x r3]|] eqn:Ex; [|done]. cbn [mbind option_bind]. intros [= <- <-].
  destruct (parse_exp_again _ _ _ Ex) as [Hx Hx0].
  destruct (parse_frac_again _ _ _ _ Ef Hx0) as [Hf Hf0].
  pose proof (parse_int_again _ _ _ _ Ei Hf0) as Hi.
  assert (parse_minus (m ++ i ++ f ++ x) = (m, i ++ f ++ x)) as ->.
  { unfold parse_minus in *. destruct (expect 45 s); injection Em as <- <-; [done|].
    rewrite sapp_nil_l. destruct (expect 45 _) eqn:E; [|done]. exfalso.
    destruct i as [|c i]; [|rewrite sapp_cons in *].
    - unfold parse_int in Hi. rewrite sapp_nil_l in Hi, E. destruct (expect 48 _); [done|].
      unfold digits1 in Hi. destruct (span_digits _) as [[|] ]; done.
    - cbn in E. destruct (byte_is c 45) eqn:Ec; [|done]. apply byte_is_eq in Ec as ->. done. }
  rewrite Hi. cbn [mbind option_bind]. rewrite Hf. cbn [mbind option_bind]. by rewrite Hx.
Qed.

Lemma literal_value w v s j r : literal w v s = Some (j, r) -> j = v.
Proof. unfold literal. destruct (strip_prefix w s); [|done]. by intros [= <- <-]. Qed.

Lemma parse_scalar_well_formed c s j r : parse_scalar c s = Some (j, r) -> well_formed j.
Proof.
  unfold parse_scalar. destruct (byte_is c 34).
  { destruct (unquote s) as [[v r']|] eqn:E; [|done]. cbn [mbind option_bind]. intros [= <- <-].
    by eapply unquote_valid. }
  repeat (destruct (byte_is c _); [by intros ->%literal_value|]).
  destruct (parse_number (String c s)) as [[lit r']|] eqn:E; [|done]. cbn [mbind option_bind].
  intros [= <- <-]. by eapply parse_number_again.
Qed.

Definition member_ok (kx : string * json) : Prop := valid_utf8 kx.1 = true /\ well_formed kx.2.

Lemma jset_well_formed (m : obj) k v :
  valid_utf8 k = true -> well_formed v -> well_formed (JObject m) -> well_formed (JObject (jset m k v)).
Proof.
  intros Hk Hv. rewrite !well_formed_object. intros [Hs Hm]. split; [by apply jset_sorted|].
  clear Hs. induction Hm as [|[k1 v1] m ? ? IH]; cbn [jset]; [by constructor|].
  destruct (String.compare k k1); constructor; try done; by constructor.
Qed.

Lemma parse_well_formed n :
  (forall s j r, parse_value n s = Some (j, r) -> well_formed j) /\
  (forall s acc j r, parse_members n s acc = Some (j, r) -> well_formed (JObject acc) -> well_formed j) /\
  (forall s acc j r, parse_elements n s acc = Some (j, r) -> well_formed (JArray acc) -> well_formed j).
Proof.
  induction n as [|n (IHv & IHm & IHe)]; [done|]. split_and!.
  - intros s j r H. cbn [parse_value] in H. destruct (skip_ws s) as [|c t]; [done|].
    destruct (byte_is c 123); [destruct (expect 125 _)|].
    + by injection H as <- <-.
    + eapply IHm; [exact H|by split].
    + destruct (byte_is c 91); [destruct (expect 93 _)|].
      * by injection H as <- <-.
      * eapply IHe; [exact H|exact I].
      * by eapply parse_scalar_well_formed.
  - intros s acc j r H Hacc. cbn [parse_members] in H.
    destruct (expect 34 _) as [q|]; [|done]. cbn [mbind option_bind] in H.
    destruct (unquote q) as [[k r1]|] eqn:Ek; [|done]. cbn [mbind option_bind] in H.
    destruct (expect 58 _) as [r2|]; [|done]. cbn [mbind option_bind] in H.
    destruct (parse_value n r2) as [[v r3]|] eqn:Ev; [|done]. cbn [mbind option_bind] in H.
    assert (well_formed (JObject (jset acc k v)))
      by (apply jset_well_formed; [by eapply unquote_valid|by eapply IHv|done]).
    destruct (expect 44 _); [by eapply IHm|]. destruct (expect 125 _); [|done].
    cbn [mbind option_bind] in H. injection H as <- <-. assumption.
  - intros s acc j r H Hacc. cbn [parse_elements] in H.
    destruct (parse_value n s) as [[v r3]|] eqn:Ev; [|done]. cbn [mbind option_bind] in H.
    assert (well_formed (JArray (acc ++ [v]))).
    { rewrite well_formed_array in *. apply Forall_app. split; [done|]. constructor; [by eapply IHv|done]. }
    destruct (expect 44 _); [by eapply IHe|]. destruct (expect 93 _); [|done].
    cbn [mbind option_bind] in H. injection H as <- <-. assumption.
Qed.

(** What [DecodeJSON] returns is well formed, whatever the input bytes are. *)
Lemma decode_well_formed raw j : DecodeJSON raw = Some j -> well_formed j.
Proof.
  unfold DecodeJSON. destruct (validateJSONNesting raw); [|done].
  destruct (parse_value _ raw) as [[v rest]|] eqn:E; [|done]. cbn [mbind option_bind].
  destruct (bool_decide _); [|done]. intros [= <-]. by eapply (proj1 (parse_well_formed _)).
Qed.

Lemma decode_encoded j v : well_formed j -> DecodeJSON (Marshal j) = Some v -> v = j.
Proof.
  intros Hw. unfold DecodeJSON. destruct (validateJSONNesting _); [|done].
  pose proof (parse_marshal j Hw (S (String.length (Marshal j))) "" I ltac:(lia)) as H.
  rewrite sapp_nil_r in H. rewrite H. cbn. by intros [= ->].
Qed.

(** ** Members in order *)

Lemma parse_members_fields n s acc :
  parse_members n s acc =
    match parse_fields n s with
    | Some (ms, r) => Some (JObject (foldl (fun m kv => jset m kv.1 kv.2) acc ms), r)
    | None => None
    end.
Proof.
  revert s acc. induction n as [|n IH]; intros s acc; [done|]. cbn [parse_members parse_fields].
  destruct (expect 34 _) as [q|]; [|done]. cbn [mbind option_bind].
  destruct (unquote q) as [[k r1]|]; [|done]. cbn [mbind option_bind].
  destruct (expect 58 _) as [r2|]; [|done]. cbn [mbind option_bind].
  destruct (parse_value n r2) as [[v r3]|]; [|done]. cbn [mbind option_bind].
  destruct (expect 44 _) as [r4|].
  - rewrite IH. by destruct (parse_fields n r4) as [[ms r5]|].
  - by destruct (expect 125 _).
Qed.

Lemma parse_value_object n s m r :
  parse_value (S n) s = Some (JObject m, r) ->
  exists t, expect 123 (skip_ws s) = Some t /\
    match expect 125 (skip_ws t) with
    | Some r' => m = [] /\ r = r'
    | None => parse_members n t [] = Some (JObject m, r)
    end.
Proof.
  cbn [parse_value]. destruct (skip_ws s) as [|c t]; [done|]. cbn [expect].
  destruct (byte_is c 123); intros H.
  - exists t. split; [done|]. destruct (expect 125 _); [|done]. by injection H as <- <-.
  - exfalso. destruct (byte_is c 91).
    + destruct (expect 93 _); [done|]. revert H. generalize (@nil json). revert t.
      induction n as [|n IH]; intros t acc; [done|]. cbn [parse_elements].
      destruct (parse_value n t) as [[v r']|]; [|done]. cbn [mbind option_bind].
      destruct (expect 44 _) as [r4|]; [apply IH|]. by destruct (expect 93 _).
    + unfold parse_scalar in H. destruct (byte_is c 34).
      { by destruct (unquote t) as [[]|]. }
      repeat (destruct (byte_is c _); [by apply literal_value in H|]).
      by destruct (parse_number _) as [[]|].
Qed.

(** The members decoded into a struct and into a map are the same, a later
    member replacing an earlier one of the same key in the map. *)
Lemma decode_fields_object raw m :
  DecodeJSON raw = Some (JObject m) ->
  exists ms, DecodeFields raw = Some ms /\ m = foldl (fun m kv => jset m kv.1 kv.2) [] ms.
Proof.
  intros H. unfold DecodeFields. rewrite H. unfold DecodeJSON in H.
  destruct (validateJSONNesting raw); [|done].
  destruct (parse_value _ raw) as [[v r]|] eqn:E; [|done]. cbn [mbind option_bind] in H.
  destruct (bool_decide _); [|done]. injection H as ->.
  destruct (parse_value_object _ _ _ _ E) as (t & Ht & Hm). rewrite Ht. cbn [mbind option_bind].
  destruct (expect 125 _) as [r'|]; [destruct Hm as [-> _]; by exists []|].
  rewrite parse_members_fields in Hm. destruct (parse_fields _ t) as [[ms r']|]; [|done].
  injection Hm as <- <-. by exists ms.
Qed.

Lemma parse_fields_marshal m :
  Forall (fun kx => member_ok kx) m -> m <> [] ->
  forall n rest, (String.length (Join (member <$> m) ",") + 1 < n)%nat ->
  parse_fields n (Join (member <$> m) "," ++ String "}" rest) = Some (m, rest).
Proof.
  induction m as [|[k x] m IH]; [done|]. intros [[Wk Wx] Wl]%Forall_cons _ n rest Hn.
  cbn [fst snd] in *. destruct n as [|n]; [lia|].
  assert (Hlen : String.length (member (k, x)) = (String.length (escape k) + String.length (Marshal x) + 3)%nat).
  { unfold member, marshal_string. cbn [fst snd]. rewrite sapp_cons. cbn [String.length].
    rewrite !slen_app. cbn. lia. }
  assert (Hstep : forall u, stops u -> (String.length (member (k, x)) < S n)%nat ->
    parse_fields (S n) (member (k, x) ++ u) =
      match expect 44 (skip_ws u) with
      | Some r4 => '(ms, r5) ← parse_fields n r4; Some ((k, x) :: ms, r5)
      | None => r4 ← expect 125 (skip_ws u); Some ([(k, x)], r4)
      end).
  { intros u Hu Hlt. unfold member, marshal_string. cbn [fst snd]. rewrite !sapp_cons, !sapp_assoc. sapp.
    cbn [parse_fields]. rewrite skip_ws_starts by done. change (expect 34 (String quote ?t)) with (Some t).
    cbn [mbind option_bind]. rewrite unquote_escape by done. cbn [mbind option_bind]. rewrite skip_ws_starts by done.
    change (expect 58 (String ":" ?t)) with (Some t). cbn [mbind option_bind].
    by rewrite (parse_marshal x) by (done || lia). }
  destruct m as [|y m].
  - cbn [fmap list_fmap Join] in *. rewrite Hstep by (done || lia). reflexivity.
  - change (Join (member <$> ((k, x) :: y :: m)) ",")
      with (member (k, x) ++ String "," (Join (member <$> (y :: m)) ",")) in *.
    rewrite slen_app in Hn. cbn [String.length] in Hn. rewrite sapp_assoc, sapp_cons.
    rewrite Hstep by (done || lia). rewrite skip_ws_starts by done.
    change (expect 44 (String "," ?t)) with (Some t). cbn iota. by rewrite IH by (done || lia).
Qed.

(** The members of an encoded object are read in key order. *)
Lemma decode_fields_encoded m ms :
  well_formed (JObject m) -> DecodeFields (Marshal (JObject m)) = Some ms -> ms = m.
Proof.
  intros Hw. unfold DecodeFields. destruct (DecodeJSON _) as [j|] eqn:E; [|done].
  apply decode_encoded in E as ->; [|done]. apply well_formed_object in Hw as [_ Hw].
  rewrite Marshal_object. sapp. rewrite skip_ws_starts by done.
  change (expect 123 (String "{" ?t)) with (Some t). cbn [mbind option_bind].
  destruct m as [|[k x] m]; [by intros [= <-]|].
  assert (Hh : exists t', Join (member <$> ((k, x) :: m)) "," ++ "}" = String quote t').
  { destruct m; cbn [fmap list_fmap Join]; unfold member at 1, marshal_string; eexists; sapp; reflexivity. }
  destruct Hh as [t' Hh]. rewrite Hh, skip_ws_starts, expect_head by done. rewrite <-Hh.
  cbn [String.length]. rewrite parse_fields_marshal; [by intros [= <-]|done..|].
  rewrite slen_app. cbn. lia.
Qed.

(** ** Theorems *)

#[local] Open Scope Z_scope.

(** C40: encoding and decoding are inverse: a well-formed value (sorted keys,
    valid UTF-8, number literals kept as written) that nests at most 128 deep is
    decoded from its encoding as itself; a deeper one is rejected by the guard
    that runs over the raw bytes. *)
Theorem decode_marshal j :
  well_formed j ->
  DecodeJSON (Marshal j) = if nesting j <=? MaxJSONNestingDepth then Some j else None.
Proof.
  intros Hw. unfold DecodeJSON. rewrite nesting_guard by done.
  destruct (nesting j <=? MaxJSONNestingDepth); [|done].
  pose proof (parse_marshal j Hw (S (String.length (Marshal j))) "" I ltac:(lia)) as H.
  rewrite sapp_nil_r in H. rewrite H. cbn. done.
Qed.

Definition demo_json : json :=
  JObject [("a", JArray [JNumber "-1.50e+3"; JNull; JString ("x<" ++ String quote "")]); ("b", JObject [])].

Lemma decode_marshal_witness :
  DecodeJSON (Marshal demo_json) = if nesting demo_json <=? MaxJSONNestingDepth then Some demo_json else None.
Proof. apply decode_marshal. vm_compute. repeat split; repeat constructor. Defined.

End JsonParse.
