(* ===== verification/MediaFragment.v ===== *)
(** * [internal/iiif/media_fragment.go]: targets and their pixel geometry

    [parsePixelXYWH] and the resource URL check of presentation.go, then the
    media-fragment parameters, selectors and targets.  The maps the Go code
    updates in place are values here: each function returns the updated map. *)

From Stdlib Require Import ZArith Lia Ascii String.
From stdpp Require Import base gmap strings list.
From S2P Require Import Prelude GoStrings Json.

Module MediaFragment.
Import GoStr Json.

(** Why a target, fragment or URL is rejected. *)
Inductive geometry_err :=
| EPercent | ENotFour | ENotInteger (index : Z) | EZeroSize | ECoordinate (index : Z) | EExtent
| EMultipleXYWH | EEmptyXYWH | EMultipleTargets | EMultipleSelectors | ENotHTTPURL.
#[export] Instance geometry_err_eq_dec : EqDecision geometry_err.
Proof. solve_decision. Defined.

(** ** [parsePixelXYWH] *)

Definition MaxPixelCoordinate : Z := 2 ^ 31 - 1.

(** Unsigned 64-bit subtraction. *)
Definition usub64 (a b : Z) : Z := (a - b) mod 2 ^ 64.

Record box := { bx : Z; by_ : Z; bw : Z; bh : Z }.
#[export] Instance box_eq_dec : EqDecision box.
Proof. solve_decision. Defined.

Fixpoint parse_coordinates (index : Z) (parts : list string) : result geometry_err (list Z) :=
  match parts with
  | [] => Ok []
  | part :: parts' =>
      match ParseUint (TrimSpace part) with
      | None => Err (ENotInteger index)
      | Some v => vs ← parse_coordinates (index + 1) parts'; Ok (v :: vs)
      end
  end.

Fixpoint coordinates_in_range (index : Z) (values : list Z) : result geometry_err unit :=
  match values with
  | [] => Ok tt
  | v :: vs => if MaxPixelCoordinate <? v then Err (ECoordinate index)
               else coordinates_in_range (index + 1) vs
  end.

Definition strip_pixel (raw : string) : string :=
  let raw := TrimSpace raw in
  if HasPrefix raw "pixel:" then TrimSpace (TrimPrefix raw "pixel:") else raw.

Definition parsePixelXYWH (raw : string) : result geometry_err box :=
  let raw := strip_pixel raw in
  if HasPrefix raw "percent:" then Err EPercent else
  let parts := Split raw ","%char in
  if negb (length parts =? 4)%nat then Err ENotFour else
  values ← parse_coordinates 1 parts;
  match values with
  | [x; y; w; h] =>
      if (w =? 0) || (h =? 0) then Err EZeroSize else
      _ ← coordinates_in_range 1 values;
      if (usub64 MaxPixelCoordinate x <? w) || (usub64 MaxPixelCoordinate y <? h)
      then Err EExtent
      else Ok {| bx := x; by_ := y; bw := w; bh := h |}
  | _ => Err ENotFour
  end.

Definition validatePixelXYWH (raw : string) : result geometry_err unit :=
  _ ← parsePixelXYWH raw; Ok tt.

(** ** URLs *)

(** What the code reads of [net/url]'s [URL]. *)
Record URL := {
  Scheme : string; Host : string; HasUser : bool; Path : string;
  RawQuery : string; Fragment : string;
}.

(** [net/url.Parse], [None] for its error. *)
Class UrlParser := url_Parse : string -> option URL.

Definition requireResourceURL `{UrlParser} (raw : string) (allowQuery : bool)
    : result geometry_err unit :=
  match url_Parse (TrimSpace raw) with
  | None => Err ENotHTTPURL
  | Some u =>
      guard_ok (negb (negb (bool_decide (Scheme u = "http"%string) || bool_decide (Scheme u = "https"%string))
        || bool_decide (Host u = ""%string) || HasUser u
        || negb (bool_decide (Fragment u = ""%string))
        || (negb allowQuery && negb (bool_decide (RawQuery u = ""%string))))) ENotHTTPURL
  end.

Definition requireHTTPURL `{UrlParser} (raw : string) : result geometry_err unit :=
  requireResourceURL raw true.

(** ** Media-fragment parameters *)

Definition fragmentSelectorType : string := "FragmentSelector".
Definition mediaFragsURI : string := "http://www.w3.org/TR/media-frags/".

Definition mediaFragmentParameters (raw : string) : list string :=
  let raw := TrimSpace (TrimPrefix (TrimSpace raw) "#") in
  if bool_decide (raw = ""%string) then [] else Split raw "&"%char.

(** The value of an [xywh] parameter. *)
Definition xywh_value (parameter : string) : option string :=
  let '(key, value, present) := Cut parameter "="%char in
  if present && bool_decide (TrimSpace key = "xywh"%string) then Some value else None.

Definition MediaFragmentPixelXYWH (raw : string) : result geometry_err (option string) :=
  match omap xywh_value (mediaFragmentParameters raw) with
  | [] => Ok None
  | [v] => let found := TrimSpace v in
           if bool_decide (found = ""%string) then Err EEmptyXYWH else Ok (Some found)
  | _ => Err EMultipleXYWH
  end.

(** The unit of the replaced value is kept. *)
Definition keep_unit (existing xywh : string) : string :=
  let replacement := TrimSpace xywh in
  if HasPrefix (TrimSpace existing) "pixel:" && negb (HasPrefix replacement "pixel:")
  then ("pixel:" ++ replacement)%string else replacement.

(** The loop over the parameters: the first [xywh] is replaced, a second is an
    error. *)
Fixpoint replace_parameters (xywh : string) (replaced : bool) (parameters : list string)
    : result geometry_err (list string * bool) :=
  match parameters with
  | [] => Ok ([], replaced)
  | p :: ps =>
      match xywh_value p with
      | Some existing =>
          if replaced then Err EMultipleXYWH else
          '(ps', r) ← replace_parameters xywh true ps;
          let '(key, _, _) := Cut p "="%char in
          Ok ((key ++ "=" ++ keep_unit existing xywh)%string :: ps', r)
      | None => '(ps', r) ← replace_parameters xywh replaced ps; Ok (p :: ps', r)
      end
  end.

Definition xywh_parameter (xywh : string) : string := ("xywh=" ++ TrimSpace xywh)%string.

Definition ReplaceMediaFragmentPixelXYWH (raw xywh : string) : result geometry_err string :=
  _ ← validatePixelXYWH xywh;
  '(ps, replaced) ← replace_parameters xywh false (mediaFragmentParameters raw);
  Ok (Join (if replaced : bool then ps else ps ++ [xywh_parameter xywh]) "&").

Definition RemoveMediaFragmentPixelXYWH (raw : string) : result geometry_err string :=
  let ps := mediaFragmentParameters raw in
  if (1 <? length (omap xywh_value ps))%nat then Err EMultipleXYWH
  else Ok (Join (filter (fun p => xywh_value p = None) ps) "&").

(** ** Targets *)

Definition isCanvasReference (value : obj) : bool :=
  bool_decide (as_string (jget value "type") = "Canvas"%string)
  && negb (bool_decide (TrimSpace (as_string (jget value "id")) = ""%string))
  && jget_nil value "source".

Fixpoint TargetCanvas (target : json) : string :=
  match target with
  | JString s => let '(canvas, _, _) := Cut (TrimSpace s) "#"%char in TrimSpace canvas
  | JObject m =>
      match jget m "source" with
      | Some (JString source) => TrimSpace source
      | Some (JObject source) => TrimSpace (as_string (jget source "id"))
      | _ => if isCanvasReference m then TrimSpace (as_string (jget m "id")) else ""
      end
  | JArray [x] => TargetCanvas x
  | _ => ""
  end.

(** [strings.EqualFold(strings.TrimSpace(type), "FragmentSelector")] *)
Definition is_fragment_selector (m : obj) : bool :=
  EqualFold (TrimSpace (as_string (jget m "type"))) fragmentSelectorType.

(** [visit]: the xywh values of the fragment selectors, through nested arrays. *)
Fixpoint visit_selectors (value : json) : result geometry_err (list string) :=
  match value with
  | JObject m =>
      if is_fragment_selector m then
        x ← MediaFragmentPixelXYWH (as_string (jget m "value"));
        Ok (option_list x)
      else Ok []
  | JArray l =>
      (fix go l := match l with
       | [] => Ok []
       | x :: l' => a ← visit_selectors x; b ← go l'; Ok (a ++ b)
       end) l
  | _ => Ok []
  end.

Definition selectorPixelXYWH (raw : option json) : result geometry_err (option string) :=
  found ← visit_selectors (default JNull raw);
  match found with
  | [] => Ok None
  | [x] => Ok (Some x)
  | _ => Err EMultipleSelectors
  end.

Fixpoint TargetPixelXYWH (target : json) : result geometry_err (option string) :=
  match target with
  | JString s =>
      let '(_, fragment, present) := Cut (TrimSpace s) "#"%char in
      if present then MediaFragmentPixelXYWH fragment else Ok None
  | JObject m => selectorPixelXYWH (jget m "selector")
  | JArray [] => Ok None
  | JArray [x] => TargetPixelXYWH x
  | JArray _ => Err EMultipleTargets
  | _ => Ok None
  end.

(** ** Replacing a target's geometry *)

Definition setTargetCanvas (target : obj) (canvasURI : string) : obj :=
  match jget target "source" with
  | Some (JObject source) =>
      let source := jset source "id" (JString canvasURI) in
      jset target "source" (JObject
        (if jget_nil source "type" then jset source "type" (JString "Canvas") else source))
  | _ => jset target "source" (JString canvasURI)
  end.

Definition new_fragment_selector (value : string) : obj :=
  jset (jset (jset [] "type" (JString fragmentSelectorType)) "conformsTo" (JString mediaFragsURI))
    "value" (JString value).

(** The selectors [collect] sees, with their positions: one object, or the
    entries of an array. *)
Definition selector_entries (selector : option json) : list json :=
  match selector with
  | Some (JObject m) => [JObject m]
  | Some (JArray l) => l
  | _ => []
  end.

(** [collect] over the entries: the positions of the fragment selectors and of
    the one that has an xywh. *)
Fixpoint collect (pos : nat) (entries : list json) (fragments : list nat) (spatial : option nat)
    : result geometry_err (list nat * option nat) :=
  match entries with
  | [] => Ok (fragments, spatial)
  | JObject m :: entries' =>
      if is_fragment_selector m then
        x ← MediaFragmentPixelXYWH (as_string (jget m "value"));
        match x, spatial with
        | Some _, Some _ => Err EMultipleSelectors
        | Some _, None => collect (S pos) entries' (fragments ++ [pos]) (Some pos)
        | None, _ => collect (S pos) entries' (fragments ++ [pos]) spatial
        end
      else collect (S pos) entries' fragments spatial
  | _ :: entries' => collect (S pos) entries' fragments spatial
  end.

(** The chosen selector takes the new fragment value. *)
Definition update_selector (m : obj) (xywh : string) : result geometry_err obj :=
  updated ← ReplaceMediaFragmentPixelXYWH (as_string (jget m "value")) xywh;
  let m := jset (jset m "type" (JString fragmentSelectorType)) "value" (JString updated) in
  Ok (if jget_nil m "conformsTo" then jset m "conformsTo" (JString mediaFragsURI) else m).

(** The chosen selector is updated in place. *)
Definition replace_at (target : obj) (p : nat) (xywh : string) : result geometry_err obj :=
  match jget target "selector" with
  | Some (JObject m) => m' ← update_selector m xywh; Ok (jset target "selector" (JObject m'))
  | Some (JArray l) =>
      match l !! p with
      | Some (JObject m) =>
          m' ← update_selector m xywh;
          Ok (jset target "selector" (JArray (<[p := JObject m']> l)))
      | _ => Err EMultipleSelectors (* not reached: the position comes from [collect] *)
      end
  | _ => Err EMultipleSelectors
  end.

(** No selector to update: a new one joins the others. *)
Definition add_selector (target : obj) (xywh : string) : obj :=
  let fragment := JObject (new_fragment_selector (xywh_parameter xywh)) in
  jset target "selector"
    match jget target "selector" with
    | None | Some JNull => fragment
    | Some (JArray l) => JArray (l ++ [fragment])
    | Some other => JArray [other; fragment]
    end.

Definition replaceSelectorPixelXYWH (target : obj) (xywh : string) : result geometry_err obj :=
  '(fragments, spatial) ← collect 0 (selector_entries (jget target "selector")) [] None;
  let chosen := match spatial, fragments with
                | Some p, _ => Some p
                | None, [p] => Some p
                | None, _ => None
                end in
  match chosen with
  | Some p => replace_at target p xywh
  | None => Ok (add_selector target xywh)
  end.

(** A Canvas reference becomes the source of a SpecificResource. *)
Definition specific_resource (value : obj) : obj :=
  if isCanvasReference value
  then jset (jset [] "type" (JString "SpecificResource")) "source" (JObject value)
  else value.

Definition ReplaceTargetPixelXYWH `{UrlParser} (raw : json) (canvasURI xywh : string)
    : result geometry_err obj :=
  let canvasURI := TrimSpace canvasURI in
  _ ← requireHTTPURL canvasURI;
  let fresh value := jset (jset [] "source" (JString canvasURI))
                       "selector" (JObject (new_fragment_selector value)) in
  match raw with
  | JString value =>
      let '(_, fragment, _) := Cut (TrimSpace value) "#"%char in
      updated ← ReplaceMediaFragmentPixelXYWH fragment xywh;
      Ok (fresh updated)
  | JObject value => replaceSelectorPixelXYWH (setTargetCanvas (specific_resource value) canvasURI) xywh
  | _ => Ok (fresh (xywh_parameter xywh))
  end.

(** ** Geometry: bounds and round trip *)

(** A box inside the signed 32-bit pixel space. *)
Definition box_ok (b : box) : Prop :=
  0 <= bx b /\ 0 <= by_ b /\ 0 < bw b /\ 0 < bh b
  /\ bx b + bw b <= MaxPixelCoordinate /\ by_ b + bh b <= MaxPixelCoordinate.

(** [fmt.Sprintf("%d,%d,%d,%d", x, y, w, h)] *)
Definition format_box (b : box) : string :=
  Join [itoa (bx b); itoa (by_ b); itoa (bw b); itoa (bh b)] ",".

Lemma parse_coordinates_nonneg index parts vs :
  parse_coordinates index parts = Ok vs -> Forall (fun v => 0 <= v <= MaxUint64) vs.
Proof.
  revert index vs. induction parts as [|p parts IH]; intros index vs H; simpl in H.
  - injection H as <-. constructor.
  - destruct (ParseUint (TrimSpace p)) as [v|] eqn:Hv; [|done].
    apply result_bind_Ok in H as (vs' & H & [= <-]). constructor; [by eapply ParseUint_range|eauto].
Qed.

Lemma coordinates_in_range_Ok index vs :
  coordinates_in_range index vs = Ok tt <-> Forall (fun v => v <= MaxPixelCoordinate) vs.
Proof.
  revert index. induction vs as [|v vs IH]; intros index; simpl; [by split|].
  rewrite Forall_cons. destruct (MaxPixelCoordinate <? v) eqn:E; split_bools.
  - split; [done|]. lia.
  - rewrite IH. naive_solver.
Qed.

(** The extent check never wraps: the coordinates are in range when it runs. *)
Lemma usub64_id a b : 0 <= b <= a -> a < 2 ^ 64 -> usub64 a b = a - b.
Proof. intros. unfold usub64. apply Z.mod_small. lia. Qed.

Lemma parsePixelXYWH_inv raw b :
  parsePixelXYWH raw = Ok b -> box_ok b /\
  exists p1 p2 p3 p4, Split (strip_pixel raw) ","%char = [p1; p2; p3; p4] /\
    parse_coordinates 1 [p1; p2; p3; p4] = Ok [bx b; by_ b; bw b; bh b].
Proof.
  unfold parsePixelXYWH. destruct (HasPrefix _ "percent:"); [done|].
  destruct (negb _) eqn:Hlen; [done|]. apply negb_false_iff, Nat.eqb_eq in Hlen.
  intros (vs & Hvs & H)%result_bind_Ok. pose proof (parse_coordinates_nonneg _ _ _ Hvs) as Hnn.
  destruct vs as [|x [|y [|w [|h [|]]]]]; try done.
  destruct ((w =? 0) || (h =? 0)) eqn:Hz; [done|].
  apply result_bind_Ok in H as ([] & Hr%coordinates_in_range_Ok & H).
  rewrite !Forall_cons in Hnn, Hr. destruct Hnn as (Hx & Hy & Hw & Hh & _).
  destruct Hr as (Rx & Ry & Rw & Rh & _). unfold MaxPixelCoordinate in *. split_bools.
  rewrite !usub64_id in H by lia. destruct (_ || _) eqn:He; [done|]. injection H as <-. split_bools.
  split; [unfold box_ok, MaxPixelCoordinate; cbn; lia|].
  destruct (Split (strip_pixel raw) _) as [|p1 [|p2 [|p3 [|p4 [|]]]]]; try done.
  by exists p1, p2, p3, p4.
Qed.

Lemma itoa_other v : 0 <= v -> all_chars (other_than ","%char) (itoa v) = true.
Proof.
  intros Hv. destruct (itoa_digits v Hv) as [Hd _]. eapply all_chars_impl; [|exact Hd].
  intros c. by apply is_digit_other.
Qed.

Lemma format_box_visible b : box_ok b -> all_chars visible (format_box b) = true.
Proof.
  intros (? & ? & ? & ? & _). apply all_chars_Join; [|done].
  repeat (constructor; [eapply all_chars_impl; [apply is_digit_visible|apply itoa_digits; lia]|]).
  constructor.
Qed.

(** A prefix of visible bytes that starts with a letter is not a number. *)
Lemma format_no_prefix b c p :
  box_ok b -> is_digit c = false -> HasPrefix (format_box b) (String c p) = false.
Proof.
  intros (Hx & _) Hc. unfold format_box, HasPrefix.
  change (Join (itoa (bx b) :: ?l) ",") with (itoa (bx b) ++ "," ++ Join l ",")%string.
  destruct (itoa_digits (bx b) Hx) as [Hd Hne].
  destruct (itoa (bx b)) as [|d t]; [done|]. rewrite sapp_cons.
  cbn [all_chars] in Hd. cbn [strip_prefix]. apply andb_true_iff in Hd as [Hd _].
  rewrite (bool_decide_eq_false_2 (c = d)) by congruence. apply bool_decide_eq_false. by intros [? ?].
Qed.

Lemma strip_pixel_format b : box_ok b -> strip_pixel (format_box b) = format_box b.
Proof.
  intros Hb. unfold strip_pixel. rewrite TrimSpace_visible by by apply format_box_visible.
  by rewrite format_no_prefix.
Qed.

Lemma parse_coordinates_itoa index vs :
  Forall (fun v => 0 <= v <= MaxUint64) vs -> parse_coordinates index (itoa <$> vs) = Ok vs.
Proof.
  intros H. revert index. induction H as [|v vs Hv Hvs IH]; intros index; [done|].
  cbn [fmap list_fmap parse_coordinates].
  rewrite TrimSpace_visible.
  - by rewrite ParseUint_itoa, IH.
  - eapply all_chars_impl; [apply is_digit_visible|apply itoa_digits; lia].
Qed.

Lemma parse_format_box b : box_ok b -> parsePixelXYWH (format_box b) = Ok b.
Proof.
  intros Hb. unfold parsePixelXYWH. rewrite strip_pixel_format, format_no_prefix by done.
  pose proof Hb as (Hx & Hy & Hw & Hh & Hxw & Hyh). unfold MaxPixelCoordinate in *.
  unfold format_box. rewrite (Split_Join _ ","%char); [|done|].
  2:{ repeat (constructor; [apply itoa_other; lia|]). constructor. }
  cbn [length Nat.eqb negb].
  change [itoa (bx b); itoa (by_ b); itoa (bw b); itoa (bh b)]
    with (itoa <$> [bx b; by_ b; bw b; bh b]).
  rewrite parse_coordinates_itoa by (repeat constructor; unfold MaxUint64; lia).
  cbn [mbind result_bind].
  replace ((bw b =? 0) || (bh b =? 0)) with false by lia.
  rewrite (proj2 (coordinates_in_range_Ok 1 _)) by (repeat constructor; unfold MaxPixelCoordinate; lia).
  cbn [mbind result_bind]. unfold MaxPixelCoordinate. rewrite !usub64_id by lia.
  replace ((2 ^ 31 - 1 - bx b <? bw b) || (2 ^ 31 - 1 - by_ b <? bh b)) with false by lia.
  by destruct b.
Qed.

(** ** Reading back a replaced fragment *)

(** The other dimensions of a fragment. *)
Definition non_spatial (ps : list string) : list string := filter (fun p => xywh_value p = None) ps.

(** A fragment as clients write it: printable ASCII without spaces, and no
    second [#]. *)
Definition plain_fragment (raw : string) : Prop :=
  all_chars visible raw = true /\ HasPrefix (TrimPrefix raw "#") "#" = false.

Lemma visible_TrimPrefix raw p : all_chars visible raw = true -> all_chars visible (TrimPrefix raw p) = true.
Proof.
  unfold TrimPrefix. destruct (strip_prefix p raw) as [r|] eqn:E; [|done].
  apply strip_prefix_Some in E as ->. rewrite all_chars_app. by intros [_ ?]%andb_true_iff.
Qed.

Lemma parameters_visible raw :
  all_chars visible raw = true ->
  mediaFragmentParameters raw =
    if bool_decide (TrimPrefix raw "#" = ""%string) then [] else Split (TrimPrefix raw "#") "&"%char.
Proof.
  intros H. unfold mediaFragmentParameters.
  by rewrite (TrimSpace_visible raw), (TrimSpace_visible (TrimPrefix raw "#")) by auto using visible_TrimPrefix.
Qed.

(** What makes a list of parameters the parameters of their own text. *)
Record params_ok (ps : list string) : Prop := {
  po_visible : Forall (fun p => all_chars visible p = true) ps;
  po_amp : Forall (fun p => all_chars (other_than "&"%char) p = true) ps;
  po_hash : HasPrefix (Join ps "&") "#" = false;
}.

Lemma params_ok_of raw : plain_fragment raw -> params_ok (mediaFragmentParameters raw).
Proof.
  intros [Hv Hh]. rewrite parameters_visible by done. case_bool_decide as E; [by constructor|].
  constructor.
  - by apply Split_all_chars, visible_TrimPrefix.
  - apply Split_other.
  - by rewrite (Join_Split _ "&"%char).
Qed.

Lemma params_of_join ps :
  params_ok ps -> Join ps "&" <> ""%string -> mediaFragmentParameters (Join ps "&") = ps.
Proof.
  intros [Hv Ha Hh] Hne. rewrite parameters_visible by by apply all_chars_Join.
  rewrite TrimPrefix_none by done. rewrite bool_decide_eq_false_2 by done.
  apply (Split_Join _ "&"%char); [|done]. by intros ->.
Qed.

Lemma replace_parameters_true xywh ps ps' b :
  replace_parameters xywh true ps = Ok (ps', b) -> ps' = ps /\ b = true /\ omap xywh_value ps = [].
Proof.
  revert ps' b. induction ps as [|p ps IH]; intros ps' b H; simpl in H.
  - by injection H as <- <-.
  - destruct (xywh_value p) eqn:Hp; [done|]. apply result_bind_Ok in H as ([q r] & H & [= <- <-]).
    apply IH in H as (-> & -> & Ho). simpl. by rewrite Hp.
Qed.

(** The loop replaces the only xywh parameter, or finds none. *)
Lemma replace_parameters_spec xywh ps ps' b :
  replace_parameters xywh false ps = Ok (ps', b) ->
  (b = false /\ ps' = ps /\ omap xywh_value ps = []) \/
  (b = true /\ exists l1 key existing l2, ps = l1 ++ (key ++ String "="%char existing)%string :: l2 /\
     all_chars (other_than "="%char) key = true /\ TrimSpace key = "xywh"%string /\
     omap xywh_value l1 = [] /\ omap xywh_value l2 = [] /\
     ps' = l1 ++ (key ++ String "="%char (keep_unit existing xywh))%string :: l2).
Proof.
  revert ps' b. induction ps as [|p ps IH]; intros ps' b H; simpl in H.
  - injection H as <- <-. by left.
  - destruct (xywh_value p) as [v|] eqn:Hp.
    + apply result_bind_Ok in H as ([q r] & H & Heq).
      apply replace_parameters_true in H as (-> & -> & Ho).
      unfold xywh_value in Hp. destruct (Cut p "="%char) as [[key v'] f] eqn:Hc. injection Heq as <- <-.
      destruct (f && _) eqn:Hk; [|done]. injection Hp as ->. split_bools. subst f.
      apply Cut_true in Hc as [-> Hkey]. right. split; [done|].
      by exists [], key, v, ps.
    + apply result_bind_Ok in H as ([q r] & H & [= <- <-]).
      destruct (IH q r H) as [(-> & -> & Ho)|(-> & l1 & key & ex & l2 & -> & ? & ? & Ho & ? & ->)].
      * left. simpl. by rewrite Hp.
      * right. split; [done|]. exists (p :: l1), key, ex, l2. split_and!; try done. simpl. by rewrite Hp.
Qed.

Lemma xywh_value_eq key v :
  all_chars (other_than "="%char) key = true -> TrimSpace key = "xywh"%string ->
  xywh_value (key ++ String "="%char v) = Some v.
Proof.
  intros Hk Ht. unfold xywh_value. rewrite Cut_app by done. by rewrite Ht, bool_decide_eq_true_2.
Qed.

Lemma omap_none_filter ps : omap xywh_value ps = [] -> non_spatial ps = ps.
Proof.
  unfold non_spatial. induction ps as [|p ps IH]; simpl; [done|]. destruct (xywh_value p) eqn:E; [done|].
  intros H. rewrite filter_cons_True by done. by rewrite IH.
Qed.

Lemma non_spatial_app l1 l2 : non_spatial (l1 ++ l2) = non_spatial l1 ++ non_spatial l2.
Proof. apply filter_app. Qed.

(** *** The characters of an accepted value *)

Definition box_char (c : ascii) : bool := is_digit c || bool_decide (c = ","%char).

Lemma coordinates_chars index ps vs :
  Forall (fun p => all_chars visible p = true) ps -> parse_coordinates index ps = Ok vs ->
  Forall (fun p => all_chars box_char p = true) ps.
Proof.
  intros Hv. revert index vs. induction Hv as [|p ps Hp Hps IH]; intros index vs H; simpl in H; [by constructor|].
  rewrite TrimSpace_visible in H by done. destruct (ParseUint p) as [v|] eqn:E; [|done].
  apply result_bind_Ok in H as (vs' & H & _). constructor; [|eauto].
  eapply all_chars_impl; [|by eapply ParseUint_digits]. unfold box_char. by intros c ->.
Qed.

Lemma strip_pixel_cases raw :
  all_chars visible raw = true ->
  (HasPrefix raw "pixel:" = true /\ raw = ("pixel:" ++ strip_pixel raw)%string) \/
  (HasPrefix raw "pixel:" = false /\ strip_pixel raw = raw).
Proof.
  intros Hv. unfold strip_pixel. rewrite TrimSpace_visible by done.
  destruct (HasPrefix raw "pixel:") eqn:E; [left|by right]. split; [done|].
  rewrite TrimSpace_visible by by apply visible_TrimPrefix. by apply HasPrefix_true.
Qed.

Lemma strip_pixel_visible raw : all_chars visible raw = true -> all_chars visible (strip_pixel raw) = true.
Proof.
  intros Hv. destruct (strip_pixel_cases raw Hv) as [[_ E]|[_ ->]]; [|done].
  rewrite E, all_chars_app in Hv. by apply andb_true_iff in Hv as [_ ?].
Qed.

Lemma accepted_chars raw b :
  all_chars visible raw = true -> parsePixelXYWH raw = Ok b ->
  all_chars box_char (strip_pixel raw) = true.
Proof.
  intros Hv (_ & p1 & p2 & p3 & p4 & Hs & Hp)%parsePixelXYWH_inv.
  pose proof (Split_all_chars visible _ ","%char (strip_pixel_visible raw Hv)) as Hvis.
  rewrite Hs in Hvis. apply coordinates_chars in Hp; [|done].
  rewrite <-(Join_Split (strip_pixel raw) ","%char), Hs. by apply all_chars_Join.
Qed.

Lemma accepted_other raw b sep :
  all_chars visible raw = true -> parsePixelXYWH raw = Ok b ->
  all_chars (other_than sep) "pixel:," = true -> is_digit sep = false ->
  all_chars (other_than sep) raw = true.
Proof.
  intros Hv Hp Hsep Hd. pose proof (accepted_chars raw b Hv Hp) as Hc.
  assert (Hstrip : all_chars (other_than sep) (strip_pixel raw) = true).
  { eapply all_chars_impl; [|exact Hc]. unfold box_char. intros c [H|H]%orb_true_iff.
    - by apply is_digit_other.
    - split_bools. subst. cbn [all_chars] in Hsep. split_bools. done. }
  destruct (strip_pixel_cases raw Hv) as [[_ ->]|[_ <-]]; [|done].
  rewrite all_chars_app, Hstrip, andb_true_r.
  change "pixel:,"%string with ("pixel:" ++ ",")%string in Hsep. rewrite all_chars_app in Hsep.
  by apply andb_true_iff in Hsep as [? _].
Qed.

Lemma parse_strip a b : strip_pixel a = strip_pixel b -> parsePixelXYWH a = parsePixelXYWH b.
Proof. unfold parsePixelXYWH. by intros ->. Qed.

(** The new value reads as the requested box. *)
Lemma keep_unit_spec existing xywh b :
  all_chars visible xywh = true -> parsePixelXYWH xywh = Ok b ->
  all_chars visible (keep_unit existing xywh) = true /\ parsePixelXYWH (keep_unit existing xywh) = Ok b
  /\ all_chars (other_than "&"%char) (keep_unit existing xywh) = true
  /\ keep_unit existing xywh <> ""%string.
Proof.
  intros Hv Hp. pose proof (accepted_other _ _ "&"%char Hv Hp eq_refl eq_refl) as Hamp.
  unfold keep_unit. rewrite (TrimSpace_visible xywh) by done.
  destruct (HasPrefix (TrimSpace existing) "pixel:" && negb (HasPrefix xywh "pixel:")) eqn:E.
  - apply andb_true_iff in E as [_ E]. apply negb_true_iff in E. split_and!.
    + by rewrite all_chars_app, Hv.
    + rewrite <-Hp. apply parse_strip. destruct (strip_pixel_cases xywh Hv) as [[? _]|[_ ->]]; [congruence|].
      unfold strip_pixel. rewrite TrimSpace_visible by by rewrite all_chars_app, Hv.
      by rewrite HasPrefix_app, TrimPrefix_app, (TrimSpace_visible xywh).
    + by rewrite all_chars_app, Hamp.
    + by destruct xywh.
  - split_and!; [done|done|done|]. intros ->. by vm_compute in Hp.
Qed.

Lemma app_cons_ne (A : Type) (l1 l2 : list A) x : l1 ++ x :: l2 <> [].
Proof. by destruct l1. Qed.

Lemma Join_app l1 l2 sep : l1 <> [] -> l2 <> [] -> Join (l1 ++ l2) sep = (Join l1 sep ++ sep ++ Join l2 sep)%string.
Proof.
  induction l1 as [|x l1 IH]; [done|]. intros _ Hl2. destruct l1 as [|y l1].
  - simpl. by destruct l2.
  - change (Join ((x :: y :: l1) ++ l2) sep) with (x ++ sep ++ Join ((y :: l1) ++ l2) sep)%string.
    rewrite IH by done. change (Join (x :: y :: l1) sep) with (x ++ sep ++ Join (y :: l1) sep)%string.
    by rewrite !sapp_assoc.
Qed.

Lemma Join_cons x l sep : exists t, Join (x :: l) sep = (x ++ t)%string.
Proof. destruct l; [exists ""; by rewrite sapp_nil_r|]. eexists. reflexivity. Qed.

Lemma HasPrefix1_cons c s t : HasPrefix (String c s) "#" = HasPrefix (String c t) "#".
Proof.
  unfold HasPrefix. cbn [strip_prefix]. destruct (bool_decide ("#"%char = c)); [|done].
  by rewrite !bool_decide_eq_true_2 by eauto.
Qed.

(** The first byte decides whether a fragment starts with [#]. *)
Lemma HasPrefix1_app k t1 t2 : k <> ""%string -> HasPrefix (k ++ t1) "#" = HasPrefix (k ++ t2) "#".
Proof. destruct k as [|c k]; [done|]. intros _. rewrite !sapp_cons. apply HasPrefix1_cons. Qed.

Lemma hash_replaced l1 key v v' l2 :
  TrimSpace key = "xywh"%string ->
  HasPrefix (Join (l1 ++ (key ++ String "="%char v)%string :: l2) "&") "#" =
  HasPrefix (Join (l1 ++ (key ++ String "="%char v')%string :: l2) "&") "#".
Proof.
  intros Hk. destruct l1 as [|x l1].
  - destruct (Join_cons (key ++ String "="%char v) l2 "&") as [t1 E1].
    destruct (Join_cons (key ++ String "="%char v') l2 "&") as [t2 E2]. simpl app. rewrite E1, E2, !sapp_assoc.
    apply HasPrefix1_app. by intros ->.
  - destruct (decide (x = ""%string)) as [->|Hx].
    + simpl. destruct (l1 ++ _) eqn:E; [by destruct l1|]. clear E.
      destruct (l1 ++ (key ++ String "="%char v')%string :: l2) eqn:E; [by destruct l1|]. done.
    + destruct (Join_cons x (l1 ++ (key ++ String "="%char v)%string :: l2) "&") as [t1 E1].
      destruct (Join_cons x (l1 ++ (key ++ String "="%char v')%string :: l2) "&") as [t2 E2].
      change ((x :: l1) ++ ?l) with (x :: (l1 ++ l)). rewrite E1, E2. by apply HasPrefix1_app.
Qed.

Lemma replaced_params_ok l1 key ex x l2 b :
  params_ok (l1 ++ (key ++ String "="%char ex)%string :: l2) -> TrimSpace key = "xywh"%string ->
  all_chars visible x = true -> parsePixelXYWH x = Ok b ->
  params_ok (l1 ++ (key ++ String "="%char (keep_unit ex x))%string :: l2).
Proof.
  intros [Hv Ha Hh] Hk Hvis Hp. destruct (keep_unit_spec ex x b Hvis Hp) as (Kv & _ & Ka & _).
  rewrite Forall_app, Forall_cons in Hv, Ha. destruct Hv as (Hv1 & Hv2 & Hv3).
  destruct Ha as (Ha1 & Ha2 & Ha3). rewrite all_chars_app in Hv2, Ha2.
  apply andb_true_iff in Hv2 as [Hv2 _], Ha2 as [Ha2 _]. constructor.
  - rewrite Forall_app, Forall_cons. split_and!; [done| |done]. rewrite all_chars_app, Hv2. exact Kv.
  - rewrite Forall_app, Forall_cons. split_and!; [done| |done]. rewrite all_chars_app, Ha2. exact Ka.
  - by rewrite (hash_replaced _ _ _ ex).
Qed.

Lemma appended_params_ok ps x b :
  params_ok ps -> all_chars visible x = true -> parsePixelXYWH x = Ok b ->
  params_ok (ps ++ [xywh_parameter x]).
Proof.
  intros [Hv Ha Hh] Hvis Hp. pose proof (accepted_other _ _ "&"%char Hvis Hp eq_refl eq_refl) as Hamp.
  unfold xywh_parameter. rewrite (TrimSpace_visible x) by done. constructor.
  - apply Forall_app. split; [done|]. repeat constructor. by rewrite all_chars_app, Hvis.
  - apply Forall_app. split; [done|]. repeat constructor. by rewrite all_chars_app, Hamp.
  - destruct ps as [|q ps]; [done|]. rewrite Join_app by done.
    destruct (Join (q :: ps) "&") as [|c t] eqn:E; [done|]. rewrite sapp_cons.
    etransitivity; [apply HasPrefix1_cons|exact Hh].
Qed.

Lemma append_ne_r (a c : string) : c <> ""%string -> (a ++ c)%string <> ""%string.
Proof. by destruct a. Qed.

Lemma Join_ne_last l x sep : x <> ""%string -> Join (l ++ [x]) sep <> ""%string.
Proof.
  intros Hx. destruct l as [|y l]; [done|]. rewrite Join_app by done. simpl Join at 2.
  by apply append_ne_r, append_ne_r.
Qed.

Lemma Join_ne_mid l1 x l2 sep : x <> ""%string -> Join (l1 ++ x :: l2) sep <> ""%string.
Proof.
  intros Hx. assert (Hc : Join (x :: l2) sep <> ""%string).
  { destruct (Join_cons x l2 sep) as [t ->]. by destruct x. }
  destruct l1 as [|y l1]; [done|]. rewrite Join_app by done. by apply append_ne_r, append_ne_r.
Qed.

Lemma single_value ps v b :
  omap xywh_value ps = [v] -> all_chars visible v = true -> parsePixelXYWH v = Ok b ->
  v <> ""%string -> mediaFragmentParameters (Join ps "&") = ps ->
  MediaFragmentPixelXYWH (Join ps "&") = Ok (Some v).
Proof.
  intros Ho Hv Hp Hne Hps. unfold MediaFragmentPixelXYWH. rewrite Hps, Ho, TrimSpace_visible by done.
  by rewrite bool_decide_eq_false_2.
Qed.

Lemma replace_fragment_spec raw x s :
  plain_fragment raw -> all_chars visible x = true ->
  ReplaceMediaFragmentPixelXYWH raw x = Ok s ->
  exists v b, MediaFragmentPixelXYWH s = Ok (Some v) /\ parsePixelXYWH x = Ok b /\
    parsePixelXYWH v = Ok b /\
    non_spatial (mediaFragmentParameters s) = non_spatial (mediaFragmentParameters raw).
Proof.
  intros Hraw Hx H. unfold ReplaceMediaFragmentPixelXYWH in H.
  apply result_bind_Ok in H as ([] & Hval & H). unfold validatePixelXYWH in Hval.
  apply result_bind_Ok in Hval as (b & Hb & _).
  apply result_bind_Ok in H as ([ps r] & Hr & [= <-]).
  pose proof (params_ok_of raw Hraw) as Hok.
  destruct (replace_parameters_spec _ _ _ _ Hr)
    as [(-> & -> & Ho)|(-> & l1 & key & ex & l2 & Hps & Hkey & Hk & Ho1 & Ho2 & ->)].
  - pose proof (appended_params_ok _ _ _ Hok Hx Hb) as Hok'.
    assert (Hpar : mediaFragmentParameters (Join (mediaFragmentParameters raw ++ [xywh_parameter x]) "&")
                   = mediaFragmentParameters raw ++ [xywh_parameter x])
      by (apply params_of_join; [done|by apply Join_ne_last]).
    assert (Hval : xywh_value (xywh_parameter x) = Some x).
    { unfold xywh_parameter. rewrite TrimSpace_visible by done. by apply (xywh_value_eq "xywh"). }
    exists x, b. split_and!; [|done|done|].
    + apply single_value with b; try done.
      * rewrite omap_app, Ho. cbn [omap list_omap app]. by rewrite Hval.
      * intros ->. by vm_compute in Hb.
    + rewrite Hpar, non_spatial_app. unfold non_spatial at 2. rewrite filter_cons_False by congruence.
      by rewrite filter_nil, app_nil_r.
  - rewrite Hps in Hok. pose proof (replaced_params_ok _ _ _ _ _ _ Hok Hk Hx Hb) as Hok'.
    destruct (keep_unit_spec ex x b Hx Hb) as (Kv & Kp & _ & Kne).
    assert (Hpar : mediaFragmentParameters (Join (l1 ++ (key ++ String "="%char (keep_unit ex x))%string :: l2) "&")
                   = l1 ++ (key ++ String "="%char (keep_unit ex x))%string :: l2).
    { apply params_of_join; [done|]. apply Join_ne_mid. by destruct key. }
    exists (keep_unit ex x), b. split_and!; [|done|done|].
    + apply single_value with b; try done. rewrite omap_app, Ho1. cbn [omap list_omap app].
      rewrite xywh_value_eq by done. f_equal. exact Ho2.
    + rewrite Hpar, Hps, !non_spatial_app. f_equal. unfold non_spatial.
      rewrite !filter_cons_False by (rewrite xywh_value_eq by done; done). done.
Qed.

End MediaFragment.
