(* ===== verification/TargetGeometry.v ===== *)
(** * Targets: what [ReplaceTargetPixelXYWH] writes, [TargetPixelXYWH] reads

    Lemmas on the selectors of a target and the theorems about media fragments
    and targets. *)

From Stdlib Require Import ZArith Lia Ascii String.
From stdpp Require Import base gmap strings list.
From S2P Require Import Prelude GoStrings Json MediaFragment.

Module TargetGeometry.
Import GoStr Json MediaFragment.

(** ** Visiting selectors *)

Definition visit_list : list json -> result geometry_err (list string) :=
  fix go l := match l with
  | [] => Ok []
  | x :: l' => a ← visit_selectors x; b ← go l'; Ok (a ++ b)
  end.

Lemma visit_array l : visit_selectors (JArray l) = visit_list l.
Proof. reflexivity. Qed.

(** Entries without an xywh. *)
Definition silent (e : json) : Prop := visit_selectors e = Ok [].

Lemma visit_list_app l1 l2 a b :
  visit_list l1 = Ok a -> visit_list l2 = Ok b -> visit_list (l1 ++ l2) = Ok (a ++ b).
Proof.
  revert a. induction l1 as [|x l1 IH]; intros a H1 H2; simpl in *.
  - by injection H1 as <-.
  - destruct (visit_selectors x) as [v|]; [|done]. simpl in *.
    destruct (visit_list l1) as [w|]; [|done]. simpl in H1. injection H1 as <-.
    rewrite (IH w eq_refl H2). simpl. by rewrite app_assoc.
Qed.

Lemma visit_list_silent l : Forall silent l -> visit_list l = Ok [].
Proof.
  unfold silent. induction 1 as [|x l Hx Hl IH]; [done|]. simpl. rewrite Hx. simpl. by rewrite IH.
Qed.

Lemma visit_list_one l1 x l2 v :
  Forall silent l1 -> Forall silent l2 -> visit_selectors x = Ok [v] ->
  visit_list (l1 ++ x :: l2) = Ok [v].
Proof.
  intros H1 H2 Hx. change [v] with ([] ++ [v]). apply visit_list_app; [by apply visit_list_silent|].
  simpl. rewrite Hx. simpl. by rewrite (visit_list_silent l2).
Qed.

Lemma selector_one sel v : visit_selectors (default JNull sel) = Ok [v] -> selectorPixelXYWH sel = Ok (Some v).
Proof. unfold selectorPixelXYWH. by intros ->. Qed.

(** ** [collect] *)

(** Selectors as Scribe writes them: no nested arrays, and fragment values in
    printable ASCII. *)
Definition plain_selector (e : json) : Prop :=
  match e with
  | JObject m => is_fragment_selector m = true -> plain_fragment (as_string (jget m "value"))
  | JArray _ => False
  | _ => True
  end.

Lemma visit_object m :
  visit_selectors (JObject m) =
  if is_fragment_selector m
  then x ← MediaFragmentPixelXYWH (as_string (jget m "value")); Ok (option_list x) else Ok [].
Proof. reflexivity. Qed.

(** The entry [collect] leads to. *)
Definition chosen_entry (entries : list json) (p : nat) : Prop :=
  exists l1 m l2, entries = l1 ++ JObject m :: l2 /\ p = length l1 /\
    is_fragment_selector m = true /\ Forall silent l1 /\ Forall silent l2.

Lemma collect_some entries pos fr q fr' sp' :
  Forall plain_selector entries -> collect pos entries fr (Some q) = Ok (fr', sp') ->
  sp' = Some q /\ Forall silent entries.
Proof.
  intros Hp. revert pos fr. induction Hp as [|e entries He Hes IH]; intros pos fr H.
  - by injection H as <- <-.
  - destruct e as [| | | |l|m]; cbn [collect] in H; try (by destruct He).
    1-4: by apply IH in H as [? ?]; split; [|by constructor].
    destruct (is_fragment_selector m) eqn:Hm.
    + apply result_bind_Ok in H as (x & Hx & H). destruct x; [done|]. apply IH in H as [? ?].
      split; [done|]. constructor; [|done]. unfold silent. by rewrite visit_object, Hm, Hx.
    + apply IH in H as [? ?]. split; [done|]. constructor; [|done]. unfold silent.
      by rewrite visit_object, Hm.
Qed.

(** Moving the window one entry to the right. *)
Lemma chosen_shift e entries p : silent e -> chosen_entry entries p -> chosen_entry (e :: entries) (S p).
Proof.
  intros He (l1 & m & l2 & -> & -> & Hm & H1 & H2). exists (e :: l1), m, l2.
  split_and!; try done. by constructor.
Qed.

Definition chosen_of (entries : list json) (pos : nat) (fr fr' : list nat) (sp' : option nat) : Prop :=
  match sp' with
  | Some p => exists k, p = (pos + k)%nat /\ chosen_entry entries k
  | None => Forall silent entries /\
      exists new, fr' = fr ++ new /\ forall p, new = [p] -> exists k, p = (pos + k)%nat /\ chosen_entry entries k
  end.

Lemma collect_none entries pos fr fr' sp' :
  Forall plain_selector entries -> collect pos entries fr None = Ok (fr', sp') ->
  chosen_of entries pos fr fr' sp'.
Proof.
  intros Hp. revert pos fr. induction Hp as [|e entries He Hes IH]; intros pos fr H.
  - injection H as <- <-. split; [done|]. exists []. by rewrite app_nil_r.
  - assert (Hskip : silent e -> collect (S pos) entries fr None = Ok (fr', sp') ->
      chosen_of (e :: entries) pos fr fr' sp').
    { intros Hsil Hc. specialize (IH _ _ Hc). unfold chosen_of in *. destruct sp' as [p|].
      - destruct IH as (k & -> & Hk). exists (S k). split; [lia|]. by apply chosen_shift.
      - destruct IH as (Hsil' & new & -> & Hn). split; [by constructor|]. exists new. split; [done|].
        intros p Hpn. destruct (Hn p Hpn) as (k & -> & Hk). exists (S k). split; [lia|]. by apply chosen_shift. }
    destruct e as [| | | |l|m]; cbn [collect] in H; try (by destruct He); try (by apply Hskip).
    destruct (is_fragment_selector m) eqn:Hm.
    2:{ apply Hskip; [|done]. unfold silent. by rewrite visit_object, Hm. }
    apply result_bind_Ok in H as (x & Hx & H). destruct x as [x|].
    + apply collect_some in H as [-> Hsil]; [|done]. exists 0%nat. split; [lia|]. exists [], m, entries.
      by split_and!.
    + assert (Hsil : silent (JObject m)) by (unfold silent; by rewrite visit_object, Hm, Hx).
      specialize (IH _ _ H). unfold chosen_of in *. destruct sp' as [p|].
      * destruct IH as (k & -> & Hk). exists (S k). split; [lia|]. by apply chosen_shift.
      * destruct IH as (Hsil' & new & -> & Hn). split; [by constructor|].
        exists (pos :: new). rewrite <-app_assoc. split; [done|]. intros p [= -> ->].
        exists 0%nat. split; [lia|]. exists [], m, entries. by split_and!.
Qed.

(** ** The written selectors read back *)

Lemma is_fragment_type m : jget m "type" = Some (JString fragmentSelectorType) -> is_fragment_selector m = true.
Proof. unfold is_fragment_selector. by intros ->. Qed.

Lemma written_selector m v s :
  jget m "type" = Some (JString fragmentSelectorType) -> jget m "value" = Some (JString s) ->
  MediaFragmentPixelXYWH s = Ok (Some v) -> visit_selectors (JObject m) = Ok [v].
Proof. intros Ht Hv Hs. rewrite visit_object, is_fragment_type, Hv by done. simpl. by rewrite Hs. Qed.

Lemma update_selector_spec m x m' :
  plain_fragment (as_string (jget m "value")) -> all_chars visible x = true ->
  update_selector m x = Ok m' ->
  exists v b, visit_selectors (JObject m') = Ok [v] /\ parsePixelXYWH x = Ok b /\ parsePixelXYWH v = Ok b.
Proof.
  intros Hm Hx H. unfold update_selector in H. apply result_bind_Ok in H as (s & Hs & [= <-]).
  destruct (replace_fragment_spec _ _ _ Hm Hx Hs) as (v & b & Hv & Hb & Hvb & _).
  exists v, b. split; [|done]. apply written_selector with s; [..|done].
  - case_match; rewrite !jget_jset; reflexivity.
  - case_match; rewrite !jget_jset; reflexivity.
Qed.

Lemma empty_fragment_plain : plain_fragment "".
Proof. by split. Qed.

Lemma fresh_selector_spec x b :
  all_chars visible x = true -> parsePixelXYWH x = Ok b ->
  exists v, visit_selectors (JObject (new_fragment_selector (xywh_parameter x))) = Ok [v]
    /\ parsePixelXYWH v = Ok b.
Proof.
  intros Hx Hb.
  assert (Hr : ReplaceMediaFragmentPixelXYWH "" x = Ok (xywh_parameter x)).
  { unfold ReplaceMediaFragmentPixelXYWH, validatePixelXYWH. rewrite Hb. reflexivity. }
  destruct (replace_fragment_spec "" x _ empty_fragment_plain Hx Hr) as (v & b' & Hv & Hb' & Hvb & _).
  exists v. split; [|congruence]. by apply written_selector with (xywh_parameter x).
Qed.

(** What a successful replacement promises of the target it returns. *)
Definition reads_back (t t' : obj) (b : box) : Prop :=
  exists v, TargetPixelXYWH (JObject t') = Ok (Some v) /\ parsePixelXYWH v = Ok b
    /\ forall k, k <> "selector"%string -> jget t' k = jget t k.

Lemma set_selector_reads_back t s v b :
  visit_selectors s = Ok [v] -> parsePixelXYWH v = Ok b -> reads_back t (jset t "selector" s) b.
Proof.
  intros Hs Hv. exists v. split_and!; [|done|].
  - cbn [TargetPixelXYWH]. apply selector_one. rewrite jget_jset, bool_decide_eq_true_2 by done. exact Hs.
  - intros k Hk. by rewrite jget_jset, bool_decide_eq_false_2.
Qed.

Lemma replace_at_spec t p x b t' :
  Forall plain_selector (selector_entries (jget t "selector")) -> all_chars visible x = true ->
  parsePixelXYWH x = Ok b -> chosen_entry (selector_entries (jget t "selector")) p ->
  replace_at t p x = Ok t' -> reads_back t t' b.
Proof.
  intros Hp Hx Hb (l1 & m & l2 & Hl & -> & Hm & H1 & H2) Hupd. unfold replace_at in Hupd.
  rewrite Hl in Hp. apply Forall_app in Hp as (_ & [Hpm _]%Forall_cons). specialize (Hpm Hm).
  destruct (jget t "selector") as [[| | | |l|m0]|]; try done; cbn [selector_entries] in Hl.
  - subst l. rewrite list_lookup_middle in Hupd by done.
    apply result_bind_Ok in Hupd as (m' & Hm' & [= <-]).
    destruct (update_selector_spec _ _ _ Hpm Hx Hm') as (v & b' & Hv & Hb' & Hvb).
    apply set_selector_reads_back with v; [|congruence]. rewrite visit_array.
    replace (length l1) with (length l1 + 0)%nat by lia. rewrite insert_app_r.
    by apply visit_list_one.
  - destruct l1 as [|? l1]; [|by destruct l1].
    injection Hl as -> _. apply result_bind_Ok in Hupd as (m' & Hm' & [= <-]).
    destruct (update_selector_spec _ _ _ Hpm Hx Hm') as (v & b' & Hv & Hb' & Hvb).
    apply set_selector_reads_back with v; [done|congruence].
Qed.

Lemma add_selector_spec t x b :
  Forall silent (selector_entries (jget t "selector")) -> all_chars visible x = true ->
  parsePixelXYWH x = Ok b -> reads_back t (add_selector t x) b.
Proof.
  intros Hsil Hx Hb. destruct (fresh_selector_spec x b Hx Hb) as (v & Hv & Hvb).
  apply set_selector_reads_back with v; [|done].
  destruct (jget t "selector") as [[| | | |l|m0]|]; cbn [selector_entries] in Hsil; try exact Hv;
    rewrite visit_array.
  - by apply (visit_list_one [JBool b0] _ []); [constructor| |].
  - by apply (visit_list_one [JNumber lit] _ []); [constructor| |].
  - by apply (visit_list_one [JString s] _ []); [constructor| |].
  - by apply (visit_list_one l _ []).
  - by apply (visit_list_one [JObject m0] _ []).
Qed.

Lemma replaceSelector_spec t x b t' :
  Forall plain_selector (selector_entries (jget t "selector")) -> all_chars visible x = true ->
  parsePixelXYWH x = Ok b -> replaceSelectorPixelXYWH t x = Ok t' -> reads_back t t' b.
Proof.
  intros Hp Hx Hb H. unfold replaceSelectorPixelXYWH in H.
  apply result_bind_Ok in H as ([fr sp] & Hc & H).
  pose proof (collect_none _ _ _ _ _ Hp Hc) as Hch. unfold chosen_of in Hch.
  destruct sp as [p|].
  - destruct Hch as (k & -> & Hk). by eapply replace_at_spec.
  - destruct Hch as (Hsil & new & -> & Hnew). rewrite app_nil_l in H.
    destruct new as [|p [|p' new]].
    + injection H as <-. by apply add_selector_spec.
    + destruct (Hnew p eq_refl) as (k & -> & Hk). by eapply replace_at_spec.
    + injection H as <-. by apply add_selector_spec.
Qed.

(** ** Targets *)

(** The selectors and the fragment the replacement works on are plain. *)
Definition plain_target (raw : json) : Prop :=
  match raw with
  | JString value => plain_fragment (Cut (TrimSpace value) "#"%char).1.2
  | JObject value => Forall plain_selector (selector_entries (jget (specific_resource value) "selector"))
  | _ => True
  end.

Lemma setTargetCanvas_selector t c : jget (setTargetCanvas t c) "selector" = jget t "selector".
Proof.
  unfold setTargetCanvas. destruct (jget t "source") as [[]|]; by rewrite jget_jset.
Qed.

Lemma setTargetCanvas_canvas t t' c b :
  reads_back (setTargetCanvas t c) t' b -> TargetCanvas (JObject t') = TrimSpace c.
Proof.
  intros (_ & _ & _ & Hk). specialize (Hk "source"%string ltac:(done)).
  cbn [TargetCanvas]. rewrite Hk. unfold setTargetCanvas.
  destruct (jget t "source") as [[| | | | |src]|]; rewrite jget_jset, bool_decide_eq_true_2 by done;
    try reflexivity.
  by destruct (jget_nil _ _); rewrite !jget_jset.
Qed.

(** The target made for a compact or missing target. *)
Definition fresh_target (canvasURI value : string) : obj :=
  jset (jset [] "source" (JString canvasURI)) "selector" (JObject (new_fragment_selector value)).

Lemma fresh_target_spec c x v b :
  MediaFragmentPixelXYWH x = Ok (Some v) -> parsePixelXYWH v = Ok b ->
  TargetCanvas (JObject (fresh_target c x)) = TrimSpace c /\
  exists v, TargetPixelXYWH (JObject (fresh_target c x)) = Ok (Some v) /\ parsePixelXYWH v = Ok b.
Proof.
  intros Hx Hv. split; [done|]. exists v. split; [|done].
  cbn [TargetPixelXYWH]. apply selector_one. unfold fresh_target. rewrite jget_jset. cbn [default].
  by apply written_selector with x.
Qed.

Lemma replace_target_spec `{UrlParser} raw canvasURI x b t :
  plain_target raw -> all_chars visible canvasURI = true ->
  all_chars visible x = true -> parsePixelXYWH x = Ok b ->
  ReplaceTargetPixelXYWH raw canvasURI x = Ok t ->
  TargetCanvas (JObject t) = canvasURI /\
  exists v, TargetPixelXYWH (JObject t) = Ok (Some v) /\ parsePixelXYWH v = Ok b.
Proof.
  intros Hraw Hc Hx Hb Hrep. unfold ReplaceTargetPixelXYWH in Hrep.
  rewrite (TrimSpace_visible canvasURI) in Hrep by done.
  apply result_bind_Ok in Hrep as ([] & _ & Hrep). fold (fresh_target canvasURI) in Hrep.
  assert (Hfresh : Ok (fresh_target canvasURI (xywh_parameter x)) = Ok (E := geometry_err) t ->
    TargetCanvas (JObject t) = TrimSpace canvasURI /\
    exists v, TargetPixelXYWH (JObject t) = Ok (Some v) /\ parsePixelXYWH v = Ok b).
  { intros [= <-]. destruct (replace_fragment_spec "" x (xywh_parameter x) empty_fragment_plain Hx)
      as (v & b' & Hv & Hb' & Hvb & _).
    { unfold ReplaceMediaFragmentPixelXYWH, validatePixelXYWH. rewrite Hb. reflexivity. }
    eapply fresh_target_spec; [exact Hv|congruence]. }
  rewrite <-(TrimSpace_visible canvasURI) at 1 by done.
  destruct raw as [| | |value| |value]; try by apply Hfresh.
  - unfold plain_target in Hraw. destruct (Cut (TrimSpace value) "#"%char) as [[c f] p]. cbn in Hraw.
    apply result_bind_Ok in Hrep as (s & Hs & [= <-]).
    destruct (replace_fragment_spec _ _ _ Hraw Hx Hs) as (v & b' & Hv & Hb' & Hvb & _).
    eapply fresh_target_spec; [exact Hv|congruence].
  - apply (replaceSelector_spec _ _ b) in Hrep; [| |done|done].
    + split; [by eapply setTargetCanvas_canvas|]. destruct Hrep as (v & Hv & Hvb & _). eauto.
    + by rewrite setTargetCanvas_selector.
Qed.

(** ** Theorems *)

(** Pixel geometry is parsed exactly: a box written as [x,y,w,h] is accepted,
    and read back as the same box, if and only if its corner is not negative, its
    sides are positive and its extent stays within the signed 32-bit pixel space;
    the 64-bit extent check never wraps. *)
Theorem pixel_box_roundtrip b : parsePixelXYWH (format_box b) = Ok b <-> box_ok b.
Proof. split; [intros H; by apply parsePixelXYWH_inv in H as [? _]|apply parse_format_box]. Qed.

(** Replacing the geometry of a media fragment is read back: the result has
    exactly one xywh parameter, it denotes the requested box whatever the unit
    prefix, and every other parameter is kept, in order. *)
Theorem replaced_fragment_reads_back raw x s :
  plain_fragment raw -> all_chars visible x = true -> ReplaceMediaFragmentPixelXYWH raw x = Ok s ->
  exists v b, MediaFragmentPixelXYWH s = Ok (Some v) /\ parsePixelXYWH x = Ok b /\
    parsePixelXYWH v = Ok b /\
    non_spatial (mediaFragmentParameters s) = non_spatial (mediaFragmentParameters raw).
Proof. apply replace_fragment_spec. Qed.

Lemma replaced_fragment_reads_back_witness :
  ReplaceMediaFragmentPixelXYWH "#t=5&xywh=pixel:1,2,3,4&id=a" "10,20,30,40"
    = Ok "t=5&xywh=pixel:10,20,30,40&id=a"%string /\
  exists v b, MediaFragmentPixelXYWH "t=5&xywh=pixel:10,20,30,40&id=a" = Ok (Some v) /\
    parsePixelXYWH "10,20,30,40" = Ok b /\ parsePixelXYWH v = Ok b /\
    non_spatial (mediaFragmentParameters "t=5&xywh=pixel:10,20,30,40&id=a")
    = non_spatial (mediaFragmentParameters "#t=5&xywh=pixel:1,2,3,4&id=a").
Proof.
  split; [vm_compute; reflexivity|].
  apply (replaced_fragment_reads_back "#t=5&xywh=pixel:1,2,3,4&id=a").
  - split; reflexivity.
  - reflexivity.
  - vm_compute. reflexivity.
Defined.

(** Replacing the geometry of a target is read back: the target names the
    given Canvas and has one unambiguous spatial selector, which denotes the
    requested box. *)
Theorem replaced_target_reads_back `{UrlParser} raw canvasURI x b t :
  plain_target raw -> all_chars visible canvasURI = true ->
  all_chars visible x = true -> parsePixelXYWH x = Ok b ->
  ReplaceTargetPixelXYWH raw canvasURI x = Ok t ->
  TargetCanvas (JObject t) = canvasURI /\
  exists v, TargetPixelXYWH (JObject t) = Ok (Some v) /\ parsePixelXYWH v = Ok b.
Proof. apply replace_target_spec. Qed.

Definition demo_url : UrlParser := fun _ => Some
  {| Scheme := "https"; Host := "example.org"; HasUser := false; Path := "/c"; RawQuery := "";
     Fragment := "" |}.

Definition demo_target : json :=
  JObject [("selector", JArray [JObject [("type", JString "SvgSelector")];
             JObject [("type", JString "FragmentSelector"); ("value", JString "xywh=1,2,3,4")]]);
           ("source", JString "https://old.example/c")]%string.

Lemma replaced_target_reads_back_witness : exists t,
  ReplaceTargetPixelXYWH (H := demo_url) demo_target "https://example.org/c" "5,6,7,8" = Ok t /\
  TargetCanvas (JObject t) = "https://example.org/c"%string /\
  exists v, TargetPixelXYWH (JObject t) = Ok (Some v) /\
    parsePixelXYWH v = Ok {| bx := 5; by_ := 6; bw := 7; bh := 8 |}.
Proof.
  eexists. split; [vm_compute; reflexivity|].
  apply (replaced_target_reads_back (H := demo_url) demo_target "https://example.org/c" "5,6,7,8").
  - repeat constructor.
  - reflexivity.
  - reflexivity.
  - vm_compute. reflexivity.
  - vm_compute. reflexivity.
Defined.

End TargetGeometry.
