(* ===== verification/Presentation.v ===== *)
(** * [internal/iiif/presentation.go]: canonical annotation pages

    Resource identifiers, the cost and semantic checks of an AnnotationPage, its
    normalisation, and the geometry check against the image.  A page is its
    bytes, decoded by [JsonParse.DecodeJSON] and encoded by [Json.Marshal] as the
    Go code does.  The IIIF schema package is the class [Schema]; [net/url] and
    [crypto/sha256] are the classes [UrlParser], [UrlPrinter] and [Sha256]. *)

From Stdlib Require Import ZArith NArith Lia Ascii String.
From stdpp Require Import base gmap strings list.
From S2P Require Import Prelude GoStrings Json JsonParse MediaFragment.

Module Presentation.
Import GoStr Json JsonParse MediaFragment.

(** github.com/libops/iiif-spec *)
Class Schema := {
  PresentationContext : string;
  TextGranularityContext : string;
  ValidateAnnotationPageBytes : string -> bool;
  IsKnownLevel : string -> bool;
}.

(** [URL.String] and [sha256.Sum256] (the 32 bytes of the digest). *)
Class UrlPrinter := url_String : URL -> string.
Class Sha256 := sha256 : string -> string.

Definition MaxAnnotationPageBytes : Z := 8 * 2 ^ 20.
Definition MaxAnnotationsPerPage : Z := 10000.
Definition maxAnnotationIDBytes : Z := 512.
Definition maxCanonicalPageIDBytes : Z := 512.
Definition maxResourceIDBytes : Z := 2 * 2 ^ 10.
Definition maxAnnotationBodyBytes : Z := 2 ^ 20.
Definition maxSelectorBytes : Z := 64 * 2 ^ 10.
Definition maxSelectorValueBytes : Z := 4 * 2 ^ 10.

(** Why a page is rejected. *)
Inductive page_err :=
| EURL | EBaseTooLong | EItemImageID | ENotCanonicalPage | ENotCanonicalChild | ESeed
| EPageBytes | EDecode | EItemCount | EPageIDBytes | EItemIDBytes | EBodyBytes | EResourceIDBytes
| ESelectorBytes | ESelectorValueBytes
| ESchema | EContext | EExtension | ELevel | EMotivation | EGranularityContext | EBody
| EFragment (e : geometry_err) | ENoFragment
| EItemsNotArray | EItemNotObject | EPageID | EItemID | EDuplicateID | ETargetCanvas
| EUnknownDimensions | EOutsideImage
| EPanic.   (* assignment to an entry of a nil map *)

Record PageIdentity := { PublicBaseURL : string; ItemImageID : Z; CanvasURI : string }.

Definition lift_geometry {A} (r : result geometry_err A) : result page_err A :=
  match r with Ok a => Ok a | Err e => Err (EFragment e) end.

Section presentation.
Context `{!Schema, !UrlParser, !UrlPrinter, !Sha256}.

(** ** Identifiers *)

Definition resource_url (raw : string) (allowQuery : bool) : result page_err unit :=
  match requireResourceURL raw allowQuery with Ok _ => Ok tt | Err _ => Err EURL end.
Definition http_url (raw : string) : result page_err unit := resource_url raw true.

Definition longestChildSuffix : string :=
  "/item-image-18446744073709551615/canvas/page-1/annotations/items/0123456789abcdef0123456789abcdef".

Definition validHTTPBase (raw : string) : result page_err string :=
  let raw := TrimRight (TrimSpace raw) "/"%char in
  _ ← resource_url raw false;
  if len raw + len longestChildSuffix >? maxAnnotationIDBytes then Err EBaseTooLong else Ok raw.

Definition itemImageResourceBase (publicBaseURL : string) (itemImageID : Z) : result page_err string :=
  base ← validHTTPBase publicBaseURL;
  if itemImageID =? 0 then Err EItemImageID
  else Ok (base ++ "/item-image-" ++ itoa itemImageID)%string.

Definition AnnotationPageID (publicBaseURL : string) (itemImageID : Z) : result page_err string :=
  base ← itemImageResourceBase publicBaseURL itemImageID;
  Ok (base ++ "/canvas/page-1/annotations")%string.

Definition ItemImageCanvasID (publicBaseURL : string) (itemImageID : Z) : result page_err string :=
  base ← itemImageResourceBase publicBaseURL itemImageID;
  Ok (base ++ "/canvas/page-1")%string.

(** [hex.EncodeToString] *)
Fixpoint hex_encode (s : string) : string :=
  match s with
  | EmptyString => ""
  | String c r => let n := N_of_ascii c in
      String (hex_digit (n / 16)) (String (hex_digit (n mod 16)) (hex_encode r))
  end.

Fixpoint first_bytes (n : nat) (s : string) : string :=
  match n, s with
  | S n', String c r => String c (first_bytes n' r)
  | _, _ => ""
  end.

Definition AnnotationID (pageID seed : string) : result page_err string :=
  _ ← resource_url pageID false;
  let seed := TrimSpace seed in
  if bool_decide (seed = ""%string) then Err ESeed else
  Ok (TrimRight pageID "/"%char ++ "/items/" ++ hex_encode (first_bytes 16 (sha256 seed)))%string.

(** [hex.DecodeString] of an even number of digits succeeds. *)
Definition is_hex (s : string) : bool := all_chars (fun c => bool_decide (is_Some (hex_value c))) s.

Definition isCanonicalAnnotationID (raw pageID : string) : bool :=
  let raw := TrimSpace raw in
  match url_Parse raw with
  | None => false
  | Some u =>
      if HasUser u || negb (bool_decide (RawQuery u = ""%string))
         || negb (bool_decide (Fragment u = ""%string)) then false else
      match strip_prefix (TrimRight pageID "/"%char ++ "/items/") raw with
      | None => false
      | Some suffix =>
          (len suffix =? 32) && bool_decide (suffix = ToLower suffix) && negb (Contains suffix "/")
          && is_hex suffix
      end
  end.

(** The checks both identifier parsers make on the URL. *)
Definition canonical_url (raw : string) (not_canonical : page_err) : result page_err URL :=
  match url_Parse raw with
  | None => Err EURL
  | Some u =>
      if bool_decide (Scheme u = ""%string) || bool_decide (Host u = ""%string)
         || (negb (bool_decide (Scheme u = "http"%string)) && negb (bool_decide (Scheme u = "https"%string)))
      then Err EURL
      else if HasUser u || negb (bool_decide (RawQuery u = ""%string))
              || negb (bool_decide (Fragment u = ""%string))
      then Err not_canonical else Ok u
  end.

Definition marker : string := "/item-image-".

(** The base URL of a parsed identifier: its path cut at the marker. *)
Definition base_of (u : URL) (path : string) : string :=
  TrimRight (url_String {| Scheme := Scheme u; Host := Host u; HasUser := HasUser u; Path := path;
                           RawQuery := ""; Fragment := "" |}) "/"%char.

Definition parse_item_image (raw : string) : result page_err Z :=
  match ParseUint raw with
  | Some n => if n =? 0 then Err EItemImageID else Ok n
  | None => Err EItemImageID
  end.

Definition parseAnnotationPageID (pageID : string) : result page_err (string * Z) :=
  let pageID := TrimSpace pageID in
  u ← canonical_url pageID ENotCanonicalPage;
  match CutLast (Path u) marker with
  | None => Err ENotCanonicalPage
  | Some (path, rest) =>
      match Split rest "/"%char with
      | [id; p1; p2; p3] =>
          if bool_decide (id = "") || negb (bool_decide (p1 = "canvas"))
             || negb (bool_decide (p2 = "page-1")) || negb (bool_decide (p3 = "annotations"))
          then Err ENotCanonicalPage else
          itemImageID ← parse_item_image id;
          let publicBaseURL := base_of u path in
          match AnnotationPageID publicBaseURL itemImageID with
          | Ok expected => if bool_decide (expected = pageID) then Ok (publicBaseURL, itemImageID)
                           else Err ENotCanonicalPage
          | Err _ => Err ENotCanonicalPage
          end
      | _ => Err ENotCanonicalPage
      end%string
  end.

Definition ItemImageIDFromAnnotationPageID (pageID : string) : result page_err Z :=
  '(_, id) ← parseAnnotationPageID pageID; Ok id.

Definition PageIdentityFromPageID (pageID canvasURI : string) : result page_err PageIdentity :=
  '(base, id) ← parseAnnotationPageID pageID;
  let identity := {| PublicBaseURL := base; ItemImageID := id; CanvasURI := TrimSpace canvasURI |} in
  _ ← http_url (CanvasURI identity);
  Ok identity.

Definition PageIdentityFromAnnotationID (annotationID canvasURI : string) : result page_err PageIdentity :=
  let annotationID := TrimSpace annotationID in
  u ← canonical_url annotationID ENotCanonicalChild;
  match CutLast (Path u) marker with
  | None => Err ENotCanonicalChild
  | Some (path, rest) =>
      match Split rest "/"%char with
      | [id; p1; p2; p3; p4; suffix] =>
          if bool_decide (id = "") || negb (bool_decide (p1 = "canvas"))
             || negb (bool_decide (p2 = "page-1")) || negb (bool_decide (p3 = "annotations"))
             || negb (bool_decide (p4 = "items")) || bool_decide (suffix = "")
          then Err ENotCanonicalChild else
          itemImageID ← parse_item_image id;
          let identity := {| PublicBaseURL := base_of u path; ItemImageID := itemImageID;
                             CanvasURI := TrimSpace canvasURI |} in
          pageID ← AnnotationPageID (PublicBaseURL identity) (ItemImageID identity);
          if negb (isCanonicalAnnotationID annotationID pageID) then Err ENotCanonicalChild else
          _ ← http_url (CanvasURI identity);
          Ok identity
      | _ => Err ENotCanonicalChild
      end%string
  end.

(** ** Decoding *)

(** [DecodeJSON] into a [map[string]any]: [null] leaves the nil map. *)
Definition decode_map (raw : string) : result page_err (option obj) :=
  match DecodeJSON raw with
  | Some (JObject m) => Ok (Some m)
  | Some JNull => Ok None
  | _ => Err EDecode
  end.

(** Decoding into a struct with fields [id] and [items]. *)
Definition decode_fields (raw : string) : result page_err obj :=
  match DecodeFields raw with Some ms => Ok ms | None => Err EDecode end.

(** The values that assign a struct field, in the order they are written: their
    keys are the field's name, exactly or by case folding. *)
Definition field_values (ms : obj) (name : string) : list json :=
  map snd (filter (fun kv => EqualFold kv.1 name = true) ms).

(** A [string] field; [null] leaves it as it is. *)
Definition string_field (ms : obj) (name : string) : result page_err string :=
  foldl (fun acc v => s ← acc; match v with JString s' => Ok s' | JNull => Ok s | _ => Err EDecode end)
    (Ok ""%string) (field_values ms name).

(** A [[]json.RawMessage] field; [null] sets the nil slice. *)
Definition raw_array_field (ms : obj) (name : string) : result page_err (list json) :=
  foldl (fun acc v => _ ← acc; match v with JArray l => Ok l | JNull => Ok [] | _ => Err EDecode end)
    (Ok []) (field_values ms name).

(** A [[]map[string]any] field.  The state is the backing array and the length:
    decoding an array again reuses the elements there, and a map that is decoded
    again keeps its other entries. *)
Fixpoint reuse (backing : list obj) (l : list json) : result page_err (list obj) :=
  match l with
  | [] => Ok backing
  | v :: l' =>
      m ← match v with
          | JObject m => Ok (foldl (fun b kv => jset b kv.1 kv.2) (default [] (head backing)) m)
          | JNull => Ok []
          | _ => Err EDecode
          end;
      rest ← reuse (tail backing) l';
      Ok (m :: rest)
  end.

Definition map_array_field (ms : obj) (name : string) : result page_err (list obj) :=
  '(backing, n) ← foldl (fun acc v => '(backing, _) ← acc;
      match v with
      | JArray [] => Ok ([], 0%nat)
      | JArray l => backing ← reuse backing l; Ok (backing, length l)
      | JNull => Ok ([], 0%nat)
      | _ => Err EDecode
      end) (Ok ([], 0%nat)) (field_values ms name);
  Ok (take n backing).

(** A [RawMessage] decoded into a map. *)
Definition as_map (v : json) : result page_err obj :=
  match v with JObject m => Ok m | JNull => Ok [] | _ => Err EDecode end.

(** Runs a check on every element. *)
Fixpoint each {A} (f : A -> result page_err unit) (l : list A) : result page_err unit :=
  match l with
  | [] => Ok tt
  | x :: l' => _ ← f x; each f l'
  end.

(** ** The cost check *)

Definition validateEncodedValueLimit (value : json) (limit : Z) (e : page_err) : result page_err unit :=
  if len (Marshal value) >? limit then Err e else Ok tt.

(** Some nested [id] or [@id] is too long. *)
Fixpoint long_resource_id (value : json) : bool :=
  match value with
  | JObject m =>
      (fix go m := match m with
       | [] => false
       | (key, child) :: m' =>
           ((bool_decide (key = "id"%string) || bool_decide (key = "@id"%string))
            && match child with JString s => len s >? maxResourceIDBytes | _ => false end)
           || long_resource_id child || go m'
       end) m
  | JArray l => (fix go l := match l with [] => false | x :: l' => long_resource_id x || go l' end) l
  | _ => false
  end.
Definition validateResourceIDLengths (value : json) : result page_err unit :=
  if long_resource_id value then Err EResourceIDBytes else Ok tt.

Fixpoint long_selector_value (value : json) : bool :=
  match value with
  | JObject m =>
      match jget m "value" with Some (JString s) => len s >? maxSelectorValueBytes | _ => false end
      || (fix go m := match m with [] => false | (_, x) :: m' => long_selector_value x || go m' end) m
  | JArray l => (fix go l := match l with [] => false | x :: l' => long_selector_value x || go l' end) l
  | _ => false
  end.
Definition validateSelectorValueLengths (value : json) : result page_err unit :=
  if long_selector_value value then Err ESelectorValueBytes else Ok tt.

(** The checks on one item. *)
Definition item_cost (enforceCanonicalIDs : bool) (encoded : json) : result page_err unit :=
  annotation ← as_map encoded;
  _ ← guard_ok (negb (enforceCanonicalIDs && (len (as_string (jget annotation "id")) >? maxAnnotationIDBytes)))
        EItemIDBytes;
  _ ← match jget annotation "body" with
      | Some body => _ ← validateEncodedValueLimit body maxAnnotationBodyBytes EBodyBytes;
                     validateResourceIDLengths body
      | None => Ok tt
      end;
  match jget annotation "target" with
  | Some target =>
      _ ← validateResourceIDLengths target;
      match target with
      | JObject t =>
          match jget t "selector" with
          | Some selector =>
              _ ← validateEncodedValueLimit selector maxSelectorBytes ESelectorBytes;
              validateSelectorValueLengths selector
          | None => Ok tt
          end
      | _ => Ok tt
      end
  | None => Ok tt
  end.

Definition validateAnnotationPageCost (raw : string) (enforceCanonicalIDs : bool) : result page_err unit :=
  if len raw >? MaxAnnotationPageBytes then Err EPageBytes else
  page ← decode_fields raw;
  id ← string_field page "id";
  items ← raw_array_field page "items";
  if Z.of_nat (length items) >? MaxAnnotationsPerPage then Err EItemCount else
  if enforceCanonicalIDs && (len id >? maxCanonicalPageIDBytes) then Err EPageIDBytes else
  each (item_cost enforceCanonicalIDs) items.

(** ** Contexts *)

(** [annotationPageContexts]: the Text Granularity context first, the Presentation
    context last, the others once each in between. *)
Fixpoint append_contexts (seen : list string) (values : list json) : list json :=
  match values with
  | [] => []
  | JString text :: values' =>
      if bool_decide (text = PresentationContext) || bool_decide (text ∈ seen)
      then append_contexts seen values'
      else JString text :: append_contexts (text :: seen) values'
  | value :: values' => value :: append_contexts seen values'
  end.

Definition annotationPageContexts (existing : option json) : list json :=
  let values := match existing with
                | Some (JArray l) => l
                | None | Some JNull => []
                | Some v => [v]
                end in
  JString TextGranularityContext :: append_contexts [TextGranularityContext] values
    ++ [JString PresentationContext].

Definition is_string (want : string) (v : json) : bool :=
  match v with JString s => bool_decide (s = want) | _ => false end.

Definition validatePresentationContext (raw : option json) : result page_err unit :=
  match raw with
  | Some (JString s) => guard_ok (bool_decide (s = PresentationContext)) EContext
  | Some (JArray l) =>
      guard_ok (match last l with
                | Some v => is_string PresentationContext v
                            && (length (filter (fun v => is_string PresentationContext v = true) l) =? 1)%nat
                | None => false
                end) EContext
  | _ => Err EContext
  end.

Definition containsString (value : option json) (want : string) : bool :=
  match value with
  | Some (JString s) => bool_decide (s = want)
  | Some (JArray l) => existsb (is_string want) l
  | _ => false
  end.

Fixpoint hasTextualBody (raw : json) : bool :=
  match raw with
  | JObject body => EqualFold (TrimSpace (as_string (jget body "type"))) "TextualBody"
  | JArray l => (fix go l := match l with [] => false | x :: l' => hasTextualBody x || go l' end) l
  | _ => false
  end.

(** ** Extension properties *)

Definition standardAnnotationPageProperties : list string :=
  ["@context"; "id"; "type"; "rendering"; "label"; "service"; "thumbnail"; "items"; "partOf"; "next";
   "prev"; "first"; "last"]%string.

Definition extension_context (v : json) : bool :=
  match v with
  | JString s => negb (bool_decide (s = PresentationContext)) && negb (bool_decide (s = TextGranularityContext))
  | JObject _ => true
  | _ => false
  end.

(** Accepted: no extension key, or only keys that are not JSON-LD keywords under
    an extension context. *)
Definition extension_ok (page : obj) (context : option json) : bool :=
  let extra := filter (fun kv => kv.1 ∉ standardAnnotationPageProperties) page in
  if existsb (fun kv => HasPrefix kv.1 "@") extra then false else
  bool_decide (extra = [])
  || match context with Some (JArray l) => existsb extension_context l | _ => false end.

Fixpoint extension_tree_ok (value : json) (inherited : option json) : bool :=
  match value with
  | JArray l =>
      (fix go l := match l with [] => true | x :: l' => extension_tree_ok x inherited && go l' end) l
  | JObject m =>
      let context := match jget m "@context" with Some own => Some own | None => inherited end in
      (if bool_decide (as_string (jget m "type") = "AnnotationPage"%string)
       then extension_ok m context else true)
      && (fix go m := match m with [] => true | (_, x) :: m' => extension_tree_ok x context && go m' end) m
  | _ => true
  end.

Definition validateAnnotationPageExtensionTree (value : json) : result page_err unit :=
  guard_ok (extension_tree_ok value None) EExtension.

(** ** Validation *)

(** The Text Granularity semantics of one item. *)
Definition item_semantics (page : obj) (value : json) : result page_err unit :=
  let annotation := match value with JObject m => m | _ => [] end in
  let granularity := TrimSpace (as_string (jget annotation "textGranularity")) in
  if bool_decide (granularity = ""%string) then Ok tt else
  _ ← guard_ok (IsKnownLevel granularity) ELevel;
  _ ← guard_ok (containsString (jget annotation "motivation") "supplementing") EMotivation;
  _ ← guard_ok (containsString (jget page "@context") TextGranularityContext) EGranularityContext;
  _ ← guard_ok (match jget annotation "body" with
                | None | Some JNull => false
                | Some body => hasTextualBody body
                end) EBody;
  let target := default JNull (jget annotation "target") in
  _ ← http_url (TargetCanvas target);
  fragment ← lift_geometry (TargetPixelXYWH target);
  match fragment with
  | None => guard_ok (bool_decide (granularity = "page"%string)) ENoFragment
  | Some f => lift_geometry (validatePixelXYWH f)
  end.

Definition ValidateAnnotationPage (raw : string) : result page_err unit :=
  _ ← validateAnnotationPageCost raw true;
  page ← decode_map raw;
  let page := default [] page in
  _ ← guard_ok (ValidateAnnotationPageBytes raw) ESchema;
  _ ← validatePresentationContext (jget page "@context");
  _ ← validateAnnotationPageExtensionTree (JObject page);
  each (item_semantics page) (match jget page "items" with Some (JArray l) => l | _ => [] end).

(** The identity of one item among the ids already [seen]. *)
Fixpoint canonical_items (pageID canvasURI : string) (seen : list string) (items : list obj)
    : result page_err unit :=
  match items with
  | [] => Ok tt
  | annotation :: items' =>
      let id := as_string (jget annotation "id") in
      if negb (isCanonicalAnnotationID id pageID) then Err EItemID else
      if bool_decide (id ∈ seen) then Err EDuplicateID else
      if negb (bool_decide (TargetCanvas (default JNull (jget annotation "target")) = canvasURI))
      then Err ETargetCanvas
      else canonical_items pageID canvasURI (id :: seen) items'
  end.

Definition ValidateCanonicalAnnotationPage (raw : string) (identity : PageIdentity) : result page_err unit :=
  _ ← ValidateAnnotationPage raw;
  pageID ← AnnotationPageID (PublicBaseURL identity) (ItemImageID identity);
  let canvasURI := TrimSpace (CanvasURI identity) in
  _ ← http_url canvasURI;
  page ← decode_fields raw;
  id ← string_field page "id";
  items ← map_array_field page "items";
  if negb (bool_decide (id = pageID)) then Err EPageID else
  canonical_items pageID canvasURI [] items.

(** ** Normalisation *)

(** One item takes its type and, unless it already has a fresh canonical id, an id
    derived from its position and encoding. *)
Definition normalize_item (pageID canvasURI : string) (position : Z) (seen : list string) (value : json)
    : result page_err (obj * string) :=
  match value with
  | JObject annotation =>
      let annotation := jdel (jdel (jset annotation "type" (JString "Annotation")) "@id") "@type" in
      let id := as_string (jget annotation "id") in
      '(annotation, id) ←
        (if negb (isCanonicalAnnotationID id pageID) || bool_decide (id ∈ seen) then
           id ← AnnotationID pageID (itoa position ++ String "000" (Marshal (JObject annotation)))%string;
           Ok (jset annotation "id" (JString id), id)
         else Ok (annotation, id));
      if negb (bool_decide (TargetCanvas (default JNull (jget annotation "target")) = canvasURI))
      then Err ETargetCanvas else Ok (annotation, id)
  | _ => Err EItemNotObject
  end.

Fixpoint normalize_items (pageID canvasURI : string) (position : Z) (seen : list string) (items : list json)
    : result page_err (list json) :=
  match items with
  | [] => Ok []
  | value :: items' =>
      '(annotation, id) ← normalize_item pageID canvasURI position seen value;
      rest ← normalize_items pageID canvasURI (position + 1) (id :: seen) items';
      Ok (JObject annotation :: rest)
  end.

(** The Scribe-owned properties of the page. *)
Definition own_page (page : obj) (pageID : string) : obj :=
  jdel (jdel (jset (jset (jset page "@context" (JArray (annotationPageContexts (jget page "@context"))))
    "id" (JString pageID)) "type" (JString "AnnotationPage")) "@id") "@type".

Definition normalize_page (pageID canvasURI : string) (page : obj) : result page_err obj :=
  let page := own_page page pageID in
  match jget page "items" with
  | None | Some JNull => Ok (jset page "items" (JArray []))
  | Some (JArray items) =>
      items ← normalize_items pageID canvasURI 0 [] items;
      Ok (jset page "items" (JArray items))
  | Some _ => Err EItemsNotArray
  end.

Definition NormalizeAnnotationPage (raw : string) (identity : PageIdentity) : result page_err string :=
  _ ← validateAnnotationPageCost raw false;
  pageID ← AnnotationPageID (PublicBaseURL identity) (ItemImageID identity);
  _ ← http_url (CanvasURI identity);
  page ← decode_map raw;
  match page with
  | None => Err EPanic
  | Some page =>
      page ← normalize_page pageID (TrimSpace (CanvasURI identity)) page;
      let normalized := Marshal (JObject page) in
      _ ← ValidateCanonicalAnnotationPage normalized identity;
      Ok normalized
  end.

Definition NewAnnotationPage (identity : PageIdentity) (items : list json) : result page_err string :=
  let page := jset (jset (jset [] "@context"
      (JArray [JString TextGranularityContext; JString PresentationContext]))
      "type" (JString "AnnotationPage")) "items" (JArray items) in
  NormalizeAnnotationPage (Marshal (JObject page)) identity.

(** ** Geometry against the image *)

(** The box lies in an image of the given dimensions; the subtractions are
    unsigned and guarded by the comparisons before them. *)
Definition box_outside (b : box) (width height : Z) : bool :=
  (width <=? bx b) || (height <=? by_ b)
  || (usub64 width (bx b) <? bw b) || (usub64 height (by_ b) <? bh b).

Definition item_geometry (width height : Z) (value : json) : result page_err unit :=
  match value with
  | JObject item =>
      fragment ← lift_geometry (TargetPixelXYWH (default JNull (jget item "target")));
      match fragment with
      | None => Ok tt
      | Some f =>
          b ← lift_geometry (parsePixelXYWH f);
          if (width =? 0) || (height =? 0) then Err EUnknownDimensions else
          if box_outside b width height then Err EOutsideImage else Ok tt
      end
  | _ => Err EItemNotObject
  end.

Definition ValidateAnnotationPageGeometry (raw : string) (width height : Z) : result page_err unit :=
  document ← decode_map raw;
  match jget (default [] document) "items" with
  | Some (JArray items) => each (item_geometry width height) items
  | _ => Err EItemsNotArray
  end.

End presentation.
End Presentation.
