(* ===== verification/PageNormal.v ===== *)
(** * Canonical identifiers and normalised pages: lemmas

    What [NormalizeAnnotationPage] writes, item by item, and what
    [ValidateCanonicalAnnotationPage] then accepts.

    Modules [PageIdentity]: canonical identifiers and normalised pages: lemmas;
    [PageNormal]: what [NormalizeAnnotationPage] writes and what the validator accepts. *)

From Stdlib Require Import ZArith NArith Lia Ascii String.
From stdpp Require Import base gmap strings list.
From S2P Require Import Prelude GoStrings Json JsonParse MediaFragment Presentation.

Module PageIdentity.
Import GoStr Json JsonParse MediaFragment Presentation.
#[local] Open Scope Z_scope.

(** ** Strings *)

Lemma chars_app a b : list_ascii_of_string (a ++ b) = list_ascii_of_string a ++ list_ascii_of_string b.
Proof. induction a as [|c a IH]; [done|]. rewrite sapp_cons. cbn. by rewrite IH. Qed.

Lemma chars_inj a b : list_ascii_of_string a = list_ascii_of_string b -> a = b.
Proof. intros H. by rewrite <-(string_of_list_ascii_of_string a), H, string_of_list_ascii_of_string. Qed.

Lemma sapp_inj_r (a b c : string) : (a ++ c)%string = (b ++ c)%string -> a = b.
Proof.
  intros H. apply (f_equal list_ascii_of_string) in H. rewrite !chars_app in H.
  apply app_inv_tail in H. by apply chars_inj.
Qed.

Lemma other_than_not_elem c s : all_chars (other_than c) s = true -> c ∉ list_ascii_of_string s.
Proof.
  induction s as [|x s IH]; cbn; [intros _ H; inversion H|].
  intros [Hx Hs]%andb_true_iff [-> |H]%elem_of_cons; [by rewrite other_than_same in Hx|by apply IH].
Qed.

(** The text after the last [-] is determined. *)
Lemma after_last_dash a b d e :
  all_chars is_digit d = true -> all_chars is_digit e = true ->
  (a ++ "-" ++ d)%string = (b ++ "-" ++ e)%string -> a = b /\ d = e.
Proof.
  intros Hd He H.
  assert (Hn : forall s, all_chars is_digit s = true -> "-"%char ∉ list_ascii_of_string s).
  { intros s Hs. apply other_than_not_elem. eapply all_chars_impl; [|exact Hs].
    intros c. by apply is_digit_other. }
  apply (f_equal list_ascii_of_string) in H. rewrite !chars_app in H. cbn in H.
  apply not_elem_of_app_cons_inv_r in H as (H1 & _ & H2); [|by apply Hn..]. split; by apply chars_inj.
Qed.

Lemma itoa_inj i j : 0 <= i <= MaxUint64 -> 0 <= j <= MaxUint64 -> itoa i = itoa j -> i = j.
Proof.
  intros Hi Hj H. apply (f_equal ParseUint) in H. rewrite !ParseUint_itoa in H by done. congruence.
Qed.

Lemma rev_snoc a x : rev (a ++ String x "") = String x (rev a).
Proof.
  rewrite <-(rev_rev a) at 1. unfold rev at 2. rewrite <-rev_app_app, rev_rev_app. done.
Qed.

Lemma TrimRight_snoc a x c : x <> c -> TrimRight (a ++ String x "") c = (a ++ String x "")%string.
Proof.
  intros Hx. unfold TrimRight. rewrite rev_snoc. cbn [trim_byte].
  rewrite bool_decide_eq_false_2 by done. by rewrite <-rev_snoc, rev_rev.
Qed.

(** ** Objects *)

Lemma compare_refl a : String.compare a a = Eq.
Proof.
  induction a as [|c a IH]; cbn; [done|]. unfold Ascii.compare. by rewrite N.compare_refl.
Qed.

Lemma jset_same m k v : keys_sorted m -> jget m k = Some v -> jset m k v = m.
Proof.
  induction m as [|[k1 v1] m IH]; [done|]. cbn. intros [Hall Hs].
  destruct (decide (k = k1)) as [-> |Hne].
  - rewrite bool_decide_eq_true_2 by done. intros [= ->].
    by rewrite compare_refl.
  - rewrite bool_decide_eq_false_2 by done. intros H.
    destruct (String.compare k k1) eqn:E; [by apply String.compare_eq_iff in E| |by rewrite IH].
    exfalso. rewrite jget_None_lt in H; [done|]. eapply Forall_impl; [exact Hall|].
    intros kv. by apply key_lt_trans.
Qed.

Lemma jdel_absent m k : jget m k = None -> jdel m k = m.
Proof.
  induction m as [|[k1 v1] m IH]; [done|]. cbn. destruct (bool_decide (k = k1)); [done|].
  intros H. by rewrite IH.
Qed.

Lemma jdel_Forall (P : string * json -> Prop) m k : Forall P m -> Forall P (jdel m k).
Proof.
  induction 1 as [|[k1 v1] m ? ? IH]; cbn; [done|]. destruct (bool_decide (k = k1)); [done|by constructor].
Qed.

Lemma jdel_well_formed m k : well_formed (JObject m) -> well_formed (JObject (jdel m k)).
Proof.
  rewrite !well_formed_object. intros [Hs Hm]. split; [by apply jdel_sorted|by apply jdel_Forall].
Qed.

Lemma well_formed_get m k v : well_formed (JObject m) -> jget m k = Some v -> well_formed v.
Proof.
  rewrite well_formed_object. intros [_ Hm]. induction Hm as [|[k1 v1] m [_ Hv] Hm IH]; [done|]. cbn.
  destruct (bool_decide (k = k1)); [by intros [= <-]|done].
Qed.

Lemma well_formed_sorted m : well_formed (JObject m) -> keys_sorted m.
Proof. by rewrite well_formed_object; intros [? _]. Qed.

(** Decoding a sorted object into a fresh map gives it back. *)
Lemma foldl_jset_app acc m :
  keys_sorted m -> Forall (fun kv => Forall (fun kv' => key_lt kv.1 kv'.1) m) acc ->
  foldl (fun b (kv : string * json) => jset b kv.1 kv.2) acc m = acc ++ m.
Proof.
  revert acc. induction m as [|[k v] m IH]; intros acc; [by rewrite app_nil_r|].
  intros [Hk Hm] Hacc. cbn [foldl fst snd].
  rewrite jset_last by (eapply Forall_impl; [exact Hacc|]; by intros kv [? _]%Forall_cons).
  rewrite IH; [by rewrite <-app_assoc|done|]. apply Forall_app. split.
  - eapply Forall_impl; [exact Hacc|]. by intros kv [_ ?]%Forall_cons.
  - constructor; [exact Hk|constructor].
Qed.

Lemma foldl_jset_sorted m : keys_sorted m -> foldl (fun b (kv : string * json) => jset b kv.1 kv.2) [] m = m.
Proof. intros H. by rewrite foldl_jset_app. Qed.

Lemma reuse_fresh (l : list obj) :
  Forall keys_sorted l -> reuse [] (JObject <$> l) = Ok l.
Proof.
  induction 1 as [|m l Hm Hl IH]; [done|]. cbn [fmap list_fmap reuse head default tail].
  cbn [mbind result_bind]. rewrite foldl_jset_sorted by done.
  change (tail []) with (@nil obj). by rewrite IH.
Qed.

(** ** Struct fields *)

(** No key other than [name] matches the field [name]. *)
Definition unshadowed (name : string) (m : obj) : Prop :=
  Forall (fun kv => EqualFold kv.1 name = true -> kv.1 = name) m.

Lemma EqualFold_refl s : EqualFold s s = true.
Proof. by apply bool_decide_eq_true. Qed.

Lemma field_values_none name (m : obj) k :
  unshadowed name m -> Forall (fun kv => key_lt k kv.1) m -> k = name -> field_values m name = [].
Proof.
  intros Hu Hk ->. unfold field_values. induction Hk as [|kv m Hk Hm IH]; [done|].
  apply Forall_cons in Hu as [Hkv Hu]. rewrite filter_cons_False; [by apply IH|].
  intros H%Hkv. rewrite H in Hk. by eapply key_lt_irrefl.
Qed.

Lemma field_values_unshadowed name m :
  keys_sorted m -> unshadowed name m ->
  field_values m name = match jget m name with Some v => [v] | None => [] end.
Proof.
  induction m as [|[k v] m IH]; [done|]. cbn [keys_sorted]. intros [Hk Hs] [Hu1 Hu]%Forall_cons.
  cbn [jget]. destruct (decide (name = k)) as [<-|Hne].
  - rewrite bool_decide_eq_true_2 by done. unfold field_values.
    rewrite filter_cons_True by apply EqualFold_refl. cbn [map snd]. f_equal.
    by eapply field_values_none.
  - rewrite bool_decide_eq_false_2 by done. rewrite <-IH by done. unfold field_values.
    rewrite filter_cons_False; [done|]. cbn. intros H%Hu1. by subst.
Qed.

Lemma unshadowed_jset name m k v :
  (EqualFold k name = true -> k = name) -> unshadowed name m -> unshadowed name (jset m k v).
Proof. intros Hk Hm. by apply (jset_Forall (fun k => EqualFold k name = true -> k = name)). Qed.

Lemma unshadowed_jdel name m k : unshadowed name m -> unshadowed name (jdel m k).
Proof. apply jdel_Forall. Qed.

End PageIdentity.

(** * What [NormalizeAnnotationPage] writes and what the validator accepts

    Lemmas on one item, on the list of items, on the page's own properties, and on
    the canonical check run on the encoded page. *)

Module PageNormal.
Import GoStr Json JsonParse MediaFragment Presentation PageIdentity.
#[local] Open Scope Z_scope.

Section normal.
Context {SC : Schema} {UP : UrlParser} {UPr : UrlPrinter} {SH : Sha256}.

(** ** Identifiers *)

Lemma AnnotationPageID_eq b i p :
  AnnotationPageID b i = Ok p ->
  exists base, validHTTPBase b = Ok base /\ i <> 0 /\
    p = (base ++ "/item-image-" ++ itoa i ++ "/canvas/page-1/annotations")%string.
Proof.
  unfold AnnotationPageID, itemImageResourceBase. intros (r & Hr & [= <-])%result_bind_Ok.
  apply result_bind_Ok in Hr as (base & Hb & Hr). destruct (Z.eqb_spec i 0); [done|].
  injection Hr as <-. exists base. rewrite !sapp_assoc. done.
Qed.

Lemma page_id_no_slash b i p : AnnotationPageID b i = Ok p -> TrimRight p "/"%char = p.
Proof.
  intros (base & _ & _ & ->)%AnnotationPageID_eq.
  change "/canvas/page-1/annotations"%string with ("/canvas/page-1/annotation" ++ String "s" "")%string.
  rewrite <-!sapp_assoc. by apply TrimRight_snoc.
Qed.

Lemma page_id_inj b b' i j p :
  0 <= i <= MaxUint64 -> 0 <= j <= MaxUint64 ->
  AnnotationPageID b i = Ok p -> AnnotationPageID b' j = Ok p ->
  i = j /\ validHTTPBase b = validHTTPBase b'.
Proof.
  intros Hi Hj (base & Hb & _ & ->)%AnnotationPageID_eq (base' & Hb' & _ & Hp)%AnnotationPageID_eq.
  rewrite <-!sapp_assoc in Hp. apply sapp_inj_r in Hp. rewrite !sapp_assoc in Hp.
  change "/item-image-"%string with ("/item-image" ++ "-")%string in Hp.
  rewrite !sapp_assoc in Hp. rewrite <-!(sapp_assoc _ "/item-image") in Hp.
  apply after_last_dash in Hp as [Hbase Hij]; [|apply itoa_digits; lia|apply itoa_digits; lia].
  apply sapp_inj_r in Hbase. apply itoa_inj in Hij; [|done..]. split; congruence.
Qed.

Lemma AnnotationID_eq pageID seed id :
  AnnotationID pageID seed = Ok id ->
  id = (TrimRight pageID "/"%char ++ "/items/"
        ++ hex_encode (first_bytes 16 (sha256 (TrimSpace seed))))%string.
Proof.
  unfold AnnotationID. intros Hgen. apply result_bind_Ok in Hgen as (u & _ & Hgen). revert Hgen.
  destruct (bool_decide _); [done|]. by intros [= <-].
Qed.

Lemma hex_encode_valid s : valid_utf8 (hex_encode s) = true.
Proof.
  assert (Hd : forall n t, (n < 16)%N -> valid_utf8 (String (hex_digit n) t) = valid_utf8 t).
  { intros n t Hn. cbn [valid_utf8]. assert ((N_of_ascii (hex_digit n) <? 128)%N = true) as ->; [|done].
    unfold hex_digit. apply N.ltb_lt. destruct (N.ltb_spec n 10); rewrite N_ascii_embedding; lia. }
  induction s as [|c s IH]; [done|]. cbn [hex_encode].
  pose proof (N_ascii_bounded c). rewrite !Hd; [done|apply N.mod_lt; lia|].
  apply N.Div0.div_lt_upper_bound. lia.
Qed.

Lemma AnnotationID_valid pageID seed id :
  TrimRight pageID "/"%char = pageID -> valid_utf8 pageID = true ->
  AnnotationID pageID seed = Ok id -> valid_utf8 id = true.
Proof.
  intros Ht Hv ->%AnnotationID_eq. rewrite Ht, valid_utf8_app by done.
  rewrite valid_utf8_app by done. apply hex_encode_valid.
Qed.

(** ** One item *)

Definition item_id (a : obj) : string := as_string (jget a "id").
Definition item_canvas (a : obj) : string := TargetCanvas (default JNull (jget a "target")).

(** What Scribe writes on an item before it looks at the id. *)
Definition own_item (a : obj) : obj := jdel (jdel (jset a "type" (JString "Annotation")) "@id") "@type".

Definition owned (a : obj) : Prop :=
  jget a "type" = Some (JString "Annotation") /\ jget a "@id" = None /\ jget a "@type" = None.

Lemma jget_own_item a k :
  keys_sorted a ->
  jget (own_item a) k =
    if bool_decide (k = "@type"%string) || bool_decide (k = "@id"%string) then None
    else if bool_decide (k = "type"%string) then Some (JString "Annotation") else jget a k.
Proof.
  intros Hs. unfold own_item. rewrite !jget_jdel, jget_jset by eauto using jdel_sorted, jset_sorted.
  by destruct (bool_decide (k = "@type"%string)), (bool_decide (k = "@id"%string)).
Qed.

Lemma own_item_sorted a : keys_sorted a -> keys_sorted (own_item a).
Proof. unfold own_item. eauto using jdel_sorted, jset_sorted. Qed.

Lemma own_item_well_formed a : well_formed (JObject a) -> well_formed (JObject (own_item a)).
Proof. intros H. unfold own_item. do 2 apply jdel_well_formed. by apply jset_well_formed. Qed.

Lemma own_item_owned a : keys_sorted a -> owned (own_item a).
Proof. intros H. by unfold owned; rewrite !jget_own_item. Qed.

Lemma owned_fixpoint a : keys_sorted a -> owned a -> own_item a = a.
Proof.
  intros Hs (Ht & Hi & Hy). unfold own_item. rewrite jset_same by done.
  by rewrite (jdel_absent a "@id"), (jdel_absent a "@type").
Qed.

(** The properties of an item that Scribe does not own are kept. *)
Definition item_kept (a0 a : obj) : Prop :=
  forall k, k ∉ ["id"; "type"; "@id"; "@type"]%string -> jget a k = jget a0 k.

Lemma normalize_item_spec pageID canvasURI pos seen v a id :
  TrimRight pageID "/"%char = pageID -> valid_utf8 pageID = true -> well_formed v ->
  normalize_item pageID canvasURI pos seen v = Ok (a, id) ->
  exists a0, v = JObject a0 /\ well_formed (JObject a) /\ owned a /\ item_kept a0 a /\
    id = item_id a /\ item_canvas a = canvasURI /\
    (isCanonicalAnnotationID (item_id a0) pageID = true -> item_id a0 ∉ seen -> id = item_id a0).
Proof.
  intros Ht Hp Hv H. destruct v as [| | | | |a0]; try done. exists a0. split; [done|].
  cbn [normalize_item] in H. fold (own_item a0) in H.
  pose proof (well_formed_sorted _ Hv) as Hs. pose proof (own_item_well_formed a0 Hv) as Hw.
  pose proof (own_item_owned a0 Hs) as Ho.
  assert (Hid : jget (own_item a0) "id" = jget a0 "id") by by rewrite jget_own_item.
  assert (Hk : item_kept a0 (own_item a0)).
  { intros k Hk. rewrite jget_own_item by done. rewrite !not_elem_of_cons in Hk.
    destruct Hk as (? & ? & ? & ? & _). by rewrite !bool_decide_eq_false_2 by done. }
  apply result_bind_Ok in H as ([a' id'] & Ha & H). destruct (negb (bool_decide _)) eqn:Hc; [done|].
  injection H as <- <-. apply negb_false_iff, bool_decide_eq_true in Hc.
  rewrite Hid in Ha. fold (item_id a0) in Ha.
  destruct (negb (isCanonicalAnnotationID (item_id a0) pageID) || bool_decide (item_id a0 ∈ seen)) eqn:E.
  - apply result_bind_Ok in Ha as (id & Hgen & [= <- <-]).
    assert (Hother : forall k, k <> "id"%string ->
      jget (jset (own_item a0) "id" (JString id)) k = jget (own_item a0) k)
      by (intros k Hne; by rewrite jget_jset, bool_decide_eq_false_2).
    split_and!; try done.
    + apply jset_well_formed; [done| |done]. by eapply AnnotationID_valid.
    + unfold owned. by rewrite !Hother.
    + intros k Hkk. rewrite Hother by set_solver. by apply Hk.
    + unfold item_id. by rewrite jget_jset, bool_decide_eq_true_2.
    + intros Hcan Hns. rewrite Hcan, bool_decide_eq_false_2 in E; done.
  - injection Ha as <- <-. split_and!; try done. unfold item_id. by rewrite Hid.
Qed.

Lemma normalize_item_fixpoint pageID canvasURI pos seen a :
  keys_sorted a -> owned a -> isCanonicalAnnotationID (item_id a) pageID = true ->
  item_id a ∉ seen -> item_canvas a = canvasURI ->
  normalize_item pageID canvasURI pos seen (JObject a) = Ok (a, item_id a).
Proof.
  intros Hs Ho Hc Hn Ht. cbn [normalize_item]. fold (own_item a). rewrite owned_fixpoint by done.
  fold (item_id a). rewrite Hc, bool_decide_eq_false_2 by done. cbn [negb orb].
  cbn [mbind result_bind]. fold (item_canvas a). by rewrite bool_decide_eq_true_2.
Qed.

(** ** The items *)

Lemma normalize_items_spec pageID canvasURI pos seen l l' :
  TrimRight pageID "/"%char = pageID -> valid_utf8 pageID = true -> Forall well_formed l ->
  normalize_items pageID canvasURI pos seen l = Ok l' ->
  exists items0 items, l = JObject <$> items0 /\ l' = JObject <$> items /\
    Forall2 item_kept items0 items /\
    Forall (fun a => well_formed (JObject a) /\ owned a /\ item_canvas a = canvasURI) items.
Proof.
  intros Ht Hp Hl. revert pos seen l'. induction Hl as [|v l Hv Hl IH]; intros pos seen l' H.
  - injection H as <-. by exists [], [].
  - cbn [normalize_items] in H. apply result_bind_Ok in H as ([a id] & Ha & H).
    apply result_bind_Ok in H as (rest & Hr & [= <-]).
    apply normalize_item_spec in Ha as (a0 & -> & Hw & Ho & Hk & _ & Hc & _); [|done..].
    apply IH in Hr as (items0 & items & -> & -> & H2 & Hall).
    exists (a0 :: items0), (a :: items). split_and!; [done..|by constructor|by constructor].
Qed.

(** The identity check, stated of all the items at once. *)
Lemma canonical_items_spec pageID canvasURI seen items :
  canonical_items pageID canvasURI seen items = Ok tt <->
  Forall (fun a => isCanonicalAnnotationID (item_id a) pageID = true /\ item_canvas a = canvasURI) items /\
  NoDup (item_id <$> items) /\ Forall (fun a => item_id a ∉ seen) items.
Proof.
  revert seen. induction items as [|a items IH]; intros seen; cbn [canonical_items].
  { split; [|done]. intros _. split_and!; [by constructor|constructor|by constructor]. }
  fold (item_id a). fold (item_canvas a). rewrite fmap_cons, NoDup_cons, !Forall_cons.
  destruct (isCanonicalAnnotationID (item_id a) pageID); cbn [negb]; [|naive_solver].
  destruct (decide (item_id a ∈ seen)) as [Hin|Hin].
  { rewrite bool_decide_eq_true_2 by done. split; [done|]. intros (_ & _ & ? & _). done. }
  rewrite bool_decide_eq_false_2 by done.
  destruct (decide (item_canvas a = canvasURI)) as [Hc|Hc].
  2:{ rewrite bool_decide_eq_false_2 by done. cbn [negb]. naive_solver. }
  rewrite bool_decide_eq_true_2 by done. cbn [negb]. rewrite IH.
  assert (Forall (fun a0 => item_id a0 ∉ item_id a :: seen) items <->
    (item_id a ∉ (item_id <$> items)) /\ Forall (fun a0 => item_id a0 ∉ seen) items) as ->; [|naive_solver].
  rewrite !Forall_forall. setoid_rewrite not_elem_of_cons. split.
  - intros H. split; [|naive_solver]. intros (a0 & Heq & Ha0)%list_elem_of_fmap. by destruct (H a0 Ha0) as [[] _].
  - intros [Hn H] a0 Ha0. split; [|by apply H]. intros Heq. apply Hn. apply list_elem_of_fmap. eauto.
Qed.

Lemma normalize_items_fixpoint pageID canvasURI pos seen items :
  Forall (fun a => keys_sorted a /\ owned a) items ->
  canonical_items pageID canvasURI seen items = Ok tt ->
  normalize_items pageID canvasURI pos seen (JObject <$> items) = Ok (JObject <$> items).
Proof.
  intros Hall. revert pos seen. induction Hall as [|a items [Hs Ho] Hall IH]; intros pos seen H; [done|].
  pose proof H as H'. apply canonical_items_spec in H' as ([[Hc Ht] _]%Forall_cons & _ & [Hn _]%Forall_cons).
  cbn [canonical_items] in H. fold (item_id a) in H. fold (item_canvas a) in H.
  rewrite Hc, bool_decide_eq_false_2 in H by done. rewrite bool_decide_eq_true_2 in H by done.
  cbn [negb] in H. cbn [fmap list_fmap normalize_items].
  rewrite normalize_item_fixpoint by done. cbn [mbind result_bind].
  change ((fix go (l : list obj) := match l with [] => [] | x :: l0 => JObject x :: go l0 end) items)
    with (JObject <$> items). by rewrite IH.
Qed.

(** ** The contexts *)

Lemma append_contexts_again seen values :
  append_contexts seen (append_contexts seen values ++ [JString PresentationContext])
  = append_contexts seen values.
Proof.
  revert seen. induction values as [|v values IH]; intros seen.
  { cbn. by rewrite bool_decide_eq_true_2. }
  destruct v as [|b|lit|text|l|m]; cbn [append_contexts]; try (cbn; by rewrite IH).
  destruct (bool_decide (text = PresentationContext) || bool_decide (text ∈ seen)) eqn:E; [apply IH|].
  cbn [app append_contexts]. by rewrite E, IH.
Qed.

Lemma contexts_again existing :
  annotationPageContexts (Some (JArray (annotationPageContexts existing))) = annotationPageContexts existing.
Proof.
  unfold annotationPageContexts at 1. unfold annotationPageContexts at 1. cbn [append_contexts].
  rewrite (bool_decide_eq_true_2 (_ ∈ _)) by set_solver. rewrite orb_true_r.
  by rewrite append_contexts_again.
Qed.

(** Scribe's two contexts, each once; the Presentation context is last. *)
Lemma append_contexts_no_presentation seen values :
  JString PresentationContext ∉ append_contexts seen values.
Proof.
  revert seen. induction values as [|v values IH]; intros seen; [intros H; inversion H|].
  destruct v as [|b|lit|text|l|m]; cbn [append_contexts];
    try (rewrite not_elem_of_cons; split; [done|apply IH]).
  destruct (bool_decide (text = PresentationContext) || bool_decide (text ∈ seen)) eqn:E; [apply IH|].
  apply orb_false_iff in E as [E _]. apply bool_decide_eq_false in E.
  rewrite not_elem_of_cons. split; [congruence|apply IH].
Qed.

Lemma append_contexts_well_formed seen values :
  Forall well_formed values -> Forall well_formed (append_contexts seen values).
Proof.
  intros H. revert seen. induction H as [|v values Hv H IH]; intros seen; [done|].
  destruct v; cbn [append_contexts]; try (by constructor). destruct (_ || _); [done|by constructor].
Qed.

(** ** The page *)

Definition schema_text : Prop :=
  valid_utf8 PresentationContext = true /\ valid_utf8 TextGranularityContext = true.

Lemma contexts_well_formed existing :
  schema_text -> (forall v, existing = Some v -> well_formed v) ->
  well_formed (JArray (annotationPageContexts existing)).
Proof.
  intros [Hp Ht] He. apply well_formed_array. unfold annotationPageContexts.
  constructor; [done|]. apply Forall_app. split; [|by constructor].
  apply append_contexts_well_formed. destruct existing as [v|]; [|done].
  specialize (He v eq_refl). destruct v; try (by constructor). by apply well_formed_array.
Qed.

(** The keys of a page that Scribe owns. *)
Definition page_own_keys : list string := ["@context"; "id"; "type"; "@id"; "@type"; "items"]%string.

Record canonical_own (pageID : string) (m : obj) : Prop := {
  own_id : jget m "id" = Some (JString pageID);
  own_type : jget m "type" = Some (JString "AnnotationPage");
  own_no_id : jget m "@id" = None;
  own_no_type : jget m "@type" = None;
  own_context : exists existing, jget m "@context" = Some (JArray (annotationPageContexts existing));
}.

Lemma jget_own_page m pageID k :
  keys_sorted m ->
  jget (own_page m pageID) k =
    if bool_decide (k = "@type"%string) || bool_decide (k = "@id"%string) then None
    else if bool_decide (k = "type"%string) then Some (JString "AnnotationPage")
    else if bool_decide (k = "id"%string) then Some (JString pageID)
    else if bool_decide (k = "@context"%string) then Some (JArray (annotationPageContexts (jget m "@context")))
    else jget m k.
Proof.
  intros Hs. unfold own_page. rewrite !jget_jdel, !jget_jset by eauto 6 using jdel_sorted, jset_sorted.
  by destruct (bool_decide (k = "@type"%string)), (bool_decide (k = "@id"%string)).
Qed.

Lemma own_page_well_formed m pageID :
  schema_text -> valid_utf8 pageID = true -> well_formed (JObject m) ->
  well_formed (JObject (own_page m pageID)).
Proof.
  intros Ht Hp Hm. unfold own_page. do 2 apply jdel_well_formed. do 2 (apply jset_well_formed; [done|done|]).
  apply jset_well_formed; [done| |done]. apply contexts_well_formed; [done|]. intros v. by apply well_formed_get.
Qed.

Lemma own_page_canonical m pageID : keys_sorted m -> canonical_own pageID (own_page m pageID).
Proof. intros Hs. split; rewrite jget_own_page by done; eauto. Qed.

Lemma own_page_fixpoint pageID m : keys_sorted m -> canonical_own pageID m -> own_page m pageID = m.
Proof.
  intros Hs [Hi Ht Hni Hnt [e Hc]]. unfold own_page. rewrite Hc, contexts_again.
  rewrite (jset_same m "@context") by done. rewrite (jset_same m "id") by done.
  rewrite (jset_same m "type") by done. by rewrite (jdel_absent m "@id"), (jdel_absent m "@type").
Qed.

(** What a normalised page is, and what it kept of the page it was made from. *)
Record normalized (pageID canvasURI : string) (m0 m : obj) (items : list obj) : Prop := {
  norm_well_formed : well_formed (JObject m);
  norm_own : canonical_own pageID m;
  norm_items : jget m "items" = Some (JArray (JObject <$> items));
  norm_item : Forall (fun a => well_formed (JObject a) /\ owned a /\ item_canvas a = canvasURI) items;
  norm_kept : forall k, k ∉ page_own_keys -> jget m k = jget m0 k;
  norm_items_kept : exists items0, Forall2 item_kept items0 items /\
    match jget m0 "items" with
    | None | Some JNull => items0 = []
    | Some v => v = JArray (JObject <$> items0)
    end;
  norm_unshadowed : forall name, unshadowed name m0 ->
    (name = "id" \/ name = "items")%string -> unshadowed name m;
}.

Lemma canonical_own_set pageID m k v :
  k ∉ ["@context"; "id"; "type"; "@id"; "@type"]%string -> canonical_own pageID m ->
  canonical_own pageID (jset m k v).
Proof.
  rewrite !not_elem_of_cons. intros (? & ? & ? & ? & ? & _) [? ? ? ? ?].
  by split; rewrite jget_jset, bool_decide_eq_false_2 by done.
Qed.

Lemma own_page_unshadowed name m pageID :
  unshadowed name m -> (name = "id" \/ name = "items")%string -> unshadowed name (own_page m pageID).
Proof.
  intros Hu Hn. unfold own_page. do 2 apply unshadowed_jdel.
  repeat apply unshadowed_jset; try done; by destruct Hn as [-> | ->].
Qed.

Lemma normalized_items pageID canvasURI m0 items0 items :
  schema_text -> valid_utf8 pageID = true -> well_formed (JObject m0) ->
  Forall2 item_kept items0 items ->
  Forall (fun a => well_formed (JObject a) /\ owned a /\ item_canvas a = canvasURI) items ->
  match jget m0 "items" with
  | None | Some JNull => items0 = []
  | Some v => v = JArray (JObject <$> items0)
  end ->
  normalized pageID canvasURI m0 (jset (own_page m0 pageID) "items" (JArray (JObject <$> items))) items.
Proof.
  intros Ht Hp Hw Hk Hi H0. pose proof (well_formed_sorted _ Hw) as Hs. split.
  - apply jset_well_formed; [done| |by apply own_page_well_formed].
    apply well_formed_array, Forall_fmap. eapply Forall_impl; [exact Hi|]. by intros a [? _].
  - apply canonical_own_set; [set_solver|by apply own_page_canonical].
  - by rewrite jget_jset, bool_decide_eq_true_2.
  - done.
  - intros k. unfold page_own_keys. rewrite !not_elem_of_cons. intros (? & ? & ? & ? & ? & ? & _).
    rewrite jget_jset, bool_decide_eq_false_2, jget_own_page by done.
    by rewrite !bool_decide_eq_false_2 by done.
  - by exists items0.
  - intros name Hu Hn. apply unshadowed_jset; [by destruct Hn as [-> | ->]|by apply own_page_unshadowed].
Qed.

Lemma normalize_page_spec b i pageID canvasURI m0 m :
  AnnotationPageID b i = Ok pageID ->
  schema_text -> valid_utf8 pageID = true -> well_formed (JObject m0) ->
  normalize_page pageID canvasURI m0 = Ok m -> exists items, normalized pageID canvasURI m0 m items.
Proof.
  intros Hid Ht Hp Hw H. pose proof (well_formed_sorted _ Hw) as Hs. unfold normalize_page in H.
  rewrite jget_own_page in H by done.
  change (jget m0 "items") with (jget m0 "items") in H. cbn [bool_decide decide] in H.
  destruct (jget m0 "items") as [v|] eqn:Ev.
  2:{ injection H as <-. exists []. apply (normalized_items _ _ _ [] []); try done. by rewrite Ev. }
  destruct v as [|?|?|?|l|?]; try done.
  { injection H as <-. exists []. apply (normalized_items _ _ _ [] []); try done. by rewrite Ev. }
  apply result_bind_Ok in H as (l' & Hl & [= <-]).
  pose proof (well_formed_get _ _ _ Hw Ev) as Hwl. apply well_formed_array in Hwl.
  apply normalize_items_spec in Hl as (items0 & items & -> & -> & Hk & Hi);
    [|by eapply page_id_no_slash|done|done].
  exists items. eapply normalized_items; try done. by rewrite Ev.
Qed.

End normal.
End PageNormal.
