(* ===== verification/PageTheorems.v ===== *)
(** * Annotation pages: the properties

    Canonical form, preservation, idempotence, the geometry check, and page
    identifiers; two inputs on which the code does not do what it means to. *)

From Stdlib Require Import ZArith NArith Lia Ascii String.
From stdpp Require Import base gmap strings list.
From S2P Require Import Prelude GoStrings Json JsonParse MediaFragment Presentation PageNormal.

Module PageTheorems.
Import GoStr Json JsonParse MediaFragment Presentation PageIdentity PageNormal.
#[local] Open Scope Z_scope.

Section pages.
Context {SC : Schema} {UP : UrlParser} {UPr : UrlPrinter} {SH : Sha256}.

(** The page identifier of the configured base URL is text. *)
Definition page_text (identity : PageIdentity) : Prop :=
  forall p, AnnotationPageID (PublicBaseURL identity) (ItemImageID identity) = Ok p -> valid_utf8 p = true.

(** No key of the document matches the fields [id] and [items] only by case folding. *)
Definition plain_page (raw : string) : Prop :=
  forall m, DecodeJSON raw = Some (JObject m) -> unshadowed "id" m /\ unshadowed "items" m.

(** ** Taking a successful normalisation apart *)

Lemma decode_map_Some raw m : decode_map raw = Ok (Some m) -> DecodeJSON raw = Some (JObject m).
Proof. unfold decode_map. destruct (DecodeJSON raw) as [[]|]; try done. by intros [= ->]. Qed.

Lemma normalize_inv raw identity n :
  schema_text -> page_text identity -> NormalizeAnnotationPage raw identity = Ok n ->
  exists pageID m0 m items,
    AnnotationPageID (PublicBaseURL identity) (ItemImageID identity) = Ok pageID /\
    http_url (CanvasURI identity) = Ok tt /\
    DecodeJSON raw = Some (JObject m0) /\ n = Marshal (JObject m) /\
    normalized pageID (TrimSpace (CanvasURI identity)) m0 m items /\
    ValidateCanonicalAnnotationPage n identity = Ok tt.
Proof.
  intros Ht Hp H. unfold NormalizeAnnotationPage in H.
  apply result_bind_Ok in H as ([] & _ & H). apply result_bind_Ok in H as (pageID & Hid & H).
  apply result_bind_Ok in H as ([] & Hu & H). apply result_bind_Ok in H as ([m0|] & Hd & H); [|done].
  apply decode_map_Some in Hd. apply result_bind_Ok in H as (m & Hm & H).
  apply result_bind_Ok in H as ([] & Hv & [= <-]).
  destruct (normalize_page_spec _ _ _ _ _ _ Hid Ht (Hp _ Hid) (decode_well_formed _ _ Hd) Hm) as [items Hn].
  exists pageID, m0, m, items. done.
Qed.

Lemma map_array_plain name m (items : list obj) :
  keys_sorted m -> unshadowed name m -> jget m name = Some (JArray (JObject <$> items)) ->
  Forall keys_sorted items -> map_array_field m name = Ok items.
Proof.
  intros Hs Hu Hi Hit. unfold map_array_field. rewrite field_values_unshadowed, Hi by done.
  pose proof (reuse_fresh items Hit) as Hr. destruct items as [|a items]; [done|].
  cbn [foldl mbind result_bind]. change (JObject <$> (a :: items)) with (JObject a :: (JObject <$> items)) in *.
  cbv iota. rewrite Hr. cbn [mbind result_bind length]. rewrite length_fmap. f_equal. apply (firstn_all (a :: items)).
Qed.

(** A page that passes the canonical check decodes to what was encoded. *)
Lemma validated_decodes identity m : well_formed (JObject m) ->
  ValidateCanonicalAnnotationPage (Marshal (JObject m)) identity = Ok tt ->
  DecodeJSON (Marshal (JObject m)) = Some (JObject m) /\ validateAnnotationPageCost (Marshal (JObject m)) true = Ok tt.
Proof.
  intros Hw H. unfold ValidateCanonicalAnnotationPage in H. apply result_bind_Ok in H as ([] & Hval & _).
  unfold ValidateAnnotationPage in Hval. apply result_bind_Ok in Hval as ([] & Hcost & Hval).
  apply result_bind_Ok in Hval as (pg & Hpg & _). unfold decode_map in Hpg.
  destruct (DecodeJSON (Marshal (JObject m))) as [j|] eqn:Ej; [|done].
  by apply decode_encoded in Ej as ->.
Qed.

(** The canonical check, on the encoding of an unshadowed page, sees its items. *)
Lemma validated_items pageID identity m items :
  AnnotationPageID (PublicBaseURL identity) (ItemImageID identity) = Ok pageID ->
  well_formed (JObject m) -> unshadowed "items" m ->
  jget m "items" = Some (JArray (JObject <$> items)) -> Forall (fun a => well_formed (JObject a)) items ->
  ValidateCanonicalAnnotationPage (Marshal (JObject m)) identity = Ok tt ->
  canonical_items pageID (TrimSpace (CanvasURI identity)) [] items = Ok tt.
Proof.
  intros Hid Hw Hu Hi Hit H. unfold ValidateCanonicalAnnotationPage in H.
  apply result_bind_Ok in H as ([] & _ & H). rewrite Hid in H. cbn [mbind result_bind] in H.
  apply result_bind_Ok in H as ([] & _ & H). apply result_bind_Ok in H as (ms & Hms & H).
  apply result_bind_Ok in H as (id & _ & H). apply result_bind_Ok in H as (its & Hits & H).
  unfold decode_fields in Hms. destruct (DecodeFields _) as [ms'|] eqn:E; [|done].
  apply decode_fields_encoded in E as ->; [|done]. injection Hms as <-.
  erewrite map_array_plain in Hits; [|by apply well_formed_sorted|done..|].
  - injection Hits as <-. by destruct (negb _).
  - eapply Forall_impl; [exact Hit|]. intros ?. apply well_formed_sorted.
Qed.

(** ** The cost check without identifiers *)

Lemma item_cost_relax v : item_cost true v = Ok tt -> item_cost false v = Ok tt.
Proof.
  unfold item_cost. intros H. apply result_bind_Ok in H as (a & Ha & H).
  apply result_bind_Ok in H as ([] & _ & H). rewrite Ha. exact H.
Qed.

Lemma each_Ok {A} (f : A -> result page_err unit) l : each f l = Ok tt <-> Forall (fun x => f x = Ok tt) l.
Proof.
  induction l as [|x l IH]; cbn [each]; [by split|]. rewrite Forall_cons, result_bind_Ok. split.
  - intros ([] & ? & ?). by rewrite <-IH.
  - rewrite <-IH. intros [? ?]. by exists tt.
Qed.

Lemma cost_relax raw : validateAnnotationPageCost raw true = Ok tt -> validateAnnotationPageCost raw false = Ok tt.
Proof.
  unfold validateAnnotationPageCost. destruct (_ >? _); [done|]. intros H.
  apply result_bind_Ok in H as (ms & Hms & H). apply result_bind_Ok in H as (id & Hid & H).
  apply result_bind_Ok in H as (items & Hit & H). rewrite Hms. cbn [mbind result_bind].
  rewrite Hid. cbn [mbind result_bind]. rewrite Hit. cbn [mbind result_bind].
  destruct (_ >? _); [done|]. destruct (true && _); [done|]. cbn [andb].
  rewrite each_Ok in *. eapply Forall_impl; [exact H|]. apply item_cost_relax.
Qed.

(** A normalised page is a fixed point of [normalize_page]. *)
Lemma normalize_page_again pageID canvasURI m0 m items :
  normalized pageID canvasURI m0 m items ->
  canonical_items pageID canvasURI [] items = Ok tt ->
  normalize_page pageID canvasURI m = Ok m.
Proof.
  intros [Hw Ho Hi Hit _ _ _] Hc. unfold normalize_page.
  rewrite own_page_fixpoint by (done || by apply well_formed_sorted). rewrite Hi.
  rewrite normalize_items_fixpoint; [|eapply Forall_impl; [exact Hit|]|done].
  - cbn [mbind result_bind]. by rewrite jset_same by (done || by apply well_formed_sorted).
  - intros a (Ha & Hoa & _). by split; [apply well_formed_sorted|].
Qed.

(** ** The geometry check *)

Definition target_fits (width height : Z) (target : json) : Prop :=
  match TargetPixelXYWH target with
  | Ok None => True
  | Ok (Some f) => exists b, parsePixelXYWH f = Ok b /\ bx b + bw b <= width /\ by_ b + bh b <= height
  | Err _ => False
  end.

Definition fits (width height : Z) (v : json) : Prop :=
  exists item, v = JObject item /\ target_fits width height (default JNull (jget item "target")).

Lemma box_outside_spec b width height :
  box_ok b -> 0 <= width <= MaxUint64 -> 0 <= height <= MaxUint64 ->
  box_outside b width height = false <-> bx b + bw b <= width /\ by_ b + bh b <= height.
Proof.
  intros (Hx & Hy & Hw & Hh & _) Rw Rh. unfold MaxUint64 in *. unfold box_outside. split.
  - intros H. split_bools. rewrite !usub64_id in * by lia. lia.
  - intros [H1 H2]. rewrite !usub64_id by lia. lia.
Qed.

Lemma item_geometry_spec width height v :
  0 <= width <= MaxUint64 -> 0 <= height <= MaxUint64 ->
  item_geometry width height v = Ok tt <-> fits width height v.
Proof.
  intros Rw Rh. unfold item_geometry, fits. destruct v as [| | | | |item]; try (split; [done|naive_solver]).
  transitivity (target_fits width height (default JNull (jget item "target"))).
  2:{ split; [eauto|by intros (? & [= <-] & ?)]. }
  unfold target_fits. destruct (TargetPixelXYWH _) as [[f|]|e]; cbn [lift_geometry mbind result_bind]; try done.
  destruct (parsePixelXYWH f) as [b|e] eqn:Eb; cbn [lift_geometry mbind result_bind]; [|naive_solver].
  pose proof (proj1 (parsePixelXYWH_inv _ _ Eb)) as Hb. pose proof (box_outside_spec b width height Hb Rw Rh) as Hs.
  destruct Hb as (? & ? & ? & ? & _).
  destruct ((width =? 0) || (height =? 0)) eqn:E.
  - split; [done|]. intros (b' & [= <-] & ? & ?). apply orb_true_iff in E. rewrite !Z.eqb_eq in E. lia.
  - destruct (box_outside b width height); [naive_solver|]. split; [|done]. intros _. exists b. naive_solver.
Qed.

(** ** Theorems *)

(** C25: a page that [NormalizeAnnotationPage] returns decodes to the object that was encoded, carries the page id of its image,
    type [AnnotationPage] and Scribe's contexts (the Presentation context last and only once), and every item is an [Annotation]
    that targets the owning Canvas.  Where no key of the given page matches [items] only by case folding, every item has a
    canonical child id of that page and all are distinct; such a key hides the items from the closing check.  The IIIF context
    constants and the page id are valid UTF-8. *)
Theorem normalized_page_is_canonical raw identity n :
  schema_text -> page_text identity -> NormalizeAnnotationPage raw identity = Ok n ->
  exists pageID m items cs,
    AnnotationPageID (PublicBaseURL identity) (ItemImageID identity) = Ok pageID /\
    DecodeJSON n = Some (JObject m) /\ n = Marshal (JObject m) /\
    jget m "id" = Some (JString pageID) /\ jget m "type" = Some (JString "AnnotationPage") /\
    jget m "@context" = Some (JArray (JString TextGranularityContext :: cs ++ [JString PresentationContext])) /\
    (JString PresentationContext ∉ cs) /\
    jget m "items" = Some (JArray (JObject <$> items)) /\
    Forall (fun a => owned a /\ item_canvas a = TrimSpace (CanvasURI identity)) items /\
    ((forall m0, DecodeJSON raw = Some (JObject m0) -> unshadowed "items" m0) ->
      Forall (fun a => isCanonicalAnnotationID (item_id a) pageID = true) items /\ NoDup (item_id <$> items)).
Proof.
  intros Ht Hp H. destruct (normalize_inv _ _ _ Ht Hp H) as (pageID & m0 & m & items & Hid & _ & Hd & -> & Hn & Hv).
  destruct Hn as [Hw [Hi1 Hi2 _ _ [e He]] Hi Hit _ _ Hu].
  exists pageID, m, items. eexists. split_and!; [done|by eapply validated_decodes|done..|exact He|apply append_contexts_no_presentation|done| |].
  - eapply Forall_impl; [exact Hit|]. by intros a (_ & ? & ?).
  - intros Hpl. specialize (Hpl m0 Hd). assert (Hc : canonical_items pageID (TrimSpace (CanvasURI identity)) [] items = Ok tt); [apply (validated_items pageID identity m items); try done|].
    { apply Hu; [done|by right]. }
    { eapply Forall_impl; [exact Hit|]. by intros a (? & _). }
    apply canonical_items_spec in Hc as (Hall & Hnd & _). split; [|done]. eapply Forall_impl; [exact Hall|]. by intros a [? _].
Qed.

(** Normalisation keeps what Scribe does not own: every other property of the
    page and of each item, in order, extensions and numbers included; it adds and
    removes no item. *)
Theorem normalization_keeps_content raw identity n m0 :
  schema_text -> page_text identity -> NormalizeAnnotationPage raw identity = Ok n ->
  DecodeJSON raw = Some (JObject m0) ->
  exists m items0 items, n = Marshal (JObject m) /\
    (forall k, k ∉ page_own_keys -> jget m k = jget m0 k) /\
    match jget m0 "items" with
    | None | Some JNull => items0 = []
    | Some v => v = JArray (JObject <$> items0)
    end /\
    jget m "items" = Some (JArray (JObject <$> items)) /\ Forall2 item_kept items0 items.
Proof.
  intros Ht Hp H Hd. destruct (normalize_inv _ _ _ Ht Hp H) as (pageID & m1 & m & items & _ & _ & Hd' & -> & Hn & _).
  rewrite Hd in Hd'. injection Hd' as <-. destruct Hn as [_ _ Hi _ Hk (items0 & Hk2 & H0) _].
  by exists m, items0, items.
Qed.

(** Normalisation is idempotent: a page it returned is returned unchanged,
    ids included, when it is saved again for the same image. *)
Theorem normalization_is_idempotent raw identity n :
  schema_text -> page_text identity -> plain_page raw ->
  NormalizeAnnotationPage raw identity = Ok n -> NormalizeAnnotationPage n identity = Ok n.
Proof.
  intros Ht Hp Hpl H. destruct (normalize_inv _ _ _ Ht Hp H) as (pageID & m0 & m & items & Hid & Hcu & Hd & -> & Hn & Hv).
  destruct (Hpl m0 Hd) as [Hu1 Hu2]. pose proof Hn as [Hw _ Hi Hit _ _ Hu].
  destruct (validated_decodes identity m Hw Hv) as [Hdec Hcost].
  assert (Hc : canonical_items pageID (TrimSpace (CanvasURI identity)) [] items = Ok tt); [apply (validated_items pageID identity m items); try done|].
  { apply Hu; [done|by right]. }
  { eapply Forall_impl; [exact Hit|]. by intros a (? & _). }
  unfold NormalizeAnnotationPage. rewrite (cost_relax _ Hcost). cbn [mbind result_bind].
  rewrite Hid. cbn [mbind result_bind]. rewrite Hcu. cbn [mbind result_bind].
  unfold decode_map. rewrite Hdec. cbn [mbind result_bind].
  rewrite (normalize_page_again _ _ _ _ _ Hn Hc). cbn [mbind result_bind]. by rewrite Hv.
Qed.

(** The geometry check is exact: a page is accepted for an image of the given
    dimensions if and only if its items are objects and every box they select
    lies inside the image; the unsigned subtractions never wrap, and an image of
    unknown (zero) dimensions accepts no box. *)
Theorem geometry_check_is_exact raw width height :
  0 <= width <= MaxUint64 -> 0 <= height <= MaxUint64 ->
  ValidateAnnotationPageGeometry raw width height = Ok tt <->
  exists m items, DecodeJSON raw = Some (JObject m) /\ jget m "items" = Some (JArray items) /\
    Forall (fits width height) items.
Proof.
  intros Rw Rh. unfold ValidateAnnotationPageGeometry, decode_map. split.
  - intros H. apply result_bind_Ok in H as (doc & Hd & H).
    destruct (DecodeJSON raw) as [[| | | | |m]|] eqn:E; try done; injection Hd as <-; [done|].
    change (default [] (Some m)) with m in H. destruct (jget m "items") as [[| | | |items|]|] eqn:Ei; try done.
    rewrite each_Ok in H. exists m, items. split_and!; [done..|].
    eapply Forall_impl; [exact H|]. intros v. by apply item_geometry_spec.
  - intros (m & items & -> & Hi & Hf). cbn [mbind result_bind].
    change (default [] (Some m)) with m. rewrite Hi. apply each_Ok.
    eapply Forall_impl; [exact Hf|]. intros v. by apply item_geometry_spec.
Qed.

(** Page identifiers identify images: an identifier that is parsed is the
    identifier of the image it names under the recovered base URL, and two images
    with the same page identifier are the same image. *)
Theorem page_ids_identify_images pageID canvasURI identity b i :
  PageIdentityFromPageID pageID canvasURI = Ok identity ->
  AnnotationPageID b i = Ok (TrimSpace pageID) -> 0 <= i <= MaxUint64 ->
  AnnotationPageID (PublicBaseURL identity) (ItemImageID identity) = Ok (TrimSpace pageID) /\
  ItemImageID identity = i /\ validHTTPBase (PublicBaseURL identity) = validHTTPBase b.
Proof.
  intros H Hid Hi. unfold PageIdentityFromPageID in H.
  apply result_bind_Ok in H as ([base j] & Hp & H). apply result_bind_Ok in H as ([] & _ & [= <-]).
  cbn [PublicBaseURL ItemImageID]. unfold parseAnnotationPageID in Hp.
  apply result_bind_Ok in Hp as (u & _ & Hp). destruct (CutLast _ _) as [[path rest]|]; [|done].
  destruct (Split rest "/"%char) as [|id [|p1 [|p2 [|p3 [|]]]]]; try done.
  destruct (_ || _) in Hp; [done|]. apply result_bind_Ok in Hp as (k & Hk & Hp).
  destruct (AnnotationPageID (base_of u path) k) as [ex|] eqn:Ea; [|done].
  destruct (decide (ex = TrimSpace pageID)) as [-> |Hne]; [|by rewrite bool_decide_eq_false_2 in Hp].
  rewrite bool_decide_eq_true_2 in Hp by done. injection Hp as <- <-. split; [done|].
  eapply page_id_inj; [|exact Hi|exact Ea|exact Hid].
  unfold parse_item_image in Hk. destruct (ParseUint id) as [v|] eqn:Ep; [|done].
  destruct (v =? 0); [done|]. injection Hk as <-. by eapply ParseUint_range.
Qed.

End pages.

(** ** Concrete pages *)

#[local] Open Scope string_scope.

Definition demo_schema : Schema := {|
  PresentationContext := "http://iiif.io/api/presentation/3/context.json";
  TextGranularityContext := "http://iiif.io/api/extension/text-granularity/context.json";
  ValidateAnnotationPageBytes := fun _ => true;
  IsKnownLevel := fun s => bool_decide (s ∈ ["page"; "block"; "paragraph"; "line"; "word"; "glyph"]) |}.

(** Absolute [https] URLs without escapes; anything else is a relative reference. *)
Definition demo_parse : UrlParser := fun raw =>
  let '(rest, frag, _) := Cut raw "#"%char in
  let '(rest, query, _) := Cut rest "?"%char in
  Some match strip_prefix "https://" rest with
       | Some r => let '(host, path, slash) := Cut r "/"%char in
           {| Scheme := "https"; Host := host; HasUser := false;
              Path := if slash : bool then "/" ++ path else ""; RawQuery := query; Fragment := frag |}
       | None => {| Scheme := ""; Host := ""; HasUser := false; Path := rest; RawQuery := query; Fragment := frag |}
       end.
Definition demo_print : UrlPrinter := fun u => "https://" ++ Host u ++ Path u.
Definition demo_sha : Sha256 := fun _ => "0123456789abcdef0123456789abcdef".

#[local] Existing Instances demo_schema demo_parse demo_print demo_sha.

Definition demo_identity : PageIdentity :=
  {| PublicBaseURL := "https://scribe.test"; ItemImageID := 7; CanvasURI := "https://scribe.test/canvas/7" |}.
Definition demo_page_id : string := "https://scribe.test/item-image-7/canvas/page-1/annotations".

Definition demo_line : json :=
  JObject [("body", JObject [("type", JString "TextualBody"); ("value", JString "abc")]);
           ("motivation", JString "supplementing");
           ("target", JObject [("selector", JObject [("type", JString "FragmentSelector");
                                                     ("value", JString "xywh=1,2,30,40")]);
                               ("source", JString "https://scribe.test/canvas/7")]);
           ("textGranularity", JString "line")].
Definition demo_raw : string := Marshal (JObject [("items", JArray [demo_line])]).

Lemma demo_schema_text : schema_text.
Proof. by split. Qed.

Lemma demo_page_text : page_text demo_identity.
Proof. intros p H. vm_compute in H. injection H as <-. reflexivity. Qed.

Lemma demo_plain : plain_page demo_raw.
Proof.
  intros m H. vm_compute in H. injection H as <-. split; (constructor; [|constructor]); cbn [fst]; intros H.
  - by vm_compute in H.
  - done.
Qed.

Definition demo_normalized : string :=
  Eval vm_compute in match NormalizeAnnotationPage demo_raw demo_identity with Ok n => n | Err _ => "" end.

Lemma normalized_page_is_canonical_witness : exists pageID m items cs,
  AnnotationPageID (PublicBaseURL demo_identity) (ItemImageID demo_identity) = Ok pageID /\
  DecodeJSON demo_normalized = Some (JObject m) /\ demo_normalized = Marshal (JObject m) /\
  jget m "id" = Some (JString pageID) /\ jget m "type" = Some (JString "AnnotationPage") /\
  jget m "@context" = Some (JArray (JString TextGranularityContext :: (cs ++ [JString PresentationContext])%list)) /\
  (JString PresentationContext ∉ cs) /\
  jget m "items" = Some (JArray (JObject <$> items)) /\
  Forall (fun a => owned a /\ item_canvas a = TrimSpace (CanvasURI demo_identity)) items /\
  Forall (fun a => isCanonicalAnnotationID (item_id a) pageID = true) items /\ NoDup (item_id <$> items).
Proof.
  assert (Hrun : NormalizeAnnotationPage demo_raw demo_identity = Ok demo_normalized) by (vm_compute; reflexivity).
  destruct (normalized_page_is_canonical demo_raw demo_identity demo_normalized demo_schema_text demo_page_text Hrun) as (pageID & m & items & cs & H1 & H2 & H3 & H4 & H5 & H6 & H7 & H8 & H9 & H10).
  exists pageID, m, items, cs. do 9 (split; [assumption|]). clear Hrun. apply H10. intros m0 Hm0. apply (demo_plain m0 Hm0).
Defined.

Lemma normalization_keeps_content_witness : exists m items0 items,
  demo_normalized = Marshal (JObject m) /\
  (forall k, k ∉ page_own_keys -> jget m k = jget [("items", JArray [demo_line])] k) /\
  JArray [demo_line] = JArray (JObject <$> items0) /\
  jget m "items" = Some (JArray (JObject <$> items)) /\ Forall2 item_kept items0 items.
Proof.
  apply (normalization_keeps_content demo_raw demo_identity demo_normalized
           [("items", JArray [demo_line])] demo_schema_text demo_page_text).
  - vm_compute. reflexivity.
  - vm_compute. reflexivity.
Defined.

Lemma normalization_is_idempotent_witness :
  NormalizeAnnotationPage demo_normalized demo_identity = Ok demo_normalized.
Proof.
  apply (normalization_is_idempotent demo_raw demo_identity demo_normalized
           demo_schema_text demo_page_text demo_plain).
  vm_compute. reflexivity.
Defined.

Lemma geometry_check_is_exact_witness :
  ValidateAnnotationPageGeometry demo_raw 31 42 = Ok tt /\
  ValidateAnnotationPageGeometry demo_raw 30 42 = Err EOutsideImage /\
  exists m items, DecodeJSON demo_raw = Some (JObject m) /\ jget m "items" = Some (JArray items) /\
    Forall (fits 31 42) items.
Proof.
  split; [vm_compute; reflexivity|]. split; [vm_compute; reflexivity|].
  apply (geometry_check_is_exact demo_raw 31 42); [unfold MaxUint64; lia..|]. vm_compute. reflexivity.
Defined.

Lemma page_ids_identify_images_witness :
  AnnotationPageID "https://scribe.test" 7 = Ok demo_page_id /\ (7 : Z) = 7 /\
  validHTTPBase "https://scribe.test" = validHTTPBase "https://scribe.test/".
Proof.
  apply (page_ids_identify_images (" " ++ demo_page_id) "https://scribe.test/canvas/7" demo_identity
           "https://scribe.test/" 7).
  - vm_compute. reflexivity.
  - vm_compute. reflexivity.
  - unfold MaxUint64. lia.
Defined.

(** ** Inputs on which the code does not do what it means to *)

(** A body of [null] makes [NormalizeAnnotationPage] panic for every valid
    image: the cost check accepts it as an empty page, it decodes to the nil map,
    and the code then assigns to an entry of that map. *)
Theorem null_page_panics {SC : Schema} {UP : UrlParser} {SH : Sha256} identity pageID :
  AnnotationPageID (PublicBaseURL identity) (ItemImageID identity) = Ok pageID ->
  http_url (CanvasURI identity) = Ok tt ->
  NormalizeAnnotationPage "null" identity = Err EPanic.
Proof.
  intros Hid Hc. unfold NormalizeAnnotationPage. rewrite Hid, Hc. vm_compute. reflexivity.
Qed.

Lemma null_page_panics_witness : NormalizeAnnotationPage "null" demo_identity = Err EPanic.
Proof. apply (null_page_panics demo_identity demo_page_id); vm_compute; reflexivity. Defined.

(** A page with an extension context whose [items] hold one annotation of another
    site, and a key that folds to [items] (its last letter is U+017F). *)
Definition shadow_key : string := "item" ++ String "197" (String "191" "").
Definition foreign_item : obj := [("id", JString "https://elsewhere.test/a"); ("type", JString "Annotation")].
Definition shadow_page : string := Marshal (JObject
  [("@context", JArray [JString "https://example.org/extension.jsonld"; JString PresentationContext]);
   ("id", JString demo_page_id);
   ("items", JArray [JObject foreign_item]);
   (shadow_key, JArray []);
   ("type", JString "AnnotationPage")]).

(** The canonical check can be blinded: it decodes [items] into a struct
    field, which an extension key that folds to the same name assigns too, so a
    page whose only item has a foreign id and no target passes as canonical. *)
Theorem shadowed_items_pass_as_canonical :
  ValidateCanonicalAnnotationPage shadow_page demo_identity = Ok tt /\
  exists m, DecodeJSON shadow_page = Some (JObject m) /\
    jget m "items" = Some (JArray [JObject foreign_item]) /\
    isCanonicalAnnotationID (item_id foreign_item) demo_page_id = false /\
    item_canvas foreign_item <> CanvasURI demo_identity.
Proof.
  split; [vm_compute; reflexivity|]. eexists.
  split; [vm_compute; reflexivity|]. split; [vm_compute; reflexivity|].
  split; [vm_compute; reflexivity|]. vm_compute. discriminate.
Qed.

(** Normalisation is blinded in the same way: two items whose generated identifiers are equal (the digest of these examples is
    constant) come back as a normalized page, although they share one identifier. *)
Definition twin_page : string := Marshal (JObject
  [("@context", JArray [JString "https://example.org/extension.jsonld"; JString PresentationContext]);
   ("items", JArray [demo_line; demo_line]); (shadow_key, JArray [])]).
Example shadowed_items_share_an_identifier : exists n m a b, NormalizeAnnotationPage twin_page demo_identity = Ok n /\
  DecodeJSON n = Some (JObject m) /\ jget m "items" = Some (JArray [JObject a; JObject b]) /\ item_id a = item_id b.
Proof.
  do 4 eexists. split; [vm_compute; reflexivity|]. split; [vm_compute; reflexivity|]. split; [vm_compute; reflexivity|].
  vm_compute. reflexivity.
Qed.

End PageTheorems.
