(* ===== verification/LineIndex.v ===== *)
(** * The range index of the word assignment

    [lineCoverageIndex] of internal/server/transcription_service.go: a bottom-up
    segment tree over compressed coordinates whose nodes are heaps of line entries,
    with removal by a flag and lazy deletion.  The theorem behind [owner]: it answers
    with the active line of least order whose interval holds the position. *)

From Stdlib Require Import ZArith Lia.
From stdpp Require Import base list sorting.
From S2P Require Import Prelude GoSort.

Module LineIndex.
Import GoHeap.
#[local] Open Scope nat_scope.

Record lineOrderEntry := { lineIndex : nat; order : Z }.

Record lineCoverageIndex := {
  size_ : nat;
  nodes : list (list lineOrderEntry);   (* lineOrderHeap *)
  active : list bool;
}.

(** [for size < coordinateCount { size *= 2 }] *)
Fixpoint grow (fuel size count : nat) : nat :=
  match fuel with
  | O => size
  | S n => if size <? count then grow n (size * 2) count else size
  end.

Definition newLineCoverageIndex (coordinateCount lineCount : nat) : lineCoverageIndex :=
  let size := grow coordinateCount 1 coordinateCount in
  {| size_ := size; nodes := replicate (size * 2) []; active := replicate lineCount false |}.

Definition push_at (e : lineOrderEntry) (ns : list (list lineOrderEntry)) (node : nat) : list (list lineOrderEntry) :=
  alter (fun h => Push order h e) node ns.

(** The loop of [add] on the node numbers; [lo] halves: [fuel] above it is enough. *)
Fixpoint add_loop (fuel : nat) (e : lineOrderEntry) (lo hi : nat) (ns : list (list lineOrderEntry))
    : list (list lineOrderEntry) :=
  match fuel with
  | O => ns
  | S n =>
      if lo <=? hi then
        let '(ns, lo) := if lo mod 2 =? 1 then (push_at e ns lo, lo + 1) else (ns, lo) in
        let '(ns, hi) := if hi mod 2 =? 0 then (push_at e ns hi, hi - 1) else (ns, hi) in
        add_loop n e (lo / 2) (hi / 2) ns
      else ns
  end.

Definition add (index : lineCoverageIndex) (line : nat) (ord : Z) (lo hi : nat) : lineCoverageIndex :=
  if hi <? lo then index else
  {| size_ := size_ index;
     nodes := add_loop (S (hi + size_ index)) {| lineIndex := line; order := ord |}
                (lo + size_ index) (hi + size_ index) (nodes index);
     active := <[line := true]> (active index) |}.

Definition remove (index : lineCoverageIndex) (line : nat) : lineCoverageIndex :=
  {| size_ := size_ index; nodes := nodes index; active := <[line := false]> (active index) |}.

Definition is_active (act : list bool) (line : nat) : bool := default false (act !! line).

(** Entries of removed lines are popped off the top. *)
Fixpoint prune (fuel : nat) (act : list bool) (h : list lineOrderEntry) : list lineOrderEntry :=
  match fuel with
  | O => h
  | S n =>
      match h with
      | [] => []
      | e :: _ =>
          if is_active act (lineIndex e) then h
          else match Pop order h with Some (_, h') => prune n act h' | None => h end
      end
  end.

Definition maxInt64 : Z := 2 ^ 63 - 1.

(** One node of the walk from the leaf to the root. *)
Definition owner_step (act : list bool) (ns : list (list lineOrderEntry)) (best : Z * Z) (node : nat)
    : list (list lineOrderEntry) * (Z * Z) :=
  let h := default [] (ns !! node) in
  let h := prune (length h) act h in
  (<[node := h]> ns,
   match h with
   | e :: _ => if (order e <? best.1)%Z then (order e, Z.of_nat (lineIndex e)) else best
   | [] => best
   end).

Fixpoint owner_loop (fuel : nat) (act : list bool) (ns : list (list lineOrderEntry)) (best : Z * Z) (node : nat)
    : list (list lineOrderEntry) * (Z * Z) :=
  match fuel with
  | O => (ns, best)
  | S n =>
      if 0 <? node then
        let '(ns, best) := owner_step act ns best node in owner_loop n act ns best (node / 2)
      else (ns, best)
  end.

Definition owner (index : lineCoverageIndex) (position : nat) : lineCoverageIndex * option nat :=
  let start := position + size_ index in
  let '(ns, (_, line)) := owner_loop (S start) (active index) (nodes index) (maxInt64, (-1)%Z) start in
  ({| size_ := size_ index; nodes := ns; active := active index |},
   if (0 <=? line)%Z then Some (Z.to_nat line) else None).

(** ** The nodes of an interval *)

Fixpoint cover (fuel lo hi : nat) : list nat :=
  match fuel with
  | O => []
  | S n =>
      if lo <=? hi then
        (if lo mod 2 =? 1 then [lo] else []) ++ (if hi mod 2 =? 0 then [hi] else []) ++
        cover n ((if lo mod 2 =? 1 then lo + 1 else lo) / 2) ((if hi mod 2 =? 0 then hi - 1 else hi) / 2)
      else []
  end.

Lemma add_loop_cover fuel e lo hi ns : add_loop fuel e lo hi ns = foldl (push_at e) ns (cover fuel lo hi).
Proof.
  revert lo hi ns. induction fuel as [|n IH]; intros lo hi ns; [done|]. cbn [add_loop cover].
  destruct (lo <=? hi); [|done]. destruct (lo mod 2 =? 1), (hi mod 2 =? 0); cbn [app foldl]; by rewrite IH.
Qed.

(** The node and its ancestors, up to the root 1. *)
Fixpoint ancestors (fuel q : nat) : list nat :=
  match fuel with O => [] | S n => if 0 <? q then q :: ancestors n (q / 2) else [] end.

Lemma half_range k q : 2 ^ S k <= q < 2 ^ S (S k) -> 2 ^ k <= q / 2 < 2 ^ S k.
Proof.
  intros [H1 H2]. cbn [Nat.pow] in *. split; [apply Nat.div_le_lower_bound; lia|apply Nat.Div0.div_lt_upper_bound; lia].
Qed.

Lemma half_even n : n mod 2 = 0 -> n = 2 * (n / 2).
Proof. intros. pose proof (Nat.div_mod_eq n 2). lia. Qed.
Lemma half_odd n : n mod 2 = 1 -> n = 2 * (n / 2) + 1.
Proof. intros. pose proof (Nat.div_mod_eq n 2). lia. Qed.

Lemma cover_level fuel k lo hi x : 2 ^ k <= lo -> hi < 2 ^ S k -> x ∈ cover fuel lo hi -> x < 2 ^ S k.
Proof.
  revert k lo hi. induction fuel as [|n IH]; intros k lo hi Hlo Hhi Hx; [by apply elem_of_nil in Hx|].
  cbn [cover] in Hx. destruct (Nat.leb_spec lo hi) as [Hle|]; [|by apply elem_of_nil in Hx].
  rewrite !elem_of_app in Hx. destruct Hx as [Hx|[Hx|Hx]].
  - destruct (_ =? 1); [|by apply elem_of_nil in Hx]. apply list_elem_of_singleton in Hx. lia.
  - destruct (_ =? 0); [|by apply elem_of_nil in Hx]. apply list_elem_of_singleton in Hx. lia.
  - destruct k as [|k].
    + cbn in Hlo, Hhi. assert (lo = 1) as -> by lia. assert (hi = 1) as -> by lia. cbn in Hx.
      destruct n; cbn in Hx; by apply elem_of_nil in Hx.
    + assert (Hlt : x < 2 ^ S k); [|cbn [Nat.pow] in *; lia].
      eapply IH; [| |exact Hx].
      * destruct (_ =? 1); apply Nat.div_le_lower_bound; cbn [Nat.pow] in *; lia.
      * destruct (_ =? 0); apply Nat.Div0.div_lt_upper_bound; cbn [Nat.pow] in *; lia.
Qed.


Lemma ancestors_below fuel q x : x ∈ ancestors fuel q -> x <= q.
Proof.
  revert q. induction fuel as [|n IH]; intros q Hx; [by apply elem_of_nil in Hx|]. cbn [ancestors] in Hx.
  destruct (0 <? q); [|by apply elem_of_nil in Hx]. apply elem_of_cons in Hx as [-> |Hx]; [done|].
  apply IH in Hx. pose proof (Nat.Div0.div_le_upper_bound q 2 q). lia.
Qed.

(** The nodes of an interval lie above exactly the positions of the interval. *)
Lemma cover_spec fuel fuel' k lo hi q : k < fuel -> k < fuel' -> 2 ^ k <= lo -> hi < 2 ^ S k -> 2 ^ k <= q < 2 ^ S k ->
  (exists x, x ∈ cover fuel lo hi /\ x ∈ ancestors fuel' q) <-> lo <= q <= hi.
Proof.
  revert fuel fuel' lo hi q. induction k as [|k IH]; intros [|n] [|n'] lo hi q Hf Hf' Hlo Hhi Hq; try lia.
  - cbn in Hlo, Hhi, Hq. assert (q = 1) as -> by lia. cbn [cover ancestors Nat.ltb Nat.leb].
    destruct (Nat.leb_spec lo hi) as [Hle|Hgt].
    + assert (lo = 1) as -> by lia. assert (hi = 1) as -> by lia. split; [lia|]. intros _. exists 1.
      split; apply elem_of_cons; by left.
    + split; [|lia]. intros (x & Hx & _). by apply elem_of_nil in Hx.
  - cbn [cover ancestors]. pose proof (half_range k q Hq) as Hq2.
    destruct (Nat.ltb_spec 0 q) as [_|]; [|cbn [Nat.pow] in *; lia].
    destruct (Nat.leb_spec lo hi) as [Hle|Hgt].
    2:{ split; [|lia]. intros (x & Hx & _). by apply elem_of_nil in Hx. }
    set (lo' := (if lo mod 2 =? 1 then lo + 1 else lo) / 2).
    set (hi' := (if hi mod 2 =? 0 then hi - 1 else hi) / 2).
    assert (Hlo' : 2 ^ k <= lo').
    { unfold lo'. destruct (_ =? 1); apply Nat.div_le_lower_bound; cbn [Nat.pow] in *; lia. }
    assert (Hhi' : hi' < 2 ^ S k).
    { unfold hi'. destruct (_ =? 0); apply Nat.Div0.div_lt_upper_bound; cbn [Nat.pow] in *; lia. }
    specialize (IH n n' lo' hi' (q / 2) ltac:(lia) ltac:(lia) Hlo' Hhi' Hq2).
    assert (Hiff : lo <= q <= hi <-> (lo mod 2 = 1 /\ q = lo) \/ (hi mod 2 = 0 /\ q = hi) \/ lo' <= q / 2 <= hi').
    { clear IH Hlo' Hhi'. unfold lo', hi'.
      pose proof (Nat.div_mod_eq q 2). pose proof (Nat.mod_upper_bound q 2).
      pose proof (Nat.div_mod_eq lo 2). pose proof (Nat.mod_upper_bound lo 2).
      pose proof (Nat.div_mod_eq hi 2). pose proof (Nat.mod_upper_bound hi 2).
      assert (0 < hi) by (cbn [Nat.pow] in *; lia).
      destruct (Nat.eqb_spec (lo mod 2) 1), (Nat.eqb_spec (hi mod 2) 0).
      - pose proof (Nat.div_mod_eq (lo + 1) 2). pose proof (Nat.mod_upper_bound (lo + 1) 2).
        pose proof (Nat.div_mod_eq (hi - 1) 2). pose proof (Nat.mod_upper_bound (hi - 1) 2). lia.
      - pose proof (Nat.div_mod_eq (lo + 1) 2). pose proof (Nat.mod_upper_bound (lo + 1) 2). lia.
      - pose proof (Nat.div_mod_eq (hi - 1) 2). pose proof (Nat.mod_upper_bound (hi - 1) 2). lia.
      - lia. }
    rewrite Hiff, <-IH. clear Hiff IH. setoid_rewrite elem_of_app. setoid_rewrite elem_of_app. split.
    + intros (x & Hx & Hxq). apply elem_of_cons in Hxq as [-> |Hxq].
      * destruct Hx as [Hx|[Hx|Hx]].
        -- left. destruct (Nat.eqb_spec (lo mod 2) 1); [|by apply elem_of_nil in Hx].
           apply list_elem_of_singleton in Hx. by split.
        -- right; left. destruct (Nat.eqb_spec (hi mod 2) 0); [|by apply elem_of_nil in Hx].
           apply list_elem_of_singleton in Hx. by split.
        -- exfalso. apply (cover_level _ k) in Hx; [lia|done|done].
      * apply ancestors_below in Hxq as Hlt.
        destruct Hx as [Hx|[Hx|Hx]].
        -- exfalso. destruct (Nat.eqb_spec (lo mod 2) 1); [|by apply elem_of_nil in Hx].
           apply list_elem_of_singleton in Hx. lia.
        -- exfalso. destruct (Nat.eqb_spec (hi mod 2) 0); [|by apply elem_of_nil in Hx].
           apply list_elem_of_singleton in Hx. lia.
        -- right; right. by exists x.
    + intros [[Ho ->]|[[He ->]|(x & Hx & Hxq)]].
      * exists lo. rewrite (proj2 (Nat.eqb_eq _ _) Ho). split; [left; by apply list_elem_of_singleton|apply elem_of_cons; by left].
      * exists hi. rewrite (proj2 (Nat.eqb_eq _ _) He). split; [right; left; by apply list_elem_of_singleton|apply elem_of_cons; by left].
      * exists x. split; [by right; right|apply elem_of_cons; by right].
Qed.

(** ** Growth of the tree *)

Lemma grow_spec fuel k count : count <= fuel + 2 ^ k ->
  exists j, grow fuel (2 ^ k) count = 2 ^ j /\ count <= 2 ^ j.
Proof.
  revert k. induction fuel as [|n IH]; intros k H; cbn [grow]; [by exists k|].
  destruct (Nat.ltb_spec (2 ^ k) count) as [Hlt|Hge]; [|by exists k].
  replace (2 ^ k * 2) with (2 ^ S k) by (cbn; lia). apply IH. cbn.
  pose proof (Nat.pow_nonzero 2 k). lia.
Qed.

Lemma below_pow k : k < 2 ^ k.
Proof. apply Nat.pow_gt_lin_r. lia. Qed.

(** ** Pruning *)

Definition act_at (act : list bool) (h : list lineOrderEntry) (e : lineOrderEntry) : Prop :=
  e ∈ h /\ is_active act (lineIndex e) = true.

Lemma prune_spec fuel act h : length h <= fuel -> heap order h ->
  heap order (prune fuel act h) /\ (forall e, e ∈ prune fuel act h -> e ∈ h) /\
  (forall e, act_at act h e -> e ∈ prune fuel act h) /\
  (forall e, prune fuel act h !! 0 = Some e -> is_active act (lineIndex e) = true).
Proof.
  revert h. induction fuel as [|n IH]; intros h Hl Hh; cbn [prune].
  { destruct h; [|cbn in Hl; lia]. split_and!; [done|done|by intros e []|done]. }
  destruct h as [|e t] eqn:Eh; [split_and!; [done|done|by intros e []|done]|].
  destruct (is_active act (lineIndex e)) eqn:Ea.
  { split_and!; [done|done|by intros e' []|]. intros e' [= <-]. done. }
  destruct (Pop_spec order (e :: t) Hh ltac:(done)) as (x & h' & HP & [= <-] & Hperm & Hh').
  rewrite HP. assert (Hlen : length h' = length t) by (apply Permutation_length in Hperm; cbn in Hperm; lia).
  destruct (IH h' ltac:(cbn in Hl; lia) Hh') as (H1 & H2 & H3 & H4).
  split_and!; [done| | |done].
  - intros e' He. rewrite Hperm. apply elem_of_cons. right. by apply H2.
  - intros e' [He Hact]. apply H3. split; [|done]. rewrite Hperm in He.
    apply elem_of_cons in He as [-> |]; [by rewrite Ea in Hact|done].
Qed.

(** ** The walk to the root *)

Lemma owner_loop_ancestors fuel act ns best q : owner_loop fuel act ns best q =
  foldl (fun st node => owner_step act st.1 st.2 node) (ns, best) (ancestors fuel q).
Proof.
  revert ns best q. induction fuel as [|n IH]; intros ns best q; [done|]. cbn [owner_loop ancestors].
  destruct (0 <? q); [|done]. cbn [foldl fst snd].
  destruct (owner_step act ns best q). apply IH.
Qed.

Definition node_at (ns : list (list lineOrderEntry)) (i : nat) : list lineOrderEntry := default [] (ns !! i).

Definition heaps (ns : list (list lineOrderEntry)) : Prop := forall i, heap order (node_at ns i).

(** The walk only drops entries of removed lines. *)
Definition keeps (act : list bool) (ns ns' : list (list lineOrderEntry)) : Prop :=
  length ns' = length ns /\ heaps ns' /\ (forall i e, e ∈ node_at ns' i -> e ∈ node_at ns i) /\
  (forall i e, act_at act (node_at ns i) e -> e ∈ node_at ns' i).

(** The best so far: the least of the initial value and the active entries seen. *)
Definition best_of (seen : lineOrderEntry -> Prop) (best0 best : Z * Z) : Prop :=
  (best.1 <= best0.1)%Z /\ (forall e, seen e -> (best.1 <= order e)%Z) /\
  (best = best0 \/ exists e, seen e /\ best = (order e, Z.of_nat (lineIndex e))).

Lemma heap_nil : heap order [].
Proof. intros i Hi. cbn in Hi. lia. Qed.

Lemma owner_step_spec act ns best node : heaps ns -> node < length ns ->
  keeps act ns (owner_step act ns best node).1 /\
  best_of (act_at act (node_at ns node)) best (owner_step act ns best node).2.
Proof.
  intros Hh Hn. unfold owner_step. fold (node_at ns node).
  destruct (prune_spec (length (node_at ns node)) act (node_at ns node) ltac:(done) (Hh node)) as (H1 & H2 & H3 & H4).
  set (h := prune _ _ _) in *. cbn [fst snd]. split.
  - assert (Hat : forall i, node_at (<[node := h]> ns) i = if decide (i = node) then h else node_at ns i).
    { intros i. unfold node_at. destruct (decide (i = node)) as [-> |Hne].
      - by rewrite list_lookup_insert_eq.
      - by rewrite list_lookup_insert_ne. }
    split_and!; [by rewrite length_insert|intros i|intros i e|intros i e]; rewrite Hat.
    + by destruct (decide _).
    + destruct (decide _) as [-> |]; [apply H2|done].
    + destruct (decide _) as [-> |]; [apply H3|by intros []].
  - destruct h as [|e t] eqn:Eh.
    { split_and!; [done| |by left]. intros e He. apply H3 in He. by apply elem_of_nil in He. }
    assert (He : act_at act (node_at ns node) e).
    { split; [apply H2, elem_of_cons; by left|by apply H4]. }
    pose proof (heap_least order _ e H1 eq_refl) as Hleast. rewrite Forall_forall in Hleast.
    destruct (Z.ltb_spec (order e) best.1) as [Hlt|Hge]; cbn [fst].
    + split_and!; [cbn; lia| |right; by exists e]. intros e' He'. by apply Hleast, H3.
    + split_and!; [done| |by left]. intros e' He'. apply H3, Hleast in He'. lia.
Qed.

Lemma keeps_refl act ns : heaps ns -> keeps act ns ns.
Proof. intros. split_and!; [done..|by intros i e []]. Qed.

Lemma keeps_trans act a b c : keeps act a b -> keeps act b c -> keeps act a c.
Proof.
  intros (Hl & Hh & Hs & Hk) (Hl' & Hh' & Hs' & Hk'). split_and!; [congruence|done|auto|].
  intros i e He. apply Hk'. split; [by apply Hk|apply He].
Qed.

Lemma owner_fold_spec act l ns best : heaps ns -> Forall (fun i => i < length ns) l ->
  let r := foldl (fun st node => owner_step act st.1 st.2 node) (ns, best) l in
  keeps act ns r.1 /\ best_of (fun e => exists i, i ∈ l /\ act_at act (node_at ns i) e) best r.2.
Proof.
  revert ns best. induction l as [|node l IH]; intros ns best Hh Hl; cbn [foldl].
  { split; [by apply keeps_refl|]. split_and!; [done| |by left]. intros e (i & Hi & _). by apply elem_of_nil in Hi. }
  apply Forall_cons in Hl as [Hn Hl].
  destruct (owner_step_spec act ns best node Hh Hn) as [Hk Hb].
  cbn [fst snd]. set (st := owner_step act ns best node) in *. destruct st as [ns1 best1]. cbn [fst snd] in *.
  destruct (IH ns1 best1) as [Hk2 Hb2]; [apply Hk|by rewrite (proj1 Hk)|].
  split; [by eapply keeps_trans|]. destruct Hk as (_ & _ & Hsub & Hkeep).
  assert (Hact : forall i e, act_at act (node_at ns1 i) e <-> act_at act (node_at ns i) e).
  { intros i e. split; intros [He Ha]; (split; [|done]); [by apply Hsub|by apply Hkeep]. }
  destruct Hb as (Hle & Hseen & Hor), Hb2 as (Hle2 & Hseen2 & Hor2). split_and!; [lia| |].
  - intros e (i & Hi & He). apply elem_of_cons in Hi as [-> |Hi].
    + apply Hseen in He. lia.
    + apply Hseen2. exists i. by rewrite Hact.
  - destruct Hor2 as [Heq|(e & (i & Hi & He) & Heq)].
    + rewrite Heq. destruct Hor as [-> |(e & He & ->)]; [by left|]. right. exists e. split; [|done].
      exists node. split; [apply elem_of_cons; by left|done].
    + right. exists e. split; [|done]. exists i. split; [apply elem_of_cons; by right|by apply Hact].
Qed.

(** ** Pushing one entry on the nodes of an interval *)

Lemma push_at_node e ns n i : n < length ns ->
  node_at (push_at e ns n) i = if decide (i = n) then Push order (node_at ns i) e else node_at ns i.
Proof.
  intros Hn. unfold node_at, push_at. destruct (decide (i = n)) as [-> |Hne].
  - rewrite list_lookup_alter_eq. by destruct (lookup_lt_is_Some_2 ns n Hn) as [h ->].
  - by rewrite list_lookup_alter_ne.
Qed.

Lemma push_fold_spec e l ns : heaps ns -> Forall (fun n => n < length ns) l ->
  let ns' := foldl (push_at e) ns l in
  length ns' = length ns /\ heaps ns' /\
  (forall i x, x ∈ node_at ns' i <-> x ∈ node_at ns i \/ (x = e /\ i ∈ l)).
Proof.
  revert ns. induction l as [|n l IH]; intros ns Hh Hl; cbn [foldl].
  { split_and!; [done|done|]. intros i x. split; [by left|]. intros [|[_ H]]; [done|by apply elem_of_nil in H]. }
  apply Forall_cons in Hl as [Hn Hl].
  assert (Hlen : length (push_at e ns n) = length ns) by (unfold push_at; by rewrite length_alter).
  destruct (IH (push_at e ns n)) as (IHl & IHh & IHm).
  - intros i. rewrite push_at_node by done. destruct (decide _); [by apply Push_heap|done].
  - by rewrite Hlen.
  - split_and!; [congruence|done|]. intros i x. rewrite IHm, push_at_node, elem_of_cons by done.
    destruct (decide (i = n)) as [-> |Hne]; [rewrite Push_Permutation, elem_of_cons|]; naive_solver.
Qed.

(** ** The invariant of the index *)

Definition added : Type := lineOrderEntry * (nat * nat).

Definition cover_at (k : nat) (iv : nat * nat) : list nat :=
  cover (S (iv.2 + 2 ^ k)) (iv.1 + 2 ^ k) (iv.2 + 2 ^ k).

(** The entries added so far: each node holds the active ones that cover it, and no
    other than those. *)
Record index_ok (n k : nat) (adds : list added) (ix : lineCoverageIndex) : Prop := {
  ok_size : size_ ix = 2 ^ k;
  ok_nodes : length (nodes ix) = 2 ^ S k;
  ok_active : length (active ix) = n;
  ok_heaps : heaps (nodes ix);
  ok_range : forall e iv, (e, iv) ∈ adds -> iv.2 < 2 ^ k;
  ok_sound : forall i e, e ∈ node_at (nodes ix) i -> exists iv, (e, iv) ∈ adds /\ i ∈ cover_at k iv;
  ok_complete : forall e iv i, (e, iv) ∈ adds -> is_active (active ix) (lineIndex e) = true ->
    i ∈ cover_at k iv -> e ∈ node_at (nodes ix) i;
}.

Lemma cover_at_below k iv i : iv.2 < 2 ^ k -> i ∈ cover_at k iv -> i < 2 ^ S k.
Proof. intros Hr Hi. apply (cover_level _ k) in Hi; [done|lia|cbn; lia]. Qed.

Lemma new_index_ok count n : exists k, index_ok n k [] (newLineCoverageIndex count n) /\ count <= 2 ^ k.
Proof.
  destruct (grow_spec count 0 count ltac:(lia)) as (k & Hg & Hc). cbn [Nat.pow] in Hg. exists k. split; [|done].
  assert (Hnil : forall i, node_at (nodes (newLineCoverageIndex count n)) i = []).
  { intros i. unfold newLineCoverageIndex, node_at. cbn [nodes]. rewrite Hg.
    destruct (decide (i < 2 ^ k * 2)); [by rewrite lookup_replicate_2|by rewrite lookup_ge_None_2 by (rewrite length_replicate; lia)]. }
  constructor; cbn [newLineCoverageIndex size_ nodes active].
  - by rewrite Hg.
  - rewrite Hg, length_replicate. cbn. lia.
  - by rewrite length_replicate.
  - intros i. specialize (Hnil i). cbn [newLineCoverageIndex nodes] in Hnil. rewrite Hnil. apply heap_nil.
  - by intros e iv ?%elem_of_nil.
  - intros i e He. specialize (Hnil i). cbn [newLineCoverageIndex nodes] in Hnil. rewrite Hnil in He. by apply elem_of_nil in He.
  - by intros e iv i ?%elem_of_nil.
Qed.

Lemma is_active_insert act line b l : line < length act ->
  is_active (<[line := b]> act) l = if decide (l = line) then b else is_active act l.
Proof.
  intros Hl. unfold is_active. destruct (decide (l = line)) as [-> |Hne].
  - by rewrite list_lookup_insert_eq.
  - by rewrite list_lookup_insert_ne.
Qed.

Lemma add_ok n k adds ix line ord lo hi : index_ok n k adds ix -> line < n -> lo <= hi -> hi < 2 ^ k ->
  (forall e iv, (e, iv) ∈ adds -> lineIndex e <> line) ->
  index_ok n k (({| lineIndex := line; order := ord |}, (lo, hi)) :: adds) (add ix line ord lo hi) /\
  active (add ix line ord lo hi) = <[line := true]> (active ix).
Proof.
  intros Hok Hline Hle Hhi Hfresh. unfold add. destruct (Nat.ltb_spec hi lo); [lia|]. split; [|done].
  set (e0 := {| lineIndex := line; order := ord |}). rewrite add_loop_cover, (ok_size _ _ _ _ Hok).
  change (cover _ _ _) with (cover_at k (lo, hi)).
  destruct (push_fold_spec e0 (cover_at k (lo, hi)) (nodes ix) (ok_heaps _ _ _ _ Hok)) as (Hl & Hh & Hm).
  { apply Forall_forall. intros i Hi. rewrite (ok_nodes _ _ _ _ Hok). by apply (cover_at_below k (lo, hi)). }
  constructor; cbn [size_ nodes active].
  - done.
  - rewrite Hl. apply Hok.
  - rewrite length_insert. apply Hok.
  - done.
  - intros e iv He. apply elem_of_cons in He as [[= -> ->]|He]; [done|by eapply ok_range].
  - intros i e He. apply Hm in He as [He|[-> Hi]].
    + destruct (ok_sound _ _ _ _ Hok i e He) as (iv & Hin & Hi). exists iv. split; [apply elem_of_cons; by right|done].
    + exists (lo, hi). split; [apply elem_of_cons; by left|done].
  - intros e iv i He Ha Hi. apply Hm. rewrite is_active_insert in Ha by (by rewrite (ok_active _ _ _ _ Hok)).
    apply elem_of_cons in He as [[= -> ->]|He]; [by right|left].
    rewrite decide_False in Ha by (by eapply Hfresh). by eapply ok_complete.
Qed.

Lemma remove_ok n k adds ix line : index_ok n k adds ix -> line < n -> index_ok n k adds (remove ix line).
Proof.
  intros Hok Hline. constructor; cbn [remove size_ nodes active]; try apply Hok.
  - rewrite length_insert. apply Hok.
  - intros e iv i He Ha Hi. rewrite is_active_insert in Ha by (by rewrite (ok_active _ _ _ _ Hok)).
    destruct (decide _); [done|]. by eapply ok_complete.
Qed.

Definition holds (position : nat) (iv : nat * nat) : Prop := iv.1 <= position <= iv.2.

Lemma ancestors_pos fuel q x : x ∈ ancestors fuel q -> 0 < x.
Proof.
  revert q. induction fuel as [|n IH]; intros q Hx; [by apply elem_of_nil in Hx|]. cbn [ancestors] in Hx.
  destruct (Nat.ltb_spec 0 q); [|by apply elem_of_nil in Hx]. apply elem_of_cons in Hx as [-> |Hx]; [done|by eapply IH].
Qed.

(** ** What [owner] answers *)

Lemma owner_ok n k adds ix position : index_ok n k adds ix -> position < 2 ^ k ->
  (forall e iv, (e, iv) ∈ adds -> (order e < maxInt64)%Z) ->
  let live e iv := (e, iv) ∈ adds /\ is_active (active ix) (lineIndex e) = true /\ holds position iv in
  let r := owner ix position in
  index_ok n k adds r.1 /\ active r.1 = active ix /\
  match r.2 with
  | Some line => exists e iv, live e iv /\ lineIndex e = line /\ forall e' iv', live e' iv' -> (order e <= order e')%Z
  | None => forall e iv, ~ live e iv
  end.
Proof.
  intros Hok Hpos Hmax live r. cbn zeta.
  assert (Hsz : size_ ix = 2 ^ k) by apply Hok. assert (Hnl : length (nodes ix) = 2 ^ S k) by apply Hok.
  pose proof (below_pow k) as Hk.
  unfold r, owner. rewrite owner_loop_ancestors. set (l := ancestors _ _).
  assert (Hfor : Forall (fun i => i < length (nodes ix)) l).
  { apply Forall_forall. intros i Hi. apply ancestors_below in Hi. rewrite Hnl. cbn. lia. }
  destruct (owner_fold_spec (active ix) l (nodes ix) (maxInt64, (-1)%Z) (ok_heaps _ _ _ _ Hok) Hfor) as [Hkeep Hbest].
  destruct (foldl _ _ l) as [ns [b line]]. cbn [fst snd] in *.
  destruct Hkeep as (Hl & Hh & Hsub & Hkp).
  assert (Hseen : forall e, (exists i, i ∈ l /\ act_at (active ix) (node_at (nodes ix) i) e) <-> exists iv, live e iv).
  { intros e. assert (Hc : forall iv, (e, iv) ∈ adds -> (exists i, i ∈ cover_at k iv /\ i ∈ l) <-> holds position iv).
    { intros iv He. pose proof (ok_range _ _ _ _ Hok e iv He) as Hr. unfold cover_at, l. rewrite Hsz.
      rewrite (cover_spec _ _ k) by (cbn [Nat.pow]; lia). unfold holds. lia. }
    split.
    - intros (i & Hi & He & Ha). destruct (ok_sound _ _ _ _ Hok i e He) as (iv & Hin & Hcv).
      exists iv. split_and!; [done|done|]. apply Hc; [done|]. by exists i.
    - intros (iv & Hin & Ha & Hp). apply Hc in Hp as (i & Hcv & Hi); [|done]. exists i.
      split_and!; [done|split; [by eapply ok_complete|done]]. }
  split_and!; [|done|].
  - constructor; cbn [size_ nodes active]; try apply Hok.
    + rewrite Hl. apply Hok.
    + done.
    + intros i e He. apply Hsub in He. by eapply ok_sound.
    + intros e iv i He Ha Hi. apply Hkp. split; [by eapply ok_complete|done].
  - destruct Hbest as (Hle & Hlow & Hor). cbn [fst] in *. destruct Hor as [[= -> ->]|(e & He & [= -> ->])].
    + cbn. intros e iv Hlv. assert (Hi : exists iv, live e iv) by (by exists iv). apply Hseen, Hlow in Hi.
      specialize (Hmax e iv ltac:(apply Hlv)). lia.
    + destruct (Z.leb_spec 0 (Z.of_nat (lineIndex e))); [|lia]. rewrite Nat2Z.id.
      apply Hseen in He as (iv & He). exists e, iv. split_and!; [done|done|]. intros e' iv' Hlv.
      apply Hlow, Hseen. by exists iv'.
Qed.

End LineIndex.
