(* ===== verification/TextFields.v ===== *)
(** * Words of a text

    [strings.Fields] returns words without white space, which [strings.TrimSpace] leaves
    alone, and splitting words joined by single spaces gives the words back. *)

From Stdlib Require Import ZArith Lia Ascii String.
From stdpp Require Import base list strings.
From S2P Require Import Prelude GoStrings.

Module TextFields.
Import GoStr.
#[local] Open Scope string_scope.

(** No white space starts at any byte. *)
Definition spaceless (w : string) : Prop := forall p u, w = p ++ u -> space_len u = 0%nat.

Definition a_word (w : string) : Prop := spaceless w /\ w <> "".

Lemma space_len_cons c s : space_len (String c s) = 0%nat -> space1 c = false.
Proof. cbn. by destruct (space1 c). Qed.

(** What a nonempty [s] starts with decides, when a blank follows. *)
Lemma space_len_blank u r : u <> "" -> space_len u = 0%nat -> space_len (u ++ String " " r) = 0%nat.
Proof.
  assert (H2 : forall c, space2 c " " = false) by (intros; unfold space2; cbn; by rewrite andb_false_r).
  assert (H3 : forall c c', space3 c c' " " = false).
  { intros. unfold space3. change (byte_in " " 128 138) with false. change (byte_is " " _) with false.
    by rewrite !orb_false_r, !andb_false_r. }
  assert (H3' : forall c c', space3 c " " c' = false) by (intros; unfold space3; change (byte_is " " _) with false; by rewrite !andb_false_r).
  intros Hu. destruct u as [|c1 u]; [done|]. rewrite sapp_cons. cbn -[space2 space3 append]. destruct (space1 c1); [done|].
  destruct u as [|c2 u].
  { change ("" ++ String " " r) with (String " " r). cbn -[space2 space3]. rewrite H2. destruct r; [done|]. by rewrite H3'. }
  rewrite sapp_cons. cbn -[space2 space3 append]. destruct (space2 c1 c2); [done|]. destruct u as [|c3 u].
  { change ("" ++ String " " r) with (String " " r). cbn -[space2 space3]. by rewrite H3. }
  by rewrite sapp_cons.
Qed.

(** ** [Fields] *)

Lemma snoc_suffix cur c p u : snoc cur c = p ++ u -> u <> "" -> exists u', u = u' ++ String c "" /\ cur = p ++ u'.
Proof.
  unfold snoc. revert p. induction cur as [|d cur IH]; intros p H Hu.
  - destruct p as [|e p]; [exists ""; split; [exact (eq_sym H)|done]|].
    change ("" ++ String c "") with (String c "") in H. rewrite sapp_cons in H. injection H as -> H.
    destruct p; [|done]. by destruct u.
  - destruct p as [|e p].
    + exists (String d cur). split; [exact (eq_sym H)|done].
    + rewrite !sapp_cons in H. injection H as -> H. destruct (IH p H Hu) as (u' & -> & ->). by exists u'.
Qed.

(** Nothing read so far starts white space. *)
Definition reading (cur s : string) : Prop := forall p u, cur = p ++ u -> u <> "" -> space_len (u ++ s) = 0%nat.

Lemma reading_snoc cur c s : reading cur (String c s) -> space_len (String c s) = 0%nat -> reading (snoc cur c) s.
Proof.
  intros Hr Hc p u Hp Hu. destruct (snoc_suffix cur c p u Hp Hu) as (u' & -> & Hcur). rewrite sapp_assoc.
  change (String c "" ++ s) with (String c s). destruct u' as [|d u']; [done|]. by apply (Hr p (String d u')).
Qed.

Lemma reading_word cur s : reading cur s -> Forall a_word (flush cur).
Proof.
  intros Hr. destruct cur as [|c cur]; [constructor|]. apply Forall_singleton. split; [|done].
  intros p u Hp. destruct u as [|d u]; [done|]. apply (space_len_prefix _ s). by apply (Hr p).
Qed.

Lemma reading_nil s : reading "" s.
Proof. intros p u Hp Hu. destruct p, u; done. Qed.

Lemma fields_go_words s cur : reading cur s -> Forall a_word (fields_go s cur).
Proof.
  revert cur. induction s as [s IH] using (induction_ltof1 _ String.length). unfold ltof in IH. intros cur Hr.
  destruct s as [|c1 s]; [by eapply reading_word|]. cbn [fields_go].
  destruct (space1 c1) eqn:E1.
  { apply Forall_app. split; [by eapply reading_word|]. apply IH; [cbn; lia|apply reading_nil]. }
  destruct s as [|c2 s].
  { apply (reading_word _ ""). apply reading_snoc; [done|]. cbn. by rewrite E1. }
  destruct (space2 c1 c2) eqn:E2.
  { apply Forall_app. split; [by eapply reading_word|]. apply IH; [cbn; lia|apply reading_nil]. }
  destruct s as [|c3 s].
  { apply IH; [cbn; lia|]. apply reading_snoc; [done|]. cbn. by rewrite E1, E2. }
  destruct (space3 c1 c2 c3) eqn:E3.
  { apply Forall_app. split; [by eapply reading_word|]. apply IH; [cbn; lia|apply reading_nil]. }
  apply IH; [cbn; lia|]. apply reading_snoc; [done|]. cbn. by rewrite E1, E2, E3.
Qed.

Lemma Fields_words s : Forall a_word (Fields s).
Proof. apply fields_go_words, reading_nil. Qed.

(** ** [TrimSpace] *)

Lemma rev_app_string a b : rev (a ++ b) = rev b ++ rev a.
Proof.
  unfold rev. induction a as [|c a IH]; [by rewrite sapp_nil_r|]. rewrite sapp_cons. cbn.
  by rewrite (rev_app_app (a ++ b)), (rev_app_app a), IH, sapp_assoc.
Qed.

Lemma spaceless_TrimSpace w : spaceless w -> TrimSpace w = w.
Proof.
  intros Hw. unfold TrimSpace. rewrite (trim_left_done w) by by apply (Hw "" w).
  enough (trim_rev (rev w) = rev w) as -> by apply rev_rev.
  assert (Hs : forall t u, w = t ++ u -> rev w = rev u ++ rev t) by (intros t u ->; apply rev_app_string).
  destruct (rev w) as [|c1 r] eqn:E; [done|].
  assert (Hback : w = rev (String c1 r)) by (by rewrite <-E, rev_rev). cbn [trim_rev].
  assert (H1 : space1 c1 = false).
  { apply (space_len_cons c1 ""). apply (Hw (rev r)). rewrite Hback. change (String c1 r) with (String c1 "" ++ r). by rewrite rev_app_string. }
  rewrite H1. destruct r as [|c2 r]; [done|].
  assert (Hw2 : space_len (String c2 (String c1 "")) = 0%nat).
  { apply (Hw (rev r)). rewrite Hback. change (String c1 (String c2 r)) with (String c1 (String c2 "") ++ r). by rewrite rev_app_string. }
  cbn in Hw2. assert (H2 : space1 c2 = false).
  { by destruct (space1 c2). }
  rewrite H2 in Hw2. assert (H12 : space2 c2 c1 = false) by (by destruct (space2 c2 c1)).
  rewrite H12. destruct r as [|c3 r]; [done|].
  assert (Hw3 : space_len (String c3 (String c2 (String c1 ""))) = 0%nat).
  { apply (Hw (rev r)). rewrite Hback.
    change (String c1 (String c2 (String c3 r))) with (String c1 (String c2 (String c3 "")) ++ r). by rewrite rev_app_string. }
  cbn in Hw3. destruct (space1 c3); [done|]. destruct (space2 c3 c2); [done|]. by destruct (space3 c3 c2 c1).
Qed.

(** ** Splitting what was joined *)

Lemma fields_go_char c s cur : space_len (String c s) = 0%nat -> s <> "" -> fields_go (String c s) cur = fields_go s (snoc cur c).
Proof.
  intros Hs Hne. cbn in Hs |- *. destruct (space1 c); [done|]. destruct s as [|c2 s]; [done|].
  destruct (space2 c c2); [done|]. destruct s as [|c3 s]; [done|]. by destruct (space3 c c2 c3).
Qed.

Lemma spaceless_tail c w : spaceless (String c w) -> spaceless w.
Proof. intros Hw p u ->. by apply (Hw (String c p)). Qed.

Lemma fields_go_word w r cur : spaceless w -> w <> "" \/ cur <> "" ->
  fields_go (w ++ String " " r) cur = cons (cur ++ w) (Fields r).
Proof.
  revert cur. induction w as [|c w IH]; intros cur Hw Hne.
  { change ("" ++ String " " r) with (String " " r). cbn. rewrite sapp_nil_r. destruct cur; [by destruct Hne|done]. }
  assert (Hsp : space_len (String c w ++ String " " r) = 0%nat) by (apply space_len_blank; [done|by apply (Hw "")]).
  rewrite sapp_cons in *. rewrite fields_go_char; [|done|by destruct w].
  rewrite IH; [|by eapply spaceless_tail|right; by destruct cur]. unfold snoc. by rewrite sapp_assoc.
Qed.

Lemma fields_go_last w cur : spaceless w -> w <> "" \/ cur <> "" -> fields_go w cur = cons (cur ++ w) nil.
Proof.
  revert cur. induction w as [|c w IH]; intros cur Hw Hne.
  { cbn. rewrite sapp_nil_r. destruct cur; [by destruct Hne|done]. }
  pose proof (Hw "" (String c w) eq_refl) as Hsp. destruct w as [|c2 w].
  { cbn in Hsp |- *. destruct (space1 c); [done|]. unfold snoc. by destruct cur. }
  rewrite fields_go_char by done. rewrite IH; [|by eapply spaceless_tail|by left]. unfold snoc. by rewrite sapp_assoc.
Qed.

Lemma Fields_Join ws : Forall a_word ws -> Fields (Join ws " ") = ws.
Proof.
  induction 1 as [|w ws [Hw Hne] Hws IH]; [done|]. destruct ws as [|w2 ws].
  - cbn [Join]. unfold Fields. rewrite fields_go_last by (by auto). done.
  - change (Join (w :: w2 :: ws) " ") with (w ++ " " ++ Join (w2 :: ws) " ").
    change (" " ++ Join (w2 :: ws) " ") with (String " " (Join (w2 :: ws) " ")).
    unfold Fields at 1. rewrite fields_go_word by (by auto). by rewrite IH.
Qed.

(** ** Joined words are trimmed *)

Lemma trim_rev_empty t : t <> "" -> trim_rev t = "" -> space_len (rev t) <> 0%nat.
Proof.
  assert (Hrev : forall a b, rev (a ++ b) = rev b ++ rev a) by apply rev_app_string.
  assert (Hstep : forall a r, r <> "" -> space_len (rev r) <> 0%nat -> space_len (rev (a ++ r)) <> 0%nat).
  { intros a r _ Hr H0. apply Hr. rewrite Hrev in H0. by eapply space_len_prefix. }
  induction t as [t IH] using (induction_ltof1 _ String.length). unfold ltof in IH. intros Ht.
  destruct t as [|c1 r]; [done|]. cbn [trim_rev]. destruct (space1 c1) eqn:E1.
  { intros Hr. destruct (decide (r = "")) as [-> |Hne]; [cbn; by rewrite E1|].
    apply (Hstep (String c1 "") r Hne), IH; [cbn; lia|done|done]. }
  destruct r as [|c2 r]; [done|]. destruct (space2 c2 c1) eqn:E2.
  { intros Hr. destruct (decide (r = "")) as [-> |Hne]; [cbn; rewrite E2; by destruct (space1 c2)|].
    apply (Hstep (String c1 (String c2 "")) r Hne), IH; [cbn; lia|done|done]. }
  destruct r as [|c3 r]; [done|]. destruct (space3 c3 c2 c1) eqn:E3; [|done].
  intros Hr. destruct (decide (r = "")) as [-> |Hne].
  { cbn. rewrite E3. destruct (space1 c3); [done|]. by destruct (space2 c3 c2). }
  apply (Hstep (String c1 (String c2 (String c3 ""))) r Hne), IH; [cbn; lia|done|done].
Qed.

Lemma TrimSpace_nonempty s : s <> "" -> space_len s = 0%nat -> TrimSpace s <> "".
Proof.
  intros Hs H0 Ht. unfold TrimSpace in Ht. rewrite (trim_left_done s H0) in Ht.
  assert (Hr : trim_rev (rev s) = "") by (rewrite <-(rev_rev (trim_rev (rev s))), Ht; done).
  apply trim_rev_empty in Hr; [by rewrite rev_rev in Hr|]. intros Hn. apply Hs. by rewrite <-(rev_rev s), Hn.
Qed.

Lemma Join_head w ws : a_word w -> space_len (Join (w :: ws) " ") = 0%nat /\ Join (w :: ws) " " <> "".
Proof.
  intros [Hw Hne]. destruct ws as [|w2 ws]; [split; [by apply (Hw "")|done]|].
  change (Join (w :: w2 :: ws) " ") with (w ++ String " " (Join (w2 :: ws) " ")). split.
  - apply space_len_blank; [done|by apply (Hw "")].
  - by destruct w.
Qed.

(** Two words or trimmed words joined by blanks. *)
Lemma Join_nonempty w ws : TrimSpace w = w -> w <> "" -> TrimSpace (Join (w :: ws) " ") <> "".
Proof.
  intros Ht Hne. assert (H0 : space_len w = 0%nat).
  { pose proof (trim_left_head w) as Hh. unfold TrimSpace in Ht. destruct (trim_rev_suffix (rev (trim_left w))) as [p Hp].
    assert (Hl : trim_left w = w ++ rev p).
    { rewrite <-Ht at 2. rewrite <-(rev_rev (trim_left w)) at 1. rewrite Hp at 1. by rewrite rev_app_string. }
    rewrite Hl in Hh. by eapply space_len_prefix. }
  destruct ws as [|w2 ws]; [by apply TrimSpace_nonempty|].
  change (Join (w :: w2 :: ws) " ") with (w ++ String " " (Join (w2 :: ws) " ")).
  apply TrimSpace_nonempty; [by destruct w|by apply space_len_blank].
Qed.

(** No suffix is white space and nothing else. *)
Definition no_trailing (s : string) : Prop := forall p u, s = p ++ u -> u <> "" -> space_len u <> String.length u.

Lemma no_trailing_trim s : no_trailing s -> trim_rev (rev s) = rev s.
Proof.
  intros Hn. destruct (rev s) as [|c1 r] eqn:E; [done|].
  assert (Hback : forall a b, String c1 r = a ++ b -> s = rev b ++ rev a).
  { intros a b Hab. by rewrite <-(rev_rev s), E, Hab, rev_app_string. }
  cbn [trim_rev]. pose proof (Hn _ _ (Hback (String c1 "") r eq_refl) ltac:(done)) as H1. cbn in H1.
  destruct (space1 c1); [done|]. destruct r as [|c2 r]; [done|].
  pose proof (Hn _ _ (Hback (String c1 (String c2 "")) r eq_refl) ltac:(done)) as H2. cbn in H2.
  destruct (space2 c2 c1) eqn:E2. { destruct (space1 c2) eqn:E1; [|done]. unfold space2 in E2. unfold space1, byte_in, byte_is in *.
    apply andb_true_iff in E2 as [E2 _]. apply bool_decide_eq_true in E2. rewrite E2 in E1. done. }
  destruct r as [|c3 r]; [done|].
  pose proof (Hn _ _ (Hback (String c1 (String c2 (String c3 ""))) r eq_refl) ltac:(done)) as H3. cbn in H3.
  destruct (space3 c3 c2 c1) eqn:E3; [|done].
  exfalso. assert (Hc3 : (N_of_ascii c3 = 225 \/ N_of_ascii c3 = 226 \/ N_of_ascii c3 = 227)%N).
  { unfold space3, byte_is in E3. rewrite !orb_true_iff, !andb_true_iff, !bool_decide_eq_true in E3. tauto. }
  assert (Hs1 : space1 c3 = false) by (unfold space1, byte_in, byte_is; by destruct Hc3 as [-> |[-> | ->]]).
  assert (Hs2 : space2 c3 c2 = false) by (unfold space2, byte_is; by destruct Hc3 as [-> |[-> | ->]]).
  by rewrite Hs1, Hs2 in H3.
Qed.

Lemma app_suffix (a b p u : string) : a ++ b = p ++ u ->
  (exists q, b = q ++ u) \/ exists q, a = p ++ q /\ u = q ++ b.
Proof.
  revert p. induction a as [|c a IH]; intros p H; [left; by exists p|].
  destruct p as [|d p]; [right; by exists (String c a)|]. rewrite !sapp_cons in H. injection H as -> H.
  destruct (IH p H) as [Hq|(q & -> & ->)]; [by left|right; by exists q].
Qed.

Lemma no_trailing_word s w : a_word w -> no_trailing (s ++ String " " w).
Proof.
  intros [Hw Hne] p u Hp Hu. destruct (app_suffix _ _ _ _ Hp) as [[q Hq]|(q & -> & ->)].
  - destruct q as [|d q].
    + change ("" ++ u) with u in Hq. subst u. change (space_len (String " " w)) with 1%nat. destruct w; [done|]. cbn [String.length]. lia.
    + rewrite sapp_cons in Hq. injection Hq as <- ->. rewrite (Hw q u eq_refl). by destruct u.
  - destruct q as [|c1 q].
    { change ("" ++ String " " w) with (String " " w). change (space_len (String " " w)) with 1%nat.
      destruct w; [done|]. cbn [String.length]. lia. }
    intros He. assert (Hlen : forall a b, String.length (a ++ b) = (String.length a + String.length b)%nat).
    { clear. induction a as [|c a IH]; intros b; [done|]. rewrite sapp_cons. cbn. by rewrite IH. }
    assert (Hle : forall x, (space_len x <= 3)%nat).
    { clear. intros x. destruct x as [|a [|b [|c x]]]; cbn; [lia|..]; destruct (space1 a); try lia; destruct (space2 a b); try lia.
      destruct (space3 a b c); lia. }
    pose proof (Hle (String c1 q ++ String " " w)) as H3. rewrite He, Hlen in H3. cbn in H3.
    destruct w as [|c3 w]; [done|]. destruct q as [|? q]; [|cbn in H3; lia]. destruct w as [|? w]; [|cbn in H3; lia].
    change (String c1 "" ++ String " " (String c3 "")) with (String c1 (String " " (String c3 ""))) in He. cbn in He.
    destruct (space1 c1); [done|]. destruct (space2 c1 " ") eqn:E2.
    + done.
    + destruct (space3 c1 " " c3) eqn:E3; [|done]. unfold space3 in E3. change (byte_is " " _) with false in E3.
      by rewrite !andb_false_r in E3.
Qed.

Lemma Join_snoc ws w : ws <> [] -> Join (ws ++ [w])%list " " = Join ws " " ++ String " " w.
Proof.
  induction ws as [|x ws IH]; [done|]. intros _. destruct ws as [|y ws]; [done|].
  change (Join ((x :: y :: ws) ++ [w])%list " ") with (x ++ String " " (Join ((y :: ws) ++ [w])%list " ")).
  rewrite IH by done. change (Join (x :: y :: ws) " ") with (x ++ String " " (Join (y :: ws) " ")). by rewrite sapp_assoc.
Qed.

Lemma TrimSpace_Join ws : Forall a_word ws -> TrimSpace (Join ws " ") = Join ws " ".
Proof.
  intros Hws. destruct ws as [|w ws]; [done|]. pose proof Hws as [Hw _]%Forall_cons. destruct (Join_head w ws Hw) as [H0 _].
  destruct (decide (ws = [])) as [-> |Hne]; [exact (spaceless_TrimSpace w (proj1 Hw))|].
  unfold TrimSpace. rewrite (trim_left_done _ H0), no_trailing_trim; [by rewrite rev_rev|].
  destruct (exists_last Hne) as (ws' & x & ->).
  change (w :: ws' ++ [x])%list with ((w :: ws') ++ [x])%list. rewrite Join_snoc by done. apply no_trailing_word.
  rewrite Forall_cons, Forall_app in Hws. destruct Hws as (_ & _ & Hx). by apply Forall_cons in Hx as [Hx _].
Qed.

(** ** Case folding *)

(** ASCII and not one of the letters that other characters fold to. *)
Definition folds_alone (c : ascii) : bool := (N_of_ascii c <? 128)%N && negb (bool_decide (c = "s"%char)) && negb (bool_decide (c = "k"%char)).

Lemma folds_alone_ascii c : folds_alone (lower_byte c) = true -> byte_is c 196 = false.
Proof. destruct c as [[] [] [] [] [] [] [] []]; vm_compute; intros H; by try destruct H. Qed.

(** What folds to such letters is lowered to them. *)
Lemma fold_ToLower s : all_chars folds_alone (fold s) = true -> ToLower s = fold s.
Proof.
  induction s as [|c1 r1 IH]; [done|]. cbn [fold ToLower]. destruct r1 as [|c2 r2]; [done|].
  destruct (byte_is c1 197 && byte_is c2 191); [done|].
  assert (Hone : all_chars folds_alone (String (lower_byte c1) (fold (String c2 r2))) = true ->
    byte_is c1 196 = false /\ ToLower (String c2 r2) = fold (String c2 r2)).
  { cbn [all_chars]. intros [Hc Hr]%andb_true_iff. split; [by apply folds_alone_ascii|by apply IH]. }
  destruct r2 as [|c3 r3]; [intros [-> ->]%Hone; done|].
  destruct (byte_is c1 226 && byte_is c2 132 && byte_is c3 170); [done|]. by intros [-> ->]%Hone.
Qed.

End TextFields.
