(* ===== verification/Annotations.v ===== *)
(** * Annotations as the editor's operations read and change them

    internal/server/annotations.go (geometry and text of an annotation) and
    internal/server/annotation_actions.go ([deriveTextAnnotation] and what it is made
    of).  Maps the Go code changes in place are returned changed. *)

From Stdlib Require Import ZArith Lia Ascii String.
From stdpp Require Import base list strings.
From S2P Require Import Prelude GoStrings GoFloat Json JsonParse MediaFragment.

Module Annotations.
Import GoStr GoFloat Json JsonParse MediaFragment.
#[local] Open Scope Z_scope.

Inductive ann_err :=
| EFragment | EPercentFragment | EFragmentRange       (* parseXYWH *)
| ETarget (e : geometry_err)                           (* replace annotation target geometry *)
| EClone | ESvg.
#[export] Instance ann_err_eq_dec : EqDecision ann_err.
Proof. solve_decision. Defined.

Definition lift_target {A} (r : result geometry_err A) : result ann_err A :=
  match r with Ok a => Ok a | Err e => Err (ETarget e) end.

(** ** Geometry *)

(** One component: a finite number in the pixel range, rounded. *)
Definition parse_component (p : string) : option Z :=
  match ParseFloat (TrimSpace p) with
  | Some (Fin n d) => if (n <? 0) || (MaxPixelCoordinate * d <? n) then None else Some (round_away n d)
  | _ => None
  end.

Definition parseRoundedXYWH (fragment : string) : result ann_err box :=
  let fragment := strip_pixel fragment in
  if HasPrefix fragment "percent:" then Err EPercentFragment else
  match mapM parse_component (Split fragment ","%char) with
  | Some [x; y; w; h] => Ok {| bx := x; by_ := y; bw := w; bh := h |}
  | _ => Err EFragment
  end.

Record rect := { x1 : Z; y1 : Z; x2 : Z; y2 : Z }.
#[export] Instance rect_eq_dec : EqDecision rect.
Proof. solve_decision. Defined.

Definition parseXYWH (fragment : string) : result ann_err rect :=
  vals ← parseRoundedXYWH fragment;
  if (bx vals <? 0) || (by_ vals <? 0) || (bw vals <=? 0) || (bh vals <=? 0)
     || (MaxPixelCoordinate - bw vals <? bx vals) || (MaxPixelCoordinate - bh vals <? by_ vals)
  then Err EFragmentRange
  else Ok {| x1 := bx vals; y1 := by_ vals; x2 := bx vals + bw vals; y2 := by_ vals + bh vals |}.

Definition roundXYWHFragment (raw : string) : string :=
  match parseRoundedXYWH raw with Ok rounded => format_box rounded | Err _ => raw end.

(** ** Reading an annotation *)

(** A string, or the text of a [json.Number] (a [fmt.Stringer]). *)
Definition annStringValue (v : obj) (key : string) : string :=
  match jget v key with Some (JString s) => s | Some (JNumber n) => n | _ => "" end.

Definition extractCanvasURI (anno : obj) : string :=
  let on := TrimSpace (annStringValue anno "on") in
  let on := if bool_decide (on = ""%string) then TargetCanvas (default JNull (jget anno "target")) else on in
  let '(canvas, _, _) := Cut on "#"%char in canvas.

Definition extractFragment (anno : obj) : string :=
  match TargetPixelXYWH (default JNull (jget anno "target")) with
  | Ok (Some value) => value
  | _ => ""
  end.

(** The first entry of an array with text. *)
Fixpoint first_text (body : list json) : string :=
  match body with
  | [] => ""
  | entry :: body' =>
      let value := match entry with JObject o => TrimSpace (annStringValue o "value") | _ => "" end%string in
      if bool_decide (value = ""%string) then first_text body' else value
  end.

Definition extractAnnotationText (anno : obj) : string :=
  match jget anno "body" with
  | Some (JObject body) => TrimSpace (annStringValue body "value")
  | Some (JArray body) => first_text body
  | _ => ""
  end.

(** [strings.EqualFold(strings.TrimSpace(annStringValue(m, key)), want)] *)
Definition says (m : obj) (key want : string) : bool := EqualFold (TrimSpace (annStringValue m key)) want.

Definition is_textual (body : obj) : bool := says body "type" "TextualBody".

(** ** Changing the text *)

Definition textual_body (value : string) : json :=
  JObject (jset (jset (jset (jset [] "type" (JString "TextualBody")) "purpose" (JString "supplementing"))
    "format" (JString "text/plain")) "value" (JString (TrimSpace value))).

(** The first textual body of the array takes the value. *)
Fixpoint set_first (f : obj -> obj) (bodies : list json) : option (list json) :=
  match bodies with
  | [] => None
  | JObject body :: bodies' =>
      if is_textual body then Some (JObject (f body) :: bodies')
      else l ← set_first f bodies'; Some (JObject body :: l)
  | candidate :: bodies' => l ← set_first f bodies'; Some (candidate :: l)
  end.

Definition setAnnotationText (annotation : obj) (value : string) : obj :=
  let set body := jset body "value" (JString (TrimSpace value)) in
  let fresh := jset annotation "body" (JArray [textual_body value]) in
  match jget annotation "body" with
  | Some (JArray bodies) =>
      match set_first set bodies with
      | Some l => jset annotation "body" (JArray l)
      | None => jset annotation "body" (JArray (bodies ++ [textual_body value]))
      end
  | Some (JObject body) => if is_textual body then jset annotation "body" (JObject (set body)) else fresh
  | _ => fresh
  end.

(** [if m[key] == nil { m[key] = v }] *)
Definition set_default (m : obj) (key : string) (v : json) : obj :=
  if jget_nil m key then jset m key v else m.

Definition set_textual (text : string) (body : obj) : obj :=
  let body := jset (jset body "type" (JString "TextualBody")) "value" (JString text) in
  set_default (set_default body "purpose" (JString "supplementing")) "format" (JString "text/plain").

Definition textBodyWithValue (raw : option json) (text : string) : json :=
  let textual := JObject (set_textual text []) in
  match raw with
  | Some (JObject body) =>
      if is_textual body then JObject (set_textual text body) else JArray [JObject body; textual]
  | Some (JArray bodies) =>
      match set_first (set_textual text) bodies with
      | Some l => JArray l
      | None => JArray (bodies ++ [textual])
      end
  | _ => JArray [textual]
  end.

(** ** Identities of embedded resources *)

(** [delete(m, "id")], [delete(m, "@id")] *)
Definition clear_ids (m : obj) : obj := jdel (jdel m "id") "@id".

(** The first object, through nested arrays in order, that [f] changes. *)
Fixpoint clear_first (f : obj -> option obj) (raw : json) : option json :=
  match raw with
  | JObject m => m' ← f m; Some (JObject m')
  | JArray l =>
      l' ← (fix go l := match l with
             | [] => None
             | x :: l' => match clear_first f x with
                          | Some x' => Some (x' :: l')
                          | None => r ← go l'; Some (x :: r)
                          end
             end) l;
      Some (JArray l')
  | _ => None
  end.

Definition clearFirstTextualBodyIdentity (raw : json) : json :=
  default raw (clear_first (fun body => if is_textual body then Some (clear_ids body) else None) raw).

(** A fragment selector without an xywh, or with a bad one, is passed over. *)
Definition clear_fragment_ids (selector : obj) : option obj :=
  if says selector "type" "FragmentSelector" then
    match MediaFragmentPixelXYWH (as_string (jget selector "value")) with
    | Ok (Some _) => Some (clear_ids selector)
    | _ => None
    end
  else None.
Definition clearFirstFragmentIdentity (raw : json) : json := default raw (clear_first clear_fragment_ids raw).

(** [m[key]] changed in place, when it is there. *)
Definition update (m : obj) (key : string) (f : json -> json) : obj :=
  match jget m key with Some v => jset m key (f v) | None => m end.

Definition clear_target_ids (target : json) : json :=
  match target with
  | JObject t => JObject (update (clear_ids t) "selector" clearFirstFragmentIdentity)
  | _ => target
  end.
Definition clearMutableTargetResourceIDs (annotation : obj) : obj := update annotation "target" clear_target_ids.

Definition clearMutableEmbeddedResourceIDs (annotation : obj) : obj :=
  clearMutableTargetResourceIDs (update annotation "body" clearFirstTextualBodyIdentity).

(** ** Derived annotations *)

(** Through the encoded bytes. *)
Definition cloneAnnotation (annotation : obj) : result ann_err obj :=
  match DecodeJSON (Marshal (JObject annotation)) with
  | Some (JObject clone) => Ok clone
  | _ => Err EClone
  end.

(** [ocrpage.MapSVGPoints]: the points of an SVG document mapped by a function; [None]
    is its error. *)
Class SvgMapper := MapSVGPoints : string -> (Z * Z -> Z * Z) -> option string.

(** [int(f)] of a float: the least [int] when it does not fit (amd64). *)
Definition to_int (v : option Z) : Z :=
  match v with
  | Some z => if (- 2 ^ 63 <=? z) && (z <? 2 ^ 63) then z else - 2 ^ 63
  | None => - 2 ^ 63
  end.

(** [lo + int(math.Round(float64(p-old)*float64(width)/float64(oldWidth)))] *)
Definition scale (lo p old width oldWidth : Z) : Z :=
  let q := m ← fmul (of_int (wrap64 (p - old))) (of_int width); fdiv m (of_int oldWidth) in
  wrap64 (lo + to_int (f ← q; fround f)).

Definition map_point (old new : rect) (p : Z * Z) : Z * Z :=
  (scale (x1 new) p.1 (x1 old) (x2 new - x1 new) (x2 old - x1 old),
   scale (y1 new) p.2 (y1 old) (y2 new - y1 new) (y2 old - y1 old)).

Definition is_svg (selector : obj) : bool := bool_decide (jget selector "type" = Some (JString "SvgSelector")).

Definition remap_svg `{SvgMapper} (f : Z * Z -> Z * Z) (value : json) : result ann_err json :=
  match value with
  | JObject selector =>
      if is_svg selector then
        mapped ← of_option ESvg (MapSVGPoints (as_string (jget selector "value")) f);
        Ok (JObject (jset selector "value" (JString mapped)))
      else Ok value
  | _ => Ok value
  end.

Fixpoint remap_all `{SvgMapper} (f : Z * Z -> Z * Z) (l : list json) : result ann_err (list json) :=
  match l with
  | [] => Ok []
  | x :: l' => x' ← remap_svg f x; r ← remap_all f l'; Ok (x' :: r)
  end.

Definition remap_selectors `{SvgMapper} (f : Z * Z -> Z * Z) (target : obj) : result ann_err obj :=
  match jget target "selector" with
  | Some (JArray l) => l' ← remap_all f l; Ok (jset target "selector" (JArray l'))
  | Some other => v ← remap_svg f other; Ok (jset target "selector" v)
  | None => Ok target
  end.

(** [fmt.Sprintf("%d,%d,%d,%d", x1, y1, maxInt(1, x2-x1), maxInt(1, y2-y1))] *)
Definition format_rect (r : rect) : string :=
  format_box {| bx := x1 r; by_ := y1 r; bw := Z.max 1 (x2 r - x1 r); bh := Z.max 1 (y2 r - y1 r) |}.

Definition targetWithFragment `{UrlParser, SvgMapper} (raw : option json) (canvasURI : string) (r : rect)
    : result ann_err obj :=
  let old := parseXYWH (extractFragment (match raw with Some v => [("target"%string, v)] | None => [] end)) in
  target ← lift_target (ReplaceTargetPixelXYWH (default JNull raw) canvasURI (format_rect r));
  match old with
  | Ok o => if (x1 o <? x2 o) && (y1 o <? y2 o) then remap_selectors (map_point o r) target else Ok target
  | Err _ => Ok target
  end.

Definition deriveTextAnnotation `{UrlParser, SvgMapper} (template : obj) (id granularity canvasURI : string)
    (r : rect) (text : string) : result ann_err obj :=
  annotation ← cloneAnnotation template;
  let annotation := jset annotation "id" (JString id) in
  let annotation := jset annotation "type" (JString "Annotation") in
  let annotation := jset annotation "textGranularity" (JString granularity) in
  let annotation := set_default annotation "motivation" (JString "supplementing") in
  let annotation := jset annotation "body" (textBodyWithValue (jget annotation "body") (TrimSpace text)) in
  target ← targetWithFragment (jget annotation "target") canvasURI r;
  let annotation := jset annotation "target" (JObject target) in
  Ok (clearMutableEmbeddedResourceIDs annotation).

Definition buildLineAnnotation (id canvasURI : string) (r : rect) (text : string) : obj :=
  let source := jset (jset [] "id" (JString canvasURI)) "type" (JString "Canvas") in
  let target := jset (jset [] "source" (JObject source)) "selector"
                  (JObject (new_fragment_selector ("xywh=" ++ format_rect r)%string)) in
  jset (jset (jset (jset (jset (jset [] "id" (JString id)) "type" (JString "Annotation"))
    "textGranularity" (JString "line")) "motivation" (JString "supplementing"))
    "body" (JArray [textual_body text])) "target" (JObject target).

(** ** Geometry: bounds, and the integer boxes *)

Definition rect_ok (r : rect) : Prop :=
  0 <= x1 r /\ 0 <= y1 r /\ x1 r < x2 r /\ y1 r < y2 r /\ x2 r <= MaxPixelCoordinate /\ y2 r <= MaxPixelCoordinate.

Lemma parseXYWH_ok fragment r : parseXYWH fragment = Ok r -> rect_ok r.
Proof.
  unfold parseXYWH. destruct (parseRoundedXYWH fragment) as [b|]; [|done]. cbn. destruct (_ || _) eqn:E; [done|].
  repeat (apply orb_false_iff in E as [E ?]). intros [= <-]. unfold rect_ok. cbn. lia.
Qed.

Lemma parse_component_int p v : ParseUint (TrimSpace p) = Some v -> v <= MaxPixelCoordinate -> parse_component p = Some v.
Proof.
  intros Hp Hv. pose proof (ParseUint_range _ _ Hp) as [Hpos _].
  destruct (ParseFloat_digits _ _ Hp) as (f & Hf & d & Hd & ->); [unfold MaxPixelCoordinate in *; lia|].
  unfold parse_component. rewrite Hf. destruct (Z.ltb_spec (v * d) 0); [nia|].
  destruct (Z.ltb_spec (MaxPixelCoordinate * d) (v * d)); [nia|]. cbn [orb]. by rewrite round_int.
Qed.

(** Where the strict parser of [internal/iiif] accepts, the rounding one agrees. *)
Lemma parseRounded_strict raw b : parsePixelXYWH raw = Ok b -> parseRoundedXYWH raw = Ok b.
Proof.
  intros H. pose proof (parsePixelXYWH_inv raw b H) as (Hb & p1 & p2 & p3 & p4 & Hs & Hp).
  assert (Hper : HasPrefix (strip_pixel raw) "percent:" = false).
  { revert H. unfold parsePixelXYWH. by destruct (HasPrefix _ _). }
  unfold parseRoundedXYWH. rewrite Hper, Hs. unfold box_ok in Hb. cbn [parse_coordinates] in Hp.
  destruct (ParseUint (TrimSpace p1)) as [v1|] eqn:E1; [|done].
  destruct (ParseUint (TrimSpace p2)) as [v2|] eqn:E2; [|done].
  destruct (ParseUint (TrimSpace p3)) as [v3|] eqn:E3; [|done].
  destruct (ParseUint (TrimSpace p4)) as [v4|] eqn:E4; [|done]. cbn in Hp. injection Hp as -> -> -> ->.
  cbn [mapM]. rewrite (parse_component_int _ _ E1), (parse_component_int _ _ E2),
    (parse_component_int _ _ E3), (parse_component_int _ _ E4) by lia.
  by destruct b.
Qed.

Definition rect_of (b : box) : rect :=
  {| x1 := bx b; y1 := by_ b; x2 := bx b + bw b; y2 := by_ b + bh b |}.

Lemma parseXYWH_strict raw b : parsePixelXYWH raw = Ok b -> parseXYWH raw = Ok (rect_of b).
Proof.
  intros H. unfold parseXYWH. rewrite (parseRounded_strict raw b H).
  pose proof (parsePixelXYWH_inv raw b H) as [Hb _]. unfold box_ok in Hb. cbn [mbind result_bind].
  rewrite (proj2 (Z.ltb_ge _ _)), (proj2 (Z.ltb_ge _ _)), (proj2 (Z.leb_gt _ _)), (proj2 (Z.leb_gt _ _)),
    (proj2 (Z.ltb_ge _ _)), (proj2 (Z.ltb_ge _ _)) by lia. done.
Qed.

End Annotations.
