(* ===== verification/DerivedFacts.v ===== *)
(** * What a derived annotation says

    [deriveTextAnnotation] reads back: the annotation it returns has the requested
    identity, granularity, canvas, box and text, and keeps the template's other
    properties. *)

From Stdlib Require Import ZArith Lia Ascii String.
From stdpp Require Import base sets list strings.
From S2P Require Import Prelude GoStrings Json JsonParse MediaFragment TargetGeometry Annotations.

Module DerivedFacts.
Import GoStr Json JsonParse MediaFragment TargetGeometry Annotations.
#[local] Open Scope Z_scope.

Lemma jget_jdel_ne (m : obj) k k' : k' <> k -> jget (jdel m k) k' = jget m k'.
Proof.
  intros Hne. induction m as [|[k1 v1] m IH]; [done|]. cbn. case_bool_decide as E; cbn.
  - subst. by rewrite bool_decide_eq_false_2.
  - by rewrite IH.
Qed.

Lemma jget_clear_ids (m : obj) k : k <> "id"%string -> k <> "@id"%string -> jget (clear_ids m) k = jget m k.
Proof. intros. unfold clear_ids. by rewrite !jget_jdel_ne. Qed.

Lemma jget_jset_ne (m : obj) k v k' : k' <> k -> jget (jset m k v) k' = jget m k'.
Proof. intros. by rewrite jget_jset, bool_decide_eq_false_2. Qed.
Lemma jget_jset_eq (m : obj) k v : jget (jset m k v) k = Some v.
Proof. by rewrite jget_jset, bool_decide_eq_true_2. Qed.

Lemma jget_update_ne m k f k' : k' <> k -> jget (update m k f) k' = jget m k'.
Proof. intros. unfold update. destruct (jget m k); [by rewrite jget_jset_ne|done]. Qed.
Lemma jget_update_eq m k f : jget (update m k f) k = f <$> jget m k.
Proof. unfold update. destruct (jget m k) eqn:E; [by rewrite jget_jset_eq|done]. Qed.
Lemma jget_set_default_ne m k v k' : k' <> k -> jget (set_default m k v) k' = jget m k'.
Proof. intros. unfold set_default. destruct (jget_nil m k); [by rewrite jget_jset_ne|done]. Qed.

(** ** Identities removed, text and geometry kept *)

(** A first changed entry, in a list. *)
Definition clear_list (f : obj -> option obj) : list json -> option (list json) :=
  fix go l := match l with
  | [] => None
  | x :: l' => match clear_first f x with
               | Some x' => Some (x' :: l')
               | None => r ← go l'; Some (x :: r)
               end
  end.

Lemma clear_first_array f l : clear_first f (JArray l) = (l' ← clear_list f l; Some (JArray l')).
Proof. reflexivity. Qed.

Lemma clear_first_visit f raw raw' :
  (forall m m', f m = Some m' -> visit_selectors (JObject m') = visit_selectors (JObject m)) ->
  clear_first f raw = Some raw' -> visit_selectors raw' = visit_selectors raw.
Proof.
  intros Hf. revert raw'. induction raw as [| | | |l IH|m _] using json_ind'; intros raw' H; try done.
  - rewrite clear_first_array in H. destruct (clear_list f l) as [l'|] eqn:E; [|done]. injection H as <-.
    rewrite !visit_array. revert l' E. induction IH as [|x l Hx Hl IHl]; intros l' E; [done|]. cbn [clear_list] in E.
    destruct (clear_first f x) as [x'|] eqn:Ex.
    + injection E as <-. cbn [visit_list]. by rewrite (Hx x' eq_refl).
    + destruct (clear_list f l) as [r|]; [|done]. injection E as <-. cbn [visit_list].
      by rewrite (IHl r eq_refl).
  - cbn in H. destruct (f m) as [m'|] eqn:E; [|done]. injection H as <-. by apply Hf.
Qed.

Lemma clear_fragment_visit raw : visit_selectors (clearFirstFragmentIdentity raw) = visit_selectors raw.
Proof.
  unfold clearFirstFragmentIdentity. destruct (clear_first clear_fragment_ids raw) as [raw'|] eqn:E; [|done].
  cbn [default]. eapply clear_first_visit; [|exact E]. intros m m'. unfold clear_fragment_ids.
  destruct (says m _ _); [|done]. destruct (MediaFragmentPixelXYWH _) as [[v|]|]; try done. intros [= <-].
  rewrite !visit_object. unfold is_fragment_selector. by rewrite !jget_clear_ids.
Qed.

(** ** SVG selectors do not matter to the fragment *)

Lemma svg_silent s : is_svg s = true -> visit_selectors (JObject s) = Ok [].
Proof.
  unfold is_svg. intros H%bool_decide_eq_true. rewrite visit_object. unfold is_fragment_selector. by rewrite H.
Qed.

Section target.
Context `{SvgMapper}.

Lemma remap_svg_visit f v v' : remap_svg f v = Ok v' -> visit_selectors v' = visit_selectors v.
Proof.
  unfold remap_svg. destruct v as [| | | | |s]; try by intros [= <-].
  destruct (is_svg s) eqn:E; [|by intros [= <-]]. intros (mapped & _ & [= <-])%result_bind_Ok. rewrite (svg_silent s E). apply svg_silent. unfold is_svg in *. by rewrite jget_jset_ne.
Qed.

Lemma remap_all_visit f l l' : remap_all f l = Ok l' -> visit_list l' = visit_list l.
Proof.
  revert l'. induction l as [|v l IH]; intros l' Hr; cbn in Hr; [by injection Hr as <-|].
  apply result_bind_Ok in Hr as (v' & Hv & (r & Hr & [= <-])%result_bind_Ok). cbn [visit_list].
  by rewrite (remap_svg_visit f v v' Hv), (IH r Hr).
Qed.

Lemma remap_selectors_reads f t t' : remap_selectors f t = Ok t' ->
  TargetPixelXYWH (JObject t') = TargetPixelXYWH (JObject t) /\
  forall k, k <> "selector"%string -> jget t' k = jget t k.
Proof.
  unfold remap_selectors. cbn [TargetPixelXYWH]. unfold selectorPixelXYWH.
  destruct (jget t "selector") as [sel|] eqn:E; [|intros [= <-]; by rewrite E].
  intros Hr.
  assert (Hset : forall v, visit_selectors v = visit_selectors sel -> t' = jset t "selector" v ->
    (found ← visit_selectors (default JNull (jget t' "selector"));
     match found with [] => Ok None | [x] => Ok (Some x) | _ :: _ :: _ => Err EMultipleSelectors end) =
    (found ← visit_selectors (default JNull (Some sel));
     match found with [] => Ok None | [x] => Ok (Some x) | _ :: _ :: _ => Err EMultipleSelectors end) /\
    forall k, k <> "selector"%string -> jget t' k = jget t k).
  { intros v Hv ->. rewrite jget_jset_eq. cbn [default from_option id]. rewrite Hv. split; [done|].
    intros k Hk. by rewrite jget_jset_ne. }
  destruct sel as [| | | |l|s]; apply result_bind_Ok in Hr as (v & Hv & [= <-]);
    try (by apply (Hset v); [eapply remap_svg_visit|]).
  apply (Hset (JArray v)); [|done]. by rewrite !visit_array, (remap_all_visit _ _ _ Hv).
Qed.
End target.

(** ** The box as text *)

Lemma format_box_visible_rect r : rect_ok r -> all_chars visible (format_rect r) = true /\
  parsePixelXYWH (format_rect r) = Ok {| bx := x1 r; by_ := y1 r; bw := x2 r - x1 r; bh := y2 r - y1 r |}.
Proof.
  intros Hr. unfold format_rect, rect_ok in *. rewrite !Z.max_r by lia.
  assert (Hb : box_ok {| bx := x1 r; by_ := y1 r; bw := x2 r - x1 r; bh := y2 r - y1 r |}) by (unfold box_ok; cbn; lia).
  split; [by apply format_box_visible|by apply parse_format_box].
Qed.

(** The canvas of the target is that of its source. *)
Definition has_source (t : obj) : Prop :=
  match jget t "source" with Some (JString _) | Some (JObject _) => True | _ => False end.

Lemma setTargetCanvas_source t c : has_source (setTargetCanvas t c).
Proof.
  unfold has_source, setTargetCanvas.
  destruct (jget t "source") as [[| | | | |src]|]; rewrite jget_jset_eq; try exact I.
Qed.

Lemma replace_target_source `{UrlParser} raw c r t : plain_target raw -> rect_ok r ->
  ReplaceTargetPixelXYWH raw c (format_rect r) = Ok t -> has_source t.
Proof.
  intros Hraw Hr. destruct (format_box_visible_rect r Hr) as [Hv Hb]. unfold ReplaceTargetPixelXYWH.
  intros (_ & _ & H1)%result_bind_Ok. destruct raw as [| | |value| |value]; try by injection H1 as <-.
  - destruct (Cut _ _) as [[cv f] p]. by apply result_bind_Ok in H1 as (u & _ & [= <-]).
  - eapply replaceSelector_spec in H1; [|by rewrite setTargetCanvas_selector|done|exact Hb].
    destruct H1 as (v & _ & _ & Hk). unfold has_source. rewrite Hk by done.
    apply setTargetCanvas_source.
Qed.

Lemma targetWithFragment_spec `{UrlParser, SvgMapper} raw canvasURI r t :
  plain_target (default JNull raw) -> all_chars visible canvasURI = true -> rect_ok r ->
  targetWithFragment raw canvasURI r = Ok t ->
  TargetCanvas (JObject t) = canvasURI /\ has_source t /\
  exists v, TargetPixelXYWH (JObject t) = Ok (Some v) /\ parseXYWH v = Ok r.
Proof.
  intros Hraw Hc Hr. unfold targetWithFragment. destruct (format_box_visible_rect r Hr) as [Hv Hb].
  intros (t0 & Ht0 & Hrest)%result_bind_Ok.
  unfold lift_target in Ht0. destruct (ReplaceTargetPixelXYWH _ _ _) as [t1|] eqn:E; [|done]. injection Ht0 as ->.
  pose proof (replace_target_source _ _ _ _ Hraw Hr E) as Hsource.
  destruct (replace_target_spec _ _ _ _ _ Hraw Hc Hv Hb E) as (Hcanvas & v & Hread & Hpv).
  assert (Hpr : parseXYWH v = Ok r).
  { rewrite (parseXYWH_strict v _ Hpv). unfold rect_of. cbn. destruct r. cbn in *. do 2 f_equal; lia. }
  assert (Hdone : TargetCanvas (JObject t0) = canvasURI /\ has_source t0 /\
    exists v, TargetPixelXYWH (JObject t0) = Ok (Some v) /\ parseXYWH v = Ok r) by (split_and!; [done|done|by exists v]).
  destruct (parseXYWH _) as [o|]; [|by injection Hrest as <-].
  destruct (_ && _); [|by injection Hrest as <-].
  destruct (remap_selectors_reads _ _ _ Hrest) as [Hsame Hkeys]. split_and!.
  - cbn [TargetCanvas] in Hcanvas |- *. rewrite Hkeys by done. unfold isCanvasReference, jget_nil in *.
    rewrite !Hkeys by done. done.
  - unfold has_source. by rewrite Hkeys.
  - exists v. by rewrite Hsame.
Qed.

(** Removing the target's identities keeps its canvas and fragment. *)
Lemma clear_target_reads t : has_source t ->
  TargetCanvas (clear_target_ids (JObject t)) = TargetCanvas (JObject t) /\
  TargetPixelXYWH (clear_target_ids (JObject t)) = TargetPixelXYWH (JObject t).
Proof.
  unfold has_source, clear_target_ids. intros Hs. cbn [TargetCanvas TargetPixelXYWH].
  rewrite jget_update_ne, jget_clear_ids by done. split.
  - destruct (jget t "source") as [[]|]; done.
  - rewrite jget_update_eq, jget_clear_ids by done. unfold selectorPixelXYWH.
    destruct (jget t "selector") as [sel|]; [|done]. cbn [fmap option_fmap option_map default from_option id].
    by rewrite clear_fragment_visit.
Qed.

(** ** The text *)

Definition value_of (body : obj) : string := TrimSpace (annStringValue body "value").

(** No body before the first textual one has a text of its own. *)
Fixpoint quiet (bodies : list json) : Prop :=
  match bodies with
  | [] => True
  | JObject body :: bodies' => is_textual body = true \/ (value_of body = ""%string /\ quiet bodies')
  | _ :: bodies' => quiet bodies'
  end.
Definition quiet_body (body : option json) : Prop :=
  match body with
  | Some (JArray l) => quiet l
  | Some (JObject b) => is_textual b = true \/ value_of b = ""%string
  | _ => True
  end.

Lemma first_text_set f l l' text : text <> ""%string -> (forall b, value_of (f b) = text) ->
  quiet l -> set_first f l = Some l' -> first_text l' = text.
Proof.
  intros Ht Hf. revert l'. induction l as [|v l IH]; intros l' Hq Hs; [done|]. cbn in Hs.
  destruct v as [| | | | |body]; cbn [quiet] in Hq;
    try (destruct (set_first f l) as [r|]; [|done]; injection Hs as <-; cbn [first_text]; by apply IH).
  destruct (is_textual body) eqn:E.
  - injection Hs as <-. cbn [first_text]. fold (value_of (f body)). by rewrite Hf, bool_decide_eq_false_2.
  - destruct Hq as [|[Hv Hq]]; [done|]. destruct (set_first f l) as [r|]; [|done]. injection Hs as <-.
    cbn [first_text]. fold (value_of body). rewrite Hv. by apply IH.
Qed.

Lemma first_text_snoc l body text : text <> ""%string -> value_of body = text ->
  quiet l -> (forall f, set_first f l = None) -> first_text (l ++ [JObject body]) = text.
Proof.
  intros Ht Hb. induction l as [|v l IH]; intros Hq Hs; cbn [app first_text].
  { fold (value_of body). by rewrite Hb, bool_decide_eq_false_2. }
  assert (Hrest : forall f, (if match v with JObject b => is_textual b | _ => false end then False else set_first f l = None)).
  { intros f. specialize (Hs f). cbn in Hs. destruct v as [| | | | |b]; try (by destruct (set_first f l)).
    destruct (is_textual b); [done|]. by destruct (set_first f l). }
  destruct v as [| | | | |b]; cbn [quiet] in Hq; try (by apply IH).
  destruct (is_textual b) eqn:E; [destruct (Hrest id)|]. destruct Hq as [|[Hv Hq]]; [done|].
  fold (value_of b). rewrite Hv. by apply IH.
Qed.

Lemma set_first_None f g l : set_first f l = None -> set_first g l = None.
Proof.
  induction l as [|v l IH]; [done|]. cbn. destruct v as [| | | | |b]; try destruct (is_textual b); try done;
    (destruct (set_first f l); [done|]; intros _; by rewrite IH).
Qed.

Lemma annStringValue_jset_eq m k s : annStringValue (jset m k (JString s)) k = s.
Proof. unfold annStringValue. by rewrite jget_jset_eq. Qed.
Lemma annStringValue_eq m m' k : jget m k = jget m' k -> annStringValue m k = annStringValue m' k.
Proof. unfold annStringValue. by intros ->. Qed.

Lemma value_set_textual text body : value_of (set_textual text body) = TrimSpace text.
Proof.
  unfold value_of, set_textual. f_equal.
  rewrite (annStringValue_eq _ (jset (jset body "type" (JString "TextualBody")) "value" (JString text)));
    [apply annStringValue_jset_eq|by rewrite !jget_set_default_ne].
Qed.

Lemma textBody_reads a raw text : TrimSpace text <> ""%string -> quiet_body raw ->
  extractAnnotationText (jset a "body" (textBodyWithValue raw text)) = TrimSpace text.
Proof.
  intros Ht Hq. unfold extractAnnotationText. rewrite jget_jset_eq. unfold textBodyWithValue.
  pose proof (value_set_textual text) as Hv.
  assert (Hfresh : first_text [JObject (set_textual text [])] = TrimSpace text).
  { cbn [first_text]. fold (value_of (set_textual text [])). by rewrite Hv, bool_decide_eq_false_2. }
  destruct raw as [[| | | |l|b]|]; try exact Hfresh; cbn [quiet_body] in Hq.
  - destruct (set_first (set_textual text) l) as [l'|] eqn:E.
    + by eapply first_text_set.
    + apply first_text_snoc; [done|done|done|]. intros f. by eapply set_first_None.
  - destruct (is_textual b) eqn:E; [apply Hv|]. destruct Hq as [|Hb]; [done|].
    apply (first_text_snoc [JObject b]); [done|done|cbn; by right|]. intros f. cbn. by rewrite E.
Qed.

(** Removing identities keeps the text. *)
Lemma value_clear_ids m : value_of (clear_ids m) = value_of m.
Proof. unfold value_of. f_equal. apply annStringValue_eq. by rewrite jget_clear_ids. Qed.

Lemma clear_body_text body : forall a, jget a "body" = Some body ->
  extractAnnotationText (update a "body" clearFirstTextualBodyIdentity) = extractAnnotationText a.
Proof.
  intros a Ha. unfold extractAnnotationText. rewrite jget_update_eq, Ha. cbn [fmap option_fmap option_map].
  unfold clearFirstTextualBodyIdentity. set (f := fun b => if is_textual b then Some (clear_ids b) else None).
  destruct body as [| | | |l|b]; try done.
  - rewrite clear_first_array. destruct (clear_list f l) as [l'|] eqn:E; [|done]. cbn [mbind option_bind default from_option id].
    clear Ha. revert l' E. induction l as [|v l IH]; intros l' E; [done|]. cbn [clear_list] in E.
    destruct (clear_first f v) as [v'|] eqn:Ev.
    + injection E as <-. cbn [first_text]. destruct v as [| | | |l0|b]; try done.
      * rewrite clear_first_array in Ev. destruct (clear_list f l0); [|done]. by injection Ev as <-.
      * cbn in Ev. unfold f in Ev. destruct (is_textual b); [|done]. injection Ev as <-.
        fold (value_of b) (value_of (clear_ids b)). by rewrite value_clear_ids.
    + destruct (clear_list f l) as [r|]; [|done]. injection E as <-. cbn [first_text]. by rewrite (IH r eq_refl).
  - cbn. unfold f. destruct (is_textual b); [|done]. cbn. apply value_clear_ids.
Qed.

(** ** The derived annotation *)

Lemma clone_id a clone : well_formed (JObject a) -> cloneAnnotation a = Ok clone -> clone = a.
Proof.
  intros Hw. unfold cloneAnnotation. destruct (DecodeJSON _) as [j|] eqn:E; [|done].
  apply decode_encoded in E as ->; [|done]. by intros [= <-].
Qed.

Definition derived_keys : list string := ["id"; "type"; "textGranularity"; "motivation"; "body"; "target"]%string.

Record derived (template a : obj) (id granularity canvasURI : string) (r : rect) (text : string) : Prop := {
  dv_id : jget a "id" = Some (JString id);
  dv_type : jget a "type" = Some (JString "Annotation");
  dv_granularity : jget a "textGranularity" = Some (JString granularity);
  dv_other : forall k, k ∉ derived_keys -> jget a k = jget template k;
  dv_text : TrimSpace text <> ""%string -> quiet_body (jget template "body") -> extractAnnotationText a = TrimSpace text;
  dv_canvas : TargetCanvas (default JNull (jget a "target")) = canvasURI;
  dv_box : parseXYWH (extractFragment a) = Ok r;
}.

Lemma extract_text_eq a a' : jget a "body" = jget a' "body" -> extractAnnotationText a = extractAnnotationText a'.
Proof. unfold extractAnnotationText. by intros ->. Qed.

Lemma derive_spec `{UrlParser, SvgMapper} template id granularity canvasURI r text a :
  well_formed (JObject template) -> plain_target (default JNull (jget template "target")) ->
  all_chars visible canvasURI = true -> rect_ok r ->
  deriveTextAnnotation template id granularity canvasURI r text = Ok a ->
  derived template a id granularity canvasURI r text.
Proof.
  intros Hw Hp Hc Hr. unfold deriveTextAnnotation. intros (c & Hclone & H1)%result_bind_Ok.
  apply clone_id in Hclone as ->; [|done].
  set (a1 := set_default _ "motivation" _) in *. cbn zeta in H1.
  assert (Hk1 : forall k, k ∉ derived_keys -> jget a1 k = jget template k).
  { intros k Hk. unfold derived_keys in Hk. rewrite !not_elem_of_cons in Hk. unfold a1.
    rewrite jget_set_default_ne, !jget_jset_ne by naive_solver. done. }
  assert (Hb1 : jget a1 "body" = jget template "body") by (unfold a1; by rewrite jget_set_default_ne, !jget_jset_ne).
  apply result_bind_Ok in H1 as (t & Ht & [= <-]).
  rewrite jget_jset_ne in Ht by done.
  replace (jget a1 "target") with (jget template "target") in Ht by (unfold a1; by rewrite jget_set_default_ne, !jget_jset_ne).
  destruct (targetWithFragment_spec _ _ _ _ Hp Hc Hr Ht) as (Hcanvas & Hsource & v & Hread & Hbox).
  set (a2 := jset (jset a1 "body" _) "target" (JObject t)).
  unfold clearMutableEmbeddedResourceIDs, clearMutableTargetResourceIDs.
  set (a3 := update a2 "body" _).
  assert (H3 : forall k, k <> "body"%string -> k <> "target"%string -> jget (update a3 "target" clear_target_ids) k = jget a1 k).
  { intros k Hkb Hkt. rewrite jget_update_ne by done. unfold a3. rewrite jget_update_ne by done.
    unfold a2. by rewrite !jget_jset_ne. }
  assert (Htarget : jget (update a3 "target" clear_target_ids) "target" = Some (clear_target_ids (JObject t))).
  { rewrite jget_update_eq. unfold a3. rewrite jget_update_ne by done. unfold a2. by rewrite jget_jset_eq. }
  destruct (clear_target_reads t Hsource) as [Hcl Hfr].
  constructor.
  - rewrite H3 by done. unfold a1. rewrite jget_set_default_ne by done. rewrite !jget_jset_ne by done. apply jget_jset_eq.
  - rewrite H3 by done. unfold a1. rewrite jget_set_default_ne by done. rewrite jget_jset_ne by done. apply jget_jset_eq.
  - rewrite H3 by done. unfold a1. rewrite jget_set_default_ne by done. apply jget_jset_eq.
  - intros k Hk. rewrite H3; [by apply Hk1|..]; intros ->; apply Hk; unfold derived_keys; set_solver.
  - intros Htext Hq. rewrite (extract_text_eq _ a3) by (by rewrite jget_update_ne).
    unfold a3, a2. set (body := textBodyWithValue _ _).
    rewrite (clear_body_text body) by (by rewrite jget_jset_ne, jget_jset_eq).
    rewrite (extract_text_eq _ (jset a1 "body" body)) by (by rewrite jget_jset_ne).
    unfold body. rewrite textBody_reads.
    + apply TrimSpace_idem.
    + by rewrite TrimSpace_idem.
    + by rewrite Hb1.
  - rewrite Htarget. exact (eq_trans Hcl Hcanvas).
  - unfold extractFragment. rewrite Htarget.
    change (default JNull (Some (clear_target_ids (JObject t)))) with (clear_target_ids (JObject t)).
    by rewrite Hfr, Hread.
Qed.

End DerivedFacts.
