(* ===== verification/SpatialWords.v ===== *)
(** * The drawn geometry of a line, and what must agree before a join

    internal/server/annotation_geometry.go (polygon and baseline of a line, kept in an
    SVG selector) and [structuralPropertyProjection] of annotation_actions.go.  The
    reader of the htr module and its [SplitBaselineX] are class parameters (module [LineGeometry]).  Module
    [SpatialWords]: words and the lines that own them. *)

From Stdlib Require Import ZArith Lia Ascii String.
From stdpp Require Import base list strings gmap sorting.
From S2P Require Import Prelude GoStrings GoSort Json MediaFragment LineIndex Annotations.

Module LineGeometry.
Import GoStr Json MediaFragment Annotations.
#[local] Open Scope Z_scope.

(** [ocrpage.Point], and what the code reads of [ocrpage.Line] *)
Definition point : Type := Z * Z.
Record ocrLine := { Polygon : list point; Baseline : list point }.

(** [ocrpage.ReadIIIF] then [Page.Lines]; and [ocrpage.SplitBaselineX]. *)
Class OcrPage := {
  ReadIIIF_lines : string -> option (list ocrLine);
  SplitBaselineX : list point -> Z -> list point * list point;
}.

Inductive line_geometry_err := EReadIIIF.

Definition annotationLineGeometry `{OcrPage} (annotation : obj) : result line_geometry_err ocrLine :=
  let page := jset (jset [] "type" (JString "AnnotationPage")) "items" (JArray [JObject annotation]) in
  match ReadIIIF_lines (Marshal (JObject page)) with
  | Some (line :: _) => Ok line
  | Some [] => Ok {| Polygon := []; Baseline := [] |}
  | None => Err EReadIIIF
  end.

(** ** The SVG selector *)

Definition format_points (ps : list point) : string :=
  Join (map (fun p : point => itoa p.1 ++ "," ++ itoa p.2)%string ps) " ".

Definition quoted (s : string) : string := String quote (s ++ String quote "").

Definition svg_document (polygon baseline : list point) : string :=
  ("<svg xmlns=" ++ quoted "http://www.w3.org/2000/svg" ++ ">" ++
   (if (2 <? length polygon)%nat then "<polygon points=" ++ quoted (format_points polygon) ++ "/>" else "") ++
   (if (1 <? length baseline)%nat
    then "<polyline class=" ++ quoted "baseline" ++ " points=" ++ quoted (format_points baseline) ++ "/>" else "") ++
   "</svg>")%string.

Definition is_svg_value (v : json) : bool := match v with JObject s => is_svg s | _ => false end.

(** The selectors of a target, as a list. *)
Definition target_selectors (target : obj) : list json :=
  match jget target "selector" with
  | Some (JArray l) => l
  | other => [default JNull other]
  end.

Definition replaceLineGeometry (annotation : obj) (polygon baseline : list point) : obj :=
  match jget annotation "target" with
  | Some (JObject target) =>
      let selectors := target_selectors target in
      let retained := filter (fun v => is_svg_value v = false) selectors in
      let svgSelector := match filter (fun v => is_svg_value v = true) selectors with
                         | JObject s :: _ => s
                         | _ => [("type"%string, JString "SvgSelector")]
                         end in
      let retained :=
        if (2 <? length polygon)%nat || (1 <? length baseline)%nat
        then retained ++ [JObject (jset (clear_ids svgSelector) "value" (JString (svg_document polygon baseline)))]
        else retained in
      let selector := match retained with [x] => x | _ => JArray retained end in
      jset annotation "target" (JObject (jset target "selector" selector))
  | _ => annotation
  end.

(** ** Properties that must agree *)

(** [clear_first] with a change that may fail. *)
Fixpoint clear_first_r {E} (f : obj -> result E (option obj)) (raw : json) : result E (option json) :=
  match raw with
  | JObject m => r ← f m; Ok (option_map JObject r)
  | JArray l =>
      r ← (fix go l : result E (option (list json)) := match l with
           | [] => Ok None
           | x :: l' =>
               r ← clear_first_r f x;
               match r with
               | Some x' => Ok (Some (x' :: l'))
               | None => rest ← go l'; Ok (option_map (cons x) rest)
               end
           end) l;
      Ok (option_map JArray r)
  | _ => Ok None
  end.

Definition clearFirstTextualBodyValue (raw : json) : json :=
  default raw (clear_first (fun body => if is_textual body then Some (clear_ids (jdel body "value")) else None) raw).

Definition clear_fragment_value (selector : obj) : result geometry_err (option obj) :=
  if says selector "type" "FragmentSelector" then
    let value := as_string (jget selector "value") in
    present ← MediaFragmentPixelXYWH value;
    match present with
    | None => Ok None
    | Some _ =>
        withoutXYWH ← RemoveMediaFragmentPixelXYWH value;
        let selector := if bool_decide (withoutXYWH = ""%string) then jdel selector "value"
                        else jset selector "value" (JString withoutXYWH) in
        Ok (Some (clear_ids selector))
    end
  else Ok None.

Definition clearFirstFragmentValue (raw : json) : result geometry_err json :=
  r ← clear_first_r clear_fragment_value raw; Ok (default raw r).

Definition clear_svg (v : json) : json :=
  match v with JObject s => if is_svg s then JObject (clear_ids (jdel s "value")) else v | _ => v end.

(** The target without its geometry. *)
Definition project_target (target : json) : result geometry_err json :=
  match target with
  | JString s =>
      let '(canvas, fragment, hasFragment) := Cut (TrimSpace s) "#"%char in
      if hasFragment then
        withoutXYWH ← RemoveMediaFragmentPixelXYWH fragment;
        Ok (JString (if bool_decide (withoutXYWH = ""%string) then TrimSpace canvas
                     else (TrimSpace canvas ++ "#" ++ withoutXYWH)%string))
      else Ok target
  | JObject t =>
      let t := clear_ids t in
      match jget t "selector" with
      | None => Ok (JObject t)
      | Some selector =>
          selector ← clearFirstFragmentValue selector;
          let selector := match selector with JArray l => JArray (map clear_svg l) | v => clear_svg v end in
          Ok (JObject (jset t "selector" selector))
      end
  | _ => Ok target
  end.

Definition structuralPropertyProjection (annotation : obj) : result ann_err obj :=
  projection ← cloneAnnotation annotation;
  let projection := jdel (jdel projection "id") "textGranularity" in
  let projection := update projection "body" clearFirstTextualBodyValue in
  match jget projection "target" with
  | Some target => target ← lift_target (project_target target); Ok (jset projection "target" target)
  | None => Ok projection
  end.

End LineGeometry.

(** * Words and the lines that own them

    [assignSpatialWordsToLines] of internal/server/transcription_service.go: words go
    to the line that holds their center, by a vertical sweep over the lines of each
    canvas with the range index of LineIndex.v.  The order in which Go ranges over the
    canvases is an argument. *)

Module SpatialWords.
Import GoStr GoHeap GoSort LineIndex Json MediaFragment Annotations.
#[local] Open Scope Z_scope.

Record positionedAnnotationWord := { index : nat; wx1 : Z; annotation : obj }.
Record spatialLine := { lid : string; lrect : rect; lorder : Z }.
Record spatialWord := { positioned : positionedAnnotationWord; centerX : Z; centerY : Z }.
Record lineEndEntry := { endLine : nat; endY2 : Z }.

(** ** Reading the items *)

(** [strings.ToLower(strings.TrimSpace(annStringValue(annotation, "textGranularity")))] *)
Definition granularity_of (annotation : obj) : string :=
  ToLower (TrimSpace (annStringValue annotation "textGranularity")).

Definition eligible_id (eligible : option (gset string)) (id : string) : bool :=
  match eligible with None => true | Some ids => bool_decide (id ∈ ids) end.

Definition append {A} (m : gmap string (list A)) (k : string) (x : A) : gmap string (list A) :=
  <[k := default [] (m !! k) ++ [x]]> m.

Record byCanvas := {
  linesByCanvas : gmap string (list spatialLine);
  wordsByCanvas : gmap string (list spatialWord);
}.

Definition spatial_word (position : nat) (annotation : obj) (r : rect) : spatialWord :=
  {| positioned := {| index := position; wx1 := x1 r; annotation := annotation |};
     centerX := x1 r + (x2 r - x1 r) / 2; centerY := y1 r + (y2 r - y1 r) / 2 |}.
Definition spatial_line (position : nat) (annotation : obj) (r : rect) : spatialLine :=
  {| lid := annStringValue annotation "id"; lrect := r; lorder := Z.of_nat position |}.

(** One round of the loop over the items. *)
Definition place_item (eligible : option (gset string)) (st : byCanvas) (position : nat) (value : json) : byCanvas :=
  match value with
  | JObject annotation =>
      let canvasURI := extractCanvasURI annotation in
      match parseXYWH (extractFragment annotation) with
      | Ok r =>
          if bool_decide (canvasURI = ""%string) then st else
          if bool_decide (granularity_of annotation = "line"%string) then
            if eligible_id eligible (annStringValue annotation "id")
            then {| linesByCanvas := append (linesByCanvas st) canvasURI (spatial_line position annotation r);
                    wordsByCanvas := wordsByCanvas st |}
            else st
          else if bool_decide (granularity_of annotation = "word"%string) then
            {| linesByCanvas := linesByCanvas st;
               wordsByCanvas := append (wordsByCanvas st) canvasURI (spatial_word position annotation r) |}
          else st
      | Err _ => st
      end
  | _ => st
  end.

Fixpoint place_items (eligible : option (gset string)) (st : byCanvas) (position : nat) (items : list json) : byCanvas :=
  match items with
  | [] => st
  | value :: items' => place_items eligible (place_item eligible st position value) (S position) items'
  end.

(** ** Compressed coordinates *)

(** The loop of [compactSortedInts], on the slice it rewrites in place. *)
Fixpoint compact_loop (n read write : nat) (values : list Z) : list Z * nat :=
  match n with
  | O => (values, write)
  | S n =>
      let v := at_ values read in
      if v =? at_ values (write - 1) then compact_loop n (S read) write values
      else compact_loop n (S read) (S write) (<[write := v]> values)
  end.

Definition compactSortedInts (values : list Z) : list Z :=
  if (length values <? 2)%nat then values else
  let '(values, write) := compact_loop (length values - 1) 1 1 values in take write values.

(** ** The sweep over the words of one canvas *)

Definition line_less (a b : spatialLine) : bool :=
  if y1 (lrect a) =? y1 (lrect b) then lorder a <? lorder b else y1 (lrect a) <? y1 (lrect b).
Definition word_less (a b : spatialWord) : bool :=
  if centerY a =? centerY b then (index (positioned a) <? index (positioned b))%nat else centerY a <? centerY b.

Record sweep := { coverage : lineCoverageIndex; ending : list lineEndEntry; nextLine : nat }.

Abbreviation assignment := (gmap string (list positionedAnnotationWord)).

Section canvas.
Context (coordinates : list Z) (lines : list spatialLine).

(** The positions of the coordinates from [x1] to [x2] of the line. *)
Definition left_of (line : spatialLine) : nat := SearchInts coordinates (x1 (lrect line)).
Definition right_of (line : spatialLine) : Z :=
  Z.of_nat (Search (fun i => x2 (lrect line) <? at_ coordinates i) (length coordinates)) - 1.

Definition add_line (st : sweep) (line : spatialLine) : sweep :=
  let left := left_of line in
  let right := right_of line in
  if Z.of_nat left <=? right then
    {| coverage := add (coverage st) (nextLine st) (lorder line) left (Z.to_nat right);
       ending := Push endY2 (ending st) {| endLine := nextLine st; endY2 := y2 (lrect line) |};
       nextLine := S (nextLine st) |}
  else {| coverage := coverage st; ending := ending st; nextLine := S (nextLine st) |}.

(** Lines that start at or above [y]; one of them per round, so [fuel] lines are enough. *)
Fixpoint start_lines (fuel : nat) (y : Z) (st : sweep) : sweep :=
  match fuel with
  | O => st
  | S n =>
      match lines !! nextLine st with
      | Some line => if y1 (lrect line) <=? y then start_lines n y (add_line st line) else st
      | None => st
      end
  end.

(** Lines that ended above [y]. *)
Fixpoint end_lines (fuel : nat) (y : Z) (st : sweep) : sweep :=
  match fuel with
  | O => st
  | S n =>
      match ending st with
      | top :: _ =>
          if endY2 top <? y then
            match Pop endY2 (ending st) with
            | Some (e, ending') =>
                end_lines n y {| coverage := remove (coverage st) (endLine e); ending := ending';
                                 nextLine := nextLine st |}
            | None => st
            end
          else st
      | [] => st
      end
  end.

Definition sweep_word (st : sweep) (word : spatialWord) : sweep * option string :=
  let st := start_lines (length lines) (centerY word) st in
  let st := end_lines (length (ending st)) (centerY word) st in
  let '(cov, found) := owner (coverage st) (SearchInts coordinates (centerX word)) in
  ({| coverage := cov; ending := ending st; nextLine := nextLine st |},
   line ← found; lid <$> lines !! line).

Definition give (assigned : assignment) (id : option string) (word : spatialWord) : assignment :=
  match id with Some id => append assigned id (positioned word) | None => assigned end.

Fixpoint sweep_words (st : sweep) (assigned : assignment) (words : list spatialWord) : assignment :=
  match words with
  | [] => assigned
  | word :: words' =>
      let '(st, id) := sweep_word st word in sweep_words st (give assigned id word) words'
  end.
End canvas.

Definition assign_canvas (lines : list spatialLine) (words : list spatialWord) (assigned : assignment) : assignment :=
  if (length lines =? 0)%nat || (length words =? 0)%nat then assigned else
  let coordinates := compactSortedInts (Ints (centerX <$> words)) in
  let lines := SliceStable line_less lines in
  let words := SliceStable word_less words in
  sweep_words coordinates lines
    {| coverage := newLineCoverageIndex (length coordinates) (length lines); ending := []; nextLine := 0 |}
    assigned words.

Definition by_x1 (a b : positionedAnnotationWord) : bool := wx1 a <? wx1 b.

Definition assignSpatialWordsToLines (canvases : list string) (items : list json) (eligible : option (gset string))
    : assignment :=
  let st := place_items eligible {| linesByCanvas := ∅; wordsByCanvas := ∅ |} 0 items in
  let assigned := foldl (fun assigned canvasURI =>
    assign_canvas (default [] (linesByCanvas st !! canvasURI)) (default [] (wordsByCanvas st !! canvasURI)) assigned)
    ∅ canvases in
  SliceStable by_x1 <$> assigned.

(** The orders in which Go may range over [wordsByCanvas]. *)
Definition canvas_order (items : list json) (eligible : option (gset string)) (canvases : list string) : Prop :=
  let st := place_items eligible {| linesByCanvas := ∅; wordsByCanvas := ∅ |} 0 items in
  canvases ≡ₚ (map_to_list (wordsByCanvas st)).*1.

(** ** The same, by looking at every line *)

Definition holds_center (word : spatialWord) (line : spatialLine) : bool :=
  (x1 (lrect line) <=? centerX word) && (centerX word <=? x2 (lrect line)) &&
  (y1 (lrect line) <=? centerY word) && (centerY word <=? y2 (lrect line)).

Fixpoint first_line (lines : list spatialLine) (word : spatialWord) : option spatialLine :=
  match lines with
  | [] => None
  | line :: lines' => if holds_center word line then Some line else first_line lines' word
  end.

Definition assign_canvas_ref (lines : list spatialLine) (words : list spatialWord) (assigned : assignment) : assignment :=
  foldl (fun assigned word => give assigned (lid <$> first_line lines word) word) assigned (SliceStable word_less words).

Definition assign_ref (canvases : list string) (items : list json) (eligible : option (gset string)) : assignment :=
  let st := place_items eligible {| linesByCanvas := ∅; wordsByCanvas := ∅ |} 0 items in
  let assigned := foldl (fun assigned canvasURI =>
    assign_canvas_ref (default [] (linesByCanvas st !! canvasURI)) (default [] (wordsByCanvas st !! canvasURI)) assigned)
    ∅ canvases in
  SliceStable by_x1 <$> assigned.

End SpatialWords.
