(* ===== verification/SpatialSweep.v ===== *)
(** * The sweep finds the first line that holds a word

    The invariant of the sweep of SpatialWords.v: the range index holds the lines that
    started and have not ended, and the heap of line ends exactly the active ones.  The
    sweep therefore gives each word what looking at every line gives. *)

From Stdlib Require Import ZArith Lia.
From stdpp Require Import base gmap strings list sorting.
From S2P Require Import Prelude GoSort Json LineIndex Annotations SpatialWords.

Module SpatialSweep.
Import GoHeap GoSort LineIndex Json Annotations SpatialWords.
#[local] Open Scope Z_scope.

(** ** Sorted lists by position *)

Lemma StronglySorted_lookup {A} (R : A -> A -> Prop) l i j x y :
  StronglySorted R l -> (i < j)%nat -> l !! i = Some x -> l !! j = Some y -> R x y.
Proof.
  intros Hs. revert i j. induction Hs as [|z l Hs IH Hz]; intros i j Hij Hx Hy; [done|].
  destruct j as [|j]; [lia|]. cbn in Hy. destruct i as [|i]; cbn in Hx.
  - injection Hx as ->. rewrite Forall_forall in Hz. apply Hz. by eapply list_elem_of_lookup_2.
  - apply (IH i j); [lia|done|done].
Qed.

Lemma StronglySorted_all {A} (R : A -> A -> Prop) l : (forall x y, R x y) -> StronglySorted R l.
Proof. intros H. induction l; constructor; [done|]. apply Forall_forall. auto. Qed.

Lemma at_lookup l i v : l !! i = Some v -> at_ l i = v.
Proof. unfold at_. by intros ->. Qed.

Lemma at_insert l w v i : (w < length l)%nat -> at_ (<[w := v]> l) i = if decide (i = w) then v else at_ l i.
Proof.
  intros Hw. unfold at_. destruct (decide (i = w)) as [-> |Hne].
  - by rewrite list_lookup_insert_eq.
  - by rewrite list_lookup_insert_ne.
Qed.

Lemma at_take l n i : (i < n)%nat -> at_ (take n l) i = at_ l i.
Proof. intros. unfold at_. by rewrite lookup_take_lt. Qed.

Lemma elem_at (l : list Z) x : x ∈ l -> exists i, (i < length l)%nat /\ at_ l i = x.
Proof. intros [i Hi]%list_elem_of_lookup_1. exists i. split; [by eapply lookup_lt_Some|by apply at_lookup]. Qed.

Definition ascending (l : list Z) : Prop := forall i j, (i <= j < length l)%nat -> at_ l i <= at_ l j.
Definition strict (l : list Z) : Prop := forall i j, (i < j < length l)%nat -> at_ l i < at_ l j.

Lemma Ints_ascending l : ascending (Ints l).
Proof.
  intros i j Hij. destruct (decide (i = j)) as [-> |]; [done|].
  destruct (lookup_lt_is_Some_2 (Ints l) i ltac:(lia)) as [x Hx], (lookup_lt_is_Some_2 (Ints l) j ltac:(lia)) as [y Hy].
  rewrite (at_lookup _ _ _ Hx), (at_lookup _ _ _ Hy).
  assert (Hs : StronglySorted (before Z.ltb (fun _ _ => True)) (Ints l)).
  { apply SliceStable_sorted; [intros; lia..|]. by apply StronglySorted_all. }
  destruct (StronglySorted_lookup _ _ i j x y Hs ltac:(lia) Hx Hy) as [|[]]; lia.
Qed.

(** ** Compressed coordinates *)

Lemma compact_loop_spec (l : list Z) n read write vs : ascending l ->
  (read + n = length l)%nat -> (1 <= write <= read)%nat -> length vs = length l ->
  (forall i, (read <= i)%nat -> at_ vs i = at_ l i) ->
  (forall i j, (i < j < write)%nat -> at_ vs i < at_ vs j) ->
  at_ vs (write - 1) = at_ l (read - 1) ->
  (forall i, (i < read)%nat -> exists j, (j < write)%nat /\ at_ vs j = at_ l i) ->
  let '(vs', write') := compact_loop n read write vs in
  (write' <= length vs')%nat /\ (forall i j, (i < j < write')%nat -> at_ vs' i < at_ vs' j) /\
  (forall i, (i < length l)%nat -> exists j, (j < write')%nat /\ at_ vs' j = at_ l i).
Proof.
  intros Hl. revert read write vs. induction n as [|n IH]; intros read write vs Hr Hw Hlen Hrest Hst Hlast Hm; cbn [compact_loop].
  { split_and!; [lia|done|]. intros i Hi. apply Hm. lia. }
  pose proof (Hl (read - 1)%nat read ltac:(lia)) as Hle. rewrite (Hrest read) by done.
  destruct (Z.eqb_spec (at_ l read) (at_ vs (write - 1))) as [Heq|Hne].
  - apply IH; try done; try lia.
    + intros i Hi. apply Hrest. lia.
    + replace (S read - 1)%nat with read by lia. congruence.
    + intros i Hi. destruct (decide (i = read)) as [-> |]; [exists (write - 1)%nat; split; [lia|congruence]|apply Hm; lia].
  - assert (Hw' : (write < length vs)%nat) by lia.
    assert (Hbelow : forall i, (i < write)%nat -> at_ vs i < at_ l read).
    { intros i Hi. destruct (decide (i = write - 1)%nat) as [-> |]; [lia|].
      specialize (Hst i (write - 1)%nat ltac:(lia)). lia. }
    apply IH; try lia.
    + by rewrite length_insert.
    + intros i Hi. rewrite at_insert by done. rewrite decide_False by lia. apply Hrest. lia.
    + intros i j Hij. rewrite !at_insert by done. rewrite decide_False by lia.
      destruct (decide (j = write)); [apply Hbelow; lia|apply Hst; lia].
    + rewrite at_insert by done. rewrite decide_True by lia. f_equal. lia.
    + intros i Hi. destruct (decide (i = read)) as [-> |].
      * exists write. split; [lia|]. by rewrite at_insert, decide_True.
      * destruct (Hm i ltac:(lia)) as (j & Hj & Heq). exists j. split; [lia|].
        rewrite at_insert, decide_False by lia. done.
Qed.

Lemma compact_spec l : ascending l ->
  strict (compactSortedInts l) /\ forall x, x ∈ l -> exists p, (p < length (compactSortedInts l))%nat /\ at_ (compactSortedInts l) p = x.
Proof.
  intros Hl. unfold compactSortedInts. destruct (Nat.ltb_spec (length l) 2) as [Hlt|Hge].
  { split; [intros i j Hij; lia|]. apply elem_at. }
  pose proof (compact_loop_spec l (length l - 1) 1 1 l Hl) as H.
  destruct (compact_loop _ 1 1 l) as [vs w]. destruct H as (Hw & Hs & Hm); [lia|lia|done|done|lia|done| |].
  { intros i Hi. exists 0%nat. split; [lia|]. by replace i with 0%nat by lia. }
  unfold strict. rewrite length_take, Nat.min_l by done. split.
  - intros i j Hij. rewrite !at_take by lia. by apply Hs.
  - intros x (i & Hi & <-)%elem_at. destruct (Hm i Hi) as (p & Hp & Heq). exists p. by rewrite at_take by lia.
Qed.

(** ** Searching the coordinates *)

Lemma strict_ascending l : strict l -> ascending l.
Proof. intros H i j Hij. destruct (decide (i = j)) as [-> |]; [done|]. specialize (H i j ltac:(lia)). lia. Qed.

Section canvas.
Context (coordinates : list Z) (lines : list spatialLine).
Context (Hstrict : strict coordinates).

Lemma SearchInts_spec x :
  (SearchInts coordinates x <= length coordinates)%nat /\
  forall p, (p < length coordinates)%nat -> (SearchInts coordinates x <= p)%nat <-> x <= at_ coordinates p.
Proof.
  destruct (Search_spec (fun i => x <=? at_ coordinates i) (length coordinates)) as (Hle & Hlo & Hhi).
  { intros i j Hij Hi. apply Z.leb_le. apply Z.leb_le in Hi. pose proof (strict_ascending _ Hstrict i j Hij). lia. }
  split; [done|]. intros p Hp. unfold SearchInts. split.
  - intros H. by apply Z.leb_le, Hhi.
  - intros H. destruct (Nat.lt_ge_cases p (SearchInts coordinates x)) as [Hlt|]; [|done].
    apply Hlo in Hlt. apply Z.leb_gt in Hlt. lia.
Qed.

Lemma SearchInts_at p : (p < length coordinates)%nat -> SearchInts coordinates (at_ coordinates p) = p.
Proof.
  intros Hp. destruct (SearchInts_spec (at_ coordinates p)) as [_ H].
  assert (Hle : (SearchInts coordinates (at_ coordinates p) <= p)%nat) by (apply H; [done|lia]).
  set (q := SearchInts _ _) in *. destruct (decide (q = p)) as [|Hne]; [done|].
  assert (Hq : at_ coordinates p <= at_ coordinates q) by (apply H; lia).
  specialize (Hstrict q p ltac:(lia)). lia.
Qed.

Lemma right_spec line :
  right_of coordinates line < Z.of_nat (length coordinates) /\
  forall p, (p < length coordinates)%nat -> Z.of_nat p <= right_of coordinates line <-> at_ coordinates p <= x2 (lrect line).
Proof.
  destruct (Search_spec (fun i => x2 (lrect line) <? at_ coordinates i) (length coordinates)) as (Hle & Hlo & Hhi).
  { intros i j Hij Hi. apply Z.ltb_lt. apply Z.ltb_lt in Hi. pose proof (strict_ascending _ Hstrict i j Hij). lia. }
  unfold right_of. split; [lia|]. intros p Hp. split.
  - intros H. specialize (Hlo p ltac:(lia)). by apply Z.ltb_ge in Hlo.
  - intros H. destruct (Nat.lt_ge_cases p (Search (fun i => (x2 (lrect line) <? at_ coordinates i)%Z) (length coordinates))); [lia|].
    specialize (Hhi p ltac:(lia)). apply Z.ltb_lt in Hhi. lia.
Qed.

(** ** The invariant *)

Definition reaches (line : spatialLine) : Prop := Z.of_nat (left_of coordinates line) <= right_of coordinates line.

Definition adds_are (n : nat) (adds : list added) : Prop := forall e iv, (e, iv) ∈ adds <->
  exists line, (lineIndex e < n)%nat /\ lines !! lineIndex e = Some line /\ order e = lorder line /\
    iv = (left_of coordinates line, Z.to_nat (right_of coordinates line)) /\ reaches line.

Record sweep_ok (k : nat) (y : Z) (adds : list added) (st : sweep) : Prop := {
  ok_index : index_ok (length lines) k adds (coverage st);
  ok_adds : adds_are (nextLine st) adds;
  ok_heap : heap endY2 (ending st);
  ok_nodup : NoDup (endLine <$> ending st);
  ok_ending : forall e, e ∈ ending st -> (endLine e < nextLine st)%nat /\
    is_active (active (coverage st)) (endLine e) = true /\
    exists line, lines !! endLine e = Some line /\ endY2 e = y2 (lrect line);
  ok_live : forall i, is_active (active (coverage st)) i = true -> i ∈ endLine <$> ending st;
  ok_gone : forall i line, (i < nextLine st)%nat -> lines !! i = Some line -> reaches line ->
    is_active (active (coverage st)) i = false -> y2 (lrect line) < y;
  ok_started : forall i line, (i < nextLine st)%nat -> lines !! i = Some line -> y1 (lrect line) <= y;
  ok_next : (nextLine st <= length lines)%nat;
}.

Lemma sweep_ok_mono k y y' adds st : y <= y' -> sweep_ok k y adds st -> sweep_ok k y' adds st.
Proof.
  intros Hy [? ? ? ? ? ? Hg Hs ?]. constructor; try done.
  - intros i line Hi Hl Hr Ha. specialize (Hg i line Hi Hl Hr Ha). lia.
  - intros i line Hi Hl. specialize (Hs i line Hi Hl). lia.
Qed.

(** The lines not started yet are not active. *)
Lemma not_started k y adds st i : sweep_ok k y adds st -> (nextLine st <= i)%nat ->
  is_active (active (coverage st)) i = false.
Proof.
  intros Hok Hi. destruct (is_active _ i) eqn:E; [|done]. apply (ok_live _ _ _ _ Hok) in E.
  apply list_elem_of_fmap in E as (e & -> & He). apply (ok_ending _ _ _ _ Hok) in He. lia.
Qed.

Context (k : nat) (Hk : (length coordinates <= 2 ^ k)%nat).

Lemma add_line_ok y adds st line : sweep_ok k y adds st -> lines !! nextLine st = Some line ->
  y1 (lrect line) <= y -> exists adds', sweep_ok k y adds' (add_line coordinates st line) /\
    nextLine (add_line coordinates st line) = S (nextLine st).
Proof.
  intros Hok Hline Hy. pose proof (lookup_lt_Some _ _ _ Hline) as Hlt.
  assert (Hcase : forall i, (i < S (nextLine st))%nat -> (i < nextLine st)%nat \/ i = nextLine st) by lia.
  assert (Hst : forall i l, (i < S (nextLine st))%nat -> lines !! i = Some l -> y1 (lrect l) <= y).
  { intros i l [Hi| ->]%Hcase Hl; [by eapply ok_started|congruence]. }
  unfold add_line. destruct (Z.leb_spec (Z.of_nat (left_of coordinates line)) (right_of coordinates line)) as [Hr|Hr].
  - pose proof (proj1 (right_spec line)) as Hb.
    set (e0 := {| lineIndex := nextLine st; order := lorder line |}).
    set (iv0 := (left_of coordinates line, Z.to_nat (right_of coordinates line))).
    destruct (add_ok (length lines) k adds (coverage st) (nextLine st) (lorder line)
      (left_of coordinates line) (Z.to_nat (right_of coordinates line))) as [Hix Hact]; try lia.
    { apply Hok. }
    { intros e iv He. apply (ok_adds _ _ _ _ Hok) in He as (l & Hl & _). lia. }
    exists ((e0, iv0) :: adds). split; [|done].
    assert (Hlen : length (active (coverage st)) = length lines) by apply (ok_index _ _ _ _ Hok).
    assert (Ha : forall i, is_active (active (add (coverage st) (nextLine st) (lorder line) (left_of coordinates line)
      (Z.to_nat (right_of coordinates line)))) i = if decide (i = nextLine st) then true else is_active (active (coverage st)) i).
    { intros i. rewrite Hact. apply is_active_insert. by rewrite Hlen. }
    constructor; cbn [coverage ending nextLine]; [done| | | | | | |done|lia].
    + intros e iv. rewrite elem_of_cons, (ok_adds _ _ _ _ Hok e iv). split.
      * intros [[= -> ->]|(l & ? & ?)]; [exists line; cbn; split_and!; try done; lia|exists l; split; [lia|done]].
      * intros (l & Hl & Hlk & Ho & -> & Hre). apply Hcase in Hl as [Hl|Hl]; [right; by exists l|left].
        rewrite Hl, Hline in Hlk. injection Hlk as <-. f_equal. destruct e. cbn in *. by subst.
    + by apply Push_heap, Hok.
    + rewrite Push_Permutation. cbn. constructor; [|apply Hok].
      intros (e & Hn & He)%list_elem_of_fmap. apply (ok_ending _ _ _ _ Hok) in He. lia.
    + intros e. rewrite Push_Permutation, elem_of_cons, Ha. intros [-> |He]; cbn [endLine endY2].
      * rewrite decide_True by done. split_and!; [lia|done|by exists line].
      * destruct (ok_ending _ _ _ _ Hok e He) as (H1 & H2 & H3). rewrite decide_False by lia. split_and!; [lia|done|done].
    + intros i. rewrite Ha, Push_Permutation. cbn. rewrite elem_of_cons. intros Hi.
      destruct (decide (i = nextLine st)); [by left|right]. by apply (ok_live _ _ _ _ Hok).
    + intros i l [Hi| ->]%Hcase Hl Hre; rewrite Ha; [|by rewrite decide_True].
      rewrite decide_False by lia. by eapply ok_gone.
  - exists adds. split; [|done]. constructor; cbn [coverage ending nextLine]; try apply Hok; [| | |done|lia].
    + intros e iv. rewrite (ok_adds _ _ _ _ Hok e iv). split.
      * intros (l & ? & ?). exists l. split; [lia|done].
      * intros (l & [Hl|Hl]%Hcase & Hlk & Ho & Hiv & Hre); [by exists l|].
        rewrite Hl, Hline in Hlk. injection Hlk as <-. unfold reaches in Hre. lia.
    + intros e He. destruct (ok_ending _ _ _ _ Hok e He) as (? & ? & ?). split_and!; [lia|done|done].
    + intros i l [Hi| ->]%Hcase Hl Hre Hac; [by eapply ok_gone|].
      rewrite Hline in Hl. injection Hl as <-. unfold reaches in Hre. lia.
Qed.

Lemma start_lines_ok fuel y adds st : sweep_ok k y adds st -> exists adds', sweep_ok k y adds' (start_lines coordinates lines fuel y st) /\
  ((length lines <= fuel + nextLine st)%nat -> forall line,
     lines !! nextLine (start_lines coordinates lines fuel y st) = Some line -> y < y1 (lrect line)).
Proof.
  revert adds st. induction fuel as [|n IH]; intros adds st Hok; cbn [start_lines].
  { exists adds. split; [done|]. intros Hle line Hl%lookup_lt_Some. lia. }
  destruct (lines !! nextLine st) as [line|] eqn:Hl.
  2:{ exists adds. split; [done|]. intros _ line. by rewrite Hl. }
  destruct (Z.leb_spec (y1 (lrect line)) y) as [Hle|Hgt].
  - destruct (add_line_ok y adds st line Hok Hl Hle) as (adds1 & Hok1 & Hn).
    destruct (IH adds1 _ Hok1) as (adds2 & Hok2 & Hend). exists adds2. split; [done|]. intros Hf. apply Hend. lia.
  - exists adds. split; [done|]. intros _ l. rewrite Hl. by intros [= <-].
Qed.

Lemma end_lines_ok fuel y adds st : sweep_ok k y adds st -> (length (ending st) <= fuel)%nat ->
  let st' := end_lines fuel y st in
  sweep_ok k y adds st' /\ nextLine st' = nextLine st /\ forall e, e ∈ ending st' -> y <= endY2 e.
Proof.
  revert st. induction fuel as [|n IH]; intros st Hok Hf; cbn [end_lines].
  { split_and!; [done|done|]. destruct (ending st); [|cbn in Hf; lia]. by intros e ?%elem_of_nil. }
  destruct (ending st) as [|top rest] eqn:He.
  { split_and!; [done|done|]. rewrite He. by intros e ?%elem_of_nil. }
  pose proof (ok_heap _ _ _ _ Hok) as Hh. rewrite He in Hh.
  destruct (Z.ltb_spec (endY2 top) y) as [Hlt|Hge].
  2:{ split_and!; [done|done|]. rewrite He. pose proof (heap_least endY2 _ top Hh eq_refl) as Hl.
      rewrite Forall_forall in Hl. intros e Hin. apply Hl in Hin. lia. }
  destruct (Pop_spec endY2 _ Hh ltac:(done)) as (x & rest' & HP & [= <-] & Hperm & Hh').
  rewrite HP. destruct (ok_ending _ _ _ _ Hok top) as (Ht & _ & line & Hline & Hy2); [rewrite He; apply elem_of_cons; by left|].
  assert (Hlen : length (active (coverage st)) = length lines) by apply (ok_index _ _ _ _ Hok).
  pose proof (ok_next _ _ _ _ Hok) as Hnx.
  assert (Hnd : NoDup (endLine <$> top :: rest')).
  { rewrite <-Hperm, <-He. apply Hok. } cbn in Hnd. apply NoDup_cons in Hnd as [Hni Hnd].
  assert (Hmem : forall e, e ∈ ending st <-> e = top \/ e ∈ rest').
  { intros e. by rewrite He, Hperm, elem_of_cons. }
  assert (Ha : forall i, is_active (active (remove (coverage st) (endLine top))) i =
    if decide (i = endLine top) then false else is_active (active (coverage st)) i).
  { intros i. apply is_active_insert. lia. }
  refine (IH {| coverage := remove (coverage st) (endLine top); ending := rest'; nextLine := nextLine st |} _ _);
    cbn [ending]; [|apply Permutation_length in Hperm; cbn in *; lia].
  constructor; cbn [coverage ending nextLine]; try apply Hok; try done.
  - apply remove_ok; [apply Hok|lia].
  - intros e He'. destruct (ok_ending _ _ _ _ Hok e) as (H1 & H2 & H3); [apply Hmem; by right|].
    rewrite Ha, decide_False; [done|]. intros Heq. apply Hni, list_elem_of_fmap. by exists e.
  - intros i. rewrite Ha. destruct (decide (i = endLine top)) as [|Hne]; [done|]. intros Hi.
    apply (ok_live _ _ _ _ Hok), list_elem_of_fmap in Hi as (e & -> & [-> |Hin]%Hmem); [done|].
    apply list_elem_of_fmap. by exists e.
  - intros i l Hi Hl Hre. rewrite Ha. destruct (decide (i = endLine top)) as [-> |]; [|by eapply ok_gone].
    intros _. rewrite Hline in Hl. injection Hl as <-. lia.
Qed.

(** ** One word *)

Context (Hsorted : StronglySorted (fun a b => y1 (lrect a) <= y1 (lrect b)) lines).
Context (Horder : Forall (fun line => lorder line < maxInt64) lines).

(** The line of least order among those that hold the word. *)
Definition owned_by (word : spatialWord) (id : option string) : Prop :=
  match id with
  | Some id => exists line, line ∈ lines /\ holds_center word line = true /\ lid line = id /\
      forall line', line' ∈ lines -> holds_center word line' = true -> lorder line <= lorder line'
  | None => forall line, line ∈ lines -> holds_center word line = false
  end.

Lemma holds_center_iff word line : holds_center word line = true <->
  x1 (lrect line) <= centerX word <= x2 (lrect line) /\ y1 (lrect line) <= centerY word <= y2 (lrect line).
Proof. unfold holds_center. rewrite !andb_true_iff, !Z.leb_le. lia. Qed.

(** Between the sweep's two loops and the lookup, the live entries over the word are
    the lines that hold it. *)
Lemma live_entries adds st word p : sweep_ok k (centerY word) adds st ->
  (p < length coordinates)%nat -> at_ coordinates p = centerX word ->
  (forall line, lines !! nextLine st = Some line -> centerY word < y1 (lrect line)) ->
  (forall e, e ∈ ending st -> centerY word <= endY2 e) ->
  (forall e iv, (e, iv) ∈ adds -> is_active (active (coverage st)) (lineIndex e) = true -> holds p iv ->
     exists line, lines !! lineIndex e = Some line /\ holds_center word line = true /\ order e = lorder line) /\
  (forall i line, lines !! i = Some line -> holds_center word line = true ->
     exists e iv, lineIndex e = i /\ order e = lorder line /\ (e, iv) ∈ adds /\
       is_active (active (coverage st)) (lineIndex e) = true /\ holds p iv).
Proof.
  intros Hok Hp Hat Hnext Hend. split.
  - intros e iv He Ha Hh. apply (ok_adds _ _ _ _ Hok) in He as (line & Hi & Hl & Ho & -> & Hre).
    exists line. split_and!; [done| |done]. apply holds_center_iff.
    pose proof (ok_started _ _ _ _ Hok _ _ Hi Hl) as Hy1.
    apply (ok_live _ _ _ _ Hok), list_elem_of_fmap in Ha as (e' & Heq & He').
    destruct (ok_ending _ _ _ _ Hok e' He') as (_ & _ & l & Hl' & Hy2). rewrite <-Heq, Hl in Hl'. injection Hl' as <-.
    specialize (Hend e' He'). unfold holds in Hh. cbn [fst snd] in Hh.
    assert (Hx1 : x1 (lrect line) <= at_ coordinates p) by (apply (proj2 (SearchInts_spec _)); [done|apply Hh]).
    assert (Hx2 : at_ coordinates p <= x2 (lrect line)) by (apply (proj2 (right_spec line)); [done|unfold reaches in *; lia]).
    lia.
  - intros i line Hl Hc. apply holds_center_iff in Hc as [Hx Hy].
    assert (Hi : (i < nextLine st)%nat).
    { destruct (Nat.lt_ge_cases i (nextLine st)) as [|Hge]; [done|].
      pose proof (lookup_lt_Some _ _ _ Hl) as Hlt.
      destruct (lookup_lt_is_Some_2 lines (nextLine st) ltac:(lia)) as [l' Hl']. specialize (Hnext l' Hl').
      destruct (decide (i = nextLine st)) as [-> |]; [rewrite Hl in Hl'; injection Hl' as ->; lia|].
      pose proof (StronglySorted_lookup _ _ (nextLine st) i l' line Hsorted ltac:(lia) Hl' Hl) as Hle. cbn in Hle. lia. }
    assert (Hleft : (left_of coordinates line <= p)%nat) by (apply (proj2 (SearchInts_spec _)); [done|lia]).
    assert (Hright : Z.of_nat p <= right_of coordinates line) by (apply (proj2 (right_spec line)); [done|lia]).
    exists {| lineIndex := i; order := lorder line |}, (left_of coordinates line, Z.to_nat (right_of coordinates line)).
    split_and!; [done|done| | |unfold holds; cbn [fst snd]; lia].
    + apply (ok_adds _ _ _ _ Hok). exists line. unfold reaches. cbn [lineIndex order]. split_and!; [done..|lia].
    + cbn. destruct (is_active _ i) eqn:Ha; [done|].
      pose proof (ok_gone _ _ _ _ Hok i line Hi Hl ltac:(unfold reaches; lia) Ha). lia.
Qed.

Lemma sweep_word_ok y adds st word : sweep_ok k y adds st -> y <= centerY word ->
  (exists p, (p < length coordinates)%nat /\ at_ coordinates p = centerX word) ->
  exists adds', sweep_ok k (centerY word) adds' (sweep_word coordinates lines st word).1 /\
    owned_by word (sweep_word coordinates lines st word).2.
Proof.
  intros Hok Hy (p & Hp & Hat). apply (sweep_ok_mono k y (centerY word)) in Hok; [|done].
  destruct (start_lines_ok (length lines) (centerY word) adds st Hok) as (adds1 & Hok1 & Hnext).
  unfold sweep_word. set (st1 := start_lines _ _ _ _ _) in *.
  destruct (end_lines_ok (length (ending st1)) (centerY word) adds1 st1 Hok1 ltac:(done)) as (Hok2 & Hn2 & Hend).
  set (st2 := end_lines _ _ _) in *.
  destruct (live_entries adds1 st2 word p Hok2 Hp Hat) as [Hlive1 Hlive2]; [rewrite Hn2; apply Hnext; lia|done|].
  rewrite <-Hat, (SearchInts_at p Hp).
  destruct (owner_ok (length lines) k adds1 (coverage st2) p (ok_index _ _ _ _ Hok2) ltac:(lia)) as (Hix & Hact & Hown).
  { intros e iv He. apply (ok_adds _ _ _ _ Hok2) in He as (line & _ & Hl & -> & _).
    rewrite Forall_forall in Horder. by eapply Horder, list_elem_of_lookup_2. }
  destruct (owner (coverage st2) p) as [cov found]. cbn [fst snd] in *. exists adds1. split.
  - destruct Hok2 as [? ? ? ? H5 H6 H7 ? ?]. rewrite <-Hact in H5, H6, H7. by constructor.
  - destruct found as [i|]; cbn.
    + destruct Hown as (e & iv & (He & Ha & Hh) & <- & Hleast).
      destruct (Hlive1 e iv He Ha Hh) as (line & Hl & Hc & Ho). rewrite Hl. exists line.
      split_and!; [by eapply list_elem_of_lookup_2|done|done|].
      intros line' [i' Hl']%list_elem_of_lookup_1 Hc'. destruct (Hlive2 i' line' Hl' Hc') as (e' & iv' & _ & Ho' & ? & ? & ?).
      rewrite <-Ho, <-Ho'. by apply (Hleast e' iv').
    + intros line [i Hl]%list_elem_of_lookup_1. destruct (holds_center word line) eqn:Hc; [|done].
      destruct (Hlive2 i line Hl Hc) as (e & iv & _ & _ & ? & ? & ?). by destruct (Hown e iv).
Qed.

Lemma owned_by_unique (L : list spatialLine) word id : L ≡ₚ lines ->
  StronglySorted (fun a b => lorder a < lorder b) L -> owned_by word id -> id = lid <$> first_line L word.
Proof.
  intros Hperm Hs Hown.
  assert (Hfirst : match first_line L word with
    | Some f => f ∈ L /\ holds_center word f = true /\ forall l, l ∈ L -> holds_center word l = true -> l = f \/ lorder f < lorder l
    | None => forall l, l ∈ L -> holds_center word l = false end).
  { clear Hperm Hown. induction Hs as [|l L Hs IH Hl]; [by intros l ?%elem_of_nil|]. cbn [first_line].
    destruct (holds_center word l) eqn:E.
    - split_and!; [apply elem_of_cons; by left|done|]. rewrite Forall_forall in Hl.
      intros l' [-> |Hl']%elem_of_cons _; [by left|right; by apply Hl].
    - destruct (first_line L word) as [f|].
      + destruct IH as (Hf & Hh & Hm). split_and!; [apply elem_of_cons; by right|done|].
        intros l' [-> |Hl']%elem_of_cons Hh'; [congruence|by apply Hm].
      + intros l' [-> |Hl']%elem_of_cons; [done|by apply IH]. }
  assert (HinL : forall l, l ∈ L <-> l ∈ lines) by (intros l; by rewrite Hperm). unfold owned_by in Hown.
  destruct (first_line L word) as [f|]; destruct id as [id|]; cbn; try done.
  - destruct Hown as (line & Hin & Hc & <- & Hleast), Hfirst as (Hf & Hh & Hm).
    specialize (Hleast f (proj1 (HinL f) Hf) Hh). destruct (Hm line (proj2 (HinL line) Hin) Hc) as [-> |]; [done|lia].
  - destruct Hfirst as (Hf & Hh & _). by rewrite (Hown f (proj1 (HinL f) Hf)) in Hh.
  - destruct Hown as (line & Hin & Hc & _). by rewrite (Hfirst line (proj2 (HinL line) Hin)) in Hc.
Qed.

(** ** All words of the canvas *)

Lemma sweep_words_ok (L : list spatialLine) y adds st assigned words : L ≡ₚ lines ->
  StronglySorted (fun a b => lorder a < lorder b) L ->
  sweep_ok k y adds st -> Forall (fun w => y <= centerY w) words ->
  StronglySorted (fun a b => centerY a <= centerY b) words ->
  Forall (fun w => exists p, (p < length coordinates)%nat /\ at_ coordinates p = centerX w) words ->
  sweep_words coordinates lines st assigned words =
  foldl (fun assigned word => give assigned (lid <$> first_line L word) word) assigned words.
Proof.
  intros Hperm HL Hok Hy Hs Hx. revert y adds st assigned Hok Hy. induction Hs as [|w words Hs IH Hw]; intros y adds st assigned Hok Hy; [done|].
  cbn [sweep_words foldl]. apply Forall_cons in Hy as [Hy _]. apply Forall_cons in Hx as [Hxw Hx].
  destruct (sweep_word_ok y adds st w Hok Hy Hxw) as (adds' & Hok' & Hown).
  destruct (sweep_word coordinates lines st w) as [st' id]. cbn [fst snd] in *.
  rewrite <-(owned_by_unique L w id Hperm HL Hown). by eapply IH.
Qed.

End canvas.

(** ** One canvas *)

Lemma StronglySorted_impl {A} (R R' : A -> A -> Prop) l : (forall x y, R x y -> R' x y) -> StronglySorted R l -> StronglySorted R' l.
Proof. intros H. induction 1 as [|x l Hs IH Hx]; constructor; [done|]. eapply Forall_impl; [exact Hx|]. auto. Qed.

Lemma sorted_lines L : StronglySorted (fun a b => y1 (lrect a) <= y1 (lrect b)) (SliceStable line_less L).
Proof.
  eapply StronglySorted_impl; [|apply (SliceStable_sorted line_less) with (R := fun _ _ => True)].
  - intros a b. unfold before, line_less. cbv beta. destruct (y1 (lrect a) =? y1 (lrect b)) eqn:E, (y1 (lrect b) =? y1 (lrect a)) eqn:E'; lia.
  - intros a b c. unfold line_less. destruct (y1 (lrect a) =? y1 (lrect b)) eqn:E, (y1 (lrect b) =? y1 (lrect c)) eqn:E',
      (y1 (lrect a) =? y1 (lrect c)) eqn:E''; lia.
  - intros a b c. unfold line_less. destruct (y1 (lrect a) =? y1 (lrect b)) eqn:E, (y1 (lrect b) =? y1 (lrect c)) eqn:E',
      (y1 (lrect a) =? y1 (lrect c)) eqn:E''; lia.
  - by apply StronglySorted_all.
Qed.

Lemma Nat_ltb_Z n m : (n <? m)%nat = (Z.of_nat n <? Z.of_nat m).
Proof. destruct (Nat.ltb_spec n m), (Z.ltb_spec (Z.of_nat n) (Z.of_nat m)); lia. Qed.

Lemma sorted_words W : StronglySorted (fun a b => centerY a <= centerY b) (SliceStable word_less W).
Proof.
  eapply StronglySorted_impl; [|apply (SliceStable_sorted word_less) with (R := fun _ _ => True)].
  - intros a b. unfold before, word_less. rewrite !Nat_ltb_Z. cbv beta. destruct (centerY a =? centerY b) eqn:E, (centerY b =? centerY a) eqn:E'; lia.
  - intros a b c. unfold word_less. rewrite !Nat_ltb_Z. destruct (centerY a =? centerY b) eqn:E, (centerY b =? centerY c) eqn:E',
      (centerY a =? centerY c) eqn:E''; lia.
  - intros a b c. unfold word_less. rewrite !Nat_ltb_Z. destruct (centerY a =? centerY b) eqn:E, (centerY b =? centerY c) eqn:E',
      (centerY a =? centerY c) eqn:E''; lia.
  - by apply StronglySorted_all.
Qed.

Lemma empty_sweep_ok coordinates lines k y : index_ok (length lines) k [] (newLineCoverageIndex (length coordinates) (length lines)) ->
  sweep_ok coordinates lines k y []
    {| coverage := newLineCoverageIndex (length coordinates) (length lines); ending := []; nextLine := 0 |}.
Proof.
  intros Hix. constructor; cbn [coverage ending nextLine]; try done; try lia.
  - intros e iv. split; [by intros ?%elem_of_nil|]. intros (l & ? & _). lia.
  - apply NoDup_nil_2.
  - by intros e ?%elem_of_nil.
  - intros i. cbn [newLineCoverageIndex active]. unfold is_active.
    destruct (replicate (length lines) false !! i) as [b|] eqn:E; [|done].
    apply lookup_replicate in E as [-> _]. done.
Qed.

(** Lines of increasing item positions. *)
Definition in_order (L : list spatialLine) : Prop :=
  StronglySorted (fun a b => lorder a < lorder b) L /\ Forall (fun line => lorder line < maxInt64) L.

Lemma assign_canvas_eq L W assigned : in_order L -> assign_canvas L W assigned = assign_canvas_ref L W assigned.
Proof.
  intros [HL Hmax]. unfold assign_canvas, assign_canvas_ref.
  destruct (Nat.eqb_spec (length L) 0) as [E|E]; cbn [orb].
  { destruct L; [|done]. cbn [first_line]. cbn. induction (SliceStable word_less W) as [|w ws IH]; [done|apply IH]. }
  destruct (Nat.eqb_spec (length W) 0) as [E'|E']; [by destruct W|].
  destruct (compact_spec (Ints (centerX <$> W)) (Ints_ascending _)) as [Hst Hin].
  set (cs := compactSortedInts _) in *.
  destruct (new_index_ok (length cs) (length (SliceStable line_less L))) as (k & Hix & Hk).
  assert (Hpl : L ≡ₚ SliceStable line_less L) by (by rewrite SliceStable_Permutation).
  destruct (SliceStable word_less W) as [|w ws] eqn:EW; [done|]. rewrite <-EW.
  assert (Hwy : Forall (fun w' => centerY w <= centerY w') (SliceStable word_less W)).
  { pose proof (sorted_words W) as Hs. rewrite EW in Hs |- *. apply StronglySorted_inv in Hs as [_ Hs].
    constructor; [lia|done]. }
  eapply (sweep_words_ok cs (SliceStable line_less L) Hst k Hk); [apply sorted_lines| |done|done| |exact Hwy|apply sorted_words|].
  - by rewrite <-Hpl.
  - by apply empty_sweep_ok.
  - rewrite SliceStable_Permutation. apply Forall_forall. intros w' Hw'. apply Hin.
    unfold Ints. rewrite SliceStable_Permutation. apply list_elem_of_fmap. by exists w'.
Qed.

(** ** The page *)

Definition place_ok (position : nat) (st : byCanvas) : Prop :=
  forall c L, linesByCanvas st !! c = Some L ->
    StronglySorted (fun a b => lorder a < lorder b) L /\ Forall (fun line => lorder line < Z.of_nat position) L.

Lemma StronglySorted_snoc {A} (R : A -> A -> Prop) l x :
  StronglySorted R l -> Forall (fun y => R y x) l -> StronglySorted R (l ++ [x]).
Proof.
  induction 1 as [|y l Hs IH Hy]; intros Hx; cbn; [by repeat constructor|].
  apply Forall_cons in Hx as [? ?]. constructor; [by apply IH|]. apply Forall_app. by repeat constructor.
Qed.

Lemma place_item_ok eligible st position value : place_ok position st -> place_ok (S position) (place_item eligible st position value).
Proof.
  intros Hst. assert (Hold : place_ok (S position) st).
  { intros c L HL. destruct (Hst c L HL) as [? Hf]. split; [done|]. eapply Forall_impl; [exact Hf|]. intros l Hl. cbn in *. lia. }
  unfold place_item. destruct value as [| | | | |annotation]; try done.
  destruct (parseXYWH _) as [r|]; [|done]. destruct (bool_decide _); [done|].
  destruct (bool_decide _); [|by destruct (bool_decide _)]. destruct (eligible_id _ _); [|done].
  intros c L. cbn [linesByCanvas]. unfold append. set (cv := extractCanvasURI annotation).
  destruct (decide (c = cv)) as [-> |Hne]; [|rewrite lookup_insert_ne by done; apply Hold].
  rewrite lookup_insert_eq. intros [= <-].
  assert (Hd : StronglySorted (fun a b => lorder a < lorder b) (default [] (linesByCanvas st !! cv)) /\
    Forall (fun line => lorder line < Z.of_nat position) (default [] (linesByCanvas st !! cv))).
  { destruct (linesByCanvas st !! cv) as [L|] eqn:E; [by apply (Hst cv)|split; constructor]. }
  destruct Hd as [Hs Hf]. split.
  - apply StronglySorted_snoc; [done|]. eapply Forall_impl; [exact Hf|]. intros l Hl. cbn in *. lia.
  - apply Forall_app. split; [eapply Forall_impl; [exact Hf|]; intros l Hl; cbn in *; lia|]. repeat constructor. cbn. lia.
Qed.

Lemma place_items_ok eligible items st position : place_ok position st ->
  place_ok (position + length items) (place_items eligible st position items).
Proof.
  revert st position. induction items as [|v items IH]; intros st position Hst; cbn [place_items length].
  { by rewrite Nat.add_0_r. }
  replace (position + S (length items))%nat with (S position + length items)%nat by lia. by apply IH, place_item_ok.
Qed.

Lemma assign_eq canvases items eligible : Z.of_nat (length items) <= maxInt64 ->
  assignSpatialWordsToLines canvases items eligible = assign_ref canvases items eligible.
Proof.
  intros Hlen. unfold assignSpatialWordsToLines, assign_ref.
  set (st := place_items eligible _ 0 items).
  assert (Hst : place_ok (0 + length items) st) by (by apply place_items_ok).
  f_equal. generalize (∅ : assignment). induction canvases as [|c cs IH]; intros assigned; [done|]. cbn [foldl].
  rewrite assign_canvas_eq; [apply IH|].
  destruct (linesByCanvas st !! c) as [L|] eqn:E; cbn [default]; [|split; constructor].
  destruct (Hst c L E) as [Hs Hf]. split; [done|]. eapply Forall_impl; [exact Hf|]. intros l Hl. cbn in *. lia.
Qed.

End SpatialSweep.
