(* ===== verification/SpatialOwners.v ===== *)
(** * Who owns a word

    What [assignSpatialWordsToLines] returns, in terms of the items: a word is listed
    under the identity of the first line of its canvas that holds its center, once, and
    the words of a line come from left to right. *)

From Stdlib Require Import ZArith Lia.
From stdpp Require Import base gmap strings list sorting.
From S2P Require Import Prelude GoStrings GoSort LineIndex Json MediaFragment Annotations SpatialWords SpatialSweep.

Module SpatialOwners.
Import GoStr GoSort LineIndex Json MediaFragment Annotations SpatialWords SpatialSweep.
#[local] Open Scope Z_scope.

(** ** The lines and words of a canvas, in item order *)

Definition item_geometry (value : json) : option (string * obj * rect) :=
  match value with
  | JObject annotation =>
      match parseXYWH (extractFragment annotation) with
      | Ok r => if bool_decide (extractCanvasURI annotation = ""%string) then None
                else Some (extractCanvasURI annotation, annotation, r)
      | Err _ => None
      end
  | _ => None
  end.

Definition item_line (eligible : option (gset string)) (position : nat) (value : json) : option (string * spatialLine) :=
  '(c, a, r) ← item_geometry value;
  if bool_decide (granularity_of a = "line"%string) && eligible_id eligible (annStringValue a "id")
  then Some (c, spatial_line position a r) else None.

Definition item_word (position : nat) (value : json) : option (string * spatialWord) :=
  '(c, a, r) ← item_geometry value;
  if bool_decide (granularity_of a = "word"%string) then Some (c, spatial_word position a r) else None.

Fixpoint on_canvas {A} (f : nat -> json -> option (string * A)) (c : string) (position : nat) (items : list json) : list A :=
  match items with
  | [] => []
  | v :: items' =>
      match f position v with
      | Some (c', x) => if bool_decide (c' = c) then x :: on_canvas f c (S position) items' else on_canvas f c (S position) items'
      | None => on_canvas f c (S position) items'
      end
  end.

Definition lines_on (eligible : option (gset string)) (c : string) (items : list json) : list spatialLine :=
  on_canvas (item_line eligible) c 0 items.
Definition words_on (c : string) (items : list json) : list spatialWord := on_canvas item_word c 0 items.

Lemma elem_on_canvas {A} (f : nat -> json -> option (string * A)) c position items x :
  x ∈ on_canvas f c position items <-> exists i v, items !! i = Some v /\ f (position + i)%nat v = Some (c, x).
Proof.
  revert position. induction items as [|v items IH]; intros position; cbn [on_canvas].
  { split; [by intros ?%elem_of_nil|]. by intros (i & v & ? & _). }
  assert (Hsplit : (exists i v', (v :: items) !! i = Some v' /\ f (position + i)%nat v' = Some (c, x)) <->
    f position v = Some (c, x) \/ x ∈ on_canvas f c (S position) items).
  { rewrite IH. split.
    - intros ([|i] & v' & Hv & Hf); cbn in Hv.
      + injection Hv as ->. left. by rewrite Nat.add_0_r in Hf.
      + right. exists i, v'. split; [done|]. by rewrite <-Nat.add_succ_comm in Hf.
    - intros [Hf|(i & v' & Hv & Hf)].
      + exists 0%nat, v. split; [done|]. by rewrite Nat.add_0_r.
      + exists (S i), v'. split; [done|]. by rewrite <-Nat.add_succ_comm. }
  rewrite Hsplit. destruct (f position v) as [[c' y]|]; [|split; [by right|by intros [|]]].
  case_bool_decide as Hc; [rewrite elem_of_cons; subst|]; split.
  - intros [-> |]; [by left|by right].
  - intros [[= ->]|]; [by left|by right].
  - by right.
  - intros [[= -> ->]|]; [done|done].
Qed.

Lemma app_default {A} (m : gmap string (list A)) k k' x :
  default [] (append m k x !! k') = default [] (m !! k') ++ (if bool_decide (k = k') then [x] else []).
Proof.
  unfold append. case_bool_decide as Hk; [subst; by rewrite lookup_insert_eq|].
  by rewrite lookup_insert_ne, app_nil_r.
Qed.

Lemma place_items_canvas eligible st position items c :
  default [] (linesByCanvas (place_items eligible st position items) !! c) =
    default [] (linesByCanvas st !! c) ++ on_canvas (item_line eligible) c position items /\
  default [] (wordsByCanvas (place_items eligible st position items) !! c) =
    default [] (wordsByCanvas st !! c) ++ on_canvas item_word c position items.
Proof.
  revert st position. induction items as [|v items IH]; intros st position; cbn [place_items on_canvas].
  { by rewrite !app_nil_r. }
  destruct (IH (place_item eligible st position v) (S position)) as [-> ->]. clear IH.
  unfold place_item, item_line, item_word, item_geometry. destruct v as [| | | | |a]; try done.
  destruct (parseXYWH (extractFragment a)) as [r|]; [|done].
  destruct (bool_decide (extractCanvasURI a = _)); [done|]. cbn [mbind option_bind].
  destruct (bool_decide (granularity_of a = "line"%string)) eqn:El; cbn [andb].
  - replace (bool_decide (granularity_of a = "word"%string)) with false.
    2:{ apply bool_decide_eq_true in El. rewrite El. done. }
    destruct (eligible_id eligible (annStringValue a "id")); [|done]. cbn [linesByCanvas wordsByCanvas].
    rewrite app_default. split; [|done]. destruct (bool_decide (_ = c)); by rewrite <-?app_assoc, ?app_nil_r.
  - destruct (bool_decide (granularity_of a = "word"%string)); [|done]. cbn [linesByCanvas wordsByCanvas].
    rewrite app_default. split; [done|]. destruct (bool_decide (_ = c)); by rewrite <-?app_assoc, ?app_nil_r.
Qed.

Definition placed (eligible : option (gset string)) (items : list json) : byCanvas :=
  place_items eligible {| linesByCanvas := ∅; wordsByCanvas := ∅ |} 0 items.

Lemma placed_lines eligible items c : default [] (linesByCanvas (placed eligible items) !! c) = lines_on eligible c items.
Proof. unfold placed. rewrite (proj1 (place_items_canvas _ _ _ _ _)). cbn. by rewrite lookup_empty. Qed.
Lemma placed_words eligible items c : default [] (wordsByCanvas (placed eligible items) !! c) = words_on c items.
Proof. unfold placed. rewrite (proj2 (place_items_canvas _ _ _ _ _)). cbn. by rewrite lookup_empty. Qed.

(** ** What is given to a line *)

Definition listed (assigned : assignment) (id : string) : list positionedAnnotationWord := default [] (assigned !! id).

Definition goes_to (L : list spatialLine) (id : string) (w : spatialWord) : bool :=
  bool_decide (lid <$> first_line L w = Some id).

Lemma give_listed assigned oid w id :
  listed (give assigned oid w) id = listed assigned id ++ (if bool_decide (oid = Some id) then [positioned w] else []).
Proof.
  unfold listed. destruct oid as [id'|]; cbn [give]; [|by rewrite app_nil_r].
  rewrite (app_default assigned id' id). by do 2 case_bool_decide; naive_solver.
Qed.

Lemma fold_give L words assigned id :
  listed (foldl (fun assigned word => give assigned (lid <$> first_line L word) word) assigned words) id =
  listed assigned id ++ (positioned <$> filter (fun w => goes_to L id w = true) words).
Proof.
  revert assigned. induction words as [|w words IH]; intros assigned; cbn [foldl].
  { by rewrite app_nil_r. }
  rewrite IH, give_listed, filter_cons.
  change (bool_decide (lid <$> first_line L w = Some id)) with (goes_to L id w).
  destruct (goes_to L id w); [rewrite decide_True by done|rewrite decide_False by done]; cbn [fmap list_fmap].
  - by rewrite <-app_assoc.
  - by rewrite app_nil_r.
Qed.

(** The words of a canvas that go to a line, up to order. *)
Definition given (eligible : option (gset string)) (items : list json) (id c : string) : list positionedAnnotationWord :=
  positioned <$> filter (fun w => goes_to (lines_on eligible c items) id w = true) (words_on c items).

Lemma assign_ref_listed canvases items eligible id :
  listed (assign_ref canvases items eligible) id ≡ₚ mjoin (given eligible items id <$> canvases).
Proof.
  unfold assign_ref. fold (placed eligible items). set (f := foldl _ ∅ canvases).
  assert (Hf : listed f id ≡ₚ mjoin (given eligible items id <$> canvases)).
  { unfold f. clear f. assert (H : forall assigned, listed (foldl (fun assigned canvasURI =>
      assign_canvas_ref (default [] (linesByCanvas (placed eligible items) !! canvasURI))
        (default [] (wordsByCanvas (placed eligible items) !! canvasURI)) assigned) assigned canvases) id ≡ₚ
      listed assigned id ++ mjoin (given eligible items id <$> canvases)).
    { induction canvases as [|c cs IH]; intros assigned; cbn [foldl fmap list_fmap]; [by rewrite app_nil_r|].
      rewrite IH. unfold assign_canvas_ref. rewrite fold_give, placed_lines, placed_words. cbn.
      rewrite <-app_assoc. apply Permutation_app_head, Permutation_app_tail. unfold given. by rewrite SliceStable_Permutation. }
    by rewrite H. }
  unfold listed at 1. rewrite lookup_fmap. unfold listed in Hf. destruct (f !! id) as [l|] eqn:E; cbn in *; [|done].
  by rewrite SliceStable_Permutation.
Qed.

(** ** The words of a line are distinct, from left to right *)

Lemma listed_sorted canvases items eligible id :
  StronglySorted (fun a b => wx1 a <= wx1 b) (listed (assign_ref canvases items eligible) id).
Proof.
  unfold assign_ref, listed. rewrite lookup_fmap. destruct (_ !! id) as [l|]; cbn; [|constructor].
  eapply StronglySorted_impl; [|apply (SliceStable_sorted by_x1) with (R := fun _ _ => True)].
  - intros a b. unfold before, by_x1. cbv beta. lia.
  - intros a b c. unfold by_x1. lia.
  - intros a b c. unfold by_x1. lia.
  - by apply StronglySorted_all.
Qed.

Lemma item_word_index i v c w : item_word i v = Some (c, w) -> index (positioned w) = i.
Proof.
  unfold item_word. destruct (item_geometry v) as [[[c' a] r]|]; [|done]. cbn.
  case_bool_decide; [|done]. by intros [= <- <-].
Qed.

Lemma words_on_index c items w : w ∈ words_on c items ->
  exists v, items !! index (positioned w) = Some v /\ item_word (index (positioned w)) v = Some (c, w).
Proof. intros (i & v & Hv & Hw)%elem_on_canvas. pose proof (item_word_index _ _ _ _ Hw) as ->. by exists v. Qed.

Lemma words_on_NoDup c items : NoDup ((fun w => index (positioned w)) <$> words_on c items).
Proof.
  unfold words_on. generalize 0%nat. induction items as [|v items IH]; intros position; cbn [on_canvas]; [apply NoDup_nil_2|].
  destruct (item_word position v) as [[c' w]|] eqn:E; [|apply IH]. case_bool_decide; [|apply IH].
  cbn. constructor; [|apply IH]. rewrite (item_word_index _ _ _ _ E).
  intros (w' & Hp & (i & v' & _ & Hw')%elem_on_canvas)%list_elem_of_fmap. apply item_word_index in Hw'. lia.
Qed.

Lemma elem_of_given eligible items id c p : p ∈ given eligible items id c <->
  exists w, w ∈ words_on c items /\ goes_to (lines_on eligible c items) id w = true /\ positioned w = p.
Proof.
  unfold given. rewrite list_elem_of_fmap. setoid_rewrite list_elem_of_filter. naive_solver.
Qed.

Lemma elem_of_mjoin_given eligible items id p canvases : p ∈ mjoin (given eligible items id <$> canvases) <->
  exists c, c ∈ canvases /\ p ∈ given eligible items id c.
Proof.
  rewrite list_elem_of_join. split.
  - intros (l & Hp & (c & -> & Hc)%list_elem_of_fmap). by exists c.
  - intros (c & Hc & Hp). exists (given eligible items id c). split; [done|]. apply list_elem_of_fmap. by exists c.
Qed.

Lemma given_NoDup eligible items id canvases : NoDup canvases ->
  NoDup (index <$> mjoin (given eligible items id <$> canvases)).
Proof.
  induction 1 as [|c cs Hc Hnd IH]; cbn; [apply NoDup_nil_2|]. rewrite fmap_app. apply NoDup_app. split_and!; [| |done].
  - unfold given. rewrite <-list_fmap_compose. eapply sublist_NoDup; [apply (words_on_NoDup c items)|].
    change (index ∘ positioned) with (fun w => index (positioned w)).
    induction (words_on c items) as [|w ws IHw]; [constructor|]. rewrite filter_cons.
    destruct (decide _); cbn; by constructor.
  - intros i (p & -> & (w & Hw & _ & <-)%elem_of_given)%list_elem_of_fmap
      (p' & Heq & (c' & Hc' & (w' & Hw' & _ & <-)%elem_of_given)%elem_of_mjoin_given)%list_elem_of_fmap.
    apply words_on_index in Hw as (v & Hv & Hw), Hw' as (v' & Hv' & Hw').
    rewrite <-Heq, Hv in Hv'. injection Hv' as <-. rewrite <-Heq, Hw in Hw'. injection Hw' as -> _. done.
Qed.

Lemma canvas_order_NoDup items eligible canvases : canvas_order items eligible canvases ->
  NoDup canvases /\ forall c w, w ∈ words_on c items -> c ∈ canvases.
Proof.
  unfold canvas_order. fold (placed eligible items). intros Hp. split.
  - rewrite Hp. apply NoDup_fst_map_to_list.
  - intros c w Hw. rewrite Hp. rewrite <-(placed_words eligible items c) in Hw.
    destruct (wordsByCanvas (placed eligible items) !! c) as [ws|] eqn:E; [|by apply elem_of_nil in Hw].
    apply list_elem_of_fmap. exists (c, ws). split; [done|]. by apply elem_of_map_to_list.
Qed.

(** ** The contract of the assignment *)

(** The word item at position [i] belongs to the line identity [id]. *)
Definition belongs (eligible : option (gset string)) (items : list json) (p : positionedAnnotationWord) (id : string) : Prop :=
  exists v c w line, items !! index p = Some v /\ item_word (index p) v = Some (c, w) /\ positioned w = p /\
    first_line (lines_on eligible c items) w = Some line /\ lid line = id.

Lemma listed_belongs canvases items eligible p id : canvas_order items eligible canvases ->
  p ∈ listed (assign_ref canvases items eligible) id <-> belongs eligible items p id.
Proof.
  intros [_ Hall]%canvas_order_NoDup. rewrite assign_ref_listed, elem_of_mjoin_given. setoid_rewrite elem_of_given. unfold belongs. split.
  - intros (c & _ & w & Hw & Hg & <-). apply words_on_index in Hw as (v & Hv & Hw).
    unfold goes_to in Hg. apply bool_decide_eq_true in Hg. destruct (first_line _ w) as [line|] eqn:E; [|done].
    injection Hg as <-. by exists v, c, w, line.
  - intros (v & c & w & line & Hv & Hw & <- & Hf & <-). assert (Hin : w ∈ words_on c items).
    { apply elem_on_canvas. by exists (index (positioned w)), v. }
    exists c. split; [by eapply Hall|]. exists w. split_and!; [done| |done]. unfold goes_to. rewrite Hf. by apply bool_decide_eq_true.
Qed.

Lemma listed_NoDup canvases items eligible id : canvas_order items eligible canvases ->
  NoDup (index <$> listed (assign_ref canvases items eligible) id).
Proof. intros [Hnd _]%canvas_order_NoDup. rewrite assign_ref_listed. by apply given_NoDup. Qed.

Lemma belongs_unique eligible items p p' id id' : belongs eligible items p id -> belongs eligible items p' id' ->
  index p = index p' -> p = p' /\ id = id'.
Proof.
  intros (v & c & w & line & Hv & Hw & <- & Hf & <-) (v' & c' & w' & line' & Hv' & Hw' & <- & Hf' & <-) Heq.
  rewrite <-Heq, Hv in Hv'. injection Hv' as <-. rewrite <-Heq, Hw in Hw'. injection Hw' as <- <-.
  rewrite Hf in Hf'. by injection Hf' as ->.
Qed.

End SpatialOwners.
