(* ===== verification/Drafts.v ===== *)
(** * Structural operations on a page draft

    internal/server/annotation_page_transforms.go: splitting lines into words and into
    two, joining lines and words.  A draft is decoded, transformed and encoded; a failed
    operation discards it, so the operations return the new draft.  The annotations a Go
    operation holds are the maps inside the draft's items: here they are named by their
    index and changed there. *)

From Stdlib Require Import ZArith Lia Ascii String.
From stdpp Require Import base gmap strings list.
From S2P Require Import Prelude GoStrings GoSort Json JsonParse MediaFragment Presentation Annotations SpatialWords.

Module Drafts.
Import GoStr GoSort Json JsonParse MediaFragment Presentation Annotations LineGeometry SpatialWords.
#[local] Open Scope Z_scope.

Inductive draft_err :=
| EPage (e : page_err) | EAnnotation (e : ann_err) | EGeometryReader
| EItemsArray | EIDRequired | ENotFound | EGranularity
| ETooFewIDs | ERepeatedID
| EEmptyWord | ENoWords | ETooManyWords | ELongWord | ENarrow | EPageFull | EPageSize
| ECollision | EGeneratedTwice | ENoLines
| EOneWord | EShort | EUnsynchronized | EMixedViews | EConflictingProperties | EJoinedID
| ENotOneToken | EPartialLine | EOwnership.

Definition lift_page {A} (r : result page_err A) : result draft_err A :=
  match r with Ok a => Ok a | Err e => Err (EPage e) end.
Definition lift_ann {A} (r : result ann_err A) : result draft_err A :=
  match r with Ok a => Ok a | Err e => Err (EAnnotation e) end.
Definition lift_line {A} (r : result line_geometry_err A) : result draft_err A :=
  match r with Ok a => Ok a | Err _ => Err EGeometryReader end.

Record annotationDraft := {
  identity : PageIdentity;
  pageID : string;
  document : obj;
  items : list json;
  rawBytes : Z;
  indexByID : gmap string nat;
}.

Definition with_items (draft : annotationDraft) (l : list json) : annotationDraft :=
  {| identity := identity draft; pageID := pageID draft; document := document draft;
     items := l; rawBytes := rawBytes draft; indexByID := indexByID draft |}.

Record locatedAnnotation := { lannotation : obj; lindex : nat; lbox : rect }.

(** The order in which Go ranges over the canvases of the items. *)
Class MapRange := range_canvases : list json -> list string.

(** [strings.TrimSpace(annStringValue(annotation, "id"))], empty for what is not a map. *)
Definition trimmed_id (value : json) : string :=
  match value with JObject a => TrimSpace (annStringValue a "id") | _ => "" end.

(** The last item with an identity. *)
Fixpoint index_ids (keep : json -> bool) (position : nat) (l : list json) (m : gmap string nat) : gmap string nat :=
  match l with
  | [] => m
  | v :: l' => index_ids keep (S position) l' (if keep v then <[trimmed_id v := position]> m else m)
  end.

Definition is_map (v : json) : bool := match v with JObject _ => true | _ => false end.

(** [draft.reindex] *)
Definition reindex (draft : annotationDraft) : annotationDraft :=
  {| identity := identity draft; pageID := pageID draft; document := document draft; items := items draft;
     rawBytes := rawBytes draft;
     indexByID := index_ids (fun v => negb (bool_decide (trimmed_id v = ""%string))) 0 (items draft) ∅ |}.

(** ** Finding annotations *)

Definition granular (value : json) (granularity : string) : option obj :=
  match value with
  | JObject a => if says a "textGranularity" granularity then Some a else None
  | _ => None
  end.

Definition annotation (draft : annotationDraft) (id granularity : string) : result draft_err locatedAnnotation :=
  let id := TrimSpace id in
  if bool_decide (id = ""%string) then Err EIDRequired else
  match indexByID draft !! id with
  | None => Err ENotFound
  | Some index =>
      match items draft !! index with
      | Some (JObject a) =>
          if bool_decide (granularity_of a = granularity) then
            r ← lift_ann (parseXYWH (extractFragment a));
            Ok {| lannotation := a; lindex := index; lbox := r |}
          else Err EGranularity
      | _ => Err ENotFound
      end
  end.

Definition located_less (a b : locatedAnnotation) : bool :=
  let centerI := y1 (lbox a) + y2 (lbox a) in
  let centerJ := y1 (lbox b) + y2 (lbox b) in
  if negb (centerI =? centerJ) then centerI <? centerJ
  else if negb (x1 (lbox a) =? x1 (lbox b)) then x1 (lbox a) <? x1 (lbox b)
  else (lindex a <? lindex b)%nat.
Definition sortLocatedAnnotations (values : list locatedAnnotation) : list locatedAnnotation :=
  SliceStable located_less values.

Definition within_line_less (a b : locatedAnnotation) : bool :=
  if negb (x1 (lbox a) =? x1 (lbox b)) then x1 (lbox a) <? x1 (lbox b)
  else if negb (y1 (lbox a) =? y1 (lbox b)) then y1 (lbox a) <? y1 (lbox b)
  else (lindex a <? lindex b)%nat.
Definition sortLocatedWordsWithinLine (words : list locatedAnnotation) : list locatedAnnotation :=
  SliceStable within_line_less words.

(** The words with readable geometry, from left to right. *)
Definition locate_word (word : positionedAnnotationWord) : option locatedAnnotation :=
  match parseXYWH (extractFragment (SpatialWords.annotation word)) with
  | Ok r => Some {| lannotation := SpatialWords.annotation word; lindex := index word; lbox := r |}
  | Err _ => None
  end.
Definition locatedWords (positioned : list positionedAnnotationWord) : list locatedAnnotation :=
  sortLocatedWordsWithinLine (omap locate_word positioned).

Section ranges.
Context `{!MapRange}.

Definition assigned_words (l : list json) : assignment := assignSpatialWordsToLines (range_canvases l) l None.

Definition wordsForLine (draft : annotationDraft) (lineID : string) : list locatedAnnotation :=
  locatedWords (default [] (assigned_words (items draft) !! TrimSpace lineID)).

(** *** Reading order of words *)

Record wordOrder := { w_index : nat; w_line : nat; w_x : Z; w_y : Z }.

Fixpoint located_lines (position : nat) (l : list json) : list locatedAnnotation :=
  match l with
  | [] => []
  | v :: l' =>
      match granular v "line" with
      | Some a =>
          match parseXYWH (extractFragment a) with
          | Ok r => {| lannotation := a; lindex := position; lbox := r |} :: located_lines (S position) l'
          | Err _ => located_lines (S position) l'
          end
      | None => located_lines (S position) l'
      end
  end.

Definition order_words (rank : nat) (words : list positionedAnnotationWord) (orders : gmap string wordOrder)
    : gmap string wordOrder :=
  foldl (fun orders word =>
    match parseXYWH (extractFragment (SpatialWords.annotation word)) with
    | Ok r => <[annStringValue (SpatialWords.annotation word) "id" :=
                {| w_index := index word; w_line := rank; w_x := x1 r; w_y := y1 r |}]> orders
    | Err _ => orders
    end) orders words.

Fixpoint order_lines (assigned : assignment) (rank : nat) (lines : list locatedAnnotation) (orders : gmap string wordOrder)
    : gmap string wordOrder :=
  match lines with
  | [] => orders
  | line :: lines' =>
      order_lines assigned (S rank) lines'
        (order_words rank (default [] (assigned !! annStringValue (lannotation line) "id")) orders)
  end.

Definition word_order_less (a b : wordOrder) : bool :=
  if negb (w_line a =? w_line b)%nat then (w_line a <? w_line b)%nat
  else if negb (w_x a =? w_x b) then w_x a <? w_x b
  else if negb (w_y a =? w_y b) then w_y a <? w_y b
  else (w_index a <? w_index b)%nat.

Definition reading_less (orders : gmap string wordOrder) (a b : locatedAnnotation) : bool :=
  match orders !! annStringValue (lannotation a) "id", orders !! annStringValue (lannotation b) "id" with
  | Some oa, Some ob => word_order_less oa ob
  | Some _, None => true
  | None, Some _ => false
  | None, None =>
      let centerI := y1 (lbox a) + y2 (lbox a) in
      let centerJ := y1 (lbox b) + y2 (lbox b) in
      if negb (centerI =? centerJ) then centerI <? centerJ
      else if negb (x1 (lbox a) =? x1 (lbox b)) then x1 (lbox a) <? x1 (lbox b)
      else if negb (y1 (lbox a) =? y1 (lbox b)) then y1 (lbox a) <? y1 (lbox b)
      else (lindex a <? lindex b)%nat
  end.

Definition sortWordsInReadingOrder (draft : annotationDraft) (values : list locatedAnnotation) : list locatedAnnotation :=
  let lines := sortLocatedAnnotations (located_lines 0 (items draft)) in
  let orders := order_lines (assigned_words (items draft)) 0 lines ∅ in
  SliceStable (reading_less orders) values.

Fixpoint locate_all (draft : annotationDraft) (granularity : string) (seen ids : list string)
    : result draft_err (list locatedAnnotation) :=
  match ids with
  | [] => Ok []
  | id :: ids' =>
      let id := TrimSpace id in
      if bool_decide (id ∈ seen) then Err ERepeatedID else
      a ← annotation draft id granularity;
      rest ← locate_all draft granularity (id :: seen) ids';
      Ok (a :: rest)
  end.

Definition annotations (draft : annotationDraft) (ids : list string) (granularity : string)
    : result draft_err (list locatedAnnotation) :=
  if (length ids <? 2)%nat then Err ETooFewIDs else
  located ← locate_all draft granularity [] ids;
  Ok (if bool_decide (granularity = "word"%string) then sortWordsInReadingOrder draft located
      else sortLocatedAnnotations located).
End ranges.

(** ** Texts, boxes and items *)

Definition normalizedAnnotationTexts (values : list locatedAnnotation) : string :=
  Join (filter (fun t => t <> ""%string) (map (fun v => TrimSpace (extractAnnotationText (lannotation v))) values)) " ".

Definition rect_union (a b : rect) : rect :=
  {| x1 := Z.min (x1 a) (x1 b); y1 := Z.min (y1 a) (y1 b); x2 := Z.max (x2 a) (x2 b); y2 := Z.max (y2 a) (y2 b) |}.

(** [None] is the index panic on an empty list. *)
Definition annotationUnion (values : list locatedAnnotation) : option rect :=
  match values with
  | [] => None
  | v :: values' => Some (foldl (fun r value => rect_union r (lbox value)) (lbox v) values')
  end.

(** The loop of [replaceDraftItems]. *)
Fixpoint replace_items (position : nat) (inserted : bool) (remove : gset nat) (insertAt : nat) (replacements l : list json)
    : list json :=
  match l with
  | [] => if inserted then [] else replacements
  | v :: l' =>
      let now := negb inserted && (insertAt <=? position)%nat in
      (if now then replacements else []) ++ (if bool_decide (position ∈ remove) then [] else [v]) ++
      replace_items (S position) (inserted || now) remove insertAt replacements l'
  end.
Definition replaceDraftItems (l : list json) (remove : gset nat) (insertAt : nat) (replacements : list json) : list json :=
  replace_items 0 false remove (Nat.min insertAt (length l)) replacements l.

Fixpoint has_id_outside (id : string) (removed : gset nat) (position : nat) (l : list json) : bool :=
  match l with
  | [] => false
  | v :: l' =>
      (negb (bool_decide (position ∈ removed)) && is_map v && bool_decide (trimmed_id v = TrimSpace id))
      || has_id_outside id removed (S position) l'
  end.
Definition hasIDOutside (draft : annotationDraft) (id : string) (removed : gset nat) : bool :=
  has_id_outside id removed 0 (items draft).

Definition indices (words : list locatedAnnotation) : gset nat := list_to_set (lindex <$> words).

End Drafts.
