(* ===== verification/DraftOps.v ===== *)
(** * The structural operations

    The operations of internal/server/annotation_page_transforms.go on the drafts of
    Drafts.v, and their composition in [transformAnnotationDraft] of
    connect_annotations.go. *)

From Stdlib Require Import ZArith Lia Ascii String.
From stdpp Require Import base gmap strings list.
From S2P Require Import Prelude GoStrings GoSort Json JsonParse MediaFragment Presentation Annotations SpatialWords Drafts.

Module DraftOps.
Import GoStr GoSort Json JsonParse MediaFragment Presentation Annotations LineGeometry SpatialWords Drafts.
#[local] Open Scope Z_scope.

Definition maxStructuralWordBytes : Z := 16 * 2 ^ 10.

Definition nul : string := String "000" "".

(** [preflightWordFanoutBytes] after the current page: what each word may cost. *)
Fixpoint fanout_bytes (remaining templateBytes : Z) (words : list string) : result draft_err Z :=
  match words with
  | [] => Ok remaining
  | word :: words' =>
      let cost := templateBytes + 6 * len word + 256 in
      if remaining <? cost then Err EPageSize else fanout_bytes (remaining - cost) templateBytes words'
  end.

Definition preflightWordFanoutBytes (currentPageBytes templateBytes : Z) (words : list string) : result draft_err unit :=
  let remaining := MaxAnnotationPageBytes - currentPageBytes in
  if remaining <? 0 then Err EPageSize else
  _ ← fanout_bytes remaining templateBytes words; Ok tt.

(** The boxes of [n] words: equal parts of the line's box, the last to its edge. *)
Definition word_box (line : rect) (n index : nat) : rect :=
  let width := Z.max 1 (x2 line - x1 line) in
  let wordWidth := Z.max 1 (width / Z.of_nat n) in
  let wordX1 := x1 line + Z.of_nat index * wordWidth in
  {| x1 := wordX1; y1 := y1 line;
     x2 := if (index =? n - 1)%nat then x2 line else wordX1 + wordWidth; y2 := y2 line |}.

Section operations.
Context `{!Schema, !UrlParser, !UrlPrinter, !Sha256, !SvgMapper, !OcrPage, !MapRange}.

(** ** Decoding and encoding *)

Definition decodeAnnotationDraft (raw : string) (identity : PageIdentity) : result draft_err annotationDraft :=
  _ ← lift_page (ValidateCanonicalAnnotationPage raw identity);
  document ← lift_page (decode_map raw);
  let document := default [] document in
  match jget document "items" with
  | Some (JArray l) =>
      pageID ← lift_page (AnnotationPageID (PublicBaseURL identity) (ItemImageID identity));
      Ok {| identity := identity; pageID := pageID; document := document; items := l; rawBytes := len raw;
            indexByID := index_ids (fun _ => true) 0 l ∅ |}
  | _ => Err EItemsArray
  end.

Definition encode (draft : annotationDraft) : result draft_err string :=
  let raw := Marshal (JObject (jset (document draft) "items" (JArray (items draft)))) in
  _ ← lift_page (ValidateCanonicalAnnotationPage raw (identity draft));
  Ok raw.

Definition derive (draft : annotationDraft) (template : obj) (id granularity : string) (r : rect) (text : string)
    : result draft_err obj :=
  lift_ann (deriveTextAnnotation template id granularity (CanvasURI (identity draft)) r text).

(** ** Splitting a line into words *)

Fixpoint trim_words (requested : list string) : result draft_err (list string) :=
  match requested with
  | [] => Ok []
  | word :: requested' =>
      let word := TrimSpace word in
      if bool_decide (word = ""%string) then Err EEmptyWord else
      rest ← trim_words requested'; Ok (word :: rest)
  end.

(** The requested words, or those of the line's text. *)
Definition words_of (line : locatedAnnotation) (requested : list string) : result draft_err (list string) :=
  words ← trim_words requested;
  let words := if (length words =? 0)%nat then Fields (extractAnnotationText (lannotation line)) else words in
  if (length words =? 0)%nat then Err ENoWords else
  if MaxAnnotationsPerPage <? Z.of_nat (length words) then Err ETooManyWords else
  if existsb (fun word => maxStructuralWordBytes <? len word) words then Err ELongWord else
  Ok words.

Definition generated_id (draft : annotationDraft) (lineID : string) (index : nat) : result draft_err string :=
  lift_page (AnnotationID (pageID draft)
    (lineID ++ nul ++ "word" ++ nul ++ itoa (Z.of_nat (S index)))%string).

(** An identity of the page may only be taken from a word that goes away. *)
Definition collides (draft : annotationDraft) (existingByID : gmap string nat) (owned : gset nat) (wordID : string) : bool :=
  match existingByID !! wordID with
  | None => false
  | Some i =>
      let word := match items draft !! i with Some v => granular v "word" | None => None end in
      negb (bool_decide (i ∈ owned)) || negb (bool_decide (is_Some word))
  end.

Fixpoint word_ids (draft : annotationDraft) (existingByID : gmap string nat) (owned : gset nat) (lineID : string)
    (index n : nat) : result draft_err (list string) :=
  match n with
  | O => Ok []
  | S n =>
      wordID ← generated_id draft lineID index;
      if collides draft existingByID owned wordID then Err ECollision else
      rest ← word_ids draft existingByID owned lineID (S index) n;
      Ok (wordID :: rest)
  end.

(** The word annotations, derived from the line one by one. *)
Fixpoint generate (draft : annotationDraft) (template : obj) (line : rect) (n index : nat) (words : list (string * string))
    : result draft_err (list json) :=
  match words with
  | [] => Ok []
  | (wordID, word) :: words' =>
      a ← derive draft template wordID "word" (word_box line n index) word;
      rest ← generate draft template line n (S index) words';
      Ok (JObject a :: rest)
  end.

Definition splitDraftLineIntoWords (draft : annotationDraft) (annotationID : string) (requested : list string)
    : result draft_err annotationDraft :=
  line ← annotation draft annotationID "line";
  words ← words_of line requested;
  let n := length words in
  if Z.max 1 (x2 (lbox line) - x1 (lbox line)) <? Z.of_nat n then Err ENarrow else
  let owned := wordsForLine draft annotationID in
  if MaxAnnotationsPerPage <? Z.of_nat (length (items draft)) - Z.of_nat (length owned) + Z.of_nat n
  then Err EPageFull else
  _ ← preflightWordFanoutBytes (rawBytes draft) (len (Marshal (JObject (lannotation line)))) words;
  let existingByID := index_ids is_map 0 (items draft) ∅ in
  wordIDs ← word_ids draft existingByID (indices owned) annotationID 0 n;
  let template := setAnnotationText (lannotation line) (Join words " ") in
  generated ← generate draft template (lbox line) n 0 (zip wordIDs words);
  Ok (with_items draft (replaceDraftItems (<[lindex line := JObject template]> (items draft))
        (indices owned) (S (lindex line)) generated)).

(** ** Splitting every line of the page *)

Record splitPlan := { p_line : locatedAnnotation; p_lineID : string; p_words : list string }.

(** One line of the planning loop; [remaining] bytes of the page are left. *)
Definition plan_line (position : nat) (a : obj) (remaining : Z) : result draft_err (splitPlan * Z) :=
  let words := Fields (extractAnnotationText a) in
  if (length words =? 0)%nat then Err ENoWords else
  r ← lift_ann (parseXYWH (extractFragment a));
  if Z.max 1 (x2 r - x1 r) <? Z.of_nat (length words) then Err ENarrow else
  remaining ←
    (fix spend (words : list string) (remaining : Z) : result draft_err Z :=
       match words with
       | [] => Ok remaining
       | word :: words' =>
           if maxStructuralWordBytes <? len word then Err ELongWord else
           let cost := len (Marshal (JObject a)) + 6 * len word + 256 in
           if remaining <? cost then Err EPageSize else spend words' (remaining - cost)
       end) words remaining;
  Ok ({| p_line := {| lannotation := a; lindex := position; lbox := r |};
         p_lineID := TrimSpace (annStringValue a "id"); p_words := words |}, remaining).

Fixpoint plan_lines (position : nat) (l : list json) (remaining : Z) : result draft_err (list splitPlan) :=
  match l with
  | [] => Ok []
  | v :: l' =>
      match granular v "line" with
      | Some a =>
          '(plan, remaining) ← plan_line position a remaining;
          rest ← plan_lines (S position) l' remaining;
          Ok (plan :: rest)
      | None => plan_lines (S position) l' remaining
      end
  end.

(** The identities of one plan's words, new on the page and among themselves. *)
Fixpoint plan_ids (draft : annotationDraft) (existingByID : gmap string nat) (owned : gset nat) (lineID : string)
    (index n : nat) (taken : gset string) : result draft_err (list string * gset string) :=
  match n with
  | O => Ok ([], taken)
  | S n =>
      wordID ← generated_id draft lineID index;
      if bool_decide (wordID ∈ taken) then Err EGeneratedTwice else
      if collides draft existingByID owned wordID then Err ECollision else
      '(rest, taken) ← plan_ids draft existingByID owned lineID (S index) n ({[wordID]} ∪ taken);
      Ok (wordID :: rest, taken)
  end.

(** The plans carried out: the lines' new annotations and words, by line index. *)
Fixpoint run_plans (draft : annotationDraft) (existingByID : gmap string nat) (owned : gset nat) (taken : gset string)
    (plans : list splitPlan) : result draft_err (list (nat * (obj * list json))) :=
  match plans with
  | [] => Ok []
  | plan :: plans' =>
      let n := length (p_words plan) in
      '(wordIDs, taken) ← plan_ids draft existingByID owned (p_lineID plan) 0 n taken;
      let template := setAnnotationText (lannotation (p_line plan)) (Join (p_words plan) " ") in
      generated ← generate draft template (lbox (p_line plan)) n 0 (zip wordIDs (p_words plan));
      rest ← run_plans draft existingByID owned taken plans';
      Ok ((lindex (p_line plan), (template, generated)) :: rest)
  end.

Fixpoint place_generated (position : nat) (owned : gset nat) (byLine : gmap nat (obj * list json)) (l : list json) : list json :=
  match l with
  | [] => []
  | v :: l' =>
      (if bool_decide (position ∈ owned) then []
       else match byLine !! position with
            | Some (template, generated) => JObject template :: generated
            | None => [v]
            end) ++ place_generated (S position) owned byLine l'
  end.

Definition owned_indices (assigned : assignment) : gset nat :=
  list_to_set (map_to_list assigned ≫= fun kv => index <$> kv.2).

Definition splitDraftPageIntoWords (draft : annotationDraft) : result draft_err annotationDraft :=
  let owned := owned_indices (assigned_words (items draft)) in
  plans ← plan_lines 0 (items draft) (MaxAnnotationPageBytes - rawBytes draft);
  if (length plans =? 0)%nat then Err ENoLines else
  let generatedWordCount := foldr (fun plan n => Z.of_nat (length (p_words plan)) + n) 0 plans in
  if MaxAnnotationsPerPage <? Z.of_nat (length (items draft)) - Z.of_nat (size owned) + generatedWordCount
  then Err EPageFull else
  let existingByID := index_ids is_map 0 (items draft) ∅ in
  done ← run_plans draft existingByID owned ∅ plans;
  Ok (reindex (with_items draft (place_generated 0 owned (list_to_map done) (items draft)))).

(** ** Splitting a line in two *)

(** [y1 + (p.Y-line.y1)*(y2-y1)/(line.y2-line.y1)], on 64-bit integers *)
Definition move_point (line : rect) (top bottom : Z) (p : point) : point :=
  (p.1, wrap64 (top + Z.quot (wrap64 (wrap64 (p.2 - y1 line) * (bottom - top))) (y2 line - y1 line))).

(** One of the two lines takes its part of the baseline. *)
Definition part_geometry (line : rect) (boundary : Z) (idB : string) (part : obj) (points : list point)
    : result draft_err obj :=
  mapped ← lift_line (annotationLineGeometry part);
  let '(top, bottom) := if bool_decide (jget part "id" = Some (JString idB)) then (boundary, y2 line) else (y1 line, boundary) in
  Ok (replaceLineGeometry part (Polygon mapped) (map (move_point line top bottom) points)).

(** The words of a half take its height. *)
Fixpoint move_words (draft : annotationDraft) (line : rect) (boundary : Z) (splitAt index : nat)
    (words : list locatedAnnotation) (l : list json) : result draft_err (list json) :=
  match words with
  | [] => Ok l
  | word :: words' =>
      let r := {| x1 := x1 (lbox word); x2 := x2 (lbox word);
                  y1 := if (index <? splitAt)%nat then y1 line else boundary;
                  y2 := if (index <? splitAt)%nat then boundary else y2 line |} in
      target ← lift_ann (targetWithFragment (jget (lannotation word) "target") (CanvasURI (identity draft)) r);
      let a := clearMutableTargetResourceIDs (jset (lannotation word) "target" (JObject target)) in
      move_words draft line boundary splitAt (S index) words' (<[lindex word := JObject a]> l)
  end.

Definition split_position (requested : Z) (tokens : nat) : nat :=
  if (requested <=? 0) || (Z.of_nat tokens <=? requested) then (tokens / 2)%nat else Z.to_nat requested.

Definition splitDraftLineIntoTwo (draft : annotationDraft) (annotationID : string) (requestedSplit : Z)
    : result draft_err annotationDraft :=
  line ← annotation draft annotationID "line";
  let box := lbox line in
  let lineTokens := Fields (extractAnnotationText (lannotation line)) in
  let n := length lineTokens in
  if (n <? 2)%nat then Err EOneWord else
  if y2 box - y1 box <? 2 then Err EShort else
  let words := wordsForLine draft annotationID in
  if negb (length words =? 0)%nat
     && (negb (length words =? n)%nat || negb (bool_decide (normalizedAnnotationTexts words = Join lineTokens " ")))
  then Err EUnsynchronized else
  let splitAt := split_position requestedSplit n in
  let boundary := y1 box + (y2 box - y1 box) / 2 in
  idA ← lift_page (AnnotationID (pageID draft) (annotationID ++ nul ++ "line" ++ nul ++ "a")%string);
  idB ← lift_page (AnnotationID (pageID draft) (annotationID ++ nul ++ "line" ++ nul ++ "b")%string);
  lineA ← derive draft (lannotation line) idA "line"
            {| x1 := x1 box; y1 := y1 box; x2 := x2 box; y2 := boundary |} (Join (take splitAt lineTokens) " ");
  lineB ← derive draft (lannotation line) idB "line"
            {| x1 := x1 box; y1 := boundary; x2 := x2 box; y2 := y2 box |} (Join (drop splitAt lineTokens) " ");
  geometry ← lift_line (annotationLineGeometry (lannotation line));
  '(lineA, lineB) ←
    (if (1 <? length (Baseline geometry))%nat then
       let x := x1 box + (x2 box - x1 box) * Z.of_nat splitAt / Z.of_nat n in
       let '(pointsA, pointsB) := SplitBaselineX (Baseline geometry) x in
       lineA ← part_geometry box boundary idB lineA pointsA;
       lineB ← part_geometry box boundary idB lineB pointsB;
       Ok (lineA, lineB)
     else Ok (lineA, lineB));
  moved ← move_words draft box boundary splitAt 0 words (items draft);
  Ok (with_items draft (replaceDraftItems moved {[lindex line]} (lindex line) [JObject lineA; JObject lineB])).

(** ** Joining *)

(** The values after the first agree with it outside their text and geometry. *)
Fixpoint same_properties (projection : obj) (values : list locatedAnnotation) : result draft_err unit :=
  match values with
  | [] => Ok tt
  | value :: values' =>
      p ← lift_ann (structuralPropertyProjection (lannotation value));
      if negb (bool_decide (p = projection)) then Err EConflictingProperties
      else same_properties projection values'
  end.

(** The baselines one after the other, when every value has one. *)
Fixpoint join_baselines (values : list locatedAnnotation) : result draft_err (option (list point)) :=
  match values with
  | [] => Ok (Some [])
  | value :: values' =>
      geometry ← lift_line (annotationLineGeometry (lannotation value));
      if (length (Baseline geometry) <? 2)%nat then Ok None else
      rest ← join_baselines values';
      Ok (option_map (app (Baseline geometry)) rest)
  end.

Definition mergeLocatedAnnotations (draft : annotationDraft) (values : list locatedAnnotation) (granularity : string)
    : result draft_err obj :=
  match values with
  | first :: ((_ :: _) as rest) =>
      projection ← lift_ann (structuralPropertyProjection (lannotation first));
      _ ← same_properties projection rest;
      let texts := map (fun v => TrimSpace (extractAnnotationText (lannotation v))) values in
      let inputIDs := map (fun v => TrimSpace (annStringValue (lannotation v) "id")) values in
      mergedID ← lift_page (AnnotationID (pageID draft) (Join inputIDs nul));
      r ← of_option ETooFewIDs (annotationUnion values);
      merged ← derive draft (lannotation first) mergedID granularity r (Join texts " ");
      if bool_decide (granularity = "line"%string) then
        baseline ← join_baselines values;
        Ok (replaceLineGeometry merged [] (default [] baseline))
      else Ok merged
  | _ => Err ETooFewIDs
  end.

Definition min_index (start : nat) (values : list locatedAnnotation) : nat :=
  foldl (fun m v => if (lindex v <? m)%nat then lindex v else m) start values.

(** Whether a line has words, or why its words do not match its text. *)
Definition line_view (assigned : assignment) (line : locatedAnnotation) : result draft_err bool :=
  let words := locatedWords (default [] (assigned !! annStringValue (lannotation line) "id")) in
  if (length words =? 0)%nat then Ok false else
  let tokens := Fields (extractAnnotationText (lannotation line)) in
  if negb (length words =? length tokens)%nat || negb (bool_decide (normalizedAnnotationTexts words = Join tokens " "))
  then Err EUnsynchronized else Ok true.

Fixpoint line_views (assigned : assignment) (lines : list locatedAnnotation) : result draft_err (list bool) :=
  match lines with
  | [] => Ok []
  | line :: lines' => v ← line_view assigned line; rest ← line_views assigned lines'; Ok (v :: rest)
  end.

Definition joinDraftLines (draft : annotationDraft) (annotationIDs : list string) : result draft_err annotationDraft :=
  lines ← annotations draft annotationIDs "line";
  views ← line_views (assigned_words (items draft)) lines;
  if existsb id views && existsb negb views then Err EMixedViews else
  merged ← mergeLocatedAnnotations draft lines "line";
  let remove := indices lines in
  if hasIDOutside draft (annStringValue merged "id") remove then Err EJoinedID else
  Ok (with_items draft (replaceDraftItems (items draft) remove (min_index (length (items draft)) lines) [JObject merged])).

Definition word_id (word : positionedAnnotationWord) : string := annStringValue (SpatialWords.annotation word) "id".

(** The lines with a selected word; each must have all its words selected. *)
Fixpoint affected_lines (selected : gset string) (assigned : list (string * list positionedAnnotationWord))
    : result draft_err (list string) :=
  match assigned with
  | [] => Ok []
  | (lineID, words) :: assigned' =>
      if existsb (fun w => bool_decide (word_id w ∈ selected)) words then
        if forallb (fun w => bool_decide (word_id w ∈ selected)) words then
          rest ← affected_lines selected assigned'; Ok (lineID :: rest)
        else Err EPartialLine
      else affected_lines selected assigned'
  end.

Fixpoint locate_lines (draft : annotationDraft) (ids : list string) : result draft_err (list locatedAnnotation) :=
  match ids with
  | [] => Ok []
  | id :: ids' => line ← annotation draft id "line"; rest ← locate_lines draft ids'; Ok (line :: rest)
  end.

(** The joined line, the indices it replaces and where it goes. *)
Definition joined_line (draft : annotationDraft) (affected : list string) (words : list locatedAnnotation)
    : result draft_err (obj * gset nat * nat) :=
  lines ← locate_lines draft affected;
  match affected, lines, words with
  | [lineID], [line], _ :: _ =>
      r ← of_option ETooFewIDs (annotationUnion words);
      merged ← derive draft (lannotation line) lineID "line" r (normalizedAnnotationTexts words);
      Ok (merged, {[lindex line]}, lindex line)
  | _, _, first :: _ =>
      merged ← mergeLocatedAnnotations draft words "line";
      Ok (merged, indices lines, min_index (lindex first) lines)
  | _, _, [] => Err ETooFewIDs
  end.

Definition joinDraftWordsIntoLine (draft : annotationDraft) (annotationIDs : list string) : result draft_err annotationDraft :=
  words ← annotations draft annotationIDs "word";
  if existsb (fun w => negb (length (Fields (extractAnnotationText (lannotation w))) =? 1)%nat) words then Err ENotOneToken else
  let selected : gset string := list_to_set (map (fun w => annStringValue (lannotation w) "id") words) in
  affected ← affected_lines selected (map_to_list (assigned_words (items draft)));
  let words := sortLocatedWordsWithinLine words in
  '(merged, remove, insertAt) ← joined_line draft affected words;
  if hasIDOutside draft (annStringValue merged "id") remove then Err EJoinedID else
  let candidateItems := replaceDraftItems (items draft) remove insertAt [JObject merged] in
  let ownedWords := locatedWords (default [] (assigned_words candidateItems !! annStringValue merged "id")) in
  if negb (length ownedWords =? size selected)%nat
     || existsb (fun w => negb (bool_decide (annStringValue (lannotation w) "id" ∈ selected))) ownedWords
  then Err EOwnership else
  let merged := setAnnotationText merged (normalizedAnnotationTexts ownedWords) in
  Ok (with_items draft (replaceDraftItems (items draft) remove insertAt [JObject merged])).

(** ** The request *)

Definition transformAnnotationDraft (raw : string) (identity : PageIdentity)
    (transform : annotationDraft -> result draft_err annotationDraft) : result draft_err string :=
  draft ← decodeAnnotationDraft raw identity;
  draft ← transform draft;
  encode draft.

End operations.
End DraftOps.
