(* ===== verification/DraftFacts.v ===== *)
(** * Drawn geometry leaves the box and the canvas alone

    [replaceLineGeometry] only changes SVG selectors, which neither the fragment nor the
    canvas of a target depend on.

    Modules [LineFacts]: drawn geometry leaves the box and the canvas alone;
    [DraftFacts]: lemmas on drafts. *)

From Stdlib Require Import ZArith Lia Ascii String.
From stdpp Require Import base list strings gmap sets sorting.
From S2P Require Import Prelude GoStrings GoSort Json JsonParse MediaFragment TargetGeometry Presentation PageNormal Annotations DerivedFacts SpatialWords Drafts DraftOps.

Module LineFacts.
Import GoStr Json MediaFragment TargetGeometry Annotations DerivedFacts LineGeometry.

Lemma visit_list_cons v l : visit_list (v :: l) = (a ← visit_selectors v; b ← visit_list l; Ok (a ++ b)).
Proof. reflexivity. Qed.

Lemma visit_list_bind l1 l2 : visit_list (l1 ++ l2) = (a ← visit_list l1; b ← visit_list l2; Ok (a ++ b)).
Proof.
  induction l1 as [|v l1 IH].
  - change (visit_list ([] ++ l2)) with (visit_list l2). cbn. by destruct (visit_list l2).
  - rewrite <-app_comm_cons, !visit_list_cons, IH. destruct (visit_selectors v) as [a|]; [|done]. cbn.
    destruct (visit_list l1) as [b|]; [|done]. cbn. destruct (visit_list l2) as [d|]; [|done]. cbn. by rewrite app_assoc.
Qed.

Lemma visit_list_single v : visit_list [v] = visit_selectors v.
Proof. rewrite visit_list_cons. destruct (visit_selectors v) as [a|]; [|done]. cbn. by rewrite app_nil_r. Qed.

Lemma svg_value_silent v : is_svg_value v = true -> visit_selectors v = Ok [].
Proof. destruct v; try done. apply svg_silent. Qed.

Lemma visit_without_svg l : visit_list (filter (fun v => is_svg_value v = false) l) = visit_list l.
Proof.
  induction l as [|v l IH]; [done|]. rewrite filter_cons, visit_list_cons. destruct (is_svg_value v) eqn:E.
  - rewrite decide_False by done. rewrite IH, (svg_value_silent v E). cbn. by destruct (visit_list l).
  - rewrite decide_True by done. by rewrite visit_list_cons, IH.
Qed.

Definition of_list (l : list json) : json := match l with [x] => x | _ => JArray l end.

Lemma visit_of_list l : visit_selectors (of_list l) = visit_list l.
Proof. destruct l as [|v [|v' l]]; [done| |done]. by rewrite visit_list_single. Qed.

Lemma visit_target_selectors t : visit_selectors (default JNull (jget t "selector")) = visit_list (target_selectors t).
Proof.
  unfold target_selectors. destruct (jget t "selector") as [[]|]; try by rewrite visit_list_single. done.
Qed.

(** The selector the new geometry is written to. *)
Definition chosen_svg (l : list json) : obj :=
  match filter (fun v => is_svg_value v = true) l with JObject s :: _ => s | _ => [("type"%string, JString "SvgSelector")] end.

Lemma chosen_is_svg l : is_svg (chosen_svg l) = true.
Proof.
  unfold chosen_svg. destruct (filter (fun v => is_svg_value v = true) l) as [|v vs] eqn:E; [done|].
  assert (Hv : v ∈ filter (fun v => is_svg_value v = true) l) by (rewrite E; apply elem_of_cons; by left).
  apply list_elem_of_filter in Hv as [Hv _]. by destruct v.
Qed.

Lemma replaceLineGeometry_other a p b k : k <> "target"%string -> jget (replaceLineGeometry a p b) k = jget a k.
Proof.
  intros Hk. unfold replaceLineGeometry. destruct (jget a "target") as [[| | | | |t]|]; try done. by rewrite jget_jset_ne.
Qed.

Lemma replaceLineGeometry_target a p b : 
  TargetPixelXYWH (default JNull (jget (replaceLineGeometry a p b) "target")) = TargetPixelXYWH (default JNull (jget a "target")) /\
  TargetCanvas (default JNull (jget (replaceLineGeometry a p b) "target")) = TargetCanvas (default JNull (jget a "target")).
Proof.
  unfold replaceLineGeometry. destruct (jget a "target") as [[| | | | |t]|] eqn:E; try by rewrite E.
  rewrite jget_jset_eq. cbn [default from_option id].
  set (retained := filter (fun v => is_svg_value v = false) (target_selectors t)).
  fold (chosen_svg (target_selectors t)). set (svg := jset (clear_ids (chosen_svg (target_selectors t))) _ _).
  assert (Hsvg : is_svg svg = true).
  { pose proof (chosen_is_svg (target_selectors t)) as Hc. unfold svg, is_svg in *. by rewrite jget_jset_ne, jget_clear_ids. }
  set (l := if _ : bool then _ else _). fold (of_list l).
  assert (Hl : visit_list l = visit_list (target_selectors t)).
  { unfold l. destruct (_ || _); [|apply visit_without_svg]. rewrite visit_list_bind. unfold retained.
    rewrite visit_without_svg, visit_list_single, (svg_silent svg Hsvg). cbn.
    destruct (visit_list (target_selectors t)) as [x|]; [|done]. cbn. by rewrite app_nil_r. }
  split.
  - cbn [TargetPixelXYWH]. unfold selectorPixelXYWH. rewrite jget_jset_eq.
    change (default JNull (Some (of_list l))) with (of_list l). by rewrite visit_of_list, Hl, visit_target_selectors.
  - cbn [TargetCanvas]. unfold isCanvasReference, jget_nil. by rewrite !jget_jset_ne.
Qed.

(** The line read back. *)
Lemma replaceLineGeometry_reads a p b :
  extractFragment (replaceLineGeometry a p b) = extractFragment a /\
  extractAnnotationText (replaceLineGeometry a p b) = extractAnnotationText a.
Proof.
  split.
  - unfold extractFragment. by rewrite (proj1 (replaceLineGeometry_target a p b)).
  - apply extract_text_eq. by apply replaceLineGeometry_other.
Qed.

End LineFacts.

(** * Lemmas on drafts

    Item replacement by position, the boxes of a split line, and what the loops of
    DraftOps.v return. *)

Module DraftFacts.
Import GoStr GoSort Json JsonParse MediaFragment TargetGeometry Presentation PageIdentity Annotations DerivedFacts LineGeometry SpatialWords Drafts DraftOps.
#[local] Open Scope Z_scope.

(** ** Replacing items *)

(** The items whose positions are not removed. *)
Fixpoint keep (position : nat) (remove : gset nat) (l : list json) : list json :=
  match l with
  | [] => []
  | v :: l' => (if bool_decide (position ∈ remove) then [] else [v]) ++ keep (S position) remove l'
  end.

Lemma replace_items_inserted position remove at_ repl l :
  replace_items position true remove at_ repl l = keep position remove l.
Proof.
  revert position. induction l as [|v l IH]; intros position; [done|]. cbn [replace_items keep negb andb orb app]. by rewrite IH.
Qed.

Lemma replace_items_spec position remove at_ repl l : (position <= at_ <= position + length l)%nat ->
  replace_items position false remove at_ repl l =
  keep position remove (take (at_ - position) l) ++ repl ++ keep at_ remove (drop (at_ - position) l).
Proof.
  revert position. induction l as [|v l IH]; intros position Hat; cbn [replace_items].
  { cbn in Hat. rewrite take_nil, drop_nil. cbn. by rewrite app_nil_r. }
  cbn [length] in Hat. destruct (Nat.leb_spec at_ position) as [Hle|Hgt]; cbn [negb andb orb].
  - assert (at_ = position) as -> by lia. rewrite Nat.sub_diag. cbn [take drop keep app].
    by rewrite replace_items_inserted.
  - rewrite IH by lia. replace (at_ - position)%nat with (S (at_ - S position)) by lia.
    cbn [take drop keep app]. by rewrite <-app_assoc.
Qed.

Lemma replaceDraftItems_spec l remove at_ repl : (at_ <= length l)%nat ->
  replaceDraftItems l remove at_ repl = keep 0 remove (take at_ l) ++ repl ++ keep at_ remove (drop at_ l).
Proof.
  intros Hat. unfold replaceDraftItems. rewrite Nat.min_l, replace_items_spec by lia. by rewrite Nat.sub_0_r.
Qed.

Lemma keep_disjoint position remove l :
  (forall i, (position <= i < position + length l)%nat -> i ∉ remove) -> keep position remove l = l.
Proof.
  revert position. induction l as [|v l IH]; intros position H; [done|]. cbn [keep length] in *.
  rewrite bool_decide_eq_false_2 by (apply H; lia). cbn. rewrite IH; [done|]. intros i Hi. apply H. lia.
Qed.

(** ** The boxes of the words *)

(** Boxes side by side from [left] to the right edge, as high as the line. *)
Fixpoint tiles (line : rect) (left : Z) (boxes : list rect) : Prop :=
  match boxes with
  | [] => left = x2 line
  | b :: boxes' => x1 b = left /\ x1 b < x2 b /\ y1 b = y1 line /\ y2 b = y2 line /\ tiles line (x2 b) boxes'
  end.

Definition word_boxes (line : rect) (n : nat) : list rect := map (word_box line n) (seq 0 n).

Lemma word_box_ok line n i : rect_ok line -> Z.of_nat n <= x2 line - x1 line -> (i < n)%nat ->
  x1 (word_box line n i) < x2 (word_box line n i) <= x2 line /\ x1 line <= x1 (word_box line n i) /\
  ((S i < n)%nat -> x2 (word_box line n i) = x1 (word_box line n (S i))).
Proof.
  intros Hr Hn Hi. unfold rect_ok in Hr. unfold word_box. cbn [x1 x2].
  rewrite (Z.max_r 1 (x2 line - x1 line)) by lia.
  set (w := x2 line - x1 line) in *. pose proof (Z.div_mod w (Z.of_nat n) ltac:(lia)) as Hd.
  pose proof (Z.mod_pos_bound w (Z.of_nat n) ltac:(lia)) as Hm.
  assert (Hq : 1 <= w / Z.of_nat n) by (apply Z.div_le_lower_bound; lia).
  rewrite Z.max_r by lia. set (q := w / Z.of_nat n) in *.
  destruct (Nat.eqb_spec i (n - 1)) as [-> |Hne].
  - split_and!; [|lia|nia|lia]. unfold w in *. nia.
  - split_and!; [lia| |nia|intros; lia]. unfold w in *. nia.
Qed.

Lemma word_boxes_tile line n : rect_ok line -> (0 < n)%nat -> Z.of_nat n <= x2 line - x1 line ->
  tiles line (x1 line) (word_boxes line n).
Proof.
  intros Hr Hn Hw. unfold word_boxes.
  assert (H : forall k i, (i + k = n)%nat -> (0 < k)%nat -> tiles line (x1 (word_box line n i)) (map (word_box line n) (seq i k))).
  { induction k as [|k IH]; intros i Hi Hk; [lia|]. cbn [seq map tiles].
    destruct (word_box_ok line n i Hr Hw ltac:(lia)) as (Hx & _ & Hnext). split_and!; [done|lia|done|done|].
    destruct (decide (k = 0%nat)) as [-> |Hk0].
    - cbn. unfold word_box. cbn [x2]. by rewrite (proj2 (Nat.eqb_eq _ _)) by lia.
    - rewrite Hnext by lia. apply IH; lia. }
  replace (x1 line) with (x1 (word_box line n 0)) at 1 by (unfold word_box; cbn; lia). apply H; lia.
Qed.

(** ** Loops *)

Section loops.
Context `{!Schema, !UrlParser, !UrlPrinter, !Sha256, !SvgMapper, !OcrPage, !MapRange}.

Lemma annotation_Ok draft id granularity line : annotation draft id granularity = Ok line ->
  items draft !! lindex line = Some (JObject (lannotation line)) /\
  granularity_of (lannotation line) = granularity /\ rect_ok (lbox line) /\
  parseXYWH (extractFragment (lannotation line)) = Ok (lbox line) /\
  indexByID draft !! TrimSpace id = Some (lindex line).
Proof.
  unfold annotation. case_bool_decide; [done|]. destruct (indexByID draft !! TrimSpace id) as [i|]; [|done].
  destruct (items draft !! i) as [[| | | | |a]|] eqn:E; try done. case_bool_decide as Hgr; [|done].
  intros (r & Hr & [= <-])%result_bind_Ok. unfold lift_ann in Hr.
  destruct (parseXYWH (extractFragment a)) as [r'|] eqn:Ep; [|done]. injection Hr as ->. cbn.
  split_and!; [done|done|by eapply parseXYWH_ok|done|done].
Qed.

Lemma word_ids_length draft ex owned lineID i n ids : word_ids draft ex owned lineID i n = Ok ids -> length ids = n.
Proof.
  revert i ids. induction n as [|n IH]; intros i ids HE; cbn in HE; [by injection HE as <-|].
  apply result_bind_Ok in HE as (wid & _ & HE). destruct (collides _ _ _ _); [done|].
  apply result_bind_Ok in HE as (rest & Hrest & [= <-]). cbn. by rewrite (IH _ _ Hrest).
Qed.

(** What one call of [generate] returns. *)
Lemma generate_spec draft template line n i words generated :
  well_formed (JObject template) -> plain_target (default JNull (jget template "target")) ->
  all_chars visible (CanvasURI (identity draft)) = true -> rect_ok line -> Z.of_nat n <= x2 line - x1 line ->
  (i + length words <= n)%nat ->
  generate draft template line n i words = Ok generated ->
  Forall2 (fun iw v => exists a, v = JObject a /\
    derived template a (iw.2).1 "word" (CanvasURI (identity draft)) (word_box line n iw.1) (iw.2).2)
    (zip (seq i (length words)) words) generated.
Proof.
  intros Hw Hp Hc Hr Hwidth. revert i generated. induction words as [|[wid word] words IH]; intros i generated Hi HE; cbn in HE.
  { injection HE as <-. constructor. }
  apply result_bind_Ok in HE as (a & Ha & (rest & Hrest & [= <-])%result_bind_Ok). cbn [length seq zip].
  cbn in Hi. constructor; [|apply (IH (S i) rest); [lia|done]].
  exists a. split; [done|]. unfold derive, lift_ann in Ha. destruct (deriveTextAnnotation _ _ _ _ _ _) as [a'|] eqn:E; [|done].
  injection Ha as ->. eapply derive_spec; [done|done|done| |exact E].
  destruct (word_box_ok line n i Hr Hwidth ltac:(lia)) as (Hx & Hl & _). unfold rect_ok in *. cbn [fst snd]. change (y1 (word_box line n i)) with (y1 line). change (y2 (word_box line n i)) with (y2 line). lia.
Qed.

Lemma trim_words_trimmed requested words : trim_words requested = Ok words -> Forall (fun w => TrimSpace w = w /\ w <> ""%string) words.
Proof.
  revert words. induction requested as [|w rs IH]; intros words HE; cbn in HE; [injection HE as <-; constructor|].
  case_bool_decide as He; [done|]. apply result_bind_Ok in HE as (rest & Hrest & [= <-]).
  constructor; [split; [apply TrimSpace_idem|done]|by apply IH].
Qed.

End loops.

(** ** The changed text of a line *)

Lemma setAnnotationText_other a text k : k <> "body"%string -> jget (setAnnotationText a text) k = jget a k.
Proof.
  intros Hk. unfold setAnnotationText. destruct (jget a "body") as [[| | | |l|b]|]; try by rewrite jget_jset_ne.
  - destruct (set_first _ l); by rewrite jget_jset_ne.
  - destruct (is_textual b); by rewrite jget_jset_ne.
Qed.

Lemma set_first_well_formed f l l' : (forall b, well_formed (JObject b) -> well_formed (JObject (f b))) ->
  Forall well_formed l -> set_first f l = Some l' -> Forall well_formed l'.
Proof.
  intros Hf Hl. revert l'. induction Hl as [|v l Hv Hl IH]; intros l' H; [done|]. cbn in H.
  destruct v as [| | | | |b];
    try (destruct (set_first f l) as [r|]; [|done]; injection H as <-; constructor; [done|by apply IH]).
  destruct (is_textual b); [injection H as <-; constructor; [by apply Hf|done]|].
  destruct (set_first f l) as [r|]; [|done]. injection H as <-. constructor; [done|by apply IH].
Qed.

Lemma setAnnotationText_well_formed a text : well_formed (JObject a) -> valid_utf8 (TrimSpace text) = true ->
  well_formed (JObject (setAnnotationText a text)).
Proof.
  intros Ha Ht. assert (Hb : well_formed (textual_body text)).
  { unfold textual_body. repeat (apply jset_well_formed; [reflexivity| |]); try done; by repeat constructor. }
  assert (Hset : forall b, well_formed (JObject b) -> well_formed (JObject (jset b "value" (JString (TrimSpace text))))).
  { intros b Hwb. by apply jset_well_formed. }
  assert (Hfresh : well_formed (JObject (jset a "body" (JArray [textual_body text])))).
  { apply jset_well_formed; [done| |done]. rewrite well_formed_array. by apply Forall_singleton. }
  unfold setAnnotationText. destruct (jget a "body") as [[| | | |l|b]|] eqn:E; try done.
  - pose proof (well_formed_get _ _ _ Ha E) as Hl. rewrite well_formed_array in Hl.
    destruct (set_first _ l) as [l'|] eqn:El; (apply jset_well_formed; [done| |done]); rewrite well_formed_array.
    + exact (set_first_well_formed _ _ _ Hset Hl El).
    + apply Forall_app. split; [done|by apply Forall_singleton].
  - pose proof (well_formed_get _ _ _ Ha E) as Hwb. destruct (is_textual b); [|done].
    apply jset_well_formed; [done|by apply Hset|done].
Qed.

(** A new text is read back. *)
Lemma quiet_set_first f l l' : (forall b, is_textual (f b) = is_textual b) -> quiet l -> set_first f l = Some l' -> quiet l'.
Proof.
  intros Hf. revert l'. induction l as [|v l IH]; intros l' Hq Hs; [done|]. cbn in Hs.
  destruct v as [| | | | |b]; cbn [quiet] in Hq;
    try (destruct (set_first f l) as [r|]; [|done]; injection Hs as <-; exact (IH r Hq eq_refl)).
  destruct (is_textual b) eqn:E; [injection Hs as <-; cbn; left; by rewrite Hf|].
  destruct Hq as [|[Hv Hq]]; [done|]. destruct (set_first f l) as [r|]; [|done]. injection Hs as <-.
  cbn. right. split; [done|by apply IH].
Qed.

Lemma quiet_snoc l b : is_textual b = true -> quiet l -> quiet (l ++ [JObject b]).
Proof.
  intros Hb. induction l as [|v l IH]; [by left|]. cbn. destruct v; try done. intros [|[Hv Hq]]; [by left|right].
  split; [done|by apply IH].
Qed.

Lemma quiet_text a text : quiet_body (jget a "body") -> quiet_body (jget (setAnnotationText a text) "body").
Proof.
  assert (Hset : forall b, is_textual (jset b "value" (JString (TrimSpace text))) = is_textual b).
  { intros b. unfold is_textual, says. do 2 f_equal. apply annStringValue_eq. by rewrite jget_jset_ne. }
  assert (Hnew : quiet [textual_body text]) by by left.
  intros Hq. unfold setAnnotationText. destruct (jget a "body") as [[| | | |l|b]|]; cbn [quiet_body] in Hq; try by rewrite jget_jset_eq.
  - destruct (set_first _ l) as [l'|] eqn:E; rewrite jget_jset_eq; cbn [quiet_body].
    + exact (quiet_set_first _ _ _ Hset Hq E).
    + by apply quiet_snoc.
  - destruct (is_textual b) eqn:E; rewrite jget_jset_eq; cbn [quiet_body]; [left; by rewrite Hset|done].
Qed.

Lemma setAnnotationText_reads a text : TrimSpace text <> ""%string -> quiet_body (jget a "body") ->
  extractAnnotationText (setAnnotationText a text) = TrimSpace text.
Proof.
  intros Ht Hq. assert (Hset : forall b, value_of (jset b "value" (JString (TrimSpace text))) = TrimSpace text).
  { intros b. unfold value_of. rewrite annStringValue_jset_eq. apply TrimSpace_idem. }
  assert (Htb : exists b, textual_body text = JObject b /\ value_of b = TrimSpace text) by (eexists; split; [reflexivity|apply Hset]).
  destruct Htb as (tb & Htb & Hvb).
  assert (Hone : forall l, quiet l -> (forall f, set_first f l = None) -> first_text (l ++ [textual_body text]) = TrimSpace text).
  { intros l Hl Hs. rewrite Htb. by apply first_text_snoc. }
  unfold extractAnnotationText, setAnnotationText.
  destruct (jget a "body") as [[| | | |l|b]|]; cbn [quiet_body] in Hq; try (rewrite jget_jset_eq; by apply (Hone [])).
  - destruct (set_first _ l) as [l'|] eqn:E; rewrite jget_jset_eq.
    + exact (first_text_set _ _ _ _ Ht Hset Hq E).
    + apply Hone; [done|]. intros f. by eapply set_first_None.
  - destruct (is_textual b) eqn:E; rewrite jget_jset_eq; [apply Hset|by apply (Hone [])].
Qed.

(** The identities of the items are distinct, as on every canonical page. *)
Definition unique_ids (l : list json) : Prop := forall i j a b,
  l !! i = Some (JObject a) -> l !! j = Some (JObject b) -> annStringValue a "id" = annStringValue b "id" -> i = j.

End DraftFacts.
