(* ===== verification/SplitOwners.v ===== *)
(** * The words of a line after a split

    After [splitDraftLineIntoWords] the line owns the generated words and no other:
    the operation, the assignment of SpatialWords.v and the reading order agree.

    Modules [SplitOwners]: the words of a line after a split;
    [Reassign]: the assignment after an edit. *)

From Stdlib Require Import ZArith Lia Ascii String.
From stdpp Require Import base gmap sets strings list sorting.
From S2P Require Import Prelude GoStrings GoSort Json JsonParse MediaFragment TargetGeometry Presentation LineIndex Annotations DerivedFacts SpatialWords SpatialSweep SpatialOwners Drafts DraftOps DraftFacts.

Module SplitOwners.
Import GoStr GoSort LineIndex Json JsonParse MediaFragment TargetGeometry Presentation Annotations DerivedFacts LineGeometry SpatialWords SpatialSweep SpatialOwners Drafts DraftOps DraftFacts.
#[local] Open Scope Z_scope.

(** ** The lines of a canvas, without their positions *)

Definition line_info (c : string) (v : json) : option (string * rect) :=
  '(c', a, r) ← item_geometry v;
  if bool_decide (c' = c) && bool_decide (granularity_of a = "line"%string) then Some (annStringValue a "id", r) else None.

Definition lines_info (c : string) (l : list json) : list (string * rect) := omap (line_info c) l.

Definition info_of (line : spatialLine) : string * rect := (lid line, lrect line).

Lemma lines_on_info c l : info_of <$> lines_on None c l = lines_info c l.
Proof.
  unfold lines_on, lines_info. generalize 0%nat. induction l as [|v l IH]; intros position; [done|].
  cbn [on_canvas omap list_omap]. unfold item_line, line_info.
  destruct (item_geometry v) as [[[c' a] r]|]; [|by apply IH]. cbn [mbind option_bind].
  rewrite andb_true_r. destruct (bool_decide (granularity_of a = _)); cbn [andb].
  - rewrite andb_true_r. destruct (bool_decide (c' = c)); cbn [fmap list_fmap]; [|by apply IH].
    f_equal. by apply IH.
  - rewrite andb_false_r. by apply IH.
Qed.

(** The box [r] holds the point. *)
Definition holds_point (r : rect) (x y : Z) : bool :=
  (x1 r <=? x) && (x <=? x2 r) && (y1 r <=? y) && (y <=? y2 r).

Fixpoint first_info (L : list (string * rect)) (x y : Z) : option string :=
  match L with
  | [] => None
  | (id, r) :: L' => if holds_point r x y then Some id else first_info L' x y
  end.

Lemma first_line_info L w : lid <$> first_line L w = first_info (info_of <$> L) (centerX w) (centerY w).
Proof.
  induction L as [|line L IH]; [done|]. cbn. unfold holds_center, holds_point.
  destruct (_ && _); [done|]. exact IH.
Qed.

Lemma belongs_info l p id : belongs None l p id <->
  exists v c w, l !! index p = Some v /\ item_word (index p) v = Some (c, w) /\ positioned w = p /\
    first_info (lines_info c l) (centerX w) (centerY w) = Some id.
Proof.
  unfold belongs. setoid_rewrite <-lines_on_info. setoid_rewrite <-first_line_info. split.
  - intros (v & c & w & line & Hv & Hw & Hp & Hf & <-). exists v, c, w. by rewrite Hf.
  - intros (v & c & w & Hv & Hw & Hp & Hf). destruct (first_line _ w) as [line|] eqn:E; [|done].
    injection Hf as <-. exists v, c, w, line. by rewrite E.
Qed.

Lemma first_info_unique L1 id r L2 x y : holds_point r x y = true ->
  (forall id' r', (id', r') ∈ L1 -> holds_point r' x y = false) ->
  first_info (L1 ++ (id, r) :: L2) x y = Some id.
Proof.
  intros Hr. induction L1 as [|[id' r'] L1 IH]; intros H1; cbn; [by rewrite Hr|].
  rewrite (H1 id' r') by (apply elem_of_cons; by left). apply IH. intros id2 r2 Hin. eapply H1, elem_of_cons. right. done.
Qed.

(** ** Kept items *)

Lemma keep_lookup position remove l k v : keep position remove l !! k = Some v ->
  exists i, l !! i = Some v /\ (position + i)%nat ∉ remove.
Proof.
  revert position k. induction l as [|v' l IH]; intros position k Hk; [done|]. cbn [keep] in Hk.
  case_bool_decide as Hp; cbn in Hk.
  - destruct (IH _ _ Hk) as (i & Hi & Hn). exists (S i). split; [done|]. by rewrite Nat.add_succ_r.
  - destruct k as [|k]; cbn in Hk.
    + injection Hk as ->. exists 0%nat. split; [done|]. by rewrite Nat.add_0_r.
    + destruct (IH _ _ Hk) as (i & Hi & Hn). exists (S i). split; [done|]. by rewrite Nat.add_succ_r.
Qed.

Lemma keep_omap {A} (f : json -> option A) position remove l :
  (forall i v, l !! i = Some v -> (position + i)%nat ∈ remove -> f v = None) ->
  omap f (keep position remove l) = omap f l.
Proof.
  revert position. induction l as [|v l IH]; intros position Hf; [done|]. cbn [keep].
  rewrite omap_app, IH.
  - case_bool_decide as Hp; cbn; [|by destruct (f v)].
    rewrite (Hf 0%nat v) by (done || by rewrite Nat.add_0_r). done.
  - intros i v' Hv Hi. apply (Hf (S i) v' Hv). by rewrite Nat.add_succ_r.
Qed.

Lemma omap_insert_same {A} (f : json -> option A) (l : list json) (i : nat) v v' : l !! i = Some v -> f v' = f v ->
  omap f (<[i := v']> l) = omap f l.
Proof.
  revert i. induction l as [|x l IH]; intros [|i] Hi Hf; try done; cbn in *.
  - injection Hi as ->. by rewrite Hf.
  - specialize (IH i Hi Hf). destruct (f x); [f_equal|]; exact IH.
Qed.

(** ** Sorted lists with distinct keys *)

Lemma sorted_unique {A} (key : A -> Z) l1 l2 : l1 ≡ₚ l2 ->
  StronglySorted (fun a b => key a <= key b) l1 -> StronglySorted (fun a b => key a <= key b) l2 ->
  (forall a b, a ∈ l1 -> b ∈ l1 -> key a = key b -> a = b) -> l1 = l2.
Proof.
  intros Hp H1 H2 Hinj. eapply (StronglySorted_unique_strong (fun a b => key a <= key b)); [|done|done|done].
  intros a b Ha Hb Hab Hba. apply Hinj; [done|by rewrite Hp|]. cbn in *. lia.
Qed.

(** ** A line whose words are replaced *)

Definition word_of (position : nat) (a : obj) (b : rect) : positionedAnnotationWord :=
  {| index := position; wx1 := x1 b; SpatialWords.annotation := a |}.

Fixpoint words_at (position : nat) (generated : list obj) (boxes : list rect) : list positionedAnnotationWord :=
  match generated, boxes with
  | g :: gs, b :: bs => word_of position g b :: words_at (S position) gs bs
  | _, _ => []
  end.

Lemma elem_of_words_at p position gs bs : p ∈ words_at position gs bs <->
  exists j g b, gs !! j = Some g /\ bs !! j = Some b /\ p = word_of (position + j) g b.
Proof.
  revert position bs. induction gs as [|g gs IH]; intros position bs; cbn [words_at].
  { split; [by intros ?%elem_of_nil|]. by intros (j & ? & ? & ? & _). }
  destruct bs as [|b bs]. { split; [by intros ?%elem_of_nil|]. by intros (j & ? & ? & _ & ? & _). }
  rewrite elem_of_cons, IH. split.
  - intros [-> |(j & g' & b' & Hg & Hb & ->)].
    + exists 0%nat, g, b. by rewrite Nat.add_0_r.
    + exists (S j), g', b'. by rewrite Nat.add_succ_r.
  - intros ([|j] & g' & b' & Hg & Hb & ->); cbn in Hg, Hb.
    + injection Hg as <-. injection Hb as <-. left. by rewrite Nat.add_0_r.
    + right. exists j, g', b'. by rewrite Nat.add_succ_r.
Qed.

Lemma words_at_index_ge p position gs bs : p ∈ words_at position gs bs -> (position <= index p)%nat.
Proof. intros (j & g & b & _ & _ & ->)%elem_of_words_at. cbn. lia. Qed.

Lemma words_at_NoDup position gs bs : NoDup (words_at position gs bs).
Proof.
  revert position bs. induction gs as [|g gs IH]; intros position bs; cbn; [apply NoDup_nil_2|].
  destruct bs as [|b bs]; [apply NoDup_nil_2|]. constructor; [|apply IH].
  intros Hw%words_at_index_ge. cbn in Hw. lia.
Qed.

Lemma words_at_sorted position gs bs : StronglySorted (fun b b' => x1 b < x1 b') bs ->
  StronglySorted (fun p p' => wx1 p < wx1 p') (words_at position gs bs).
Proof.
  intros Hs. revert position gs. induction Hs as [|b bs Hs IH Hb]; intros position gs; destruct gs as [|g gs]; cbn; try constructor.
  - apply IH.
  - apply Forall_forall. intros p (j & g' & b' & _ & Hb' & ->)%elem_of_words_at. cbn.
    rewrite Forall_forall in Hb. by eapply Hb, list_elem_of_lookup_2.
Qed.

Definition center_x (b : rect) : Z := x1 b + (x2 b - x1 b) / 2.
Definition center_y (b : rect) : Z := y1 b + (y2 b - y1 b) / 2.

Lemma item_word_geometry i v c w : item_word i v = Some (c, w) ->
  exists a r, item_geometry v = Some (c, a, r) /\ granularity_of a = "word"%string /\ w = spatial_word i a r.
Proof.
  unfold item_word. destruct (item_geometry v) as [[[c' a] r]|]; [|done]. cbn.
  case_bool_decide; [|done]. intros [= <- <-]. by exists a, r.
Qed.

Lemma word_no_line i v c w c' : item_word i v = Some (c, w) -> line_info c' v = None.
Proof.
  intros (a & r & Hg & Hw & _)%item_word_geometry. unfold line_info. rewrite Hg. cbn. rewrite Hw.
  by rewrite andb_false_r.
Qed.

(** [within_line_less] orders by left edge, upper edge and position. *)
Lemma within_line_lex a b : within_line_less a b = true <->
  x1 (lbox a) < x1 (lbox b) \/ (x1 (lbox a) = x1 (lbox b) /\
    (y1 (lbox a) < y1 (lbox b) \/ (y1 (lbox a) = y1 (lbox b) /\ (lindex a < lindex b)%nat))).
Proof.
  unfold within_line_less. destruct (Z.eqb_spec (x1 (lbox a)) (x1 (lbox b))); cbn [negb]; [|rewrite Z.ltb_lt; lia].
  destruct (Z.eqb_spec (y1 (lbox a)) (y1 (lbox b))); cbn [negb]; [rewrite Nat.ltb_lt|rewrite Z.ltb_lt]; lia.
Qed.
Lemma within_line_not a b : within_line_less a b = false <->
  ~ (x1 (lbox a) < x1 (lbox b) \/ (x1 (lbox a) = x1 (lbox b) /\
    (y1 (lbox a) < y1 (lbox b) \/ (y1 (lbox a) = y1 (lbox b) /\ (lindex a < lindex b)%nat)))).
Proof. rewrite <-within_line_lex. by destruct (within_line_less a b). Qed.

Lemma within_line_sorted ls : StronglySorted (fun w w' => x1 (lbox w) <= x1 (lbox w')) (sortLocatedWordsWithinLine ls).
Proof.
  eapply StronglySorted_impl; [|apply (SliceStable_sorted within_line_less) with (R := fun _ _ => True)].
  - intros a b. unfold before. rewrite within_line_lex, within_line_not. lia.
  - intros a b c. rewrite !within_line_lex. lia.
  - intros a b c. rewrite !within_line_not. lia.
  - by apply StronglySorted_all.
Qed.

Section replaced.
Context (l : list json) (li : nat) (a template : obj) (c lineID : string) (r : rect).
Context (owned : gset nat) (boxes : list rect) (generated : list obj).
Context (Hline : l !! li = Some (JObject a)) (Hinfo : item_geometry (JObject a) = Some (c, a, r)).
Context (Hgran : granularity_of a = "line"%string) (Hid : annStringValue a "id" = lineID).
Context (Htemplate : forall c', line_info c' (JObject template) = line_info c' (JObject a)).
Context (Htemplate_word : forall i, item_word i (JObject template) = None).
Context (Howned : forall i, i ∈ owned <-> exists p, index p = i /\ belongs None l p lineID).
Context (Hgen : Forall2 (fun b g => item_geometry (JObject g) = Some (c, g, b) /\ granularity_of g = "word"%string) boxes generated).
Context (Hboxes : StronglySorted (fun b b' => x1 b < x1 b') boxes).
Context (Hin : Forall (fun b => holds_point r (center_x b) (center_y b) = true) boxes).
Context (Hfree : Forall (fun b => forall id' r', (id', r') ∈ lines_info c (take li l) ->
  holds_point r' (center_x b) (center_y b) = false) boxes).

Definition before_part : list json := keep 0 owned (take (S li) (<[li := JObject template]> l)).
Definition after_part : list json := keep (S li) owned (drop (S li) l).
Definition replaced : list json := before_part ++ (JObject <$> generated) ++ after_part.

Definition new_words : list positionedAnnotationWord := words_at (length before_part) generated boxes.

Lemma line_index_lt : (li < length l)%nat.
Proof. by eapply lookup_lt_Some. Qed.

Lemma owned_is_word i v : i ∈ owned -> l !! i = Some v -> exists c' w, item_word i v = Some (c', w).
Proof.
  intros (p & <- & (v' & c' & w & line & Hv & Hw & _))%Howned Hl. rewrite Hl in Hv. injection Hv as <-. by exists c', w.
Qed.

Lemma inserted_split : <[li := JObject template]> l = take (S li) (<[li := JObject template]> l) ++ drop (S li) l.
Proof. rewrite <-(take_drop (S li) (<[li := JObject template]> l)) at 1. f_equal. apply drop_insert_lt; lia. Qed.

Lemma inserted_lookup i v : (take (S li) (<[li := JObject template]> l)) !! i = Some v ->
  (i = li /\ v = JObject template) \/ (i <> li /\ l !! i = Some v).
Proof.
  pose proof line_index_lt. rewrite lookup_take_Some. intros [Hi Hlt]. destruct (decide (i = li)) as [-> |Hne].
  - rewrite list_lookup_insert_eq in Hi by done. injection Hi as <-. by left.
  - rewrite list_lookup_insert_ne in Hi by done. by right.
Qed.

Lemma replaced_lines c' : lines_info c' replaced = lines_info c' l.
Proof.
  unfold lines_info, replaced, before_part, after_part. rewrite !omap_app, !keep_omap.
  - assert (Hg : omap (line_info c') (JObject <$> generated) = []).
    { clear Hboxes Hin Hfree. induction Hgen as [|b g bs gs [Hg1 Hg2] Hg IH]; [done|]. cbn [fmap list_fmap omap list_omap].
      unfold line_info at 1. rewrite Hg1. cbn [mbind option_bind]. rewrite Hg2, andb_false_r. exact (IH Hg). }
    rewrite Hg. cbn [app]. rewrite <-omap_app, <-inserted_split. eapply omap_insert_same; [exact Hline|apply Htemplate].
  - intros i v Hv Ho. rewrite lookup_drop in Hv. destruct (owned_is_word _ v Ho Hv) as (c2 & w & Hw). by eapply word_no_line.
  - intros i v [[-> ->]|[_ Hv]]%inserted_lookup Ho.
    + rewrite Htemplate. destruct (owned_is_word _ _ Ho Hline) as (c2 & w & Hw). by eapply word_no_line.
    + destruct (owned_is_word _ v Ho Hv) as (c2 & w & Hw). by eapply word_no_line.
Qed.

(** A kept word does not belong to the line. *)
Lemma kept_word_elsewhere p v i c' w : l !! i = Some v -> i ∉ owned -> item_word (index p) v = Some (c', w) ->
  first_info (lines_info c' l) (centerX w) (centerY w) <> Some lineID.
Proof.
  intros Hv Hi Hw Hf. destruct (item_word_geometry _ _ _ _ Hw) as (b & rb & Hg & Hgw & ->).
  apply Hi, Howned. exists (word_of i b rb). split; [done|]. apply belongs_info.
  exists v, c', (spatial_word i b rb). split_and!; [done| |done|done].
  unfold item_word. cbn. rewrite Hg. cbn. by rewrite Hgw.
Qed.

Lemma replaced_lookup i v : replaced !! i = Some v ->
  (exists j, (i = length before_part + j)%nat /\ (JObject <$> generated) !! j = Some v) \/
  v = JObject template \/ exists j, l !! j = Some v /\ j ∉ owned.
Proof.
  unfold replaced. intros [Hb|[Hb Hr]]%lookup_app_Some.
  - right. destruct (keep_lookup _ _ _ _ _ Hb) as (j & [[-> ->]|[_ Hj]]%inserted_lookup & Ho); [by left|].
    right. by exists j.
  - apply lookup_app_Some in Hr as [Hg|[Hg Ha]].
    + left. exists (i - length before_part)%nat. split; [lia|done].
    + right. right. destruct (keep_lookup _ _ _ _ _ Ha) as (j & Hj & Ho). rewrite lookup_drop in Hj. by exists (S li + j)%nat.
Qed.

Lemma center_owned b : b ∈ boxes -> first_info (lines_info c l) (center_x b) (center_y b) = Some lineID.
Proof.
  intros Hb. rewrite Forall_forall in Hin, Hfree.
  assert (Hsplit : lines_info c l = lines_info c (take li l) ++ (lineID, r) :: lines_info c (drop (S li) l)).
  { unfold lines_info. rewrite <-(take_drop_middle l li _ Hline) at 1. rewrite omap_app. f_equal.
    cbn [omap list_omap]. unfold line_info at 1. rewrite Hinfo. cbn [mbind option_bind].
    rewrite Hgran, !bool_decide_eq_true_2 by done. cbn [andb]. by rewrite Hid. }
  rewrite Hsplit. apply first_info_unique; [by apply Hin|]. by apply Hfree.
Qed.

Lemma belongs_replaced p : belongs None replaced p lineID <-> p ∈ new_words.
Proof.
  rewrite belongs_info. setoid_rewrite replaced_lines. unfold new_words. rewrite elem_of_words_at. split.
  - intros (v & c' & w & Hv & Hw & Hp & Hf). destruct (replaced_lookup _ _ Hv) as [(j & Hi & Hj)|[-> |(j & Hj & Ho)]].
    + rewrite list_lookup_fmap in Hj. destruct (generated !! j) as [g|] eqn:Eg; [|done]. injection Hj as <-.
      destruct (Forall2_lookup_r _ _ _ _ _ Hgen Eg) as (b & Hb & Hgg & Hgw). exists j, g, b. split_and!; [done|done|].
      apply item_word_geometry in Hw as (a' & r' & Hg' & _ & ->). rewrite Hgg in Hg'. injection Hg' as <- <- <-.
      rewrite <-Hp. unfold word_of. cbn. by rewrite <-Hi.
    + by rewrite Htemplate_word in Hw.
    + by destruct (kept_word_elsewhere p v j c' w Hj Ho Hw).
  - intros (j & g & b & Hg & Hb & ->). destruct (Forall2_lookup_lr _ _ _ _ _ _ Hgen Hb Hg) as [Hgg Hgw].
    exists (JObject g), c, (spatial_word (length before_part + j) g b). split_and!; [| |done|].
    + unfold replaced, word_of. cbn. rewrite lookup_app_r by lia.
      replace (length before_part + j - length before_part)%nat with j by lia.
      rewrite lookup_app_l by (rewrite length_fmap; by eapply lookup_lt_Some).
      by rewrite list_lookup_fmap, Hg.
    + unfold item_word. rewrite Hgg. cbn. by rewrite Hgw.
    + apply center_owned. by eapply list_elem_of_lookup_2.
Qed.

Lemma strictly_sorted {A} (key : A -> Z) ls : StronglySorted (fun a b => key a < key b) ls ->
  StronglySorted (fun a b => key a <= key b) ls /\ forall x y, x ∈ ls -> y ∈ ls -> key x = key y -> x = y.
Proof.
  intros Hs. split; [eapply StronglySorted_impl; [|exact Hs]; intros; cbn in *; lia|].
  intros x y [i Hx]%list_elem_of_lookup_1 [j Hy]%list_elem_of_lookup_1 Hk.
  destruct (Nat.lt_trichotomy i j) as [Hlt|[-> |Hlt]]; [|congruence|].
  - pose proof (StronglySorted_lookup _ _ _ _ _ _ Hs Hlt Hx Hy) as Hxy. cbn in Hxy. lia.
  - pose proof (StronglySorted_lookup _ _ _ _ _ _ Hs Hlt Hy Hx) as Hxy. cbn in Hxy. lia.
Qed.

(** The words listed for the line are the generated ones, in order. *)
Lemma listed_replaced canvases : canvas_order replaced None canvases ->
  listed (assign_ref canvases replaced None) lineID = new_words.
Proof.
  intros Hord. symmetry.
  destruct (strictly_sorted wx1 new_words) as [Hs Hinj]; [by apply words_at_sorted|].
  apply (sorted_unique wx1); [|done|apply listed_sorted|done].
  apply NoDup_Permutation; [apply words_at_NoDup|by eapply NoDup_fmap_1, listed_NoDup|].
  intros p. by rewrite listed_belongs, belongs_replaced.
Qed.

Fixpoint located_at (position : nat) (gs : list obj) (bs : list rect) : list locatedAnnotation :=
  match gs, bs with
  | g :: gs, b :: bs => {| lannotation := g; lindex := position; lbox := b |} :: located_at (S position) gs bs
  | _, _ => []
  end.

Lemma located_new_words : locatedWords new_words = located_at (length before_part) generated boxes.
Proof.
  unfold locatedWords, new_words. generalize (length before_part). intros position.
  assert (Ho : omap locate_word (words_at position generated boxes) = located_at position generated boxes).
  { clear Hboxes Hin Hfree. revert position. induction Hgen as [|b g bs gs [Hg _] Hrest IH]; intros position; [done|].
    cbn [words_at located_at omap list_omap]. unfold locate_word at 1. cbn [word_of SpatialWords.annotation index].
    unfold item_geometry in Hg. destruct (parseXYWH (extractFragment g)) as [b'|]; [|done].
    destruct (bool_decide _); [done|]. injection Hg as _ <-. f_equal. by apply IH. }
  rewrite Ho. set (ls := located_at position generated boxes).
  assert (Hls : StronglySorted (fun w w' => x1 (lbox w) < x1 (lbox w')) ls).
  { unfold ls. clear -Hboxes. revert position generated. induction Hboxes as [|b bs Hs IH Hb]; intros position gs; destruct gs as [|g gs]; cbn; try constructor.
    - apply (IH Hs).
    - clear IH Hboxes Hs. revert gs position. induction bs as [|b' bs IHb]; intros gs position; destruct gs as [|g' gs]; cbn; try constructor.
      + by apply Forall_cons in Hb as [Hb _].
      + apply Forall_cons in Hb as [_ Hb]. by apply (IHb Hb). }
  destruct (strictly_sorted (fun w => x1 (lbox w)) ls Hls) as [Hle Hinj].
  symmetry. apply (sorted_unique (fun w => x1 (lbox w))); [|done|apply within_line_sorted|done].
  unfold sortLocatedWordsWithinLine. by rewrite SliceStable_Permutation.
Qed.

Lemma located_at_annotations position gs bs : length gs = length bs ->
  lannotation <$> located_at position gs bs = gs /\ lbox <$> located_at position gs bs = bs.
Proof.
  revert position bs. induction gs as [|g gs IH]; intros position [|b bs] Hl; try done. cbn.
  destruct (IH (S position) bs) as [-> ->]; [by injection Hl|done].
Qed.

End replaced.
End SplitOwners.

(** * The assignment after an edit

    An edit of a page that moves nothing: items get other texts, some words go away. The
    words a line has afterwards are the ones it had, less those removed, in the same
    order: sorting commutes with the edit because it depends on geometry and positions
    only. *)

Module Reassign.
Import GoStr GoSort Json Annotations SpatialWords SpatialOwners SplitOwners.
#[local] Open Scope Z_scope.

(** ** Sorting what is left of a list *)

Section sort.
Context {A B : Type} (less : A -> A -> bool) (less' : B -> B -> bool) (f : A -> option B).
Context (less_trans : forall a b c, less a b = true -> less b c = true -> less a c = true)
        (less_weak : forall a b c, less a b = false -> less b c = false -> less a c = false).

#[local] Abbreviation sorted := (StronglySorted (before less (fun _ _ => True))).

(** What [f] keeps of [acc] and of [x] is ordered as it was. *)
Definition keeps_order (x y : A) : Prop := forall x' y', f x = Some x' -> f y = Some y' -> less' x' y' = less x y.

Lemma omap_insert_stable x acc : sorted acc -> Forall (keeps_order x) acc ->
  omap f (insert_stable less x acc) =
  match f x with Some x' => insert_stable less' x' (omap f acc) | None => omap f acc end.
Proof.
  induction 1 as [|y acc Hs IH Hy]; intros Ho.
  { cbn. by destruct (f x). }
  apply Forall_cons in Ho as [Hoy Ho]. specialize (IH Ho). cbn [insert_stable]. destruct (less x y) eqn:E.
  - cbn [omap list_omap]. destruct (f x) as [x'|] eqn:Ex; [|done].
    assert (Hb : Forall (fun z => less x z = true) (y :: acc)).
    { constructor; [done|]. eapply Forall_impl; [exact Hy|]. intros z Hz. by eapply (less_before_trans less less_trans less_weak). }
    change (match f y with Some b => b :: omap f acc | None => omap f acc end) with (omap f (y :: acc)).
    destruct (omap f (y :: acc)) as [|z' l] eqn:El; [done|]. cbn.
    assert (Hz : z' ∈ omap f (y :: acc)) by (rewrite El; by left). apply list_elem_of_omap in Hz as (z & Hz & Hfz).
    assert (Hl : less' x' z' = true); [|by rewrite Hl].
    rewrite (proj1 (Forall_forall _ _) (Forall_cons_2 _ _ _ Hoy Ho) z Hz x' z' Ex Hfz). by apply (proj1 (Forall_forall _ _) Hb).
  - cbn [omap list_omap]. rewrite IH. destruct (f x) as [x'|] eqn:Ex, (f y) as [y'|] eqn:Ey; try done.
    cbn. by rewrite (Hoy x' y' Ex Ey), E.
Qed.

Lemma SliceStable_omap l : (forall x y, x ∈ l -> y ∈ l -> keeps_order x y) ->
  omap f (SliceStable less l) = SliceStable less' (omap f l).
Proof.
  intros Ho. unfold SliceStable. assert (H : forall acc, sorted acc -> (forall x y, x ∈ l -> y ∈ acc -> keeps_order x y) ->
    omap f (foldl (fun acc x => insert_stable less x acc) acc l) =
    foldl (fun acc x => insert_stable less' x acc) (omap f acc) (omap f l)).
  { induction l as [|x l IH]; intros acc Ha Hx; [done|]. cbn [foldl]. rewrite IH.
    - rewrite omap_insert_stable; [|done|apply Forall_forall; intros y Hy; apply Hx; [by left|done]].
      cbn [omap list_omap]. by destruct (f x).
    - intros y z Hy Hz. apply Ho; by right.
    - apply insert_stable_sorted; [done..|]. by apply Forall_true.
    - intros y z Hy Hz. rewrite insert_stable_Permutation in Hz. apply elem_of_cons in Hz as [->|Hz].
      + apply Ho; [by right|by left].
      + apply Hx; [by right|done]. }
  apply H; [constructor|by intros x y _ ?%elem_of_nil].
Qed.
End sort.

Lemma word_less_lex a b : word_less a b = true <->
  centerY a < centerY b \/ (centerY a = centerY b /\ (index (positioned a) < index (positioned b))%nat).
Proof.
  unfold word_less. destruct (Z.eqb_spec (centerY a) (centerY b)); [rewrite Nat.ltb_lt|rewrite Z.ltb_lt]; lia.
Qed.
Lemma word_less_not a b : word_less a b = false <->
  ~ (centerY a < centerY b \/ (centerY a = centerY b /\ (index (positioned a) < index (positioned b))%nat)).
Proof. rewrite <-word_less_lex. by destruct (word_less a b). Qed.
Lemma word_less_trans a b c : word_less a b = true -> word_less b c = true -> word_less a c = true.
Proof. rewrite !word_less_lex. lia. Qed.
Lemma word_less_weak a b c : word_less a b = false -> word_less b c = false -> word_less a c = false.
Proof. rewrite !word_less_not. lia. Qed.
Lemma by_x1_trans a b c : by_x1 a b = true -> by_x1 b c = true -> by_x1 a c = true.
Proof. unfold by_x1. lia. Qed.
Lemma by_x1_weak a b c : by_x1 a b = false -> by_x1 b c = false -> by_x1 a c = false.
Proof. unfold by_x1. lia. Qed.

(** ** The list of a line, in order *)

Definition ordered (items : list json) (id c : string) : list positionedAnnotationWord :=
  positioned <$> filter (fun w => goes_to (lines_on None c items) id w = true) (SliceStable word_less (words_on c items)).

Lemma listed_ordered canvases items id :
  listed (assign_ref canvases items None) id = SliceStable by_x1 (mjoin (ordered items id <$> canvases)).
Proof.
  unfold assign_ref. fold (placed None items). unfold listed. rewrite lookup_fmap.
  set (f := foldl _ ∅ canvases). assert (Hf : listed f id = mjoin (ordered items id <$> canvases)).
  { unfold f. clear f. assert (H : forall assigned, listed (foldl (fun assigned canvasURI =>
      assign_canvas_ref (default [] (linesByCanvas (placed None items) !! canvasURI))
        (default [] (wordsByCanvas (placed None items) !! canvasURI)) assigned) assigned canvases) id =
      listed assigned id ++ mjoin (ordered items id <$> canvases)).
    { induction canvases as [|c cs IH]; intros assigned; cbn [foldl fmap list_fmap]; [by rewrite app_nil_r|].
      rewrite IH. unfold assign_canvas_ref. rewrite fold_give, placed_lines, placed_words. cbn. by rewrite app_assoc. }
    rewrite H. unfold listed. by rewrite lookup_empty. }
  unfold listed in Hf. destruct (f !! id); cbn in *; by rewrite <-Hf.
Qed.

Lemma first_line_elem L w line : first_line L w = Some line -> line ∈ L.
Proof.
  induction L as [|l L IH]; [done|]. cbn. destruct (holds_center w l); [intros [= ->]; by left|].
  intros H. right. by apply IH.
Qed.

(** A line identity that is on one canvas only. *)
Lemma listed_one canvases items id c0 : NoDup canvases -> (forall c w, w ∈ words_on c items -> c ∈ canvases) ->
  (forall c line, line ∈ lines_on None c items -> lid line = id -> c = c0) ->
  listed (assign_ref canvases items None) id = SliceStable by_x1 (ordered items id c0).
Proof.
  intros Hnd Hall Hone. rewrite listed_ordered. f_equal.
  assert (Hempty : forall c, c <> c0 -> ordered items id c = []).
  { intros c Hc. unfold ordered. destruct (filter _ _) as [|w ws] eqn:E; [done|]. exfalso.
    assert (Hw : w ∈ filter (fun w => goes_to (lines_on None c items) id w = true) (SliceStable word_less (words_on c items)))
      by (rewrite E; by left).
    apply list_elem_of_filter in Hw as [Hg _]. unfold goes_to in Hg. apply bool_decide_eq_true in Hg.
    destruct (first_line _ w) as [line|] eqn:Ef; [|done]. injection Hg as Hid. apply Hc, (Hone c line); [|done].
    by apply first_line_elem in Ef. }
  assert (Hrest : forall cs, c0 ∉ cs -> mjoin (ordered items id <$> cs) = []).
  { intros cs Hc. apply join_nil, Forall_fmap, Forall_forall. intros c Hin. cbn. apply Hempty. by intros ->. }
  destruct (decide (c0 ∈ canvases)) as [Hin|Hout].
  - clear Hall. induction Hnd as [|c cs Hc Hnd IH]; [by apply elem_of_nil in Hin|]. cbn. apply elem_of_cons in Hin as [->|Hin].
    + by rewrite Hrest, app_nil_r.
    + rewrite Hempty by (by intros ->). by apply IH.
  - rewrite Hrest by done. unfold ordered. destruct (words_on c0 items) as [|w ws] eqn:E; [done|].
    destruct Hout. apply (Hall c0 w). rewrite E. by left.
Qed.

(** ** Edits *)

(** [v'] lies where [v] does, with the same granularity and identity. *)
Definition same_place (v v' : json) : Prop :=
  match item_geometry v with
  | None => item_geometry v' = None
  | Some (c, a, r) => exists a', v' = JObject a' /\ item_geometry v' = Some (c, a', r) /\
      granularity_of a' = granularity_of a /\ annStringValue a' "id" = annStringValue a "id"
  end.

(** An item and what becomes of it; lines stay. *)
Abbreviation edit := (json * option json)%type.
Definition harmless (e : edit) : Prop :=
  match e.2 with Some v' => same_place e.1 v' | None => forall c, line_info c e.1 = None end.

Lemma same_place_word v v' i j c w : same_place v v' -> item_word i v = Some (c, w) -> exists a', v' = JObject a' /\
  item_word j v' = Some (c, {| positioned := {| index := j; wx1 := wx1 (positioned w); annotation := a' |};
                               centerX := centerX w; centerY := centerY w |}).
Proof.
  unfold same_place, item_word. destruct (item_geometry v) as [[[c' a] r]|]; [|done]. cbn.
  intros (a' & -> & -> & Hg & _). cbn. rewrite Hg. destruct (bool_decide (granularity_of a = _)); [|done].
  intros [= <- <-]. by exists a'.
Qed.

Lemma same_place_no_word v v' i j : same_place v v' -> item_word i v = None -> item_word j v' = None.
Proof.
  unfold same_place, item_word. destruct (item_geometry v) as [[[c' a] r]|]; [|by intros ->]. cbn.
  intros (a' & -> & -> & Hg & _). cbn. rewrite Hg. by destruct (bool_decide (granularity_of a = _)).
Qed.

Lemma same_place_info v v' c : same_place v v' -> line_info c v' = line_info c v.
Proof.
  unfold same_place, line_info. destruct (item_geometry v) as [[[c' a] r]|]; [|by intros ->].
  intros (a' & -> & -> & Hg & Hi). cbn. by rewrite Hg, Hi.
Qed.

Section edits.
Context (E : list edit).

#[local] Abbreviation old := (E.*1).
#[local] Abbreviation new := (omap snd E).

(** Where the item at a position goes. *)
Definition moved (i : nat) : nat := length (omap snd (take i E)).

Definition after (p : positionedAnnotationWord) : option positionedAnnotationWord :=
  match E !! index p with
  | Some (_, Some (JObject a)) => Some {| index := moved (index p); wx1 := wx1 p; annotation := a |}
  | _ => None
  end.
Definition after_word (w : spatialWord) : option spatialWord :=
  (fun p => {| positioned := p; centerX := centerX w; centerY := centerY w |}) <$> after (positioned w).

Context (HE : Forall harmless E).

Lemma edited_lines c : lines_info c new = lines_info c old.
Proof.
  unfold lines_info. revert HE. clear. induction 1 as [|[v [v'|]] l He _ IH]; [done| |];
    cbn [omap list_omap fmap list_fmap fst snd].
  - unfold harmless in He. cbn [fst snd] in He. rewrite (same_place_info _ _ _ He). by rewrite IH.
  - pose proof (He c) as Hc. cbn [fst] in Hc. rewrite Hc. exact IH.
Qed.

Lemma edited_words c : words_on c new = omap after_word (words_on c old).
Proof.
  unfold words_on. enough (H : forall E2 E1, E = E1 ++ E2 ->
    on_canvas item_word c (length (omap snd E1)) (omap snd E2) = omap after_word (on_canvas item_word c (length E1) (E2.*1)))
    by by apply (H E []).
  intros E2. induction E2 as [|[v ov] E2 IH]; intros E1 Hsplit; [done|].
  assert (Hat : E !! length E1 = Some (v, ov)) by by rewrite Hsplit, list_lookup_middle.
  assert (Hmoved : moved (length E1) = length (omap snd E1)).
  { unfold moved. by rewrite Hsplit, take_app_length. }
  assert (Hnext : E = (E1 ++ [(v, ov)]) ++ E2) by by rewrite <-app_assoc.
  specialize (IH _ Hnext). rewrite omap_app, !length_app, Nat.add_1_r in IH.
  pose proof (proj1 (Forall_lookup _ _) HE _ _ Hat) as Hok. unfold harmless in Hok. cbn in Hok.
  cbn [omap list_omap snd fmap list_fmap fst on_canvas]. destruct ov as [v'|]; cbn [omap list_omap length snd] in IH.
  - rewrite Nat.add_1_r in IH. cbn [on_canvas]. destruct (item_word (length E1) v) as [[c' w]|] eqn:Ew.
    + pose proof (item_word_geometry _ _ _ _ Ew) as (a & r & Hg & Hgr & Hw).
      destruct (same_place_word _ _ _ (length (omap snd E1)) _ _ Hok Ew) as (a' & -> & ->).
      destruct (bool_decide (c' = c)); [|exact IH]. cbn [omap list_omap].
      unfold after_word at 1, after. rewrite Hw. cbn [positioned spatial_word index]. rewrite Hat, Hmoved. cbn. f_equal. exact IH.
    + rewrite (same_place_no_word _ _ _ _ Hok Ew). exact IH.
  - rewrite Nat.add_0_r in IH. rewrite IH. destruct (item_word (length E1) v) as [[c' w]|] eqn:Ew; [|done].
    destruct (bool_decide (c' = c)); [|done]. cbn [omap list_omap].
    pose proof (item_word_geometry _ _ _ _ Ew) as (a & r & Hg & Hgr & Hw).
    unfold after_word at 2, after. rewrite Hw. cbn [positioned spatial_word index]. by rewrite Hat.
Qed.

Lemma goes_edited c id w w' : after_word w = Some w' ->
  goes_to (lines_on None c new) id w' = goes_to (lines_on None c old) id w.
Proof.
  unfold after_word. destruct (after _) as [p|]; [|done]. intros [= <-]. unfold goes_to.
  by rewrite !first_line_info, !lines_on_info, edited_lines.
Qed.

Lemma moved_lt i j : (i < j)%nat -> (exists v, E !! i = Some (v.1, Some v.2)) -> (moved i < moved j)%nat.
Proof.
  intros Hij [[v v'] Hv]. unfold moved. cbn in Hv.
  rewrite <-(take_drop (S i) (take j E)), take_take, Nat.min_l by lia.
  rewrite omap_app, length_app, (take_S_r _ _ _ Hv), omap_app, length_app. cbn. lia.
Qed.

Lemma after_index p p' : after p = Some p' -> index p' = moved (index p) /\ wx1 p' = wx1 p /\
  exists v, E !! index p = Some (v, Some (JObject (annotation p'))).
Proof.
  unfold after. destruct (E !! index p) as [[v [[]|]]|] eqn:Ep; try done. intros [= <-]. cbn. eauto.
Qed.

Lemma after_word_less w1 w2 : keeps_order word_less word_less after_word w1 w2.
Proof.
  intros w1' w2'. unfold after_word. destruct (after (positioned w1)) as [p1|] eqn:E1; [|done].
  destruct (after (positioned w2)) as [p2|] eqn:E2; [|done]. intros [= <-] [= <-]. unfold word_less. cbn [index positioned centerY].
  apply after_index in E1 as (-> & _ & v1 & E1), E2 as (-> & _ & v2 & E2).
  destruct (centerY w1 =? centerY w2); [|done]. set (i := index (positioned w1)) in *. set (j := index (positioned w2)) in *.
  destruct (Nat.ltb_spec (moved i) (moved j)) as [Hm|Hm], (Nat.ltb_spec i j) as [Hi|Hi]; try done.
  - destruct (decide (i = j)) as [Heq|Hne]; [rewrite Heq in Hm; lia|]. assert (Hji : (j < i)%nat) by lia.
    pose proof (moved_lt j i Hji (ex_intro _ (_, _) E2)). lia.
  - pose proof (moved_lt i j Hi (ex_intro _ (_, _) E1)). lia.
Qed.

Lemma after_by_x1 p1 p2 : keeps_order by_x1 by_x1 after p1 p2.
Proof. intros p1' p2' (_ & H1 & _)%after_index (_ & H2 & _)%after_index. unfold by_x1. by rewrite H1, H2. Qed.

Lemma omap_filter_words (f : spatialWord -> option spatialWord) (P Q : spatialWord -> bool) (ws : list spatialWord) :
  (forall w w', f w = Some w' -> Q w' = P w) ->
  filter (fun w => Q w = true) (omap f ws) = omap f (filter (fun w => P w = true) ws).
Proof.
  intros Hf. induction ws as [|w ws IH]; [done|]. cbn [omap list_omap]. rewrite (filter_cons _ w).
  destruct (f w) as [w'|] eqn:Ew.
  - rewrite filter_cons, (Hf _ _ Ew). destruct (decide (P w = true)); [cbn [omap list_omap]; by rewrite Ew, IH|done].
  - destruct (decide _); [cbn [omap list_omap]; by rewrite Ew|done].
Qed.

Lemma ordered_edited id c : ordered new id c = omap after (ordered old id c).
Proof.
  unfold ordered. rewrite edited_words.
  rewrite <-(SliceStable_omap word_less word_less after_word word_less_trans word_less_weak)
    by (intros; apply after_word_less).
  rewrite (omap_filter_words after_word (goes_to (lines_on None c old) id)) by apply goes_edited.
  induction (filter _ (SliceStable _ _)) as [|w ws IH]; [done|]. cbn [omap list_omap fmap list_fmap].
  unfold after_word at 1. by destruct (after (positioned w)); cbn; rewrite IH.
Qed.

(** The words of a line after the edit. *)
Lemma listed_edited canvases canvases' id c0 :
  canvas_order old None canvases -> canvas_order new None canvases' ->
  (forall c line, line ∈ lines_on None c old -> lid line = id -> c = c0) ->
  listed (assign_ref canvases' new None) id = omap after (listed (assign_ref canvases old None) id).
Proof.
  intros [Hnd Hall]%canvas_order_NoDup [Hnd' Hall']%canvas_order_NoDup Hone.
  rewrite (listed_one canvases old id c0), (listed_one canvases' new id c0); [| |done|..]; try done.
  - rewrite ordered_edited. symmetry. apply SliceStable_omap; [apply by_x1_trans|apply by_x1_weak|].
    intros; apply after_by_x1.
  - intros c line Hl Hid. assert (Hin : info_of line ∈ lines_info c old).
    { rewrite <-edited_lines, <-lines_on_info. by apply list_elem_of_fmap_2. }
    rewrite <-lines_on_info in Hin. apply list_elem_of_fmap in Hin as (line' & Heq & Hl').
    apply (Hone c line'); [done|]. injection Heq as <- _. done.
Qed.
End edits.

End Reassign.
