(* ===== verification/DraftTheorems.v ===== *)
(** * Theorems on the structural operations

    Splitting a line into words and in two, and joining, as a client of the editor sees
    them: which annotations the page then has, where they lie, what they say and which
    line owns which word. *)

From Stdlib Require Import ZArith Lia Ascii String.
From stdpp Require Import base gmap sets strings list sorting.
From S2P Require Import Prelude GoStrings GoSort Json JsonParse MediaFragment TargetGeometry Presentation LineIndex TextFields Annotations DerivedFacts SpatialWords SpatialSweep SpatialOwners Drafts DraftOps DraftFacts SplitOwners.

Module DraftTheorems.
Import GoStr GoSort TextFields LineIndex Json JsonParse MediaFragment TargetGeometry Presentation Annotations DerivedFacts LineGeometry SpatialWords SpatialSweep SpatialOwners Drafts DraftOps DraftFacts SplitOwners LineFacts.
#[local] Open Scope Z_scope.

(** A draft of a canonical page. *)
Record editable (draft : annotationDraft) : Prop := {
  ed_count : Z.of_nat (length (items draft)) <= MaxAnnotationsPerPage;
  ed_well_formed : Forall well_formed (items draft);
  ed_named : CanvasURI (identity draft) <> ""%string;
  ed_visible : all_chars visible (CanvasURI (identity draft)) = true;
  ed_whole : all_chars (other_than "#"%char) (CanvasURI (identity draft)) = true;
}.

(** A line on the page's canvas with the target and body Scribe writes. *)
Record ready (draft : annotationDraft) (lineID : string) (line : locatedAnnotation) : Prop := {
  rd_id : annStringValue (lannotation line) "id" = TrimSpace lineID;
  rd_on : TrimSpace (annStringValue (lannotation line) "on") = ""%string;
  rd_canvas : TargetCanvas (default JNull (jget (lannotation line) "target")) = CanvasURI (identity draft);
  rd_target : plain_target (default JNull (jget (lannotation line) "target"));
  rd_body : quiet_body (jget (lannotation line) "body");
}.

(** ** Annotations on the canvas *)

Lemma canvas_of a c : TrimSpace (annStringValue a "on") = ""%string ->
  TargetCanvas (default JNull (jget a "target")) = c -> all_chars (other_than "#"%char) c = true ->
  extractCanvasURI a = c.
Proof. intros Hon Ht Hc. unfold extractCanvasURI. rewrite Hon, bool_decide_eq_true_2, Ht by done. by rewrite Cut_none. Qed.

Lemma geometry_of a c r : extractCanvasURI a = c -> c <> ""%string -> parseXYWH (extractFragment a) = Ok r ->
  item_geometry (JObject a) = Some (c, a, r).
Proof. intros Hc Hn Hr. unfold item_geometry. rewrite Hr, Hc. by rewrite bool_decide_eq_false_2. Qed.

Lemma granularity_word a : jget a "textGranularity" = Some (JString "word") -> granularity_of a = "word"%string.
Proof. intros Ha. unfold granularity_of, annStringValue. by rewrite Ha. Qed.
Lemma granularity_line a : jget a "textGranularity" = Some (JString "line") -> granularity_of a = "line"%string.
Proof. intros Ha. unfold granularity_of, annStringValue. by rewrite Ha. Qed.

(** A derived annotation lies on the canvas. *)
Lemma derived_geometry template a id gran c r text : derived template a id gran c r text ->
  TrimSpace (annStringValue template "on") = ""%string -> c <> ""%string -> all_chars (other_than "#"%char) c = true ->
  item_geometry (JObject a) = Some (c, a, r).
Proof.
  intros Hd Hon Hn Hc. apply geometry_of; [|done|apply Hd]. apply canvas_of; [|apply Hd|done].
  transitivity (TrimSpace (annStringValue template "on")); [|done].
  f_equal. apply annStringValue_eq. apply Hd. unfold derived_keys. set_solver.
Qed.

(** A new text leaves the line where it is. *)
Lemma text_line_info a text c' : line_info c' (JObject (setAnnotationText a text)) = line_info c' (JObject a).
Proof.
  unfold line_info, item_geometry, extractCanvasURI, extractFragment, granularity_of, annStringValue.
  rewrite !setAnnotationText_other by done.
  destruct (parseXYWH _); [|done]. destruct (bool_decide _); [done|]. cbn. by rewrite !setAnnotationText_other.
Qed.

Lemma text_item_word a text i : granularity_of a = "line"%string -> item_word i (JObject (setAnnotationText a text)) = None.
Proof.
  intros Ha. unfold item_word. destruct (item_geometry _) as [[[c b] r]|] eqn:E; [|done]. cbn.
  unfold item_geometry in E. destruct (parseXYWH _); [|done]. destruct (bool_decide _); [done|]. injection E as _ <- _.
  unfold granularity_of, annStringValue in *. rewrite setAnnotationText_other by done. by rewrite Ha.
Qed.

Lemma words_of_trimmed line requested words : words_of line requested = Ok words ->
  Forall (fun w => TrimSpace w = w /\ w <> ""%string) words.
Proof.
  unfold words_of. intros (ws & Hws & Hw)%result_bind_Ok. apply trim_words_trimmed in Hws.
  destruct (length (if _ : bool then _ else _) =? 0)%nat; [done|].
  destruct (MaxAnnotationsPerPage <? _); [done|]. destruct (existsb _ _); [done|]. injection Hw as <-.
  destruct (length ws =? 0)%nat; [|done]. eapply Forall_impl; [apply Fields_words|].
  intros w [Hs Hn]. split; [by apply spaceless_TrimSpace|done].
Qed.

Section theorems.
Context `{!Schema, !UrlParser, !UrlPrinter, !Sha256, !SvgMapper, !OcrPage, !MapRange}.
Context (Hrange : forall l, canvas_order l None (range_canvases l)).

Lemma wordsForLine_ref draft lineID : Z.of_nat (length (items draft)) <= maxInt64 ->
  wordsForLine draft lineID =
    locatedWords (listed (assign_ref (range_canvases (items draft)) (items draft) None) (TrimSpace lineID)).
Proof. intros Hl. unfold wordsForLine, assigned_words, listed. by rewrite assign_eq. Qed.

Lemma belongs_locates l p id : belongs None l p id -> exists w, locate_word p = Some w /\ lindex w = index p.
Proof.
  intros (v & c & w & line & _ & (b & r & Hg & _ & ->)%item_word_geometry & <- & _). cbn.
  unfold locate_word. cbn. unfold item_geometry in Hg. destruct v; try done.
  destruct (parseXYWH (extractFragment m)) as [r'|] eqn:E; [|done]. destruct (bool_decide _); [done|].
  injection Hg as _ <- <-. rewrite E. eauto.
Qed.

Lemma owned_indices_spec draft lineID i : Z.of_nat (length (items draft)) <= maxInt64 ->
  i ∈ indices (wordsForLine draft lineID) <-> exists p, index p = i /\ belongs None (items draft) p (TrimSpace lineID).
Proof.
  intros Hl. rewrite wordsForLine_ref by done. unfold indices, locatedWords, sortLocatedWordsWithinLine.
  rewrite elem_of_list_to_set, list_elem_of_fmap. setoid_rewrite SliceStable_Permutation. setoid_rewrite list_elem_of_omap.
  setoid_rewrite <-(listed_belongs (range_canvases (items draft)) (items draft) None _ _ (Hrange _)). split.
  - intros (w & -> & p & Hp & Hw). exists p. split; [|done]. unfold locate_word in Hw.
    destruct (parseXYWH _); [|done]. by injection Hw as <-.
  - intros (p & <- & Hp). pose proof Hp as Hb. apply listed_belongs in Hb; [|apply Hrange].
    destruct (belongs_locates _ _ _ Hb) as (w & Hw & Hi). exists w. split; [done|]. by exists p.
Qed.

Lemma keep_length position remove l : (length (keep position remove l) <= length l)%nat.
Proof. revert position. induction l as [|v l IH]; intros position; [done|]. cbn. specialize (IH (S position)). case_bool_decide; cbn; lia. Qed.

(** The parts of a successful split. *)
Record split_words (draft : annotationDraft) (lineID : string) (line : locatedAnnotation) (words : list string)
    (draft' : annotationDraft) (template : obj) (wordIDs : list string) (generated : list json) : Prop := {
  sw_wide : Z.of_nat (length words) <= x2 (lbox line) - x1 (lbox line);
  sw_some : (0 < length words)%nat;
  sw_ids : length wordIDs = length words;
  sw_template : template = setAnnotationText (lannotation line) (Join words " ");
  sw_generated : generate draft template (lbox line) (length words) 0 (zip wordIDs words) = Ok generated;
  sw_draft : draft' = with_items draft (replaceDraftItems (<[lindex line := JObject template]> (items draft))
    (indices (wordsForLine draft lineID)) (S (lindex line)) generated);
}.

Lemma split_words_Ok draft lineID requested line words draft' :
  annotation draft lineID "line" = Ok line -> words_of line requested = Ok words ->
  splitDraftLineIntoWords draft lineID requested = Ok draft' ->
  exists template wordIDs generated, split_words draft lineID line words draft' template wordIDs generated.
Proof.
  intros Ha Hw HE. pose proof (annotation_Ok _ _ _ _ Ha) as (_ & _ & Hr & _). unfold splitDraftLineIntoWords in HE.
  rewrite Ha in HE. cbn [mbind result_bind] in HE. rewrite Hw in HE. cbn [mbind result_bind] in HE.
  assert (Hn : (0 < length words)%nat).
  { unfold words_of in Hw. apply result_bind_Ok in Hw as (ws & _ & Hw). destruct (length (if _ : bool then _ else _) =? 0)%nat eqn:E; [done|].
    apply Nat.eqb_neq in E. destruct (MaxAnnotationsPerPage <? _); [done|]. destruct (existsb _ _); [done|].
    injection Hw as <-. lia. }
  destruct (Z.ltb_spec (Z.max 1 (x2 (lbox line) - x1 (lbox line))) (Z.of_nat (length words))) as [|Hwide]; [done|].
  destruct (MaxAnnotationsPerPage <? _); [done|].
  apply result_bind_Ok in HE as (_ & _ & HE). apply result_bind_Ok in HE as (ids & Hids & HE).
  apply result_bind_Ok in HE as (generated & Hgen & [= <-]).
  eexists _, ids, generated. constructor; [|done|by eapply word_ids_length|reflexivity|exact Hgen|done].
  unfold rect_ok in Hr. lia.
Qed.

Lemma Forall2_words {P : nat * (string * string) -> json -> Prop} ids words generated :
  length ids = length words ->
  Forall2 P (zip (seq 0 (length (zip ids words))) (zip ids words)) generated ->
  forall i word, words !! i = Some word -> exists id v, generated !! i = Some v /\ P (i, (id, word)) v.
Proof.
  intros Hl HF i word Hi. pose proof (lookup_lt_Some _ _ _ Hi) as Hlt.
  destruct (lookup_lt_is_Some_2 ids i ltac:(lia)) as [id Hid].
  assert (Hz : zip (seq 0 (length (zip ids words))) (zip ids words) !! i = Some (i, (id, word))).
  { rewrite lookup_zip_with. rewrite lookup_seq_lt by (rewrite length_zip_with; lia). cbn.
    by rewrite lookup_zip_with, Hid, Hi. }
  destruct (Forall2_lookup_l _ _ _ _ _ HF Hz) as (v & Hv & Hp). by exists id, v.
Qed.

(** The generated annotations as words on the canvas. *)
Definition generated_word (draft : annotationDraft) (line : rect) (n i : nat) (word : string) (g : obj) : Prop :=
  item_geometry (JObject g) = Some (CanvasURI (identity draft), g, word_box line n i) /\
  granularity_of g = "word"%string /\ extractAnnotationText g = word.

Lemma generated_words draft template line ids words generated :
  editable draft -> well_formed (JObject template) -> plain_target (default JNull (jget template "target")) ->
  TrimSpace (annStringValue template "on") = ""%string -> quiet_body (jget template "body") ->
  rect_ok line -> Z.of_nat (length words) <= x2 line - x1 line -> length ids = length words ->
  Forall (fun w => TrimSpace w = w /\ w <> ""%string) words ->
  generate draft template line (length words) 0 (zip ids words) = Ok generated ->
  exists gs, generated = JObject <$> gs /\ length gs = length words /\
    forall i g word, gs !! i = Some g -> words !! i = Some word -> generated_word draft line (length words) i word g.
Proof.
  intros Hed Hwt Hpt Hon Hq Hrect Hwide Hids Htrim Hgen.
  assert (Hzip : length (zip ids words) = length words) by (rewrite length_zip_with; lia).
  pose proof (generate_spec draft template line (length words) 0 (zip ids words) generated Hwt Hpt
    (ed_visible _ Hed) Hrect Hwide ltac:(lia) Hgen) as HF.
  assert (Hobj : exists gs, generated = JObject <$> gs).
  { clear -HF. induction HF as [|iw v iws vs (a & -> & _) _ (gs & ->)]; [by exists []|by exists (a :: gs)]. }
  destruct Hobj as (gs & ->). exists gs. split; [done|].
  assert (Hl : length gs = length words).
  { apply Forall2_length in HF. rewrite length_fmap in HF. rewrite <-HF, length_zip_with, length_seq. lia. }
  split; [done|]. intros i g word Hg Hw.
  destruct (Forall2_words ids words _ Hids HF i word Hw) as (id & v & Hv & a & Ha & Hd).
  rewrite list_lookup_fmap, Hg in Hv. injection Hv as <-. injection Ha as <-. cbn [fst snd] in Hd.
  rewrite Forall_lookup in Htrim. destruct (Htrim _ _ Hw) as [Ht Hne].
  split_and!.
  - eapply derived_geometry; [exact Hd|done|apply Hed|apply Hed].
  - apply granularity_word, (dv_granularity _ _ _ _ _ _ _ Hd).
  - rewrite (dv_text _ _ _ _ _ _ _ Hd); [done|by rewrite Ht|done].
Qed.

Lemma word_boxes_lookup line n i : (i < n)%nat -> word_boxes line n !! i = Some (word_box line n i).
Proof. intros Hi. unfold word_boxes. rewrite list_lookup_fmap, lookup_seq_lt by done. done. Qed.

Lemma word_boxes_sorted line n : rect_ok line -> Z.of_nat n <= x2 line - x1 line ->
  StronglySorted (fun b b' => x1 b < x1 b') (word_boxes line n).
Proof.
  intros Hr Hw. unfold word_boxes.
  assert (Hgen : forall k i, (i + k = n)%nat -> StronglySorted (fun b b' => x1 b < x1 b') (map (word_box line n) (seq i k))).
  { induction k as [|k IH]; intros i Hi; cbn; constructor; [apply IH; lia|].
    apply Forall_forall. intros b (j & -> & [Hj1 Hj2]%elem_of_seq)%list_elem_of_fmap.
    unfold word_box. cbn [x1]. nia. }
  by apply Hgen.
Qed.

Lemma word_box_inside line n i : rect_ok line -> Z.of_nat n <= x2 line - x1 line -> (i < n)%nat ->
  holds_point line (center_x (word_box line n i)) (center_y (word_box line n i)) = true.
Proof.
  intros Hr Hw Hi. destruct (word_box_ok line n i Hr Hw Hi) as (Hx & Hl & _). unfold rect_ok in Hr.
  unfold holds_point, center_x, center_y. change (y1 (word_box line n i)) with (y1 line). change (y2 (word_box line n i)) with (y2 line).
  set (b := word_box line n i) in *. clearbody b.
  pose proof (Z.div_mod (x2 b - x1 b) 2 ltac:(lia)). pose proof (Z.mod_pos_bound (x2 b - x1 b) 2 ltac:(lia)).
  pose proof (Z.div_mod (y2 line - y1 line) 2 ltac:(lia)). pose proof (Z.mod_pos_bound (y2 line - y1 line) 2 ltac:(lia)).
  rewrite !andb_true_iff, !Z.leb_le. lia.
Qed.

(** The page after a split: the words of the line are replaced by the generated ones, right after the line. *)
Lemma split_line_page draft lineID requested line words draft' :
  editable draft -> annotation draft lineID "line" = Ok line -> ready draft lineID line ->
  words_of line requested = Ok words -> valid_utf8 (TrimSpace (Join words " ")) = true ->
  splitDraftLineIntoWords draft lineID requested = Ok draft' ->
  exists gs, items draft' = replaced (items draft) (lindex line) (setAnnotationText (lannotation line) (Join words " "))
      (indices (wordsForLine draft lineID)) gs /\
    length gs = length words /\ (0 < length words)%nat /\ Z.of_nat (length words) <= x2 (lbox line) - x1 (lbox line) /\
    forall i g word, gs !! i = Some g -> words !! i = Some word -> generated_word draft (lbox line) (length words) i word g.
Proof.
  intros Hed Ha Hrd Hwo Hutf HE.
  destruct (split_words_Ok _ _ _ _ _ _ Ha Hwo HE) as (template & ids & generated & [Hwide Hsome Hids Htemp Hgen Hdraft]).
  destruct (annotation_Ok _ _ _ _ Ha) as (Hitem & Hgran & Hrect & Hparse & _).
  destruct (generated_words draft template (lbox line) ids words generated) as (gs & -> & Hgl & Hgs); try done.
  { rewrite Htemp. apply setAnnotationText_well_formed; [|done]. pose proof (ed_well_formed _ Hed) as Hwf.
    rewrite Forall_lookup in Hwf. by apply Hwf in Hitem. }
  { rewrite Htemp, setAnnotationText_other by done. apply Hrd. }
  { transitivity (TrimSpace (annStringValue (lannotation line) "on")); [|apply Hrd].
    f_equal. apply annStringValue_eq. rewrite Htemp. by apply setAnnotationText_other. }
  { rewrite Htemp. apply quiet_text, Hrd. }
  { by eapply words_of_trimmed. }
  exists gs. split_and!; [|done..]. rewrite Hdraft, <-Htemp. cbn [with_items items]. rewrite replaceDraftItems_spec.
  - unfold replaced, before_part, after_part. do 2 f_equal. f_equal. apply drop_insert_lt. lia.
  - rewrite length_insert. apply lookup_lt_Some in Hitem. lia.
Qed.

Lemma replaced_length l li template owned gs :
  (length (replaced l li template owned gs) <= length l + length gs)%nat.
Proof.
  unfold replaced, before_part, after_part. rewrite !length_app, length_fmap.
  pose proof (keep_length 0 owned (take (S li) (<[li:=JObject template]> l))) as K1.
  pose proof (keep_length (S li) owned (drop (S li) l)) as K2.
  rewrite length_take in K1. rewrite length_drop in K2. rewrite length_insert in K1. lia.
Qed.

(** Where no earlier line holds the center of a generated word, they are the words of the line. *)
Lemma split_line_words_owned draft lineID line words gs draft' :
  editable draft -> annotation draft lineID "line" = Ok line -> ready draft lineID line ->
  items draft' = replaced (items draft) (lindex line) (setAnnotationText (lannotation line) (Join words " "))
    (indices (wordsForLine draft lineID)) gs ->
  length gs = length words -> Z.of_nat (length words) <= x2 (lbox line) - x1 (lbox line) ->
  (forall i g word, gs !! i = Some g -> words !! i = Some word -> generated_word draft (lbox line) (length words) i word g) ->
  (forall b id r, b ∈ word_boxes (lbox line) (length words) ->
     (id, r) ∈ lines_info (CanvasURI (identity draft)) (take (lindex line) (items draft)) ->
     holds_point r (center_x b) (center_y b) = false) ->
  lbox <$> wordsForLine draft' lineID = word_boxes (lbox line) (length words) /\
  lannotation <$> wordsForLine draft' lineID = gs.
Proof.
  intros Hed Ha Hrd Hitems Hgl Hwide Hgs Hfree.
  destruct (annotation_Ok _ _ _ _ Ha) as (Hitem & Hgran & Hrect & Hparse & _).
  assert (Hlen : Z.of_nat (length (items draft)) <= maxInt64).
  { pose proof (ed_count _ Hed). unfold MaxAnnotationsPerPage, maxInt64 in *. lia. }
  set (template := setAnnotationText (lannotation line) (Join words " ")) in *.
  set (boxes := word_boxes (lbox line) (length words)) in *.
  assert (Hbl : length boxes = length words) by (unfold boxes, word_boxes; by rewrite length_map, length_seq).
  assert (Hbox : forall i b, boxes !! i = Some b -> (i < length words)%nat /\ b = word_box (lbox line) (length words) i).
  { intros i b Hb. assert (Hi : (i < length words)%nat) by (rewrite <-Hbl; by eapply lookup_lt_Some).
    split; [done|]. unfold boxes in Hb. rewrite word_boxes_lookup in Hb by done. by injection Hb. }
  set (owned := indices (wordsForLine draft lineID)) in *.
  assert (Hnl : Z.of_nat (length (items draft')) <= maxInt64).
  { rewrite Hitems. pose proof (replaced_length (items draft) (lindex line) template owned gs).
    pose proof (ed_count _ Hed). unfold MaxAnnotationsPerPage, maxInt64 in *. unfold rect_ok, MaxPixelCoordinate in Hrect. lia. }
  rewrite wordsForLine_ref, Hitems by done.
  assert (Hinfo : item_geometry (JObject (lannotation line)) = Some (CanvasURI (identity draft), lannotation line, lbox line)).
  { apply geometry_of; [|apply Hed|done]. apply canvas_of; [apply Hrd|apply Hrd|apply Hed]. }
  assert (HG : Forall2 (fun b g => item_geometry (JObject g) = Some (CanvasURI (identity draft), g, b) /\
    granularity_of g = "word"%string) boxes gs).
  { apply Forall2_same_length_lookup. split; [lia|]. intros i b g Hb Hg. destruct (Hbox _ _ Hb) as [Hi ->].
    destruct (lookup_lt_is_Some_2 words i Hi) as [word Hw]. by destruct (Hgs i g word Hg Hw) as (? & ? & _). }
  rewrite (listed_replaced (items draft) (lindex line) (lannotation line) template (CanvasURI (identity draft))
    (TrimSpace lineID) (lbox line) owned boxes gs); try done.
  2:{ apply Hrd. }
  2:{ intros c'. apply text_line_info. }
  2:{ intros i. by apply text_item_word. }
  2:{ intros i. by apply owned_indices_spec. }
  2:{ by apply word_boxes_sorted. }
  2:{ apply Forall_lookup. intros i b Hb. destruct (Hbox _ _ Hb) as [Hi ->]. by apply word_box_inside. }
  2:{ apply Forall_forall. intros b Hb id r. by apply Hfree. }
  rewrite (located_new_words (items draft) (lindex line) template (CanvasURI (identity draft)) owned boxes gs HG)
    by (by apply word_boxes_sorted).
  destruct (located_at_annotations (length (before_part (items draft) (lindex line) template owned)) gs boxes) as [Hgsa ->]; [lia|done].
Qed.

(** ** Two lines *)

Lemma move_words_other draft line boundary k i words l l' :
  move_words draft line boundary k i words l = Ok l' ->
  length l' = length l /\ forall j, j ∉ indices words -> l' !! j = l !! j.
Proof.
  revert i l. induction words as [|w words IH]; intros i l HE; cbn in HE.
  { injection HE as <-. done. }
  apply result_bind_Ok in HE as (t & _ & HE). destruct (IH _ _ HE) as [Hl Hj]. rewrite length_insert in Hl.
  split; [done|]. intros j Hn. unfold indices in *. cbn [fmap list_fmap list_to_set] in Hn.
  rewrite Hj by set_solver. apply list_lookup_insert_ne. set_solver.
Qed.

Lemma derive_Ok draft template id gran r text a : derive draft template id gran r text = Ok a ->
  deriveTextAnnotation template id gran (CanvasURI (identity draft)) r text = Ok a.
Proof. unfold derive, lift_ann. destruct (deriveTextAnnotation _ _ _ _ _ _); [|done]. by intros [= <-]. Qed.

(** A line derived from a ready one. *)
Lemma derived_line draft lineID line id r text a : editable draft -> ready draft lineID line ->
  items draft !! lindex line = Some (JObject (lannotation line)) -> rect_ok r ->
  derive draft (lannotation line) id "line" r text = Ok a ->
  derived (lannotation line) a id "line" (CanvasURI (identity draft)) r text.
Proof.
  intros Hed Hrd Hitem Hr Hd%derive_Ok. eapply derive_spec; [|apply Hrd|apply Hed|done|exact Hd].
  pose proof (ed_well_formed _ Hed) as Hwf. rewrite Forall_lookup in Hwf. by apply Hwf in Hitem.
Qed.

Lemma part_geometry_reads line boundary idB part points part' :
  part_geometry line boundary idB part points = Ok part' ->
  extractFragment part' = extractFragment part /\ extractAnnotationText part' = extractAnnotationText part.
Proof.
  unfold part_geometry. intros (g & _ & HE)%result_bind_Ok. destruct (if _ : bool then _ else _) as [top bottom].
  injection HE as <-. apply replaceLineGeometry_reads.
Qed.

Lemma split_position_range k n : (2 <= n)%nat -> (0 < split_position k n < n)%nat.
Proof.
  intros Hn. unfold split_position. destruct ((k <=? 0) || (Z.of_nat n <=? k)) eqn:E.
  - split; [apply Nat.div_str_pos; lia|apply Nat.div_lt; lia].
  - apply orb_false_iff in E as [E1 E2]. apply Z.leb_gt in E1, E2. lia.
Qed.

Definition top_half (r : rect) : rect := {| x1 := x1 r; y1 := y1 r; x2 := x2 r; y2 := y1 r + (y2 r - y1 r) / 2 |}.
Definition bottom_half (r : rect) : rect := {| x1 := x1 r; y1 := y1 r + (y2 r - y1 r) / 2; x2 := x2 r; y2 := y2 r |}.

Lemma halves_ok r : rect_ok r -> 2 <= y2 r - y1 r -> rect_ok (top_half r) /\ rect_ok (bottom_half r).
Proof.
  intros Hr Hh. unfold rect_ok in *. cbn.
  pose proof (Z.div_mod (y2 r - y1 r) 2 ltac:(lia)). pose proof (Z.mod_pos_bound (y2 r - y1 r) 2 ltac:(lia)). lia.
Qed.

Lemma split_two_parts draft lineID k line draft' : editable draft ->
  annotation draft lineID "line" = Ok line -> ready draft lineID line ->
  splitDraftLineIntoTwo draft lineID k = Ok draft' ->
  let tokens := Fields (extractAnnotationText (lannotation line)) in
  let n := split_position k (length tokens) in
  exists A B moved, (2 <= length tokens)%nat /\ 2 <= y2 (lbox line) - y1 (lbox line) /\
    items draft' = take (lindex line) moved ++ [JObject A; JObject B] ++ drop (S (lindex line)) moved /\
    length moved = length (items draft) /\
    (forall i, i ∉ indices (wordsForLine draft lineID) -> moved !! i = items draft !! i) /\
    parseXYWH (extractFragment A) = Ok (top_half (lbox line)) /\
    parseXYWH (extractFragment B) = Ok (bottom_half (lbox line)) /\
    extractAnnotationText A = Join (take n tokens) " " /\ extractAnnotationText B = Join (drop n tokens) " ".
Proof.
  intros Hed Ha Hrd HE tokens n. destruct (annotation_Ok _ _ _ _ Ha) as (Hitem & _ & Hr & _).
  unfold splitDraftLineIntoTwo in HE. rewrite Ha in HE. cbn [mbind result_bind] in HE. fold tokens in HE. fold n in HE.
  destruct (Nat.ltb_spec (length tokens) 2) as [|Hn]; [done|].
  destruct (Z.ltb_spec (y2 (lbox line) - y1 (lbox line)) 2) as [|Hh]; [done|]. destruct (_ && _); [done|].
  destruct (halves_ok _ Hr Hh) as [Ht Hb].
  apply result_bind_Ok in HE as (idA & _ & HE). apply result_bind_Ok in HE as (idB & _ & HE).
  apply result_bind_Ok in HE as (A & HA & HE). apply result_bind_Ok in HE as (B & HB & HE).
  apply (derived_line draft lineID line) in HA; [|done|done|done|exact Ht].
  apply (derived_line draft lineID line) in HB; [|done|done|done|exact Hb].
  apply result_bind_Ok in HE as (g & _ & HE). apply result_bind_Ok in HE as ([A' B'] & Hparts & HE).
  apply result_bind_Ok in HE as (moved & Hmoved & [= <-]).
  destruct (move_words_other _ _ _ _ _ _ _ _ Hmoved) as [Hlen Hother].
  assert (Hreads : (extractFragment A' = extractFragment A /\ extractAnnotationText A' = extractAnnotationText A) /\
    extractFragment B' = extractFragment B /\ extractAnnotationText B' = extractAnnotationText B).
  { destruct (1 <? length (Baseline g))%nat; [|by injection Hparts as <- <-].
    destruct (SplitBaselineX _ _) as [pA pB]. apply result_bind_Ok in Hparts as (A1 & HA1 & Hparts).
    apply result_bind_Ok in Hparts as (B1 & HB1 & [= <- <-]).
    split; by eapply part_geometry_reads. }
  destruct Hreads as [[HfA HtA] [HfB HtB]].
  pose proof (Fields_words (extractAnnotationText (lannotation line))) as Hw. fold tokens in Hw.
  destruct (split_position_range k (length tokens) Hn) as [Hn0 Hn1]. fold n in Hn0, Hn1.
  assert (Htext : forall ws C id r, Forall a_word ws -> ws <> [] ->
    derived (lannotation line) C id "line" (CanvasURI (identity draft)) r (Join ws " ") ->
    extractAnnotationText C = Join ws " ").
  { intros ws C id r Hws Hne HC. rewrite (dv_text _ _ _ _ _ _ _ HC); [by apply TrimSpace_Join| |apply Hrd].
    rewrite TrimSpace_Join by done. destruct ws as [|w ws]; [done|]. by apply (Join_head w ws), (Forall_inv Hws). }
  exists A', B', moved. split_and!; [done|done| |done|done| | | |].
  - cbn [with_items items]. apply lookup_lt_Some in Hitem. rewrite replaceDraftItems_spec by lia.
    rewrite keep_disjoint by (intros i Hi; rewrite length_take in Hi; rewrite elem_of_singleton; lia).
    f_equal. f_equal. rewrite <-Hlen in Hitem. destruct (lookup_lt_is_Some_2 _ _ Hitem) as [v Hv].
    rewrite (drop_S _ _ _ Hv). cbn [keep]. rewrite bool_decide_eq_true_2 by set_solver. cbn.
    apply keep_disjoint. intros i Hi. rewrite elem_of_singleton. lia.
  - rewrite HfA. apply HA.
  - rewrite HfB. apply HB.
  - rewrite HtA. apply (Htext _ _ idA (top_half (lbox line))); [by apply Forall_take| |exact HA].
    intros Hz. apply (f_equal length) in Hz. rewrite length_take in Hz. cbn in Hz. lia.
  - rewrite HtB. apply (Htext _ _ idB (bottom_half (lbox line))); [by apply Forall_drop| |exact HB].
    intros Hz. apply (f_equal length) in Hz. rewrite length_drop in Hz. cbn in Hz. lia.
Qed.

(** ** Joined words *)

Lemma derive_granularity draft template id gran r text a : derive draft template id gran r text = Ok a ->
  jget a "textGranularity" = Some (JString gran).
Proof.
  intros HE%derive_Ok. unfold deriveTextAnnotation in HE. apply result_bind_Ok in HE as (c & _ & HE). cbn zeta in HE.
  apply result_bind_Ok in HE as (t & _ & [= <-]).
  unfold clearMutableEmbeddedResourceIDs, clearMutableTargetResourceIDs. rewrite !jget_update_ne, !jget_jset_ne by done.
  rewrite jget_set_default_ne by done. apply jget_jset_eq.
Qed.

Lemma merge_granularity draft values merged : mergeLocatedAnnotations draft values "line" = Ok merged ->
  jget merged "textGranularity" = Some (JString "line").
Proof.
  unfold mergeLocatedAnnotations. destruct values as [|first [|second rest]]; try done. intros HE.
  apply result_bind_Ok in HE as (pr & _ & HE). apply result_bind_Ok in HE as (_ & _ & HE). cbn zeta in HE.
  apply result_bind_Ok in HE as (mid & _ & HE). apply result_bind_Ok in HE as (r & _ & HE).
  apply result_bind_Ok in HE as (m & Hm & HE). rewrite bool_decide_eq_true_2 in HE by done.
  apply result_bind_Ok in HE as (b & _ & [= <-]). rewrite replaceLineGeometry_other by done.
  by apply derive_granularity in Hm.
Qed.

Lemma joined_line_granularity draft affected words merged remove at_ : joined_line draft affected words = Ok (merged, remove, at_) ->
  jget merged "textGranularity" = Some (JString "line").
Proof.
  unfold joined_line. intros (lines & _ & HE)%result_bind_Ok.
  assert (Hmany : (m ← mergeLocatedAnnotations draft words "line";
    Ok (m, indices lines, min_index (match words with [] => 0%nat | first :: _ => lindex first end) lines)) = Ok (merged, remove, at_) ->
    jget merged "textGranularity" = Some (JString "line")).
  { intros (m & Hm & Heq)%result_bind_Ok. injection Heq as <- _ _. by eapply merge_granularity. }
  destruct words as [|w ws]; [by destruct affected as [|? []], lines as [|? []]|].
  destruct affected as [|lineID [|? ?]]; [by apply Hmany| |by apply Hmany].
  destruct lines as [|line [|? ?]]; [by apply Hmany| |by apply Hmany].
  apply result_bind_Ok in HE as (r & _ & HE). apply result_bind_Ok in HE as (m & Hm & HE). injection HE as <- _ _.
  by apply derive_granularity in Hm.
Qed.

(** A new text of a line changes no owner. *)
Lemma belongs_text P S m text p id : granularity_of m = "line"%string ->
  belongs None (P ++ [JObject m] ++ S) p id <-> belongs None (P ++ [JObject (setAnnotationText m text)] ++ S) p id.
Proof.
  intros Hm. rewrite !belongs_info.
  assert (Hl : forall c, lines_info c (P ++ [JObject m] ++ S) = lines_info c (P ++ [JObject (setAnnotationText m text)] ++ S)).
  { intros c. unfold lines_info. rewrite !omap_app. do 2 f_equal. cbn [omap list_omap]. by rewrite text_line_info. }
  assert (Hno : forall i, item_word i (JObject m) = None).
  { intros i. unfold item_word. destruct (item_geometry _) as [[[c b] r]|] eqn:E; [|done]. cbn.
    unfold item_geometry in E. destruct (parseXYWH _); [|done]. destruct (bool_decide _); [done|]. injection E as _ <- _. by rewrite Hm. }
  assert (Hlook : forall v i, item_word i v <> None ->
    (P ++ [JObject m] ++ S) !! i = Some v <-> (P ++ [JObject (setAnnotationText m text)] ++ S) !! i = Some v).
  { intros v i Hv. destruct (Nat.lt_ge_cases i (length P)) as [Hi|Hi]; [by rewrite !lookup_app_l|].
    rewrite !(lookup_app_r P) by done. destruct (i - length P)%nat eqn:E; [|done]. cbn. split; intros [= <-].
    - by rewrite Hno in Hv.
    - by rewrite text_item_word in Hv. }
  setoid_rewrite Hl. split; intros (v & c & w & Hv & Hw & Hp & Hf); exists v, c, w; (split_and!; [|done..]);
    (apply Hlook; [by rewrite Hw|done]).
Qed.

Lemma replaceDraftItems_parts l remove at_ : exists P S, forall y, replaceDraftItems l remove at_ [y] = P ++ [y] ++ S.
Proof.
  exists (keep 0 remove (take (Nat.min at_ (length l)) l)), (keep (Nat.min at_ (length l)) remove (drop (Nat.min at_ (length l)) l)).
  intros y. unfold replaceDraftItems. rewrite replace_items_spec by lia. by rewrite Nat.sub_0_r.
Qed.

Lemma locate_word_id p w : locate_word p = Some w -> lannotation w = SpatialWords.annotation p.
Proof. unfold locate_word. destruct (parseXYWH _); [|done]. by intros [= <-]. Qed.

Lemma belongs_item l p id : belongs None l p id -> l !! index p = Some (JObject (SpatialWords.annotation p)).
Proof.
  intros (v & c & w & line & Hv & (b & r & Hg & _ & Hw)%item_word_geometry & Hp & _). rewrite Hv. f_equal.
  apply (f_equal SpatialWords.annotation) in Hp. rewrite Hw in Hp. cbn in Hp. rewrite <-Hp.
  unfold item_geometry in Hg. destruct v as [| | | | |m]; try done.
  destruct (parseXYWH _); [|done]. destruct (bool_decide _); [done|]. by injection Hg as _ <- _.
Qed.

(** The identities of a line's located words. *)
Lemma located_ids canvases l id x : canvas_order l None canvases ->
  x ∈ (fun w => annStringValue (lannotation w) "id") <$> locatedWords (listed (assign_ref canvases l None) id) <->
  exists p, belongs None l p id /\ word_id p = x.
Proof.
  intros Hord. unfold locatedWords, sortLocatedWordsWithinLine. rewrite list_elem_of_fmap.
  setoid_rewrite SliceStable_Permutation. setoid_rewrite list_elem_of_omap. split.
  - intros (w & -> & p & Hp & Hw). exists p. rewrite listed_belongs in Hp by done. split; [done|].
    unfold word_id. by rewrite (locate_word_id _ _ Hw).
  - intros (p & Hp & <-). destruct (belongs_locates _ _ _ Hp) as (w & Hw & _). exists w. split.
    + unfold word_id. by rewrite (locate_word_id _ _ Hw).
    + exists p. split; [by apply listed_belongs|done].
Qed.

Lemma located_ids_NoDup canvases l id : canvas_order l None canvases -> unique_ids l ->
  NoDup ((fun w => annStringValue (lannotation w) "id") <$> locatedWords (listed (assign_ref canvases l None) id)).
Proof.
  intros Hord Hu. unfold locatedWords, sortLocatedWordsWithinLine. rewrite SliceStable_Permutation.
  pose proof (listed_NoDup canvases l None id Hord) as Hnd.
  assert (Hb : Forall (fun p => belongs None l p id) (listed (assign_ref canvases l None) id)).
  { apply Forall_forall. intros p. by apply listed_belongs. }
  induction Hb as [|p ps Hp Hps IH]; [apply NoDup_nil_2|]. cbn in Hnd. apply NoDup_cons in Hnd as [Hn Hnd].
  destruct (belongs_locates _ _ _ Hp) as (w & Hw & Hi). cbn [omap list_omap]. rewrite Hw. cbn. constructor; [|by apply IH].
  intros (w' & Heq & (p' & Hp' & Hw')%list_elem_of_omap)%list_elem_of_fmap. apply Hn, list_elem_of_fmap. exists p'. split; [|done].
  rewrite Forall_forall in Hps. specialize (Hps p' Hp').
  rewrite (locate_word_id _ _ Hw), (locate_word_id _ _ Hw') in Heq.
  exact (Hu _ _ _ _ (belongs_item _ _ _ Hp) (belongs_item _ _ _ Hps) Heq).
Qed.

Lemma join_words_owned draft ids words draft' : Z.of_nat (length (items draft)) < maxInt64 ->
  annotations draft ids "word" = Ok words -> joinDraftWordsIntoLine draft ids = Ok draft' -> unique_ids (items draft') ->
  exists merged, JObject merged ∈ items draft' /\ granularity_of merged = "line"%string /\
    forall x, (exists p, belongs None (items draft') p (annStringValue merged "id") /\ word_id p = x) <->
      x ∈ (fun w => annStringValue (lannotation w) "id") <$> words.
Proof.
  intros Hlen Hw HE Hu. unfold joinDraftWordsIntoLine in HE. rewrite Hw in HE. cbn [mbind result_bind] in HE.
  destruct (existsb _ words); [done|]. set (selected := list_to_set _ : gset string) in HE.
  apply result_bind_Ok in HE as (affected & _ & HE). apply result_bind_Ok in HE as ([[merged remove] at_] & Hm & HE).
  destruct (hasIDOutside _ _ _); [done|].
  destruct (replaceDraftItems_parts (items draft) remove at_) as (P & S & Hparts).
  apply joined_line_granularity, granularity_line in Hm. cbn zeta in HE. rewrite !Hparts in HE.
  set (candidate := P ++ [JObject merged] ++ S) in HE. set (mid := annStringValue merged "id") in HE.
  assert (Hcl : Z.of_nat (length candidate) <= maxInt64).
  { unfold candidate. rewrite <-Hparts. unfold replaceDraftItems. rewrite replace_items_spec by lia. rewrite !length_app, Nat.sub_0_r.
    pose proof (keep_length 0 remove (take (Nat.min at_ (length (items draft))) (items draft))) as K1.
    pose proof (keep_length (Nat.min at_ (length (items draft))) remove (drop (Nat.min at_ (length (items draft))) (items draft))) as K2.
    rewrite length_take in K1. rewrite length_drop in K2. cbn [length]. lia. }
  set (owned := locatedWords _) in HE.
  destruct (negb _) eqn:Hsize; [done|]. apply negb_false_iff, Nat.eqb_eq in Hsize.
  destruct (existsb _ owned) eqn:Hall; [done|]. injection HE as <-. cbn [orb with_items items] in *.
  set (text := normalizedAnnotationTexts owned) in *. set (merged' := setAnnotationText merged text) in *.
  assert (Hid : annStringValue merged' "id" = mid) by (apply annStringValue_eq; by apply setAnnotationText_other).
  assert (Hown : owned = locatedWords (listed (assign_ref (range_canvases candidate) candidate None) mid)).
  { unfold owned, assigned_words, listed. by rewrite assign_eq. }
  assert (Huc : unique_ids candidate).
  { intros i j a b Ha Hb Hab.
    assert (Hup : forall k c, candidate !! k = Some (JObject c) -> exists c', (P ++ [JObject merged'] ++ S) !! k = Some (JObject c') /\
      annStringValue c' "id" = annStringValue c "id").
    { intros k c Hc. unfold candidate in Hc. destruct (Nat.lt_ge_cases k (length P)) as [Hk|Hk].
      - rewrite lookup_app_l in Hc by done. exists c. by rewrite lookup_app_l.
      - rewrite lookup_app_r in Hc |- * by done. destruct (k - length P)%nat; [|by exists c].
        cbn in *. injection Hc as <-. exists merged'. done. }
    destruct (Hup _ _ Ha) as (a' & Ha' & Hia), (Hup _ _ Hb) as (b' & Hb' & Hib). eapply Hu; [exact Ha'|exact Hb'|congruence]. }
  exists merged'. split_and!.
  - rewrite elem_of_app. right. apply elem_of_cons. by left.
  - unfold granularity_of in *. rewrite <-Hm. do 2 f_equal. apply annStringValue_eq. by apply setAnnotationText_other.
  - intros x. rewrite Hid. transitivity (exists p, belongs None candidate p mid /\ word_id p = x).
    { pose proof (fun p => belongs_text P S merged text p mid Hm) as Hbel.
      split; intros (p & Hp & Hx); exists p; (split; [by apply Hbel|done]). }
    rewrite <-(located_ids (range_canvases candidate) candidate mid x (Hrange _)), <-Hown.
    set (oids := _ <$> owned). assert (Heq : (list_to_set oids : gset string) = selected).
    { apply set_subseteq_size_eq.
      - intros y. rewrite elem_of_list_to_set. unfold oids. intros (w & -> & Hin)%list_elem_of_fmap.
        apply dec_stable. intros Hn. apply not_true_iff_false in Hall. apply Hall, existsb_exists. exists w.
        split; [by apply list_elem_of_In|]. by rewrite bool_decide_eq_false_2.
      - rewrite <-Hsize. rewrite size_list_to_set; [unfold oids; by rewrite length_fmap|].
        unfold oids. rewrite Hown. by apply located_ids_NoDup. }
    rewrite <-(elem_of_list_to_set (C := gset string) x oids), Heq. unfold selected. by rewrite elem_of_list_to_set.
Qed.

(** ** Theorems *)

(** C16: the sweep over compressed coordinates, with its segment tree and its heaps of
    line starts and ends, gives every word the line that looking at all the lines of its
    canvas in item order gives: the result is the same map, for every page, every set of
    eligible lines and every order of the canvases. *)
Theorem sweep_equals_search canvases l eligible : Z.of_nat (length l) <= maxInt64 ->
  assignSpatialWordsToLines canvases l eligible = assign_ref canvases l eligible.
Proof. apply assign_eq. Qed.

(** A word is listed under a line identity if and only if the first line of its
    canvas, among the eligible ones and in item order, that holds its center has that
    identity; it is listed once and under one identity, and the words of a line are
    listed from left to right. *)
Theorem words_have_one_owner canvases l eligible : Z.of_nat (length l) <= maxInt64 -> canvas_order l eligible canvases ->
  let assigned := assignSpatialWordsToLines canvases l eligible in
  (forall p id, p ∈ listed assigned id <-> belongs eligible l p id) /\
  (forall id, NoDup (index <$> listed assigned id)) /\
  (forall id, StronglySorted (fun a b => wx1 a <= wx1 b) (listed assigned id)) /\
  (forall p p' id id', p ∈ listed assigned id -> p' ∈ listed assigned id' -> index p = index p' -> p = p' /\ id = id').
Proof.
  intros Hl Hord assigned. unfold assigned. rewrite assign_eq by done. split_and!.
  - intros p id. by apply listed_belongs.
  - intros id. by apply listed_NoDup.
  - intros id. apply listed_sorted.
  - intros p p' id id' Hp Hp'. rewrite listed_belongs in Hp, Hp' by done. by apply (belongs_unique eligible l).
Qed.

(** An annotation derived from a template reads back as what was asked for: its
    identity, granularity and canvas, its box to the pixel, and its text when no earlier
    body of the template has one; every property Scribe does not own is the template's. *)
Theorem derived_annotation_reads_back template id granularity canvasURI r text a :
  well_formed (JObject template) -> plain_target (default JNull (jget template "target")) ->
  all_chars visible canvasURI = true -> rect_ok r ->
  deriveTextAnnotation template id granularity canvasURI r text = Ok a ->
  derived template a id granularity canvasURI r text.
Proof. apply derive_spec. Qed.

(** C26: a split of a line into words sets the text of the line, takes its words off the page and puts the generated words
    right after it, one for each requested word: read in order they say these words, and their boxes are as high as the line and
    tile it from edge to edge.  Where no earlier line of the canvas holds the center of a generated word they are the words of
    the line, and no others; an earlier line that overlaps would own the words it holds.  The page can be edited, the line lies on
    its canvas with a target and a body as Scribe writes them ([ready]), and the text is valid UTF-8. *)
Theorem split_line_owns_its_words draft lineID requested line words draft' :
  editable draft -> annotation draft lineID "line" = Ok line -> ready draft lineID line ->
  words_of line requested = Ok words -> valid_utf8 (TrimSpace (Join words " ")) = true ->
  splitDraftLineIntoWords draft lineID requested = Ok draft' ->
  exists gs boxes,
    items draft' = replaced (items draft) (lindex line) (setAnnotationText (lannotation line) (Join words " "))
      (indices (wordsForLine draft lineID)) gs /\
    extractAnnotationText <$> gs = words /\ tiles (lbox line) (x1 (lbox line)) boxes /\
    Forall2 (fun g b => granularity_of g = "word"%string /\ extractCanvasURI g = CanvasURI (identity draft) /\
      parseXYWH (extractFragment g) = Ok b) gs boxes /\
    ((forall b id r, b ∈ boxes -> (id, r) ∈ lines_info (CanvasURI (identity draft)) (take (lindex line) (items draft)) ->
        holds_point r (center_x b) (center_y b) = false) ->
      lannotation <$> wordsForLine draft' lineID = gs /\ lbox <$> wordsForLine draft' lineID = boxes).
Proof.
  intros Hed Ha Hrd Hwo Hutf HE. destruct (split_line_page _ _ _ _ _ _ Hed Ha Hrd Hwo Hutf HE) as (gs & Hitems & Hgl & Hn & Hwide & Hgs).
  destruct (annotation_Ok _ _ _ _ Ha) as (_ & _ & Hr & _). exists gs, (word_boxes (lbox line) (length words)). split_and!; [done| | | |].
  - apply list_eq_same_length with (n := length words); [done|by rewrite length_fmap|]. intros i x word _ Hx Hw.
    rewrite list_lookup_fmap in Hx. destruct (gs !! i) as [g|] eqn:Hg; [|done]. injection Hx as <-. by apply (Hgs i g word).
  - by apply word_boxes_tile.
  - apply Forall2_same_length_lookup. split; [unfold word_boxes; by rewrite length_map, length_seq|]. intros i g b Hg Hb.
    pose proof (lookup_lt_Some _ _ _ Hg) as Hi. rewrite Hgl in Hi. rewrite word_boxes_lookup in Hb by done. injection Hb as <-.
    destruct (lookup_lt_is_Some_2 words i Hi) as [word Hw]. destruct (Hgs i g word Hg Hw) as (Hgeo & Hgran & _).
    unfold item_geometry in Hgeo. destruct (parseXYWH (extractFragment g)) as [r|]; [|done]. case_bool_decide; [done|].
    by injection Hgeo as <- <-.
  - intros Hfree. destruct (split_line_words_owned _ _ _ _ _ _ Hed Ha Hrd Hitems Hgl Hwide Hgs Hfree) as [-> ->]. done.
Qed.

(** Splitting a line in two puts two lines in its place that share it: the upper and
    the lower half of its box, and the tokens of its text, none lost and neither line
    empty; only the words of the line move, every other item is unchanged and in order. *)
Theorem split_in_two_shares_the_line draft lineID k line draft' : editable draft ->
  annotation draft lineID "line" = Ok line -> ready draft lineID line ->
  splitDraftLineIntoTwo draft lineID k = Ok draft' ->
  exists A B moved,
    items draft' = take (lindex line) moved ++ [JObject A; JObject B] ++ drop (S (lindex line)) moved /\
    length moved = length (items draft) /\
    (forall i, i ∉ indices (wordsForLine draft lineID) -> moved !! i = items draft !! i) /\
    parseXYWH (extractFragment A) = Ok (top_half (lbox line)) /\
    parseXYWH (extractFragment B) = Ok (bottom_half (lbox line)) /\
    rect_ok (top_half (lbox line)) /\ rect_ok (bottom_half (lbox line)) /\
    Fields (extractAnnotationText A) ++ Fields (extractAnnotationText B) = Fields (extractAnnotationText (lannotation line)) /\
    Fields (extractAnnotationText A) <> [] /\ Fields (extractAnnotationText B) <> [].
Proof.
  intros Hed Ha Hrd HE. destruct (split_two_parts _ _ _ _ _ Hed Ha Hrd HE)
    as (A & B & moved & Hn & Hh & Hi & Hl & Ho & HA & HB & HtA & HtB).
  destruct (annotation_Ok _ _ _ _ Ha) as (_ & _ & Hr & _). destruct (halves_ok _ Hr Hh) as [Hrt Hrb].
  pose proof (Fields_words (extractAnnotationText (lannotation line))) as Hw.
  set (tokens := Fields (extractAnnotationText (lannotation line))) in *. set (n := split_position k (length tokens)) in *.
  destruct (split_position_range k (length tokens) Hn) as [Hn0 Hn1]. fold n in Hn0, Hn1.
  exists A, B, moved. rewrite HtA, HtB, !Fields_Join by (by apply Forall_take || by apply Forall_drop).
  split_and!; try done; [apply take_drop|..]; intros Hz%(f_equal length); rewrite ?length_take, ?length_drop in Hz; cbn in Hz; lia.
Qed.

(** A line joined from words owns exactly the words that were selected: in the new
    page, whose identities are distinct, a word belongs to the joined line if and only if
    its identity is one of the selected words'. *)
Theorem joined_line_owns_its_words draft ids words draft' : Z.of_nat (length (items draft)) < maxInt64 ->
  annotations draft ids "word" = Ok words -> joinDraftWordsIntoLine draft ids = Ok draft' -> unique_ids (items draft') ->
  exists merged, JObject merged ∈ items draft' /\ granularity_of merged = "line"%string /\
    forall x, (exists p, belongs None (items draft') p (annStringValue merged "id") /\ word_id p = x) <->
      x ∈ (fun w => annStringValue (lannotation w) "id") <$> words.
Proof. apply join_words_owned. Qed.

End theorems.
End DraftTheorems.

(** * A page to work on

    Concrete instances of the libraries behind DraftOps.v and a small page, on which the
    theorems of DraftTheorems.v are applied: their hypotheses can all hold at once. *)

Module DraftExamples.
Import GoStr TextFields LineIndex Json JsonParse MediaFragment TargetGeometry Presentation Annotations DerivedFacts LineGeometry SpatialWords SpatialOwners Drafts DraftOps DraftFacts SplitOwners DraftTheorems.
#[local] Open Scope Z_scope.

Definition canvas : string := "https://example.org/c".

(** A digest that keeps the end of its input apart. *)
Fixpoint last_first (s acc : string) : string :=
  match s with EmptyString => acc | String c s' => last_first s' (String c acc) end.

Definition page_schema : Schema := {|
  PresentationContext := "http://iiif.io/api/presentation/3/context.json";
  TextGranularityContext := "http://iiif.io/api/extension/text-granularity/context.json";
  ValidateAnnotationPageBytes := fun _ => true;
  IsKnownLevel := fun level => bool_decide (level ∈ ["page"; "block"; "paragraph"; "line"; "word"; "glyph"]%string);
|}.
Definition page_url : UrlParser := demo_url.
Definition page_print : UrlPrinter := fun u => ("https://" ++ Host u ++ Path u)%string.
Definition page_sha : Sha256 := fun s => last_first s "0123456789abcdef".
Definition page_svg : SvgMapper := fun s _ => Some s.
Definition page_ocr : OcrPage := {| ReadIIIF_lines := fun _ => Some []; SplitBaselineX := fun ps _ => (ps, ps) |}.
(** Go ranges over the canvases in the order of the map's representation. *)
Definition page_range : MapRange := fun l =>
  (map_to_list (wordsByCanvas (place_items None {| linesByCanvas := ∅; wordsByCanvas := ∅ |} 0 l))).*1.
#[local] Existing Instances page_schema page_url page_print page_sha page_svg page_ocr page_range.

Lemma page_range_order l : canvas_order l None (range_canvases l).
Proof. unfold canvas_order, range_canvases, page_range. reflexivity. Qed.

(** ** The page *)

Definition item (id gran box text : string) : obj :=
  [("body", JArray [JObject [("type", JString "TextualBody"); ("value", JString text)]]);
   ("id", JString id);
   ("target", JString (canvas ++ "#xywh=" ++ box));
   ("textGranularity", JString gran);
   ("type", JString "Annotation")]%string.

Definition title : obj := item "https://example.org/1/annotations/items/t" "line" "10,10,90,20" "One two three".
Definition loose (id box text : string) : obj := item ("https://example.org/1/annotations/items/" ++ id)%string "word" box text.

Definition page_of (l : list json) : annotationDraft :=
  reindex {| identity := {| PublicBaseURL := "https://example.org"; ItemImageID := 1; CanvasURI := canvas |};
             pageID := "https://example.org/1/annotations"; document := []; items := l; rawBytes := 0; indexByID := ∅ |}.

(** A line with a word, and two words below it that no line holds. *)
Definition page : annotationDraft := page_of
  [JObject title; JObject (loose "a" "12,12,20,16" "One");
   JObject (loose "x" "10,60,30,20" "loose"); JObject (loose "y" "50,60,30,20" "ends")].

Definition title_id : string := "https://example.org/1/annotations/items/t".
Definition title_box : rect := {| x1 := 10; y1 := 10; x2 := 100; y2 := 30 |}.
Definition title_line : locatedAnnotation := {| lannotation := title; lindex := 0; lbox := title_box |}.
Definition loose_ids : list string :=
  ["https://example.org/1/annotations/items/x"; "https://example.org/1/annotations/items/y"].

Definition split_page : annotationDraft := Eval vm_compute in
  match splitDraftLineIntoWords page title_id [] with Ok d => d | Err _ => page end.
Definition two_lines : annotationDraft := Eval vm_compute in
  match splitDraftLineIntoTwo (page_of [JObject title]) title_id 1 with Ok d => d | Err _ => page end.
Definition joined_page : annotationDraft := Eval vm_compute in
  match joinDraftWordsIntoLine page loose_ids with Ok d => d | Err _ => page end.
Definition loose_words : list locatedAnnotation := Eval vm_compute in
  match annotations page loose_ids "word" with Ok l => l | Err _ => [] end.

(** ** The theorems applied *)

Lemma item_well_formed id gran box text :
  forallb valid_utf8 [id; gran; canvas ++ "#xywh=" ++ box; text]%string = true -> well_formed (JObject (item id gran box text)).
Proof.
  cbn [forallb]. rewrite !andb_true_iff. intros (Hid & Hg & Hb & Ht & _). unfold item.
  repeat split; try done; repeat constructor.
Qed.

Lemma page_well_formed : Forall well_formed (items page).
Proof. repeat apply Forall_cons_2; try apply Forall_nil_2; apply item_well_formed; vm_compute; reflexivity. Qed.

Lemma page_editable : editable page.
Proof. split; [vm_compute; done|apply page_well_formed|done..]. Qed.

Lemma title_ready draft : CanvasURI (identity draft) = canvas -> ready draft title_id title_line.
Proof. intros Hc. split; rewrite ?Hc; try reflexivity; [split; reflexivity|left; reflexivity]. Qed.

Lemma sweep_equals_search_witness :
  assignSpatialWordsToLines [canvas] (items page) None = assign_ref [canvas] (items page) None.
Proof. apply (sweep_equals_search [canvas] (items page) None). vm_compute. discriminate. Defined.

Lemma words_have_one_owner_witness : let assigned := assignSpatialWordsToLines [canvas] (items page) None in
  length (listed assigned title_id) = 1%nat /\
  (forall p id, p ∈ listed assigned id <-> belongs None (items page) p id).
Proof.
  split; [vm_compute; reflexivity|].
  apply (words_have_one_owner [canvas] (items page) None); [vm_compute; discriminate|].
  unfold canvas_order. vm_compute. reflexivity.
Defined.

Lemma derived_annotation_reads_back_witness : exists a,
  deriveTextAnnotation title "https://example.org/new" "word" canvas title_box "One" = Ok a /\
  derived title a "https://example.org/new" "word" canvas title_box "One".
Proof.
  eexists. split; [vm_compute; reflexivity|].
  apply (derived_annotation_reads_back title "https://example.org/new" "word" canvas title_box "One");
    [apply item_well_formed; vm_compute; reflexivity|split; reflexivity|reflexivity|repeat split; vm_compute; (discriminate || reflexivity)|vm_compute; reflexivity].
Defined.

Lemma split_line_owns_its_words_witness :
  (fun w => extractAnnotationText (lannotation w)) <$> wordsForLine split_page title_id = ["One"; "two"; "three"]%string /\
  tiles title_box 10 (lbox <$> wordsForLine split_page title_id).
Proof.
  destruct (split_line_owns_its_words page_range_order page title_id [] title_line ["One"; "two"; "three"]%string split_page)
    as (gs & boxes & _ & Ht & Hb & _ & Hown).
  - apply page_editable.
  - vm_compute. reflexivity.
  - by apply title_ready.
  - vm_compute. reflexivity.
  - reflexivity.
  - vm_compute. reflexivity.
  - destruct Hown as [Hg Hl]; [intros b id r _ Hl; vm_compute in Hl; inversion Hl|].
    rewrite (list_fmap_compose lannotation extractAnnotationText), Hg, Hl. exact (conj Ht Hb).
Defined.

Lemma split_in_two_shares_the_line_witness : exists A B, items two_lines = [JObject A; JObject B] /\
  Fields (extractAnnotationText A) ++ Fields (extractAnnotationText B) = ["One"; "two"; "three"]%string.
Proof.
  destruct (split_in_two_shares_the_line page_range_order (page_of [JObject title]) title_id 1 title_line two_lines)
    as (A & B & moved & Hi & Hl & _ & _ & _ & _ & _ & Hf & _).
  - split; try done. apply Forall_singleton. apply (Forall_inv page_well_formed).
  - vm_compute. reflexivity.
  - by apply title_ready.
  - vm_compute. reflexivity.
  - exists A, B. split; [|exact Hf]. rewrite Hi. destruct moved as [|v [|]]; [discriminate Hl|reflexivity|discriminate Hl].
Defined.

Definition item_id (v : json) : string := match v with JObject a => annStringValue a "id" | _ => "" end.

Lemma NoDup_unique_ids l : NoDup (item_id <$> l) -> unique_ids l.
Proof.
  intros Hn i j a b Ha Hb Hab. apply (NoDup_lookup _ _ _ (annStringValue a "id") Hn);
    rewrite list_lookup_fmap, ?Ha, ?Hb; [done|]. by rewrite Hab.
Qed.

Lemma joined_page_ids : unique_ids (items joined_page).
Proof. apply NoDup_unique_ids, (bool_decide_unpack _). vm_compute. exact I. Qed.

Lemma joined_line_owns_its_words_witness : exists merged, JObject merged ∈ items joined_page /\
  forall x, (exists p, belongs None (items joined_page) p (annStringValue merged "id") /\ word_id p = x) <->
    x ∈ loose_ids.
Proof.
  destruct (joined_line_owns_its_words page_range_order page loose_ids loose_words joined_page) as (m & Hm & _ & Hw).
  - vm_compute. reflexivity.
  - vm_compute. reflexivity.
  - vm_compute. reflexivity.
  - apply joined_page_ids.
  - by exists m.
Defined.

End DraftExamples.
