(* ===== verification/TranscribedTheorems.v ===== *)
(** * Words after a transcription

    [reconcileTranscribedWords] and [reconcileTranscribedLineWords] of
    internal/server/transcription_service.go: newly transcribed lines override the
    words they own. The loop updates the annotations of the page in place; its state here
    is the page and the set of removed positions (module [Transcribed]); modules [TranscribedFacts] and
    [TranscribedTheorems]: what it leaves. *)

From Stdlib Require Import ZArith Lia Ascii String.
From stdpp Require Import base gmap strings list sets sorting.
From S2P Require Import Prelude GoStrings Json JsonParse LineIndex TextFields Annotations DerivedFacts SpatialWords SpatialSweep SpatialOwners Drafts DraftFacts SplitOwners DraftTheorems.

Module Transcribed.
Import GoStr Json Annotations SpatialWords Drafts.
#[local] Open Scope Z_scope.

(** A word takes a new text, and gives up the identity of the body that changed. *)
Definition retell (word : obj) (token : string) : obj :=
  if bool_decide (extractAnnotationText word = TrimSpace token) then word
  else update (setAnnotationText word token) "body" clearFirstTextualBodyIdentity.

(** The words of a line, one token each; the positions hold objects. *)
Fixpoint retell_words (words : list positionedAnnotationWord) (tokens : list string) (items : list json) : list json :=
  match words, tokens with
  | word :: words', token :: tokens' =>
      let items := match items !! index word with
                   | Some (JObject a) => <[index word := JObject (retell a token)]> items
                   | _ => items
                   end in
      retell_words words' tokens' items
  | _, _ => items
  end.

(** One turn of the loop over the items. *)
Definition reconcile_item (wordsByLine : assignment) (authoritative : gset string) (position : nat)
    (st : list json * gset nat) : list json * gset nat :=
  let '(items, removed) := st in
  match items !! position with
  | Some v =>
      match granular v "line" with
      | Some line =>
          let id := annStringValue line "id" in
          if negb (bool_decide (id ∈ authoritative)) then st else
          let words := default [] (wordsByLine !! id) in
          if (length words =? 0)%nat then st else
          let tokens := Fields (extractAnnotationText line) in
          if negb (length tokens =? length words)%nat
          then (items, list_to_set (index <$> words) ∪ removed)
          else (retell_words words tokens items, removed)
      | None => st
      end
  | None => st
  end.

(** The items that are not removed. *)
Fixpoint retained (position : nat) (removed : gset nat) (items : list json) : list json :=
  match items with
  | [] => []
  | v :: items' =>
      if bool_decide (position ∈ removed) then retained (S position) removed items'
      else v :: retained (S position) removed items'
  end.

Section reconcile.
Context `{!MapRange}.

Definition reconcileTranscribedLineWords (items : list json) (authoritative : gset string) : list json :=
  let wordsByLine := assigned_words items in
  let '(items, removed) := foldl (fun st position => reconcile_item wordsByLine authoritative position st)
    (items, ∅) (seq 0 (length items)) in
  if (size removed =? 0)%nat then items else retained 0 removed items.

(** The lines of the page are authoritative. *)
Definition line_id (v : json) : option string := (fun line => annStringValue line "id") <$> granular v "line".

Definition reconcileTranscribedWords (items : list json) : list json :=
  reconcileTranscribedLineWords items (list_to_set (omap line_id items)).
End reconcile.

End Transcribed.

(** * Lemmas on the reconciliation of words

    What the loop of Transcribed.v leaves behind: every item is what it was up to its
    text, the words of a line that agrees with them say its tokens, and those of a line
    that does not are removed.

    Modules [TranscribedFacts]: lemmas on the reconciliation of words;
    [TranscribedTheorems]: theorem on the reconciliation of words. *)

Module TranscribedFacts.
Import GoStr TextFields LineIndex Json Annotations DerivedFacts SpatialWords SpatialSweep SpatialOwners SplitOwners Drafts DraftFacts Reassign Transcribed.
#[local] Open Scope Z_scope.

(** ** Retelling a word *)

Lemma retell_other a t k : k <> "body"%string -> jget (retell a t) k = jget a k.
Proof.
  intros Hk. unfold retell. case_bool_decide; [done|]. by rewrite jget_update_ne, setAnnotationText_other.
Qed.

Lemma retell_reads a t : TrimSpace t <> ""%string -> quiet_body (jget a "body") ->
  extractAnnotationText (retell a t) = TrimSpace t.
Proof.
  intros Ht Hq. unfold retell. case_bool_decide; [done|].
  pose proof (setAnnotationText_reads a t Ht Hq) as Hr.
  destruct (jget (setAnnotationText a t) "body") as [body|] eqn:E; [by rewrite (clear_body_text body)|].
  by unfold extractAnnotationText in Hr at 1; rewrite E in Hr.
Qed.

(** [v'] is [v] up to its body. *)
Definition same_but_body (v v' : json) : Prop :=
  v' = v \/ exists a a', v = JObject a /\ v' = JObject a' /\ forall k, k <> "body"%string -> jget a' k = jget a k.

Lemma same_but_body_trans u v w : same_but_body u v -> same_but_body v w -> same_but_body u w.
Proof.
  intros [->|(a & b & -> & -> & H)]; [done|]. intros [->|(b' & c & [= <-] & -> & H')].
  - right. eauto.
  - right. exists a, c. split_and!; [done..|]. intros k Hk. by rewrite H', H.
Qed.

Lemma same_but_body_place v v' : same_but_body v v' -> same_place v v'.
Proof.
  intros Hs. unfold same_place.
  assert (Hobj : forall a a', (forall k, k <> "body"%string -> jget a' k = jget a k) ->
    match item_geometry (JObject a) with
    | Some (c, _, r) => exists a'0, JObject a' = JObject a'0 /\ item_geometry (JObject a') = Some (c, a'0, r) /\
        granularity_of a'0 = granularity_of a /\ annStringValue a'0 "id" = annStringValue a "id"
    | None => item_geometry (JObject a') = None
    end).
  { intros a a' H. unfold item_geometry, extractFragment, extractCanvasURI, granularity_of.
    rewrite (annStringValue_eq a' a "on"), (H "target"%string) by (by try apply H).
    destruct (parseXYWH _); [|done]. destruct (bool_decide _); [done|]. exists a'.
    rewrite (annStringValue_eq a' a "id"), (annStringValue_eq a' a "textGranularity") by by apply H. done. }
  destruct Hs as [->|(a & a' & -> & -> & H)].
  - destruct v as [| | | | |a]; try done. specialize (Hobj a a (fun _ _ => eq_refl)).
    unfold item_geometry in *. destruct (parseXYWH _); [|done]. by destruct (bool_decide _).
  - specialize (Hobj a a' H). unfold item_geometry in *. destruct (parseXYWH (extractFragment a)); [|done]. by destruct (bool_decide _).
Qed.

Lemma same_but_body_granular v v' g : same_but_body v v' -> granular v g = None -> granular v' g = None.
Proof.
  intros [->|(a & a' & -> & -> & H)]; [done|]. unfold granular, says.
  rewrite (annStringValue_eq a' a "textGranularity") by (by apply H). by destruct (EqualFold _ _).
Qed.

(** ** The words of a line *)

Lemma retell_words_same words tokens l i : i ∉ index <$> words -> retell_words words tokens l !! i = l !! i.
Proof.
  revert tokens l. induction words as [|w words IH]; intros [|t tokens] l Hi; cbn; try done.
  apply not_elem_of_cons in Hi as [Hne Hi]. rewrite IH by done. destruct (l !! index w) as [[]|]; try done.
  by rewrite list_lookup_insert_ne.
Qed.

Lemma retell_words_said words tokens l : NoDup (index <$> words) ->
  Forall (fun p => l !! index p = Some (JObject (SpatialWords.annotation p))) words ->
  forall k p t, words !! k = Some p -> tokens !! k = Some t ->
    retell_words words tokens l !! index p = Some (JObject (retell (SpatialWords.annotation p) t)).
Proof.
  revert tokens l. induction words as [|w words IH]; intros tokens l Hnd Hl k p t Hp Ht; [done|].
  destruct tokens as [|t0 tokens]; [done|]. apply NoDup_cons in Hnd as [Hw Hnd]. apply Forall_cons in Hl as [Hlw Hl].
  cbn. rewrite Hlw. destruct k as [|k]; cbn in Hp, Ht.
  - injection Hp as <-. injection Ht as <-. rewrite retell_words_same by done.
    rewrite list_lookup_insert_eq; [done|]. by eapply lookup_lt_Some.
  - eapply IH; [done| |done|done]. rewrite Forall_forall in Hl |- *. intros q Hq.
    rewrite list_lookup_insert_ne; [by apply Hl|]. intros Heq. apply Hw. rewrite Heq. by apply list_elem_of_fmap_2.
Qed.

Lemma retell_words_length words tokens l : length (retell_words words tokens l) = length l.
Proof.
  revert tokens l. induction words as [|w words IH]; intros [|t tokens] l; cbn; try done. rewrite IH.
  destruct (l !! index w) as [[]|]; rewrite ?length_insert; done.
Qed.

Lemma retell_words_place words tokens l i v : l !! i = Some v ->
  exists v', retell_words words tokens l !! i = Some v' /\ same_but_body v v'.
Proof.
  revert tokens l v. induction words as [|w words IH]; intros [|t tokens] l v Hv; cbn; try by (exists v; split; [|left]).
  assert (Hstep : exists v1, (match l !! index w with Some (JObject a) => <[index w := JObject (retell a t)]> l | _ => l end) !! i = Some v1
    /\ same_but_body v v1).
  { destruct (l !! index w) as [[| | | | |a]|] eqn:E; try by (exists v; split; [|left]).
    destruct (decide (index w = i)) as [Heq|Hne].
    - rewrite Heq in E. rewrite Hv in E. injection E as ->. rewrite Heq, list_lookup_insert_eq by by eapply lookup_lt_Some.
      eexists. split; [done|]. right. eexists _, _. split_and!; [done..|]. intros k. apply retell_other.
    - rewrite list_lookup_insert_ne by done. exists v. by split; [|left]. }
  destruct Hstep as (v1 & Hv1 & Hs). destruct (IH tokens _ _ Hv1) as (v' & Hv' & Hs'). exists v'. split; [done|].
  by eapply same_but_body_trans.
Qed.

(** ** The loop *)

Lemma granular_line v line : granular v "line" = Some line -> v = JObject line /\ granularity_of line = "line"%string.
Proof.
  unfold granular. destruct v as [| | | | |a]; try done. destruct (says a "textGranularity" "line") eqn:E; [|done].
  intros [= <-]. split; [done|]. unfold says, EqualFold in E. apply bool_decide_eq_true in E. unfold granularity_of.
  by rewrite fold_ToLower, E by by rewrite E.
Qed.

Section loop.
Context `{!MapRange} (items : list json) (authoritative : gset string).
Context (Hrange : canvas_order items None (range_canvases items)).
Context (Hlength : Z.of_nat (length items) <= maxInt64) (Hids : unique_ids items).

(** The words of a line on the page as it was. *)
Definition words_were (id : string) : list positionedAnnotationWord := listed (assigned_words items) id.

Lemma words_were_belong id p : p ∈ words_were id <-> belongs None items p id.
Proof. unfold words_were, assigned_words. rewrite assign_eq by done. by apply listed_belongs. Qed.

Lemma words_were_NoDup id : NoDup (index <$> words_were id).
Proof. unfold words_were, assigned_words. rewrite assign_eq by done. by apply listed_NoDup. Qed.

Lemma words_were_items id p : p ∈ words_were id -> exists a, SpatialWords.annotation p = a /\
  items !! index p = Some (JObject a) /\ granularity_of a = "word"%string /\ exists c w, item_word (index p) (JObject a) = Some (c, w).
Proof.
  rewrite words_were_belong. intros (v & c & w & line & Hv & Hw & <- & _).
  pose proof Hw as (a & r & Hg & Hgr & Hwp)%item_word_geometry. exists a. rewrite Hwp. cbn.
  assert (v = JObject a) as ->.
  { unfold item_geometry in Hg. destruct v as [| | | | |b]; try done. destruct (parseXYWH _); [|done].
    destruct (bool_decide _); [done|]. by injection Hg as _ -> _. }
  rewrite Hwp in Hv, Hw. cbn in Hv, Hw. split_and!; [done..|]. by eexists _, _.
Qed.

Lemma words_were_apart id id' p p' : p ∈ words_were id -> p' ∈ words_were id' -> index p = index p' -> id = id'.
Proof. rewrite !words_were_belong. intros Hb Hb' Heq. by destruct (belongs_unique _ _ _ _ _ _ Hb Hb' Heq). Qed.

(** The authoritative line at a position. *)
Definition line_at (i : nat) (line : obj) : Prop :=
  items !! i = Some (JObject line) /\ granular (JObject line) "line" = Some line /\ annStringValue line "id" ∈ authoritative.

Lemma line_at_unique i j a b : line_at i a -> line_at j b -> annStringValue a "id" = annStringValue b "id" -> i = j.
Proof. intros (Ha & _) (Hb & _) Hab. by eapply Hids. Qed.

#[local] Abbreviation line_words line := (words_were (annStringValue line "id")).
#[local] Abbreviation line_tokens line := (Fields (extractAnnotationText line)).

(** The position is not of a word of one of the first [n] authoritative lines. *)
Definition untouched (n i : nat) : Prop :=
  forall j line, (j < n)%nat -> line_at j line -> i ∉ index <$> line_words line.

(** The words of a line say its tokens or are removed. *)
Definition settled (l : list json) (removed : gset nat) (line : obj) : Prop :=
  if decide (length (line_tokens line) = length (line_words line)) then
    forall k p t, line_words line !! k = Some p -> line_tokens line !! k = Some t ->
      l !! index p = Some (JObject (retell (SpatialWords.annotation p) t)) /\ index p ∉ removed
  else forall p, p ∈ line_words line -> index p ∈ removed.

Record loop_ok (n : nat) (l : list json) (removed : gset nat) : Prop := {
  lo_length : length l = length items;
  lo_place : forall i v, items !! i = Some v -> exists v', l !! i = Some v' /\ same_but_body v v';
  lo_untouched : forall i, untouched n i -> l !! i = items !! i /\ i ∉ removed;
  lo_removed : forall i, i ∈ removed -> exists p id, p ∈ words_were id /\ index p = i;
  lo_settled : forall j line, (j < n)%nat -> line_at j line -> settled l removed line;
}.

Lemma loop_skip n l removed : loop_ok n l removed ->
  (forall line, line_at n line -> length (line_words line) = 0%nat) -> loop_ok (S n) l removed.
Proof.
  intros [H1 H2 H3 H4 H5] Hn. split; [done|done| |done|].
  - intros i Hi. apply H3. intros j line Hj. apply Hi. lia.
  - intros j line Hj Hl. destruct (decide (j = n)) as [->|]; [|apply (H5 j); [lia|done]].
    specialize (Hn _ Hl). apply length_zero_iff_nil in Hn. unfold settled. rewrite Hn.
    destruct (decide _); [by intros k p t|]. intros p Hp. by apply elem_of_nil in Hp.
Qed.

Lemma loop_apart n line p : line_at n line -> p ∈ line_words line -> untouched n (index p).
Proof.
  intros Hl Hp j line' Hj Hl' (p' & Heq & Hp')%list_elem_of_fmap.
  pose proof (words_were_apart _ _ _ _ Hp Hp' Heq) as Hid. pose proof (line_at_unique _ _ _ _ Hl Hl' Hid). lia.
Qed.

Lemma loop_line n l removed line : loop_ok n l removed -> line_at n line ->
  let st := if (length (line_tokens line) =? length (line_words line))%nat
            then (retell_words (line_words line) (line_tokens line) l, removed)
            else (l, list_to_set (index <$> line_words line) ∪ removed) in
  loop_ok (S n) st.1 st.2.
Proof.
  intros [H1 H2 H3 H4 H5] Hl st.
  assert (Hapart : forall p, p ∈ line_words line -> l !! index p = Some (JObject (SpatialWords.annotation p)) /\ index p ∉ removed).
  { intros p Hp. destruct (H3 (index p)) as [Hi Hr]; [by eapply loop_apart|]. split; [|done]. rewrite Hi.
    by destruct (words_were_items _ _ Hp) as (a & -> & -> & _). }
  assert (Hothers : forall j line' p, (j < n)%nat -> line_at j line' -> p ∈ line_words line' -> index p ∉ index <$> line_words line).
  { intros j line' p Hj Hl' Hp (p' & Heq & Hp')%list_elem_of_fmap.
    pose proof (words_were_apart _ _ _ _ Hp Hp' Heq) as Hid. pose proof (line_at_unique _ _ _ _ Hl' Hl Hid). lia. }
  unfold st. clear st. destruct (Nat.eqb_spec (length (line_tokens line)) (length (line_words line))) as [Heq|Hne]; cbn [fst snd].
  - split.
    + by rewrite retell_words_length.
    + intros i v Hv. destruct (H2 _ _ Hv) as (v1 & Hv1 & Hs1).
      destruct (retell_words_place (line_words line) (line_tokens line) _ _ _ Hv1) as (v' & Hv' & Hs). exists v'.
      split; [done|]. by eapply same_but_body_trans.
    + intros i Hi. rewrite retell_words_same by (apply (Hi n line); [lia|done]). apply H3. intros j line' Hj. apply Hi. lia.
    + done.
    + intros j line' Hj Hl'. destruct (decide (j = n)) as [->|Hjn].
      * assert (line' = line) as -> by (destruct Hl as [Hl _], Hl' as [Hl' _]; rewrite Hl in Hl'; by injection Hl').
        unfold settled. rewrite decide_True by done. intros k p t Hp Ht. split.
        -- eapply retell_words_said; [apply words_were_NoDup| |exact Hp|exact Ht].
           apply Forall_forall. intros q Hq. by apply Hapart.
        -- apply Hapart. by eapply list_elem_of_lookup_2.
      * specialize (H5 j line' ltac:(lia) Hl'). unfold settled in *. destruct (decide _); [|done].
        intros k p t Hp Ht. rewrite retell_words_same; [by eapply H5|].
        apply (Hothers j line'); [lia|done|]. by eapply list_elem_of_lookup_2.
  - split; [done|done| | |].
    + intros i Hi. destruct (H3 i) as [Hli Hr]; [intros j line' Hj; apply Hi; lia|]. split; [done|].
      rewrite elem_of_union, elem_of_list_to_set. intros [Hin|]; [|done]. exact (Hi n line ltac:(lia) Hl Hin).
    + intros i. rewrite elem_of_union, elem_of_list_to_set. intros [(p & -> & Hp)%list_elem_of_fmap|Hi]; [eauto|by apply H4].
    + intros j line' Hj Hl'. destruct (decide (j = n)) as [->|Hjn].
      * assert (line' = line) as -> by (destruct Hl as [Hl _], Hl' as [Hl' _]; rewrite Hl in Hl'; by injection Hl').
        unfold settled. rewrite decide_False by done. intros p Hp. apply elem_of_union. left.
        apply elem_of_list_to_set. by apply list_elem_of_fmap_2.
      * specialize (H5 j line' ltac:(lia) Hl'). unfold settled in *. destruct (decide _); [|set_solver].
        intros k p t Hp Ht. destruct (H5 k p t Hp Ht) as [Ho Hr]. split; [done|].
        rewrite elem_of_union, elem_of_list_to_set. intros [Hin|]; [|done]. revert Hin.
        apply (Hothers j line'); [lia|done|]. by eapply list_elem_of_lookup_2.
Qed.

Lemma loop_step n l removed : loop_ok n l removed -> (n < length items)%nat ->
  let st := reconcile_item (assigned_words items) authoritative n (l, removed) in loop_ok (S n) st.1 st.2.
Proof.
  intros Hok Hn. destruct (lookup_lt_is_Some_2 items n Hn) as [v Hv]. pose proof (lo_place _ _ _ Hok _ _ Hv) as (v' & Hv' & Hs).
  unfold reconcile_item. rewrite Hv'. destruct (granular v "line") as [line|] eqn:Eg.
  - pose proof (granular_line _ _ Eg) as [-> Hgr].
    assert (v' = JObject line) as ->.
    { destruct (lo_untouched _ _ _ Hok n) as [Hsame _]; [|rewrite Hsame, Hv in Hv'; by injection Hv'].
      intros j line' _ _ (p & -> & Hp)%list_elem_of_fmap. destruct (words_were_items _ _ Hp) as (a & _ & Ha & Hga & _).
      rewrite Hv in Ha. injection Ha as <-. congruence. }
    rewrite Eg. case_bool_decide as Hin; cbn [negb].
    + assert (Hl : line_at n line) by done. fold (listed (assigned_words items) (annStringValue line "id")).
      fold (line_words line). destruct (Nat.eqb_spec (length (line_words line)) 0) as [H0|H0].
      * apply loop_skip; [done|]. intros line' Hl'.
        assert (line' = line) as -> by (destruct Hl as [Hl _], Hl' as [Hl' _]; rewrite Hl in Hl'; by injection Hl'). done.
      * pose proof (loop_line n l removed line Hok Hl) as Hst. cbn zeta in Hst.
        by destruct (length (line_tokens line) =? length (line_words line))%nat.
    + apply loop_skip; [done|]. intros line' (Hl' & _ & Hin'). rewrite Hv in Hl'. by injection Hl' as <-.
  - rewrite (same_but_body_granular _ _ _ Hs Eg). apply loop_skip; [done|].
    intros line' (Hl' & Hg' & _). rewrite Hv in Hl'. injection Hl' as ->. by rewrite Eg in Hg'.
Qed.

Lemma loop_runs n : (n <= length items)%nat ->
  let st := foldl (fun st position => reconcile_item (assigned_words items) authoritative position st) (items, ∅) (seq 0 n) in
  loop_ok n st.1 st.2.
Proof.
  induction n as [|n IH]; intros Hn.
  - split; cbn; [done| |by intros i _; set_solver|set_solver|intros; lia].
    intros i v Hv. exists v. split; [done|by left].
  - specialize (IH ltac:(lia)). rewrite seq_S, foldl_app. cbn [foldl Nat.add]. cbn zeta in IH.
    set (st := foldl _ _ _) in *. rewrite (surjective_pairing st). by apply loop_step.
Qed.
End loop.

End TranscribedFacts.

(** * Theorem on the reconciliation of words

    Lines and words agree after a transcription, and what the transcription does not own
    is left alone. *)

Module TranscribedTheorems.
Import GoStr TextFields LineIndex Json Annotations DerivedFacts SpatialWords SpatialSweep SpatialOwners SplitOwners Drafts DraftFacts DraftExamples Reassign Transcribed TranscribedFacts.
#[local] Open Scope Z_scope.

(** ** The result as an edit of the page *)

Fixpoint edits_of (position : nat) (removed : gset nat) (items l : list json) : list edit :=
  match items, l with
  | v :: items', v' :: l' =>
      (v, if bool_decide (position ∈ removed) then None else Some v') :: edits_of (S position) removed items' l'
  | _, _ => []
  end.

Lemma edits_of_items position removed items l : length l = length items -> (edits_of position removed items l).*1 = items.
Proof. revert position l. induction items as [|v items IH]; intros position [|v' l] Hl; try done. cbn. f_equal. apply IH. by injection Hl. Qed.

Lemma edits_of_retained position removed items l : length l = length items ->
  omap snd (edits_of position removed items l) = retained position removed l.
Proof.
  revert position l. induction items as [|v items IH]; intros position [|v' l] Hl; try done. cbn [edits_of omap list_omap snd retained].
  injection Hl as Hl. case_bool_decide; by rewrite IH.
Qed.

Lemma edits_of_lookup position removed items l i v v' : items !! i = Some v -> l !! i = Some v' ->
  edits_of position removed items l !! i = Some (v, if bool_decide ((position + i)%nat ∈ removed) then None else Some v').
Proof.
  revert position l i. induction items as [|u items IH]; intros position [|u' l] [|i] Hv Hv'; try done.
  - injection Hv as ->. injection Hv' as ->. cbn. by rewrite Nat.add_0_r.
  - specialize (IH (S position) l i Hv Hv'). rewrite Nat.add_succ_comm in IH. exact IH.
Qed.

Lemma retained_all position l : retained position ∅ l = l.
Proof. revert position. induction l as [|v l IH]; intros position; [done|]. cbn [retained]. rewrite bool_decide_eq_false_2 by set_solver. by rewrite IH. Qed.

Lemma length_omap_le {A B} (f : A -> option B) (l : list A) : (length (omap f l) <= length l)%nat.
Proof. induction l as [|x l IH]; [done|]. cbn. destruct (f x); cbn; lia. Qed.

Lemma line_canvas items i line c l' : unique_ids items -> items !! i = Some (JObject line) ->
  l' ∈ lines_on None c items -> lid l' = annStringValue line "id" -> c = extractCanvasURI line.
Proof.
  intros Hu Hi (j & v & Hv & Hl)%elem_on_canvas Hid. unfold item_line in Hl.
  destruct (item_geometry v) as [[[c' a] r]|] eqn:Hg; [|done]. cbn in Hl. destruct (_ && _); [|done].
  injection Hl as <- <-. cbn in Hid. unfold item_geometry in Hg. destruct v as [| | | | |b]; try done.
  destruct (parseXYWH _); [|done]. destruct (bool_decide _); [done|]. injection Hg as <- <- _.
  assert (j = i) as -> by by eapply Hu. rewrite Hi in Hv. by injection Hv as ->.
Qed.

Section theorem.
Context `{!MapRange} (Hrange : forall l, canvas_order l None (range_canvases l)).

Lemma reconciled_edit items authoritative : Z.of_nat (length items) <= maxInt64 -> unique_ids items ->
  exists l removed, loop_ok items authoritative (length items) l removed /\
    reconcileTranscribedLineWords items authoritative = omap snd (edits_of 0 removed items l).
Proof.
  intros Hl Hu. pose proof (loop_runs items authoritative (Hrange items) Hl Hu (length items) ltac:(lia)) as Hok.
  cbn zeta in Hok. unfold reconcileTranscribedLineWords. set (st := foldl _ _ _) in *. destruct st as [l removed] eqn:Est.
  cbn [fst snd] in Hok. exists l, removed. split; [done|].
  rewrite edits_of_retained by apply Hok. destruct (Nat.eqb_spec (size removed) 0) as [H0|H0]; [|done].
  apply size_empty_inv in H0. rewrite (leibniz_equiv removed ∅ H0). by rewrite retained_all.
Qed.

Lemma reconciled_edits_harmless items authoritative l removed : Z.of_nat (length items) <= maxInt64 ->
  loop_ok items authoritative (length items) l removed -> Forall harmless (edits_of 0 removed items l).
Proof.
  intros Hle Hok. apply Forall_lookup. intros i [v ov] He.
  assert (Hi : (i < length items)%nat).
  { apply lookup_lt_Some in He. rewrite <-(edits_of_items 0 removed items l), length_fmap by apply Hok. done. }
  destruct (lookup_lt_is_Some_2 items i Hi) as [u Hv]. destruct (lo_place _ _ _ _ _ Hok _ _ Hv) as (v' & Hv' & Hs).
  rewrite (edits_of_lookup _ _ _ _ _ _ _ Hv Hv') in He. injection He as -> <-. cbn [Nat.add]. unfold harmless.
  case_bool_decide as Hr; cbn [fst snd]; [|by apply same_but_body_place].
  intros c. destruct (lo_removed _ _ _ _ _ Hok _ Hr) as (p & id & Hp & Hip).
  destruct (words_were_items items (Hrange items) Hle id p Hp) as (a & _ & Ha & _ & c' & w & Hw).
  rewrite Hip, Hv in Ha. injection Ha as ->. by eapply word_no_line.
Qed.

(** ** The words of one line *)

Section line.
Context (items : list json) (authoritative : gset string) (l : list json) (removed : gset nat).
Context (Hle : Z.of_nat (length items) <= maxInt64) (Hu : unique_ids items).
Context (Hok : loop_ok items authoritative (length items) l removed).
#[local] Abbreviation E := (edits_of 0 removed items l).

Lemma words_after i line : items !! i = Some (JObject line) ->
  listed (assigned_words (omap snd E)) (annStringValue line "id") = omap (after E) (words_were items (annStringValue line "id")).
Proof.
  intros Hi. assert (HE1 : E.*1 = items) by (apply edits_of_items, Hok). unfold words_were, assigned_words. rewrite !assign_eq; [|done|].
  - rewrite <-HE1 at 5. apply (listed_edited E (reconciled_edits_harmless _ _ _ _ Hle Hok) _ _ _ (extractCanvasURI line)).
    + rewrite HE1. apply Hrange.
    + apply Hrange.
    + rewrite HE1. intros c l' Hl' Hid. by eapply line_canvas.
  - pose proof (length_omap_le snd E) as Hlen. rewrite <-HE1, length_fmap in Hle. lia.
Qed.

(** As many words as tokens: each is told its token, in place. *)
Lemma told_words i line : line_at items authoritative i line ->
  let before := words_were items (annStringValue line "id") in let tokens := Fields (extractAnnotationText line) in
  length tokens = length before ->
  SpatialWords.annotation <$> omap (after E) before = zip_with retell (SpatialWords.annotation <$> before) tokens.
Proof.
  intros Hl before tokens Heq. pose proof (lo_settled _ _ _ _ _ Hok i line (lookup_lt_Some _ _ _ (proj1 Hl)) Hl) as Hset.
  unfold settled in Hset. rewrite decide_True in Hset by done. fold before tokens in Hset.
  assert (Hin : forall p, p ∈ before -> exists a, items !! index p = Some (JObject a)).
  { intros p Hp. destruct (words_were_items items (Hrange items) Hle _ p Hp) as (a & _ & Ha & _). eauto. }
  clearbody before tokens. revert tokens Heq Hset. induction before as [|p ws IH]; intros [|t tokens] Heq Hset; try done.
  destruct (Hset 0%nat p t eq_refl eq_refl) as [Hlp Hr]. destruct (Hin p ltac:(by left)) as [a Ha]. cbn [omap list_omap].
  assert (Hafter : after E p = Some {| index := moved E (index p); wx1 := wx1 p; SpatialWords.annotation := retell (SpatialWords.annotation p) t |}).
  { unfold after. by rewrite (edits_of_lookup _ _ _ _ _ _ _ Ha Hlp), bool_decide_eq_false_2. }
  rewrite Hafter. cbn. f_equal. apply IH; [|by injection Heq|].
  - intros q Hq. apply Hin. by right.
  - intros k q u Hq Hu'. by apply (Hset (S k)).
Qed.

(** Another number of tokens: the words are gone. *)
Lemma gone_words i line : line_at items authoritative i line ->
  let before := words_were items (annStringValue line "id") in
  length (Fields (extractAnnotationText line)) <> length before ->
  omap (after E) before = [] /\
  forall p a, p ∈ before -> JObject a ∈ omap snd E -> annStringValue a "id" <> annStringValue (SpatialWords.annotation p) "id".
Proof.
  intros Hl before Hne. pose proof (lo_settled _ _ _ _ _ Hok i line (lookup_lt_Some _ _ _ (proj1 Hl)) Hl) as Hset.
  unfold settled in Hset. rewrite decide_False in Hset by done. fold before in Hset. split.
  - assert (Hnone : forall p, p ∈ before -> after E p = None).
    { intros p Hp. destruct (words_were_items items (Hrange items) Hle _ p Hp) as (a & _ & Ha & _).
      destruct (lo_place _ _ _ _ _ Hok _ _ Ha) as (v' & Hv' & _).
      unfold after. rewrite (edits_of_lookup _ _ _ _ _ _ _ Ha Hv'), bool_decide_eq_true_2; [done|]. by apply Hset. }
    clear -Hnone. induction before as [|w ws IH]; [done|]. cbn. rewrite Hnone by by left. apply IH. intros p Hp. apply Hnone. by right.
  - intros p a Hp Ha Hid. destruct (words_were_items items (Hrange items) Hle _ p Hp) as (b & Hb & Hib & _).
    apply list_elem_of_omap in Ha as ([v ov] & Hin & Hov). cbn in Hov. apply list_elem_of_lookup in Hin as [k Hk].
    assert (Hkl : (k < length items)%nat).
    { apply lookup_lt_Some in Hk. rewrite <-(edits_of_items 0 removed items l), length_fmap by apply Hok. done. }
    destruct (lookup_lt_is_Some_2 items k Hkl) as [u Hv]. destruct (lo_place _ _ _ _ _ Hok _ _ Hv) as (v' & Hv' & Hs).
    rewrite (edits_of_lookup _ _ _ _ _ _ _ Hv Hv') in Hk. injection Hk as -> Hk. rewrite Hov in Hk.
    case_bool_decide as Hr; [done|]. injection Hk as ->. apply Hr.
    assert (exists a0, v = JObject a0 /\ annStringValue a0 "id" = annStringValue a "id") as (a0 & -> & Ha0).
    { destruct Hs as [<-|(a0 & a' & -> & [= <-] & Hk)]; [by exists a|]. exists a0. split; [done|]. symmetry. apply annStringValue_eq. by apply Hk. }
    assert (k = index p) as -> by (eapply Hu; [exact Hv|exact Hib|by rewrite Ha0, Hid, Hb]). by apply Hset.
Qed.
End line.

(** C14: after a transcription every transcribed line is on the page as it was, and with as many tokens as it had words, it still has
    those words, each in place, told its token from left to right: a word that has no text in a body before its first
    textual body ([quiet_body]) reads exactly its token.  With another number of tokens the line has no words and none of its words is on the page.  Every item
    that is not a word of a transcribed line, such as the words of a line that could not be read, is on the page as it was.
    The identifiers of the items are distinct. *)
Theorem transcribed_words_follow_lines items authoritative : Z.of_nat (length items) <= maxInt64 -> unique_ids items ->
  let result := reconcileTranscribedLineWords items authoritative in
  (forall line, JObject line ∈ items -> says line "textGranularity" "line" = true ->
     annStringValue line "id" ∈ authoritative ->
     let before := SpatialWords.annotation <$> listed (assigned_words items) (annStringValue line "id") in
     let words := SpatialWords.annotation <$> listed (assigned_words result) (annStringValue line "id") in
     let tokens := Fields (extractAnnotationText line) in
     JObject line ∈ result /\
     (length tokens = length before -> words = zip_with retell before tokens /\
        forall k word token, before !! k = Some word -> tokens !! k = Some token -> quiet_body (jget word "body") ->
          extractAnnotationText <$> words !! k = Some token) /\
     (length tokens <> length before -> words = [] /\
        forall word a, word ∈ before -> JObject a ∈ result -> annStringValue a "id" <> annStringValue word "id")) /\
  (forall i v, items !! i = Some v -> (forall p id, belongs None items p id -> index p = i -> id ∉ authoritative) -> v ∈ result).
Proof.
  intros Hle Hu result. destruct (reconciled_edit items authoritative Hle Hu) as (l & removed & Hok & Hres).
  assert (Hkeep : forall i v, items !! i = Some v -> (forall p id, belongs None items p id -> index p = i -> id ∉ authoritative) -> v ∈ result).
  { intros i v Hv Hfree. destruct (lo_untouched _ _ _ _ _ Hok i) as [Hi Hr].
    { intros j line _ (_ & _ & Hin) (p & Heq & Hp)%list_elem_of_fmap.
      rewrite (words_were_belong items (Hrange items) Hle) in Hp. by apply (Hfree p _ Hp). }
    unfold result. rewrite Hres. apply list_elem_of_omap. exists (v, Some v). split; [|done].
    apply (list_elem_of_lookup_2 _ i). rewrite Hv in Hi. rewrite (edits_of_lookup _ _ _ _ _ _ _ Hv Hi).
    by rewrite bool_decide_eq_false_2. }
  split; [|done]. intros line Hline Hsays Hauth before words tokens. apply list_elem_of_lookup in Hline as [i Hi].
  assert (Hg : granular (JObject line) "line" = Some line) by (unfold granular; by rewrite Hsays).
  pose proof (granular_line _ _ Hg) as [_ Hgr]. assert (Hl : line_at items authoritative i line) by done. split.
  { apply (Hkeep i _ Hi). intros p id Hp Hip _. rewrite <-(words_were_belong items (Hrange items) Hle) in Hp.
    destruct (words_were_items items (Hrange items) Hle _ _ Hp) as (a & _ & Ha & Hga & _).
    rewrite Hip, Hi in Ha. injection Ha as <-. congruence. }
  unfold words, before, result. rewrite Hres, (words_after _ _ _ _ Hle Hu Hok _ _ Hi), length_fmap. split.
  - intros Heq. rewrite (told_words _ _ _ _ Hle Hok _ _ Hl Heq). split; [done|]. intros k word token Hw Ht Hq.
    unfold words_were. rewrite lookup_zip_with, Hw. fold tokens. rewrite Ht. cbn. f_equal.
    pose proof (Fields_words (extractAnnotationText line)) as Hf. rewrite Forall_lookup in Hf. destruct (Hf _ _ Ht) as [Hsp Hn].
    pose proof (spaceless_TrimSpace _ Hsp) as Htrim. rewrite retell_reads; [done|by rewrite Htrim|done].
  - intros Hne. destruct (gone_words _ _ _ _ Hle Hu Hok _ _ Hl Hne) as [-> Hgone]. split; [done|].
    intros word a (p & -> & Hp)%list_elem_of_fmap Ha. by apply Hgone.
Qed.
End theorem.

(** ** A transcribed page *)

#[local] Existing Instance page_range.

(** The line at the top was transcribed again; the line below it could not be read. *)
Definition unread : obj := item "https://example.org/1/annotations/items/u" "line" "10,40,90,20" "still here".
Definition stale_page : list json :=
  [JObject title; JObject (loose "a" "12,12,20,16" "Uno"); JObject (loose "b" "40,12,20,16" "dos");
   JObject (loose "c" "70,12,20,16" "tres"); JObject unread; JObject (loose "d" "12,42,20,16" "still")].
Definition told_page : list json := reconcileTranscribedLineWords stale_page {[title_id]}.

Lemma transcribed_words_follow_lines_witness :
  length told_page = 6%nat /\
  extractAnnotationText <$> (SpatialWords.annotation <$> listed (assigned_words told_page) title_id) !! 1%nat = Some "two"%string /\
  JObject unread ∈ told_page.
Proof.
  assert (Hids : unique_ids stale_page) by (apply NoDup_unique_ids, (bool_decide_unpack _); vm_compute; exact I).
  destruct (transcribed_words_follow_lines page_range_order stale_page {[title_id]} ltac:(vm_compute; discriminate) Hids) as [Hlines Hrest].
  split; [vm_compute; reflexivity|]. split.
  - destruct (Hlines title ltac:(left) eq_refl ltac:(vm_compute; reflexivity)) as (_ & Hsame & _).
    destruct (Hsame ltac:(vm_compute; reflexivity)) as [_ Hread].
    apply (Hread 1%nat (loose "b" "40,12,20,16" "dos")); [vm_compute; reflexivity|vm_compute; reflexivity|by left].
  - apply (Hrest 4%nat); [reflexivity|]. intros p id (v & c & w & line & Hv & Hw & _) Hp. rewrite Hp in Hv, Hw.
    injection Hv as <-. vm_compute in Hw. discriminate Hw.
Defined.

(** A word with a dataset that carries text before its textual body: the token goes into the textual body, the first value is still
    read, and the word says what it said before the transcription. *)
Definition layered : obj :=
  jset (loose "b" "40,12,20,16" "x") "body"
    (JArray [JObject [("type", JString "Dataset"); ("value", JString "old")]; JObject [("type", JString "TextualBody"); ("value", JString "x")]]).
Definition new_title : obj := item title_id "line" "10,10,90,20" "new".
Definition layered_page : list json := [JObject new_title; JObject layered].
Example layered_word_stays_stale : let told := reconcileTranscribedLineWords layered_page {[title_id]} in
  extractAnnotationText layered = "old"%string /\
  (fun w => extractAnnotationText (SpatialWords.annotation w)) <$> listed (assigned_words told) title_id = ["old"]%string.
Proof. vm_compute. by split. Qed.

End TranscribedTheorems.
