(* ===== verification/TokenTheorems.v ===== *)
(** * Token matching

    [longestCommonTokenMatches] of internal/server/annotation_reconciliation.go: common
    ends are matched first, then a table of 16-bit lengths is filled from its last cell
    and followed from its first. The number of cells is bounded per call and, through a
    counter the calls share, per page (module [TokenDiff]); modules [TokenLcs] and [TokenTheorems]: it is optimal and bounded. *)

From Stdlib Require Import ZArith Lia.
From stdpp Require Import base list strings sorting.
From S2P Require Import Prelude.

Module TokenDiff.
#[local] Open Scope Z_scope.

Definition maxWordReconciliationLCSCells : Z := 1000000.

Record tokenMatch := { baseIndex : nat; tokenIndex : nat }.

Inductive diff_err := ETokenCells | EPageCells.

(** ** The table *)

Definition wrap16 (z : Z) : Z := z mod 2 ^ 16.

(** [dp[i*columns+j]] *)
Definition cell_at (columns : nat) (dp : list Z) (i j : nat) : Z := default 0 (dp !! (i * columns + j)%nat).

Section table.
Context (a b : list string).

Definition columns : nat := S (length b).

(** The body of the two loops. *)
Definition fill_cell (dp : list Z) (i j : nat) : list Z :=
  let down := cell_at columns dp (S i) j in
  let right := cell_at columns dp i (S j) in
  <[(i * columns + j)%nat :=
      if bool_decide (a !! i = b !! j) then wrap16 (cell_at columns dp (S i) (S j) + 1)
      else if right <=? down then down else right]> dp.

(** [for j := n-1; j >= 0; j--] *)
Fixpoint fill_row (dp : list Z) (i n : nat) : list Z :=
  match n with O => dp | S j => fill_row (fill_cell dp i j) i j end.

(** [for i := m-1; i >= 0; i--] *)
Fixpoint fill_rows (dp : list Z) (m : nat) : list Z :=
  match m with O => dp | S i => fill_rows (fill_row dp i (length b)) i end.

Definition table : list Z := fill_rows (replicate (S (length a) * columns) 0) (length a).

(** The second pair of loops; each turn advances [i] or [j]. *)
Fixpoint walk (fuel : nat) (dp : list Z) (prefix i j : nat) : list tokenMatch :=
  match fuel with
  | O => []
  | S n =>
      if (i <? length a)%nat && (j <? length b)%nat then
        if bool_decide (a !! i = b !! j)
        then {| baseIndex := prefix + i; tokenIndex := prefix + j |} :: walk n dp prefix (S i) (S j)
        else if cell_at columns dp i (S j) <=? cell_at columns dp (S i) j then walk n dp prefix (S i) j
        else walk n dp prefix i (S j)
      else []
  end.
End table.

(** ** The common ends *)

Fixpoint common_prefix (base tokens : list string) : nat :=
  match base, tokens with
  | x :: base', y :: tokens' => if bool_decide (x = y) then S (common_prefix base' tokens') else 0%nat
  | _, _ => 0%nat
  end.

(** [for baseEnd > prefix && tokenEnd > prefix && base[baseEnd-1] == tokens[tokenEnd-1]] *)
Fixpoint trim_suffix (fuel : nat) (base tokens : list string) (prefix baseEnd tokenEnd : nat) : nat * nat :=
  match fuel with
  | O => (baseEnd, tokenEnd)
  | S n =>
      if (prefix <? baseEnd)%nat && (prefix <? tokenEnd)%nat
         && bool_decide (base !! (baseEnd - 1)%nat = tokens !! (tokenEnd - 1)%nat)
      then trim_suffix n base tokens prefix (baseEnd - 1) (tokenEnd - 1)
      else (baseEnd, tokenEnd)
  end.

(** [base[lo:hi]] *)
Definition slice (l : list string) (lo hi : nat) : list string := drop lo (take hi l).

(** What the comparison of the middles costs; [cellsRemaining] is what the page has left. *)
Definition spend_cells (rows cols : Z) (cellsRemaining : option Z) : result diff_err (option Z) :=
  if (0 <? rows) && (maxWordReconciliationLCSCells / rows <? cols) then Err ETokenCells else
  let cells := if 0 <? rows then rows * cols else 0 in
  match cellsRemaining with
  | Some remaining => if remaining <? cells then Err EPageCells else Ok (Some (remaining - cells))
  | None => Ok None
  end.

Definition diagonal (k : nat) (n : nat) : list tokenMatch :=
  map (fun index => {| baseIndex := k + index; tokenIndex := k + index |}) (seq 0 n).

Definition longestCommonTokenMatches (base tokens : list string) (cellsRemaining : option Z)
    : result diff_err (list tokenMatch * option Z) :=
  let prefix := common_prefix base tokens in
  let '(baseEnd, tokenEnd) := trim_suffix (length base) base tokens prefix (length base) (length tokens) in
  let middleBase := slice base prefix baseEnd in
  let middleTokens := slice tokens prefix tokenEnd in
  cellsRemaining ← spend_cells (Z.of_nat (length middleBase)) (Z.of_nat (length middleTokens)) cellsRemaining;
  let dp := table middleBase middleTokens in
  Ok (diagonal 0 prefix
        ++ walk middleBase middleTokens (length middleBase + length middleTokens) dp prefix 0 0
        ++ map (fun offset => {| baseIndex := baseEnd + offset; tokenIndex := tokenEnd + offset |})
             (seq 0 (length base - baseEnd)),
      cellsRemaining).

End TokenDiff.

(** * Longest common subsequences

    A recursive definition of the length the table of TokenDiff.v holds, the proof that no
    common subsequence is longer, and the proof that the table holds it: no cell
    overflows its 16 bits, because the cells are bounded.

    Modules [TokenLcs]: longest common subsequences;
    [TokenTheorems]: token matching is optimal and bounded. *)

Module TokenLcs.
Import TokenDiff.
#[local] Open Scope Z_scope.

Fixpoint lcs (a b : list string) : nat :=
  match a with
  | [] => 0
  | x :: a' =>
      (fix row (b : list string) : nat :=
         match b with
         | [] => 0
         | y :: b' => if bool_decide (x = y) then S (lcs a' b') else Nat.max (lcs a' b) (row b')
         end) b
  end%nat.

Lemma lcs_nil_r a : lcs a [] = 0%nat.
Proof. by destruct a. Qed.
Lemma lcs_cons x a y b :
  lcs (x :: a) (y :: b) = if bool_decide (x = y) then S (lcs a b) else Nat.max (lcs a (y :: b)) (lcs (x :: a) b).
Proof. done. Qed.

Lemma sublist_tail {A} (z : A) l a : z :: l `sublist_of` a -> l `sublist_of` a.
Proof. intros H. etransitivity; [|exact H]. by constructor. Qed.

Lemma sublist_cons_tail {A} (z x : A) l a : z :: l `sublist_of` x :: a -> l `sublist_of` a.
Proof. rewrite sublist_cons_r. intros [H|(k & [= -> ->] & Hk)]; [by eapply sublist_tail|done]. Qed.

Lemma lcs_upper a b l : l `sublist_of` a -> l `sublist_of` b -> (length l <= lcs a b)%nat.
Proof.
  revert b l. induction a as [|x a IHa]; intros b l Ha Hb.
  - apply sublist_nil_r in Ha as ->. done.
  - revert l Ha Hb. induction b as [|y b IHb]; intros l Ha Hb.
    + apply sublist_nil_r in Hb as ->. done.
    + rewrite lcs_cons. case_bool_decide as E.
      * destruct l as [|z l]; cbn; [lia|]. apply le_n_S, IHa; by eapply sublist_cons_tail.
      * rewrite sublist_cons_r in Ha. destruct Ha as [Ha|(k & -> & Ha)]; [etransitivity; [by apply IHa|lia]|].
        rewrite sublist_cons_r in Hb. destruct Hb as [Hb|(k' & [= -> ->] & Hb)]; [|done].
        etransitivity; [apply IHb|lia]; [by constructor|done].
Qed.

Lemma lcs_bound a b : (lcs a b <= length a)%nat /\ (lcs a b <= length b)%nat.
Proof.
  revert b. induction a as [|x a IHa]; intros b; [cbn; lia|].
  induction b as [|y b IHb]; [cbn; lia|]. rewrite lcs_cons. pose proof (IHa b). pose proof (IHa (y :: b)).
  cbn [length] in *. case_bool_decide; lia.
Qed.

(** ** The table *)

Section table.
Context (a b : list string).
#[local] Abbreviation cols := (columns b).
#[local] Abbreviation C := (cell_at cols).

Lemma cell_index_inj i j i' j' : (j < cols)%nat -> (j' < cols)%nat ->
  (i * cols + j)%nat = (i' * cols + j')%nat -> i = i' /\ j = j'.
Proof.
  intros Hj Hj' H. assert (i = i'); [|nia].
  destruct (Nat.lt_trichotomy i i') as [|[|]]; [nia|done|nia].
Qed.

Definition fits (n : nat) : Prop := Z.of_nat n < 2 ^ 16.
Context (Hfit : forall i j, fits (lcs (drop i a) (drop j b))).

(** The cells from [(i, j)] on, in reading order, hold their lengths; those before are 0. *)
Definition value (i j : nat) : Z := Z.of_nat (lcs (drop i a) (drop j b)).

Record filled (dp : list Z) (i j : nat) : Prop := {
  f_length : length dp = (S (length a) * cols)%nat;
  f_done : forall i' j', (i' <= length a)%nat -> (j' < cols)%nat -> (i < i' \/ (i' = i /\ j <= j'))%nat -> C dp i' j' = value i' j';
  f_edge : forall i', (i' <= length a)%nat -> C dp i' (length b) = 0;
}.

Lemma value_edge i : value i (length b) = 0.
Proof. unfold value. by rewrite drop_all, lcs_nil_r. Qed.

Lemma value_step i j : (i < length a)%nat -> (j < length b)%nat ->
  value i j = if bool_decide (a !! i = b !! j) then value (S i) (S j) + 1 else Z.max (value (S i) j) (value i (S j)).
Proof.
  intros Hi Hj. destruct (lookup_lt_is_Some_2 a i Hi) as [x Hx], (lookup_lt_is_Some_2 b j Hj) as [y Hy].
  unfold value. rewrite (drop_S _ _ _ Hx), (drop_S _ _ _ Hy), lcs_cons, Hx, Hy.
  destruct (decide (x = y)) as [->|Hne].
  - rewrite !bool_decide_eq_true_2 by done. lia.
  - rewrite !bool_decide_eq_false_2 by congruence. lia.
Qed.

Lemma cell_insert dp i j i' j' v : length dp = (S (length a) * cols)%nat ->
  (i <= length a)%nat -> (j < cols)%nat -> (j' < cols)%nat ->
  C (<[(i * cols + j)%nat := v]> dp) i' j' = if decide (i = i' /\ j = j') then v else C dp i' j'.
Proof.
  intros Hl Hi Hj Hj'. unfold cell_at. destruct (decide _) as [[-> ->]|Hne].
  - rewrite list_lookup_insert_eq; [done|]. rewrite Hl. nia.
  - rewrite list_lookup_insert_ne; [done|]. intros E. apply cell_index_inj in E as [-> ->]; [|done|done]. by apply Hne.
Qed.

Lemma fill_cell_ok dp i j : filled dp i (S j) -> (i < length a)%nat -> (j < length b)%nat -> filled (fill_cell a b dp i j) i j.
Proof.
  intros [Hl Hd He] Hi Hj. assert (Hc : cols = S (length b)) by done.
  unfold fill_cell. constructor.
  - by rewrite length_insert.
  - intros i' j' Hi' Hj' Ho. rewrite cell_insert by lia. destruct (decide _) as [[<- <-]|Hne]; [|apply Hd; lia].
    rewrite value_step, !Hd by lia. case_bool_decide.
    + unfold wrap16. apply Z.mod_small. pose proof (Hfit (S i) (S j)) as Hf1. pose proof (Hfit i j) as Hf. unfold fits in *.
      pose proof (value_step i j Hi Hj) as Hv. rewrite bool_decide_eq_true_2 in Hv by done. unfold value in *. lia.
    + destruct (Z.leb_spec (value i (S j)) (value (S i) j)); lia.
  - intros i' Hi'. rewrite cell_insert by lia. destruct (decide _) as [[-> ->]|]; [lia|by apply He].
Qed.

Lemma fill_row_ok n dp i : filled dp i n -> (i < length a)%nat -> (n <= length b)%nat -> filled (fill_row a b dp i n) i 0.
Proof.
  revert dp. induction n as [|j IH]; intros dp Hf Hi Hn; [done|]. cbn. apply IH; [|done|lia].
  apply fill_cell_ok; [done|done|lia].
Qed.

Lemma filled_next dp i : filled dp (S i) 0 -> filled dp i (length b).
Proof.
  intros [Hl Hd He]. split; [done| |done]. intros i' j' Hi' Hj' [Ho|[-> Ho]].
  - apply Hd; [done|done|]. lia.
  - assert (j' = length b) as -> by (unfold columns in Hj'; lia). by rewrite He, value_edge.
Qed.

Lemma fill_rows_ok m dp : filled dp m 0 -> (m <= length a)%nat -> filled (fill_rows a b dp m) 0 0.
Proof.
  revert dp. induction m as [|i IH]; intros dp Hf Hm; [done|]. cbn. apply IH; [|lia].
  apply fill_row_ok; [by apply filled_next|lia|done].
Qed.

Lemma table_ok i j : (i <= length a)%nat -> (j <= length b)%nat -> C (table a b) i j = value i j.
Proof.
  intros Hi Hj. assert (Hf : filled (table a b) 0 0).
  { apply fill_rows_ok; [|lia]. assert (Hz : forall i j, C (replicate (S (length a) * cols) 0) i j = 0).
    { intros i' j'. unfold cell_at. destruct (_ !! _) eqn:E; [|done]. by apply lookup_replicate in E as [-> _]. }
    split; [by rewrite length_replicate| |done].
    intros i' j' Hi' Hj' Ho. rewrite Hz. assert (i' = length a) as -> by lia. unfold value. by rewrite drop_all. }
  apply Hf; [done|unfold columns; lia|lia].
Qed.

(** ** Following the table *)

(** The matches from [(i, j)] on: increasing pairs of equal tokens. *)
Record matching (i j : nat) (ms : list tokenMatch) : Prop := {
  m_base : StronglySorted lt (baseIndex <$> ms);
  m_token : StronglySorted lt (tokenIndex <$> ms);
  m_from : Forall (fun m => i <= baseIndex m /\ j <= tokenIndex m)%nat ms;
}.

Definition shift (k : nat) (m : tokenMatch) : tokenMatch :=
  {| baseIndex := k + baseIndex m; tokenIndex := k + tokenIndex m |}.

Lemma walk_shift fuel dp k i j : walk a b fuel dp k i j = shift k <$> walk a b fuel dp 0 i j.
Proof.
  revert i j. induction fuel as [|n IH]; intros i j; [done|]. cbn -[Nat.ltb].
  destruct (_ && _); [|done]. case_bool_decide; [by rewrite fmap_cons, IH|]. by destruct (_ <=? _).
Qed.

Lemma walk_ok fuel i j : (i <= length a)%nat -> (j <= length b)%nat -> (length a - i + (length b - j) <= fuel)%nat ->
  let ms := walk a b fuel (table a b) 0 i j in
  length ms = lcs (drop i a) (drop j b) /\ matching i j ms /\
  Forall (fun m => is_Some (a !! baseIndex m) /\ a !! baseIndex m = b !! tokenIndex m) ms.
Proof.
  revert i j. induction fuel as [|n IH]; intros i j Hi Hj Hf; cbn -[Nat.ltb].
  { assert (i = length a) as -> by lia. rewrite drop_all. by repeat split; constructor. }
  destruct (Nat.ltb_spec i (length a)) as [Hia|Hia]; cbn [andb].
  2:{ assert (i = length a) as -> by lia. rewrite drop_all. by repeat split; constructor. }
  destruct (Nat.ltb_spec j (length b)) as [Hjb|Hjb]; cbn [andb].
  2:{ assert (j = length b) as -> by lia. rewrite drop_all, lcs_nil_r. by repeat split; constructor. }
  pose proof (value_step i j Hia Hjb) as Hv. case_bool_decide as E.
  - destruct (IH (S i) (S j)) as (Hl & [H1 H2 H3] & H4); [lia..|]. split_and!.
    + cbn. rewrite Hl. unfold value in Hv. lia.
    + split; cbn.
      * constructor; [done|]. apply Forall_fmap. eapply Forall_impl; [exact H3|]. cbn. lia.
      * constructor; [done|]. apply Forall_fmap. eapply Forall_impl; [exact H3|]. cbn. lia.
      * constructor; [cbn; lia|]. eapply Forall_impl; [exact H3|]. cbn. lia.
    + constructor; [|done]. cbn. split; [by apply lookup_lt_is_Some_2|done].
  - rewrite !table_ok by lia.
    destruct (Z.leb_spec (value i (S j)) (value (S i) j)) as [Hc|Hc].
    + destruct (IH (S i) j) as (Hl & [H1 H2 H3] & H4); [lia..|]. split_and!; [|split|done]; [|done..|].
      * rewrite Hl. unfold value in *. lia.
      * eapply Forall_impl; [exact H3|]. cbn. lia.
    + destruct (IH i (S j)) as (Hl & [H1 H2 H3] & H4); [lia..|]. split_and!; [|split|done]; [|done..|].
      * rewrite Hl. unfold value in *. lia.
      * eapply Forall_impl; [exact H3|]. cbn. lia.
Qed.
End table.

End TokenLcs.

(** * Token matching is optimal and bounded

    What [longestCommonTokenMatches] returns, and when it refuses. *)

Module TokenTheorems.
Import TokenDiff TokenLcs.
#[local] Open Scope Z_scope.

(** ** The common ends *)

(** Neither list is empty and the two ends are equal. *)
Definition meet (x y : option string) : Prop := is_Some x /\ x = y.

Lemma common_prefix_spec base tokens : let k := common_prefix base tokens in
  (k <= length base)%nat /\ (k <= length tokens)%nat /\ take k base = take k tokens /\ ~ meet (base !! k) (tokens !! k).
Proof.
  revert tokens. induction base as [|x base IH]; intros tokens; [|destruct tokens as [|y tokens]]; cbn.
  - split_and!; [lia..|by rewrite !take_0|by intros [[? [=]] _]].
  - split_and!; [lia..|done|by intros [_ [=]]].
  - case_bool_decide as E.
    + destruct (IH tokens) as (Hb & Ht & He & Hm). subst. cbn. split_and!; [lia..|by rewrite He|done].
    + split_and!; [lia..|done|]. by intros [_ [=]].
Qed.

(** What [trim_suffix] leaves of the first [be] and [te] tokens, and what it takes off. *)
Lemma trim_suffix_spec fuel base tokens k be te be' te' :
  trim_suffix fuel base tokens k be te = (be', te') ->
  (k <= be <= length base)%nat -> (k <= te <= length tokens)%nat -> (be - k <= fuel)%nat ->
  exists s, take be base = take be' base ++ s /\ take te tokens = take te' tokens ++ s /\
    (k <= be' <= be)%nat /\ (k <= te' <= te)%nat /\
    (be' = k \/ te' = k \/ ~ meet (base !! (be' - 1)%nat) (tokens !! (te' - 1)%nat)).
Proof.
  revert be te. induction fuel as [|n IH]; intros be te H Hb Ht Hf; cbn -[Nat.ltb] in H.
  { injection H as <- <-. exists []. rewrite !app_nil_r. split_and!; try done; try lia. }
  destruct (Nat.ltb_spec k be) as [Hkb|]; cbn [andb] in H;
    [|injection H as <- <-; exists []; rewrite !app_nil_r; split_and!; try done; lia].
  destruct (Nat.ltb_spec k te) as [Hkt|]; cbn [andb] in H;
    [|injection H as <- <-; exists []; rewrite !app_nil_r; split_and!; try done; lia].
  case_bool_decide as E.
  2:{ injection H as <- <-. exists []. rewrite !app_nil_r. split_and!; try done; try lia. right. right. by intros [_ ?]. }
  destruct (IH _ _ H) as (s & Hs & Hs' & H1 & H2 & H3); [lia..|].
  destruct (lookup_lt_is_Some_2 base (be - 1)) as [x Hx]; [lia|]. exists (s ++ [x]).
  replace be with (S (be - 1)) at 1 by lia. replace te with (S (te - 1)) at 1 by lia.
  rewrite (take_S_r base _ x), (take_S_r tokens _ x), Hs, Hs', <-!app_assoc by (done || by rewrite <-E).
  split_and!; try done; lia.
Qed.

(** The ends the two lists share, and the middles that are compared. *)
Record split_ends (base tokens p mb mt s : list string) : Prop := {
  se_base : base = p ++ mb ++ s;
  se_tokens : tokens = p ++ mt ++ s;
  se_first : ~ meet (head mb) (head mt);
  se_last : ~ meet (last mb) (last mt);
}.

Lemma slice_parts (l : list string) k e : (k <= e <= length l)%nat ->
  take e l = take k l ++ slice l k e /\ length (slice l k e) = (e - k)%nat.
Proof.
  intros He. unfold slice. split; [|rewrite length_drop, length_take; lia].
  rewrite <-(take_drop k (take e l)) at 1. by rewrite take_take, Nat.min_l by lia.
Qed.

Lemma slice_head (l : list string) k e : (k < e)%nat -> head (slice l k e) = l !! k.
Proof. intros He. unfold slice. rewrite head_lookup, lookup_drop, Nat.add_0_r. by apply lookup_take_lt. Qed.

Lemma slice_last (l : list string) k e : (k < e <= length l)%nat -> last (slice l k e) = l !! (e - 1)%nat.
Proof.
  intros He. rewrite last_lookup. destruct (slice_parts l k e) as [_ ->]; [lia|].
  unfold slice. rewrite lookup_drop, lookup_take_lt by lia. f_equal. lia.
Qed.

Lemma ends_of base tokens be te : let k := common_prefix base tokens in
  trim_suffix (length base) base tokens k (length base) (length tokens) = (be, te) ->
  split_ends base tokens (take k base) (slice base k be) (slice tokens k te) (drop be base) /\
  (k <= be <= length base)%nat /\ (length base - be = length tokens - te)%nat /\ (k <= te <= length tokens)%nat.
Proof.
  intros k H. destruct (common_prefix_spec base tokens) as (Hkb & Hkt & Hp & Hm). fold k in Hkb, Hkt, Hp, Hm.
  destruct (trim_suffix_spec _ _ _ _ _ _ _ _ H) as (s & Hs & Hs' & Hbe & Hte & Hend); [lia..|].
  rewrite !firstn_all in Hs, Hs'.
  assert (Hds : drop be base = s) by (rewrite Hs at 1; apply drop_app_length'; rewrite length_take; lia).
  assert (Hls : (length s = length base - be)%nat) by (rewrite <-Hds; apply length_drop).
  assert (Hls' : (length s = length tokens - te)%nat).
  { pose proof (f_equal length Hs') as Hl. rewrite length_app, length_take in Hl. lia. }
  destruct (slice_parts base k be) as [Hpb Hlb], (slice_parts tokens k te) as [Hpt Hlt]; [lia..|].
  split_and!; try lia. split.
  - rewrite Hds, app_assoc, <-Hpb. exact Hs.
  - rewrite Hds, Hp, app_assoc, <-Hpt. exact Hs'.
  - destruct (decide (k < be)%nat) as [Hb|]; [|rewrite (nil_length_inv (slice base k be)) by lia; by intros [[? [=]] _]].
    destruct (decide (k < te)%nat) as [Ht|]; [|rewrite (nil_length_inv (slice tokens k te)) by lia; by intros [[? ->] [=]]].
    by rewrite !slice_head.
  - destruct (decide (k < be)%nat) as [Hb|]; [|rewrite (nil_length_inv (slice base k be)) by lia; by intros [[? [=]] _]].
    destruct (decide (k < te)%nat) as [Ht|]; [|rewrite (nil_length_inv (slice tokens k te)) by lia; by intros [[? ->] [=]]].
    rewrite !slice_last by lia. destruct Hend as [|[|]]; [lia..|done].
Qed.

(** ** Common subsequences with shared ends *)

Lemma sublist_snoc_tail {A} (z x : A) l a : l ++ [z] `sublist_of` a ++ [x] -> l `sublist_of` a.
Proof.
  rewrite sublist_app_r. intros (l1 & l2 & Hl & H1 & H2).
  destruct l2 as [|w l2 _] using rev_ind.
  - rewrite app_nil_r in Hl. subst. etransitivity; [|exact H1]. by apply sublist_inserts_r.
  - rewrite app_assoc in Hl. apply app_inj_2 in Hl as [-> _]; [|done].
    apply sublist_length in H2 as Hn. rewrite length_app in Hn. cbn in Hn.
    destruct l2; [|cbn in Hn; lia]. by rewrite app_nil_r.
Qed.

Lemma common_suffix_bound (a b s l : list string) n : (forall l, l `sublist_of` a -> l `sublist_of` b -> (length l <= n)%nat) ->
  l `sublist_of` a ++ s -> l `sublist_of` b ++ s -> (length l <= n + length s)%nat.
Proof.
  intros Hn. revert l. induction s as [|x s IH] using rev_ind; intros l Ha Hb.
  - rewrite app_nil_r in Ha, Hb. rewrite Nat.add_0_r. by apply Hn.
  - rewrite app_assoc in Ha, Hb. rewrite length_app. destruct l as [|z l _] using rev_ind; [cbn; lia|].
    rewrite length_app. cbn. specialize (IH l (sublist_snoc_tail _ _ _ _ Ha) (sublist_snoc_tail _ _ _ _ Hb)). lia.
Qed.

Lemma lcs_app p a b : lcs (p ++ a) (p ++ b) = (length p + lcs a b)%nat.
Proof. induction p as [|x p IH]; [done|]. cbn [app length]. by rewrite lcs_cons, bool_decide_eq_true_2, IH. Qed.

Lemma common_ends_bound p a b s l : l `sublist_of` p ++ a ++ s -> l `sublist_of` p ++ b ++ s ->
  (length l <= length p + lcs a b + length s)%nat.
Proof.
  rewrite !(app_assoc p). rewrite <-lcs_app. apply common_suffix_bound. intros l'. apply lcs_upper.
Qed.

(** ** The matches *)

(** Positions of equal tokens, both increasing. *)
Record matches_of (base tokens : list string) (ms : list tokenMatch) : Prop := {
  mo_base : StronglySorted lt (baseIndex <$> ms);
  mo_token : StronglySorted lt (tokenIndex <$> ms);
  mo_equal : Forall (fun m => is_Some (base !! baseIndex m) /\ base !! baseIndex m = tokens !! tokenIndex m) ms;
}.

Lemma StronglySorted_app_below (l l' : list nat) k : StronglySorted lt l -> StronglySorted lt l' ->
  Forall (fun x => x < k)%nat l -> Forall (fun x => k <= x)%nat l' -> StronglySorted lt (l ++ l').
Proof.
  intros H H' Hl Hl'. rewrite StronglySorted_app. split_and!; [|done..].
  rewrite Forall_forall in Hl, Hl'. intros x y Hx%Hl Hy%Hl'. lia.
Qed.

Lemma matches_app base tokens ms ms' kb kt : matches_of base tokens ms -> matches_of base tokens ms' ->
  Forall (fun m => baseIndex m < kb /\ tokenIndex m < kt)%nat ms ->
  Forall (fun m => kb <= baseIndex m /\ kt <= tokenIndex m)%nat ms' -> matches_of base tokens (ms ++ ms').
Proof.
  intros [H1 H2 H3] [H1' H2' H3'] Hl Hl'. split; rewrite ?fmap_app.
  - apply (StronglySorted_app_below _ _ kb); [done..| |]; apply Forall_fmap; eapply Forall_impl; [exact Hl| |exact Hl'|]; naive_solver.
  - apply (StronglySorted_app_below _ _ kt); [done..| |]; apply Forall_fmap; eapply Forall_impl; [exact Hl| |exact Hl'|]; naive_solver.
  - by apply Forall_app.
Qed.

(** A run of equal tokens, matched one by one. *)
Definition run (i j n : nat) : list tokenMatch := map (fun o => {| baseIndex := i + o; tokenIndex := j + o |}) (seq 0 n).

Lemma sorted_seq i k n : StronglySorted lt (map (fun o => (i + o)%nat) (seq k n)).
Proof.
  revert k. induction n as [|n IH]; intros k; cbn; [constructor|]. constructor; [apply IH|].
  apply Forall_fmap, Forall_forall. intros y Hy%elem_of_seq. cbn. lia.
Qed.

Lemma run_range i j n : Forall (fun m => i <= baseIndex m < i + n /\ j <= tokenIndex m < j + n)%nat (run i j n).
Proof. unfold run. apply Forall_fmap, Forall_forall. intros o Ho%elem_of_seq. cbn. lia. Qed.

Lemma run_matches base tokens i j n :
  (forall o, (o < n)%nat -> is_Some (base !! (i + o)%nat) /\ base !! (i + o)%nat = tokens !! (j + o)%nat) ->
  matches_of base tokens (run i j n).
Proof.
  intros He. unfold run. split.
  - rewrite <-list_fmap_compose. apply sorted_seq.
  - rewrite <-list_fmap_compose. apply sorted_seq.
  - apply Forall_fmap, Forall_forall. intros o Ho%elem_of_seq. apply He. lia.
Qed.

Lemma sorted_shift (f : tokenMatch -> nat) k ms : (forall m, f (shift k m) = k + f m)%nat ->
  StronglySorted lt (f <$> ms) -> StronglySorted lt ((f ∘ shift k) <$> ms).
Proof.
  intros Hf. induction ms as [|m ms IH]; [done|]. rewrite !fmap_cons. intros [Hs Hm]%StronglySorted_inv. constructor; [by apply IH|].
  rewrite Forall_fmap in Hm |- *. eapply Forall_impl; [exact Hm|]. cbn. intros m'. rewrite !Hf. lia.
Qed.

Lemma matches_shift base tokens p mb mt s ms : base = p ++ mb ++ s -> tokens = p ++ mt ++ s ->
  matches_of mb mt ms -> matches_of base tokens (shift (length p) <$> ms).
Proof.
  intros -> -> [H1 H2 H3]. split.
  - rewrite <-list_fmap_compose. by apply (sorted_shift baseIndex).
  - rewrite <-list_fmap_compose. by apply (sorted_shift tokenIndex).
  - apply Forall_fmap. eapply Forall_impl; [exact H3|]. intros m [[x Hx] He]. cbn.
    rewrite Hx in He. symmetry in He. assert (Hin : forall l x i, l !! i = Some x -> (p ++ l ++ s) !! (length p + i)%nat = Some x).
    { intros l y i Hy. rewrite lookup_app_r, Nat.add_sub' by lia. by apply lookup_app_l_Some. }
    rewrite (Hin _ _ _ Hx), (Hin _ _ _ He). eauto.
Qed.

(** ** The budget *)

(** The comparison of [cost] cells is within the bound and what the page has left. *)
Definition affordable (cost : Z) (cellsRemaining : option Z) : Prop :=
  cost <= maxWordReconciliationLCSCells /\ match cellsRemaining with Some r => cost <= r | None => True end.

#[export] Instance affordable_dec cost cells : Decision (affordable cost cells).
Proof. unfold affordable. destruct cells; solve_decision. Defined.

Lemma spend_cells_spec rows cols cells : 0 <= rows -> 0 <= cols ->
  let cost := rows * cols in
  if decide (affordable cost cells) then spend_cells rows cols cells = Ok ((fun r => r - cost) <$> cells)
  else exists e, spend_cells rows cols cells = Err e.
Proof.
  intros Hr Hc cost. unfold spend_cells, affordable.
  assert (Hq : (0 <? rows) && (maxWordReconciliationLCSCells / rows <? cols) = bool_decide (maxWordReconciliationLCSCells < cost)).
  { unfold cost. destruct (Z.ltb_spec 0 rows); cbn [andb].
    - apply eq_bool_prop_intro. rewrite bool_decide_spec. rewrite Is_true_true, Z.ltb_lt.
      pose proof (Z.div_mod maxWordReconciliationLCSCells rows ltac:(lia)) as Hd.
      pose proof (Z.mod_pos_bound maxWordReconciliationLCSCells rows ltac:(lia)) as Hm. split; intros; nia.
    - rewrite bool_decide_eq_false_2; [done|]. unfold maxWordReconciliationLCSCells. nia. }
  rewrite Hq. clear Hq. assert (Hz : (if 0 <? rows then rows * cols else 0) = cost).
  { unfold cost. destruct (Z.ltb_spec 0 rows); [done|nia]. }
  rewrite Hz. case_bool_decide; destruct (decide _) as [[H1 H2]|Hn]; try lia; try by eexists.
  - destruct cells as [r|]; [|done]. cbn. by rewrite (proj2 (Z.ltb_ge r cost)) by lia.
  - destruct cells as [r|].
    + destruct (Z.ltb_spec r cost); [by eexists|]. destruct Hn. lia.
    + destruct Hn. lia.
Qed.

(** Affordable tables need no more than 16 bits. *)
Lemma affordable_fits mb mt cells i j : affordable (Z.of_nat (length mb) * Z.of_nat (length mt)) cells ->
  fits (lcs (drop i mb) (drop j mt)).
Proof.
  intros [Hc _]. unfold fits, maxWordReconciliationLCSCells in *.
  destruct (lcs_bound (drop i mb) (drop j mt)) as [H1 H2]. rewrite length_drop in H1, H2.
  destruct (Z.lt_ge_cases (Z.of_nat (lcs (drop i mb) (drop j mt))) (2 ^ 16)) as [|Hg]; [done|].
  assert (2 ^ 16 * 2 ^ 16 <= Z.of_nat (length mb) * Z.of_nat (length mt)) by (apply Z.mul_le_mono_nonneg; lia). lia.
Qed.

Lemma token_matching_spec base tokens cells : exists p mb mt s, split_ends base tokens p mb mt s /\
  let cost := Z.of_nat (length mb) * Z.of_nat (length mt) in
  (affordable cost cells -> exists ms,
     longestCommonTokenMatches base tokens cells = Ok (ms, (fun r => r - cost) <$> cells) /\
     matches_of base tokens ms /\
     forall l, l `sublist_of` base -> l `sublist_of` tokens -> (length l <= length ms)%nat) /\
  (~ affordable cost cells -> exists e, longestCommonTokenMatches base tokens cells = Err e).
Proof.
  unfold longestCommonTokenMatches. set (k := common_prefix base tokens).
  destruct (trim_suffix _ _ _ _ _ _) as [be te] eqn:Ht. pose proof (ends_of _ _ _ _ Ht) as (He & Hbe & Hsame & Hte).
  fold k in He, Hbe, Hte. pose proof He as [Hb Hbt _ _].
  assert (Hk : length (take k base) = k) by (rewrite length_take; lia).
  destruct (slice_parts base k be) as [_ Hlb]; [lia|]. destruct (slice_parts tokens k te) as [_ Hlt]; [lia|].
  exists (take k base), (slice base k be), (slice tokens k te), (drop be base). split; [done|].
  set (mb := slice base k be) in *. set (mt := slice tokens k te) in *.
  pose proof (spend_cells_spec (Z.of_nat (length mb)) (Z.of_nat (length mt)) cells ltac:(lia) ltac:(lia)) as Hs.
  set (cost := Z.of_nat (length mb) * Z.of_nat (length mt)) in *. cbn zeta in Hs |- *. destruct (decide (affordable cost cells)) as [Ha|Hn].
  2:{ split; [done|]. destruct Hs as [e ->]. by exists e. }
  split; [intros _|done]. rewrite Hs. cbn [mbind result_bind].
  destruct (walk_ok mb mt (fun i j => affordable_fits mb mt cells i j Ha) (length mb + length mt) 0 0) as (Hl & Hm & Hf); [lia..|].
  rewrite walk_shift. eexists. split; [reflexivity|]. rewrite <-Hk at 2.
  set (ms := walk _ _ _ _ _ _ _) in *. fold (run be te (length base - be)). change (diagonal 0 k) with (run 0 0 k).
  destruct Hm as [Hm1 Hm2 _].
  assert (Hmid : matches_of base tokens (shift (length (take k base)) <$> ms)).
  { eapply matches_shift; [exact Hb|exact Hbt|]. by split. }
  split.
  - eapply (matches_app _ _ _ _ k k).
    + apply run_matches. intros o Ho. cbn. rewrite Hb, Hbt, !lookup_app_l by lia. split; [|done]. apply lookup_lt_is_Some. lia.
    + eapply (matches_app _ _ _ _ be te); [done| | |].
      * apply run_matches. intros o Ho. split; [apply lookup_lt_is_Some; lia|].
        rewrite Hb, Hbt at 1. rewrite !(app_assoc (take k base)), !lookup_app_r by (rewrite length_app; lia).
        f_equal. rewrite !length_app. lia.
      * apply Forall_fmap. eapply Forall_impl; [exact Hf|]. intros m [[x Hx] Hxe]. cbn. rewrite Hx in Hxe. symmetry in Hxe.
        apply lookup_lt_Some in Hx, Hxe. lia.
      * eapply Forall_impl; [apply run_range|]. cbn. lia.
    + eapply Forall_impl; [apply run_range|]. cbn. lia.
    + apply Forall_app. split; [apply Forall_fmap, Forall_true; intros m; cbn; lia|].
      eapply Forall_impl; [apply run_range|]. cbn. lia.
  - intros l Hlb' Hlt'. rewrite !length_app, length_fmap, Hl. unfold run. rewrite !length_map, !length_seq.
    rewrite Hb in Hlb'. rewrite Hbt in Hlt'. pose proof (common_ends_bound _ _ _ _ _ Hlb' Hlt') as Hc.
    rewrite Hk, length_drop in Hc. rewrite !drop_0. fold mb mt in Hc. lia.
Qed.

(** ** Theorem *)

(** C36: the token matching pairs equal tokens at increasing positions of both lists, and
    no common subsequence of the two lists is longer; it refuses exactly the inputs whose
    differing middles need more comparisons than the bound or than the page has left, and
    otherwise charges the page for just these. *)
Theorem token_matches_are_longest base tokens cells : exists p mb mt s, split_ends base tokens p mb mt s /\
  let cost := Z.of_nat (length mb) * Z.of_nat (length mt) in
  (affordable cost cells -> exists ms,
     longestCommonTokenMatches base tokens cells = Ok (ms, (fun r => r - cost) <$> cells) /\
     matches_of base tokens ms /\
     forall l, l `sublist_of` base -> l `sublist_of` tokens -> (length l <= length ms)%nat) /\
  (~ affordable cost cells -> exists e, longestCommonTokenMatches base tokens cells = Err e).
Proof. apply token_matching_spec. Qed.

End TokenTheorems.
