(* ===== verification/EditedLines.v ===== *)
(** * The words of an edited line

    The operations of internal/server/annotation_reconciliation.go on one line: the boxes
    of its words, the words its new tokens get, and the comparisons that decide what an
    editor changed (module [EditedWords]); and the save of a page, line by line ([EditedLines]). *)

From Stdlib Require Import ZArith Lia Ascii String.
From stdpp Require Import base gmap strings list.
From S2P Require Import Prelude GoStrings GoSort Json MediaFragment Presentation Annotations SpatialWords Drafts DraftOps TokenTheorems.

Module EditedWords.
Import GoStr GoSort Json MediaFragment Presentation Annotations SpatialWords Drafts DraftOps TokenDiff.
#[local] Open Scope Z_scope.

Inductive edit_err :=
| EPageIdentity (e : page_err) | EAnnotationText (e : ann_err) | ETokens (e : diff_err)
| ENoID | EWordGeometry
| ELineNarrow | EAllocate | ETokenBytes | EExtent
| ENewLineUnsynchronized | EStructuralReplacement | EMembership | ETokenCount | EResultCount.

Definition edit_page {A} (r : result page_err A) : result edit_err A :=
  match r with Ok a => Ok a | Err e => Err (EPageIdentity e) end.
Definition edit_ann {A} (r : result ann_err A) : result edit_err A :=
  match r with Ok a => Ok a | Err e => Err (EAnnotationText e) end.
Definition edit_diff {A} (r : result diff_err A) : result edit_err A :=
  match r with Ok a => Ok a | Err e => Err (ETokens e) end.

(** [annStringValue(word.annotation, "id")] *)
Definition located_id (w : locatedAnnotation) : string := annStringValue (lannotation w) "id".
Definition located_text (w : locatedAnnotation) : string := extractAnnotationText (lannotation w).

(** ** Boxes *)

Definition dividedWordBox (line : rect) (index count : nat) : rect :=
  match count with
  | O => line
  | _ =>
      let width := x2 line - x1 line in
      {| x1 := x1 line + Z.quot (wrap64 (width * Z.of_nat index)) (Z.of_nat count); y1 := y1 line;
         x2 := x1 line + Z.quot (wrap64 (width * (Z.of_nat index + 1))) (Z.of_nat count); y2 := y2 line |}
  end.

(** The [scale] closure: rounded to the nearest, on 64-bit integers. *)
Definition scale_coordinate (value oldOrigin oldExtent newOrigin newExtent : Z) : Z :=
  let numerator := wrap64 ((value - oldOrigin) * newExtent) in
  let numerator := if 0 <=? numerator then wrap64 (numerator + Z.quot oldExtent 2)
                   else wrap64 (numerator - Z.quot oldExtent 2) in
  wrap64 (newOrigin + Z.quot numerator oldExtent).

Definition proportionalWordBox (baseLine proposedLine baseWord : rect) : result edit_err rect :=
  let baseWidth := x2 baseLine - x1 baseLine in
  let baseHeight := y2 baseLine - y1 baseLine in
  let newWidth := x2 proposedLine - x1 proposedLine in
  let newHeight := y2 proposedLine - y1 proposedLine in
  if (baseWidth <=? 0) || (baseHeight <=? 0) || (newWidth <=? 0) || (newHeight <=? 0) then Err EExtent else
  let left := scale_coordinate (x1 baseWord) (x1 baseLine) baseWidth (x1 proposedLine) newWidth in
  let right := scale_coordinate (x2 baseWord) (x1 baseLine) baseWidth (x1 proposedLine) newWidth in
  let top := scale_coordinate (y1 baseWord) (y1 baseLine) baseHeight (y1 proposedLine) newHeight in
  let bottom := scale_coordinate (y2 baseWord) (y1 baseLine) baseHeight (y1 proposedLine) newHeight in
  let left := Z.max (x1 proposedLine) (Z.min left (x2 proposedLine - 1)) in
  let right := Z.max (left + 1) (Z.min right (x2 proposedLine)) in
  let top := Z.max (y1 proposedLine) (Z.min top (y2 proposedLine - 1)) in
  let bottom := Z.max (top + 1) (Z.min bottom (y2 proposedLine)) in
  Ok {| x1 := left; y1 := top; x2 := right; y2 := bottom |}.

(** ** Comparisons *)

Definition sameBox (left right : rect) : bool := bool_decide (left = right).

Definition sortReconciliationWords (words : list locatedAnnotation) : list locatedAnnotation :=
  SliceStable within_line_less words.

Definition lineAndWordsSynchronized (line : obj) (words : list locatedAnnotation) : bool :=
  let tokens := Fields (extractAnnotationText line) in
  (length tokens =? length words)%nat
  && forallb (fun '(word, token) => bool_decide (TrimSpace (located_text word) = token)) (zip words tokens).

Definition wordIdentityTextSequence (words : list locatedAnnotation) : string :=
  foldr (fun word rest => located_id word ++ nul ++ located_text word ++ nul ++ rest)%string ""%string words.

Definition ids_of (words : list locatedAnnotation) : gset string := list_to_set (located_id <$> words).

Definition sameWordIDMembership (base proposed : list locatedAnnotation) : bool :=
  (length base =? length proposed)%nat && forallb (fun word => bool_decide (located_id word ∈ ids_of base)) proposed.

(** The last word with each identity. *)
Definition by_id (words : list locatedAnnotation) : gmap string locatedAnnotation :=
  foldl (fun m word => <[located_id word := word]> m) ∅ words.

Definition sameWordsIncludingGeometry (base proposed : list locatedAnnotation) : bool :=
  (length base =? length proposed)%nat
  && forallb (fun word => match by_id base !! located_id word with
                          | Some committed => bool_decide (located_text committed = located_text word)
                                              && sameBox (lbox committed) (lbox word)
                          | None => false
                          end) proposed.

Definition unionMatchesLine (words : list locatedAnnotation) (line : rect) : bool :=
  match annotationUnion words with Some r => bool_decide (r = line) | None => false end.

Definition proposedOwnedWords (base : list locatedAnnotation) (proposed : gmap string locatedAnnotation)
    : list locatedAnnotation := omap (fun word => proposed !! located_id word) base.

(** ** Words for tokens *)

Section words.
Context `{!Schema, !UrlParser, !UrlPrinter, !Sha256, !SvgMapper}.

Definition retargetExistingWord (word : obj) (canvasURI : string) (r : rect) : result edit_err obj :=
  let same := match parseXYWH (extractFragment word) with
              | Ok current => sameBox current r && bool_decide (extractCanvasURI word = TrimSpace canvasURI)
              | Err _ => false
              end in
  if same then Ok word else
  target ← edit_ann (targetWithFragment (jget word "target") canvasURI r);
  Ok (clearMutableTargetResourceIDs (jset word "target" (JObject target))).

Definition updatedRetainedWord (template : obj) (id canvasURI : string) (r : rect) (text : string) : result edit_err obj :=
  word ← edit_ann (cloneAnnotation template);
  let word := jset word "id" (JString id) in
  let word := jset word "type" (JString "Annotation") in
  let word := jset word "textGranularity" (JString "word") in
  let word := set_default word "motivation" (JString "supplementing") in
  let word := if bool_decide (extractAnnotationText word = TrimSpace text) then word
              else update (jset word "body" (textBodyWithValue (jget word "body") (TrimSpace text))) "body" clearFirstTextualBodyIdentity in
  retargetExistingWord word canvasURI r.

(** [for nonce := 0; nonce <= MaxAnnotationsPerPage; nonce++] *)
Fixpoint available_id (fuel : nat) (pageID seed : string) (nonce : Z) (used : gset string) : result edit_err string :=
  match fuel with
  | O => Err EAllocate
  | S n =>
      id ← edit_page (AnnotationID pageID (seed ++ itoa nonce)%string);
      if bool_decide (id ∈ used) then available_id n pageID seed (nonce + 1) used else Ok id
  end.

Definition availableReconciledWordID (pageID lineID : string) (expectedRevision tokenIndex : Z) (token : string)
    (used : gset string) : result edit_err string :=
  available_id (S (Z.to_nat MaxAnnotationsPerPage)) pageID
    (lineID ++ nul ++ "word-edit" ++ nul ++ itoa expectedRevision ++ nul ++ itoa tokenIndex ++ nul ++ token ++ nul)%string
    0 used.

(** The base word a token is matched with. *)
Definition match_by_token (matches : list tokenMatch) : gmap nat nat :=
  foldl (fun m x => <[tokenIndex x := baseIndex x]> m) ∅ matches.

Section line.
Context (pageID canvasURI : string) (expectedRevision : Z) (line : locatedAnnotation) (baseWords : list locatedAnnotation)
        (proposedWords : gmap string locatedAnnotation) (count : nat) (matchByToken : gmap nat nat).

(** The loop over the tokens: the words, the identities given up and those in use. *)
Fixpoint words_for_tokens (index : nat) (tokens : list string) (removed used : gset string)
    : result edit_err (list json * gset string * gset string) :=
  match tokens with
  | [] => Ok ([], removed, used)
  | token :: tokens' =>
      let r := dividedWordBox (lbox line) index count in
      match b ← matchByToken !! index; baseWords !! b with
      | Some baseWord =>
          let wordID := located_id baseWord in
          let template := match proposedWords !! wordID with Some proposed => lannotation proposed | None => lannotation baseWord end in
          word ← updatedRetainedWord template wordID canvasURI r token;
          '(rest, removed, used) ← words_for_tokens (S index) tokens' (removed ∖ {[wordID]}) used;
          Ok (JObject word :: rest, removed, used)
      | None =>
          wordID ← availableReconciledWordID pageID (located_id line) expectedRevision (Z.of_nat index) token used;
          word ← edit_ann (deriveTextAnnotation (lannotation line) wordID "word" canvasURI r token);
          '(rest, removed, used) ← words_for_tokens (S index) tokens' removed ({[wordID]} ∪ used);
          Ok (JObject word :: rest, removed, used)
      end
  end.
End line.

Record line_tokens := { lt_words : list json; lt_removed : gset string; lt_used : gset string; lt_cells : option Z }.

Definition reconcileLineTokens (pageID canvasURI : string) (expectedRevision : Z) (line : locatedAnnotation)
    (baseWords : list locatedAnnotation) (proposedWords : gmap string locatedAnnotation) (tokens : list string)
    (usedIDs : gset string) (lcsCellsRemaining : option Z) : result edit_err line_tokens :=
  if (0 <? length tokens)%nat && (x2 (lbox line) - x1 (lbox line) <? Z.of_nat (length tokens)) then Err ELineNarrow else
  let baseTokens := map (fun word => TrimSpace (located_text word)) baseWords in
  '(matches, cells) ← edit_diff (longestCommonTokenMatches baseTokens tokens lcsCellsRemaining);
  '(words, removed, used) ← words_for_tokens pageID canvasURI expectedRevision line baseWords proposedWords (length tokens)
      (match_by_token matches) 0 tokens (ids_of baseWords) usedIDs;
  Ok {| lt_words := words; lt_removed := removed; lt_used := used; lt_cells := cells |}.
End words.

(** ** The size of an edit *)

Definition encoded_length (a : obj) : Z := len (Marshal (JObject a)).

Fixpoint token_bytes (estimated template : Z) (tokens : list string) : result edit_err Z :=
  match tokens with
  | [] => Ok estimated
  | token :: tokens' =>
      let cost := template + 6 * len token + 256 in
      if MaxAnnotationPageBytes - estimated <? cost then Err ETokenBytes else token_bytes (estimated + cost) template tokens'
  end.

Definition estimateReconciledTokenBytes (current : Z) (line : obj) (replaced : list locatedAnnotation) (tokens : list string)
    : result edit_err Z :=
  let replacedBytes := foldr (fun word n => encoded_length (lannotation word) + 1 + n) 0 replaced in
  let maxTemplateBytes := foldr (fun word n => Z.max (encoded_length (lannotation word)) n) (encoded_length line) replaced in
  token_bytes (Z.max 0 (current - replacedBytes)) maxTemplateBytes tokens.

End EditedWords.

(** * Lines and words of an interactive save

    [reconcileEditedLineWords] of internal/server/annotation_reconciliation.go. The
    proposed items are updated in place: the state of the loop over the lines holds them,
    and an annotation is read from there whenever the code follows its pointer. The order
    in which Go ranges over a set of identities is an argument. *)

Module EditedLines.
Import GoStr GoSort Json MediaFragment Presentation Annotations SpatialWords Drafts DraftOps TokenDiff EditedWords.
#[local] Open Scope Z_scope.

(** ** The annotations of one granularity *)

Fixpoint index_annotations (position : nat) (items : list json) (granularity : string)
    (found : gmap string locatedAnnotation) : result edit_err (gmap string locatedAnnotation) :=
  match items with
  | [] => Ok found
  | v :: items' =>
      match granular v granularity with
      | Some a =>
          let id := trimmed_id v in
          if bool_decide (id = ""%string) then Err ENoID else
          match parseXYWH (extractFragment a) with
          | Err _ => Err EWordGeometry
          | Ok r => index_annotations (S position) items' granularity
                      (<[id := {| lannotation := a; lindex := position; lbox := r |}]> found)
          end
      | None => index_annotations (S position) items' granularity found
      end
  end.

Definition reconciliationAnnotations (items : list json) (granularity : string)
    : result edit_err (gmap string locatedAnnotation) := index_annotations 0 items granularity ∅.

(** ** Committed lines first *)

Definition is_line (v : json) : bool := match granular v "line" with Some _ => true | None => false end.

Definition is_committed (baseLines : gmap string locatedAnnotation) (v : json) : bool :=
  match v with JObject a => bool_decide (is_Some (baseLines !! annStringValue a "id")) | _ => false end.

(** The lines' slots, filled from [ordered] one after the other. *)
Fixpoint fill_slots (items ordered : list json) : list json :=
  match items with
  | [] => []
  | v :: items' =>
      if is_line v then
        match ordered with
        | [] => v :: fill_slots items' []
        | o :: ordered' => o :: fill_slots items' ordered'
        end
      else v :: fill_slots items' ordered
  end.

Definition preserveCommittedLineOwnershipOrder (items : list json) (baseLines : gmap string locatedAnnotation) : list json :=
  let lines := filter (fun v => is_line v = true) items in
  let existing := filter (fun v => is_committed baseLines v = true) lines in
  let created := filter (fun v => is_committed baseLines v = false) lines in
  if (length existing =? 0)%nat || (length created =? 0)%nat then items
  else fill_slots items (existing ++ created).

(** ** The save *)

(** The order of each loop over a map: the loops are numbered as they come. *)
Class RangeIDs := range_ids : nat -> gset string -> list string.

(** What the save knows before it looks at the lines one by one. *)
Record save := {
  sv_pageID : string;
  sv_identity : PageIdentity;
  sv_revision : Z;
  sv_count : nat;
  baseLines : gmap string locatedAnnotation;
  baseWords : gmap string locatedAnnotation;
  proposedLines : gmap string locatedAnnotation;
  proposedWords : gmap string locatedAnnotation;
  baseWordsByLine : gmap string (list locatedAnnotation);
}.

Section save.
Context `{!Schema, !UrlParser, !UrlPrinter, !Sha256, !SvgMapper, !MapRange, !RangeIDs}.

Section decisions.
Context (s : save).

Definition base_words (lineID : string) : list locatedAnnotation := default [] (baseWordsByLine s !! lineID).
Definition existingLineIDs : gset string := dom (proposedLines s) ∩ dom (baseLines s).
Definition newLineIDs : gset string := dom (proposedLines s) ∖ dom (baseLines s).
Definition removedLineIDs : gset string := dom (baseLines s) ∖ dom (proposedLines s).

(** The line each committed word belongs to. *)
Definition baseWordOwner : gmap string string :=
  foldl (fun m lineID => foldl (fun m word => <[located_id word := lineID]> m) m (base_words lineID))
    ∅ (range_ids 1 (dom (baseWordsByLine s))).

(** New lines: their words, whether these say the line's text, and what they claim. *)
Record newLines := {
  synchronized : gset string;
  newLineForWord : gmap string string;
  claimed : gset string;
}.

Definition new_words (assigned : assignment) (lineID : string) : list locatedAnnotation :=
  locatedWords (default [] (assigned !! lineID)).

Definition is_new_word (word : locatedAnnotation) : bool := negb (bool_decide (is_Some (baseWords s !! located_id word))).

Fixpoint scan_new_lines (assigned : assignment) (lineIDs : list string) (st : newLines) : result edit_err newLines :=
  match lineIDs with
  | [] => Ok st
  | lineID :: lineIDs' =>
      let words := new_words assigned lineID in
      let synced := match proposedLines s !! lineID with
                    | Some line => lineAndWordsSynchronized (lannotation line) words
                    | None => (length words =? 0)%nat
                    end in
      if existsb is_new_word words && negb synced then Err ENewLineUnsynchronized else
      scan_new_lines assigned lineIDs'
        {| synchronized := if synced then {[lineID]} ∪ synchronized st else synchronized st;
           newLineForWord := foldl (fun m word => <[located_id word := lineID]> m) (newLineForWord st) words;
           claimed := if synced then list_to_set (located_id <$> filter (fun w => is_new_word w = true) words) ∪ claimed st
                      else claimed st |}
  end.

(** Every word of a removed line is proposed under a synchronized new line. *)
Definition basic_replacement (nl : newLines) (lineID : string) : bool :=
  negb (length (base_words lineID) =? 0)%nat &&
  forallb (fun word =>
    bool_decide (is_Some (proposedWords s !! located_id word)) &&
    match newLineForWord nl !! located_id word with
    | Some newOwner => bool_decide (newOwner ∈ synchronized nl)
    | None => false
    end) (base_words lineID).

(** A synchronized new line whose committed words all come from replaced lines. *)
Definition allowed_replacement (nl : newLines) (assigned : assignment) (lineID : string) : bool :=
  bool_decide (lineID ∈ newLineIDs) && bool_decide (lineID ∈ synchronized nl) &&
  forallb (fun word =>
    match baseWordOwner !! located_id word with
    | None => true
    | Some owner => bool_decide (owner ∈ removedLineIDs) && basic_replacement nl owner
    end) (new_words assigned lineID).

Definition protected_removed (nl : newLines) (assigned : assignment) (lineID : string) : bool :=
  basic_replacement nl lineID &&
  forallb (fun word => allowed_replacement nl assigned (default ""%string (newLineForWord nl !! located_id word)))
    (base_words lineID).

(** The words that go away with the removed lines. *)
Fixpoint removed_words (nl : newLines) (assigned : assignment) (lineIDs : list string) : result edit_err (gset string) :=
  match lineIDs with
  | [] => Ok ∅
  | lineID :: lineIDs' =>
      if protected_removed nl assigned lineID then removed_words nl assigned lineIDs' else
      if existsb (fun word => bool_decide (is_Some (newLineForWord nl !! located_id word))) (base_words lineID)
      then Err EStructuralReplacement else
      rest ← removed_words nl assigned lineIDs'; Ok (ids_of (base_words lineID) ∪ rest)
  end.

(** New words of a committed line by the identity a split would have given them. *)
Fixpoint deterministic_words (nl : newLines) (lineID : string) (index n : nat)
    : result edit_err (list (string * locatedAnnotation)) :=
  match n with
  | O => Ok []
  | S n =>
      wordID ← edit_page (AnnotationID (sv_pageID s) (lineID ++ nul ++ "word" ++ nul ++ itoa (Z.of_nat (S index)))%string);
      rest ← deterministic_words nl lineID (S index) n;
      Ok (match proposedWords s !! wordID with
          | Some word => if bool_decide (is_Some (baseWords s !! wordID)) || bool_decide (wordID ∈ claimed nl) then rest
                         else (wordID, word) :: rest
          | None => rest
          end)
  end.

Fixpoint deterministic_lines (nl : newLines) (lineIDs : list string)
    : result edit_err (gmap string (list (string * locatedAnnotation))) :=
  match lineIDs with
  | [] => Ok ∅
  | lineID :: lineIDs' =>
      words ← match proposedLines s !! lineID with
              | Some line => deterministic_words nl lineID 0 (length (Fields (located_text line)))
              | None => Ok []
              end;
      rest ← deterministic_lines nl lineIDs'; Ok (<[lineID := words]> rest)
  end.

Definition deterministic_ids (byIdentity : gmap string (list (string * locatedAnnotation))) : gset string :=
  list_to_set (map_to_list byIdentity ≫= (fun kv => kv.2.*1)).

(** Those, and then the new words whose center is in the line. *)
Definition new_words_of_line (nl : newLines) (byIdentity : gmap string (list (string * locatedAnnotation)))
    (assigned : assignment) (lineID : string) : list locatedAnnotation :=
  ((default [] (byIdentity !! lineID)).*2) ++
  filter (fun w => is_new_word w = true /\ (located_id w ∉ claimed nl) /\ (located_id w ∉ deterministic_ids byIdentity))
    (new_words assigned lineID).
End decisions.

(** ** The loop over the committed lines *)

Record loop := {
  lp_items : list json;
  lp_used : gset string;
  lp_cells : option Z;
  lp_bytes : Z;
  lp_remove : gset string;
  lp_generated : gmap string (list json);
}.

Definition loop_items (st : loop) (l : list json) : loop :=
  {| lp_items := l; lp_used := lp_used st; lp_cells := lp_cells st; lp_bytes := lp_bytes st;
     lp_remove := lp_remove st; lp_generated := lp_generated st |}.

(** The annotation a located one points to, as it is now. *)
Definition current (items : list json) (w : locatedAnnotation) : locatedAnnotation :=
  match items !! lindex w with
  | Some (JObject a) => {| lannotation := a; lindex := lindex w; lbox := lbox w |}
  | _ => w
  end.

(** An in-place update of the annotation a located one points to. *)
Definition update_at (items : list json) (w : locatedAnnotation) (f : obj -> obj) : list json :=
  <[lindex w := JObject (f (lannotation (current items w)))]> items.

Definition zero_located : locatedAnnotation := {| lannotation := []; lindex := 0; lbox := {| x1 := 0; y1 := 0; x2 := 0; y2 := 0 |} |}.

(** The words follow the box of their line. *)
Fixpoint resize_words (s : save) (baseLine proposedLine : rect) (words : list locatedAnnotation) (items : list json)
    : result edit_err (list json) :=
  match words with
  | [] => Ok items
  | word :: words' =>
      let baseWord := default zero_located (baseWords s !! located_id word) in
      r ← proportionalWordBox baseLine proposedLine (lbox baseWord);
      a ← retargetExistingWord (lannotation (current items word)) (CanvasURI (sv_identity s)) r;
      resize_words s baseLine proposedLine words' (update_at items word (fun _ => a))
  end.

(** The words generated for a line whose text was edited. *)
Definition edit_tokens (s : save) (lineID : string) (line : locatedAnnotation) (ownedBaseWords ownedProposedWords : list locatedAnnotation)
    (st : loop) : result edit_err loop :=
  let tokens := Fields (located_text line) in
  if MaxAnnotationsPerPage <? Z.of_nat (sv_count s) - Z.of_nat (length ownedBaseWords) + Z.of_nat (length tokens)
  then Err ETokenCount else
  bytes ← estimateReconciledTokenBytes (lp_bytes st) (lannotation line) ownedProposedWords tokens;
  done ← reconcileLineTokens (sv_pageID s) (CanvasURI (sv_identity s)) (sv_revision s) line ownedBaseWords
           (current (lp_items st) <$> proposedWords s) tokens (lp_used st) (lp_cells st);
  Ok {| lp_items := update_at (lp_items st) line (fun a => setAnnotationText a (Join tokens " "));
        lp_used := lt_used done; lp_cells := lt_cells done; lp_bytes := bytes;
        lp_remove := ids_of ownedBaseWords ∪ lt_removed done ∪ lp_remove st;
        lp_generated := <[lineID := lt_words done]> (lp_generated st) |}.

(** One turn: [added] are the new words of the line. *)
Definition reconcile_line (s : save) (lineID : string) (baseLine proposedLine : locatedAnnotation)
    (added : list locatedAnnotation) (st : loop) : result edit_err loop :=
  let ownedBaseWords := base_words s lineID in
  let ownedProposedWords := sortReconciliationWords (proposedOwnedWords ownedBaseWords (proposedWords s) ++ added) in
  let ownedProposedWords := current (lp_items st) <$> ownedProposedWords in
  let line := current (lp_items st) proposedLine in
  let baseText := located_text baseLine in
  let proposedText := located_text line in
  let moved := negb (sameBox (lbox baseLine) (lbox line)) in
  let st := if moved then loop_items st (update_at (lp_items st) line clearMutableTargetResourceIDs) else st in
  let line := current (lp_items st) line in
  if negb (bool_decide (baseText = proposedText)) && (0 <? length ownedBaseWords)%nat then
    if negb (sameWordIDMembership ownedBaseWords ownedProposedWords) then
      if negb (lineAndWordsSynchronized (lannotation line) ownedProposedWords) then Err EMembership else Ok st
    else edit_tokens s lineID line ownedBaseWords ownedProposedWords st
  else if negb (bool_decide (wordIdentityTextSequence ownedBaseWords = wordIdentityTextSequence ownedProposedWords)) then
    Ok (loop_items st (update_at (lp_items st) line (fun a => setAnnotationText a (normalizedAnnotationTexts ownedProposedWords))))
  else if negb moved || (length ownedBaseWords =? 0)%nat then Ok st
  else if negb (sameWordsIncludingGeometry ownedBaseWords ownedProposedWords) then Ok st
  else if unionMatchesLine ownedProposedWords (lbox line) then Ok st
  else l ← resize_words s (lbox baseLine) (lbox line) ownedProposedWords (lp_items st); Ok (loop_items st l).

Fixpoint reconcile_lines (s : save) (nl : newLines) (byIdentity : gmap string (list (string * locatedAnnotation)))
    (assigned : assignment) (lineIDs : list string) (st : loop) : result edit_err loop :=
  match lineIDs with
  | [] => Ok st
  | lineID :: lineIDs' =>
      match baseLines s !! lineID, proposedLines s !! lineID with
      | Some baseLine, Some proposedLine =>
          st ← reconcile_line s lineID baseLine proposedLine (new_words_of_line s nl byIdentity assigned lineID) st;
          reconcile_lines s nl byIdentity assigned lineIDs' st
      | _, _ => reconcile_lines s nl byIdentity assigned lineIDs' st
      end
  end.

(** The items that stay, each line followed by the words generated for it. *)
Definition with_generated (st : loop) (v : json) : list json :=
  let id := trimmed_id v in
  if bool_decide (id ∈ lp_remove st) && bool_decide (is_Some (granular v "word")) then []
  else v :: (if is_line v then default [] (lp_generated st !! id) else []).

Definition index_save (baseItems proposedItems : list json) (identity : PageIdentity) (expectedRevision : Z)
    : result edit_err save :=
  pageID ← edit_page (AnnotationPageID (PublicBaseURL identity) (ItemImageID identity));
  bl ← reconciliationAnnotations baseItems "line";
  bw ← reconciliationAnnotations baseItems "word";
  pl ← reconciliationAnnotations proposedItems "line";
  pw ← reconciliationAnnotations proposedItems "word";
  Ok {| sv_pageID := pageID; sv_identity := identity; sv_revision := expectedRevision; sv_count := length proposedItems;
        baseLines := bl; baseWords := bw; proposedLines := pl; proposedWords := pw;
        baseWordsByLine := locatedWords <$> assigned_words baseItems |}.

Definition assigned_to (items : list json) (ids : gset string) : assignment :=
  assignSpatialWordsToLines (range_canvases items) items (Some ids).

Definition reconcileEditedLineWords (baseItems proposedItems : list json) (identity : PageIdentity) (expectedRevision : Z)
    : result edit_err (list json) :=
  s ← index_save baseItems proposedItems identity expectedRevision;
  let assignedNew := assigned_to proposedItems (newLineIDs s) in
  nl ← scan_new_lines s assignedNew (range_ids 2 (newLineIDs s))
         {| synchronized := ∅; newLineForWord := ∅; claimed := ∅ |};
  remove ← removed_words s nl assignedNew (range_ids 3 (removedLineIDs s));
  byIdentity ← deterministic_lines s nl (range_ids 4 (existingLineIDs s));
  st ← reconcile_lines s nl byIdentity (assigned_to proposedItems (existingLineIDs s)) (range_ids 5 (existingLineIDs s))
         {| lp_items := proposedItems;
            lp_used := list_to_set (filter (fun id => id <> ""%string) (map trimmed_id proposedItems));
            lp_cells := Some maxWordReconciliationLCSCells;
            lp_bytes := len (Marshal (JArray proposedItems)) + 256;
            lp_remove := remove; lp_generated := ∅ |};
  let items := lp_items st ≫= with_generated st in
  if MaxAnnotationsPerPage <? Z.of_nat (length items) then Err EResultCount else
  Ok (preserveCommittedLineOwnershipOrder items (baseLines s)).
End save.

End EditedLines.
