(* ===== verification/EditedTheorems.v ===== *)
(** * Lemmas on the words of an edited line

    The boxes of an edited line's words and the annotations its tokens get.

    Modules [EditedFacts]: lemmas on the words of an edited line;
    [EditedTheorems]: theorems on interactive saves. *)

From Stdlib Require Import ZArith Lia Ascii String.
From stdpp Require Import base gmap sets strings list sorting.
From S2P Require Import Prelude GoStrings GoSort Json JsonParse MediaFragment TargetGeometry Presentation PageNormal LineIndex TextFields Annotations DerivedFacts SpatialWords SpatialSweep SpatialOwners Drafts DraftOps DraftFacts SplitOwners DraftTheorems TokenTheorems EditedLines.

Module EditedFacts.
Import GoStr GoSort TextFields Json JsonParse MediaFragment TargetGeometry Presentation PageIdentity Annotations DerivedFacts SpatialWords Drafts DraftOps DraftFacts TokenDiff TokenLcs TokenTheorems EditedWords.
#[local] Open Scope Z_scope.

(** ** Boxes *)

Lemma divided_ok line n i : rect_ok line -> Z.of_nat n <= x2 line - x1 line -> (i < n)%nat ->
  let b := dividedWordBox line i n in
  rect_ok b /\ x1 line <= x1 b /\ x2 b <= x2 line /\ y1 b = y1 line /\ y2 b = y2 line /\
  x1 b = x1 line + (x2 line - x1 line) * Z.of_nat i / Z.of_nat n /\
  x2 b = x1 line + (x2 line - x1 line) * (Z.of_nat i + 1) / Z.of_nat n.
Proof.
  intros Hr Hn Hi b. unfold rect_ok, MaxPixelCoordinate in *. subst b. unfold dividedWordBox. destruct n as [|n']; [lia|].
  set (n := S n') in *. set (w := x2 line - x1 line) in *. cbn [x1 x2 y1 y2].
  assert (Hw : 0 < w <= 2 ^ 31) by lia.
  rewrite !wrap64_id by nia. rewrite !Z.quot_div_nonneg by nia.
  assert (Hlo : 0 <= w * Z.of_nat i / Z.of_nat n) by (apply Z.div_pos; nia).
  assert (Hhi : w * (Z.of_nat i + 1) / Z.of_nat n <= w) by (apply Z.div_le_upper_bound; nia).
  assert (Hstep : w * Z.of_nat i / Z.of_nat n + 1 <= w * (Z.of_nat i + 1) / Z.of_nat n).
  { apply Z.div_le_lower_bound; [lia|]. pose proof (Z.mul_div_le (w * Z.of_nat i) (Z.of_nat n) ltac:(lia)). nia. }
  unfold w in *. split_and!; try done; lia.
Qed.

Lemma divided_tile line n : rect_ok line -> (0 < n)%nat -> Z.of_nat n <= x2 line - x1 line ->
  tiles line (x1 line) ((fun i => dividedWordBox line i n) <$> seq 0 n).
Proof.
  intros Hr Hn Hw. assert (H : forall k i left, (i + k = n)%nat ->
    left = x1 line + (x2 line - x1 line) * Z.of_nat i / Z.of_nat n ->
    tiles line left ((fun i => dividedWordBox line i n) <$> seq i k)).
  { induction k as [|k IH]; intros i left Hi ->; cbn [seq fmap list_fmap tiles].
    - assert (i = n) as -> by lia. rewrite Z.div_mul; lia.
    - destruct (divided_ok line n i Hr Hw ltac:(lia)) as ((_ & _ & Hx & _) & _ & _ & Hy1 & Hy2 & H1 & H2).
      split_and!; [done..|]. apply IH; [lia|]. rewrite H2. do 3 f_equal. lia. }
  apply H; [done|]. rewrite Z.mul_0_r, Z.div_0_l; lia.
Qed.

Lemma scale_bounds v o e o' e' : 0 <= o < 2 ^ 31 -> 0 < e < 2 ^ 31 -> 0 <= o' < 2 ^ 31 -> 0 < e' < 2 ^ 31 -> 0 <= v < 2 ^ 31 ->
  let n := (v - o) * e' in
  scale_coordinate v o e o' e' = o' + Z.quot (if 0 <=? n then n + e / 2 else n - e / 2) e.
Proof.
  intros Ho He Ho' He' Hv n. unfold scale_coordinate. fold n.
  assert (Hn : - 2 ^ 62 < n < 2 ^ 62) by (unfold n; nia).
  rewrite (wrap64_id n) by lia. rewrite (Z.quot_div_nonneg e 2) by lia.
  assert (He2 : 0 <= e / 2 < 2 ^ 30) by (split; [apply Z.div_pos; lia|apply Z.div_lt_upper_bound; lia]).
  set (m := if 0 <=? n then n + e / 2 else n - e / 2).
  assert (Hm : (if 0 <=? n then wrap64 (n + e / 2) else wrap64 (n - e / 2)) = m).
  { unfold m. destruct (0 <=? n); apply wrap64_id; lia. }
  rewrite Hm. assert (Hmb : - 2 ^ 62 - 2 ^ 30 < m < 2 ^ 62 + 2 ^ 30) by (unfold m; destruct (0 <=? n); lia).
  assert (Hq : Z.abs (Z.quot m e) <= Z.abs m).
  { rewrite <-Z.quot_abs by lia. rewrite Z.quot_div_nonneg by lia. apply Z.div_le_upper_bound; nia. }
  apply wrap64_id. lia.
Qed.

(** A resized word lies in the line's new box and has an extent; on an unchanged line a
    word inside it stays where it is. *)
Lemma proportional_ok baseLine proposedLine baseWord : rect_ok baseLine -> rect_ok proposedLine ->
  exists r, proportionalWordBox baseLine proposedLine baseWord = Ok r /\ rect_ok r /\
    x1 proposedLine <= x1 r /\ x2 r <= x2 proposedLine /\ y1 proposedLine <= y1 r /\ y2 r <= y2 proposedLine.
Proof.
  unfold rect_ok. intros Hb Hp. unfold proportionalWordBox.
  rewrite !(proj2 (Z.leb_gt _ _)) by lia. cbn [orb]. eexists. split; [reflexivity|]. cbn [x1 x2 y1 y2].
  generalize (scale_coordinate (x1 baseWord) (x1 baseLine) (x2 baseLine - x1 baseLine) (x1 proposedLine) (x2 proposedLine - x1 proposedLine)).
  generalize (scale_coordinate (x2 baseWord) (x1 baseLine) (x2 baseLine - x1 baseLine) (x1 proposedLine) (x2 proposedLine - x1 proposedLine)).
  generalize (scale_coordinate (y1 baseWord) (y1 baseLine) (y2 baseLine - y1 baseLine) (y1 proposedLine) (y2 proposedLine - y1 proposedLine)).
  generalize (scale_coordinate (y2 baseWord) (y1 baseLine) (y2 baseLine - y1 baseLine) (y1 proposedLine) (y2 proposedLine - y1 proposedLine)).
  intros a b c d. split_and!; lia.
Qed.

Lemma proportional_same line word : rect_ok line -> rect_ok word ->
  x1 line <= x1 word -> x2 word <= x2 line -> y1 line <= y1 word -> y2 word <= y2 line ->
  proportionalWordBox line line word = Ok word.
Proof.
  unfold rect_ok, MaxPixelCoordinate. intros Hl Hw H1 H2 H3 H4. unfold proportionalWordBox.
  rewrite !(proj2 (Z.leb_gt _ _)) by lia. cbn [orb].
  assert (Hs : forall v o e, 0 <= o < 2 ^ 31 -> 0 < e < 2 ^ 31 -> o <= v < 2 ^ 31 -> scale_coordinate v o e o e = v).
  { intros v o e Ho He Hv. rewrite scale_bounds by lia. rewrite (proj2 (Z.leb_le _ _)) by nia.
    assert (He2 : 0 <= e / 2 < e) by (split; [apply Z.div_pos; lia|apply Z.div_lt; lia]).
    rewrite Z.quot_div_nonneg by nia. rewrite (Z.add_comm ((v - o) * e)), Z.div_add by lia. rewrite Z.div_small; lia. }
  rewrite !Hs by lia. destruct word as [a b c d]. cbn in *. do 2 f_equal; lia.
Qed.

(** ** One word *)

Section words.
Context `{SC : !Schema, UP : !UrlParser, UPr : !UrlPrinter, SH : !Sha256, SV : !SvgMapper}.

(** A template whose text and target the code can replace and read back. *)
Record readable (a : obj) : Prop := {
  rd_well_formed : well_formed (JObject a);
  rd_target : plain_target (default JNull (jget a "target"));
  rd_body : quiet_body (jget a "body");
}.

(** A word annotation as the editor reads it. *)
Record reads_as (g : obj) (id token : string) (r : rect) : Prop := {
  ra_id : annStringValue g "id" = id;
  ra_word : granularity_of g = "word"%string;
  ra_text : extractAnnotationText g = token;
  ra_box : parseXYWH (extractFragment g) = Ok r;
}.

Lemma retarget_spec word canvasURI r a : plain_target (default JNull (jget word "target")) ->
  all_chars visible canvasURI = true -> rect_ok r -> retargetExistingWord word canvasURI r = Ok a ->
  parseXYWH (extractFragment a) = Ok r /\ forall k, k <> "target"%string -> jget a k = jget word k.
Proof.
  intros Hp Hc Hr. unfold retargetExistingWord. destruct (match parseXYWH _ with Ok _ => _ | Err _ => _ end) eqn:Es.
  - intros [= <-]. split; [|done]. destruct (parseXYWH (extractFragment word)) as [cur|]; [|done].
    apply andb_true_iff in Es as [Es _]. unfold sameBox in Es. apply bool_decide_eq_true in Es. by subst.
  - intros (t & Ht & [= <-])%result_bind_Ok. unfold edit_ann in Ht. destruct (targetWithFragment _ _ _) as [t'|] eqn:Et; [|done].
    injection Ht as ->. destruct (targetWithFragment_spec _ _ _ _ Hp Hc Hr Et) as (_ & Hsource & v & Hread & Hbox).
    destruct (clear_target_reads t Hsource) as [_ Hfr]. unfold clearMutableTargetResourceIDs. split.
    + unfold extractFragment. rewrite jget_update_eq, jget_jset_eq. cbn [fmap option_fmap option_map default from_option id].
      by rewrite Hfr, Hread.
    + intros k Hk. by rewrite jget_update_ne, jget_jset_ne.
Qed.

Lemma retained_spec template id canvasURI r token a : readable template -> all_chars visible canvasURI = true -> rect_ok r ->
  a_word token -> updatedRetainedWord template id canvasURI r token = Ok a -> reads_as a id token r.
Proof.
  intros [Hw Hp Hq] Hc Hr [Hsp Hne]. pose proof (spaceless_TrimSpace _ Hsp) as Htrim. unfold updatedRetainedWord.
  intros (c & Hclone & Hre)%result_bind_Ok. unfold edit_ann in Hclone. destruct (cloneAnnotation _) as [c'|] eqn:Ec; [|done].
  injection Hclone as ->. apply clone_id in Ec as ->; [|done]. set (w := set_default _ "motivation" _) in Hre. cbn zeta in Hre.
  assert (Hkey : forall k, k <> "id"%string -> k <> "type"%string -> k <> "textGranularity"%string -> k <> "motivation"%string ->
    jget w k = jget template k) by (intros; unfold w; by rewrite jget_set_default_ne, !jget_jset_ne).
  set (w' := if bool_decide _ then _ else _) in Hre.
  assert (Hw' : forall k, k <> "body"%string -> jget w' k = jget w k).
  { intros k Hk. unfold w'. case_bool_decide; [done|]. by rewrite jget_update_ne, jget_jset_ne. }
  assert (Htext : extractAnnotationText w' = token).
  { unfold w'. case_bool_decide as E; [by rewrite E|]. set (body := textBodyWithValue _ _).
    rewrite (clear_body_text body) by (by rewrite jget_jset_eq). unfold body. rewrite textBody_reads; rewrite ?TrimSpace_idem, ?Htrim; try done.
    by rewrite Hkey. }
  destruct (retarget_spec w' canvasURI r a) as [Hbox Hother]; [|done..|].
  { by rewrite Hw', Hkey. }
  split; [| | |done].
  - unfold annStringValue. rewrite Hother, Hw' by done. unfold w. rewrite jget_set_default_ne, !jget_jset_ne by done. by rewrite jget_jset_eq.
  - unfold granularity_of, annStringValue. rewrite Hother, Hw' by done. unfold w. by rewrite jget_set_default_ne, jget_jset_eq.
  - rewrite <-Htext. apply extract_text_eq. by rewrite Hother.
Qed.

Lemma new_word_spec template id canvasURI r token a : readable template -> all_chars visible canvasURI = true -> rect_ok r ->
  a_word token -> deriveTextAnnotation template id "word" canvasURI r token = Ok a -> reads_as a id token r.
Proof.
  intros [Hw Hp Hq] Hc Hr [Hsp Hne] Hd. pose proof (spaceless_TrimSpace _ Hsp) as Htrim.
  apply derive_spec in Hd; [|done..]. split.
  - unfold annStringValue. by rewrite (dv_id _ _ _ _ _ _ _ Hd).
  - unfold granularity_of, annStringValue. by rewrite (dv_granularity _ _ _ _ _ _ _ Hd).
  - rewrite (dv_text _ _ _ _ _ _ _ Hd); by rewrite ?Htrim.
  - apply Hd.
Qed.

Lemma available_id_new fuel pageID seed nonce used id : available_id fuel pageID seed nonce used = Ok id -> id ∉ used.
Proof.
  revert nonce. induction fuel as [|n IH]; intros nonce; [done|]. cbn. intros (i & _ & Hid)%result_bind_Ok.
  case_bool_decide; [by apply IH in Hid|]. by injection Hid as <-.
Qed.

(** ** The words of the tokens *)

Section line.
Context (pageID canvasURI : string) (rev : Z) (line : locatedAnnotation) (baseWords : list locatedAnnotation)
        (proposedWords : gmap string locatedAnnotation) (count : nat) (matched : gmap nat nat).
Context (Hcanvas : all_chars visible canvasURI = true) (Hline : readable (lannotation line)) (Hrect : rect_ok (lbox line))
        (Hwide : Z.of_nat count <= x2 (lbox line) - x1 (lbox line))
        (Hbase : Forall (fun w => readable (lannotation w)) baseWords)
        (Hproposed : forall id w, proposedWords !! id = Some w -> readable (lannotation w)).

Definition base_of (i : nat) : option locatedAnnotation := b ← matched !! i; baseWords !! b.

(** What the loop makes of the tokens from position [i] on. *)
Record words_ok (i : nat) (tokens : list string) (used : gset string) (gs : list obj) : Prop := {
  wo_length : length gs = length tokens;
  wo_reads : forall k g token, gs !! k = Some g -> tokens !! k = Some token ->
    reads_as g (annStringValue g "id") token (dividedWordBox (lbox line) (i + k) count);
  wo_kept : forall k g w, gs !! k = Some g -> base_of (i + k) = Some w -> annStringValue g "id" = located_id w;
  wo_fresh : forall k g, gs !! k = Some g -> base_of (i + k) = None -> annStringValue g "id" ∉ used;
  wo_apart : forall k k' g g', gs !! k = Some g -> gs !! k' = Some g' -> (k < k')%nat ->
    base_of (i + k) = None -> base_of (i + k') = None -> annStringValue g "id" <> annStringValue g' "id";
}.

Lemma words_ok_cons i token tokens used used' g gs : words_ok (S i) tokens used' gs -> used ⊆ used' ->
  reads_as g (annStringValue g "id") token (dividedWordBox (lbox line) i count) ->
  (forall w, base_of i = Some w -> annStringValue g "id" = located_id w) ->
  (base_of i = None -> (annStringValue g "id" ∉ used) /\ (annStringValue g "id" ∈ used')) ->
  words_ok i (token :: tokens) used (g :: gs).
Proof.
  intros [H1 H2 H3 H4 H5] Hsub Hg Hk Hn. split.
  - cbn. by rewrite H1.
  - intros [|k] h t Hh Ht; cbn in Hh, Ht; [injection Hh as <-; injection Ht as <-; by rewrite Nat.add_0_r|].
    rewrite <-Nat.add_succ_comm. by apply H2.
  - intros [|k] h w Hh; cbn in Hh; [injection Hh as <-; rewrite Nat.add_0_r; apply Hk|]. rewrite <-Nat.add_succ_comm. by apply H3.
  - intros [|k] h Hh; cbn in Hh; [injection Hh as <-; rewrite Nat.add_0_r; apply Hn|]. rewrite <-Nat.add_succ_comm.
    intros Hb Hin. by apply (H4 _ _ Hh Hb), Hsub.
  - intros [|k] [|k'] h h' Hh Hh' Hlt; cbn in Hh, Hh'; try lia; rewrite <-?Nat.add_succ_comm, ?Nat.add_0_r.
    + injection Hh as <-. intros Hb Hb' Heq. destruct (Hn Hb) as [_ Hin]. apply (H4 _ _ Hh' Hb'). by rewrite <-Heq.
    + apply (H5 k k'); [done..|lia].
Qed.

(** The identities of the words. *)
Definition identities_of (gs : list obj) : list string := (fun g => annStringValue g "id") <$> gs.

Lemma words_for_tokens_ok i tokens removed used vs removed' used' : Forall a_word tokens -> (i + length tokens = count)%nat ->
  words_for_tokens pageID canvasURI rev line baseWords proposedWords count matched i tokens removed used = Ok (vs, removed', used') ->
  exists gs, vs = JObject <$> gs /\ words_ok i tokens used gs /\
    (removed ⊆ used -> (forall w, w ∈ baseWords -> located_id w ∈ used) ->
     removed' = removed ∖ list_to_set (identities_of gs) /\ used' = used ∪ list_to_set (identities_of gs)).
Proof.
  revert i removed used vs removed' used'. induction tokens as [|token tokens IH]; intros i removed used vs removed' used' Ht Hi HE.
  { injection HE as <- <- <-. exists []. split; [done|]. split; [split; [done|..]; by intros [|]|]. intros _ _. cbn. split; set_solver. }
  apply Forall_cons in Ht as [Hword Ht]. cbn [length] in Hi. cbn [words_for_tokens] in HE.
  destruct (divided_ok (lbox line) count i Hrect Hwide ltac:(lia)) as (Hbox & _). cbn zeta in Hbox.
  fold (base_of i) in HE. destruct (base_of i) as [w|] eqn:Eb.
  - apply result_bind_Ok in HE as (a & Ha & HE). apply result_bind_Ok in HE as ([[rest rm] us] & Hrest & [= <- <- <-]).
    destruct (IH (S i) _ _ _ _ _ Ht ltac:(lia) Hrest) as (gs & -> & Hgs & Hsets). exists (a :: gs). split; [done|].
    assert (Hread : readable match proposedWords !! located_id w with Some p => lannotation p | None => lannotation w end).
    { destruct (proposedWords !! located_id w) as [p|] eqn:Ep; [by eapply Hproposed|].
      unfold base_of in Eb. destruct (matched !! i) as [b|]; [|done]. cbn in Eb. exact (proj1 (Forall_lookup _ _) Hbase _ _ Eb). }
    pose proof (retained_spec _ _ _ _ _ _ Hread Hcanvas Hbox Hword Ha) as Hra. pose proof (ra_id _ _ _ _ Hra) as Hid.
    assert (Hw : w ∈ baseWords) by (unfold base_of in Eb; destruct (matched !! i); [by eapply list_elem_of_lookup_2|done]).
    split; [eapply words_ok_cons; [exact Hgs|done|by rewrite Hid|rewrite Eb; intros w' [= <-]; done|by rewrite Eb]|].
    intros Hsub Hin. destruct Hsets as [-> ->]; [set_solver|done|]. specialize (Hin w Hw). unfold identities_of. rewrite fmap_cons, list_to_set_cons, Hid.
    split; set_solver.
  - apply result_bind_Ok in HE as (id & Hid & HE). apply result_bind_Ok in HE as (a & Ha & HE).
    apply result_bind_Ok in HE as ([[rest rm] us] & Hrest & [= <- <- <-]).
    destruct (IH (S i) _ _ _ _ _ Ht ltac:(lia) Hrest) as (gs & -> & Hgs & Hsets). exists (a :: gs). split; [done|].
    unfold edit_ann in Ha. destruct (deriveTextAnnotation _ _ _ _ _ _) as [a'|] eqn:Ed; [|done]. injection Ha as ->.
    pose proof (new_word_spec _ _ _ _ _ _ Hline Hcanvas Hbox Hword Ed) as Hra. pose proof (ra_id _ _ _ _ Hra) as Hid'.
    apply available_id_new in Hid.
    split; [eapply words_ok_cons; [exact Hgs|set_solver|by rewrite Hid'|by rewrite Eb|intros _; rewrite Hid'; set_solver]|].
    intros Hsub Hin. destruct Hsets as [-> ->]; [set_solver|intros w Hw; by apply elem_of_union_r, Hin|].
    unfold identities_of. rewrite fmap_cons, list_to_set_cons, Hid'. split; set_solver.
Qed.
End line.
End words.

(** ** The matches by token *)

Lemma match_by_token_lookup ms : StronglySorted lt (tokenIndex <$> ms) ->
  forall t b, match_by_token ms !! t = Some b <-> exists m, m ∈ ms /\ tokenIndex m = t /\ baseIndex m = b.
Proof.
  intros Hs t b. unfold match_by_token.
  assert (H : forall acc : gmap nat nat, (forall m, m ∈ ms -> acc !! tokenIndex m = None) ->
    foldl (fun m x => <[tokenIndex x := baseIndex x]> m) acc ms !! t = Some b <->
    acc !! t = Some b \/ exists m, m ∈ ms /\ tokenIndex m = t /\ baseIndex m = b).
  { induction ms as [|x ms IH]; intros acc Hacc; cbn [foldl].
    - split; [by left|]. intros [|(m & ?%elem_of_nil & _)]; done.
    - rewrite fmap_cons in Hs. apply StronglySorted_inv in Hs as [Hs Hx]. rewrite Forall_fmap, Forall_forall in Hx.
      rewrite IH; [|done|].
      + rewrite lookup_insert_Some. setoid_rewrite elem_of_cons. split.
        * intros [[[<- <-]|[_ H]]|(m & Hm & H)]; [right; exists x; eauto|by left|right; exists m; eauto].
        * intros [H|(m & [->|Hm] & <- & <-)]; [|by left; left|right; by exists m].
          destruct (decide (tokenIndex x = t)) as [<-|]; [rewrite Hacc in H; [done|by left]|left; by right].
      + intros m Hm. rewrite lookup_insert_ne; [by apply Hacc; right|]. specialize (Hx m Hm). cbn in Hx. lia. }
  rewrite H; [|intros; apply lookup_empty]. rewrite lookup_empty. naive_solver.
Qed.

End EditedFacts.

(** * Theorems on interactive saves

    The words of an edited line, the order of the lines of a saved page, and the page that
    was not edited. *)

Module EditedTheorems.
Import GoStr GoSort TextFields LineIndex Json JsonParse MediaFragment TargetGeometry Presentation PageIdentity Annotations DerivedFacts SpatialWords SpatialSweep SpatialOwners SplitOwners Drafts DraftOps DraftFacts DraftExamples TokenDiff TokenLcs TokenTheorems EditedWords EditedFacts EditedLines.
#[local] Open Scope Z_scope.

(** ** Words of an edited line *)

Section edited.
Context `{SC : !Schema, UP : !UrlParser, UPr : !UrlPrinter, SH : !Sha256, SV : !SvgMapper}.

Definition trimmed_texts (words : list locatedAnnotation) : list string := map (fun w => TrimSpace (located_text w)) words.
Lemma trimmed_lookup words i : trimmed_texts words !! i = (fun w => TrimSpace (located_text w)) <$> words !! i.
Proof. exact (list_lookup_fmap _ words i). Qed.

Lemma base_of_match baseWords tokens ms t w : matches_of (trimmed_texts baseWords) tokens ms ->
  base_of baseWords (match_by_token ms) t = Some w <->
  exists m, m ∈ ms /\ tokenIndex m = t /\ baseWords !! baseIndex m = Some w.
Proof.
  intros [_ Hs _]. unfold base_of. split.
  - destruct (match_by_token ms !! t) as [b|] eqn:E; [|done]. apply match_by_token_lookup in E as (m & Hm & Ht & Hb); [|done].
    cbn. rewrite <-Hb. eauto.
  - intros (m & Hm & Ht & Hw). assert (Hl : match_by_token ms !! t = Some (baseIndex m)).
    { apply match_by_token_lookup; [done|]. eauto. }
    by rewrite Hl.
Qed.

(** Increasing positions determine each other. *)
Lemma sorted_inj (f : tokenMatch -> nat) ms m m' : StronglySorted lt (f <$> ms) -> m ∈ ms -> m' ∈ ms -> f m = f m' -> m = m'.
Proof.
  induction ms as [|x ms IH]; [by intros _ ?%elem_of_nil|]. rewrite fmap_cons. intros [Hs Hx]%StronglySorted_inv.
  rewrite Forall_fmap, Forall_forall in Hx. cbn in Hx. rewrite !elem_of_cons.
  intros [->|Hm] [->|Hm'] Heq; [done| | |by apply IH].
  - specialize (Hx _ Hm'). lia.
  - specialize (Hx _ Hm). lia.
Qed.

(** What the words made of all tokens are. *)
Section told.
Context (line : locatedAnnotation) (baseWords : list locatedAnnotation) (tokens : list string) (used : gset string).
Context (ms : list tokenMatch) (gs : list obj) (Hmatch : matches_of (trimmed_texts baseWords) tokens ms).
Context (Hok : words_ok line baseWords (length tokens) (match_by_token ms) 0 tokens used gs).

Lemma told_token t g : gs !! t = Some g -> exists token, tokens !! t = Some token /\
  reads_as g (annStringValue g "id") token (dividedWordBox (lbox line) t (length tokens)).
Proof.
  intros Hg. destruct (lookup_lt_is_Some_2 tokens t) as [token Ht].
  { rewrite <-(wo_length _ _ _ _ _ _ _ _ Hok). by eapply lookup_lt_Some. }
  exists token. split; [done|]. exact (wo_reads _ _ _ _ _ _ _ _ Hok _ _ _ Hg Ht).
Qed.

Lemma told_texts : extractAnnotationText <$> gs = tokens.
Proof.
  apply list_eq_same_length with (n := length tokens); [done|by rewrite length_fmap, (wo_length _ _ _ _ _ _ _ _ Hok)|].
  intros t a b _ Ha Hb. rewrite list_lookup_fmap in Ha. destruct (gs !! t) as [g|] eqn:Eg; [|done].
  injection Ha as <-. destruct (told_token _ _ Eg) as (token & Ht & Hr). rewrite Hb in Ht. injection Ht as ->. apply Hr.
Qed.

Lemma told_boxes : rect_ok (lbox line) -> Z.of_nat (length tokens) <= x2 (lbox line) - x1 (lbox line) -> tokens <> [] ->
  exists boxes, Forall2 (fun g b => parseXYWH (extractFragment g) = Ok b) gs boxes /\ tiles (lbox line) (x1 (lbox line)) boxes.
Proof.
  intros Hrect Hwide Hne. exists ((fun i => dividedWordBox (lbox line) i (length tokens)) <$> seq 0 (length tokens)). split.
  - apply Forall2_same_length_lookup. split; [by rewrite length_fmap, length_seq, (wo_length _ _ _ _ _ _ _ _ Hok)|]. intros t g b Hg Hb.
    destruct (told_token _ _ Hg) as (token & Ht & Hr). rewrite list_lookup_fmap, lookup_seq_lt in Hb by by eapply lookup_lt_Some.
    injection Hb as <-. apply Hr.
  - apply divided_tile; [done| |done]. destruct tokens; [done|cbn; lia].
Qed.

Lemma told_kept m : m ∈ ms -> exists w, baseWords !! baseIndex m = Some w /\ identities_of gs !! tokenIndex m = Some (located_id w).
Proof.
  intros Hm. destruct (proj1 (Forall_forall _ _) (mo_equal _ _ _ Hmatch) m Hm) as [[x Hx] Hxt].
  rewrite trimmed_lookup in Hx. destruct (baseWords !! baseIndex m) as [w|] eqn:Ew; [|done].
  exists w. split; [done|]. assert (Hl : (tokenIndex m < length gs)%nat).
  { rewrite (wo_length _ _ _ _ _ _ _ _ Hok). apply lookup_lt_is_Some. rewrite <-Hxt, trimmed_lookup, Ew. by eexists. }
  apply lookup_lt_is_Some in Hl as [g Hg]. unfold identities_of. rewrite list_lookup_fmap, Hg. cbn. f_equal.
  apply (wo_kept _ _ _ _ _ _ _ _ Hok _ _ _ Hg), (base_of_match _ tokens); [done|eauto].
Qed.

Lemma told_new t id : identities_of gs !! t = Some id -> (forall m, m ∈ ms -> tokenIndex m <> t) -> id ∉ used.
Proof.
  intros Hid Hfree. unfold identities_of in Hid. rewrite list_lookup_fmap in Hid. destruct (gs !! t) as [g|] eqn:Eg; [|done]. injection Hid as <-.
  apply (wo_fresh _ _ _ _ _ _ _ _ Hok _ _ Eg). cbn. destruct (base_of _ _ _) as [w|] eqn:Eb; [|done].
  apply (base_of_match _ tokens) in Eb as (m & Hm & Ht & _); [|done]. by destruct (Hfree m Hm).
Qed.

Lemma told_distinct : NoDup (located_id <$> baseWords) -> (forall w, w ∈ baseWords -> located_id w ∈ used) -> NoDup (identities_of gs).
Proof.
  intros Hnd Hin. destruct Hok as [_ _ H3 H4 H5]. cbn [Nat.add] in *.
  unfold identities_of. apply NoDup_alt. intros t t' x Hx Hx'. rewrite list_lookup_fmap in Hx, Hx'.
  destruct (gs !! t) as [g|] eqn:Eg; [|done]. destruct (gs !! t') as [g'|] eqn:Eg'; [|done].
  injection Hx as <-. injection Hx' as Hid.
  destruct (base_of baseWords (match_by_token ms) t) as [w|] eqn:Eb, (base_of baseWords (match_by_token ms) t') as [w'|] eqn:Eb'.
  - pose proof (H3 _ _ _ Eg Eb) as Hi. pose proof (H3 _ _ _ Eg' Eb') as Hi'.
    apply (base_of_match _ tokens) in Eb as (m & Hm & <- & Hw1), Eb' as (m' & Hm' & <- & Hw1'); [|done..].
    assert (baseIndex m = baseIndex m') as Hbi.
    { rewrite NoDup_alt in Hnd. apply (Hnd _ _ (located_id w)); rewrite list_lookup_fmap, ?Hw1, ?Hw1'; [done|].
      cbn. by rewrite <-Hi, <-Hid, Hi'. }
    by rewrite (sorted_inj baseIndex _ _ _ (mo_base _ _ _ Hmatch) Hm Hm' Hbi).
  - exfalso. apply (H4 _ _ Eg' Eb'). rewrite Hid, (H3 _ _ _ Eg Eb). apply Hin.
    apply (base_of_match _ tokens) in Eb as (m & _ & _ & Hw1); [|done]. by eapply list_elem_of_lookup_2.
  - exfalso. apply (H4 _ _ Eg Eb). rewrite <-Hid, (H3 _ _ _ Eg' Eb'). apply Hin.
    apply (base_of_match _ tokens) in Eb' as (m & _ & _ & Hw1); [|done]. by eapply list_elem_of_lookup_2.
  - destruct (Nat.lt_trichotomy t t') as [Hlt|[|Hlt]]; [|done|]; exfalso.
    + by apply (H5 _ _ _ _ Eg Eg' Hlt Eb Eb').
    + by apply (H5 _ _ _ _ Eg' Eg Hlt Eb' Eb).
Qed.
End told.

(** C15: the words an edited line gets spell its text, tile its box from edge to edge and have distinct identities.  The
    committed words and the tokens are matched along a longest common subsequence: the word at a matched token keeps the
    identity of its committed word, every other word has an identity that is new on the page, and the committed words given up
    are those without a match.  This holds where the Canvas URI is visible text, the annotations the words are made from have a
    target and a text that can be replaced ([readable]), and the committed words have distinct identities that count as used. *)
Theorem edited_line_spells_its_text pageID canvasURI rev line baseWords proposedWords text used cells res :
  let tokens := Fields text in
  all_chars visible canvasURI = true -> readable (lannotation line) -> rect_ok (lbox line) ->
  Forall (fun w => readable (lannotation w)) baseWords ->
  (forall id w, proposedWords !! id = Some w -> readable (lannotation w)) ->
  NoDup (located_id <$> baseWords) -> ids_of baseWords ⊆ used ->
  reconcileLineTokens pageID canvasURI rev line baseWords proposedWords tokens used cells = Ok res ->
  exists gs ms, lt_words res = JObject <$> gs /\
    extractAnnotationText <$> gs = tokens /\
    Forall (fun g => granularity_of g = "word"%string) gs /\
    (tokens <> [] -> exists boxes, Forall2 (fun g b => parseXYWH (extractFragment g) = Ok b) gs boxes /\
       tiles (lbox line) (x1 (lbox line)) boxes) /\
    NoDup (identities_of gs) /\
    (matches_of (trimmed_texts baseWords) tokens ms /\
     forall l, l `sublist_of` trimmed_texts baseWords -> l `sublist_of` tokens -> (length l <= length ms)%nat) /\
    (forall m, m ∈ ms -> exists w, baseWords !! baseIndex m = Some w /\ identities_of gs !! tokenIndex m = Some (located_id w)) /\
    (forall t id, identities_of gs !! t = Some id -> (forall m, m ∈ ms -> tokenIndex m <> t) -> id ∉ used) /\
    lt_removed res = ids_of baseWords ∖ list_to_set (identities_of gs) /\ lt_used res = used ∪ list_to_set (identities_of gs).
Proof.
  intros tokens Hcanvas Hline Hrect Hbase Hprop Hnd Hused HE. unfold reconcileLineTokens in HE.
  destruct ((0 <? length tokens)%nat && _) eqn:Hw; [done|].
  apply result_bind_Ok in HE as ([ms cells'] & Hms & HE). apply result_bind_Ok in HE as ([[vs rm] us] & Hvs & [= <-]).
  unfold edit_diff in Hms. fold (trimmed_texts baseWords) in Hms.
  destruct (longestCommonTokenMatches _ _ _) as [[ms' c']|] eqn:El in Hms; [|done]. injection Hms as -> ->.
  destruct (token_matching_spec (trimmed_texts baseWords) tokens cells) as (p & mb & mt & s & _ & Hok & Hno).
  destruct (decide (affordable (Z.of_nat (length mb) * Z.of_nat (length mt)) cells)) as [Ha|Ha];
    [|destruct (Hno Ha) as [e He]; by rewrite He in El].
  destruct (Hok Ha) as (ms0 & Heq & Hmatch & Hlong). rewrite El in Heq. injection Heq as -> _.
  pose proof (Fields_words text) as Hwords. fold tokens in Hwords.
  assert (Hwide : Z.of_nat (length tokens) <= x2 (lbox line) - x1 (lbox line)).
  { unfold rect_ok in Hrect. destruct (length tokens) as [|n]; [lia|]. cbn [Nat.ltb Nat.leb andb] in Hw. apply Z.ltb_ge in Hw. lia. }
  destruct (words_for_tokens_ok pageID canvasURI rev line baseWords proposedWords (length tokens) (match_by_token ms0)
    Hcanvas Hline Hrect Hwide Hbase Hprop 0 tokens _ _ _ _ _ Hwords ltac:(lia) Hvs) as (gs & -> & Hwo & Hsets).
  assert (Hin : forall w, w ∈ baseWords -> located_id w ∈ used).
  { intros w Hw'. apply Hused. unfold ids_of. apply elem_of_list_to_set. by apply list_elem_of_fmap_2. }
  destruct (Hsets Hused Hin) as [Hrm Hus]. exists gs, ms0. cbn [lt_words lt_removed lt_used]. split_and!; try done.
  - by eapply told_texts.
  - apply Forall_lookup. intros t g Hg. by destruct (told_token _ _ _ _ _ _ Hwo _ _ Hg) as (token & _ & []).
  - by eapply told_boxes.
  - by eapply told_distinct.
  - by eapply told_kept.
  - by eapply told_new.
Qed.
End edited.

(** ** Committed lines first *)

Section order.
Context (committed : gmap string locatedAnnotation).

#[local] Abbreviation lines_in items := (filter (fun v => is_line v = true) items).
#[local] Abbreviation old_lines items := (filter (fun v => is_committed committed v = true) (lines_in items)).
#[local] Abbreviation new_lines items := (filter (fun v => is_committed committed v = false) (lines_in items)).

Lemma filter_split (l : list json) (f : json -> bool) :
  filter (fun v => f v = true) l ++ filter (fun v => f v = false) l ≡ₚ l.
Proof.
  induction l as [|v l IH]; [done|]. rewrite !filter_cons. destruct (f v) eqn:E.
  - rewrite decide_True, decide_False by done. cbn. by rewrite IH.
  - rewrite decide_False, decide_True by done. by rewrite <-Permutation_middle, IH.
Qed.

Lemma filter_none (l : list json) (f : json -> bool) : filter (fun v => f v = false) l = [] ->
  filter (fun v => f v = true) l = l.
Proof.
  induction l as [|v l IH]; [done|]. rewrite !filter_cons. destruct (f v) eqn:E.
  - rewrite decide_False, decide_True by done. intros H. by rewrite IH.
  - by rewrite decide_True by done.
Qed.
Lemma filter_all (l : list json) (f : json -> bool) : filter (fun v => f v = true) l = [] ->
  filter (fun v => f v = false) l = l.
Proof.
  induction l as [|v l IH]; [done|]. rewrite !filter_cons. destruct (f v) eqn:E.
  - by rewrite decide_True by done.
  - rewrite decide_False, decide_True by done. intros H. by rewrite IH.
Qed.

Lemma fill_slots_spec items ordered : length ordered = length (lines_in items) ->
  Forall (fun v => is_line v = true) ordered ->
  lines_in (fill_slots items ordered) = ordered /\
  (forall i v, items !! i = Some v -> is_line v = false -> fill_slots items ordered !! i = Some v) /\
  filter (fun v => is_line v = false) (fill_slots items ordered) = filter (fun v => is_line v = false) items.
Proof.
  revert ordered. induction items as [|v items IH]; intros ordered Hl Hf.
  { destruct ordered; [|done]. by split_and!. }
  rewrite filter_cons in Hl. cbn [fill_slots]. destruct (is_line v) eqn:Ev.
  - rewrite decide_True in Hl by done. destruct ordered as [|o ordered]; [done|]. apply Forall_cons in Hf as [Ho Hf].
    destruct (IH ordered) as (H1 & H2 & H3); [by injection Hl|done|]. split_and!.
    + by rewrite filter_cons_True, H1.
    + intros [|i] w Hw Hn; [injection Hw as <-; congruence|]. by apply H2.
    + rewrite !filter_cons_False by congruence. done.
  - rewrite decide_False in Hl by congruence. destruct (IH ordered Hl Hf) as (H1 & H2 & H3). split_and!.
    + by rewrite filter_cons_False, H1 by congruence.
    + intros [|i] w Hw Hn; [done|]. by apply H2.
    + by rewrite !filter_cons_True, H3.
Qed.

Lemma preserve_spec items : let result := preserveCommittedLineOwnershipOrder items committed in
  result ≡ₚ items /\
  (forall i v, items !! i = Some v -> is_line v = false -> result !! i = Some v) /\
  lines_in result = old_lines items ++ new_lines items.
Proof.
  unfold preserveCommittedLineOwnershipOrder. set (old := old_lines items). set (new := new_lines items).
  destruct (length old =? 0)%nat eqn:E1; [|destruct (length new =? 0)%nat eqn:E2]; cbn [orb].
  - apply Nat.eqb_eq, length_zero_iff_nil in E1. split_and!; [done|done|]. rewrite E1. unfold new. by rewrite filter_all.
  - apply Nat.eqb_eq, length_zero_iff_nil in E2. split_and!; [done|done|]. rewrite E2, app_nil_r. symmetry. exact (filter_none _ _ E2).
  - assert (Hperm : old ++ new ≡ₚ lines_in items) by apply filter_split.
    destruct (fill_slots_spec items (old ++ new)) as (H1 & H2 & H3).
    + by rewrite Hperm.
    + rewrite Hperm. apply Forall_forall. by intros v [Hv _]%list_elem_of_filter.
    + split_and!; [|done|done].
      rewrite <-(filter_split (fill_slots items (old ++ new)) is_line), H1, H3, Hperm. apply filter_split.
Qed.

Lemma lines_info_filter c items : (forall v, v ∈ items -> is_line v = false -> line_info c v = None) ->
  lines_info c (lines_in items) = lines_info c items.
Proof.
  unfold lines_info. induction items as [|v items IH]; [done|]. intros Hn. rewrite filter_cons.
  assert (IH' : omap (line_info c) (lines_in items) = omap (line_info c) items) by (apply IH; intros u Hu; apply Hn; by right).
  destruct (is_line v) eqn:Ev.
  - rewrite decide_True by done. cbn. by rewrite IH'.
  - rewrite decide_False by congruence. cbn. rewrite (Hn v) by (done || by left). done.
Qed.

Lemma first_info_app L L' x y id : first_info L x y = Some id -> first_info (L ++ L') x y = Some id.
Proof. induction L as [|[i r] L IH]; [done|]. cbn. by destruct (holds_point r x y). Qed.

(** The two ways the code recognises a granularity agree on the items. *)
Definition levels_agree (items : list json) : Prop := forall a, JObject a ∈ items ->
  (granularity_of a = "line"%string -> says a "textGranularity" "line" = true) /\
  (granularity_of a = "word"%string -> says a "textGranularity" "word" = true).

(** C37: the items of a saved page are those of the reconciled page; only lines change
    places, the committed ones before the new ones and each group in its order. So the
    first committed line that holds the center of a word owns it in the saved page,
    whatever new lines were drawn over it. *)
Theorem committed_lines_keep_their_words items : levels_agree items ->
  let result := preserveCommittedLineOwnershipOrder items committed in
  result ≡ₚ items /\
  (forall i v, items !! i = Some v -> is_line v = false -> result !! i = Some v) /\
  lines_in result = old_lines items ++ new_lines items /\
  forall i v c w id, items !! i = Some v -> item_word i v = Some (c, w) ->
    first_info (lines_info c (old_lines items)) (centerX w) (centerY w) = Some id ->
    belongs None result (positioned w) id.
Proof.
  intros Hlev result. destruct (preserve_spec items) as (Hp & Hs & Ho). fold result in Hp, Hs, Ho.
  split_and!; [done..|]. intros i v c w id Hi Hw Hf.
  pose proof Hw as (a & r & Hg & Hgr & Hwp)%item_word_geometry.
  assert (Hpos : index (positioned w) = i) by by rewrite Hwp.
  apply belongs_info. exists v, c, w. rewrite Hpos. split_and!; [|done|done|].
  - apply Hs; [done|]. unfold is_line. destruct (granular v "line") as [line|] eqn:Eg; [|done].
    unfold granular in Eg. destruct v as [| | | | |b]; try done. unfold item_geometry in Hg.
    destruct (parseXYWH _); [|done]. destruct (bool_decide _); [done|]. injection Hg as _ <- _.
    destruct (says b "textGranularity" "line") eqn:Es; [|done]. unfold says, EqualFold in Es.
    apply bool_decide_eq_true in Es. unfold granularity_of in Hgr. by rewrite fold_ToLower, Es in Hgr by by rewrite Es.
  - rewrite <-lines_info_filter.
    + rewrite Ho. unfold lines_info. rewrite omap_app. by apply first_info_app.
    + intros u Hu Hn. rewrite Hp in Hu. unfold line_info. destruct (item_geometry u) as [[[c' b] r']|] eqn:Eu; [|done]. cbn.
      unfold item_geometry in Eu. destruct u as [| | | | |u]; try done. destruct (parseXYWH _); [|done].
      destruct (bool_decide (extractCanvasURI u = _)); [done|]. injection Eu as _ <- _.
      destruct (decide (granularity_of u = "line"%string)) as [E|]; [|by rewrite andb_comm, bool_decide_eq_false_2].
      destruct (Hlev u Hu) as [Hl _]. specialize (Hl E). unfold is_line, granular in Hn. by rewrite Hl in Hn.
Qed.
End order.

End EditedTheorems.
