(* ===== verification/UneditedSave.v ===== *)
(** * The save of an unedited page

    Reconciling the committed page with itself finds nothing to do, line by line. *)

From Stdlib Require Import ZArith Lia Ascii String.
From stdpp Require Import base gmap sets strings list sorting.
From S2P Require Import Prelude GoStrings GoSort Json JsonParse MediaFragment TargetGeometry Presentation LineIndex TextFields Annotations DerivedFacts SpatialWords SpatialSweep SpatialOwners Drafts DraftOps DraftFacts SplitOwners DraftTheorems TokenTheorems EditedLines EditedTheorems.

Module UneditedSave.
Import GoStr GoSort TextFields LineIndex Json MediaFragment Presentation Annotations SpatialWords SpatialSweep SpatialOwners SplitOwners Drafts DraftOps DraftFacts DraftExamples TokenDiff EditedWords EditedLines EditedTheorems.
#[local] Open Scope Z_scope.

(** ** Sorting twice *)

Section sort.
Context {A : Type} (less : A -> A -> bool).
Context (less_trans : forall a b c, less a b = true -> less b c = true -> less a c = true)
        (less_asym : forall a b, less a b = true -> less b a = false)
        (less_weak : forall a b c, less a b = false -> less b c = false -> less a c = false).

Lemma insert_last x l : Forall (fun y => less x y = false) l -> insert_stable less x l = l ++ [x].
Proof. induction 1 as [|y l Hy Hl IH]; [done|]. cbn. by rewrite Hy, IH. Qed.

Lemma SliceStable_idem l : SliceStable less (SliceStable less l) = SliceStable less l.
Proof.
  assert (Hs : StronglySorted (before less (fun _ _ => True)) (SliceStable less l)).
  { apply SliceStable_sorted; [done..|]. induction l as [|x l IH]; constructor; [done|]. by apply Forall_true. }
  revert Hs. generalize (SliceStable less l). intros l' Hs. unfold SliceStable.
  assert (H : forall acc, (forall x y, x ∈ l' -> y ∈ acc -> less x y = false) ->
    foldl (fun acc x => insert_stable less x acc) acc l' = acc ++ l').
  { induction Hs as [|x l' Hs IH Hx]; intros acc Hacc; cbn [foldl]; [by rewrite app_nil_r|].
    rewrite insert_last by (apply Forall_forall; intros y Hy; apply Hacc; [by left|done]).
    rewrite IH; [by rewrite <-app_assoc|]. intros x' y Hx' Hy. apply elem_of_app in Hy as [Hy|Hy]; [apply Hacc; [by right|done]|].
    apply list_elem_of_singleton in Hy as ->. rewrite Forall_forall in Hx. destruct (Hx _ Hx') as [Hl|[Hl _]]; [by apply less_asym|done]. }
  apply H. by intros x y _ ?%elem_of_nil.
Qed.
End sort.

Lemma located_words_sorted ps : sortReconciliationWords (locatedWords ps) = locatedWords ps.
Proof.
  unfold sortReconciliationWords, locatedWords, sortLocatedWordsWithinLine. apply SliceStable_idem.
  - intros a b c. rewrite !within_line_lex. lia.
  - intros a b. rewrite within_line_lex, within_line_not. lia.
  - intros a b c. rewrite !within_line_not. lia.
Qed.

Lemma filter_nothing {A} (P : A -> Prop) `{!forall x, Decision (P x)} (l : list A) : (forall x, x ∈ l -> ~ P x) -> filter P l = [].
Proof.
  induction l as [|x l IH]; intros Hn; [done|]. rewrite filter_cons_False by (apply Hn; by left). apply IH. intros y Hy. apply Hn. by right.
Qed.

(** ** The annotations of the page *)

Lemma located_item items canvases eligible id w : Z.of_nat (length items) <= maxInt64 ->
  w ∈ locatedWords (default [] (assignSpatialWordsToLines canvases items eligible !! id)) ->
  items !! lindex w = Some (JObject (lannotation w)) /\ granularity_of (lannotation w) = "word"%string /\
  parseXYWH (extractFragment (lannotation w)) = Ok (lbox w).
Proof.
  intros Hl Hw. rewrite assign_eq in Hw by done. unfold locatedWords, sortLocatedWordsWithinLine in Hw.
  rewrite SliceStable_Permutation in Hw. apply list_elem_of_omap in Hw as (p & Hp & Hloc).
  change (p ∈ listed (assign_ref canvases items eligible) id) in Hp. rewrite assign_ref_listed in Hp.
  apply elem_of_mjoin_given in Hp as (c & _ & (sw & Hsw & _ & <-)%elem_of_given).
  apply words_on_index in Hsw as (v & Hv & Hsw). pose proof Hsw as (a & r & Hg & Hgr & Hwp)%item_word_geometry.
  unfold item_geometry in Hg. destruct v as [| | | | |b]; try done. destruct (parseXYWH _) as [r'|] eqn:Er; [|done].
  destruct (bool_decide _); [done|]. injection Hg as _ -> ->.
  assert (Ha : SpatialWords.annotation (positioned sw) = a) by by rewrite Hwp.
  unfold locate_word in Hloc. rewrite Ha, Er in Hloc. injection Hloc as <-. by split_and!.
Qed.

Lemma index_annotations_other position items g found found' id : index_annotations position items g found = Ok found' ->
  (forall v, v ∈ items -> is_Some (granular v g) -> trimmed_id v <> id) -> found' !! id = found !! id.
Proof.
  revert position found. induction items as [|v items IH]; intros position found HE Hn; [by injection HE as <-|]. cbn in HE.
  assert (Hn' : forall u, u ∈ items -> is_Some (granular u g) -> trimmed_id u <> id) by (intros u Hu; apply Hn; by right).
  destruct (granular v g) as [a|] eqn:Eg; [|by eapply IH].
  destruct (bool_decide _); [done|]. destruct (parseXYWH _) as [r|]; [|done].
  rewrite (IH _ _ HE Hn'), lookup_insert_ne; [done|]. apply Hn; [by left|rewrite Eg; eauto].
Qed.

(** The annotation with an identity, when identities are distinct. *)
Lemma index_annotations_found position items g found found' i v a : index_annotations position items g found = Ok found' ->
  (forall j u, items !! j = Some u -> is_Some (granular u g) -> trimmed_id u = trimmed_id v -> j = i) ->
  items !! i = Some v -> granular v g = Some a ->
  exists r, parseXYWH (extractFragment a) = Ok r /\
    found' !! trimmed_id v = Some {| lannotation := a; lindex := position + i; lbox := r |}.
Proof.
  revert position found i. induction items as [|u items IH]; intros position found i HE Hu Hi Ha; [done|]. cbn in HE.
  destruct i as [|i].
  - injection Hi as ->. rewrite Ha in HE. destruct (bool_decide _); [done|]. destruct (parseXYWH _) as [r|] eqn:Er; [|done].
    exists r. split; [done|]. rewrite (index_annotations_other _ _ _ _ _ (trimmed_id v) HE); [by rewrite lookup_insert_eq, Nat.add_0_r|].
    intros w [j Hj]%list_elem_of_lookup Hw Heq. by specialize (Hu (S j) w Hj Hw Heq).
  - assert (Hu' : forall j w, items !! j = Some w -> is_Some (granular w g) -> trimmed_id w = trimmed_id v -> j = i).
    { intros j w Hj Hw Heq. specialize (Hu (S j) w Hj Hw Heq). lia. }
    assert (Hex : exists found1, index_annotations (S position) items g found1 = Ok found').
    { destruct (granular u g) as [b|]; [|eauto]. destruct (bool_decide _); [done|]. destruct (parseXYWH (extractFragment b)); [eauto|done]. }
    destruct Hex as [found1 HE']. destruct (IH _ _ i HE' Hu' Hi Ha) as (r & Hr & Hf). exists r. split; [done|].
    by rewrite <-Nat.add_succ_comm.
Qed.

Lemma index_annotations_from position items g found found' id w : index_annotations position items g found = Ok found' ->
  found' !! id = Some w -> found !! id = Some w \/
  exists i v, items !! i = Some v /\ granular v g = Some (lannotation w) /\ lindex w = (position + i)%nat /\ trimmed_id v = id /\ id <> ""%string.
Proof.
  revert position found. induction items as [|v items IH]; intros position found HE Hf; [injection HE as <-; by left|]. cbn in HE.
  assert (Hrest : forall found1, index_annotations (S position) items g found1 = Ok found' -> found1 !! id = Some w \/
    exists i u, (v :: items) !! i = Some u /\ granular u g = Some (lannotation w) /\ lindex w = (position + i)%nat /\ trimmed_id u = id /\ id <> ""%string).
  { intros found1 HE1. destruct (IH _ _ HE1 Hf) as [|(i & u & Hu & Hg & Hl & Hid)]; [by left|right].
    exists (S i), u. rewrite <-Nat.add_succ_comm. done. }
  destruct (granular v g) as [a|] eqn:Eg; [|by apply Hrest]. case_bool_decide as Hne; [done|]. destruct (parseXYWH _) as [r|]; [|done].
  destruct (Hrest _ HE) as [Hin|]; [|by right]. apply lookup_insert_Some in Hin as [[<- <-]|[_ Hin]]; [|by left].
  right. exists 0%nat, v. cbn. rewrite Nat.add_0_r. done.
Qed.

(** ** The page *)

Section save.
Context `{SC : !Schema, UP : !UrlParser, UPr : !UrlPrinter, SH : !Sha256, SV : !SvgMapper, MR : !MapRange, RI : !RangeIDs}.

(** A committed page whose lines and words have distinct identities and readable boxes,
    and under which identities can be derived. *)
Record settled_page (items : list json) (identity : PageIdentity) (pageID : string) : Prop := {
  sp_page : AnnotationPageID (PublicBaseURL identity) (ItemImageID identity) = Ok pageID;
  sp_count : Z.of_nat (length items) <= MaxAnnotationsPerPage;
  sp_lines : is_ok (reconciliationAnnotations items "line") = true;
  sp_words : is_ok (reconciliationAnnotations items "word") = true;
  sp_ids : unique_ids items;
  sp_trim : forall a, JObject a ∈ items -> TrimSpace (annStringValue a "id") = annStringValue a "id";
  sp_levels : levels_agree items;
  sp_derivable : forall a k, JObject a ∈ items -> says a "textGranularity" "line" = true ->
    (k < length (Fields (extractAnnotationText a)))%nat ->
    is_ok (AnnotationID pageID (annStringValue a "id" ++ nul ++ "word" ++ nul ++ itoa (Z.of_nat (S k)))%string) = true;
}.

Context (items : list json) (identity : PageIdentity) (pageID : string) (rev : Z).
Context (Hpage : settled_page items identity pageID).
Context (lines words : gmap string locatedAnnotation).
Context (Hlines : reconciliationAnnotations items "line" = Ok lines).
Context (Hwords : reconciliationAnnotations items "word" = Ok words).

Lemma granular_obj v g a : granular v g = Some a -> v = JObject a /\ says a "textGranularity" g = true.
Proof. unfold granular. destruct v as [| | | | |b]; try done. destruct (says b _ _) eqn:E; [|done]. by intros [= <-]. Qed.

Lemma same_identity i j v u a : items !! i = Some v -> items !! j = Some u -> v = JObject a ->
  is_map u = true -> trimmed_id u = trimmed_id v -> j = i.
Proof.
  intros Hi Hj -> Hu Heq. destruct u as [| | | | |b]; try done. cbn in Heq.
  rewrite !(sp_trim _ _ _ Hpage) in Heq by by eapply list_elem_of_lookup_2. by eapply (sp_ids _ _ _ Hpage).
Qed.

Lemma indexed g found i a : reconciliationAnnotations items g = Ok found -> items !! i = Some (JObject a) ->
  says a "textGranularity" g = true -> exists r, parseXYWH (extractFragment a) = Ok r /\
    found !! annStringValue a "id" = Some {| lannotation := a; lindex := i; lbox := r |}.
Proof.
  intros HE Hi Hs. assert (Hg : granular (JObject a) g = Some a) by (unfold granular; by rewrite Hs).
  destruct (index_annotations_found 0 items g ∅ found i (JObject a) a HE) as (r & Hr & Hf); [|done..|].
  - intros j u Hj [b [-> _]%granular_obj] Heq. by eapply same_identity.
  - exists r. split; [done|]. cbn in Hf. by rewrite (sp_trim _ _ _ Hpage) in Hf by by eapply list_elem_of_lookup_2.
Qed.

Lemma indexed_from g found id w : reconciliationAnnotations items g = Ok found -> found !! id = Some w ->
  items !! lindex w = Some (JObject (lannotation w)) /\ says (lannotation w) "textGranularity" g = true /\
  annStringValue (lannotation w) "id" = id.
Proof.
  intros HE Hf. destruct (index_annotations_from _ _ _ _ _ _ _ HE Hf) as [?|(i & v & Hi & Hg & Hl & Hid & _)]; [done|].
  apply granular_obj in Hg as [-> Hs]. rewrite Hl. cbn. split_and!; [done..|].
  cbn in Hid. by rewrite (sp_trim _ _ _ Hpage) in Hid by by eapply list_elem_of_lookup_2.
Qed.

(** A located word of the page is the one its identity stands for. *)
Lemma word_indexed canvases eligible id w :
  w ∈ locatedWords (default [] (assignSpatialWordsToLines canvases items eligible !! id)) ->
  words !! located_id w = Some w /\ items !! lindex w = Some (JObject (lannotation w)).
Proof.
  intros Hw. apply located_item in Hw as (Hi & Hg & Hr).
  - split; [|done]. destruct (sp_levels _ _ _ Hpage (lannotation w)) as [_ Hs]; [by eapply list_elem_of_lookup_2|].
    destruct (indexed "word" words _ _ Hwords Hi (Hs Hg)) as (r & Hr' & Hf). unfold located_id. rewrite Hf.
    rewrite Hr in Hr'. injection Hr' as <-. by destruct w.
  - pose proof (sp_count _ _ _ Hpage). unfold MaxAnnotationsPerPage, maxInt64 in *. lia.
Qed.

Definition the_save : save :=
  {| sv_pageID := pageID; sv_identity := identity; sv_revision := rev; sv_count := length items;
     baseLines := lines; baseWords := words; proposedLines := lines; proposedWords := words;
     baseWordsByLine := locatedWords <$> assigned_words items |}.

Lemma index_save_same : index_save items items identity rev = Ok the_save.
Proof. unfold index_save. rewrite (sp_page _ _ _ Hpage). cbn. rewrite Hlines. cbn. by rewrite Hwords. Qed.

Lemma base_words_eq lineID : base_words the_save lineID = locatedWords (default [] (assigned_words items !! lineID)).
Proof. unfold base_words, the_save. cbn. rewrite lookup_fmap. by destruct (assigned_words items !! lineID). Qed.

Lemma base_words_indexed lineID w : w ∈ base_words the_save lineID ->
  words !! located_id w = Some w /\ items !! lindex w = Some (JObject (lannotation w)).
Proof. rewrite base_words_eq. apply word_indexed. Qed.

Lemma owned_same lineID : sortReconciliationWords (proposedOwnedWords (base_words the_save lineID) words ++ []) = base_words the_save lineID.
Proof.
  rewrite app_nil_r. assert (H : proposedOwnedWords (base_words the_save lineID) words = base_words the_save lineID).
  { unfold proposedOwnedWords. assert (Hw : Forall (fun w => words !! located_id w = Some w) (base_words the_save lineID)).
    { apply Forall_forall. intros w Hw. by apply (base_words_indexed lineID). }
    induction Hw as [|w ws Hw _ IH]; [done|]. cbn. by rewrite Hw, IH. }
  rewrite H, base_words_eq. apply located_words_sorted.
Qed.

Lemma current_same w : items !! lindex w = Some (JObject (lannotation w)) -> current items w = w.
Proof. intros Hw. unfold current. rewrite Hw. by destruct w. Qed.

Lemma current_words lineID : current items <$> base_words the_save lineID = base_words the_save lineID.
Proof.
  rewrite <-(list_fmap_id (base_words the_save lineID)) at 2. apply list_fmap_ext. intros i w Hw%list_elem_of_lookup_2.
  by apply current_same, (base_words_indexed lineID).
Qed.

(** ** The loops *)

Lemma reconcile_same lineID line st : lp_items st = items -> lines !! lineID = Some line ->
  reconcile_line the_save lineID line line [] st = Ok st.
Proof.
  intros Hst Hl. destruct (indexed_from _ _ _ _ Hlines Hl) as (Hi & _ & _). unfold reconcile_line. rewrite Hst.
  change (proposedWords the_save) with words. rewrite owned_same, current_words, (current_same line) by done.
  unfold sameBox. rewrite bool_decide_eq_true_2 by done.
  rewrite !bool_decide_eq_true_2 by done. done.
Qed.

Lemma reconcile_all nl byIdentity canvases eligible ids st : lp_items st = items ->
  (forall id, id ∈ ids -> is_Some (lines !! id) /\ default [] (byIdentity !! id) = []) ->
  reconcile_lines the_save nl byIdentity (assignSpatialWordsToLines canvases items eligible) ids st = Ok st.
Proof.
  intros Hst. induction ids as [|id ids IH]; intros Hids; [done|]. cbn [reconcile_lines].
  change (baseLines the_save) with lines. change (proposedLines the_save) with lines.
  destruct (Hids id) as [[line Hl] Hid]; [by left|]. rewrite Hl.
  assert (Hnone : new_words_of_line the_save nl byIdentity (assignSpatialWordsToLines canvases items eligible) id = []).
  { unfold new_words_of_line. rewrite Hid. cbn [fmap list_fmap app]. apply filter_nothing. intros w Hw [Hn _].
    apply word_indexed in Hw as [Hw _]. unfold is_new_word in Hn. change (baseWords the_save) with words in Hn. by rewrite Hw in Hn. }
  rewrite Hnone, (reconcile_same id line st Hst Hl). cbn. apply IH. intros id' Hid'. apply Hids. by right.
Qed.

Lemma deterministic_none nl lineID line k n : lines !! lineID = Some line ->
  (k + n = length (Fields (located_text line)))%nat -> deterministic_words the_save nl lineID k n = Ok [].
Proof.
  intros Hl. destruct (indexed_from _ _ _ _ Hlines Hl) as (Hi & Hs & Hid). revert k.
  induction n as [|n IH]; intros k Hk; [done|]. cbn [deterministic_words].
  assert (Hok : is_ok (AnnotationID pageID (lineID ++ nul ++ "word" ++ nul ++ itoa (Z.of_nat (S k)))%string) = true).
  { rewrite <-Hid. apply (sp_derivable _ _ _ Hpage); [by eapply list_elem_of_lookup_2|done|]. unfold located_text in Hk. lia. }
  change (sv_pageID the_save) with pageID. destruct (AnnotationID _ _) as [wordID|]; [|done]. cbn [edit_page mbind result_bind].
  rewrite IH by lia. cbn [mbind result_bind]. change (proposedWords the_save) with words. change (baseWords the_save) with words.
  destruct (words !! wordID) as [w|] eqn:Ew; [|done]. rewrite bool_decide_eq_true_2; [done|]. eauto.
Qed.

Lemma deterministic_all nl ids : (forall id, id ∈ ids -> is_Some (lines !! id)) ->
  exists m, deterministic_lines the_save nl ids = Ok m /\ forall id, default [] (m !! id) = [].
Proof.
  induction ids as [|id ids IH]; intros Hids; [by exists ∅; split; [|intros; rewrite lookup_empty]|].
  destruct IH as (m & Hm & Hd); [intros id' Hid'; apply Hids; by right|]. cbn [deterministic_lines].
  change (proposedLines the_save) with lines. destruct (Hids id) as [line Hl]; [by left|]. rewrite Hl.
  rewrite (deterministic_none nl id line 0 _ Hl eq_refl). cbn. rewrite Hm. cbn. eexists. split; [done|].
  intros id'. destruct (decide (id = id')) as [<-|]; [by rewrite lookup_insert_eq|]. by rewrite lookup_insert_ne.
Qed.

Lemma committed_same : preserveCommittedLineOwnershipOrder items lines = items.
Proof.
  unfold preserveCommittedLineOwnershipOrder. set (created := filter (fun v => is_committed _ v = false) _).
  assert (Hc : created = []).
  { apply filter_nothing. intros v [Hv Hin]%list_elem_of_filter Hn. apply list_elem_of_lookup in Hin as [i Hi].
    unfold is_line in Hv. destruct (granular v "line") as [a|] eqn:Eg; [|done]. apply granular_obj in Eg as [-> Hs].
    destruct (indexed "line" lines i a Hlines Hi Hs) as (r & _ & Hf). unfold is_committed in Hn. rewrite Hf in Hn.
    apply bool_decide_eq_false in Hn. apply Hn. eauto. }
  rewrite Hc. by rewrite orb_true_r.
Qed.
End save.

(** C17: saving a page that was not edited changes nothing: the reconciliation of a
    committed page with itself succeeds and returns its items, in whatever order the
    loops over maps run. *)
Theorem unedited_save_changes_nothing `{SC : !Schema, UP : !UrlParser, UPr : !UrlPrinter, SH : !Sha256, SV : !SvgMapper,
    MR : !MapRange, RI : !RangeIDs} items identity pageID rev :
  settled_page items identity pageID -> (forall n ids id, id ∈ range_ids n ids -> id ∈ ids) ->
  reconcileEditedLineWords items items identity rev = Ok items.
Proof.
  intros Hpage Hrange. pose proof (sp_lines _ _ _ Hpage) as Hl. pose proof (sp_words _ _ _ Hpage) as Hw.
  destruct (reconciliationAnnotations items "line") as [lines|] eqn:Hlines; [|done].
  destruct (reconciliationAnnotations items "word") as [words|] eqn:Hwords; [|done].
  unfold reconcileEditedLineWords. rewrite (index_save_same items identity pageID rev Hpage lines words Hlines Hwords).
  set (s := the_save _ _ _ _ _ _). cbn [mbind result_bind].
  assert (Hnone : forall n, range_ids n (dom lines ∖ dom lines : gset string) = []).
  { intros n. destruct (range_ids n _) as [|x l] eqn:E; [done|]. assert (Hx : x ∈ range_ids n (dom lines ∖ dom lines : gset string)) by (rewrite E; by left).
    apply Hrange in Hx. set_solver. }
  unfold newLineIDs, removedLineIDs, existingLineIDs. change (proposedLines s) with lines. change (baseLines s) with lines.
  rewrite !Hnone. cbn [scan_new_lines removed_words mbind result_bind].
  assert (Hin : forall n id, id ∈ range_ids n (dom lines ∩ dom lines : gset string) -> is_Some (lines !! id)).
  { intros n id Hid%Hrange. apply elem_of_dom. set_solver. }
  destruct (deterministic_all items identity pageID rev Hpage lines words Hlines {| synchronized := ∅; newLineForWord := ∅; claimed := ∅ |}
    _ (Hin 4%nat)) as (byIdentity & Hdet & Hempty). fold s in Hdet. rewrite Hdet. cbn [mbind result_bind].
  unfold assigned_to, s. rewrite (reconcile_all items identity pageID rev Hpage lines words Hlines Hwords); [|done|].
  2:{ intros id Hid. split; [by eapply Hin|apply Hempty]. }
  cbn [mbind result_bind lp_items]. set (st := {| lp_items := items |}).
  assert (Hsame : forall l, l ≫= with_generated st = l).
  { induction l as [|v l IH]; [done|]. cbn [mbind list_bind]. rewrite IH.
    unfold with_generated, st. cbn [lp_remove lp_generated]. rewrite (bool_decide_eq_false_2 (_ ∈ ∅)) by set_solver. cbn [andb].
    rewrite lookup_empty. by destruct (is_line v). }
  rewrite Hsame. rewrite (proj2 (Z.ltb_ge _ _)) by apply Hpage. f_equal. by eapply committed_same.
Qed.

End UneditedSave.

(** * An edited page

    The theorems on interactive saves applied to the page of DraftExamples.v: its line is
    given another text, and a new line is drawn over it. *)

Module EditExamples.
Import GoStr TextFields LineIndex Json JsonParse MediaFragment TargetGeometry Presentation Annotations DerivedFacts SpatialWords SpatialOwners SplitOwners Drafts DraftOps DraftFacts DraftExamples TokenDiff EditedWords EditedFacts EditedLines EditedTheorems UneditedSave.
#[local] Open Scope Z_scope.
#[local] Existing Instances page_schema page_url page_print page_sha page_svg page_ocr page_range.

(** ** A line with another text *)

Definition word_at (id box text : string) (r : rect) : locatedAnnotation :=
  {| lannotation := loose id box text; lindex := 0; lbox := r |}.
Definition committed_words : list locatedAnnotation :=
  [word_at "a" "10,10,30,20" "One" {| x1 := 10; y1 := 10; x2 := 40; y2 := 30 |};
   word_at "b" "40,10,30,20" "two" {| x1 := 40; y1 := 10; x2 := 70; y2 := 30 |};
   word_at "c" "70,10,30,20" "three" {| x1 := 70; y1 := 10; x2 := 100; y2 := 30 |}].
Definition page_id : string := "https://example.org/1/annotations".

Lemma readable_item id gran box text : forallb valid_utf8 [id; gran; canvas ++ "#xywh=" ++ box; text]%string = true ->
  plain_target (JString (canvas ++ "#xywh=" ++ box)) -> readable (item id gran box text).
Proof. intros Hv Hp. split; [by apply item_well_formed|exact Hp|by left]. Qed.

Lemma committed_readable : Forall (fun w => readable (lannotation w)) committed_words.
Proof. repeat apply Forall_cons_2; try apply Forall_nil_2; apply readable_item; try split; vm_compute; reflexivity. Qed.

Definition retold_line : line_tokens := Eval vm_compute in
  match reconcileLineTokens page_id canvas 3 title_line committed_words ∅ (Fields "One more three") (ids_of committed_words)
    (Some 100) with Ok r => r | Err _ => {| lt_words := []; lt_removed := ∅; lt_used := ∅; lt_cells := None |} end.

Lemma edited_line_spells_its_text_witness : exists gs (ms : list tokenMatch), lt_words retold_line = JObject <$> gs /\
  extractAnnotationText <$> gs = ["One"; "more"; "three"]%string /\ identities_of gs !! 0%nat = located_id <$> committed_words !! 0%nat /\
  (forall m, m ∈ ms -> exists w, committed_words !! baseIndex m = Some w /\ identities_of gs !! tokenIndex m = Some (located_id w)) /\
  lt_removed retold_line = ids_of (take 1 (drop 1 committed_words)) /\
  exists boxes, Forall2 (fun g b => parseXYWH (extractFragment g) = Ok b) gs boxes /\ tiles title_box 10 boxes.
Proof.
  destruct (edited_line_spells_its_text page_id canvas 3 title_line committed_words ∅ "One more three"
    (ids_of committed_words) (Some 100) retold_line) as (gs & ms & Hgs & Ht & _ & Hb & _ & _ & Hkept & _).
  - reflexivity.
  - apply readable_item; try split; vm_compute; reflexivity.
  - repeat split; vm_compute; (discriminate || reflexivity).
  - apply committed_readable.
  - intros id w H. by rewrite lookup_empty in H.
  - apply (bool_decide_unpack _). vm_compute. exact I.
  - done.
  - vm_compute. reflexivity.
  - exists gs, ms. split; [exact Hgs|]. split; [exact Ht|]. split.
    + unfold identities_of. apply (f_equal (fmap (fun v => match v with JObject g => annStringValue g "id" | _ => ""%string end))) in Hgs.
      rewrite <- list_fmap_compose in Hgs. unfold compose in Hgs. rewrite <- Hgs. vm_compute. reflexivity.
    + split; [exact Hkept|]. split; [vm_compute; reflexivity|]. apply Hb. vm_compute. discriminate.
Defined.

(** ** A line drawn over the committed one *)

Definition drawn : obj := item "https://example.org/1/annotations/items/n" "line" "0,0,200,50" "new".
Definition drawn_page : list json := JObject drawn :: items page.
Definition committed_title : gmap string locatedAnnotation := {[title_id := title_line]}.

Lemma drawn_levels : levels_agree drawn_page.
Proof.
  intros a Ha. unfold drawn_page, page, page_of in Ha. cbn [items reindex] in Ha. rewrite !elem_of_cons, elem_of_nil in Ha.
  destruct Ha as [[= ->]|[[= ->]|[[= ->]|[[= ->]|[[= ->]|[]]]]]]; split; vm_compute; intros H; (reflexivity || discriminate H).
Qed.

Lemma committed_lines_keep_their_words_witness : exists p, index p = 2%nat /\
  belongs None (preserveCommittedLineOwnershipOrder drawn_page committed_title) p title_id.
Proof.
  destruct (item_word 2 (JObject (loose "a" "12,12,20,16" "One"))) as [[c w]|] eqn:E; [|vm_compute in E; discriminate E].
  exists (positioned w). assert (Hw : index (positioned w) = 2%nat /\ c = canvas /\ centerX w = 22 /\ centerY w = 20).
  { vm_compute in E. injection E as <- <-. repeat split. }
  destruct Hw as (Hi & -> & Hx & Hy). split; [exact Hi|].
  eapply (committed_lines_keep_their_words committed_title drawn_page drawn_levels); [|exact E|].
  - reflexivity.
  - rewrite Hx, Hy. vm_compute. reflexivity.
Defined.

(** ** A page that was not edited *)

Definition all_in_order : RangeIDs := fun _ ids => elements ids.

Lemma page_settled : settled_page (items page) (identity page) "https://example.org/item-image-1/canvas/page-1/annotations".
Proof.
  assert (Hitems : forall a, JObject a ∈ items page -> a = title \/ a = loose "a" "12,12,20,16" "One" \/
    a = loose "x" "10,60,30,20" "loose" \/ a = loose "y" "50,60,30,20" "ends").
  { intros a Ha. unfold page, page_of in Ha. cbn [items reindex] in Ha. rewrite !elem_of_cons, elem_of_nil in Ha. naive_solver. }
  split.
  - vm_compute. reflexivity.
  - vm_compute. discriminate.
  - vm_compute. reflexivity.
  - vm_compute. reflexivity.
  - apply NoDup_unique_ids, (bool_decide_unpack _). vm_compute. exact I.
  - intros a [-> |[-> |[-> | ->]]]%Hitems; vm_compute; reflexivity.
  - intros a [-> |[-> |[-> | ->]]]%Hitems; split; vm_compute; intros H; (reflexivity || discriminate H).
  - intros a k [-> |[-> |[-> | ->]]]%Hitems Hs Hk; try (vm_compute in Hs; discriminate Hs).
    change (length (Fields (extractAnnotationText title))) with 3%nat in Hk.
    destruct k as [|[|[|k]]]; [vm_compute; reflexivity..|lia].
Qed.

Lemma unedited_save_changes_nothing_witness :
  reconcileEditedLineWords (H5 := all_in_order) (items page) (items page) (identity page) 4 = Ok (items page).
Proof.
  apply (unedited_save_changes_nothing (RI := all_in_order) (items page) (identity page)
    "https://example.org/item-image-1/canvas/page-1/annotations").
  - apply page_settled.
  - intros n ids id. unfold range_ids, all_in_order. apply elem_of_elements.
Defined.

End EditExamples.
