(* ===== verification/SafeFailures.v ===== *)
(** * [internal/store/safe_failures.go]: the durable-failure sanitizer

    Failures from outside the trust boundary are stored only as a fixed category
    message, or as a bounded HTTP status for webhooks. *)

From Stdlib Require Import ZArith Lia Ascii String.
From stdpp Require Import base gmap strings list.
From S2P Require Import Prelude GoStrings.

Module SafeFailures.
Import GoStr.
#[local] Open Scope string_scope.

Definition maxDurableFailureMessageBytes : Z := 128.

Inductive durableFailureOperation :=
| durableFailureExternalRequest
| durableFailureResourceCleanup
| durableFailureAnnotationMirror
| durableFailureWebhook.

Inductive durableFailureCategory :=
| durableFailureGeneric
| durableFailureInterrupted
| durableFailureAuthorization
| durableFailureLimit
| durableFailureValidation
| durableFailureDependency.

#[export] Instance operation_eq_dec : EqDecision durableFailureOperation.
Proof. solve_decision. Defined.

Definition durableFailureCategoryMessage (operation : durableFailureOperation)
    (category : durableFailureCategory) : string :=
  match operation with
  | durableFailureExternalRequest =>
      match category with
      | durableFailureInterrupted => "external request was interrupted"
      | durableFailureAuthorization => "external provider authentication failed"
      | durableFailureLimit => "external request exceeded a configured limit"
      | durableFailureValidation => "external request validation failed"
      | durableFailureDependency => "external provider request failed"
      | _ => "external request failed"
      end
  | durableFailureResourceCleanup =>
      match category with
      | durableFailureInterrupted => "resource cleanup was interrupted"
      | durableFailureAuthorization => "resource cleanup authorization failed"
      | durableFailureLimit => "resource cleanup was rate limited"
      | durableFailureValidation => "resource cleanup request was rejected"
      | durableFailureDependency => "resource cleanup dependency failed"
      | _ => "resource cleanup failed"
      end
  | durableFailureAnnotationMirror =>
      match category with
      | durableFailureInterrupted => "annotation mirror delivery was interrupted"
      | durableFailureAuthorization => "annotation mirror authorization failed"
      | durableFailureLimit => "annotation mirror delivery was rate limited"
      | durableFailureValidation => "annotation mirror payload was rejected"
      | _ => "annotation mirror delivery failed"
      end
  | durableFailureWebhook =>
      match category with
      | durableFailureInterrupted => "webhook request timed out"
      | durableFailureAuthorization => "webhook request authorization failed"
      | durableFailureLimit => "webhook request was rate limited"
      | durableFailureValidation => "webhook request was rejected"
      | _ => "webhook request failed"
      end
  end.

Definition boundedHTTPStatus (message : string) : option Z :=
  match Fields message with
  | [word; code] =>
      if negb (bool_decide (word = "status")) || negb (len code =? 3)%Z then None else
      match Atoi code with
      | Some status => if (status <? 100)%Z || (599 <? status)%Z then None else Some status
      | None => None
      end
  | _ => None
  end.

(** The first case whose words occur in the message. *)
Definition mentions (normalized : string) (words : list string) : bool := existsb (Contains normalized) words.

Definition failure_category (normalized : string) : durableFailureCategory :=
  if mentions normalized ["context canceled"; "deadline exceeded"; "timed out"; "timeout"; "worker shutting down"]
  then durableFailureInterrupted
  else if mentions normalized ["unauthorized"; "forbidden"; "authentication"; "credential"; "permission denied"]
  then durableFailureAuthorization
  else if mentions normalized ["quota"; "rate limit"; "resource exhausted"; "too large"; "maximum"; "configured limit"]
  then durableFailureLimit
  else if mentions normalized ["invalid"; "malformed"; "unsupported"; "validation"; "rejected"]
  then durableFailureValidation
  else if mentions normalized ["provider"; "upstream"; "http"; "network"; "connection"; "unavailable"; "dial"]
  then durableFailureDependency
  else durableFailureGeneric.

Definition safeDurableFailureMessage (operation : durableFailureOperation) (message : string) : string :=
  let normalized := ToLower (TrimSpace message) in
  let sanitized :=
    let result := durableFailureCategoryMessage operation (failure_category normalized) in
    if (len result >? maxDurableFailureMessageBytes)%Z
    then durableFailureCategoryMessage operation durableFailureGeneric else result in
  if bool_decide (operation = durableFailureWebhook) then
    match boundedHTTPStatus normalized with
    | Some status => "status " ++ itoa status
    | None => sanitized
    end
  else sanitized.

Definition safeExternalRequestErrorMessage (message : string) : string :=
  safeDurableFailureMessage durableFailureExternalRequest message.

(** ** The messages are closed *)

Definition categories : list durableFailureCategory :=
  [durableFailureGeneric; durableFailureInterrupted; durableFailureAuthorization; durableFailureLimit;
   durableFailureValidation; durableFailureDependency].
Definition category_messages (operation : durableFailureOperation) : list string :=
  durableFailureCategoryMessage operation <$> categories.

Lemma category_known c : c ∈ categories.
Proof. destruct c; unfold categories; set_solver. Qed.

Lemma boundedHTTPStatus_range m s : boundedHTTPStatus m = Some s -> (100 <= s <= 599)%Z.
Proof.
  unfold boundedHTTPStatus. destruct (Fields m) as [|w [|c [|]]]; try done.
  destruct (_ || _); [done|]. destruct (Atoi c) as [v|]; [|done]. destruct (_ || _) eqn:E; [done|].
  intros [= <-]. split_bools. lia.
Qed.

Lemma sanitized_message operation normalized :
  (if (len (durableFailureCategoryMessage operation (failure_category normalized)) >? maxDurableFailureMessageBytes)%Z
   then durableFailureCategoryMessage operation durableFailureGeneric
   else durableFailureCategoryMessage operation (failure_category normalized)) ∈ category_messages operation.
Proof. destruct (_ >? _)%Z; apply list_elem_of_fmap; eexists; (split; [done|apply category_known]). Qed.

(** What the sanitizer stores is a fixed category of its operation, or for a
    webhook a status code of three digits between 100 and 599, whatever the input
    was; no byte of the message reaches the database. *)
Theorem durable_failure_is_a_category operation message :
  let stored := safeDurableFailureMessage operation message in
  (stored ∈ category_messages operation) \/
  (operation = durableFailureWebhook /\ exists status, (100 <= status <= 599)%Z /\ stored = "status " ++ itoa status).
Proof.
  cbv zeta. unfold safeDurableFailureMessage. cbv zeta.
  destruct (decide (operation = durableFailureWebhook)) as [-> |Hne].
  - rewrite bool_decide_eq_true_2 by done.
    destruct (boundedHTTPStatus _) as [s|] eqn:E; [|left; apply sanitized_message].
    right. split; [done|]. exists s. split; [by eapply boundedHTTPStatus_range|done].
  - rewrite bool_decide_eq_false_2 by done. left. apply sanitized_message.
Qed.

End SafeFailures.
