(* ===== verification/Quota.v ===== *)
(** * [internal/uploadref] and the arithmetic of the storage quota

    Modules [UploadRef]: url.go, with the functions of Go's [path] package it calls; [Quota]: amounts, limits and
    checks of internal/store/storage_quota.go. *)

From Stdlib Require Import ZArith NArith Lia Ascii String.
From stdpp Require Import base strings list gmap.
From S2P Require Import Prelude GoStrings MediaFragment.

Module UploadRef.
Import GoStr MediaFragment.

(** ** [path.Clean], [path.Dir], [path.Base] *)

(** One element of a path: [.] is dropped, [..] drops the last element kept, or is
    kept itself when there is none and the path is not rooted. *)
Definition clean_step (rooted : bool) (kept : list string) (x : string) : list string :=
  if bool_decide (x = ""%string) || bool_decide (x = "."%string) then kept else
  if bool_decide (x = ".."%string) then
    match kept with
    | [] => if rooted then [] else [x]
    | y :: ys => if bool_decide (y = ".."%string) then x :: kept else ys
    end
  else x :: kept.

Definition path_Clean (p : string) : string :=
  let rooted := HasPrefix p "/" in
  let body := Join (reverse (foldl (clean_step rooted) [] (Split p "/"%char))) "/" in
  if rooted then ("/" ++ body)%string else if bool_decide (body = ""%string) then "."%string else body.

(** [path.Split] cuts after the last slash. *)
Definition path_Dir (p : string) : string :=
  path_Clean match CutLast p "/" with Some (dir, _) => (dir ++ "/")%string | None => ""%string end.

Definition path_Base (p : string) : string :=
  if bool_decide (p = ""%string) then "."%string else
  let p := TrimRight p "/"%char in
  let p := match CutLast p "/" with Some (_, name) => name | None => p end in
  if bool_decide (p = ""%string) then "/"%string else p.

(** ** Upload references *)

(** A URL with an opaque part has a scheme. *)
Definition NameFromURL `{UrlParser} (raw : string) : option string :=
  match url_Parse (TrimSpace raw) with
  | None => None
  | Some parsed =>
      if negb (bool_decide (Scheme parsed = ""%string)) || negb (bool_decide (Host parsed = ""%string))
         || HasUser parsed || negb (bool_decide (RawQuery parsed = ""%string))
         || negb (bool_decide (Fragment parsed = ""%string)) then None else
      let cleanPath := path_Clean (Path parsed) in
      if negb (bool_decide (cleanPath = Path parsed))
         || negb (bool_decide (path_Dir cleanPath = "/static/uploads"%string)) then None else
      let name := path_Base cleanPath in
      if bool_decide (name = "."%string) || bool_decide (name = ""%string)
         || negb (bool_decide (path_Base name = name))
         || Contains name "/" || Contains name "\" then None
      else Some name
  end.

(** [immutableUploadNamePattern]: the classes of characters before the extension. *)
Definition hex_char (c : ascii) : bool := byte_in c 48 57 || byte_in c 97 102.
Definition one_char (x c : ascii) : bool := bool_decide (x = c).
Definition immutable_classes : list (ascii -> bool) :=
  replicate 64 hex_char ++ [one_char "-"] ++ replicate 8 hex_char ++ [one_char "-"]
  ++ replicate 4 hex_char ++ [one_char "-"] ++ [fun c => byte_in c 49 53] ++ replicate 3 hex_char
  ++ [one_char "-"] ++ [fun c => byte_in c 56 57 || byte_in c 97 98] ++ replicate 3 hex_char
  ++ [one_char "-"] ++ replicate 12 hex_char ++ [one_char "."].

Fixpoint match_classes (classes : list (ascii -> bool)) (s : string) : option string :=
  match classes, s with
  | [], _ => Some s
  | f :: fs, String c r => if f c then match_classes fs r else None
  | _ :: _, EmptyString => None
  end.

Definition image_extensions : list string := ["gif"; "jp2"; "jpg"; "png"; "tiff"; "webp"]%string.

Definition IsImmutableName (name : string) : bool :=
  match match_classes immutable_classes (TrimSpace name) with
  | Some ext => bool_decide (ext ∈ image_extensions)
  | None => false
  end.

Definition ImmutableNameFromURL `{UrlParser} (raw : string) : option string :=
  match NameFromURL raw with
  | Some name => if IsImmutableName name then Some name else None
  | None => None
  end.

Definition upload_url (resourceKey : string) : string := ("/static/uploads/" ++ resourceKey)%string.

Example immutable_name_example :
  IsImmutableName "0123456789abcdef0123456789abcdef0123456789abcdef0123456789abcdef-01234567-89ab-4def-8123-456789abcdef.jpg" = true.
Proof. reflexivity. Qed.
Example clean_example : path_Clean "/static/./uploads//a/../b" = "/static/uploads/b"%string.
Proof. reflexivity. Qed.
Example dir_example : path_Dir "/static/uploads/b" = "/static/uploads"%string /\ path_Base "/static/uploads/b" = "b"%string.
Proof. split; reflexivity. Qed.
End UploadRef.

(** * Storage quota: accounts and their arithmetic

    The types and the pure checks of internal/store/storage_quota.go.  Counters are
    [uint64]: a Go subtraction wraps, an addition is checked by [addUint64]. *)

Module Quota.
#[local] Open Scope Z_scope.

Definition MaxUint32 : Z := 2 ^ 32 - 1.
(** A [uint64] subtraction and the conversion to [uint32]. *)
Definition usub (a b : Z) : Z := (a - b) mod 2 ^ 64.
Definition wrap32u (a : Z) : Z := a mod 2 ^ 32.

(** ** Types *)

Record StorageQuotaLimits := {
  MaxBytesPerWorkspace : Z; MaxBytesTotal : Z;
  MaxItemsPerWorkspace : Z; MaxItemsTotal : Z;
  MaxImagesPerWorkspace : Z; MaxImagesTotal : Z;
  ReservationTTL : Z;
}.

Record StorageQuotaRequest := { Bytes : Z; DurableBytes : Z; Items : Z; Images : Z }.
#[export] Instance request_eq_dec : EqDecision StorageQuotaRequest.
Proof. solve_decision. Defined.

(** The zero value [StorageQuotaRequest{}]. *)
Definition no_request : StorageQuotaRequest := {| Bytes := 0; DurableBytes := 0; Items := 0; Images := 0 |}.
Definition with_Bytes (n : Z) (r : StorageQuotaRequest) : StorageQuotaRequest :=
  {| Bytes := n; DurableBytes := DurableBytes r; Items := Items r; Images := Images r |}.

Record StorageQuotaReservation := {
  R_ID : string; R_WorkspaceID : Z; R_Request : StorageQuotaRequest; R_ExpiresAt : Z;
}.

Record StorageQuotaUsage := {
  UploadBlobBytes : Z; DatabaseBytes : Z; U_Items : Z; U_Images : Z;
  ReservedUploadBlobBytes : Z; ReservedDatabaseBytes : Z; ReservedItems : Z; ReservedImages : Z;
}.
#[export] Instance usage_eq_dec : EqDecision StorageQuotaUsage.
Proof. solve_decision. Defined.

(** The column defaults of a new row. *)
Definition no_usage : StorageQuotaUsage :=
  {| UploadBlobBytes := 0; DatabaseBytes := 0; U_Items := 0; U_Images := 0;
     ReservedUploadBlobBytes := 0; ReservedDatabaseBytes := 0; ReservedItems := 0; ReservedImages := 0 |}.

Inductive quota_err :=
| EUnconfigured          (* a required argument or collaborator is missing *)
| ELimits | ERange | ERequestOverflow
| EExceeded (what : string)   (* ErrStorageQuotaExceeded *)
| EInconsistent | EAccounting (what : string)
| ENoRows                (* sql.ErrNoRows, from a query or requireOneAffected *)
| EUsageRows             (* the number of usage rows changed is not two *)
| EOutOfRange            (* a statement's value does not fit its column *)
| EDuplicate             (* a primary key is taken *)
| ERetired               (* ErrUploadBlobRetired *)
| EOtherWorkspace | EBound | EURL | ECover
| EScan                  (* a column does not fit the int64 it is scanned into *)
| EOwner                 (* an owner without a quota row *)
| ECleanupLease.         (* ErrResourceCleanupLease *)
#[export] Instance quota_err_eq_dec : EqDecision quota_err.
Proof. solve_decision. Defined.

(** ** Checked arithmetic *)

Definition addUint64 (left right : Z) : option Z :=
  if right >? usub MaxUint64 left then None else Some (left + right).

Definition exceedsStorageLimit (used reserved requested limit : Z) : bool :=
  if (used >? limit) || (reserved >? usub limit used) then true
  else requested >? usub (usub limit used) reserved.

Definition usedBytes (u : StorageQuotaUsage) : option Z := addUint64 (UploadBlobBytes u) (DatabaseBytes u).
Definition reservedBytes (u : StorageQuotaUsage) : option Z :=
  addUint64 (ReservedUploadBlobBytes u) (ReservedDatabaseBytes u).

(** ** Validation *)

Definition validateStorageQuotaLimits (l : StorageQuotaLimits) : result quota_err unit :=
  guard_ok (negb ((MaxBytesPerWorkspace l =? 0) || (MaxBytesTotal l <? MaxBytesPerWorkspace l)
    || (MaxItemsPerWorkspace l =? 0) || (MaxItemsTotal l <? MaxItemsPerWorkspace l)
    || (MaxImagesPerWorkspace l =? 0) || (MaxImagesTotal l <? MaxImagesPerWorkspace l)
    || (ReservationTTL l <=? 0))) ELimits.

Definition validateStorageQuotaRequest (r : StorageQuotaRequest) : result quota_err unit :=
  if (Items r >? MaxUint32) || (Images r >? MaxUint32) then Err ERange else
  match addUint64 (Bytes r) (DurableBytes r) with
  | None => Err ERequestOverflow
  | Some _ => Ok tt
  end.

Definition storageQuotaRequestEmpty (r : StorageQuotaRequest) : bool :=
  (Bytes r =? 0) && (DurableBytes r =? 0) && (Items r =? 0) && (Images r =? 0).

Definition unboundedStorageQuotaLimits : StorageQuotaLimits :=
  {| MaxBytesPerWorkspace := MaxUint64; MaxBytesTotal := MaxUint64;
     MaxItemsPerWorkspace := MaxUint64; MaxItemsTotal := MaxUint64;
     MaxImagesPerWorkspace := MaxUint64; MaxImagesTotal := MaxUint64; ReservationTTL := 3600 |}.

(** ** Admission *)

Record limit_check := { c_name : string; c_used : Z; c_reserved : Z; c_requested : Z; c_limit : Z }.

Definition over_limit (c : limit_check) : bool :=
  exceedsStorageLimit (c_used c) (c_reserved c) (c_requested c) (c_limit c).

Definition limit_checks (workspaceUsed workspaceReserved globalUsed globalReserved requestedBytes : Z)
    (global workspace : StorageQuotaUsage) (request : StorageQuotaRequest) (limits : StorageQuotaLimits)
    : list limit_check :=
  [ {| c_name := "workspace bytes"; c_used := workspaceUsed; c_reserved := workspaceReserved;
       c_requested := requestedBytes; c_limit := MaxBytesPerWorkspace limits |};
    {| c_name := "global bytes"; c_used := globalUsed; c_reserved := globalReserved;
       c_requested := requestedBytes; c_limit := MaxBytesTotal limits |};
    {| c_name := "workspace items"; c_used := U_Items workspace; c_reserved := ReservedItems workspace;
       c_requested := Items request; c_limit := MaxItemsPerWorkspace limits |};
    {| c_name := "global items"; c_used := U_Items global; c_reserved := ReservedItems global;
       c_requested := Items request; c_limit := MaxItemsTotal limits |};
    {| c_name := "workspace images"; c_used := U_Images workspace; c_reserved := ReservedImages workspace;
       c_requested := Images request; c_limit := MaxImagesPerWorkspace limits |};
    {| c_name := "global images"; c_used := U_Images global; c_reserved := ReservedImages global;
       c_requested := Images request; c_limit := MaxImagesTotal limits |} ].

(** The loop over the checks: the first that fails is the error. *)
Fixpoint first_exceeded (checks : list limit_check) : result quota_err unit :=
  match checks with
  | [] => Ok tt
  | c :: cs => if over_limit c then Err (EExceeded (c_name c)) else first_exceeded cs
  end.

Definition checkStorageQuotaCounters (global workspace : StorageQuotaUsage) (request : StorageQuotaRequest)
    (limits : StorageQuotaLimits) : result quota_err unit :=
  workspaceUsed ← of_option (EExceeded "workspace byte accounting overflow") (usedBytes workspace);
  workspaceReserved ← of_option (EExceeded "workspace reserved byte accounting overflow") (reservedBytes workspace);
  globalUsed ← of_option (EExceeded "global byte accounting overflow") (usedBytes global);
  globalReserved ← of_option (EExceeded "global reserved byte accounting overflow") (reservedBytes global);
  requestedBytes ← of_option (EExceeded "requested byte accounting overflow")
                     (addUint64 (Bytes request) (DurableBytes request));
  first_exceeded (limit_checks workspaceUsed workspaceReserved globalUsed globalReserved requestedBytes
                    global workspace request limits).

(** The closure [adjust]: the usage once [current] is gone and [usedAddition] used. *)
Definition adjust (current usedAddition : StorageQuotaRequest) (usage : StorageQuotaUsage)
    : result quota_err StorageQuotaUsage :=
  if (ReservedUploadBlobBytes usage <? Bytes current) || (ReservedDatabaseBytes usage <? DurableBytes current)
     || (ReservedItems usage <? Items current) || (ReservedImages usage <? Images current)
  then Err EInconsistent else
  upload ← of_option (EAccounting "upload") (addUint64 (UploadBlobBytes usage) (Bytes usedAddition));
  database ← of_option (EAccounting "database") (addUint64 (DatabaseBytes usage) (DurableBytes usedAddition));
  items ← of_option (EAccounting "item") (addUint64 (U_Items usage) (Items usedAddition));
  images ← of_option (EAccounting "image") (addUint64 (U_Images usage) (Images usedAddition));
  Ok {| UploadBlobBytes := upload; DatabaseBytes := database; U_Items := items; U_Images := images;
        ReservedUploadBlobBytes := usub (ReservedUploadBlobBytes usage) (Bytes current);
        ReservedDatabaseBytes := usub (ReservedDatabaseBytes usage) (DurableBytes current);
        ReservedItems := usub (ReservedItems usage) (Items current);
        ReservedImages := usub (ReservedImages usage) (Images current) |}.

Definition checkStorageQuotaReplacement (global workspace : StorageQuotaUsage)
    (current replacement usedAddition : StorageQuotaRequest) (limits : StorageQuotaLimits) : result quota_err unit :=
  globalAdjusted ← adjust current usedAddition global;
  workspaceAdjusted ← adjust current usedAddition workspace;
  checkStorageQuotaCounters globalAdjusted workspaceAdjusted replacement limits.

(** ** Accounts as amounts

    The four used and the four reserved counters of a row, added and compared
    componentwise. *)

Definition amount_add (a b : StorageQuotaRequest) : StorageQuotaRequest :=
  {| Bytes := Bytes a + Bytes b; DurableBytes := DurableBytes a + DurableBytes b;
     Items := Items a + Items b; Images := Images a + Images b |}.
Definition amount_sub (a b : StorageQuotaRequest) : StorageQuotaRequest :=
  {| Bytes := Bytes a - Bytes b; DurableBytes := DurableBytes a - DurableBytes b;
     Items := Items a - Items b; Images := Images a - Images b |}.
Definition amount_le (a b : StorageQuotaRequest) : Prop :=
  Bytes a <= Bytes b /\ DurableBytes a <= DurableBytes b /\ Items a <= Items b /\ Images a <= Images b.
Definition in_range (m : Z) (a : StorageQuotaRequest) : Prop :=
  (0 <= Bytes a <= m) /\ (0 <= DurableBytes a <= m) /\ (0 <= Items a <= m) /\ (0 <= Images a <= m).

Definition used (u : StorageQuotaUsage) : StorageQuotaRequest :=
  {| Bytes := UploadBlobBytes u; DurableBytes := DatabaseBytes u; Items := U_Items u; Images := U_Images u |}.
Definition reserved (u : StorageQuotaUsage) : StorageQuotaRequest :=
  {| Bytes := ReservedUploadBlobBytes u; DurableBytes := ReservedDatabaseBytes u;
     Items := ReservedItems u; Images := ReservedImages u |}.
Definition account (a b : StorageQuotaRequest) : StorageQuotaUsage :=
  {| UploadBlobBytes := Bytes a; DatabaseBytes := DurableBytes a; U_Items := Items a; U_Images := Images a;
     ReservedUploadBlobBytes := Bytes b; ReservedDatabaseBytes := DurableBytes b;
     ReservedItems := Items b; ReservedImages := Images b |}.
Definition usage_add (u v : StorageQuotaUsage) : StorageQuotaUsage :=
  account (amount_add (used u) (used v)) (amount_add (reserved u) (reserved v)).
Definition usage_in_range (u : StorageQuotaUsage) : Prop :=
  in_range MaxUint64 (used u) /\ in_range MaxUint64 (reserved u).

(** What the configuration allows a workspace and all of them to hold, used and
    reserved together. *)
Definition fits (maxBytes maxItems maxImages : Z) (a : StorageQuotaRequest) : Prop :=
  Bytes a + DurableBytes a <= maxBytes /\ Items a <= maxItems /\ Images a <= maxImages.
Definition held (u : StorageQuotaUsage) : StorageQuotaRequest := amount_add (used u) (reserved u).
Definition within_limits (l : StorageQuotaLimits) (global workspace : StorageQuotaRequest) : Prop :=
  fits (MaxBytesPerWorkspace l) (MaxItemsPerWorkspace l) (MaxImagesPerWorkspace l) workspace /\
  fits (MaxBytesTotal l) (MaxItemsTotal l) (MaxImagesTotal l) global.
End Quota.
