(* ===== verification/QuotaStore.v ===== *)
(** * Storage quota: tables and statements

    The tables storage_quota_usage, workspace_storage_reservations and
    resource_cleanup_outbox, what the quota queries read of the other tables, and the
    statements of internal/db/storage_quota.sql.go and resource_cleanup_outbox.sql.go.
    A statement that changes rows returns the number it changed, as MySQL reports it. *)

From Stdlib Require Import ZArith Lia Ascii String.
From stdpp Require Import base gmap strings list sorting.
From S2P Require Import Prelude GoStrings JobSchema JobStore MediaFragment Quota.

Module QuotaStore.
Import GoStr JobStore MediaFragment UploadRef Quota.
#[local] Open Scope Z_scope.

(** ** Tables *)

Record reservation_row := {
  v_workspace_id : Z;
  v_reserved_bytes : Z; v_reserved_database_bytes : Z; v_reserved_items : Z; v_reserved_images : Z;
  v_resource_key : option string; v_expires_at : Z;
}.
#[export] Instance reservation_row_eq_dec : EqDecision reservation_row.
Proof. solve_decision. Defined.

Inductive cleanup_kind := UploadBlob | TripletPresentationImage | TripletPresentationItem.
#[export] Instance cleanup_kind_eq_dec : EqDecision cleanup_kind.
Proof. solve_decision. Defined.
#[export] Instance cleanup_kind_countable : Countable cleanup_kind.
Proof.
  refine (inj_countable' (fun k => match k with UploadBlob => 0 | TripletPresentationImage => 1
                                   | TripletPresentationItem => 2 end)
    (fun n : Z => match n with 0 => UploadBlob | 1 => TripletPresentationImage | _ => TripletPresentationItem end) _).
  by intros [].
Defined.

Inductive cleanup_status := CPending | CProcessing | CFailed.
#[export] Instance cleanup_status_eq_dec : EqDecision cleanup_status.
Proof. solve_decision. Defined.

(** A row of resource_cleanup_outbox but for its unique key, the kind and the resource. *)
Record cleanup_row := {
  d_id : Z; d_workspace_id : Z; d_storage_bytes : Z; d_generation : Z; d_delete_fenced_at : option Z;
  d_status : cleanup_status; d_attempt_count : Z; d_max_attempts : Z; d_next_attempt_at : Z;
  d_lease_until : option Z; d_locked_by : option string; d_last_error : option string; d_updated_at : Z;
}.
#[export] Instance cleanup_row_eq_dec : EqDecision cleanup_row.
Proof. solve_decision. Defined.

(** The workspace of an image is that of its item. *)
Record image_row := { i_workspace_id : Z; i_image_url : string; i_storage_bytes : Z }.

Record qdb := {
  usages : gmap Z StorageQuotaUsage;
  reservations : gmap string reservation_row;
  cleanups : gmap (cleanup_kind * string) cleanup_row;
  next_cleanup_id : Z;
  workspaces : gset Z;
  item_rows : list Z;          (* the workspace of every item *)
  image_rows : list image_row; (* item_images *)
  payload_rows : list (Z * Z); (* the workspace and length of every payload column that is accounted *)
}.
Abbreviation qtx := (tx qdb quota_err).

Definition set_usages (x : gmap Z StorageQuotaUsage) (s : qdb) : qdb :=
  {| usages := x; reservations := reservations s; cleanups := cleanups s; next_cleanup_id := next_cleanup_id s;
     workspaces := workspaces s; item_rows := item_rows s; image_rows := image_rows s; payload_rows := payload_rows s |}.
Definition set_reservations (x : gmap string reservation_row) (s : qdb) : qdb :=
  {| usages := usages s; reservations := x; cleanups := cleanups s; next_cleanup_id := next_cleanup_id s;
     workspaces := workspaces s; item_rows := item_rows s; image_rows := image_rows s; payload_rows := payload_rows s |}.
Definition set_cleanups (x : gmap (cleanup_kind * string) cleanup_row) (n : Z) (s : qdb) : qdb :=
  {| usages := usages s; reservations := reservations s; cleanups := x; next_cleanup_id := n;
     workspaces := workspaces s; item_rows := item_rows s; image_rows := image_rows s; payload_rows := payload_rows s |}.

(** The checks of [RowsAffected]. *)
Definition requireOneAffected (m : qtx Z) : qtx unit :=
  n ← m; if n =? 1 then mret tt else tx_fail ENoRows.
Definition requireQuotaUsageRows (m : qtx Z) : qtx unit :=
  n ← m; if n =? 2 then mret tt else tx_fail EUsageRows.
Definition requireCleanupAffected (m : qtx Z) : qtx unit :=
  n ← m; if n =? 1 then mret tt else tx_fail ECleanupLease.

(** A row that must be there. *)
Definition one_row {A} (f : qdb -> option A) : qtx A :=
  o ← tx_reads f; tx_lift (of_option ENoRows o).

(** ** storage_quota_usage *)

Definition LockStorageQuotaUsage (ws : Z) : qtx StorageQuotaUsage := one_row (fun s => usages s !! ws).

Definition EnsureStorageQuotaUsage (ws : Z) : qtx unit :=
  tx_modify (fun s => match usages s !! ws with
                      | Some _ => s
                      | None => set_usages (<[ws := no_usage]> (usages s)) s
                      end).

Definition column (v : Z) : bool := (0 <=? v) && (v <=? MaxUint64).
Definition columns (u : StorageQuotaUsage) : bool :=
  column (UploadBlobBytes u) && column (DatabaseBytes u) && column (U_Items u) && column (U_Images u)
  && column (ReservedUploadBlobBytes u) && column (ReservedDatabaseBytes u)
  && column (ReservedItems u) && column (ReservedImages u).

(** [UPDATE storage_quota_usage SET ... WHERE workspace_id IN (0, ?) AND ...]: a value
    outside its column is an error, and a row that keeps its values does not count. *)
Definition update_usages (ws : Z) (wh : StorageQuotaUsage -> bool) (set : StorageQuotaUsage -> StorageQuotaUsage)
    : qtx Z := fun s =>
  let rows := filter (fun kr => ((kr.1 =? 0) || (kr.1 =? ws)) && wh kr.2 = true) (usages s) in
  if bool_decide (map_Forall (fun _ r => columns (set r) = true) rows) then
    Ok (Z.of_nat (size (filter (fun kr => set kr.2 <> kr.2) rows)), set_usages ((set <$> rows) ∪ usages s) s)
  else Err EOutOfRange.

Definition add_reserved (r : StorageQuotaRequest) (u : StorageQuotaUsage) : StorageQuotaUsage :=
  account (used u) (amount_add (reserved u) r).
Definition add_used (r : StorageQuotaRequest) (u : StorageQuotaUsage) : StorageQuotaUsage :=
  account (amount_add (used u) r) (reserved u).
Definition sub_reserved (r : StorageQuotaRequest) (u : StorageQuotaUsage) : StorageQuotaUsage :=
  account (used u) (amount_sub (reserved u) r).
Definition sub_used (r : StorageQuotaRequest) (u : StorageQuotaUsage) : StorageQuotaUsage :=
  account (amount_sub (used u) r) (reserved u).
Definition covers (have need : StorageQuotaRequest) : bool :=
  (Bytes need <=? Bytes have) && (DurableBytes need <=? DurableBytes have)
  && (Items need <=? Items have) && (Images need <=? Images have).

Definition AddStorageQuotaReserved (ws : Z) (r : StorageQuotaRequest) : qtx unit :=
  _ ← update_usages ws (fun _ => true) (add_reserved r); mret tt.
Definition AddStorageQuotaUsed (ws : Z) (r : StorageQuotaRequest) : qtx unit :=
  _ ← update_usages ws (fun _ => true) (add_used r); mret tt.
Definition SubtractStorageQuotaReserved (ws : Z) (r : StorageQuotaRequest) : qtx Z :=
  update_usages ws (fun u => covers (reserved u) r) (sub_reserved r).
Definition SubtractStorageQuotaUsed (ws : Z) (r : StorageQuotaRequest) : qtx Z :=
  update_usages ws (fun u => covers (used u) r) (sub_used r).

(** ** workspace_storage_reservations *)

Definition InsertStorageQuotaReservation (id : string) (row : reservation_row) : qtx unit := fun s =>
  match reservations s !! id with
  | Some _ => Err EDuplicate
  | None => Ok (tt, set_reservations (<[id := row]> (reservations s)) s)
  end.

Definition reservation_of (id : string) (ws : Z) (s : qdb) : option reservation_row :=
  match reservations s !! id with
  | Some v => if v_workspace_id v =? ws then Some v else None
  | None => None
  end.
Definition LockStorageQuotaReservation (id : string) (ws : Z) : qtx reservation_row := one_row (reservation_of id ws).
Definition LockLiveStorageQuotaReservation (now : Z) (id : string) (ws : Z) : qtx reservation_row :=
  one_row (fun s => match reservation_of id ws s with
                    | Some v => if now <? v_expires_at v then Some v else None
                    | None => None
                    end).

Definition update_reservation (id : string) (ws : Z) (set : reservation_row -> reservation_row) : qtx Z := fun s =>
  match reservation_of id ws s with
  | Some v => if bool_decide (set v = v) then Ok (0, s)
              else Ok (1, set_reservations (<[id := set v]> (reservations s)) s)
  | None => Ok (0, s)
  end.
Definition UpdateStorageQuotaReservation (id : string) (row : reservation_row) : qtx Z :=
  update_reservation id (v_workspace_id row) (fun _ => row).
Definition bound_reservation (key : string) (v : reservation_row) : reservation_row :=
  {| v_workspace_id := v_workspace_id v; v_reserved_bytes := 0;
     v_reserved_database_bytes := v_reserved_database_bytes v; v_reserved_items := v_reserved_items v;
     v_reserved_images := v_reserved_images v; v_resource_key := Some key; v_expires_at := v_expires_at v |}.
Definition BindStorageQuotaReservationResource (id : string) (ws : Z) (key : string) : qtx Z :=
  update_reservation id ws (bound_reservation key).
Definition DeleteStorageQuotaReservation (id : string) (ws : Z) : qtx Z := fun s =>
  match reservation_of id ws s with
  | Some _ => Ok (1, set_reservations (delete id (reservations s)) s)
  | None => Ok (0, s)
  end.

Definition expired (now ws : Z) (v : reservation_row) : bool := (v_workspace_id v =? ws) && (v_expires_at v <=? now).

(** The first tenant row that no other transaction holds and that has an expired reservation. *)
Definition LockStorageQuotaSweepWorkspace (now : Z) (locked : gset Z) (s : qdb) : option Z :=
  head (merge_sort Z.le (filter (fun ws => ws <> 0 /\ (ws ∉ locked) /\
     Exists (fun kv => expired now ws kv.2 = true) (map_to_list (reservations s)))
    (elements (dom (usages s))))).

(** [ORDER BY expires_at, id LIMIT ?] *)
Definition expires_first (a b : string * reservation_row) : Prop :=
  v_expires_at a.2 < v_expires_at b.2 \/ (v_expires_at a.2 = v_expires_at b.2 /\ String.compare a.1 b.1 <> Gt).
#[export] Instance expires_first_dec a b : Decision (expires_first a b).
Proof. unfold expires_first. apply _. Defined.

Definition LockExpiredStorageQuotaReservations (now ws : Z) (limit : nat) (locked : gset string) (s : qdb)
    : list (string * reservation_row) :=
  take limit (merge_sort expires_first
    (filter (fun kv => (kv.1 ∉ locked) /\ expired now ws kv.2 = true) (map_to_list (reservations s)))).

(** ** resource_cleanup_outbox *)

Definition LockResourceCleanupByKindKey (kind : cleanup_kind) (key : string) (s : qdb) : option cleanup_row :=
  cleanups s !! (kind, key).

Definition DeleteResourceCleanupByKindKey (kind : cleanup_kind) (key : string) : qtx Z := fun s =>
  match cleanups s !! (kind, key) with
  | Some _ => Ok (1, set_cleanups (delete (kind, key) (cleanups s)) (next_cleanup_id s) s)
  | None => Ok (0, s)
  end.

Definition fresh_cleanup (id ws bytes next now : Z) : cleanup_row :=
  {| d_id := id; d_workspace_id := ws; d_storage_bytes := bytes; d_generation := 1; d_delete_fenced_at := None;
     d_status := CPending; d_attempt_count := 0; d_max_attempts := 20; d_next_attempt_at := next;
     d_lease_until := None; d_locked_by := None; d_last_error := None; d_updated_at := now |}.
Definition requeued_cleanup (ws bytes next now : Z) (d : cleanup_row) : cleanup_row :=
  {| d_id := d_id d; d_workspace_id := if ws >? 0 then ws else d_workspace_id d;
     d_storage_bytes := Z.max (d_storage_bytes d) bytes; d_generation := d_generation d + 1;
     d_delete_fenced_at := d_delete_fenced_at d; d_status := CPending; d_attempt_count := 0;
     d_max_attempts := d_max_attempts d; d_next_attempt_at := Z.max next (default now (d_lease_until d));
     d_lease_until := None; d_locked_by := None; d_last_error := None; d_updated_at := now |}.

Definition UpsertResourceCleanup (now : Z) (kind : cleanup_kind) (key : string) (ws bytes next : Z) : qtx unit :=
  tx_modify (fun s => set_cleanups (<[(kind, key) :=
    match cleanups s !! (kind, key) with
    | None => fresh_cleanup (next_cleanup_id s) ws bytes next now
    | Some d => requeued_cleanup ws bytes next now d
    end]> (cleanups s)) (next_cleanup_id s + 1) s).

Definition resized_cleanup (ws bytes next now : Z) (d : cleanup_row) : cleanup_row :=
  {| d_id := d_id d; d_workspace_id := ws; d_storage_bytes := Z.max (d_storage_bytes d) bytes;
     d_generation := d_generation d; d_delete_fenced_at := d_delete_fenced_at d; d_status := d_status d;
     d_attempt_count := d_attempt_count d; d_max_attempts := d_max_attempts d;
     d_next_attempt_at := Z.max (d_next_attempt_at d) next; d_lease_until := d_lease_until d;
     d_locked_by := d_locked_by d; d_last_error := d_last_error d; d_updated_at := now |}.
Definition ResizeStagedUploadCleanup (now ws bytes next : Z) (key : string) : qtx unit :=
  tx_modify (fun s => set_cleanups (alter (resized_cleanup ws bytes next now) (UploadBlob, key) (cleanups s))
                        (next_cleanup_id s) s).

(** ** item_images *)

Definition CountItemImagesByURL (url : string) (s : qdb) : Z :=
  Z.of_nat (length (filter (fun i => i_image_url i = url) (image_rows s))).

(** ** The rebuild queries *)

Definition LockAllTenantStorageQuotaUsage (s : qdb) : gset Z := filter (fun ws => 0 < ws) (dom (usages s)).

Definition upload_candidates (s : qdb) : list (Z * string * Z) :=
  omap (fun i => match strip_prefix "/static/uploads/" (i_image_url i) with
                 | Some key => Some (i_workspace_id i, key, i_storage_bytes i)
                 | None => None
                 end) (image_rows s) ++
  omap (fun kd : (cleanup_kind * string) * cleanup_row =>
          if bool_decide (kd.1.1 = UploadBlob) && (0 <? d_storage_bytes kd.2)
          then Some (d_workspace_id kd.2, kd.1.2, d_storage_bytes kd.2) else None)
       (map_to_list (cleanups s)).

(** [GROUP BY workspace_id, resource_key] with the largest size of a group. *)
Definition largest (c : list (Z * string * Z)) (ws : Z) (key : string) : Z :=
  foldr (fun x acc => if bool_decide (x.1 = (ws, key)) then Z.max x.2 acc else acc) 0 c.
Definition uploaded_bytes (s : qdb) (ws : Z) : Z :=
  let c := upload_candidates s in
  foldr Z.add 0 (largest c ws <$> remove_dups (omap (fun x => if x.1.1 =? ws then Some x.1.2 else None) c)).

Definition payload_bytes (s : qdb) (ws : Z) : Z :=
  foldr Z.add 0 (omap (fun p => if p.1 =? ws then Some p.2 else None) (payload_rows s)).

Definition storageQuotaRequestFromReservation (v : reservation_row) : StorageQuotaRequest :=
  {| Bytes := v_reserved_bytes v; DurableBytes := v_reserved_database_bytes v;
     Items := v_reserved_items v; Images := v_reserved_images v |}.
Definition reserved_by (s : qdb) (ws : Z) : StorageQuotaRequest :=
  map_fold (fun _ v acc => amount_add (if v_workspace_id v =? ws then storageQuotaRequestFromReservation v
                                       else no_request) acc)
    no_request (reservations s).

Definition measured (s : qdb) (ws : Z) : StorageQuotaUsage :=
  account {| Bytes := uploaded_bytes s ws; DurableBytes := payload_bytes s ws;
             Items := Z.of_nat (length (filter (fun w => w = ws) (item_rows s)));
             Images := Z.of_nat (length (filter (fun i => i_workspace_id i = ws) (image_rows s))) |}
    (reserved_by s ws).

(** The owners: workspaces, and those of reservations and of cleanup rows. *)
Definition owners (s : qdb) : gset Z :=
  workspaces s ∪ list_to_set ((fun kv => v_workspace_id kv.2) <$> map_to_list (reservations s))
  ∪ filter (fun ws => 0 < ws) (list_to_set ((fun kv => d_workspace_id kv.2) <$> map_to_list (cleanups s))).

Definition scans (u : StorageQuotaUsage) : bool :=
  (UploadBlobBytes u <=? MaxInt64) && (DatabaseBytes u <=? MaxInt64) && (U_Items u <=? MaxInt64)
  && (U_Images u <=? MaxInt64) && (ReservedUploadBlobBytes u <=? MaxInt64)
  && (ReservedDatabaseBytes u <=? MaxInt64) && (ReservedItems u <=? MaxInt64) && (ReservedImages u <=? MaxInt64).

Definition RebuildStorageQuotaUsageRows : qtx (list (Z * StorageQuotaUsage)) := fun s =>
  let rows := (fun ws => (ws, measured s ws)) <$> merge_sort Z.le (elements (owners s)) in
  if forallb (fun r => scans r.2) rows then Ok (rows, s) else Err EScan.

Definition ReplaceStorageQuotaUsage (ws : Z) (u : StorageQuotaUsage) : qtx unit :=
  tx_modify (fun s => set_usages (<[ws := u]> (usages s)) s).

Definition orphan (s : qdb) (ws : Z) (u : StorageQuotaUsage) : bool :=
  negb (ws =? 0) && bool_decide (u = no_usage) && bool_decide (ws ∉ owners s).
Definition DeleteOrphanStorageQuotaUsage : qtx unit :=
  tx_modify (fun s => set_usages (filter (fun kr => orphan s kr.1 kr.2 = false) (usages s)) s).
End QuotaStore.
