(* ===== verification/QuotaOps.v ===== *)
(** * Storage quota: the operations of internal/store/storage_quota.go

    Each method of [ItemStore] as a transaction over [qdb], and the two functions that
    turn a reservation into used capacity inside the transactions of other stores
    (internal/store/ingest.go and upload_batches.go). *)

From Stdlib Require Import ZArith Lia Ascii String.
From stdpp Require Import base gmap strings list sorting.
From S2P Require Import Prelude GoStrings JobSchema JobStore MediaFragment Quota QuotaStore.

Module QuotaOps.
Import GoStr JobStore MediaFragment UploadRef Quota QuotaStore.
#[local] Open Scope Z_scope.

(** ** Accounting *)

Definition lockWorkspaceStorageQuotaUsage (ws : Z) : qtx StorageQuotaUsage :=
  if ws =? 0 then tx_fail EUnconfigured else LockStorageQuotaUsage ws.

Definition lockStorageQuotaUsage (ws : Z) : qtx (StorageQuotaUsage * StorageQuotaUsage) :=
  if ws =? 0 then tx_fail EUnconfigured else
  workspace ← lockWorkspaceStorageQuotaUsage ws;
  global ← LockStorageQuotaUsage 0;
  mret (global, workspace).

Definition lockStorageQuotaGuards (ws : Z) : qtx unit :=
  if ws =? 0 then tx_fail EUnconfigured else
  _ ← lockWorkspaceStorageQuotaUsage ws; mret tt.

Definition addStorageQuotaUsed := AddStorageQuotaUsed.
Definition addStorageQuotaReserved := AddStorageQuotaReserved.
Definition subtractStorageQuotaUsed (ws : Z) (r : StorageQuotaRequest) : qtx unit :=
  if storageQuotaRequestEmpty r then mret tt else requireQuotaUsageRows (SubtractStorageQuotaUsed ws r).
Definition subtractStorageQuotaReserved (ws : Z) (r : StorageQuotaRequest) : qtx unit :=
  if storageQuotaRequestEmpty r then mret tt else requireQuotaUsageRows (SubtractStorageQuotaReserved ws r).

Definition replaceStorageQuotaReservationAccounting (ws : Z) (current replacement usedAddition : StorageQuotaRequest)
    : qtx unit :=
  _ ← subtractStorageQuotaReserved ws current;
  _ ← (if storageQuotaRequestEmpty replacement then mret tt else addStorageQuotaReserved ws replacement);
  if storageQuotaRequestEmpty usedAddition then mret tt else addStorageQuotaUsed ws usedAddition.

Definition storageReservationInsertParams (r : StorageQuotaReservation) (key : option string)
    : result quota_err reservation_row :=
  _ ← validateStorageQuotaRequest (R_Request r);
  Ok {| v_workspace_id := R_WorkspaceID r; v_reserved_bytes := Bytes (R_Request r);
        v_reserved_database_bytes := DurableBytes (R_Request r);
        v_reserved_items := wrap32u (Items (R_Request r)); v_reserved_images := wrap32u (Images (R_Request r));
        v_resource_key := key; v_expires_at := R_ExpiresAt r |}.

Definition storageReservationUpdateParams (ws expiresAt : Z) (accounted : StorageQuotaRequest) (key : option string)
    : result quota_err reservation_row :=
  _ ← validateStorageQuotaRequest accounted;
  Ok {| v_workspace_id := ws; v_reserved_bytes := Bytes accounted;
        v_reserved_database_bytes := DurableBytes accounted;
        v_reserved_items := wrap32u (Items accounted); v_reserved_images := wrap32u (Images accounted);
        v_resource_key := key; v_expires_at := expiresAt |}.

Definition applyStorageQuotaUsedDelta (ws before after : Z) : qtx unit :=
  if after >? before then addStorageQuotaUsed ws {| Bytes := 0; DurableBytes := usub after before; Items := 0; Images := 0 |} else
  if before >? after then subtractStorageQuotaUsed ws {| Bytes := 0; DurableBytes := usub before after; Items := 0; Images := 0 |}
  else mret tt.

Definition applyStorageQuotaUsedDeltaWithLimits (ws before after : Z) (limits : StorageQuotaLimits) : qtx unit :=
  _ ← (if after >? before then
         workspace ← LockStorageQuotaUsage ws;
         global ← LockStorageQuotaUsage 0;
         tx_lift (checkStorageQuotaCounters global workspace
           {| Bytes := 0; DurableBytes := usub after before; Items := 0; Images := 0 |} limits)
       else mret tt);
  applyStorageQuotaUsedDelta ws before after.

(** ** Reservations *)

Definition ReserveStorageQuota (e : env) (ws : Z) (request : StorageQuotaRequest) (limits : StorageQuotaLimits)
    : qtx StorageQuotaReservation :=
  if (ws =? 0) || storageQuotaRequestEmpty request then tx_fail EUnconfigured else
  _ ← tx_lift (validateStorageQuotaRequest request);
  _ ← tx_lift (validateStorageQuotaLimits limits);
  _ ← one_row (fun s => if bool_decide (ws ∈ workspaces s) then Some ws else None);
  '(global, workspace) ← lockStorageQuotaUsage ws;
  _ ← tx_lift (checkStorageQuotaCounters global workspace request limits);
  let reservation := {| R_ID := uuid e; R_WorkspaceID := ws; R_Request := request;
                        R_ExpiresAt := go_now e + ReservationTTL limits |} in
  params ← tx_lift (storageReservationInsertParams reservation None);
  _ ← InsertStorageQuotaReservation (uuid e) params;
  _ ← addStorageQuotaReserved ws request;
  mret reservation.

(** What a resize of a bound reservation adds to the used bytes: the staged object is
    already counted. *)
Definition staged_addition (ws : Z) (request : StorageQuotaRequest) (key : option string)
    : qtx (StorageQuotaRequest * StorageQuotaRequest) :=
  match key with
  | None => mret (request, no_request)
  | Some key =>
      cleanup ← one_row (LockResourceCleanupByKindKey UploadBlob key);
      if negb (d_workspace_id cleanup =? ws) then tx_fail EOtherWorkspace else
      if bool_decide (is_Some (d_delete_fenced_at cleanup)) then tx_fail ERetired else
      mret (with_Bytes 0 request,
            if Bytes request >? d_storage_bytes cleanup
            then with_Bytes (usub (Bytes request) (d_storage_bytes cleanup)) no_request else no_request)
  end.

Definition ResizeStorageQuotaReservation (e : env) (reservation : StorageQuotaReservation)
    (request : StorageQuotaRequest) (limits : StorageQuotaLimits) : qtx StorageQuotaReservation :=
  let ws := R_WorkspaceID reservation in
  if (ws =? 0) || bool_decide (R_ID reservation = ""%string) || storageQuotaRequestEmpty request
  then tx_fail EUnconfigured else
  _ ← tx_lift (validateStorageQuotaRequest request);
  _ ← tx_lift (validateStorageQuotaLimits limits);
  workspace ← lockWorkspaceStorageQuotaUsage ws;
  currentRow ← LockStorageQuotaReservation (R_ID reservation) ws;
  let current := storageQuotaRequestFromReservation currentRow in
  let resourceKey := v_resource_key currentRow in
  '(newReserved, usedAddition) ← staged_addition ws request resourceKey;
  global ← LockStorageQuotaUsage 0;
  _ ← tx_lift (checkStorageQuotaReplacement global workspace current newReserved usedAddition limits);
  _ ← match resourceKey with
      | Some key => ResizeStagedUploadCleanup (db_now e) ws (Bytes request) (go_now e + ReservationTTL limits) key
      | None => mret tt
      end;
  _ ← replaceStorageQuotaReservationAccounting ws current newReserved usedAddition;
  params ← tx_lift (storageReservationUpdateParams ws (go_now e + ReservationTTL limits) newReserved resourceKey);
  _ ← requireOneAffected (UpdateStorageQuotaReservation (R_ID reservation) params);
  mret {| R_ID := R_ID reservation; R_WorkspaceID := ws; R_Request := request;
          R_ExpiresAt := go_now e + ReservationTTL limits |}.

(** internal/store/resource_cleanup.go *)
Definition lockUploadCleanupForReference (ws : Z) (key : string) : qtx (option cleanup_row) :=
  cleanup ← tx_reads (LockResourceCleanupByKindKey UploadBlob key);
  match cleanup with
  | None => mret None
  | Some d =>
      if negb (d_workspace_id d =? ws) then tx_fail EOtherWorkspace else
      if bool_decide (is_Some (d_delete_fenced_at d)) then tx_fail ERetired else
      mret (Some d)
  end.

Definition StageStorageQuotaUpload `{UrlParser} (e : env) (reservation : StorageQuotaReservation)
    (imageURL : string) (storageBytes : Z) (limits : StorageQuotaLimits) : qtx unit :=
  let ws := R_WorkspaceID reservation in
  if (ws =? 0) || bool_decide (R_ID reservation = ""%string) || (storageBytes =? 0) then tx_fail EUnconfigured else
  _ ← tx_lift (validateStorageQuotaLimits limits);
  resourceKey ← tx_lift (of_option EURL (ImmutableNameFromURL imageURL));
  workspace ← lockWorkspaceStorageQuotaUsage ws;
  currentRow ← LockLiveStorageQuotaReservation (db_now e) (R_ID reservation) ws;
  if match v_resource_key currentRow with
     | Some k => negb (bool_decide (k = resourceKey)) | None => false end then tx_fail EBound else
  let current := storageQuotaRequestFromReservation currentRow in
  let newReserved := with_Bytes 0 current in
  existing ← lockUploadCleanupForReference ws resourceKey;
  let usedAddition := with_Bytes match existing with
    | Some d => if d_storage_bytes d >=? storageBytes then 0 else usub storageBytes (d_storage_bytes d)
    | None => storageBytes
    end no_request in
  global ← LockStorageQuotaUsage 0;
  _ ← tx_lift (checkStorageQuotaReplacement global workspace current newReserved usedAddition limits);
  _ ← UpsertResourceCleanup (db_now e) UploadBlob resourceKey ws storageBytes (v_expires_at currentRow);
  _ ← replaceStorageQuotaReservationAccounting ws current newReserved usedAddition;
  requireOneAffected (BindStorageQuotaReservationResource (R_ID reservation) ws resourceKey).

Definition ReleaseStorageQuotaReservation (reservation : StorageQuotaReservation) : qtx unit :=
  let ws := R_WorkspaceID reservation in
  if (ws =? 0) || bool_decide (R_ID reservation = ""%string) then mret tt else
  _ ← lockWorkspaceStorageQuotaUsage ws;
  row ← tx_reads (reservation_of (R_ID reservation) ws);
  match row with
  | None => mret tt
  | Some current =>
      retireStagedUpload ← match v_resource_key current with
        | Some key => references ← tx_reads (CountItemImagesByURL (upload_url key)); mret (0 <? references)
        | None => mret false
        end;
      _ ← LockStorageQuotaUsage 0;
      _ ← subtractStorageQuotaReserved ws (storageQuotaRequestFromReservation current);
      _ ← requireOneAffected (DeleteStorageQuotaReservation (R_ID reservation) ws);
      match v_resource_key current with
      | Some key => if retireStagedUpload : bool
                    then _ ← DeleteResourceCleanupByKindKey UploadBlob key; mret tt else mret tt
      | None => mret tt
      end
  end.

(** ** The sweep *)

Definition maxStorageQuotaReservationSweepBatch : Z := 500.

Definition add_reservation (total : StorageQuotaRequest) (v : reservation_row) : result quota_err StorageQuotaRequest :=
  b ← of_option (EAccounting "upload-byte total") (addUint64 (Bytes total) (v_reserved_bytes v));
  d ← of_option (EAccounting "database-byte total") (addUint64 (DurableBytes total) (v_reserved_database_bytes v));
  i ← of_option (EAccounting "item total") (addUint64 (Items total) (v_reserved_items v));
  m ← of_option (EAccounting "image total") (addUint64 (Images total) (v_reserved_images v));
  Ok {| Bytes := b; DurableBytes := d; Items := i; Images := m |}.

Fixpoint sweep_total (total : StorageQuotaRequest) (rows : list (string * reservation_row))
    : result quota_err StorageQuotaRequest :=
  match rows with
  | [] => Ok total
  | r :: rs => total ← add_reservation total r.2; sweep_total total rs
  end.

Fixpoint delete_reservations (ws : Z) (rows : list (string * reservation_row)) : qtx unit :=
  match rows with
  | [] => mret tt
  | r :: rs => _ ← requireOneAffected (DeleteStorageQuotaReservation r.1 ws); delete_reservations ws rs
  end.

(** [locked] are the reservations other transactions hold. *)
Definition SweepExpiredStorageQuotaReservations (e : env) (locked : gset string) (batchSize : Z) : qtx Z :=
  if (batchSize <=? 0) || (batchSize >? maxStorageQuotaReservationSweepBatch) then tx_fail EUnconfigured else
  candidate ← tx_reads (LockStorageQuotaSweepWorkspace (go_now e) (locked_rows e));
  match candidate with
  | None => mret 0
  | Some ws =>
      rows ← tx_reads (LockExpiredStorageQuotaReservations (go_now e) ws (Z.to_nat batchSize) locked);
      match rows with
      | [] => mret 0
      | _ =>
          total ← tx_lift (sweep_total no_request rows);
          _ ← LockStorageQuotaUsage 0;
          _ ← subtractStorageQuotaReserved ws total;
          _ ← delete_reservations ws rows;
          mret (Z.of_nat (length rows))
      end
  end.

(** ** Reservations that become usage

    The caller holds the reservation row. *)

Definition transferStorageQuotaReservationToUsed (id : string) (reservation : reservation_row)
    (consumed : StorageQuotaRequest) : qtx unit :=
  let ws := v_workspace_id reservation in
  if bool_decide (id = ""%string) || (ws =? 0) || storageQuotaRequestEmpty consumed then tx_fail EUnconfigured else
  _ ← tx_lift (validateStorageQuotaRequest consumed);
  let current := storageQuotaRequestFromReservation reservation in
  if (Bytes current <? Bytes consumed) || (DurableBytes current <? DurableBytes consumed)
     || (Items current <? Items consumed) || (Images current <? Images consumed) then tx_fail ECover else
  let remaining := {| Bytes := usub (Bytes current) (Bytes consumed);
                      DurableBytes := usub (DurableBytes current) (DurableBytes consumed);
                      Items := usub (Items current) (Items consumed);
                      Images := usub (Images current) (Images consumed) |} in
  workspace ← LockStorageQuotaUsage ws;
  global ← LockStorageQuotaUsage 0;
  _ ← tx_lift (checkStorageQuotaReplacement global workspace current remaining consumed unboundedStorageQuotaLimits);
  _ ← replaceStorageQuotaReservationAccounting ws current remaining consumed;
  params ← tx_lift (storageReservationUpdateParams ws (v_expires_at reservation) remaining (v_resource_key reservation));
  requireOneAffected (UpdateStorageQuotaReservation id params).

Definition retireSingleFileIngestReservation (reservation : StorageQuotaReservation) (locked : reservation_row)
    (usedAddition : StorageQuotaRequest) (limits : StorageQuotaLimits) : qtx unit :=
  let ws := R_WorkspaceID reservation in
  global ← LockStorageQuotaUsage 0;
  workspace ← LockStorageQuotaUsage ws;
  let current := storageQuotaRequestFromReservation locked in
  _ ← tx_lift (checkStorageQuotaReplacement global workspace current no_request usedAddition limits);
  _ ← replaceStorageQuotaReservationAccounting ws current no_request usedAddition;
  _ ← match v_resource_key locked with
      | Some key => requireOneAffected (DeleteResourceCleanupByKindKey UploadBlob key)
      | None => mret tt
      end;
  requireOneAffected (DeleteStorageQuotaReservation (R_ID reservation) ws).

(** ** The rebuild *)

Definition addUsageParams (total value : StorageQuotaUsage) : result quota_err StorageQuotaUsage :=
  let add f := of_option (EAccounting "global storage quota usage") (addUint64 (f total) (f value)) in
  a ← add UploadBlobBytes; b ← add DatabaseBytes; c ← add U_Items; d ← add U_Images;
  ra ← add ReservedUploadBlobBytes; rb ← add ReservedDatabaseBytes; rc ← add ReservedItems; rd ← add ReservedImages;
  Ok {| UploadBlobBytes := a; DatabaseBytes := b; U_Items := c; U_Images := d;
        ReservedUploadBlobBytes := ra; ReservedDatabaseBytes := rb; ReservedItems := rc; ReservedImages := rd |}.

(** [uint64FromNonNegativeInt64] on the eight values. *)
Definition not_negative (u : StorageQuotaUsage) : bool :=
  (0 <=? U_Items u) && (0 <=? U_Images u) && (0 <=? UploadBlobBytes u) && (0 <=? DatabaseBytes u)
  && (0 <=? ReservedUploadBlobBytes u) && (0 <=? ReservedDatabaseBytes u)
  && (0 <=? ReservedItems u) && (0 <=? ReservedImages u).

Fixpoint rebuild_rows (lockedWorkspaceIDs : gset Z) (global : StorageQuotaUsage) (rows : list (Z * StorageQuotaUsage))
    : qtx StorageQuotaUsage :=
  match rows with
  | [] => mret global
  | (ws, u) :: rs =>
      if negb (bool_decide (ws ∈ lockedWorkspaceIDs)) then tx_fail EOwner else
      if negb (not_negative u) then tx_fail EScan else
      _ ← ReplaceStorageQuotaUsage ws u;
      global ← tx_lift (addUsageParams global u);
      rebuild_rows lockedWorkspaceIDs global rs
  end.

Definition RebuildStorageQuotaUsage : qtx unit :=
  lockedWorkspaceIDs ← tx_reads LockAllTenantStorageQuotaUsage;
  _ ← LockStorageQuotaUsage 0;
  rows ← RebuildStorageQuotaUsageRows;
  global ← rebuild_rows lockedWorkspaceIDs no_usage rows;
  _ ← ReplaceStorageQuotaUsage 0 global;
  DeleteOrphanStorageQuotaUsage.
End QuotaOps.
