(* ===== verification/ResourceCleanup.v ===== *)
(** * Resource cleanup: deletions of external resources

    internal/store/resource_cleanup.go over the rows of resource_cleanup_outbox, the
    choice of what a claimed row does in internal/server/resource_cleanup.go, and the
    guard of internal/store/ingest.go on the staged upload of a new image.  Rows that the
    claim query orders equally are taken in id order. *)

From Stdlib Require Import ZArith Lia Ascii String.
From stdpp Require Import base gmap strings list sorting.
From S2P Require Import Prelude GoStrings JobSchema JobStore MediaFragment SafeFailures Quota QuotaStore QuotaOps.

Module ResourceCleanup.
Import GoStr JobStore SafeFailures MediaFragment UploadRef Quota QuotaStore QuotaOps.
#[local] Open Scope Z_scope.

Record ResourceCleanupDelivery := {
  D_ID : Z; D_Kind : cleanup_kind; D_ResourceKey : string; D_WorkspaceID : Z; D_StorageBytes : Z;
  D_Generation : Z; D_LeaseOwner : string; D_Attempt : Z; D_MaxAttempts : Z;
}.

(** ** Statements *)

Definition with_cleanup (st : cleanup_status) (attempts next : Z) (fenced lease : option Z) (owner error : option string)
    (now : Z) (d : cleanup_row) : cleanup_row :=
  {| d_id := d_id d; d_workspace_id := d_workspace_id d; d_storage_bytes := d_storage_bytes d;
     d_generation := d_generation d; d_delete_fenced_at := fenced; d_status := st; d_attempt_count := attempts;
     d_max_attempts := d_max_attempts d; d_next_attempt_at := next; d_lease_until := lease; d_locked_by := owner;
     d_last_error := error; d_updated_at := now |}.

(** An update of every row that meets [wh]; the number of rows it changed. *)
Definition update_cleanups (wh : cleanup_kind -> cleanup_row -> bool) (set : cleanup_kind -> cleanup_row -> cleanup_row)
    : qtx Z := fun s =>
  let hit := filter (fun kd => wh kd.1.1 kd.2 = true) (cleanups s) in
  Ok (Z.of_nat (size (filter (fun kd => set kd.1.1 kd.2 <> kd.2) hit)),
      set_cleanups (map_imap (fun k d => Some (set k.1 d)) hit ∪ cleanups s) (next_cleanup_id s) s).
Definition delete_cleanups (wh : cleanup_kind -> cleanup_row -> bool) : qtx Z := fun s =>
  Ok (Z.of_nat (size (filter (fun kd => wh kd.1.1 kd.2 = true) (cleanups s))),
      set_cleanups (filter (fun kd => wh kd.1.1 kd.2 = false) (cleanups s)) (next_cleanup_id s) s).

Definition lease_ran_out (now : Z) (d : cleanup_row) : bool :=
  bool_decide (d_status d = CProcessing) && match d_lease_until d with Some l => l <? now | None => false end.

Definition cleanup_retry_message : string := "cleanup lease expired; another retry is scheduled".
Definition cleanup_expired_message : string := "cleanup lease expired after maximum attempts".

Definition FailExhaustedResourceCleanups (now : Z) : qtx unit :=
  _ ← update_cleanups (fun _ d => lease_ran_out now d && (d_max_attempts d <=? d_attempt_count d))
        (fun k d => let upload := bool_decide (k = UploadBlob) in
           with_cleanup (if upload then CPending else CFailed) (d_attempt_count d)
             (if upload then now + 3600 else d_next_attempt_at d) (d_delete_fenced_at d) None None
             (Some (default (if upload then cleanup_retry_message else cleanup_expired_message) (d_last_error d)))
             now d);
  mret tt.

Definition cleanup_claimable (now : Z) (d : cleanup_row) : bool :=
  (bool_decide (d_status d = CPending) && (d_next_attempt_at d <=? now))
  || (lease_ran_out now d && (d_attempt_count d <? d_max_attempts d)).

(** [ORDER BY next_attempt_at, updated_at] *)
Definition cleanup_sooner (a b : (cleanup_kind * string) * cleanup_row) : Prop :=
  d_next_attempt_at a.2 < d_next_attempt_at b.2 \/
  (d_next_attempt_at a.2 = d_next_attempt_at b.2 /\
   (d_updated_at a.2 < d_updated_at b.2 \/ (d_updated_at a.2 = d_updated_at b.2 /\ d_id a.2 <= d_id b.2))).
#[export] Instance cleanup_sooner_dec a b : Decision (cleanup_sooner a b).
Proof. unfold cleanup_sooner. apply _. Defined.

Definition SelectResourceCleanupForUpdate (now : Z) (locked : gset Z) (s : qdb)
    : option ((cleanup_kind * string) * cleanup_row) :=
  head (merge_sort cleanup_sooner
    (filter (fun kd => (d_id kd.2 ∉ locked) /\ cleanup_claimable now kd.2 = true) (map_to_list (cleanups s)))).

Definition MarkResourceCleanupProcessing (now lease : Z) (owner : option string) (id generation : Z) : qtx Z :=
  update_cleanups (fun _ d => (d_id d =? id) && (d_generation d =? generation) && cleanup_claimable now d)
    (fun _ d => with_cleanup CProcessing (d_attempt_count d + 1) (d_next_attempt_at d) (d_delete_fenced_at d)
                  (Some lease) owner (d_last_error d) now d).

(** The row a delivery was claimed from, still in its hands. *)
Definition cleanup_held (id generation : Z) (owner : option string) (d : cleanup_row) : bool :=
  (d_id d =? id) && (d_generation d =? generation) && bool_decide (d_status d = CProcessing)
  && match owner with Some o => bool_decide (d_locked_by d = Some o) | None => false end.

Definition FenceUploadResourceCleanup (now id generation : Z) (owner : option string) : qtx Z :=
  update_cleanups (fun k d => bool_decide (k = UploadBlob) && cleanup_held id generation owner d)
    (fun _ d => with_cleanup (d_status d) (d_attempt_count d) (d_next_attempt_at d)
                  (Some (default now (d_delete_fenced_at d))) (d_lease_until d) (d_locked_by d) (d_last_error d) now d).

Definition CompleteResourceCleanupRow (id generation : Z) (owner : option string) : qtx Z :=
  delete_cleanups (fun k d => cleanup_held id generation owner d
    && (negb (bool_decide (k = UploadBlob)) || bool_decide (d_delete_fenced_at d = None))).
Definition CompleteFencedUploadResourceCleanup (id generation : Z) (owner : option string) : qtx Z :=
  delete_cleanups (fun k d => cleanup_held id generation owner d
    && bool_decide (k = UploadBlob) && bool_decide (is_Some (d_delete_fenced_at d))).

Definition RetryResourceCleanupRow (now next : Z) (error : option string) (id generation : Z) (owner : option string)
    : qtx Z :=
  update_cleanups (fun _ d => cleanup_held id generation owner d)
    (fun k d => with_cleanup (if bool_decide (k = UploadBlob) then CPending else
                              if d_max_attempts d <=? d_attempt_count d then CFailed else CPending)
                  (d_attempt_count d) next (d_delete_fenced_at d) None None error now d).

(** ** Deliveries *)

Definition ClaimResourceCleanup (e : env) (leaseDuration : Z) : qtx (option ResourceCleanupDelivery) :=
  let leaseDuration := if leaseDuration <=? 0 then 30 else leaseDuration in
  _ ← FailExhaustedResourceCleanups (db_now e);
  row ← tx_reads (SelectResourceCleanupForUpdate (db_now e) (locked_rows e));
  match row with
  | None => mret None
  | Some ((kind, key), d) =>
      let leaseOwner := newLeaseOwner "resource-cleanup" (uuid e) in
      affected ← MarkResourceCleanupProcessing (db_now e) (go_now e + leaseDuration) (nullableString leaseOwner)
                   (d_id d) (d_generation d);
      if negb (affected =? 1) then mret None else
      mret (Some {| D_ID := d_id d; D_Kind := kind; D_ResourceKey := key; D_WorkspaceID := d_workspace_id d;
                    D_StorageBytes := d_storage_bytes d; D_Generation := d_generation d;
                    D_LeaseOwner := leaseOwner; D_Attempt := d_attempt_count d + 1;
                    D_MaxAttempts := d_max_attempts d |})
  end.

Definition BeginUploadBlobRetirement (e : env) (delivery : ResourceCleanupDelivery) : qtx bool :=
  if negb (bool_decide (D_Kind delivery = UploadBlob)) || (D_ID delivery =? 0) || (D_WorkspaceID delivery =? 0)
     || bool_decide (D_ResourceKey delivery = ""%string) || (D_Generation delivery =? 0)
     || bool_decide (D_LeaseOwner delivery = ""%string) then tx_fail EUnconfigured else
  _ ← lockStorageQuotaGuards (D_WorkspaceID delivery);
  row ← tx_reads (LockResourceCleanupByKindKey UploadBlob (D_ResourceKey delivery));
  match row with
  | None => tx_fail ECleanupLease
  | Some cleanup =>
      if negb (d_id cleanup =? D_ID delivery) || negb (d_generation cleanup =? D_Generation delivery)
         || negb (d_workspace_id cleanup =? D_WorkspaceID delivery) || negb (bool_decide (d_status cleanup = CProcessing))
         || negb (bool_decide (d_locked_by cleanup = Some (D_LeaseOwner delivery))) then tx_fail ECleanupLease else
      if bool_decide (is_Some (d_delete_fenced_at cleanup)) then mret true else
      references ← tx_reads (CountItemImagesByURL (upload_url (D_ResourceKey delivery)));
      if negb (references =? 0) then mret false else
      _ ← requireCleanupAffected (FenceUploadResourceCleanup (db_now e) (D_ID delivery) (D_Generation delivery)
            (nullableString (D_LeaseOwner delivery)));
      mret true
  end.

Definition CompleteResourceCleanup (delivery : ResourceCleanupDelivery) (releaseBytes : bool) : qtx unit :=
  let owner := nullableString (D_LeaseOwner delivery) in
  if negb (bool_decide (D_Kind delivery = UploadBlob)) || negb releaseBytes then
    requireCleanupAffected (CompleteResourceCleanupRow (D_ID delivery) (D_Generation delivery) owner)
  else
  if D_WorkspaceID delivery =? 0 then tx_fail EUnconfigured else
  _ ← lockStorageQuotaGuards (D_WorkspaceID delivery);
  _ ← requireCleanupAffected (CompleteFencedUploadResourceCleanup (D_ID delivery) (D_Generation delivery) owner);
  if D_StorageBytes delivery >? 0
  then subtractStorageQuotaUsed (D_WorkspaceID delivery) (with_Bytes (D_StorageBytes delivery) no_request)
  else mret tt.

(** The text of an error, [None] for a nil one. *)
Definition SafeResourceCleanupFailureMessage (cause : option string) : string :=
  safeDurableFailureMessage durableFailureResourceCleanup (default ""%string cause).

Definition RetryResourceCleanup (e : env) (delivery : ResourceCleanupDelivery) (cause : option string) (nextAttempt : Z)
    : qtx unit :=
  requireCleanupAffected (RetryResourceCleanupRow (db_now e) nextAttempt
    (nullableString (SafeResourceCleanupFailureMessage cause)) (D_ID delivery) (D_Generation delivery)
    (nullableString (D_LeaseOwner delivery))).

(** internal/server/resource_cleanup.go, in seconds *)
Definition resourceCleanupLease : Z := 90.
Definition resourceCleanupRetryDelay (attempt : Z) : Z :=
  let attempt := if attempt <? 1 then 1 else attempt in
  let attempt := if attempt >? 13 then 13 else attempt in
  let delay := Z.shiftl 1 (attempt - 1) in
  if delay >? 3600 then 3600 else delay.

(** ** The staged upload of a new image (ingest.go) *)

(** [lockSingleFileIngestReservation], at a workspace, a reservation and the URL and size
    of the image. *)
Definition lockSingleFileIngestReservation `{UrlParser} (now : Z) (id : string) (ws : Z) (imageURL : string)
    (storageBytes : Z) : qtx reservation_row :=
  reservation ← LockLiveStorageQuotaReservation now id ws;
  if (v_reserved_items reservation <? 1) || (v_reserved_images reservation <? 1) then tx_fail ECover else
  match ImmutableNameFromURL imageURL, NameFromURL imageURL with
  | None, Some _ => tx_fail EURL
  | Some uploadName, _ =>
      if negb (bool_decide (v_resource_key reservation = Some uploadName)) then tx_fail EBound else
      cleanup ← one_row (LockResourceCleanupByKindKey UploadBlob uploadName);
      if negb (d_workspace_id cleanup =? ws) || negb (d_storage_bytes cleanup =? storageBytes) then tx_fail EOtherWorkspace else
      if bool_decide (is_Some (d_delete_fenced_at cleanup)) then tx_fail ERetired else
      mret reservation
  | None, None =>
      if bool_decide (is_Some (v_resource_key reservation)) then tx_fail EBound else mret reservation
  end.
End ResourceCleanup.
