(* ===== verification/QuotaInvariant.v ===== *)
(** * Storage quota: the accounts agree

    Sums over the tables, what a statement does to them, and the invariant [consistent]
    with the fact that booking an amount on a workspace and on the global row keeps it.

    Modules [QuotaFacts]: storage quota: the accounts agree;
    [QuotaInvariant]: storage quota: the invariant and the operations that keep it. *)

From Stdlib Require Import ZArith Lia Ascii String.
From stdpp Require Import base gmap strings list sorting.
From S2P Require Import Prelude GoStrings JobSchema JobStore MediaFragment Quota QuotaStore QuotaOps.

Module QuotaFacts.
Import GoStr JobStore MediaFragment UploadRef Quota QuotaStore QuotaOps.
#[local] Open Scope Z_scope.

(** ** Sums over a map *)

Section sums.
Context {K A M : Type} `{Countable K} (op : M -> M -> M) (e : M) (g : K -> A -> M).
Hypothesis op_comm : forall a b, op a b = op b a.
Hypothesis op_assoc : forall a b c, op a (op b c) = op (op a b) c.

Definition msum (m : gmap K A) : M := map_fold (fun k v acc => op (g k v) acc) e m.

Lemma msum_empty : msum ∅ = e.
Proof. apply map_fold_empty. Qed.

Lemma msum_insert m k v : m !! k = None -> msum (<[k := v]> m) = op (g k v) (msum m).
Proof.
  intros Hk. unfold msum. rewrite map_fold_insert_L; [done| |done].
  intros j1 j2 z1 z2 y _ _ _. rewrite !op_assoc. f_equal. apply op_comm.
Qed.

Lemma msum_delete m k v : m !! k = Some v -> msum m = op (g k v) (msum (delete k m)).
Proof. intros Hk. rewrite <- msum_insert by apply lookup_delete_eq. by rewrite insert_delete_id. Qed.

Lemma msum_replace m k v w : m !! k = Some v ->
  op (g k v) (msum (<[k := w]> m)) = op (g k w) (msum m).
Proof.
  intros Hk. rewrite (msum_delete m k v Hk), (msum_delete (<[k := w]> m) k w) by apply lookup_insert_eq.
  rewrite delete_insert_eq, !op_assoc. f_equal. apply op_comm.
Qed.
End sums.

(** ** Amounts *)

Ltac amount_eq :=
  unfold amount_add, amount_sub, with_Bytes, no_request, usage_add, add_reserved, add_used, sub_reserved, sub_used,
    account, used, reserved, no_usage, held in *;
  simpl in *;
  repeat match goal with r : StorageQuotaRequest |- _ => destruct r end;
  repeat match goal with u : StorageQuotaUsage |- _ => destruct u end;
  simpl in *; try (f_equal; lia).

Lemma amount_add_comm a b : amount_add a b = amount_add b a.
Proof. amount_eq. Qed.
Lemma amount_add_assoc a b c : amount_add a (amount_add b c) = amount_add (amount_add a b) c.
Proof. amount_eq. Qed.
Lemma amount_add_0_l a : amount_add no_request a = a.
Proof. amount_eq. Qed.
Lemma amount_sub_add a b : amount_sub (amount_add a b) a = b.
Proof. amount_eq. Qed.
Lemma amount_sub_eq a b c : a = amount_add b c -> amount_sub a b = c.
Proof. intros ->. apply amount_sub_add. Qed.
Lemma usage_add_comm a b : usage_add a b = usage_add b a.
Proof. amount_eq. Qed.
Lemma usage_add_assoc a b c : usage_add a (usage_add b c) = usage_add (usage_add a b) c.
Proof. amount_eq. Qed.
Lemma usage_add_0_l a : usage_add no_usage a = a.
Proof. amount_eq. Qed.
Lemma reserved_usage_add a b : reserved (usage_add a b) = amount_add (reserved a) (reserved b).
Proof. amount_eq. Qed.
Lemma empty_request r : storageQuotaRequestEmpty r = true -> r = no_request.
Proof. unfold storageQuotaRequestEmpty. intros H. split_bools. unfold no_request. destruct r; simpl in *. by subst. Qed.

Lemma covers_le a b : covers a b = true <-> amount_le b a.
Proof. unfold covers, amount_le. rewrite !andb_true_iff, !Z.leb_le. tauto. Qed.

Lemma column_range v : column v = true <-> 0 <= v <= MaxUint64.
Proof. unfold column. rewrite andb_true_iff, !Z.leb_le. tauto. Qed.
Lemma columns_range u : columns u = true <-> usage_in_range u.
Proof. unfold columns, usage_in_range, in_range, used, reserved. rewrite !andb_true_iff, !column_range. simpl. tauto. Qed.

(** ** Sums over the tables *)

Definition tenant_row (ws : Z) (u : StorageQuotaUsage) : StorageQuotaUsage := if ws =? 0 then no_usage else u.
Definition tenant_total : gmap Z StorageQuotaUsage -> StorageQuotaUsage := msum usage_add no_usage tenant_row.
Definition reservation_amount (ws : Z) (_ : string) (v : reservation_row) : StorageQuotaRequest :=
  if v_workspace_id v =? ws then storageQuotaRequestFromReservation v else no_request.
Definition reserved_sum (ws : Z) : gmap string reservation_row -> StorageQuotaRequest :=
  msum amount_add no_request (reservation_amount ws).

Lemma reserved_by_sum s ws : reserved_by s ws = reserved_sum ws (reservations s).
Proof. done. Qed.

(** ** What statements do *)

(** [f] applied to the rows of a workspace and of all of them. *)
Definition book (ws : Z) (f : StorageQuotaUsage -> StorageQuotaUsage) (s : qdb) : qdb :=
  set_usages (alter f ws (alter f 0 (usages s))) s.

Definition booked (ws : Z) (wh : StorageQuotaUsage -> bool) (m : gmap Z StorageQuotaUsage) :=
  filter (fun kr : Z * StorageQuotaUsage => ((kr.1 =? 0) || (kr.1 =? ws)) && wh kr.2 = true) m.

Lemma lookup_booked ws wh m k r :
  booked ws wh m !! k = Some r <-> m !! k = Some r /\ (k = 0 \/ k = ws) /\ wh r = true.
Proof.
  unfold booked. rewrite map_lookup_filter_Some. simpl.
  rewrite andb_true_iff, orb_true_iff, !Z.eqb_eq. tauto.
Qed.

Lemma booked_union ws wh f m (Hws : ws <> 0) :
  (forall k r, (k = 0 \/ k = ws) -> m !! k = Some r -> wh r = true) ->
  (f <$> booked ws wh m) ∪ m = alter f ws (alter f 0 m).
Proof.
  intros Hwh. apply map_eq. intros k.
  assert (Hl : forall r, m !! k = Some r -> (k = 0 \/ k = ws) ->
    ((f <$> booked ws wh m) ∪ m) !! k = Some (f r)).
  { intros r Hr Hk. apply lookup_union_Some_l. rewrite lookup_fmap.
    rewrite (proj2 (lookup_booked ws wh m k r)); [done|]. split_and!; eauto. }
  assert (Hn : ~ (k = 0 \/ k = ws) \/ m !! k = None -> ((f <$> booked ws wh m) ∪ m) !! k = m !! k).
  { intros Hk. rewrite lookup_union_r; [done|]. rewrite lookup_fmap, fmap_None.
    destruct (booked ws wh m !! k) as [r|] eqn:E; [|done]. apply lookup_booked in E as (?&?&?). naive_solver. }
  destruct (decide (k = ws)) as [->|Hk].
  - rewrite lookup_alter_eq, lookup_alter_ne by done.
    destruct (m !! ws) as [r|] eqn:E; [rewrite (Hl r) by auto; done|]. rewrite Hn by auto. done.
  - rewrite lookup_alter_ne by done. destruct (decide (k = 0)) as [->|Hk0].
    + rewrite lookup_alter_eq.
      destruct (m !! 0) as [r|] eqn:E; [rewrite (Hl r) by auto; done|]. rewrite Hn by auto. done.
    + rewrite lookup_alter_ne by done. apply Hn. left. tauto.
Qed.

Lemma update_usages_all ws f s n s' (Hws : ws <> 0) :
  update_usages ws (fun _ => true) f s = Ok (n, s') ->
  s' = book ws f s /\ (forall k u, (k = 0 \/ k = ws) -> usages s !! k = Some u -> columns (f u) = true).
Proof.
  unfold update_usages. fold (booked ws (fun _ => true) (usages s)).
  case_bool_decide as Hc; [|done]. intros [= <- <-]. split.
  - unfold book. f_equal. by apply booked_union.
  - intros k u Hk Hu. apply (Hc k u). apply lookup_booked. auto.
Qed.

(** Two rows changed: both are there and both met the condition. *)
Lemma update_usages_two ws wh f s s' (Hws : ws <> 0) :
  update_usages ws wh f s = Ok (2, s') ->
  s' = book ws f s /\ (forall k, (k = 0 \/ k = ws) -> exists u, usages s !! k = Some u /\ wh u = true /\ columns (f u) = true).
Proof.
  unfold update_usages. fold (booked ws wh (usages s)).
  case_bool_decide as Hc; [|done]. intros [= Hn <-].
  set (ch := filter (fun kr : Z * StorageQuotaUsage => f kr.2 <> kr.2) (booked ws wh (usages s))) in *.
  assert (Hsub : dom ch ⊆ {[0; ws]}).
  { intros k [u Hu]%elem_of_dom. apply map_lookup_filter_Some in Hu as [Hu _].
    apply lookup_booked in Hu as (_&Hk&_). set_solver. }
  assert (Hsize : size (dom ch) = 2%nat) by (rewrite size_dom; lia).
  assert (Hdom : dom ch ≡ {[0; ws]}).
  { apply set_subseteq_size_equiv; [done|]. rewrite Hsize, size_union, !size_singleton by set_solver. lia. }
  assert (Hrows : forall k, (k = 0 \/ k = ws) -> exists u, booked ws wh (usages s) !! k = Some u).
  { intros k Hk. assert (Hd : k ∈ dom ch) by set_solver.
    apply elem_of_dom in Hd as [u [Hu _]%map_lookup_filter_Some]. eauto. }
  assert (Hboth : forall k, (k = 0 \/ k = ws) -> exists u, usages s !! k = Some u /\ wh u = true /\ columns (f u) = true).
  { intros k Hk. destruct (Hrows k Hk) as [u Hb]. pose proof (Hc k u Hb) as Hcol.
    apply lookup_booked in Hb as (?&_&?). eauto. }
  split; [|done]. unfold book. f_equal. apply booked_union; [done|].
  intros k r Hk Hr. destruct (Hboth k Hk) as (u&Hu&?&_). congruence.
Qed.

Lemma lookup_book ws f s k : ws <> 0 ->
  usages (book ws f s) !! k = if (k =? 0) || (k =? ws) then f <$> usages s !! k else usages s !! k.
Proof.
  intros Hws. unfold book. simpl. destruct (Z.eqb_spec k ws) as [->|Hk].
  - rewrite orb_true_r, lookup_alter_eq, lookup_alter_ne by done. done.
  - rewrite lookup_alter_ne by done. rewrite orb_false_r. destruct (Z.eqb_spec k 0) as [->|Hk0].
    + by rewrite lookup_alter_eq.
    + by rewrite lookup_alter_ne by done.
Qed.

Lemma book_ext ws f g s : ws <> 0 -> (forall u, f u = g u) -> book ws f s = book ws g s.
Proof.
  intros Hws Hfg. unfold book. f_equal. apply map_eq. intros k.
  pose proof (lookup_book ws f s k Hws) as Hf. pose proof (lookup_book ws g s k Hws) as Hg.
  unfold book in Hf, Hg. simpl in Hf, Hg. rewrite Hf, Hg.
  destruct (_ || _); [|done]. destruct (usages s !! k); [|done]. simpl. by rewrite Hfg.
Qed.

Lemma book_id ws f s : ws <> 0 -> (forall u, f u = u) -> book ws f s = s.
Proof.
  intros Hws Hf. rewrite (book_ext ws f id) by done. unfold book. rewrite !alter_id by done. by destruct s.
Qed.

Lemma book_book ws f g s : ws <> 0 -> book ws g (book ws f s) = book ws (fun u => g (f u)) s.
Proof.
  intros Hws. unfold book. simpl. unfold set_usages. simpl. f_equal.
  apply map_eq. intros k.
  pose proof (lookup_book ws g (book ws f s) k Hws) as H1. pose proof (lookup_book ws f s k Hws) as H2.
  pose proof (lookup_book ws (fun u => g (f u)) s k Hws) as H3. unfold book in H1, H2, H3. simpl in H1, H2, H3.
  rewrite H1, H3. destruct (_ || _); [|done]. rewrite H2. destruct (usages s !! k); done.
Qed.

(** ** The counters of every row fit their columns *)

Definition columns_ok (s : qdb) : Prop := forall k u, usages s !! k = Some u -> columns u = true.

Lemma update_usages_columns ws wh f s n s' :
  update_usages ws wh f s = Ok (n, s') -> columns_ok s -> columns_ok s'.
Proof.
  unfold update_usages. fold (booked ws wh (usages s)). case_bool_decide as Hc; [|done].
  intros [= _ <-] Hs k u. simpl. rewrite lookup_union_Some_raw, lookup_fmap.
  intros [H|[_ H]]; [|by eapply Hs].
  destruct (booked ws wh (usages s) !! k) as [r|] eqn:E; [|done]. simpl in H. injection H as <-.
  by apply (Hc k r).
Qed.

Lemma requireQuotaUsageRows_Ok m (s : qdb) x s' :
  requireQuotaUsageRows m s = Ok (x, s') -> m s = Ok (2, s').
Proof.
  unfold requireQuotaUsageRows. intros H. tx_bind H as n s1 Hm.
  destruct (Z.eqb_spec n 2) as [->|]; [|done]. by injection H as _ <-.
Qed.
Lemma quota_one_Ok m (s : qdb) x s' : requireOneAffected m s = Ok (x, s') -> m s = Ok (1, s').
Proof.
  unfold requireOneAffected. intros H. tx_bind H as n s1 Hm.
  destruct (Z.eqb_spec n 1) as [->|]; [|done]. by injection H as _ <-.
Qed.
Lemma one_row_Ok {A} (f : qdb -> option A) s x s' : one_row f s = Ok (x, s') <-> f s = Some x /\ s' = s.
Proof.
  unfold one_row. cbv [mbind tx_bind tx_reads tx_lift of_option].
  destruct (f s); naive_solver.
Qed.

Section accounting.
Context (ws : Z) (Hws : ws <> 0).
Implicit Types (r c a : StorageQuotaRequest) (s : qdb).

Definition booking (f : StorageQuotaUsage -> StorageQuotaUsage) s s' : Prop :=
  s' = book ws f s /\ (columns_ok s -> columns_ok s').

Lemma booking_none s : booking (fun u => u) s s.
Proof. split; [by rewrite book_id|done]. Qed.

Lemma booking_trans f g s1 s2 s3 : booking f s1 s2 -> booking g s2 s3 -> booking (fun u => g (f u)) s1 s3.
Proof. intros [-> H1] [-> H2]. split; [by apply book_book|auto]. Qed.

Lemma booking_ext f g s s' : (forall u, f u = g u) -> booking f s s' -> booking g s s'.
Proof. intros Hfg [-> H]. split; [by apply book_ext|done]. Qed.

Lemma add_reserved_Ok r s s' : addStorageQuotaReserved ws r s = Ok (tt, s') -> booking (add_reserved r) s s'.
Proof.
  unfold addStorageQuotaReserved, AddStorageQuotaReserved. intros H. tx_bind H as n s1 Hu. injection H as <-.
  split; [by eapply update_usages_all|by eapply update_usages_columns].
Qed.
Lemma add_used_Ok r s s' : addStorageQuotaUsed ws r s = Ok (tt, s') -> booking (add_used r) s s'.
Proof.
  unfold addStorageQuotaUsed, AddStorageQuotaUsed. intros H. tx_bind H as n s1 Hu. injection H as <-.
  split; [by eapply update_usages_all|by eapply update_usages_columns].
Qed.

Lemma sub_reserved_none u : sub_reserved no_request u = u.
Proof. amount_eq. Qed.
Lemma sub_used_none u : sub_used no_request u = u.
Proof. amount_eq. Qed.
Lemma add_reserved_none u : add_reserved no_request u = u.
Proof. amount_eq. Qed.
Lemma add_used_none u : add_used no_request u = u.
Proof. amount_eq. Qed.

Lemma sub_reserved_Ok r s s' : subtractStorageQuotaReserved ws r s = Ok (tt, s') -> booking (sub_reserved r) s s'.
Proof.
  unfold subtractStorageQuotaReserved. destruct (storageQuotaRequestEmpty r) eqn:E.
  - intros [= <-]. apply empty_request in E as ->. eapply booking_ext; [|apply booking_none].
    intros u. by rewrite sub_reserved_none.
  - intros Hu%requireQuotaUsageRows_Ok. unfold SubtractStorageQuotaReserved in Hu.
    split; [by eapply update_usages_two|by eapply update_usages_columns].
Qed.
Lemma sub_used_Ok r s s' : subtractStorageQuotaUsed ws r s = Ok (tt, s') -> booking (sub_used r) s s'.
Proof.
  unfold subtractStorageQuotaUsed. destruct (storageQuotaRequestEmpty r) eqn:E.
  - intros [= <-]. apply empty_request in E as ->. eapply booking_ext; [|apply booking_none].
    intros u. by rewrite sub_used_none.
  - intros Hu%requireQuotaUsageRows_Ok. unfold SubtractStorageQuotaUsed in Hu.
    split; [by eapply update_usages_two|by eapply update_usages_columns].
Qed.

(** A reservation of [c] becomes one of [r], and [a] is used. *)
Definition rebill c r a (u : StorageQuotaUsage) : StorageQuotaUsage := add_used a (add_reserved r (sub_reserved c u)).

Lemma rebill_reserved c r a u : reserved (rebill c r a u) = amount_add (amount_sub (reserved u) c) r.
Proof. unfold rebill. amount_eq. Qed.
Lemma rebill_used c r a u : used (rebill c r a u) = amount_add (used u) a.
Proof. unfold rebill. amount_eq. Qed.
Lemma rebill_shift c r a u v : usage_add (rebill c r a u) v = rebill c r a (usage_add u v).
Proof. unfold rebill. amount_eq. Qed.

Lemma replace_accounting_Ok c r a s s' :
  replaceStorageQuotaReservationAccounting ws c r a s = Ok (tt, s') -> booking (rebill c r a) s s'.
Proof.
  unfold replaceStorageQuotaReservationAccounting. intros H.
  tx_bind H as [] s1 H1. apply sub_reserved_Ok in H1. tx_bind H as [] s2 H2.
  assert (Hr : booking (add_reserved r) s1 s2).
  { destruct (storageQuotaRequestEmpty r) eqn:E; [|by apply add_reserved_Ok].
    injection H2 as <-. apply empty_request in E as ->. eapply booking_ext; [|apply booking_none].
    intros u. by rewrite add_reserved_none. }
  assert (Ha : booking (add_used a) s2 s').
  { destruct (storageQuotaRequestEmpty a) eqn:E; [|by apply add_used_Ok].
    injection H as <-. apply empty_request in E as ->. eapply booking_ext; [|apply booking_none].
    intros u. by rewrite add_used_none. }
  exact (booking_trans _ _ _ _ _ (booking_trans _ _ _ _ _ H1 Hr) Ha).
Qed.
End accounting.
End QuotaFacts.

(** * Storage quota: the invariant and the operations that keep it *)

Module QuotaInvariant.
Import GoStr JobStore MediaFragment UploadRef Quota QuotaStore QuotaOps QuotaFacts.
#[local] Open Scope Z_scope.

(** A reservation belongs to a workspace and fits its columns. *)
Definition reservation_ok (v : reservation_row) : Prop :=
  v_workspace_id v <> 0 /\ in_range MaxUint64 (storageQuotaRequestFromReservation v) /\
  v_reserved_items v <= MaxUint32 /\ v_reserved_images v <= MaxUint32.

(** The global row is the sum of the tenant rows; what a tenant row calls reserved is
    the sum of the reservations of the workspace. *)
Record consistent (s : qdb) : Prop := {
  c_global : usages s !! 0 = Some (tenant_total (usages s));
  c_reserved : forall ws u, ws <> 0 -> usages s !! ws = Some u -> reserved u = reserved_by s ws;
  c_reservations : forall id v, reservations s !! id = Some v ->
    reservation_ok v /\ is_Some (usages s !! v_workspace_id v);
  c_columns : columns_ok s;
}.

(** ** Sums after a change *)

Lemma alter_row {A} (f : A -> A) (m : gmap Z A) k u : m !! k = Some u -> alter f k m = <[k := f u]> m.
Proof.
  intros Hk. apply map_eq. intros j. destruct (decide (j = k)) as [->|Hj].
  - by rewrite lookup_alter_eq, lookup_insert_eq, Hk.
  - by rewrite lookup_alter_ne, lookup_insert_ne by done.
Qed.

Lemma tenant_total_alter f k m : (k = 0 \/ m !! k = None) -> tenant_total (alter f k m) = tenant_total m.
Proof.
  intros [->|Hk].
  - destruct (m !! 0) as [u|] eqn:E.
    + rewrite (alter_row _ _ _ _ E).
      pose proof (msum_replace usage_add no_usage tenant_row usage_add_comm usage_add_assoc m 0 u (f u) E) as H.
      unfold tenant_row at 1 3 in H. simpl in H. by rewrite !usage_add_0_l in H.
    + by rewrite alter_id by (intros ? ?; congruence).
  - rewrite alter_id by (intros ? ?; congruence). done.
Qed.

Lemma tenant_total_book f ws m u : ws <> 0 -> m !! ws = Some u ->
  (forall a b, usage_add (f a) b = f (usage_add a b)) ->
  tenant_total (alter f ws (alter f 0 m)) = f (tenant_total m).
Proof.
  intros Hws Hu Hf.
  assert (Hu0 : alter f 0 m !! ws = Some u) by (rewrite lookup_alter_ne by done; done).
  rewrite <- (tenant_total_alter f 0 m) by auto. rewrite (alter_row _ _ _ _ Hu0).
  set (m0 := alter f 0 m) in *. unfold tenant_total.
  rewrite (msum_delete _ _ tenant_row usage_add_comm usage_add_assoc m0 ws u Hu0).
  rewrite <- insert_delete_eq, msum_insert
    by (apply usage_add_comm || apply usage_add_assoc || apply lookup_delete_eq).
  unfold tenant_row at 1 3. rewrite (proj2 (Z.eqb_neq ws 0)) by done. apply Hf.
Qed.

Section sums.
Context (ws : Z) (rs : gmap string reservation_row).
Abbreviation req := storageQuotaRequestFromReservation.

Lemma reserved_sum_insert id v : rs !! id = None ->
  reserved_sum ws (<[id := v]> rs) = amount_add (reservation_amount ws id v) (reserved_sum ws rs).
Proof. intros H. unfold reserved_sum. by rewrite msum_insert by (apply amount_add_comm || apply amount_add_assoc || done). Qed.

Lemma reserved_sum_delete id v : rs !! id = Some v ->
  reserved_sum ws rs = amount_add (reservation_amount ws id v) (reserved_sum ws (delete id rs)).
Proof. intros H. apply msum_delete; [apply amount_add_comm|apply amount_add_assoc|done]. Qed.

Lemma reserved_sum_replace id v w : rs !! id = Some v ->
  amount_add (reservation_amount ws id v) (reserved_sum ws (<[id := w]> rs))
  = amount_add (reservation_amount ws id w) (reserved_sum ws rs).
Proof. intros H. apply msum_replace; [apply amount_add_comm|apply amount_add_assoc|done]. Qed.

Lemma amount_here id v : v_workspace_id v = ws -> reservation_amount ws id v = req v.
Proof. intros <-. unfold reservation_amount. by rewrite Z.eqb_refl. Qed.
Lemma amount_elsewhere id v : v_workspace_id v <> ws -> reservation_amount ws id v = no_request.
Proof. intros H. unfold reservation_amount. by rewrite (proj2 (Z.eqb_neq _ _) H). Qed.

Lemma amount_swap (a b x y : StorageQuotaRequest) : amount_add a x = amount_add b y -> x = amount_add (amount_sub y a) b.
Proof. destruct a, b, x, y. unfold amount_add, amount_sub. simpl. intros [= ]. f_equal; lia. Qed.

Lemma amount_move (a b c : StorageQuotaRequest) : a = amount_add b c -> amount_add (amount_sub a b) no_request = c.
Proof. intros ->. destruct b, c. unfold amount_add, amount_sub, no_request. simpl. f_equal; lia. Qed.
End sums.

(** ** Booking keeps the accounts *)

Section booking.
Context (s s' : qdb) (ws : Z) (f : StorageQuotaUsage -> StorageQuotaUsage).
Hypothesis Hc : consistent s.
Hypothesis Hws : ws <> 0.
Hypothesis Hrow : is_Some (usages s !! ws).
Hypothesis Hshift : forall a b, usage_add (f a) b = f (usage_add a b).

Lemma consistent_book s1 rs :
  booking ws f s s1 -> usages s' = usages s1 -> reservations s' = rs ->
  (forall u, reserved u = reserved_by s ws -> reserved (f u) = reserved_sum ws rs) ->
  (forall w, w <> ws -> reserved_sum w rs = reserved_by s w) ->
  (forall id v, rs !! id = Some v -> reservation_ok v /\ is_Some (usages s !! v_workspace_id v)) ->
  consistent s'.
Proof using All.
  intros [-> Hcol] Hu Hr Hf Hother Hrs. destruct Hrow as [u0 Hu0].
  assert (Hl : forall k, usages s' !! k = if (k =? 0) || (k =? ws) then f <$> usages s !! k else usages s !! k).
  { intros k. rewrite Hu. by apply lookup_book. }
  split.
  - rewrite Hl. simpl. rewrite (c_global _ Hc). simpl. f_equal. rewrite Hu. unfold book. simpl.
    by rewrite (tenant_total_book f ws _ u0).
  - intros w u Hw. rewrite Hl, (proj2 (Z.eqb_neq w 0)) by done. simpl. rewrite reserved_by_sum, Hr.
    destruct (Z.eqb_spec w ws) as [->|Hne].
    + rewrite Hu0. intros [= <-]. apply Hf. by apply (c_reserved _ Hc).
    + intros Hw'. rewrite Hother by done. by apply (c_reserved _ Hc).
  - rewrite Hr. intros id v Hv. destruct (Hrs id v Hv) as [Hok Hsome]. split; [done|].
    rewrite Hl. destruct (_ || _); [|done]. by rewrite fmap_is_Some.
  - intros k u Hk. rewrite Hu in Hk. by eapply (Hcol (c_columns _ Hc)).
Qed.
End booking.

Lemma rows_of_workspace s id v ws : consistent s -> reservation_of id ws s = Some v ->
  reservations s !! id = Some v /\ v_workspace_id v = ws /\ ws <> 0 /\ is_Some (usages s !! ws) /\ reservation_ok v.
Proof.
  unfold reservation_of. intros Hc H. destruct (reservations s !! id) as [v'|] eqn:E; [|done].
  destruct (Z.eqb_spec (v_workspace_id v') ws) as [<-|]; [|done]. injection H as ->.
  destruct (c_reservations _ Hc id v E) as [Hok Hsome]. by destruct Hok.
Qed.

Abbreviation req := storageQuotaRequestFromReservation.

(** A reservation row replaced, removed, added, or none touched. *)
Lemma consistent_replaced s s1 s' id ws v w r a : consistent s ->
  reservation_of id ws s = Some v -> booking ws (rebill (req v) r a) s s1 ->
  usages s' = usages s1 -> reservations s' = <[id := w]> (reservations s) ->
  v_workspace_id w = ws -> req w = r -> reservation_ok w -> consistent s'.
Proof.
  intros Hc Hv Hb Hu Hr Hw Hreq Hok.
  destruct (rows_of_workspace s id v ws Hc Hv) as (Hid & Hvw & Hws & Hsome & _).
  eapply (consistent_book s s' ws _ Hc Hws Hsome (rebill_shift _ _ _)); [exact Hb|done|exact Hr| | |].
  - intros u Hru. rewrite rebill_reserved, Hru, reserved_by_sum. symmetry.
    pose proof (reserved_sum_replace ws _ id v w Hid) as H. rewrite !amount_here, Hreq in H by done.
    by apply amount_swap.
  - intros x Hx. rewrite reserved_by_sum. pose proof (reserved_sum_replace x _ id v w Hid) as H.
    rewrite !amount_elsewhere, !amount_add_0_l in H by congruence. done.
  - intros id' v'. destruct (decide (id' = id)) as [->|Hne].
    + rewrite lookup_insert_eq. intros [= <-]. split; [done|]. by rewrite Hw.
    + rewrite lookup_insert_ne by done. apply (c_reservations _ Hc).
Qed.

Lemma consistent_removed s s1 s' id ws v a : consistent s ->
  reservation_of id ws s = Some v -> booking ws (rebill (req v) no_request a) s s1 ->
  usages s' = usages s1 -> reservations s' = delete id (reservations s) -> consistent s'.
Proof.
  intros Hc Hv Hb Hu Hr.
  destruct (rows_of_workspace s id v ws Hc Hv) as (Hid & Hvw & Hws & Hsome & _).
  eapply (consistent_book s s' ws _ Hc Hws Hsome (rebill_shift _ _ _)); [exact Hb|done|exact Hr| | |].
  - intros u Hru. rewrite rebill_reserved, Hru, reserved_by_sum.
    pose proof (reserved_sum_delete ws _ id v Hid) as H. rewrite amount_here in H by done.
    by apply amount_move.
  - intros x Hx. rewrite reserved_by_sum. pose proof (reserved_sum_delete x _ id v Hid) as H.
    rewrite amount_elsewhere, amount_add_0_l in H by congruence. done.
  - intros id' v'. rewrite lookup_delete_Some. intros [_ H]. exact (c_reservations _ Hc id' v' H).
Qed.

Lemma consistent_added s s1 s' id ws w r : consistent s -> ws <> 0 -> is_Some (usages s !! ws) ->
  reservations s !! id = None -> booking ws (rebill no_request r no_request) s s1 ->
  usages s' = usages s1 -> reservations s' = <[id := w]> (reservations s) ->
  v_workspace_id w = ws -> req w = r -> reservation_ok w -> consistent s'.
Proof.
  intros Hc Hws Hsome Hid Hb Hu Hr Hw Hreq Hok.
  eapply (consistent_book s s' ws _ Hc Hws Hsome (rebill_shift _ _ _)); [exact Hb|done|exact Hr| | |].
  - intros u Hru. rewrite rebill_reserved, Hru, reserved_by_sum, (reserved_sum_insert ws _ id w Hid), (amount_here ws id w Hw), Hreq by done.
    unfold amount_add, amount_sub, no_request. destruct (reserved_sum ws (reservations s)), r. simpl. f_equal; lia.
  - intros x Hx. rewrite reserved_by_sum, (reserved_sum_insert x _ id w Hid), (amount_elsewhere x id w) by congruence.
    apply amount_add_0_l.
  - intros id' v'. destruct (decide (id' = id)) as [->|Hne].
    + rewrite lookup_insert_eq. intros [= <-]. split; [done|]. by rewrite Hw.
    + rewrite lookup_insert_ne by done. apply (c_reservations _ Hc).
Qed.

Lemma consistent_used s s' ws f : consistent s -> ws <> 0 -> is_Some (usages s !! ws) ->
  (forall a b, usage_add (f a) b = f (usage_add a b)) -> (forall u, reserved (f u) = reserved u) ->
  booking ws f s s' -> consistent s'.
Proof.
  intros Hc Hws Hsome Hshift Hf Hb. pose proof Hb as [Hs' _].
  eapply (consistent_book s s' ws f Hc Hws Hsome Hshift); [exact Hb|done|by rewrite Hs'| | |].
  - intros u Hu. by rewrite Hf, Hu.
  - done.
  - apply (c_reservations _ Hc).
Qed.

(** Changes elsewhere. *)
Lemma consistent_elsewhere s s' : usages s' = usages s -> reservations s' = reservations s ->
  consistent s -> consistent s'.
Proof.
  intros Hu Hr [Hg Hres Hrs Hcol]. split.
  - by rewrite Hu.
  - intros ws u. rewrite Hu, reserved_by_sum, Hr. apply Hres.
  - intros id v. rewrite Hr, Hu. apply Hrs.
  - intros k u. rewrite Hu. apply Hcol.
Qed.
End QuotaInvariant.
