(* ===== verification/QuotaSteps.v ===== *)
(** * Storage quota: every operation keeps the accounts

    Modules [QuotaSteps]: storage quota: every operation keeps the accounts;
    [QuotaTheorems]: storage quota: reachable accounts, exact admission, the sweep. *)

From Stdlib Require Import ZArith Lia Ascii String.
From stdpp Require Import base gmap strings list sorting relations.
From S2P Require Import Prelude GoStrings JobSchema JobStore MediaFragment SafeFailures Quota QuotaStore QuotaOps ResourceCleanup QuotaInvariant.

Module QuotaSteps.
Import GoStr JobStore MediaFragment UploadRef Quota QuotaStore QuotaOps QuotaFacts QuotaInvariant.
#[local] Open Scope Z_scope.

(** One check of a transaction taken off. *)
Tactic Notation "tx_check" hyp(H) "as" simple_intropattern(x) ident(K) :=
  let s1 := fresh "s" in
  apply tx_bind_Ok in H as (x & s1 & K & H); cbv beta in H; apply tx_lift_Ok in K as [K ->].

(** A request as the code passes it: four [uint64]. *)
Abbreviation wide := (in_range MaxUint64).

Lemma usub_sub a b : 0 <= b <= a -> a <= MaxUint64 -> usub a b = a - b.
Proof. unfold usub, MaxUint64. intros. apply Z.mod_small. lia. Qed.
Lemma wrap32u_id a : 0 <= a <= MaxUint32 -> wrap32u a = a.
Proof. unfold wrap32u, MaxUint32. intros. apply Z.mod_small. lia. Qed.
Lemma addUint64_Some a b c : 0 <= a <= MaxUint64 -> addUint64 a b = Some c <-> c = a + b /\ a + b <= MaxUint64.
Proof.
  intros Ha. unfold addUint64. rewrite usub_sub by lia.
  destruct (Z.gtb_spec b (MaxUint64 - a)); split; [done|lia|intros [= <-]; lia|intros [-> _]; done].
Qed.

Lemma validate_request_Ok r : wide r ->
  validateStorageQuotaRequest r = Ok tt <->
  Items r <= MaxUint32 /\ Images r <= MaxUint32 /\ Bytes r + DurableBytes r <= MaxUint64.
Proof.
  intros (Hb&Hd&Hi&Hm). unfold validateStorageQuotaRequest.
  destruct (Z.gtb_spec (Items r) MaxUint32); simpl; [split; [done|lia]|].
  destruct (Z.gtb_spec (Images r) MaxUint32); simpl; [split; [done|lia]|].
  destruct (addUint64 (Bytes r) (DurableBytes r)) eqn:E.
  - apply addUint64_Some in E; [|lia]. split; [lia|done].
  - split; [done|]. intros (_&_&Hsum).
    assert (Hadd : addUint64 (Bytes r) (DurableBytes r) = Some (Bytes r + DurableBytes r)) by (apply addUint64_Some; lia).
    congruence.
Qed.

Lemma update_params_Ok ws ex r key row : wide r -> ws <> 0 ->
  storageReservationUpdateParams ws ex r key = Ok row ->
  v_workspace_id row = ws /\ req row = r /\ reservation_ok row /\ v_resource_key row = key /\ v_expires_at row = ex.
Proof.
  intros Hr Hws H. unfold storageReservationUpdateParams in H.
  apply result_bind_Ok in H as ([] & Hv & [= <-]). apply validate_request_Ok in Hv as (Hi&Hm&Hb); [|done].
  pose proof Hr as (?&?&?&?). unfold req, reservation_ok, storageQuotaRequestFromReservation. simpl.
  rewrite !wrap32u_id by lia. destruct r; simpl in *. split_and!; done || lia.
Qed.

Lemma insert_params_Ok r key row : wide (R_Request r) -> R_WorkspaceID r <> 0 ->
  storageReservationInsertParams r key = Ok row ->
  v_workspace_id row = R_WorkspaceID r /\ req row = R_Request r /\ reservation_ok row.
Proof.
  intros Hr Hws H. unfold storageReservationInsertParams in H.
  destruct (update_params_Ok (R_WorkspaceID r) (R_ExpiresAt r) (R_Request r) key row Hr Hws H) as (?&?&?&_). done.
Qed.

Lemma update_reservation_Ok id ws set s s1 : update_reservation id ws set s = Ok (1, s1) ->
  exists v, reservation_of id ws s = Some v /\ s1 = set_reservations (<[id := set v]> (reservations s)) s.
Proof.
  unfold update_reservation. destruct (reservation_of id ws s) as [v|]; [|done].
  case_bool_decide; [done|]. intros [= <-]. eauto.
Qed.

Lemma delete_reservation_Ok id ws s s1 : DeleteStorageQuotaReservation id ws s = Ok (1, s1) ->
  exists v, reservation_of id ws s = Some v /\ s1 = set_reservations (delete id (reservations s)) s.
Proof. unfold DeleteStorageQuotaReservation. destruct (reservation_of id ws s) eqn:E; [|done]. intros [= <-]. eauto. Qed.

(** Statements that leave the accounts and the reservations alone. *)
Definition aside (s s' : qdb) : Prop := usages s' = usages s /\ reservations s' = reservations s.

Lemma aside_reservation_of s s' id ws : aside s s' -> reservation_of id ws s' = reservation_of id ws s.
Proof. intros [_ H]. unfold reservation_of. by rewrite H. Qed.

Lemma booking_reservations ws f s s' : booking ws f s s' -> reservations s' = reservations s.
Proof. by intros [-> _]. Qed.

Lemma booking_aside ws f s s1 s2 : ws <> 0 -> aside s s1 -> booking ws f s1 s2 ->
  exists s3, booking ws f s s3 /\ usages s2 = usages s3.
Proof.
  intros Hws [Hu Hr] [-> Hcol]. exists (book ws f s). split.
  - split; [done|]. intros Hs k u Hk. apply (Hcol ltac:(intros ??; rewrite Hu; apply Hs) k u).
    rewrite lookup_book in Hk |- * by done. by rewrite Hu.
  - unfold book. simpl. by rewrite Hu.
Qed.

Lemma lock_workspace_Ok ws s u s' : lockWorkspaceStorageQuotaUsage ws s = Ok (u, s') ->
  ws <> 0 /\ usages s !! ws = Some u /\ s' = s.
Proof.
  unfold lockWorkspaceStorageQuotaUsage. destruct (Z.eqb_spec ws 0); [done|].
  by intros [? ->]%one_row_Ok.
Qed.

(** ** The operations *)

Lemma reserve_consistent e ws r l s R s' : consistent s -> wide r ->
  ReserveStorageQuota e ws r l s = Ok (R, s') -> consistent s'.
Proof.
  intros Hc Hr H. unfold ReserveStorageQuota in H.
  destruct ((ws =? 0) || storageQuotaRequestEmpty r) eqn:E0; [done|]. apply orb_false_iff in E0 as [E0%Z.eqb_neq E1].
  tx_check H as [] Hk2. tx_check H as [] Hk3.
  tx_bind H as y s1 H1. apply one_row_Ok in H1 as [_ ->].
  tx_bind H as [g u] s1 H1. unfold lockStorageQuotaUsage in H1.
  rewrite (proj2 (Z.eqb_neq ws 0)) in H1 by done.
  tx_bind H1 as w s2 H2. apply lock_workspace_Ok in H2 as (Hws&Hu&->).
  tx_bind H1 as g0 s2 H2. apply one_row_Ok in H2 as [Hg ->]. injection H1 as <- <- <-.
  tx_check H as [] Hk4. tx_bind H as row s1 H1. apply tx_lift_Ok in H1 as [Hp ->].
  tx_bind H as [] s1 H1. tx_bind H as [] s2 H2. injection H as _ <-.
  unfold InsertStorageQuotaReservation in H1. destruct (reservations s !! uuid e) eqn:Eid; [done|].
  injection H1 as <-. apply insert_params_Ok in Hp as (Hw&Hq&Hok); simpl; [|done|done]. simpl in *.
  apply add_reserved_Ok in H2; [|done].
  eapply booking_ext in H2; [|done|]; last first.
  { intros a. instantiate (1 := rebill no_request r no_request). unfold rebill. by rewrite add_used_none, sub_reserved_none. }
  assert (Ha : exists s3, booking ws (rebill no_request r no_request) s s3 /\ usages s2 = usages s3).
  { destruct H2 as [-> Hcol]. exists (book ws (rebill no_request r no_request) s). split; [|done]. split; [done|].
    intros Hs k x Hk. apply (Hcol Hs k x Hk). }
  destruct Ha as (s3 & Hb & Hus). eapply (consistent_added s s3 s2 (uuid e) ws row r); eauto.
  apply booking_reservations in H2. by rewrite H2.
Qed.

Lemma staged_addition_Ok ws r key s n a s' : wide r -> columns_ok s ->
  staged_addition ws r key s = Ok ((n, a), s') -> s' = s /\ wide n.
Proof.
  intros Hr Hcol H. unfold staged_addition in H. destruct key as [key|].
  - tx_bind H as d s1 H1. apply one_row_Ok in H1 as [_ ->].
    destruct (negb _); [done|]. case_bool_decide; [done|]. injection H as <- _ <-. split; [done|].
    destruct Hr as (?&?&?&?). unfold in_range, with_Bytes. simpl. unfold MaxUint64 in *. split_and!; lia.
  - by injection H as <- _ <-.
Qed.

Lemma resize_consistent e R r l s R' s' : consistent s -> wide r ->
  ResizeStorageQuotaReservation e R r l s = Ok (R', s') -> consistent s'.
Proof.
  intros Hc Hr H. unfold ResizeStorageQuotaReservation in H. destruct (_ || storageQuotaRequestEmpty r); [done|].
  tx_check H as [] Hk6. tx_check H as [] Hk7.
  tx_bind H as u s1 H1. apply lock_workspace_Ok in H1 as (Hws&Hu&->).
  tx_bind H as v s1 H1. apply one_row_Ok in H1 as [Hv ->].
  tx_bind H as [n a] s1 H1. apply staged_addition_Ok in H1 as [-> Hn]; [|done|by apply c_columns].
  tx_bind H as g s1 H1. apply one_row_Ok in H1 as [Hg ->].
  tx_check H as [] Hk8. tx_bind H as [] s1 H1.
  assert (Ha : aside s s1) by (destruct (v_resource_key v); injection H1 as <-; done).
  tx_bind H as [] s2 H2. apply replace_accounting_Ok in H2; [|done].
  tx_bind H as row s3 H3. apply tx_lift_Ok in H3 as [Hp ->]. apply update_params_Ok in Hp as (Hw&Hq&Hok&_); [|done..].
  tx_bind H as [] s3 H3. apply quota_one_Ok, update_reservation_Ok in H3 as (v' & Hv' & ->). injection H as _ <-.
  pose proof (booking_reservations _ _ _ _ H2) as Hrs.
  destruct (booking_aside _ _ _ _ _ Hws Ha H2) as (s4 & Hb & Hus).
  eapply (consistent_replaced s s4 _ (R_ID R) (R_WorkspaceID R) v row n a); eauto.
  simpl. by rewrite Hrs, (proj2 Ha).
Qed.

Lemma reference_Ok ws key s d s' : lockUploadCleanupForReference ws key s = Ok (d, s') -> s' = s.
Proof.
  unfold lockUploadCleanupForReference. intros H. tx_bind H as c s1 H1. injection H1 as <- <-.
  destruct (LockResourceCleanupByKindKey UploadBlob key s) as [c|]; [|by injection H].
  destruct (negb _); [done|]. case_bool_decide; [done|]. by injection H.
Qed.

Lemma wide_with_Bytes r : wide r -> wide (with_Bytes 0 r).
Proof. intros (?&?&?&?). unfold in_range, with_Bytes, MaxUint64 in *. simpl. split_and!; lia. Qed.

Lemma stage_consistent `{UrlParser} e R url n l s s' : consistent s ->
  StageStorageQuotaUpload e R url n l s = Ok (tt, s') -> consistent s'.
Proof.
  intros Hc H0. unfold StageStorageQuotaUpload in H0. destruct (_ || (n =? 0)); [done|].
  tx_check H0 as [] Hk9. tx_check H0 as key Hk10.
  tx_bind H0 as u s1 H1. apply lock_workspace_Ok in H1 as (Hws&Hu&->).
  tx_bind H0 as v s1 H1. apply one_row_Ok in H1 as [Hv ->].
  destruct (reservation_of (R_ID R) (R_WorkspaceID R) s) as [v0|] eqn:Hv0; [|done].
  destruct (_ <? _); [|done]. injection Hv as ->.
  destruct (match v_resource_key v with Some _ => _ | None => _ end); [done|].
  tx_bind H0 as d s1 H1. apply reference_Ok in H1 as ->.
  tx_bind H0 as g s1 H1. apply one_row_Ok in H1 as [Hg ->].
  tx_check H0 as [] Hk11. tx_bind H0 as [] s1 H1. assert (Ha : aside s s1) by by injection H1 as <-.
  tx_bind H0 as [] s2 H2. apply replace_accounting_Ok in H2; [|done].
  apply quota_one_Ok, update_reservation_Ok in H0 as (v' & Hv' & ->).
  pose proof (booking_reservations _ _ _ _ H2) as Hrs.
  destruct (booking_aside _ _ _ _ _ Hws Ha H2) as (s4 & Hb & Hus).
  destruct (rows_of_workspace s _ v _ Hc Hv0) as (Hid & Hvw & _ & _ & Hok).
  assert (v' = v) as ->.
  { rewrite <- (aside_reservation_of s s1) in Hv0 by done. unfold reservation_of in *. rewrite Hrs in Hv'. congruence. }
  eapply (consistent_replaced s s4 _ (R_ID R) (R_WorkspaceID R) v (bound_reservation key v)); eauto.
  - simpl. by rewrite Hrs, (proj2 Ha).
  - destruct Hok as (?&Hw&?&?). split_and!; [done|by apply wide_with_Bytes in Hw|done|done].
Qed.

Lemma release_consistent R s s' : consistent s -> ReleaseStorageQuotaReservation R s = Ok (tt, s') -> consistent s'.
Proof.
  intros Hc H. unfold ReleaseStorageQuotaReservation in H. destruct (_ || _); [by injection H as <-|].
  tx_bind H as u s1 H1. apply lock_workspace_Ok in H1 as (Hws&Hu&->).
  tx_bind H as o s1 H1. injection H1 as <- <-.
  destruct (reservation_of (R_ID R) (R_WorkspaceID R) s) as [v|] eqn:Hv; [|by injection H as <-].
  tx_bind H as b s1 H1.
  assert (s1 = s) as ->.
  { destruct (v_resource_key v); [|by injection H1]. tx_bind H1 as n s2 H2. injection H2 as <- <-. by injection H1. }
  tx_bind H as g s1 H2. apply one_row_Ok in H2 as [_ ->].
  tx_bind H as [] s1 H2. apply sub_reserved_Ok in H2; [|done].
  tx_bind H as [] s2 H3. apply quota_one_Ok, delete_reservation_Ok in H3 as (v' & Hv' & ->).
  pose proof (booking_reservations _ _ _ _ H2) as Hrs.
  assert (Ha : aside (set_reservations (delete (R_ID R) (reservations s1)) s1) s').
  { destruct (v_resource_key v) as [key|]; [|by injection H as <-]. destruct b; [|by injection H as <-].
    tx_bind H as m s3 H3. injection H as <-. unfold DeleteResourceCleanupByKindKey in H3.
    destruct (cleanups _ !! _); injection H3 as _ <-; done. }
  destruct Ha as [Ha1 Ha2]. apply (booking_ext _ Hws _ (rebill (req v) no_request no_request)) in H2;
    [|intros a; unfold rebill; by rewrite add_used_none, add_reserved_none].
  eapply (consistent_removed s s1 s' (R_ID R) (R_WorkspaceID R) v no_request); eauto.
  rewrite Ha2. simpl. by rewrite Hrs.
Qed.

(** ** The sweep *)

Definition rows_total (rows : list (string * reservation_row)) : StorageQuotaRequest :=
  foldr (fun r acc => amount_add (req r.2) acc) no_request rows.
Definition without (rows : list (string * reservation_row)) (rs : gmap string reservation_row) :=
  foldl (fun m r => delete r.1 m) rs rows.
Definition rows_in (ws : Z) (rows : list (string * reservation_row)) (rs : gmap string reservation_row) : Prop :=
  NoDup rows.*1 /\ Forall (fun r => rs !! r.1 = Some r.2 /\ v_workspace_id r.2 = ws) rows.

Lemma rows_in_cons ws r rows rs : rows_in ws (r :: rows) rs ->
  rs !! r.1 = Some r.2 /\ v_workspace_id r.2 = ws /\ rows_in ws rows (delete r.1 rs).
Proof.
  intros [Hnd Hf]. apply Forall_cons in Hf as [[Hr Hw] Hf]. simpl in Hnd. apply NoDup_cons in Hnd as [Hni Hnd].
  split_and!; [done..|]. split; [done|]. apply Forall_forall. intros x Hx. rewrite Forall_forall in Hf.
  destruct (Hf x Hx) as [Hl ?]. split; [|done]. rewrite lookup_delete_ne; [done|].
  intros Heq. apply Hni. rewrite Heq. by apply list_elem_of_fmap_2.
Qed.

Lemma reserved_sum_without ws rows rs : rows_in ws rows rs ->
  reserved_sum ws rs = amount_add (rows_total rows) (reserved_sum ws (without rows rs)).
Proof.
  revert rs. induction rows as [|r rows IH]; intros rs Hin.
  - simpl. by rewrite amount_add_0_l.
  - apply rows_in_cons in Hin as (Hr & Hw & Hin). simpl. rewrite <- amount_add_assoc, <- IH by done.
    rewrite (reserved_sum_delete ws rs r.1 r.2 Hr). by rewrite amount_here.
Qed.

Lemma reserved_sum_without_other ws w rows rs : w <> ws -> rows_in ws rows rs ->
  reserved_sum w (without rows rs) = reserved_sum w rs.
Proof.
  intros Hne. revert rs. induction rows as [|r rows IH]; intros rs Hin; [done|].
  apply rows_in_cons in Hin as (Hr & Hw & Hin). simpl. rewrite IH by done.
  rewrite (reserved_sum_delete w rs r.1 r.2 Hr), amount_elsewhere, amount_add_0_l by congruence. done.
Qed.

Lemma lookup_without rows rs id :
  without rows rs !! id = if bool_decide (id ∈ rows.*1) then None else rs !! id.
Proof.
  revert rs. induction rows as [|r rows IH]; intros rs; [done|]. change (without (r :: rows) rs) with (without rows (delete r.1 rs)). rewrite IH. cbn [fmap list_fmap].
  destruct (decide (id = r.1)) as [->|Hne].
  - rewrite lookup_delete_eq, (bool_decide_eq_true_2 (r.1 ∈ r.1 :: _)) by set_solver. by case_bool_decide.
  - rewrite lookup_delete_ne by done. repeat case_bool_decide; set_solver.
Qed.

Lemma delete_reservations_run ws rows s : rows_in ws rows (reservations s) ->
  delete_reservations ws rows s = Ok (tt, set_reservations (without rows (reservations s)) s).
Proof.
  revert s. induction rows as [|r rows IH]; intros s Hin; [by destruct s|].
  apply rows_in_cons in Hin as (Hr & Hw & Hin). simpl.
  assert (Hd : DeleteStorageQuotaReservation r.1 ws s = Ok (1, set_reservations (delete r.1 (reservations s)) s)).
  { unfold DeleteStorageQuotaReservation, reservation_of. rewrite Hr, Hw, Z.eqb_refl. done. }
  unfold requireOneAffected. cbv [mbind tx_bind]. rewrite Hd. simpl. by rewrite IH.
Qed.

Lemma addition_Ok t v t' : wide t -> add_reservation t v = Ok t' -> t' = amount_add t (req v).
Proof.
  intros (?&?&?&?) Hrun. unfold add_reservation in Hrun.
  apply result_bind_Ok in Hrun as (b & Hb & Hrun). apply of_option_Ok, addUint64_Some in Hb as [-> _]; [|lia].
  apply result_bind_Ok in Hrun as (d & Hd & Hrun). apply of_option_Ok, addUint64_Some in Hd as [-> _]; [|lia].
  apply result_bind_Ok in Hrun as (i & Hi & Hrun). apply of_option_Ok, addUint64_Some in Hi as [-> _]; [|lia].
  apply result_bind_Ok in Hrun as (m & Hm & Hrun). apply of_option_Ok, addUint64_Some in Hm as [-> _]; [|lia].
  by injection Hrun as <-.
Qed.

Lemma addition_total t v : wide t -> wide (req v) -> wide (amount_add t (req v)) ->
  add_reservation t v = Ok (amount_add t (req v)).
Proof.
  intros (?&?&?&?) (?&?&?&?) (Hb&Hd&Hi&Hm). unfold amount_add, req, storageQuotaRequestFromReservation in *. simpl in *.
  unfold add_reservation.
  rewrite (proj2 (addUint64_Some (Bytes t) (v_reserved_bytes v) _ ltac:(lia))) by (split; [reflexivity|lia]). simpl.
  rewrite (proj2 (addUint64_Some (DurableBytes t) (v_reserved_database_bytes v) _ ltac:(lia))) by (split; [reflexivity|lia]). simpl.
  rewrite (proj2 (addUint64_Some (Items t) (v_reserved_items v) _ ltac:(lia))) by (split; [reflexivity|lia]). simpl.
  rewrite (proj2 (addUint64_Some (Images t) (v_reserved_images v) _ ltac:(lia))) by (split; [reflexivity|lia]). done.
Qed.

Lemma amount_le_wide a b : in_range MaxUint64 b -> amount_le a b -> 0 <= Bytes a /\ 0 <= DurableBytes a /\ 0 <= Items a /\ 0 <= Images a -> wide a.
Proof. unfold amount_le, in_range. intros. lia. Qed.

(** The total of rows whose sum fits does not overflow on the way. *)
Lemma sweep_total_run t rows : wide t -> Forall (fun r => wide (req r.2)) rows ->
  wide (amount_add t (rows_total rows)) -> sweep_total t rows = Ok (amount_add t (rows_total rows)).
Proof.
  revert t. induction rows as [|r rows IH]; intros t Ht Hf Hw.
  - simpl. rewrite amount_add_comm, amount_add_0_l. done.
  - apply Forall_cons in Hf as [Hr Hf]. cbn [sweep_total].
    assert (Hnn : forall l, Forall (fun r => wide (req r.2)) l ->
      0 <= Bytes (rows_total l) /\ 0 <= DurableBytes (rows_total l) /\ 0 <= Items (rows_total l) /\ 0 <= Images (rows_total l)).
    { clear. induction 1 as [|x l (?&?&?&?) _ IH]; [simpl; lia|]. simpl in *. lia. }
    specialize (Hnn rows Hf). cbn [rows_total foldr] in Hw |- *. fold (rows_total rows) in *.
    rewrite amount_add_assoc in Hw |- *.
    assert (Hw1 : wide (amount_add t (req r.2))).
    { destruct Ht as (?&?&?&?), Hr as (?&?&?&?), Hw as (?&?&?&?). unfold amount_add, in_range in *. simpl in *. lia. }
    rewrite addition_total by done. change (sweep_total (amount_add t (req r.2)) rows
      = Ok (amount_add (amount_add t (req r.2)) (rows_total rows))). by apply IH.
Qed.

Lemma sweep_total_Ok t rows t' : wide t -> Forall (fun r => wide (req r.2)) rows ->
  sweep_total t rows = Ok t' -> t' = amount_add t (rows_total rows).
Proof.
  revert t. induction rows as [|r rows IH]; intros t Ht Hf H.
  - injection H as <-. simpl. by rewrite amount_add_comm, amount_add_0_l.
  - apply Forall_cons in Hf as [Hr Hf]. cbn [sweep_total] in H. apply result_bind_Ok in H as (t1 & H1 & H).
    assert (Hw : wide t1).
    { unfold add_reservation in H1. destruct Ht as (Ht1&Ht2&Ht3&Ht4), Hr as (Hr1&Hr2&Hr3&Hr4).
      unfold req, storageQuotaRequestFromReservation in *. simpl in *.
      apply result_bind_Ok in H1 as (b & Hb & H1). apply of_option_Ok, addUint64_Some in Hb as [-> ?]; [|lia].
      apply result_bind_Ok in H1 as (d & Hd & H1). apply of_option_Ok, addUint64_Some in Hd as [-> ?]; [|lia].
      apply result_bind_Ok in H1 as (i & Hi & H1). apply of_option_Ok, addUint64_Some in Hi as [-> ?]; [|lia].
      apply result_bind_Ok in H1 as (m & Hm & H1). apply of_option_Ok, addUint64_Some in Hm as [-> ?]; [|lia].
      injection H1 as <-. unfold in_range. simpl. lia. }
    apply addition_Ok in H1 as ->; [|done]. apply IH in H as ->; [|done..]. simpl. by rewrite amount_add_assoc.
Qed.

Lemma expired_rows_in now ws limit locked s :
  rows_in ws (LockExpiredStorageQuotaReservations now ws limit locked s) (reservations s).
Proof.
  unfold LockExpiredStorageQuotaReservations.
  set (l := filter _ (map_to_list (reservations s))).
  assert (Hnd : NoDup (merge_sort expires_first l).*1).
  { rewrite (merge_sort_Permutation expires_first l). subst l. eapply sublist_NoDup; [apply (NoDup_fst_map_to_list (reservations s))|].
    apply fmap_sublist, sublist_filter. }
  assert (Hin : forall x, x ∈ merge_sort expires_first l -> reservations s !! x.1 = Some x.2 /\ v_workspace_id x.2 = ws).
  { intros [k v]. rewrite (merge_sort_Permutation expires_first l). subst l. rewrite list_elem_of_filter. intros [[_ He] Hm].
    apply elem_of_map_to_list in Hm. simpl in *. unfold expired in He. split_bools. done. }
  split.
  - rewrite fmap_take. eapply sublist_NoDup; [exact Hnd|apply sublist_take].
  - apply Forall_take, Forall_forall. exact Hin.
Qed.

Lemma amount_add_0_r a : amount_add a no_request = a.
Proof. by rewrite amount_add_comm, amount_add_0_l. Qed.

Lemma wide_none : wide no_request.
Proof. unfold in_range, no_request, MaxUint64. simpl. lia. Qed.

Lemma rows_wide s ws rows : consistent s -> rows_in ws rows (reservations s) -> Forall (fun r => wide (req r.2)) rows.
Proof.
  intros Hc [_ Hf]. eapply Forall_impl; [exact Hf|]. intros r [Hr _].
  destruct (c_reservations _ Hc _ _ Hr) as [(_&?&_) _]. done.
Qed.

(** Rows of a workspace whose amounts leave the reserved counters and that are deleted. *)
Lemma swept_consistent s s1 s' ws rows : consistent s -> ws <> 0 -> is_Some (usages s !! ws) ->
  rows_in ws rows (reservations s) -> booking ws (sub_reserved (rows_total rows)) s s1 ->
  usages s' = usages s1 -> reservations s' = without rows (reservations s) -> consistent s'.
Proof.
  intros Hc Hws Hsome Hin Hb Hu Hr.
  eapply (consistent_book s s' ws (sub_reserved (rows_total rows)) Hc Hws Hsome); [|exact Hb|done|exact Hr| | |].
  - intros a b. amount_eq.
  - intros u Hru. rewrite reserved_by_sum, (reserved_sum_without ws rows _ Hin) in Hru.
    replace (reserved (sub_reserved (rows_total rows) u)) with (amount_sub (reserved u) (rows_total rows)) by done.
    rewrite Hru. apply amount_sub_add.
  - intros w Hw. by rewrite (reserved_sum_without_other ws w rows).
  - intros id v. rewrite lookup_without. case_bool_decide; [done|]. apply (c_reservations _ Hc).
Qed.

Lemma sweep_candidate now locked s ws : LockStorageQuotaSweepWorkspace now locked s = Some ws ->
  ws <> 0 /\ (ws ∉ locked) /\ is_Some (usages s !! ws) /\ exists id v, reservations s !! id = Some v /\ expired now ws v = true.
Proof.
  unfold LockStorageQuotaSweepWorkspace. set (l := filter _ _). intros H.
  assert (Hin : ws ∈ merge_sort Z.le l) by (destruct (merge_sort Z.le l); simplify_eq/=; set_solver).
  rewrite (merge_sort_Permutation Z.le l) in Hin. subst l.
  apply list_elem_of_filter in Hin as [(Hws & Hl & He) Hd]. apply elem_of_elements, elem_of_dom in Hd.
  split_and!; [done..|]. apply Exists_exists in He as ([id v] & Hm & Hv). apply elem_of_map_to_list in Hm. eauto.
Qed.

Lemma sweep_consistent e locked n s k s' : consistent s ->
  SweepExpiredStorageQuotaReservations e locked n s = Ok (k, s') -> consistent s'.
Proof.
  intros Hc H. unfold SweepExpiredStorageQuotaReservations in H. destruct (_ || _); [done|].
  tx_bind H as c s1 H1. injection H1 as <- <-.
  destruct (LockStorageQuotaSweepWorkspace _ _ s) as [ws|] eqn:Hcand; [|by injection H as _ <-].
  apply sweep_candidate in Hcand as (Hws & _ & Hsome & _).
  tx_bind H as rows s1 H1. injection H1 as Hrows <-.
  pose proof (expired_rows_in (go_now e) ws (Z.to_nat n) locked s) as Hin. rewrite Hrows in Hin.
  destruct rows as [|r0 rows0]; [by injection H as _ <-|]. set (rows := r0 :: rows0) in *.
  tx_check H as total Ht. apply sweep_total_Ok in Ht as ->; [|apply wide_none|by eapply rows_wide].
  rewrite amount_add_0_l in H.
  tx_bind H as g s1 H1. apply one_row_Ok in H1 as [_ ->].
  tx_bind H as [] s1 H1. apply sub_reserved_Ok in H1; [|done].
  tx_bind H as [] s2 H2. injection H as _ <-. pose proof (booking_reservations _ _ _ _ H1) as Hrs.
  rewrite delete_reservations_run in H2 by by rewrite Hrs. injection H2 as <-.
  eapply (swept_consistent s s1 _ ws rows); eauto. simpl. by rewrite Hrs.
Qed.

Lemma transfer_consistent id v a s s' : consistent s -> reservations s !! id = Some v -> wide a ->
  transferStorageQuotaReservationToUsed id v a s = Ok (tt, s') -> consistent s'.
Proof.
  intros Hc Hid Ha H. unfold transferStorageQuotaReservationToUsed in H.
  destruct (_ || storageQuotaRequestEmpty a) eqn:E; [done|]. tx_check H as [] Hv1.
  destruct (c_reservations _ Hc _ _ Hid) as [Hok Hsome]. pose proof Hok as (Hws & Hwide & Hi & Hm).
  destruct ((Bytes (req v) <? Bytes a) || (DurableBytes (req v) <? DurableBytes a)
    || (Items (req v) <? Items a) || (Images (req v) <? Images a)) eqn:Hcov; [done|].
  apply orb_false_iff in Hcov as [[[Hc1%Z.ltb_ge Hc2%Z.ltb_ge]%orb_false_iff Hc3%Z.ltb_ge]%orb_false_iff Hc4%Z.ltb_ge].
  pose proof Hwide as (Hw1&Hw2&Hw3&Hw4). destruct Ha as (Ha1&Ha2&Ha3&Ha4).
  rewrite !usub_sub in H by lia. set (r := {| Bytes := _ |}) in H.
  assert (Hr : wide r) by (unfold in_range, r; cbn [Bytes DurableBytes Items Images]; lia).
  tx_bind H as u s1 H1. apply one_row_Ok in H1 as [Hu ->].
  tx_bind H as g s1 H1. apply one_row_Ok in H1 as [Hg ->]. tx_check H as [] Hchk.
  tx_bind H as [] s1 H1. apply replace_accounting_Ok in H1; [|done].
  tx_check H as row Hp. apply update_params_Ok in Hp as (Hw&Hq&Hokr&_); [|done..].
  apply quota_one_Ok, update_reservation_Ok in H as (v' & Hv' & ->).
  pose proof (booking_reservations _ _ _ _ H1) as Hrs.
  eapply (consistent_replaced s s1 _ id (v_workspace_id v) v row r a); eauto.
  - unfold reservation_of. by rewrite Hid, Z.eqb_refl.
  - simpl. by rewrite Hrs.
Qed.

Lemma retire_consistent R v a l s s' : consistent s ->
  reservation_of (R_ID R) (R_WorkspaceID R) s = Some v ->
  retireSingleFileIngestReservation R v a l s = Ok (tt, s') -> consistent s'.
Proof.
  intros Hc Hv H. unfold retireSingleFileIngestReservation in H.
  destruct (rows_of_workspace s _ v _ Hc Hv) as (Hid & Hvw & Hws & Hsome & Hok).
  tx_bind H as g s1 H1. apply one_row_Ok in H1 as [Hg ->].
  tx_bind H as u s1 H1. apply one_row_Ok in H1 as [Hu ->]. tx_check H as [] Hchk.
  tx_bind H as [] s1 H1. apply replace_accounting_Ok in H1; [|done].
  tx_bind H as [] s2 H2.
  assert (Ha : aside s1 s2).
  { destruct (v_resource_key v); [|by injection H2 as <-]. apply quota_one_Ok in H2.
    unfold DeleteResourceCleanupByKindKey in H2. destruct (cleanups s1 !! _); [|done]. by injection H2 as <-. }
  apply quota_one_Ok, delete_reservation_Ok in H as (v' & _ & ->).
  pose proof (booking_reservations _ _ _ _ H1) as Hrs.
  eapply (consistent_removed s s1 _ (R_ID R) (R_WorkspaceID R) v a); eauto.
  - simpl. apply Ha.
  - simpl. by rewrite (proj2 Ha), Hrs.
Qed.

(** ** Used amounts of other stores *)

Lemma add_used_consistent ws r s s' : consistent s -> ws <> 0 -> is_Some (usages s !! ws) ->
  addStorageQuotaUsed ws r s = Ok (tt, s') -> consistent s'.
Proof.
  intros Hc Hws Hsome H%add_used_Ok; [|done].
  apply (consistent_used s s' ws (add_used r) Hc Hws Hsome); [intros a b; amount_eq|done|done].
Qed.

Lemma sub_used_consistent ws r s s' : consistent s -> ws <> 0 -> is_Some (usages s !! ws) ->
  subtractStorageQuotaUsed ws r s = Ok (tt, s') -> consistent s'.
Proof.
  intros Hc Hws Hsome H%sub_used_Ok; [|done].
  apply (consistent_used s s' ws (sub_used r) Hc Hws Hsome); [intros a b; amount_eq|done|done].
Qed.

Lemma delta_consistent ws b a s s' : consistent s -> ws <> 0 -> is_Some (usages s !! ws) ->
  applyStorageQuotaUsedDelta ws b a s = Ok (tt, s') -> consistent s'.
Proof.
  unfold applyStorageQuotaUsedDelta. intros Hc Hws Hsome.
  destruct (a >? b); [by apply add_used_consistent|]. destruct (b >? a); [by apply sub_used_consistent|].
  by intros [= <-].
Qed.

Lemma delta_limits_consistent ws b a l s s' : consistent s -> ws <> 0 -> is_Some (usages s !! ws) ->
  applyStorageQuotaUsedDeltaWithLimits ws b a l s = Ok (tt, s') -> consistent s'.
Proof.
  unfold applyStorageQuotaUsedDeltaWithLimits. intros Hc Hws Hsome H. tx_bind H as [] s1 H1.
  assert (s1 = s) as ->.
  { destruct (a >? b); [|by injection H1].
    tx_bind H1 as u s2 H2. apply one_row_Ok in H2 as [_ ->].
    tx_bind H1 as g s2 H2. apply one_row_Ok in H2 as [_ ->]. by apply tx_lift_Ok in H1 as [_ ->]. }
  by eapply delta_consistent.
Qed.

Lemma ensure_consistent ws s s' : consistent s -> ws <> 0 ->
  EnsureStorageQuotaUsage ws s = Ok (tt, s') -> consistent s'.
Proof.
  intros Hc Hws [= <-]. destruct (usages s !! ws) as [u|] eqn:E; [done|]. split.
  - simpl. rewrite lookup_insert_ne by done. rewrite (c_global _ Hc). f_equal. unfold tenant_total.
    rewrite msum_insert by (apply usage_add_comm || apply usage_add_assoc || done).
    unfold tenant_row at 2. rewrite (proj2 (Z.eqb_neq ws 0)) by done. by rewrite usage_add_0_l.
  - intros w u Hw. simpl. destruct (decide (w = ws)) as [->|Hne].
    + rewrite lookup_insert_eq. intros [= <-]. rewrite reserved_by_sum. simpl.
      assert (Hz : forall rs, (forall id v, rs !! id = Some v -> v_workspace_id v <> ws) -> reserved_sum ws rs = no_request).
      { induction rs as [|id v rs Hid IH] using map_ind; intros Hn; [done|].
        rewrite reserved_sum_insert, amount_elsewhere, amount_add_0_l by (done || (apply (Hn id); by rewrite lookup_insert_eq)).
        apply IH. intros id' v' Hv'. apply (Hn id'). rewrite lookup_insert_ne; [done|congruence]. }
      symmetry. apply Hz. intros id v Hv Heq. destruct (c_reservations _ Hc id v Hv) as [_ [x Hx]]. congruence.
    + rewrite lookup_insert_ne by done. by apply (c_reserved _ Hc).
  - intros id v Hv. destruct (c_reservations _ Hc id v Hv) as [Hok [x Hx]]. split; [done|]. simpl.
    rewrite lookup_insert_ne by congruence. eauto.
  - intros k u. simpl. rewrite lookup_insert_Some. intros [[<- <-]|[_ Hu]]; [done|]. by eapply (c_columns _ Hc).
Qed.
End QuotaSteps.

(** * Storage quota: reachable accounts, exact admission, the sweep *)

Module QuotaTheorems.
Import GoStr JobStore SafeFailures MediaFragment UploadRef Quota QuotaStore QuotaOps ResourceCleanup QuotaFacts QuotaInvariant QuotaSteps.
#[local] Open Scope Z_scope.

(** ** Histories

    The database starts with the rows of the migration; each committed operation is a
    step, and the other stores change the tables that are not accounts. *)

Definition initial_qdb : qdb :=
  {| usages := <[0 := no_usage]> (<[1 := no_usage]> ∅); reservations := ∅; cleanups := ∅; next_cleanup_id := 1;
     workspaces := {[1]}; item_rows := []; image_rows := []; payload_rows := [] |}.

Section history.
Context `{UrlParser}.

Inductive qstep (s : qdb) : qdb -> Prop :=
| st_reserve e ws r l R s' : wide r -> ReserveStorageQuota e ws r l s = Ok (R, s') -> qstep s s'
| st_resize e R r l R' s' : wide r -> ResizeStorageQuotaReservation e R r l s = Ok (R', s') -> qstep s s'
| st_stage e R url n l s' : StageStorageQuotaUpload e R url n l s = Ok (tt, s') -> qstep s s'
| st_release R s' : ReleaseStorageQuotaReservation R s = Ok (tt, s') -> qstep s s'
| st_sweep e locked n k s' : SweepExpiredStorageQuotaReservations e locked n s = Ok (k, s') -> qstep s s'
| st_transfer id v a s' : reservations s !! id = Some v -> wide a ->
    transferStorageQuotaReservationToUsed id v a s = Ok (tt, s') -> qstep s s'
| st_retire R v a l s' : reservation_of (R_ID R) (R_WorkspaceID R) s = Some v ->
    retireSingleFileIngestReservation R v a l s = Ok (tt, s') -> qstep s s'
| st_delta ws b a l s' : lockStorageQuotaGuards ws s = Ok (tt, s) ->
    applyStorageQuotaUsedDeltaWithLimits ws b a l s = Ok (tt, s') -> qstep s s'
| st_used ws r s' : lockStorageQuotaGuards ws s = Ok (tt, s) -> addStorageQuotaUsed ws r s = Ok (tt, s') -> qstep s s'
| st_unused ws r s' : lockStorageQuotaGuards ws s = Ok (tt, s) -> subtractStorageQuotaUsed ws r s = Ok (tt, s') -> qstep s s'
| st_workspace ws s' : ws <> 0 -> EnsureStorageQuotaUsage ws s = Ok (tt, s') -> qstep s s'
| st_claim e t d s' : ClaimResourceCleanup e t s = Ok (d, s') -> qstep s s'
| st_begin e d b s' : BeginUploadBlobRetirement e d s = Ok (b, s') -> qstep s s'
| st_complete d b s' : CompleteResourceCleanup d b s = Ok (tt, s') -> qstep s s'
| st_retry e d c t s' : RetryResourceCleanup e d c t s = Ok (tt, s') -> qstep s s'
| st_elsewhere s' : aside s s' -> qstep s s'.

Lemma guards_Ok ws s x s' : lockStorageQuotaGuards ws s = Ok (x, s') -> ws <> 0 /\ is_Some (usages s !! ws) /\ s' = s.
Proof.
  unfold lockStorageQuotaGuards. destruct (Z.eqb_spec ws 0); [done|]. intros Hg.
  tx_bind Hg as u s1 H1. apply lock_workspace_Ok in H1 as (?&?&->). injection Hg as _ <-. eauto.
Qed.

Lemma update_cleanups_aside wh f s n s' : update_cleanups wh f s = Ok (n, s') -> aside s s'.
Proof. unfold update_cleanups. by intros [= _ <-]. Qed.
Lemma delete_cleanups_aside wh s n s' : delete_cleanups wh s = Ok (n, s') -> aside s s'.
Proof. unfold delete_cleanups. by intros [= _ <-]. Qed.
Lemma cleanup_affected_Ok m (s : qdb) x s' : requireCleanupAffected m s = Ok (x, s') -> m s = Ok (1, s').
Proof.
  unfold requireCleanupAffected. intros Hm. tx_bind Hm as n s1 H1.
  destruct (Z.eqb_spec n 1) as [->|]; [|done]. by injection Hm as _ <-.
Qed.
Lemma aside_trans s1 s2 s3 : aside s1 s2 -> aside s2 s3 -> aside s1 s3.
Proof. intros [??] [??]. split; congruence. Qed.
Lemma aside_consistent s s' : aside s s' -> consistent s -> consistent s'.
Proof. intros [??]. by apply consistent_elsewhere. Qed.

Lemma claim_aside e t s d s' : ClaimResourceCleanup e t s = Ok (d, s') -> aside s s'.
Proof.
  unfold ClaimResourceCleanup. intros Hr. tx_bind Hr as [] s1 H1.
  unfold FailExhaustedResourceCleanups in H1. tx_bind H1 as n s2 H2. apply update_cleanups_aside in H2. injection H1 as <-.
  tx_bind Hr as o s3 H3. injection H3 as <- <-.
  destruct (SelectResourceCleanupForUpdate _ _ _) as [[[k key] c]|]; [|by injection Hr as _ <-].
  tx_bind Hr as m s4 H4. apply update_cleanups_aside in H4.
  destruct (negb (m =? 1)); injection Hr as _ <-; by eapply aside_trans.
Qed.

Lemma begin_aside e d s b s' : BeginUploadBlobRetirement e d s = Ok (b, s') -> aside s s'.
Proof.
  unfold BeginUploadBlobRetirement. intros Hr. destruct (_ || bool_decide (D_LeaseOwner d = ""%string)); [done|].
  tx_bind Hr as [] s1 H1. apply guards_Ok in H1 as (_&_&->). tx_bind Hr as o s1 H1. injection H1 as <- <-.
  destruct (LockResourceCleanupByKindKey _ _ s) as [c|]; [|done].
  destruct (_ || negb (bool_decide (d_locked_by c = _))); [done|]. case_bool_decide; [by injection Hr as _ <-|].
  tx_bind Hr as n s1 H1. injection H1 as <- <-. destruct (negb (_ =? 0)); [by injection Hr as _ <-|].
  tx_bind Hr as [] s1 H1. injection Hr as _ <-. apply cleanup_affected_Ok, update_cleanups_aside in H1. done.
Qed.

Lemma complete_consistent d b s s' : consistent s -> CompleteResourceCleanup d b s = Ok (tt, s') -> consistent s'.
Proof.
  unfold CompleteResourceCleanup. intros Hc Hr. destruct (_ || _).
  { apply cleanup_affected_Ok, delete_cleanups_aside in Hr. by eapply aside_consistent. }
  destruct (D_WorkspaceID d =? 0); [done|].
  tx_bind Hr as [] s1 H1. apply guards_Ok in H1 as (Hws&Hsome&->).
  tx_bind Hr as [] s1 H1. apply cleanup_affected_Ok, delete_cleanups_aside in H1.
  pose proof (aside_consistent _ _ H1 Hc) as Hc1.
  destruct (D_StorageBytes d >? 0); [|by injection Hr as <-].
  eapply sub_used_consistent; [exact Hc1|exact Hws| |exact Hr]. by rewrite (proj1 H1).
Qed.

Lemma step_consistent s s' : consistent s -> qstep s s' -> consistent s'.
Proof.
  intros Hc. destruct 1.
  - by eapply reserve_consistent.
  - by eapply resize_consistent.
  - by eapply stage_consistent.
  - by eapply release_consistent.
  - by eapply sweep_consistent.
  - by eapply transfer_consistent.
  - by eapply retire_consistent.
  - match goal with Hg : lockStorageQuotaGuards _ _ = _ |- _ => apply guards_Ok in Hg as (?&?&_) end.
    by eapply delta_limits_consistent.
  - match goal with Hg : lockStorageQuotaGuards _ _ = _ |- _ => apply guards_Ok in Hg as (?&?&_) end.
    by eapply add_used_consistent.
  - match goal with Hg : lockStorageQuotaGuards _ _ = _ |- _ => apply guards_Ok in Hg as (?&?&_) end.
    by eapply sub_used_consistent.
  - by eapply ensure_consistent.
  - eapply aside_consistent; [|exact Hc]. by eapply claim_aside.
  - eapply aside_consistent; [|exact Hc]. by eapply begin_aside.
  - by eapply complete_consistent.
  - eapply aside_consistent; [|exact Hc]. by eapply update_cleanups_aside, cleanup_affected_Ok.
  - by eapply aside_consistent.
Qed.

Lemma initial_consistent : consistent initial_qdb.
Proof.
  split.
  - vm_compute. done.
  - intros ws u Hws. simpl. rewrite lookup_insert_ne by done. rewrite lookup_insert_Some, lookup_empty.
    intros [[<- <-]|[_ ?]]; [|done]. done.
  - intros id v. simpl. by rewrite lookup_empty.
  - intros k u. simpl. rewrite !lookup_insert_Some, lookup_empty. naive_solver.
Qed.

(** C3: After any history of operations the accounts agree: the global usage row is the sum of the
    rows of the workspaces in every counter, what each workspace row counts as reserved is the sum
    of the reservations the workspace holds, every reservation has an owner with an account, and
    no counter has left its 64-bit column. *)
Theorem quota_accounts_agree s : rtc qstep initial_qdb s -> consistent s.
Proof.
  intros Hs. assert (Hi : consistent initial_qdb) by apply initial_consistent.
  induction Hs as [|s1 s2 s3 Hstep _ IH]; [done|]. apply IH. by eapply step_consistent.
Qed.
End history.
End QuotaTheorems.
