(* ===== verification/QuotaAdmission.v ===== *)
(** * Storage quota: admission is exact, expired reservations are freed

    Modules [QuotaAdmission]: storage quota: admission is exact, expired reservations are freed;
    [QuotaSweep]: storage quota: reservations can always be given back;
    [QuotaRebuild]: storage quota: the rebuild makes the accounts agree again. *)

From Stdlib Require Import ZArith Lia Ascii String.
From stdpp Require Import base gmap strings list sorting relations.
From S2P Require Import Prelude GoStrings JobSchema JobStore MediaFragment Quota QuotaStore QuotaOps QuotaInvariant QuotaSteps.

Module QuotaAdmission.
Import GoStr JobStore MediaFragment UploadRef Quota QuotaStore QuotaOps QuotaFacts QuotaInvariant QuotaSteps.
#[local] Open Scope Z_scope.

(** ** Statements that succeed *)

Lemma update_usages_run ws wh f s u g : ws <> 0 ->
  usages s !! ws = Some u -> usages s !! 0 = Some g -> wh u = true -> wh g = true ->
  columns (f u) = true -> columns (f g) = true ->
  exists n, update_usages ws wh f s = Ok (n, book ws f s) /\ (f u <> u -> f g <> g -> n = 2).
Proof.
  intros Hws Hu Hg Hwu Hwg Hcu Hcg. unfold update_usages. fold (booked ws wh (usages s)).
  assert (Hrow : forall k r, booked ws wh (usages s) !! k = Some r -> (k = 0 /\ r = g) \/ (k = ws /\ r = u)).
  { intros k r (Hr & [->| ->] & _)%lookup_booked; [left|right]; split; congruence. }
  rewrite bool_decide_eq_true_2.
  2:{ intros k r [[-> ->]|[-> ->]]%Hrow; done. }
  eexists. split.
  - unfold book. rewrite booked_union; [done|done|]. intros k r [->| ->] Hr; congruence.
  - intros Hnu Hng. rewrite <- size_dom.
    assert (Hd : dom (filter (fun kr : Z * StorageQuotaUsage => f kr.2 <> kr.2) (booked ws wh (usages s))) = {[0; ws]}).
    { apply set_eq. intros k. rewrite elem_of_dom. split.
      - intros [r [Hr _]%map_lookup_filter_Some]. apply Hrow in Hr. set_solver.
      - rewrite elem_of_union, !elem_of_singleton. intros [->| ->].
        + exists g. apply map_lookup_filter_Some. split; [|done]. apply lookup_booked. auto.
        + exists u. apply map_lookup_filter_Some. split; [|done]. apply lookup_booked. auto. }
    rewrite Hd, size_union, !size_singleton by set_solver. done.
Qed.

(** ** The checks *)

Lemma exceeds_exact u r q l : 0 <= u <= MaxUint64 -> 0 <= r <= MaxUint64 -> 0 <= q <= MaxUint64 -> 0 <= l <= MaxUint64 ->
  exceedsStorageLimit u r q l = false <-> u + r + q <= l.
Proof.
  intros Hu Hr Hq Hl. unfold exceedsStorageLimit.
  destruct (Z.gtb_spec u l); simpl; [split; [done|lia]|]. rewrite (usub_sub l u) by lia.
  destruct (Z.gtb_spec r (l - u)); [split; [done|lia]|]. rewrite usub_sub by lia.
  destruct (Z.gtb_spec q (l - u - r)); split; done || lia.
Qed.

Definition limits_wide (l : StorageQuotaLimits) : Prop :=
  (0 <= MaxBytesPerWorkspace l <= MaxUint64) /\ (0 <= MaxBytesTotal l <= MaxUint64) /\
  (0 <= MaxItemsPerWorkspace l <= MaxUint64) /\ (0 <= MaxItemsTotal l <= MaxUint64) /\
  (0 <= MaxImagesPerWorkspace l <= MaxUint64) /\ (0 <= MaxImagesTotal l <= MaxUint64).

Lemma first_exceeded_Ok cs : first_exceeded cs = Ok tt <-> Forall (fun c => over_limit c = false) cs.
Proof.
  induction cs as [|c cs IH]; simpl; [by split|]. rewrite Forall_cons. destruct (over_limit c); [|tauto].
  split; [done|by intros [? _]].
Qed.
Lemma first_exceeded_Err cs e : first_exceeded cs = Err e -> exists what, e = EExceeded what.
Proof. induction cs as [|c cs IH]; simpl; [done|]. destruct (over_limit c); [intros [= <-]; eauto|done]. Qed.

Lemma counters_Err g u r l e : checkStorageQuotaCounters g u r l = Err e -> exists what, e = EExceeded what.
Proof.
  unfold checkStorageQuotaCounters. cbv [mbind result_bind of_option].
  repeat match goal with |- context [match ?o with Some _ => Ok _ | None => _ end] => destruct o end;
    try (intros [= <-]; eauto). apply first_exceeded_Err.
Qed.

Lemma sum_Some a b : 0 <= a <= MaxUint64 -> a + b <= MaxUint64 -> addUint64 a b = Some (a + b).
Proof. intros ??. apply addUint64_Some; lia. Qed.
Lemma sum_None a b : 0 <= a <= MaxUint64 -> MaxUint64 < a + b -> addUint64 a b = None.
Proof. intros Ha Hb. destruct (addUint64 a b) eqn:E; [|done]. apply addUint64_Some in E; lia. Qed.

(** On counters that fit their columns the check is the comparison of unbounded sums. *)
Lemma counters_exact g u r l : usage_in_range g -> usage_in_range u -> wide r -> limits_wide l ->
  checkStorageQuotaCounters g u r l = Ok tt <->
  within_limits l (amount_add (held g) r) (amount_add (held u) r).
Proof.
  intros [(?&?&?&?) (?&?&?&?)] [(?&?&?&?) (?&?&?&?)] (?&?&?&?) (?&?&?&?&?&?).
  unfold within_limits, fits, held, amount_add, used, reserved in *. simpl in *.
  assert (Hs : forall x y, 0 <= x <= MaxUint64 -> 0 <= y <= MaxUint64 ->
    (addUint64 x y = Some (x + y) /\ x + y <= MaxUint64) \/ (addUint64 x y = None /\ MaxUint64 < x + y)).
  { intros x y Hx Hy. destruct (Z_le_gt_dec (x + y) MaxUint64).
    - left. rewrite sum_Some by lia. done.
    - right. rewrite sum_None by lia. split; [done|lia]. }
  unfold checkStorageQuotaCounters, usedBytes, reservedBytes. cbv [mbind result_bind of_option].
  destruct (Hs (UploadBlobBytes u) (DatabaseBytes u)) as [[-> ?]|[-> ?]]; [lia|lia| |split; [done|lia]].
  destruct (Hs (ReservedUploadBlobBytes u) (ReservedDatabaseBytes u)) as [[-> ?]|[-> ?]]; [lia|lia| |split; [done|lia]].
  destruct (Hs (UploadBlobBytes g) (DatabaseBytes g)) as [[-> ?]|[-> ?]]; [lia|lia| |split; [done|lia]].
  destruct (Hs (ReservedUploadBlobBytes g) (ReservedDatabaseBytes g)) as [[-> ?]|[-> ?]]; [lia|lia| |split; [done|lia]].
  destruct (Hs (Bytes r) (DurableBytes r)) as [[-> ?]|[-> ?]]; [lia|lia| |split; [done|lia]].
  rewrite first_exceeded_Ok. unfold limit_checks, over_limit. rewrite !Forall_cons, Forall_nil. simpl.
  rewrite !exceeds_exact by lia. lia.
Qed.

Lemma validate_limits_wide l : validateStorageQuotaLimits l = Ok tt -> limits_wide l ->
  0 < MaxBytesPerWorkspace l <= MaxBytesTotal l /\ 0 < ReservationTTL l.
Proof.
  unfold validateStorageQuotaLimits. intros Hv%guard_ok_Ok (?&?&?&?&?&?). split_bools. lia.
Qed.

Lemma within_columns l a b u r : wide a -> wide b -> wide r -> u = account a b -> limits_wide l ->
  fits (MaxBytesTotal l) (MaxItemsTotal l) (MaxImagesTotal l) (amount_add (amount_add a b) r) ->
  columns (add_reserved r u) = true.
Proof.
  intros (?&?&?&?) (?&?&?&?) (?&?&?&?) -> (?&?&?&?&?&?) (Hf1&Hf2&Hf3). unfold amount_add in *. simpl in *.
  apply columns_range. unfold usage_in_range, in_range, add_reserved, account, amount_add, used, reserved. simpl. lia.
Qed.

Lemma usage_account u : u = account (used u) (reserved u).
Proof. by destruct u. Qed.

(** C27: With valid limits, a request for capacity is granted exactly when what the workspace and what
    all workspaces use and hold reserved, together with the request, stay within the limits as
    unbounded numbers, however close the counters are to 64 bits; a grant adds the request to the
    reserved counters of both rows and records the reservation with its expiry, and a refusal is
    always the quota error. *)
Theorem reserve_admits_exactly e ws r l s u g :
  consistent s -> wide r -> limits_wide l -> ws <> 0 -> ws ∈ workspaces s ->
  usages s !! ws = Some u -> usages s !! 0 = Some g -> reservations s !! uuid e = None ->
  storageQuotaRequestEmpty r = false ->
  validateStorageQuotaRequest r = Ok tt -> validateStorageQuotaLimits l = Ok tt ->
  (within_limits l (amount_add (held g) r) (amount_add (held u) r) ->
     exists s' v, ReserveStorageQuota e ws r l s
       = Ok ({| R_ID := uuid e; R_WorkspaceID := ws; R_Request := r; R_ExpiresAt := go_now e + ReservationTTL l |}, s') /\
     usages s' !! ws = Some (add_reserved r u) /\ usages s' !! 0 = Some (add_reserved r g) /\
     reservations s' = <[uuid e := v]> (reservations s) /\ v_workspace_id v = ws /\ req v = r /\
     v_expires_at v = go_now e + ReservationTTL l /\ v_resource_key v = None) /\
  (~ within_limits l (amount_add (held g) r) (amount_add (held u) r) ->
     exists what, ReserveStorageQuota e ws r l s = Err (EExceeded what)).
Proof.
  intros Hc Hr Hl Hws Hin Hu Hg Hid Hne Hvr Hvl.
  pose proof (proj1 (columns_range u) (c_columns _ Hc _ _ Hu)) as Hru.
  pose proof (proj1 (columns_range g) (c_columns _ Hc _ _ Hg)) as Hrg.
  assert (Hrun : ReserveStorageQuota e ws r l s
    = (_ ← tx_lift (checkStorageQuotaCounters g u r l);
       params ← tx_lift (storageReservationInsertParams {| R_ID := uuid e; R_WorkspaceID := ws; R_Request := r;
                 R_ExpiresAt := go_now e + ReservationTTL l |} None);
       _ ← InsertStorageQuotaReservation (uuid e) params;
       _ ← addStorageQuotaReserved ws r;
       mret {| R_ID := uuid e; R_WorkspaceID := ws; R_Request := r; R_ExpiresAt := go_now e + ReservationTTL l |}) s).
  { unfold ReserveStorageQuota, lockStorageQuotaUsage, lockWorkspaceStorageQuotaUsage, LockStorageQuotaUsage, one_row.
    rewrite (proj2 (Z.eqb_neq ws 0)), Hne by done. simpl.
    cbv [mbind tx_bind tx_lift tx_reads of_option]. rewrite Hvr, Hvl, bool_decide_eq_true_2 by done.
    rewrite Hu, Hg. done. }
  rewrite Hrun. clear Hrun. cbv [mbind tx_bind tx_lift]. split.
  - intros Hfit. rewrite (proj2 (counters_exact g u r l Hrg Hru Hr Hl) Hfit).
    destruct (storageReservationInsertParams _ None) as [v|] eqn:Hp.
    2:{ unfold storageReservationInsertParams in Hp. simpl in Hp. by rewrite Hvr in Hp. }
    assert (Hv : v_expires_at v = go_now e + ReservationTTL l /\ v_resource_key v = None).
    { unfold storageReservationInsertParams in Hp. simpl in Hp. rewrite Hvr in Hp. by injection Hp as <-. }
    apply insert_params_Ok in Hp as (Hvw & Hvq & _); [|done|done]. simpl in Hvw, Hvq.
    unfold InsertStorageQuotaReservation. rewrite Hid.
    set (s1 := set_reservations _ s). destruct Hfit as [Hfw Hfg].
    assert (Hle : fits (MaxBytesTotal l) (MaxItemsTotal l) (MaxImagesTotal l) (amount_add (held u) r)).
    { unfold validateStorageQuotaLimits in Hvl. apply guard_ok_Ok in Hvl. split_bools.
      destruct Hfw as (?&?&?). unfold fits. lia. }
    destruct (update_usages_run ws (fun _ => true) (add_reserved r) s1 u g) as (n & Hn & _); try done.
    { destruct Hru. apply (within_columns l (used u) (reserved u)); try done. apply usage_account. }
    { destruct Hrg. apply (within_columns l (used g) (reserved g)); try done. apply usage_account. }
    unfold addStorageQuotaReserved, AddStorageQuotaReserved. cbv [mbind tx_bind]. rewrite Hn.
    eexists _, v. split; [reflexivity|].
    rewrite !lookup_book, !Z.eqb_refl, orb_true_r by done. simpl. rewrite Hu, Hg. naive_solver.
  - intros Hfit. destruct (checkStorageQuotaCounters g u r l) as [[]|err] eqn:E.
    + by destruct Hfit; apply counters_exact.
    + apply counters_Err in E as [what ->]. eauto.
Qed.
End QuotaAdmission.

(** * Storage quota: reservations can always be given back *)

Module QuotaSweep.
Import GoStr JobStore MediaFragment UploadRef Quota QuotaStore QuotaOps QuotaFacts QuotaInvariant QuotaSteps QuotaAdmission.
#[local] Open Scope Z_scope.

Definition nonneg (a : StorageQuotaRequest) : Prop := amount_le no_request a.

Lemma nonneg_add a b : nonneg a -> nonneg b -> nonneg (amount_add a b).
Proof. unfold nonneg, amount_le, amount_add, no_request. simpl. lia. Qed.
Lemma nonneg_none : nonneg no_request.
Proof. unfold nonneg, amount_le. lia. Qed.
Lemma wide_nonneg a : wide a -> nonneg a.
Proof. unfold nonneg, in_range, amount_le, no_request. simpl. lia. Qed.
Lemma le_add a b : nonneg b -> amount_le a (amount_add a b).
Proof. unfold nonneg, amount_le, amount_add, no_request. simpl. lia. Qed.
Lemma le_trans a b c : amount_le a b -> amount_le b c -> amount_le a c.
Proof. unfold amount_le. lia. Qed.

Lemma msum_nonneg {K A} `{Countable K} (g : K -> A -> StorageQuotaRequest) (m : gmap K A) :
  (forall k v, m !! k = Some v -> nonneg (g k v)) -> nonneg (msum amount_add no_request g m).
Proof.
  induction m as [|k v m Hk IH] using map_ind; intros Hg; [apply nonneg_none|].
  rewrite msum_insert by (apply amount_add_comm || apply amount_add_assoc || done).
  apply nonneg_add; [apply Hg; by rewrite lookup_insert_eq|].
  apply IH. intros k' v' Hk'. apply Hg. rewrite lookup_insert_ne; [done|congruence].
Qed.

Lemma reserved_sum_nonneg ws (rs : gmap string reservation_row) :
  (forall id v, rs !! id = Some v -> wide (req v)) -> nonneg (reserved_sum ws rs).
Proof.
  intros Hw. apply msum_nonneg. intros id v Hv. unfold reservation_amount.
  destruct (_ =? _); [by apply wide_nonneg, (Hw id)|apply nonneg_none].
Qed.

(** A workspace row is part of the global row. *)
Lemma tenant_le_global (m : gmap Z StorageQuotaUsage) ws u : ws <> 0 -> m !! ws = Some u ->
  (forall k x, m !! k = Some x -> nonneg (reserved x)) -> amount_le (reserved u) (reserved (tenant_total m)).
Proof.
  intros Hws Hu Hn. unfold tenant_total.
  rewrite (msum_delete _ _ tenant_row usage_add_comm usage_add_assoc m ws u Hu), reserved_usage_add.
  unfold tenant_row at 1. rewrite (proj2 (Z.eqb_neq ws 0)) by done. apply le_add.
  assert (Hd : forall m', (forall k x, m' !! k = Some x -> nonneg (reserved x)) ->
    nonneg (reserved (msum usage_add no_usage tenant_row m'))).
  { induction m' as [|k v m' Hk IH] using map_ind; intros Hg; [apply nonneg_none|].
    rewrite msum_insert by (apply usage_add_comm || apply usage_add_assoc || done). rewrite reserved_usage_add.
    apply nonneg_add.
    - unfold tenant_row. destruct (k =? 0); [apply nonneg_none|]. apply (Hg k). by rewrite lookup_insert_eq.
    - apply IH. intros k' v' Hk'. apply (Hg k'). rewrite lookup_insert_ne; [done|congruence]. }
  apply Hd. intros k x [_ Hx]%lookup_delete_Some. by eapply Hn.
Qed.

Lemma sub_reserved_changes r u : storageQuotaRequestEmpty r = false -> sub_reserved r u <> u.
Proof.
  intros He Heq. apply not_true_iff_false in He. apply He. unfold storageQuotaRequestEmpty.
  unfold sub_reserved, account, amount_sub, used, reserved in Heq. destruct r as [a b c d], u. simpl in *.
  injection Heq. intros. rewrite !andb_true_iff, !Z.eqb_eq. lia.
Qed.

Lemma sub_columns r u : usage_in_range u -> nonneg r -> amount_le r (reserved u) -> columns (sub_reserved r u) = true.
Proof.
  intros [(?&?&?&?) (?&?&?&?)] Hn Hle. apply columns_range.
  unfold usage_in_range, in_range, sub_reserved, account, amount_sub, nonneg, amount_le, used, reserved, no_request in *.
  simpl in *. lia.
Qed.

Lemma rows_total_nonneg rows : Forall (fun r => wide (req r.2)) rows -> nonneg (rows_total rows).
Proof.
  induction 1 as [|r rows Hr _ IH]; [apply nonneg_none|].
  change (nonneg (amount_add (req r.2) (rows_total rows))). apply nonneg_add; [by apply wide_nonneg|done].
Qed.

(** The amounts of reservations of a workspace can be taken off both accounts. *)
Lemma subtract_rows_run s ws rows : consistent s -> ws <> 0 -> is_Some (usages s !! ws) ->
  rows_in ws rows (reservations s) ->
  wide (rows_total rows) /\
  exists s1, subtractStorageQuotaReserved ws (rows_total rows) s = Ok (tt, s1) /\
    booking ws (sub_reserved (rows_total rows)) s s1.
Proof.
  intros Hc Hws [u Hu] Hin. pose proof (rows_wide s ws rows Hc Hin) as Hf.
  pose proof (rows_total_nonneg rows Hf) as Hnn. pose proof (c_global _ Hc) as Hg.
  pose proof (proj1 (columns_range _) (c_columns _ Hc _ _ Hu)) as Hru.
  pose proof (proj1 (columns_range _) (c_columns _ Hc _ _ Hg)) as Hrg.
  assert (Hle : amount_le (rows_total rows) (reserved u)).
  { rewrite (c_reserved _ Hc ws u Hws Hu), reserved_by_sum, (reserved_sum_without ws rows _ Hin). apply le_add.
    apply reserved_sum_nonneg. intros id v. rewrite lookup_without. case_bool_decide; [done|]. intros Hv.
    by destruct (c_reservations _ Hc id v Hv) as [(_&?&_) _]. }
  assert (Hleg : amount_le (rows_total rows) (reserved (tenant_total (usages s)))).
  { eapply le_trans; [exact Hle|]. eapply tenant_le_global; [done|exact Hu|]. intros k x Hx.
    pose proof (proj1 (columns_range _) (c_columns _ Hc _ _ Hx)) as [_ ?]. by apply wide_nonneg. }
  split.
  { destruct Hru as [_ (?&?&?&?)]. unfold nonneg, amount_le, no_request, in_range in *. simpl in *. lia. }
  assert (Hrun : exists s1, subtractStorageQuotaReserved ws (rows_total rows) s = Ok (tt, s1)).
  { unfold subtractStorageQuotaReserved. destruct (storageQuotaRequestEmpty _) eqn:He; [by eexists|].
    unfold requireQuotaUsageRows, SubtractStorageQuotaReserved. cbv [mbind tx_bind].
    destruct (update_usages_run ws (fun u => covers (reserved u) (rows_total rows)) (sub_reserved (rows_total rows))
      s u (tenant_total (usages s)) Hws Hu Hg) as (n & -> & Hn); try by apply covers_le.
    1,2: by apply sub_columns.
    rewrite Hn by by apply sub_reserved_changes. by eexists. }
  destruct Hrun as [s1 Hrun]. exists s1. split; [done|]. by apply sub_reserved_Ok.
Qed.

(** Where the accounts agree a sweep never fails: it frees at most the batch, only expired
    reservations of one workspace that no other transaction holds, takes exactly their amounts off
    the accounts, and when nothing is held elsewhere it frees at least one while any reservation
    has expired. *)
Theorem sweep_frees_expired e locked n s :
  consistent s -> 1 <= n <= maxStorageQuotaReservationSweepBatch ->
  exists freed s', SweepExpiredStorageQuotaReservations e locked n s = Ok (Z.of_nat (length freed), s') /\
    Z.of_nat (length freed) <= n /\ NoDup freed /\ consistent s' /\
    (forall id, reservations s' !! id = if bool_decide (id ∈ freed) then None else reservations s !! id) /\
    (forall id, id ∈ freed -> (id ∉ locked) /\ exists v, reservations s !! id = Some v /\ v_expires_at v <= go_now e) /\
    (locked = ∅ -> locked_rows e = ∅ ->
     (exists id v, reservations s !! id = Some v /\ v_expires_at v <= go_now e) -> freed <> []).
Proof.
  intros Hc [Hn1 Hn2].
  assert (Hres : exists k s', SweepExpiredStorageQuotaReservations e locked n s = Ok (k, s') /\
    exists freed, k = Z.of_nat (length freed) /\ Z.of_nat (length freed) <= n /\ NoDup freed /\
    (forall id, reservations s' !! id = if bool_decide (id ∈ freed) then None else reservations s !! id) /\
    (forall id, id ∈ freed -> (id ∉ locked) /\ exists v, reservations s !! id = Some v /\ v_expires_at v <= go_now e) /\
    (locked = ∅ -> locked_rows e = ∅ ->
     (exists id v, reservations s !! id = Some v /\ v_expires_at v <= go_now e) -> freed <> [])).
  2:{ destruct Hres as (k & s' & Hrun & freed & -> & ?&?&?&?&?). exists freed, s'.
      split_and!; try done. by eapply sweep_consistent. }
  unfold SweepExpiredStorageQuotaReservations.
  replace ((n <=? 0) || (n >? maxStorageQuotaReservationSweepBatch)) with false
    by (symmetry; apply orb_false_iff; split; [apply Z.leb_gt; lia|rewrite Z.gtb_ltb; apply Z.ltb_ge; lia]).
  unfold mbind at 1, tx_bind at 1, tx_reads at 1.
  destruct (LockStorageQuotaSweepWorkspace (go_now e) (locked_rows e) s) as [ws|] eqn:Hcand.
  2:{ exists 0, s. split; [done|]. exists []. split_and!; try done; [simpl; lia|constructor|set_solver|].
      intros _ Hl (id & v & Hv & Hex) _. unfold LockStorageQuotaSweepWorkspace in Hcand.
      apply head_None in Hcand. destruct (c_reservations _ Hc id v Hv) as [(Hws&_) [u Hu]].
      assert (Hin : v_workspace_id v ∈ ([] : list Z)); [|by apply elem_of_nil in Hin].
      rewrite <- Hcand, (merge_sort_Permutation Z.le _). apply list_elem_of_filter. split.
      - split_and!; [done|set_solver|]. apply Exists_exists. exists (id, v). split; [by apply elem_of_map_to_list|].
        unfold expired. simpl. rewrite Z.eqb_refl. by apply Z.leb_le.
      - by apply elem_of_elements, elem_of_dom_2 with u. }
  pose proof (sweep_candidate _ _ _ _ Hcand) as (Hws & Hlws & Hsome & id0 & v0 & Hid0 & Hex0).
  unfold mbind at 1, tx_bind at 1, tx_reads at 1.
  pose proof (expired_rows_in (go_now e) ws (Z.to_nat n) locked s) as Hin.
  destruct (LockExpiredStorageQuotaReservations (go_now e) ws (Z.to_nat n) locked s) as [|r0 rows0] eqn:Hrows.
  { exists 0, s. split; [done|]. exists []. split_and!; try done; [simpl; lia|constructor|set_solver|].
    intros -> _ _ _. unfold LockExpiredStorageQuotaReservations in Hrows.
    assert (Hnil : forall l : list (string * reservation_row), take (Z.to_nat n) l = [] -> l = []).
    { intros [|x l] Hl; [done|]. destruct (Z.to_nat n) eqn:En; [lia|done]. }
    apply Hnil in Hrows. assert (Hm : (id0, v0) ∈ ([] : list (string * reservation_row))); [|by apply elem_of_nil in Hm].
    rewrite <- Hrows, (merge_sort_Permutation expires_first _). apply list_elem_of_filter.
    split; [split; [set_solver|done]|]. by apply elem_of_map_to_list. }
  set (rows := r0 :: rows0) in *.
  destruct (subtract_rows_run s ws rows Hc Hws Hsome Hin) as (Hwide & s1 & Hsub & Hb).
  pose proof (booking_reservations _ _ _ _ Hb) as Hrs.
  assert (Htot : sweep_total no_request rows = Ok (rows_total rows)).
  { rewrite <- (amount_add_0_l (rows_total rows)). apply sweep_total_run; [apply wide_none|by eapply rows_wide|by rewrite amount_add_0_l]. }
  unfold LockStorageQuotaUsage, one_row. cbv [mbind tx_bind tx_lift tx_reads of_option].
  rewrite Htot, (c_global _ Hc), Hsub, delete_reservations_run by by rewrite Hrs.
  eexists _, _. split; [done|]. exists rows.*1. rewrite length_fmap. split_and!.
  - done.
  - rewrite <- Hrows. unfold LockExpiredStorageQuotaReservations. rewrite length_take. lia.
  - apply Hin.
  - intros id. cbn [reservations set_reservations]. rewrite lookup_without, Hrs. by repeat case_bool_decide.
  - intros id ([k v] & -> & Hkv)%list_elem_of_fmap. simpl. rewrite <- Hrows in Hkv.
    unfold LockExpiredStorageQuotaReservations in Hkv. apply (sublist_subseteq _ _ (sublist_take _ _)) in Hkv.
    rewrite (merge_sort_Permutation expires_first _) in Hkv. apply list_elem_of_filter in Hkv as [[Hl He] Hm].
    apply elem_of_map_to_list in Hm. unfold expired in He. simpl in *. split_bools. eauto.
  - done.
Qed.
End QuotaSweep.

(** * Storage quota: the rebuild makes the accounts agree again *)

Module QuotaRebuild.
Import GoStr JobStore MediaFragment UploadRef Quota QuotaStore QuotaOps QuotaFacts QuotaInvariant QuotaSteps QuotaAdmission.
#[local] Open Scope Z_scope.

Definition list_total (rows : list (Z * StorageQuotaUsage)) : StorageQuotaUsage :=
  foldr (fun r acc => usage_add r.2 acc) no_usage rows.

Lemma reserved_account a b : reserved (account a b) = b.
Proof. by destruct b. Qed.

Lemma not_negative_ge u : not_negative u = true ->
  0 <= UploadBlobBytes u /\ 0 <= DatabaseBytes u /\ 0 <= U_Items u /\ 0 <= U_Images u /\
  0 <= ReservedUploadBlobBytes u /\ 0 <= ReservedDatabaseBytes u /\ 0 <= ReservedItems u /\ 0 <= ReservedImages u.
Proof. unfold not_negative. rewrite !andb_true_iff, !Z.leb_le. tauto. Qed.

Lemma scans_range u : not_negative u = true -> scans u = true -> columns u = true.
Proof.
  intros Hn%not_negative_ge. unfold scans. rewrite !andb_true_iff, !Z.leb_le. intros Hs.
  unfold columns. rewrite !andb_true_iff, !column_range. unfold MaxInt64, MaxUint64 in *. lia.
Qed.

Lemma add_usage_Ok g u g' : usage_in_range g -> not_negative u = true -> addUsageParams g u = Ok g' ->
  g' = usage_add g u /\ usage_in_range g'.
Proof.
  intros [(G1&G2&G3&G4) (G5&G6&G7&G8)] Hn%not_negative_ge Hadd. unfold used, reserved in *.
  cbn [Bytes DurableBytes Items Images] in *. unfold addUsageParams in Hadd.
  apply result_bind_Ok in Hadd as (x1 & H1 & Hadd). apply of_option_Ok, addUint64_Some in H1 as [-> ?]; [|lia].
  apply result_bind_Ok in Hadd as (x2 & H2 & Hadd). apply of_option_Ok, addUint64_Some in H2 as [-> ?]; [|lia].
  apply result_bind_Ok in Hadd as (x3 & H3 & Hadd). apply of_option_Ok, addUint64_Some in H3 as [-> ?]; [|lia].
  apply result_bind_Ok in Hadd as (x4 & H4 & Hadd). apply of_option_Ok, addUint64_Some in H4 as [-> ?]; [|lia].
  apply result_bind_Ok in Hadd as (x5 & H5 & Hadd). apply of_option_Ok, addUint64_Some in H5 as [-> ?]; [|lia].
  apply result_bind_Ok in Hadd as (x6 & H6 & Hadd). apply of_option_Ok, addUint64_Some in H6 as [-> ?]; [|lia].
  apply result_bind_Ok in Hadd as (x7 & H7 & Hadd). apply of_option_Ok, addUint64_Some in H7 as [-> ?]; [|lia].
  apply result_bind_Ok in Hadd as (x8 & H8 & Hadd). apply of_option_Ok, addUint64_Some in H8 as [-> ?]; [|lia].
  injection Hadd as <-. split; [done|]. unfold usage_in_range, in_range, used, reserved.
  cbn [Bytes DurableBytes Items Images UploadBlobBytes DatabaseBytes U_Items U_Images
       ReservedUploadBlobBytes ReservedDatabaseBytes ReservedItems ReservedImages]. lia.
Qed.

Lemma rebuild_rows_Ok locked rows g s g' s' : usage_in_range g -> NoDup rows.*1 ->
  rebuild_rows locked g rows s = Ok (g', s') ->
  Forall (fun r => r.1 ∈ locked /\ not_negative r.2 = true) rows /\
  g' = usage_add g (list_total rows) /\ usage_in_range g' /\
  s' = set_usages (list_to_map rows ∪ usages s) s.
Proof.
  revert g s. induction rows as [|[ws u] rows IH]; intros g s Hg Hnd H.
  - injection H as <- <-. split_and!; [constructor|by rewrite usage_add_comm, usage_add_0_l|done|].
    simpl. rewrite (left_id_L ∅ (∪)). by destruct s.
  - cbn [rebuild_rows] in H. case_bool_decide as Hl; [|done]. cbn [negb] in H.
    destruct (not_negative u) eqn:Hn; [|done]. cbn [negb] in H.
    tx_bind H as [] s1 H1. injection H1 as <-. tx_check H as g1 Hadd.
    apply add_usage_Ok in Hadd as [-> Hr]; [|done..].
    rewrite fmap_cons in Hnd. apply NoDup_cons in Hnd as [Hni Hnd].
    apply IH in H as (Hf & -> & Hr' & ->); [|done..]. split_and!.
    + by constructor.
    + cbn [list_total foldr snd]. by rewrite usage_add_assoc.
    + done.
    + unfold set_usages. simpl. f_equal. rewrite <- insert_union_l, insert_union_r; [done|].
      apply not_elem_of_list_to_map_1. done.
Qed.

Lemma list_total_map rows : NoDup rows.*1 -> Forall (fun r => r.1 <> 0) rows ->
  tenant_total (list_to_map rows) = list_total rows.
Proof.
  induction rows as [|[ws u] rows IH]; intros Hnd Hf; [done|].
  rewrite fmap_cons in Hnd. apply NoDup_cons in Hnd as [Hni Hnd]. apply Forall_cons in Hf as [Hws Hf].
  simpl. unfold tenant_total.
  rewrite msum_insert by (apply usage_add_comm || apply usage_add_assoc || by apply not_elem_of_list_to_map_1).
  unfold tenant_row at 1. simpl in Hws. rewrite (proj2 (Z.eqb_neq ws 0)) by done. f_equal. by apply IH.
Qed.

Definition owner_rows (s : qdb) : list (Z * StorageQuotaUsage) :=
  (fun ws => (ws, measured s ws)) <$> merge_sort Z.le (elements (owners s)).

Lemma owner_rows_keys s : (owner_rows s).*1 = merge_sort Z.le (elements (owners s)).
Proof. unfold owner_rows. rewrite <- list_fmap_compose. apply list_fmap_id. Qed.

Lemma owner_rows_nodup s : NoDup (owner_rows s).*1.
Proof. rewrite owner_rows_keys, (merge_sort_Permutation Z.le _). apply NoDup_elements. Qed.

Lemma lookup_owner_rows s ws :
  (list_to_map (owner_rows s) : gmap Z StorageQuotaUsage) !! ws
  = if bool_decide (ws ∈ owners s) then Some (measured s ws) else None.
Proof.
  case_bool_decide as Hin.
  - apply elem_of_list_to_map_1; [apply owner_rows_nodup|]. apply list_elem_of_fmap. exists ws. split; [done|].
    rewrite (merge_sort_Permutation Z.le _). by apply elem_of_elements.
  - apply not_elem_of_list_to_map_1. rewrite owner_rows_keys, (merge_sort_Permutation Z.le _). by rewrite elem_of_elements.
Qed.

(** The rows a rebuild leaves, before anything is known of the rows of vanished owners. *)
Record rebuilt (s s' : qdb) : Prop := {
  rb_owner : forall ws, ws ∈ owners s -> 0 < ws /\ usages s' !! ws = Some (measured s ws) /\ columns (measured s ws) = true;
  rb_global : usages s' !! 0 = Some (list_total (owner_rows s)) /\ usage_in_range (list_total (owner_rows s));
  rb_others : forall ws, ws <> 0 -> ws ∉ owners s ->
    usages s' !! ws = (u ← usages s !! ws; if bool_decide (u = no_usage) then None else Some u);
  rb_rest : reservations s' = reservations s /\ cleanups s' = cleanups s;
}.

Lemma rebuild_Ok s s' : RebuildStorageQuotaUsage s = Ok (tt, s') -> rebuilt s s'.
Proof.
  intros H. unfold RebuildStorageQuotaUsage in H.
  tx_bind H as locked s1 H1. injection H1 as <- <-. tx_bind H as g0 s1 H1. apply one_row_Ok in H1 as [Hg0 ->].
  tx_bind H as rows s1 H1. unfold RebuildStorageQuotaUsageRows in H1. fold (owner_rows s) in H1.
  destruct (forallb _ (owner_rows s)) eqn:Hscan; [|done]. injection H1 as <- <-.
  tx_bind H as g s1 H1. apply rebuild_rows_Ok in H1 as (Hf & -> & Hgr & ->);
    [|unfold usage_in_range, in_range, MaxUint64; simpl; lia|apply owner_rows_nodup].
  rewrite usage_add_0_l in H, Hgr. tx_bind H as [] s1 H1. injection H1 as <-. injection H as <-.
  assert (Hpos : forall ws, ws ∈ owners s -> 0 < ws /\ not_negative (measured s ws) = true /\ scans (measured s ws) = true).
  { intros ws Hin. assert (Hrow : (ws, measured s ws) ∈ owner_rows s).
    { apply list_elem_of_fmap. exists ws. split; [done|]. rewrite (merge_sort_Permutation Z.le _). by apply elem_of_elements. }
    rewrite Forall_forall in Hf. destruct (Hf _ Hrow) as [Hl Hn]. simpl in *.
    unfold LockAllTenantStorageQuotaUsage in Hl. apply elem_of_filter in Hl as [? _].
    rewrite forallb_forall in Hscan. apply list_elem_of_In in Hrow. by specialize (Hscan _ Hrow). }
  split; cbn [usages set_usages reservations cleanups]; [| | |done].
  - intros ws Hin. specialize (Hpos ws Hin) as (Hws & Hn & Hs). split_and!; [done| |by apply scans_range].
    apply map_lookup_filter_Some. rewrite lookup_insert_ne by lia. split.
    + apply lookup_union_Some_l. by rewrite lookup_owner_rows, bool_decide_eq_true_2.
    + unfold orphan. simpl. rewrite (bool_decide_eq_false_2 (ws ∉ owners s)), andb_false_r by tauto. done.
  - split; [|exact Hgr]. apply map_lookup_filter_Some. by rewrite lookup_insert_eq.
  - intros ws Hws Hno. rewrite map_lookup_filter, lookup_insert_ne, lookup_union_r by (done || by rewrite lookup_owner_rows, bool_decide_eq_false_2).
    destruct (usages s !! ws) as [u|]; [|done]. cbn. unfold orphan.
    rewrite (proj2 (Z.eqb_neq ws 0)), (bool_decide_eq_true_2 (ws ∉ owners s)), andb_true_r by done. cbn. by case_bool_decide.
Qed.

(** With nothing left over, the rows are those of the owners and their sum. *)
Lemma rebuilt_usages s s' : rebuilt s s' -> (forall ws u, usages s !! ws = Some u -> ws <> 0 -> ws ∉ owners s -> u = no_usage) ->
  usages s' = <[0 := list_total (owner_rows s)]> (list_to_map (owner_rows s)).
Proof.
  intros [Hown [Hg _] Hoth _] Horphan. apply map_eq. intros k. destruct (decide (k = 0)) as [->|Hk]; [by rewrite lookup_insert_eq|].
  rewrite lookup_insert_ne, lookup_owner_rows by done. case_bool_decide as Hin; [apply (Hown k Hin)|].
  rewrite Hoth by done. destruct (usages s !! k) as [u|] eqn:Hu; [|done]. cbn. rewrite (Horphan k u Hu Hk Hin). by rewrite bool_decide_eq_true_2.
Qed.

Lemma rebuilt_consistent s s' : rebuilt s s' -> (forall id v, reservations s !! id = Some v -> reservation_ok v) ->
  (forall ws u, usages s !! ws = Some u -> ws <> 0 -> ws ∉ owners s -> u = no_usage) ->
  consistent s' /\ dom (usages s') = {[0]} ∪ owners s.
Proof.
  intros Hr Hres Horphan. pose proof (rebuilt_usages _ _ Hr Horphan) as Hu. destruct Hr as [Hown [_ Hgr] _ [Hrs _]].
  set (g := list_total (owner_rows s)) in *. set (m := list_to_map (owner_rows s) : gmap Z StorageQuotaUsage) in *.
  assert (Hm0 : m !! 0 = None).
  { unfold m. rewrite lookup_owner_rows. case_bool_decide as Hin; [|done]. apply Hown in Hin. lia. }
  split; [split|].
  - rewrite Hu at 1. rewrite lookup_insert_eq. f_equal. rewrite Hu.
    unfold tenant_total. rewrite msum_insert by (apply usage_add_comm || apply usage_add_assoc || done).
    unfold tenant_row at 1. simpl. rewrite usage_add_0_l. symmetry. apply list_total_map; [apply owner_rows_nodup|].
    apply Forall_forall. intros [k u] (ws & [= -> _] & Hk)%list_elem_of_fmap. cbn.
    rewrite (merge_sort_Permutation Z.le _) in Hk. apply elem_of_elements, Hown in Hk. lia.
  - intros ws u Hws. rewrite Hu, lookup_insert_ne by done. unfold m. rewrite lookup_owner_rows.
    case_bool_decide; [|done]. intros [= <-]. unfold reserved_by. rewrite Hrs. apply reserved_account.
  - intros id v. rewrite Hrs. intros Hv. split; [by eapply Hres|]. eexists. eapply Hown.
    unfold owners. apply elem_of_union_l, elem_of_union_r, elem_of_list_to_set, list_elem_of_fmap.
    exists (id, v). split; [done|]. by apply elem_of_map_to_list.
  - intros k u. rewrite Hu, lookup_insert_Some. intros [[<- <-]|[_ Hk]]; [by apply columns_range|].
    unfold m in Hk. rewrite lookup_owner_rows in Hk. case_bool_decide as Hin; [|done]. injection Hk as <-. apply (Hown k Hin).
  - rewrite Hu, dom_insert_L. f_equal. apply set_eq. intros k. rewrite elem_of_dom. unfold m. rewrite lookup_owner_rows.
    case_bool_decide as Hin; [by split|]. split; [by intros [? ?]|done].
Qed.

(** C28: A rebuild that succeeds gives every owner the counts measured from the items, images, payloads, uploads and reservations,
    whatever its row said, and the global row the sum of these.  Of the rows of vanished owners it deletes exactly those that
    count nothing and leaves the others as they are; reservations and pending deletions stay.  Where reservations are well formed
    and no row of a vanished owner counts something, the accounts agree afterwards and only the rows of owners remain. *)
Theorem rebuild_repairs_accounts s s' :
  RebuildStorageQuotaUsage s = Ok (tt, s') ->
  (forall ws, ws ∈ owners s -> 0 < ws /\ usages s' !! ws = Some (measured s ws)) /\
  usages s' !! 0 = Some (list_total (owner_rows s)) /\
  (forall ws, ws <> 0 -> ws ∉ owners s ->
     usages s' !! ws = (u ← usages s !! ws; if bool_decide (u = no_usage) then None else Some u)) /\
  reservations s' = reservations s /\ cleanups s' = cleanups s /\
  ((forall id v, reservations s !! id = Some v -> reservation_ok v) ->
   (forall ws u, usages s !! ws = Some u -> ws <> 0 -> ws ∉ owners s -> u = no_usage) ->
   consistent s' /\ dom (usages s') = {[0]} ∪ owners s).
Proof.
  intros H%rebuild_Ok. pose proof H as [Hown [Hg _] Hoth [Hrs Hcl]]. split_and!; [|done..|by apply rebuilt_consistent].
  intros ws Hin. by apply Hown in Hin as (? & ? & _).
Qed.
End QuotaRebuild.
