(* ===== verification/QuotaFence.v ===== *)
(** * Resource cleanup: a blob being deleted is never referenced again *)

From Stdlib Require Import ZArith Lia Ascii String.
From stdpp Require Import base gmap strings list sorting relations.
From S2P Require Import Prelude GoStrings JobSchema JobStore MediaFragment SafeFailures Quota QuotaStore QuotaOps ResourceCleanup QuotaInvariant QuotaSteps QuotaAdmission.

Module QuotaFence.
Import GoStr JobStore SafeFailures MediaFragment UploadRef Quota QuotaStore QuotaOps ResourceCleanup QuotaFacts QuotaInvariant QuotaSteps QuotaTheorems.
#[local] Open Scope Z_scope.

(** The upload is fenced: its blob may be gone. *)
Definition fenced (key : string) (s : qdb) : Prop :=
  exists c, cleanups s !! (UploadBlob, key) = Some c /\ is_Some (d_delete_fenced_at c).

Lemma lookup_update_cleanups wh f s n s' k : update_cleanups wh f s = Ok (n, s') ->
  cleanups s' !! k = (fun d => if wh k.1 d then f k.1 d else d) <$> cleanups s !! k.
Proof.
  unfold update_cleanups. intros [= _ <-]. simpl. destruct (cleanups s !! k) as [d|] eqn:E.
  - destruct (wh k.1 d) eqn:Hw; simpl; rewrite Hw.
    + apply lookup_union_Some_l. rewrite map_lookup_imap.
      assert (Hf : filter (fun kd : (cleanup_kind * string) * cleanup_row => wh kd.1.1 kd.2 = true) (cleanups s) !! k = Some d)
        by (by apply map_lookup_filter_Some). rewrite Hf. done.
    + rewrite lookup_union_r; [done|]. rewrite map_lookup_imap.
      assert (Hf : filter (fun kd : (cleanup_kind * string) * cleanup_row => wh kd.1.1 kd.2 = true) (cleanups s) !! k = None).
      { apply map_lookup_filter_None. right. intros x Hx. simpl. congruence. }
      by rewrite Hf.
  - simpl. rewrite lookup_union_r; [done|]. rewrite map_lookup_imap.
    assert (Hf : filter (fun kd : (cleanup_kind * string) * cleanup_row => wh kd.1.1 kd.2 = true) (cleanups s) !! k = None)
      by (apply map_lookup_filter_None; by left). by rewrite Hf.
Qed.

(** An update that does not lift fences. *)
Lemma update_keeps_fence key wh f s n s' :
  (forall k d, is_Some (d_delete_fenced_at d) -> is_Some (d_delete_fenced_at (f k d))) ->
  update_cleanups wh f s = Ok (n, s') -> fenced key s -> fenced key s'.
Proof.
  intros Hf H (c & Hc & Hx). unfold fenced. rewrite (lookup_update_cleanups _ _ _ _ _ (UploadBlob, key) H), Hc. simpl.
  eexists. split; [done|]. destruct (wh UploadBlob c); auto.
Qed.

Lemma claim_keeps_fence key e t s d s' : ClaimResourceCleanup e t s = Ok (d, s') -> fenced key s -> fenced key s'.
Proof.
  unfold ClaimResourceCleanup. intros H Hf. tx_bind H as [] s1 H1.
  unfold FailExhaustedResourceCleanups in H1. tx_bind H1 as n s2 H2. injection H1 as <-.
  eapply update_keeps_fence in H2; [|done|exact Hf]. tx_bind H as o s3 H3. injection H3 as <- <-.
  destruct (SelectResourceCleanupForUpdate _ _ _) as [[[k key'] c]|]; [|by injection H as _ <-].
  tx_bind H as m s4 H4. eapply update_keeps_fence in H4; [|done|exact H2].
  by destruct (negb (m =? 1)); injection H as _ <-.
Qed.

Lemma retry_keeps_fence key e d c t s s' : RetryResourceCleanup e d c t s = Ok (tt, s') -> fenced key s -> fenced key s'.
Proof. intros H%cleanup_affected_Ok Hf. unfold RetryResourceCleanupRow in H. eapply update_keeps_fence; [|exact H|exact Hf]. done. Qed.

(** Claims and retries of any workers. *)
Definition lease_step (a b : qdb) : Prop :=
  (exists e t d, ClaimResourceCleanup e t a = Ok (d, b)) \/ (exists e d c t, RetryResourceCleanup e d c t a = Ok (tt, b)).

Lemma leases_keep_fence key s s' : rtc lease_step s s' -> fenced key s -> fenced key s'.
Proof.
  induction 1 as [|a b c Hab _ IH]; [done|]. intros Hf. apply IH.
  destruct Hab as [(?&?&?&Hab)|(?&?&?&?&Hab)]; [by eapply claim_keeps_fence|by eapply retry_keeps_fence].
Qed.

(** ** What a fence shuts out *)

Section shut_out.
Context `{UrlParser} (key : string) (s : qdb) (Hf : fenced key s).

Lemma fenced_reference ws : is_ok (lockUploadCleanupForReference ws key s) = false.
Proof using Hf.
  destruct Hf as (c & Hc & Hx). unfold lockUploadCleanupForReference, LockResourceCleanupByKindKey.
  cbv [mbind tx_bind tx_reads]. rewrite Hc. destruct (negb _); [done|]. by rewrite bool_decide_eq_true_2.
Qed.

Lemma fenced_stage e R url n l x s' : ImmutableNameFromURL url = Some key ->
  StageStorageQuotaUpload e R url n l s <> Ok (x, s').
Proof using Hf.
  intros Hurl Hrun. unfold StageStorageQuotaUpload in Hrun. destruct (_ || (n =? 0)); [done|].
  tx_check Hrun as [] Hl. tx_check Hrun as k Hk. rewrite Hurl in Hk. injection Hk as <-.
  tx_bind Hrun as u s1 H1. apply lock_workspace_Ok in H1 as (_&_&->).
  tx_bind Hrun as v s1 H1. apply one_row_Ok in H1 as [_ ->].
  destruct (match v_resource_key v with Some _ => _ | None => _ end); [done|].
  tx_bind Hrun as d s1 H1. pose proof (fenced_reference (R_WorkspaceID R)) as Hn. by rewrite H1 in Hn.
Qed.

Lemma fenced_resize e R r l v x s' : reservation_of (R_ID R) (R_WorkspaceID R) s = Some v -> v_resource_key v = Some key ->
  ResizeStorageQuotaReservation e R r l s <> Ok (x, s').
Proof using Hf.
  intros Hv Hkey Hrun. unfold ResizeStorageQuotaReservation in Hrun. destruct (_ || storageQuotaRequestEmpty r); [done|].
  tx_check Hrun as [] Hl. tx_check Hrun as [] Hk.
  tx_bind Hrun as u s1 H1. apply lock_workspace_Ok in H1 as (_&_&->).
  tx_bind Hrun as v' s1 H1. apply one_row_Ok in H1 as [Hv' ->]. rewrite Hv in Hv'. injection Hv' as <-.
  rewrite Hkey in Hrun. tx_bind Hrun as p s1 H1. destruct Hf as (c & Hc & Hx). cbn [staged_addition] in H1.
  tx_bind H1 as d s2 H2. apply one_row_Ok in H2 as [Hd ->]. unfold LockResourceCleanupByKindKey in Hd.
  rewrite Hc in Hd. injection Hd as <-. destruct (negb _); [done|]. by rewrite bool_decide_eq_true_2 in H1.
Qed.

Lemma fenced_ingest now id ws url n x s' : ImmutableNameFromURL url = Some key ->
  lockSingleFileIngestReservation now id ws url n s <> Ok (x, s').
Proof using Hf.
  intros Hurl Hrun. unfold lockSingleFileIngestReservation in Hrun.
  tx_bind Hrun as v s1 H1. apply one_row_Ok in H1 as [_ ->]. destruct (_ || _); [done|]. rewrite Hurl in Hrun.
  destruct (negb _); [done|]. tx_bind Hrun as d s1 H1. apply one_row_Ok in H1 as [Hd ->].
  destruct Hf as (c & Hc & Hx). unfold LockResourceCleanupByKindKey in Hd. rewrite Hc in Hd. injection Hd as <-.
  destruct (_ || _); [done|]. by rewrite bool_decide_eq_true_2 in Hrun.
Qed.
End shut_out.

Lemma count_zero s url : CountItemImagesByURL url s = 0 -> forall i, i ∈ image_rows s -> i_image_url i <> url.
Proof.
  unfold CountItemImagesByURL. intros Hz i Hi Hurl.
  assert (Hin : i ∈ filter (fun i => i_image_url i = url) (image_rows s)) by by apply list_elem_of_filter.
  destruct (filter _ (image_rows s)); [by apply elem_of_nil in Hin|simpl in Hz; lia].
Qed.

(** C29: When a worker is told to delete the blob of an upload, the row of the upload is fenced and no
    image referenced it as the fence went up; while it stands, through claims and retries by any
    worker, no reservation stages or resizes that upload and no image can be ingested from it. *)
Theorem retirement_fences_the_upload `{UrlParser} e d s s' :
  BeginUploadBlobRetirement e d s = Ok (true, s') -> TrimSpace (D_LeaseOwner d) = D_LeaseOwner d ->
  let key := D_ResourceKey d in
  fenced key s' /\
  (~ fenced key s -> forall i, i ∈ image_rows s' -> i_image_url i <> upload_url key) /\
  (forall s2, rtc lease_step s' s2 ->
     fenced key s2 /\
     (forall e R url n l x s3, ImmutableNameFromURL url = Some key -> StageStorageQuotaUpload e R url n l s2 <> Ok (x, s3)) /\
     (forall e R r l v x s3, reservation_of (R_ID R) (R_WorkspaceID R) s2 = Some v -> v_resource_key v = Some key ->
        ResizeStorageQuotaReservation e R r l s2 <> Ok (x, s3)) /\
     (forall now id ws url n x s3, ImmutableNameFromURL url = Some key ->
        lockSingleFileIngestReservation now id ws url n s2 <> Ok (x, s3))).
Proof.
  intros Hrun Htrim key. unfold BeginUploadBlobRetirement in Hrun.
  destruct (_ || bool_decide (D_LeaseOwner d = ""%string)) eqn:E0; [done|].
  tx_bind Hrun as [] s1 H1. apply guards_Ok in H1 as (_&_&->). tx_bind Hrun as o s1 H1. injection H1 as <- <-.
  unfold LockResourceCleanupByKindKey in Hrun. fold key in Hrun.
  destruct (cleanups s !! (UploadBlob, key)) as [c|] eqn:Hc; [|done].
  destruct (_ || negb (bool_decide (d_locked_by c = _))) eqn:Hheld; [done|].
  assert (Hf : fenced key s' /\ (~ fenced key s -> forall i, i ∈ image_rows s' -> i_image_url i <> upload_url key)).
  { case_bool_decide as Hfe; [injection Hrun as <-; split; [by exists c|intros []; by exists c]|].
    tx_bind Hrun as n s1 H1. injection H1 as <- <-.
    destruct (Z.eqb_spec (CountItemImagesByURL (upload_url key) s) 0) as [Hz|]; [|done]. cbn [negb] in Hrun.
    tx_bind Hrun as [] s1 H1. injection Hrun as <-. apply cleanup_affected_Ok in H1. split.
    - unfold fenced. unfold FenceUploadResourceCleanup in H1.
      rewrite (lookup_update_cleanups _ _ _ _ _ (UploadBlob, key) H1), Hc. simpl. eexists. split; [done|].
      split_bools. unfold cleanup_held, nullableString. rewrite Htrim.
      repeat match goal with Hb : negb (_ =? _) = false |- _ => apply negb_false_iff, Z.eqb_eq in Hb end.
      rewrite (bool_decide_eq_false_2 (D_LeaseOwner d = _)) by done.
      rewrite !bool_decide_eq_true_2 by done.
      repeat match goal with Hb : d_id c = _ |- _ => rewrite Hb, Z.eqb_refl; clear Hb
        | Hb : d_generation c = _ |- _ => rewrite Hb, Z.eqb_refl; clear Hb end.
      simpl. by eexists.
    - intros _ i Hi. apply (count_zero s); [done|]. unfold FenceUploadResourceCleanup, update_cleanups in H1.
      by injection H1 as _ <-. }
  destruct Hf as [Hf Href]. split; [done|]. split; [done|]. intros s2 Hs2.
  assert (Hf2 : fenced key s2).
  { by eapply leases_keep_fence. }
  split_and!; [done| | |].
  - intros *. by apply fenced_stage.
  - intros *. by apply fenced_resize.
  - intros *. by apply fenced_ingest.
Qed.

(** Staging the upload of a reservation a second time always fails: binding the reservation to the
    identity it has changes no row, and the statement must change one. *)
Theorem restaging_fails `{UrlParser} e e' R url n n' l l' s s' x s2 :
  StageStorageQuotaUpload e R url n l s = Ok (tt, s') -> StageStorageQuotaUpload e' R url n' l' s' <> Ok (x, s2).
Proof.
  assert (Hlast : forall e n l s s', StageStorageQuotaUpload e R url n l s = Ok (tt, s') ->
    exists key v s1, ImmutableNameFromURL url = Some key /\ reservation_of (R_ID R) (R_WorkspaceID R) s = Some v /\
      reservations s1 = reservations s /\
      BindStorageQuotaReservationResource (R_ID R) (R_WorkspaceID R) key s1 = Ok (1, s')).
  { clear. intros e n l s s' Hrun. unfold StageStorageQuotaUpload in Hrun. destruct (_ || (n =? 0)); [done|].
    tx_check Hrun as [] Hl. tx_check Hrun as key Hk. apply of_option_Ok in Hk.
    tx_bind Hrun as u s1 H1. apply lock_workspace_Ok in H1 as (Hws&_&->).
    tx_bind Hrun as v s1 H1. apply one_row_Ok in H1 as [Hv ->].
    destruct (reservation_of (R_ID R) (R_WorkspaceID R) s) as [v0|] eqn:Hv0; [|done].
    destruct (match v_resource_key v with Some _ => _ | None => _ end); [done|].
    tx_bind Hrun as d s1 H1. apply reference_Ok in H1 as ->.
    tx_bind Hrun as g s1 H1. apply one_row_Ok in H1 as [_ ->]. tx_check Hrun as [] Hchk.
    tx_bind Hrun as [] s1 H1. assert (Ha : aside s s1) by by injection H1 as <-.
    tx_bind Hrun as [] s2 H2. apply replace_accounting_Ok, booking_reservations in H2; [|done].
    apply quota_one_Ok in Hrun. exists key, v0, s2. split_and!; [done..| |done]. by rewrite H2, (proj2 Ha). }
  intros Hrun Hrun2. destruct x. apply Hlast in Hrun as (key & v & s1 & Hk & Hv & Hrs & Hb).
  apply Hlast in Hrun2 as (key' & v' & s3 & Hk' & Hv' & Hrs' & Hb').
  rewrite Hk in Hk'. injection Hk' as <-.
  apply update_reservation_Ok in Hb as (w & Hw & ->).
  assert (Hbound : reservation_of (R_ID R) (R_WorkspaceID R) s3 = Some (bound_reservation key w)).
  { unfold reservation_of. rewrite Hrs'. simpl. rewrite lookup_insert_eq. simpl.
    unfold reservation_of in Hw. destruct (reservations s1 !! R_ID R) as [w'|]; [|done].
    destruct (Z.eqb_spec (v_workspace_id w') (R_WorkspaceID R)) as [Heq|]; [|done]. injection Hw as ->.
    by rewrite Heq, Z.eqb_refl. }
  unfold BindStorageQuotaReservationResource, update_reservation in Hb'. rewrite Hbound in Hb'.
  by rewrite bool_decide_eq_true_2 in Hb' by done.
Qed.
End QuotaFence.

(** * Storage quota: a history of one upload *)

Module QuotaExamples.
Import GoStr JobStore SafeFailures MediaFragment UploadRef Quota QuotaStore QuotaOps ResourceCleanup QuotaFacts QuotaInvariant QuotaSteps QuotaTheorems QuotaAdmission QuotaSweep QuotaRebuild QuotaFence.
#[local] Open Scope Z_scope.

(** A parser of paths. *)
#[local] Instance path_url : UrlParser := fun raw =>
  Some {| Scheme := ""; Host := ""; HasUser := false; Path := raw; RawQuery := ""; Fragment := "" |}.

Definition clock (t : Z) (id : string) : env :=
  {| db_now := t; go_now := t; locked_rows := ∅; uuid := id; hostname := None |}.
Definition limits : StorageQuotaLimits :=
  {| MaxBytesPerWorkspace := 100; MaxBytesTotal := 1000; MaxItemsPerWorkspace := 5; MaxItemsTotal := 50;
     MaxImagesPerWorkspace := 5; MaxImagesTotal := 50; ReservationTTL := 60 |}.
Definition request : StorageQuotaRequest := {| Bytes := 50; DurableBytes := 10; Items := 1; Images := 1 |}.
Definition upload : string :=
  "0123456789abcdef0123456789abcdef0123456789abcdef0123456789abcdef-01234567-89ab-4def-8123-456789abcdef.jpg".

(** The state a committed operation leaves. *)
Definition after {A} (m : qtx A) (s : qdb) : qdb := (run_tx m s).2.

Lemma after_run {A} (m : qtx A) s a :
  match m s with Ok (x, _) => Some x | Err _ => None end = Some a -> m s = Ok (a, after m s).
Proof. unfold after, run_tx. destruct (m s) as [[x s']|e]; [by intros [= ->]|done]. Qed.
Ltac ran m s a := refine (after_run m s a _); vm_compute; reflexivity.

Definition reservation : StorageQuotaReservation :=
  {| R_ID := "r1"; R_WorkspaceID := 1; R_Request := request; R_ExpiresAt := 1060 |}.
Definition s_reserved : qdb := after (ReserveStorageQuota (clock 1000 "r1") 1 request limits) initial_qdb.
Definition s_staged : qdb := after (StageStorageQuotaUpload (clock 1001 "x") reservation (upload_url upload) 40 limits) s_reserved.
Definition s_claimed : qdb := after (ClaimResourceCleanup (clock 1061 "w1") 90) s_staged.
Definition delivery : ResourceCleanupDelivery :=
  {| D_ID := 1; D_Kind := UploadBlob; D_ResourceKey := upload; D_WorkspaceID := 1; D_StorageBytes := 40;
     D_Generation := 1; D_LeaseOwner := "resource-cleanup-w1"; D_Attempt := 1; D_MaxAttempts := 20 |}.

Example reserve_run : ReserveStorageQuota (clock 1000 "r1") 1 request limits initial_qdb = Ok (reservation, s_reserved).
Proof. ran (ReserveStorageQuota (clock 1000 "r1") 1 request limits) initial_qdb reservation. Qed.
Example stage_run : StageStorageQuotaUpload (clock 1001 "x") reservation (upload_url upload) 40 limits s_reserved = Ok (tt, s_staged).
Proof. ran (StageStorageQuotaUpload (clock 1001 "x") reservation (upload_url upload) 40 limits) s_reserved tt. Qed.
Example staged_usage : usages s_staged !! 1 =
  Some (account {| Bytes := 40; DurableBytes := 0; Items := 0; Images := 0 |}
                {| Bytes := 0; DurableBytes := 10; Items := 1; Images := 1 |}).
Proof. vm_compute. reflexivity. Qed.
Example claim_of_the_upload_runs : ClaimResourceCleanup (clock 1061 "w1") 90 s_staged = Ok (Some delivery, s_claimed).
Proof. ran (ClaimResourceCleanup (clock 1061 "w1") 90) s_staged (Some delivery). Qed.

Lemma request_wide : wide request.
Proof. unfold in_range, request, MaxUint64. simpl. lia. Qed.

Lemma staged_history : rtc qstep initial_qdb s_staged.
Proof.
  eapply rtc_l; [|eapply rtc_l; [|apply rtc_refl]].
  - eapply st_reserve; [apply request_wide|apply reserve_run].
  - eapply st_stage. apply stage_run.
Qed.

Lemma quota_accounts_agree_witness : consistent s_staged.
Proof. apply quota_accounts_agree. apply staged_history. Defined.

Lemma reserve_admits_exactly_witness : exists what,
  ReserveStorageQuota (clock 1002 "r2") 1 {| Bytes := 41; DurableBytes := 10; Items := 1; Images := 1 |} limits s_staged
  = Err (EExceeded what).
Proof.
  destruct (reserve_admits_exactly (clock 1002 "r2") 1 {| Bytes := 41; DurableBytes := 10; Items := 1; Images := 1 |} limits
    s_staged (account {| Bytes := 40; DurableBytes := 0; Items := 0; Images := 0 |}
                      {| Bytes := 0; DurableBytes := 10; Items := 1; Images := 1 |})
             (account {| Bytes := 40; DurableBytes := 0; Items := 0; Images := 0 |}
                      {| Bytes := 0; DurableBytes := 10; Items := 1; Images := 1 |})) as [_ Hno].
  - eapply step_consistent; [eapply step_consistent; [apply initial_consistent|]|].
    + eapply st_reserve; [apply request_wide|apply reserve_run].
    + eapply st_stage. apply stage_run.
  - unfold in_range, MaxUint64. simpl. lia.
  - unfold limits_wide, MaxUint64. simpl. lia.
  - lia.
  - vm_compute. reflexivity.
  - vm_compute. reflexivity.
  - vm_compute. reflexivity.
  - vm_compute. reflexivity.
  - reflexivity.
  - reflexivity.
  - reflexivity.
  - apply Hno. unfold within_limits, fits, held, amount_add. simpl. lia.
Defined.

Lemma sweep_frees_expired_witness : exists (freed : list string) s',
  SweepExpiredStorageQuotaReservations (clock 1060 "x") ∅ 10 s_staged = Ok (Z.of_nat (length freed), s') /\ freed <> [].
Proof.
  destruct (sweep_frees_expired (clock 1060 "x") ∅ 10 s_staged) as (freed & s' & Hrun & _ & _ & _ & _ & _ & Hne).
  - eapply step_consistent; [eapply step_consistent; [apply initial_consistent|]|].
    + eapply st_reserve; [apply request_wide|apply reserve_run].
    + eapply st_stage. apply stage_run.
  - unfold maxStorageQuotaReservationSweepBatch. lia.
  - exists freed, s'. split; [exact Hrun|]. apply Hne; [reflexivity|reflexivity|].
    exists "r1"%string. eexists. split; [vm_compute; reflexivity|]. vm_compute. discriminate.
Defined.

(** Counters that have drifted. *)
Definition s_drifted : qdb := set_usages (<[1 := account request request]> (usages s_staged)) s_staged.
Definition s_rebuilt : qdb := after RebuildStorageQuotaUsage s_drifted.

Lemma rebuild_repairs_accounts_witness : RebuildStorageQuotaUsage s_drifted = Ok (tt, s_rebuilt) /\ consistent s_rebuilt.
Proof.
  assert (Hrun : RebuildStorageQuotaUsage s_drifted = Ok (tt, s_rebuilt)) by ran RebuildStorageQuotaUsage s_drifted tt.
  split; [exact Hrun|]. refine (proj1 (proj2 (proj2 (proj2 (proj2 (proj2 (rebuild_repairs_accounts s_drifted s_rebuilt Hrun))))) _ _)).
  - intros id v Hv. change (reservations s_drifted) with (reservations s_staged) in Hv.
    apply (c_reservations s_staged) with (id := id); [|exact Hv].
    eapply step_consistent; [eapply step_consistent; [apply initial_consistent|]|].
    + eapply st_reserve; [apply request_wide|apply reserve_run].
    + eapply st_stage. apply stage_run.
  - intros ws u Hu Hws Hno. exfalso. apply Hno. clear Hno.
    assert (Hin : ws ∈ dom (usages s_drifted)) by (apply elem_of_dom; exists u; exact Hu).
    assert (Hsub : dom (usages s_drifted) ⊆ {[0]} ∪ owners s_drifted)
      by (apply (bool_decide_unpack _); vm_compute; exact I).
    apply Hsub in Hin. apply elem_of_union in Hin as [Hz|Ho]; [|exact Ho]. apply elem_of_singleton in Hz. contradiction.
Defined.

(** The row of a vanished workspace that still counts something survives a rebuild: the global row is no longer the sum. *)
Definition s_haunted : qdb := set_usages (<[9 := account request request]> (usages s_staged)) s_staged.
Example rebuild_keeps_counting_orphan : exists s', RebuildStorageQuotaUsage s_haunted = Ok (tt, s') /\ (9 ∉ owners s_haunted) /\
  usages s' !! 9 = Some (account request request) /\ ~ consistent s'.
Proof.
  exists (after RebuildStorageQuotaUsage s_haunted). split; [ran RebuildStorageQuotaUsage s_haunted tt|].
  split; [apply (bool_decide_unpack _); vm_compute; exact I|]. split; [vm_compute; reflexivity|].
  intros [Hg _ _ _]. vm_compute in Hg. discriminate Hg.
Qed.

Definition s_fenced : qdb := after (BeginUploadBlobRetirement (clock 1062 "x") delivery) s_claimed.

Lemma retirement_fences_the_upload_witness : fenced upload s_fenced.
Proof.
  destruct (retirement_fences_the_upload (clock 1062 "x") delivery s_claimed s_fenced) as [Hf _].
  - ran (BeginUploadBlobRetirement (clock 1062 "x") delivery) s_claimed true.
  - reflexivity.
  - exact Hf.
Defined.

(** ** A resize between the claim and the fence

    The resize of an expired reservation does not advance the generation of the cleanup
    row, so the worker that claimed the row before completes with the old size: the
    difference stays in the used bytes, with no upload behind it. *)

Definition larger : StorageQuotaRequest := {| Bytes := 45; DurableBytes := 10; Items := 1; Images := 1 |}.
Definition s_resized : qdb := after (ResizeStorageQuotaReservation (clock 1062 "x") reservation larger limits) s_claimed.
Definition s_retired : qdb := after (BeginUploadBlobRetirement (clock 1063 "x") delivery) s_resized.
Definition s_deleted : qdb := after (CompleteResourceCleanup delivery true) s_retired.

Theorem resized_upload_leaks_bytes :
  BeginUploadBlobRetirement (clock 1063 "x") delivery s_resized = Ok (true, s_retired) /\
  CompleteResourceCleanup delivery true s_retired = Ok (tt, s_deleted) /\
  uploaded_bytes s_deleted 1 = 0 /\ (UploadBlobBytes <$> usages s_deleted !! 1) = Some 5.
Proof.
  split; [ran (BeginUploadBlobRetirement (clock 1063 "x") delivery) s_resized true|].
  split; [ran (CompleteResourceCleanup delivery true) s_retired tt|].
  split; vm_compute; reflexivity.
Qed.
End QuotaExamples.
