(* ===== verification/Requests.v ===== *)
(** * External requests: the idempotency records of [internal/store/transcription_jobs.go]

    One row of [external_requests] per (workspace, source, idempotency key).  A
    reservation inserts the row, takes over a failed or expired one, or reports the
    stored outcome; the holder of the lease completes or fails it; retention
    removes old rows in batches.  The statements of external_requests.sql.go come
    first, then the methods of the store. *)

From Stdlib Require Import ZArith Lia Ascii String.
From stdpp Require Import base gmap strings list sorting.
From S2P Require Import Prelude GoStrings Json JobSchema JobStore SafeFailures.

Module Requests.
Import GoStr JobStore SafeFailures.
#[local] Open Scope Z_scope.

(** ** Tables *)

Inductive request_status := InProgress | RCompleted | RFailed.
#[export] Instance request_status_eq_dec : EqDecision request_status.
Proof. solve_decision. Defined.

Record request_row := {
  q_workspace_id : Z;
  q_source : string;
  q_idempotency_key : string;
  q_request_hash : string;
  q_status : request_status;
  q_item_id : option string;
  q_item_image_id : option Z;
  q_job_id : option Z;
  q_session_id : option string;
  q_event_header : option string;
  q_attempt_count : Z;
  q_max_attempts : Z;
  q_lease_until : option Z;
  q_locked_by : option string;
  q_error_message : option string;
  q_updated_at : Z;
}.

(** The rows of other tables that the statements consult. *)
Record resources := {
  workspaces : gset Z;
  items : gmap string Z;            (* workspace *)
  images : gmap Z (Z * string);     (* workspace, item *)
  image_jobs : gmap Z (Z * Z);      (* workspace, image *)
  runs : gmap string (Z * Z);       (* ocr_runs: workspace, image *)
}.

Record rdb := {
  requests : gmap Z request_row;
  next_request_id : Z;              (* AUTO_INCREMENT *)
  res : resources;
}.

Inductive req_err :=
| RNoRows        (* sql.ErrNoRows *)
| RInvalid       (* a validation error of the Go code *)
| RLock          (* a locked parent row is missing *)
| RMismatch.     (* ErrExternalRequestMismatch *)

Abbreviation rtx := (tx rdb req_err).

Definition set_requests (m : gmap Z request_row) (s : rdb) : rdb :=
  {| requests := m; next_request_id := next_request_id s; res := res s |}.

(** ** Statements *)

Definition has_key (ws : Z) (source key : string) (r : request_row) : bool :=
  (q_workspace_id r =? ws) && bool_decide (q_source r = source) && bool_decide (q_idempotency_key r = key).

(** The row of a unique key. *)
Definition find_request (m : gmap Z request_row) (ws : Z) (source key : string) : option (Z * request_row) :=
  head (filter (fun kv => has_key ws source key kv.2 = true) (map_to_list m)).

Definition LockWorkspaceForUseManual (ws : Z) : rtx unit := fun s =>
  if bool_decide (ws ∈ workspaces (res s)) then Ok (tt, s) else Err RLock.
Definition LockItemForUseManual (id : string) (ws : Z) : rtx unit := fun s =>
  if bool_decide (items (res s) !! id = Some ws) then Ok (tt, s) else Err RLock.

Definition image_in (t : resources) (ws img : Z) : bool :=
  match images t !! img with Some (w, _) => w =? ws | None => false end.
Definition LockItemImageForUseManual (id ws : Z) : rtx unit := fun s =>
  if image_in (res s) ws id then Ok (tt, s) else Err RNoRows.
Definition LockTranscriptionJobForExternalRequestUseManual (id ws : Z) : rtx unit := fun s =>
  match image_jobs (res s) !! id with
  | Some (w, _) => if w =? ws then Ok (tt, s) else Err RLock
  | None => Err RLock
  end.

(** The insertion keeps an existing row of the same unique key. *)
Definition InsertExternalRequestManual (ws : Z) (source key hash : string) (image : option Z)
    (header : option string) (lease_until : option Z) (locked_by : option string) (now : Z) : rtx unit := fun s =>
  if bool_decide (ws ∈ workspaces (res s))
     && match image with Some img => image_in (res s) ws img | None => true end
  then match find_request (requests s) ws source key with
       | Some _ => Ok (tt, s)
       | None =>
           let r := {| q_workspace_id := ws; q_source := source; q_idempotency_key := key;
                       q_request_hash := hash; q_status := InProgress; q_item_id := None;
                       q_item_image_id := image; q_job_id := None; q_session_id := None;
                       q_event_header := header; q_attempt_count := 1; q_max_attempts := 3;
                       q_lease_until := lease_until; q_locked_by := locked_by;
                       q_error_message := None; q_updated_at := now |} in
           Ok (tt, {| requests := <[next_request_id s := r]> (requests s);
                      next_request_id := next_request_id s + 1; res := res s |})
       end
  else Ok (tt, s).

Definition SelectExternalRequestForUpdateManual (ws : Z) (source key : string) : rtx (Z * request_row) := fun s =>
  match find_request (requests s) ws source key with
  | Some x => Ok (x, s)
  | None => Err RNoRows
  end.

Definition ReclaimExternalRequestManual (id : Z) (image : option Z) (header : option string)
    (lease_until : option Z) (locked_by : option string) (now : Z) : rtx unit :=
  tx_modify (fun s => set_requests (alter (fun r =>
    {| q_workspace_id := q_workspace_id r; q_source := q_source r; q_idempotency_key := q_idempotency_key r;
       q_request_hash := q_request_hash r; q_status := InProgress; q_item_id := None;
       q_item_image_id := match image with Some i => Some i | None => q_item_image_id r end;
       q_job_id := None; q_session_id := None; q_event_header := header;
       q_attempt_count := q_attempt_count r + 1; q_max_attempts := q_max_attempts r;
       q_lease_until := lease_until; q_locked_by := locked_by; q_error_message := None;
       q_updated_at := now |}) id (requests s)) s).

(** [status = 'in_progress' AND locked_by = ?]: never true of a null owner. *)
Definition held_by (owner : option string) (r : request_row) : bool :=
  bool_decide (q_status r = InProgress) &&
  match owner with Some o => bool_decide (q_locked_by r = Some o) | None => false end.

Definition close_request (st : request_status) (item : option string) (image job : option Z)
    (session error : option string) (now : Z) (r : request_row) : request_row :=
  {| q_workspace_id := q_workspace_id r; q_source := q_source r; q_idempotency_key := q_idempotency_key r;
     q_request_hash := q_request_hash r; q_status := st; q_item_id := item; q_item_image_id := image;
     q_job_id := job; q_session_id := session; q_event_header := q_event_header r;
     q_attempt_count := q_attempt_count r; q_max_attempts := q_max_attempts r; q_lease_until := None;
     q_locked_by := None; q_error_message := error; q_updated_at := now |}.

(** An UPDATE by unique key, and [requireAffectedRow]: the update of no row is
    [sql.ErrNoRows]. *)
Definition update_request (ws : Z) (source key : string) (wh : request_row -> bool)
    (f : request_row -> request_row) : rtx unit := fun s =>
  match find_request (requests s) ws source key with
  | Some (id, r) => if wh r then Ok (tt, set_requests (<[id := f r]> (requests s)) s) else Err RNoRows
  | None => Err RNoRows
  end.

(** The resources named by a completion belong to the workspace and to each other. *)
Definition opt_all {A} (o : option A) (p : A -> bool) : bool := match o with Some a => p a | None => true end.
Definition resources_match (t : resources) (ws : Z) (item : option string) (image job : option Z)
    (session : option string) : bool :=
  opt_all item (fun i => bool_decide (items t !! i = Some ws)) &&
  opt_all image (fun g => match images t !! g with
                          | Some (w, it) => (w =? ws) && opt_all item (fun i => bool_decide (it = i))
                          | None => false end) &&
  opt_all job (fun j => match image_jobs t !! j with
                        | Some (w, g') => (w =? ws) && opt_all image (fun g => g' =? g)
                        | None => false end) &&
  opt_all session (fun x => match runs t !! x with
                            | Some (w, g') => (w =? ws) && opt_all image (fun g => g' =? g)
                            | None => false end) &&
  opt_all item (fun i => opt_all job (fun j =>
    match image_jobs t !! j with
    | Some (w, g) => (w =? ws) && match images t !! g with Some (w', it) => (w' =? ws) && bool_decide (it = i) | None => false end
    | None => false end)) &&
  opt_all item (fun i => opt_all session (fun x =>
    match runs t !! x with
    | Some (w, g) => (w =? ws) && match images t !! g with Some (w', it) => (w' =? ws) && bool_decide (it = i) | None => false end
    | None => false end)) &&
  opt_all job (fun j => opt_all session (fun x =>
    match image_jobs t !! j, runs t !! x with
    | Some (w, g), Some (w', g') => (w =? ws) && (w' =? w) && (g' =? g)
    | _, _ => false end)).

Definition CompleteExternalRequestManual (item : option string) (image job : option Z) (session : option string)
    (ws : Z) (source key : string) (owner : option string) (now : Z) : rtx unit := fun s =>
  update_request ws source key
    (fun r => held_by owner r && resources_match (res s) ws item image job session)
    (close_request RCompleted item image job session None now) s.

Definition FailExternalRequestManual (error : option string) (ws : Z) (source key : string)
    (owner : option string) (now : Z) : rtx unit :=
  update_request ws source key (held_by owner)
    (fun r => close_request RFailed (q_item_id r) (q_item_image_id r) (q_job_id r) (q_session_id r) error now r).

(** ** Retention: terminal rows and abandoned leases, a thousand at a time in id order *)

Definition retainable (cutoff now : Z) (r : request_row) : bool :=
  (q_updated_at r <? cutoff) &&
  match q_status r with
  | InProgress => match q_lease_until r with None => true | Some l => l <? now end
  | _ => true
  end.

Definition id_le (a b : Z) : Prop := a <= b.
#[export] Instance id_le_dec a b : Decision (id_le a b).
Proof. unfold id_le. apply _. Defined.

Definition retainable_ids (cutoff now : Z) (m : gmap Z request_row) : list Z :=
  merge_sort id_le (map fst (filter (fun kv => retainable cutoff now kv.2 = true) (map_to_list m))).

Definition delete_ids {A} (ids : list Z) (m : gmap Z A) : gmap Z A := foldr delete m ids.

Definition DeleteRetainableExternalRequestsManual (cutoff now : Z) : rtx Z := fun s =>
  let ids := take 1000 (retainable_ids cutoff now (requests s)) in
  Ok (Z.of_nat (length ids), set_requests (delete_ids ids (requests s)) s).

(** ** The store *)

Record ExternalRequest := {
  ID : Z; RequestHash : string; Status : request_status; ItemID : string; ItemImageID : Z;
  TranscriptionJobID : Z; SessionID : string; AttemptCount : Z; MaxAttempts : Z;
  ErrorMessage : string; LeaseOwner : string;
}.

Definition positive (o : option Z) : Z := match o with Some v => if 0 <? v then v else 0 | None => 0 end.
Definition text (o : option string) : string := default ""%string o.

Definition dbExternalRequestToStore (id : Z) (r : request_row) : ExternalRequest :=
  {| ID := id; RequestHash := q_request_hash r; Status := q_status r; ItemID := text (q_item_id r);
     ItemImageID := positive (q_item_image_id r); TranscriptionJobID := positive (q_job_id r);
     SessionID := text (q_session_id r); AttemptCount := q_attempt_count r; MaxAttempts := q_max_attempts r;
     ErrorMessage := text (q_error_message r); LeaseOwner := text (q_locked_by r) |}.

Definition lease_expired (e : env) (r : request_row) : bool :=
  bool_decide (q_status r = InProgress) &&
  match q_lease_until r with Some l => l <? go_now e | None => false end.
Definition staleExternalRequest (e : env) (r : request_row) : bool :=
  lease_expired e r && (q_attempt_count r <? q_max_attempts r).
Definition exhaustedExternalRequest (e : env) (r : request_row) : bool :=
  lease_expired e r && (q_max_attempts r <=? q_attempt_count r).
Definition failedExternalRequestExhausted (r : request_row) : bool :=
  bool_decide (q_status r = RFailed) && (q_max_attempts r <=? q_attempt_count r).

(** [strings.Trim(s, "0123456789abcdef") == ""]: only those bytes. *)
Definition lower_hex (c : ascii) : bool := byte_in c 48 57 || byte_in c 97 102.

(** The arguments as they are stored. *)
Definition request_args (ws : Z) (source key hash : string) : result req_err (string * string * string) :=
  if ws =? 0 then Err RInvalid else
  let source := TrimSpace source in
  let source := if bool_decide (source = ""%string) then "external"%string else source in
  if len source >? 64 then Err RInvalid else
  let key := TrimSpace key in
  if bool_decide (key = ""%string) || (len key >? 128) then Err RInvalid else
  let hash := TrimSpace hash in
  if negb (len hash =? 64) || negb (all_chars lower_hex hash) then Err RInvalid else
  Ok (source, key, hash).

Definition leaseDuration : Z := 600.
Definition exhausted_message : string := "external request attempts exhausted".

(** The decision on the row found under the key. *)
Definition decide_request (e : env) (ws : Z) (source key hash : string) (image : Z) (header lockedBy : string)
    (id : Z) (row : request_row) : rtx (ExternalRequest * bool) :=
  let req := dbExternalRequestToStore id row in
  if negb (bool_decide (q_request_hash row = hash)) then tx_fail RMismatch
  else if bool_decide (q_locked_by row = Some lockedBy) then mret (req, true)
  else if failedExternalRequestExhausted row then mret (req, false)
  else if exhaustedExternalRequest e row then
    _ ← FailExternalRequestManual (nullableString exhausted_message) ws source key (q_locked_by row) (db_now e);
    mret ({| ID := id; RequestHash := RequestHash req; Status := RFailed; ItemID := ItemID req;
             ItemImageID := ItemImageID req; TranscriptionJobID := TranscriptionJobID req;
             SessionID := SessionID req; AttemptCount := AttemptCount req; MaxAttempts := MaxAttempts req;
             ErrorMessage := exhausted_message; LeaseOwner := LeaseOwner req |}, false)
  else if bool_decide (q_status row = RFailed) || staleExternalRequest e row then
    _ ← ReclaimExternalRequestManual id (nullableUint64 image) (nullableString header)
          (Some (go_now e + leaseDuration)) (nullableString lockedBy) (db_now e);
    mret ({| ID := id; RequestHash := RequestHash req; Status := InProgress; ItemID := ItemID req;
             ItemImageID := ItemImageID req; TranscriptionJobID := TranscriptionJobID req;
             SessionID := SessionID req; AttemptCount := AttemptCount req + 1; MaxAttempts := MaxAttempts req;
             ErrorMessage := ""; LeaseOwner := lockedBy |}, true)
  else mret (req, false).

Definition reserveExternalRequest (e : env) (ws : Z) (source key hash header : string) (image : Z)
    : rtx (ExternalRequest * bool) :=
  '(source, key, hash) ← tx_lift (request_args ws source key hash);
  let lockedBy := newLeaseOwner "request" (uuid e) in
  _ ← LockWorkspaceForUseManual ws;
  _ ← (if image =? 0 then mret tt else LockItemImageForUseManual image ws);
  _ ← InsertExternalRequestManual ws source key hash (nullableUint64 image) (nullableString header)
        (Some (go_now e + leaseDuration)) (nullableString lockedBy) (db_now e);
  '(id, row) ← SelectExternalRequestForUpdateManual ws source key;
  decide_request e ws source key hash image header lockedBy id row.

Definition ReserveExternalRequest (e : env) (ws : Z) (source key hash header : string)
    : rtx (ExternalRequest * bool) := reserveExternalRequest e ws source key hash header 0.

Definition ReserveExternalRequestForItemImage (e : env) (ws image : Z) (source key hash header : string)
    : rtx (ExternalRequest * bool) :=
  if image =? 0 then tx_fail RInvalid else reserveExternalRequest e ws source key hash header image.

Definition CompleteExternalRequest (e : env) (ws : Z) (source key leaseOwner itemID : string) (image job : Z)
    : rtx unit :=
  if ws =? 0 then tx_fail RInvalid else
  let source := TrimSpace source in
  let key := TrimSpace key in
  let itemID := TrimSpace itemID in
  _ ← LockWorkspaceForUseManual ws;
  _ ← (if bool_decide (itemID = ""%string) then mret tt else LockItemForUseManual itemID ws);
  _ ← (if image =? 0 then mret tt else LockItemImageForUseManual image ws);
  _ ← (if job =? 0 then mret tt else LockTranscriptionJobForExternalRequestUseManual job ws);
  _ ← SelectExternalRequestForUpdateManual ws source key;
  CompleteExternalRequestManual (nullableString itemID) (nullableUint64 image) (nullableUint64 job) None
    ws source key (nullableString leaseOwner) (db_now e).

Definition FailExternalRequest (e : env) (ws : Z) (source key leaseOwner errMsg : string) : rtx unit :=
  FailExternalRequestManual (nullableString (safeExternalRequestErrorMessage errMsg)) ws source key
    (nullableString leaseOwner) (db_now e).

Definition GetExternalRequest (ws : Z) (source key : string) : rtx ExternalRequest :=
  '(id, r) ← SelectExternalRequestForUpdateManual ws (TrimSpace source) (TrimSpace key);
  mret (dbExternalRequestToStore id r).

(** Batches until one is not full.  Each statement commits on its own; [fuel] bounds
    the number of batches. *)
Fixpoint retain_requests (fuel : nat) (cutoff now : Z) (s : rdb) : option rdb :=
  match fuel with
  | O => None
  | S n =>
      match DeleteRetainableExternalRequestsManual cutoff now s with
      | Ok (removed, s') => if removed <? 1000 then Some s' else retain_requests n cutoff now s'
      | Err _ => None
      end
  end.

Definition retentionDefault : Z := 30 * 24 * 3600.
Definition RetainExternalRequests (e : env) (olderThan : Z) (s : rdb) : option rdb :=
  let olderThan := if olderThan <=? 0 then retentionDefault else olderThan in
  retain_requests (S (size (requests s))) (go_now e - olderThan) (db_now e) s.

End Requests.
