(* ===== verification/RequestTheorems.v ===== *)
(** * External requests: exclusive leases, replay, bounded attempts, retention *)

From Stdlib Require Import ZArith Lia Ascii String.
From stdpp Require Import base gmap strings list sorting.
From S2P Require Import Prelude GoStrings Json JobSchema JobStore JobQueue SafeFailures Requests.

Module RequestTheorems.
Import GoStr JobStore JobClaim SafeFailures Requests.
#[local] Open Scope Z_scope.

(** ** The unique key *)

Definition same_key (a b : request_row) : Prop :=
  q_workspace_id a = q_workspace_id b /\ q_source a = q_source b /\ q_idempotency_key a = q_idempotency_key b.

Lemma has_key_spec ws source key r :
  has_key ws source key r = true <->
  q_workspace_id r = ws /\ q_source r = source /\ q_idempotency_key r = key.
Proof. unfold has_key. rewrite !andb_true_iff, !bool_decide_eq_true, Z.eqb_eq. tauto. Qed.

Definition row_ok (r : request_row) : Prop :=
  1 <= q_attempt_count r <= q_max_attempts r /\ q_max_attempts r = 3 /\
  match q_status r with
  | InProgress => is_Some (q_lease_until r) /\ is_Some (q_locked_by r)
  | _ => q_lease_until r = None /\ q_locked_by r = None
  end.

(** One row per key; leases exactly on the rows in progress; attempts in bounds. *)
Record req_inv (s : rdb) : Prop := {
  inv_unique : forall i j a b, requests s !! i = Some a -> requests s !! j = Some b -> same_key a b -> i = j;
  inv_next : forall i a, requests s !! i = Some a -> i < next_request_id s;
  inv_rows : forall i a, requests s !! i = Some a -> row_ok a;
}.

Lemma find_request_Some m ws source key id r :
  find_request m ws source key = Some (id, r) -> m !! id = Some r /\ has_key ws source key r = true.
Proof.
  unfold find_request. intros H. apply head_Some_elem_of in H. apply list_elem_of_filter in H as [Hk Hin].
  by apply elem_of_map_to_list in Hin.
Qed.

Lemma find_request_None m ws source key id r :
  find_request m ws source key = None -> m !! id = Some r -> has_key ws source key r = false.
Proof.
  unfold find_request. intros H Hr. apply not_true_iff_false. intros Hk. apply head_None in H.
  assert (Hin : (id, r) ∈ filter (fun kv : Z * request_row => has_key ws source key kv.2 = true) (map_to_list m)).
  { apply list_elem_of_filter. split; [done|by apply elem_of_map_to_list]. }
  rewrite H in Hin. inversion Hin.
Qed.

Lemma find_request_eq s ws source key id r :
  req_inv s -> requests s !! id = Some r -> has_key ws source key r = true ->
  find_request (requests s) ws source key = Some (id, r).
Proof.
  intros Hi Hr Hk. destruct (find_request (requests s) ws source key) as [[i a]|] eqn:E.
  - apply find_request_Some in E as [Ha Hka]. apply has_key_spec in Hk as (? & ? & ?), Hka as (? & ? & ?).
    assert (i = id) as -> by (eapply inv_unique; [done..|unfold same_key; naive_solver congruence]).
    congruence.
  - eapply find_request_None in E; [|done]. congruence.
Qed.

(** ** Keeping the invariant *)

Lemma insert_inv s r :
  req_inv s -> row_ok r -> (forall i a, requests s !! i = Some a -> ~ same_key a r) ->
  req_inv {| requests := <[next_request_id s := r]> (requests s); next_request_id := next_request_id s + 1;
             res := res s |}.
Proof.
  intros [Hu Hn Hr] Hok Hfresh. split; cbn [requests next_request_id].
  - intros i j a b Ha Hb Hk. rewrite lookup_insert_Some in Ha, Hb.
    destruct Ha as [[<- <-]|[? Ha]], Hb as [[<- <-]|[? Hb]]; [done| | |by eapply Hu].
    + exfalso. eapply Hfresh; [exact Hb|]. unfold same_key in *. naive_solver.
    + exfalso. by eapply Hfresh.
  - intros i a Ha. rewrite lookup_insert_Some in Ha. destruct Ha as [[<- _]|[_ Ha]]; [lia|].
    apply Hn in Ha. lia.
  - intros i a Ha. rewrite lookup_insert_Some in Ha. destruct Ha as [[_ <-]|[_ Ha]]; [done|by eapply Hr].
Qed.

Lemma replace_inv s id r r' :
  req_inv s -> requests s !! id = Some r -> same_key r r' -> row_ok r' ->
  req_inv (set_requests (<[id := r']> (requests s)) s).
Proof.
  intros [Hu Hn Hr] Hid Hk Hok. split; cbn [requests next_request_id set_requests].
  - intros i j a b Ha Hb Hab. rewrite lookup_insert_Some in Ha, Hb.
    destruct Ha as [[<- <-]|[? Ha]], Hb as [[<- <-]|[? Hb]]; [done| | |by eapply Hu].
    + eapply Hu; [exact Hid|exact Hb|]. unfold same_key in *. naive_solver congruence.
    + eapply Hu; [exact Ha|exact Hid|]. unfold same_key in *. naive_solver congruence.
  - intros i a Ha. rewrite lookup_insert_Some in Ha. destruct Ha as [[<- _]|[_ Ha]]; by eapply Hn.
  - intros i a Ha. rewrite lookup_insert_Some in Ha. destruct Ha as [[_ <-]|[_ Ha]]; [done|by eapply Hr].
Qed.

Lemma delete_ids_lookup {A} ids (m : gmap Z A) i :
  delete_ids ids m !! i = if bool_decide (i ∈ ids) then None else m !! i.
Proof.
  unfold delete_ids. induction ids as [|j ids IH]; cbn [foldr].
  { by rewrite bool_decide_eq_false_2 by apply not_elem_of_nil. }
  destruct (decide (i = j)) as [-> |Hne].
  - rewrite lookup_delete_eq, bool_decide_eq_true_2 by set_solver. done.
  - rewrite lookup_delete_ne by done. rewrite IH.
    destruct (decide (i ∈ ids)); [rewrite !bool_decide_eq_true_2 by set_solver|
      rewrite !bool_decide_eq_false_2 by set_solver]; done.
Qed.

Lemma delete_inv s ids : req_inv s -> req_inv (set_requests (delete_ids ids (requests s)) s).
Proof.
  intros [Hu Hn Hr].
  assert (Hd : forall i a, delete_ids ids (requests s) !! i = Some a -> requests s !! i = Some a).
  { intros i a. rewrite delete_ids_lookup. by destruct (bool_decide _). }
  split; cbn [requests next_request_id set_requests]; naive_solver.
Qed.

Lemma alter_insert_eq {A} (f : A -> A) (m : gmap Z A) i a : m !! i = Some a -> alter f i m = <[i := f a]> m.
Proof.
  intros H. apply map_eq. intros j. destruct (decide (i = j)) as [<-|Hne].
  - by rewrite lookup_alter_eq, H, lookup_insert_eq.
  - by rewrite lookup_alter_ne, lookup_insert_ne.
Qed.

(** ** What a reservation does *)

Definition request_token (e : env) : string := newLeaseOwner "request" (uuid e).

Lemma request_token_nullable e :
  all_chars visible (uuid e) = true -> nullableString (request_token e) = Some (request_token e).
Proof.
  intros H. assert (Ht : request_token e = ("request-" ++ uuid e)%string) by reflexivity.
  unfold nullableString. rewrite TrimSpace_visible by (rewrite Ht; exact H). by rewrite Ht.
Qed.

Definition new_request (e : env) (ws : Z) (source key hash header : string) (image : Z) : request_row :=
  {| q_workspace_id := ws; q_source := source; q_idempotency_key := key; q_request_hash := hash;
     q_status := InProgress; q_item_id := None; q_item_image_id := nullableUint64 image; q_job_id := None;
     q_session_id := None; q_event_header := nullableString header; q_attempt_count := 1; q_max_attempts := 3;
     q_lease_until := Some (go_now e + leaseDuration); q_locked_by := Some (request_token e);
     q_error_message := None; q_updated_at := db_now e |}.

Definition exhausted_row (e : env) (r : request_row) : request_row :=
  close_request RFailed (q_item_id r) (q_item_image_id r) (q_job_id r) (q_session_id r)
    (nullableString exhausted_message) (db_now e) r.

Definition reclaimed_row (e : env) (header : string) (image : Z) (r : request_row) : request_row :=
  {| q_workspace_id := q_workspace_id r; q_source := q_source r; q_idempotency_key := q_idempotency_key r;
     q_request_hash := q_request_hash r; q_status := InProgress; q_item_id := None;
     q_item_image_id := match nullableUint64 image with Some i => Some i | None => q_item_image_id r end;
     q_job_id := None; q_session_id := None; q_event_header := nullableString header;
     q_attempt_count := q_attempt_count r + 1; q_max_attempts := q_max_attempts r;
     q_lease_until := Some (go_now e + leaseDuration); q_locked_by := Some (request_token e);
     q_error_message := None; q_updated_at := db_now e |}.

(** The four ways a reservation can end. *)
Inductive reserved (e : env) (ws : Z) (source key hash header : string) (image : Z) (s : rdb)
    : ExternalRequest -> bool -> rdb -> Prop :=
| reserved_new :
    find_request (requests s) ws source key = None ->
    reserved e ws source key hash header image s
      (dbExternalRequestToStore (next_request_id s) (new_request e ws source key hash header image)) true
      {| requests := <[next_request_id s := new_request e ws source key hash header image]> (requests s);
         next_request_id := next_request_id s + 1; res := res s |}
| reserved_replay id r :
    find_request (requests s) ws source key = Some (id, r) -> q_request_hash r = hash ->
    (failedExternalRequestExhausted r = true \/ q_status r = RCompleted \/
     (q_status r = InProgress /\ lease_expired e r = false)) ->
    reserved e ws source key hash header image s (dbExternalRequestToStore id r) false s
| reserved_exhausted id r req :
    find_request (requests s) ws source key = Some (id, r) -> q_request_hash r = hash ->
    exhaustedExternalRequest e r = true ->
    reserved e ws source key hash header image s req false
      (set_requests (<[id := exhausted_row e r]> (requests s)) s)
| reserved_again id r req :
    find_request (requests s) ws source key = Some (id, r) -> q_request_hash r = hash ->
    q_attempt_count r < q_max_attempts r -> (q_status r = RFailed \/ lease_expired e r = true) ->
    reserved e ws source key hash header image s req true
      (set_requests (<[id := reclaimed_row e header image r]> (requests s)) s).

(** The generated owner is not one that is already stored. *)
Definition fresh_token (e : env) (s : rdb) : Prop :=
  all_chars visible (uuid e) = true /\
  forall i a, requests s !! i = Some a -> q_locked_by a <> Some (request_token e).

Lemma decide_request_spec e ws source key hash header image s id r x b s' :
  fresh_token e s -> req_inv s -> find_request (requests s) ws source key = Some (id, r) ->
  decide_request e ws source key hash image header (request_token e) id r s = Ok ((x, b), s') ->
  reserved e ws source key hash header image s x b s'.
Proof.
  intros [Hu Hf] Hi Hfind H. pose proof (find_request_Some _ _ _ _ _ _ Hfind) as [Hr Hk].
  unfold decide_request in H. destruct (decide (q_request_hash r = hash)) as [Hh|Hh].
  2:{ by rewrite bool_decide_eq_false_2 in H. }
  rewrite (bool_decide_eq_true_2 (_ = hash)) in H by done. cbn [negb] in H.
  rewrite (bool_decide_eq_false_2 (q_locked_by r = _)) in H by (by eapply Hf).
  destruct (failedExternalRequestExhausted r) eqn:E1.
  { injection H as <- <- <-. eapply reserved_replay; eauto. }
  destruct (exhaustedExternalRequest e r) eqn:E2.
  { tx_bind H as [] s1 H1. injection H as <- <- <-. unfold FailExternalRequestManual, update_request in H1.
    rewrite Hfind in H1. destruct (held_by _ r); [|done]. injection H1 as <-. by eapply reserved_exhausted. }
  destruct (bool_decide (q_status r = RFailed) || staleExternalRequest e r) eqn:E3.
  - tx_bind H as [] s1 H1. injection H as <- <- <-. rewrite request_token_nullable in H1 by done.
    injection H1 as <-. rewrite (alter_insert_eq _ _ _ r Hr).
    apply orb_true_iff in E3. rewrite bool_decide_eq_true in E3.
    unfold failedExternalRequestExhausted in E1. unfold staleExternalRequest in E3.
    eapply (reserved_again _ _ _ _ _ _ _ _ id r); [done..| |].
    + destruct E3 as [E3|[_ E3]%andb_true_iff]; [|by apply Z.ltb_lt].
      rewrite bool_decide_eq_true_2 in E1 by done. cbn [andb] in E1. by apply Z.leb_gt.
    + destruct E3 as [E3|[E3 _]%andb_true_iff]; auto.
  - injection H as <- <- <-. apply orb_false_iff in E3 as [E3 E4]. apply bool_decide_eq_false in E3.
    eapply reserved_replay; [done..|]. destruct (q_status r) eqn:Es; [|by right; left|done].
    right; right. split; [done|]. unfold exhaustedExternalRequest, staleExternalRequest in *.
    destruct (lease_expired e r); [|done]. cbn [andb] in *. apply Z.leb_gt in E2. apply Z.ltb_ge in E4. lia.
Qed.

Lemma reserve_spec e ws source key hash header image s x b s' :
  fresh_token e s -> req_inv s ->
  reserveExternalRequest e ws source key hash header image s = Ok ((x, b), s') ->
  exists source' key' hash', request_args ws source key hash = Ok (source', key', hash') /\
    reserved e ws source' key' hash' header image s x b s'.
Proof.
  intros Hf Hi H. unfold reserveExternalRequest in H. tx_bind H as [[source' key'] hash'] s0 H0.
  apply tx_lift_Ok in H0 as [Ha ->]. exists source', key', hash'. split; [done|].
  fold (request_token e) in H. tx_bind H as [] s1 H1. unfold LockWorkspaceForUseManual in H1.
  destruct (bool_decide _) eqn:Hws in H1; [|done]. injection H1 as <-.
  tx_bind H as [] s2 H2.
  assert (Hs2 : s2 = s /\ (image = 0 \/ image_in (res s) ws image = true)).
  { destruct (Z.eqb_spec image 0); [injection H2 as <-; auto|].
    unfold LockItemImageForUseManual in H2. destruct (image_in _ _ _); [|done]. injection H2 as <-. auto. }
  destruct Hs2 as [-> Himg]. clear H2. tx_bind H as [] s3 H3.
  unfold InsertExternalRequestManual in H3. rewrite Hws, request_token_nullable in H3 by apply Hf.
  assert (Hin : match nullableUint64 image with Some img => image_in (res s) ws img | None => true end = true).
  { unfold nullableUint64. destruct ((image =? 0) || _) eqn:E; [done|]. destruct Himg as [-> |?]; done. }
  rewrite Hin in H3. cbn [andb] in H3. tx_bind H as [id row] s4 H4.
  unfold SelectExternalRequestForUpdateManual in H4.
  destruct (find_request (requests s) ws source' key') as [[id0 r0]|] eqn:E.
  - injection H3 as <-. rewrite E in H4. injection H4 as <- <- <-. by eapply decide_request_spec.
  - set (r := new_request e ws source' key' hash' header image).
    set (s1 := {| requests := <[next_request_id s := r]> (requests s);
      next_request_id := next_request_id s + 1; res := res s |}).
    assert (s3 = s1) as -> by by injection H3 as <-. clear H3.
    assert (Hi1 : req_inv s1).
    { apply insert_inv; [done| |].
      - split; [cbn; lia|]. cbn. eauto.
      - intros i a Hr (? & ? & ?). eapply find_request_None in E; [|exact Hr].
        apply not_true_iff_false in E. apply E, has_key_spec. subst r. cbn in *. eauto. }
    assert (Hfind : find_request (requests s1) ws source' key' = Some (next_request_id s, r)).
    { apply find_request_eq; [done|by apply lookup_insert_eq|]. by apply has_key_spec. }
    rewrite Hfind in H4. injection H4 as <- <- <-.
    unfold decide_request in H. rewrite bool_decide_eq_true_2 in H by done. cbn [negb] in H.
    rewrite bool_decide_eq_true_2 in H by done. injection H as <- <- <-. by apply reserved_new.
Qed.

(** A reservation that finds its row. *)
Definition may_reserve (s : rdb) (ws image : Z) : Prop :=
  ws ∈ workspaces (res s) /\ (image = 0 \/ image_in (res s) ws image = true).

Lemma reserve_found e ws source key hash header image s src k h id r :
  all_chars visible (uuid e) = true -> may_reserve s ws image ->
  request_args ws source key hash = Ok (src, k, h) ->
  find_request (requests s) ws src k = Some (id, r) ->
  reserveExternalRequest e ws source key hash header image s =
    decide_request e ws src k h image header (request_token e) id r s.
Proof.
  intros Hu [Hws Himg] Ha Hf. unfold reserveExternalRequest. cbv [mbind tx_bind tx_lift]. rewrite Ha.
  unfold LockWorkspaceForUseManual. rewrite bool_decide_eq_true_2 by done.
  assert (Hl : (if image =? 0 then mret tt else LockItemImageForUseManual image ws) s = Ok (tt, s)).
  { destruct (Z.eqb_spec image 0); [done|]. unfold LockItemImageForUseManual.
    destruct Himg as [? | ->]; done. }
  rewrite Hl. unfold InsertExternalRequestManual. rewrite bool_decide_eq_true_2, Hf by done.
  assert (Hin : match nullableUint64 image with Some img => image_in (res s) ws img | None => true end = true).
  { unfold nullableUint64. destruct ((image =? 0) || _) eqn:E; [done|]. destruct Himg as [-> |?]; done. }
  rewrite Hin. cbn [andb]. unfold SelectExternalRequestForUpdateManual. by rewrite Hf.
Qed.

(** Completion and failure need the lease. *)
Lemma update_request_Ok ws source key wh f s s' :
  update_request ws source key wh f s = Ok (tt, s') ->
  exists id r, find_request (requests s) ws source key = Some (id, r) /\ wh r = true /\
    s' = set_requests (<[id := f r]> (requests s)) s.
Proof.
  unfold update_request. destruct (find_request _ _ _ _) as [[id r]|]; [|done].
  destruct (wh r) eqn:E; [|done]. intros [= <-]. eauto.
Qed.

Lemma complete_spec e ws source key owner item image job s s' :
  CompleteExternalRequest e ws source key owner item image job s = Ok (tt, s') ->
  exists id r, find_request (requests s) ws (TrimSpace source) (TrimSpace key) = Some (id, r) /\
    held_by (nullableString owner) r = true /\
    s' = set_requests (<[id := close_request RCompleted (nullableString (TrimSpace item)) (nullableUint64 image)
           (nullableUint64 job) None None (db_now e) r]> (requests s)) s.
Proof.
  unfold CompleteExternalRequest. destruct (ws =? 0); [done|]. intros H. tx_bind H as [] s1 H1.
  unfold LockWorkspaceForUseManual in H1. destruct (bool_decide _); [|done]. injection H1 as <-.
  tx_bind H as [] s2 H2. assert (s2 = s) as ->.
  { destruct (bool_decide _); [by injection H2 as <-|]. unfold LockItemForUseManual in H2.
    destruct (bool_decide _); [|done]. by injection H2 as <-. }
  tx_bind H as [] s3 H3. assert (s3 = s) as ->.
  { destruct (image =? 0); [by injection H3 as <-|]. unfold LockItemImageForUseManual in H3.
    destruct (image_in _ _ _); [|done]. by injection H3 as <-. }
  tx_bind H as [] s4 H4. assert (s4 = s) as ->.
  { destruct (job =? 0); [by injection H4 as <-|]. unfold LockTranscriptionJobForExternalRequestUseManual in H4.
    destruct (image_jobs _ !! job) as [[w g]|]; [|done]. destruct (w =? ws); [|done]. by injection H4 as <-. }
  tx_bind H as [id0 r0] s5 H5. unfold SelectExternalRequestForUpdateManual in H5.
  destruct (find_request _ _ _ _) as [[i a]|] in H5; [|done]. injection H5 as <- <- <-.
  apply update_request_Ok in H as (id & r & Hf & Hw & ->). apply andb_true_iff in Hw as [Hw _].
  exists id, r. done.
Qed.

Lemma close_row_ok st item image job session error now r :
  row_ok r -> st <> InProgress -> row_ok (close_request st item image job session error now r).
Proof. intros (? & ? & _) Hst. split; [done|]. split; [done|]. cbn. by destruct st. Qed.

(** ** Runs *)

Inductive rop :=
| OpReserve (e : env) (ws : Z) (source key hash header : string) (image : Z)
| OpComplete (e : env) (ws : Z) (source key owner item : string) (image job : Z)
| OpFail (e : env) (ws : Z) (source key owner msg : string)
| OpRetain (e : env) (olderThan : Z).

(** The next state, and whether a lease was granted. *)
Definition run_rop (o : rop) (s : rdb) : bool * rdb :=
  match o with
  | OpReserve e ws source key hash header image =>
      match run_tx (reserveExternalRequest e ws source key hash header image) s with
      | (Ok (_, b), s') => (b, s')
      | (Err _, s') => (false, s')
      end
  | OpComplete e ws source key owner item image job =>
      (false, (run_tx (CompleteExternalRequest e ws source key owner item image job) s).2)
  | OpFail e ws source key owner msg => (false, (run_tx (FailExternalRequest e ws source key owner msg) s).2)
  | OpRetain e olderThan => (false, default s (RetainExternalRequests e olderThan s))
  end.

(** Every generated owner is new when it is generated. *)
Definition fresh_op (o : rop) (s : rdb) : Prop :=
  match o with OpReserve e _ _ _ _ _ _ => fresh_token e s | _ => True end.

Fixpoint run_rops (ops : list rop) (s : rdb) : rdb :=
  match ops with [] => s | o :: ops' => run_rops ops' (run_rop o s).2 end.
Fixpoint fresh_run (ops : list rop) (s : rdb) : Prop :=
  match ops with [] => True | o :: ops' => fresh_op o s /\ fresh_run ops' (run_rop o s).2 end.

(** The key an operation reserves, as stored. *)
Definition reserves (o : rop) (ws : Z) (source key : string) : bool :=
  match o with
  | OpReserve _ ws' source' key' hash _ _ =>
      (ws' =? ws) && match request_args ws' source' key' hash with
                     | Ok (src, k, _) => bool_decide (src = source) && bool_decide (k = key)
                     | Err _ => false
                     end
  | _ => false
  end.

(** How many leases of a key a run grants. *)
Fixpoint grants (ws : Z) (source key : string) (ops : list rop) (s : rdb) : Z :=
  match ops with
  | [] => 0
  | o :: ops' =>
      (if reserves o ws source key && (run_rop o s).1 then 1 else 0)
      + grants ws source key ops' (run_rop o s).2
  end.

Definition attempts_of (ws : Z) (source key : string) (s : rdb) : Z :=
  match find_request (requests s) ws source key with Some (_, r) => q_attempt_count r | None => 0 end.

Lemma retain_requests_inv n cutoff now s s' :
  req_inv s -> retain_requests n cutoff now s = Some s' -> req_inv s'.
Proof.
  revert s. induction n as [|n IH]; intros s Hi; [done|]. cbn [retain_requests DeleteRetainableExternalRequestsManual].
  destruct (_ <? _); [intros [= <-]; by apply delete_inv|]. apply IH. by apply delete_inv.
Qed.

Lemma reserved_inv e ws source key hash header image s x b s' :
  req_inv s -> reserved e ws source key hash header image s x b s' -> req_inv s'.
Proof.
  intros Hi H. destruct H as [Hf|id r Hf Hh Hc|id r req Hf Hh Hx|id r req Hf Hh Hlt Hst]; [| done | |].
  - apply insert_inv; [done|split; [cbn; lia|cbn; eauto]|]. intros i a Ha (? & ? & ?).
    eapply find_request_None in Hf; [|exact Ha]. apply not_true_iff_false in Hf. apply Hf, has_key_spec. cbn in *. eauto.
  - apply find_request_Some in Hf as [Hr _]. eapply replace_inv; [done..| |].
    + by unfold same_key.
    + apply close_row_ok; [by eapply inv_rows|done].
  - apply find_request_Some in Hf as [Hr _]. eapply replace_inv; [done..| |].
    + by unfold same_key.
    + destruct (inv_rows _ Hi _ _ Hr) as (? & ? & _). split; [cbn; lia|]. cbn. eauto.
Qed.

Lemma run_rop_inv o s : req_inv s -> fresh_op o s -> req_inv (run_rop o s).2.
Proof.
  intros Hi Hf. destruct o as [e ws source key hash header image|e ws source key owner item image job
    |e ws source key owner msg|e d]; cbn [run_rop].
  - unfold run_tx. destruct (reserveExternalRequest _ _ _ _ _ _ _ s) as [[[x b] s']|] eqn:E; [|done].
    apply reserve_spec in E as (? & ? & ? & _ & Hres); [|done..]. by eapply reserved_inv.
  - apply run_tx_preserves; [done|]. intros [] s' (id & r & Hr & _ & ->)%complete_spec.
    apply find_request_Some in Hr as [Hr _]. eapply replace_inv; [done..|by unfold same_key|].
    apply close_row_ok; [by eapply inv_rows|done].
  - apply run_tx_preserves; [done|]. intros [] s' (id & r & Hr & _ & ->)%update_request_Ok.
    apply find_request_Some in Hr as [Hr _]. eapply replace_inv; [done..|by unfold same_key|].
    apply close_row_ok; [by eapply inv_rows|done].
  - cbn [snd]. destruct (RetainExternalRequests e d s) as [s'|] eqn:E; [|done]. by eapply retain_requests_inv.
Qed.

(** ** Counting the attempts of a key *)

(** Replacing the row of another key, or adding one, does not change the count. *)
Lemma attempts_replace s ws source key id r r' :
  req_inv s -> requests s !! id = Some r -> same_key r r' -> row_ok r' ->
  attempts_of ws source key (set_requests (<[id := r']> (requests s)) s) =
    if has_key ws source key r then q_attempt_count r' else attempts_of ws source key s.
Proof.
  intros Hi Hr Hk Hok. pose proof (replace_inv _ _ _ _ Hi Hr Hk Hok) as Hi'. unfold attempts_of.
  destruct (has_key ws source key r) eqn:E.
  - erewrite find_request_eq; [done|exact Hi'|apply lookup_insert_eq|].
    rewrite has_key_spec in *. unfold same_key in Hk. naive_solver congruence.
  - destruct (find_request (requests s) ws source key) as [[i a]|] eqn:Ef.
    + apply find_request_Some in Ef as [Ha Hka].
      erewrite find_request_eq; [done|exact Hi'| |exact Hka]. cbn [set_requests requests].
      rewrite lookup_insert_ne; [done|]. intros <-. congruence.
    + destruct (find_request (requests (set_requests _ s)) ws source key) as [[i a]|] eqn:Ef'; [|done].
      apply find_request_Some in Ef' as [Ha Hka]. cbn in Ha. rewrite lookup_insert_Some in Ha.
      destruct Ha as [[<- <-]|[_ Ha]].
      * rewrite has_key_spec in Hka. apply not_true_iff_false in E. exfalso. apply E, has_key_spec.
        unfold same_key in Hk. naive_solver congruence.
      * eapply find_request_None in Ef; [|exact Ha]. congruence.
Qed.

Lemma attempts_insert s ws source key r :
  req_inv s -> row_ok r -> (forall i a, requests s !! i = Some a -> ~ same_key a r) ->
  attempts_of ws source key
    {| requests := <[next_request_id s := r]> (requests s); next_request_id := next_request_id s + 1; res := res s |} =
    if has_key ws source key r then q_attempt_count r else attempts_of ws source key s.
Proof.
  intros Hi Hok Hf. pose proof (insert_inv _ _ Hi Hok Hf) as Hi'. unfold attempts_of.
  destruct (has_key ws source key r) eqn:E.
  - erewrite find_request_eq; [done|exact Hi'|apply lookup_insert_eq|done].
  - destruct (find_request (requests s) ws source key) as [[i a]|] eqn:Ef.
    + apply find_request_Some in Ef as [Ha Hka].
      erewrite find_request_eq; [done|exact Hi'| |exact Hka]. cbn [requests].
      rewrite lookup_insert_ne; [done|]. apply inv_next in Ha; [lia|done].
    + destruct (find_request _ ws source key) as [[i a]|] eqn:Ef' at 1; [|done].
      apply find_request_Some in Ef' as [Ha Hka]. cbn in Ha. rewrite lookup_insert_Some in Ha.
      destruct Ha as [[<- <-]|[_ Ha]]; [congruence|].
      eapply find_request_None in Ef; [|exact Ha]. congruence.
Qed.

Lemma key_matches ws source key ws' source' key' r :
  has_key ws' source' key' r = true ->
  has_key ws source key r = (ws' =? ws) && (bool_decide (source' = source) && bool_decide (key' = key)).
Proof.
  intros (<- & <- & <-)%has_key_spec. unfold has_key. by rewrite andb_assoc.
Qed.

Lemma reserved_attempts e ws source key hash header image s x b s' ws' source' key' :
  req_inv s -> reserved e ws source key hash header image s x b s' ->
  attempts_of ws' source' key' s' =
    attempts_of ws' source' key' s
    + if (ws =? ws') && (bool_decide (source = source') && bool_decide (key = key')) && b then 1 else 0.
Proof.
  intros Hi H. destruct H as [Hf|id r Hf Hh Hc|id r req Hf Hh Hx|id r req Hf Hh Hlt Hst].
  - rewrite attempts_insert; [|done|split; [cbn; lia|cbn; eauto]|].
    + rewrite (key_matches _ _ _ ws source key) by by apply has_key_spec.
      destruct (_ && _) eqn:E; rewrite ?andb_true_r; [|lia].
      unfold attempts_of. apply andb_true_iff in E as [E1 [E2 E3]%andb_true_iff].
      apply Z.eqb_eq in E1 as ->. apply bool_decide_eq_true in E2 as ->, E3 as ->. by rewrite Hf.
    + intros i a Ha (? & ? & ?). eapply find_request_None in Hf; [|exact Ha].
      apply not_true_iff_false in Hf. apply Hf, has_key_spec. cbn in *. eauto.
  - rewrite andb_false_r. lia.
  - rewrite andb_false_r, Z.add_0_r. pose proof (find_request_Some _ _ _ _ _ _ Hf) as [Hr Hk].
    rewrite (attempts_replace _ _ _ _ _ r); [|done|done|by unfold same_key|
      apply close_row_ok; [by eapply inv_rows|done]].
    destruct (has_key ws' source' key' r) eqn:E; [|done]. unfold attempts_of.
    by rewrite (find_request_eq s _ _ _ id r).
  - pose proof (find_request_Some _ _ _ _ _ _ Hf) as [Hr Hk].
    destruct (inv_rows _ Hi _ _ Hr) as (? & ? & _).
    rewrite (attempts_replace _ _ _ _ _ r); [|done|done|by unfold same_key|split; [cbn; lia|cbn; eauto]].
    rewrite (key_matches ws' source' key' ws source key) by done. rewrite andb_true_r.
    rewrite <-(key_matches ws' source' key' ws source key r) by done.
    destruct (has_key ws' source' key' r) eqn:E; [|lia]. unfold attempts_of.
    by rewrite (find_request_eq s _ _ _ id r).
Qed.

Definition is_retain (o : rop) : bool := match o with OpRetain _ _ => true | _ => false end.

Lemma run_rop_attempts o s ws source key :
  req_inv s -> fresh_op o s -> is_retain o = false ->
  attempts_of ws source key (run_rop o s).2 =
    attempts_of ws source key s + if reserves o ws source key && (run_rop o s).1 then 1 else 0.
Proof.
  intros Hi Hf Hnr. destruct o as [e ws' source' key' hash header image|e ws' source' key' owner item image job
    |e ws' source' key' owner msg|e d]; cbn [run_rop reserves]; [| | |done].
  - unfold run_tx. destruct (reserveExternalRequest _ _ _ _ _ _ _ s) as [[[x b] s']|] eqn:E.
    + apply reserve_spec in E as (src & k & h & -> & Hres); [|done..]. cbn [fst snd].
      by eapply reserved_attempts.
    + cbn [fst snd]. rewrite andb_false_r. lia.
  - cbn [fst snd andb]. rewrite Z.add_0_r. unfold run_tx.
    destruct (CompleteExternalRequest _ _ _ _ _ _ _ _ s) as [[[] s']|] eqn:E; [|done]. cbn [snd].
    apply complete_spec in E as (id & r & Hfr & _ & ->). apply find_request_Some in Hfr as [Hr _].
    rewrite (attempts_replace _ _ _ _ _ r); [|done|done|by unfold same_key|
      apply close_row_ok; [by eapply inv_rows|done]].
    destruct (has_key ws source key r) eqn:Ek; [|done]. unfold attempts_of. by rewrite (find_request_eq s _ _ _ id r).
  - cbn [fst snd andb]. rewrite Z.add_0_r. unfold run_tx.
    destruct (FailExternalRequest _ _ _ _ _ _ s) as [[[] s']|] eqn:E; [|done]. cbn [snd].
    apply update_request_Ok in E as (id & r & Hfr & _ & ->). apply find_request_Some in Hfr as [Hr _].
    rewrite (attempts_replace _ _ _ _ _ r); [|done|done|by unfold same_key|
      apply close_row_ok; [by eapply inv_rows|done]].
    destruct (has_key ws source key r) eqn:Ek; [|done]. unfold attempts_of. by rewrite (find_request_eq s _ _ _ id r).
Qed.

Lemma run_rops_inv ops s : req_inv s -> fresh_run ops s -> req_inv (run_rops ops s).
Proof.
  revert s. induction ops as [|o ops IH]; intros s Hi; [done|]. intros [Hf Hr]. cbn [run_rops].
  apply IH; [by apply run_rop_inv|done].
Qed.

Lemma run_rops_attempts ops s ws source key :
  req_inv s -> fresh_run ops s -> Forall (fun o => is_retain o = false) ops ->
  attempts_of ws source key (run_rops ops s) = attempts_of ws source key s + grants ws source key ops s.
Proof.
  revert s. induction ops as [|o ops IH]; intros s Hi Hf Hn; cbn [run_rops grants]; [lia|].
  destruct Hf as [Hf Hr]. apply Forall_cons in Hn as [Hn Hns].
  rewrite IH by (done || by apply run_rop_inv). rewrite run_rop_attempts by done. lia.
Qed.

Lemma attempts_bounded s ws source key : req_inv s -> 0 <= attempts_of ws source key s <= 3.
Proof.
  intros Hi. unfold attempts_of. destruct (find_request _ _ _ _) as [[id r]|] eqn:E; [|lia].
  apply find_request_Some in E as [Hr _]. destruct (inv_rows _ Hi _ _ Hr) as (? & ? & _). lia.
Qed.

(** ** Retention *)

Lemma retainable_ids_spec cutoff now m i :
  i ∈ retainable_ids cutoff now m <-> exists r, m !! i = Some r /\ retainable cutoff now r = true.
Proof.
  unfold retainable_ids. rewrite (merge_sort_Permutation id_le), list_elem_of_fmap. split.
  - intros ([j r] & -> & Hin). apply list_elem_of_filter in Hin as [Hr Hin].
    apply elem_of_map_to_list in Hin. eauto.
  - intros (r & Hr & Hret). exists (i, r). split; [done|]. apply list_elem_of_filter.
    split; [done|by apply elem_of_map_to_list].
Qed.

Lemma delete_ids_size (m : gmap Z request_row) ids i :
  i ∈ ids -> is_Some (m !! i) -> (size (delete_ids ids m) < size m)%nat.
Proof.
  intros Hin Hm. rewrite <-!size_dom. apply subset_size. split.
  - intros j. rewrite !elem_of_dom, delete_ids_lookup. destruct (bool_decide _); [by intros []|done].
  - intros Hsub. assert (Hi : i ∈ dom (delete_ids ids m)) by (apply Hsub; by apply elem_of_dom).
    apply elem_of_dom in Hi. rewrite delete_ids_lookup, bool_decide_eq_true_2 in Hi by done. by destruct Hi.
Qed.

(** What is left when the loop ends. *)
Definition swept (cutoff now : Z) (s s' : rdb) : Prop :=
  forall i, requests s' !! i =
    match requests s !! i with
    | Some r => if retainable cutoff now r then None else Some r
    | None => None
    end.

Lemma retain_requests_swept n cutoff now s :
  (size (requests s) < n)%nat -> exists s', retain_requests n cutoff now s = Some s' /\ swept cutoff now s s'.
Proof.
  revert s. induction n as [|n IH]; intros s Hn; [lia|].
  cbn [retain_requests DeleteRetainableExternalRequestsManual].
  set (all := retainable_ids cutoff now (requests s)). set (s1 := set_requests _ s).
  assert (Hlook : forall i, requests s1 !! i = if bool_decide (i ∈ take 1000 all) then None else requests s !! i)
    by (intros i; apply delete_ids_lookup).
  assert (Hsub : forall i, i ∈ take 1000 all -> exists r, requests s !! i = Some r /\ retainable cutoff now r = true).
  { intros i Hi. apply retainable_ids_spec. by apply (subseteq_take 1000). }
  rewrite length_take. destruct (Z.ltb_spec (Z.of_nat (Nat.min 1000 (length all))) 1000) as [Hlt|Hge].
  - exists s1. split; [done|]. intros i. rewrite Hlook. rewrite (firstn_all2 all) in * by lia.
    destruct (requests s !! i) as [r|] eqn:Er; [|by destruct (bool_decide _)].
    destruct (retainable cutoff now r) eqn:Ek.
    + rewrite bool_decide_eq_true_2; [done|]. apply retainable_ids_spec. eauto.
    + rewrite bool_decide_eq_false_2; [done|]. intros (r' & Hr' & Hk)%retainable_ids_spec. congruence.
  - destruct all as [|i l] eqn:Eall; [cbn in Hge; lia|].
    assert (Hi : i ∈ take 1000 (i :: l)) by (cbn; set_solver).
    destruct (IH s1) as (s' & Hs' & Hsw).
    { assert (size (requests s1) < size (requests s))%nat; [|lia].
      eapply delete_ids_size; [exact Hi|]. destruct (Hsub i Hi) as (r & Hr & _). eauto. }
    exists s'. split; [done|]. intros j. rewrite Hsw, Hlook.
    destruct (decide (j ∈ take 1000 (i :: l))) as [Hj|Hj].
    + rewrite bool_decide_eq_true_2 by done. destruct (Hsub j Hj) as (r & -> & ->). done.
    + by rewrite bool_decide_eq_false_2.
Qed.

(** ** Theorems *)

(** C34: a live lease is exclusive: while the lease of a request has not expired,
    another reservation of the same key and body gets the stored request and no
    lease, one with another body gets a mismatch, and completing or failing the
    request with another owner is refused; none of them changes anything. *)
Theorem live_lease_is_exclusive s id r l :
  req_inv s -> requests s !! id = Some r -> q_status r = InProgress -> q_lease_until r = Some l ->
  (forall e source key hash header image h,
     fresh_token e s -> go_now e <= l -> may_reserve s (q_workspace_id r) image ->
     request_args (q_workspace_id r) source key hash = Ok (q_source r, q_idempotency_key r, h) ->
     run_tx (reserveExternalRequest e (q_workspace_id r) source key hash header image) s =
       (if bool_decide (q_request_hash r = h) then Ok (dbExternalRequestToStore id r, false) else Err RMismatch, s)) /\
  (forall e source key owner item image job,
     TrimSpace source = q_source r -> TrimSpace key = q_idempotency_key r ->
     nullableString owner <> q_locked_by r ->
     exists err, run_tx (CompleteExternalRequest e (q_workspace_id r) source key owner item image job) s = (Err err, s)) /\
  (forall e owner msg,
     nullableString owner <> q_locked_by r ->
     run_tx (FailExternalRequest e (q_workspace_id r) (q_source r) (q_idempotency_key r) owner msg) s = (Err RNoRows, s)).
Proof.
  intros Hi Hr Hst Hl.
  assert (Hf : find_request (requests s) (q_workspace_id r) (q_source r) (q_idempotency_key r) = Some (id, r))
    by (apply find_request_eq; [done..|by apply has_key_spec]).
  assert (Hheld : forall owner, nullableString owner <> q_locked_by r -> held_by (nullableString owner) r = false).
  { intros owner Hne. unfold held_by. destruct (nullableString owner) as [o|]; [|apply andb_false_r].
    rewrite (bool_decide_eq_false_2 (q_locked_by r = _)) by congruence. apply andb_false_r. }
  split_and!.
  - intros e source key hash header image h [Hu Hfr] Hnow Hmay Ha. unfold run_tx.
    rewrite (reserve_found _ _ _ _ _ _ _ _ _ _ _ _ _ Hu Hmay Ha Hf). unfold decide_request.
    destruct (decide (q_request_hash r = h)) as [Hh|Hh].
    2:{ by rewrite !bool_decide_eq_false_2 by done. }
    rewrite !(bool_decide_eq_true_2 (_ = h)) by done. cbn [negb].
    rewrite (bool_decide_eq_false_2 (q_locked_by r = _)) by (by eapply Hfr).
    assert (lease_expired e r = false) as Hexp.
    { unfold lease_expired. rewrite Hl. apply andb_false_iff. right. by apply Z.ltb_ge. }
    unfold failedExternalRequestExhausted, exhaustedExternalRequest, staleExternalRequest.
    by rewrite Hexp, Hst.
  - intros e source key owner item image job Hs Hk Hne. unfold run_tx.
    destruct (CompleteExternalRequest _ _ _ _ _ _ _ _ s) as [[[] s']|err] eqn:E; [|eauto].
    apply complete_spec in E as (id' & r' & Hf' & Hh & _). rewrite Hs, Hk, Hf in Hf'. injection Hf' as <- <-.
    rewrite Hheld in Hh; done.
  - intros e owner msg Hne. unfold run_tx, FailExternalRequest, FailExternalRequestManual, update_request.
    by rewrite Hf, Hheld.
Qed.

(** A completed request is replayed: every later reservation of the same key
    and body gets the stored outcome and no lease, one with another body gets a
    mismatch, and nothing changes. *)
Theorem completed_request_is_replayed s id r e source key hash header image h :
  req_inv s -> requests s !! id = Some r -> q_status r = RCompleted ->
  all_chars visible (uuid e) = true -> may_reserve s (q_workspace_id r) image ->
  request_args (q_workspace_id r) source key hash = Ok (q_source r, q_idempotency_key r, h) ->
  run_tx (reserveExternalRequest e (q_workspace_id r) source key hash header image) s =
    (if bool_decide (q_request_hash r = h) then Ok (dbExternalRequestToStore id r, false) else Err RMismatch, s).
Proof.
  intros Hi Hr Hst Hu Hmay Ha.
  assert (Hf : find_request (requests s) (q_workspace_id r) (q_source r) (q_idempotency_key r) = Some (id, r))
    by (apply find_request_eq; [done..|by apply has_key_spec]).
  destruct (inv_rows _ Hi _ _ Hr) as (_ & _ & Hok). rewrite Hst in Hok. destruct Hok as [_ Hlock].
  unfold run_tx. rewrite (reserve_found _ _ _ _ _ _ _ _ _ _ _ _ _ Hu Hmay Ha Hf). unfold decide_request.
  destruct (decide (q_request_hash r = h)) as [Hh|Hh].
  2:{ by rewrite !bool_decide_eq_false_2 by done. }
  rewrite !(bool_decide_eq_true_2 (_ = h)) by done. cbn [negb]. rewrite Hlock.
  unfold failedExternalRequestExhausted, exhaustedExternalRequest, staleExternalRequest, lease_expired.
  by rewrite Hst.
Qed.

(** Attempts are bounded: whatever the sequence of operations, the table keeps
    one row per key with a lease exactly while it is in progress, and between two
    removals of its row a key is leased at most three times. *)
Theorem grants_are_bounded ops s0 ws source key :
  requests s0 = ∅ -> fresh_run ops s0 ->
  req_inv (run_rops ops s0) /\
  (Forall (fun o => is_retain o = false) ops -> grants ws source key ops s0 <= 3).
Proof.
  intros H0 Hf.
  assert (Hi : req_inv s0) by (split; rewrite H0; intros *; rewrite ?lookup_empty; done).
  split; [by apply run_rops_inv|]. intros Hn.
  pose proof (run_rops_attempts ops s0 ws source key Hi Hf Hn) as Ha.
  pose proof (attempts_bounded (run_rops ops s0) ws source key (run_rops_inv _ _ Hi Hf)).
  pose proof (attempts_bounded s0 ws source key Hi). lia.
Qed.

(** Retention ends and removes exactly the old rows that are finished or whose
    lease has expired; a row with a live lease is kept whatever its age. *)
Theorem retention_sweeps_expired e olderThan s :
  exists s', RetainExternalRequests e olderThan s = Some s' /\
    swept (go_now e - if olderThan <=? 0 then retentionDefault else olderThan) (db_now e) s s' /\
    forall i r l, requests s !! i = Some r -> q_status r = InProgress -> q_lease_until r = Some l ->
      db_now e <= l -> requests s' !! i = Some r.
Proof.
  unfold RetainExternalRequests.
  destruct (retain_requests_swept (S (size (requests s)))
    (go_now e - if olderThan <=? 0 then retentionDefault else olderThan) (db_now e) s ltac:(lia)) as (s' & H & Hsw).
  exists s'. split_and!; [done|done|]. intros i r l Hr Hst Hl Hnow. rewrite Hsw, Hr. unfold retainable.
  rewrite Hst, Hl. rewrite (proj2 (Z.ltb_ge l (db_now e))) by done. by rewrite andb_false_r.
Qed.

(** ** Concrete requests *)

Definition demo_env (now : Z) (id : string) : env :=
  {| db_now := now; go_now := now; locked_rows := ∅; uuid := id; hostname := None |}.
Definition demo_hash : string := "0123456789abcdef0123456789abcdef0123456789abcdef0123456789abcdef".
Definition demo_resources : rdb :=
  {| requests := ∅; next_request_id := 1;
     res := {| workspaces := {[1]}; items := {["item"%string := 1]}; images := {[5 := (1, "item"%string)]};
               image_jobs := {[9 := (1, 5)]}; runs := ∅ |} |}.

Definition demo_ops : list rop :=
  [OpReserve (demo_env 100 "a") 1 "ingest" " key " demo_hash "" 5;
   OpReserve (demo_env 200 "b") 1 "ingest" "key" demo_hash "" 5;
   OpReserve (demo_env 800 "c") 1 "ingest" "key" demo_hash "" 5;
   OpFail (demo_env 810 "") 1 "ingest" "key" "request-c" "timeout";
   OpReserve (demo_env 900 "d") 1 "ingest" "key" demo_hash "" 5].

Definition demo_held : rdb := run_rops demo_ops demo_resources.
Definition demo_done : rdb :=
  run_rops (demo_ops ++ [OpComplete (demo_env 950 "") 1 "ingest" "key" "request-d" "item" 5 9]) demo_resources.

Lemma demo_fresh (s : rdb) (e : env) l :
  all_chars visible (uuid e) = true -> map_to_list (requests s) = l ->
  forallb (fun kv => negb (bool_decide (q_locked_by kv.2 = Some (request_token e)))) l = true -> fresh_token e s.
Proof.
  intros Hu Hl H. split; [done|]. intros i a Ha%elem_of_map_to_list Heq. rewrite Hl in Ha.
  rewrite forallb_forall in H. apply list_elem_of_In in Ha. specialize (H _ Ha). cbn in H.
  by rewrite bool_decide_eq_true_2 in H.
Qed.

Ltac demo_fresh := eapply demo_fresh; [reflexivity|vm_compute; reflexivity|vm_compute; reflexivity].

Lemma demo_ops_fresh : fresh_run demo_ops demo_resources.
Proof. unfold demo_ops. repeat (split; [first [exact I|demo_fresh]|]). exact I. Qed.

Lemma demo_empty_inv : req_inv demo_resources.
Proof. split; intros *; rewrite ?lookup_empty; done. Qed.

Lemma demo_held_inv : req_inv demo_held.
Proof. apply run_rops_inv; [apply demo_empty_inv|apply demo_ops_fresh]. Qed.

Lemma demo_done_inv : req_inv demo_done.
Proof.
  apply run_rops_inv; [apply demo_empty_inv|]. unfold demo_ops. cbn [app].
  repeat (split; [first [exact I|demo_fresh]|]). exact I.
Qed.

Lemma live_lease_is_exclusive_witness : exists r,
  requests demo_held !! 1 = Some r /\ q_attempt_count r = 3 /\
  run_tx (reserveExternalRequest (demo_env 1500 "e") 1 "ingest" "key" demo_hash "" 0) demo_held
    = (Ok (dbExternalRequestToStore 1 r, false), demo_held) /\
  run_tx (FailExternalRequest (demo_env 1500 "") 1 "ingest" "key" "request-c" "late") demo_held
    = (Err RNoRows, demo_held).
Proof.
  eexists. split; [vm_compute; reflexivity|]. split; [reflexivity|].
  edestruct (live_lease_is_exclusive demo_held 1) as (H1 & _ & H3);
    [apply demo_held_inv|vm_compute; reflexivity|reflexivity|reflexivity|].
  split.
  - apply (H1 (demo_env 1500 "e") "ingest"%string "key"%string demo_hash ""%string 0 demo_hash).
    + demo_fresh.
    + vm_compute. discriminate.
    + split; [vm_compute; reflexivity|by left].
    + vm_compute. reflexivity.
  - apply H3. vm_compute. discriminate.
Defined.

Definition demo_done_row : request_row :=
  Eval vm_compute in default (new_request (demo_env 0 "") 0 "" "" "" "" 0) (requests demo_done !! 1).

Lemma completed_request_is_replayed_witness :
  requests demo_done !! 1 = Some demo_done_row /\ q_item_id demo_done_row = Some "item"%string /\
  run_tx (reserveExternalRequest (demo_env 99999 "f") (q_workspace_id demo_done_row) "ingest" "key" demo_hash "" 5)
      demo_done
    = (if bool_decide (q_request_hash demo_done_row = demo_hash)
       then Ok (dbExternalRequestToStore 1 demo_done_row, false) else Err RMismatch, demo_done).
Proof.
  split; [vm_compute; reflexivity|]. split; [reflexivity|].
  apply (completed_request_is_replayed demo_done 1 demo_done_row (demo_env 99999 "f") "ingest" "key" demo_hash "" 5
           demo_hash).
  - apply demo_done_inv.
  - vm_compute. reflexivity.
  - reflexivity.
  - reflexivity.
  - split; [vm_compute; reflexivity|right; vm_compute; reflexivity].
  - vm_compute. reflexivity.
Defined.

Lemma grants_are_bounded_witness :
  grants 1 "ingest" "key" demo_ops demo_resources = 3 /\
  req_inv (run_rops demo_ops demo_resources) /\
  (Forall (fun o => is_retain o = false) demo_ops -> grants 1 "ingest" "key" demo_ops demo_resources <= 3).
Proof.
  split; [vm_compute; reflexivity|].
  apply (grants_are_bounded demo_ops demo_resources 1 "ingest" "key"); [reflexivity|apply demo_ops_fresh].
Defined.

End RequestTheorems.
