(* ===== verification/Webhooks.v ===== *)
(** * Webhooks: the event outbox, subscriptions and deliveries

    internal/store/transcription_jobs.go (enqueue, claim, report, retention, list),
    internal/store/webhook_subscriptions.go, and the statements of
    event_outbox.sql.go, webhook_subscriptions.sql.go and integration_workflows.go.
    Column lengths are not modelled; rows created in the same second are taken in
    id order. *)

From Stdlib Require Import ZArith Lia Ascii String.
From stdpp Require Import base gmap strings list sorting.
From S2P Require Import Prelude GoStrings Json JobSchema JobStore SafeFailures Presentation Requests.

Module Webhooks.
Import GoStr JobStore SafeFailures Presentation.
#[local] Open Scope Z_scope.

(** ** Tables *)

Inductive delivery_status := WPending | WProcessing | WDelivered | WFailed.
#[export] Instance delivery_status_eq_dec : EqDecision delivery_status.
Proof. solve_decision. Defined.

Record delivery_row := {
  w_event_id : string;
  w_subscription_id : Z;
  w_status : delivery_status;
  w_attempt_count : Z;
  w_max_attempts : Z;
  w_next_attempt_at : option Z;
  w_lease_until : option Z;
  w_locked_by : option string;
  w_last_error : option string;
  w_created_at : Z;
}.

Record outbox_row := {
  o_id : Z;
  o_event_type : string;
  o_workspace_id : option Z;
  o_subject : option string;
  o_body_json : string;
  o_created_at : Z;
}.

Record subscription_row := {
  s_workspace_id : Z;
  s_target_url : string;
  s_target_hash : string;
  s_signing_secret : string;
  s_created_at : Z;
}.

Record hdb := {
  outbox : gmap string outbox_row;         (* by event_id, which is unique *)
  next_outbox_id : Z;
  deliveries : gmap Z delivery_row;
  next_delivery_id : Z;
  subscriptions : gmap Z subscription_row;
  next_subscription_id : Z;
  workspaces : gset Z;
  image_workspace : gmap Z Z;              (* item_images joined with items *)
}.

Inductive hook_err :=
| HNoRows | HInvalid | HLock
| HExists       (* ErrWebhookSubscriptionExists *)
| HLimit        (* ErrWebhookSubscriptionLimit *)
| HRetention.   (* the batch changed while it was locked *)

Abbreviation htx := (tx hdb hook_err).

Definition set_outbox (x : gmap string outbox_row) (n : Z) (s : hdb) : hdb :=
  {| outbox := x; next_outbox_id := n; deliveries := deliveries s; next_delivery_id := next_delivery_id s;
     subscriptions := subscriptions s; next_subscription_id := next_subscription_id s;
     workspaces := workspaces s; image_workspace := image_workspace s |}.
Definition set_deliveries (x : gmap Z delivery_row) (n : Z) (s : hdb) : hdb :=
  {| outbox := outbox s; next_outbox_id := next_outbox_id s; deliveries := x; next_delivery_id := n;
     subscriptions := subscriptions s; next_subscription_id := next_subscription_id s;
     workspaces := workspaces s; image_workspace := image_workspace s |}.
Definition set_subscriptions (x : gmap Z subscription_row) (n : Z) (s : hdb) : hdb :=
  {| outbox := outbox s; next_outbox_id := next_outbox_id s; deliveries := deliveries s;
     next_delivery_id := next_delivery_id s; subscriptions := x; next_subscription_id := n;
     workspaces := workspaces s; image_workspace := image_workspace s |}.

(** ** Enqueueing *)

(** [INSERT IGNORE], only under an existing workspace. *)
Definition InsertEventOutbox (eventID eventType : string) (ws : option Z) (subject : option string)
    (body : string) (now : Z) : htx unit := fun s =>
  if match ws with Some w => bool_decide (w ∈ workspaces s) | None => true end then
    match outbox s !! eventID with
    | Some _ => Ok (tt, s)
    | None =>
        let o := {| o_id := next_outbox_id s; o_event_type := eventType; o_workspace_id := ws;
                    o_subject := subject; o_body_json := body; o_created_at := now |} in
        Ok (tt, set_outbox (<[eventID := o]> (outbox s)) (next_outbox_id s + 1) s)
    end
  else Ok (tt, s).

Definition has_delivery (m : gmap Z delivery_row) (eventID : string) (sub : Z) : bool :=
  existsb (fun kv => bool_decide (w_event_id kv.2 = eventID) && (w_subscription_id kv.2 =? sub)) (map_to_list m).

(** [INSERT IGNORE] of one delivery. *)
Definition add_delivery (eventID : string) (now : Z) (s : hdb) (sub : Z) : hdb :=
  if has_delivery (deliveries s) eventID sub then s else
  let d := {| w_event_id := eventID; w_subscription_id := sub; w_status := WPending; w_attempt_count := 0;
              w_max_attempts := 10; w_next_attempt_at := None; w_lease_until := None; w_locked_by := None;
              w_last_error := None; w_created_at := now |} in
  set_deliveries (<[next_delivery_id s := d]> (deliveries s)) (next_delivery_id s + 1) s.

(** The subscriptions of a workspace, in id order. *)
Definition workspace_subscriptions (s : hdb) (ws : Z) : list Z :=
  merge_sort Requests.id_le
    (map fst (filter (fun kv => s_workspace_id kv.2 = ws) (map_to_list (subscriptions s)))).

Definition InsertWorkspaceWebhookDeliveries (eventID : string) (now : Z) : htx unit := fun s =>
  match outbox s !! eventID with
  | Some o =>
      match o_workspace_id o with
      | Some ws => if bool_decide (ws ∈ workspaces s)
                   then Ok (tt, foldl (add_delivery eventID now) s (workspace_subscriptions s ws))
                   else Err HNoRows
      | None => Err HNoRows
      end
  | None => Err HNoRows
  end.

Definition eventWorkspaceID (subject : string) : htx (option Z) := fun s =>
  match itemImageIDFromSubject subject with
  | None => Err HInvalid
  | Some img => match image_workspace s !! img with
                | Some ws => Ok (nullableUint64 ws, s)
                | None => Err HNoRows
                end
  end.

Definition blank (s : string) : bool := bool_decide (TrimSpace s = ""%string).

Definition EnqueueWebhookEvent (e : env) (eventID eventType subject body : string) : htx unit :=
  if blank eventID || blank body then mret tt else
  ws ← eventWorkspaceID subject;
  _ ← InsertEventOutbox eventID eventType ws (nullableString subject) body (db_now e);
  InsertWorkspaceWebhookDeliveries eventID (db_now e).

Definition SystemWebhookEventMaintenance : string := "dev.scribe.system.maintenance".

Definition EnqueueSystemWebhookEvent (e : env) (eventID eventType body : string) : htx unit :=
  if negb (bool_decide (eventType = SystemWebhookEventMaintenance)) then tx_fail HInvalid else
  if blank eventID || blank body then mret tt else
  InsertEventOutbox eventID eventType None None body (db_now e).

(** ** Claiming *)

Definition with_status (st : delivery_status) (attempts : Z) (next lease : option Z) (owner error : option string)
    (d : delivery_row) : delivery_row :=
  {| w_event_id := w_event_id d; w_subscription_id := w_subscription_id d; w_status := st;
     w_attempt_count := attempts; w_max_attempts := w_max_attempts d; w_next_attempt_at := next;
     w_lease_until := lease; w_locked_by := owner; w_last_error := error; w_created_at := w_created_at d |}.

Definition expired (now : Z) (d : delivery_row) : bool :=
  bool_decide (w_status d = WProcessing) && match w_lease_until d with Some l => l <? now | None => false end.

Definition expired_message : string := "delivery lease expired after maximum attempts".

Definition FailExpiredExhaustedWebhookDeliveriesManual (now : Z) : htx unit :=
  tx_modify (fun s => set_deliveries
    ((fun d => if expired now d && (w_max_attempts d <=? w_attempt_count d)
               then with_status WFailed (w_attempt_count d) (w_next_attempt_at d) None None
                      (Some (default expired_message (w_last_error d))) d
               else d) <$> deliveries s) (next_delivery_id s) s).

Definition eligible (now : Z) (d : delivery_row) : bool :=
  (bool_decide (w_status d = WPending) && match w_next_attempt_at d with Some t => t <=? now | None => true end)
  || (expired now d && (w_attempt_count d <? w_max_attempts d)).

(** The joined event and subscription: both exist and share the workspace. *)
Definition joined (s : hdb) (d : delivery_row) : option (outbox_row * subscription_row) :=
  match outbox s !! w_event_id d, subscriptions s !! w_subscription_id d with
  | Some o, Some sub => if bool_decide (o_workspace_id o = Some (s_workspace_id sub)) then Some (o, sub) else None
  | _, _ => None
  end.

Definition older (a b : Z * delivery_row) : Prop :=
  w_created_at a.2 < w_created_at b.2 \/ (w_created_at a.2 = w_created_at b.2 /\ a.1 <= b.1).
#[export] Instance older_dec a b : Decision (older a b).
Proof. unfold older. apply _. Defined.

Record WebhookDelivery := {
  D_ID : Z; D_EventID : string; D_EventType : string; D_Subject : string; D_BodyJSON : string;
  D_SubscriptionID : Z; D_TargetURL : string; D_SigningSecret : string; D_LeaseOwner : string;
  D_AttemptCount : Z; D_MaxAttempts : Z;
}.

(** The rows the query returns: unlocked, eligible and joined, oldest first. *)
Definition ClaimWebhookDeliveriesManual (limit now : Z) (locked : gset Z) (s : hdb) : list (Z * delivery_row) :=
  take (Z.to_nat limit) (merge_sort older
    (filter (fun kv => (kv.1 ∉ locked) /\ eligible now kv.2 = true /\ is_Some (joined s kv.2))
       (map_to_list (deliveries s)))).

Definition MarkWebhookDeliveryProcessingManual (lease : Z) (owner : string) (s : hdb) (row : Z * delivery_row) : hdb :=
  set_deliveries (alter (fun d => with_status WProcessing (w_attempt_count d + 1) (w_next_attempt_at d)
    (Some lease) (nullableString owner) (w_last_error d) d) row.1 (deliveries s)) (next_delivery_id s) s.

Definition dbWebhookDeliveryToStore (s : hdb) (owner : string) (row : Z * delivery_row) : option WebhookDelivery :=
  '(o, sub) ← joined s row.2;
  Some {| D_ID := row.1; D_EventID := w_event_id row.2; D_EventType := o_event_type o;
          D_Subject := default ""%string (o_subject o); D_BodyJSON := o_body_json o;
          D_SubscriptionID := w_subscription_id row.2; D_TargetURL := s_target_url sub;
          D_SigningSecret := s_signing_secret sub; D_LeaseOwner := default ""%string (nullableString owner);
          D_AttemptCount := w_attempt_count row.2 + 1; D_MaxAttempts := w_max_attempts row.2 |}.

Definition webhookLease : Z := 120.

Definition ClaimWebhookDeliveries (e : env) (limit : Z) : htx (list WebhookDelivery) :=
  let limit := if limit <=? 0 then 10 else limit in
  let owner := newLeaseOwner "webhook" (uuid e) in
  limit ← tx_lift (match int32FromInt limit with Ok n => Ok n | Err _ => Err HInvalid end);
  _ ← FailExpiredExhaustedWebhookDeliveriesManual (db_now e);
  s ← tx_get;
  let rows := ClaimWebhookDeliveriesManual limit (db_now e) (locked_rows e) s in
  _ ← tx_put (foldl (MarkWebhookDeliveryProcessingManual (go_now e + webhookLease) owner) s rows);
  mret (omap (dbWebhookDeliveryToStore s owner) rows).

(** ** Reporting *)

(** [requireAffectedRow] on an update of the row that the owner is processing. *)
Definition update_delivery (id : Z) (owner : option string) (f : delivery_row -> delivery_row) : htx unit := fun s =>
  match deliveries s !! id with
  | Some d =>
      if bool_decide (w_status d = WProcessing)
         && match owner with Some o => bool_decide (w_locked_by d = Some o) | None => false end
      then Ok (tt, set_deliveries (<[id := f d]> (deliveries s)) (next_delivery_id s) s)
      else Err HNoRows
  | None => Err HNoRows
  end.

Definition MarkWebhookDeliveryDelivered (id : Z) (leaseOwner : string) : htx unit :=
  update_delivery id (nullableString leaseOwner)
    (fun d => with_status WDelivered (w_attempt_count d) (w_next_attempt_at d) None None None d).

(** [LEAST(900, POW(2, attempt_count) * 5)] seconds *)
Definition webhook_backoff (attempts : Z) : Z := Z.min 900 (2 ^ attempts * 5).

Definition failed_delivery (error : option string) (now : Z) (d : delivery_row) : delivery_row :=
  if w_max_attempts d <=? w_attempt_count d
  then with_status WFailed (w_attempt_count d) None None None error d
  else with_status WPending (w_attempt_count d) (Some (now + webhook_backoff (w_attempt_count d))) None None error d.

Definition MarkWebhookDeliveryFailed (e : env) (id : Z) (leaseOwner errMsg : string) : htx unit :=
  update_delivery id (nullableString leaseOwner)
    (failed_delivery (nullableString (safeDurableFailureMessage durableFailureWebhook errMsg)) (db_now e)).

(** ** Retention of events with their deliveries, a thousand at a time *)

Definition eventRetentionBatchSize : Z := 1000.

Definition event_before (a b : string * outbox_row) : Prop := o_id a.2 <= o_id b.2.
#[export] Instance event_before_dec a b : Decision (event_before a b).
Proof. unfold event_before. apply _. Defined.

Definition LockEventOutboxRetentionBatchManual (cutoff : Z) (s : hdb) : list string :=
  map fst (take 1000 (merge_sort event_before
    (filter (fun kv => o_created_at kv.2 < cutoff) (map_to_list (outbox s))))).

Definition retainWebhookEventBatch (cutoff : Z) : htx Z :=
  s ← tx_get;
  let ids := LockEventOutboxRetentionBatchManual cutoff s in
  if bool_decide (ids = []) then mret 0 else
  _ ← tx_modify (fun s => set_deliveries (filter (fun kv => w_event_id kv.2 ∉ ids) (deliveries s))
                            (next_delivery_id s) s);
  let kept := filter (fun kv => kv.1 ∉ ids) (outbox s) in
  let removed := Z.of_nat (size (outbox s)) - Z.of_nat (size kept) in
  _ ← tx_modify (fun s => set_outbox kept (next_outbox_id s) s);
  if removed =? Z.of_nat (length ids) then mret removed else tx_fail HRetention.

(** Each batch is its own transaction; [fuel] bounds their number. *)
Fixpoint retain_events (fuel : nat) (cutoff : Z) (s : hdb) : option (result hook_err unit * hdb) :=
  match fuel with
  | O => None
  | S n =>
      match run_tx (retainWebhookEventBatch cutoff) s with
      | (Err x, s') => Some (Err x, s')
      | (Ok removed, s') =>
          if removed <? eventRetentionBatchSize then Some (Ok tt, s') else retain_events n cutoff s'
      end
  end.

Definition RetainWebhookEvents (e : env) (olderThan : Z) (s : hdb) : option (result hook_err unit * hdb) :=
  let olderThan := if olderThan <=? 0 then Requests.retentionDefault else olderThan in
  retain_events (S (size (outbox s))) (go_now e - olderThan) s.

(** ** Listing *)

Definition EventOutboxHighWaterForWorkspace (ws : Z) (s : hdb) : Z :=
  foldr Z.max 0 (map (fun kv => o_id kv.2)
    (filter (fun kv => o_workspace_id kv.2 = Some ws) (map_to_list (outbox s)))).

Definition ListEventOutboxAfterForWorkspace (after ws limit : Z) (s : hdb) : list (string * outbox_row) :=
  let limit := if limit <=? 0 then 100 else limit in
  take (Z.to_nat limit) (merge_sort event_before
    (filter (fun kv => after < o_id kv.2 /\ o_workspace_id kv.2 = Some ws) (map_to_list (outbox s)))).

(** ** Subscriptions *)

Definition MaxWebhookSubscriptionsPerWorkspace : Z := 100.
Definition MinWebhookSigningSecretBytes : Z := 32.
Definition MaxWebhookSigningSecretBytes : Z := 1024.

Definition CreateSubscription `{Sha256} (e : env) (ws : Z) (targetURL secret : string) : htx Z := fun s =>
  if ws =? 0 then Err HInvalid else
  let targetURL := TrimSpace targetURL in
  if bool_decide (targetURL = ""%string) || (len targetURL >? 2048) then Err HInvalid else
  if negb (bool_decide (TrimSpace secret = secret)) || (len secret <? MinWebhookSigningSecretBytes)
     || (len secret >? MaxWebhookSigningSecretBytes) then Err HInvalid else
  if negb (bool_decide (ws ∈ workspaces s)) then Err HLock else
  if Z.of_nat (length (workspace_subscriptions s ws)) >=? MaxWebhookSubscriptionsPerWorkspace then Err HLimit else
  let hash := hex_encode (sha256 targetURL) in
  if existsb (fun kv => (s_workspace_id kv.2 =? ws) && bool_decide (s_target_hash kv.2 = hash))
       (map_to_list (subscriptions s)) then Err HExists else
  let sub := {| s_workspace_id := ws; s_target_url := targetURL; s_target_hash := hash;
                s_signing_secret := secret; s_created_at := db_now e |} in
  Ok (next_subscription_id s,
      set_subscriptions (<[next_subscription_id s := sub]> (subscriptions s)) (next_subscription_id s + 1) s).

Definition DeleteSubscription (ws id : Z) : htx unit := fun s =>
  if (ws =? 0) || (id =? 0) then Err HNoRows else
  if negb (bool_decide (ws ∈ workspaces s)) then Err HLock else
  match subscriptions s !! id with
  | Some sub =>
      if s_workspace_id sub =? ws then
        let s := set_deliveries (filter (fun kv => w_subscription_id kv.2 <> id) (deliveries s))
                   (next_delivery_id s) s in
        Ok (tt, set_subscriptions (delete id (subscriptions s)) (next_subscription_id s) s)
      else Err HNoRows
  | None => Err HNoRows
  end.

End Webhooks.
