(* ===== verification/WebhookTheorems.v ===== *)
(** * Webhooks: consistency, leases, fenced reports *)

From Stdlib Require Import ZArith Lia Ascii String.
From stdpp Require Import base gmap strings list sorting.
From S2P Require Import Prelude GoStrings Json JobSchema JobStore SafeFailures Presentation Requests Webhooks.

Module WebhookTheorems.
Import GoStr JobStore SafeFailures Presentation Webhooks.
#[local] Open Scope Z_scope.

(** ** Invariant *)

(** Attempts within the budget; a lease exactly while the delivery is processed. *)
Definition delivery_ok (d : delivery_row) : Prop :=
  0 <= w_attempt_count d <= w_max_attempts d /\
  match w_status d with
  | WPending => w_attempt_count d < w_max_attempts d /\ w_lease_until d = None /\ w_locked_by d = None
  | WProcessing => 1 <= w_attempt_count d /\ is_Some (w_lease_until d) /\ is_Some (w_locked_by d)
  | _ => w_lease_until d = None /\ w_locked_by d = None
  end.

(** The event and the subscription of a delivery exist and share a workspace. *)
Definition scoped (s : hdb) (d : delivery_row) : Prop := is_Some (joined s d).

Record hook_inv (s : hdb) : Prop := {
  hook_ok : forall i d, deliveries s !! i = Some d -> delivery_ok d;
  hook_scoped : forall i d, deliveries s !! i = Some d -> scoped s d;
  hook_unique : forall i j a b, deliveries s !! i = Some a -> deliveries s !! j = Some b ->
    w_event_id a = w_event_id b -> w_subscription_id a = w_subscription_id b -> i = j;
  hook_next : forall i d, deliveries s !! i = Some d -> i < next_delivery_id s;
  hook_subs : forall i x, subscriptions s !! i = Some x -> i < next_subscription_id s;
  hook_targets : forall i j x y, subscriptions s !! i = Some x -> subscriptions s !! j = Some y ->
    s_workspace_id x = s_workspace_id y -> s_target_hash x = s_target_hash y -> i = j;
  hook_limit : forall ws, Z.of_nat (length (workspace_subscriptions s ws)) <= MaxWebhookSubscriptionsPerWorkspace;
}.

(** [d'] stands where [d] stood, for the same event and subscription. *)
Definition same_pair (d d' : delivery_row) : Prop :=
  w_event_id d' = w_event_id d /\ w_subscription_id d' = w_subscription_id d.

Lemma joined_parents s s' d d' :
  outbox s' = outbox s -> subscriptions s' = subscriptions s -> same_pair d d' -> joined s' d' = joined s d.
Proof. intros Ho Hs [He Hsu]. unfold joined. by rewrite Ho, Hs, He, Hsu. Qed.

(** Updating and removing deliveries. *)
Lemma rows_from_inv s m :
  hook_inv s ->
  (forall i d', m !! i = Some d' -> exists d, deliveries s !! i = Some d /\ same_pair d d' /\ delivery_ok d') ->
  hook_inv (set_deliveries m (next_delivery_id s) s).
Proof.
  intros [Hok Hsc Hu Hn Hsub Htg Hlim] Hm. split; cbn [set_deliveries deliveries next_delivery_id subscriptions
    next_subscription_id]; try done.
  - intros i d' Hd. by destruct (Hm i d' Hd) as (d & _ & _ & ?).
  - intros i d' Hd. destruct (Hm i d' Hd) as (d & Hd0 & Hp & _). unfold scoped.
    rewrite (joined_parents s _ d d') by done. by eapply Hsc.
  - intros i j a b Ha Hb He Hs. destruct (Hm i a Ha) as (a0 & Ha0 & [? ?] & _).
    destruct (Hm j b Hb) as (b0 & Hb0 & [? ?] & _). eapply Hu; [exact Ha0|exact Hb0|congruence..].
  - intros i d' Hd. destruct (Hm i d' Hd) as (d & Hd0 & _). by eapply Hn.
Qed.

(** ** Enqueueing *)

Lemma insert_event_inv id ty ws sub body now s s' :
  hook_inv s -> InsertEventOutbox id ty ws sub body now s = Ok (tt, s') -> hook_inv s'.
Proof.
  intros Hi H. unfold InsertEventOutbox in H. destruct (match ws with Some _ => _ | None => _ end);
    [|by injection H as <-].
  destruct (outbox s !! id) eqn:E; injection H as <-; [done|].
  destruct Hi as [Hok Hsc Hu Hn Hsub Htg Hlim]. split; cbn; try done.
  intros i d Hd. specialize (Hsc i d Hd). unfold scoped, joined in *. cbn.
  destruct (decide (w_event_id d = id)) as [Heq|Hne].
  - rewrite Heq, E in Hsc. by destruct Hsc.
  - by rewrite lookup_insert_ne by done.
Qed.

Lemma has_delivery_false m ev sub :
  has_delivery m ev sub = false -> forall i d, m !! i = Some d ->
  ~ (w_event_id d = ev /\ w_subscription_id d = sub).
Proof.
  intros H i d Hd [He Hs]. apply not_true_iff_false in H. apply H. apply existsb_exists.
  exists (i, d). split; [by apply list_elem_of_In, elem_of_map_to_list|]. cbn.
  by rewrite bool_decide_eq_true_2, Hs, Z.eqb_refl by done.
Qed.

Lemma add_delivery_parents ev now s sub :
  outbox (add_delivery ev now s sub) = outbox s /\ subscriptions (add_delivery ev now s sub) = subscriptions s /\
  workspaces (add_delivery ev now s sub) = workspaces s.
Proof. unfold add_delivery. by destruct (has_delivery _ _ _). Qed.

Definition fans_out (s : hdb) (ev : string) (sub : Z) : Prop :=
  exists o x, outbox s !! ev = Some o /\ subscriptions s !! sub = Some x /\ o_workspace_id o = Some (s_workspace_id x).

Lemma add_delivery_inv ev now s sub : hook_inv s -> fans_out s ev sub -> hook_inv (add_delivery ev now s sub).
Proof.
  intros Hi (o & x & Ho & Hx & Hw). unfold add_delivery. destruct (has_delivery _ _ _) eqn:E; [done|].
  pose proof (has_delivery_false _ _ _ E) as Hf. destruct Hi as [Hok Hsc Hu Hn Hsub Htg Hlim].
  split; cbn [set_deliveries deliveries next_delivery_id subscriptions next_subscription_id]; try done.
  - intros i d [[<- <-]|[_ Hd]]%lookup_insert_Some; [|by eapply Hok]. split; [cbn; lia|]. cbn. auto with lia.
  - intros i d Hd. unfold scoped. rewrite (joined_parents s _ d d) by done.
    apply lookup_insert_Some in Hd as [[<- <-]|[_ Hd]]; [|by eapply Hsc].
    unfold joined. cbn. rewrite Ho, Hx, bool_decide_eq_true_2 by done. eauto.
  - intros i j a b Ha Hb He Hs. apply lookup_insert_Some in Ha as [[<- <-]|[? Ha]], Hb as [[<- <-]|[? Hb]];
      [done| | |by eapply Hu].
    + exfalso. eapply Hf; [exact Hb|]. done.
    + exfalso. eapply Hf; [exact Ha|]. done.
  - intros i d [[<- _]|[_ Hd]]%lookup_insert_Some; [lia|]. apply Hn in Hd. lia.
Qed.

Lemma add_deliveries_inv ev now s subs :
  hook_inv s -> Forall (fans_out s ev) subs -> hook_inv (foldl (add_delivery ev now) s subs).
Proof.
  revert s. induction subs as [|sub subs IH]; intros s Hi Hf; [done|]. apply Forall_cons in Hf as [Hf Hfs].
  cbn [foldl]. apply IH; [by apply add_delivery_inv|].
  destruct (add_delivery_parents ev now s sub) as (Ho & Hs & _).
  eapply Forall_impl; [exact Hfs|]. intros x Hx. unfold fans_out in *. by rewrite Ho, Hs.
Qed.

Lemma workspace_subscriptions_spec s ws i :
  i ∈ workspace_subscriptions s ws <-> exists x, subscriptions s !! i = Some x /\ s_workspace_id x = ws.
Proof.
  unfold workspace_subscriptions. rewrite (merge_sort_Permutation Requests.id_le), list_elem_of_fmap. split.
  - intros ([j x] & -> & Hin). apply list_elem_of_filter in Hin as [Hw Hin].
    apply elem_of_map_to_list in Hin. eauto.
  - intros (x & Hx & Hw). exists (i, x). split; [done|]. apply list_elem_of_filter.
    split; [done|by apply elem_of_map_to_list].
Qed.

Lemma expand_inv ev now s s' :
  hook_inv s -> InsertWorkspaceWebhookDeliveries ev now s = Ok (tt, s') -> hook_inv s'.
Proof.
  intros Hi H. unfold InsertWorkspaceWebhookDeliveries in H.
  destruct (outbox s !! ev) as [o|] eqn:Eo; [|done]. destruct (o_workspace_id o) as [ws|] eqn:Ew; [|done].
  destruct (bool_decide _); [|done]. injection H as <-. apply add_deliveries_inv; [done|].
  apply Forall_forall. intros i (x & Hx & Hw)%workspace_subscriptions_spec. exists o, x. by rewrite Ew, Hw.
Qed.

(** ** Claiming *)

Lemma fail_expired_inv now s s' :
  hook_inv s -> FailExpiredExhaustedWebhookDeliveriesManual now s = Ok (tt, s') -> hook_inv s'.
Proof.
  intros Hi [= <-]. apply rows_from_inv; [done|]. intros i d' Hd. rewrite lookup_fmap in Hd.
  destruct (deliveries s !! i) as [d|] eqn:E; [|done]. injection Hd as <-. exists d. split; [done|].
  pose proof (hook_ok _ Hi _ _ E) as Hok. destruct (expired now d && _); [|done]. split; [done|].
  destruct Hok as [? _]. by split.
Qed.

Lemma webhook_token_some e : all_chars visible (uuid e) = true ->
  nullableString (newLeaseOwner "webhook" (uuid e)) = Some (newLeaseOwner "webhook" (uuid e)).
Proof.
  intros H. assert (Ht : newLeaseOwner "webhook" (uuid e) = ("webhook-" ++ uuid e)%string) by reflexivity.
  unfold nullableString. rewrite TrimSpace_visible by (rewrite Ht; exact H). by rewrite Ht.
Qed.

(** Marking the selected rows, which are distinct, changes exactly them. *)
Definition processed (lease : Z) (owner : string) (d : delivery_row) : delivery_row :=
  with_status WProcessing (w_attempt_count d + 1) (w_next_attempt_at d) (Some lease) (nullableString owner)
    (w_last_error d) d.

Lemma mark_all_lookup lease owner rows s i :
  NoDup (fst <$> rows) ->
  deliveries (foldl (MarkWebhookDeliveryProcessingManual lease owner) s rows) !! i =
    if bool_decide (i ∈ fst <$> rows) then processed lease owner <$> deliveries s !! i else deliveries s !! i.
Proof.
  revert s. induction rows as [|[j d] rows IH]; intros s Hnd; cbn [foldl fmap list_fmap].
  { by rewrite bool_decide_eq_false_2 by apply not_elem_of_nil. }
  rewrite fmap_cons, NoDup_cons in Hnd. destruct Hnd as [Hj Hnd]. cbn [fst] in Hj.
  rewrite IH by done. cbn [MarkWebhookDeliveryProcessingManual set_deliveries deliveries fst].
  change ((fix go (l : list (Z * delivery_row)) := match l with [] => [] | x :: l0 => x.1 :: go l0 end) rows)
    with (fst <$> rows).
  destruct (decide (i = j)) as [-> |Hne].
  - rewrite bool_decide_eq_false_2 by done. rewrite lookup_alter_eq.
    by rewrite bool_decide_eq_true_2 by set_solver.
  - rewrite lookup_alter_ne by done. destruct (decide (i ∈ fst <$> rows)).
    + by rewrite !bool_decide_eq_true_2 by set_solver.
    + by rewrite !bool_decide_eq_false_2 by set_solver.
Qed.

Lemma claim_rows_spec limit now locked s i d :
  (i, d) ∈ ClaimWebhookDeliveriesManual limit now locked s ->
  deliveries s !! i = Some d /\ (i ∉ locked) /\ eligible now d = true /\ is_Some (joined s d).
Proof.
  unfold ClaimWebhookDeliveriesManual. intros Hin%elem_of_take. destruct Hin as (k & Hk & _).
  apply list_elem_of_lookup_2 in Hk. rewrite (merge_sort_Permutation older), list_elem_of_filter in Hk.
  destruct Hk as [(? & ? & ?) Hin]. apply elem_of_map_to_list in Hin. by cbn in *.
Qed.

Lemma claim_rows_nodup limit now locked s : NoDup (fst <$> ClaimWebhookDeliveriesManual limit now locked s).
Proof.
  apply NoDup_fmap_fst.
  - intros i a b [Ha _]%claim_rows_spec [Hb _]%claim_rows_spec. congruence.
  - eapply sublist_NoDup; [|apply sublist_take]. rewrite (merge_sort_Permutation older).
    apply NoDup_filter, NoDup_map_to_list.
Qed.

Lemma eligible_budget now d : delivery_ok d -> eligible now d = true -> 0 <= w_attempt_count d < w_max_attempts d.
Proof.
  intros [Hb Hs] He. unfold eligible in He. apply orb_true_iff in He as [He|He].
  - apply andb_true_iff in He as [Hp%bool_decide_eq_true _]. rewrite Hp in Hs. lia.
  - apply andb_true_iff in He as [_ Hlt]. lia.
Qed.

Lemma mark_parents lease owner rows s :
  let s' := foldl (MarkWebhookDeliveryProcessingManual lease owner) s rows in
  s' = set_deliveries (deliveries s') (next_delivery_id s) s.
Proof.
  cbn. revert s. induction rows as [|r rows IH]; intros s; cbn [foldl]; [by destruct s|].
  rewrite IH at 1. done.
Qed.

Lemma claim_run e limit s ds s' :
  ClaimWebhookDeliveries e limit s = Ok (ds, s') ->
  exists n s1, int32FromInt (if limit <=? 0 then 10 else limit) = Ok n /\
    FailExpiredExhaustedWebhookDeliveriesManual (db_now e) s = Ok (tt, s1) /\
    s' = foldl (MarkWebhookDeliveryProcessingManual (go_now e + webhookLease) (newLeaseOwner "webhook" (uuid e))) s1
           (ClaimWebhookDeliveriesManual n (db_now e) (locked_rows e) s1) /\
    ds = omap (dbWebhookDeliveryToStore s1 (newLeaseOwner "webhook" (uuid e)))
           (ClaimWebhookDeliveriesManual n (db_now e) (locked_rows e) s1).
Proof.
  intros H. unfold ClaimWebhookDeliveries in H. cbn in H. unfold tx_bind in H.
  destruct (int32FromInt _) as [n|] eqn:En; [|done]. cbn in H. injection H as <- <-. eauto 10.
Qed.

Lemma claim_inv e limit s ds s' : all_chars visible (uuid e) = true ->
  hook_inv s -> ClaimWebhookDeliveries e limit s = Ok (ds, s') -> hook_inv s'.
Proof.
  intros Hv Hi (n & s1 & _ & Hs1 & -> & _)%claim_run. apply (fail_expired_inv _ _ _ Hi) in Hs1.
  rewrite mark_parents. apply rows_from_inv; [done|]. intros i d' Hd.
  rewrite mark_all_lookup in Hd by apply claim_rows_nodup. case_bool_decide as Hin.
  - apply list_elem_of_fmap in Hin as ([j d] & -> & Hin). cbn [fst] in *.
    apply claim_rows_spec in Hin as (Hj & _ & He & _). rewrite Hj in Hd. injection Hd as <-.
    exists d. split; [done|]. split; [done|]. pose proof (eligible_budget _ _ (hook_ok _ Hs1 _ _ Hj) He).
    split; [cbn; lia|]. cbn. rewrite webhook_token_some by done. split; [lia|]. eauto.
  - exists d'. split; [done|]. split; [done|]. by eapply hook_ok.
Qed.

(** ** Reporting *)

Lemma update_delivery_inv id owner f s s' :
  (forall d, w_status d = WProcessing -> delivery_ok d -> same_pair d (f d) /\ delivery_ok (f d)) ->
  hook_inv s -> update_delivery id owner f s = Ok (tt, s') -> hook_inv s'.
Proof.
  intros Hf Hi H. unfold update_delivery in H. destruct (deliveries s !! id) as [d|] eqn:E; [|done].
  destruct (bool_decide (w_status d = WProcessing)) eqn:Ep; [|done]. apply bool_decide_eq_true in Ep.
  destruct (match owner with Some _ => _ | None => _ end); [|done]. injection H as <-.
  apply rows_from_inv; [done|]. intros i d' [[<- <-]|[_ Hd]]%lookup_insert_Some.
  - exists d. split; [done|]. apply Hf; [done|]. by eapply hook_ok.
  - exists d'. split; [done|]. split; [done|]. by eapply hook_ok.
Qed.

Lemma delivered_inv id owner s s' :
  hook_inv s -> MarkWebhookDeliveryDelivered id owner s = Ok (tt, s') -> hook_inv s'.
Proof. apply update_delivery_inv. intros d _ [? _]. split; [done|]. split; [done|]. done. Qed.

Lemma failed_inv e id owner msg s s' :
  hook_inv s -> MarkWebhookDeliveryFailed e id owner msg s = Ok (tt, s') -> hook_inv s'.
Proof.
  apply update_delivery_inv. intros d _ [? _]. unfold failed_delivery.
  destruct (w_max_attempts d <=? w_attempt_count d) eqn:E; (split; [done|]); split; cbn; try done. auto with lia.
Qed.

(** ** Retention *)

Lemma retention_ids_spec cutoff s i :
  i ∈ map fst (filter (fun kv => o_created_at kv.2 < cutoff) (map_to_list (outbox s))) <->
  exists o, outbox s !! i = Some o /\ o_created_at o < cutoff.
Proof.
  rewrite list_elem_of_fmap. split.
  - intros ([j o] & -> & Hin). apply list_elem_of_filter in Hin as [Hc Hin%elem_of_map_to_list]. eauto.
  - intros (o & Ho & Hc). exists (i, o). split; [done|]. apply list_elem_of_filter.
    split; [done|by apply elem_of_map_to_list].
Qed.

Lemma batch_ids_old cutoff s i :
  i ∈ LockEventOutboxRetentionBatchManual cutoff s -> exists o, outbox s !! i = Some o /\ o_created_at o < cutoff.
Proof.
  unfold LockEventOutboxRetentionBatchManual. rewrite <-firstn_map. intros Hin%(subseteq_take 1000).
  rewrite (Permutation_map fst (merge_sort_Permutation event_before _)) in Hin. by apply retention_ids_spec.
Qed.

Lemma batch_ids_nodup cutoff s : NoDup (LockEventOutboxRetentionBatchManual cutoff s).
Proof.
  unfold LockEventOutboxRetentionBatchManual. apply NoDup_fmap_fst.
  - intros i a b Ha%(subseteq_take 1000) Hb%(subseteq_take 1000).
    rewrite (merge_sort_Permutation event_before), list_elem_of_filter in Ha.
    rewrite (merge_sort_Permutation event_before), list_elem_of_filter in Hb.
    destruct Ha as [_ Ha%elem_of_map_to_list], Hb as [_ Hb%elem_of_map_to_list]. congruence.
  - eapply sublist_NoDup; [|apply sublist_take]. rewrite (merge_sort_Permutation event_before).
    apply NoDup_filter, NoDup_map_to_list.
Qed.

(** A batch that is not full holds every event older than the cutoff. *)
Lemma short_batch_complete cutoff s i o :
  (length (LockEventOutboxRetentionBatchManual cutoff s) < 1000)%nat ->
  outbox s !! i = Some o -> o_created_at o < cutoff -> i ∈ LockEventOutboxRetentionBatchManual cutoff s.
Proof.
  unfold LockEventOutboxRetentionBatchManual. intros Hlen Ho Hc.
  rewrite length_map, length_take in Hlen. rewrite firstn_all2 by lia.
  rewrite (Permutation_map fst (merge_sort_Permutation event_before _)). apply retention_ids_spec. eauto.
Qed.

Lemma size_filter_out (m : gmap string outbox_row) ids :
  NoDup ids -> (forall i, i ∈ ids -> is_Some (m !! i)) ->
  (size (filter (fun kv => kv.1 ∉ ids) m) + length ids = size m)%nat.
Proof.
  intros Hnd Hin. rewrite <-!size_dom.
  assert (Hd : dom (filter (fun kv => kv.1 ∉ ids) m) = dom m ∖ list_to_set ids).
  { apply set_eq. intros i. rewrite elem_of_difference, elem_of_list_to_set, !elem_of_dom. split.
    - intros [o [Ho Hi]%map_lookup_filter_Some]. split; [by exists o|done].
    - intros [[o Ho] Hi]. exists o. apply map_lookup_filter_Some. done. }
  rewrite Hd, size_difference, size_list_to_set by (done || (intros i; rewrite elem_of_list_to_set, elem_of_dom; apply Hin)).
  assert (length ids <= size (dom m))%nat; [|lia].
  rewrite <-(size_list_to_set (C:=gset string) ids Hnd). apply subseteq_size.
  intros i. rewrite elem_of_list_to_set, elem_of_dom. apply Hin.
Qed.

(** Deleting a batch of events with their deliveries. *)
Definition without (ids : list string) (s : hdb) : hdb :=
  set_outbox (filter (fun kv => kv.1 ∉ ids) (outbox s)) (next_outbox_id s)
    (set_deliveries (filter (fun kv => w_event_id kv.2 ∉ ids) (deliveries s)) (next_delivery_id s) s).

Lemma without_nil s : without [] s = s.
Proof.
  unfold without. rewrite !map_filter_id by (intros; apply not_elem_of_nil). by destruct s.
Qed.

Lemma batch_run cutoff s :
  let ids := LockEventOutboxRetentionBatchManual cutoff s in
  retainWebhookEventBatch cutoff s = Ok (Z.of_nat (length ids), without ids s).
Proof.
  intros ids. unfold retainWebhookEventBatch, mbind, tx_bind, tx_get, tx_modify. cbv beta zeta iota. fold ids.
  destruct (decide (ids = [])) as [He|He].
  - rewrite bool_decide_eq_true_2 by done. by rewrite He, without_nil.
  - rewrite bool_decide_eq_false_2 by done. cbv beta iota.
    assert (Hs := size_filter_out (outbox s) ids (batch_ids_nodup _ _)
      ltac:(intros i (o & Ho & _)%batch_ids_old; eauto)).
    rewrite (proj2 (Z.eqb_eq _ _)) by lia. unfold mret, tx_ret. do 2 f_equal. lia.
Qed.

Lemma without_inv ids s : hook_inv s -> hook_inv (without ids s).
Proof.
  intros Hi.
  assert (H1 : hook_inv (set_deliveries (filter (fun kv => w_event_id kv.2 ∉ ids) (deliveries s)) (next_delivery_id s) s)).
  { apply rows_from_inv; [done|]. intros i d [Hd _]%map_lookup_filter_Some. exists d. split; [done|].
    split; [done|]. by eapply hook_ok. }
  destruct H1 as [Hok Hsc Hu Hn Hsub Htg Hlim]. split; cbn; try done.
  intros i d Hd. specialize (Hsc i d Hd). apply map_lookup_filter_Some in Hd as [Hd Hne].
  unfold scoped, joined in *. cbn in *. destruct (outbox s !! w_event_id d) as [o|] eqn:Eo; [|by destruct Hsc].
  by rewrite (proj2 (map_lookup_filter_Some _ _ _ _) (conj Eo Hne)).
Qed.

(** What is left when the loop ends: nothing older than the cutoff, nothing else lost. *)
Definition retained (cutoff : Z) (s s' : hdb) : Prop :=
  (forall i o, outbox s' !! i = Some o <-> outbox s !! i = Some o /\ cutoff <= o_created_at o) /\
  (forall i d, deliveries s' !! i = Some d <->
     deliveries s !! i = Some d /\ forall o, outbox s !! w_event_id d = Some o -> cutoff <= o_created_at o) /\
  subscriptions s' = subscriptions s.

(** Removing old events first does not change what is left. *)
Lemma retained_without cutoff ids s s' :
  (forall i, i ∈ ids -> exists o, outbox s !! i = Some o /\ o_created_at o < cutoff) ->
  retained cutoff (without ids s) s' -> retained cutoff s s'.
Proof.
  intros Hids (Ho & Hd & Hs). cbn in *.
  assert (Hkeep : forall i o, outbox s !! i = Some o -> cutoff <= o_created_at o -> i ∉ ids).
  { intros i o Hi Hc (o' & Ho' & Hlt)%Hids. rewrite Hi in Ho'. injection Ho' as <-. lia. }
  split_and!; [| |done].
  - intros i o. rewrite Ho, map_lookup_filter_Some. cbn. naive_solver.
  - intros i d. rewrite Hd, map_lookup_filter_Some. cbn. split.
    + intros [[Hi Hne] Hc]. split; [done|]. intros o Heq. apply Hc. by apply map_lookup_filter_Some.
    + intros [Hi Hc]. split; [split; [done|]|].
      * intros (o & Heq & Hlt)%Hids. specialize (Hc _ Heq). lia.
      * intros o [Heq _]%map_lookup_filter_Some. by apply Hc.
Qed.

Lemma retained_last cutoff s :
  (length (LockEventOutboxRetentionBatchManual cutoff s) < 1000)%nat ->
  retained cutoff s (without (LockEventOutboxRetentionBatchManual cutoff s) s).
Proof.
  intros Hlen. apply (retained_without _ _ _ _ (fun i H => batch_ids_old _ _ _ H)).
  assert (Hgone : forall i o, outbox s !! i = Some o -> i ∉ LockEventOutboxRetentionBatchManual cutoff s ->
    cutoff <= o_created_at o).
  { intros i o Ho Hn. destruct (Z.lt_ge_cases (o_created_at o) cutoff); [|done].
    exfalso. by eapply Hn, short_batch_complete. }
  split_and!; [| |done]; cbn.
  - intros i o. rewrite map_lookup_filter_Some. cbn. naive_solver.
  - intros i d. rewrite map_lookup_filter_Some. cbn. split; [|naive_solver]. intros [Hi Hn].
    split; [done|]. intros o [Ho Hne]%map_lookup_filter_Some. by eapply Hgone.
Qed.

Lemma retain_events_retained n cutoff s :
  (size (outbox s) < n)%nat -> exists s', retain_events n cutoff s = Some (Ok tt, s') /\ retained cutoff s s'.
Proof.
  revert s. induction n as [|n IH]; intros s Hn; [lia|]. cbn [retain_events]. unfold run_tx.
  rewrite batch_run. set (ids := LockEventOutboxRetentionBatchManual cutoff s).
  unfold eventRetentionBatchSize. destruct (Z.ltb_spec (Z.of_nat (length ids)) 1000) as [Hlt|Hge].
  - eexists. split; [done|]. apply retained_last. fold ids. lia.
  - assert (Hs := size_filter_out (outbox s) ids (batch_ids_nodup _ _)
      ltac:(intros i (o & Ho & _)%batch_ids_old; eauto)).
    destruct (IH (without ids s)) as (s' & Hs' & Hr); [cbn; lia|]. exists s'. split; [done|].
    by apply (retained_without _ _ _ _ (fun i H => batch_ids_old _ _ _ H)).
Qed.

Lemma retain_events_inv n cutoff s r s' :
  hook_inv s -> retain_events n cutoff s = Some (r, s') -> hook_inv s'.
Proof.
  revert s. induction n as [|n IH]; intros s Hi; [done|]. cbn [retain_events]. unfold run_tx. rewrite batch_run.
  destruct (_ <? _); [|by apply IH, without_inv]. intros [= <- <-]. by apply without_inv.
Qed.

(** ** Subscriptions *)

Definition owned (ws : Z) (m : gmap Z subscription_row) : nat :=
  length (filter (fun kv => s_workspace_id kv.2 = ws) (map_to_list m)).

Lemma workspace_subscriptions_length s ws : length (workspace_subscriptions s ws) = owned ws (subscriptions s).
Proof.
  unfold workspace_subscriptions, owned. by rewrite (merge_sort_Permutation Requests.id_le), length_map.
Qed.

Lemma owned_insert ws i x m : m !! i = None ->
  owned ws (<[i := x]> m) = (if bool_decide (s_workspace_id x = ws) then S (owned ws m) else owned ws m).
Proof.
  intros Hi. unfold owned. rewrite (map_to_list_insert m i x Hi). by rewrite filter_cons; cbn; repeat case_decide;
    case_bool_decide.
Qed.

Lemma owned_delete ws i m : (owned ws (delete i m) <= owned ws m)%nat.
Proof.
  unfold owned. destruct (m !! i) as [x|] eqn:E; [|by rewrite delete_id].
  rewrite <-(map_to_list_delete m i x E), filter_cons. case_decide; cbn; lia.
Qed.

Lemma create_subscription_inv `{Sha256} e ws target secret s id s' :
  hook_inv s -> CreateSubscription e ws target secret s = Ok (id, s') -> hook_inv s'.
Proof.
  intros [Hok Hsc Hu Hn Hsub Htg Hlim] Hrun. unfold CreateSubscription in Hrun.
  repeat match type of Hrun with (if ?b then Err _ else _) = _ => destruct b eqn:?; [done|] end.
  injection Hrun as <- <-.
  assert (Hfresh : subscriptions s !! next_subscription_id s = None).
  { destruct (subscriptions s !! next_subscription_id s) eqn:E; [|done]. apply Hsub in E. lia. }
  match goal with E : existsb _ _ = false |- _ => rename E into Hex end.
  match goal with E : (_ >=? _) = false |- _ => rename E into Hcount end.
  assert (Hnew : forall i x, subscriptions s !! i = Some x -> s_workspace_id x = ws ->
    s_target_hash x <> hex_encode (sha256 (TrimSpace target))).
  { intros i x Hx Hw Hh. apply not_true_iff_false in Hex. apply Hex, existsb_exists. exists (i, x).
    split; [by apply list_elem_of_In, elem_of_map_to_list|]. cbn. by rewrite Hw, Z.eqb_refl, bool_decide_eq_true_2. }
  split; cbn [set_subscriptions deliveries subscriptions next_delivery_id next_subscription_id]; try done.
  - intros i d Hd. destruct (Hsc i d Hd) as [[o x] Hj]. unfold scoped, joined in *. cbn in *.
    destruct (outbox s !! w_event_id d) as [o'|]; [|done].
    destruct (subscriptions s !! w_subscription_id d) as [x'|] eqn:Ex; [|done].
    rewrite lookup_insert_ne by congruence. rewrite Ex. by rewrite Hj.
  - intros i x [[<- _]|[_ Hx]]%lookup_insert_Some; [lia|]. apply Hsub in Hx. lia.
  - intros i j x y [[<- <-]|[_ Hx]]%lookup_insert_Some [[<- <-]|[_ Hy]]%lookup_insert_Some; cbn; try done.
    + intros Hw Hh. by destruct (Hnew j y Hy).
    + intros Hw Hh. by destruct (Hnew i x Hx).
    + by apply Htg.
  - intros w. rewrite workspace_subscriptions_length. cbn [set_subscriptions subscriptions]. rewrite owned_insert by done. cbn [s_workspace_id].
    pose proof (Hlim w) as Hw. rewrite workspace_subscriptions_length in Hw, Hcount.
    unfold MaxWebhookSubscriptionsPerWorkspace in *. destruct (decide (ws = w)) as [-> |].
    + rewrite bool_decide_eq_true_2 by done. lia.
    + by rewrite bool_decide_eq_false_2 by done.
Qed.

Lemma delete_subscription_inv ws id s s' :
  hook_inv s -> DeleteSubscription ws id s = Ok (tt, s') -> hook_inv s'.
Proof.
  intros Hi Hrun. unfold DeleteSubscription in Hrun.
  repeat match type of Hrun with (if ?b then Err _ else _) = _ => destruct b eqn:?; [done|] end.
  destruct (subscriptions s !! id) as [x|] eqn:Ex; [|done]. destruct (_ =? ws); [|done]. injection Hrun as <-.
  assert (H1 : hook_inv (set_deliveries (filter (fun kv => w_subscription_id kv.2 <> id) (deliveries s))
    (next_delivery_id s) s)).
  { apply rows_from_inv; [done|]. intros i d [Hd _]%map_lookup_filter_Some. exists d. split; [done|].
    split; [done|]. by eapply hook_ok. }
  destruct H1 as [Hok Hsc Hu Hn Hsub Htg Hlim].
  split; cbn [set_subscriptions deliveries subscriptions next_delivery_id next_subscription_id]; try done.
  - intros i d Hd. specialize (Hsc i d Hd). cbn in Hd. apply map_lookup_filter_Some in Hd as [Hd Hne].
    unfold scoped, joined in *. cbn in *. by rewrite lookup_delete_ne.
  - intros i y [_ Hy]%lookup_delete_Some. by eapply Hsub.
  - intros i j y z [_ Hy]%lookup_delete_Some [_ Hz]%lookup_delete_Some. by apply Htg.
  - intros w. rewrite workspace_subscriptions_length. cbn. pose proof (Hlim w) as Hw.
    rewrite workspace_subscriptions_length in Hw. cbn in Hw. pose proof (owned_delete w id (subscriptions s)). lia.
Qed.

(** ** Runs *)

Inductive hop :=
| OpEnqueue (e : env) (eventID eventType subject body : string)
| OpSystem (e : env) (eventID eventType body : string)
| OpClaim (e : env) (limit : Z)
| OpDelivered (id : Z) (owner : string)
| OpFailed (e : env) (id : Z) (owner msg : string)
| OpRetain (e : env) (olderThan : Z)
| OpCreate (e : env) (ws : Z) (target secret : string)
| OpDelete (ws id : Z).

Definition hstep `{Sha256} (s : hdb) (o : hop) : hdb :=
  match o with
  | OpEnqueue e ev ty sub body => (run_tx (EnqueueWebhookEvent e ev ty sub body) s).2
  | OpSystem e ev ty body => (run_tx (EnqueueSystemWebhookEvent e ev ty body) s).2
  | OpClaim e limit => (run_tx (ClaimWebhookDeliveries e limit) s).2
  | OpDelivered id owner => (run_tx (MarkWebhookDeliveryDelivered id owner) s).2
  | OpFailed e id owner msg => (run_tx (MarkWebhookDeliveryFailed e id owner msg) s).2
  | OpRetain e older => match RetainWebhookEvents e older s with Some (_, s') => s' | None => s end
  | OpCreate e ws target secret => (run_tx (CreateSubscription e ws target secret) s).2
  | OpDelete ws id => (run_tx (DeleteSubscription ws id) s).2
  end.

(** Lease tokens are made of visible characters. *)
Definition hop_ok (o : hop) : Prop :=
  match o with OpClaim e _ => all_chars visible (uuid e) = true | _ => True end.

Lemma enqueue_inv e ev ty sub body s u s' :
  hook_inv s -> EnqueueWebhookEvent e ev ty sub body s = Ok (u, s') -> hook_inv s'.
Proof.
  intros Hi Hrun. unfold EnqueueWebhookEvent in Hrun. destruct (blank ev || blank body); [by tx_inv|].
  tx_bind Hrun as ws s1 H1. tx_bind Hrun as u1 s2 H2. destruct u, u1. unfold eventWorkspaceID in H1.
  destruct (itemImageIDFromSubject sub) as [img|]; [|done].
  destruct (image_workspace s !! img); [|done]. injection H1 as <- <-.
  eapply expand_inv; [|exact Hrun]. by eapply insert_event_inv.
Qed.

Lemma system_inv e ev ty body s u s' :
  hook_inv s -> EnqueueSystemWebhookEvent e ev ty body s = Ok (u, s') -> hook_inv s'.
Proof.
  intros Hi Hrun. unfold EnqueueSystemWebhookEvent in Hrun. destruct (negb _); [done|].
  destruct (blank ev || blank body); [by tx_inv|]. destruct u. by eapply insert_event_inv.
Qed.

Lemma hstep_inv `{Sha256} s o : hook_inv s -> hop_ok o -> hook_inv (hstep s o).
Proof.
  intros Hi Ho. destruct o; cbn [hstep]; try (apply run_tx_preserves; [done|]; intros a s' Hrun;
    lazymatch type of a with unit => destruct a | _ => idtac end).
  - by eapply enqueue_inv.
  - by eapply system_inv.
  - eapply claim_inv; [|done..]. exact Ho.
  - by eapply delivered_inv.
  - by eapply failed_inv.
  - destruct (RetainWebhookEvents e olderThan s) as [[r s']|] eqn:E; [|done]. by eapply retain_events_inv.
  - by eapply create_subscription_inv.
  - by eapply delete_subscription_inv.
Qed.

Lemma run_hops_inv `{Sha256} ops s : hook_inv s -> Forall hop_ok ops -> hook_inv (foldl hstep s ops).
Proof.
  revert s. induction ops as [|o ops IH]; intros s Hi Hf; [done|]. apply Forall_cons in Hf as [Ho Hf].
  cbn [foldl]. apply IH; [|done]. by apply hstep_inv.
Qed.

(** ** What a claim does *)

Definition lease_token (e : env) : string := newLeaseOwner "webhook" (uuid e).

(** A delivery handed out: it was due, its attempt is counted and it is leased to the claimer. *)
Definition leased_now (e : env) (d d' : delivery_row) : Prop :=
  eligible (db_now e) d = true /\ d' = processed (go_now e + webhookLease) (lease_token e) d /\
  w_locked_by d' = Some (lease_token e) /\ w_attempt_count d' <= w_max_attempts d'.

(** A delivery whose last attempt never reported. *)
Definition given_up (now : Z) (d d' : delivery_row) : Prop :=
  expired now d = true /\ w_max_attempts d <= w_attempt_count d /\
  w_status d' = WFailed /\ w_lease_until d' = None /\ w_locked_by d' = None.

(** The message of a delivery is its event, its target its subscription, in one workspace. *)
Definition carries (s : hdb) (x : WebhookDelivery) : Prop :=
  exists o sub, outbox s !! D_EventID x = Some o /\ subscriptions s !! D_SubscriptionID x = Some sub /\
    o_workspace_id o = Some (s_workspace_id sub) /\ D_BodyJSON x = o_body_json o /\
    D_TargetURL x = s_target_url sub /\ D_SigningSecret x = s_signing_secret sub.

Lemma swept_lookup now s s1 i :
  FailExpiredExhaustedWebhookDeliveriesManual now s = Ok (tt, s1) ->
  match deliveries s !! i, deliveries s1 !! i with
  | Some d, Some d1 => if expired now d && (w_max_attempts d <=? w_attempt_count d) then given_up now d d1 else d1 = d
  | None, None => True
  | _, _ => False
  end.
Proof.
  intros [= <-]. cbn. rewrite lookup_fmap. destruct (deliveries s !! i) as [d|]; [|done]. cbn.
  destruct (expired now d && _) eqn:E; [|done]. apply andb_true_iff in E as [? ?]. split; [done|]. split; [lia|done].
Qed.

Lemma given_up_not_eligible now d d' n : given_up now d d' -> eligible n d' = false.
Proof. intros (_ & _ & Hs & _). unfold eligible, expired. by rewrite Hs. Qed.

(** Every selected row is handed out. *)
Lemma omap_delivery_ids s owner limit now locked :
  D_ID <$> omap (dbWebhookDeliveryToStore s owner) (ClaimWebhookDeliveriesManual limit now locked s) =
  fst <$> ClaimWebhookDeliveriesManual limit now locked s.
Proof.
  assert (Hj : Forall (fun r => is_Some (joined s r.2)) (ClaimWebhookDeliveriesManual limit now locked s)).
  { apply Forall_forall. intros [i d] Hin. by apply claim_rows_spec in Hin as (_ & _ & _ & ?). }
  induction Hj as [|r l [[o x] Hr] _ IH]; [done|]. cbn. unfold dbWebhookDeliveryToStore at 1. rewrite Hr. cbn.
  by rewrite <-IH.
Qed.

Lemma delivery_carries s owner limit now locked :
  Forall (carries s) (omap (dbWebhookDeliveryToStore s owner) (ClaimWebhookDeliveriesManual limit now locked s)).
Proof.
  apply Forall_forall. intros x Hx. apply list_elem_of_omap in Hx as ([i d] & _ & Hx).
  unfold dbWebhookDeliveryToStore, joined in Hx. cbn in Hx.
  destruct (outbox s !! w_event_id d) as [o|] eqn:Eo; [|done].
  destruct (subscriptions s !! w_subscription_id d) as [sub|] eqn:Es; [|done].
  case_bool_decide as Hw; [|done]. injection Hx as <-. exists o, sub. by cbn.
Qed.

Definition claim_effect (e : env) (ids : list Z) (s s' : hdb) (i : Z) : Prop :=
  match deliveries s !! i, deliveries s' !! i with
  | Some d, Some d' =>
      if bool_decide (i ∈ ids) then leased_now e d d' /\ (i ∉ locked_rows e)
      else if expired (db_now e) d && (w_max_attempts d <=? w_attempt_count d) then given_up (db_now e) d d'
      else d' = d
  | None, None => i ∉ ids
  | _, _ => False
  end.

Lemma claim_effects e limit s ds s' :
  all_chars visible (uuid e) = true -> hook_inv s -> ClaimWebhookDeliveries e limit s = Ok (ds, s') ->
  NoDup (D_ID <$> ds) /\ Forall (carries s) ds /\ forall i, claim_effect e (D_ID <$> ds) s s' i.
Proof.
  intros Hv Hi (n & s1 & _ & Hs1 & -> & ->)%claim_run.
  assert (Hpar : carries s1 = carries s) by (injection Hs1 as <-; done).
  rewrite omap_delivery_ids, <-Hpar. split_and!; [apply claim_rows_nodup|apply delivery_carries|].
  intros i. pose proof (swept_lookup _ _ _ i Hs1) as Hsw. pose proof (fail_expired_inv _ _ _ Hi Hs1) as Hi1.
  unfold claim_effect. rewrite mark_all_lookup by apply claim_rows_nodup.
  set (rows := ClaimWebhookDeliveriesManual _ _ _ _).
  assert (Hrows : i ∈ fst <$> rows -> exists d, deliveries s1 !! i = Some d /\ (i ∉ locked_rows e) /\
    eligible (db_now e) d = true).
  { intros ([j d] & -> & Hin)%list_elem_of_fmap. apply claim_rows_spec in Hin as (? & ? & ? & _). eauto. }
  destruct (deliveries s !! i) as [d|], (deliveries s1 !! i) as [d1|] eqn:E1; try done.
  2:{ case_bool_decide; [|done]. cbn. by destruct Hrows as (d & ? & _). }
  case_bool_decide as Hin; cbn; [|done]. destruct (Hrows Hin) as (d' & [= <-] & Hl & He).
  destruct (expired _ d && _); [by rewrite (given_up_not_eligible _ _ _ _ Hsw) in He|]. subst d1.
  pose proof (eligible_budget _ _ (hook_ok _ Hi1 _ _ E1) He). split; [|done]. split_and!; try done.
  - cbn. by apply webhook_token_some.
  - cbn. lia.
Qed.

(** A live lease keeps a delivery out of every claim. *)
Lemma live_lease_not_claimed e limit s ds s' i d l :
  all_chars visible (uuid e) = true -> hook_inv s -> ClaimWebhookDeliveries e limit s = Ok (ds, s') ->
  deliveries s !! i = Some d -> w_status d = WProcessing -> w_lease_until d = Some l -> db_now e <= l ->
  (i ∉ D_ID <$> ds) /\ deliveries s' !! i = Some d.
Proof.
  intros Hv Hi Hrun Hd Hst Hl Hnow. destruct (claim_effects _ _ _ _ _ Hv Hi Hrun) as (_ & _ & Heff).
  specialize (Heff i). unfold claim_effect in Heff. rewrite Hd in Heff.
  destruct (deliveries s' !! i) as [d'|]; [|done].
  assert (Hexp : expired (db_now e) d = false).
  { unfold expired. rewrite Hl, (proj2 (Z.ltb_ge l (db_now e)) Hnow). by rewrite andb_false_r. }
  rewrite Hexp in Heff. cbn [andb] in Heff. case_bool_decide as Hin; [|by subst].
  destruct Heff as [[He _] _]. unfold eligible in He. by rewrite Hexp, Hst in He.
Qed.

Lemma webhook_backoff_range n : 0 <= n -> 5 <= webhook_backoff n <= 900.
Proof. intros Hn. unfold webhook_backoff. pose proof (Z.pow_pos_nonneg 2 n ltac:(lia) Hn). lia. Qed.

(** ** Theorems *)

(** The outbox tables stay consistent under every sequence of operations: a
    delivery is for an event and a subscription of the same workspace, once; it is
    leased exactly while it is processed and never attempted beyond its budget; and a
    workspace has at most a hundred subscriptions, each to another target. *)
Theorem webhook_tables_stay_consistent `{Sha256} ops s0 :
  deliveries s0 = ∅ -> subscriptions s0 = ∅ -> Forall hop_ok ops -> hook_inv (foldl hstep s0 ops).
Proof.
  intros Hd Hs Hf. apply run_hops_inv; [|done].
  split; try (rewrite ?Hd, ?Hs; intros *; rewrite ?lookup_empty; done).
  intros ws. by rewrite workspace_subscriptions_length, Hs.
Qed.

(** C35: a claim leases each delivery it hands out, once, to the claimer, with its
    event and the target and secret of a subscription in the event's workspace; it
    changes no other delivery but those whose last lease expired, which fail; and
    until the lease ends no other claim hands out any of them or changes it. *)
Theorem claim_leases_deliveries e limit s ds s' :
  all_chars visible (uuid e) = true -> hook_inv s -> ClaimWebhookDeliveries e limit s = Ok (ds, s') ->
  NoDup (D_ID <$> ds) /\ Forall (carries s) ds /\ (forall i, claim_effect e (D_ID <$> ds) s s' i) /\
  forall e2 limit2 ds2 s2,
    all_chars visible (uuid e2) = true -> db_now e2 <= go_now e + webhookLease ->
    ClaimWebhookDeliveries e2 limit2 s' = Ok (ds2, s2) ->
    forall i, i ∈ D_ID <$> ds -> (i ∉ D_ID <$> ds2) /\ deliveries s2 !! i = deliveries s' !! i.
Proof.
  intros Hv Hi Hrun. destruct (claim_effects _ _ _ _ _ Hv Hi Hrun) as (Hnd & Hca & Heff). split_and!; try done.
  intros e2 limit2 ds2 s2 Hv2 Hnow Hrun2 i Hin. specialize (Heff i). unfold claim_effect in Heff.
  destruct (deliveries s !! i) as [d|], (deliveries s' !! i) as [d'|] eqn:E'; try done.
  rewrite bool_decide_eq_true_2 in Heff by done. destruct Heff as [(_ & -> & _) _].
  eapply live_lease_not_claimed; [exact Hv2|exact (claim_inv _ _ _ _ _ Hv Hi Hrun)|done|exact E'|done|done|done].
Qed.

(** A report is fenced by the lease: a report on a delivery that the reporter does
    not hold changes nothing; the holder's success delivers it for good, and the
    holder's failure fails it when its attempts are spent and otherwise makes it due
    again after a delay of five to nine hundred seconds. *)
Theorem reports_are_fenced s id owner :
  hook_inv s ->
  (forall d, deliveries s !! id = Some d -> w_status d = WProcessing -> w_locked_by d = Some owner ->
     nullableString owner = Some owner ->
     (exists d', run_tx (MarkWebhookDeliveryDelivered id owner) s =
        (Ok tt, set_deliveries (<[id := d']> (deliveries s)) (next_delivery_id s) s) /\
        w_status d' = WDelivered /\ w_attempt_count d' = w_attempt_count d /\ forall now, eligible now d' = false) /\
     (forall e msg, exists d', run_tx (MarkWebhookDeliveryFailed e id owner msg) s =
        (Ok tt, set_deliveries (<[id := d']> (deliveries s)) (next_delivery_id s) s) /\
        if w_attempt_count d =? w_max_attempts d
        then w_status d' = WFailed /\ forall now, eligible now d' = false
        else w_status d' = WPending /\ exists t, w_next_attempt_at d' = Some t /\
             db_now e + 5 <= t <= db_now e + 900 /\ forall now, eligible now d' = (t <=? now))) /\
  ((forall d, deliveries s !! id = Some d -> w_status d = WProcessing -> w_locked_by d <> nullableString owner) ->
     run_tx (MarkWebhookDeliveryDelivered id owner) s = (Err HNoRows, s) /\
     forall e msg, run_tx (MarkWebhookDeliveryFailed e id owner msg) s = (Err HNoRows, s)).
Proof.
  intros Hi. split.
  - intros d Hd Hst Hlock Hown. destruct (hook_ok _ Hi _ _ Hd) as [Hb Hok]. rewrite Hst in Hok.
    assert (Hrun : forall f, run_tx (update_delivery id (nullableString owner) f) s =
      (Ok tt, set_deliveries (<[id := f d]> (deliveries s)) (next_delivery_id s) s)).
    { intros f. unfold run_tx, update_delivery. by rewrite Hd, Hown, !bool_decide_eq_true_2. }
    split; [eexists; split; [apply Hrun|by cbn]|]. intros e msg. eexists. split; [apply Hrun|].
    unfold failed_delivery. destruct (Z.eqb_spec (w_attempt_count d) (w_max_attempts d)) as [Heq|Hne].
    + by rewrite (proj2 (Z.leb_le _ _)) by lia.
    + rewrite (proj2 (Z.leb_gt _ _)) by lia. split; [done|]. eexists. split; [done|].
      pose proof (webhook_backoff_range (w_attempt_count d) ltac:(lia)). split; [lia|].
      intros now. unfold eligible. cbn. by rewrite orb_false_r.
  - intros Hno.
    assert (Hrun : forall f, run_tx (update_delivery id (nullableString owner) f) s = (Err HNoRows, s)).
    { intros f. unfold run_tx, update_delivery. destruct (deliveries s !! id) as [d|]; [|done].
      specialize (Hno d eq_refl). case_bool_decide; [|done]. destruct (nullableString owner); [|done].
      by rewrite bool_decide_eq_false_2 by auto. }
    split; [apply Hrun|intros; apply Hrun].
Qed.

(** Event retention ends and removes exactly the events older than the cutoff,
    with their deliveries; every other event and delivery, and every subscription, is
    kept as it is. *)
Theorem event_retention_is_exact e olderThan s :
  exists s', RetainWebhookEvents e olderThan s = Some (Ok tt, s') /\
    retained (go_now e - if olderThan <=? 0 then Requests.retentionDefault else olderThan) s s'.
Proof. unfold RetainWebhookEvents. apply retain_events_retained. lia. Qed.

(** ** A concrete outbox *)

Definition demo_sha : Sha256 := fun url => url.
Definition demo_env (now : Z) (id : string) : env :=
  {| db_now := now; go_now := now; locked_rows := ∅; uuid := id; hostname := None |}.
Definition demo_secret : string := "0123456789abcdef0123456789abcdef".

Definition demo_empty : hdb :=
  {| outbox := ∅; next_outbox_id := 1; deliveries := ∅; next_delivery_id := 1; subscriptions := ∅;
     next_subscription_id := 1; workspaces := {[1; 2]}; image_workspace := {[5 := 1; 6 := 2]} |}.

(** Two subscriptions, one of another workspace; an event; its delivery claimed once. *)
Definition demo_ops : list hop :=
  [OpCreate (demo_env 10 "") 1 " https://a.example/hook " demo_secret;
   OpCreate (demo_env 11 "") 2 "https://b.example/hook" demo_secret;
   OpEnqueue (demo_env 20 "") "ev-1" "dev.scribe.transcription.completed" "item-images/5/pages/1" "{}";
   OpClaim (demo_env 30 "x") 0;
   OpFailed (demo_env 40 "") 1 "webhook-x" "connection refused"].

Definition demo_due : hdb := Eval vm_compute in foldl (@hstep demo_sha) demo_empty demo_ops.
Definition demo_claimed : hdb := Eval vm_compute in (@hstep demo_sha demo_due (OpClaim (demo_env 60 "y") 0)).
Definition demo_delivery : WebhookDelivery :=
  {| D_ID := 1; D_EventID := "ev-1"; D_EventType := "dev.scribe.transcription.completed";
     D_Subject := "item-images/5/pages/1"; D_BodyJSON := "{}"; D_SubscriptionID := 1;
     D_TargetURL := "https://a.example/hook"; D_SigningSecret := demo_secret; D_LeaseOwner := "webhook-y";
     D_AttemptCount := 2; D_MaxAttempts := 10 |}.

Lemma demo_ops_ok : Forall hop_ok demo_ops.
Proof. unfold demo_ops. repeat (apply Forall_cons; split; [first [exact I|reflexivity]|]). apply Forall_nil, I. Qed.

Lemma demo_hooks_empty_inv : hook_inv demo_empty.
Proof. split; try (intros *; rewrite ?lookup_empty; done). Qed.

Lemma demo_due_run : foldl (@hstep demo_sha) demo_empty demo_ops = demo_due.
Proof. vm_compute. reflexivity. Qed.

Lemma demo_webhook_claim : ClaimWebhookDeliveries (demo_env 60 "y") 0 demo_due = Ok ([demo_delivery], demo_claimed).
Proof. vm_compute. reflexivity. Qed.

Lemma demo_due_inv : hook_inv demo_due.
Proof. rewrite <-demo_due_run. apply run_hops_inv; [apply demo_hooks_empty_inv|apply demo_ops_ok]. Qed.

Lemma demo_claimed_inv : hook_inv demo_claimed.
Proof. eapply (claim_inv (demo_env 60 "y")); [reflexivity|apply demo_due_inv|apply demo_webhook_claim]. Qed.

Lemma webhook_tables_stay_consistent_witness :
  hook_inv (foldl (@hstep demo_sha) demo_empty demo_ops) /\ size (deliveries demo_due) = 1%nat.
Proof.
  split; [|reflexivity].
  apply (@webhook_tables_stay_consistent demo_sha demo_ops demo_empty); [reflexivity|reflexivity|apply demo_ops_ok].
Defined.

Lemma claim_leases_deliveries_witness :
  claim_effect (demo_env 60 "y") [1] demo_due demo_claimed 1 /\ carries demo_due demo_delivery /\
  forall e2 limit2 ds2 s2, all_chars visible (uuid e2) = true -> db_now e2 <= 180 ->
    ClaimWebhookDeliveries e2 limit2 demo_claimed = Ok (ds2, s2) -> 1 ∉ D_ID <$> ds2.
Proof.
  destruct (claim_leases_deliveries (demo_env 60 "y") 0 demo_due [demo_delivery] demo_claimed
    eq_refl demo_due_inv demo_webhook_claim) as (_ & Hca & Heff & Hex).
  split; [apply (Heff 1)|]. split; [by apply Forall_cons in Hca as [? _]|].
  intros e2 limit2 ds2 s2 Hv Hnow Hrun. apply (Hex e2 limit2 ds2 s2 Hv Hnow Hrun 1). apply elem_of_cons. by left.
Defined.

Lemma reports_are_fenced_witness : exists d',
  run_tx (MarkWebhookDeliveryDelivered 1 "webhook-y") demo_claimed =
    (Ok tt, set_deliveries (<[1 := d']> (deliveries demo_claimed)) (next_delivery_id demo_claimed) demo_claimed) /\
  w_status d' = WDelivered /\
  run_tx (MarkWebhookDeliveryDelivered 1 "webhook-x") demo_claimed = (Err HNoRows, demo_claimed).
Proof.
  destruct (reports_are_fenced demo_claimed 1 "webhook-y" demo_claimed_inv) as [Hheld _].
  destruct (reports_are_fenced demo_claimed 1 "webhook-x" demo_claimed_inv) as [_ Hother].
  edestruct Hheld as [(d' & Hrun & Hst & _) _]; [reflexivity..|].
  exists d'. split; [exact Hrun|]. split; [exact Hst|]. apply Hother. intros d Hd _.
  injection Hd as <-. discriminate.
Defined.

End WebhookTheorems.
