(* ===== verification/Resources.v ===== *)
(** * [internal/iiif/resources.go]: the annotations of a page as resources

    [AnnotationsFromPage] gives every embedded annotation as a document of its own,
    under the contexts of the page.  [ValidateAnnotationBytes] of the IIIF schema
    package is the class [AnnotationSchema]. *)

From Stdlib Require Import ZArith NArith Lia Ascii String.
From stdpp Require Import base gmap strings list.
From S2P Require Import Prelude GoStrings Json JsonParse MediaFragment Presentation PageTheorems.

Module Resources.
Import GoStr Json JsonParse MediaFragment Presentation.
#[local] Open Scope Z_scope.

Class AnnotationSchema := ValidateAnnotationBytes : string -> bool.

Record ResourceDocument := { R_ID : string; R_Payload : string }.

Definition resourceStringValue (object : obj) (key : string) : string := TrimSpace (as_string (jget object key)).

(** A copy through the encoder; [nil] when the decoder refuses it. *)
Definition cloneValue (value : json) : json := default JNull (DecodeJSON (Marshal value)).
Definition cloneObject (value : obj) : option obj :=
  match cloneValue (JObject value) with JObject m => Some m | _ => None end.

Section resources.
Context {SC : Schema} {AS : AnnotationSchema} {UP : UrlParser}.

Definition IsTextGranularity (value : string) : bool := IsKnownLevel (TrimSpace value).

(** The existing contexts, nested arrays opened. *)
Fixpoint context_values (existing : json) : list json :=
  match existing with
  | JArray l => (fix go l := match l with [] => [] | x :: l' => context_values x ++ go l' end) l
  | JNull => []
  | value => [value]
  end.

Definition presentationContexts (existing : json) : json :=
  match cloneValue <$> append_contexts [] (context_values existing) with
  | [] => JString PresentationContext
  | contexts => JArray (contexts ++ [JString PresentationContext])
  end.

Definition ValidateAnnotation (raw : string) : result page_err unit :=
  _ ← guard_ok (ValidateAnnotationBytes raw) ESchema;
  annotation ← decode_map raw;
  let annotation := default [] annotation in
  _ ← validatePresentationContext (jget annotation "@context");
  let granularity := TrimSpace (resourceStringValue annotation "textGranularity") in
  if bool_decide (granularity = ""%string) then Ok tt else
  _ ← guard_ok (IsTextGranularity granularity) ELevel;
  _ ← guard_ok (containsString (jget annotation "motivation") "supplementing") EMotivation;
  _ ← guard_ok (containsString (jget annotation "@context") TextGranularityContext) EGranularityContext;
  _ ← guard_ok (match jget annotation "body" with
                | None | Some JNull => false
                | Some body => hasTextualBody body
                end) EBody;
  fragment ← lift_geometry (TargetPixelXYWH (default JNull (jget annotation "target")));
  match fragment with
  | None => guard_ok (bool_decide (granularity = "page"%string)) ENoFragment
  | Some f => lift_geometry (validatePixelXYWH f)
  end.

(** One embedded annotation as a document; assigning its context to a nil map panics. *)
Definition standalone (page : obj) (value : json) : result page_err ResourceDocument :=
  match value with
  | JObject annotation =>
      let id := resourceStringValue annotation "id" in
      if bool_decide (id = ""%string) then Err EItemID else
      match cloneObject annotation with
      | None => Err EPanic
      | Some copy =>
          let encoded := Marshal (JObject
            (jset copy "@context" (presentationContexts (default JNull (jget page "@context"))))) in
          _ ← ValidateAnnotation encoded;
          Ok {| R_ID := id; R_Payload := encoded |}
      end
  | _ => Err EItemNotObject
  end.

Fixpoint standalones (page : obj) (items : list json) : result page_err (list ResourceDocument) :=
  match items with
  | [] => Ok []
  | value :: items' => d ← standalone page value; ds ← standalones page items'; Ok (d :: ds)
  end.

Definition page_items (page : obj) : list json :=
  match jget page "items" with Some (JArray l) => l | _ => [] end.

Definition AnnotationsFromPage (pageRaw : string) : result page_err (list ResourceDocument) :=
  _ ← ValidateAnnotationPage pageRaw;
  page ← decode_map pageRaw;
  let page := default [] page in
  standalones page (page_items page).

Definition AnnotationFromPage (pageRaw annotationID : string) : result page_err string :=
  let want := TrimSpace annotationID in
  resources ← AnnotationsFromPage pageRaw;
  match find (fun r => bool_decide (R_ID r = want)) resources with
  | Some r => Ok (R_Payload r)
  | None => Err EItemID
  end.

(** ** Copies *)

Lemma jget_member_ok (m : obj) k v : Forall member_ok m -> jget m k = Some v -> well_formed v.
Proof.
  induction 1 as [|[k1 v1] m [_ Hv] _ IH]; cbn [jget]; [done|]. case_bool_decide; [by intros [= <-]|done].
Qed.


Lemma clone_well_formed v : well_formed (cloneValue v).
Proof. unfold cloneValue. destruct (DecodeJSON _) as [j|] eqn:E; [by eapply decode_well_formed|done]. Qed.

Lemma clone_object_same m c : well_formed (JObject m) -> cloneObject m = Some c -> c = m.
Proof.
  intros Hw. unfold cloneObject, cloneValue. destruct (DecodeJSON _) as [j|] eqn:E; [|done].
  apply decode_encoded in E; [|done]. subst. by intros [= ->].
Qed.

Lemma presentation_contexts_well_formed v : valid_utf8 PresentationContext = true -> well_formed (presentationContexts v).
Proof.
  intros Hp. unfold presentationContexts.
  assert (Hf : Forall well_formed (cloneValue <$> append_contexts [] (context_values v))).
  { apply Forall_fmap, Forall_true. intros x. apply clone_well_formed. }
  destruct (cloneValue <$> _) as [|c cs]; [exact Hp|]. apply well_formed_array.
  apply Forall_app. split; [done|]. by repeat constructor.
Qed.

(** What a document holds of the annotation it was made from. *)
Definition embeds (page : obj) (value : json) (d : ResourceDocument) : Prop :=
  exists m m', value = JObject m /\ R_ID d = resourceStringValue m "id" /\ R_ID d <> ""%string /\
    DecodeJSON (R_Payload d) = Some (JObject m') /\
    jget m' "@context" = Some (presentationContexts (default JNull (jget page "@context"))) /\
    (forall k, k <> "@context"%string -> jget m' k = jget m k) /\
    ValidateAnnotation (R_Payload d) = Ok tt.

Lemma standalone_embeds page value d :
  valid_utf8 PresentationContext = true -> well_formed value ->
  standalone page value = Ok d -> embeds page value d.
Proof.
  intros Hp Hw H. destruct value as [| | | | |m]; try done. cbn [standalone] in H.
  destruct (bool_decide _) eqn:Hid; [done|]. apply bool_decide_eq_false in Hid.
  destruct (cloneObject m) as [c|] eqn:Hc; [|done]. apply clone_object_same in Hc as ->; [|done].
  set (ctx := presentationContexts _) in *.
  assert (Hwf : well_formed (JObject (jset m "@context" ctx))) 
    by (apply jset_well_formed; [done|by apply presentation_contexts_well_formed|done]).
  apply result_bind_Ok in H as ([] & Hv & [= <-]).
  exists m, (jset m "@context" ctx). split_and!; try done.
  - cbn [R_Payload]. unfold ValidateAnnotation in Hv. apply result_bind_Ok in Hv as (? & _ & Hv).
    apply result_bind_Ok in Hv as (o & Hd & _). unfold decode_map in Hd.
    destruct (DecodeJSON _) as [j|] eqn:E; [|done]. by rewrite (decode_encoded _ _ Hwf E).
  - by rewrite jget_jset, bool_decide_eq_true_2.
  - intros k Hk. by rewrite jget_jset, bool_decide_eq_false_2.
Qed.

Lemma standalones_embed page items docs :
  valid_utf8 PresentationContext = true -> Forall well_formed items ->
  standalones page items = Ok docs -> Forall2 (embeds page) items docs.
Proof.
  intros Hp Hw. revert docs. induction Hw as [|v items Hv _ IH]; intros docs H; cbn [standalones] in H.
  - injection H as <-. constructor.
  - apply result_bind_Ok in H as (d & Hd & H). apply result_bind_Ok in H as (ds & Hds & [= <-]).
    constructor; [by apply standalone_embeds|by apply IH].
Qed.

Lemma annotations_from_page raw docs : AnnotationsFromPage raw = Ok docs ->
  exists page, DecodeJSON raw = Some (JObject page) /\ Forall well_formed (page_items page) /\
    standalones page (page_items page) = Ok docs.
Proof.
  intros H. apply result_bind_Ok in H as ([] & Hv & H). apply result_bind_Ok in H as (o & Hd & H).
  unfold ValidateAnnotationPage in Hv. apply result_bind_Ok in Hv as (? & _ & Hv).
  rewrite Hd in Hv. cbn [mbind result_bind] in Hv. apply result_bind_Ok in Hv as (? & _ & Hv).
  apply result_bind_Ok in Hv as (? & Hctx & _).
  unfold decode_map in Hd. destruct (DecodeJSON raw) as [[| | | | |m]|] eqn:E; try done; injection Hd as <-; [done|].
  exists m. split_and!; [done| |done]. pose proof (decode_well_formed _ _ E) as Hm.
  apply well_formed_object in Hm as [_ Hm]. unfold page_items.
  destruct (jget m "items") as [[| | | |l|]|] eqn:Ei; try done.
  apply well_formed_array. eapply jget_member_ok; [exact Hm|exact Ei].
Qed.

(** The standalone documents of a page are its items, in order: each has the id of
    its item, decodes to the item with every property but the context unchanged and
    the contexts of the page, and is itself valid; and a document whose id no other
    item has is the one that is found by this id. *)
Theorem standalone_annotations_keep_content raw docs :
  valid_utf8 PresentationContext = true -> AnnotationsFromPage raw = Ok docs ->
  (exists page, DecodeJSON raw = Some (JObject page) /\ Forall2 (embeds page) (page_items page) docs) /\
  (NoDup (R_ID <$> docs) -> forall d id, d ∈ docs -> TrimSpace id = R_ID d ->
     AnnotationFromPage raw id = Ok (R_Payload d)).
Proof.
  intros Hp H. split.
  - destruct (annotations_from_page _ _ H) as (page & Hd & Hw & Hs). exists page. split; [done|].
    by apply standalones_embed.
  - intros Hnd d id Hin Hid. unfold AnnotationFromPage. rewrite H. cbn. rewrite Hid. clear H Hid.
    induction docs as [|x docs IH]; [by apply not_elem_of_nil in Hin|].
    rewrite fmap_cons, NoDup_cons in Hnd. destruct Hnd as [Hx Hnd]. cbn [find].
    apply elem_of_cons in Hin as [-> |Hin]; [by rewrite bool_decide_eq_true_2|].
    rewrite bool_decide_eq_false_2; [by apply IH|]. intros Heq. apply Hx. rewrite Heq.
    by apply list_elem_of_fmap_2.
Qed.

End resources.

(** ** A concrete page *)

Definition demo_annotation_schema : AnnotationSchema := fun raw => negb (bool_decide (raw = ""%string)).
#[local] Existing Instances PageTheorems.demo_schema PageTheorems.demo_parse demo_annotation_schema.

Definition demo_docs : list ResourceDocument :=
  Eval vm_compute in match AnnotationsFromPage PageTheorems.demo_normalized with Ok l => l | Err _ => [] end.
Definition demo_child : string := Eval vm_compute in match demo_docs with d :: _ => R_ID d | [] => ""%string end.

Lemma standalone_annotations_keep_content_witness :
  (exists page, DecodeJSON PageTheorems.demo_normalized = Some (JObject page) /\
     Forall2 (embeds page) (page_items page) demo_docs) /\
  length demo_docs = 1%nat /\
  match demo_docs with
  | d :: _ => AnnotationFromPage PageTheorems.demo_normalized (" " ++ demo_child) = Ok (R_Payload d)
  | [] => False
  end.
Proof.
  destruct (standalone_annotations_keep_content PageTheorems.demo_normalized demo_docs) as [Hpage Hfind].
  - vm_compute. reflexivity.
  - vm_compute. reflexivity.
  - split; [exact Hpage|]. split; [reflexivity|]. apply Hfind.
    + repeat constructor. apply not_elem_of_nil.
    + apply elem_of_cons. by left.
    + vm_compute. reflexivity.
Defined.

End Resources.
