(* ===== verification/Mirrors.v ===== *)
(** * Publication mirrors: the coalescing outbox and the removed annotations

    internal/store/annotation_mirrors.go, the part of PublishPage
    (internal/store/annotations.go) that replaces the public snapshot and queues its
    mirror, and the statements of annotation_mirrors.sql.go and
    annotation_mirror_tombstones.sql.go.  Rows that the claim query orders equally are
    taken in id order. *)

From Stdlib Require Import ZArith NArith Lia Ascii String.
From stdpp Require Import base gmap strings list sorting.
From S2P Require Import Prelude GoStrings Json JsonParse MediaFragment Presentation Resources JobSchema JobStore SafeFailures.

Module Mirrors.
Import GoStr Json JsonParse MediaFragment Presentation Resources JobStore SafeFailures.
#[local] Open Scope Z_scope.

(** ** Tables *)

Inductive mirror_status := MPending | MProcessing | MFailed.
#[export] Instance mirror_status_eq_dec : EqDecision mirror_status.
Proof. solve_decision. Defined.

Record mirror_row := {
  m_revision : Z;
  m_payload : string;
  m_status : mirror_status;
  m_attempt_count : Z;
  m_max_attempts : Z;
  m_next_attempt_at : Z;
  m_lease_until : option Z;
  m_locked_by : option string;
  m_last_error : option string;
  m_updated_at : Z;
}.

Record tombstone_row := { t_generation : Z; t_annotation_ids : string }.

(** Keyed by item image, as the tables are. *)
Record mdb := {
  mirrors : gmap Z mirror_row;
  tombstones : gmap Z tombstone_row;
  published : gmap Z (Z * string);   (* published_revision, payload *)
}.

Inductive mirror_err :=
| MLease               (* ErrAnnotationMirrorLease *)
| MConflict            (* ErrAnnotationRevisionConflict *)
| MInvalid | MDecode
| MPage (e : page_err).

Abbreviation mtx := (tx mdb mirror_err).

Definition set_mirrors (x : gmap Z mirror_row) (s : mdb) : mdb :=
  {| mirrors := x; tombstones := tombstones s; published := published s |}.
Definition set_tombstones (x : gmap Z tombstone_row) (s : mdb) : mdb :=
  {| mirrors := mirrors s; tombstones := x; published := published s |}.
Definition set_published (x : gmap Z (Z * string)) (s : mdb) : mdb :=
  {| mirrors := mirrors s; tombstones := tombstones s; published := x |}.

(** ** Statements *)

Definition fresh_mirror (revision : Z) (payload : string) (now : Z) : mirror_row :=
  {| m_revision := revision; m_payload := payload; m_status := MPending; m_attempt_count := 0;
     m_max_attempts := 20; m_next_attempt_at := now; m_lease_until := None; m_locked_by := None;
     m_last_error := None; m_updated_at := now |}.

(** A newer revision replaces the row, due when the lease of the old one ends. *)
Definition replaced_mirror (revision : Z) (payload : string) (now : Z) (r : mirror_row) : mirror_row :=
  {| m_revision := revision; m_payload := payload; m_status := MPending; m_attempt_count := 0;
     m_max_attempts := m_max_attempts r; m_next_attempt_at := Z.max now (default now (m_lease_until r));
     m_lease_until := None; m_locked_by := None; m_last_error := None; m_updated_at := now |}.

Definition UpsertAnnotationMirrorOutbox (image revision : Z) (payload : string) (now : Z) : mtx unit :=
  tx_modify (fun s => set_mirrors (<[image :=
    match mirrors s !! image with
    | None => fresh_mirror revision payload now
    | Some r => if revision >? m_revision r then replaced_mirror revision payload now r else r
    end]> (mirrors s)) s).

Definition with_mirror (st : mirror_status) (attempts next : Z) (lease : option Z) (owner error : option string)
    (now : Z) (r : mirror_row) : mirror_row :=
  {| m_revision := m_revision r; m_payload := m_payload r; m_status := st; m_attempt_count := attempts;
     m_max_attempts := m_max_attempts r; m_next_attempt_at := next; m_lease_until := lease;
     m_locked_by := owner; m_last_error := error; m_updated_at := now |}.

Definition lease_over (now : Z) (r : mirror_row) : bool :=
  bool_decide (m_status r = MProcessing) && match m_lease_until r with Some l => l <? now | None => false end.

Definition mirror_expired_message : string := "delivery lease expired after maximum attempts".

Definition FailExhaustedAnnotationMirrors (now : Z) : mtx unit :=
  tx_modify (fun s => set_mirrors
    ((fun r => if lease_over now r && (m_max_attempts r <=? m_attempt_count r)
               then with_mirror MFailed (m_attempt_count r) (m_next_attempt_at r) None None
                      (Some (default mirror_expired_message (m_last_error r))) now r
               else r) <$> mirrors s) s).

Definition claimable (now : Z) (r : mirror_row) : bool :=
  (bool_decide (m_status r = MPending) && (m_next_attempt_at r <=? now))
  || (lease_over now r && (m_attempt_count r <? m_max_attempts r)).

(** [ORDER BY next_attempt_at, updated_at] *)
Definition sooner (a b : Z * mirror_row) : Prop :=
  m_next_attempt_at a.2 < m_next_attempt_at b.2 \/
  (m_next_attempt_at a.2 = m_next_attempt_at b.2 /\
   (m_updated_at a.2 < m_updated_at b.2 \/ (m_updated_at a.2 = m_updated_at b.2 /\ a.1 <= b.1))).
#[export] Instance sooner_dec a b : Decision (sooner a b).
Proof. unfold sooner. apply _. Defined.

Definition SelectAnnotationMirrorForUpdate (now : Z) (locked : gset Z) (s : mdb) : option (Z * mirror_row) :=
  head (merge_sort sooner
    (filter (fun kv => (kv.1 ∉ locked) /\ claimable now kv.2 = true) (map_to_list (mirrors s)))).

(** An update of the row of [image] that meets [wh]; the number of rows it changed. *)
Definition update_mirror (image : Z) (wh : mirror_row -> bool) (f : mirror_row -> option mirror_row) : mtx Z := fun s =>
  match mirrors s !! image with
  | Some r => if wh r then Ok (1, set_mirrors (partial_alter (fun _ => f r) image (mirrors s)) s) else Ok (0, s)
  | None => Ok (0, s)
  end.

Definition MarkAnnotationMirrorProcessing (lease : Z) (owner : option string) (image revision now : Z) : mtx Z :=
  update_mirror image (fun r => (m_revision r =? revision) && claimable now r)
    (fun r => Some (with_mirror MProcessing (m_attempt_count r + 1) (m_next_attempt_at r) (Some lease) owner
                      (m_last_error r) now r)).

Definition mirror_held (revision : Z) (owner : option string) (r : mirror_row) : bool :=
  (m_revision r =? revision) && bool_decide (m_status r = MProcessing)
  && match owner with Some o => bool_decide (m_locked_by r = Some o) | None => false end.

Definition requireMirrorAffected (affected : mtx Z) : mtx unit :=
  n ← affected; if n =? 1 then mret tt else tx_fail MLease.

(** ** Deliveries *)

Record AnnotationMirrorDelivery := {
  A_ItemImageID : Z; A_Revision : Z; A_Payload : string; A_LeaseOwner : string; A_Attempt : Z; A_MaxAttempts : Z;
}.

Definition ClaimAnnotationMirror (e : env) (leaseDuration : Z) : mtx (option AnnotationMirrorDelivery) :=
  let leaseDuration := if leaseDuration <=? 0 then 30 else leaseDuration in
  _ ← FailExhaustedAnnotationMirrors (db_now e);
  row ← tx_reads (SelectAnnotationMirrorForUpdate (db_now e) (locked_rows e));
  match row with
  | None => mret None
  | Some (image, r) =>
      let leaseOwner := newLeaseOwner "annotation-mirror" (uuid e) in
      affected ← MarkAnnotationMirrorProcessing (go_now e + leaseDuration) (nullableString leaseOwner)
                   image (m_revision r) (db_now e);
      if negb (affected =? 1) then mret None else
      mret (Some {| A_ItemImageID := image; A_Revision := m_revision r; A_Payload := m_payload r;
                    A_LeaseOwner := leaseOwner; A_Attempt := m_attempt_count r + 1;
                    A_MaxAttempts := m_max_attempts r |})
  end.

Definition CompleteAnnotationMirror (d : AnnotationMirrorDelivery) : mtx unit :=
  requireMirrorAffected (update_mirror (A_ItemImageID d)
    (mirror_held (A_Revision d) (nullableString (A_LeaseOwner d))) (fun _ => None)).

(** The text of an error, [None] for a nil one. *)
Definition SafeAnnotationMirrorFailureMessage (cause : option string) : string :=
  safeDurableFailureMessage durableFailureAnnotationMirror (default ""%string cause).

Definition RetryAnnotationMirror (e : env) (d : AnnotationMirrorDelivery) (cause : option string) (nextAttempt : Z)
    : mtx unit :=
  requireMirrorAffected (update_mirror (A_ItemImageID d)
    (mirror_held (A_Revision d) (nullableString (A_LeaseOwner d)))
    (fun r => Some (with_mirror (if m_max_attempts r <=? m_attempt_count r then MFailed else MPending)
       (m_attempt_count r) nextAttempt None None (nullableString (SafeAnnotationMirrorFailureMessage cause))
       (db_now e) r))).

(** internal/server/triplet_presentation.go, in seconds *)
Definition annotationMirrorLeaseDuration : Z := 90.
Definition annotationMirrorRetryDelay (attempt : Z) : Z :=
  let attempt := if attempt <? 1 then 1 else attempt in
  let attempt := if attempt >? 8 then 8 else attempt in
  let delay := Z.shiftl 1 (attempt - 1) in
  if delay >? 300 then 300 else delay.

(** ** Removed annotations *)

(** [json.Unmarshal] into a slice of strings. *)
Definition string_element (v : json) : option string :=
  match v with JString x => Some x | JNull => Some ""%string | _ => None end.
Definition unmarshal_strings (raw : string) : option (list string) :=
  '(v, rest) ← parse_value (S (String.length raw)) raw;
  if bool_decide (skip_ws rest = ""%string) then
    match v with
    | JNull => Some []
    | JArray l => mapM string_element l
    | _ => None
    end
  else None.

(** [sort.Strings]: byte order. *)
Definition string_le (a b : string) : Prop := String.compare a b <> Gt.
#[export] Instance string_le_dec a b : Decision (string_le a b).
Proof. unfold string_le. apply _. Defined.
Definition sorted_ids (ids : gset string) : list string := merge_sort string_le (elements ids).

Definition decodeAnnotationMirrorTombstoneIDs (raw : string) : option (gset string) :=
  values ← unmarshal_strings raw;
  if bool_decide (""%string ∈ values) then None else Some (list_to_set values).

Definition encodeAnnotationMirrorTombstoneIDs (ids : gset string) : string :=
  Marshal (JArray (JString <$> sorted_ids ids)).

Definition UpsertAnnotationMirrorTombstones (image : Z) (ids : string) : mtx unit :=
  tx_modify (fun s => set_tombstones (<[image :=
    {| t_generation := match tombstones s !! image with Some t => t_generation t + 1 | None => 1 end;
       t_annotation_ids := ids |}]> (tombstones s)) s).

Definition DeleteAnnotationMirrorTombstones (image : Z) : mtx unit :=
  tx_modify (fun s => set_tombstones (delete image (tombstones s)) s).

(** Write the remaining ids, or no row. *)
Definition store_tombstones (image : Z) (ids : gset string) : mtx unit :=
  if bool_decide (ids = ∅) then DeleteAnnotationMirrorTombstones image
  else UpsertAnnotationMirrorTombstones image (encodeAnnotationMirrorTombstoneIDs ids).

Record AnnotationMirrorTombstones := { T_ItemImageID : Z; T_Generation : Z; T_AnnotationIDs : list string }.

Definition LoadAnnotationMirrorTombstones (image : Z) (s : mdb) : result mirror_err AnnotationMirrorTombstones :=
  if image =? 0 then Err MInvalid else
  match tombstones s !! image with
  | None => Ok {| T_ItemImageID := image; T_Generation := 0; T_AnnotationIDs := [] |}
  | Some t =>
      ids ← of_option MDecode (decodeAnnotationMirrorTombstoneIDs (t_annotation_ids t));
      Ok {| T_ItemImageID := image; T_Generation := t_generation t; T_AnnotationIDs := sorted_ids ids |}
  end.

Definition AcknowledgeAnnotationMirrorTombstones (image : Z) (delivered : list string) : mtx unit :=
  if image =? 0 then tx_fail MInvalid else
  if bool_decide (delivered = []) then mret tt else
  row ← tx_reads (fun s => tombstones s !! image);
  match row with
  | None => mret tt
  | Some t =>
      ids ← tx_lift (of_option MDecode (decodeAnnotationMirrorTombstoneIDs (t_annotation_ids t)));
      store_tombstones image (ids ∖ list_to_set delivered)
  end.

Section publication.
Context {SC : Schema} {AS : AnnotationSchema} {UP : UrlParser}.

Definition annotationIDsFromPublishedPage (payload : string) : result mirror_err (gset string) :=
  if bool_decide (payload = ""%string) then Ok ∅ else
  match AnnotationsFromPage payload with
  | Err e => Err (MPage e)
  | Ok annotations =>
      if existsb (fun a => bool_decide (R_ID a = ""%string)) annotations then Err MInvalid
      else Ok (list_to_set (R_ID <$> annotations))
  end.

Definition replaceAnnotationMirrorTombstones (image : Z) (previousPayload nextPayload : string) : mtx unit :=
  if image =? 0 then tx_fail MInvalid else
  row ← tx_reads (fun s => tombstones s !! image);
  stale ← tx_lift (match row with
                   | Some t => of_option MDecode (decodeAnnotationMirrorTombstoneIDs (t_annotation_ids t))
                   | None => Ok ∅
                   end);
  previous ← tx_lift (annotationIDsFromPublishedPage previousPayload);
  next ← tx_lift (annotationIDsFromPublishedPage nextPayload);
  store_tombstones image ((stale ∪ previous) ∖ next).

(** PublishPage from the check of the page on: the public snapshot, the removed
    annotations and the mirror; true when the snapshot is new. *)
Definition publish_snapshot (e : env) (image revision : Z) (payload : string) : mtx bool :=
  _ ← tx_lift (match ValidateAnnotationPage payload with Ok _ => Ok tt | Err x => Err (MPage x) end);
  existing ← tx_reads (fun s => published s !! image);
  let queue previous :=
    _ ← tx_modify (fun s => set_published (<[image := (revision, payload)]> (published s)) s);
    _ ← replaceAnnotationMirrorTombstones image previous payload;
    _ ← UpsertAnnotationMirrorOutbox image revision payload (db_now e);
    mret true in
  match existing with
  | Some (r, previous) =>
      if r =? revision then mret false else
      if r >? revision then tx_fail MConflict else queue previous
  | None => queue ""%string
  end.

End publication.
End Mirrors.
