(* ===== verification/MirrorTheorems.v ===== *)
(** * Publication mirrors: removed annotations are remembered, deliveries are fenced *)

From Stdlib Require Import ZArith NArith Lia Ascii String.
From stdpp Require Import base gmap strings list sorting.
From S2P Require Import Prelude GoStrings Json JsonParse MediaFragment Presentation PageTheorems Resources JobSchema JobStore SafeFailures Mirrors.

Module MirrorTheorems.
Import GoStr Json JsonParse MediaFragment Presentation Resources JobStore SafeFailures Mirrors.
#[local] Open Scope Z_scope.

(** ** The encoded set reads back *)

Definition plain_ids (ids : gset string) : Prop := forall id, id ∈ ids -> id <> ""%string /\ valid_utf8 id = true.

Lemma sorted_ids_permutation ids : sorted_ids ids ≡ₚ elements ids.
Proof. apply merge_sort_Permutation. Qed.

Lemma sorted_ids_elem ids id : id ∈ sorted_ids ids <-> id ∈ ids.
Proof. by rewrite sorted_ids_permutation, elem_of_elements. Qed.

Lemma sorted_ids_set ids : list_to_set (sorted_ids ids) = ids.
Proof. apply set_eq. intros id. by rewrite elem_of_list_to_set, sorted_ids_elem. Qed.

Lemma string_elements l : mapM string_element (JString <$> l) = Some l.
Proof. induction l as [|x l IH]; [done|]. cbn. cbn in IH. by rewrite IH. Qed.

Lemma unmarshal_marshal l : Forall (fun x => valid_utf8 x = true) l ->
  unmarshal_strings (Marshal (JArray (JString <$> l))) = Some l.
Proof.
  intros Hl. set (j := JArray (JString <$> l)).
  assert (Hw : well_formed j).
  { apply well_formed_array, Forall_fmap. by eapply Forall_impl. }
  unfold unmarshal_strings.
  pose proof (parse_marshal j Hw (S (String.length (Marshal j))) ""%string I ltac:(lia)) as H.
  rewrite sapp_nil_r in H. rewrite H. cbn. apply string_elements.
Qed.

Lemma decode_encode_ids ids : plain_ids ids ->
  decodeAnnotationMirrorTombstoneIDs (encodeAnnotationMirrorTombstoneIDs ids) = Some ids.
Proof.
  intros Hp. unfold decodeAnnotationMirrorTombstoneIDs, encodeAnnotationMirrorTombstoneIDs.
  rewrite unmarshal_marshal.
  - cbn. rewrite bool_decide_eq_false_2, sorted_ids_set; [done|].
    intros H%sorted_ids_elem%Hp. by destruct H.
  - apply Forall_forall. intros x Hx%sorted_ids_elem%Hp. by destruct Hx.
Qed.

(** ** A trimmed string keeps its encoding *)

Lemma valid_prefix b c w : cont c = false -> valid_utf8 (b ++ String c w) = true -> valid_utf8 b = true.
Proof.
  intros Hc. remember (String.length b) as n eqn:Hn. revert b Hn.
  induction (lt_wf n) as [n _ IH]. intros b ->.
  assert (IH' : forall b', (String.length b' < String.length b)%nat ->
    valid_utf8 (b' ++ String c w) = true -> valid_utf8 b' = true) by eauto. clear IH.
  assert (H2 : forall x, utf8_2 x c = true -> False) by (intros x [_ Hx]%utf8_2_cont; congruence).
  assert (H3 : forall x y, utf8_3 x y c = true \/ utf8_3 x c y = true -> False)
    by (intros x y [[??]%utf8_3_cont|[??]%utf8_3_cont]; congruence).
  assert (H4 : forall x y z, utf8_4 x y z c = true \/ utf8_4 x y c z = true \/ utf8_4 x c y z = true -> False)
    by (intros x y z [(?&?&?&?)%utf8_4_cont|[(?&?&?&?)%utf8_4_cont|(?&?&?&?)%utf8_4_cont]]; congruence).
  destruct b as [|a b]; [done|]. rewrite sapp_cons. cbn [valid_utf8].
  destruct (N_of_ascii a <? 128)%N; [apply IH'; cbn; lia|].
  destruct b as [|a2 b2].
  { rewrite sapp_nil_l. destruct (utf8_2 a c) eqn:E; [by destruct (H2 a)|].
    destruct w as [|x w]; [done|]. destruct (utf8_3 a c x) eqn:E3; [destruct (H3 a x); auto|].
    destruct w as [|y w]; [done|]. intros [E4 _]%andb_true_iff. destruct (H4 a x y); auto. }
  rewrite sapp_cons. destruct (utf8_2 a a2); [apply IH'; cbn; lia|]. destruct b2 as [|a3 b3].
  { rewrite sapp_nil_l. destruct (utf8_3 a a2 c) eqn:E3; [destruct (H3 a a2); auto|].
    destruct w as [|x w]; [done|]. intros [E4 _]%andb_true_iff. destruct (H4 a a2 x); auto. }
  rewrite sapp_cons. destruct (utf8_3 a a2 a3); [apply IH'; cbn; lia|]. destruct b3 as [|a4 b4].
  { rewrite sapp_nil_l. intros [E4 _]%andb_true_iff. destruct (H4 a a2 a3); auto. }
  rewrite sapp_cons. intros [E4 H]%andb_true_iff. rewrite E4. apply IH'; [cbn; lia|done].
Qed.

Lemma space1_ascii c : space1 c = true -> (N_of_ascii c <? 128)%N = true /\ cont c = false.
Proof. by destruct c as [[] [] [] [] [] [] [] []]. Qed.

Lemma space2_valid a b : space2 a b = true -> valid_utf8 (String a (String b "")) = true /\ cont a = false.
Proof.
  unfold space2. intros [Ha Hb]%andb_true_iff. apply byte_is_eq in Ha as ->. split; [|done].
  apply orb_true_iff in Hb as [Hb|Hb]; by apply byte_is_eq in Hb as ->.
Qed.

Lemma space3_valid a b c :
  space3 a b c = true -> valid_utf8 (String a (String b (String c ""))) = true /\ cont a = false.
Proof.
  intros H. assert (Hc : exists x y, a = ascii_of_N x /\ b = ascii_of_N y /\ In (x, y)
    [(225, 154); (226, 128); (226, 129); (227, 128)]%N /\ cont c = true).
  { unfold space3 in H. repeat (apply orb_true_iff in H as [H|H]); repeat apply andb_true_iff in H as [H ?];
      repeat match goal with
      | H : byte_is a _ = true |- _ => apply byte_is_eq in H
      | H : byte_is b _ = true |- _ => apply byte_is_eq in H
      end; do 2 eexists; (split; [eassumption|]); (split; [eassumption|]); (split; [cbn; tauto|]).
    all: clear -H0; by destruct c as [[] [] [] [] [] [] [] []]. }
  destruct Hc as (x & y & -> & -> & Hin & Hc). cbn in Hin.
  destruct Hin as [[= <- <-]|[[= <- <-]|[[= <- <-]|[[= <- <-]|[]]]]]; (split; [|done]); apply valid_3;
    unfold utf8_3; cbn; by rewrite Hc.
Qed.

Lemma trim_left_valid s : valid_utf8 s = true -> valid_utf8 (trim_left s) = true.
Proof.
  remember (String.length s) as n eqn:Hn. revert s Hn. induction (lt_wf n) as [n _ IH]. intros s -> H.
  destruct s as [|a r]; [done|]. cbn [trim_left]. destruct (space1 a) eqn:E1.
  { apply space1_ascii in E1 as [Ea _]. cbn [valid_utf8] in H. rewrite Ea in H. eapply IH; [|done|done]. cbn; lia. }
  destruct r as [|b r]; [done|]. destruct (space2 a b) eqn:E2.
  { apply space2_valid in E2 as [E2 _]. eapply IH; [|done|]; [cbn; lia|].
    by rewrite <-(valid_utf8_app _ r E2). }
  destruct r as [|c r]; [done|]. destruct (space3 a b c) eqn:E3; [|done].
  apply space3_valid in E3 as [E3 _]. eapply IH; [|done|]; [cbn; lia|]. by rewrite <-(valid_utf8_app _ r E3).
Qed.

Lemma rev_cons c s : rev (String c s) = (rev s ++ String c "")%string.
Proof. unfold rev. cbn [rev_app]. apply rev_app_app. Qed.

Lemma trim_rev_valid s : valid_utf8 (rev s) = true -> valid_utf8 (rev (trim_rev s)) = true.
Proof.
  remember (String.length s) as n eqn:Hn. revert s Hn. induction (lt_wf n) as [n _ IH]. intros s -> H.
  destruct s as [|a r]; [done|]. cbn [trim_rev]. destruct (space1 a) eqn:E1.
  { apply space1_ascii in E1 as [_ Ea]. rewrite rev_cons in H. eapply IH; [|done|]; [cbn; lia|].
    by eapply valid_prefix. }
  destruct r as [|b r]; [done|]. destruct (space2 b a) eqn:E2.
  { apply space2_valid in E2 as [_ E2]. rewrite !rev_cons, sapp_assoc, !sapp_cons in H. eapply IH; [|done|]; [cbn; lia|].
    by eapply valid_prefix. }
  destruct r as [|c r]; [done|]. destruct (space3 c b a) eqn:E3; [|done].
  apply space3_valid in E3 as [_ E3]. rewrite !rev_cons, !sapp_assoc, !sapp_cons in H. eapply IH; [|done|]; [cbn; lia|].
  by eapply valid_prefix.
Qed.

Lemma TrimSpace_valid s : valid_utf8 s = true -> valid_utf8 (TrimSpace s) = true.
Proof. intros H. unfold TrimSpace. apply trim_rev_valid. rewrite rev_rev. by apply trim_left_valid. Qed.

Lemma string_value_valid m k : well_formed (JObject m) -> valid_utf8 (resourceStringValue m k) = true.
Proof.
  intros [_ Hm]%well_formed_object. unfold resourceStringValue. apply TrimSpace_valid. unfold as_string.
  destruct (jget m k) as [[]|] eqn:E; try done. by apply (jget_member_ok _ _ _ Hm) in E.
Qed.

Section publication.
Context {SC : Schema} {AS : AnnotationSchema} {UP : UrlParser}.

Lemma standalones_ids page items docs :
  Forall well_formed items -> standalones page items = Ok docs -> Forall (fun d => valid_utf8 (R_ID d) = true) docs.
Proof.
  intros Hw. revert docs. induction Hw as [|v items Hv _ IH]; intros docs H; cbn [standalones] in H.
  - injection H as <-. constructor.
  - apply result_bind_Ok in H as (d & Hd & H). apply result_bind_Ok in H as (ds & Hds & [= <-]).
    constructor; [|by apply IH]. destruct v as [| | | | |m]; try done. cbn [standalone] in Hd.
    destruct (bool_decide _); [done|]. destruct (cloneObject m) as [c|]; [|done].
    apply result_bind_Ok in Hd as (? & _ & [= <-]). by apply string_value_valid.
Qed.

Lemma published_ids_plain payload ids : annotationIDsFromPublishedPage payload = Ok ids -> plain_ids ids.
Proof.
  unfold annotationIDsFromPublishedPage. destruct (bool_decide _); [intros [= <-] id Hid; set_solver|].
  destruct (AnnotationsFromPage payload) as [docs|] eqn:E; [|done].
  destruct (existsb _ docs) eqn:Ex; [done|]. intros [= <-] id Hid.
  apply elem_of_list_to_set, list_elem_of_fmap in Hid as (d & -> & Hd). split.
  - intros He. apply not_true_iff_false in Ex. apply Ex, existsb_exists. exists d.
    split; [by apply list_elem_of_In|by apply bool_decide_eq_true].
  - destruct (annotations_from_page _ _ E) as (page & _ & Hw & Hs).
    by eapply (proj1 (Forall_forall _ _) (standalones_ids _ _ _ Hw Hs)).
Qed.

(** ** The public snapshot and the removals it owes *)

(** The annotations of the public snapshot. *)
Definition live (s : mdb) (image : Z) : gset string :=
  match published s !! image with
  | Some (_, payload) => match annotationIDsFromPublishedPage payload with Ok ids => ids | Err _ => ∅ end
  | None => ∅
  end.

(** The stored removals; [None] is a row that does not decode. *)
Definition removals (s : mdb) (image : Z) : option (gset string) :=
  match tombstones s !! image with
  | Some t => decodeAnnotationMirrorTombstoneIDs (t_annotation_ids t)
  | None => Some ∅
  end.

(** [g]: the annotations of [image] that the remote store may hold. *)
Definition remembers (image : Z) (g : gset string) (s : mdb) : Prop :=
  plain_ids g /\ live s image ⊆ g /\ removals s image = Some (g ∖ live s image).

Lemma plain_difference a b : plain_ids a -> plain_ids (a ∖ b).
Proof. intros H id Hid. apply H. set_solver. Qed.

Lemma store_tombstones_other image ids s u s' : store_tombstones image ids s = Ok (u, s') ->
  (forall i, i <> image -> removals s' i = removals s i) /\ published s' = published s /\ mirrors s' = mirrors s.
Proof.
  unfold store_tombstones. case_bool_decide; intros [= <- <-]; unfold removals; split_and!; try done; intros i Hi;
    cbn [set_tombstones tombstones]; [by rewrite lookup_delete_ne|by rewrite lookup_insert_ne].
Qed.

Lemma store_tombstones_self image ids s u s' :
  plain_ids ids -> store_tombstones image ids s = Ok (u, s') -> removals s' image = Some ids.
Proof.
  intros Hp. unfold store_tombstones. case_bool_decide as He; intros [= <- <-]; unfold removals;
    cbn [set_tombstones tombstones].
  - by rewrite lookup_delete_eq, He.
  - rewrite lookup_insert_eq. cbn [t_annotation_ids]. by rewrite decode_encode_ids.
Qed.

(** Removals and snapshot of an image decide whether it is remembered. *)
Lemma remembers_same image g s s' :
  published s' !! image = published s !! image -> removals s' image = removals s image ->
  remembers image g s -> remembers image g s'.
Proof.
  intros Hp Hr (? & ? & ?). assert (Hl : live s' image = live s image) by (unfold live; by rewrite Hp).
  unfold remembers. rewrite Hl, Hr. done.
Qed.

Lemma acknowledge_remembers image i ids s u s' g :
  remembers image g s -> AcknowledgeAnnotationMirrorTombstones i ids s = Ok (u, s') ->
  remembers image (if i =? image then g ∖ (list_to_set ids ∖ live s image) else g) s'.
Proof.
  intros Hrem H. pose proof Hrem as (Hp & Hl & Hr). unfold AcknowledgeAnnotationMirrorTombstones in H.
  destruct (i =? 0); [done|]. case_bool_decide as He.
  { injection H as <- <-. subst ids. destruct (i =? image); [|done].
    by replace (g ∖ (list_to_set [] ∖ live s image)) with g by set_solver. }
  tx_bind H as row s1 H1. injection H1 as <- <-. destruct (tombstones s !! i) as [t|] eqn:Et.
  2:{ injection H as <- <-. destruct (Z.eqb_spec i image) as [-> |]; [|done].
      unfold removals in Hr. rewrite Et in Hr. injection Hr as Hr.
      by replace (g ∖ (list_to_set ids ∖ live s image)) with g by set_solver. }
  tx_bind H as old s2 H2. apply tx_lift_Ok in H2 as [H2 ->]. apply of_option_Ok in H2.
  destruct (store_tombstones_other _ _ _ _ _ H) as (Hother & Hpub & _).
  destruct (Z.eqb_spec i image) as [-> |Hne]; [|by eapply remembers_same; [rewrite Hpub|apply Hother|]].
  unfold removals in Hr. rewrite Et, H2 in Hr. injection Hr as ->.
  apply store_tombstones_self in H; [|by do 2 apply plain_difference].
  assert (Hlive : live s' image = live s image) by (unfold live; by rewrite Hpub).
  unfold remembers. rewrite Hlive, H. split_and!; [by apply plain_difference|set_solver|].
  f_equal. apply set_eq. intros x. rewrite !elem_of_difference. destruct (decide (x ∈ live s image)); tauto.
Qed.

Lemma queue_remembers image revision payload previous s u s' g :
  (previous = "" /\ published s !! image = None \/ exists r, published s !! image = Some (r, previous))%string ->
  remembers image g s ->
  replaceAnnotationMirrorTombstones image previous payload
    (set_published (<[image := (revision, payload)]> (published s)) s) = Ok (u, s') ->
  remembers image (g ∪ live s' image) s'.
Proof.
  intros Hprev (Hp & Hl & Hr) H. unfold replaceAnnotationMirrorTombstones in H. destruct (image =? 0); [done|].
  tx_bind H as row s1 H1. injection H1 as <- <-. tx_bind H as stale s2 H2. apply tx_lift_Ok in H2 as [H2 ->].
  tx_bind H as prev s3 H3. apply tx_lift_Ok in H3 as [H3 ->]. tx_bind H as next s4 H4. apply tx_lift_Ok in H4 as [H4 ->].
  cbn [set_published tombstones] in H2.
  assert (Hstale : Some stale = removals s image).
  { unfold removals. destruct (tombstones s !! image); [by apply of_option_Ok in H2|by injection H2 as <-]. }
  rewrite Hr in Hstale. injection Hstale as ->.
  assert (Hlive : prev = live s image).
  { unfold live. destruct Hprev as [[-> Hn]|[r Hs]].
    - rewrite Hn. by injection H3 as <-.
    - by rewrite Hs, H3. }
  subst prev. pose proof (published_ids_plain _ _ H4) as Hnext.
  destruct (store_tombstones_other _ _ _ _ _ H) as (_ & Hpub & _).
  assert (Hl' : live s' image = next).
  { unfold live. rewrite Hpub. cbn [set_published published]. by rewrite lookup_insert_eq, H4. }
  apply store_tombstones_self in H; [|apply plain_difference; intros id; set_solver].
  unfold remembers. rewrite Hl', H. split_and!; [intros id; set_solver|set_solver|].
  f_equal. apply set_eq. intros x. rewrite !elem_of_difference, !elem_of_union.
  destruct (decide (x ∈ live s image)); set_solver.
Qed.

(** What a successful publication did. *)
Lemma publish_cases e image revision payload s b s' :
  publish_snapshot e image revision payload s = Ok (b, s') ->
  (b = false /\ s' = s) \/
  (b = true /\ exists previous s2,
     (previous = ""%string /\ published s !! image = None \/
      exists r, published s !! image = Some (r, previous) /\ r < revision) /\
     replaceAnnotationMirrorTombstones image previous payload
       (set_published (<[image := (revision, payload)]> (published s)) s) = Ok (tt, s2) /\
     UpsertAnnotationMirrorOutbox image revision payload (db_now e) s2 = Ok (tt, s')).
Proof.
  intros H. unfold publish_snapshot in H. tx_bind H as u s1 H1. apply tx_lift_Ok in H1 as [_ ->].
  tx_bind H as row s1 H1. injection H1 as <- <-.
  assert (Hq : forall previous,
    (previous = ""%string /\ published s !! image = None \/
      exists r, published s !! image = Some (r, previous) /\ r < revision) ->
    (_ ← tx_modify (fun s => set_published (<[image := (revision, payload)]> (published s)) s);
     _ ← replaceAnnotationMirrorTombstones image previous payload;
     _ ← UpsertAnnotationMirrorOutbox image revision payload (db_now e);
     mret true) s = Ok (b, s') ->
    b = true /\ exists previous s2,
     (previous = ""%string /\ published s !! image = None \/
      exists r, published s !! image = Some (r, previous) /\ r < revision) /\
     replaceAnnotationMirrorTombstones image previous payload
       (set_published (<[image := (revision, payload)]> (published s)) s) = Ok (tt, s2) /\
     UpsertAnnotationMirrorOutbox image revision payload (db_now e) s2 = Ok (tt, s')).
  { intros previous Hprev Hrun. tx_bind Hrun as u1 s1 H1. injection H1 as <- <-.
    tx_bind Hrun as u2 s2 H2. tx_bind Hrun as u3 s3 H3. injection Hrun as <- <-. destruct u2, u3. eauto 10. }
  destruct (published s !! image) as [[r previous]|] eqn:E.
  - destruct (Z.eqb_spec r revision); [injection H as <- <-; auto|].
    destruct (r >? revision) eqn:Eg; [done|]. right. apply (Hq previous); [|done]. right. exists r. split; [done|lia].
  - right. apply (Hq ""%string); [by left|done].
Qed.

Lemma replace_published image previous payload s u s' :
  replaceAnnotationMirrorTombstones image previous payload s = Ok (u, s') ->
  (forall i, i <> image -> removals s' i = removals s i) /\ published s' = published s /\ mirrors s' = mirrors s.
Proof.
  intros H. unfold replaceAnnotationMirrorTombstones in H. destruct (image =? 0); [done|].
  tx_bind H as row s1 H1. injection H1 as <- <-. tx_bind H as stale s2 H2. apply tx_lift_Ok in H2 as [H2 ->].
  tx_bind H as prev s3 H3. apply tx_lift_Ok in H3 as [H3 ->]. tx_bind H as next s4 H4. apply tx_lift_Ok in H4 as [H4 ->].
  by eapply store_tombstones_other.
Qed.

Lemma publish_remembers e i revision payload image s b s' g :
  remembers image g s -> publish_snapshot e i revision payload s = Ok (b, s') ->
  remembers image (g ∪ live s' image) s'.
Proof.
  intros Hrem H. apply publish_cases in H as [[-> ->]|(-> & previous & s2 & Hprev & Hrep & Hup)].
  { destruct Hrem as (? & ? & ?). by replace (g ∪ live s image) with g by set_solver. }
  injection Hup as <-. destruct (decide (i = image)) as [-> |Hne].
  - eapply queue_remembers in Hrep; [|by destruct Hprev as [?|(r & ? & _)]; eauto|exact Hrem]. exact Hrep.
  - destruct (replace_published _ _ _ _ _ _ Hrep) as (Hother & Hpub & _).
    assert (Hl : published s2 !! image = published s !! image)
      by (rewrite Hpub; cbn; by rewrite lookup_insert_ne).
    apply (remembers_same image g s s2) in Hrem; [|done|by apply Hother].
    unfold remembers, live, removals in *. cbn [set_mirrors published tombstones]. destruct Hrem as (? & ? & ?).
    match goal with |- context [g ∪ ?l] => replace (g ∪ l) with g by set_solver end. done.
Qed.

(** ** The outbox *)

(** Attempts within the budget; a lease exactly while the row is processed. *)
Definition mirror_ok (r : mirror_row) : Prop :=
  0 <= m_attempt_count r <= m_max_attempts r /\ 0 < m_max_attempts r /\
  match m_status r with
  | MPending => m_attempt_count r < m_max_attempts r /\ m_lease_until r = None /\ m_locked_by r = None
  | MProcessing => 1 <= m_attempt_count r /\ is_Some (m_lease_until r) /\ is_Some (m_locked_by r)
  | MFailed => m_lease_until r = None /\ m_locked_by r = None
  end.

(** A queued mirror is the current public snapshot. *)
Definition mirror_inv (s : mdb) : Prop :=
  forall i r, mirrors s !! i = Some r -> mirror_ok r /\ published s !! i = Some (m_revision r, m_payload r).

Lemma rows_kept_inv s m : mirror_inv s ->
  (forall i r', m !! i = Some r' -> exists r, mirrors s !! i = Some r /\ mirror_ok r' /\
     m_revision r' = m_revision r /\ m_payload r' = m_payload r) ->
  mirror_inv (set_mirrors m s).
Proof.
  intros Hi Hm i r' Hr'. destruct (Hm i r' Hr') as (r & Hr & Hok & -> & ->). split; [done|]. by apply Hi.
Qed.

Lemma update_mirror_inv image wh f s n s' : mirror_inv s ->
  (forall r r', mirror_ok r -> wh r = true -> f r = Some r' ->
     mirror_ok r' /\ m_revision r' = m_revision r /\ m_payload r' = m_payload r) ->
  update_mirror image wh f s = Ok (n, s') -> mirror_inv s'.
Proof.
  intros Hi Hf H. unfold update_mirror in H. destruct (mirrors s !! image) as [r|] eqn:E; [|by injection H as <- <-].
  destruct (wh r) eqn:Ew; injection H as <- <-; [|done]. apply rows_kept_inv; [done|]. intros i r' Hr'.
  destruct (decide (i = image)) as [-> |Hne].
  - rewrite lookup_partial_alter_eq in Hr'. destruct (Hf r r') as (? & ? & ?); [by apply (Hi image)|done..|]. eauto.
  - rewrite lookup_partial_alter_ne in Hr' by done. exists r'. split_and!; try done. by apply (Hi i).
Qed.

Lemma fail_exhausted_inv now s u s' :
  mirror_inv s -> FailExhaustedAnnotationMirrors now s = Ok (u, s') -> mirror_inv s'.
Proof.
  intros Hi [= <- <-]. apply rows_kept_inv; [done|]. intros i r' Hr'. rewrite lookup_fmap in Hr'.
  destruct (mirrors s !! i) as [r|] eqn:E; [|done]. injection Hr' as <-. exists r. split; [done|].
  destruct (Hi i r E) as [Hok _]. destruct (lease_over now r && _); [|done].
  destruct Hok as (? & ? & _). by split_and!.
Qed.

Lemma claimable_budget now r : mirror_ok r -> claimable now r = true -> 0 <= m_attempt_count r < m_max_attempts r.
Proof.
  intros (Hb & _ & Hs) He. unfold claimable in He. apply orb_true_iff in He as [He|He].
  - apply andb_true_iff in He as [Hp%bool_decide_eq_true _]. rewrite Hp in Hs. lia.
  - apply andb_true_iff in He as [_ Hlt]. lia.
Qed.

Definition mirror_token (e : env) : string := newLeaseOwner "annotation-mirror" (uuid e).

Lemma mirror_token_some e : all_chars visible (uuid e) = true ->
  nullableString (mirror_token e) = Some (mirror_token e).
Proof.
  intros H. assert (Ht : mirror_token e = ("annotation-mirror-" ++ uuid e)%string) by reflexivity.
  unfold nullableString. rewrite TrimSpace_visible by (rewrite Ht; exact H). by rewrite Ht.
Qed.

Lemma select_mirror_spec now locked s i r : SelectAnnotationMirrorForUpdate now locked s = Some (i, r) ->
  mirrors s !! i = Some r /\ (i ∉ locked) /\ claimable now r = true.
Proof.
  unfold SelectAnnotationMirrorForUpdate. intros H%head_Some_elem_of.
  rewrite (merge_sort_Permutation sooner), list_elem_of_filter in H.
  destruct H as [[? ?] Hin%elem_of_map_to_list]. done.
Qed.

(** The row a claim leaves for the delivery it hands out. *)
Definition leased_row (e : env) (lease : Z) (r : mirror_row) : mirror_row :=
  with_mirror MProcessing (m_attempt_count r + 1) (m_next_attempt_at r)
    (Some (go_now e + if lease <=? 0 then 30 else lease)) (nullableString (mirror_token e)) (m_last_error r) (db_now e) r.

Definition delivery_of (e : env) (i : Z) (r : mirror_row) : AnnotationMirrorDelivery :=
  {| A_ItemImageID := i; A_Revision := m_revision r; A_Payload := m_payload r; A_LeaseOwner := mirror_token e;
     A_Attempt := m_attempt_count r + 1; A_MaxAttempts := m_max_attempts r |}.

Lemma claim_mirror_run e lease s d s' : ClaimAnnotationMirror e lease s = Ok (d, s') ->
  exists s1, FailExhaustedAnnotationMirrors (db_now e) s = Ok (tt, s1) /\
    ((d = None /\ s' = s1) \/
     exists i r, SelectAnnotationMirrorForUpdate (db_now e) (locked_rows e) s1 = Some (i, r) /\
       d = Some (delivery_of e i r) /\ s' = set_mirrors (<[i := leased_row e lease r]> (mirrors s1)) s1).
Proof.
  intros H. unfold ClaimAnnotationMirror in H. tx_bind H as u s1 H1. destruct u. exists s1. split; [done|].
  tx_bind H as row s2 H2. injection H2 as <- <-.
  destruct (SelectAnnotationMirrorForUpdate _ _ s1) as [[i r]|] eqn:Es; [|injection H as <- <-; by left].
  right. exists i, r. split; [done|]. pose proof (select_mirror_spec _ _ _ _ _ Es) as (Hr & _ & Hc).
  tx_bind H as n s3 H3. unfold MarkAnnotationMirrorProcessing, update_mirror in H3.
  rewrite Hr, Z.eqb_refl, Hc in H3. injection H3 as <- <-. by injection H as <- <-.
Qed.

Lemma claim_mirror_inv e lease s d s' : all_chars visible (uuid e) = true ->
  mirror_inv s -> ClaimAnnotationMirror e lease s = Ok (d, s') -> mirror_inv s'.
Proof.
  intros Hv Hi H. apply claim_mirror_run in H as (s1 & H1 & H). apply (fail_exhausted_inv _ _ _ _ Hi) in H1.
  destruct H as [[_ ->]|(i & r & Hs & _ & ->)]; [done|]. apply select_mirror_spec in Hs as (Hr & _ & Hc).
  apply rows_kept_inv; [done|]. intros j r' [[<- <-]|[_ Hr']]%lookup_insert_Some.
  - exists r. destruct (H1 i r Hr) as [Hok _]. pose proof (claimable_budget _ _ Hok Hc).
    split_and!; try done. split_and!; [cbn; lia..|]. cbn. rewrite mirror_token_some by done. split; [lia|]. eauto.
  - exists r'. split_and!; try done. by apply (H1 j).
Qed.

Lemma complete_mirror_inv d s u s' : mirror_inv s -> CompleteAnnotationMirror d s = Ok (u, s') -> mirror_inv s'.
Proof.
  intros Hi H. unfold CompleteAnnotationMirror, requireMirrorAffected in H. tx_bind H as n s1 H1.
  eapply update_mirror_inv in H1; [|done|done]. destruct (n =? 1); [by injection H as <- <-|done].
Qed.

Lemma retry_mirror_inv e d cause next s u s' :
  mirror_inv s -> RetryAnnotationMirror e d cause next s = Ok (u, s') -> mirror_inv s'.
Proof.
  intros Hi H. unfold RetryAnnotationMirror, requireMirrorAffected in H. tx_bind H as n s1 H1.
  eapply update_mirror_inv in H1; [|done|].
  - destruct (n =? 1); [by injection H as <- <-|done].
  - intros r r' (Hb & Hm & _) _ [= <-]. split; [|done]. unfold mirror_ok. cbn [m_attempt_count m_max_attempts with_mirror].
    split_and!; [lia..|]. cbn. destruct (m_max_attempts r <=? m_attempt_count r) eqn:E; [done|]. auto with lia.
Qed.

Lemma publish_mirror_inv e image revision payload s b s' :
  mirror_inv s -> publish_snapshot e image revision payload s = Ok (b, s') -> mirror_inv s'.
Proof.
  intros Hi H. apply publish_cases in H as [[-> ->]|(-> & previous & s2 & Hprev & Hrep & Hup)]; [done|].
  destruct (replace_published _ _ _ _ _ _ Hrep) as (_ & Hpub & Hmir). injection Hup as <-.
  intros i r Hr. cbn [set_mirrors mirrors published] in *. rewrite Hpub, Hmir in *. cbn [set_published mirrors published] in *.
  apply lookup_insert_Some in Hr as [[<- <-]|[Hne Hr]].
  - rewrite lookup_insert_eq. destruct (mirrors s !! image) as [r|] eqn:E; [|split; [|done]; by repeat split].
    destruct (Hi image r E) as [(? & ? & _) Hp].
    assert (Hlt : m_revision r < revision).
    { destruct Hprev as [[_ Hn]|(r0 & Hs & Hlt)]; congruence. }
    rewrite (proj2 (Z.gtb_lt _ _) Hlt). split; [|done]. by repeat split; cbn; try lia.
  - rewrite lookup_insert_ne by done. by apply Hi.
Qed.

(** ** Runs *)

Inductive mop :=
| OpPublish (e : env) (image revision : Z) (payload : string)
| OpAcknowledge (image : Z) (ids : list string)
| OpClaim (e : env) (lease : Z)
| OpComplete (d : AnnotationMirrorDelivery)
| OpRetry (e : env) (d : AnnotationMirrorDelivery) (cause : option string) (next : Z).

Definition mstep (s : mdb) (o : mop) : mdb :=
  match o with
  | OpPublish e image revision payload => (run_tx (publish_snapshot e image revision payload) s).2
  | OpAcknowledge image ids => (run_tx (AcknowledgeAnnotationMirrorTombstones image ids) s).2
  | OpClaim e lease => (run_tx (ClaimAnnotationMirror e lease) s).2
  | OpComplete d => (run_tx (CompleteAnnotationMirror d) s).2
  | OpRetry e d cause next => (run_tx (RetryAnnotationMirror e d cause next) s).2
  end.

Definition mop_ok (o : mop) : Prop :=
  match o with OpClaim e _ => all_chars visible (uuid e) = true | _ => True end.

Definition no_publications : mdb := {| mirrors := ∅; tombstones := ∅; published := ∅ |}.

(** The annotations of [image] that the remote store may hold after a run: what was
    published, less what was acknowledged as deleted while it was not public. *)
Fixpoint maybe_stored (image : Z) (g : gset string) (s : mdb) (ops : list mop) : gset string :=
  match ops with
  | [] => g
  | o :: ops' =>
      let s' := mstep s o in
      maybe_stored image
        match o with
        | OpPublish _ _ _ _ => g ∪ live s' image
        | OpAcknowledge i ids => if i =? image then g ∖ (list_to_set ids ∖ live s image) else g
        | _ => g
        end s' ops'
  end.

Lemma acknowledge_mirrors i ids s u s' :
  AcknowledgeAnnotationMirrorTombstones i ids s = Ok (u, s') -> published s' = published s /\ mirrors s' = mirrors s.
Proof.
  intros H. unfold AcknowledgeAnnotationMirrorTombstones in H. destruct (i =? 0); [done|].
  case_bool_decide; [by injection H as <- <-|]. tx_bind H as row s1 H1. injection H1 as <- <-.
  destruct (tombstones s !! i) as [t|]; [|by injection H as <- <-].
  tx_bind H as old s2 H2. apply tx_lift_Ok in H2 as [H2 ->]. apply store_tombstones_other in H. tauto.
Qed.

Lemma mstep_inv s o : mirror_inv s -> mop_ok o -> mirror_inv (mstep s o).
Proof.
  intros Hi Ho. destruct o; cbn [mstep]; apply run_tx_preserves; try done; intros a s' H.
  - by eapply publish_mirror_inv.
  - apply acknowledge_mirrors in H as [Hp Hm]. intros j r. rewrite Hp, Hm. apply Hi.
  - eapply claim_mirror_inv; [|done..]. exact Ho.
  - by eapply complete_mirror_inv.
  - by eapply retry_mirror_inv.
Qed.

Lemma update_mirror_rest image wh f s n s' : update_mirror image wh f s = Ok (n, s') ->
  published s' = published s /\ tombstones s' = tombstones s.
Proof.
  unfold update_mirror. destruct (mirrors s !! image) as [r|]; [destruct (wh r)|]; by intros [= <- <-].
Qed.

Lemma outbox_rest s o : match o with OpPublish _ _ _ _ | OpAcknowledge _ _ => False | _ => True end ->
  published (mstep s o) = published s /\ tombstones (mstep s o) = tombstones s.
Proof.
  intros Ho. destruct o; try done; cbn [mstep];
    apply (run_tx_preserves (fun t => published t = published s /\ tombstones t = tombstones s)); try done; intros a s' H.
  - apply claim_mirror_run in H as (s1 & [= <-] & [[_ ->]|(i & r & _ & _ & ->)]); done.
  - unfold CompleteAnnotationMirror, requireMirrorAffected in H. tx_bind H as n s1 H1.
    apply update_mirror_rest in H1. destruct (n =? 1); [by injection H as <- <-|done].
  - unfold RetryAnnotationMirror, requireMirrorAffected in H. tx_bind H as n s1 H1.
    apply update_mirror_rest in H1. destruct (n =? 1); [by injection H as <- <-|done].
Qed.

Lemma acknowledge_total image ids g s : image <> 0 -> remembers image g s ->
  exists s', AcknowledgeAnnotationMirrorTombstones image ids s = Ok (tt, s').
Proof.
  intros Hi (_ & _ & Hr). unfold AcknowledgeAnnotationMirrorTombstones.
  rewrite (proj2 (Z.eqb_neq _ _) Hi). destruct (bool_decide _); [by eexists|].
  unfold mbind, tx_bind, tx_reads. unfold removals in Hr. destruct (tombstones s !! image) as [t|]; [|by eexists].
  rewrite Hr. cbn. unfold store_tombstones. destruct (bool_decide _); by eexists.
Qed.

Lemma run_remembers image ops g s : image <> 0 -> remembers image g s ->
  remembers image (maybe_stored image g s ops) (foldl mstep s ops).
Proof.
  intros Hi. revert g s. induction ops as [|o ops IH]; intros g s Hrem; [done|]. cbn [foldl maybe_stored]. apply IH.
  assert (Hout : match o with OpPublish _ _ _ _ | OpAcknowledge _ _ => False | _ => True end ->
    remembers image g (mstep s o)).
  { intros Ho. destruct (outbox_rest s o Ho) as [Hp Ht].
    apply (remembers_same image g s); [by rewrite Hp|unfold removals; by rewrite Ht|done]. }
  destruct o as [e i revision payload|i ids| | |]; try (by apply Hout); cbn [mstep]; unfold run_tx.
  - destruct (publish_snapshot e i revision payload s) as [[b s']|] eqn:E; cbn [snd].
    + by eapply publish_remembers.
    + destruct Hrem as (? & ? & ?). by replace (g ∪ live s image) with g by set_solver.
  - destruct (Z.eqb_spec i image) as [-> |Hne].
    + destruct (acknowledge_total image ids g s Hi Hrem) as [s' E]. rewrite E. cbn [snd].
      pose proof (acknowledge_remembers image _ _ _ _ _ _ Hrem E) as H. by rewrite Z.eqb_refl in H.
    + destruct (AcknowledgeAnnotationMirrorTombstones i ids s) as [[u s']|] eqn:E; [|done]. cbn [snd].
      pose proof (acknowledge_remembers image _ _ _ _ _ _ Hrem E) as H. by rewrite (proj2 (Z.eqb_neq _ _) Hne) in H.
Qed.

Lemma load_remembers image g s : image <> 0 -> remembers image g s ->
  exists t, LoadAnnotationMirrorTombstones image s = Ok t /\ T_AnnotationIDs t = sorted_ids (g ∖ live s image).
Proof.
  intros Hi (_ & _ & Hr). unfold LoadAnnotationMirrorTombstones. rewrite (proj2 (Z.eqb_neq _ _) Hi).
  unfold removals in Hr. destruct (tombstones s !! image) as [t|].
  - rewrite Hr. cbn. by eexists.
  - injection Hr as <-. by eexists.
Qed.

Lemma no_publications_remember image : remembers image ∅ no_publications.
Proof. split_and!; [intros id; set_solver|done|]. unfold removals. cbn. f_equal. Qed.

(** C18: whatever the order of publications, deliveries and acknowledgements, the list
    of annotations to remove from the remote store loads, without repetition, and is
    exactly what was published once, is not in the public snapshot, and has not been
    acknowledged as deleted while it was not public. *)
Theorem removed_annotations_are_remembered image ops :
  image <> 0 ->
  let s := foldl mstep no_publications ops in
  exists t, LoadAnnotationMirrorTombstones image s = Ok t /\ NoDup (T_AnnotationIDs t) /\
    live s image ⊆ maybe_stored image ∅ no_publications ops /\
    forall id, id ∈ T_AnnotationIDs t <-> id ∈ maybe_stored image ∅ no_publications ops /\ (id ∉ live s image).
Proof.
  intros Hi s. pose proof (run_remembers image ops ∅ _ Hi (no_publications_remember image)) as Hrem.
  destruct (load_remembers _ _ _ Hi Hrem) as (t & Ht & Hids). exists t. split_and!; [done| | |].
  - rewrite Hids, sorted_ids_permutation. apply NoDup_elements.
  - apply Hrem.
  - intros id. rewrite Hids, sorted_ids_elem. apply elem_of_difference.
Qed.

(** ** Fencing *)

(** No other claim takes a row whose lease is live. *)
Lemma live_mirror_not_claimed e lease s d s' i r l :
  ClaimAnnotationMirror e lease s = Ok (d, s') -> mirrors s !! i = Some r -> m_status r = MProcessing ->
  m_lease_until r = Some l -> db_now e <= l ->
  mirrors s' !! i = Some r /\ match d with Some x => A_ItemImageID x <> i | None => True end.
Proof.
  intros H Hr Hst Hl Hnow. apply claim_mirror_run in H as (s1 & H1 & H).
  assert (Hover : lease_over (db_now e) r = false).
  { unfold lease_over. rewrite Hl, (proj2 (Z.ltb_ge l (db_now e)) Hnow). by rewrite andb_false_r. }
  assert (Hr1 : mirrors s1 !! i = Some r).
  { injection H1 as <-. cbn [set_mirrors mirrors]. rewrite lookup_fmap, Hr. cbn. by rewrite Hover. }
  destruct H as [[-> ->]|(j & r' & Hs & -> & ->)]; [done|]. apply select_mirror_spec in Hs as (Hr' & _ & Hc).
  assert (Hne : j <> i).
  { intros ->. rewrite Hr1 in Hr'. injection Hr' as <-. unfold claimable in Hc. by rewrite Hover, Hst in Hc. }
  split; [|exact Hne]. cbn [set_mirrors mirrors]. by rewrite lookup_insert_ne.
Qed.

Lemma refused image wh f s : (forall r, mirrors s !! image = Some r -> wh r = false) ->
  run_tx (requireMirrorAffected (update_mirror image wh f)) s = (Err MLease, s).
Proof.
  intros H. unfold run_tx, requireMirrorAffected, mbind, tx_bind, update_mirror.
  destruct (mirrors s !! image) as [r|]; [|done]. by rewrite (H r).
Qed.

(** The row of a delivery that was just handed out. *)
Lemma claimed_row e lease s d s' : mirror_inv s -> ClaimAnnotationMirror e lease s = Ok (Some d, s') ->
  exists r, mirrors s' !! A_ItemImageID d = Some (leased_row e lease r) /\ mirror_ok r /\
    0 <= m_attempt_count r < m_max_attempts r /\ d = delivery_of e (A_ItemImageID d) r /\
    published s' = published s /\ published s !! A_ItemImageID d = Some (A_Revision d, A_Payload d).
Proof.
  intros Hi H. apply claim_mirror_run in H as (s1 & H1 & [[? _]|(i & r & Hs & [= ->] & ->)]); [done|].
  pose proof (fail_exhausted_inv _ _ _ _ Hi H1) as Hi1. apply select_mirror_spec in Hs as (Hr & _ & Hc).
  destruct (Hi1 i r Hr) as [Hok Hp]. exists r. cbn [delivery_of A_ItemImageID A_Revision A_Payload set_mirrors mirrors published].
  rewrite lookup_insert_eq. assert (Hpub : published s1 = published s) by (by injection H1 as <-).
  rewrite <-Hpub. split_and!; try done; by eapply claimable_budget.
Qed.

Lemma leased_row_held e lease r : all_chars visible (uuid e) = true ->
  mirror_held (m_revision r) (nullableString (mirror_token e)) (leased_row e lease r) = true.
Proof.
  intros Hv. unfold mirror_held, leased_row. cbn [with_mirror m_revision m_status m_locked_by].
  by rewrite Z.eqb_refl, mirror_token_some, !bool_decide_eq_true_2 by done.
Qed.

(** The queued row after a newer snapshot was published. *)
Lemma published_row e image revision payload s s' r : mirror_inv s ->
  publish_snapshot e image revision payload s = Ok (true, s') -> mirrors s !! image = Some r ->
  m_revision r < revision /\ mirrors s' !! image = Some (replaced_mirror revision payload (db_now e) r).
Proof.
  intros Hi H Hr. apply publish_cases in H as [[? _]|(_ & previous & s2 & Hprev & Hrep & Hup)]; [done|].
  destruct (replace_published _ _ _ _ _ _ Hrep) as (_ & _ & Hmir). injection Hup as <-.
  destruct (Hi image r Hr) as [_ Hp].
  assert (Hlt : m_revision r < revision) by (destruct Hprev as [[_ Hn]|(r0 & Hs & Hlt)]; congruence).
  split; [done|]. cbn [set_mirrors mirrors]. rewrite lookup_insert_eq, Hmir. cbn [set_published mirrors].
  by rewrite Hr, (proj2 (Z.gtb_lt _ _) Hlt).
Qed.

(** A delivery that is handed out is the public snapshot, and within its budget;
    until its lease ends no other claim takes the image; once a newer snapshot is
    published, reports on the delivery are refused, and the new one is queued in
    place of it, due after the lease; otherwise success removes the row and failure
    makes it due again, or fails it when it was the last attempt. *)
Theorem mirror_deliveries_are_fenced e lease s d s' :
  all_chars visible (uuid e) = true -> mirror_inv s -> ClaimAnnotationMirror e lease s = Ok (Some d, s') ->
  let l := go_now e + if lease <=? 0 then 30 else lease in
  let image := A_ItemImageID d in
  (published s !! image = Some (A_Revision d, A_Payload d) /\ 1 <= A_Attempt d <= A_MaxAttempts d) /\
  (forall e2 lease2 d2 s2, db_now e2 <= l -> ClaimAnnotationMirror e2 lease2 s' = Ok (Some d2, s2) ->
     A_ItemImageID d2 <> image /\ mirrors s2 !! image = mirrors s' !! image) /\
  (forall e2 revision payload s2, publish_snapshot e2 image revision payload s' = Ok (true, s2) ->
     run_tx (CompleteAnnotationMirror d) s2 = (Err MLease, s2) /\
     (forall e3 cause next, run_tx (RetryAnnotationMirror e3 d cause next) s2 = (Err MLease, s2)) /\
     exists r, mirrors s2 !! image = Some r /\ m_revision r = revision /\ m_payload r = payload /\
       m_status r = MPending /\ m_attempt_count r = 0 /\ m_next_attempt_at r = Z.max (db_now e2) l) /\
  run_tx (CompleteAnnotationMirror d) s' = (Ok tt, set_mirrors (delete image (mirrors s')) s') /\
  forall e3 cause next, exists r,
     run_tx (RetryAnnotationMirror e3 d cause next) s' = (Ok tt, set_mirrors (<[image := r]> (mirrors s')) s') /\
     m_status r = (if A_Attempt d =? A_MaxAttempts d then MFailed else MPending) /\ m_next_attempt_at r = next /\
     m_lease_until r = None /\ m_locked_by r = None.
Proof.
  intros Hv Hi H l image. pose proof (claim_mirror_inv _ _ _ _ _ Hv Hi H) as Hi'.
  destruct (claimed_row _ _ _ _ _ Hi H) as (r & Hr & Hok & Hb & Hd & _ & Hp). fold image in Hr, Hd, Hp.
  assert (Hheld := leased_row_held e lease r Hv).
  assert (Hatt : A_Attempt d = m_attempt_count r + 1 /\ A_MaxAttempts d = m_max_attempts r /\
    A_Revision d = m_revision r /\ A_LeaseOwner d = mirror_token e) by (by rewrite Hd).
  destruct Hatt as (Ha & Hmax & Hrev & Hown). split_and!; [done|lia|lia| | | |].
  - intros e2 lease2 d2 s2 Hnow H2.
    destruct (live_mirror_not_claimed _ _ _ _ _ _ _ l H2 Hr) as [-> ?]; try done.
  - intros e2 revision payload s2 H2. destruct (published_row _ _ _ _ _ _ _ Hi' H2 Hr) as [Hlt Hr2].
    assert (Hno : forall x, mirrors s2 !! image = Some x ->
      mirror_held (A_Revision d) (nullableString (A_LeaseOwner d)) x = false).
    { intros x Hx. rewrite Hr2 in Hx. injection Hx as <-. unfold mirror_held. cbn in *. rewrite Hrev.
      by rewrite (proj2 (Z.eqb_neq revision (m_revision r))) by lia. }
    split_and!; [by apply refused|intros; by apply refused|]. eexists. split; [exact Hr2|]. by cbn.
  - unfold run_tx, CompleteAnnotationMirror, requireMirrorAffected, mbind, tx_bind, update_mirror. fold image.
    by rewrite Hr, Hrev, Hown, Hheld.
  - intros e3 cause next. eexists. split.
    + unfold run_tx, RetryAnnotationMirror, requireMirrorAffected, mbind, tx_bind, update_mirror. fold image.
      rewrite Hr, Hrev, Hown, Hheld. cbn. unfold insert, map_insert. reflexivity.
    + cbn. split; [|done]. rewrite Ha, Hmax.
      destruct (Z.eqb_spec (m_attempt_count r + 1) (m_max_attempts r)); destruct (Z.leb_spec (m_max_attempts r) (m_attempt_count r + 1));
        done || lia.
Qed.

(** The delay behind a lease lasts for one replacement only: when a second newer
    snapshot is published, the row is due at once, although the lease of the delivery
    that was handed out, with its remote writes, may still be live. *)
Theorem second_replacement_forgets_the_lease e lease s d s1 e2 revision2 payload2 s2 e3 revision3 payload3 s3 :
  mirror_inv s1 -> mirror_inv s2 -> mirror_inv s -> ClaimAnnotationMirror e lease s = Ok (Some d, s1) ->
  publish_snapshot e2 (A_ItemImageID d) revision2 payload2 s1 = Ok (true, s2) ->
  publish_snapshot e3 (A_ItemImageID d) revision3 payload3 s2 = Ok (true, s3) ->
  exists r, mirrors s3 !! A_ItemImageID d = Some r /\ m_next_attempt_at r = db_now e3 /\
    claimable (db_now e3) r = true.
Proof.
  intros Hi1 Hi2 Hi H H2 H3. destruct (claimed_row _ _ _ _ _ Hi H) as (r & Hr & _).
  destruct (published_row _ _ _ _ _ _ _ Hi1 H2 Hr) as [_ Hr2].
  destruct (published_row _ _ _ _ _ _ _ Hi2 H3 Hr2) as [_ Hr3].
  eexists. split; [exact Hr3|]. split; [cbn; lia|].
  unfold claimable. rewrite bool_decide_eq_true_2 by done. apply orb_true_iff. left. cbn. lia.
Qed.

End publication.

(** ** A concrete history *)

#[local] Existing Instances PageTheorems.demo_schema PageTheorems.demo_parse Resources.demo_annotation_schema.

Definition demo_env (now : Z) (id : string) : env :=
  {| db_now := now; go_now := now; locked_rows := ∅; uuid := id; hostname := None |}.
Definition child (n : string) : string := (PageTheorems.demo_page_id ++ "/items/0000000000000000000000000000000" ++ n)%string.

(** The normalised page with one annotation for each id. *)
Definition demo_page (children : list string) : string :=
  match DecodeJSON PageTheorems.demo_normalized with
  | Some (JObject m) =>
      Marshal (JObject (jset m "items" (JArray (flat_map (fun v => match v with
        | JObject item => map (fun c => JObject (jset item "id" (JString (child c)))) children
        | _ => []
        end) (page_items m)))))
  | _ => ""%string
  end.
Definition page_ab : string := Eval vm_compute in demo_page ["a"; "b"]%string.
Definition page_b : string := Eval vm_compute in demo_page ["b"]%string.
Definition page_ac : string := Eval vm_compute in demo_page ["a"; "c"]%string.

(** [b] is removed and acknowledged; [a] is removed, and comes back with [c]. *)
Definition demo_ops : list mop :=
  [OpPublish (demo_env 10 "") 7 1 page_ab; OpPublish (demo_env 20 "") 7 2 page_b;
   OpPublish (demo_env 30 "") 7 3 page_ac; OpAcknowledge 7 [child "a"]; OpClaim (demo_env 40 "x") 90].

Definition demo_claimable : mdb := Eval vm_compute in foldl mstep no_publications (take 4 demo_ops).
Definition demo_delivery : AnnotationMirrorDelivery :=
  {| A_ItemImageID := 7; A_Revision := 3; A_Payload := page_ac; A_LeaseOwner := "annotation-mirror-x";
     A_Attempt := 1; A_MaxAttempts := 20 |}.

Lemma removed_annotations_are_remembered_witness :
  exists t, LoadAnnotationMirrorTombstones 7 (foldl mstep no_publications demo_ops) = Ok t /\
    T_AnnotationIDs t = [child "b"] /\ NoDup (T_AnnotationIDs t).
Proof.
  destruct (removed_annotations_are_remembered 7 demo_ops ltac:(discriminate)) as (t & Ht & Hnd & _).
  exists t. split; [exact Ht|]. split; [|exact Hnd]. vm_compute in Ht. injection Ht as <-. reflexivity.
Defined.

Definition demo_claimed : mdb := Eval vm_compute in
  match ClaimAnnotationMirror (demo_env 40 "x") 90 demo_claimable with Ok (_, s) => s | Err _ => demo_claimable end.

Lemma demo_mirror_claim : ClaimAnnotationMirror (demo_env 40 "x") 90 demo_claimable = Ok (Some demo_delivery, demo_claimed).
Proof. vm_compute. reflexivity. Qed.

Lemma run_mirror_inv ops s : mirror_inv s -> Forall mop_ok ops -> mirror_inv (foldl mstep s ops).
Proof.
  intros Hi Hf. revert s Hi. induction Hf as [|o ops Ho _ IH]; intros s Hi; [done|]. by apply IH, mstep_inv.
Qed.

Lemma demo_claimable_inv : mirror_inv demo_claimable.
Proof.
  assert (H : foldl mstep no_publications (take 4 demo_ops) = demo_claimable) by (vm_compute; reflexivity).
  rewrite <-H. apply run_mirror_inv; [|by repeat constructor]. intros i r Hr. discriminate Hr.
Qed.

Lemma mirror_deliveries_are_fenced_witness :
  published demo_claimable !! 7 = Some (3, page_ac) /\
  run_tx (CompleteAnnotationMirror demo_delivery) demo_claimed
    = (Ok tt, set_mirrors (delete 7 (mirrors demo_claimed)) demo_claimed) /\
  forall e2 lease2 d2 s2, db_now e2 <= 130 ->
    ClaimAnnotationMirror e2 lease2 demo_claimed = Ok (Some d2, s2) -> A_ItemImageID d2 <> 7.
Proof.
  destruct (mirror_deliveries_are_fenced (demo_env 40 "x") 90 demo_claimable demo_delivery demo_claimed
    eq_refl demo_claimable_inv demo_mirror_claim) as ([Hp _] & Hex & _ & Hdone & _).
  split; [exact Hp|]. split; [exact Hdone|]. intros e2 lease2 d2 s2 Hnow H2. apply (Hex e2 lease2 d2 s2 Hnow H2).
Defined.

End MirrorTheorems.
