(* ===== verification/ItemDb.v ===== *)
(** * Items: the tables

    The rows the item store (internal/store/items.go) and the upload batches
    (upload_batches.go) own or reach: items, item_images, upload batches and their files,
    the transcription queue, and the tables of an image's descendants.  A payload column
    is its length, the timestamps no statement compares are left out.  Statements of
    the accounts run on a view of these tables ([quota]).

    Modules [ItemDb]: items: the tables;
    [ItemGraph]: items: the statements of the resource graph. *)

From Stdlib Require Import ZArith Lia Ascii String.
From stdpp Require Import base gmap strings list sorting.
From S2P Require Import Prelude GoStrings Json JobSchema MediaFragment Quota QuotaStore.

Module ItemDb.
Import GoStr Json Quota QuotaStore.
#[local] Open Scope Z_scope.

Inductive store_err :=
| Quota (e : quota_err)
| NoRows                 (* sql.ErrNoRows *)
| Required               (* a required argument is missing *)
| Duplicate | Constraint (* a statement violates a key or a CHECK *)
| BatchNotFound          (* ErrUploadBatchNotFound *)
| RequestMismatch        (* ErrUploadBatchRequestMismatch *)
| BatchCanceled          (* ErrUploadBatchCanceled *)
| BatchCompleted         (* ErrUploadBatchCompleted *)
| FileMismatch           (* ErrUploadBatchFileMismatch *)
| FileInProgress         (* ErrUploadBatchFileInProgress *)
| AttemptsExhausted      (* ErrUploadBatchFileAttemptsExhausted *)
| FileFence              (* ErrUploadBatchFileFence *)
| Replayed               (* not an error of the code: the early return that rolls a replay back *)
| ParentChanged | BadReference | BadCanvas | StagedMismatch | BytesOverflow.
#[export] Instance store_err_eq_dec : EqDecision store_err.
Proof. solve_decision. Defined.

(** ** Items and images *)

Record item_row := {
  t_workspace_id : Z; t_user_id : Z; t_name : string; t_document_type : option string;
  t_source_type : string; t_source_url : option string; t_source_manifest : option string; t_metadata : string;
  t_external_reference_id : string; t_caller_idempotency_key : string;
}.

Record item_image := {
  g_workspace_id : Z; g_item_id : string; g_sequence : Z; g_image_url : string; g_storage_bytes : Z;
  g_canvas_uri : option string; g_width : option Z; g_height : option Z; g_label : option string;
  g_hocr_url : option string;
}.

(** ** Upload batches *)

Inductive batch_status := InProgress | BCompleted | BCanceled.
#[export] Instance batch_status_eq_dec : EqDecision batch_status.
Proof. solve_decision. Defined.
Inductive file_status := FPending | FProcessing | FCompleted | FFailed | FCanceled.
#[export] Instance file_status_eq_dec : EqDecision file_status.
Proof. solve_decision. Defined.

Record batch_row := {
  b_item_id : string; b_context_id : option Z; b_context_scope_id : option Z; b_context_snapshot : json;
  b_request_hash : string; b_creation_token : string; b_status : batch_status;
  b_created_at : Z; b_updated_at : Z;
}.
#[export] Instance batch_row_eq_dec : EqDecision batch_row.
Proof. solve_decision. Defined.

Record file_row := {
  f_filename : string; f_size : Z; f_content_sha256 : string; f_status : file_status;
  f_attempt_count : Z; f_max_attempts : Z; f_lease_until : option Z; f_locked_by : option string;
  f_item_image_id : option Z; f_transcription_job_id : option Z; f_error_message : option string;
  f_created_at : Z; f_updated_at : Z;
}.
#[export] Instance file_row_eq_dec : EqDecision file_row.
Proof. solve_decision. Defined.

(** ** What hangs on an image *)

Record ocr_run := { n_workspace_id : Z; n_item_image_id : Z; n_context_id : option Z; n_bytes : Z }.
Record page_row := { p_bytes : Z; p_user_id : option Z }.   (* updated_by or published_by *)
Record audit_row := { u_workspace_id : Z; u_item_image_id : option Z; u_context_id : option Z; u_database_bytes : Z }.
Record review_token := { k_workspace_id : Z; k_item_id : string; k_item_image_id : Z; k_issued_by : Z }.
Record review_session := { ss_token : string; ss_grant : review_token }.
Record request_row := {
  r_workspace_id : Z; r_item_id : option string; r_item_image_id : option Z;
  r_transcription_job_id : option Z; r_session_id : option string;
}.

Record children := {
  review_sessions : gmap Z review_session;       (* editor_review_sessions *)
  review_tokens : gmap string review_token;      (* editor_review_tokens *)
  requests : gmap Z request_row;                 (* external_requests *)
  provider_audits : gmap Z audit_row;            (* provider_call_audits *)
  current_runs : gmap Z string;                  (* current_ocr_runs, by image *)
  ocr_runs : gmap string ocr_run;                (* by session *)
  mirrors : gset Z; tombstones : gset Z;         (* annotation_mirror_outbox, .._tombstones, by image *)
  published : gmap (Z * Z) page_row;             (* by workspace and image *)
  index : gmap (Z * Z * string) Z;               (* annotations: payload length *)
  ground_truth : gmap (Z * Z * Z) Z;             (* by workspace, image and revision *)
  pages : gmap (Z * Z) page_row;                 (* annotation_pages *)
}.

(** ** The queue and the accounts *)

Record queue_tables := {
  q_jobs : gmap Z Jobs.job_row; q_attempts : gmap (Z * Z) Jobs.attempt_row;
  q_checkpoints : gmap (Z * string) string; q_next_job_id : Z;
}.
Record accounts := {
  a_usages : gmap Z StorageQuotaUsage; a_reservations : gmap string reservation_row;
  a_cleanups : gmap (cleanup_kind * string) cleanup_row; a_next_cleanup_id : Z;
}.

Record context_row := { c_workspace_id : option Z; c_user_id : option Z; c_fields : obj }.
Definition c_scope_id (c : context_row) : Z := default 0 (c_workspace_id c).

Record idb := {
  users : gset Z; tenants : gset Z;              (* users, workspaces *)
  members : gset (Z * Z);                        (* workspace_members: workspace and user *)
  contexts : gmap Z context_row;
  acc : accounts; queue : queue_tables; kids : children;
  items : gmap string item_row;
  images : gmap Z item_image; next_image_id : Z;
  batches : gmap (Z * string) batch_row;
  files : gmap (Z * string * Z) file_row;
}.
Abbreviation itx := (tx idb store_err).

Definition set_acc (x : accounts) (s : idb) : idb :=
  {| users := users s; tenants := tenants s; members := members s; contexts := contexts s; acc := x;
     queue := queue s; kids := kids s; items := items s; images := images s; next_image_id := next_image_id s;
     batches := batches s; files := files s |}.
Definition set_queue (x : queue_tables) (s : idb) : idb :=
  {| users := users s; tenants := tenants s; members := members s; contexts := contexts s; acc := acc s;
     queue := x; kids := kids s; items := items s; images := images s; next_image_id := next_image_id s;
     batches := batches s; files := files s |}.
Definition set_kids (x : children) (s : idb) : idb :=
  {| users := users s; tenants := tenants s; members := members s; contexts := contexts s; acc := acc s;
     queue := queue s; kids := x; items := items s; images := images s; next_image_id := next_image_id s;
     batches := batches s; files := files s |}.
Definition set_items (x : gmap string item_row) (s : idb) : idb :=
  {| users := users s; tenants := tenants s; members := members s; contexts := contexts s; acc := acc s;
     queue := queue s; kids := kids s; items := x; images := images s; next_image_id := next_image_id s;
     batches := batches s; files := files s |}.
Definition set_images (x : gmap Z item_image) (n : Z) (s : idb) : idb :=
  {| users := users s; tenants := tenants s; members := members s; contexts := contexts s; acc := acc s;
     queue := queue s; kids := kids s; items := items s; images := x; next_image_id := n;
     batches := batches s; files := files s |}.
Definition set_batches (x : gmap (Z * string) batch_row) (s : idb) : idb :=
  {| users := users s; tenants := tenants s; members := members s; contexts := contexts s; acc := acc s;
     queue := queue s; kids := kids s; items := items s; images := images s; next_image_id := next_image_id s;
     batches := x; files := files s |}.
Definition set_files (x : gmap (Z * string * Z) file_row) (s : idb) : idb :=
  {| users := users s; tenants := tenants s; members := members s; contexts := contexts s; acc := acc s;
     queue := queue s; kids := kids s; items := items s; images := images s; next_image_id := next_image_id s;
     batches := batches s; files := x |}.

(** ** The accounts' view

    An image is counted for the workspace of its item (the quota queries join the two). *)

Definition rows {K A} `{Countable K} (m : gmap K A) : list A := snd <$> map_to_list m.

Definition joined_image (s : idb) (g : item_image) : option image_row :=
  t ← items s !! g_item_id g;
  Some {| i_workspace_id := t_workspace_id t; i_image_url := g_image_url g; i_storage_bytes := g_storage_bytes g |}.

Definition manifest_bytes (t : item_row) : Z :=
  match t_source_manifest t with Some m => Z.of_nat (String.length m) | None => 0 end.

(** What [RebuildStorageQuotaUsageRows] sums as database bytes, by workspace. *)
Definition run_payload (s : idb) (r : ocr_run) : option (Z * Z) :=
  g ← images s !! n_item_image_id r; t ← items s !! g_item_id g; Some (t_workspace_id t, n_bytes r).
Definition payloads (s : idb) : list (Z * Z) :=
  omap (run_payload s) (rows (ocr_runs (kids s))) ++
  ((fun kp => (kp.1.1, p_bytes kp.2)) <$> map_to_list (pages (kids s))) ++
  ((fun kp => (kp.1.1.1, kp.2)) <$> map_to_list (ground_truth (kids s))) ++
  ((fun kp => (kp.1.1.1, kp.2)) <$> map_to_list (index (kids s))) ++
  ((fun kp => (kp.1.1, p_bytes kp.2)) <$> map_to_list (published (kids s))) ++
  ((fun t => (t_workspace_id t, manifest_bytes t)) <$> rows (items s)) ++
  ((fun a => (u_workspace_id a, u_database_bytes a)) <$> rows (provider_audits (kids s))).

Definition qview (s : idb) : qdb :=
  {| usages := a_usages (acc s); reservations := a_reservations (acc s); cleanups := a_cleanups (acc s);
     next_cleanup_id := a_next_cleanup_id (acc s); workspaces := tenants s;
     item_rows := t_workspace_id <$> rows (items s); image_rows := omap (joined_image s) (rows (images s));
     payload_rows := payloads s |}.

Definition set_accounts (q : qdb) (s : idb) : idb :=
  set_acc {| a_usages := usages q; a_reservations := reservations q; a_cleanups := cleanups q;
             a_next_cleanup_id := next_cleanup_id q |} s.

(** A statement or function of the accounts inside a transaction of another store. *)
Definition quota {A} (m : qtx A) : itx A := fun s =>
  match m (qview s) with
  | Ok (a, q) => Ok (a, set_accounts q s)
  | Err e => Err (Quota e)
  end.

(** The queue's tables as the queue's own database. *)
Definition jview (s : idb) : Jobs.db :=
  {| Jobs.jobs := q_jobs (queue s); Jobs.attempts := q_attempts (queue s);
     Jobs.checkpoints := q_checkpoints (queue s); Jobs.next_job_id := q_next_job_id (queue s);
     Jobs.request_jobs := ∅; Jobs.file_jobs := ∅; Jobs.outbox := ∅; Jobs.deliveries := ∅;
     Jobs.par := {| Jobs.workspaces := tenants s; Jobs.item_images := ∅; Jobs.items := ∅; Jobs.pages := ∅;
                    Jobs.contexts := ∅; Jobs.subscriptions := ∅ |} |}.

Definition one_of {A} (f : idb -> option A) : itx A := o ← tx_reads f; tx_lift (of_option NoRows o).
End ItemDb.

(** * Items: the statements of the resource graph

    The statements of internal/db/resource_graph.sql.go, editor_review.sql.go,
    transcription_checkpoints.sql.go, items_workspace.sql.go and the two measuring queries of
    storage_quota.sql.go, and [deleteItemResourceGraph] of internal/store/items.go. *)

Module ItemGraph.
Import GoStr Json Quota QuotaStore ItemDb.
#[local] Open Scope Z_scope.

(** ** Which images a statement is about

    [target.workspace_id = ? AND target.item_id = ? AND (? = 0 OR target.id = ?)]; an
    [img] of 0 means every image of the item. *)

Definition chosen (img id : Z) : bool := (img =? 0) || (id =? img).
Definition target (s : idb) (ws : Z) (item : string) (img id : Z) : bool :=
  match images s !! id with
  | Some g => (g_workspace_id g =? ws) && bool_decide (g_item_id g = item) && chosen img id
  | None => false
  end.

(** The image of the item, without a check of the image's own workspace. *)
Definition image_of (s : idb) (item : string) (img id : Z) : bool :=
  match images s !! id with
  | Some g => bool_decide (g_item_id g = item) && chosen img id
  | None => false
  end.
Definition job_of (s : idb) (ws : Z) (p : Z -> bool) (id : Z) : bool :=
  match q_jobs (queue s) !! id with
  | Some j => (Jobs.k_workspace_id (Jobs.j_key j) =? ws) && p (Jobs.k_item_image_id (Jobs.j_key j))
  | None => false
  end.
Definition some_is {A} (p : A -> bool) (o : option A) : bool := match o with Some a => p a | None => false end.

(** ** Changing the children *)

Section with_kids.
Context (k : children).
Definition with_sessions x := {| review_sessions := x; review_tokens := review_tokens k; requests := requests k;
  provider_audits := provider_audits k; current_runs := current_runs k; ocr_runs := ocr_runs k; mirrors := mirrors k;
  tombstones := tombstones k; published := published k; index := index k; ground_truth := ground_truth k; pages := pages k |}.
Definition with_tokens x := {| review_sessions := review_sessions k; review_tokens := x; requests := requests k;
  provider_audits := provider_audits k; current_runs := current_runs k; ocr_runs := ocr_runs k; mirrors := mirrors k;
  tombstones := tombstones k; published := published k; index := index k; ground_truth := ground_truth k; pages := pages k |}.
Definition with_requests x := {| review_sessions := review_sessions k; review_tokens := review_tokens k; requests := x;
  provider_audits := provider_audits k; current_runs := current_runs k; ocr_runs := ocr_runs k; mirrors := mirrors k;
  tombstones := tombstones k; published := published k; index := index k; ground_truth := ground_truth k; pages := pages k |}.
Definition with_audits x := {| review_sessions := review_sessions k; review_tokens := review_tokens k; requests := requests k;
  provider_audits := x; current_runs := current_runs k; ocr_runs := ocr_runs k; mirrors := mirrors k;
  tombstones := tombstones k; published := published k; index := index k; ground_truth := ground_truth k; pages := pages k |}.
Definition with_runs x y := {| review_sessions := review_sessions k; review_tokens := review_tokens k; requests := requests k;
  provider_audits := provider_audits k; current_runs := x; ocr_runs := y; mirrors := mirrors k;
  tombstones := tombstones k; published := published k; index := index k; ground_truth := ground_truth k; pages := pages k |}.
Definition with_mirrors x y := {| review_sessions := review_sessions k; review_tokens := review_tokens k; requests := requests k;
  provider_audits := provider_audits k; current_runs := current_runs k; ocr_runs := ocr_runs k; mirrors := x;
  tombstones := y; published := published k; index := index k; ground_truth := ground_truth k; pages := pages k |}.
Definition with_pages x y z w := {| review_sessions := review_sessions k; review_tokens := review_tokens k; requests := requests k;
  provider_audits := provider_audits k; current_runs := current_runs k; ocr_runs := ocr_runs k; mirrors := mirrors k;
  tombstones := tombstones k; published := x; index := y; ground_truth := z; pages := w |}.
End with_kids.

Definition on_kids (f : idb -> children -> children) : itx unit := tx_modify (fun s => set_kids (f s (kids s)) s).
Definition on_queue (f : idb -> queue_tables -> queue_tables) : itx unit := tx_modify (fun s => set_queue (f s (queue s)) s).

(** ** Deletes *)

Section graph.
Context (ws : Z) (item : string) (img : Z).

Definition grant_here (g : review_token) : bool :=
  (k_workspace_id g =? ws) && bool_decide (k_item_id g = item) && chosen img (k_item_image_id g).

Definition DeleteEditorReviewSessionsForItemResourceGraph : itx unit := on_kids (fun _ k =>
  with_sessions k (filter (fun kv => grant_here (ss_grant kv.2) = false) (review_sessions k))).
Definition DeleteEditorReviewTokensForItemResourceGraph : itx unit := on_kids (fun _ k =>
  with_tokens k (filter (fun kv => grant_here kv.2 = false) (review_tokens k))).

Definition request_here (s : idb) (r : request_row) : bool :=
  (r_workspace_id r =? ws) &&
  (((img =? 0) && bool_decide (r_item_id r = Some item))
   || some_is (target s ws item img) (r_item_image_id r)
   || some_is (job_of s ws (target s ws item img)) (r_transcription_job_id r)
   || some_is (fun sid => match ocr_runs (kids s) !! sid with
                          | Some n => target s ws item img (n_item_image_id n) && (n_workspace_id n =? ws)
                          | None => false
                          end) (r_session_id r)).
Definition DeleteExternalRequestsForItemResourceGraph : itx unit := on_kids (fun s k =>
  with_requests k (filter (fun kv => request_here s kv.2 = false) (requests k))).

Definition file_of_item (s : idb) (k : Z * string * Z) : bool :=
  (k.1.1 =? ws) && match batches s !! (ws, k.1.2) with Some b => bool_decide (b_item_id b = item) | None => false end.
Definition DeleteUploadBatchFilesForItemResourceGraph : itx unit :=
  tx_modify (fun s => set_files (filter (fun kf => file_of_item s kf.1 = false) (files s)) s).

(** The detach: [item_image_id] and the job go, [updated_at] always moves on. *)
Definition detached (now : Z) (f : file_row) : file_row :=
  {| f_filename := f_filename f; f_size := f_size f; f_content_sha256 := f_content_sha256 f; f_status := f_status f;
     f_attempt_count := f_attempt_count f; f_max_attempts := f_max_attempts f; f_lease_until := f_lease_until f;
     f_locked_by := f_locked_by f; f_item_image_id := None; f_transcription_job_id := None;
     f_error_message := f_error_message f; f_created_at := f_created_at f;
     f_updated_at := Z.max (f_updated_at f + 1) now |}.
Definition file_of_image (s : idb) (k : Z * string * Z) (f : file_row) : bool :=
  (k.1.1 =? ws) && (match images s !! img with
                    | Some g => (g_workspace_id g =? ws) && bool_decide (g_item_id g = item) | None => false end)
  && (bool_decide (f_item_image_id f = Some img)
      || some_is (job_of s ws (fun i => i =? img)) (f_transcription_job_id f)).
Definition DetachUploadBatchFilesForItemImageResourceGraph (now : Z) : itx unit :=
  tx_modify (fun s => set_files (map_imap (fun k f => Some (if file_of_image s k f then detached now f else f)) (files s)) s).

Definition DeleteCheckpointsForItemResourceGraph : itx unit := on_queue (fun s q =>
  {| q_jobs := q_jobs q; q_attempts := q_attempts q; q_next_job_id := q_next_job_id q;
     q_checkpoints := filter (fun kv => job_of s ws (image_of s item img) kv.1.1 = false) (q_checkpoints q) |}).
Definition DeleteTranscriptionAttemptsForItemResourceGraph : itx unit := on_queue (fun s q =>
  {| q_jobs := q_jobs q; q_attempts := filter (fun kv => job_of s ws (target s ws item img) kv.1.1 = false) (q_attempts q);
     q_next_job_id := q_next_job_id q; q_checkpoints := q_checkpoints q |}).
Definition DeleteTranscriptionJobsForItemResourceGraph : itx unit := on_queue (fun s q =>
  {| q_jobs := filter (fun kv => job_of s ws (target s ws item img) kv.1 = false) (q_jobs q);
     q_attempts := q_attempts q; q_next_job_id := q_next_job_id q; q_checkpoints := q_checkpoints q |}).

Definition DeleteProviderAuditsForItemResourceGraph : itx unit := on_kids (fun s k =>
  with_audits k (filter (fun kv =>
    (u_workspace_id kv.2 =? ws) && some_is (target s ws item img) (u_item_image_id kv.2) = false) (provider_audits k))).
Definition DeleteCurrentOCRRunsForItemResourceGraph : itx unit := on_kids (fun s k =>
  with_runs k (filter (fun kv => target s ws item img kv.1 = false) (current_runs k)) (ocr_runs k)).
Definition DeleteOCRRunsForItemResourceGraph : itx unit := on_kids (fun s k =>
  with_runs k (current_runs k) (filter (fun kv =>
    (n_workspace_id kv.2 =? ws) && target s ws item img (n_item_image_id kv.2) = false) (ocr_runs k))).
Definition DeleteAnnotationMirrorsForItemResourceGraph : itx unit := on_kids (fun s k =>
  with_mirrors k (filter (fun i => target s ws item img i = false) (mirrors k)) (tombstones k)).
Definition DeleteAnnotationMirrorTombstonesForItemResourceGraph : itx unit := on_kids (fun s k =>
  with_mirrors k (mirrors k) (filter (fun i => target s ws item img i = false) (tombstones k))).
Definition DeletePublishedPagesForItemResourceGraph : itx unit := on_kids (fun s k =>
  with_pages k (filter (fun kv => (kv.1.1 =? ws) && target s ws item img kv.1.2 = false) (published k))
    (index k) (ground_truth k) (pages k)).
Definition DeleteAnnotationIndexForItemResourceGraph : itx unit := on_kids (fun s k =>
  with_pages k (published k) (filter (fun kv => (kv.1.1.1 =? ws) && target s ws item img kv.1.1.2 = false) (index k))
    (ground_truth k) (pages k)).
Definition DeleteGroundTruthForItemResourceGraph : itx unit := on_kids (fun s k =>
  with_pages k (published k) (index k)
    (filter (fun kv => (kv.1.1.1 =? ws) && target s ws item img kv.1.1.2 = false) (ground_truth k)) (pages k)).
Definition DeleteAnnotationPagesForItemResourceGraph : itx unit := on_kids (fun s k =>
  with_pages k (published k) (index k) (ground_truth k)
    (filter (fun kv => (kv.1.1 =? ws) && target s ws item img kv.1.2 = false) (pages k))).

Definition DeleteUploadBatchesForItemResourceGraph : itx unit :=
  tx_modify (fun s => set_batches (filter (fun kb =>
    (kb.1.1 =? ws) && bool_decide (b_item_id kb.2 = item) = false) (batches s)) s).
Definition DeleteItemImagesForItemResourceGraph : itx unit :=
  tx_modify (fun s => set_images (filter (fun kg =>
    (g_workspace_id kg.2 =? ws) && bool_decide (g_item_id kg.2 = item) = false) (images s)) (next_image_id s) s).

(** The image joined with its item; the number of rows it deletes. *)
Definition image_in (s : idb) (id : Z) : option item_image :=
  match images s !! id with
  | Some g => match items s !! g_item_id g with
              | Some t => if t_workspace_id t =? ws then Some g else None
              | None => None
              end
  | None => None
  end.
Definition DeleteItemImageForWorkspaceManual (id : Z) : itx Z := fun s =>
  match image_in s id with
  | Some _ => Ok (1, set_images (delete id (images s)) (next_image_id s) s)
  | None => Ok (0, s)
  end.
Definition requireDeletedRow (m : itx Z) : itx unit := n ← m; if n =? 1 then mret tt else tx_fail NoRows.

Definition LockCheckpointJobsForItemResourceGraph : itx (list Z) :=
  tx_reads (fun s => merge_sort Z.le (filter (fun id => job_of s ws (image_of s item img) id = true)
                                        (elements (dom (q_jobs (queue s)))))).
End graph.

(** ** internal/store/items.go *)

Definition deleteItemResourceGraph (now ws : Z) (itemID : string) (img : Z) : itx unit :=
  if (ws =? 0) || bool_decide (TrimSpace itemID = ""%string) then tx_fail Required else
  let item := TrimSpace itemID in
  _ ← LockCheckpointJobsForItemResourceGraph ws item img;
  _ ← DeleteEditorReviewSessionsForItemResourceGraph ws item img;
  _ ← DeleteEditorReviewTokensForItemResourceGraph ws item img;
  _ ← DeleteExternalRequestsForItemResourceGraph ws item img;
  _ ← (if img =? 0 then DeleteUploadBatchFilesForItemResourceGraph ws item
       else DetachUploadBatchFilesForItemImageResourceGraph ws item img now);
  _ ← DeleteCheckpointsForItemResourceGraph ws item img;
  _ ← DeleteTranscriptionAttemptsForItemResourceGraph ws item img;
  _ ← DeleteTranscriptionJobsForItemResourceGraph ws item img;
  _ ← DeleteProviderAuditsForItemResourceGraph ws item img;
  _ ← DeleteCurrentOCRRunsForItemResourceGraph ws item img;
  _ ← DeleteOCRRunsForItemResourceGraph ws item img;
  _ ← DeleteAnnotationMirrorsForItemResourceGraph ws item img;
  _ ← DeleteAnnotationMirrorTombstonesForItemResourceGraph ws item img;
  _ ← DeletePublishedPagesForItemResourceGraph ws item img;
  _ ← DeleteAnnotationIndexForItemResourceGraph ws item img;
  _ ← DeleteGroundTruthForItemResourceGraph ws item img;
  _ ← DeleteAnnotationPagesForItemResourceGraph ws item img;
  if img =? 0 then
    _ ← DeleteUploadBatchesForItemResourceGraph ws item;
    DeleteItemImagesForItemResourceGraph ws item
  else requireDeletedRow (DeleteItemImageForWorkspaceManual ws img).

(** ** Measuring *)

Definition total (l : list Z) : Z := foldr Z.add 0 l.
Definition summed {K A} `{Countable K} (m : gmap K A) (p : K -> A -> bool) (f : A -> Z) : Z :=
  total (omap (fun kv => if p kv.1 kv.2 then Some (f kv.2) else None) (map_to_list m)).

(** [CAST(.. AS UNSIGNED)] read into an [int64]. *)
Definition measure (f : idb -> Z) : itx Z := fun s =>
  if f s <=? MaxInt64 then Ok (f s, s) else Err (Quota EScan).

Definition GetItemImageDurableDatabaseBytes (ws img : Z) (s : idb) : Z :=
  summed (ocr_runs (kids s)) (fun _ n => n_item_image_id n =? img) n_bytes
  + summed (pages (kids s)) (fun k _ => (k.1 =? ws) && (k.2 =? img)) p_bytes
  + summed (ground_truth (kids s)) (fun k _ => (k.1.1 =? ws) && (k.1.2 =? img)) id
  + summed (index (kids s)) (fun k _ => (k.1.1 =? ws) && (k.1.2 =? img)) id
  + summed (published (kids s)) (fun k _ => (k.1 =? ws) && (k.2 =? img)) p_bytes
  + summed (provider_audits (kids s)) (fun _ a => (u_workspace_id a =? ws)
      && some_is (fun i => (i =? img) && bool_decide (is_Some (images s !! i))) (u_item_image_id a)) u_database_bytes.

Definition of_item (s : idb) (item : string) (i : Z) : bool := image_of s item 0 i.
Definition GetItemDurableDatabaseBytes (ws : Z) (item : string) (s : idb) : Z :=
  summed (items s) (fun k t => (t_workspace_id t =? ws) && bool_decide (k = item)) manifest_bytes
  + summed (ocr_runs (kids s)) (fun _ n => match images s !! n_item_image_id n with
      | Some g => bool_decide (g_item_id g = item) && some_is (fun t => t_workspace_id t =? ws) (items s !! item)
      | None => false end) n_bytes
  + summed (pages (kids s)) (fun k _ => (k.1 =? ws) && of_item s item k.2) p_bytes
  + summed (ground_truth (kids s)) (fun k _ => (k.1.1 =? ws) && of_item s item k.1.2) id
  + summed (index (kids s)) (fun k _ => (k.1.1 =? ws) && of_item s item k.1.2) id
  + summed (published (kids s)) (fun k _ => (k.1 =? ws) && of_item s item k.2) p_bytes
  + summed (provider_audits (kids s)) (fun _ a => (u_workspace_id a =? ws)
      && some_is (of_item s item) (u_item_image_id a)) u_database_bytes.

Definition itemImageDurableDatabaseBytes (ws img : Z) : itx Z := measure (GetItemImageDurableDatabaseBytes ws img).
Definition itemDurableDatabaseBytes (ws : Z) (item : string) : itx Z := measure (GetItemDurableDatabaseBytes ws item).
End ItemGraph.
