(* ===== verification/ItemOps.v ===== *)
(** * Items: the operations of internal/store/items.go *)

From Stdlib Require Import ZArith Lia Ascii String.
From stdpp Require Import base gmap strings list sorting.
From S2P Require Import Prelude GoStrings Json JobSchema JobStore MediaFragment Quota QuotaStore QuotaOps ItemDb.

Module ItemOps.
Import GoStr Json JobStore MediaFragment UploadRef Quota QuotaStore QuotaOps ItemDb ItemGraph.
#[local] Open Scope Z_scope.

(** ** Statements *)

Definition LockWorkspaceMemberRole (ws user : Z) : itx unit :=
  one_of (fun s => if bool_decide ((ws, user) ∈ members s) then Some tt else None).
Definition LockItemForCleanup (ws : Z) (id : string) : itx unit :=
  one_of (fun s => t ← items s !! id; if t_workspace_id t =? ws then Some tt else None).
Definition LockItemForUseManual := LockItemForCleanup.
Definition GetItem (id : string) : itx item_row := one_of (fun s => items s !! id).
Definition LockItemImageForCleanup (ws id : Z) : itx item_image := one_of (fun s => image_in ws s id).

(** A row of [ListItemImagesForCleanup], in the order of the ids. *)
Record cleanup_image := { ci_id : Z; ci_image_url : string; ci_storage_bytes : Z; ci_workspace_id : Z }.
Definition by_id {A} (a b : Z * A) : Prop := a.1 <= b.1.
#[export] Instance by_id_dec {A} (a b : Z * A) : Decision (by_id a b).
Proof. unfold by_id. apply _. Defined.
Definition ListItemImagesForCleanup (ws : Z) (item : string) (s : idb) : list cleanup_image :=
  (fun kg => {| ci_id := kg.1; ci_image_url := g_image_url kg.2; ci_storage_bytes := g_storage_bytes kg.2;
                ci_workspace_id := ws |}) <$>
  merge_sort by_id (filter (fun kg => g_item_id kg.2 = item /\ is_Some (image_in ws s kg.1)) (map_to_list (images s))).

(** internal/db/mapping.go *)
Definition db_nullableString (v : string) : option string := if bool_decide (v = ""%string) then None else Some v.
Definition rawJSON (v : string) : string := if bool_decide (TrimSpace v = ""%string) then "{}" else v.

Record CreateItemParams := {
  C_DocumentType : string; C_ID : string; C_UserID : Z; C_WorkspaceID : Z; C_Name : string; C_SourceType : string;
  C_SourceURL : string; C_SourceManifest : string; C_Metadata : string; C_ExternalReferenceID : string;
  C_CallerIdempotencyKey : string;
}.
Definition source_types : list string := ["url"; "upload"; "manifest"; "hocr"]%string.
Definition created_item (p : CreateItemParams) : item_row :=
  {| t_workspace_id := C_WorkspaceID p; t_user_id := C_UserID p; t_name := C_Name p;
     t_document_type := db_nullableString (C_DocumentType p); t_source_type := C_SourceType p;
     t_source_url := db_nullableString (C_SourceURL p); t_source_manifest := db_nullableString (C_SourceManifest p);
     t_metadata := rawJSON (C_Metadata p); t_external_reference_id := C_ExternalReferenceID p;
     t_caller_idempotency_key := C_CallerIdempotencyKey p |}.
Definition CreateItem (p : CreateItemParams) : itx unit := fun s =>
  if negb (bool_decide (C_SourceType p ∈ source_types)) then Err Constraint else
  match items s !! C_ID p with
  | Some _ => Err Duplicate
  | None => Ok (tt, set_items (<[C_ID p := created_item p]> (items s)) s)
  end.

Record CreateItemImageParams := {
  G_ItemID : string; G_Sequence : Z; G_ImageURL : string; G_StorageBytes : Z; G_CanvasURI : string;
  G_Width : Z; G_Height : Z; G_Label : string; G_HocrURL : string;
}.
Definition nullableImageDimension (v : Z) : result store_err (option Z) :=
  if v =? 0 then Ok None else if v >? MaxInt32 then Err Constraint else Ok (Some v).

(** UNIQUE KEY uq_item_images_item_seq *)
Definition image_at (s : idb) (item : string) (seq : Z) : option Z :=
  fst <$> head (filter (fun kg => g_item_id kg.2 = item /\ g_sequence kg.2 = seq) (map_to_list (images s))).

(** Without the item no row is inserted and the last insert id is 0, which [GetItemImage]
    does not find. *)
Definition CreateItemImage (p : CreateItemImageParams) : itx Z := fun s =>
  match nullableImageDimension (G_Width p), nullableImageDimension (G_Height p) with
  | Ok w, Ok h =>
      match items s !! G_ItemID p with
      | None => Err NoRows
      | Some t =>
          match image_at s (G_ItemID p) (G_Sequence p) with
          | Some _ => Err Duplicate
          | None =>
              let g := {| g_workspace_id := t_workspace_id t; g_item_id := G_ItemID p; g_sequence := G_Sequence p;
                          g_image_url := G_ImageURL p; g_storage_bytes := G_StorageBytes p;
                          g_canvas_uri := db_nullableString (G_CanvasURI p); g_width := w; g_height := h;
                          g_label := db_nullableString (G_Label p); g_hocr_url := db_nullableString (G_HocrURL p) |} in
              Ok (next_image_id s, set_images (<[next_image_id s := g]> (images s)) (next_image_id s + 1) s)
          end
      end
  | _, _ => Err Constraint
  end.

Definition with_canvas (uri : option string) (g : item_image) : item_image :=
  {| g_workspace_id := g_workspace_id g; g_item_id := g_item_id g; g_sequence := g_sequence g;
     g_image_url := g_image_url g; g_storage_bytes := g_storage_bytes g; g_canvas_uri := uri; g_width := g_width g;
     g_height := g_height g; g_label := g_label g; g_hocr_url := g_hocr_url g |}.
Definition UpdateItemImageCanvasURI (id : Z) (uri : string) : itx unit :=
  tx_modify (fun s => set_images (alter (with_canvas (db_nullableString uri)) id (images s)) (next_image_id s) s).
Definition canvas_missing (g : item_image) : bool :=
  match g_canvas_uri g with None => true | Some u => bool_decide (u = ""%string) end.
Definition SetItemImageCanvasURIIfMissing (id : Z) (uri : string) : itx unit :=
  tx_modify (fun s => set_images (alter (fun g => if canvas_missing g then with_canvas (db_nullableString uri) g else g)
                                    id (images s)) (next_image_id s) s).

Definition DeleteItemForWorkspaceManual (ws : Z) (id : string) : itx Z := fun s =>
  match items s !! id with
  | Some t => if t_workspace_id t =? ws then Ok (1, set_items (delete id (items s)) s) else Ok (0, s)
  | None => Ok (0, s)
  end.

(** ** Scheduling the deletion of what lives outside the database *)

Definition tripletDeleteGracePeriod : Z := 90.

Definition enqueueTripletImageCleanup (e : env) (img ws now : Z) : itx unit :=
  quota (UpsertResourceCleanup (db_now e) TripletPresentationImage (itoa img) ws 0 (now + tripletDeleteGracePeriod)).

Definition enqueueTripletItemCleanup (e : env) (itemID : string) (ws now : Z) : itx unit :=
  if bool_decide (TrimSpace itemID = ""%string) || (ws =? 0) then tx_fail Required else
  quota (UpsertResourceCleanup (db_now e) TripletPresentationItem (TrimSpace itemID) ws 0 (now + tripletDeleteGracePeriod)).

Definition string_le (a b : string) : Prop := String.compare a b <> Gt.

Section operations.
Context `{UrlParser}.

Definition enqueueImageCleanup (e : env) (img : Z) (url : string) (ws bytes now : Z) : itx unit :=
  _ ← match ImmutableNameFromURL url with
      | Some name => quota (UpsertResourceCleanup (db_now e) UploadBlob name ws bytes now)
      | None => mret tt
      end;
  enqueueTripletImageCleanup e img ws now.

(** The map [uploads]: a blob's workspace and its largest size. *)
Definition add_upload (i : cleanup_image) (uploads : gmap string (Z * Z)) : gmap string (Z * Z) :=
  match ImmutableNameFromURL (ci_image_url i) with
  | Some name =>
      let '(_, bytes) := default (0, 0) (uploads !! name) in
      <[name := (ci_workspace_id i, if ci_storage_bytes i >? bytes then ci_storage_bytes i else bytes)]> uploads
  | None => uploads
  end.

Fixpoint each_image (e : env) (now : Z) (l : list cleanup_image) (uploads : gmap string (Z * Z))
    : itx (gmap string (Z * Z)) :=
  match l with
  | [] => mret uploads
  | i :: l =>
      let uploads := add_upload i uploads in
      _ ← enqueueTripletImageCleanup e (ci_id i) (ci_workspace_id i) now;
      each_image e now l uploads
  end.

Fixpoint each_upload (e : env) (now : Z) (l : list (string * (Z * Z))) : itx unit :=
  match l with
  | [] => mret tt
  | (name, (ws, bytes)) :: l =>
      _ ← quota (UpsertResourceCleanup (db_now e) UploadBlob name ws bytes now);
      each_upload e now l
  end.

#[local] Instance string_le_dec a b : Decision (string_le a b).
Proof. unfold string_le. apply _. Defined.
Definition by_name (a b : string * (Z * Z)) : Prop := string_le a.1 b.1.
#[local] Instance by_name_dec a b : Decision (by_name a b).
Proof. unfold by_name. apply _. Defined.

Definition enqueueImageCleanups (e : env) (l : list cleanup_image) : itx unit :=
  uploads ← each_image e (go_now e) l ∅;
  each_upload e (go_now e) (merge_sort by_name (map_to_list uploads)).

(** ** Items *)

(** [Get]: the row and its images by sequence. *)
Definition by_sequence (a b : Z * item_image) : Prop := g_sequence a.2 <= g_sequence b.2.
#[local] Instance by_sequence_dec a b : Decision (by_sequence a b).
Proof. unfold by_sequence. apply _. Defined.
Definition ListItemImages (id : string) (s : idb) : list (Z * item_image) :=
  merge_sort by_sequence (filter (fun kg => g_item_id kg.2 = id) (map_to_list (images s))).
Definition Get (id : string) : itx (item_row * list (Z * item_image)) :=
  row ← GetItem id; l ← tx_reads (ListItemImages id); mret (row, l).
Definition GetForWorkspace (ws : Z) (id : string) : itx (item_row * list (Z * item_image)) :=
  row ← one_of (fun s => t ← items s !! id; if t_workspace_id t =? ws then Some t else None);
  l ← tx_reads (ListItemImages id); mret (row, l).

(** The transaction of [Create]; the method then returns [Get] of the new item. *)
Definition Create (p : CreateItemParams) : itx unit :=
  if C_WorkspaceID p =? 0 then tx_fail Required else
  _ ← quota (lockStorageQuotaGuards (C_WorkspaceID p));
  _ ← LockWorkspaceMemberRole (C_WorkspaceID p) (C_UserID p);
  _ ← CreateItem p;
  quota (addStorageQuotaUsed (C_WorkspaceID p) {| Bytes := 0; DurableBytes := 0; Items := 1; Images := 0 |}).

Definition DeleteForWorkspace (e : env) (id : string) (ws : Z) : itx unit :=
  _ ← quota (lockStorageQuotaGuards ws);
  _ ← LockItemForCleanup ws id;
  l ← tx_reads (ListItemImagesForCleanup ws id);
  _ ← enqueueImageCleanups e l;
  _ ← enqueueTripletItemCleanup e id ws (go_now e);
  durableBytes ← itemDurableDatabaseBytes ws id;
  _ ← deleteItemResourceGraph (db_now e) ws id 0;
  _ ← requireDeletedRow (DeleteItemForWorkspaceManual ws id);
  quota (subtractStorageQuotaUsed ws {| Bytes := 0; DurableBytes := durableBytes; Items := 1;
                                        Images := Z.of_nat (length l) |}).

Definition DeleteItemImageForWorkspace (e : env) (id ws : Z) : itx unit :=
  _ ← quota (lockStorageQuotaGuards ws);
  image ← LockItemImageForCleanup ws id;
  _ ← enqueueImageCleanup e id (g_image_url image) ws (g_storage_bytes image) (go_now e);
  _ ← enqueueTripletItemCleanup e (g_item_id image) ws (go_now e);
  durableBytes ← itemImageDurableDatabaseBytes ws id;
  _ ← deleteItemResourceGraph (db_now e) ws (g_item_id image) id;
  quota (subtractStorageQuotaUsed ws {| Bytes := 0; DurableBytes := durableBytes; Items := 0; Images := 1 |}).

Definition EnqueueUploadCleanup (e : env) (ws : Z) (imageURL : string) (bytes : Z) : itx unit :=
  match ImmutableNameFromURL imageURL with
  | None => if bool_decide (is_Some (NameFromURL imageURL)) then tx_fail BadReference else mret tt
  | Some name =>
      if ws =? 0 then tx_fail Required else
      quota (UpsertResourceCleanup (db_now e) UploadBlob name ws bytes (go_now e))
  end.

(** ** Images *)

Definition validateImageStorageReference (imageURL : string) (bytes : Z) : result store_err unit :=
  let recognizedUpload := bool_decide (is_Some (NameFromURL imageURL)) in
  let isUpload := bool_decide (is_Some (ImmutableNameFromURL imageURL)) in
  if recognizedUpload && negb isUpload then Err BadReference else
  if isUpload && (bytes =? 0) then Err BadReference else
  if negb isUpload && negb (bytes =? 0) then Err BadReference else Ok tt.

(** The upload bytes an image that is not staged adds. *)
Definition AddImage (p : CreateItemImageParams) : itx Z :=
  _ ← tx_lift (validateImageStorageReference (G_ImageURL p) (G_StorageBytes p));
  let p := {| G_ItemID := G_ItemID p; G_Sequence := G_Sequence p; G_ImageURL := G_ImageURL p;
              G_StorageBytes := G_StorageBytes p; G_CanvasURI := TrimSpace (G_CanvasURI p); G_Width := G_Width p;
              G_Height := G_Height p; G_Label := G_Label p; G_HocrURL := G_HocrURL p |} in
  _ ← tx_lift (match requireHTTPURL (TrimSpace (G_CanvasURI p)) with Ok _ => Ok tt | Err _ => Err BadCanvas end);
  item ← GetItem (G_ItemID p);
  let ws := t_workspace_id item in
  _ ← quota (lockStorageQuotaGuards ws);
  _ ← LockItemForUseManual ws (G_ItemID p);
  uploadBytes ← match ImmutableNameFromURL (G_ImageURL p) with
    | Some name =>
        staged ← quota (lockUploadCleanupForReference ws name);
        mret (if bool_decide (is_Some staged) then 0 else G_StorageBytes p)
    | None => mret 0
    end;
  id ← CreateItemImage p;
  _ ← quota (addStorageQuotaUsed ws {| Bytes := uploadBytes; DurableBytes := 0; Items := 0; Images := 1 |});
  mret id.

Definition EnsureImageCanvasURI (id : Z) (uri : string) : itx item_image :=
  _ ← SetItemImageCanvasURIIfMissing id uri; one_of (fun s => images s !! id).
End operations.
End ItemOps.
