(* ===== verification/UploadBatches.v ===== *)
(** * Upload batches

    internal/store/upload_batches.go and the statements of internal/db/upload_batches.sql.go:
    a batch declares its files once, each file is claimed under a lease, gets a
    provisional image, and is completed with a transcription job, or fails and is retried.
    A method runs one transaction and then reads the batch it returns. *)

From Stdlib Require Import ZArith Lia Ascii String.
From stdpp Require Import base gmap strings list sorting.
From S2P Require Import Prelude GoStrings Json JobSchema JobStore MediaFragment Presentation Quota QuotaStore QuotaOps ItemDb ItemOps.

Module UploadBatches.
Import GoStr Json JobStore MediaFragment Presentation UploadRef Quota QuotaStore QuotaOps ItemDb ItemGraph ItemOps.
#[local] Open Scope Z_scope.
#[local] Existing Instance Jobs.outcome_eq_dec.

Definition uploadBatchFileLeaseDuration : Z := 1800.

Definition nullableUint64Checked (v : Z) : result store_err (option Z) :=
  if v =? 0 then Ok None else if v >? MaxInt64 then Err Required else Ok (Some v).

(** ** Values *)

Record UploadBatchFile := {
  F_Sequence : Z; F_Filename : string; F_Size : Z; F_ContentSHA256 : string; F_Status : file_status;
  F_AttemptCount : Z; F_MaxAttempts : Z; F_ItemImageID : Z; F_TranscriptionJobID : Z; F_ErrorMessage : string;
  F_LeaseOwner : string; F_CreatedAt : Z; F_UpdatedAt : Z;
}.
Record UploadBatch := {
  B_WorkspaceID : Z; B_ID : string; B_ItemID : string; B_ContextID : Z; B_ContextSnapshot : json;
  B_RequestHash : string; B_Status : batch_status; B_Files : list UploadBatchFile; B_CreatedAt : Z; B_UpdatedAt : Z;
}.

Definition positive (o : option Z) : Z := match o with Some v => if v >? 0 then v else 0 | None => 0 end.

Definition uploadBatchFileFromDB (seq : Z) (r : file_row) : UploadBatchFile :=
  {| F_Sequence := seq; F_Filename := f_filename r; F_Size := f_size r; F_ContentSHA256 := f_content_sha256 r;
     F_Status := f_status r; F_AttemptCount := f_attempt_count r; F_MaxAttempts := f_max_attempts r;
     F_ItemImageID := positive (f_item_image_id r); F_TranscriptionJobID := positive (f_transcription_job_id r);
     F_ErrorMessage := default ""%string (f_error_message r); F_LeaseOwner := default ""%string (f_locked_by r);
     F_CreatedAt := f_created_at r; F_UpdatedAt := f_updated_at r |}.
Definition uploadBatchFromDB (ws : Z) (id : string) (r : batch_row) (fs : list (Z * file_row)) : UploadBatch :=
  {| B_WorkspaceID := ws; B_ID := id; B_ItemID := b_item_id r; B_ContextID := positive (b_context_id r);
     B_ContextSnapshot := b_context_snapshot r; B_RequestHash := b_request_hash r; B_Status := b_status r;
     B_Files := (fun kf => uploadBatchFileFromDB kf.1 kf.2) <$> fs;
     B_CreatedAt := b_created_at r; B_UpdatedAt := b_updated_at r |}.

Definition count_files (st : file_status) (b : UploadBatch) : Z :=
  Z.of_nat (length (filter (fun f => F_Status f = st) (B_Files b))) mod 2 ^ 32.
Definition CompletedFiles : UploadBatch -> Z := count_files FCompleted.
Definition FailedFiles : UploadBatch -> Z := count_files FFailed.
Definition File (b : UploadBatch) (seq : Z) : option UploadBatchFile :=
  head (filter (fun f => F_Sequence f = seq) (B_Files b)).

(** ** Statements on the files *)

Abbreviation file_key := (Z * string * Z)%type.

(** [UPDATE upload_batch_files .. WHERE <key> AND ..]: the count is of rows that change. *)
Definition update_file (k : file_key) (wh : file_row -> bool) (set : file_row -> file_row) : itx Z := fun s =>
  match files s !! k with
  | Some f => if wh f then Ok (if bool_decide (set f = f) then 0 else 1, set_files (<[k := set f]> (files s)) s)
              else Ok (0, s)
  | None => Ok (0, s)
  end.

Definition before (now : Z) (lease : option Z) : bool := match lease with Some t => now <? t | None => false end.
Definition past (now : Z) (lease : option Z) : bool := match lease with Some t => t <? now | None => false end.
Definition owned (owner : option string) (f : file_row) : bool :=
  match owner with Some o => bool_decide (f_locked_by f = Some o) | None => false end.
Definition in_progress (ws : Z) (id : string) (s : idb) : bool :=
  match batches s !! (ws, id) with Some b => bool_decide (b_status b = InProgress) | None => false end.

Definition claimed_file (now lease : Z) (owner : option string) (f : file_row) : file_row :=
  {| f_filename := f_filename f; f_size := f_size f; f_content_sha256 := f_content_sha256 f; f_status := FProcessing;
     f_attempt_count := f_attempt_count f + 1; f_max_attempts := f_max_attempts f; f_lease_until := Some lease;
     f_locked_by := owner; f_item_image_id := f_item_image_id f; f_transcription_job_id := f_transcription_job_id f;
     f_error_message := None; f_created_at := f_created_at f; f_updated_at := now |}.
Definition renewed_file (now lease : Z) (f : file_row) : file_row :=
  {| f_filename := f_filename f; f_size := f_size f; f_content_sha256 := f_content_sha256 f; f_status := f_status f;
     f_attempt_count := f_attempt_count f; f_max_attempts := f_max_attempts f;
     f_lease_until := (fun t => Z.max (t + 1) lease) <$> f_lease_until f;
     f_locked_by := f_locked_by f; f_item_image_id := f_item_image_id f;
     f_transcription_job_id := f_transcription_job_id f; f_error_message := f_error_message f;
     f_created_at := f_created_at f; f_updated_at := now |}.
(** The end of an attempt, and of a declaration that is canceled. *)
Definition ended_file (now : Z) (st : file_status) (img job : option Z) (error : option string) (f : file_row) : file_row :=
  {| f_filename := f_filename f; f_size := f_size f; f_content_sha256 := f_content_sha256 f; f_status := st;
     f_attempt_count := f_attempt_count f; f_max_attempts := f_max_attempts f; f_lease_until := None;
     f_locked_by := None; f_item_image_id := img; f_transcription_job_id := job; f_error_message := error;
     f_created_at := f_created_at f; f_updated_at := now |}.

Definition LockUploadBatchManual (ws : Z) (id : string) : itx batch_row := one_of (fun s => batches s !! (ws, id)).
Definition LockUploadBatchFileManual (k : file_key) : itx file_row := one_of (fun s => files s !! k).

Definition file_claimable (now : Z) (f : file_row) : bool :=
  (f_attempt_count f <? f_max_attempts f)
  && (bool_decide (f_status f = FPending) || bool_decide (f_status f = FFailed)
      || (bool_decide (f_status f = FProcessing) && past now (f_lease_until f))).
Definition ClaimUploadBatchFileManual (now lease : Z) (owner : option string) (k : file_key) : itx Z :=
  update_file k (file_claimable now) (claimed_file now lease owner).

Definition file_held (now : Z) (owner : option string) (f : file_row) : bool :=
  bool_decide (f_status f = FProcessing) && owned owner f && before now (f_lease_until f).
Definition RenewUploadBatchFileManual (now lease : Z) (k : file_key) (owner : option string) : itx Z := fun s =>
  update_file k (fun f => file_held now owner f && in_progress k.1.1 k.1.2 s) (renewed_file now lease) s.
Definition FailUploadBatchFileManual (now : Z) (error : option string) (k : file_key) (owner : option string) : itx Z :=
  update_file k (fun f => bool_decide (f_status f = FProcessing) && owned owner f)
    (fun f => ended_file now FFailed (f_item_image_id f) (f_transcription_job_id f) error f).

(** The image belongs to the batch's item, the job to the image. *)
Definition completion_image (ws : Z) (id : string) (img : Z) (s : idb) : bool :=
  match batches s !! (ws, id), images s !! img with
  | Some b, Some g => (g_workspace_id g =? ws) && bool_decide (g_item_id g = b_item_id b)
  | _, _ => false
  end.
Definition completion_job (ws img job : Z) (s : idb) : bool := job_of s ws (fun i => i =? img) job.
Definition lock_if (b : idb -> bool) (e : store_err) : itx unit := fun s => if b s then Ok (tt, s) else Err e.
Definition LockUploadBatchCompletionImageManual (ws : Z) (id : string) (img : Z) : itx unit :=
  lock_if (completion_image ws id img) FileFence.
Definition LockUploadBatchCompletionJobManual (ws : Z) (id : string) (img job : Z) : itx unit :=
  lock_if (fun s => completion_image ws id img s && completion_job ws img job s) FileFence.

(** UNIQUE KEY uq_upload_batch_files_image *)
Definition image_taken (k : file_key) (img : option Z) (s : idb) : bool :=
  bool_decide (is_Some img) && negb (bool_decide (map_Forall (fun k' f => k' = k \/ f_item_image_id f <> img) (files s))).
Definition CompleteUploadBatchFileManual (now img job : Z) (k : file_key) (owner : option string) : itx Z := fun s =>
  let wh f := file_held now owner f && in_progress k.1.1 k.1.2 s
    && completion_image k.1.1 k.1.2 img s && completion_job k.1.1 img job s in
  if some_is wh (files s !! k) && image_taken k (Some img) s then Err Duplicate else
  update_file k wh (ended_file now FCompleted (Some img) (Some job) None) s.

Definition files_of (ws : Z) (id : string) (s : idb) : gmap file_key file_row :=
  filter (fun kf => kf.1.1 = (ws, id)) (files s).
Definition CompleteUploadBatchIfReadyManual (now ws : Z) (id : string) : itx unit := tx_modify (fun s =>
  if in_progress ws id s && bool_decide (map_Forall (fun _ f => f_status f = FCompleted) (files_of ws id s)) then
    set_batches (alter (fun b => {| b_item_id := b_item_id b; b_context_id := None; b_context_scope_id := None;
      b_context_snapshot := b_context_snapshot b; b_request_hash := b_request_hash b;
      b_creation_token := b_creation_token b; b_status := BCompleted; b_created_at := b_created_at b;
      b_updated_at := now |}) (ws, id) (batches s)) s
  else s).

(** Changed rows: [updated_at] moves on even within one second. *)
Definition ClearUploadBatchFileResourcesManual (now : Z) (k : file_key) : itx Z :=
  update_file k (fun _ => true) (detached now).

(** ** Statements on the batch *)

Definition InsertUploadBatchManual (ws : Z) (id item : string) (ctx : option Z) (row : batch_row) : itx unit := fun s =>
  match items s !! item, ctx ≫= fun c => contexts s !! c with
  | Some t, Some c =>
      if (t_workspace_id t =? ws) && bool_decide (c_workspace_id c = None \/ c_workspace_id c = Some (t_workspace_id t)) then
        let row := {| b_item_id := item; b_context_id := ctx; b_context_scope_id := Some (c_scope_id c);
          b_context_snapshot := b_context_snapshot row; b_request_hash := b_request_hash row;
          b_creation_token := b_creation_token row; b_status := InProgress; b_created_at := b_created_at row;
          b_updated_at := b_updated_at row |} in
        match batches s !! (ws, id) with
        | Some _ => Ok (tt, s)   (* ON DUPLICATE KEY UPDATE id = VALUES(id) *)
        | None =>
            match head (filter (fun kb => b_item_id kb.2 = item) (map_to_list (batches s))) with
            | None => Ok (tt, set_batches (<[(ws, id) := row]> (batches s)) s)
            | Some (k, b) =>   (* uq_upload_batches_item: the update renames the batch of the item *)
                match batches s !! (k.1, id) with
                | Some _ => Err Duplicate
                | None => Ok (tt, set_batches (<[(k.1, id) := b]> (delete k (batches s))) s)
                end
            end
        end
      else Ok (tt, s)
  | _, _ => Ok (tt, s)
  end.

Definition declared_file (now : Z) (name : string) (size : Z) (sha : string) : file_row :=
  {| f_filename := name; f_size := size; f_content_sha256 := sha; f_status := FPending; f_attempt_count := 0;
     f_max_attempts := 5; f_lease_until := None; f_locked_by := None; f_item_image_id := None;
     f_transcription_job_id := None; f_error_message := None; f_created_at := now; f_updated_at := now |}.
Definition InsertUploadBatchFileManual (now ws : Z) (batch : string) (seq : Z) (name : string) (size : Z) (sha : string)
    : itx Z := fun s =>
  match batches s !! (ws, batch) with
  | None => Ok (0, s)
  | Some _ =>
      if size <=? 0 then Err Constraint else
      match files s !! (ws, batch, seq) with
      | Some _ => Err Duplicate
      | None => Ok (1, set_files (<[(ws, batch, seq) := declared_file now name size sha]> (files s)) s)
      end
  end.

Definition CancelUploadBatchManual (now ws : Z) (id : string) : itx Z := fun s =>
  if in_progress ws id s then
    Ok (1, set_batches (alter (fun b => {| b_item_id := b_item_id b; b_context_id := None; b_context_scope_id := None;
      b_context_snapshot := b_context_snapshot b; b_request_hash := b_request_hash b;
      b_creation_token := b_creation_token b; b_status := BCanceled; b_created_at := b_created_at b;
      b_updated_at := now |}) (ws, id) (batches s)) s)
  else Ok (0, s).

Definition open_file (f : file_row) : bool :=
  bool_decide (f_status f = FPending) || bool_decide (f_status f = FProcessing) || bool_decide (f_status f = FFailed).
Definition CancelUploadBatchFilesManual (now ws : Z) (id : string) : itx unit := tx_modify (fun s =>
  set_files (map_imap (fun k f => Some (if bool_decide (k.1 = (ws, id)) && open_file f
    then ended_file now FCanceled (f_item_image_id f) (f_transcription_job_id f) None f else f)) (files s)) s).

(** The jobs of the batch's files, and their running attempt. *)
Definition jobs_of_batch (ws : Z) (id : string) (s : idb) : gset Z :=
  list_to_set (omap f_transcription_job_id (rows (files_of ws id s))).
Definition canceled_job (now : Z) (j : Jobs.job_row) : Jobs.job_row :=
  {| Jobs.j_key := Jobs.j_key j; Jobs.j_status := Jobs.Canceled; Jobs.j_total_segments := Jobs.j_total_segments j;
     Jobs.j_completed_segments := Jobs.j_completed_segments j; Jobs.j_failed_segments := Jobs.j_failed_segments j;
     Jobs.j_attempt_count := Jobs.j_attempt_count j; Jobs.j_retry_after := Jobs.j_retry_after j;
     Jobs.j_lease_until := None; Jobs.j_locked_by := None;
     Jobs.j_current_annotation_id := Jobs.j_current_annotation_id j;
     Jobs.j_current_annotation_json := Jobs.j_current_annotation_json j;
     Jobs.j_last_result_annotation_json := None; Jobs.j_error_message := Some "canceled with upload batch"%string;
     Jobs.j_updated_at := now |}.
Definition cancels_job (js : gset Z) (id : Z) (j : Jobs.job_row) : bool :=
  bool_decide (id ∈ js) && Jobs.is_active (Jobs.j_status j).
Definition cancels_attempt (q : queue_tables) (js : gset Z) (k : Z * Z) (a : Jobs.attempt_row) : bool :=
  match q_jobs q !! k.1 with
  | Some j => cancels_job js k.1 j && (k.2 =? Jobs.j_attempt_count j)
      && (Jobs.a_input_revision a =? Jobs.k_input_revision (Jobs.j_key j))
      && bool_decide (Jobs.j_locked_by j = Some (Jobs.a_lease_token a))
      && bool_decide (Jobs.a_outcome a = Jobs.AttemptRunning)
  | None => false
  end.
Definition CancelUploadBatchJobsManual (now ws : Z) (id : string) : itx unit := on_queue (fun s q =>
  let js := jobs_of_batch ws id s in
  {| q_jobs := map_imap (fun i j => Some (if cancels_job js i j then canceled_job now j else j)) (q_jobs q);
     q_attempts := map_imap (fun k a => Some (if cancels_attempt q js k a
       then Jobs.finish_row Jobs.AttemptCanceled (Some "canceled with upload batch"%string) None now a else a)) (q_attempts q);
     q_checkpoints := q_checkpoints q; q_next_job_id := q_next_job_id q |}).
Definition DeleteCheckpointsForUploadBatch (ws : Z) (id : string) : itx unit := on_queue (fun s q =>
  {| q_jobs := q_jobs q; q_attempts := q_attempts q; q_next_job_id := q_next_job_id q;
     q_checkpoints := filter (fun kv => kv.1.1 ∉ jobs_of_batch ws id s) (q_checkpoints q) |}).

(** ** Provisional images

    The image of a file is the one at its sequence in the batch's item. *)

Definition image_of_file (ws : Z) (id : string) (seq : Z) (s : idb) : option (Z * item_image) :=
  b ← batches s !! (ws, id); _ ← files s !! (ws, id, seq);
  head (filter (fun kg => g_item_id kg.2 = b_item_id b /\ g_sequence kg.2 = seq) (map_to_list (images s))).

(** The query has no order; the images are taken by id. *)
Record incomplete_image := { ii_id : Z; ii_image : item_image; ii_sequence : Z }.
Definition ListIncompleteUploadBatchImagesForCleanupManual (ws : Z) (id : string) (s : idb) : list incomplete_image :=
  match batches s !! (ws, id) with
  | None => []
  | Some b =>
      omap (fun kg : Z * item_image =>
        if bool_decide (g_item_id kg.2 = b_item_id b) then
          match files s !! (ws, id, g_sequence kg.2) with
          | Some f => if negb (bool_decide (f_status f = FCompleted))
                      then Some {| ii_id := kg.1; ii_image := kg.2; ii_sequence := g_sequence kg.2 |} else None
          | None => None
          end
        else None) (merge_sort by_id (map_to_list (images s)))
  end.

Definition wrap32 (z : Z) : Z := (z + 2 ^ 31) mod 2 ^ 32 - 2 ^ 31.

(** An insert returns the new id and 1; an image already at the sequence keeps its row and
    returns its id and 0; a lost lease selects nothing and returns 0. *)
Definition EnsureUploadBatchImageManual (now : Z) (url : string) (bytes width height : Z) (k : file_key)
    (owner : option string) : itx (Z * Z) := fun s =>
  match batches s !! (k.1.1, k.1.2), files s !! k with
  | Some b, Some f =>
      if bool_decide (b_status b = InProgress) && file_held now owner f then
        if (width <? 0) || (height <? 0) then Err Constraint else
        match image_at s (b_item_id b) k.2 with
        | Some id => Ok ((id, 0), s)
        | None =>
            let g := {| g_workspace_id := k.1.1; g_item_id := b_item_id b; g_sequence := k.2; g_image_url := url;
                        g_storage_bytes := bytes; g_canvas_uri := None; g_width := Some width; g_height := Some height;
                        g_label := Some (f_filename f); g_hocr_url := None |} in
            Ok ((next_image_id s, 1), set_images (<[next_image_id s := g]> (images s)) (next_image_id s + 1) s)
        end
      else Ok ((0, 0), s)
  | _, _ => Ok ((0, 0), s)
  end.
End UploadBatches.
