(* ===== verification/UploadOps.v ===== *)
(** * Upload batches: the methods of internal/store/upload_batches.go *)

From Stdlib Require Import ZArith Lia Ascii String.
From stdpp Require Import base gmap strings list sorting.
From S2P Require Import Prelude GoStrings Json JobSchema JobStore MediaFragment Presentation Quota QuotaStore QuotaOps ItemDb ItemOps UploadBatches.

Module UploadOps.
Import GoStr Json JobStore MediaFragment Presentation UploadRef Quota QuotaStore QuotaOps ItemDb ItemGraph ItemOps UploadBatches.
#[local] Open Scope Z_scope.

Definition by_key (a b : Z * file_row) : Prop := a.1 <= b.1.
#[local] Instance by_key_dec a b : Decision (by_key a b).
Proof. unfold by_key. apply _. Defined.
Definition ListUploadBatchFilesManual (ws : Z) (id : string) (s : idb) : list (Z * file_row) :=
  merge_sort by_key ((fun kf => (kf.1.2, kf.2)) <$> map_to_list (files_of ws id s)).

Definition GetUploadBatch (ws : Z) (batchID : string) (s : idb) : result store_err UploadBatch :=
  match batches s !! (ws, TrimSpace batchID) with
  | None => Err BatchNotFound
  | Some row => Ok (uploadBatchFromDB ws (TrimSpace batchID) row (ListUploadBatchFilesManual ws (TrimSpace batchID) s))
  end.

(** [sql.ErrNoRows] of a lock becomes [ErrUploadBatchNotFound]. *)
Definition found {A} (m : itx A) : itx A := fun s =>
  match m s with Err NoRows => Err BatchNotFound | r => r end.

(** A committed transaction, and the batch it leaves. *)
Definition returning {A} (ws : Z) (batchID : string) (m : itx A) (s : idb) : result store_err (UploadBatch * A) * idb :=
  let (r, s') := run_tx m s in
  match r with
  | Ok a => (match GetUploadBatch ws batchID s' with Ok b => Ok (b, a) | Err e => Err e end, s')
  | Err e => (Err e, s')
  end.

(** ** Start *)

Record UploadBatchFileInput := { I_Filename : string; I_Size : Z; I_ContentSHA256 : string }.
Record StartUploadBatchParams := {
  P_WorkspaceID : Z; P_UserID : Z; P_BatchID : string; P_ItemID : string; P_Name : string; P_Metadata : string;
  P_ExternalReferenceID : string; P_CallerIdempotencyKey : string; P_ContextID : Z; P_RequestHash : string;
  P_Files : list UploadBatchFileInput;
}.

(** internal/store/contexts.go, without an image: the live row is the snapshot. *)
Definition lockContextSnapshotForWorkspace (cid ws : Z) : itx (Z * json) :=
  c ← one_of (fun s => c ← contexts s !! cid; if (c_scope_id c =? 0) || (c_scope_id c =? ws) then Some c else None);
  mret (cid, JObject (c_fields c)).

Fixpoint declare_files (now ws : Z) (batch : string) (seq : Z) (l : list UploadBatchFileInput) : itx unit :=
  match l with
  | [] => mret tt
  | i :: l =>
      inserted ← InsertUploadBatchFileManual now ws batch (seq mod 2 ^ 32) (TrimSpace (I_Filename i)) (I_Size i)
                   (TrimSpace (I_ContentSHA256 i));
      if negb (inserted =? 1) then tx_fail ParentChanged else
      declare_files now ws batch (seq + 1) l
  end.

Definition start_params (p : StartUploadBatchParams) : CreateItemParams :=
  {| C_DocumentType := ""; C_ID := P_ItemID p; C_UserID := P_UserID p; C_WorkspaceID := P_WorkspaceID p;
     C_Name := TrimSpace (P_Name p); C_SourceType := "upload"; C_SourceURL := ""; C_SourceManifest := "";
     C_Metadata := P_Metadata p; C_ExternalReferenceID := P_ExternalReferenceID p;
     C_CallerIdempotencyKey := P_CallerIdempotencyKey p |}.

Definition start_batch (e : env) (p : StartUploadBatchParams) : itx unit :=
  let ws := P_WorkspaceID p in
  let creationToken := ("batch-" ++ uuid e)%string in
  _ ← quota (lockStorageQuotaGuards ws);
  _ ← LockWorkspaceMemberRole ws (P_UserID p);
  '(lockedContext, snapshot) ← lockContextSnapshotForWorkspace (P_ContextID p) ws;
  _ ← CreateItem (start_params p);
  contextID ← tx_lift (nullableUint64Checked lockedContext);
  _ ← InsertUploadBatchManual ws (TrimSpace (P_BatchID p)) (P_ItemID p) contextID
        {| b_item_id := P_ItemID p; b_context_id := contextID; b_context_scope_id := None;
           b_context_snapshot := snapshot; b_request_hash := TrimSpace (P_RequestHash p);
           b_creation_token := creationToken; b_status := InProgress; b_created_at := db_now e; b_updated_at := db_now e |};
  row ← LockUploadBatchManual ws (TrimSpace (P_BatchID p));
  if negb (bool_decide (b_creation_token row = creationToken)) then
    if negb (bool_decide (b_request_hash row = TrimSpace (P_RequestHash p))) then tx_fail RequestMismatch
    else tx_fail Replayed
  else
  _ ← declare_files (db_now e) ws (P_BatchID p) 1 (P_Files p);
  quota (addStorageQuotaUsed ws {| Bytes := 0; DurableBytes := 0; Items := 1; Images := 0 |}).

Definition StartUploadBatch (e : env) (p : StartUploadBatchParams) (s : idb) : result store_err UploadBatch * idb :=
  if (P_WorkspaceID p =? 0) || (P_UserID p =? 0) || bool_decide (TrimSpace (P_BatchID p) = ""%string)
     || bool_decide (TrimSpace (P_ItemID p) = ""%string) || (P_ContextID p =? 0) || bool_decide (P_Files p = [])
  then (Err Required, s) else
  match run_tx (start_batch e p) s with
  | (Ok _, s') => (GetUploadBatch (P_WorkspaceID p) (P_BatchID p) s', s')
  | (Err Replayed, s') => (GetUploadBatch (P_WorkspaceID p) (P_BatchID p) s', s')
  | (Err err, s') => (Err err, s')
  end.

Section operations.
Context `{UrlParser}.

(** ** Provisional images *)

Definition cleanupUploadBatchFileImage (e : env) (ws : Z) (batch : string) (seq : Z) : itx StorageQuotaRequest :=
  image ← tx_reads (image_of_file ws (TrimSpace batch) seq);
  match image with
  | None => mret no_request
  | Some (id, g) =>
      _ ← enqueueImageCleanup e id (g_image_url g) ws (g_storage_bytes g) (go_now e);
      cleared ← ClearUploadBatchFileResourcesManual (db_now e) (ws, TrimSpace batch, seq);
      if negb (cleared =? 1) then tx_fail FileFence else
      durableBytes ← itemImageDurableDatabaseBytes ws id;
      _ ← deleteItemResourceGraph (db_now e) ws (g_item_id g) id;
      mret {| Bytes := 0; DurableBytes := durableBytes; Items := 0; Images := 1 |}
  end.

Definition lockActiveUploadBatchFileAttempt (e : env) (ws : Z) (batchID : string) (seq : Z) (leaseOwner : string)
    : itx (batch_row * file_row) :=
  batch ← found (LockUploadBatchManual ws (TrimSpace batchID));
  file ← found (LockUploadBatchFileManual (ws, TrimSpace batchID, seq));
  let owner := TrimSpace leaseOwner in
  if negb (bool_decide (b_status batch = InProgress)) || negb (bool_decide (f_status file = FProcessing))
     || bool_decide (owner = ""%string) || negb (bool_decide (f_locked_by file = Some owner))
     || negb (before (go_now e) (f_lease_until file))
  then tx_fail FileFence else mret (batch, file).

(** ** Claim *)

(** What the transaction commits: a file that is already completed, or the new lease owner. *)
Inductive claim_result := AlreadyCompleted (f : UploadBatchFile) | Claimed (owner : string).

Definition claim_file (e : env) (ws : Z) (batchID : string) (seq size : Z) (sha : string) : itx claim_result :=
  _ ← quota (lockStorageQuotaGuards ws);
  batchRow ← found (LockUploadBatchManual ws (TrimSpace batchID));
  if bool_decide (b_status batchRow = BCanceled) then tx_fail BatchCanceled else
  fileRow ← found (LockUploadBatchFileManual (ws, TrimSpace batchID, seq));
  if negb (f_size fileRow =? size) || negb (bool_decide (f_content_sha256 fileRow = TrimSpace sha))
  then tx_fail FileMismatch else
  if bool_decide (f_status fileRow = FCompleted) then mret (AlreadyCompleted (uploadBatchFileFromDB seq fileRow)) else
  if bool_decide (b_status batchRow = BCompleted) then tx_fail BatchCompleted else
  if f_attempt_count fileRow >=? f_max_attempts fileRow then tx_fail AttemptsExhausted else
  if bool_decide (f_status fileRow = FProcessing) && before (go_now e) (f_lease_until fileRow)
  then tx_fail FileInProgress else
  cleanupRequest ← cleanupUploadBatchFileImage e ws (TrimSpace batchID) seq;
  let leaseOwner := ("upload-" ++ uuid e)%string in
  updated ← ClaimUploadBatchFileManual (db_now e) (go_now e + uploadBatchFileLeaseDuration) (nullableString leaseOwner)
              (ws, TrimSpace batchID, seq);
  if negb (updated =? 1) then tx_fail FileFence else
  _ ← quota (subtractStorageQuotaUsed ws cleanupRequest);
  mret (Claimed leaseOwner).

Definition with_owner (owner : string) (f : UploadBatchFile) : UploadBatchFile :=
  {| F_Sequence := F_Sequence f; F_Filename := F_Filename f; F_Size := F_Size f; F_ContentSHA256 := F_ContentSHA256 f;
     F_Status := F_Status f; F_AttemptCount := F_AttemptCount f; F_MaxAttempts := F_MaxAttempts f;
     F_ItemImageID := F_ItemImageID f; F_TranscriptionJobID := F_TranscriptionJobID f;
     F_ErrorMessage := F_ErrorMessage f; F_LeaseOwner := owner; F_CreatedAt := F_CreatedAt f; F_UpdatedAt := F_UpdatedAt f |}.

Definition ClaimUploadBatchFile (e : env) (ws : Z) (batchID : string) (seq size : Z) (sha : string) (s : idb)
    : result store_err (UploadBatch * UploadBatchFile * bool) * idb :=
  let (r, s') := returning ws batchID (claim_file e ws batchID seq size sha) s in
  (match r with
   | Err err => Err err
   | Ok (b, AlreadyCompleted f) => Ok (b, f, false)
   | Ok (b, Claimed owner) =>
       match File b seq with
       | Some f => Ok (b, with_owner owner f, true)
       | None => Err BatchNotFound
       end
   end, s').

(** ** The lease *)

Definition RenewUploadBatchFileLease (e : env) (ws : Z) (batchID : string) (seq : Z) (leaseOwner : string) : itx unit :=
  _ ← lockActiveUploadBatchFileAttempt e ws batchID seq leaseOwner;
  updated ← RenewUploadBatchFileManual (db_now e) (go_now e + uploadBatchFileLeaseDuration) (ws, TrimSpace batchID, seq)
              (nullableString (TrimSpace leaseOwner));
  if negb (updated =? 1) then tx_fail FileFence else mret tt.

Definition AbortUploadBatchFileAttempt (e : env) (ws : Z) (batchID : string) (seq : Z) (leaseOwner publicError : string)
    : itx unit :=
  _ ← quota (lockStorageQuotaGuards ws);
  batchRow ← found (LockUploadBatchManual ws (TrimSpace batchID));
  fileRow ← found (LockUploadBatchFileManual (ws, TrimSpace batchID, seq));
  if negb (bool_decide (b_status batchRow = InProgress)) || negb (bool_decide (f_status fileRow = FProcessing))
     || negb (bool_decide (f_locked_by fileRow = Some (TrimSpace leaseOwner)))
  then tx_fail FileFence else
  cleanupRequest ← cleanupUploadBatchFileImage e ws (TrimSpace batchID) seq;
  updated ← FailUploadBatchFileManual (db_now e) (nullableString (TrimSpace publicError)) (ws, TrimSpace batchID, seq)
              (nullableString (TrimSpace leaseOwner));
  if negb (updated =? 1) then tx_fail FileFence else
  quota (subtractStorageQuotaUsed ws cleanupRequest).

(** ** The provisional image of an attempt *)

(** The staged upload of the image, if it is one, and the upload bytes the image adds. *)
Definition staged_image (ws : Z) (imageURL : string) (bytes : Z) : itx (Z * string) :=
  match ImmutableNameFromURL imageURL with
  | None => mret (0, ""%string)
  | Some name =>
      staged ← quota (lockUploadCleanupForReference ws name);
      match staged with
      | Some cleanup => if negb (d_storage_bytes cleanup =? bytes) then tx_fail StagedMismatch else mret (0, name)
      | None => mret (bytes, ""%string)
      end
  end.

Definition EnsureUploadBatchImage (e : env) (ws : Z) (reservation : StorageQuotaReservation) (batchID : string) (seq : Z)
    (leaseOwner imageURL : string) (storageBytes width height : Z) (publicBaseURL : string) : itx Z :=
  if bool_decide (R_ID reservation = ""%string) || negb (R_WorkspaceID reservation =? ws) then tx_fail Required else
  if (width =? 0) || (height =? 0) then tx_fail Required else
  _ ← tx_lift (validateImageStorageReference imageURL storageBytes);
  _ ← quota (lockStorageQuotaGuards ws);
  '(batchRow, _) ← lockActiveUploadBatchFileAttempt e ws batchID seq leaseOwner;
  _ ← LockItemForUseManual ws (b_item_id batchRow);
  '(uploadBytes, stagedUploadName) ← staged_image ws imageURL storageBytes;
  lockedReservation ← quota (LockLiveStorageQuotaReservation (db_now e) (R_ID reservation) ws);
  if (if bool_decide (stagedUploadName = ""%string) then bool_decide (is_Some (v_resource_key lockedReservation))
      else negb (bool_decide (v_resource_key lockedReservation = Some stagedUploadName)))
  then tx_fail StagedMismatch else
  '(imageID, rowsAffected) ← EnsureUploadBatchImageManual (db_now e) (TrimSpace imageURL) storageBytes (wrap32 width)
      (wrap32 height) (ws, TrimSpace batchID, seq) (nullableString (TrimSpace leaseOwner));
  if imageID <=? 0 then tx_fail FileFence else
  _ ← (if rowsAffected =? 1 then
         quota (transferStorageQuotaReservationToUsed (R_ID reservation) lockedReservation
                  {| Bytes := uploadBytes; DurableBytes := 0; Items := 0; Images := 1 |})
       else mret tt);
  canvasURI ← tx_lift (match ItemImageCanvasID publicBaseURL imageID with Ok u => Ok u | Err _ => Err BadCanvas end);
  _ ← UpdateItemImageCanvasURI imageID canvasURI;
  mret imageID.

(** ** Completion *)

Definition complete_file (e : env) (ws : Z) (batchID : string) (seq : Z) (leaseOwner : string) (img job : Z) : itx unit :=
  _ ← lockActiveUploadBatchFileAttempt e ws batchID seq leaseOwner;
  _ ← LockUploadBatchCompletionImageManual ws (TrimSpace batchID) img;
  _ ← LockUploadBatchCompletionJobManual ws (TrimSpace batchID) img job;
  _ ← tx_lift (nullableUint64Checked img);
  _ ← tx_lift (nullableUint64Checked job);
  updated ← CompleteUploadBatchFileManual (db_now e) img job (ws, TrimSpace batchID, seq) (nullableString (TrimSpace leaseOwner));
  if negb (updated =? 1) then tx_fail FileFence else
  CompleteUploadBatchIfReadyManual (db_now e) ws (TrimSpace batchID).

Definition CompleteUploadBatchFile (e : env) (ws : Z) (batchID : string) (seq : Z) (leaseOwner : string) (img job : Z)
    (s : idb) : result store_err (UploadBatch * unit) * idb :=
  if (img =? 0) || (job =? 0) then (Err FileFence, s) else
  returning ws batchID (complete_file e ws batchID seq leaseOwner img job) s.

(** ** Cancellation *)

Fixpoint cancel_images (e : env) (ws : Z) (id : string) (l : list incomplete_image) (durableBytes : Z) : itx Z :=
  match l with
  | [] => mret durableBytes
  | i :: l =>
      bytes ← itemImageDurableDatabaseBytes ws (ii_id i);
      durableBytes ← tx_lift (of_option BytesOverflow (addUint64 durableBytes bytes));
      _ ← enqueueImageCleanup e (ii_id i) (g_image_url (ii_image i)) ws (g_storage_bytes (ii_image i)) (go_now e);
      cleared ← ClearUploadBatchFileResourcesManual (db_now e) (ws, id, ii_sequence i);
      if negb (cleared =? 1) then tx_fail FileFence else
      _ ← deleteItemResourceGraph (db_now e) ws (g_item_id (ii_image i)) (ii_id i);
      cancel_images e ws id l durableBytes
  end.

Definition cancel_batch (e : env) (ws : Z) (batchID : string) : itx unit :=
  _ ← quota (lockStorageQuotaGuards ws);
  let id := TrimSpace batchID in
  row ← found (LockUploadBatchManual ws id);
  match b_status row with
  | BCompleted => tx_fail BatchCompleted
  | BCanceled => mret tt
  | InProgress =>
      updated ← CancelUploadBatchManual (db_now e) ws id;
      if negb (updated =? 1) then tx_fail FileFence else
      _ ← CancelUploadBatchJobsManual (db_now e) ws id;
      _ ← DeleteCheckpointsForUploadBatch ws id;
      incomplete ← tx_reads (ListIncompleteUploadBatchImagesForCleanupManual ws id);
      durableBytes ← cancel_images e ws id incomplete 0;
      _ ← CancelUploadBatchFilesManual (db_now e) ws id;
      if negb (bool_decide (incomplete = [])) then
        quota (subtractStorageQuotaUsed ws {| Bytes := 0; DurableBytes := durableBytes; Items := 0;
                                              Images := Z.of_nat (length incomplete) |})
      else mret tt
  end.

Definition CancelUploadBatch (e : env) (ws : Z) (batchID : string) (s : idb) : result store_err (UploadBatch * unit) * idb :=
  returning ws batchID (cancel_batch e ws batchID) s.
End operations.
End UploadOps.
