(* ===== verification/ItemAudit.v ===== *)
(** * Relationship integrity

    [AuditRelationshipIntegrity] of internal/store/relationship_integrity.go: the database has
    no foreign keys, and the audit counts the rows whose parents are missing or belong to
    somebody else.  [related] says the same as a property of the tables, with the two
    relationships the audit leaves out.  The relationships of tables that are not in
    [idb] (sessions, keys, secrets, selection rules, webhooks) are not here. *)

From Stdlib Require Import ZArith Lia Ascii String.
From stdpp Require Import base gmap strings list sorting.
From S2P Require Import Prelude GoStrings Json JobSchema MediaFragment Quota QuotaStore ItemDb ItemOps.

Module ItemAudit.
Import GoStr Json Quota QuotaStore ItemDb ItemGraph ItemOps.
#[local] Open Scope Z_scope.

(** ** Parents *)

Section parents.
Context (s : idb).

Definition workspace_parent (ws : Z) : bool := bool_decide (ws ∈ tenants s).
Definition user_parent (u : Z) : bool := bool_decide (u ∈ users s).
Definition user_or_null (u : option Z) : bool := match u with Some u => user_parent u | None => true end.
Definition item_parent (ws : Z) (item : string) : bool := some_is (fun t => t_workspace_id t =? ws) (items s !! item).
Definition image_parent (ws img : Z) : bool := some_is (fun g => g_workspace_id g =? ws) (images s !! img).
Definition image_of_parent (ws img : Z) (item : string) : bool :=
  some_is (fun g => (g_workspace_id g =? ws) && bool_decide (g_item_id g = item)) (images s !! img).
Definition any_image (img : Z) : bool := bool_decide (is_Some (images s !! img)).
Definition context_or_null (ws : Z) (ctx : option Z) : bool :=
  match ctx with
  | Some c => some_is (fun c => (c_scope_id c =? 0) || (c_scope_id c =? ws)) (contexts s !! c)
  | None => true
  end.
Definition page_parent (ws img : Z) : bool := bool_decide (is_Some (pages (kids s) !! (ws, img))).
Definition job_parent (job : Z) : bool := bool_decide (is_Some (q_jobs (queue s) !! job)).

(** ** The rows of each relationship *)

Definition ok_member (m : Z * Z) : bool := workspace_parent m.1 && user_parent m.2.
Definition ok_grant (g : review_token) : bool :=
  workspace_parent (k_workspace_id g) && user_parent (k_issued_by g)
  && image_of_parent (k_workspace_id g) (k_item_image_id g) (k_item_id g).
Definition ok_session (x : review_session) : bool :=
  some_is (fun t => (k_workspace_id t =? k_workspace_id (ss_grant x))
      && bool_decide (k_item_id t = k_item_id (ss_grant x)) && (k_item_image_id t =? k_item_image_id (ss_grant x)))
    (review_tokens (kids s) !! ss_token x)
  && ok_grant (ss_grant x).
Definition ok_item (t : item_row) : bool := workspace_parent (t_workspace_id t) && user_parent (t_user_id t).
Definition ok_image (g : item_image) : bool := item_parent (g_workspace_id g) (g_item_id g).
Definition ok_reservation (v : reservation_row) : bool := workspace_parent (v_workspace_id v).
Definition ok_run (n : ocr_run) : bool :=
  image_parent (n_workspace_id n) (n_item_image_id n) && context_or_null (n_workspace_id n) (n_context_id n).
Definition ok_current (img : Z) (sid : string) : bool :=
  some_is (fun n => n_item_image_id n =? img) (ocr_runs (kids s) !! sid) && any_image img.
Definition ok_indexed (ws img : Z) : bool := image_parent ws img && page_parent ws img.
Definition ok_context (c : context_row) : bool :=
  match c_workspace_id c, c_user_id c with
  | None, None => true
  | Some ws, Some u => bool_decide ((ws, u) ∈ members s)
  | _, _ => false
  end.
Definition ok_job (j : Jobs.job_row) : bool :=
  let k := Jobs.j_key j in
  image_parent (Jobs.k_workspace_id k) (Jobs.k_item_image_id k) && context_or_null (Jobs.k_workspace_id k) (Jobs.k_context_id k).
Definition ok_batch (k : Z * string) (b : batch_row) : bool :=
  item_parent k.1 (b_item_id b) && context_or_null k.1 (b_context_id b).
Definition ok_file (k : Z * string * Z) (f : file_row) : bool :=
  match batches s !! k.1 with
  | None => false
  | Some b =>
      match f_item_image_id f with
      | Some img => image_of_parent k.1.1 img (b_item_id b)
      | None => true
      end
      && match f_transcription_job_id f with
         | None => true
         | Some job =>
             match q_jobs (queue s) !! job with
             | None => false
             | Some j =>
                 let img := Jobs.k_item_image_id (Jobs.j_key j) in
                 (Jobs.k_workspace_id (Jobs.j_key j) =? k.1.1) && (img =? default img (f_item_image_id f))
                 && image_of_parent k.1.1 img (b_item_id b)
             end
         end
  end.
Definition ok_audit (a : audit_row) : bool :=
  match u_item_image_id a with Some img => image_parent (u_workspace_id a) img | None => true end
  && context_or_null (u_workspace_id a) (u_context_id a).

(** A comparison with a missing row is NULL, which does not count. *)
Definition image_not_of (img : Z) (item : option string) : bool :=
  match item, images s !! img with Some i, Some g => negb (bool_decide (g_item_id g = i)) | _, _ => false end.
Definition request_job (r : request_row) : option Jobs.job_row :=
  job ← r_transcription_job_id r; j ← q_jobs (queue s) !! job;
  if (Jobs.k_workspace_id (Jobs.j_key j) =? r_workspace_id r)
     && (Jobs.k_item_image_id (Jobs.j_key j) =? default (Jobs.k_item_image_id (Jobs.j_key j)) (r_item_image_id r))
  then Some j else None.
Definition request_run (r : request_row) : option ocr_run :=
  sid ← r_session_id r; n ← ocr_runs (kids s) !! sid;
  if (n_workspace_id n =? r_workspace_id r) && (n_item_image_id n =? default (n_item_image_id n) (r_item_image_id r))
  then Some n else None.
Definition ok_request (r : request_row) : bool :=
  workspace_parent (r_workspace_id r)
  && match r_item_id r with Some i => item_parent (r_workspace_id r) i | None => true end
  && match r_item_image_id r with
     | Some img => image_parent (r_workspace_id r) img && negb (image_not_of img (r_item_id r))
     | None => true
     end
  && match r_transcription_job_id r with
     | Some _ => some_is (fun j => negb (image_not_of (Jobs.k_item_image_id (Jobs.j_key j)) (r_item_id r))) (request_job r)
     | None => true
     end
  && match r_session_id r with
     | Some _ => some_is (fun n => negb (image_not_of (n_item_image_id n) (r_item_id r))
                   && match r_transcription_job_id r, request_job r with
                      | Some _, Some j => n_item_image_id n =? Jobs.k_item_image_id (Jobs.j_key j)
                      | _, _ => true
                      end) (request_run r)
     | None => true
     end.

Definition ok_cleanup (d : cleanup_row) : bool :=
  negb (0 <? d_workspace_id d) || bool_decide (is_Some (a_usages (acc s) !! d_workspace_id d)).
Definition ok_usage (ws : Z) (u : StorageQuotaUsage) : bool :=
  negb (0 <? ws) || workspace_parent ws
  || negb (bool_decide (map_Forall (fun _ v => v_workspace_id v <> ws) (a_reservations (acc s))))
  || negb (bool_decide (map_Forall (fun _ d => d_workspace_id d <> ws) (a_cleanups (acc s))))
  || bool_decide (u = no_usage).

(** ** The audit *)

Definition violations {K A} `{Countable K} (ok : K -> A -> bool) (m : gmap K A) : Z :=
  Z.of_nat (size (filter (fun kv => ok kv.1 kv.2 = false) m)).
Definition set_violations {A} `{Countable A} (ok : A -> bool) (m : gset A) : Z :=
  Z.of_nat (size (filter (fun x => ok x = false) m)).

Definition AuditRelationshipIntegrityManual : list (string * Z) :=
  [ ("annotation_mirror_outbox.image", set_violations any_image (mirrors (kids s)));
    ("annotation_mirror_tombstones.image", set_violations any_image (tombstones (kids s)));
    ("annotation_pages.editor", violations (fun _ p => user_or_null (p_user_id p)) (pages (kids s)));
    ("annotation_pages.image", violations (fun k _ => image_parent k.1 k.2) (pages (kids s)));
    ("annotations.image", violations (fun k _ => ok_indexed k.1.1 k.1.2) (index (kids s)));
    ("contexts.owner", violations (fun _ c => ok_context c) (contexts s));
    ("current_ocr_runs.run_image", violations ok_current (current_runs (kids s)));
    ("editor_review_sessions.resource_tuple", violations (fun _ x => ok_session x) (review_sessions (kids s)));
    ("editor_review_tokens.resource_tuple", violations (fun _ g => ok_grant g) (review_tokens (kids s)));
    ("external_requests.resource_tuple", violations (fun _ r => ok_request r) (requests (kids s)));
    ("item_images.item", violations (fun _ g => ok_image g) (images s));
    ("items.owner", violations (fun _ t => ok_item t) (items s));
    ("ocr_runs.image_context", violations (fun _ n => ok_run n) (ocr_runs (kids s)));
    ("provider_call_audits.image_context", violations (fun _ a => ok_audit a) (provider_audits (kids s)));
    ("published_annotation_pages.image", violations (fun k _ => ok_indexed k.1 k.2) (published (kids s)));
    ("published_annotation_pages.publisher", violations (fun _ p => user_or_null (p_user_id p)) (published (kids s)));
    ("resource_cleanup_outbox.quota_owner", violations (fun _ d => ok_cleanup d) (a_cleanups (acc s)));
    ("storage_quota_usage.owner", violations ok_usage (a_usages (acc s)));
    ("transcription_job_attempts.job", violations (fun k _ => job_parent k.1) (q_attempts (queue s)));
    ("transcription_job_checkpoints.job", violations (fun k _ => job_parent k.1) (q_checkpoints (queue s)));
    ("transcription_jobs.image_context", violations (fun _ j => ok_job j) (q_jobs (queue s)));
    ("upload_batch_files.batch_resources", violations ok_file (files s));
    ("upload_batches.item_context", violations ok_batch (batches s));
    ("workspace_members.parent", set_violations ok_member (members s));
    ("workspace_storage_reservations.workspace", violations (fun _ v => ok_reservation v) (a_reservations (acc s))) ]%string.

(** Only the relationships with violations. *)
Definition AuditRelationshipIntegrity : result store_err (list (string * Z)) :=
  let rows := filter (fun r => r.2 > 0) AuditRelationshipIntegrityManual in
  if forallb (fun r => 0 <=? r.2) rows then Ok (filter (fun r => r.2 <> 0) rows) else Err Constraint.
End parents.

(** ** What an audit without violations means *)

Record related (s : idb) : Prop := {
  rel_members : forall m, m ∈ members s -> ok_member s m = true;
  rel_contexts : map_Forall (fun _ c => ok_context s c = true) (contexts s);
  rel_items : map_Forall (fun _ t => ok_item s t = true) (items s);
  rel_images : map_Forall (fun _ g => ok_image s g = true) (images s);
  rel_tokens : map_Forall (fun _ g => ok_grant s g = true) (review_tokens (kids s));
  rel_sessions : map_Forall (fun _ x => ok_session s x = true) (review_sessions (kids s));
  rel_requests : map_Forall (fun _ r => ok_request s r = true) (requests (kids s));
  rel_audits : map_Forall (fun _ a => ok_audit s a = true) (provider_audits (kids s));
  rel_runs : map_Forall (fun _ n => ok_run s n = true) (ocr_runs (kids s));
  rel_current : map_Forall (fun k sid => ok_current s k sid = true) (current_runs (kids s));
  rel_mirrors : forall i, i ∈ mirrors (kids s) -> any_image s i = true;
  rel_tombstones : forall i, i ∈ tombstones (kids s) -> any_image s i = true;
  rel_pages : map_Forall (fun k p => image_parent s k.1 k.2 = true) (pages (kids s));
  rel_editors : map_Forall (fun k p => user_or_null s (p_user_id p) = true) (pages (kids s));
  rel_index : map_Forall (fun k _ => ok_indexed s k.1.1 k.1.2 = true) (index (kids s));
  rel_published : map_Forall (fun k _ => ok_indexed s k.1 k.2 = true) (published (kids s));
  rel_publishers : map_Forall (fun k p => user_or_null s (p_user_id p) = true) (published (kids s));
  rel_jobs : map_Forall (fun _ j => ok_job s j = true) (q_jobs (queue s));
  rel_attempts : map_Forall (fun k _ => job_parent s k.1 = true) (q_attempts (queue s));
  rel_checkpoints : map_Forall (fun k _ => job_parent s k.1 = true) (q_checkpoints (queue s));
  rel_batches : map_Forall (fun k b => ok_batch s k b = true) (batches s);
  rel_files : map_Forall (fun k f => ok_file s k f = true) (files s);
  rel_reservations : map_Forall (fun _ v => ok_reservation s v = true) (a_reservations (acc s));
  rel_cleanups : map_Forall (fun _ d => ok_cleanup s d = true) (a_cleanups (acc s));
  rel_usages : map_Forall (fun ws u => ok_usage s ws u = true) (a_usages (acc s));
}.

Lemma no_violations {K A} `{Countable K} (ok : K -> A -> bool) (m : gmap K A) :
  violations ok m = 0 <-> map_Forall (fun k v => ok k v = true) m.
Proof.
  unfold violations. rewrite (Nat2Z.inj_iff _ 0), map_size_empty_iff, map_empty. split.
  - intros Hn k v Hv. specialize (Hn k). rewrite map_lookup_filter_None in Hn. destruct Hn as [Hn|Hn]; [congruence|].
    specialize (Hn v Hv). simpl in Hn. by destruct (ok k v).
  - intros Ha k. apply map_lookup_filter_None. right. intros v Hv. simpl. by rewrite (Ha k v Hv).
Qed.

Lemma no_set_violations {A} `{Countable A} (ok : A -> bool) (m : gset A) :
  set_violations ok m = 0 <-> forall x, x ∈ m -> ok x = true.
Proof.
  unfold set_violations. rewrite (Nat2Z.inj_iff _ 0), size_empty_iff. split.
  - intros Hn x Hx. destruct (ok x) eqn:E; [done|]. assert (x ∈ filter (fun x => ok x = false) m); [|set_solver].
    by apply elem_of_filter.
  - intros Ha x. split; [|set_solver]. rewrite elem_of_filter. intros [E Hx]. specialize (Ha x Hx). congruence.
Qed.
End ItemAudit.
