(* ===== verification/ItemPurge.v ===== *)
(** * Items: what deleting a resource graph leaves

    On related tables [deleteItemResourceGraph] deletes exactly the rows of the images it
    selects ([purge]), and of the item when it deletes all of it ([drop_item]).

    Modules [ItemPurge]: items: what deleting a resource graph leaves;
    [ItemRemove]: items: removing an item, and the accounts inside other transactions. *)

From Stdlib Require Import ZArith Lia Ascii String.
From stdpp Require Import base gmap strings list sorting.
From S2P Require Import Prelude GoStrings Json JobSchema MediaFragment Quota QuotaStore ItemDb ItemOps ItemAudit.

Module ItemPurge.
Import GoStr Json Quota QuotaStore ItemDb ItemGraph ItemOps ItemAudit.
#[local] Open Scope Z_scope.

(** ** The audit *)

Lemma violations_ge {K A} `{Countable K} (ok : K -> A -> bool) (m : gmap K A) : 0 <= violations ok m.
Proof. unfold violations. lia. Qed.
Lemma set_violations_ge {A} `{Countable A} (ok : A -> bool) (m : gset A) : 0 <= set_violations ok m.
Proof. unfold set_violations. lia. Qed.

Lemma audit_counts s : Forall (fun r => 0 <= r.2) (AuditRelationshipIntegrityManual s).
Proof. repeat first [apply Forall_nil_2 | apply Forall_cons_2]; apply violations_ge || apply set_violations_ge. Qed.

Lemma audit_all_zero s :
  AuditRelationshipIntegrity s = Ok [] <-> Forall (fun r => r.2 = 0) (AuditRelationshipIntegrityManual s).
Proof.
  unfold AuditRelationshipIntegrity. pose proof (audit_counts s) as Hc.
  induction (AuditRelationshipIntegrityManual s) as [|r l IH]; [simpl; split; [constructor|done]|].
  apply Forall_cons in Hc as [Hr Hl]. specialize (IH Hl). rewrite filter_cons, Forall_cons, <- IH.
  destruct (decide (r.2 > 0)) as [Hp|Hp]; cbn [forallb].
  - rewrite (proj2 (Z.leb_le 0 r.2)) by lia. rewrite filter_cons_True by lia.
    destruct (forallb _ _); simpl; split; [congruence|intros []; lia|congruence|intros []; lia].
  - split; [|tauto]. intros Ha. split; [lia|done].
Qed.

Lemma audit_silent s : AuditRelationshipIntegrity s = Ok [] <-> related s.
Proof.
  rewrite audit_all_zero. unfold AuditRelationshipIntegrityManual. rewrite !Forall_cons. cbn [snd].
  rewrite !no_violations, !no_set_violations. split.
  - intros (?&?&?&?&?&?&?&?&?&?&?&?&?&?&?&?&?&?&?&?&?&?&?&?&?&_). by split.
  - intros []. by split_and!.
Qed.

(** ** The purge *)

Section purge.
Context (gone : Z -> bool) (s : idb).

Definition job_gone (id : Z) : bool :=
  some_is (fun j => gone (Jobs.k_item_image_id (Jobs.j_key j))) (q_jobs (queue s) !! id).
Definition run_gone (sid : string) : bool := some_is (fun n => gone (n_item_image_id n)) (ocr_runs (kids s) !! sid).
Definition request_gone (r : request_row) : bool :=
  some_is gone (r_item_image_id r) || some_is job_gone (r_transcription_job_id r) || some_is run_gone (r_session_id r).

Definition purge_kids : children :=
  {| review_sessions := filter (fun kv => gone (k_item_image_id (ss_grant kv.2)) = false) (review_sessions (kids s));
     review_tokens := filter (fun kv => gone (k_item_image_id kv.2) = false) (review_tokens (kids s));
     requests := filter (fun kv => request_gone kv.2 = false) (requests (kids s));
     provider_audits := filter (fun kv => some_is gone (u_item_image_id kv.2) = false) (provider_audits (kids s));
     current_runs := filter (fun kv => gone kv.1 = false) (current_runs (kids s));
     ocr_runs := filter (fun kv => gone (n_item_image_id kv.2) = false) (ocr_runs (kids s));
     mirrors := filter (fun i => gone i = false) (mirrors (kids s));
     tombstones := filter (fun i => gone i = false) (tombstones (kids s));
     published := filter (fun kv => gone kv.1.2 = false) (published (kids s));
     index := filter (fun kv => gone kv.1.1.2 = false) (index (kids s));
     ground_truth := filter (fun kv => gone kv.1.1.2 = false) (ground_truth (kids s));
     pages := filter (fun kv => gone kv.1.2 = false) (pages (kids s)) |}.
Definition purge_queue : queue_tables :=
  {| q_jobs := filter (fun kv => gone (Jobs.k_item_image_id (Jobs.j_key kv.2)) = false) (q_jobs (queue s));
     q_attempts := filter (fun kv => job_gone kv.1.1 = false) (q_attempts (queue s));
     q_checkpoints := filter (fun kv => job_gone kv.1.1 = false) (q_checkpoints (queue s));
     q_next_job_id := q_next_job_id (queue s) |}.
Definition purge : idb :=
  set_images (filter (fun kg => gone kg.1 = false) (images s)) (next_image_id s)
    (set_queue purge_queue (set_kids purge_kids s)).

(** The files keep their rows, and what they held of the image. *)
Definition detach_files (now : Z) : gmap (Z * string * Z) file_row :=
  (fun f => if some_is gone (f_item_image_id f) || some_is job_gone (f_transcription_job_id f)
            then detached now f else f) <$> files s.
End purge.

Definition drop_item (ws : Z) (item : string) (s : idb) : idb :=
  set_batches (filter (fun kb => b_item_id kb.2 <> item) (batches s))
    (set_files (filter (fun kf => file_of_item ws item s kf.1 = false) (files s))
      (set_kids (with_requests (kids s) (filter (fun kv => r_item_id kv.2 <> Some item) (requests (kids s)))) s)).

(** ** Ground truth belongs to an image of its workspace (not audited) *)
Definition truth_related (s : idb) : Prop :=
  map_Forall (fun k (_ : Z) => image_parent s k.1.1 k.1.2 = true) (ground_truth (kids s)).

(** ** Rows and their image *)

Lemma image_parent_true s ws img : image_parent s ws img = true <->
  exists g, images s !! img = Some g /\ g_workspace_id g = ws.
Proof.
  unfold image_parent, some_is. destruct (images s !! img) as [g|]; [|naive_solver].
  rewrite Z.eqb_eq. naive_solver.
Qed.
Lemma image_of_parent_true s ws img item : image_of_parent s ws img item = true <->
  exists g, images s !! img = Some g /\ g_workspace_id g = ws /\ g_item_id g = item.
Proof.
  unfold image_of_parent, some_is. destruct (images s !! img) as [g|]; [|naive_solver].
  rewrite andb_true_iff, Z.eqb_eq, bool_decide_eq_true. naive_solver.
Qed.
Lemma item_parent_true s ws item : item_parent s ws item = true <->
  exists t, items s !! item = Some t /\ t_workspace_id t = ws.
Proof.
  unfold item_parent, some_is. destruct (items s !! item) as [t|]; [|naive_solver].
  rewrite Z.eqb_eq. naive_solver.
Qed.

Section of_workspace.
Context (s : idb) (ws : Z) (item : string) (img : Z).
Abbreviation gone := (target s ws item img).

Lemma target_parent w i : image_parent s w i = true -> gone i = true -> w = ws.
Proof.
  rewrite image_parent_true. intros (g & Hg & <-). unfold target. rewrite Hg.
  rewrite !andb_true_iff, Z.eqb_eq. tauto.
Qed.

(** A row of the workspace of its image is deleted with the image. *)
Lemma with_image w i : image_parent s w i = true -> ((w =? ws) && gone i) = gone i.
Proof.
  intros Hp. destruct (gone i) eqn:E; [|by rewrite andb_false_r].
  by rewrite (target_parent w i Hp E), Z.eqb_refl.
Qed.

Hypothesis Hrel : related s.
Hypothesis Htruth : truth_related s.

Lemma job_of_target job :
  job_of s ws gone job = job_gone gone s job.
Proof.
  unfold job_of, job_gone, some_is. destruct (q_jobs (queue s) !! job) as [j|] eqn:Hj; [|done].
  apply with_image. pose proof (rel_jobs _ Hrel _ _ Hj) as Hok. unfold ok_job in Hok. by split_bools.
Qed.

Lemma image_of_target i : image_parent s ws i = true -> image_of s item img i = gone i.
Proof.
  rewrite image_parent_true. intros (g & Hg & Hw). unfold image_of, target. by rewrite Hg, Hw, Z.eqb_refl.
Qed.
Lemma job_of_image job : job_of s ws (image_of s item img) job = job_gone gone s job.
Proof.
  rewrite <- job_of_target. unfold job_of. destruct (q_jobs (queue s) !! job) as [j|] eqn:Hj; [|done].
  pose proof (rel_jobs _ Hrel _ _ Hj) as Hok. unfold ok_job in Hok. split_bools.
  destruct (Z.eqb_spec (Jobs.k_workspace_id (Jobs.j_key j)) ws) as [E|]; [|done]. simpl. apply image_of_target. by rewrite <- E.
Qed.

Lemma grant_target g : ok_grant s g = true -> grant_here ws item img g = gone (k_item_image_id g).
Proof.
  unfold ok_grant, grant_here, target. intros Hg. split_bools.
  match goal with H : image_of_parent _ _ _ _ = true |- _ => apply image_of_parent_true in H as (x & -> & -> & ->) end.
  done.
Qed.

Lemma run_target sid n : ocr_runs (kids s) !! sid = Some n ->
  (n_workspace_id n =? ws) && gone (n_item_image_id n) = gone (n_item_image_id n).
Proof.
  intros Hn. apply with_image. pose proof (rel_runs _ Hrel _ _ Hn) as Hok. unfold ok_run in Hok. by split_bools.
Qed.

Lemma run_target' sid :
  match ocr_runs (kids s) !! sid with
  | Some n => gone (n_item_image_id n) && (n_workspace_id n =? ws)
  | None => false
  end = run_gone gone s sid.
Proof.
  unfold run_gone, some_is. destruct (ocr_runs (kids s) !! sid) as [n|] eqn:Hn; [|done].
  rewrite andb_comm. by eapply run_target.
Qed.

Lemma request_ws r : ok_request s r = true -> request_gone gone s r = true -> r_workspace_id r = ws.
Proof.
  unfold ok_request, request_gone. intros Hok Hg. split_bools.
  apply orb_true_iff in Hg as [[Hg|Hg]%orb_true_iff|Hg].
  - destruct (r_item_image_id r) as [i|]; [|done]. split_bools. by eapply target_parent.
  - destruct (r_transcription_job_id r) as [job|] eqn:Ej; [|done]. simpl in *.
    unfold job_gone in Hg. destruct (request_job s r) as [j|] eqn:Er; [|done].
    unfold request_job in Er. rewrite Ej in Er. simpl in Er.
    destruct (q_jobs (queue s) !! job) as [j'|] eqn:Hj; [|done]. simpl in *.
    destruct (_ && _) eqn:E; [|done]. split_bools. simplify_eq.
    pose proof (rel_jobs _ Hrel _ _ Hj) as Hjob. unfold ok_job in Hjob. split_bools.
    etrans; [symmetry; eassumption|]. by eapply target_parent.
  - destruct (r_session_id r) as [sid|] eqn:Es; [|done]. simpl in *.
    unfold run_gone in Hg. destruct (request_run s r) as [n|] eqn:Er; [|done].
    unfold request_run in Er. rewrite Es in Er. simpl in Er.
    destruct (ocr_runs (kids s) !! sid) as [n'|] eqn:Hn; [|done]. simpl in *.
    destruct ((n_workspace_id n' =? r_workspace_id r) && _) eqn:E; [|done]. split_bools. simplify_eq.
    pose proof (rel_runs _ Hrel _ _ Hn) as Hrun. unfold ok_run in Hrun. split_bools.
    etrans; [symmetry; eassumption|]. by eapply target_parent.
Qed.

Lemma request_target r : ok_request s r = true -> item_parent s ws item = true ->
  request_here ws item img s r = request_gone gone s r || ((img =? 0) && bool_decide (r_item_id r = Some item)).
Proof.
  intros Hok Hitem. unfold request_here.
  replace (some_is (job_of s ws gone) (r_transcription_job_id r))
    with (some_is (job_gone gone s) (r_transcription_job_id r))
    by (destruct (r_transcription_job_id r); simpl; [by rewrite job_of_target|done]).
  set (x := some_is (fun sid => match _ with Some _ => _ | None => _ end) (r_session_id r)).
  assert (x = some_is (run_gone gone s) (r_session_id r)) as -> by
    (subst x; destruct (r_session_id r); simpl; [by rewrite run_target'|done]).
  unfold request_gone. set (a := (img =? 0) && _). set (b := some_is gone _). set (c := some_is (job_gone _ _) _).
  set (d := some_is (run_gone _ _) _).
  assert (Hw : a || b || c || d = true -> r_workspace_id r = ws).
  { intros Hd. destruct (request_gone gone s r) eqn:E; [by apply request_ws|].
    unfold request_gone in E. fold b c d in E. apply orb_false_iff in E as [[Eb Ec]%orb_false_iff Ed].
    rewrite Eb, Ec, Ed, !orb_false_r in Hd. subst a. split_bools.
    unfold ok_request in Hok. split_bools.
    match goal with H : r_item_id r = Some item |- _ => rewrite H in * end.
    repeat match goal with H : item_parent _ _ _ = true |- _ => apply item_parent_true in H as (? & ? & ?) end.
    congruence. }
  replace (b || c || d || a) with (a || b || c || d) by (destruct a, b, c, d; done).
  destruct (a || b || c || d); [|by rewrite andb_false_r]. by rewrite Hw, Z.eqb_refl.
Qed.

Lemma batch_of_item k b : batches s !! k = Some b -> item_parent s ws item = true ->
  (k.1 =? ws) && bool_decide (b_item_id b = item) = bool_decide (b_item_id b = item).
Proof.
  intros Hb (t & Ht & Hw)%item_parent_true. case_bool_decide as E; [|by rewrite andb_false_r]. rewrite andb_true_r.
  pose proof (rel_batches _ Hrel _ _ Hb) as Hok. unfold ok_batch in Hok. split_bools.
  match goal with H : item_parent _ _ _ = true |- _ => apply item_parent_true in H as (t' & Ht' & Hw') end.
  apply Z.eqb_eq. congruence.
Qed.

(** The files of the images, by the image or by the job. *)
Lemma file_target k f : files s !! k = Some f -> img <> 0 -> is_Some (image_in ws s img) ->
  (forall g, images s !! img = Some g -> g_item_id g = item) ->
  file_of_image ws item img s k f = some_is gone (f_item_image_id f) || some_is (job_gone gone s) (f_transcription_job_id f).
Proof.
  intros Hf Hi Him Hit.
  assert (exists g, images s !! img = Some g /\ g_workspace_id g = ws /\ g_item_id g = item) as (g & Hg & Hgw & Hgi).
  { unfold image_in in Him. destruct (images s !! img) as [g|] eqn:Hg; [|by destruct Him].
    exists g. split_and!; [done| |auto].
    pose proof (rel_images _ Hrel _ _ Hg) as Hok. apply item_parent_true in Hok as (t & Ht & Hw). rewrite Ht in Him.
    destruct (Z.eqb_spec (t_workspace_id t) ws); [congruence|by destruct Him]. }
  assert (Hgone : forall i, gone i = (i =? img)).
  { intros i. unfold target, chosen. rewrite (proj2 (Z.eqb_neq img 0) Hi). simpl.
    destruct (Z.eqb_spec i img) as [->|]; [|by destruct (images s !! i); rewrite ?andb_false_r].
    rewrite Hg, Hgw, Z.eqb_refl. by rewrite bool_decide_true. }
  assert (Hjob : forall j, job_gone gone s j = job_gone (fun i => i =? img) s j).
  { intros j. unfold job_gone, some_is. destruct (q_jobs (queue s) !! j); [apply Hgone|done]. }
  unfold file_of_image. rewrite Hg, Hgw, Z.eqb_refl, (bool_decide_true (g_item_id g = item)) by done. simpl. rewrite andb_true_r.
  pose proof (rel_files _ Hrel _ _ Hf) as Hok. unfold ok_file in Hok.
  destruct (batches s !! k.1) as [b|]; [|done]. apply andb_true_iff in Hok as [Hokf Hokj].
  set (x := bool_decide (f_item_image_id f = Some img)).
  assert (Hx : some_is gone (f_item_image_id f) = x).
  { subst x. destruct (f_item_image_id f) as [i|]; simpl; [rewrite Hgone|done].
    destruct (Z.eqb_spec i img); [by subst; rewrite bool_decide_true|by rewrite bool_decide_false by congruence]. }
  rewrite Hx. destruct (Z.eqb_spec k.1.1 ws) as [Hk|Hk]; simpl.
  - f_equal. destruct (f_transcription_job_id f) as [job|]; [|done]. simpl.
    rewrite <- job_of_target. unfold job_of. destruct (q_jobs (queue s) !! job); [|done]. by rewrite Hgone.
  - symmetry. apply orb_false_iff. split.
    + subst x. apply bool_decide_eq_false. intros E. rewrite E in Hokf.
      apply image_of_parent_true in Hokf as (g' & Hg' & Hw & _). congruence.
    + destruct (f_transcription_job_id f) as [job|]; [|done]. simpl. rewrite Hjob. unfold job_gone.
      destruct (q_jobs (queue s) !! job) as [j|]; [|done]. simpl in *.
      apply andb_true_iff in Hokj as [_ Hokj]. apply image_of_parent_true in Hokj as (g' & Hg' & Hw & _).
      apply Z.eqb_neq. congruence.
Qed.

(** The tables but for the files, the batches and the images: the same whatever is deleted. *)
Definition graph_kids (s1 : idb) : children :=
  {| review_sessions := filter (fun kv => grant_here ws item img (ss_grant kv.2) = false) (review_sessions (kids s1));
     review_tokens := filter (fun kv => grant_here ws item img kv.2 = false) (review_tokens (kids s1));
     requests := filter (fun kv => request_here ws item img s1 kv.2 = false) (requests (kids s1));
     provider_audits := filter (fun kv =>
       (u_workspace_id kv.2 =? ws) && some_is (target s1 ws item img) (u_item_image_id kv.2) = false) (provider_audits (kids s1));
     current_runs := filter (fun kv => target s1 ws item img kv.1 = false) (current_runs (kids s1));
     ocr_runs := filter (fun kv => (n_workspace_id kv.2 =? ws) && target s1 ws item img (n_item_image_id kv.2) = false) (ocr_runs (kids s1));
     mirrors := filter (fun i => target s1 ws item img i = false) (mirrors (kids s1));
     tombstones := filter (fun i => target s1 ws item img i = false) (tombstones (kids s1));
     published := filter (fun kv => (kv.1.1 =? ws) && target s1 ws item img kv.1.2 = false) (published (kids s1));
     index := filter (fun kv => (kv.1.1.1 =? ws) && target s1 ws item img kv.1.1.2 = false) (index (kids s1));
     ground_truth := filter (fun kv => (kv.1.1.1 =? ws) && target s1 ws item img kv.1.1.2 = false) (ground_truth (kids s1));
     pages := filter (fun kv => (kv.1.1 =? ws) && target s1 ws item img kv.1.2 = false) (pages (kids s1)) |}.
Definition graph_queue (s1 : idb) : queue_tables :=
  {| q_jobs := filter (fun kv => job_of s1 ws (target s1 ws item img) kv.1 = false) (q_jobs (queue s1));
     q_attempts := filter (fun kv => job_of s1 ws (target s1 ws item img) kv.1.1 = false) (q_attempts (queue s1));
     q_checkpoints := filter (fun kv => job_of s1 ws (image_of s1 item img) kv.1.1 = false) (q_checkpoints (queue s1));
     q_next_job_id := q_next_job_id (queue s1) |}.

Lemma graph_kids_purged : item_parent s ws item = true ->
  graph_kids s = (if img =? 0 then with_requests (purge_kids gone s)
    (filter (fun kv => r_item_id kv.2 <> Some item) (requests (purge_kids gone s))) else purge_kids gone s).
Proof.
  intros Hitem.
  assert (Hreq : filter (fun kv => request_here ws item img s kv.2 = false) (requests (kids s)) =
    (if img =? 0 then filter (fun kv => r_item_id kv.2 <> Some item) (requests (purge_kids gone s)) else requests (purge_kids gone s))).
  { transitivity (filter (fun kv => ~ ((img =? 0) = true /\ r_item_id kv.2 = Some item)) (requests (purge_kids gone s))).
    - simpl. rewrite map_filter_filter. apply map_filter_ext. intros i r Hr. simpl.
      rewrite request_target by (done || apply (rel_requests _ Hrel _ _ Hr)).
      rewrite orb_false_iff, andb_false_iff, bool_decide_eq_false. destruct (img =? 0); naive_solver.
    - destruct (img =? 0); [|apply map_filter_id; naive_solver]. apply map_filter_ext. naive_solver. }
  unfold graph_kids. rewrite Hreq.
  replace (filter (fun kv => grant_here ws item img (ss_grant kv.2) = false) (review_sessions (kids s)))
    with (review_sessions (purge_kids gone s)).
  2:{ apply map_filter_ext. intros i x Hx. simpl. rewrite grant_target; [done|].
      pose proof (rel_sessions _ Hrel _ _ Hx) as Hok. unfold ok_session in Hok. by split_bools. }
  replace (filter (fun kv => grant_here ws item img kv.2 = false) (review_tokens (kids s)))
    with (review_tokens (purge_kids gone s)).
  2:{ apply map_filter_ext. intros i x Hx. simpl. rewrite grant_target; [done|]. apply (rel_tokens _ Hrel _ _ Hx). }
  replace (filter (fun kv => (u_workspace_id kv.2 =? ws) && some_is gone (u_item_image_id kv.2) = false) (provider_audits (kids s)))
    with (provider_audits (purge_kids gone s)).
  2:{ apply map_filter_ext. intros i x Hx. simpl. pose proof (rel_audits _ Hrel _ _ Hx) as Hok. unfold ok_audit in Hok.
      destruct (u_item_image_id x) as [im|]; simpl; [|by rewrite andb_false_r]. split_bools. by rewrite with_image. }
  replace (filter (fun kv => (n_workspace_id kv.2 =? ws) && gone (n_item_image_id kv.2) = false) (ocr_runs (kids s)))
    with (ocr_runs (purge_kids gone s)).
  2:{ apply map_filter_ext. intros i x Hx. simpl. by rewrite (run_target i). }
  replace (filter (fun kv => (kv.1.1 =? ws) && gone kv.1.2 = false) (published (kids s)))
    with (published (purge_kids gone s)).
  2:{ apply map_filter_ext. intros i x Hx. simpl. rewrite with_image; [done|].
      pose proof (rel_published _ Hrel _ _ Hx) as Hok. unfold ok_indexed in Hok. by split_bools. }
  replace (filter (fun kv => (kv.1.1.1 =? ws) && gone kv.1.1.2 = false) (index (kids s)))
    with (index (purge_kids gone s)).
  2:{ apply map_filter_ext. intros i x Hx. simpl. rewrite with_image; [done|].
      pose proof (rel_index _ Hrel _ _ Hx) as Hok. unfold ok_indexed in Hok. by split_bools. }
  replace (filter (fun kv => (kv.1.1.1 =? ws) && gone kv.1.1.2 = false) (ground_truth (kids s)))
    with (ground_truth (purge_kids gone s)).
  2:{ apply map_filter_ext. intros i x Hx. simpl. rewrite with_image; [done|]. apply (Htruth _ _ Hx). }
  replace (filter (fun kv => (kv.1.1 =? ws) && gone kv.1.2 = false) (pages (kids s)))
    with (pages (purge_kids gone s)).
  2:{ apply map_filter_ext. intros i x Hx. simpl. rewrite with_image; [done|]. apply (rel_pages _ Hrel _ _ Hx). }
  destruct (img =? 0); done.
Qed.

Lemma graph_queue_purged : graph_queue s = purge_queue gone s.
Proof.
  unfold graph_queue, purge_queue. f_equal; apply map_filter_ext; intros i x Hx; simpl.
  - rewrite job_of_target. unfold job_gone. by rewrite Hx.
  - by rewrite job_of_target.
  - by rewrite job_of_image.
Qed.
End of_workspace.

Lemma deleted_image ws s img g : image_in ws s img = Some g ->
  requireDeletedRow (DeleteItemImageForWorkspaceManual ws img) s = Ok (tt, set_images (delete img (images s)) (next_image_id s) s).
Proof.
  intros H. unfold requireDeletedRow, DeleteItemImageForWorkspaceManual. unfold mbind, tx_bind. by rewrite H.
Qed.

Section graph.
Context (s : idb) (now ws : Z) (item : string).
Hypothesis Hrel : related s.
Hypothesis Htruth : truth_related s.
Hypothesis Hws : ws <> 0.
Hypothesis Htrim : TrimSpace item = item.
Hypothesis Hname : item <> ""%string.

Lemma delete_item_graph : item_parent s ws item = true ->
  deleteItemResourceGraph now ws item 0 s = Ok (tt, drop_item ws item (purge (target s ws item 0) s)).
Proof using All.
  intros Hitem. unfold deleteItemResourceGraph. rewrite Htrim, (proj2 (Z.eqb_neq ws 0)), bool_decide_false by done.
  cbv zeta. change (0 =? 0) with true. cbv iota.
  transitivity (Ok (E := store_err) (tt, set_images (filter (fun kg => (g_workspace_id kg.2 =? ws) && bool_decide (g_item_id kg.2 = item) = false) (images s))
    (next_image_id s) (set_batches (filter (fun kb => (kb.1.1 =? ws) && bool_decide (b_item_id kb.2 = item) = false) (batches s))
      (set_files (filter (fun kf => file_of_item ws item s kf.1 = false) (files s))
        (set_queue (graph_queue ws item 0 s) (set_kids (graph_kids ws item 0 s) s)))))); [reflexivity|].
  rewrite graph_kids_purged, graph_queue_purged by done. simpl.
  do 2 f_equal. unfold drop_item, purge, set_batches, set_files, set_images, set_kids, set_queue. simpl. f_equal.
  - apply map_filter_ext. intros i g Hg. simpl. unfold target. rewrite Hg. unfold chosen. simpl. by rewrite andb_true_r.
  - apply map_filter_ext. intros k b Hb. simpl. rewrite (batch_of_item s ws item Hrel k b) by done.
    by rewrite bool_decide_eq_false.
Qed.

Lemma delete_image_graph img g : img <> 0 -> image_in ws s img = Some g -> g_item_id g = item ->
  deleteItemResourceGraph now ws item img s =
    Ok (tt, set_files (detach_files (target s ws item img) s now) (purge (target s ws item img) s)).
Proof using All.
  intros Himg Hin Hg. unfold deleteItemResourceGraph. rewrite Htrim, (proj2 (Z.eqb_neq ws 0)), bool_decide_false by done.
  cbv zeta. rewrite (proj2 (Z.eqb_neq img 0)) by done. cbv iota.
  assert (images s !! img = Some g /\ item_parent s ws item = true) as [Hi Hitem].
  { unfold image_in in Hin. destruct (images s !! img) as [g'|]; [|done].
    destruct (items s !! g_item_id g') as [t|] eqn:Ht; [|done]. destruct (Z.eqb_spec (t_workspace_id t) ws); [|done].
    simplify_eq. split; [done|]. apply item_parent_true. eauto. }
  assert (Hgw : g_workspace_id g = ws).
  { pose proof (rel_images _ Hrel _ _ Hi) as Hok. apply item_parent_true in Hok as (t & Ht & Hw).
    apply item_parent_true in Hitem as (t' & Ht' & <-). congruence. }
  transitivity (requireDeletedRow (DeleteItemImageForWorkspaceManual ws img)
    (set_files (map_imap (fun k f => Some (if file_of_image ws item img s k f then detached now f else f)) (files s))
      (set_queue (graph_queue ws item img s) (set_kids (graph_kids ws item img s) s)))); [reflexivity|].
  rewrite (deleted_image _ _ _ g) by exact Hin. simpl.
  rewrite graph_kids_purged, graph_queue_purged by done. rewrite (proj2 (Z.eqb_neq img 0)) by done.
  do 2 f_equal. unfold purge, set_files, set_images, set_kids, set_queue. simpl. f_equal.
  - apply map_eq. intros i. destruct (decide (i = img)) as [->|Hne].
    + rewrite lookup_delete_eq. symmetry. apply map_lookup_filter_None. right. intros g' Hg'. simpl.
      unfold target. rewrite Hg'. simplify_eq. rewrite Z.eqb_refl, bool_decide_true by done. unfold chosen.
      by rewrite Z.eqb_refl, orb_true_r.
    + rewrite lookup_delete_ne by done. destruct (images s !! i) as [g'|] eqn:E.
      * symmetry. apply map_lookup_filter_Some. split; [done|]. simpl. unfold target, chosen. rewrite E.
        rewrite (proj2 (Z.eqb_neq img 0)), (proj2 (Z.eqb_neq i img)) by done. by rewrite andb_false_r.
      * symmetry. apply map_lookup_filter_None. by left.
  - unfold detach_files. apply map_eq. intros k. rewrite map_lookup_imap, lookup_fmap.
    destruct (files s !! k) as [f|] eqn:Hf; [|done]. simpl. f_equal.
    erewrite (file_target s ws item img); eauto. congruence.
Qed.
End graph.

(** ** What survives is related *)

Lemma bool_filter {K A} `{Countable K} (p : K * A -> bool) (m : gmap K A) k :
  filter (fun kv => p kv = false) m !! k = match m !! k with Some v => if p (k, v) then None else Some v | None => None end.
Proof.
  destruct (m !! k) as [v|] eqn:E.
  - destruct (p (k, v)) eqn:Ep.
    + apply map_lookup_filter_None. right. intros v' Hv'. simplify_eq. congruence.
    + apply map_lookup_filter_Some. by rewrite Ep.
  - apply map_lookup_filter_None. by left.
Qed.

Section survivors.
Context (gone : Z -> bool) (s : idb).
Abbreviation s' := (purge gone s).

Lemma purge_image i : images s' !! i = if gone i then None else images s !! i.
Proof. simpl. rewrite (bool_filter (fun kg => gone kg.1)). simpl. destruct (images s !! i); by destruct (gone i). Qed.
Lemma purge_job j : q_jobs (queue s') !! j = if job_gone gone s j then None else q_jobs (queue s) !! j.
Proof.
  simpl. rewrite (bool_filter (fun kv => gone (Jobs.k_item_image_id (Jobs.j_key kv.2)))). unfold job_gone.
  by destruct (q_jobs (queue s) !! j).
Qed.
Lemma purge_run sid : ocr_runs (kids s') !! sid = if run_gone gone s sid then None else ocr_runs (kids s) !! sid.
Proof.
  simpl. rewrite (bool_filter (fun kv => gone (n_item_image_id kv.2))). unfold run_gone.
  by destruct (ocr_runs (kids s) !! sid).
Qed.
Lemma purge_image_parent w i : gone i = false -> image_parent s' w i = image_parent s w i.
Proof. intros Hi. unfold image_parent. by rewrite purge_image, Hi. Qed.
Lemma purge_image_of_parent w i it : gone i = false -> image_of_parent s' w i it = image_of_parent s w i it.
Proof. intros Hi. unfold image_of_parent. by rewrite purge_image, Hi. Qed.
Lemma purge_not_of i it : image_not_of s i it = false -> image_not_of s' i it = false.
Proof. unfold image_not_of. rewrite purge_image. by destruct it, (gone i), (images s !! i). Qed.

Lemma purge_grant g : gone (k_item_image_id g) = false -> ok_grant s g = true -> ok_grant s' g = true.
Proof. intros Hi. unfold ok_grant. by rewrite purge_image_of_parent. Qed.

Lemma purge_request r : request_gone gone s r = false -> ok_request s r = true -> ok_request s' r = true.
Proof.
  unfold request_gone. intros [[Hi Hj]%orb_false_iff Hn]%orb_false_iff Hok.
  assert (Ej : request_job s' r = request_job s r).
  { unfold request_job. destruct (r_transcription_job_id r) as [j|]; [|done]. simpl in *. by rewrite purge_job, Hj. }
  assert (En : request_run s' r = request_run s r).
  { unfold request_run. destruct (r_session_id r) as [j|]; [|done]. simpl in *. by rewrite purge_run, Hn. }
  unfold ok_request in *. rewrite Ej, En.
  apply andb_true_iff in Hok as [[[[H1 H2]%andb_true_iff H3]%andb_true_iff H4]%andb_true_iff H5].
  apply andb_true_iff; split; [apply andb_true_iff; split; [apply andb_true_iff; split; [apply andb_true_iff; split; [done|done]|]|]|].
  - destruct (r_item_image_id r) as [i|]; [|done]. simpl in Hi. split_bools.
    rewrite purge_image_parent by done. apply andb_true_iff. split; [done|]. apply negb_true_iff. by apply purge_not_of.
  - destruct (r_transcription_job_id r); [|done]. destruct (request_job s r); [|done]. simpl in *.
    apply negb_true_iff. apply purge_not_of. by apply negb_true_iff.
  - destruct (r_session_id r); [|done]. destruct (request_run s r); [|done]. simpl in *.
    apply andb_true_iff in H5 as [H5 H6]. apply andb_true_iff. split; [|done].
    apply negb_true_iff. apply purge_not_of. by apply negb_true_iff.
Qed.

(** The rows of a filtered table. *)
Lemma kept {K A} `{Countable K} (p : K * A -> bool) (m : gmap K A) (P Q : K -> A -> Prop) :
  map_Forall P m -> (forall k v, p (k, v) = false -> P k v -> Q k v) -> map_Forall Q (filter (fun kv => p kv = false) m).
Proof. intros HP HPQ k v [Hv Hp]%map_lookup_filter_Some. auto. Qed.

Hypothesis Hrel : related s.

Lemma purge_job_ok j : gone (Jobs.k_item_image_id (Jobs.j_key j)) = false -> ok_job s j = true -> ok_job s' j = true.
Proof. intros Hi. unfold ok_job. by rewrite purge_image_parent. Qed.
Lemma purge_job_parent j : job_gone gone s j = false -> job_parent s j = true -> job_parent s' j = true.
Proof. intros Hj. unfold job_parent. by rewrite purge_job, Hj. Qed.
Lemma purge_indexed w i : gone i = false -> ok_indexed s w i = true -> ok_indexed s' w i = true.
Proof.
  intros Hi. unfold ok_indexed, page_parent. rewrite purge_image_parent by done. simpl.
  rewrite (bool_filter (fun kv => gone kv.1.2)). destruct (pages (kids s) !! (w, i)); [|done]. simpl. by rewrite Hi.
Qed.

Lemma purge_related f : map_Forall (fun k x => ok_file s' k x = true) f -> related (set_files f s').
Proof using Hrel.
  intros Hf. destruct Hrel. split; try done.
  - intros i g [Hg _]%map_lookup_filter_Some. by apply (rel_images0 i g).
  - apply (kept (fun kv => gone (k_item_image_id kv.2)) _ _ _ rel_tokens0). intros k v. apply purge_grant.
  - intros i x [Hx Hi]%map_lookup_filter_Some. simpl in Hi. pose proof (rel_sessions0 i x Hx) as Hok. unfold ok_session in *.
    apply andb_true_iff in Hok as [Ht Hg]. apply andb_true_iff. split; [|by apply purge_grant]. simpl.
    rewrite (bool_filter (fun kv => gone (k_item_image_id kv.2))). unfold some_is in *.
    destruct (review_tokens (kids s) !! ss_token x) as [t|]; [|done]. simpl.
    destruct (gone (k_item_image_id t)) eqn:E; [|done]. split_bools. congruence.
  - apply (kept (fun kv => request_gone gone s kv.2) _ _ _ rel_requests0). intros k v. apply purge_request.
  - apply (kept (fun kv => some_is gone (u_item_image_id kv.2)) _ _ _ rel_audits0). intros k a Hi. simpl in Hi.
    unfold ok_audit. destruct (u_item_image_id a); [|done]. simpl in Hi. intros Ha.
    erewrite <- purge_image_parent in Ha; [exact Ha|done].
  - apply (kept (fun kv => gone (n_item_image_id kv.2)) _ _ _ rel_runs0). intros k n Hi. simpl in Hi.
    unfold ok_run. intros Ha. erewrite <- purge_image_parent in Ha; [exact Ha|done].
  - apply (kept (fun kv => gone kv.1) _ _ _ rel_current0). intros i sid Hi. simpl in Hi. unfold ok_current.
    intros [Hn Ha]%andb_true_iff. apply andb_true_iff. split.
    + simpl. rewrite (bool_filter (fun kv => gone (n_item_image_id kv.2))). unfold some_is in *.
      destruct (ocr_runs (kids s) !! sid) as [n|]; [|done]. simpl. split_bools.
      match goal with H : n_item_image_id n = i |- _ => rewrite H in * end. rewrite Hi. by apply Z.eqb_eq.
    + unfold any_image. change (images (set_files f s')) with (images s'). by rewrite purge_image, Hi.
  - intros i. simpl. rewrite elem_of_filter. intros [Hi Hm]. unfold any_image.
    change (images (set_files f s')) with (images s'). rewrite purge_image, Hi. by apply rel_mirrors0.
  - intros i. simpl. rewrite elem_of_filter. intros [Hi Hm]. unfold any_image.
    change (images (set_files f s')) with (images s'). rewrite purge_image, Hi. by apply rel_tombstones0.
  - apply (kept (fun kv => gone kv.1.2) _ _ _ rel_pages0). intros k p Hi Ha. simpl in Hi.
    erewrite <- purge_image_parent in Ha; [exact Ha|done].
  - by apply (kept (fun kv => gone kv.1.2) _ _ _ rel_editors0).
  - apply (kept (fun kv => gone kv.1.1.2) _ _ _ rel_index0). intros k p Hi. by apply purge_indexed.
  - apply (kept (fun kv => gone kv.1.2) _ _ _ rel_published0). intros k p Hi. by apply purge_indexed.
  - by apply (kept (fun kv => gone kv.1.2) _ _ _ rel_publishers0).
  - apply (kept (fun kv => gone (Jobs.k_item_image_id (Jobs.j_key kv.2))) _ _ _ rel_jobs0). intros k p Hi. by apply purge_job_ok.
  - apply (kept (fun kv => job_gone gone s kv.1.1) _ _ _ rel_attempts0). intros k p Hi. by apply purge_job_parent.
  - apply (kept (fun kv => job_gone gone s kv.1.1) _ _ _ rel_checkpoints0). intros k p Hi. by apply purge_job_parent.
Qed.
End survivors.
End ItemPurge.

(** * Items: removing an item, and the accounts inside other transactions *)

Module ItemRemove.
Import GoStr Json Quota QuotaStore ItemDb ItemGraph ItemOps ItemAudit ItemPurge.
#[local] Open Scope Z_scope.

Definition remove_item (ws : Z) (item : string) (s : idb) : idb :=
  set_items (delete item (items s)) (drop_item ws item s).

Section remove.
Context (ws : Z) (item : string) (s : idb).
Hypothesis Hrel : related s.
Hypothesis Hitem : item_parent s ws item = true.
Hypothesis Hempty : forall i g, images s !! i = Some g -> g_item_id g <> item.
Abbreviation s' := (remove_item ws item s).

Lemma batch_kept k : batches s' !! k = match batches s !! k with
  | Some b => if bool_decide (b_item_id b = item) then None else Some b | None => None end.
Proof using All.
  simpl. destruct (batches s !! k) as [b|] eqn:Hb.
  - case_bool_decide as Hi.
    + apply map_lookup_filter_None. right. intros b' Hb'. simplify_eq. simpl. auto.
    + apply map_lookup_filter_Some. auto.
  - apply map_lookup_filter_None. by left.
Qed.
Lemma item_kept w i : i <> item -> item_parent s' w i = item_parent s w i.
Proof using All. intros Hi. unfold item_parent. simpl. by rewrite lookup_delete_ne. Qed.

Lemma removed_files_ok : map_Forall (fun k f => ok_file s' k f = true) (files s').
Proof using All.
  intros k f [Hf Hk]%map_lookup_filter_Some. pose proof (rel_files _ Hrel _ _ Hf) as Hok.
  unfold ok_file in *. rewrite batch_kept. destruct (batches s !! k.1) as [b|] eqn:Hb; [|done].
  rewrite bool_decide_false; [exact Hok|]. intros Hi. simpl in Hk. unfold file_of_item in Hk.
  pose proof (batch_of_item s ws item Hrel k.1 b Hb Hitem) as Hw. rewrite bool_decide_true in Hw by done. split_bools.
  destruct k as [[w id] q]. simpl in *. subst w. rewrite Hb, bool_decide_true, Z.eqb_refl in Hk by done. done.
Qed.

Lemma remove_related : related s'.
Proof using All.
  pose proof Hrel as []. split; try done.
  - intros i t Hd. change (delete item (items s) !! i = Some t) in Hd. apply lookup_delete_Some in Hd as [_ Ht]. by apply (rel_items0 i t).
  - intros i g Hg. unfold ok_image. rewrite item_kept by (by eapply Hempty). by apply (rel_images0 i g).
  - intros i r [Hr Hn]%map_lookup_filter_Some. specialize (rel_requests0 i r Hr). unfold ok_request in *.
    destruct (r_item_id r) as [it|] eqn:Ei; [|exact rel_requests0]. rewrite item_kept by (simpl in Hn; congruence). exact rel_requests0.
  - intros k b. rewrite batch_kept. destruct (batches s !! k) as [b'|] eqn:Hb; [|done].
    case_bool_decide; [done|]. intros [= ->]. unfold ok_batch. rewrite item_kept by done. by apply (rel_batches0 k b).
  - apply removed_files_ok.
Qed.
End remove.

Lemma drop_twice ws item s :
  drop_item ws item (set_files (filter (fun kf => file_of_item ws item s kf.1 = false) (files s)) s) = drop_item ws item s.
Proof.
  unfold drop_item. simpl. f_equal. unfold set_files, set_kids. simpl. f_equal.
  rewrite map_filter_filter. apply map_filter_ext. intros k f _. simpl. tauto.
Qed.

Lemma target_item s ws item i : target s ws item 0 i = true -> exists g, images s !! i = Some g /\ g_item_id g = item.
Proof. unfold target. destruct (images s !! i) as [g|]; [|done]. intros. split_bools. eauto. Qed.

Lemma item_target s ws item i g : related s -> item_parent s ws item = true ->
  images s !! i = Some g -> g_item_id g = item -> target s ws item 0 i = true.
Proof.
  intros Hrel (t & Ht & Hw)%item_parent_true Hg Hi. unfold target, chosen. rewrite Hg.
  pose proof (rel_images _ Hrel _ _ Hg) as Hok. apply item_parent_true in Hok as (t' & Ht' & Hw').
  rewrite !andb_true_iff, Z.eqb_eq, bool_decide_eq_true. simpl. split_and!; congruence.
Qed.

(** The whole item. *)
Lemma remove_item_related ws item s : related s -> item_parent s ws item = true ->
  related (remove_item ws item (purge (target s ws item 0) s)).
Proof.
  intros Hrel Hitem. unfold remove_item. rewrite <- drop_twice.
  set (F := filter _ _). set (s1 := set_files F (purge (target s ws item 0) s)).
  change (related (remove_item ws item s1)). apply remove_related.
  - apply purge_related; [done|]. intros k f [Hf Hk]%map_lookup_filter_Some. simpl in Hk.
    pose proof (rel_files _ Hrel _ _ Hf) as Hok. unfold ok_file in *. simpl.
    destruct (batches s !! k.1) as [b|] eqn:Hb; [|done].
    assert (Hi : b_item_id b <> item).
    { intros Hi. pose proof (batch_of_item s ws item Hrel k.1 b Hb Hitem) as Hw. rewrite bool_decide_true in Hw by done.
      unfold file_of_item in Hk. destruct k as [[w id] q]. simpl in *. split_bools. subst w.
      rewrite Hb, bool_decide_true, Z.eqb_refl in Hk by done. done. }
    assert (Hg : forall w i, image_of_parent s w i (b_item_id b) = true -> target s ws item 0 i = false).
    { intros w i (g & Hg & _ & Hgi)%image_of_parent_true. unfold target. rewrite Hg, bool_decide_false by congruence.
      by rewrite andb_false_r. }
    apply andb_true_iff in Hok as [H1 H2]. apply andb_true_iff. split.
    + destruct (f_item_image_id f) as [i|]; [|done]. rewrite purge_image_of_parent; [done|]. by eapply Hg.
    + destruct (f_transcription_job_id f) as [j|]; [|done].
      rewrite (bool_filter (fun kv => target s ws item 0 (Jobs.k_item_image_id (Jobs.j_key kv.2)))).
      destruct (q_jobs (queue s) !! j) as [jr|]; [|done]. simpl.
      apply andb_true_iff in H2 as [H2 H3]. rewrite (Hg _ _ H3), H2. simpl.
      rewrite purge_image_of_parent; [done|]. by eapply Hg.
  - exact Hitem.
  - intros i g. change (images s1) with (images (purge (target s ws item 0) s)). rewrite purge_image.
    destruct (target s ws item 0 i) eqn:E; [done|]. intros Hg Hi. by rewrite (item_target s ws item i g) in E.
Qed.

(** One image. *)
Lemma detach_related ws item img now s : related s -> related (set_files (detach_files (target s ws item img) s now) (purge (target s ws item img) s)).
Proof.
  intros Hrel. apply purge_related; [done|]. intros k f'. unfold detach_files. rewrite lookup_fmap.
  destruct (files s !! k) as [f|] eqn:Hf; [|done]. intros [= <-].
  pose proof (rel_files _ Hrel _ _ Hf) as Hok. unfold ok_file in *. simpl.
  destruct (batches s !! k.1) as [b|] eqn:Hb; [|done]. destruct (_ || _) eqn:E; [done|].
  apply orb_false_iff in E as [E1 E2]. apply andb_true_iff in Hok as [H1 H2]. apply andb_true_iff. split.
  - destruct (f_item_image_id f) as [i|]; [|done]. simpl in E1. by rewrite purge_image_of_parent.
  - destruct (f_transcription_job_id f) as [j|]; [|done]. simpl in E2. unfold job_gone in E2.
    rewrite (bool_filter (fun kv => target s ws item img (Jobs.k_item_image_id (Jobs.j_key kv.2)))).
    destruct (q_jobs (queue s) !! j) as [jr|]; [|done]. simpl in *. by rewrite E2, purge_image_of_parent.
Qed.

Lemma truth_purge gone s f : truth_related s -> truth_related (set_files f (purge gone s)).
Proof.
  intros Ht k b [Hb Hk]%map_lookup_filter_Some. simpl in Hk.
  change (image_parent (purge gone s) k.1.1 k.1.2 = true). rewrite purge_image_parent by done. by apply (Ht k b).
Qed.
End ItemRemove.
