(* ===== verification/ItemSound.v ===== *)
(** * Items: the stored amounts a purge takes off

    Modules [ItemMeasure]: items: the stored amounts a purge takes off;
    [ItemSound]: items: the invariant of the tables. *)

From Stdlib Require Import ZArith Lia Ascii String.
From stdpp Require Import base gmap strings list sorting.
From S2P Require Import Prelude GoStrings Json JobSchema JobInvariant MediaFragment Quota QuotaStore QuotaOps QuotaInvariant ItemDb ItemOps UploadBatches ItemAudit ItemPurge.

Module ItemMeasure.
Import GoStr Json Quota QuotaStore QuotaFacts ItemDb ItemGraph ItemOps ItemAudit ItemPurge ItemRemove.
#[local] Open Scope Z_scope.

(** ** Sums over a table *)

Lemma total_cons x l : total (x :: l) = x + total l.
Proof. done. Qed.
Lemma total_app l k : total (l ++ k) = total l + total k.
Proof. induction l as [|x l IH]; [done|]. simpl app. rewrite !total_cons. lia. Qed.
Ltac parts := repeat match goal with |- (_ + _)%Z = (_ + _)%Z => f_equal end.
Ltac totals := csimpl; rewrite ?total_cons.

Section wsum.
Context {K A : Type} `{Countable K}.
Implicit Types (m : gmap K A) (g : K -> A -> Z).

Definition wsum g m : Z := msum Z.add 0 g m.

Lemma wsum_list g m : wsum g m = total ((fun kv => g kv.1 kv.2) <$> map_to_list m).
Proof.
  unfold wsum, msum. rewrite map_fold_foldr. unfold total. induction (map_to_list m) as [|[k v] l IH]; [done|].
  totals. simpl. by rewrite IH.
Qed.

Lemma total_omap {B} (p : B -> bool) (f : B -> Z) l :
  total (omap (fun x => if p x then Some (f x) else None) l) = total ((fun x => if p x then f x else 0) <$> l).
Proof.
  induction l as [|x l IH]; [done|]. totals. destruct (p x); totals; rewrite IH; lia.
Qed.

Lemma summed_wsum m p f : summed m p f = wsum (fun k v => if p k v then f v else 0) m.
Proof. unfold summed. rewrite (total_omap (fun kv => p kv.1 kv.2) (fun kv => f kv.2)), wsum_list. done. Qed.

Lemma wsum_ext g h m : (forall k v, m !! k = Some v -> g k v = h k v) -> wsum g m = wsum h m.
Proof.
  intros He. rewrite !wsum_list. f_equal. apply list_fmap_ext. intros i [k v] Hi. simpl. apply He.
  apply elem_of_map_to_list. by eapply list_elem_of_lookup_2.
Qed.

Lemma wsum_add g h m : wsum g m + wsum h m = wsum (fun k v => g k v + h k v) m.
Proof. rewrite !wsum_list. induction (map_to_list m) as [|x l IH]; [done|]. totals. lia. Qed.

Lemma wsum_filter (p : K * A -> bool) g m : wsum g (filter (fun kv => p kv = false) m) = wsum (fun k v => if p (k, v) then 0 else g k v) m.
Proof.
  induction m as [|k v m Hk IH] using map_ind; [by rewrite map_filter_empty|].
  unfold wsum in *. rewrite (msum_insert _ _ (fun k v => if p (k, v) then 0 else g k v)) by (lia || done).
  destruct (p (k, v)) eqn:E.
  - rewrite map_filter_insert_False by congruence. rewrite delete_id by done. rewrite IH. lia.
  - rewrite map_filter_insert_True by done. rewrite msum_insert; [by rewrite IH|lia..|].
    apply map_lookup_filter_None. by left.
Qed.

(** A filter takes off the rows it drops. *)
Lemma wsum_split (p : K * A -> bool) g m :
  wsum g m = wsum g (filter (fun kv => p kv = false) m) + wsum (fun k v => if p (k, v) then g k v else 0) m.
Proof. rewrite wsum_filter, wsum_add. apply wsum_ext. intros k v _. destruct (p (k, v)); lia. Qed.

Lemma wsum_insert g m k v : m !! k = None -> wsum g (<[k := v]> m) = g k v + wsum g m.
Proof. intros Hk. unfold wsum. apply msum_insert; [lia|lia|done]. Qed.
Lemma wsum_delete g m k v : m !! k = Some v -> wsum g m = g k v + wsum g (delete k m).
Proof. intros Hk. apply msum_delete; [lia|lia|done]. Qed.
Lemma wsum_zero g m : (forall k v, m !! k = Some v -> g k v = 0) -> wsum g m = 0.
Proof. intros Hz. rewrite (wsum_ext g (fun _ _ => 0)) by done. rewrite wsum_list. induction (map_to_list m); [done|]. totals. lia. Qed.

(** A table as a part of a longer list. *)
Lemma wsum_part (f : K * A -> Z * Z) m w :
  total (omap (fun p => if p.1 =? w then Some p.2 else None) (f <$> map_to_list m))
  = wsum (fun k v => if (f (k, v)).1 =? w then (f (k, v)).2 else 0) m.
Proof.
  rewrite wsum_list. induction (map_to_list m) as [|[k v] l IH]; [done|]. totals.
  destruct ((f (k, v)).1 =? w); totals; rewrite IH; lia.
Qed.
Lemma length_wsum (P : K * A -> Prop) `{forall x, Decision (P x)} m :
  Z.of_nat (length (filter P (map_to_list m))) = wsum (fun k v => if decide (P (k, v)) then 1 else 0) m.
Proof.
  rewrite wsum_list. induction (map_to_list m) as [|[k v] l IH]; [done|]. rewrite filter_cons. totals.
  destruct (decide (P (k, v))); simpl length; lia.
Qed.
End wsum.

Lemma rows_list {K A B} `{Countable K} (f : A -> B) (m : gmap K A) : f <$> rows m = (fun kv => f kv.2) <$> map_to_list m.
Proof. unfold rows. by rewrite <- list_fmap_compose. Qed.

(** ** The measurements as sums *)

Definition when (b : bool) (n : Z) : Z := if b then n else 0.

Section stored.
Context (s : idb) (w : Z).

Definition stored_bytes : Z :=
  wsum (fun _ n => when (n_workspace_id n =? w) (n_bytes n)) (ocr_runs (kids s))
  + wsum (fun k p => when (k.1 =? w) (p_bytes p)) (pages (kids s))
  + wsum (fun k b => when (k.1.1 =? w) b) (ground_truth (kids s))
  + wsum (fun k b => when (k.1.1 =? w) b) (index (kids s))
  + wsum (fun k p => when (k.1 =? w) (p_bytes p)) (published (kids s))
  + wsum (fun _ t => when (t_workspace_id t =? w) (manifest_bytes t)) (items s)
  + wsum (fun _ a => when (u_workspace_id a =? w) (u_database_bytes a)) (provider_audits (kids s)).
Definition stored_items : Z := wsum (fun _ t => when (t_workspace_id t =? w) 1) (items s).
Definition stored_images : Z := wsum (fun _ g => when (g_workspace_id g =? w) 1) (images s).
End stored.

(** What the rebuild measures of a workspace, but for the upload bytes. *)
Definition stored (s : idb) (w : Z) : StorageQuotaRequest := with_Bytes 0 (used (measured (qview s) w)).

Section measured.
Context (s : idb).
Hypothesis Hrel : related s.

Lemma run_workspace sid n : ocr_runs (kids s) !! sid = Some n -> run_payload s n = Some (n_workspace_id n, n_bytes n).
Proof using Hrel.
  intros Hn. pose proof (rel_runs _ Hrel _ _ Hn) as Hok. unfold ok_run in Hok. split_bools.
  match goal with H : image_parent _ _ _ = true |- _ => apply image_parent_true in H as (g & Hg & Hw) end.
  pose proof (rel_images _ Hrel _ _ Hg) as Hi. apply item_parent_true in Hi as (t & Ht & Hw').
  unfold run_payload. rewrite Hg. simpl. rewrite Ht. simpl. congruence.
Qed.

Lemma omap_all {A B} (f : A -> option B) (g : A -> B) (l : list A) : (forall x, x ∈ l -> f x = Some (g x)) -> omap f l = g <$> l.
Proof.
  induction l as [|x l IH]; [done|]. intros Hf. csimpl. rewrite (Hf x) by (by left). f_equal.
  apply IH. intros y Hy. apply Hf. by right.
Qed.

Lemma elem_of_rows {K A} `{Countable K} (m : gmap K A) x : x ∈ rows m -> exists k, m !! k = Some x.
Proof. unfold rows. intros ([k v] & -> & Hk)%list_elem_of_fmap. apply elem_of_map_to_list in Hk. eauto. Qed.

Lemma payload_stored w : payload_bytes (qview s) w = stored_bytes s w.
Proof using Hrel.
  unfold payload_bytes. simpl. unfold payloads. rewrite !omap_app. fold total. rewrite !total_app.
  rewrite (omap_all (run_payload s) (fun n => (n_workspace_id n, n_bytes n))).
  2:{ intros n (sid & Hn)%elem_of_rows. by eapply run_workspace. }
  rewrite !rows_list, !wsum_part. unfold stored_bytes, when. simpl. lia.
Qed.

Lemma items_stored w : Z.of_nat (length (filter (fun x => x = w) (item_rows (qview s)))) = stored_items s w.
Proof.
  simpl. rewrite rows_list. unfold stored_items. rewrite wsum_list.
  induction (map_to_list (items s)) as [|[k t] l IH]; [done|]. totals. rewrite filter_cons. unfold when in *.
  destruct (decide (t_workspace_id t = w)), (Z.eqb_spec (t_workspace_id t) w); simpl length; lia || done.
Qed.

Lemma images_stored w : Z.of_nat (length (filter (fun i => i_workspace_id i = w) (image_rows (qview s)))) = stored_images s w.
Proof using Hrel.
  simpl. rewrite (omap_all (joined_image s) (fun g =>
    {| i_workspace_id := g_workspace_id g; i_image_url := g_image_url g; i_storage_bytes := g_storage_bytes g |})).
  2:{ intros g (i & Hg)%elem_of_rows. pose proof (rel_images _ Hrel _ _ Hg) as Hi. apply item_parent_true in Hi as (t & Ht & Hw).
      unfold joined_image. rewrite Ht. simpl. by rewrite Hw. }
  rewrite rows_list. unfold stored_images. rewrite wsum_list.
  induction (map_to_list (images s)) as [|[k g] l IH]; [done|]. totals. rewrite filter_cons. unfold when in *.
  destruct (decide _) as [E|E]; simpl in E; destruct (Z.eqb_spec (g_workspace_id g) w); simpl length; lia || done.
Qed.

Lemma stored_sums w : stored s w =
  {| Bytes := 0; DurableBytes := stored_bytes s w; Items := stored_items s w; Images := stored_images s w |}.
Proof using Hrel.
  unfold stored, measured, with_Bytes, used, account. cbn [DurableBytes Items Images Bytes UploadBlobBytes DatabaseBytes U_Items U_Images].
  by rewrite payload_stored, items_stored, images_stored.
Qed.
End measured.

(** ** What a purge takes off *)

Definition gone_bytes (gone : Z -> bool) (s : idb) : Z :=
  wsum (fun _ n => when (gone (n_item_image_id n)) (n_bytes n)) (ocr_runs (kids s))
  + wsum (fun k p => when (gone k.2) (p_bytes p)) (pages (kids s))
  + wsum (fun k b => when (gone k.1.2) b) (ground_truth (kids s))
  + wsum (fun k b => when (gone k.1.2) b) (index (kids s))
  + wsum (fun k p => when (gone k.2) (p_bytes p)) (published (kids s))
  + wsum (fun _ a => when (some_is gone (u_item_image_id a)) (u_database_bytes a)) (provider_audits (kids s)).
Definition gone_images (gone : Z -> bool) (s : idb) : Z := wsum (fun i _ => when (gone i) 1) (images s).

(** One table: a row goes with an image of [ws], so it counts for [ws]. *)
Lemma taken_off {K A} `{Countable K} (m : gmap K A) (p : K * A -> bool) (owner : K -> A -> Z) (size : K -> A -> Z) ws w :
  (forall k v, m !! k = Some v -> p (k, v) = true -> owner k v = ws) ->
  wsum (fun k v => when (owner k v =? w) (size k v)) m
  = wsum (fun k v => when (owner k v =? w) (size k v)) (filter (fun kv => p kv = false) m)
    + when (w =? ws) (wsum (fun k v => when (p (k, v)) (size k v)) m).
Proof.
  intros Ho. rewrite (wsum_split p). f_equal. destruct (Z.eqb_spec w ws) as [->|Hw]; simpl.
  - apply wsum_ext. intros k v Hv. destruct (p (k, v)) eqn:E; [|done]. by rewrite (Ho k v Hv E), Z.eqb_refl.
  - apply wsum_zero. intros k v Hv. destruct (p (k, v)) eqn:E; [|done]. rewrite (Ho k v Hv E).
    unfold when. destruct (Z.eqb_spec ws w); congruence.
Qed.

Section taken.
Context (s : idb) (ws : Z) (item : string) (img : Z) (f : gmap (Z * string * Z) file_row) (w : Z).
Hypothesis Hrel : related s.
Hypothesis Htruth : truth_related s.
Abbreviation gone := (target s ws item img).
Abbreviation s' := (set_files f (purge gone s)).

Lemma purged_bytes : stored_bytes s w = stored_bytes s' w + when (w =? ws) (gone_bytes gone s).
Proof using Hrel Htruth.
  pose proof Hrel as []. unfold stored_bytes.
  rewrite (taken_off (ocr_runs (kids s)) (fun kv => gone (n_item_image_id kv.2)) (fun _ n => n_workspace_id n) (fun _ n => n_bytes n) ws).
  2:{ intros k v Hv Hp. specialize (rel_runs0 k v Hv). unfold ok_run in *. split_bools. by eapply target_parent. }
  rewrite (taken_off (pages (kids s)) (fun kv => gone kv.1.2) (fun k _ => k.1) (fun _ p => p_bytes p) ws).
  2:{ intros k v Hv Hp. specialize (rel_pages0 k v Hv). simpl in rel_pages0. by eapply target_parent. }
  rewrite (taken_off (ground_truth (kids s)) (fun kv => gone kv.1.1.2) (fun k _ => k.1.1) (fun _ b => b) ws).
  2:{ intros k v Hv Hp. specialize (Htruth k v Hv). simpl in Htruth. by eapply target_parent. }
  rewrite (taken_off (index (kids s)) (fun kv => gone kv.1.1.2) (fun k _ => k.1.1) (fun _ b => b) ws).
  2:{ intros k v Hv Hp. specialize (rel_index0 k v Hv). unfold ok_indexed in *. split_bools. by eapply target_parent. }
  rewrite (taken_off (published (kids s)) (fun kv => gone kv.1.2) (fun k _ => k.1) (fun _ p => p_bytes p) ws).
  2:{ intros k v Hv Hp. specialize (rel_published0 k v Hv). unfold ok_indexed in *. split_bools. by eapply target_parent. }
  rewrite (taken_off (provider_audits (kids s)) (fun kv => some_is gone (u_item_image_id kv.2)) (fun _ a => u_workspace_id a) (fun _ a => u_database_bytes a) ws).
  2:{ intros k v Hv Hp. specialize (rel_audits0 k v Hv). unfold ok_audit in *. simpl in Hp.
      destruct (u_item_image_id v); [|done]. split_bools. by eapply target_parent. }
  unfold gone_bytes. simpl. unfold when. destruct (w =? ws); lia.
Qed.

Lemma purged_items : stored_items s' w = stored_items s w.
Proof. done. Qed.

Lemma purged_images : stored_images s w = stored_images s' w + when (w =? ws) (gone_images gone s).
Proof.
  unfold stored_images, gone_images.
  apply (taken_off (images s) (fun kv => gone kv.1) (fun _ g => g_workspace_id g) (fun _ _ => 1) ws).
  intros k g Hg. simpl. unfold target. rewrite Hg. intros. by split_bools.
Qed.
End taken.

(** ** The queries measure it *)

Section measuring.
Context (s : idb) (ws : Z).
Hypothesis Hrel : related s.
Hypothesis Htruth : truth_related s.

Lemma and_when (a b : bool) n : (if a && b then n else 0) = when (a && b) n.
Proof. done. Qed.

Lemma image_bytes img g : img <> 0 -> images s !! img = Some g -> g_workspace_id g = ws ->
  GetItemImageDurableDatabaseBytes ws img s = gone_bytes (target s ws (g_item_id g) img) s.
Proof using Hrel Htruth.
  intros Hi Hg Hw.
  assert (Hgone : forall i, target s ws (g_item_id g) img i = (i =? img)).
  { intros i. unfold target, chosen. rewrite (proj2 (Z.eqb_neq img 0) Hi). simpl.
    destruct (Z.eqb_spec i img) as [->|]; [|by destruct (images s !! i); rewrite ?andb_false_r].
    rewrite Hg, Hw, Z.eqb_refl. by rewrite bool_decide_true. }
  assert (Himg : forall w i, image_parent s w i = true -> (w =? ws) && (i =? img) = (i =? img)).
  { intros w i Hp. rewrite <- Hgone. by apply with_image. }
  pose proof Hrel as []. unfold GetItemImageDurableDatabaseBytes, gone_bytes. rewrite !summed_wsum. unfold when.
  parts; apply wsum_ext; intros k v Hv; rewrite ?Hgone; try done.
  - rewrite Himg; [done|]. by apply (rel_pages0 k v).
  - rewrite Himg; [done|]. by apply (Htruth k v).
  - rewrite Himg; [done|]. specialize (rel_index0 k v Hv). unfold ok_indexed in *. by split_bools.
  - rewrite Himg; [done|]. specialize (rel_published0 k v Hv). unfold ok_indexed in *. by split_bools.
  - specialize (rel_audits0 k v Hv). unfold ok_audit in *. destruct (u_item_image_id v) as [i|]; simpl; [|by rewrite andb_false_r].
    split_bools. rewrite Hgone. destruct (Z.eqb_spec i img) as [->|]; [|by rewrite andb_false_r].
    rewrite bool_decide_true by eauto. simpl. specialize (Himg _ _ ltac:(eassumption)). rewrite Z.eqb_refl in Himg. by rewrite Himg.
Qed.

Lemma item_bytes item t : items s !! item = Some t -> t_workspace_id t = ws ->
  GetItemDurableDatabaseBytes ws item s = manifest_bytes t + gone_bytes (target s ws item 0) s.
Proof using Hrel Htruth.
  intros Ht Hw.
  assert (Hof : forall w i, image_parent s w i = true -> (w =? ws) && of_item s item i = target s ws item 0 i).
  { intros w i Hp. apply image_parent_true in Hp as (g & Hg & <-). unfold of_item, image_of, target. rewrite Hg.
    unfold chosen. simpl. by rewrite !andb_true_r. }
  pose proof Hrel as []. unfold GetItemDurableDatabaseBytes, gone_bytes. rewrite !summed_wsum. unfold when.
  assert (Hm : wsum (fun k t => if (t_workspace_id t =? ws) && bool_decide (k = item) then manifest_bytes t else 0) (items s) = manifest_bytes t).
  { rewrite (wsum_delete _ _ item t Ht), Hw, Z.eqb_refl, bool_decide_true by done. simpl. rewrite wsum_zero; [lia|].
    intros k v Hv. apply lookup_delete_Some in Hv as [Hne _]. by rewrite bool_decide_false, andb_false_r. }
  rewrite Hm. rewrite <- !Z.add_assoc. f_equal.
  parts; apply wsum_ext; intros k v Hv.
  - specialize (rel_runs0 k v Hv). unfold ok_run in rel_runs0. split_bools.
    match goal with H : image_parent _ _ _ = true |- _ => apply image_parent_true in H as (g & Hg & Hgw) end.
    unfold target, chosen. rewrite Hg. simpl. rewrite andb_true_r.
    case_bool_decide as E; [|by rewrite andb_false_r]. subst item. rewrite Ht. simpl. rewrite Hw, Z.eqb_refl.
    pose proof (rel_images0 _ _ Hg) as Hok. apply item_parent_true in Hok as (t' & Ht' & Hw').
    assert (g_workspace_id g = ws) as -> by congruence. by rewrite Z.eqb_refl.
  - rewrite Hof; [done|]. by apply (rel_pages0 k v).
  - rewrite Hof; [done|]. by apply (Htruth k v).
  - rewrite Hof; [done|]. specialize (rel_index0 k v Hv). unfold ok_indexed in *. by split_bools.
  - rewrite Hof; [done|]. specialize (rel_published0 k v Hv). unfold ok_indexed in *. by split_bools.
  - specialize (rel_audits0 k v Hv). unfold ok_audit in *. destruct (u_item_image_id v) as [i|]; simpl; [|by rewrite andb_false_r].
    split_bools. by rewrite Hof.
Qed.
End measuring.
End ItemMeasure.

(** * Items: the invariant of the tables

    [near ex ws d s]: the tables are sound but for the batch [ex] and the usage row of the workspace [ws], which
    counts [d] more than what is stored.  A transaction starts and ends with nothing owed
    ([sound]); in between a row is inserted or deleted before its amount is booked. *)

Module ItemSound.
Import GoStr Json JobInvariant Quota QuotaStore QuotaOps QuotaFacts QuotaInvariant ItemDb ItemGraph ItemOps ItemAudit ItemPurge ItemRemove ItemMeasure UploadBatches.
#[local] Open Scope Z_scope.

(** ** Files and batches as state machines *)

Definition leased (f : file_row) : Prop :=
  (exists o, f_locked_by f = Some o /\ TrimSpace o = o /\ o <> ""%string) /\ is_Some (f_lease_until f).
Record file_sound (f : file_row) : Prop := {
  fs_lease : if decide (f_status f = FProcessing) then leased f else f_locked_by f = None /\ f_lease_until f = None;
  fs_attempts : 0 <= f_attempt_count f <= f_max_attempts f;
  fs_started : f_status f = FPending \/ f_status f = FCanceled \/ 0 < f_attempt_count f;
  fs_provisional : f_status f <> FCompleted -> f_item_image_id f = None;
  fs_result : is_Some (f_transcription_job_id f) -> is_Some (f_item_image_id f);
}.

Definition all_files (s : idb) (k : Z * string) (P : file_row -> Prop) : Prop :=
  forall q f, files s !! (k, q) = Some f -> P f.
Definition batch_sound (s : idb) (k : Z * string) (b : batch_row) : Prop :=
  match b_status b with
  | InProgress => all_files s k (fun f => f_status f <> FCanceled) /\ exists q f, files s !! (k, q) = Some f /\ f_status f <> FCompleted
  | BCompleted => all_files s k (fun f => f_status f = FCompleted) /\ b_context_id b = None
  | BCanceled => all_files s k (fun f => f_status f = FCompleted \/ f_status f = FCanceled) /\ b_context_id b = None
  end.

(** ** The invariant *)

Definition owes (ws : Z) (d : StorageQuotaRequest) (w : Z) : StorageQuotaRequest := if w =? ws then d else no_request.

Record near (ex : option (Z * string)) (ws : Z) (d : StorageQuotaRequest) (s : idb) : Prop := {
  n_related : related s;
  n_truth : truth_related s;
  n_names : forall id t, items s !! id = Some t -> TrimSpace id = id /\ id <> ""%string;
  n_workspaces : 0 ∉ tenants s;
  n_accounts : forall w u, a_usages (acc s) !! w = Some u -> w = 0 \/ w ∈ tenants s;
  n_ids : forall i g, images s !! i = Some g -> 0 < i < next_image_id s;
  n_next : 0 < next_image_id s;
  n_sequences : forall i j g h, images s !! i = Some g -> images s !! j = Some h ->
    g_item_id g = g_item_id h -> g_sequence g = g_sequence h -> i = j;
  n_quota : consistent (qview s);
  n_queue : queue_inv (jview s);
  n_files : forall k f, files s !! k = Some f -> file_sound f;
  n_batches : forall k b, batches s !! k = Some b -> ex <> Some k -> batch_sound s k b;
  n_batch_names : forall k b, batches s !! k = Some b -> TrimSpace k.2 = k.2;
  n_one_batch : forall k k' b b', batches s !! k = Some b -> batches s !! k' = Some b' -> b_item_id b = b_item_id b' -> k = k';
  n_counted : forall w u, w <> 0 -> a_usages (acc s) !! w = Some u ->
    with_Bytes 0 (used u) = amount_add (stored s w) (owes ws d w);
}.

Definition sound (s : idb) : Prop := near None 0 no_request s.

Lemma near_sound ws s : near None ws no_request s <-> sound s.
Proof.
  assert (He : forall w w', owes w no_request w' = no_request) by (intros; unfold owes; by destruct (_ =? _)).
  split; intros []; split; try done; intros w u Hw Hu; rewrite (n_counted0 w u Hw Hu), !He; done.
Qed.

(** A transaction that is in the middle of changing a batch. *)
Lemma near_open ex ws d s : near None ws d s -> near ex ws d s.
Proof. intros []. split; try done. intros k b Hb _. by apply n_batches0. Qed.
Lemma near_close k ws d s : near (Some k) ws d s -> (forall b, batches s !! k = Some b -> batch_sound s k b) -> near None ws d s.
Proof.
  intros [] Hk. split; try done. intros k' b Hb _. destruct (decide (k' = k)) as [->|]; [by apply Hk|].
  apply n_batches0; congruence.
Qed.

(** Only the accounts of [acc] and the rows of the queue are read by their own invariants. *)
Lemma qview_consistent s s' : acc s' = acc s -> consistent (qview s) -> consistent (qview s').
Proof. intros E. apply consistent_elsewhere; simpl; by rewrite E. Qed.
Lemma jview_inv s s' : queue s' = queue s -> queue_inv (jview s) -> queue_inv (jview s').
Proof. intros E [] . constructor; simpl; rewrite ?E; assumption. Qed.

Lemma acc_eta s : set_accounts (qview s) s = s.
Proof. destruct s as [? ? ? ? [? ? ? ?]]. done. Qed.

Lemma quota_Ok {A} (m : qtx A) s a s' : quota m s = Ok (a, s') <-> exists q, m (qview s) = Ok (a, q) /\ s' = set_accounts q s.
Proof. unfold quota. destruct (m (qview s)) as [[x q]|]; naive_solver. Qed.

(** ** Steps of the accounts *)

Section accounts.
Context (s : idb) (q : qdb).
Abbreviation s' := (set_accounts q s).
Hypothesis Hdom : forall w, is_Some (usages q !! w) <-> is_Some (a_usages (acc s) !! w).
Hypothesis Hres : forall id v, reservations q !! id = Some v -> v_workspace_id v ∈ tenants s.
Hypothesis Hcl : forall k d, cleanups q !! k = Some d -> 0 < d_workspace_id d -> is_Some (usages q !! d_workspace_id d).
Hypothesis Hown : forall w u, a_usages (acc s) !! w = Some u -> w = 0 \/ w ∈ tenants s.

Lemma accounts_related : related s -> related s'.
Proof using Hdom Hres Hcl Hown.
  intros []. split; try done.
  - intros id v Hv. unfold ok_reservation, workspace_parent. apply bool_decide_eq_true. by eapply Hres.
  - intros k d Hd. unfold ok_cleanup. destruct (Z.ltb_spec 0 (d_workspace_id d)); [|done]. simpl.
    apply bool_decide_eq_true. by eapply Hcl.
  - intros w u Hu. unfold ok_usage. destruct (Z.ltb_spec 0 w) as [Hw|]; [|done]. simpl.
    destruct (proj1 (Hdom w) ltac:(eauto)) as [u' Hu']. destruct (Hown w u' Hu') as [|Ht]; [lia|].
    unfold workspace_parent. simpl. by rewrite bool_decide_true.
Qed.

Lemma stored_accounts w : related s -> stored s' w = stored s w.
Proof using Hdom Hres Hcl Hown. intros Hr. rewrite !stored_sums; [done|done|by apply accounts_related]. Qed.

Lemma accounts_near (ex : option (Z * string)) ws d d' : near ex ws d s -> consistent q ->
  (forall w u u', w <> 0 -> a_usages (acc s) !! w = Some u -> usages q !! w = Some u' ->
     with_Bytes 0 (used u) = amount_add (stored s w) (owes ws d w) ->
     with_Bytes 0 (used u') = amount_add (stored s w) (owes ws d' w)) ->
  near ex ws d' s'.
Proof using Hdom Hres Hcl Hown.
  intros Hn Hq Hc. pose proof (n_related _ _ _ _ Hn) as Hr. pose proof Hn as []. split; try done.
  - by apply accounts_related.
  - intros w u Hu. destruct (proj1 (Hdom w) ltac:(eauto)) as [u0 Hu0]. by eapply n_accounts0.
  - by apply (consistent_elsewhere q).
  - intros w u' Hw Hu'. rewrite stored_accounts by done.
    destruct (proj1 (Hdom w) ltac:(eauto)) as [u Hu]. eapply Hc; eauto.
Qed.
End accounts.

Lemma owns_tenant (ex : option (Z * string)) ws d s : near ex ws d s -> forall w u, a_usages (acc s) !! w = Some u -> w = 0 \/ w ∈ tenants s.
Proof. intros []. done. Qed.

(** A booking on [ws]. *)
Lemma booking_near (ex : option (Z * string)) ws d d' f s q : near ex ws d s -> ws <> 0 -> is_Some (a_usages (acc s) !! ws) ->
  booking ws f (qview s) q ->
  (forall a b, usage_add (f a) b = f (usage_add a b)) -> (forall u, reserved (f u) = reserved u) ->
  (forall u, amount_add (with_Bytes 0 (used (f u))) d = amount_add (with_Bytes 0 (used u)) d') ->
  near ex ws d' (set_accounts q s).
Proof.
  intros Hn Hws Hsome Hb Hshift Hfr Hf.
  assert (Hl : forall w, usages q !! w = if (w =? 0) || (w =? ws) then f <$> a_usages (acc s) !! w else a_usages (acc s) !! w).
  { intros w. rewrite (proj1 Hb). by apply lookup_book. }
  assert (Hr : reservations q = a_reservations (acc s)) by (by rewrite (proj1 Hb)).
  assert (Hk : cleanups q = a_cleanups (acc s)) by (by rewrite (proj1 Hb)).
  pose proof Hn as []. assert (Hdom : forall w, is_Some (usages q !! w) <-> is_Some (a_usages (acc s) !! w)).
  { intros w. rewrite Hl. destruct (_ || _); [by rewrite fmap_is_Some|done]. }
  apply (accounts_near s q) with (ex := ex) (d := d); [done| | |done|done| |].
  - intros id v. rewrite Hr. intros Hv. pose proof (rel_reservations _ n_related0 id v Hv) as Hok.
    unfold ok_reservation, workspace_parent in Hok. by apply bool_decide_eq_true in Hok.
  - intros k x. rewrite Hk. intros Hx Hpos. apply Hdom. pose proof (rel_cleanups _ n_related0 k x Hx) as Hok.
    unfold ok_cleanup in Hok. rewrite (proj2 (Z.ltb_lt _ _)) in Hok by done. simpl in Hok. by apply bool_decide_eq_true in Hok.
  - eapply consistent_used; eauto.
  - intros w u u' Hw Hu Hu' Hcnt. rewrite Hl, (proj2 (Z.eqb_neq w 0)) in Hu' by done. simpl in Hu'. unfold owes in *.
    destruct (Z.eqb_spec w ws) as [->|]; [|by rewrite Hu in Hu'; simplify_eq].
    rewrite Hu in Hu'. simplify_eq/=. specialize (Hf u). revert Hf Hcnt. generalize (stored s ws). intros st.
    unfold amount_add, with_Bytes. destruct st, d, d'. simpl. intros [=] [=]. simpl in *. f_equal; lia.
Qed.
End ItemSound.
