(* ===== verification/ItemSteps.v ===== *)
(** * Items: the steps that keep the invariant *)

From Stdlib Require Import ZArith Lia Ascii String.
From stdpp Require Import base gmap strings list sorting.
From S2P Require Import Prelude GoStrings Json JobSchema JobInvariant MediaFragment Quota QuotaStore QuotaOps QuotaInvariant QuotaSteps ItemDb ItemOps UploadBatches ItemAudit ItemPurge ItemSound.

Module ItemSteps.
Import GoStr Json JobInvariant UploadRef Quota QuotaStore QuotaOps QuotaFacts QuotaInvariant QuotaSteps QuotaTheorems ItemDb ItemGraph ItemOps ItemAudit ItemPurge ItemRemove ItemMeasure UploadBatches ItemSound.
#[local] Open Scope Z_scope.

Definition amount (bytes items images : Z) : StorageQuotaRequest :=
  {| Bytes := 0; DurableBytes := bytes; Items := items; Images := images |}.

(** ** The accounts *)

Lemma guard_Ok ws s x s' : quota (lockStorageQuotaGuards ws) s = Ok (x, s') ->
  ws <> 0 /\ is_Some (a_usages (acc s) !! ws) /\ s' = s.
Proof.
  intros (q & Hq & ->)%quota_Ok. apply guards_Ok in Hq as (Hws & Hsome & ->). split_and!; [done|done|apply acc_eta].
Qed.

Lemma read_Ok {A} (m : qtx A) s a s' : (forall q x q', m q = Ok (x, q') -> q' = q) -> quota m s = Ok (a, s') ->
  m (qview s) = Ok (a, qview s) /\ s' = s.
Proof. intros Hm (q & Hq & ->)%quota_Ok. pose proof (Hm _ _ _ Hq) as ->. split; [done|apply acc_eta]. Qed.

Lemma add_near ex ws d r s s' : near ex ws d s -> ws <> 0 -> is_Some (a_usages (acc s) !! ws) ->
  quota (addStorageQuotaUsed ws r) s = Ok (tt, s') -> near ex ws (amount_add d (with_Bytes 0 r)) s'.
Proof.
  intros Hn Hws Hsome (q & Hq & ->)%quota_Ok. apply add_used_Ok in Hq; [|done].
  eapply booking_near; eauto; intros; amount_eq.
Qed.

Lemma sub_near ex ws d r s s' : near ex ws d s -> ws <> 0 -> is_Some (a_usages (acc s) !! ws) ->
  quota (subtractStorageQuotaUsed ws r) s = Ok (tt, s') -> near ex ws (amount_sub d (with_Bytes 0 r)) s'.
Proof.
  intros Hn Hws Hsome (q & Hq & ->)%quota_Ok. apply sub_used_Ok in Hq; [|done].
  eapply booking_near; eauto; intros; amount_eq.
Qed.

(** Statements that leave usage and reservations, and keep every cleanup row owned. *)
Lemma aside_near ex ws d s q : near ex ws d s -> aside (qview s) q ->
  (forall k x, cleanups q !! k = Some x -> 0 < d_workspace_id x -> is_Some (a_usages (acc s) !! d_workspace_id x)) ->
  near ex ws d (set_accounts q s).
Proof.
  intros Hn [Hu Hr] Hk. pose proof Hn as [].
  apply (accounts_near s q) with (ex := ex) (d := d); [| | |done|done| |].
  - by rewrite Hu.
  - intros id v Hv. rewrite Hr in Hv. pose proof (rel_reservations _ n_related0 id v Hv) as Hok.
    unfold ok_reservation, workspace_parent in Hok. by apply bool_decide_eq_true in Hok.
  - intros k x Hx Hpos. rewrite Hu. by apply (Hk k x).
  - by apply (consistent_elsewhere (qview s)).
  - intros w u u' Hw Hu1 Hu2 Hc. rewrite Hu in Hu2. simpl in Hu2. simplify_eq. done.
Qed.

Lemma upsert_near ex ws d now kind key bytes next s s' : near ex ws d s -> is_Some (a_usages (acc s) !! ws) ->
  quota (UpsertResourceCleanup now kind key ws bytes next) s = Ok (tt, s') ->
  near ex ws d s' /\ exists q, s' = set_accounts q s /\ aside (qview s) q.
Proof.
  intros Hn Hsome (q & Hq & ->)%quota_Ok. unfold UpsertResourceCleanup, tx_modify in Hq. injection Hq as <-.
  split; [|eexists; split; [done|by split]]. apply aside_near; [done|done|].
  intros k x. simpl. destruct (decide (k = (kind, key))) as [->|Hne].
  - rewrite lookup_insert_eq. intros [= <-]. pose proof (n_related _ _ _ _ Hn) as Hrel.
    destruct (a_cleanups (acc s) !! (kind, key)) as [x|] eqn:E; simpl; [|done].
    destruct (Z.gtb_spec ws 0); [done|]. pose proof (rel_cleanups _ Hrel _ _ E) as Hok. unfold ok_cleanup in Hok.
    intros Hpos. rewrite (proj2 (Z.ltb_lt _ _)) in Hok by done. simpl in Hok. by apply bool_decide_eq_true in Hok.
  - rewrite lookup_insert_ne by done. intros E Hpos. pose proof (rel_cleanups _ (n_related _ _ _ _ Hn) _ _ E) as Hok.
    unfold ok_cleanup in Hok. rewrite (proj2 (Z.ltb_lt _ _)) in Hok by done. simpl in Hok. by apply bool_decide_eq_true in Hok.
Qed.

(** ** The queue *)

Lemma purge_queue_inv gone s : queue_inv (jview s) -> queue_inv (jview (purge gone s)).
Proof.
  intros []. simpl in *.
  assert (Hj : forall id r, q_jobs (purge_queue gone s) !! id = Some r -> q_jobs (queue s) !! id = Some r /\ job_gone gone s id = false).
  { intros id r [Hr Hg]%map_lookup_filter_Some. split; [done|]. unfold job_gone. by rewrite Hr. }
  assert (Ha : forall k a, q_attempts (purge_queue gone s) !! k = Some a -> q_attempts (queue s) !! k = Some a /\ job_gone gone s k.1 = false).
  { intros k a [Hr Hg]%map_lookup_filter_Some. done. }
  assert (Hja : forall id r, q_jobs (queue s) !! id = Some r -> job_gone gone s id = false -> q_jobs (purge_queue gone s) !! id = Some r).
  { intros id r Hr Hg. apply map_lookup_filter_Some. split; [done|]. simpl. unfold job_gone in Hg. by rewrite Hr in Hg. }
  assert (Haa : forall k a, q_attempts (queue s) !! k = Some a -> job_gone gone s k.1 = false -> q_attempts (purge_queue gone s) !! k = Some a).
  { intros k r Hr Hg. apply map_lookup_filter_Some. done. }
  constructor; simpl.
  - intros id r [Hr _]%Hj. by apply inv_checks0.
  - done.
  - intros id1 id2 r1 r2 img [H1 _]%Hj [H2 _]%Hj. by eapply inv_active0.
  - intros id r [Hr Hg]%Hj Hst. destruct (inv_running0 id r Hr Hst) as (a & Ha' & ?). exists a. split; [|done]. by apply Haa.
  - intros id n a [Ha' Hg]%Ha. destruct (inv_attempt0 id n a Ha') as (? & r & Hr & ?). split; [done|]. exists r. split; [|done]. by apply Hja.
  - intros id r n [Hr Hg]%Hj Hn. destruct (inv_history0 id r n Hr Hn) as [a Ha']. exists a. by apply Haa.
  - intros k1 k2 a1 a2 [H1 _]%Ha [H2 _]%Ha. by eapply inv_tokens0.
  - intros id r [Hr _]%Hj. by eapply inv_budget0.
  - intros id line [x [Hx Hg]%map_lookup_filter_Some]. destruct (inv_checkpoints0 id line ltac:(eauto)) as (r & Hr & ?).
    exists r. split; [|done]. by apply Hja.
Qed.

(** ** Deleting an image *)

Lemma image_in_Some ws s id g : related s -> image_in ws s id = Some g ->
  images s !! id = Some g /\ g_workspace_id g = ws /\ item_parent s ws (g_item_id g) = true.
Proof.
  intros Hrel Hin. unfold image_in in Hin. destruct (images s !! id) as [g'|] eqn:Hg; [|done].
  destruct (items s !! g_item_id g') as [t|] eqn:Ht; [|done]. destruct (Z.eqb_spec (t_workspace_id t) ws); [|done].
  simplify_eq. pose proof (rel_images _ Hrel _ _ Hg) as Hok. apply item_parent_true in Hok as (t' & Ht' & Hw).
  split_and!; [done|congruence|]. apply item_parent_true. eauto.
Qed.

Lemma target_one s ws img g : img <> 0 -> images s !! img = Some g -> g_workspace_id g = ws ->
  forall i, target s ws (g_item_id g) img i = (i =? img).
Proof.
  intros Hi Hg Hw i. unfold target, chosen. rewrite (proj2 (Z.eqb_neq img 0) Hi). simpl.
  destruct (Z.eqb_spec i img) as [->|]; [|by destruct (images s !! i); rewrite ?andb_false_r].
  rewrite Hg, Hw, Z.eqb_refl. by rewrite bool_decide_true.
Qed.

Lemma detached_sound now f : file_sound f -> file_sound (detached now f).
Proof. intros []. split; [exact fs_lease0|exact fs_attempts0|exact fs_started0|done|by intros []]. Qed.

Lemma detach_lookup gone s now k f' : detach_files gone s now !! k = Some f' ->
  exists f, files s !! k = Some f /\ f_status f' = f_status f /\ (f' = f \/ f' = detached now f).
Proof.
  unfold detach_files. rewrite lookup_fmap. destruct (files s !! k) as [f|]; [|done]. intros [= <-].
  exists f. destruct (_ || _); auto.
Qed.

(** Files that keep their statuses keep the batches. *)
Lemma batch_sound_statuses s s' k b :
  (forall q f, files s !! (k, q) = Some f -> exists f', files s' !! (k, q) = Some f' /\ f_status f' = f_status f) ->
  (forall q f', files s' !! (k, q) = Some f' -> exists f, files s !! (k, q) = Some f /\ f_status f' = f_status f) ->
  batch_sound s k b -> batch_sound s' k b.
Proof.
  intros Hto Hfrom. unfold batch_sound, all_files. destruct (b_status b).
  - intros [Ha (q & f & Hf & Hst)]. split.
    + intros q' f' Hf'. destruct (Hfrom q' f' Hf') as (f0 & Hf0 & ->). by eapply Ha.
    + destruct (Hto q f Hf) as (f' & Hf' & Hs). exists q, f'. split; [done|congruence].
  - intros [Ha Hc]. split; [|done]. intros q' f' Hf'. destruct (Hfrom q' f' Hf') as (f0 & Hf0 & ->). by eapply Ha.
  - intros [Ha Hc]. split; [|done]. intros q' f' Hf'. destruct (Hfrom q' f' Hf') as (f0 & Hf0 & ->). by eapply Ha.
Qed.

Lemma image_purged_near ex ws d s now img g : near ex ws d s -> image_in ws s img = Some g ->
  near ex ws (amount_add d (amount (GetItemImageDurableDatabaseBytes ws img s) 0 1))
    (set_files (detach_files (target s ws (g_item_id g) img) s now) (purge (target s ws (g_item_id g) img) s)).
Proof.
  intros Hn Hin. pose proof (n_related _ _ _ _ Hn) as Hrel. pose proof (n_truth _ _ _ _ Hn) as Htr.
  destruct (image_in_Some _ _ _ _ Hrel Hin) as (Hg & Hw & Hitem). pose proof (n_ids _ _ _ _ Hn _ _ Hg) as Hid.
  pose proof (target_one s ws img g ltac:(lia) Hg Hw) as Hone.
  set (gone := target s ws (g_item_id g) img) in *. set (f := detach_files gone s now).
  assert (Hrel' : related (set_files f (purge gone s))) by (by apply detach_related).
  assert (Hst : forall w, stored s w = amount_add (stored (set_files f (purge gone s)) w)
    (if w =? ws then amount (GetItemImageDurableDatabaseBytes ws img s) 0 1 else no_request)).
  { intros w. rewrite !stored_sums by done.
    rewrite (purged_bytes s ws (g_item_id g) img f w Hrel Htr), (purged_images s ws (g_item_id g) img f w).
    change (stored_items (set_files f (purge gone s)) w) with (stored_items s w).
    rewrite (image_bytes s ws Hrel Htr img g) by (done || lia). fold gone.
    assert (gone_images gone s = 1) as ->.
    { unfold gone_images. rewrite (wsum_delete _ _ img g Hg), Hone, Z.eqb_refl, wsum_zero; [done|].
      intros k v Hv. apply lookup_delete_Some in Hv as [Hne _]. rewrite Hone. unfold when. destruct (Z.eqb_spec k img); congruence. }
    unfold amount, amount_add, no_request, when. destruct (w =? ws); simpl; f_equal; lia. }
  pose proof Hn as []. split; try done.
  - by apply truth_purge.
  - intros i x. change (images (purge gone s) !! i = Some x -> 0 < i < next_image_id s). rewrite purge_image.
    destruct (gone i); [done|]. apply n_ids0.
  - intros i j x y. change (images (purge gone s) !! i = Some x -> images (purge gone s) !! j = Some y ->
      g_item_id x = g_item_id y -> g_sequence x = g_sequence y -> i = j). rewrite !purge_image.
    destruct (gone i), (gone j); try done. apply n_sequences0.
  - by apply (qview_consistent s).
  - by apply purge_queue_inv.
  - intros k x (y & Hy & _ & [->| ->])%detach_lookup; [|apply detached_sound]; by eapply n_files0.
  - intros k b Hb Hex. apply (batch_sound_statuses s); [| |by apply n_batches0].
    + intros q x Hx. simpl. unfold f, detach_files. rewrite lookup_fmap, Hx. simpl. eexists. split; [done|]. by destruct (_ || _).
    + intros q x (y & Hy & Hs & _)%detach_lookup. eauto.
  - intros w u Hw' Hu. rewrite (n_counted0 w u Hw' Hu), Hst. unfold owes. destruct (w =? ws); [|by rewrite amount_add_0_l || amount_eq].
    rewrite <- !amount_add_assoc. f_equal. apply amount_add_comm.
Qed.

(** ** Deleting an item *)

Lemma cleanup_images_length s ws item : related s -> item_parent s ws item = true ->
  Z.of_nat (length (ListItemImagesForCleanup ws item s)) = gone_images (target s ws item 0) s.
Proof.
  intros Hrel Hitem. unfold ListItemImagesForCleanup. rewrite length_fmap.
  rewrite (Permutation_length (merge_sort_Permutation by_id _)), length_wsum. unfold gone_images, when.
  apply wsum_ext. intros i g Hg. simpl. destruct (decide _) as [[Hi Him]|Hno]; simpl in *.
  - by rewrite (item_target s ws item i g).
  - destruct (target s ws item 0 i) eqn:E; [|done]. destruct (target_item _ _ _ _ E) as (g' & Hg' & Hi'). simplify_eq.
    destruct Hno. split; [done|]. unfold image_in. rewrite Hg. apply item_parent_true in Hitem as (t & -> & ->).
    by rewrite Z.eqb_refl.
Qed.

Lemma item_purged_near ex ws d s item : near ex ws d s -> item_parent s ws item = true ->
  near ex ws (amount_add d (amount (GetItemDurableDatabaseBytes ws item s) 1 (Z.of_nat (length (ListItemImagesForCleanup ws item s)))))
    (remove_item ws item (purge (target s ws item 0) s)).
Proof.
  intros Hn Hitem. pose proof (n_related _ _ _ _ Hn) as Hrel. pose proof (n_truth _ _ _ _ Hn) as Htr.
  pose proof Hitem as (t & Ht & Hw)%item_parent_true. rewrite cleanup_images_length by done.
  set (gone := target s ws item 0). set (S := remove_item ws item (purge gone s)).
  assert (Hrel' : related S) by (by apply remove_item_related).
  assert (Hst : forall w, stored s w = amount_add (stored S w)
    (if w =? ws then amount (GetItemDurableDatabaseBytes ws item s) 1 (gone_images gone s) else no_request)).
  { intros w. rewrite !stored_sums by done.
    rewrite (purged_bytes s ws item 0 (files s) w Hrel Htr), (purged_images s ws item 0 (files s) w).
    rewrite (item_bytes s ws Hrel Htr item t Ht Hw). fold gone.
    assert (Hi : stored_items s w = stored_items S w + when (w =? ws) 1).
    { unfold stored_items. rewrite (wsum_delete _ _ item t Ht), Hw, Z.eqb_sym. unfold S. simpl. lia. }
    assert (Hb : stored_bytes (set_files (files s) (purge gone s)) w = stored_bytes S w + when (w =? ws) (manifest_bytes t)).
    { unfold stored_bytes, S. simpl. rewrite (wsum_delete _ (items s) item t Ht), Hw, (Z.eqb_sym ws w). lia. }
    rewrite Hi, Hb. change (stored_images S w) with (stored_images (set_files (files s) (purge gone s)) w).
    unfold amount, amount_add, no_request, when. destruct (w =? ws); simpl; f_equal; lia. }
  pose proof Hn as []. split; try done.
  - apply (truth_purge gone s (files s) Htr).
  - intros id x Hx. change (delete item (items s) !! id = Some x) in Hx. apply lookup_delete_Some in Hx as [_ Hx]. by eapply n_names0.
  - intros i x. change (images (purge gone s) !! i = Some x -> 0 < i < next_image_id s). rewrite purge_image.
    destruct (gone i); [done|]. apply n_ids0.
  - intros i j x y. change (images (purge gone s) !! i = Some x -> images (purge gone s) !! j = Some y ->
      g_item_id x = g_item_id y -> g_sequence x = g_sequence y -> i = j). rewrite !purge_image.
    destruct (gone i), (gone j); try done. apply n_sequences0.
  - by apply (qview_consistent s).
  - by apply (purge_queue_inv gone).
  - intros k x [Hx _]%map_lookup_filter_Some. by eapply n_files0.
  - intros k b [Hb Hi]%map_lookup_filter_Some Hex. simpl in Hb, Hi. apply (batch_sound_statuses s); [| |by apply n_batches0].
    + intros q x Hx. exists x. split; [|done]. apply map_lookup_filter_Some. split; [done|]. simpl. unfold file_of_item. simpl.
      destruct (Z.eqb_spec k.1 ws) as [<-|]; [|done]. destruct k. simpl. rewrite Hb. by apply bool_decide_eq_false.
    + intros q x [Hx _]%map_lookup_filter_Some. eauto.
  - intros k b [Hb _]%map_lookup_filter_Some. by eapply n_batch_names0.
  - intros k k' b b' [Hb _]%map_lookup_filter_Some [Hb' _]%map_lookup_filter_Some. by apply n_one_batch0.
  - intros w u Hw' Hu. rewrite (n_counted0 w u Hw' Hu), Hst. unfold owes. destruct (w =? ws); [|by rewrite amount_add_0_l || amount_eq].
    rewrite <- !amount_add_assoc. f_equal. apply amount_add_comm.
Qed.
End ItemSteps.
