(* ===== verification/UploadSteps.v ===== *)
(** * Items and upload batches: insertions and changes of state

    Modules [UploadSteps]: items and upload batches: insertions and changes of state;
    [UploadMoves]: upload batches: starting and canceling keep the invariant. *)

From Stdlib Require Import ZArith Lia Ascii String.
From stdpp Require Import base gmap strings list sorting.
From S2P Require Import Prelude GoStrings Json JobSchema JobStore JobInvariant MediaFragment Quota QuotaStore QuotaOps QuotaInvariant QuotaSteps ItemDb ItemOps UploadBatches UploadOps ItemAudit ItemPurge ItemSound ItemSteps.

Module UploadSteps.
Import GoStr Json JobInvariant UploadRef Quota QuotaStore QuotaOps QuotaFacts QuotaInvariant QuotaSteps QuotaTheorems ItemDb ItemGraph ItemOps ItemAudit ItemPurge ItemRemove ItemMeasure UploadBatches ItemSound ItemSteps.
#[local] Open Scope Z_scope.

(** ** A new item *)

Section new_item.
Context (id : string) (t : item_row) (s : idb).
Hypothesis Hfresh : items s !! id = None.
Abbreviation s' := (set_items (<[id := t]> (items s)) s).

Lemma new_item_parent w i : item_parent s w i = true -> item_parent s' w i = true.
Proof using Hfresh.
  rewrite !item_parent_true. intros (t' & Ht & Hw). exists t'. split; [|done]. simpl. rewrite lookup_insert_ne; [done|congruence].
Qed.

Lemma new_item_related : ok_item s t = true -> related s -> related s'.
Proof using Hfresh.
  intros Ht []. split; try done.
  - intros i x Hx. change (<[id := t]> (items s) !! i = Some x) in Hx.
    apply lookup_insert_Some in Hx as [[<- <-]|[_ Hx]]; [done|]. by apply (rel_items0 i x).
  - intros i g Hg. apply new_item_parent. by apply (rel_images0 i g).
  - intros i r Hr. specialize (rel_requests0 i r Hr). unfold ok_request in *.
    destruct (r_item_id r) as [it|]; [|exact rel_requests0].
    apply andb_true_iff in rel_requests0 as [[[[H1 H2]%andb_true_iff H3]%andb_true_iff H4]%andb_true_iff H5].
    apply new_item_parent in H2. rewrite H2. change (workspace_parent s' (r_workspace_id r)) with (workspace_parent s (r_workspace_id r)).
    rewrite H1. by rewrite !andb_true_iff.
  - intros k b Hb. specialize (rel_batches0 k b Hb). unfold ok_batch in *.
    apply andb_true_iff in rel_batches0 as [H1 H2]. by rewrite (new_item_parent _ _ H1).
Qed.

Lemma new_item_near ex ws d : near ex ws d s -> ok_item s t = true -> t_workspace_id t = ws -> TrimSpace id = id -> id <> ""%string ->
  near ex ws (amount_sub d (amount (manifest_bytes t) 1 0)) s'.
Proof using Hfresh.
  intros Hn Ht Hw Htrim Hname. pose proof Hn as []. assert (Hrel : related s') by by apply new_item_related.
  split; try done.
  - intros i x Hx. change (<[id := t]> (items s) !! i = Some x) in Hx.
    apply lookup_insert_Some in Hx as [[<- <-]|[_ Hx]]; [done|]. by apply (n_names0 i x).
  - by apply (qview_consistent s).
  - intros w u Hw' Hu. rewrite (n_counted0 w u Hw' Hu), !stored_sums by done.
    assert (Hb : stored_bytes s' w = stored_bytes s w + when (ws =? w) (manifest_bytes t)).
    { unfold stored_bytes. simpl. rewrite (wsum_insert _ _ id t Hfresh), Hw. lia. }
    assert (Hi : stored_items s' w = stored_items s w + when (ws =? w) 1).
    { unfold stored_items. simpl. rewrite (wsum_insert _ _ id t Hfresh), Hw. lia. }
    rewrite Hb, Hi. change (stored_images s' w) with (stored_images s w). unfold owes, when. rewrite (Z.eqb_sym ws w).
    destruct (w =? ws); unfold amount_add, amount_sub, amount, no_request; destruct d; simpl; f_equal; lia.
Qed.
End new_item.

(** ** Images: a new one, or a change of the columns nobody refers to *)

Definition same_place (g g' : item_image) : Prop := g_workspace_id g' = g_workspace_id g /\ g_item_id g' = g_item_id g.

Section images.
Context (s : idb) (m : gmap Z item_image) (n : Z).
Abbreviation s' := (set_images m n s).
Hypothesis Hkept : forall i g, images s !! i = Some g -> exists g', m !! i = Some g' /\ same_place g g'.
Hypothesis Hrel : related s.

Lemma kept_parent w i : image_parent s w i = true -> image_parent s' w i = true.
Proof using Hkept.
  rewrite !image_parent_true. intros (g & Hg & Hw). destruct (Hkept i g Hg) as (g' & Hg' & Hw' & _). exists g'.
  split; [done|congruence].
Qed.
Lemma kept_of_parent w i it : image_of_parent s w i it = true -> image_of_parent s' w i it = true.
Proof using Hkept.
  rewrite !image_of_parent_true. intros (g & Hg & Hw & Hi). destruct (Hkept i g Hg) as (g' & Hg' & Hw' & Hi'). exists g'.
  split_and!; [done|congruence..].
Qed.
Lemma kept_any i : any_image s i = true -> any_image s' i = true.
Proof using Hkept.
  unfold any_image. rewrite !bool_decide_eq_true. intros [g Hg]. destruct (Hkept i g Hg) as (g' & Hg' & _). eauto.
Qed.
Lemma kept_not_of i it w : image_parent s w i = true -> image_not_of s' i it = image_not_of s i it.
Proof using Hkept.
  rewrite image_parent_true. intros (g & Hg & _). destruct (Hkept i g Hg) as (g' & Hg' & _ & Hi). unfold image_not_of.
  simpl. by rewrite Hg, Hg', Hi.
Qed.
Lemma kept_grant g : ok_grant s g = true -> ok_grant s' g = true.
Proof using Hkept. unfold ok_grant. intros [H1 H2]%andb_true_iff. apply andb_true_iff. split; [done|by apply kept_of_parent]. Qed.

Lemma kept_request r : ok_request s r = true -> ok_request s' r = true.
Proof using Hkept Hrel.
  unfold ok_request. intros [[[[H1 H2]%andb_true_iff H3]%andb_true_iff H4]%andb_true_iff H5]%andb_true_iff.
  change (request_job s' r) with (request_job s r). change (request_run s' r) with (request_run s r).
  apply andb_true_iff; split; [apply andb_true_iff; split; [apply andb_true_iff; split; [apply andb_true_iff; split; [done|done]|]|]|].
  - destruct (r_item_image_id r) as [i|]; [|done]. apply andb_true_iff in H3 as [Hp Hn].
    rewrite (kept_parent _ _ Hp), (kept_not_of _ _ _ Hp). done.
  - destruct (r_transcription_job_id r) as [j|] eqn:Ej; [|done]. destruct (request_job s r) as [jr|] eqn:Er; [|done]. simpl in *.
    unfold request_job in Er. rewrite Ej in Er. simpl in Er. destruct (q_jobs (queue s) !! j) as [j'|] eqn:Hj; [|done].
    simpl in Er. destruct (_ && _) eqn:E; [|done]. injection Er as ->.
    pose proof (rel_jobs _ Hrel _ _ Hj) as Hok. unfold ok_job in Hok. apply andb_true_iff in Hok as [Hok _].
    by rewrite (kept_not_of _ _ _ Hok).
  - destruct (r_session_id r) as [j|] eqn:Ej; [|done]. destruct (request_run s r) as [jr|] eqn:Er; [|done]. simpl in *.
    unfold request_run in Er. rewrite Ej in Er. simpl in Er. destruct (ocr_runs (kids s) !! j) as [j'|] eqn:Hj; [|done].
    simpl in Er. destruct ((n_workspace_id j' =? _) && _) eqn:E; [|done]. injection Er as ->.
    pose proof (rel_runs _ Hrel _ _ Hj) as Hok. unfold ok_run in Hok. apply andb_true_iff in Hok as [Hok _].
    by rewrite (kept_not_of _ _ _ Hok).
Qed.

Lemma and_left (a a' b : bool) : (a = true -> a' = true) -> a && b = true -> a' && b = true.
Proof. destruct a, b; naive_solver. Qed.

Lemma kept_related : (forall i g, m !! i = Some g -> ok_image s g = true) -> related s'.
Proof using Hkept Hrel.
  intros Him. pose proof Hrel as []. split; try done.
  - intros i g Hg. apply kept_grant. by apply (rel_tokens0 i g).
  - intros i x Hx. specialize (rel_sessions0 i x Hx). unfold ok_session in *.
    apply andb_true_iff in rel_sessions0 as [H1 H2]. apply andb_true_iff. split; [done|by apply kept_grant].
  - intros i r Hr. apply kept_request. by apply (rel_requests0 i r).
  - intros i a Ha. specialize (rel_audits0 i a Ha). unfold ok_audit in *. destruct (u_item_image_id a); [|done].
    revert rel_audits0. apply and_left, kept_parent.
  - intros i a Ha. specialize (rel_runs0 i a Ha). unfold ok_run in *. revert rel_runs0. apply and_left, kept_parent.
  - intros i a Ha. specialize (rel_current0 i a Ha). unfold ok_current in *. apply andb_true_iff in rel_current0 as [H1 H2].
    apply andb_true_iff. split; [done|by apply kept_any].
  - intros i Hi. by apply kept_any, rel_mirrors0.
  - intros i Hi. by apply kept_any, rel_tombstones0.
  - intros k p Hp. apply kept_parent. by apply (rel_pages0 k p).
  - intros k p Hp. specialize (rel_index0 k p Hp). unfold ok_indexed in *. revert rel_index0. apply and_left, kept_parent.
  - intros k p Hp. specialize (rel_published0 k p Hp). unfold ok_indexed in *. revert rel_published0. apply and_left, kept_parent.
  - intros k j Hj. specialize (rel_jobs0 k j Hj). unfold ok_job in *. revert rel_jobs0. apply and_left, kept_parent.
  - intros k f Hf. specialize (rel_files0 k f Hf). unfold ok_file in *. simpl. destruct (batches s !! k.1) as [b|]; [|done].
    apply andb_true_iff in rel_files0 as [H1 H2]. apply andb_true_iff. split.
    + destruct (f_item_image_id f); [|done]. by apply kept_of_parent.
    + destruct (f_transcription_job_id f) as [j|]; [|done]. destruct (q_jobs (queue s) !! j); [|done].
      apply andb_true_iff in H2 as [H2 H3]. apply andb_true_iff. split; [done|by apply kept_of_parent].
Qed.

Lemma kept_truth : truth_related s -> truth_related s'.
Proof using Hkept. intros Ht k b Hb. apply kept_parent. by apply (Ht k b). Qed.

(** The images counted of a workspace are all that changes. *)
Lemma kept_near ex ws d c : near ex ws d s -> (forall i g, m !! i = Some g -> ok_image s g = true) ->
  (forall i g, m !! i = Some g -> 0 < i < n) -> next_image_id s <= n ->
  (forall i j g h, m !! i = Some g -> m !! j = Some h -> g_item_id g = g_item_id h -> g_sequence g = g_sequence h -> i = j) ->
  (forall w, stored_images s' w = stored_images s w + when (ws =? w) c) ->
  near ex ws (amount_sub d (amount 0 0 c)) s'.
Proof using Hkept Hrel.
  intros Hn Him Hids Hle Hseq Hc. pose proof (kept_related Him) as Hrel'. pose proof Hn as [].
  split; try done.
  - by apply kept_truth.
  - simpl. lia.
  - by apply (qview_consistent s).
  - intros w u Hw' Hu. rewrite (n_counted0 w u Hw' Hu), !stored_sums by done. rewrite Hc.
    change (stored_items s' w) with (stored_items s w). change (stored_bytes s' w) with (stored_bytes s w).
    unfold owes, when. rewrite (Z.eqb_sym ws w).
    destruct (w =? ws); unfold amount_add, amount_sub, amount, no_request; destruct d; simpl; f_equal; lia.
Qed.
End images.

Lemma new_image_near ex ws d s g : near ex ws d s -> g_workspace_id g = ws -> item_parent s ws (g_item_id g) = true ->
  image_at s (g_item_id g) (g_sequence g) = None ->
  near ex ws (amount_sub d (amount 0 0 1)) (set_images (<[next_image_id s := g]> (images s)) (next_image_id s + 1) s).
Proof.
  intros Hn Hw Hit Hat. pose proof Hn as [].
  assert (Hfresh : images s !! next_image_id s = None).
  { destruct (images s !! next_image_id s) eqn:E; [|done]. apply n_ids0 in E. lia. }
  assert (Hno : forall i h, images s !! i = Some h -> g_item_id h = g_item_id g -> g_sequence h = g_sequence g -> False).
  { intros i h Hh H1 H2. unfold image_at in Hat. destruct (filter _ _) as [|x l] eqn:E; [|done].
    assert (Hin : (i, h) ∈ filter (fun kg : Z * item_image => g_item_id kg.2 = g_item_id g /\ g_sequence kg.2 = g_sequence g) (map_to_list (images s))).
    { apply list_elem_of_filter. split; [done|by apply elem_of_map_to_list]. }
    rewrite E in Hin. by apply elem_of_nil in Hin. }
  apply kept_near; try done.
  - intros i h Hh. exists h. rewrite lookup_insert_ne by congruence. by split.
  - intros i h [[<- <-]|[_ Hh]]%lookup_insert_Some; [unfold ok_image; by rewrite Hw|]. by apply (rel_images _ n_related0 i h).
  - intros i h [[<- <-]|[_ Hh]]%lookup_insert_Some; [lia|]. apply n_ids0 in Hh. lia.
  - lia.
  - intros i j x y [[<- <-]|[Hi Hx]]%lookup_insert_Some [[<- <-]|[Hj Hy]]%lookup_insert_Some ??; [done| | |by eauto].
    + destruct (Hno j y); congruence.
    + destruct (Hno i x); congruence.
  - intros w. unfold stored_images. simpl. rewrite (wsum_insert _ _ _ g Hfresh), Hw. lia.
Qed.

Lemma owes_same ex ws d d' s : d = d' -> near ex ws d s -> near ex ws d' s.
Proof. by intros ->. Qed.

(** Columns of an image nobody refers to. *)
Lemma alter_image_near ex ws d s i h : (forall g, same_place g (h g) /\ g_sequence (h g) = g_sequence g) ->
  near ex ws d s -> near ex ws d (set_images (alter h i (images s)) (next_image_id s) s).
Proof.
  intros Hh Hn. pose proof Hn as [].
  assert (Hback : forall j g', alter h i (images s) !! j = Some g' -> exists g, images s !! j = Some g /\ same_place g g' /\ g_sequence g' = g_sequence g).
  { intros j g'. rewrite lookup_alter. destruct (decide (i = j)) as [->|].
    - destruct (images s !! j) as [g|]; [|done]. intros [= <-]. exists g. split; [done|apply Hh].
    - intros Hg. exists g'. by repeat split. }
  apply (owes_same _ _ (amount_sub d (amount 0 0 0))); [unfold amount_sub, amount; destruct d; simpl; f_equal; lia|].
  apply kept_near; try done.
  - intros j g Hg. destruct (decide (i = j)) as [->|].
    + exists (h g). rewrite lookup_alter_eq, Hg. split; [done|apply Hh].
    + exists g. rewrite lookup_alter_ne by done. by repeat split.
  - intros j g' (g & Hg & [Hw Hi] & _)%Hback. unfold ok_image. rewrite Hw, Hi. by apply (rel_images _ n_related0 j g).
  - intros j g' (g & Hg & _)%Hback. by eapply n_ids0.
  - intros j k g' h' (g & Hg & [_ Hgi] & Hgs)%Hback (h0 & Hh0 & [_ Hhi] & Hhs)%Hback ??. eapply n_sequences0; eauto; congruence.
  - intros w. unfold stored_images. simpl. unfold when.
    destruct (images s !! i) as [g|] eqn:E; [|rewrite alter_id by congruence; destruct (ws =? w); lia].
    rewrite (alter_row _ _ _ _ E), <- insert_delete_eq, (wsum_insert _ _ _ (h g)), (wsum_delete _ (images s) i g E) by apply lookup_delete_eq.
    destruct (Hh g) as [[-> _] _]. destruct (ws =? w); lia.
Qed.

(** ** Files *)

Lemma ok_file_same s k f f' : f_item_image_id f' = f_item_image_id f -> f_transcription_job_id f' = f_transcription_job_id f ->
  ok_file s k f = true -> ok_file s k f' = true.
Proof. unfold ok_file. by intros -> ->. Qed.
Lemma ok_file_none s k f b : batches s !! k.1 = Some b -> f_item_image_id f = None -> f_transcription_job_id f = None -> ok_file s k f = true.
Proof. unfold ok_file. by intros -> -> ->. Qed.

Lemma files_related s m : related s -> map_Forall (fun k f => ok_file s k f = true) m -> related (set_files m s).
Proof. intros [] Hf. by split. Qed.

Lemma files_near ex ws d s m : near ex ws d s ->
  (forall k f, m !! k = Some f -> ok_file s k f = true /\ file_sound f) ->
  (forall k b, batches s !! k = Some b -> ex <> Some k -> batch_sound s k b -> batch_sound (set_files m s) k b) ->
  near ex ws d (set_files m s).
Proof.
  intros Hn Hm Hb. pose proof Hn as []. assert (related (set_files m s)) by (apply files_related; [done|]; intros k f Hf; by apply Hm).
  split; try done.
  - intros k f Hf. by eapply Hm.
  - intros k b Hk Hex. apply Hb; [done|done|]. by apply n_batches0.
Qed.

(** One row of an open batch changes; a batch that is open stays open unless the row is completed. *)
Lemma file_near ex ws d s k f f' : near ex ws d s -> files s !! k = Some f ->
  ok_file s k f' = true -> file_sound f' ->
  (forall b, batches s !! k.1 = Some b -> ex <> Some k.1 ->
     f_status f' = f_status f \/ (b_status b = InProgress /\ f_status f' <> FCompleted /\ f_status f' <> FCanceled)) ->
  near ex ws d (set_files (<[k := f']> (files s)) s).
Proof.
  destruct k as [k0 q0]. intros Hn Hf Hok Hs Hst. pose proof Hn as []. apply files_near; [done| |].
  - intros k' x [[<- <-]|[_ Hx]]%lookup_insert_Some; [done|]. split; [by apply (rel_files _ n_related0 k' x)|by eapply n_files0].
  - intros kb b Hb Hex Hbs. simpl in Hst. destruct (decide (kb = k0)) as [->|Hne].
    2:{ apply (batch_sound_statuses s); [| |done]; intros q x; simpl; rewrite lookup_insert_ne by (intros [=]; done); eauto. }
    destruct (Hst b Hb Hex) as [Hsame|(Hb' & Hn1 & Hn2)].
    + apply (batch_sound_statuses s); [| |done]; intros q x Hx; simpl in *; destruct (decide (q = q0)) as [->|].
      * exists f'. rewrite lookup_insert_eq. split; [done|congruence].
      * exists x. rewrite lookup_insert_ne by congruence. done.
      * exists f. rewrite lookup_insert_eq in Hx. split; [done|congruence].
      * exists x. rewrite lookup_insert_ne in Hx by congruence. done.
    + unfold batch_sound, all_files in *. rewrite Hb' in *. destruct Hbs as [Hall _]. split.
      * intros q x. simpl. destruct (decide (q = q0)) as [->|].
        -- rewrite lookup_insert_eq. by intros [= <-].
        -- rewrite lookup_insert_ne by congruence. apply Hall.
      * exists q0, f'. simpl. by rewrite lookup_insert_eq.
Qed.

(** ** Batches *)

(** The item and its workspace stay, a context only goes. *)
Lemma batch_related s k b b' : related s -> batches s !! k = Some b -> b_item_id b' = b_item_id b ->
  (b_context_id b' = None \/ b_context_id b' = b_context_id b) ->
  related (set_batches (<[k := b']> (batches s)) s).
Proof.
  intros [] Hb Hi Hc. split; try done.
  - intros k' x Hx. change (<[k := b']> (batches s) !! k' = Some x) in Hx.
    apply lookup_insert_Some in Hx as [[<- <-]|[_ Hx]]; [|by apply (rel_batches0 k' x)].
    specialize (rel_batches0 k b Hb). unfold ok_batch in *. rewrite Hi. apply andb_true_iff in rel_batches0 as [H1 H2].
    apply andb_true_iff. split; [done|]. destruct Hc as [-> | ->]; done.
  - intros k' f Hf. specialize (rel_files0 k' f Hf). unfold ok_file in *. simpl.
    destruct (decide (k'.1 = k)) as [E|]; [|by rewrite lookup_insert_ne].
    rewrite E, lookup_insert_eq, Hi. by rewrite E, Hb in rel_files0.
Qed.

Lemma batch_near ws d s k b b' : batches s !! k = Some b -> b_item_id b' = b_item_id b ->
  (b_context_id b' = None \/ b_context_id b' = b_context_id b) ->
  near (Some k) ws d s -> near (Some k) ws d (set_batches (<[k := b']> (batches s)) s).
Proof.
  intros Hb Hi Hc Hn. pose proof Hn as []. assert (Hrel : related (set_batches (<[k := b']> (batches s)) s)) by by eapply batch_related.
  split; try done.
  - intros k' x Hx Hex. change (<[k := b']> (batches s) !! k' = Some x) in Hx. rewrite lookup_insert_ne in Hx by congruence.
    exact (n_batches0 k' x Hx Hex).
  - intros k' x Hx. change (<[k := b']> (batches s) !! k' = Some x) in Hx.
    apply lookup_insert_Some in Hx as [[<- <-]|[_ Hx]]; by eapply n_batch_names0.
  - intros k1 k2 x y Hx Hy Hxy. change (<[k := b']> (batches s) !! k1 = Some x) in Hx. change (<[k := b']> (batches s) !! k2 = Some y) in Hy.
    apply lookup_insert_Some in Hx as [[<- <-]|[_ Hx]]; apply lookup_insert_Some in Hy as [[<- <-]|[_ Hy]]; [done|..].
    + eapply n_one_batch0; eauto. congruence.
    + eapply n_one_batch0; eauto. congruence.
    + by eapply n_one_batch0.
Qed.
End UploadSteps.

(** * Upload batches: starting and canceling keep the invariant *)

Module UploadMoves.
Import GoStr Json JobInvariant UploadRef Quota QuotaStore QuotaOps QuotaFacts QuotaInvariant QuotaSteps QuotaTheorems ItemDb ItemGraph ItemOps ItemAudit ItemPurge ItemRemove ItemMeasure UploadBatches UploadOps ItemSound ItemSteps UploadSteps.
#[local] Open Scope Z_scope.

(** ** A new batch and its files *)

Lemma no_files_without_batch s k q f : related s -> batches s !! k = None -> files s !! (k, q) = Some f -> False.
Proof. intros Hrel Hk Hf. pose proof (rel_files _ Hrel _ _ Hf) as Hok. unfold ok_file in Hok. simpl in Hok. by rewrite Hk in Hok. Qed.

Lemma new_batch_near ws d s k b : near None ws d s -> batches s !! k = None -> ok_batch s k b = true ->
  TrimSpace k.2 = k.2 -> (forall k' b', batches s !! k' = Some b' -> b_item_id b' <> b_item_id b) ->
  near (Some k) ws d (set_batches (<[k := b]> (batches s)) s).
Proof.
  intros Hn Hk Hok Htrim Hitem. pose proof Hn as [].
  assert (related (set_batches (<[k := b]> (batches s)) s)).
  { pose proof n_related0 as []. split; try done.
    - intros k' x Hx. change (<[k := b]> (batches s) !! k' = Some x) in Hx.
      apply lookup_insert_Some in Hx as [[<- <-]|[_ Hx]]; [done|by apply (rel_batches0 k' x)].
    - intros k' f Hf. specialize (rel_files0 k' f Hf). unfold ok_file in *. simpl.
      rewrite lookup_insert_ne; [done|]. intros E. by rewrite <- E, Hk in rel_files0. }
  split; try done.
  - intros k' x Hx Hex. change (<[k := b]> (batches s) !! k' = Some x) in Hx. rewrite lookup_insert_ne in Hx by congruence.
    by apply (n_batches0 k' x Hx).
  - intros k' x Hx. change (<[k := b]> (batches s) !! k' = Some x) in Hx.
    apply lookup_insert_Some in Hx as [[<- <-]|[_ Hx]]; [done|by eapply n_batch_names0].
  - intros k1 k2 x y Hx Hy Hxy. change (<[k := b]> (batches s) !! k1 = Some x) in Hx. change (<[k := b]> (batches s) !! k2 = Some y) in Hy.
    apply lookup_insert_Some in Hx as [[<- <-]|[_ Hx]]; apply lookup_insert_Some in Hy as [[<- <-]|[_ Hy]]; [done|..].
    + destruct (Hitem _ _ Hy). congruence.
    + by destruct (Hitem _ _ Hx).
    + by eapply n_one_batch0.
Qed.

Lemma declared_sound now name size sha : file_sound (declared_file now name size sha).
Proof. split; simpl; first [done|lia|by left|by split; intros []]. Qed.

Definition only_pending (s : idb) (k : Z * string) : Prop := all_files s k (fun f => f_status f = FPending).

Lemma declare_near now d l ws batch seq s s' : near (Some (ws, batch)) ws d s -> is_Some (batches s !! (ws, batch)) ->
  only_pending s (ws, batch) -> declare_files now ws batch seq l s = Ok (tt, s') ->
  near (Some (ws, batch)) ws d s' /\ only_pending s' (ws, batch) /\
  (exists m, s' = set_files m s /\ (forall k, is_Some (files s !! k) -> is_Some (m !! k))) /\
  (l <> [] -> exists q, is_Some (files s' !! (ws, batch, q))).
Proof.
  revert seq s. induction l as [|i l IH]; intros seq s Hn [b Hb] Hp H.
  - injection H as <-. split_and!; [done|done|exists (files s); split; [by destruct s|done]|done].
  - simpl in H. tx_bind H as n s1 H1. unfold InsertUploadBatchFileManual in H1. rewrite Hb in H1.
    destruct (Z.leb_spec (I_Size i) 0); [done|]. destruct (files s !! (ws, batch, seq mod 2 ^ 32)) eqn:Hf; [done|].
    injection H1 as <- <-. simpl in H. set (f := declared_file _ _ _ _) in H. set (k := (ws, batch, seq mod 2 ^ 32)) in *.
    assert (Hn1 : near (Some (ws, batch)) ws d (set_files (<[k := f]> (files s)) s)).
    { apply files_near; [done| |].
      - intros k' x [[<- <-]|[_ Hx]]%lookup_insert_Some.
        + split; [by eapply ok_file_none|apply declared_sound].
        + split; [by apply (rel_files _ (n_related _ _ _ _ Hn) k' x)|by eapply (n_files _ _ _ _ Hn)].
      - intros k' b' Hb' Hex. apply batch_sound_statuses; intros q x; simpl; rewrite lookup_insert_ne by (unfold k; congruence); eauto. }
    apply IH in H as (Hn' & Hp' & (m & -> & Hm) & Hl); [|done|by exists b|].
    + split_and!; [done|done| |].
      * exists m. split; [by destruct s|]. intros k' Hk'. apply Hm. simpl. apply lookup_insert_is_Some'. by right.
      * intros _. exists (seq mod 2 ^ 32). apply Hm. simpl. fold k. rewrite lookup_insert_eq. eauto.
    + intros q x. simpl. destruct (decide ((ws, batch, q) = k)) as [->|]; [rewrite lookup_insert_eq; by intros [= <-]|].
      rewrite lookup_insert_ne by done. apply Hp.
Qed.

(** ** Canceling the jobs of a batch *)

Lemma canceled_checks now j : Jobs.job_checks j = true -> Jobs.job_checks (canceled_job now j) = true.
Proof. unfold Jobs.job_checks. simpl. rewrite !andb_true_iff. intros [? ?]. by split. Qed.

Lemma canceled_attempt_checks now n a : Jobs.attempt_checks n a = true ->
  Jobs.attempt_checks n (Jobs.finish_row Jobs.AttemptCanceled (Some "canceled with upload batch"%string) None now a) = true.
Proof.
  unfold Jobs.attempt_checks. simpl. intros H. split_bools. rewrite !andb_true_iff. split_and!; try done.
  - by apply Z.ltb_lt.
  - by apply Z.ltb_lt.
  - apply Z.leb_le. lia.
Qed.

Section cancel.
Context (now ws : Z) (id : string) (s : idb).
Abbreviation js := (jobs_of_batch ws id s).
Definition canceled_queue : queue_tables :=
  {| q_jobs := map_imap (fun i j => Some (if cancels_job js i j then canceled_job now j else j)) (q_jobs (queue s));
     q_attempts := map_imap (fun k a => Some (if cancels_attempt (queue s) js k a
       then Jobs.finish_row Jobs.AttemptCanceled (Some "canceled with upload batch"%string) None now a else a)) (q_attempts (queue s));
     q_checkpoints := filter (fun kv => kv.1.1 ∉ js) (q_checkpoints (queue s)); q_next_job_id := q_next_job_id (queue s) |}.

Lemma canceled_job_lookup i : q_jobs canceled_queue !! i = (fun j => if cancels_job js i j then canceled_job now j else j) <$> q_jobs (queue s) !! i.
Proof. simpl. rewrite map_lookup_imap. by destruct (q_jobs (queue s) !! i). Qed.
Lemma canceled_attempt_lookup k : q_attempts canceled_queue !! k = (fun a => if cancels_attempt (queue s) js k a
       then Jobs.finish_row Jobs.AttemptCanceled (Some "canceled with upload batch"%string) None now a else a) <$> q_attempts (queue s) !! k.
Proof. simpl. rewrite map_lookup_imap. by destruct (q_attempts (queue s) !! k). Qed.

Lemma canceled_job_from i j' : q_jobs canceled_queue !! i = Some j' ->
  exists j, q_jobs (queue s) !! i = Some j /\ Jobs.j_key j' = Jobs.j_key j /\ Jobs.j_attempt_count j' = Jobs.j_attempt_count j /\
    ((cancels_job js i j = true /\ j' = canceled_job now j) \/ (cancels_job js i j = false /\ j' = j)).
Proof.
  rewrite canceled_job_lookup. destruct (q_jobs (queue s) !! i) as [j|]; [|done]. intros [= <-]. exists j.
  destruct (cancels_job js i j); split_and!; auto.
Qed.
Lemma canceled_attempt_from k a' : q_attempts canceled_queue !! k = Some a' ->
  exists a, q_attempts (queue s) !! k = Some a /\ Jobs.a_lease_token a' = Jobs.a_lease_token a /\
    ((cancels_attempt (queue s) js k a = true /\ Jobs.a_outcome a' = Jobs.AttemptCanceled /\
      a' = Jobs.finish_row Jobs.AttemptCanceled (Some "canceled with upload batch"%string) None now a)
     \/ (cancels_attempt (queue s) js k a = false /\ a' = a)).
Proof.
  rewrite canceled_attempt_lookup. destruct (q_attempts (queue s) !! k) as [a|]; [|done]. intros [= <-]. exists a.
  destruct (cancels_attempt _ _ _ _); split_and!; auto.
Qed.

Lemma canceled_queue_inv : queue_inv (jview s) -> queue_inv (jview (set_queue canceled_queue s)).
Proof.
  intros []. simpl in *. constructor; cbn [jview set_queue queue Jobs.jobs Jobs.attempts Jobs.checkpoints Jobs.next_job_id].
  - intros i j' (j & Hj & _ & _ & [[_ ->]|[_ ->]])%canceled_job_from; destruct (inv_checks0 i j Hj); split; try done.
    by apply canceled_checks.
  - done.
  - intros i1 i2 r1 r2 img (j1 & Hj1 & _ & _ & [[_ ->]|[_ ->]])%canceled_job_from (j2 & Hj2 & _ & _ & [[_ ->]|[_ ->]])%canceled_job_from; try done.
    by eapply inv_active0.
  - intros i j' (j & Hj & _ & _ & [[_ ->]|[Hc ->]])%canceled_job_from; [done|]. intros Hst.
    destruct (inv_running0 i j Hj Hst) as (a & Ha & Hrest). exists a. split; [|done].
    rewrite canceled_attempt_lookup, Ha. simpl. f_equal. unfold cancels_attempt. simpl. by rewrite Hj, Hc.
  - intros i n a' (a & Ha & _ & Hor)%canceled_attempt_from. destruct (inv_attempt0 i n a Ha) as (Hck & r & Hr & Hle & Hrun).
    split.
    + destruct Hor as [(_ & _ & ->)|[_ ->]]; [by apply canceled_attempt_checks|done].
    + eexists. split; [by rewrite canceled_job_lookup, Hr|]. simpl. split; [by destruct (cancels_job _ _ _)|].
      intros Ho. destruct Hor as [(_ & Ho' & _)|[Hca ->]]; [congruence|]. destruct (Hrun Ho) as [Hst Hn].
      destruct (inv_running0 i r Hr Hst) as (a1 & Ha1 & Ho1 & Hl1 & Hrev). subst n. simplify_eq.
      destruct (cancels_job js i r) eqn:E; [|done]. exfalso. unfold cancels_attempt in Hca. simpl in Hca.
      rewrite Hr, E, Z.eqb_refl, Hrev, Z.eqb_refl, Hl1, !bool_decide_true in Hca by done. done.
  - intros i j' n (j & Hj & _ & -> & _)%canceled_job_from Hn. destruct (inv_history0 i j n Hj Hn) as [a Ha].
    rewrite canceled_attempt_lookup, Ha. eauto.
  - intros k1 k2 a1' a2' (a1 & Ha1 & -> & _)%canceled_attempt_from (a2 & Ha2 & -> & _)%canceled_attempt_from. by eapply inv_tokens0.
  - intros i j' (j & Hj & _ & _ & [[_ ->]|[Hc ->]])%canceled_job_from; [done|]. by eapply inv_budget0.
  - intros i line [x [Hx Hn]%map_lookup_filter_Some]. simpl in Hn. destruct (inv_checkpoints0 i line ltac:(eauto)) as (r & Hr & Ha).
    exists r. rewrite canceled_job_lookup, Hr. simpl. split; [|done]. f_equal. unfold cancels_job.
    by rewrite bool_decide_false.
Qed.

Lemma canceled_queue_near ex d w : near ex w d s -> near ex w d (set_queue canceled_queue s).
Proof.
  intros Hn. pose proof Hn as [].
  assert (Hjp : forall j, job_parent s j = true -> job_parent (set_queue canceled_queue s) j = true).
  { intros j. unfold job_parent. rewrite !bool_decide_eq_true. intros [x Hx]. cbn [set_queue queue].
    rewrite canceled_job_lookup, Hx. eauto. }
  assert (Hkey : forall j r, q_jobs (queue s) !! j = Some r -> exists r', q_jobs canceled_queue !! j = Some r' /\ Jobs.j_key r' = Jobs.j_key r).
  { intros j r Hr. rewrite canceled_job_lookup, Hr. simpl. eexists. split; [done|]. by destruct (cancels_job _ _ _). }
  assert (related (set_queue canceled_queue s)).
  { pose proof n_related0 as []. split; try done.
    - intros i r Hr. specialize (rel_requests0 i r Hr). unfold ok_request in *.
      assert (He : match request_job (set_queue canceled_queue s) r, request_job s r with
        | Some j', Some j => Jobs.j_key j' = Jobs.j_key j | None, None => True | _, _ => False end).
      { unfold request_job. destruct (r_transcription_job_id r) as [j|]; [|done]. cbn [set_queue queue mbind option_bind].
        destruct (q_jobs (queue s) !! j) as [jr|] eqn:E.
        - destruct (Hkey j jr E) as (jr' & -> & Hk). cbn [mbind option_bind]. rewrite Hk. destruct (_ =? _), (_ =? _); simpl; first [exact Hk|exact I].
        - by rewrite canceled_job_lookup, E. }
      change (request_run (set_queue canceled_queue s) r) with (request_run s r).
      destruct (request_job (set_queue canceled_queue s) r) as [j'|], (request_job s r) as [j|]; try done.
      unfold some_is in *. rewrite He. exact rel_requests0.
    - intros i j' (j & Hj & Hk & _)%canceled_job_from. unfold ok_job. rewrite Hk. by apply (rel_jobs0 i j).
    - intros k a' (a & Ha & _)%canceled_attempt_from. apply Hjp. by apply (rel_attempts0 k a).
    - intros k c [Hc _]%map_lookup_filter_Some. apply Hjp. by apply (rel_checkpoints0 k c).
    - intros k f Hf. specialize (rel_files0 k f Hf). unfold ok_file in *. cbn [set_queue queue batches].
      destruct (batches s !! k.1); [|done]. destruct (f_transcription_job_id f) as [j|]; [|done].
      apply andb_true_iff in rel_files0 as [H1 H2]. apply andb_true_iff. split; [exact H1|].
      destruct (q_jobs (queue s) !! j) as [r|] eqn:E; [|done]. destruct (Hkey j r E) as (r' & -> & ->). exact H2. }
  split; try done.
  by apply canceled_queue_inv.
Qed.
End cancel.
End UploadMoves.
