(* ===== verification/ItemKeeps.v ===== *)
(** * Items: the operations keep the invariant *)

From Stdlib Require Import ZArith Lia Ascii String.
From stdpp Require Import base gmap strings list sorting.
From S2P Require Import Prelude GoStrings Json JobSchema JobStore JobInvariant MediaFragment Quota QuotaStore QuotaOps QuotaInvariant QuotaSteps ItemDb ItemOps UploadBatches UploadOps ItemAudit ItemPurge ItemSound ItemSteps UploadSteps.

Module ItemKeeps.
Import GoStr Json JobStore JobInvariant MediaFragment UploadRef Quota QuotaStore QuotaOps QuotaFacts QuotaInvariant QuotaSteps QuotaTheorems ItemDb ItemGraph ItemOps ItemAudit ItemPurge ItemRemove ItemMeasure UploadBatches UploadOps ItemSound ItemSteps UploadSteps.
#[local] Open Scope Z_scope.

Lemma one_of_Ok {A} (f : idb -> option A) s x s' : one_of f s = Ok (x, s') <-> f s = Some x /\ s' = s.
Proof. unfold one_of. cbv [mbind tx_bind tx_reads tx_lift of_option]. destruct (f s); naive_solver. Qed.
Lemma measure_Ok f s x s' : measure f s = Ok (x, s') -> x = f s /\ s' = s.
Proof. unfold measure. destruct (_ <=? _); [|done]. by intros [= <- <-]. Qed.

Lemma member_rows s ws user : related s -> (ws, user) ∈ members s -> ws ∈ tenants s /\ user ∈ users s.
Proof.
  intros Hrel Hm. pose proof (rel_members _ Hrel _ Hm) as Hok. unfold ok_member, workspace_parent, user_parent in Hok. simpl in Hok.
  apply andb_true_iff in Hok as [H1 H2]. by rewrite bool_decide_eq_true in H1, H2.
Qed.

Lemma settled ws d s : near None ws d s -> d = no_request -> sound s.
Proof. intros Hn ->. by apply (near_sound ws). Qed.
Lemma unsettled ws s : sound s -> near None ws no_request s.
Proof. apply near_sound. Qed.

(** ** Scheduling a deletion changes the outbox only *)

Section quiet.
Context (ex : option (Z * string)) (ws : Z) (d : StorageQuotaRequest).

Definition quiet (s s' : idb) : Prop := near ex ws d s' /\ exists q, s' = set_accounts q s /\ aside (qview s) q.

Lemma quiet_refl s : near ex ws d s -> quiet s s.
Proof. intros Hn. split; [done|]. exists (qview s). split; [by rewrite acc_eta|by split]. Qed.
Lemma quiet_trans s1 s2 s3 : quiet s1 s2 -> quiet s2 s3 -> quiet s1 s3.
Proof.
  intros [_ (q & -> & Ha)] [Hn (q' & -> & Hb)]. split; [done|]. exists q'. split; [done|].
  destruct Ha, Hb. split; simpl in *; congruence.
Qed.
Lemma quiet_usage s s' w : quiet s s' -> is_Some (a_usages (acc s) !! w) -> is_Some (a_usages (acc s') !! w).
Proof. intros [_ (q & -> & [Hu _])]. simpl in *. by rewrite Hu. Qed.

Lemma upsert_quiet now kind key bytes next s s' : near ex ws d s -> is_Some (a_usages (acc s) !! ws) ->
  quota (UpsertResourceCleanup now kind key ws bytes next) s = Ok (tt, s') -> quiet s s'.
Proof. apply upsert_near. Qed.
Lemma triplet_quiet e img now s s' : near ex ws d s -> is_Some (a_usages (acc s) !! ws) ->
  enqueueTripletImageCleanup e img ws now s = Ok (tt, s') -> quiet s s'.
Proof. apply upsert_quiet. Qed.
Lemma triplet_item_quiet e id now s s' : near ex ws d s -> is_Some (a_usages (acc s) !! ws) ->
  enqueueTripletItemCleanup e id ws now s = Ok (tt, s') -> quiet s s'.
Proof. unfold enqueueTripletItemCleanup. intros Hn Hu H. destruct (_ || _); [done|]. by eapply upsert_quiet. Qed.

Context `{UrlParser}.
Lemma image_quiet e id url bytes now s s' : near ex ws d s -> is_Some (a_usages (acc s) !! ws) ->
  enqueueImageCleanup e id url ws bytes now s = Ok (tt, s') -> quiet s s'.
Proof.
  intros Hn Hu Hr. unfold enqueueImageCleanup in Hr. tx_bind Hr as [] s1 H1.
  assert (Hq : quiet s s1).
  { destruct (ImmutableNameFromURL url); [by eapply upsert_quiet|]. injection H1 as <-. by apply quiet_refl. }
  eapply quiet_trans; [exact Hq|]. eapply triplet_quiet; [apply Hq| |exact Hr]. by eapply quiet_usage.
Qed.

Definition uploads_of_ws (m : gmap string (Z * Z)) : Prop := forall k x, m !! k = Some x -> x.1 = ws.
Lemma each_image_quiet e now l m s m' s' : Forall (fun i => ci_workspace_id i = ws) l -> uploads_of_ws m ->
  near ex ws d s -> is_Some (a_usages (acc s) !! ws) ->
  each_image e now l m s = Ok (m', s') -> quiet s s' /\ uploads_of_ws m'.
Proof.
  intros Hl. revert m s. induction Hl as [|i l Hi Hl IH]; intros m s Hm Hn Hu Hr; simpl in Hr.
  - injection Hr as <- <-. split; [by apply quiet_refl|done].
  - tx_bind Hr as [] s1 H1. rewrite Hi in H1. apply triplet_quiet in H1; [|done..].
    apply IH in Hr as [Hq Hm']; [split; [by eapply quiet_trans|done]| |apply H1|by eapply quiet_usage].
    unfold add_upload. destruct (ImmutableNameFromURL _) as [name|]; [|done]. destruct (default _ _) as [w b].
    intros k x [[_ <-]|[_ Hx]]%lookup_insert_Some; [done|by eapply Hm].
Qed.
Lemma each_upload_quiet e now l s s' : Forall (fun x => x.2.1 = ws) l ->
  near ex ws d s -> is_Some (a_usages (acc s) !! ws) ->
  each_upload e now l s = Ok (tt, s') -> quiet s s'.
Proof.
  intros Hl. revert s. induction Hl as [|[name [w b]] l Hi Hl IH]; intros s Hn Hu Hr; simpl in Hr.
  - injection Hr as <-. by apply quiet_refl.
  - simpl in Hi. subst w. tx_bind Hr as [] s1 H1. apply upsert_quiet in H1; [|done..].
    eapply quiet_trans; [exact H1|]. eapply IH; [apply H1|by eapply quiet_usage|done].
Qed.
Lemma images_quiet e item s0 s s' : near ex ws d s -> is_Some (a_usages (acc s) !! ws) ->
  enqueueImageCleanups e (ListItemImagesForCleanup ws item s0) s = Ok (tt, s') -> quiet s s'.
Proof.
  intros Hn Hu Hr. unfold enqueueImageCleanups in Hr. tx_bind Hr as m s1 H1.
  apply each_image_quiet in H1 as [Hq Hm]; [| |by intros ??|done..].
  2:{ unfold ListItemImagesForCleanup. apply Forall_fmap, Forall_forall. done. }
  eapply quiet_trans; [exact Hq|]. eapply each_upload_quiet; [|apply Hq|by eapply quiet_usage|exact Hr].
  rewrite merge_sort_Permutation. apply Forall_forall. intros [k x] Hx. apply elem_of_map_to_list in Hx. by eapply Hm.
Qed.
End quiet.

(** ** The operations on items *)

Lemma Create_sound p s s' : sound s -> C_SourceManifest p = ""%string -> TrimSpace (C_ID p) = C_ID p -> C_ID p <> ""%string ->
  Create p s = Ok (tt, s') -> sound s'.
Proof.
  intros Hs Hm Htrim Hname Hr. unfold Create in Hr. destruct (Z.eqb_spec (C_WorkspaceID p) 0); [done|].
  tx_bind Hr as u s1 H1. apply guard_Ok in H1 as (Hws & Hu & ->).
  tx_bind Hr as [] s1 H1. apply one_of_Ok in H1 as [Hmem ->]. case_bool_decide as Hin; [|done].
  pose proof (unsettled (C_WorkspaceID p) s Hs) as Hn. destruct (member_rows s _ _ (n_related _ _ _ _ Hn) Hin) as [Ht Hus].
  tx_bind Hr as [] s1 H1. unfold CreateItem in H1. destruct (negb _); [done|]. destruct (items s !! C_ID p) eqn:Hfresh; [done|].
  injection H1 as <-. eapply (new_item_near (C_ID p) (created_item p) s Hfresh None (C_WorkspaceID p)) in Hn; [|..].
  - eapply (settled (C_WorkspaceID p)); [eapply add_near; [exact Hn|done|done|exact Hr]|].
    unfold manifest_bytes. simpl. rewrite Hm. done.
  - unfold ok_item, workspace_parent, user_parent. simpl. by rewrite !bool_decide_true.
  - done.
  - done.
  - done.
Qed.

Section images.
Context `{UrlParser}.

(** What is kept of the tables while the outbox changes. *)
Lemma quiet_parent ex ws d s s' w id : quiet ex ws d s s' -> item_parent s' w id = item_parent s w id.
Proof. by intros [_ (q & -> & _)]. Qed.
Lemma quiet_images ex ws d s s' w id : quiet ex ws d s s' ->
  ListItemImagesForCleanup w id s' = ListItemImagesForCleanup w id s /\ image_in w s' = image_in w s.
Proof. by intros [_ (q & -> & _)]. Qed.

Lemma deleted_item ws id s : item_parent s ws id = true ->
  requireDeletedRow (DeleteItemForWorkspaceManual ws id) (drop_item ws id s) = Ok (tt, remove_item ws id s).
Proof.
  intros (t & Ht & Hw)%item_parent_true. unfold requireDeletedRow, DeleteItemForWorkspaceManual. cbv [mbind tx_bind].
  change (items (drop_item ws id s)) with (items s). by rewrite Ht, Hw, Z.eqb_refl.
Qed.
Lemma usage_removed ws id gone s : a_usages (acc (remove_item ws id (purge gone s))) = a_usages (acc s).
Proof. done. Qed.

Lemma delete_item_settles now ws id s s' n : near None ws no_request s -> ws <> 0 -> is_Some (a_usages (acc s) !! ws) ->
  item_parent s ws id = true -> n = Z.of_nat (length (ListItemImagesForCleanup ws id s)) ->
  (durableBytes ← itemDurableDatabaseBytes ws id;
   _ ← deleteItemResourceGraph now ws id 0;
   _ ← requireDeletedRow (DeleteItemForWorkspaceManual ws id);
   quota (subtractStorageQuotaUsed ws {| Bytes := 0; DurableBytes := durableBytes; Items := 1; Images := n |})) s = Ok (tt, s') ->
  sound s'.
Proof.
  intros Hn Hws Hu Hitem -> Hr. tx_bind Hr as bytes s1 H1. apply measure_Ok in H1 as [-> ->].
  pose proof Hitem as (t & Ht & Hw)%item_parent_true. destruct (n_names _ _ _ _ Hn id t Ht) as [Htrim Hname].
  tx_bind Hr as [] s1 H1. rewrite delete_item_graph in H1; try done; [|apply Hn|apply Hn].
  injection H1 as <-. tx_bind Hr as [] s1 H1. rewrite deleted_item in H1 by exact Hitem. injection H1 as <-.
  eapply item_purged_near in Hn; [|exact Hitem].
  eapply (settled ws); [eapply sub_near; [exact Hn|done| |exact Hr]|].
  - by rewrite usage_removed.
  - unfold amount_sub, amount_add, amount, no_request, with_Bytes. simpl. f_equal; lia.
Qed.

Lemma DeleteForWorkspace_sound e id ws s s' : sound s -> DeleteForWorkspace e id ws s = Ok (tt, s') -> sound s'.
Proof.
  intros Hs Hr. unfold DeleteForWorkspace in Hr. tx_bind Hr as u s1 H1. apply guard_Ok in H1 as (Hws & Hu & ->).
  tx_bind Hr as [] s1 H1. apply one_of_Ok in H1 as [Hit ->].
  assert (Hitem : item_parent s ws id = true).
  { apply item_parent_true. destruct (items s !! id) as [t|]; [|done]. simpl in Hit. destruct (Z.eqb_spec (t_workspace_id t) ws); [|done]. eauto. }
  tx_bind Hr as l s1 H1. injection H1 as <- <-.
  tx_bind Hr as [] s1 H1. eapply images_quiet in H1; [|by apply (unsettled ws)|done].
  tx_bind Hr as [] s2 H2. eapply triplet_item_quiet in H2; [|apply H1|by eapply quiet_usage].
  pose proof (quiet_trans _ _ _ _ _ _ H1 H2) as Hq.
  eapply (delete_item_settles (db_now e) ws id s2); [apply Hq|done|by eapply quiet_usage| | |exact Hr].
  - by rewrite (quiet_parent _ _ _ _ _ _ _ Hq).
  - by rewrite (proj1 (quiet_images _ _ _ _ _ ws id Hq)).
Qed.

Lemma delete_image_settles now ws id g s s' : near None ws no_request s -> ws <> 0 -> is_Some (a_usages (acc s) !! ws) ->
  image_in ws s id = Some g ->
  (durableBytes ← itemImageDurableDatabaseBytes ws id;
   _ ← deleteItemResourceGraph now ws (g_item_id g) id;
   quota (subtractStorageQuotaUsed ws {| Bytes := 0; DurableBytes := durableBytes; Items := 0; Images := 1 |})) s = Ok (tt, s') ->
  sound s'.
Proof.
  intros Hn Hws Hu Hin Hr. tx_bind Hr as bytes s1 H1. apply measure_Ok in H1 as [-> ->].
  destruct (image_in_Some _ _ _ _ (n_related _ _ _ _ Hn) Hin) as (Hg & Hw & (t & Ht & Htw)%item_parent_true).
  destruct (n_names _ _ _ _ Hn _ t Ht) as [Htrim Hname]. pose proof (n_ids _ _ _ _ Hn _ _ Hg) as Hid.
  tx_bind Hr as [] s1 H1. erewrite delete_image_graph in H1; try done; [|apply Hn|apply Hn|lia].
  injection H1 as <-. eapply image_purged_near in Hn; [|exact Hin].
  eapply (settled ws); [eapply sub_near; [exact Hn|done|done|exact Hr]|].
  unfold amount_sub, amount_add, amount, no_request, with_Bytes. simpl. f_equal; lia.
Qed.

Lemma DeleteItemImageForWorkspace_sound e id ws s s' : sound s -> DeleteItemImageForWorkspace e id ws s = Ok (tt, s') -> sound s'.
Proof.
  intros Hs Hr. unfold DeleteItemImageForWorkspace in Hr. tx_bind Hr as u s1 H1. apply guard_Ok in H1 as (Hws & Hu & ->).
  tx_bind Hr as g s1 H1. apply one_of_Ok in H1 as [Hin ->].
  tx_bind Hr as [] s1 H1. eapply image_quiet in H1; [|by apply (unsettled ws)|done].
  tx_bind Hr as [] s2 H2. eapply triplet_item_quiet in H2; [|apply H1|by eapply quiet_usage].
  pose proof (quiet_trans _ _ _ _ _ _ H1 H2) as Hq.
  eapply (delete_image_settles (db_now e) ws id g s2); [apply Hq|done|by eapply quiet_usage| |exact Hr].
  by rewrite (proj2 (quiet_images _ _ _ _ _ ws ""%string Hq)).
Qed.

Lemma AddImage_sound p s id s' : sound s -> AddImage p s = Ok (id, s') -> sound s'.
Proof.
  intros Hs Hr. unfold AddImage in Hr. tx_check Hr as [] Hv. cbv zeta in Hr. tx_check Hr as [] Hc.
  tx_bind Hr as t s1 H1. apply one_of_Ok in H1 as [Ht ->]. simpl in Ht.
  tx_bind Hr as u s1 H1. apply guard_Ok in H1 as (Hws & Hu & ->).
  tx_bind Hr as [] s1 H1. apply one_of_Ok in H1 as [_ ->].
  tx_bind Hr as bytes s1 H1. assert (s1 = s) as ->.
  { simpl in H1. destruct (ImmutableNameFromURL _) as [name|]; [|by injection H1]. tx_bind H1 as x s2 H2.
    apply read_Ok in H2 as [_ ->]; [by injection H1|]. intros q y q' Hq. by eapply reference_Ok. }
  clear H1. tx_bind Hr as i s1 H1. unfold CreateItemImage in H1. simpl in H1. destruct (nullableImageDimension _) as [w|]; [|done].
  destruct (nullableImageDimension _) as [h|]; [|done]. rewrite Ht in H1. destruct (image_at _ _ _) eqn:Hat; [done|].
  injection H1 as <- <-. tx_bind Hr as [] s1 H1. injection Hr as _ <-.
  eapply (settled (t_workspace_id t)); [eapply add_near; [eapply new_image_near; [by apply unsettled|..]|done|done|exact H1]|].
  - done.
  - apply item_parent_true. eauto.
  - done.
  - done.
Qed.

Lemma canvas_sound id uri s : sound s -> sound (set_images (alter (with_canvas uri) id (images s)) (next_image_id s) s).
Proof. by apply alter_image_near. Qed.
Lemma EnsureImageCanvasURI_sound id uri s g s' : sound s -> EnsureImageCanvasURI id uri s = Ok (g, s') -> sound s'.
Proof.
  intros Hs Hr. unfold EnsureImageCanvasURI in Hr. tx_bind Hr as [] s1 H1. injection H1 as <-.
  apply one_of_Ok in Hr as [_ ->]. apply alter_image_near; [|done]. intros h. by destruct (canvas_missing h).
Qed.
End images.
End ItemKeeps.
