(* ===== verification/UploadKeeps.v ===== *)
(** * Upload batches: the operations keep the invariant *)

From Stdlib Require Import ZArith Lia Ascii String.
From stdpp Require Import base gmap strings list sorting.
From S2P Require Import Prelude GoStrings Json JobSchema JobStore JobInvariant MediaFragment Presentation Quota QuotaStore QuotaOps QuotaInvariant QuotaSteps ItemDb ItemOps UploadBatches UploadOps ItemAudit ItemPurge ItemSound ItemSteps UploadSteps ItemKeeps.

Module UploadKeeps.
Import GoStr Json JobStore JobInvariant MediaFragment Presentation UploadRef Quota QuotaStore QuotaOps QuotaFacts QuotaInvariant QuotaSteps QuotaTheorems ItemDb ItemGraph ItemOps ItemAudit ItemPurge ItemRemove ItemMeasure UploadBatches UploadOps ItemSound ItemSteps UploadSteps UploadMoves ItemKeeps.
#[local] Open Scope Z_scope.

Lemma alter_pair {A} (f : A -> A) (m : gmap (Z * string) A) k u : m !! k = Some u -> alter f k m = <[k := f u]> m.
Proof.
  intros Hk. apply map_eq. intros j. destruct (decide (j = k)) as [->|Hj].
  - by rewrite lookup_alter_eq, lookup_insert_eq, Hk.
  - by rewrite lookup_alter_ne, lookup_insert_ne by done.
Qed.

(** ** Locks *)

Lemma found_Ok {A} (m : itx A) s x s' : found m s = Ok (x, s') -> m s = Ok (x, s').
Proof. unfold found. destruct (m s) as [[? ?]|[]]; try done; by intros [= <- <-]. Qed.
Lemma lock_batch_Ok ws id s b s' : found (LockUploadBatchManual ws id) s = Ok (b, s') -> batches s !! (ws, id) = Some b /\ s' = s.
Proof. intros H. by apply found_Ok, one_of_Ok in H. Qed.
Lemma lock_file_Ok k s f s' : found (LockUploadBatchFileManual k) s = Ok (f, s') -> files s !! k = Some f /\ s' = s.
Proof. intros H. by apply found_Ok, one_of_Ok in H. Qed.

Lemma update_file_Ok k wh set s n s' : update_file k wh set s = Ok (n, s') -> n = 1 ->
  exists f, files s !! k = Some f /\ wh f = true /\ s' = set_files (<[k := set f]> (files s)) s.
Proof.
  unfold update_file. destruct (files s !! k) as [f|]; [|by intros [= <- _]].
  destruct (wh f) eqn:E; [|by intros [= <- _]]. intros [= <- <-] _. eauto.
Qed.

Record held (e : env) (ws : Z) (id : string) (seq : Z) (owner : string) (s : idb) (b : batch_row) (f : file_row) : Prop := {
  h_batch : batches s !! (ws, TrimSpace id) = Some b;
  h_file : files s !! (ws, TrimSpace id, seq) = Some f;
  h_open : b_status b = InProgress;
  h_processing : f_status f = FProcessing;
  h_owner : f_locked_by f = Some (TrimSpace owner) /\ TrimSpace owner <> ""%string;
  h_lease : before (go_now e) (f_lease_until f) = true;
}.
Lemma active_Ok e ws id seq owner s x s' : lockActiveUploadBatchFileAttempt e ws id seq owner s = Ok (x, s') ->
  held e ws id seq owner s x.1 x.2 /\ s' = s.
Proof.
  unfold lockActiveUploadBatchFileAttempt. intros H. tx_bind H as b s1 H1. apply lock_batch_Ok in H1 as [Hb ->].
  tx_bind H as f s1 H1. apply lock_file_Ok in H1 as [Hf ->].
  repeat (case_bool_decide; try done). simpl in H. destruct (before _ _) eqn:E; [|done]. simpl in H. injection H as <- <-. done.
Qed.

(** ** The image of an attempt *)

Definition alike (f f' : file_row) : Prop :=
  f_status f' = f_status f /\ f_attempt_count f' = f_attempt_count f /\ f_max_attempts f' = f_max_attempts f /\
  f_locked_by f' = f_locked_by f /\ f_lease_until f' = f_lease_until f /\
  f_filename f' = f_filename f /\ f_size f' = f_size f /\ f_content_sha256 f' = f_content_sha256 f.
Lemma alike_refl f : alike f f.
Proof. by split_and!. Qed.
Lemma alike_trans f g h : alike f g -> alike g h -> alike f h.
Proof. unfold alike. intros (?&?&?&?&?&?&?&?) (?&?&?&?&?&?&?&?). split_and!; congruence. Qed.
Lemma alike_detached now f : alike f (detached now f).
Proof. by split_and!. Qed.

Lemma detached_near ex ws d s now k f : near ex ws d s -> files s !! k = Some f ->
  near ex ws d (set_files (<[k := detached now f]> (files s)) s).
Proof.
  intros Hn Hf. eapply file_near; [done|exact Hf| | |by left].
  - pose proof (rel_files _ (n_related _ _ _ _ Hn) k f Hf) as Hok. unfold ok_file in Hok. destruct (batches s !! k.1) as [b|] eqn:Hb; [|done].
    by eapply ok_file_none.
  - apply detached_sound. by eapply (n_files _ _ _ _ Hn).
Qed.

Lemma purged_files s gone now k f : files s !! k = Some f ->
  exists f', detach_files gone s now !! k = Some f' /\ alike f f'.
Proof.
  intros Hf. unfold detach_files. rewrite lookup_fmap, Hf. simpl. eexists. split; [done|].
  destruct (_ || _); [apply alike_detached|apply alike_refl].
Qed.

Lemma image_of_file_Some ws id seq s i g : image_of_file ws id seq s = Some (i, g) ->
  exists b, batches s !! (ws, id) = Some b /\ images s !! i = Some g /\ g_item_id g = b_item_id b /\ g_sequence g = seq.
Proof.
  unfold image_of_file. destruct (batches s !! (ws, id)) as [b|]; [|done]. simpl. destruct (files s !! _); [|done]. simpl.
  intros H. destruct (filter _ _) as [|x l] eqn:E; [done|]. injection H as ->.
  assert (Hin : (i, g) ∈ filter (fun kg : Z * item_image => g_item_id kg.2 = b_item_id b /\ g_sequence kg.2 = seq) (map_to_list (images s))).
  { rewrite E. apply list_elem_of_here. }
  apply list_elem_of_filter in Hin as [[Hi Hs] Hin]. apply elem_of_map_to_list in Hin. eauto.
Qed.

Lemma image_of_batch ex ws d s id b i g : near ex ws d s -> batches s !! (ws, id) = Some b -> images s !! i = Some g ->
  g_item_id g = b_item_id b -> image_in ws s i = Some g.
Proof.
  intros Hn Hb Hg Hi. pose proof (rel_batches _ (n_related _ _ _ _ Hn) _ _ Hb) as Hok. unfold ok_batch in Hok. apply andb_true_iff in Hok as [Hit _].
  apply item_parent_true in Hit as (t & Ht & Hw). simpl in Hw. unfold image_in. by rewrite Hg, Hi, Ht, Hw, Z.eqb_refl.
Qed.

(** Rows only go, and files only lose what they refer to. *)
Record shrinks (s s' : idb) : Prop := {
  sh_jobs : forall j r, q_jobs (queue s') !! j = Some r -> q_jobs (queue s) !! j = Some r;
  sh_images : forall i g, images s' !! i = Some g -> images s !! i = Some g;
  sh_files : forall k f', files s' !! k = Some f' -> exists f, files s !! k = Some f /\ alike f f' /\
    (f_transcription_job_id f' = None \/ f_transcription_job_id f' = f_transcription_job_id f);
}.
Lemma shrinks_refl s : shrinks s s.
Proof. split; [done|done|]. intros k f Hf. exists f. split_and!; [done|apply alike_refl|by right]. Qed.
Lemma shrinks_trans s1 s2 s3 : shrinks s1 s2 -> shrinks s2 s3 -> shrinks s1 s3.
Proof.
  intros [] []. split; [auto|auto|]. intros k f3 (f2 & Hf2 & Ha2 & Hj2)%sh_files1. destruct (sh_files0 k f2 Hf2) as (f & Hf & Ha & Hj).
  exists f. split_and!; [done|by eapply alike_trans|]. destruct Hj2 as [->| ->]; [by left|done].
Qed.
Lemma shrinks_detached now s q k f : files s !! k = Some f ->
  shrinks s (set_files (<[k := detached now f]> (files s)) (set_accounts q s)).
Proof.
  intros Hf. split; [done|done|]. intros k' f'. cbn [files set_files]. intros [[<- <-]|[_ Hf']]%lookup_insert_Some.
  - exists f. split_and!; [done|apply alike_detached|by left].
  - exists f'. split_and!; [done|apply alike_refl|by right].
Qed.
Lemma shrinks_purge s gone now : shrinks s (set_files (detach_files gone s now) (purge gone s)).
Proof.
  split.
  - intros j r [Hj _]%map_lookup_filter_Some. done.
  - intros i g [Hg _]%map_lookup_filter_Some. done.
  - intros k f'. simpl. unfold detach_files. rewrite lookup_fmap. destruct (files s !! k) as [f|]; [|done]. intros [= <-].
    exists f. destruct (_ || _); (split_and!; [done|apply alike_detached || apply alike_refl|auto]).
Qed.

Section images.
Context `{UrlParser}.

(** One image removed inside a transaction. *)
Lemma graph_image_near now ex ws d s id g x s' : near ex ws d s -> ws <> 0 -> image_in ws s id = Some g ->
  deleteItemResourceGraph now ws (g_item_id g) id s = Ok (x, s') ->
  near ex ws (amount_add d (amount (GetItemImageDurableDatabaseBytes ws id s) 0 1)) s' /\
  batches s' = batches s /\ acc s' = acc s /\ images s' = filter (fun kg => target s ws (g_item_id g) id kg.1 = false) (images s) /\
  (forall k f, files s !! k = Some f -> exists f', files s' !! k = Some f' /\ alike f f') /\ shrinks s s'.
Proof.
  intros Hn Hws Hin Hr. destruct (image_in_Some _ _ _ _ (n_related _ _ _ _ Hn) Hin) as (Hg & Hw & (t & Ht & Htw)%item_parent_true).
  destruct (n_names _ _ _ _ Hn _ t Ht) as [Htrim Hname]. pose proof (n_ids _ _ _ _ Hn _ _ Hg) as Hid.
  erewrite delete_image_graph in Hr; try done; [|apply Hn|apply Hn|lia]. injection Hr as _ <-.
  split_and!; [by eapply image_purged_near|done|done|done| |apply shrinks_purge]. intros k f Hf. by apply purged_files.
Qed.

Lemma cleanup_near e ws id seq s r s' f : near None ws no_request s -> ws <> 0 -> is_Some (a_usages (acc s) !! ws) ->
  TrimSpace id = id -> files s !! (ws, id, seq) = Some f ->
  cleanupUploadBatchFileImage e ws id seq s = Ok (r, s') ->
  near None ws (with_Bytes 0 r) s' /\ batches s' = batches s /\ is_Some (a_usages (acc s') !! ws) /\
  exists f', files s' !! (ws, id, seq) = Some f' /\ alike f f'.
Proof.
  intros Hn Hws Hu Htrim Hf Hr. unfold cleanupUploadBatchFileImage in Hr. rewrite Htrim in Hr.
  tx_bind Hr as o s1 H1. injection H1 as <- <-.
  destruct (image_of_file ws id seq s) as [[i g]|] eqn:Hi.
  2:{ injection Hr as <- <-. split_and!; [done|done|done|]. exists f. split; [done|apply alike_refl]. }
  apply image_of_file_Some in Hi as (b & Hb & Hg & Hgi & Hgs).
  tx_bind Hr as [] s1 H1. eapply image_quiet in H1 as [Hn1 (q & -> & [Hq _])]; [|done|done].
  tx_bind Hr as n s1 H1.
  destruct (Z.eqb_spec n 1) as [->|]; [|done]. simpl in Hr.
  apply update_file_Ok in H1 as (f0 & Hf0 & _ & ->); [|done]. change (files s !! (ws, id, seq) = Some f0) in Hf0. rewrite Hf in Hf0. injection Hf0 as <-.
  apply (detached_near _ _ _ _ (db_now e) (ws, id, seq) f) in Hn1; [|done]. set (s2 := set_files _ _) in *.
  tx_bind Hr as bytes s1 H1. apply measure_Ok in H1 as [-> ->]. tx_bind Hr as x s1 H1. injection Hr as <- <-.
  assert (Hin : image_in ws s2 i = Some g) by by eapply (image_of_batch _ _ _ s2 id b).
  apply graph_image_near with (ex := None) (d := no_request) in H1 as (Hn2 & Hb2 & Ha2 & _ & Hfs & _); [|done..].
  split_and!; [|done|rewrite Ha2; simpl; by rewrite Hq|].
  - eapply owes_same; [|exact Hn2]. unfold amount_add, amount, no_request, with_Bytes. simpl. f_equal; lia.
  - destruct (Hfs (ws, id, seq) (detached (db_now e) f)) as (f' & Hf' & Ha); [simpl; by rewrite lookup_insert_eq|].
    exists f'. split; [done|]. eapply alike_trans; [apply alike_detached|exact Ha].
Qed.

(** ** Claim *)

Definition plain_uuid (e : env) : Prop := TrimSpace ("upload-" ++ uuid e) = ("upload-" ++ uuid e)%string.

Lemma nullable_Some v : TrimSpace v = v -> v <> ""%string -> nullableString v = Some v.
Proof. intros Ht Hne. unfold nullableString. by rewrite Ht, bool_decide_false. Qed.
Lemma owner_name u : ("upload-" ++ u)%string <> ""%string.
Proof. done. Qed.

Lemma attempts_trim ws id s b : sound s -> batches s !! (ws, TrimSpace id) = Some b -> TrimSpace (TrimSpace id) = TrimSpace id.
Proof. intros Hs Hb. apply (n_batch_names _ _ _ _ Hs _ _ Hb). Qed.

(** An open file is in an open batch. *)
Lemma open_batch ex ws d s k q f b : near ex ws d s -> ex <> Some k -> files s !! (k, q) = Some f -> batches s !! k = Some b ->
  f_status f <> FCompleted -> f_status f <> FCanceled -> b_status b = InProgress.
Proof.
  intros Hn Hex Hf Hb H1 H2. pose proof (n_batches _ _ _ _ Hn k b Hb Hex) as Hbs. unfold batch_sound, all_files in Hbs.
  destruct (b_status b); [done| |]; destruct Hbs as [Ha _]; specialize (Ha q f Hf); naive_solver.
Qed.

Lemma claimed_near ws d s k f now lease o : near None ws d s -> files s !! k = Some f -> file_claimable now f = true ->
  TrimSpace o = o -> o <> ""%string ->
  near None ws d (set_files (<[k := claimed_file now lease (Some o) f]> (files s)) s).
Proof.
  intros Hn Hf Hc Ho Hne. pose proof (n_files _ _ _ _ Hn k f Hf) as Hfs.
  unfold file_claimable in Hc. apply andb_true_iff in Hc as [Hc%Z.ltb_lt Hst].
  assert (Hopen : f_status f <> FCompleted /\ f_status f <> FCanceled).
  { apply orb_true_iff in Hst as [[H1|H1]%orb_true_iff|[H1 _]%andb_true_iff]; apply bool_decide_eq_true in H1; rewrite H1; done. }
  destruct Hfs. eapply file_near; [done|exact Hf| | |].
  - eapply ok_file_same; [| |by apply (rel_files _ (n_related _ _ _ _ Hn) k f Hf)]; done.
  - split; simpl; [split; [by exists o|done]|lia|right; right; lia|intros _; by apply fs_provisional0, Hopen|done].
  - intros b Hb _. right. split_and!; [|done|done]. destruct Hopen, k as [k q]. by eapply open_batch.
Qed.

Lemma Claim_sound e ws id seq size sha s r s' : plain_uuid e -> sound s ->
  claim_file e ws id seq size sha s = Ok (r, s') -> sound s'.
Proof.
  intros Huuid Hs Hr. unfold claim_file in Hr. tx_bind Hr as u s1 H1. apply guard_Ok in H1 as (Hws & Hu & ->).
  tx_bind Hr as b s1 H1. apply lock_batch_Ok in H1 as [Hb ->]. case_bool_decide as Hc1; [done|].
  tx_bind Hr as f s1 H1. apply lock_file_Ok in H1 as [Hf ->]. destruct (_ || _); [done|].
  case_bool_decide as Hc2; [by injection Hr as _ <-|]. case_bool_decide as Hc3; [done|].
  destruct (f_attempt_count f >=? f_max_attempts f) eqn:Hc4; [done|]. destruct (bool_decide _ && _) eqn:Hc5; [done|].
  pose proof (attempts_trim _ _ _ _ Hs Hb) as Htrim.
  tx_bind Hr as c s1 H1. eapply cleanup_near in H1 as (Hn1 & Hb1 & Hu1 & f' & Hf' & Ha); [|by apply unsettled|done..].
  tx_bind Hr as n s2 H2. destruct (Z.eqb_spec n 1) as [->|]; [|done]. simpl in Hr.
  apply update_file_Ok in H2 as (f1 & Hf1 & Hcl & ->); [|done]. simplify_eq.
  tx_bind Hr as [] s2 H2. injection Hr as _ <-. unfold plain_uuid in Huuid. rewrite nullable_Some in H2 by done.
  pose proof (claimed_near ws _ s1 _ f1 (db_now e) (go_now e + uploadBatchFileLeaseDuration) _ Hn1 Hf1 Hcl Huuid (owner_name _)) as Hn2.
  eapply (settled ws); [eapply sub_near; [exact Hn2|done|done|exact H2]|].
  unfold amount_sub, with_Bytes, no_request. destruct c. simpl. f_equal; lia.
Qed.

(** ** The lease *)

Lemma owned_Some owner f : owned owner f = true -> exists o, owner = Some o /\ f_locked_by f = Some o.
Proof. unfold owned. destruct owner; [|done]. rewrite bool_decide_eq_true. eauto. Qed.

Lemma Renew_sound e ws id seq owner s s' : sound s -> RenewUploadBatchFileLease e ws id seq owner s = Ok (tt, s') -> sound s'.
Proof.
  intros Hs Hr. unfold RenewUploadBatchFileLease in Hr. tx_bind Hr as x s1 H1. apply active_Ok in H1 as [[] ->].
  tx_bind Hr as n s1 H1. destruct (Z.eqb_spec n 1) as [->|]; [|done]. injection Hr as <-.
  unfold RenewUploadBatchFileManual in H1. apply update_file_Ok in H1 as (f & Hf & Hw & ->); [|done]. rewrite Hf in h_file0. simplify_eq.
  pose proof (n_files _ _ _ _ Hs _ _ Hf) as []. rewrite decide_True in fs_lease0 by done. destruct fs_lease0 as [Ho [t Ht]].
  eapply file_near; [exact Hs|exact Hf| | |by left].
  - eapply ok_file_same; [| |by apply (rel_files _ (n_related _ _ _ _ Hs) _ _ Hf)]; done.
  - split; try done. simpl. rewrite decide_True by done. split; [done|]. simpl. rewrite Ht. eauto.
Qed.

Lemma failed_near ws d s k f now error : near None ws d s -> files s !! k = Some f -> f_status f = FProcessing ->
  near None ws d (set_files (<[k := ended_file now FFailed (f_item_image_id f) (f_transcription_job_id f) error f]> (files s)) s).
Proof.
  intros Hn Hf Hp. pose proof (n_files _ _ _ _ Hn k f Hf) as []. eapply file_near; [done|exact Hf| | |].
  - eapply ok_file_same; [| |by apply (rel_files _ (n_related _ _ _ _ Hn) k f Hf)]; done.
  - split; simpl; [done|done| |intros _; apply fs_provisional0; congruence|done].
    rewrite Hp in fs_started0. destruct fs_started0 as [|[|]]; [done..|auto].
  - intros b Hb _. right. split_and!; [|done|done]. destruct k as [k q]. eapply open_batch; [done|done|done|done| |]; by rewrite Hp.
Qed.

Lemma Abort_sound e ws id seq owner error s s' : sound s ->
  AbortUploadBatchFileAttempt e ws id seq owner error s = Ok (tt, s') -> sound s'.
Proof.
  intros Hs Hr. unfold AbortUploadBatchFileAttempt in Hr. tx_bind Hr as u s1 H1. apply guard_Ok in H1 as (Hws & Hu & ->).
  tx_bind Hr as b s1 H1. apply lock_batch_Ok in H1 as [Hb ->].
  tx_bind Hr as f s1 H1. apply lock_file_Ok in H1 as [Hf ->].
  destruct (_ || negb _) eqn:Hc; [done|]. pose proof (attempts_trim _ _ _ _ Hs Hb) as Htrim.
  tx_bind Hr as c s1 H1. eapply cleanup_near in H1 as (Hn1 & Hb1 & Hu1 & f' & Hf' & Ha); [|by apply unsettled|done..].
  tx_bind Hr as n s2 H2. destruct (Z.eqb_spec n 1) as [->|]; [|done]. simpl in Hr.
  apply update_file_Ok in H2 as (f1 & Hf1 & Hcl & ->); [|done].
  apply andb_true_iff in Hcl as [Hp%bool_decide_eq_true _].
  pose proof (failed_near ws _ s1 _ f1 (db_now e) (nullableString (TrimSpace error)) Hn1 Hf1 Hp) as Hn2.
  eapply (settled ws); [eapply sub_near; [exact Hn2|done|done|exact Hr]|].
  unfold amount_sub, with_Bytes, no_request. destruct c. simpl. f_equal; lia.
Qed.

(** ** The provisional image *)

Lemma transfer_near ex ws d s id v a q s' : near ex ws d s -> reservation_of id ws (qview s) = Some v -> wide a ->
  transferStorageQuotaReservationToUsed id v a (qview s) = Ok (tt, q) -> s' = set_accounts q s ->
  near ex ws (amount_add d (with_Bytes 0 a)) s' /\ is_Some (a_usages (acc s') !! ws).
Proof.
  intros Hn Hv Ha Hr ->. pose proof (n_quota _ _ _ _ Hn) as Hc.
  destruct (rows_of_workspace _ _ _ _ Hc Hv) as (Hid & Hvw & Hws & Hsome & Hok).
  pose proof (transfer_consistent id v a _ _ Hc Hid Ha Hr) as Hq.
  unfold transferStorageQuotaReservationToUsed in Hr. rewrite Hvw in Hr.
  destruct (_ || storageQuotaRequestEmpty a) eqn:E; [done|]. tx_check Hr as [] Hv1.
  match type of Hr with (if ?c then _ else _) _ = _ => destruct c; [done|] end.
  tx_bind Hr as u s1 H1. apply one_row_Ok in H1 as [Hu ->].
  tx_bind Hr as g s1 H1. apply one_row_Ok in H1 as [Hg ->]. tx_check Hr as [] Hchk.
  tx_bind Hr as [] s1 H1. apply replace_accounting_Ok in H1 as [-> Hcol]; [|done].
  tx_check Hr as row Hp. apply quota_one_Ok, update_reservation_Ok in Hr as (v' & Hv' & ->).
  set (r := {| Bytes := _ |}) in *.
  assert (Hrow : v_workspace_id row = ws).
  { unfold storageReservationUpdateParams in Hp. by apply result_bind_Ok in Hp as ([] & _ & [= <-]). }
  assert (Hl : forall w, usages (book ws (rebill (req v) r a) (qview s)) !! w = if (w =? 0) || (w =? ws) then rebill (req v) r a <$> a_usages (acc s) !! w else a_usages (acc s) !! w) by (intros w; by rewrite lookup_book).
  assert (Hdom : forall w, is_Some (usages (book ws (rebill (req v) r a) (qview s)) !! w) <-> is_Some (a_usages (acc s) !! w)).
  { intros w. rewrite Hl. destruct ((w =? 0) || (w =? ws)); [|done]. split; [by intros [x [y [? ?]]%fmap_Some]|by intros [x ->]]. }
  split; [|apply Hdom; exact Hsome].
  apply (accounts_near s _) with (ex := ex) (d := d); [exact Hdom| | | |done|exact Hq|].
  - intros i x. simpl. intros [[_ <-]|[_ Hx]]%lookup_insert_Some.
    + rewrite Hrow. pose proof (rel_reservations _ (n_related _ _ _ _ Hn) id v Hid) as Hk. unfold ok_reservation, workspace_parent in Hk.
      rewrite bool_decide_eq_true in Hk. congruence.
    + pose proof (rel_reservations _ (n_related _ _ _ _ Hn) i x Hx) as Hk. unfold ok_reservation, workspace_parent in Hk.
      by rewrite bool_decide_eq_true in Hk.
  - intros k x Hx Hpos. apply Hdom. pose proof (rel_cleanups _ (n_related _ _ _ _ Hn) k x Hx) as Hk. unfold ok_cleanup in Hk.
    rewrite (proj2 (Z.ltb_lt _ _)) in Hk by done. simpl in Hk. by rewrite bool_decide_eq_true in Hk.
  - by eapply owns_tenant.
  - intros w u1 u2 Hw Hu1 Hu2. change (usages (book ws (rebill (req v) r a) (qview s)) !! w = Some u2) in Hu2.
    rewrite Hl, (proj2 (Z.eqb_neq w 0)), Hu1 in Hu2 by done. simpl in Hu2. unfold owes.
    destruct (w =? ws); simplify_eq; [|done]. rewrite rebill_used. generalize (stored s w). intros st.
    unfold amount_add, with_Bytes. destruct st, d, a. simpl. intros [= ]. f_equal; lia.
Qed.

Lemma LockLive_Ok now id ws s v s' : quota (LockLiveStorageQuotaReservation now id ws) s = Ok (v, s') ->
  reservation_of id ws (qview s) = Some v /\ s' = s.
Proof.
  intros (q & Hq & ->)%quota_Ok. apply one_row_Ok in Hq as [Hq ->]. split; [|apply acc_eta].
  destruct (reservation_of id ws (qview s)); [|done]. by destruct (now <? _).
Qed.

Lemma staged_Ok ws url bytes s x s' : staged_image ws url bytes s = Ok (x, s') -> s' = s /\ (x.1 = 0 \/ x.1 = bytes).
Proof.
  unfold staged_image. intros Hr. destruct (ImmutableNameFromURL url) as [name|]; [|injection Hr as <- <-; auto].
  tx_bind Hr as o s1 H1. apply read_Ok in H1 as [_ ->]; [|intros; by eapply reference_Ok].
  destruct o as [c|]; [|injection Hr as <- <-; auto]. destruct (negb _); [done|]. injection Hr as <- <-; auto.
Qed.

Lemma Ensure_sound e ws R id seq owner url bytes width height base s img s' : sound s -> 0 <= bytes <= MaxUint64 ->
  EnsureUploadBatchImage e ws R id seq owner url bytes width height base s = Ok (img, s') -> sound s'.
Proof.
  intros Hs Hbytes Hr. unfold EnsureUploadBatchImage in Hr. destruct (_ || _); [done|]. destruct (_ || _); [done|].
  tx_check Hr as [] Hv. tx_bind Hr as u s1 H1. apply guard_Ok in H1 as (Hws & Hu & ->).
  tx_bind Hr as [b f] s1 H1. apply active_Ok in H1 as [[] ->]. cbn [fst snd] in *.
  tx_bind Hr as [] s1 H1. apply one_of_Ok in H1 as [_ ->].
  tx_bind Hr as [up name] s1 H1. apply staged_Ok in H1 as [-> Hup]. cbn [fst snd] in *.
  tx_bind Hr as v s1 H1. apply LockLive_Ok in H1 as [Hv1 ->].
  match type of Hr with (if ?c then _ else _) _ = _ => destruct c; [done|] end.
  tx_bind Hr as [i n] s1 H1. destruct (i <=? 0); [done|].
  tx_bind Hr as [] s2 H2. tx_check Hr as uri Hcan. tx_bind Hr as [] s3 H3. injection Hr as _ <-. injection H3 as <-.
  apply canvas_sound. unfold EnsureUploadBatchImageManual in H1. cbn [fst snd] in H1. rewrite h_batch0, h_file0 in H1.
  destruct (_ && _); [|injection H1 as _ <- <-; by injection H2 as <-].
  destruct (_ || _); [done|]. destruct (image_at _ _ _) as [j|] eqn:Hat; [injection H1 as _ <- <-; by injection H2 as <-|].
  injection H1 as _ <- <-. change (1 =? 1) with true in H2. cbv iota in H2.
  pose proof (rel_batches _ (n_related _ _ _ _ Hs) _ _ h_batch0) as Hok. unfold ok_batch in Hok. apply andb_true_iff in Hok as [Hit _].
  match type of H2 with quota _ (set_images (<[_ := ?g]> _) _ _) = _ =>
    pose proof (new_image_near None ws no_request s g (unsettled ws s Hs) eq_refl Hit Hat) as Hn end.
  apply quota_Ok in H2 as (q & Hq & Hs2).
  eapply transfer_near in Hq as [Hn' _]; [|exact Hn|exact Hv1| |exact Hs2].
  - eapply (settled ws); [exact Hn'|]. unfold amount_sub, amount_add, amount, no_request, with_Bytes. simpl. done.
  - unfold in_range. simpl. destruct Hup as [-> | ->]; unfold MaxUint64 in *; lia.
Qed.

(** ** Completion *)

Lemma completed_row s ws id seq img job f now b : near None ws no_request s -> batches s !! (ws, id) = Some b ->
  files s !! (ws, id, seq) = Some f -> f_status f = FProcessing ->
  completion_image ws id img s = true -> completion_job ws img job s = true ->
  near (Some (ws, id)) ws no_request
    (set_files (<[(ws, id, seq) := ended_file now FCompleted (Some img) (Some job) None f]> (files s)) s).
Proof.
  intros Hn Hb Hf Hp Hi Hj. pose proof (n_files _ _ _ _ Hn _ _ Hf) as [].
  eapply file_near; [by apply near_open|exact Hf| | |simpl; congruence].
  - unfold completion_image in Hi. rewrite Hb in Hi. unfold completion_job, job_of in Hj. unfold ok_file. cbn [fst]. rewrite Hb. simpl.
    assert (Himg : image_of_parent s ws img (b_item_id b) = true).
    { apply image_of_parent_true. destruct (images s !! img) as [g|]; [|done].
      apply andb_true_iff in Hi as [H1%Z.eqb_eq H2%bool_decide_eq_true]. eauto. }
    rewrite Himg. simpl. destruct (q_jobs (queue s) !! job) as [j|]; [|done].
    apply andb_true_iff in Hj as [H1%Z.eqb_eq H2%Z.eqb_eq]. by rewrite H1, H2, !Z.eqb_refl, Himg.
  - split; simpl; [done|done| |done|eauto].
    rewrite Hp in fs_started0. destruct fs_started0 as [|[|]]; [done..|auto].
Qed.

Lemma ready_near now ws id s s' : TrimSpace id = id -> near (Some (ws, id)) ws no_request s ->
  (exists b, batches s !! (ws, id) = Some b /\ b_status b = InProgress) -> all_files s (ws, id) (fun f => f_status f <> FCanceled) ->
  CompleteUploadBatchIfReadyManual now ws id s = Ok (tt, s') -> sound s'.
Proof.
  intros Htrim Hn (b & Hb & Hst) Hall Hr. injection Hr as <-. apply (near_sound ws). unfold in_progress. rewrite Hb, bool_decide_true by done.
  simpl. case_bool_decide as Hdone.
  - rewrite (alter_pair _ _ _ _ Hb). apply (near_close (ws, id)); [by eapply batch_near; [exact Hb|..]; auto|].
    intros b'. cbn [batches set_batches]. rewrite lookup_insert_eq. intros [= <-].
    unfold batch_sound. simpl. split; [|done]. intros q f Hf. apply (Hdone (ws, id, q) f). apply map_lookup_filter_Some. split; done.
  - apply (near_close (ws, id)); [done|]. intros b' Hb'. simplify_eq. unfold batch_sound. rewrite Hst. split; [done|].
    apply map_not_Forall in Hdone as ([[w i] q] & f & [Hf Hk]%map_lookup_filter_Some & Hne); [|intros ??; apply _].
    simpl in Hk. injection Hk as -> ->. eauto.
Qed.

Lemma Complete_sound e ws id seq owner img job s s' : sound s ->
  complete_file e ws id seq owner img job s = Ok (tt, s') -> sound s'.
Proof.
  intros Hs Hr. unfold complete_file in Hr. tx_bind Hr as x s1 H1. apply active_Ok in H1 as [[] ->].
  tx_bind Hr as [] s1 H1. unfold LockUploadBatchCompletionImageManual, lock_if in H1. destruct (completion_image _ _ _ _) eqn:Hi; [|done]. injection H1 as <-.
  tx_bind Hr as [] s1 H1. unfold LockUploadBatchCompletionJobManual, lock_if in H1. destruct (_ && _) eqn:Hj; [|done]. injection H1 as <-.
  apply andb_true_iff in Hj as [_ Hj].
  tx_check Hr as i Hk1. tx_check Hr as j Hk2.
  tx_bind Hr as n s1 H1. destruct (Z.eqb_spec n 1) as [->|]; [|done]. cbn [negb] in Hr.
  unfold CompleteUploadBatchFileManual in H1. destruct (_ && image_taken _ _ _); [done|].
  apply update_file_Ok in H1 as (f & Hf & _ & ->); [|done]. rewrite Hf in h_file0. injection h_file0 as Hff.
  pose proof (attempts_trim _ _ _ _ Hs h_batch0) as Htrim.
  eapply ready_near; [exact Htrim| | | |exact Hr].
  - apply (completed_row s ws (TrimSpace id) seq img job f (db_now e) x.1); try done; [by apply unsettled|congruence].
  - exists x.1. done.
  - intros q g. cbn [files set_files]. intros [[_ <-]|[_ Hg]]%lookup_insert_Some; [done|].
    pose proof (n_batches _ _ _ _ Hs _ _ h_batch0 ltac:(done)) as Hbs. unfold batch_sound in Hbs. rewrite h_open0 in Hbs.
    destruct Hbs as [Ha _]. by apply (Ha q).
Qed.

(** ** Cancellation *)

Definition listed (ws : Z) (id : string) (b : batch_row) (s : idb) (i : incomplete_image) : Prop :=
  images s !! ii_id i = Some (ii_image i) /\ g_item_id (ii_image i) = b_item_id b /\ is_Some (files s !! (ws, id, ii_sequence i)).

Lemma incomplete_listed ws id b s : batches s !! (ws, id) = Some b ->
  Forall (listed ws id b s) (ListIncompleteUploadBatchImagesForCleanupManual ws id s) /\
  NoDup (ii_id <$> ListIncompleteUploadBatchImagesForCleanupManual ws id s).
Proof.
  intros Hb. unfold ListIncompleteUploadBatchImagesForCleanupManual. rewrite Hb.
  assert (Hp : merge_sort by_id (map_to_list (images s)) ≡ₚ map_to_list (images s)) by apply merge_sort_Permutation.
  assert (Hin : Forall (fun kg => images s !! kg.1 = Some kg.2) (merge_sort by_id (map_to_list (images s)))).
  { rewrite Hp. apply Forall_forall. intros [k g] Hk. by apply elem_of_map_to_list in Hk. }
  assert (Hnd : NoDup (merge_sort by_id (map_to_list (images s))).*1) by (rewrite Hp; apply NoDup_fst_map_to_list).
  clear Hp. revert Hin Hnd. generalize (merge_sort by_id (map_to_list (images s))). intros l.
  match goal with |- context [omap ?f l] => set (F := f) end.
  assert (HF : forall kg i, F kg = Some i -> ii_id i = kg.1 /\ ii_image i = kg.2 /\ g_item_id kg.2 = b_item_id b /\ is_Some (files s !! (ws, id, ii_sequence i))).
  { intros [k g] i. unfold F. simpl. case_bool_decide as Hi; [|done]. destruct (files s !! _) eqn:Hf; [|done]. destruct (negb _); [|done].
    intros [= <-]. simpl. eauto. }
  clearbody F. intros Hin. induction Hin as [|[k g] l Hk Hin IH]; intros Hnd; [split; constructor|].
  simpl in Hnd. apply NoDup_cons in Hnd as [Hni Hnd]. destruct (IH Hnd) as [IH1 IH2]. csimpl.
  destruct (F (k, g)) as [i|] eqn:E; [|done]. apply HF in E as (Ei & Eg & Hit & Hf). simpl in *. split; constructor; try done.
  - split_and!; [|congruence|done]. by rewrite Ei, Eg.
  - rewrite Ei. intros Hel. apply Hni. clear - Hel HF. induction l as [|kg l IH]; csimpl in Hel; [by apply elem_of_nil in Hel|].
    destruct (F kg) as [j|] eqn:E; csimpl in Hel; csimpl.
    + apply elem_of_cons in Hel as [->|Hel]; [apply HF in E as (-> & _); apply list_elem_of_here|]. apply elem_of_cons. auto.
    + apply elem_of_cons. auto.
Qed.

Lemma cancel_images_near e ws id b l d0 n s d1 s' : ws <> 0 -> near (Some (ws, id)) ws (amount d0 0 n) s -> batches s !! (ws, id) = Some b ->
  is_Some (a_usages (acc s) !! ws) -> Forall (listed ws id b s) l -> NoDup (ii_id <$> l) ->
  cancel_images e ws id l d0 s = Ok (d1, s') ->
  near (Some (ws, id)) ws (amount d1 0 (n + Z.of_nat (length l))) s' /\ batches s' = batches s /\ is_Some (a_usages (acc s') !! ws) /\
  shrinks s s' /\ Forall (fun i => images s' !! ii_id i = None) l.
Proof.
  intros Hws. revert d0 n s. induction l as [|i l IH]; intros d0 n s Hn Hb Hu Hl Hnd Hr.
  { simpl in Hr. injection Hr as <- <-. split_and!; [by rewrite Z.add_0_r|done|done|apply shrinks_refl|constructor]. }
  apply Forall_cons in Hl as [(Hg & Hi & Hf) Hl]. csimpl in Hnd. apply NoDup_cons in Hnd as [Hni Hnd]. cbn [cancel_images] in Hr.
  tx_bind Hr as bytes s1 H1. apply measure_Ok in H1 as [-> ->].
  tx_check Hr as d2 Hadd. apply of_option_Ok in Hadd. unfold addUint64 in Hadd. destruct (_ >? _); [done|]. injection Hadd as <-.
  tx_bind Hr as [] s1 H1. eapply image_quiet in H1 as [Hn1 (q & -> & [Hq _])]; [|done|done].
  tx_bind Hr as m s1 H1. destruct (Z.eqb_spec m 1) as [->|]; [|done]. cbn [negb] in Hr.
  apply update_file_Ok in H1 as (f & Hf0 & _ & ->); [|done].
  apply (detached_near _ _ _ _ (db_now e) (ws, id, ii_sequence i) f) in Hn1; [|done].
  tx_bind Hr as x s1 H1. set (s2 := set_files _ _) in H1, Hn1.
  assert (Hin : image_in ws s2 (ii_id i) = Some (ii_image i)) by by eapply (image_of_batch _ _ _ s2 id b).
  pose proof (target_one s2 ws (ii_id i) (ii_image i)) as Hone.
  destruct (image_in_Some _ _ _ _ (n_related _ _ _ _ Hn1) Hin) as (_ & Hgw & _). pose proof (n_ids _ _ _ _ Hn1 _ _ Hg) as Hid.
  eapply graph_image_near in H1 as (Hn2 & Hb2 & Ha2 & Him & Hfs & Hsh); [|exact Hn1|done|done].
  apply IH with (n := n + 1) in Hr as (Hn3 & Hb3 & Hu3 & Hsh3 & Hgone); [| |by rewrite Hb2|rewrite Ha2; simpl; by rewrite Hq| |done].
  - assert (Hall : shrinks s s1) by (eapply shrinks_trans; [by apply (shrinks_detached (db_now e) s q)|exact Hsh]).
    split_and!; [|by rewrite Hb3, Hb2|done|by eapply shrinks_trans|].
    + eapply owes_same; [|exact Hn3]. simpl. f_equal. lia.
    + constructor; [|done]. destruct (images s' !! ii_id i) as [g|] eqn:E; [|done]. apply (sh_images _ _ Hsh3) in E. exfalso. revert E.
      rewrite Him. rewrite map_lookup_filter_Some. simpl. rewrite Hone by (done || lia). rewrite Z.eqb_refl. by intros [].
  - eapply owes_same; [|exact Hn2]. unfold amount_add, amount. simpl. f_equal; lia.
  - rewrite Forall_forall in Hl. apply Forall_forall. intros j Hj. destruct (Hl j Hj) as (Hg' & Hi' & [f' Hf']). split_and!; [|done|].
    + rewrite Him. apply map_lookup_filter_Some. split; [done|]. simpl. rewrite Hone by (done || lia). apply Z.eqb_neq.
      intros E. apply Hni. rewrite <- E. by apply list_elem_of_fmap_2.
    + destruct (decide ((ws, id, ii_sequence j) = (ws, id, ii_sequence i))) as [E|E].
      * destruct (Hfs (ws, id, ii_sequence j) (detached (db_now e) f)) as (y & -> & _); [|done]. simpl. by rewrite E, lookup_insert_eq.
      * destruct (Hfs (ws, id, ii_sequence j) f') as (y & -> & _); [|done]. simpl. by rewrite lookup_insert_ne.
Qed.

Lemma canceled_files_near now ws d id s s' : near (Some (ws, id)) ws d s -> CancelUploadBatchFilesManual now ws id s = Ok (tt, s') ->
  near (Some (ws, id)) ws d s' /\ batches s' = batches s /\ acc s' = acc s /\
  all_files s' (ws, id) (fun f => f_status f = FCompleted \/ f_status f = FCanceled).
Proof.
  intros Hn Hr. injection Hr as <-. split_and!; [|done|done|].
  - apply files_near; [done| |].
    + intros k f'. rewrite map_lookup_imap. destruct (files s !! k) as [f|] eqn:Hf; [|done]. simpl. intros [= <-].
      pose proof (rel_files _ (n_related _ _ _ _ Hn) k f Hf) as Hok. pose proof (n_files _ _ _ _ Hn k f Hf) as Hfs.
      destruct (_ && open_file f) eqn:E; [|done]. split; [by eapply ok_file_same; [..|exact Hok]|]. destruct Hfs. split; simpl; try done; [auto|].
      intros _. apply fs_provisional0. apply andb_true_iff in E as [_ E]. unfold open_file in E. by destruct (f_status f).
    + intros k b Hb Hex. apply batch_sound_statuses.
      * intros q f Hf. exists f. simpl. rewrite map_lookup_imap, Hf. simpl. rewrite bool_decide_false by (simpl; congruence). done.
      * intros q f'. simpl. rewrite map_lookup_imap. destruct (files s !! (k, q)) as [f|] eqn:Hf; [|done]. simpl.
        rewrite bool_decide_false by (simpl; congruence). intros [= <-]. eauto.
  - intros q f'. simpl. rewrite map_lookup_imap. destruct (files s !! (ws, id, q)) as [f|]; [|done]. simpl. rewrite bool_decide_true by done. simpl.
    unfold open_file. intros [= <-]. destruct (f_status f) eqn:E; simpl; auto.
Qed.

(** The states a cancellation goes through. *)
Record canceling (e : env) (ws : Z) (id : string) (b : batch_row) (s s2 s3 s4 s' : idb) : Prop := {
  cl_start : exists b', b_status b' = BCanceled /\ b_context_id b' = None /\ b_item_id b' = b_item_id b /\
    s2 = set_queue (canceled_queue (db_now e) ws id (set_batches (<[(ws, id) := b']> (batches s)) s)) (set_batches (<[(ws, id) := b']> (batches s)) s) /\
    batches s4 !! (ws, id) = Some b';
  cl_images : shrinks s2 s3 /\ Forall (fun i => images s3 !! ii_id i = None) (ListIncompleteUploadBatchImagesForCleanupManual ws id s2);
  cl_files : CancelUploadBatchFilesManual (db_now e) ws id s3 = Ok (tt, s4);
  cl_closed : all_files s4 (ws, id) (fun f => f_status f = FCompleted \/ f_status f = FCanceled);
  cl_accounts : exists q, s' = set_accounts q s4 /\ is_Some (usages q !! ws);
  cl_sound : sound s';
}.

Lemma settle_images ws s s' bytes n (l : list incomplete_image) : near None ws (amount bytes 0 n) s -> ws <> 0 -> is_Some (a_usages (acc s) !! ws) ->
  n = Z.of_nat (length l) -> (l = [] -> bytes = 0) ->
  (if negb (bool_decide (l = [])) then
     quota (subtractStorageQuotaUsed ws {| Bytes := 0; DurableBytes := bytes; Items := 0; Images := Z.of_nat (length l) |})
   else mret tt) s = Ok (tt, s') ->
  sound s' /\ exists q, s' = set_accounts q s /\ is_Some (usages q !! ws).
Proof.
  intros Hn Hws Hu -> Hz Hr. case_bool_decide as He; cbn [negb] in Hr.
  - injection Hr as <-. split; [|exists (qview s); split; [by rewrite acc_eta|done]].
    eapply (settled ws); [exact Hn|]. by rewrite (Hz He), He.
  - split; [|].
    + eapply (settled ws); [eapply sub_near; [exact Hn|done|done|exact Hr]|].
      unfold amount_sub, amount, with_Bytes, no_request. simpl. f_equal; lia.
    + apply quota_Ok in Hr as (q & Hq & ->). exists q. split; [done|]. apply sub_used_Ok in Hq as [-> _]; [|done].
      rewrite lookup_book by done. destruct (_ || _); [|done]. destruct Hu as [u Hu]. simpl. rewrite Hu. by eexists.
Qed.

Lemma cancel_run e ws id s s' b : sound s -> batches s !! (ws, TrimSpace id) = Some b -> b_status b = InProgress ->
  cancel_batch e ws id s = Ok (tt, s') -> exists s2 s3 s4, canceling e ws (TrimSpace id) b s s2 s3 s4 s'.
Proof.
  intros Hs Hb Hst Hr. unfold cancel_batch in Hr. tx_bind Hr as u s1 H1. apply guard_Ok in H1 as (Hws & Hu & ->).
  tx_bind Hr as b0 s1 H1. apply lock_batch_Ok in H1 as [Hb0 ->]. rewrite Hb in Hb0. injection Hb0 as <-. rewrite Hst in Hr.
  set (id' := TrimSpace id) in *. pose proof (near_open (Some (ws, id')) ws no_request s (unsettled ws s Hs)) as Hn.
  tx_bind Hr as n s1 H1. unfold CancelUploadBatchManual, in_progress in H1. rewrite Hb, Hst, bool_decide_true in H1 by done.
  injection H1 as <- <-. cbn [Z.eqb negb Pos.eqb] in Hr. rewrite (alter_pair _ _ _ _ Hb) in Hr.
  match type of Hr with _ (set_batches (<[_ := ?x]> _) _) = _ => set (b' := x) in * end.
  apply (batch_near _ _ _ _ b b') in Hn; [|done|done|by left]. set (s1 := set_batches _ _) in *.
  tx_bind Hr as [] s2 H2. injection H2 as <-. tx_bind Hr as [] s2 H2. injection H2 as <-.
  match type of Hr with _ ?t = _ => change t with (set_queue (canceled_queue (db_now e) ws id' s1) s1) in Hr end.
  apply (canceled_queue_near (db_now e) ws id' s1) in Hn. set (s2 := set_queue _ s1) in *.
  assert (Hb2 : batches s2 !! (ws, id') = Some b') by (simpl; by rewrite lookup_insert_eq).
  assert (Hu2 : is_Some (a_usages (acc s2) !! ws)) by done.
  tx_bind Hr as l s3 H3. injection H3 as <- <-. destruct (incomplete_listed ws id' b' s2 Hb2) as [Hl Hnd].
  tx_bind Hr as bytes s3 H3.
  assert (Hz : ListIncompleteUploadBatchImagesForCleanupManual ws id' s2 = [] -> bytes = 0) by (intros E; rewrite E in H3; by injection H3).
  eapply (cancel_images_near e ws id' b' _ 0 0) in H3 as (Hn3 & Hb3 & Hu3 & Hsh & Hgone); [|done|exact Hn|done..].
  tx_bind Hr as [] s4 H4. pose proof H4 as Hfiles. eapply canceled_files_near in H4 as (Hn4 & Hb4 & Ha4 & Hall); [|exact Hn3].
  eapply settle_images in Hr as [Hs' Hq]; [| |done|by rewrite Ha4|done|done].
  2:{ apply (near_close (ws, id')); [exact Hn4|]. intros x. rewrite Hb4, Hb3, Hb2. intros [= <-]. by split. }
  exists s2, s3, s4. split; try done. exists b'. split_and!; try done. by rewrite Hb4, Hb3.
Qed.

Lemma Cancel_sound e ws id s s' : sound s -> cancel_batch e ws id s = Ok (tt, s') -> sound s'.
Proof.
  intros Hs Hr. pose proof Hr as Hr0. unfold cancel_batch in Hr0. tx_bind Hr0 as u s1 H1. apply guard_Ok in H1 as (_ & _ & ->).
  tx_bind Hr0 as b s1 H1. apply lock_batch_Ok in H1 as [Hb ->]. destruct (b_status b) eqn:Hst; [|done|by injection Hr0 as <-].
  destruct (cancel_run e ws id s s' b Hs Hb Hst Hr) as (s2 & s3 & s4 & []). done.
Qed.
End images.

(** ** Start *)

(** No batch was created by this transaction before. *)
Definition fresh_token (e : env) (s : idb) : Prop :=
  forall k b, batches s !! k = Some b -> b_creation_token b <> ("batch-" ++ uuid e)%string.

Lemma context_Ok cid ws s x s' : lockContextSnapshotForWorkspace cid ws s = Ok (x, s') ->
  s' = s /\ x.1 = cid /\ context_or_null s ws (Some cid) = true.
Proof.
  unfold lockContextSnapshotForWorkspace. intros H. tx_bind H as c s1 H1. apply one_of_Ok in H1 as [Hc ->].
  injection H as <- <-. split_and!; [done|done|]. unfold context_or_null. simpl. destruct (contexts s !! cid) as [c'|]; [|done].
  simpl in *. by destruct (_ || _).
Qed.

Lemma no_batch_of_new_item s item : related s -> items s !! item = None -> forall k b, batches s !! k = Some b -> b_item_id b <> item.
Proof.
  intros Hrel Hnone k b Hb <-. pose proof (rel_batches _ Hrel _ _ Hb) as Hok. unfold ok_batch in Hok. apply andb_true_iff in Hok as [Hit _].
  apply item_parent_true in Hit as (t & Ht & _). congruence.
Qed.

Lemma declared_batch_id now ws raw seq l s s' : (forall k b, batches s !! k = Some b -> TrimSpace k.2 = k.2) -> l <> [] ->
  declare_files now ws raw seq l s = Ok (tt, s') -> TrimSpace raw = raw /\ is_Some (batches s !! (ws, raw)).
Proof.
  intros Hnames Hl Hr. destruct l as [|i l]; [done|]. simpl in Hr. tx_bind Hr as n s1 H1. unfold InsertUploadBatchFileManual in H1.
  destruct (batches s !! (ws, raw)) as [b|] eqn:Hb; [split; [apply (Hnames _ _ Hb)|eauto]|]. injection H1 as <- <-. done.
Qed.

Lemma insert_batch_Ok ws id item ctx r s s' row : (forall k b, batches s !! k = Some b -> b_item_id b <> item) ->
  (forall b, batches s !! (ws, id) = Some b -> b <> row) ->
  InsertUploadBatchManual ws id item ctx r s = Ok (tt, s') -> batches s' !! (ws, id) = Some row ->
  batches s !! (ws, id) = None /\ s' = set_batches (<[(ws, id) := row]> (batches s)) s /\
  b_item_id row = item /\ b_context_id row = ctx /\ b_status row = InProgress /\ b_request_hash row = b_request_hash r /\ item_parent s ws item = true.
Proof.
  intros Hno Hne Hr Hrow. unfold InsertUploadBatchManual in Hr.
  assert (Hsame : Ok (E := store_err) (tt, s) = Ok (tt, s') -> False) by (intros [= ->]; by eapply Hne).
  destruct (items s !! item) as [t|] eqn:Ht; [|done]. destruct (ctx ≫= _); [|done].
  destruct (Z.eqb_spec (t_workspace_id t) ws) as [Hw|]; [|done]. simpl in Hr. case_bool_decide; [|done].
  destruct (batches s !! (ws, id)) eqn:Hb; [done|].
  assert (Hnil : filter (fun kb : Z * string * batch_row => b_item_id kb.2 = item) (map_to_list (batches s)) = []).
  { destruct (filter _ _) as [|kb l] eqn:E; [done|]. assert (Hin : kb ∈ filter (fun kb : Z * string * batch_row => b_item_id kb.2 = item) (map_to_list (batches s))) by (rewrite E; apply list_elem_of_here).
    apply list_elem_of_filter in Hin as [Hi Hin]. destruct kb as [k b]. apply elem_of_map_to_list in Hin. by destruct (Hno k b). }
  rewrite Hnil in Hr. simpl in Hr. injection Hr as <-. simpl in Hrow. rewrite lookup_insert_eq in Hrow. injection Hrow as <-.
  split_and!; try done. apply item_parent_true. eauto.
Qed.

(** Past the lock the transaction has a batch of its own. *)
Record starting (e : env) (p : StartUploadBatchParams) (row : batch_row) (s s1 s2 s3 s' : idb) : Prop := {
  st_guard : P_WorkspaceID p <> 0 /\ is_Some (a_usages (acc s) !! P_WorkspaceID p);
  st_member : (P_WorkspaceID p, P_UserID p) ∈ members s;
  st_context : context_or_null s (P_WorkspaceID p) (Some (P_ContextID p)) = true;
  st_item : items s !! P_ItemID p = None;
  st_s1 : s1 = set_items (<[P_ItemID p := created_item (start_params p)]> (items s)) s;
  st_new : batches s !! (P_WorkspaceID p, TrimSpace (P_BatchID p)) = None;
  st_s2 : s2 = set_batches (<[(P_WorkspaceID p, TrimSpace (P_BatchID p)) := row]> (batches s)) s1;
  st_row : b_item_id row = P_ItemID p /\ b_status row = InProgress /\ b_request_hash row = TrimSpace (P_RequestHash p) /\
    b_creation_token row = ("batch-" ++ uuid e)%string /\ (b_context_id row = None \/ b_context_id row = Some (P_ContextID p)) /\
    nullableUint64Checked (P_ContextID p) = Ok (b_context_id row) /\ item_parent s1 (P_WorkspaceID p) (P_ItemID p) = true;
  st_declare : declare_files (db_now e) (P_WorkspaceID p) (P_BatchID p) 1 (P_Files p) s2 = Ok (tt, s3);
  st_add : quota (addStorageQuotaUsed (P_WorkspaceID p) {| Bytes := 0; DurableBytes := 0; Items := 1; Images := 0 |}) s3 = Ok (tt, s');
}.

Lemma start_run e p s s' : related s -> fresh_token e s -> start_batch e p s = Ok (tt, s') ->
  exists row s1 s2 s3, starting e p row s s1 s2 s3 s'.
Proof.
  intros Hrel Hfresh Hr. unfold start_batch in Hr. cbv zeta in Hr. set (token := ("batch-" ++ uuid e)%string) in *.
  tx_bind Hr as u s1 H1. apply guard_Ok in H1 as (Hws & Hu & ->).
  tx_bind Hr as [] s1 H1. apply one_of_Ok in H1 as [Hmem ->]. case_bool_decide as Hin; [|done].
  tx_bind Hr as [c snap] s1 H1. apply context_Ok in H1 as (-> & Hc & Hctx). cbn [fst snd] in *.
  tx_bind Hr as [] s1 H1. unfold CreateItem in H1. destruct (negb _); [done|]. destruct (items s !! C_ID (start_params p)) eqn:Hno; [done|].
  injection H1 as <-. cbn [C_ID start_params] in Hno, Hr. pose proof (no_batch_of_new_item s _ Hrel Hno) as Hnob. set (s1 := set_items _ s) in *.
  tx_check Hr as ctx Hk. tx_bind Hr as [] s2 H2. tx_bind Hr as row s3 H3. apply one_of_Ok in H3 as [Hrow ->].
  case_bool_decide as Htok; cbn [negb] in Hr; [|by destruct (negb _)]. tx_bind Hr as [] s3 H3.
  destruct (insert_batch_Ok _ _ _ _ _ s1 _ row Hnob ltac:(intros b Hb' ->; by destruct (Hfresh _ _ Hb' Htok)) H2 Hrow) as (Hb & -> & Hi & Hcx & Hst & Hh & Hit).
  subst c. rewrite <- Hcx in Hk.
  assert (Hor : b_context_id row = None \/ b_context_id row = Some (P_ContextID p)).
  { unfold nullableUint64Checked in Hk. destruct (_ =? 0); [injection Hk as <-; by left|]. destruct (_ >? _); [done|]. injection Hk as <-. by right. }
  exists row, s1, (set_batches (<[(P_WorkspaceID p, TrimSpace (P_BatchID p)) := row]> (batches s1)) s1), s3. by split.
Qed.

Lemma Start_sound e p s s' : TrimSpace (P_ItemID p) = P_ItemID p -> P_ItemID p <> ""%string -> P_Files p <> [] ->
  fresh_token e s -> sound s -> start_batch e p s = Ok (tt, s') -> sound s'.
Proof.
  intros Htrim Hname Hfiles Hfresh Hs Hr. destruct (start_run e p s s' (n_related _ _ _ _ Hs) Hfresh Hr) as (row & s1 & s2 & s3 & []).
  destruct st_guard0 as [Hws Hu], st_row0 as (Hi & Hst & _ & _ & Hc & _ & Hit). set (ws := P_WorkspaceID p) in *.
  pose proof (unsettled ws s Hs) as Hn. destruct (member_rows s _ _ (n_related _ _ _ _ Hn) st_member0) as [Ht Hus].
  eapply (new_item_near (P_ItemID p) (created_item (start_params p)) s st_item0 None ws) in Hn; [|..]; [|unfold ok_item, workspace_parent, user_parent; simpl; by rewrite !bool_decide_true|done..].
  change (manifest_bytes (created_item (start_params p))) with 0 in Hn. rewrite <- st_s3 in Hn. pose proof Hn as Hn1.
  assert (Hb1 : batches s1 = batches s) by by subst s1. rewrite <- Hb1 in st_new0, st_s4.
  assert (Hbok : ok_batch s1 (ws, TrimSpace (P_BatchID p)) row = true).
  { unfold ok_batch. cbn [fst]. rewrite Hi, Hit. simpl. destruct Hc as [-> | ->]; [done|]. by subst s1. }
  apply (new_batch_near ws _ s1 (ws, TrimSpace (P_BatchID p)) row) in Hn; [|done|done|apply TrimSpace_idem|].
  2:{ rewrite Hi, Hb1. by apply no_batch_of_new_item; [apply Hs|]. }
  rewrite <- st_s4 in Hn.
  destruct (declared_batch_id (db_now e) ws (P_BatchID p) 1 (P_Files p) s2 s3) as [Hraw Hsome]; [apply (n_batch_names _ _ _ _ Hn)|done|done|].
  rewrite Hraw in *. apply (declare_near (db_now e) _ (P_Files p) ws (P_BatchID p) 1 s2 s3) in Hn as (Hn3 & Hp & (m & -> & _) & Hex); [|done| |done].
  2:{ intros q f Hf. exfalso. rewrite st_s4 in Hf. by apply (no_files_without_batch s1 (ws, P_BatchID p) q f); [apply (n_related _ _ _ _ Hn1)| |]. }
  assert (Hn4 : near None ws (amount_sub no_request (amount 0 1 0)) (set_files m s2)).
  { apply (near_close (ws, P_BatchID p)); [done|]. intros b Hb'. rewrite st_s4 in Hb'. simpl in Hb'. rewrite lookup_insert_eq in Hb'. injection Hb' as <-.
    unfold batch_sound. rewrite Hst. split; [intros q f Hf; by rewrite (Hp q f Hf)|].
    destruct (Hex Hfiles) as (q & f & Hf). exists q, f. split; [done|]. by rewrite (Hp q f Hf). }
  eapply (settled ws); [eapply add_near; [exact Hn4|done| |exact st_add0]|]; [|done]. by rewrite st_s4, st_s3.
Qed.
End UploadKeeps.
