(* ===== verification/UploadTheorems.v ===== *)
(** * Items and upload batches: every history keeps the tables sound

    A [move] is one call of the store, whatever it returns: a failed call rolls back.  Between the calls other
    components change the queue and the accounts in ways that keep their own invariants.

    Modules [UploadHistory]: items and upload batches: every history keeps the tables sound;
    [UploadTheorems]: items and upload batches: the theorems. *)

From Stdlib Require Import ZArith Lia Ascii String.
From stdpp Require Import base gmap strings list sorting relations.
From S2P Require Import Prelude GoStrings Json JobSchema JobStore JobInvariant MediaFragment Presentation Quota QuotaStore QuotaOps QuotaInvariant QuotaSteps ItemDb ItemOps UploadBatches UploadOps ItemAudit ItemPurge ItemSound ItemSteps UploadSteps ItemKeeps UploadKeeps.

Module UploadHistory.
Import GoStr Json JobStore JobInvariant MediaFragment Presentation UploadRef Quota QuotaStore QuotaOps QuotaInvariant ItemDb ItemGraph ItemOps ItemAudit ItemPurge ItemMeasure UploadBatches UploadOps ItemSound ItemKeeps UploadKeeps.
#[local] Open Scope Z_scope.

(** The state a call leaves. *)
Abbreviation after m s := (run_tx m s).2.

Section history.
Context `{UrlParser}.

Inductive move (s : idb) : idb -> Prop :=
| mv_create p : C_SourceManifest p = ""%string -> TrimSpace (C_ID p) = C_ID p -> C_ID p <> ""%string ->
    move s (after (Create p) s)
| mv_delete_item e id ws : move s (after (DeleteForWorkspace e id ws) s)
| mv_delete_image e id ws : move s (after (DeleteItemImageForWorkspace e id ws) s)
| mv_add_image p : move s (after (AddImage p) s)
| mv_canvas id uri : move s (after (EnsureImageCanvasURI id uri) s)
| mv_start e p : TrimSpace (P_ItemID p) = P_ItemID p -> fresh_token e s -> move s (StartUploadBatch e p s).2
| mv_claim e ws id seq size sha : plain_uuid e -> move s (ClaimUploadBatchFile e ws id seq size sha s).2
| mv_renew e ws id seq owner : move s (after (RenewUploadBatchFileLease e ws id seq owner) s)
| mv_abort e ws id seq owner err : move s (after (AbortUploadBatchFileAttempt e ws id seq owner err) s)
| mv_ensure e ws R id seq owner url bytes w h base : 0 <= bytes <= MaxUint64 ->
    move s (after (EnsureUploadBatchImage e ws R id seq owner url bytes w h base) s)
| mv_complete e ws id seq owner img job : move s (CompleteUploadBatchFile e ws id seq owner img job s).2
| mv_cancel e ws id : move s (CancelUploadBatch e ws id s).2
| mv_queue q : queue_inv (jview (set_queue q s)) -> related (set_queue q s) -> move s (set_queue q s)
| mv_accounts q : consistent q -> related (set_accounts q s) ->
    (forall w u, usages q !! w = Some u -> w = 0 \/ (w ∈ tenants s /\ with_Bytes 0 (used u) = stored s w)) ->
    move s (set_accounts q s).

Lemma after_sound {A} (m : itx A) s : (forall x s', m s = Ok (x, s') -> sound s') -> sound s -> sound (after m s).
Proof. intros Hm Hs. unfold run_tx. destruct (m s) as [[x s']|e] eqn:E; [by eapply Hm|done]. Qed.
Lemma returning_sound {A} ws id (m : itx A) s : (forall x s', m s = Ok (x, s') -> sound s') -> sound s -> sound (returning ws id m s).2.
Proof.
  intros Hm Hs. pose proof (after_sound m s Hm Hs) as Ha. unfold returning. destruct (run_tx m s) as [[a|err] s']; exact Ha.
Qed.

Lemma move_sound s s' : sound s -> move s s' -> sound s'.
Proof.
  intros Hs Hm. destruct Hm.
  - apply after_sound; [|done]. intros [] ? Hr. by eapply Create_sound.
  - apply after_sound; [|done]. intros [] ? Hr. by eapply DeleteForWorkspace_sound.
  - apply after_sound; [|done]. intros [] ? Hr. by eapply DeleteItemImageForWorkspace_sound.
  - apply after_sound; [|done]. intros x ? Hr. by eapply AddImage_sound.
  - apply after_sound; [|done]. intros x ? Hr. by eapply EnsureImageCanvasURI_sound.
  - unfold StartUploadBatch. destruct (_ || bool_decide (P_Files p = [])) eqn:Hc; [done|].
    repeat (apply orb_false_iff in Hc as [Hc ?]).
    pose proof (after_sound (start_batch e p) s) as Ha. unfold after, run_tx in *.
    destruct (start_batch e p s) as [[[] s']|err] eqn:E; simpl in *; [|by destruct err].
    apply (Start_sound e p s s'); try done.
    + intros E'. rewrite E' in *. done.
    + match goal with H : bool_decide (P_Files p = []) = false |- _ => by apply bool_decide_eq_false in H end.
  - unfold ClaimUploadBatchFile. pose proof (returning_sound ws id (claim_file e ws id seq size sha) s) as Hc.
    destruct (returning _ _ _ _) as [r s']. apply Hc; [|done]. intros x ? Hr. by eapply Claim_sound.
  - apply after_sound; [|done]. intros [] ? Hr. by eapply Renew_sound.
  - apply after_sound; [|done]. intros [] ? Hr. by eapply Abort_sound.
  - apply after_sound; [|done]. intros x ? Hr. by eapply Ensure_sound.
  - unfold CompleteUploadBatchFile. destruct (_ || _); [done|]. apply returning_sound; [|done]. intros [] ? Hr. by eapply Complete_sound.
  - apply returning_sound; [|done]. intros [] ? Hr. by eapply Cancel_sound.
  - pose proof Hs as []. split; try done.
  - pose proof Hs as []. split; try done.
    + intros w u Hu. simpl in Hu. destruct (H2 w u Hu) as [|[? _]]; auto.
    + by apply (QuotaInvariant.consistent_elsewhere q).
    + intros w u Hw Hu. simpl in Hu. destruct (H2 w u Hu) as [|[_ ->]]; [done|].
      unfold owes. rewrite !stored_sums by done. destruct (_ =? _); by rewrite QuotaSteps.QuotaSteps.amount_add_0_r.
Qed.

Lemma history_sound s s' : sound s -> rtc move s s' -> sound s'.
Proof. intros Hs Hr. induction Hr; [done|]. apply IHHr. by eapply move_sound. Qed.
End history.
End UploadHistory.

(** * Items and upload batches: the theorems *)

Module UploadTheorems.
Import GoStr Json JobStore JobInvariant MediaFragment Presentation UploadRef Quota QuotaStore QuotaOps QuotaInvariant QuotaSteps ItemDb ItemGraph ItemOps ItemAudit ItemPurge ItemRemove ItemMeasure UploadBatches UploadOps ItemSound ItemSteps UploadMoves ItemKeeps UploadKeeps UploadHistory.
#[local] Open Scope Z_scope.

Section histories.
Context `{UrlParser}.

(** The usage rows of a sound state count what the rebuild measures. *)
Lemma sound_counts s w u : sound s -> w <> 0 -> a_usages (acc s) !! w = Some u ->
  Items (used u) = Items (used (measured (qview s) w)) /\ Images (used u) = Images (used (measured (qview s) w)) /\
  DurableBytes (used u) = DurableBytes (used (measured (qview s) w)).
Proof.
  intros Hs Hw Hu. pose proof (n_counted _ _ _ _ Hs w u Hw Hu) as Hc.
  unfold stored, owes in Hc. destruct (used (measured (qview s) w)). revert Hc. destruct (w =? 0);
    unfold with_Bytes, amount_add, no_request; simpl; intros [=]; lia.
Qed.

(** What the status of a batch says of its files. *)
Definition files_say (s : idb) (k : Z * string) (st : batch_status) : Prop :=
  match st with
  | InProgress => (forall q f, files s !! (k, q) = Some f -> f_status f <> FCanceled) /\
      exists q f, files s !! (k, q) = Some f /\ f_status f <> FCompleted
  | BCompleted => forall q f, files s !! (k, q) = Some f -> f_status f = FCompleted
  | BCanceled => forall q f, files s !! (k, q) = Some f -> f_status f = FCompleted \/ f_status f = FCanceled
  end.

(** C20: After any history a batch is open exactly while it has unfinished files, a file has an owner and a
    lease exactly while it is processed, attempts stay within their maximum, and only a completed file names
    an image, of the item of its batch, and a job, unless retention has removed it, of that image. *)
Theorem batches_follow_their_files s s' : sound s -> rtc move s s' ->
  (forall k b, batches s' !! k = Some b -> files_say s' k (b_status b) /\ (b_status b <> InProgress -> b_context_id b = None)) /\
  (forall k f, files s' !! k = Some f ->
     (f_status f = FProcessing <-> is_Some (f_locked_by f)) /\ (is_Some (f_locked_by f) <-> is_Some (f_lease_until f)) /\
     0 <= f_attempt_count f <= f_max_attempts f /\
     (f_status f <> FCompleted -> f_item_image_id f = None) /\
     (is_Some (f_transcription_job_id f) -> is_Some (f_item_image_id f)) /\
     (forall img, f_item_image_id f = Some img -> exists b g,
        batches s' !! k.1 = Some b /\ images s' !! img = Some g /\ g_item_id g = b_item_id b /\
        forall job, f_transcription_job_id f = Some job -> exists j,
          q_jobs (queue s') !! job = Some j /\ Jobs.k_item_image_id (Jobs.j_key j) = img)).
Proof.
  intros Hs Hr. pose proof (history_sound s s' Hs Hr) as Hs'. split.
  - intros k b Hb. pose proof (n_batches _ _ _ _ Hs' k b Hb ltac:(done)) as Hbs. unfold batch_sound, all_files, files_say in *.
    destruct (b_status b); split; try done; naive_solver.
  - intros k f Hf. pose proof (n_files _ _ _ _ Hs' k f Hf) as [Hl Ha _ Hp Hres].
    pose proof (rel_files _ (n_related _ _ _ _ Hs') k f Hf) as Hok.
    assert (Hlock : (f_status f = FProcessing <-> is_Some (f_locked_by f)) /\ (is_Some (f_locked_by f) <-> is_Some (f_lease_until f))).
    { destruct (decide (f_status f = FProcessing)) as [E|E].
      - destruct Hl as [(o & Ho & _) [t Ht]]. rewrite Ho, Ht. split; split; eauto.
      - destruct Hl as [Ho Ht]. rewrite Ho, Ht. split; split; done || by intros []. }
    split; [apply Hlock|]. split; [apply Hlock|]. split; [done|]. split; [done|]. split; [done|].
    intros img Him. unfold ok_file in Hok. rewrite Him in Hok.
    destruct (batches s' !! k.1) as [b|]; [|done]. apply andb_true_iff in Hok as [(g & Hg & _ & Hi)%image_of_parent_true Hj].
    exists b, g. split_and!; [done|done|done|]. intros job Hjob. rewrite Hjob in Hj.
    destruct (q_jobs (queue s') !! job) as [j|] eqn:Hq; [|done]. simpl in Hj. exists j. split; [done|].
    apply andb_true_iff in Hj as [[_ Hj%Z.eqb_eq]%andb_true_iff _]. done.
Qed.
End histories.

(** ** Deletion *)

(** The tables without the images [gone] and all that hangs on them, said without the joins of the statements. *)
Lemma purge_ext gone gone' s : (forall i, gone i = gone' i) -> purge gone s = purge gone' s.
Proof.
  intros He.
  assert (Hj : forall j, job_gone gone s j = job_gone gone' s j) by (intros j; unfold job_gone; destruct (q_jobs (queue s) !! j); simpl; auto).
  assert (Hr : forall j, run_gone gone s j = run_gone gone' s j) by (intros j; unfold run_gone; destruct (ocr_runs (kids s) !! j); simpl; auto).
  unfold purge, set_images, set_queue, set_kids. simpl. f_equal.
  - unfold purge_queue. f_equal; apply map_filter_ext; intros k x Hx; simpl; by rewrite ?He, ?Hj.
  - unfold purge_kids. f_equal; try (apply map_filter_ext; intros k x Hx; simpl; by rewrite ?He).
    + apply map_filter_ext. intros k x Hx. simpl. unfold request_gone.
      destruct (r_item_image_id x), (r_transcription_job_id x), (r_session_id x); simpl; by rewrite ?He, ?Hj, ?Hr.
    + apply map_filter_ext. intros k x Hx. simpl. destruct (u_item_image_id x); simpl; by rewrite ?He.
    + apply set_eq. intros i. rewrite !elem_of_filter. by rewrite He.
    + apply set_eq. intros i. rewrite !elem_of_filter. by rewrite He.
  - apply map_filter_ext. intros k x Hx. simpl. by rewrite He.
Qed.

Definition part_of (s : idb) (id : string) (i : Z) : bool :=
  match images s !! i with Some g => bool_decide (g_item_id g = id) | None => false end.
Definition without_item (id : string) (s : idb) : idb :=
  set_items (delete id (items s))
    (set_batches (filter (fun kb => b_item_id kb.2 <> id) (batches s))
      (set_files (filter (fun kf => (b_item_id <$> batches s !! kf.1.1) <> Some id) (files s))
        (set_kids (with_requests (purge_kids (part_of s id) s)
           (filter (fun kr => r_item_id kr.2 <> Some id) (requests (purge_kids (part_of s id) s))))
          (purge (part_of s id) s)))).

Lemma target_part s ws id i : related s -> item_parent s ws id = true -> target s ws id 0 i = part_of s id i.
Proof.
  intros Hrel (t & Ht & Hw)%item_parent_true. unfold target, part_of. destruct (images s !! i) as [g|] eqn:Hg; [|done].
  case_bool_decide as Hi; [|by rewrite andb_false_r]. simpl. rewrite !andb_true_r.
  pose proof (rel_images _ Hrel _ _ Hg) as (t' & Ht' & Hw')%item_parent_true. apply Z.eqb_eq. congruence.
Qed.

Lemma item_removed ws id s : related s -> item_parent s ws id = true ->
  remove_item ws id (purge (target s ws id 0) s) = without_item id s.
Proof.
  intros Hrel Hit. rewrite (purge_ext _ (part_of s id)) by (intros; by apply target_part).
  unfold remove_item, drop_item, without_item, set_items, set_batches, set_files, set_kids. simpl. f_equal.
  apply map_filter_ext. intros k f Hf. simpl. unfold file_of_item. simpl.
  destruct k as [[w bid] q]. simpl. destruct (Z.eqb_spec w ws) as [->|Hne]; simpl.
  - destruct (batches s !! (ws, bid)) as [b|]; simpl; [|done]. rewrite bool_decide_eq_false. split; congruence.
  - split; [|done]. intros _. destruct (batches s !! (w, bid)) as [b|] eqn:Hb; [|done]. simpl. intros [= Hi]. apply Hne.
    pose proof (rel_batches _ Hrel _ _ Hb) as Hok. unfold ok_batch in Hok. apply andb_true_iff in Hok as [Hok _].
    apply item_parent_true in Hok as (t & Ht & Hw). apply item_parent_true in Hit as (t' & Ht' & Hw'). simpl in Hw. congruence.
Qed.

Lemma image_removed now ws img g s : related s -> img <> 0 -> image_in ws s img = Some g ->
  set_files (detach_files (target s ws (g_item_id g) img) s now) (purge (target s ws (g_item_id g) img) s) =
  set_files (detach_files (fun i => i =? img) s now) (purge (fun i => i =? img) s).
Proof.
  intros Hrel Hne Hin. destruct (image_in_Some _ _ _ _ Hrel Hin) as (Hg & Hw & _).
  pose proof (target_one s ws img g Hne Hg Hw) as Hone. rewrite (purge_ext _ _ s Hone). f_equal.
  unfold detach_files. apply map_fmap_ext. intros k f Hf.
  destruct (f_item_image_id f), (f_transcription_job_id f); simpl; unfold job_gone, some_is; rewrite ?Hone; try done;
    destruct (q_jobs (queue s) !! _); by rewrite ?Hone.
Qed.

Lemma accounts_twice q q' s : set_accounts q (set_accounts q' s) = set_accounts q s.
Proof. done. Qed.

Section deletion.
Context `{UrlParser}.

Lemma item_deleted e ws id s1 s s' q n : s1 = set_accounts q s -> sound s1 -> ws <> 0 -> item_parent s1 ws id = true ->
  (durableBytes ← itemDurableDatabaseBytes ws id;
   _ ← deleteItemResourceGraph (db_now e) ws id 0;
   _ ← requireDeletedRow (DeleteItemForWorkspaceManual ws id);
   quota (subtractStorageQuotaUsed ws {| Bytes := 0; DurableBytes := durableBytes; Items := 1; Images := n |})) s1 = Ok (tt, s') ->
  exists q, s' = set_accounts q (without_item id s).
Proof.
  intros -> Hn Hws Hitem Hr. tx_bind Hr as bytes s2 H2. apply measure_Ok in H2 as [-> ->].
  pose proof Hitem as (t & Ht & Hw)%item_parent_true. destruct (n_names _ _ _ _ Hn id t Ht) as [Htrim Hname].
  tx_bind Hr as [] s2 H2. rewrite delete_item_graph in H2; try done; [|apply Hn|apply Hn].
  injection H2 as <-. tx_bind Hr as [] s2 H2. rewrite deleted_item in H2 by exact Hitem. injection H2 as <-.
  rewrite item_removed in Hr; [|apply Hn|done]. apply quota_Ok in Hr as (q' & _ & ->). by exists q'.
Qed.

(** C5: Deleting an item, or one image, changes the tables to what they were without its images and every row
    that hangs on them, directly or through a job or an OCR run, and nothing else but the accounts. *)
Theorem deletions_remove_the_graph e id ws img s s' : sound s ->
  (DeleteForWorkspace e id ws s = Ok (tt, s') -> exists q, s' = set_accounts q (without_item id s)) /\
  (DeleteItemImageForWorkspace e img ws s = Ok (tt, s') -> exists q,
     s' = set_accounts q (set_files (detach_files (fun i => i =? img) s (db_now e)) (purge (fun i => i =? img) s))).
Proof.
  intros Hs. split; intros Hr.
  - unfold DeleteForWorkspace in Hr. tx_bind Hr as u s1 H1. apply guard_Ok in H1 as (Hws & Hu & ->).
    tx_bind Hr as [] s1 H1. apply one_of_Ok in H1 as [Hit ->].
    assert (Hitem : item_parent s ws id = true).
    { apply item_parent_true. destruct (items s !! id) as [t|]; [|done]. simpl in Hit. destruct (Z.eqb_spec (t_workspace_id t) ws); [|done]. eauto. }
    tx_bind Hr as l s1 H1. injection H1 as <- <-.
    tx_bind Hr as [] s1 H1. eapply images_quiet in H1; [|by apply (unsettled ws)|done].
    tx_bind Hr as [] s2 H2. eapply triplet_item_quiet in H2; [|apply H1|by eapply quiet_usage].
    pose proof (quiet_trans _ _ _ _ _ _ H1 H2) as Hq. destruct (proj2 Hq) as (q & Hs2 & _).
    eapply (item_deleted e ws id s2 s s' q); [done|by apply (near_sound ws), Hq|done| |exact Hr]. by rewrite (quiet_parent _ _ _ _ _ _ _ Hq).
  - unfold DeleteItemImageForWorkspace in Hr. tx_bind Hr as u s1 H1. apply guard_Ok in H1 as (Hws & Hu & ->).
    tx_bind Hr as g s1 H1. apply one_of_Ok in H1 as [Hin ->].
    tx_bind Hr as [] s1 H1. eapply image_quiet in H1; [|by apply (unsettled ws)|done].
    tx_bind Hr as [] s2 H2. eapply triplet_item_quiet in H2; [|apply H1|by eapply quiet_usage].
    pose proof (quiet_trans _ _ _ _ _ _ H1 H2) as [Hn (q & -> & _)].
    tx_bind Hr as bytes s3 H3. apply measure_Ok in H3 as [-> ->].
    destruct (image_in_Some _ _ _ _ (n_related _ _ _ _ Hn) Hin) as (Hg & Hw & (t & Ht & Htw)%item_parent_true).
    destruct (n_names _ _ _ _ Hn _ t Ht) as [Htrim Hname]. pose proof (n_ids _ _ _ _ Hn _ _ Hg) as Hid.
    tx_bind Hr as [] s3 H3. erewrite delete_image_graph in H3; try done; [|apply Hn|apply Hn|lia].
    injection H3 as <-. rewrite image_removed in Hr; [|apply Hn|lia|done]. apply quota_Ok in Hr as (q' & _ & ->). by exists q'.
Qed.
End deletion.
End UploadTheorems.
