(* ===== verification/UploadOutcomes.v ===== *)
(** * Upload batches: attempts, cancellation and replays *)

From Stdlib Require Import ZArith Lia Ascii String.
From stdpp Require Import base gmap strings list sorting relations.
From S2P Require Import Prelude GoStrings Json JobSchema JobStore JobInvariant MediaFragment Presentation Quota QuotaStore QuotaOps QuotaInvariant QuotaSteps ItemDb ItemOps UploadBatches UploadOps ItemAudit ItemPurge ItemSound ItemSteps UploadSteps ItemKeeps UploadKeeps UploadTheorems.

Module UploadOutcomes.
Import GoStr Json JobStore MediaFragment Presentation UploadRef Quota QuotaStore QuotaOps QuotaSteps ItemDb ItemGraph ItemOps ItemAudit UploadBatches UploadOps ItemSound ItemSteps UploadMoves ItemKeeps UploadKeeps.
#[local] Open Scope Z_scope.

Section attempts.
Context `{UrlParser}.

(** What a claim leaves. *)
Lemma claim_leaves e ws id seq size sha s owner s' : plain_uuid e -> sound s ->
  claim_file e ws id seq size sha s = Ok (Claimed owner, s') ->
  owner = ("upload-" ++ uuid e)%string /\
  (exists b, batches s' !! (ws, TrimSpace id) = Some b /\ b_status b = InProgress) /\
  (exists f g, files s !! (ws, TrimSpace id, seq) = Some f /\ files s' !! (ws, TrimSpace id, seq) = Some g /\
     f_attempt_count f < f_max_attempts f /\ f_attempt_count g = f_attempt_count f + 1 /\
     (f_status f = FProcessing -> before (go_now e) (f_lease_until f) = false) /\
     f_status g = FProcessing /\ f_locked_by g = Some owner /\ f_lease_until g = Some (go_now e + uploadBatchFileLeaseDuration)).
Proof.
  intros Huuid Hs Hr. unfold claim_file in Hr. tx_bind Hr as u s1 H1. apply guard_Ok in H1 as (Hws & Hu & ->).
  tx_bind Hr as b s1 H1. apply lock_batch_Ok in H1 as [Hb ->]. case_bool_decide as Hc1; [done|].
  tx_bind Hr as f s1 H1. apply lock_file_Ok in H1 as [Hf ->]. destruct (_ || _); [done|].
  case_bool_decide as Hc2; [done|]. case_bool_decide as Hc3; [done|].
  destruct (f_attempt_count f >=? f_max_attempts f) eqn:Hc4; [done|]. destruct (bool_decide _ && _) eqn:Hc5; [done|].
  pose proof (attempts_trim _ _ _ _ Hs Hb) as Htrim.
  tx_bind Hr as c s1 H1. eapply cleanup_near in H1 as (Hn1 & Hb1 & Hu1 & f' & Hf' & Ha); [|by apply unsettled|done..].
  tx_bind Hr as n s2 H2. destruct (Z.eqb_spec n 1) as [->|]; [|done]. simpl in Hr.
  apply update_file_Ok in H2 as (f1 & Hf1 & Hcl & ->); [|done]. rewrite Hf' in Hf1. injection Hf1 as <-.
  tx_bind Hr as [] s2 H2. injection Hr as <- <-. unfold plain_uuid in Huuid. rewrite nullable_Some in H2 by done.
  apply quota_Ok in H2 as (q & _ & ->). split; [done|]. split.
  - exists b. split; [by simpl; rewrite Hb1|]. by destruct (b_status b).
  - exists f. eexists. split; [done|]. split; [simpl; by rewrite lookup_insert_eq|]. destruct Ha as (_ & Hac & _).
    unfold claimed_file. simpl. split_and!; try done; [lia|lia|]. intros Hp. rewrite bool_decide_true in Hc5 by done. done.
Qed.

Lemma found_run {A} (f : idb -> option A) s x : f s = Some x -> found (one_of f) s = Ok (x, s).
Proof. intros Hf. unfold found. by rewrite (proj2 (one_of_Ok f s x s)). Qed.
Lemma active_run e ws id seq o s b f : held e ws id seq o s b f ->
  lockActiveUploadBatchFileAttempt e ws id seq o s = Ok ((b, f), s).
Proof.
  intros []. destruct h_owner0 as [Ho Hne]. unfold lockActiveUploadBatchFileAttempt. cbv [mbind tx_bind].
  unfold LockUploadBatchManual, LockUploadBatchFileManual.
  rewrite (found_run (fun s => batches s !! (ws, TrimSpace id)) s b h_batch0).
  rewrite (found_run (fun s => files s !! (ws, TrimSpace id, seq)) s f h_file0).
  rewrite h_open0, h_processing0, h_lease0, Ho, bool_decide_true, (bool_decide_true (FProcessing = _)), (bool_decide_false (TrimSpace o = _)), bool_decide_true by done.
  done.
Qed.

Lemma guard_run ws s u : a_usages (acc s) !! ws = Some u -> ws <> 0 -> quota (lockStorageQuotaGuards ws) s = Ok (tt, s).
Proof.
  intros Hu Hws. unfold quota, lockStorageQuotaGuards, lockWorkspaceStorageQuotaUsage, LockStorageQuotaUsage, one_row.
  rewrite (proj2 (Z.eqb_neq ws 0)) by done. cbv [mbind tx_bind tx_reads tx_lift of_option mret tx_ret]. simpl. by rewrite Hu, acc_eta.
Qed.

(** A name that does not hold the file gets nothing done. *)
Definition not_holding (ws : Z) (id : string) (seq : Z) (o : string) (s : idb) : Prop :=
  forall f, files s !! (ws, TrimSpace id, seq) = Some f -> f_locked_by f <> Some (TrimSpace o).
Lemma not_active e ws id seq o s x s' : not_holding ws id seq o s -> lockActiveUploadBatchFileAttempt e ws id seq o s = Ok (x, s') -> False.
Proof. intros Hno [[] _]%active_Ok. by destruct (Hno _ h_file0), h_owner0. Qed.
Lemma stale_fails e ws id seq o s : not_holding ws id seq o s ->
  (forall x, RenewUploadBatchFileLease e ws id seq o s <> Ok x) /\
  (forall err x, AbortUploadBatchFileAttempt e ws id seq o err s <> Ok x) /\
  (forall R url bytes w h base x, EnsureUploadBatchImage e ws R id seq o url bytes w h base s <> Ok x) /\
  (forall img job x, complete_file e ws id seq o img job s <> Ok x).
Proof.
  intros Hno. split_and!.
  - intros [x s'] Hr. unfold RenewUploadBatchFileLease in Hr. tx_bind Hr as y s1 H1. by eapply not_active.
  - intros err [x s'] Hr. unfold AbortUploadBatchFileAttempt in Hr. tx_bind Hr as u s1 H1. apply guard_Ok in H1 as (_ & _ & ->).
    tx_bind Hr as b s1 H1. apply lock_batch_Ok in H1 as [Hb ->]. tx_bind Hr as f s1 H1. apply lock_file_Ok in H1 as [Hf ->].
    rewrite (bool_decide_false (f_locked_by f = _)) in Hr by (by apply Hno). by rewrite orb_true_r in Hr.
  - intros R url bytes w h base [x s'] Hr. unfold EnsureUploadBatchImage in Hr. destruct (_ || _); [done|]. destruct (_ || _); [done|].
    tx_check Hr as [] Hv. tx_bind Hr as u s1 H1. apply guard_Ok in H1 as (_ & _ & ->). tx_bind Hr as y s1 H1. by eapply not_active.
  - intros img job [x s'] Hr. unfold complete_file in Hr. tx_bind Hr as y s1 H1. by eapply not_active.
Qed.

(** C21: While the lease of a claimed file has not expired every other claim of it fails, every operation of
    another owner fails, and the owner can renew. *)
Theorem live_attempt_is_exclusive e ws id seq size sha s owner s' : plain_uuid e -> sound s ->
  claim_file e ws id seq size sha s = Ok (Claimed owner, s') ->
  (forall e2 size2 sha2 x, go_now e2 < go_now e + uploadBatchFileLeaseDuration ->
     claim_file e2 ws id seq size2 sha2 s' <> Ok x) /\
  (forall e2 o, TrimSpace o <> owner ->
     (forall x, RenewUploadBatchFileLease e2 ws id seq o s' <> Ok x) /\
     (forall err x, AbortUploadBatchFileAttempt e2 ws id seq o err s' <> Ok x) /\
     (forall R url bytes w h base x, EnsureUploadBatchImage e2 ws R id seq o url bytes w h base s' <> Ok x) /\
     (forall img job x, complete_file e2 ws id seq o img job s' <> Ok x)) /\
  (forall e2, go_now e2 < go_now e + uploadBatchFileLeaseDuration -> db_now e2 < go_now e + uploadBatchFileLeaseDuration ->
     exists s2, RenewUploadBatchFileLease e2 ws id seq owner s' = Ok (tt, s2)).
Proof.
  intros Huuid Hs Hr. destruct (claim_leaves _ _ _ _ _ _ _ _ _ Huuid Hs Hr) as (-> & (b & Hb & Hst) & f & g & _ & Hg & _ & _ & _ & Hp & Ho & Hl).
  split_and!.
  - intros e2 size2 sha2 [x s2] Hlt Hc. unfold claim_file in Hc. tx_bind Hc as u s1 H1. apply guard_Ok in H1 as (_ & _ & ->).
    tx_bind Hc as b' s1 H1. apply lock_batch_Ok in H1 as [Hb' ->]. destruct (bool_decide _); [done|].
    tx_bind Hc as f' s1 H1. apply lock_file_Ok in H1 as [Hf' ->]. simplify_eq. destruct (_ || _); [done|].
    rewrite Hp, (bool_decide_false (FProcessing = FCompleted)) in Hc by done. destruct (bool_decide _); [done|]. destruct (_ >=? _); [done|].
    unfold before in Hc. rewrite Hl, bool_decide_true, (proj2 (Z.ltb_lt _ _) Hlt) in Hc by done. done.
  - intros e2 o Hne. apply stale_fails. intros f' Hf'. simplify_eq. congruence.
  - intros e2 Hlt Hdb. unfold plain_uuid in Huuid. unfold RenewUploadBatchFileLease. cbv [mbind tx_bind].
    rewrite (active_run e2 ws id seq _ s' b g) by (split; rewrite ?Huuid, ?Hl; try done; simpl; by apply Z.ltb_lt).
    unfold RenewUploadBatchFileManual, update_file. rewrite Hg. cbn [fst snd]. unfold file_held, in_progress, owned. rewrite nullable_Some by (by rewrite ?Huuid).
    rewrite Hp, Ho, Hl, Hb, Hst, Huuid. unfold before. rewrite (proj2 (Z.ltb_lt _ _) Hdb), !bool_decide_true by done.
    cbn [andb]. rewrite bool_decide_false.
    2:{ intros E. apply (f_equal f_lease_until) in E. unfold renewed_file in E. cbn [f_lease_until] in E. rewrite Hl in E. simpl in E. injection E as E. lia. }
    cbn [Z.eqb negb Pos.eqb]. eexists. reflexivity.
Qed.

(** ** Cancellation *)

Lemma canceled_job_inactive now ws id s k f job j : files s !! k = Some f -> k.1 = (ws, id) -> f_transcription_job_id f = Some job ->
  q_jobs (canceled_queue now ws id s) !! job = Some j -> Jobs.is_active (Jobs.j_status j) = false.
Proof.
  intros Hf Hk Hj (j0 & _ & _ & _ & Hor)%canceled_job_from. destruct Hor as [[_ ->]|[Hc ->]]; [done|].
  unfold cancels_job in Hc. rewrite bool_decide_true in Hc; [done|]. unfold jobs_of_batch. apply elem_of_list_to_set.
  apply list_elem_of_omap. exists f. split; [|done]. unfold rows. apply list_elem_of_fmap. exists (k, f). split; [done|].
  apply elem_of_map_to_list. apply map_lookup_filter_Some. done.
Qed.

Lemma incomplete_complete ws id b s i g f : batches s !! (ws, id) = Some b -> images s !! i = Some g -> g_item_id g = b_item_id b ->
  files s !! (ws, id, g_sequence g) = Some f -> f_status f <> FCompleted ->
  i ∈ (ii_id <$> ListIncompleteUploadBatchImagesForCleanupManual ws id s).
Proof.
  intros Hb Hg Hi Hf Hne. unfold ListIncompleteUploadBatchImagesForCleanupManual. rewrite Hb. apply list_elem_of_fmap.
  exists {| ii_id := i; ii_image := g; ii_sequence := g_sequence g |}. split; [done|]. apply list_elem_of_omap. exists (i, g). split.
  - rewrite merge_sort_Permutation. by apply elem_of_map_to_list.
  - simpl. by rewrite bool_decide_true, Hf, bool_decide_false.
Qed.

Lemma canceled_from now ws id s s' q f : CancelUploadBatchFilesManual now ws id s = Ok (tt, s') -> files s' !! (ws, id, q) = Some f ->
  exists f0, files s !! (ws, id, q) = Some f0 /\ (f = f0 \/ (f_status f0 <> FCompleted /\ f_status f = FCanceled)) /\
    f_transcription_job_id f = f_transcription_job_id f0.
Proof.
  intros [= <-]. cbn [files set_files]. rewrite map_lookup_imap. destruct (files s !! (ws, id, q)) as [f0|]; [|done]. simpl.
  intros [= <-]. exists f0. destruct (_ && open_file f0) eqn:E; split_and!; try done; [|by left].
  right. split; [|done]. apply andb_true_iff in E as [_ E]. unfold open_file in E. by destruct (f_status f0).
Qed.

Lemma canceled_again e ws id s b : ws <> 0 -> is_Some (a_usages (acc s) !! ws) -> batches s !! (ws, TrimSpace id) = Some b -> b_status b = BCanceled ->
  cancel_batch e ws id s = Ok (tt, s).
Proof.
  intros Hws [u Hu] Hb Hst. unfold cancel_batch. cbv [mbind tx_bind]. rewrite (guard_run ws s u) by done.
  unfold LockUploadBatchManual. rewrite (found_run (fun s => batches s !! (ws, TrimSpace id)) s b Hb). by rewrite Hst.
Qed.

(** Canceling an open batch leaves it canceled with every file completed or canceled and unowned, no
    active job of its files and no image of an unfinished file; canceling again changes nothing. *)
Theorem cancel_closes_the_batch e ws id s s' b : sound s -> batches s !! (ws, TrimSpace id) = Some b -> b_status b = InProgress ->
  cancel_batch e ws id s = Ok (tt, s') ->
  (exists b', batches s' !! (ws, TrimSpace id) = Some b' /\ b_status b' = BCanceled /\ b_context_id b' = None) /\
  (forall q f, files s' !! (ws, TrimSpace id, q) = Some f ->
     (f_status f = FCompleted \/ f_status f = FCanceled) /\ f_locked_by f = None /\ f_lease_until f = None /\
     (forall job j, f_transcription_job_id f = Some job -> q_jobs (queue s') !! job = Some j -> Jobs.is_active (Jobs.j_status j) = false)) /\
  (forall i g f, images s' !! i = Some g -> g_item_id g = b_item_id b ->
     files s' !! (ws, TrimSpace id, g_sequence g) = Some f -> f_status f = FCompleted) /\
  (forall e2, cancel_batch e2 ws id s' = Ok (tt, s')).
Proof.
  intros Hs Hb Hst Hr. destruct (cancel_run e ws id s s' b Hs Hb Hst Hr) as (s2 & s3 & s4 & [(b' & Hb'st & Hctx & Hit & Hs2 & Hb4) [Hsh Hgone] Hfiles Hall [q [-> Hu]] Hs']).
  assert (Hws : ws <> 0) by (unfold cancel_batch in Hr; tx_bind Hr as u s1 H1; by apply guard_Ok in H1 as [? _]).
  set (s1 := set_batches (<[_ := b']> _) _) in Hs2. change (batches (set_accounts q s4)) with (batches s4). change (files (set_accounts q s4)) with (files s4).
  split_and!.
  - by exists b'.
  - intros q' f Hf. pose proof (Hall q' f Hf) as Hor. pose proof (n_files _ _ _ _ Hs' (ws, TrimSpace id, q') f Hf) as [Hlease _ _ _ _].
    rewrite decide_False in Hlease by (destruct Hor; congruence). split_and!; [done|apply Hlease|apply Hlease|].
    intros job j Hj Hqj. destruct (canceled_from _ _ _ _ _ _ _ Hfiles Hf) as (f0 & Hf0 & _ & Hj0). destruct (sh_files _ _ Hsh _ _ Hf0) as (f2 & Hf2 & _ & Hj2).
    assert (Hj2' : f_transcription_job_id f2 = Some job) by (destruct Hj2; congruence). rewrite Hs2 in Hf2.
    eapply (canceled_job_inactive (db_now e) ws (TrimSpace id) s1 (ws, TrimSpace id, q') f2 job j Hf2); [done|exact Hj2'|].
    pose proof (sh_jobs _ _ Hsh job j) as Hjj. rewrite Hs2 in Hjj. apply Hjj. injection Hfiles as <-. exact Hqj.
  - intros i g f Hg Hi Hf. destruct (canceled_from _ _ _ _ _ _ _ Hfiles Hf) as (f0 & Hf0 & Hor & _).
    destruct (sh_files _ _ Hsh _ _ Hf0) as (f2 & Hf2 & (Hss & _) & _).
    assert (Hg3 : images s3 !! i = Some g) by (injection Hfiles as <-; exact Hg).
    destruct (decide (f_status f2 = FCompleted)) as [Ec|Ec]; [destruct Hor as [->|[Hop _]]; [congruence|congruence]|]. exfalso.
    assert (Hb2 : batches s2 !! (ws, TrimSpace id) = Some b') by (rewrite Hs2; simpl; by rewrite lookup_insert_eq).
    pose proof (incomplete_complete ws _ b' s2 i g f2 Hb2 (sh_images _ _ Hsh _ _ Hg3) ltac:(congruence) Hf2 Ec) as Hin.
    apply list_elem_of_fmap in Hin as (x & -> & Hx). rewrite Forall_forall in Hgone. by rewrite (Hgone x Hx) in Hg3.
  - intros e2. by apply (canceled_again e2 ws id _ b').
Qed.
End attempts.

(** ** Replays *)

Definition plausible (p : StartUploadBatchParams) : bool :=
  negb ((P_WorkspaceID p =? 0) || (P_UserID p =? 0) || bool_decide (TrimSpace (P_BatchID p) = ""%string)
     || bool_decide (TrimSpace (P_ItemID p) = ""%string) || (P_ContextID p =? 0) || bool_decide (P_Files p = [])).
Lemma start_plausible e p s : StartUploadBatch e p s = if plausible p then
  match run_tx (start_batch e p) s with
  | (Ok _, s') => (GetUploadBatch (P_WorkspaceID p) (P_BatchID p) s', s')
  | (Err Replayed, s') => (GetUploadBatch (P_WorkspaceID p) (P_BatchID p) s', s')
  | (Err err, s') => (Err err, s')
  end else (Err Required, s).
Proof. unfold StartUploadBatch, plausible. by destruct (_ || bool_decide (P_Files p = [])). Qed.

Lemma insert_batch_dup ws id item ctx r s b : batches s !! (ws, id) = Some b -> InsertUploadBatchManual ws id item ctx r s = Ok (tt, s).
Proof.
  intros Hb. unfold InsertUploadBatchManual. rewrite Hb. destruct (items s !! item); [|done]. destruct (ctx ≫= _); [|done]. by destruct (_ && _).
Qed.

Lemma start_batch_replayed e p s b u : P_WorkspaceID p <> 0 -> a_usages (acc s) !! P_WorkspaceID p = Some u ->
  (P_WorkspaceID p, P_UserID p) ∈ members s -> context_or_null s (P_WorkspaceID p) (Some (P_ContextID p)) = true ->
  P_ContextID p <= MaxInt64 -> items s !! P_ItemID p = None ->
  batches s !! (P_WorkspaceID p, TrimSpace (P_BatchID p)) = Some b -> b_creation_token b <> ("batch-" ++ uuid e)%string ->
  start_batch e p s = Err (if bool_decide (b_request_hash b = TrimSpace (P_RequestHash p)) then Replayed else RequestMismatch).
Proof.
  intros Hws Hu Hm Hc Hmax Hi Hb Htok. unfold start_batch. cbv zeta. cbv [mbind tx_bind].
  rewrite (guard_run _ _ _ Hu Hws). unfold LockWorkspaceMemberRole, lockContextSnapshotForWorkspace. 
  rewrite (proj2 (one_of_Ok _ s tt s)) by (by rewrite bool_decide_true).
  unfold context_or_null in Hc. destruct (contexts s !! P_ContextID p) as [c|] eqn:Ec; [|done]. simpl in Hc.
  cbv [mbind tx_bind]. rewrite (proj2 (one_of_Ok _ s c s)) by (rewrite Ec; simpl; by rewrite Hc).
  cbv [mret tx_ret]. unfold CreateItem. cbn [C_ID C_SourceType start_params]. rewrite Hi.
  rewrite (bool_decide_true ("upload"%string ∈ source_types)) by (right; left). cbn [negb]. set (s1 := set_items _ s).
  assert (Hk : exists ctx, nullableUint64Checked (P_ContextID p) = Ok ctx).
  { unfold nullableUint64Checked. destruct (P_ContextID p =? 0); [by eexists|]. destruct (Z.gtb_spec (P_ContextID p) MaxInt64); [lia|by eexists]. }
  destruct Hk as [ctx ->]. unfold tx_lift at 1. rewrite (insert_batch_dup _ _ _ _ _ s1 b) by exact Hb.
  unfold LockUploadBatchManual. rewrite (proj2 (one_of_Ok _ s1 b s1)) by (split; [exact Hb|done]).
  rewrite bool_decide_false by done. cbn [negb]. by case_bool_decide.
Qed.

Lemma declared_tables now ws batch seq l s s' : declare_files now ws batch seq l s = Ok (tt, s') -> exists m, s' = set_files m s.
Proof.
  revert seq s. induction l as [|i l IH]; intros seq s Hr; simpl in Hr.
  - injection Hr as <-. exists (files s). by destruct s.
  - tx_bind Hr as n s1 H1. destruct (negb (n =? 1)); [done|]. apply IH in Hr as [m ->]. unfold InsertUploadBatchFileManual in H1.
    destruct (batches s !! _); [|injection H1 as _ <-; by exists m]. destruct (_ <=? 0); [done|]. destruct (files s !! _); [done|].
    injection H1 as _ <-. by exists m.
Qed.

(** What a first start leaves of the tables a second one reads. *)
Lemma started_tables e p s x s1 : related s -> fresh_token e s -> (if plausible p then
    match run_tx (start_batch e p) s with
    | (Ok _, s') => (GetUploadBatch (P_WorkspaceID p) (P_BatchID p) s', s')
    | (Err Replayed, s') => (GetUploadBatch (P_WorkspaceID p) (P_BatchID p) s', s')
    | (Err err, s') => (Err err, s')
    end else (Err Required, s)) = (Ok x, s1) -> plausible p = true ->
  batches s !! (P_WorkspaceID p, TrimSpace (P_BatchID p)) = None ->
  exists row u, GetUploadBatch (P_WorkspaceID p) (P_BatchID p) s1 = Ok x /\ P_WorkspaceID p <> 0 /\
    (P_WorkspaceID p, P_UserID p) ∈ members s /\ context_or_null s (P_WorkspaceID p) (Some (P_ContextID p)) = true /\
    a_usages (acc s1) !! P_WorkspaceID p = Some u /\ members s1 = members s /\ contexts s1 = contexts s /\
    items s1 = <[P_ItemID p := created_item (start_params p)]> (items s) /\
    batches s1 !! (P_WorkspaceID p, TrimSpace (P_BatchID p)) = Some row /\ b_request_hash row = TrimSpace (P_RequestHash p) /\
    b_creation_token row = ("batch-" ++ uuid e)%string.
Proof.
  intros Hrel Hfresh Hr Hpl Hnone. rewrite Hpl in Hr. unfold run_tx in Hr. destruct (start_batch e p s) as [[[] s']|err] eqn:E.
  2:{ destruct err; try done. injection Hr as Hx <-. unfold GetUploadBatch in Hx. by rewrite Hnone in Hx. }
  injection Hr as Hx ->. destruct (start_run e p s s1 Hrel Hfresh E) as (row & t1 & t2 & t3 & []).
  destruct st_guard0 as [Hws [u Hu]], st_row0 as (_ & _ & Hh & Ht & _). apply declared_tables in st_declare0 as [m Hm].
  apply quota_Ok in st_add0 as (q & Hq & ->). apply QuotaInvariant.QuotaFacts.add_used_Ok in Hq as [-> _]; [|done].
  exists row. subst t3 t2 t1. eexists. split_and!; try done.
  - cbn [acc set_accounts set_acc a_usages]. rewrite QuotaInvariant.QuotaFacts.lookup_book by done. rewrite Z.eqb_refl, orb_true_r. simpl. by rewrite Hu.
  - simpl. by rewrite lookup_insert_eq.
Qed.

(** C39: A start that is retried under a new item returns the batch of the first start and changes nothing;
    with another request hash it is the mismatch error. *)
Theorem retried_start_returns_the_batch e1 p1 e2 p2 s x s1 : sound s -> fresh_token e1 s ->
  StartUploadBatch e1 p1 s = (Ok x, s1) -> batches s !! (P_WorkspaceID p1, TrimSpace (P_BatchID p1)) = None ->
  P_WorkspaceID p2 = P_WorkspaceID p1 -> P_UserID p2 = P_UserID p1 -> TrimSpace (P_BatchID p2) = TrimSpace (P_BatchID p1) ->
  P_ContextID p2 = P_ContextID p1 -> P_ContextID p1 <= MaxInt64 -> P_Files p2 <> [] -> TrimSpace (P_ItemID p2) <> ""%string ->
  P_ItemID p2 <> P_ItemID p1 -> items s !! P_ItemID p2 = None -> uuid e2 <> uuid e1 ->
  StartUploadBatch e2 p2 s1 =
    (if bool_decide (TrimSpace (P_RequestHash p1) = TrimSpace (P_RequestHash p2)) then Ok x else Err RequestMismatch, s1).
Proof.
  intros Hs Hfresh Hr Hnone Hw Huser Hid Hctx Hmax Hfiles Hit Hne Hfree Huuid.
  assert (Hpl : plausible p1 = true) by (rewrite start_plausible in Hr; by destruct (plausible p1)).
  rewrite start_plausible in Hr. destruct (started_tables e1 p1 s x s1 (n_related _ _ _ _ Hs) Hfresh Hr Hpl Hnone) as (row & u & Hx & Hws & Hmem & Hc & Hu & Hm & Hcx & Hi & Hb & Hh & Ht).
  rewrite start_plausible.
  assert (plausible p2 = true) as ->.
  { unfold plausible in *. rewrite Hw, Huser, Hid, Hctx. rewrite negb_true_iff in *. repeat (apply orb_false_iff in Hpl as [Hpl ?]).
    rewrite !(bool_decide_false (_ = ""%string)) by (try done; by rewrite <- (bool_decide_eq_false (_ = _))).
    rewrite bool_decide_false by done. repeat (apply orb_false_iff; split); done. }
  unfold run_tx. rewrite (start_batch_replayed e2 p2 s1 row u).
  - rewrite Hh. case_bool_decide; [|done]. f_equal. unfold GetUploadBatch in *. by rewrite Hw, Hid.
  - by rewrite Hw.
  - by rewrite Hw.
  - by rewrite Hw, Huser, Hm.
  - unfold context_or_null in *. by rewrite Hw, Hctx, Hcx.
  - by rewrite Hctx.
  - rewrite Hi, lookup_insert_ne by congruence. done.
  - by rewrite Hw, Hid.
  - rewrite Ht. intros E. apply (inj (String.append "batch-")) in E. congruence.
Qed.
End UploadOutcomes.

(** * Upload batches: one library *)

Module UploadExamples.
Import GoStr Json JobStore JobInvariant MediaFragment Presentation UploadRef Quota QuotaStore QuotaOps QuotaFacts QuotaInvariant ItemDb ItemGraph ItemOps ItemAudit ItemPurge ItemMeasure UploadBatches UploadOps ItemSound ItemKeeps UploadKeeps UploadHistory UploadTheorems UploadOutcomes.
#[local] Open Scope Z_scope.

#[local] Instance one_host : UrlParser := fun raw =>
  Some {| Scheme := "https"; Host := "library.example"; HasUser := false; Path := raw; RawQuery := ""; Fragment := "" |}.

Definition clock (t : Z) (id : string) : env :=
  {| db_now := t; go_now := t; locked_rows := ∅; uuid := id; hostname := None |}.

(** ** A workspace with one member, a global context and a reservation *)

Definition booked_row : reservation_row :=
  {| v_workspace_id := 1; v_reserved_bytes := 0; v_reserved_database_bytes := 0; v_reserved_items := 1; v_reserved_images := 2;
     v_resource_key := None; v_expires_at := 9000 |}.
Definition booked : StorageQuotaRequest := {| Bytes := 0; DurableBytes := 0; Items := 1; Images := 2 |}.
Definition no_kids : children :=
  {| review_sessions := ∅; review_tokens := ∅; requests := ∅; provider_audits := ∅; current_runs := ∅; ocr_runs := ∅;
     mirrors := ∅; tombstones := ∅; published := ∅; index := ∅; ground_truth := ∅; pages := ∅ |}.
Definition library0 : idb :=
  {| users := {[ 7 ]}; tenants := {[ 1 ]}; members := {[ (1, 7) ]};
     contexts := {[ 5 := {| c_workspace_id := None; c_user_id := None; c_fields := [] |} ]};
     acc := {| a_usages := <[0 := account no_request booked]> {[ 1 := account no_request booked ]};
               a_reservations := {[ "r1" := booked_row ]}; a_cleanups := ∅; a_next_cleanup_id := 1 |};
     queue := {| q_jobs := ∅; q_attempts := ∅; q_checkpoints := ∅; q_next_job_id := 1 |}; kids := no_kids;
     items := ∅; images := ∅; next_image_id := 7; batches := ∅; files := ∅ |}.

Lemma two_rows (P : Z -> StorageQuotaUsage -> Prop) : P 0 (account no_request booked) -> P 1 (account no_request booked) ->
  forall w u, a_usages (acc library0) !! w = Some u -> P w u.
Proof. intros H0 H1 w u. simpl. rewrite lookup_insert_Some, lookup_singleton_Some. by intros [[<- <-]|[_ [<- <-]]]. Qed.

Lemma library0_accounts : consistent (qview library0).
Proof.
  split.
  - vm_compute. reflexivity.
  - intros ws u Hws Hu. revert Hws. apply (two_rows (fun ws u => ws <> 0 -> reserved u = reserved_by (qview library0) ws)); [done| |done]. intros _. vm_compute. reflexivity.
  - intros id v. simpl. rewrite lookup_singleton_Some. intros [_ <-]. split; [|eexists; vm_compute; reflexivity].
    unfold reservation_ok, in_range, MaxUint64, MaxUint32. simpl. lia.
  - intros k u. apply (two_rows (fun k u => columns u = true)); vm_compute; reflexivity.
Qed.

Lemma library0_sound : sound library0.
Proof.
  split; try done.
  - apply audit_silent. vm_compute. reflexivity.
  - intros w u. apply (two_rows (fun w _ => w = 0 \/ w ∈ tenants library0)); [by left|right; set_solver].
  - apply library0_accounts.
  - split; try done. intros id line [x Hx]. done.
  - intros w u _. apply (two_rows (fun w u => with_Bytes 0 (used u) = amount_add (stored library0 w) (owes 0 no_request w))); vm_compute; reflexivity.
Qed.

(** ** One batch of one file *)

Definition sha : string := "0123456789abcdef0123456789abcdef0123456789abcdef0123456789abcdef".
Definition params (item hash : string) : StartUploadBatchParams :=
  {| P_WorkspaceID := 1; P_UserID := 7; P_BatchID := "b1"; P_ItemID := item; P_Name := "Letters"; P_Metadata := "";
     P_ExternalReferenceID := ""; P_CallerIdempotencyKey := ""; P_ContextID := 5; P_RequestHash := hash;
     P_Files := [{| I_Filename := "letter.png"; I_Size := 40; I_ContentSHA256 := sha |}] |}.
Definition reservation : StorageQuotaReservation :=
  {| R_ID := "r1"; R_WorkspaceID := 1; R_Request := booked; R_ExpiresAt := 9000 |}.

Definition s_started : idb := (StartUploadBatch (clock 1000 "u1") (params "i1" "h1") library0).2.
Definition s_claimed : idb := (ClaimUploadBatchFile (clock 1010 "u2") 1 "b1" 1 40 sha s_started).2.
Definition ensure (owner : string) : itx Z :=
  EnsureUploadBatchImage (clock 1020 "u3") 1 reservation "b1" 1 owner "https://library.example/iiif/letter.png" 0 600 800
    "https://library.example".
Definition s_imaged : idb := after (ensure "upload-u2") s_claimed.
Definition s_canceled : idb := (CancelUploadBatch (clock 1030 "u4") 1 "b1" s_imaged).2.
Definition s_deleted : idb := after (DeleteForWorkspace (clock 1040 "u5") "i1" 1) s_imaged.

Definition ok {A} (r : result store_err A) : bool := match r with Ok _ => true | Err _ => false end.
Example start_runs : ok (StartUploadBatch (clock 1000 "u1") (params "i1" "h1") library0).1 = true.
Proof. vm_compute. reflexivity. Qed.
Example claim_runs : match claim_file (clock 1010 "u2") 1 "b1" 1 40 sha s_started with Ok (Claimed o, _) => o | _ => ""%string end = "upload-u2"%string.
Proof. vm_compute. reflexivity. Qed.
Example cancel_runs : ok (CancelUploadBatch (clock 1030 "u4") 1 "b1" s_imaged).1 = true.
Proof. vm_compute. reflexivity. Qed.
Example delete_runs : ok (DeleteForWorkspace (clock 1040 "u5") "i1" 1 s_imaged) = true.
Proof. vm_compute. reflexivity. Qed.
Example counts : (fun s => option_map used (a_usages (acc s) !! 1)) <$> [s_started; s_imaged; s_canceled; s_deleted] =
  [Some {| Bytes := 0; DurableBytes := 0; Items := 1; Images := 0 |}; Some {| Bytes := 0; DurableBytes := 0; Items := 1; Images := 1 |};
   Some {| Bytes := 0; DurableBytes := 0; Items := 1; Images := 0 |}; Some no_request].
Proof. vm_compute. reflexivity. Qed.

(** ** The theorems at this library *)

Lemma run_after {A} (m : itx A) s a : match m s with Ok (x, _) => Some x | Err _ => None end = Some a -> m s = Ok (a, after m s).
Proof. unfold run_tx. destruct (m s) as [[x s']|e]; [by intros [= ->]|done]. Qed.
Ltac ran m s a := refine (run_after m s a _); vm_compute; reflexivity.

Lemma history_started : rtc move library0 s_started.
Proof. apply rtc_once. refine (mv_start library0 (clock 1000 "u1") (params "i1" "h1") _ _); [vm_compute; reflexivity|]. intros k b Hb. done. Qed.
Lemma history_imaged : rtc move library0 s_imaged.
Proof.
  etrans; [apply history_started|]. apply (rtc_l _ s_started s_claimed).
  - refine (mv_claim s_started (clock 1010 "u2") 1 "b1" 1 40 sha _). vm_compute. reflexivity.
  - apply rtc_once. unfold s_imaged, ensure.
    apply (mv_ensure s_claimed (clock 1020 "u3") 1 reservation "b1" 1 "upload-u2" "https://library.example/iiif/letter.png" 0 600 800
      "https://library.example"). unfold MaxUint64. lia.
Qed.
Lemma started_sound : sound s_started.
Proof. exact (history_sound library0 s_started library0_sound history_started). Qed.
Lemma imaged_sound : sound s_imaged.
Proof. exact (history_sound library0 s_imaged library0_sound history_imaged). Qed.

Lemma batches_follow_their_files_witness : exists f, files s_imaged !! (1, "b1"%string, 1) = Some f /\
  f_status f = FProcessing /\ is_Some (f_locked_by f).
Proof.
  eexists. split; [vm_compute; reflexivity|]. split; [reflexivity|].
  destruct (batches_follow_their_files library0 s_imaged library0_sound history_imaged) as [_ Hf].
  eapply (proj1 (Hf (1, "b1"%string, 1) _ _)). reflexivity. Unshelve. vm_compute. reflexivity.
Defined.

Lemma deletions_remove_the_graph_witness : exists q, s_deleted = set_accounts q (without_item "i1" s_imaged).
Proof.
  apply (deletions_remove_the_graph (clock 1040 "u5") "i1" 1 0 s_imaged s_deleted imaged_sound).
  ran (DeleteForWorkspace (clock 1040 "u5") "i1" 1) s_imaged tt.
Defined.

Lemma live_attempt_is_exclusive_witness : exists s',
  claim_file (clock 1010 "u2") 1 "b1" 1 40 sha s_started = Ok (Claimed "upload-u2", s') /\
  forall size2 sha2 x, claim_file (clock 2000 "u6") 1 "b1" 1 size2 sha2 s' <> Ok x.
Proof.
  exists (after (claim_file (clock 1010 "u2") 1 "b1" 1 40 sha) s_started).
  assert (Hr : claim_file (clock 1010 "u2") 1 "b1" 1 40 sha s_started = Ok (Claimed "upload-u2", after (claim_file (clock 1010 "u2") 1 "b1" 1 40 sha) s_started))
    by ran (claim_file (clock 1010 "u2") 1 "b1" 1 40 sha) s_started (Claimed "upload-u2").
  split; [exact Hr|]. intros size2 sha2 x.
  apply (live_attempt_is_exclusive (clock 1010 "u2") 1 "b1" 1 40 sha s_started "upload-u2" _ ltac:(vm_compute; reflexivity) started_sound Hr).
  reflexivity.
Defined.

Lemma cancel_closes_the_batch_witness : exists s',
  cancel_batch (clock 1030 "u4") 1 "b1" s_imaged = Ok (tt, s') /\ images s' = ∅ /\
  cancel_batch (clock 1031 "u5") 1 "b1" s' = Ok (tt, s').
Proof.
  exists (after (cancel_batch (clock 1030 "u4") 1 "b1") s_imaged).
  assert (Hr : cancel_batch (clock 1030 "u4") 1 "b1" s_imaged = Ok (tt, after (cancel_batch (clock 1030 "u4") 1 "b1") s_imaged))
    by ran (cancel_batch (clock 1030 "u4") 1 "b1") s_imaged tt.
  split; [exact Hr|]. split; [vm_compute; reflexivity|].
  eapply (cancel_closes_the_batch (clock 1030 "u4") 1 "b1" s_imaged _ _ imaged_sound); [vm_compute; reflexivity|reflexivity|exact Hr].
Defined.

Lemma retried_start_returns_the_batch_witness : exists x,
  StartUploadBatch (clock 1000 "u1") (params "i1" "h1") library0 = (Ok x, s_started) /\
  StartUploadBatch (clock 1001 "u9") (params "i2" "h1") s_started = (Ok x, s_started).
Proof.
  destruct (StartUploadBatch (clock 1000 "u1") (params "i1" "h1") library0) as [[x|err] s1] eqn:E.
  2:{ exfalso. revert E. generalize start_runs. destruct (StartUploadBatch _ _ _) as [r s2]. intros H1 H2. injection H2 as -> _. discriminate H1. }
  assert (s1 = s_started) as -> by (unfold s_started; by rewrite E).
  exists x. split; [reflexivity|].
  rewrite (retried_start_returns_the_batch (clock 1000 "u1") (params "i1" "h1") (clock 1001 "u9") (params "i2" "h1") library0 x s_started library0_sound
    ltac:(by intros k b Hb) E eq_refl eq_refl eq_refl eq_refl eq_refl); [reflexivity|..].
  all: first [discriminate|vm_compute; discriminate|reflexivity].
Defined.
End UploadExamples.
