(* ===== verification/PageIndex.v ===== *)
(** * The annotation index: the raw text of the items of a page

    internal/store/annotations.go indexes every annotation of a page under the bytes it
    has in the page, as [json.RawMessage] keeps them.  Module [RawText]: those bytes, and
    that they decode to what the whole page decodes to.  Module [PageIndex]:
    [annotationIndexEntries]. *)

From Stdlib Require Import ZArith NArith Lia Ascii String.
From stdpp Require Import base gmap strings list.
From S2P Require Import Prelude GoStrings Json JsonParse MediaFragment Presentation PageNormal PageTheorems.

Module RawText.
Import GoStr Json JsonParse Presentation.
#[local] Open Scope string_scope.

(** ** Raw messages *)

(** The text of [s] up to [r], a suffix of it. *)
Definition consumed (s r : string) : string := substring 0 (String.length s - String.length r) s.

(** The elements of an array, after its bracket, as raw messages. *)
Fixpoint raw_elements (fuel : nat) (s : string) {struct fuel} : option (list string * string) :=
  match fuel with
  | O => None
  | S n =>
      '(_, r) ← parse_value n s;
      match expect 44 (skip_ws r) with
      | Some r' => '(l, r'') ← raw_elements n r'; Some (consumed (skip_ws s) r :: l, r'')
      | None => r' ← expect 93 (skip_ws r); Some ([consumed (skip_ws s) r], r')
      end
  end.

(** The members of an object, after its brace, with their values as raw messages. *)
Fixpoint raw_members (fuel : nat) (s : string) {struct fuel} : option (list (string * string) * string) :=
  match fuel with
  | O => None
  | S n =>
      q ← expect 34 (skip_ws s);
      '(k, r1) ← unquote q;
      r2 ← expect 58 (skip_ws r1);
      '(_, r3) ← parse_value n r2;
      match expect 44 (skip_ws r3) with
      | Some r4 => '(ms, r5) ← raw_members n r4; Some ((k, consumed (skip_ws r2) r3) :: ms, r5)
      | None => r4 ← expect 125 (skip_ws r3); Some ([(k, consumed (skip_ws r2) r3)], r4)
      end
  end.

(** The text of an array, or of null, as a slice of raw messages. *)
Definition raw_array (t : string) : option (list string) :=
  if bool_decide (t = "null") then Some [] else
  r ← expect 91 t;
  match expect 93 (skip_ws r) with
  | Some _ => Some []
  | None => fst <$> raw_elements (String.length t) r
  end.

(** [json.Unmarshal] into a struct with one field [Items []json.RawMessage]. *)
Definition unmarshal_raw_items (raw : string) : option (list string) :=
  '(v, rest) ← parse_value (S (String.length raw)) raw;
  if negb (bool_decide (skip_ws rest = "")) then None else
  match v with
  | JNull => Some []
  | JObject _ =>
      r ← expect 123 (skip_ws raw);
      members ← match expect 125 (skip_ws r) with
                | Some _ => Some []
                | None => fst <$> raw_members (String.length raw) r
                end;
      foldl (fun acc t => _ ← acc; raw_array t) (Some [])
        (map snd (filter (fun kt => EqualFold kt.1 "items" = true) members))
  | _ => None
  end.

(** ** The text of a value decodes by itself *)

Lemma skip_ws_local s c r : skip_ws s = String c r ->
  is_ws c = false /\ exists w, s = w ++ String c r /\ forall t, skip_ws (w ++ String c t) = String c t.
Proof.
  induction s as [|x s IH]; [done|]. cbn [skip_ws]. destruct (is_ws x) eqn:Ex.
  - intros H. destruct (IH H) as (Hc & w & -> & Hw). split; [done|]. exists (String x w).
    split; [by rewrite sapp_cons|]. intros t. rewrite sapp_cons. cbn [skip_ws]. by rewrite Ex.
  - intros [= -> ->]. split; [done|]. exists "". split; [done|]. intros t. rewrite sapp_nil_l. cbn [skip_ws]. by rewrite Ex.
Qed.

Lemma expect_skip n s r : expect n (skip_ws s) = Some r ->
  exists c w, byte_is c n = true /\ s = w ++ String c r /\ forall t, skip_ws (w ++ String c t) = String c t.
Proof.
  intros H. destruct (skip_ws s) as [|c s'] eqn:E; [done|]. cbn in H.
  destruct (byte_is c n) eqn:Hc; [|done]. injection H as ->.
  apply skip_ws_local in E as (_ & w & -> & Hw). by exists c, w.
Qed.

(** *** Strings: the bytes an escape or a UTF-8 sequence looks at do not go past the quote *)

Definition rune_bytes (c : ascii) (r : string) : option (string * string) :=
  match r with
  | EmptyString => None
  | String c2 r2 =>
      if utf8_2 c c2 then Some (String c (String c2 ""), r2) else
      match r2 with
      | EmptyString => None
      | String c3 r3 =>
          if utf8_3 c c2 c3 then Some (String c (String c2 (String c3 "")), r3) else
          match r3 with
          | EmptyString => None
          | String c4 r4 =>
              if utf8_4 c c2 c3 c4 then Some (String c (String c2 (String c3 (String c4 ""))), r4) else None
          end
      end
  end.

Lemma unquote_rune c r : (N_of_ascii c <? 128)%N = false ->
  unquote (String c r) = match rune_bytes c r with
                         | Some (x, r') => prepend x (unquote r')
                         | None => prepend replacement (unquote r)
                         end.
Proof.
  intros H. rewrite unquote_high by done. unfold rune_bytes.
  destruct r as [|c2 r2]; [done|]. destruct (utf8_2 c c2); [done|].
  destruct r2 as [|c3 r3]; [done|]. destruct (utf8_3 c c2 c3); [done|].
  destruct r3 as [|c4 r4]; [done|]. by destruct (utf8_4 c c2 c3 c4).
Qed.

Definition low_surrogate (rr : N) (r : string) : option (string * string) :=
  match r with
  | String x (String y (String a (String b (String c (String d r'))))) =>
      match (if byte_is x 92 && byte_is y 117 then u4 a b c d else None) with
      | Some rr1 => match decode_surrogates rr rr1 with Some dec => Some (encode_rune dec, r') | None => None end
      | None => None
      end
  | _ => None
  end.

Lemma unquote_surrogate a b c d r rr : u4 a b c d = Some rr -> is_surrogate rr = true ->
  unquote (String "\" (String "u" (String a (String b (String c (String d r)))))) =
    match low_surrogate rr r with
    | Some (x, r') => prepend x (unquote r')
    | None => prepend replacement (unquote r)
    end.
Proof.
  intros Hu Hs. cbn [unquote]. change (byte_is "\" 34) with false. change (byte_is "\" 92) with true.
  change (byte_is "u" 117) with true. cbn iota. rewrite Hu, Hs. unfold low_surrogate.
  destruct r as [|x r]; [done|]. destruct r as [|y r]; [done|]. destruct r as [|a1 r]; [done|].
  destruct r as [|b1 r]; [done|]. destruct r as [|c1 r]; [done|]. destruct r as [|d1 r]; [done|].
  destruct (if byte_is x 92 && byte_is y 117 then u4 a1 b1 c1 d1 else None); [|done]. by destruct (decode_surrogates _ _).
Qed.

Lemma unquote_rune_escape a b c d r :
  unquote (String "\" (String "u" (String a (String b (String c (String d r)))))) =
    match u4 a b c d with
    | None => None
    | Some rr => if is_surrogate rr then
        match low_surrogate rr r with
        | Some (x, r') => prepend x (unquote r')
        | None => prepend replacement (unquote r)
        end else prepend (encode_rune rr) (unquote r)
    end.
Proof.
  destruct (u4 a b c d) as [rr|] eqn:Eu; [destruct (is_surrogate rr) eqn:Es; [by apply unquote_surrogate|]|];
  cbn [unquote]; change (byte_is "\" 34) with false; change (byte_is "\" 92) with true;
  change (byte_is "u" 117) with true; cbn iota; rewrite Eu; [by rewrite Es|done].
Qed.

Lemma unquote_simple_escape e u : byte_is e 117 = false ->
  unquote (String "\" (String e u)) =
    match simple_escape e with Some b => prepend (String b "") (unquote u) | None => None end.
Proof.
  intros H. cbn [unquote]. change (byte_is "\" 34) with false. change (byte_is "\" 92) with true.
  cbn iota. by rewrite H.
Qed.

Lemma unquote_plain c u : byte_is c 34 = false -> byte_is c 92 = false -> (N_of_ascii c <? 128)%N = true ->
  unquote (String c u) = if (N_of_ascii c <? 32)%N then None else prepend (String c "") (unquote u).
Proof. intros H1 H2 H3. cbn [unquote]. by rewrite H1, H2, H3. Qed.

(** A look at the bytes before a quote gives the same whatever follows the quote. *)
Definition stays (f : string -> option (string * string)) : Prop := forall p,
  (forall t, f (p ++ String quote t) = None) \/
  exists x p', (String.length p' <= String.length p)%nat /\ forall t, f (p ++ String quote t) = Some (x, p' ++ String quote t).

Lemma utf8_quote c c2 c3 c4 : utf8_2 c quote = false /\ utf8_3 c quote c3 = false /\ utf8_3 c c2 quote = false /\
  utf8_4 c quote c3 c4 = false /\ utf8_4 c c2 quote c4 = false /\ utf8_4 c c2 c3 quote = false.
Proof.
  split_and!; apply not_true_is_false; intros H.
  - by apply utf8_2_cont in H as [_ ?].
  - by apply utf8_3_cont in H as [? _].
  - by apply utf8_3_cont in H as [_ ?].
  - apply utf8_4_cont in H. naive_solver.
  - apply utf8_4_cont in H. naive_solver.
  - apply utf8_4_cont in H. naive_solver.
Qed.

Lemma rune_bytes_stays c : stays (rune_bytes c).
Proof.
  intros p. assert (Hq := utf8_quote c).
  assert (H2 : utf8_2 c quote = false) by apply (Hq c c c).
  assert (H3 : forall a b, utf8_3 c quote a = false /\ utf8_3 c b quote = false) by (intros a b; split; apply (Hq b a a)).
  assert (H4 : forall a b d, utf8_4 c quote a b = false /\ utf8_4 c d quote b = false /\ utf8_4 c d a quote = false)
    by (intros a b d; split_and!; apply (Hq d a b)).
  destruct p as [|c2 p].
  { left. intros t. rewrite sapp_nil_l. unfold rune_bytes. rewrite H2. destruct t as [|c3 t]; [done|].
    rewrite (proj1 (H3 c3 c3)). destruct t as [|c4 t]; [done|]. by rewrite (proj1 (H4 c3 c4 c4)). }
  destruct (utf8_2 c c2) eqn:E2.
  { right. exists (String c (String c2 "")), p. split; [cbn; lia|]. intros t. rewrite sapp_cons. cbn. by rewrite E2. }
  destruct p as [|c3 p].
  { left. intros t. rewrite !sapp_cons, sapp_nil_l. cbn. rewrite E2, (proj2 (H3 c2 c2)).
    destruct t as [|c4 t]; [done|]. by rewrite (proj1 (proj2 (H4 c2 c4 c2))). }
  destruct (utf8_3 c c2 c3) eqn:E3.
  { right. exists (String c (String c2 (String c3 ""))), p. split; [cbn; lia|]. intros t. rewrite !sapp_cons. cbn. by rewrite E2, E3. }
  destruct p as [|c4 p].
  { left. intros t. rewrite !sapp_cons, sapp_nil_l. cbn. by rewrite E2, E3, (proj2 (proj2 (H4 c3 c3 c2))). }
  destruct (utf8_4 c c2 c3 c4) eqn:E4.
  - right. exists (String c (String c2 (String c3 (String c4 "")))), p. split; [cbn; lia|].
    intros t. rewrite !sapp_cons. cbn. by rewrite E2, E3, E4.
  - left. intros t. rewrite !sapp_cons. cbn. by rewrite E2, E3, E4.
Qed.

Lemma u4_quote a b c d : u4 quote b c d = None /\ u4 a quote c d = None /\ u4 a b quote d = None /\ u4 a b c quote = None.
Proof.
  unfold u4. change (hex_value quote) with (@None N).
  destruct (hex_value a), (hex_value b), (hex_value c), (hex_value d); done.
Qed.

Ltac look_past_quote Q1 Q2 Q3 Q4 :=
  try done; rewrite ?Q1, ?Q2, ?Q3, ?Q4; change (byte_is quote 92) with false; change (byte_is quote 117) with false;
  rewrite ?andb_false_r; cbn [andb]; by try destruct (_ && _).

Lemma low_surrogate_stays rr : stays (low_surrogate rr).
Proof.
  intros p.
  assert (Q1 : forall b c d, u4 quote b c d = None) by (intros b c d; apply (u4_quote b b c d)).
  assert (Q2 : forall a c d, u4 a quote c d = None) by (intros a c d; apply (u4_quote a a c d)).
  assert (Q3 : forall a b d, u4 a b quote d = None) by (intros a b d; apply (u4_quote a b a d)).
  assert (Q4 : forall a b c, u4 a b c quote = None) by (intros a b c; apply (u4_quote a b c a)).
  do 6 (destruct p as [|? p];
    [left; intros t; rewrite ?sapp_cons, sapp_nil_l; unfold low_surrogate;
     do 5 (destruct t as [|? t]; [look_past_quote Q1 Q2 Q3 Q4|]); look_past_quote Q1 Q2 Q3 Q4|]).
  destruct (low_surrogate rr (String a (String a0 (String a1 (String a2 (String a3 (String a4 p))))))) as [[x r]|] eqn:E.
  - right. exists x, p. split; [cbn; lia|]. intros t. rewrite !sapp_cons. unfold low_surrogate in *.
    destruct (byte_is a 92 && byte_is a0 117); [|done]. destruct (u4 a1 a2 a3 a4); [|done].
    destruct (decode_surrogates _ _); [|done]. by injection E as <- <-.
  - left. intros t. rewrite !sapp_cons. unfold low_surrogate in *.
    destruct (byte_is a 92 && byte_is a0 117); [|done]. destruct (u4 a1 a2 a3 a4); [|done].
    by destruct (decode_surrogates _ _).
Qed.

Definition looks (f : string -> option (string * string)) : Prop :=
  forall u x r, f u = Some (x, r) -> exists w, u = w ++ r.

Lemma rune_bytes_looks c : looks (rune_bytes c).
Proof.
  intros u x r. unfold rune_bytes. destruct u as [|c2 u]; [done|].
  destruct (utf8_2 c c2); [intros [= _ <-]; by exists (String c2 "")|]. destruct u as [|c3 u]; [done|].
  destruct (utf8_3 c c2 c3); [intros [= _ <-]; by exists (String c2 (String c3 ""))|]. destruct u as [|c4 u]; [done|].
  destruct (utf8_4 c c2 c3 c4); [intros [= _ <-]; by exists (String c2 (String c3 (String c4 "")))|done].
Qed.

Lemma low_surrogate_looks rr : looks (low_surrogate rr).
Proof.
  intros u x r. unfold low_surrogate. do 6 (destruct u as [|? u]; [done|]).
  destruct (byte_is a 92 && byte_is a0 117); [|done]. destruct (u4 a1 a2 a3 a4); [|done].
  destruct (decode_surrogates _ _); [|done]. intros [= _ <-].
  by exists (String a (String a0 (String a1 (String a2 (String a3 (String a4 "")))))).
Qed.

(** A string ends at its quote and does not depend on what follows. *)
Definition ends_at_quote (s v r : string) : Prop :=
  exists p, s = p ++ String quote r /\ forall t, unquote (p ++ String quote t) = Some (v, t).

Lemma ends_after q s v v' r : (forall u, unquote (q ++ u) = prepend v' (unquote u)) ->
  ends_at_quote s v r -> ends_at_quote (q ++ s) (v' ++ v) r.
Proof.
  intros Hq (p & -> & Hp). exists (q ++ p). rewrite sapp_assoc. split; [done|].
  intros t. by rewrite sapp_assoc, Hq, Hp.
Qed.

Lemma prepend_inv x o v r : prepend x o = Some (v, r) -> exists v', o = Some (v', r) /\ v = x ++ v'.
Proof. destruct o as [[v' r']|]; [|done]. intros [= <- <-]. by exists v'. Qed.

Lemma ends_looking f q u v r : stays f -> looks f ->
  (forall u, unquote (q ++ u) = match f u with
    | Some (x, r') => prepend x (unquote r') | None => prepend replacement (unquote u) end) ->
  unquote (q ++ u) = Some (v, r) ->
  (forall s v', (String.length s <= String.length u)%nat -> unquote s = Some (v', r) -> ends_at_quote s v' r) ->
  ends_at_quote (q ++ u) v r.
Proof.
  intros Hs Hl Hq H IH. rewrite Hq in H. destruct (f u) as [[x r']|] eqn:E.
  - destruct (Hl _ _ _ E) as [w ->]. apply prepend_inv in H as (v' & H & ->).
    destruct (IH r' v') as (p & -> & Hp); [rewrite slen_app; lia|done|].
    exists (q ++ w ++ p). rewrite !sapp_assoc. split; [done|]. intros t. rewrite !sapp_assoc, Hq.
    destruct (Hs (w ++ p)) as [Hn|(x' & p' & _ & Hf)].
    + specialize (Hn r). rewrite sapp_assoc in Hn. congruence.
    + pose proof (Hf r) as Hr. rewrite sapp_assoc, E in Hr. injection Hr as -> Hr.
      apply PageIdentity.sapp_inj_r in Hr as ->. specialize (Hf t). rewrite sapp_assoc in Hf. by rewrite Hf, Hp.
  - apply prepend_inv in H as (v' & H & ->). destruct (IH u v') as (p & -> & Hp); [lia|done|].
    exists (q ++ p). rewrite sapp_assoc. split; [done|]. intros t. rewrite sapp_assoc, Hq.
    destruct (Hs p) as [Hn|(x' & p' & _ & Hf)]; [by rewrite Hn, Hp|]. by rewrite Hf in E.
Qed.

Lemma byte_is_char c n : byte_is c n = true -> forall m, byte_is c m = (n =? m)%N.
Proof.
  intros H%byte_is_N m. unfold byte_is. rewrite H. destruct (N.eqb_spec n m); [by apply bool_decide_eq_true|by apply bool_decide_eq_false].
Qed.

Lemma unquote_local s v r : unquote s = Some (v, r) -> ends_at_quote s v r.
Proof.
  remember (String.length s) as n eqn:Hn. revert s v r Hn.
  induction (lt_wf n) as [n _ IH]. intros s v r ->.
  assert (IH' : forall s' v', (String.length s' < String.length s)%nat -> unquote s' = Some (v', r) ->
    ends_at_quote s' v' r) by eauto. clear IH. intros H.
  destruct s as [|c s]; [done|]. cbn [String.length] in IH'.
  destruct (byte_is c 34) eqn:E34.
  { cbn [unquote] in H. rewrite E34 in H. injection H as <- <-. apply byte_is_eq in E34 as ->.
    exists "". by split. }
  destruct (byte_is c 92) eqn:E92.
  - apply byte_is_eq in E92 as ->. change (ascii_of_N 92) with "\"%char in *.
    destruct s as [|e s]; [done|]. destruct (byte_is e 117) eqn:E117.
    + apply byte_is_eq in E117 as ->. change (ascii_of_N 117) with "u"%char in *.
      do 4 (destruct s as [|? s]; [done|]). rewrite unquote_rune_escape in H.
      destruct (u4 a a0 a1 a2) as [rr|] eqn:Eu; [|done].
      set (q := String "\" (String "u" (String a (String a0 (String a1 (String a2 "")))))).
      assert (Hq : forall u, unquote (q ++ u) = _) by (intros u; apply unquote_rune_escape). rewrite Eu in Hq.
      change (ends_at_quote (q ++ s) v r). destruct (is_surrogate rr) eqn:Es.
      * eapply ends_looking; [apply (low_surrogate_stays rr)|apply low_surrogate_looks|exact Hq|by rewrite Hq|].
        intros s' v' Hl. apply IH'. cbn [String.length]. lia.
      * apply prepend_inv in H as (v' & H & ->). apply ends_after; [done|].
        apply IH'; [cbn [String.length]; lia|done].
    + rewrite unquote_simple_escape in H by done. destruct (simple_escape e) as [b|] eqn:Eb; [|done].
      assert (Hq : forall u, unquote (String "\" (String e "") ++ u) = prepend (String b "") (unquote u)).
      { intros u. rewrite !sapp_cons, sapp_nil_l, unquote_simple_escape by done. by rewrite Eb. }
      change (ends_at_quote (String "\" (String e "") ++ s) v r). apply prepend_inv in H as (v' & H & ->). apply ends_after; [done|].
      apply IH'; [cbn [String.length]; lia|done].
  - change (ends_at_quote (String c "" ++ s) v r). change (unquote (String c "" ++ s) = Some (v, r)) in H.
    destruct (N_of_ascii c <? 128)%N eqn:E128.
    + assert (Hq : forall u, unquote (String c "" ++ u) = _) by (intros u; by apply unquote_plain).
      rewrite Hq in H. destruct (N_of_ascii c <? 32)%N; [done|]. apply prepend_inv in H as (v' & H & ->). apply ends_after; [done|]. apply IH'; [lia|done].
    + eapply ends_looking; [apply (rune_bytes_stays c)|apply rune_bytes_looks| |done|].
      * intros u. by apply unquote_rune.
      * intros s' v' Hl. apply IH'. lia.
Qed.

(** *** Values *)

Definition value_local (s : string) (v : json) (r : string) : Prop :=
  exists p, s = p ++ r /\ (0 < String.length p)%nat /\ (forall t, expect 93 (skip_ws (p ++ t)) = None) /\
    forall m t, (String.length p <= m)%nat -> stops t -> parse_value m (p ++ t) = Some (v, t).
Definition members_local (s : string) (acc : obj) (v : json) (r : string) : Prop :=
  exists p, s = p ++ r /\ (forall t, expect 125 (skip_ws (p ++ t)) = None) /\
    forall m t, (String.length p <= m)%nat -> parse_members m (p ++ t) acc = Some (v, t).
Definition elements_local (s : string) (acc : list json) (v : json) (r : string) : Prop :=
  exists p, s = p ++ r /\ (forall t, expect 93 (skip_ws (p ++ t)) = None) /\
    forall m t, (String.length p <= m)%nat -> parse_elements m (p ++ t) acc = Some (v, t).

Lemma byte_is_not_ws c n : byte_is c n = true -> n ∈ [123; 91; 34; 44; 58; 93; 125]%N -> is_ws c = false.
Proof. intros H Hn. unfold is_ws. rewrite !(byte_is_char c n H). set_unfold. naive_solver. Qed.

Lemma expect_stops n s r : expect n (skip_ws s) = Some r -> n ∈ [44; 93; 125]%N -> stops s.
Proof.
  intros H Hn. destruct s as [|c s]; [done|]. cbn [stops]. cbn [skip_ws] in H.
  destruct (is_ws c); [by rewrite !orb_true_r|]. cbn in H. destruct (byte_is c n) eqn:E; [|done].
  rewrite !(byte_is_char c n E). set_unfold. naive_solver.
Qed.

Lemma expect_at c n m t : byte_is c n = true -> expect m (String c t) = if (n =? m)%N then Some t else None.
Proof. intros H. cbn. by rewrite (byte_is_char c n H). Qed.

Lemma span_digits_split s d r : span_digits s = (d, r) -> s = d ++ r.
Proof.
  revert d r. induction s as [|c s IH]; intros d r; cbn [span_digits]; [by intros [= <- <-]|].
  destruct (is_digit c); [|by intros [= <- <-]]. destruct (span_digits s) as [d' r'].
  intros [= <- <-]. rewrite sapp_cons. f_equal. by apply IH.
Qed.
Lemma digits1_split s d r : digits1 s = Some (d, r) -> s = d ++ r.
Proof. unfold digits1. destruct (span_digits s) as [[|c d'] r'] eqn:E; [done|]. intros [= <- <-]. by apply span_digits_split. Qed.
Lemma expect_split n s r : expect n s = Some r -> exists c, s = String c r /\ byte_is c n = true.
Proof. destruct s as [|c s]; [done|]. cbn. destruct (byte_is c n) eqn:E; [|done]. intros [= ->]. by exists c. Qed.

Lemma parse_number_split s d r : parse_number s = Some (d, r) -> s = d ++ r.
Proof.
  unfold parse_number. destruct (parse_minus s) as [m r0] eqn:Em.
  destruct (parse_int r0) as [[i r1]|] eqn:Ei; [|done]. cbn [mbind option_bind].
  destruct (parse_frac r1) as [[f r2]|] eqn:Ef; [|done]. cbn [mbind option_bind].
  destruct (parse_exp r2) as [[x r3]|] eqn:Ex; [|done]. cbn [mbind option_bind]. intros [= <- <-].
  assert (s = m ++ r0) as ->.
  { unfold parse_minus in Em. destruct (expect 45 s) as [r'|] eqn:E; injection Em as <- <-; [|done].
    apply expect_split in E as (c & -> & ->%byte_is_eq). done. }
  assert (r0 = i ++ r1) as ->.
  { unfold parse_int in Ei. destruct (expect 48 r0) as [r'|] eqn:E; [|by apply digits1_split].
    injection Ei as <- <-. apply expect_split in E as (c & -> & ->%byte_is_eq). done. }
  assert (r1 = f ++ r2) as ->.
  { unfold parse_frac in Ef. destruct (expect 46 r1) as [r'|] eqn:E; [|by injection Ef as <- <-].
    apply expect_split in E as (c & -> & ->%byte_is_eq).
    destruct (digits1 r') as [[d' r4]|] eqn:Ed; [|done]. injection Ef as <- <-. by apply digits1_split in Ed as ->. }
  assert (r2 = x ++ r3) as ->.
  { assert (Hd : forall e s, parse_exp_digits e s = Some (x, r3) -> e ++ s = x ++ r3).
    { intros e s'. unfold parse_exp_digits, parse_sign.
      destruct (expect 43 s') as [r'|] eqn:E1; [|destruct (expect 45 s') as [r'|] eqn:E2];
        (destruct (digits1 _) as [[d' r4]|] eqn:Ed; [|done]); cbn [mbind option_bind]; intros [= <- <-];
        apply digits1_split in Ed as ->; rewrite !sapp_assoc; f_equal.
      - apply expect_split in E1 as (c & -> & ->%byte_is_eq). done.
      - apply expect_split in E2 as (c & -> & ->%byte_is_eq). done. }
    unfold parse_exp in Ex. destruct (expect 101 r2) as [r'|] eqn:E1; [|destruct (expect 69 r2) as [r'|] eqn:E2].
    - apply expect_split in E1 as (c & -> & ->%byte_is_eq). by apply Hd in Ex.
    - apply expect_split in E2 as (c & -> & ->%byte_is_eq). by apply Hd in Ex.
    - by injection Ex as <- <-. }
  by rewrite !sapp_assoc.
Qed.

Lemma parse_number_local s d r t : parse_number s = Some (d, r) -> stops t -> parse_number (d ++ t) = Some (d, t).
Proof.
  intros H Ht. apply parse_number_again in H. rewrite (parse_number_app _ _ _ t Ht H). done.
Qed.

Lemma scalar_local c s v r : parse_scalar c s = Some (v, r) ->
  exists p, s = p ++ r /\ forall t, stops t -> parse_scalar c (p ++ t) = Some (v, t).
Proof.
  unfold parse_scalar. destruct (byte_is c 34).
  { destruct (unquote s) as [[x r']|] eqn:E; [|done]. cbn [mbind option_bind]. intros [= <- <-].
    apply unquote_local in E as (p & -> & Hp). exists (p ++ String quote ""). rewrite sapp_assoc. split; [done|].
    intros t _. rewrite sapp_assoc, sapp_cons, sapp_nil_l, Hp. done. }
  assert (Hl : forall w j, w <> "" -> literal w j (String c s) = Some (v, r) ->
    exists p, s = p ++ r /\ forall t, stops t -> literal w j (String c (p ++ t)) = Some (v, t)).
  { intros w j Hw. unfold literal. destruct (strip_prefix w (String c s)) as [r'|] eqn:E; [|done]. intros [= <- <-].
    apply strip_prefix_Some in E. destruct w as [|c' w]; [done|]. rewrite sapp_cons in E. injection E as -> ->.
    exists w. split; [done|]. intros t _. change (String c' (w ++ t)) with (String c' w ++ t). by rewrite strip_prefix_app. }
  destruct (byte_is c 116); [by apply Hl|]. destruct (byte_is c 102); [by apply Hl|]. destruct (byte_is c 110); [by apply Hl|].
  destruct (parse_number (String c s)) as [[d r']|] eqn:E; [|done]. cbn [mbind option_bind]. intros [= <- <-].
  pose proof (parse_number_split _ _ _ E) as Hs. pose proof (parse_number_again _ _ _ E) as Ha.
  destruct (number_head _ _ Ha) as (c' & d' & -> & _). rewrite sapp_cons in Hs. injection Hs as <- ->.
  exists d'. split; [done|]. intros t Ht. change (String c (d' ++ t)) with (String c d' ++ t).
  by rewrite (parse_number_local _ _ _ t E Ht).
Qed.

(** One pass over a value: white space, the byte that decides, the rest. *)
Lemma parse_value_at n w c s : is_ws c = false -> (forall t, skip_ws (w ++ String c t) = String c t) ->
  parse_value (S n) (w ++ String c s) =
    if byte_is c 123 then match expect 125 (skip_ws s) with Some r' => Some (JObject [], r') | None => parse_members n s [] end
    else if byte_is c 91 then match expect 93 (skip_ws s) with Some r' => Some (JArray [], r') | None => parse_elements n s [] end
    else parse_scalar c s.
Proof. intros _ Hw. cbn [parse_value]. by rewrite Hw. Qed.

Lemma closes n s r : expect n (skip_ws s) = Some r ->
  exists p, s = p ++ r /\ (0 < String.length p)%nat /\
    forall m t, expect m (skip_ws (p ++ t)) = if (n =? m)%N then Some t else None.
Proof.
  intros H. apply expect_skip in H as (c & w & Hc & -> & Hw). exists (w ++ String c "").
  rewrite sapp_assoc. split; [done|]. split; [rewrite slen_app; cbn; lia|]. intros m t.
  by rewrite sapp_assoc, sapp_cons, sapp_nil_l, Hw, (expect_at c n).
Qed.

Lemma scalar_not_bracket c s v r : parse_scalar c s = Some (v, r) -> byte_is c 93 = false.
Proof. destruct (byte_is c 93) eqn:E; [|done]. apply byte_is_eq in E as ->. done. Qed.

Lemma value_local_step n s v r :
  (forall s acc v r, parse_members n s acc = Some (v, r) -> members_local s acc v r) ->
  (forall s acc v r, parse_elements n s acc = Some (v, r) -> elements_local s acc v r) ->
  parse_value (S n) s = Some (v, r) -> value_local s v r.
Proof.
  intros IHm IHe H. cbn [parse_value] in H. destruct (skip_ws s) as [|c s'] eqn:Es; [done|].
  apply skip_ws_local in Es as (Hc & w & -> & Hw).
  (* [p]: what [s'] contributes *)
  enough (exists p, s' = p ++ r /\ byte_is c 93 = false /\ forall m t, (String.length p <= m)%nat -> stops t ->
            parse_value (S m) (w ++ String c (p ++ t)) = Some (v, t)) as (p & -> & H93 & Hp).
  { exists (w ++ String c p). rewrite sapp_assoc, sapp_cons. split; [done|].
    split; [rewrite slen_app; cbn; lia|]. split.
    - intros t. rewrite sapp_assoc, sapp_cons, Hw. cbn. by rewrite H93.
    - intros m t Hm Ht. rewrite slen_app in Hm. cbn in Hm. destruct m as [|m]; [lia|].
      rewrite sapp_assoc, sapp_cons. apply Hp; [lia|done]. }
  destruct (byte_is c 123) eqn:E123.
  { assert (byte_is c 93 = false) as H93 by by rewrite (byte_is_char c 123).
    destruct (expect 125 (skip_ws s')) as [r'|] eqn:E.
    - injection H as <- <-. apply closes in E as (p & -> & _ & Hp). exists p. split_and!; [done|done|].
      intros m t _ _. rewrite parse_value_at by done. by rewrite E123, Hp.
    - apply IHm in H as (p & -> & Hn & Hp). exists p. split_and!; [done|done|]. intros m t Hm _.
      rewrite parse_value_at by done. rewrite E123, Hn. by apply Hp. }
  destruct (byte_is c 91) eqn:E91.
  { assert (byte_is c 93 = false) as H93 by by rewrite (byte_is_char c 91).
    destruct (expect 93 (skip_ws s')) as [r'|] eqn:E.
    - injection H as <- <-. apply closes in E as (p & -> & _ & Hp). exists p. split_and!; [done|done|].
      intros m t _ _. rewrite parse_value_at by done. by rewrite E123, E91, Hp.
    - apply IHe in H as (p & -> & Hn & Hp). exists p. split_and!; [done|done|]. intros m t Hm _.
      rewrite parse_value_at by done. rewrite E123, E91, Hn. by apply Hp. }
  pose proof (scalar_not_bracket _ _ _ _ H). apply scalar_local in H as (p & -> & Hp).
  exists p. split_and!; [done|done|]. intros m t _ Ht. rewrite parse_value_at by done. rewrite E123, E91. by apply Hp.
Qed.

Lemma members_step n s acc v r :
  (forall s v r, parse_value n s = Some (v, r) -> value_local s v r) ->
  (forall s acc v r, parse_members n s acc = Some (v, r) -> members_local s acc v r) ->
  parse_members (S n) s acc = Some (v, r) -> members_local s acc v r.
Proof.
  intros IHv IHm H. cbn [parse_members] in H.
  destruct (expect 34 (skip_ws s)) as [q|] eqn:E1; [|done]. cbn [mbind option_bind] in H.
  apply closes in E1 as (w1 & -> & Hl1 & H1).
  destruct (unquote q) as [[k r1]|] eqn:E2; [|done]. cbn [mbind option_bind] in H.
  apply unquote_local in E2 as (pk & -> & H2).
  destruct (expect 58 (skip_ws r1)) as [r2|] eqn:E3; [|done]. cbn [mbind option_bind] in H.
  apply closes in E3 as (w2 & -> & Hl2 & H3).
  destruct (parse_value n r2) as [[x r3]|] eqn:E4; [|done]. cbn [mbind option_bind] in H.
  apply IHv in E4 as (px & -> & Hlx & _ & H4).
  assert (Hrun : forall m t, (S (String.length px) <= m)%nat -> stops t ->
    parse_members m (w1 ++ pk ++ String quote (w2 ++ px ++ t)) acc =
    match expect 44 (skip_ws t) with
    | Some r4 => parse_members (m - 1) r4 (jset acc k x)
    | None => r4 ← expect 125 (skip_ws t); Some (JObject (jset acc k x), r4)
    end).
  { intros m t Hm Ht. destruct m as [|m]; [lia|]. cbn [parse_members]. rewrite H1. cbn [N.eqb Pos.eqb mbind option_bind].
    rewrite H2. cbn [mbind option_bind]. rewrite H3. cbn [N.eqb Pos.eqb mbind option_bind].
    rewrite H4 by (done || lia). cbn [mbind option_bind]. by replace (S m - 1)%nat with m by lia. }
  enough (exists p, r3 = p ++ r /\ forall m t, (String.length p <= m)%nat -> stops (p ++ t) /\
    match expect 44 (skip_ws (p ++ t)) with
    | Some r4 => parse_members m r4 (jset acc k x)
    | None => r4 ← expect 125 (skip_ws (p ++ t)); Some (JObject (jset acc k x), r4)
    end = Some (v, t)) as (p & -> & Hp).
  { exists (w1 ++ pk ++ String quote (w2 ++ px ++ p)). split_and!.
    - by rewrite !sapp_assoc, sapp_cons, !sapp_assoc.
    - intros t. by rewrite sapp_assoc, H1.
    - intros m t Hm. rewrite !slen_app in Hm. cbn in Hm. rewrite !slen_app in Hm.
      rewrite !sapp_assoc, sapp_cons, !sapp_assoc.
      destruct (Hp (m - 1)%nat t) as [Hs Ht]; [lia|]. by rewrite Hrun by (done || lia). }
  destruct (expect 44 (skip_ws r3)) as [r4|] eqn:E5.
  - apply closes in E5 as (w3 & -> & Hl3 & H5). apply IHm in H as (p & -> & _ & Hp).
    exists (w3 ++ p). rewrite sapp_assoc. split; [done|]. intros m t Hm. rewrite slen_app in Hm. rewrite sapp_assoc. split.
    + eapply (expect_stops 44); [by rewrite H5|set_solver].
    + rewrite H5. cbn [N.eqb Pos.eqb]. apply Hp. lia.
  - destruct (expect 125 (skip_ws r3)) as [r4|] eqn:E6; [|done]. injection H as <- <-.
    apply closes in E6 as (w3 & -> & _ & H6). exists w3. split; [done|]. intros m t _. split.
    + eapply (expect_stops 125); [by rewrite H6|set_solver].
    + rewrite !H6. done.
Qed.

Lemma elements_step n s acc v r :
  (forall s v r, parse_value n s = Some (v, r) -> value_local s v r) ->
  (forall s acc v r, parse_elements n s acc = Some (v, r) -> elements_local s acc v r) ->
  parse_elements (S n) s acc = Some (v, r) -> elements_local s acc v r.
Proof.
  intros IHv IHe H. cbn [parse_elements] in H.
  destruct (parse_value n s) as [[x r3]|] eqn:E4; [|done]. cbn [mbind option_bind] in H.
  apply IHv in E4 as (px & -> & Hlx & Hn & H4).
  assert (Hrun : forall m t, (S (String.length px) <= m)%nat -> stops t ->
    parse_elements m (px ++ t) acc =
    match expect 44 (skip_ws t) with
    | Some r4 => parse_elements (m - 1) r4 (acc ++ [x])%list
    | None => r4 ← expect 93 (skip_ws t); Some (JArray (acc ++ [x])%list, r4)
    end).
  { intros m t Hm Ht. destruct m as [|m]; [lia|]. cbn [parse_elements].
    rewrite H4 by (done || lia). cbn [mbind option_bind]. by replace (S m - 1)%nat with m by lia. }
  enough (exists p, r3 = p ++ r /\ (0 < String.length p)%nat /\ forall m t, (String.length p <= S m)%nat -> stops (p ++ t) /\
    match expect 44 (skip_ws (p ++ t)) with
    | Some r4 => parse_elements m r4 (acc ++ [x])%list
    | None => r4 ← expect 93 (skip_ws (p ++ t)); Some (JArray (acc ++ [x])%list, r4)
    end = Some (v, t)) as (p & -> & Hlp & Hp).
  { exists (px ++ p). rewrite sapp_assoc. split_and!; [done| |].
    - intros t. by rewrite sapp_assoc, Hn.
    - intros m t Hm. rewrite slen_app in Hm. rewrite sapp_assoc.
      destruct (Hp (m - 1)%nat t) as [Hs Ht]; [lia|]. by rewrite Hrun by (done || lia). }
  destruct (expect 44 (skip_ws r3)) as [r4|] eqn:E5.
  - apply closes in E5 as (w3 & -> & Hl3 & H5). apply IHe in H as (p & -> & _ & Hp).
    exists (w3 ++ p). rewrite sapp_assoc. split; [done|]. split; [rewrite slen_app; lia|].
    intros m t Hm. rewrite slen_app in Hm. rewrite sapp_assoc. split.
    + eapply (expect_stops 44); [by rewrite H5|set_solver].
    + rewrite H5. cbn [N.eqb Pos.eqb]. apply Hp. lia.
  - destruct (expect 93 (skip_ws r3)) as [r4|] eqn:E6; [|done]. injection H as <- <-.
    apply closes in E6 as (w3 & -> & Hl3 & H6). exists w3. split; [done|]. split; [done|]. intros m t _. split.
    + eapply (expect_stops 93); [by rewrite H6|set_solver].
    + rewrite !H6. done.
Qed.

Lemma values_local n :
  (forall s v r, parse_value n s = Some (v, r) -> value_local s v r) /\
  (forall s acc v r, parse_members n s acc = Some (v, r) -> members_local s acc v r) /\
  (forall s acc v r, parse_elements n s acc = Some (v, r) -> elements_local s acc v r).
Proof.
  induction n as [|n (IHv & IHm & IHe)]; [done|]. split_and!.
  - intros s v r. by apply value_local_step.
  - intros s acc v r. by apply members_step.
  - intros s acc v r. by apply elements_step.
Qed.

(** ** Raw messages hold what the page decodes to *)

(** [t] is the whole text of [v]. *)
Definition text_of (t : string) (v : json) : Prop :=
  is_ws (default " "%char (String.get 0 t)) = false /\ forall m, (String.length t <= m)%nat -> parse_value m t = Some (v, "").

Lemma skip_ws_again s : skip_ws (skip_ws s) = skip_ws s.
Proof. induction s as [|c s IH]; [done|]. cbn [skip_ws]. destruct (is_ws c) eqn:E; [done|]. cbn [skip_ws]. by rewrite E. Qed.

Lemma parse_value_skip n s : parse_value n (skip_ws s) = parse_value n s.
Proof. destruct n as [|n]; [done|]. cbn [parse_value]. by rewrite skip_ws_again. Qed.

Lemma consumed_app p r : consumed (p ++ r) r = p.
Proof.
  unfold consumed. rewrite slen_app. replace (String.length p + String.length r - String.length r)%nat with (String.length p) by lia.
  induction p as [|c p IH]; [by destruct r|]. rewrite sapp_cons. cbn. by rewrite IH.
Qed.

Lemma consumed_text n s v r : parse_value n s = Some (v, r) -> text_of (consumed (skip_ws s) r) v.
Proof.
  intros H. rewrite <-parse_value_skip in H. pose proof H as Hv.
  apply (proj1 (values_local n)) in H as (p & Hp & Hl & _ & Hrun). rewrite Hp, consumed_app. split.
  - destruct p as [|c p]; [cbn in Hl; lia|]. rewrite sapp_cons in Hp. cbn.
    destruct (skip_ws s) as [|c' s'] eqn:E; [done|]. injection Hp as -> _. by apply skip_ws_local in E as [? _].
  - intros m Hm. specialize (Hrun m ""). rewrite sapp_nil_r in Hrun. by apply Hrun.
Qed.

Lemma raw_elements_texts n s acc l r : parse_elements n s acc = Some (JArray l, r) ->
  exists raws l', raw_elements n s = Some (raws, r) /\ l = (acc ++ l')%list /\ Forall2 text_of raws l'.
Proof.
  revert s acc l r. induction n as [|n IH]; [done|]. intros s acc l r. cbn [parse_elements raw_elements].
  destruct (parse_value n s) as [[x r3]|] eqn:E; [|done]. cbn [mbind option_bind]. apply consumed_text in E.
  destruct (expect 44 (skip_ws r3)) as [r4|].
  - intros (raws & l' & -> & -> & Hf)%IH. cbn [mbind option_bind]. eexists _, (x :: l'). split; [done|].
    split; [by rewrite <-app_assoc|by constructor].
  - destruct (expect 93 (skip_ws r3)) as [r4|]; [|done]. cbn [mbind option_bind]. intros [= <- <-].
    eexists _, [x]. by split_and!; [|done|constructor].
Qed.

Lemma raw_members_texts n s ms r : parse_fields n s = Some (ms, r) ->
  exists raws, raw_members n s = Some (raws, r) /\ Forall2 (fun kt kv => kt.1 = kv.1 /\ text_of kt.2 kv.2) raws ms.
Proof.
  revert s ms r. induction n as [|n IH]; [done|]. intros s ms r. cbn [parse_fields raw_members].
  destruct (expect 34 (skip_ws s)) as [q|]; [|done]. cbn [mbind option_bind].
  destruct (unquote q) as [[k r1]|]; [|done]. cbn [mbind option_bind].
  destruct (expect 58 (skip_ws r1)) as [r2|]; [|done]. cbn [mbind option_bind].
  destruct (parse_value n r2) as [[x r3]|] eqn:E; [|done]. cbn [mbind option_bind]. apply consumed_text in E.
  destruct (expect 44 (skip_ws r3)) as [r4|].
  - destruct (parse_fields n r4) as [[ms' r5]|] eqn:E5; [|done]. cbn [mbind option_bind]. intros [= <- <-].
    apply IH in E5 as (raws & -> & Hf). cbn [mbind option_bind]. eexists. split; [done|]. by constructor.
  - destruct (expect 125 (skip_ws r3)) as [r4|]; [|done]. cbn [mbind option_bind]. intros [= <- <-].
    eexists. split; [done|]. by constructor.
Qed.

Lemma text_value t v : text_of t v -> parse_value (S (String.length t)) t = Some (v, "").
Proof. intros [_ H]. apply H. lia. Qed.

(** The value after one pass, for text without leading white space. *)
Lemma text_value_at t v : text_of t v -> exists c s, t = String c s /\
  (if byte_is c 123 then match expect 125 (skip_ws s) with Some r' => Some (JObject [], r') | None => parse_members (String.length t) s [] end
   else if byte_is c 91 then match expect 93 (skip_ws s) with Some r' => Some (JArray [], r') | None => parse_elements (String.length t) s [] end
   else parse_scalar c s) = Some (v, "").
Proof.
  intros H. pose proof (text_value _ _ H) as Hv. destruct H as [Hw _]. destruct t as [|c s]; [done|]. cbn in Hw.
  exists c, s. split; [done|]. cbn [parse_value] in Hv. cbn [skip_ws] in Hv. by rewrite Hw in Hv.
Qed.

Lemma parse_members_is_object n s acc v r : parse_members n s acc = Some (v, r) -> exists m, v = JObject m.
Proof. rewrite parse_members_fields. destruct (parse_fields n s) as [[ms r']|]; [|done]. intros [= <- _]. by eexists. Qed.

Lemma parse_elements_is_array n s acc v r : parse_elements n s acc = Some (v, r) -> exists l, v = JArray l.
Proof.
  revert s acc. induction n as [|n IH]; [done|]. intros s acc. cbn [parse_elements].
  destruct (parse_value n s) as [[x r3]|]; [|done]. cbn [mbind option_bind].
  destruct (expect 44 _); [apply IH|]. destruct (expect 93 _); [|done]. intros [= <- _]. by eexists.
Qed.

Lemma scalar_kind c s v r : parse_scalar c s = Some (v, r) ->
  match v with JNull => literal "null" JNull (String c s) = Some (JNull, r) | JArray _ | JObject _ => False | _ => True end.
Proof.
  unfold parse_scalar. destruct (byte_is c 34).
  { destruct (unquote s) as [[]|]; [|done]. by intros [= <- _]. }
  destruct (byte_is c 116); [by intros ->%literal_value|].
  destruct (byte_is c 102); [by intros ->%literal_value|].
  destruct (byte_is c 110); [intros H; pose proof H as ->%literal_value; exact H|].
  destruct (parse_number _) as [[]|]; [|done]. by intros [= <- _].
Qed.

Lemma raw_array_texts t l : text_of t (JArray l) -> exists raws, raw_array t = Some raws /\ Forall2 text_of raws l.
Proof.
  intros (c & s & -> & H)%text_value_at. unfold raw_array.
  destruct (byte_is c 123) eqn:E123.
  { destruct (expect 125 _); [done|]. by apply parse_members_is_object in H as [? ?]. }
  destruct (byte_is c 91) eqn:E91; [|by apply scalar_kind in H].
  rewrite bool_decide_eq_false_2 by (intros [= -> _]; done). cbn [expect]. rewrite E91. cbn [mbind option_bind].
  destruct (expect 93 _); [injection H as <- _; by exists []|].
  apply raw_elements_texts in H as (raws & l' & -> & -> & Hf). by exists raws.
Qed.

Lemma raw_array_null t : text_of t JNull -> raw_array t = Some [].
Proof.
  intros (c & s & -> & H)%text_value_at. unfold raw_array.
  destruct (byte_is c 123); [destruct (expect 125 _); [done|]; by apply parse_members_is_object in H as [? ?]|].
  destruct (byte_is c 91); [destruct (expect 93 _); [done|]; by apply parse_elements_is_array in H as [? ?]|].
  apply scalar_kind in H. unfold literal in H. destruct (strip_prefix _ _) as [r|] eqn:E; [|done]. injection H as ->.
  apply strip_prefix_Some in E. rewrite E. by rewrite bool_decide_eq_true_2.
Qed.

Lemma raw_arrays_fold ts vs a b items : Forall2 text_of ts vs -> Forall2 text_of a b ->
  foldl (fun acc v => _ ← acc; match v with JArray l => Ok l | JNull => Ok [] | _ => Err EDecode end) (Ok b) vs = Ok items ->
  exists raws, foldl (fun acc t => _ ← acc; raw_array t) (Some a) ts = Some raws /\ Forall2 text_of raws items.
Proof.
  intros Hf. revert a b. induction Hf as [|t x ts vs Ht _ IH]; intros a b Hab Ha.
  { cbn in Ha |- *. injection Ha as <-. by exists a. }
  cbn in Ha |- *. destruct x as [| | | |l|]; try (exfalso; clear -Ha; induction vs as [|y vs IH]; [done|apply IH, Ha]).
  - rewrite (raw_array_null _ Ht). by apply (IH [] []).
  - apply raw_array_texts in Ht as (raws & -> & Hr). by apply (IH raws l).
Qed.

(** The raw messages of a page are the texts of the items it decodes to. *)
Lemma raw_items_are_texts raw ms items : DecodeFields raw = Some ms -> raw_array_field ms "items" = Ok items ->
  exists raws, unmarshal_raw_items raw = Some raws /\ Forall2 text_of raws items.
Proof.
  intros Hd Ha. unfold DecodeFields in Hd. unfold unmarshal_raw_items. destruct (DecodeJSON raw) as [v|] eqn:Ej; [|done].
  unfold DecodeJSON in Ej. destruct (validateJSONNesting raw); [|done].
  destruct (parse_value _ raw) as [[v' rest]|] eqn:Ep; [|done]. cbn [mbind option_bind] in Ej |- *.
  destruct (bool_decide (skip_ws rest = "")); [|done]. injection Ej as ->. cbn [negb].
  destruct v as [| | | | |m]; try done.
  { injection Hd as <-. cbn in Ha. injection Ha as <-. by exists []. }
  destruct (expect 123 (skip_ws raw)) as [r|]; [|done]. cbn [mbind option_bind] in Hd |- *.
  assert (exists rms, match expect 125 (skip_ws r) with Some _ => Some [] | None => fst <$> raw_members (String.length raw) r end = Some rms
    /\ Forall2 (fun kt kv => kt.1 = kv.1 /\ text_of kt.2 kv.2) rms ms) as (rms & -> & Hf).
  { destruct (expect 125 _); [injection Hd as <-; by exists []|].
    destruct (parse_fields _ r) as [[ms' r']|] eqn:E; [|done]. injection Hd as <-.
    apply raw_members_texts in E as (raws & -> & ?). by exists raws. }
  cbn [mbind option_bind]. unfold raw_array_field, field_values in Ha.
  assert (Hsame : Forall2 text_of (map snd (filter (fun kt => EqualFold kt.1 "items" = true) rms))
                     (map snd (filter (fun kv => EqualFold kv.1 "items" = true) ms))).
  { clear -Hf. induction Hf as [|[k t] [k' x] rms ms [Hk Ht] _ IH]; [done|]. cbn in Hk, Ht. subst k'.
    rewrite !filter_cons. cbn [fst]. case_decide; [by constructor|done]. }
  by eapply raw_arrays_fold.
Qed.

Lemma text_decodes t v j : text_of t v -> DecodeJSON t = Some j -> j = v.
Proof.
  intros H%text_value. unfold DecodeJSON. destruct (validateJSONNesting t); [|done]. rewrite H.
  cbn [mbind option_bind]. destruct (bool_decide _); [|done]. by intros [= ->].
Qed.
End RawText.

(** * The index entries of a page *)

Module PageIndex.
Import GoStr Json JsonParse MediaFragment Presentation RawText.
#[local] Open Scope Z_scope.

(** [AnnotationIndexEntry], without the workspace and image it belongs to. *)
Record AnnotationIndexEntry := {
  X_ID : string; X_CanvasURI : string; X_TextGranularity : string; X_Position : Z; X_Payload : string;
}.

Inductive index_err := XDecode | XTooMany | XItem | XNoID | XDuplicate.

Definition stringProperty (value : obj) (key : string) : string := TrimSpace (as_string (jget value key)).
Definition annotationCanvasURI (annotation : obj) : string := TargetCanvas (default JNull (jget annotation "target")).

Fixpoint index_items (pageCanvas : string) (position : Z) (seen : gset string) (items : list string)
    : result index_err (list AnnotationIndexEntry) :=
  match items with
  | [] => Ok []
  | raw :: items' =>
      if position >? MaxInt32 then Err XTooMany else
      annotation ← match decode_map raw with Ok m => Ok (default [] m) | Err _ => Err XItem end;
      let id := stringProperty annotation "id" in
      if bool_decide (id = ""%string) then Err XNoID else
      if bool_decide (id ∈ seen) then Err XDuplicate else
      let canvasURI := annotationCanvasURI annotation in
      let canvasURI := if bool_decide (canvasURI = ""%string) then pageCanvas else canvasURI in
      entries ← index_items pageCanvas (position + 1) ({[id]} ∪ seen) items';
      Ok ({| X_ID := id; X_CanvasURI := canvasURI; X_TextGranularity := stringProperty annotation "textGranularity";
             X_Position := position; X_Payload := raw |} :: entries)
  end.

Definition annotationIndexEntries (pageCanvas payload : string) : result index_err (list AnnotationIndexEntry) :=
  items ← of_option XDecode (unmarshal_raw_items payload);
  index_items pageCanvas 0 ∅ items.

(** ** What the entries are *)

(** The entry of one item: its whole text, and the fields read from it. *)
Definition entry_of (pageCanvas : string) (item : json) (x : AnnotationIndexEntry) : Prop :=
  DecodeJSON (X_Payload x) = Some item /\
  exists m, item = JObject m /\
    X_ID x = stringProperty m "id" /\ X_ID x <> ""%string /\
    X_TextGranularity x = stringProperty m "textGranularity" /\
    X_CanvasURI x = (if bool_decide (annotationCanvasURI m = ""%string) then pageCanvas else annotationCanvasURI m).

Lemma index_items_spec pageCanvas position seen raws items entries :
  Forall2 text_of raws items -> index_items pageCanvas position seen raws = Ok entries ->
  Forall2 (entry_of pageCanvas) items entries /\
  X_Position <$> entries = seqZ position (Z.of_nat (length items)) /\
  NoDup (X_ID <$> entries) /\ Forall (fun x => X_ID x ∉ seen) entries /\ X_Payload <$> entries = raws.
Proof.
  intros Hf. revert position seen entries. induction Hf as [|raw item raws items Ht _ IH]; intros position seen entries H.
  { injection H as <-. split_and!; try done; constructor. }
  cbn [index_items] in H. destruct (position >? MaxInt32); [done|].
  apply result_bind_Ok in H as (m & Hm & H). destruct (bool_decide (stringProperty m "id" = ""%string)) eqn:Eid; [done|].
  destruct (bool_decide (stringProperty m "id" ∈ seen)) eqn:Eseen; [done|]. split_bools.
  apply result_bind_Ok in H as (entries' & H & [= <-]).
  destruct (IH _ _ _ H) as (Hentries & Hpos & Hnodup & Hseen & Hpay).
  rewrite !fmap_cons. cbn [X_Position X_ID X_Payload]. split_and!.
  - constructor; [|done]. unfold decode_map in Hm. destruct (DecodeJSON raw) as [j|] eqn:Ej; [|done].
    pose proof (text_decodes _ _ _ Ht Ej) as ->. split; [done|]. exists m.
    destruct item; try done; injection Hm as <-; [by destruct Eid|]. split_and!; eauto.
  - rewrite Hpos. cbn [length]. rewrite (seqZ_cons position) by lia. f_equal. f_equal. lia.
  - apply NoDup_cons. split; [|done]. intros (x & Hx & Hin)%list_elem_of_fmap.
    rewrite Forall_forall in Hseen. apply (Hseen x Hin). rewrite <-Hx. set_solver.
  - constructor; [done|]. eapply Forall_impl; [exact Hseen|]. set_solver.
  - by rewrite Hpay.
Qed.

(** The items of the page, as a reader of the page decodes them. *)
Definition page_items (payload : string) : option (list json) :=
  ms ← DecodeFields payload;
  match raw_array_field ms "items" with Ok l => Some l | Err _ => None end.

Lemma index_entries_spec pageCanvas payload items entries :
  page_items payload = Some items -> annotationIndexEntries pageCanvas payload = Ok entries ->
  Forall2 (entry_of pageCanvas) items entries /\
  X_Position <$> entries = seqZ 0 (Z.of_nat (length items)) /\ NoDup (X_ID <$> entries).
Proof.
  unfold page_items, annotationIndexEntries. intros Hi H.
  destruct (DecodeFields payload) as [ms|] eqn:Ed; [|done]. cbn [mbind option_bind] in Hi.
  destruct (raw_array_field ms "items") as [l|] eqn:Ea; [|done]. injection Hi as ->.
  destruct (raw_items_are_texts _ _ _ Ed Ea) as (raws & Hr & Hf). rewrite Hr in H. cbn in H.
  destruct (index_items_spec _ _ _ _ _ _ Hf H) as (? & ? & ? & _). done.
Qed.
End PageIndex.
