(* ===== verification/PageDb.v ===== *)
(** * The canonical annotation pages: the tables

    The rows internal/store/annotations.go, ocr_runs.go and ground_truth.go own, with their
    payloads: the pages, their index, the public snapshots, the OCR runs, the marked ground truth,
    the mirror outbox and the external requests.  Everything else is the [idb] of the items, in
    which the same tables hold the lengths of the payloads only; [tables] is the whole
    database seen that way.  Statements of the accounts, the queue, the mirrors and the
    requests run on their own views. *)

From Stdlib Require Import ZArith Lia Ascii String.
From stdpp Require Import base gmap strings list sorting.
From S2P Require Import Prelude GoStrings Json JobSchema JobStore MediaFragment Presentation Quota QuotaStore QuotaOps Requests Mirrors ItemDb ItemOps PageIndex.

Module PageDb.
Import GoStr Json JobStore Presentation PageIndex.
#[local] Open Scope Z_scope.

(** ** Errors *)

Inductive page_store_err :=
| PageNotFound | RevisionConflict | PageResource    (* ErrAnnotationPage.., ErrAnnotationRevisionConflict *)
| Invalid                                            (* a missing or inconsistent argument *)
| Page (e : page_err) | Index (e : index_err)
| Items (e : ItemDb.store_err) | Job (e : Jobs.err) | Request (e : Requests.req_err) | Mirror (e : Mirrors.mirror_err)
| NoRows                                             (* sql.ErrNoRows *)
| Constraint                                         (* a violated key *)
| Encode                                             (* an event body that cannot be built *)
| ExportLimit                                        (* ErrGroundTruthExportLimit *).

(** [ErrAnnotationJobFence] is [ErrTranscriptionJobFence]. *)
Definition JobFence : page_store_err := Job Jobs.EFence.

(** ** Rows *)

Record page_row := {
  p_page_id : string; p_canvas_uri : string; p_payload : string; p_revision : Z; p_updated_by : option Z;
}.
Record index_row := {
  x_canvas_uri : string; x_text_granularity : option string; x_position : Z; x_payload : string;
}.
Record published_row := {
  u_page_id : string; u_canvas_uri : string; u_payload : string; u_revision : Z; u_by : option Z; u_at : Z;
}.
Record run_row := {
  r_workspace_id : Z; r_item_image_id : Z; r_context_id : option Z; r_context_scope_id : option Z;
  r_image_url : string; r_provider : string; r_model : string; r_original_hocr : string; r_original_text : string;
  r_canonical_revision : option Z; r_levenshtein_distance : Z;
  r_original_page : option string; r_segmentation_correction : option string;
}.
#[export] Instance run_row_eq_dec : EqDecision run_row.
Proof. solve_decision. Defined.
Record ground_row := {
  t_context_id : option Z; t_document_type : string; t_payload : string; t_original_page : string;
  t_image_url : string; t_transcript : string; t_marked_by : option Z;
}.

Record content := {
  pages : gmap (Z * Z) page_row;                (* annotation_pages, by workspace and image *)
  index : gmap (Z * Z * string) index_row;      (* annotations *)
  published : gmap (Z * Z) published_row;       (* published_annotation_pages *)
  runs : gmap string run_row;                   (* ocr_runs, by session *)
  current : gmap Z string;                      (* current_ocr_runs, by image *)
  ground_truth : gmap (Z * Z * Z) ground_row;   (* annotation_ground_truth, with the revision *)
  mirrors : gmap Z Mirrors.mirror_row; tombstones : gmap Z Mirrors.tombstone_row;
  requests : gmap Z Requests.request_row;       (* external_requests *)
}.
(** event_outbox, webhook_deliveries and the subscriptions they go to. *)
Record bus := { outbox : gmap string Jobs.event_row; deliveries : gset (string * Z); subscriptions : gmap Z Z }.

Record pdb := { base : ItemDb.idb; con : content; events : bus }.
Abbreviation ptx := (tx pdb page_store_err).

Definition set_con (c : content) (s : pdb) : pdb := {| base := base s; con := c; events := events s |}.

Section with_content.
Context (c : content).
Definition with_pages x y := {| pages := x; index := y; published := published c; runs := runs c; current := current c;
  ground_truth := ground_truth c; mirrors := mirrors c; tombstones := tombstones c; requests := requests c |}.
Definition with_published x := {| pages := pages c; index := index c; published := x; runs := runs c; current := current c;
  ground_truth := ground_truth c; mirrors := mirrors c; tombstones := tombstones c; requests := requests c |}.
Definition with_runs x y := {| pages := pages c; index := index c; published := published c; runs := x; current := y;
  ground_truth := ground_truth c; mirrors := mirrors c; tombstones := tombstones c; requests := requests c |}.
Definition with_ground_truth x := {| pages := pages c; index := index c; published := published c; runs := runs c; current := current c;
  ground_truth := x; mirrors := mirrors c; tombstones := tombstones c; requests := requests c |}.
Definition with_mirrors x y := {| pages := pages c; index := index c; published := published c; runs := runs c; current := current c;
  ground_truth := ground_truth c; mirrors := x; tombstones := y; requests := requests c |}.
Definition with_requests x := {| pages := pages c; index := index c; published := published c; runs := runs c; current := current c;
  ground_truth := ground_truth c; mirrors := mirrors c; tombstones := tombstones c; requests := x |}.
End with_content.

(** ** The lengths *)

Definition text_len (o : option string) : Z := len (default ""%string o).
Definition page_size (p : page_row) : ItemDb.page_row := {| ItemDb.p_bytes := len (p_payload p); ItemDb.p_user_id := p_updated_by p |}.
Definition published_size (p : published_row) : ItemDb.page_row := {| ItemDb.p_bytes := len (u_payload p); ItemDb.p_user_id := u_by p |}.
Definition index_size (x : index_row) : Z := len (x_payload x).
Definition run_size (r : run_row) : ItemDb.ocr_run :=
  {| ItemDb.n_workspace_id := r_workspace_id r; ItemDb.n_item_image_id := r_item_image_id r; ItemDb.n_context_id := r_context_id r;
     ItemDb.n_bytes := len (r_original_hocr r) + len (r_original_text r) + text_len (r_original_page r)
                       + text_len (r_segmentation_correction r) |}.
Definition ground_size (t : ground_row) : Z := len (t_payload t) + len (t_original_page t) + len (t_transcript t).
Definition request_links (r : Requests.request_row) : ItemDb.request_row :=
  {| ItemDb.r_workspace_id := Requests.q_workspace_id r; ItemDb.r_item_id := Requests.q_item_id r;
     ItemDb.r_item_image_id := Requests.q_item_image_id r; ItemDb.r_transcription_job_id := Requests.q_job_id r;
     ItemDb.r_session_id := Requests.q_session_id r |}.

Definition lengths (k : ItemDb.children) (c : content) : ItemDb.children :=
  {| ItemDb.review_sessions := ItemDb.review_sessions k; ItemDb.review_tokens := ItemDb.review_tokens k;
     ItemDb.requests := request_links <$> requests c; ItemDb.provider_audits := ItemDb.provider_audits k;
     ItemDb.current_runs := current c; ItemDb.ocr_runs := run_size <$> runs c;
     ItemDb.mirrors := dom (mirrors c); ItemDb.tombstones := dom (tombstones c);
     ItemDb.published := published_size <$> published c; ItemDb.index := index_size <$> index c;
     ItemDb.ground_truth := ground_size <$> ground_truth c; ItemDb.pages := page_size <$> pages c |}.

(** The database as the item store sees it. *)
Definition tables (s : pdb) : ItemDb.idb := ItemDb.set_kids (lengths (ItemDb.kids (base s)) (con s)) (base s).

(** A statement of the item store or of the accounts that leaves the tables of [content] alone. *)
Definition on_tables {A} (m : ItemDb.itx A) : ptx A := fun s =>
  match m (tables s) with
  | Ok (a, t) => Ok (a, {| base := t; con := con s; events := events s |})
  | Err e => Err (Items e)
  end.
Definition on_quota {A} (m : QuotaStore.qtx A) : ptx A := on_tables (ItemDb.quota m).

(** ** The queue *)

Definition queue_view (s : pdb) : Jobs.db :=
  let b := base s in
  {| Jobs.jobs := ItemDb.q_jobs (ItemDb.queue b); Jobs.attempts := ItemDb.q_attempts (ItemDb.queue b);
     Jobs.checkpoints := ItemDb.q_checkpoints (ItemDb.queue b); Jobs.next_job_id := ItemDb.q_next_job_id (ItemDb.queue b);
     Jobs.request_jobs := ∅; Jobs.file_jobs := ∅; Jobs.outbox := outbox (events s); Jobs.deliveries := deliveries (events s);
     Jobs.par := {| Jobs.workspaces := ItemDb.tenants b;
       Jobs.item_images := (fun g => {| Jobs.i_item_id := ItemDb.g_item_id g |}) <$> ItemDb.images b;
       Jobs.items := (fun t => {| Jobs.it_workspace_id := ItemDb.t_workspace_id t; Jobs.it_document_type := ItemDb.t_document_type t |}) <$> ItemDb.items b;
       Jobs.pages := p_revision <$> pages (con s);
       Jobs.contexts := (fun c => {| Jobs.c_workspace_id := ItemDb.c_workspace_id c; Jobs.c_scope_id := ItemDb.c_scope_id c;
                                     Jobs.c_fields := ItemDb.c_fields c |}) <$> ItemDb.contexts b;
       Jobs.subscriptions := subscriptions (events s) |} |}.

(** The references of [ws] to a job that retention removed. *)
Definition still_there (old new : gmap Z Jobs.job_row) (ws : Z) (job : option Z) : option Z :=
  id ← job;
  match old !! id, new !! id with
  | Some r, None => if Jobs.k_workspace_id (Jobs.j_key r) =? ws then None else Some id
  | _, _ => Some id
  end.
Definition file_reference (old new : gmap Z Jobs.job_row) (now : Z) (k : Z * string * Z) (f : ItemDb.file_row) : ItemDb.file_row :=
  let job := still_there old new k.1.1 (ItemDb.f_transcription_job_id f) in
  if bool_decide (job = ItemDb.f_transcription_job_id f) then f else
  {| ItemDb.f_filename := ItemDb.f_filename f; ItemDb.f_size := ItemDb.f_size f; ItemDb.f_content_sha256 := ItemDb.f_content_sha256 f;
     ItemDb.f_status := ItemDb.f_status f; ItemDb.f_attempt_count := ItemDb.f_attempt_count f; ItemDb.f_max_attempts := ItemDb.f_max_attempts f;
     ItemDb.f_lease_until := ItemDb.f_lease_until f; ItemDb.f_locked_by := ItemDb.f_locked_by f; ItemDb.f_item_image_id := ItemDb.f_item_image_id f;
     ItemDb.f_transcription_job_id := job; ItemDb.f_error_message := ItemDb.f_error_message f; ItemDb.f_created_at := ItemDb.f_created_at f;
     ItemDb.f_updated_at := Z.max (ItemDb.f_updated_at f + 1) now |}.
Definition request_reference (old new : gmap Z Jobs.job_row) (now : Z) (r : Requests.request_row) : Requests.request_row :=
  let job := still_there old new (Requests.q_workspace_id r) (Requests.q_job_id r) in
  if bool_decide (job = Requests.q_job_id r) then r else
  {| Requests.q_workspace_id := Requests.q_workspace_id r; Requests.q_source := Requests.q_source r;
     Requests.q_idempotency_key := Requests.q_idempotency_key r; Requests.q_request_hash := Requests.q_request_hash r;
     Requests.q_status := Requests.q_status r; Requests.q_item_id := Requests.q_item_id r; Requests.q_item_image_id := Requests.q_item_image_id r;
     Requests.q_job_id := job; Requests.q_session_id := Requests.q_session_id r; Requests.q_event_header := Requests.q_event_header r;
     Requests.q_attempt_count := Requests.q_attempt_count r; Requests.q_max_attempts := Requests.q_max_attempts r;
     Requests.q_lease_until := Requests.q_lease_until r; Requests.q_locked_by := Requests.q_locked_by r;
     Requests.q_error_message := Requests.q_error_message r; Requests.q_updated_at := now |}.

Definition queue_tables (d : Jobs.db) : ItemDb.queue_tables :=
  {| ItemDb.q_jobs := Jobs.jobs d; ItemDb.q_attempts := Jobs.attempts d; ItemDb.q_checkpoints := Jobs.checkpoints d;
     ItemDb.q_next_job_id := Jobs.next_job_id d |}.

(** A function of the queue: retention, the one that removes jobs, first detaches the files
    and requests that name them. *)
Definition set_jobs (now : Z) (d : Jobs.db) (s : pdb) : pdb :=
  let old := ItemDb.q_jobs (ItemDb.queue (base s)) in
  {| base := ItemDb.set_files (map_imap (fun k f => Some (file_reference old (Jobs.jobs d) now k f)) (ItemDb.files (base s)))
               (ItemDb.set_queue (queue_tables d) (base s));
     con := with_requests (con s) (request_reference old (Jobs.jobs d) now <$> requests (con s));
     events := {| outbox := Jobs.outbox d; deliveries := Jobs.deliveries d; subscriptions := subscriptions (events s) |} |}.
Definition on_jobs {A} (e : env) (m : Jobs.stx A) : ptx A := fun s =>
  match m (queue_view s) with
  | Ok (a, d) => Ok (a, set_jobs (db_now e) d s)
  | Err x => Err (Job x)
  end.

(** ** Mirrors and requests *)

Definition on_mirrors {A} (m : Mirrors.mtx A) : ptx A := fun s =>
  match m {| Mirrors.mirrors := mirrors (con s); Mirrors.tombstones := tombstones (con s); Mirrors.published := ∅ |} with
  | Ok (a, v) => Ok (a, set_con (with_mirrors (con s) (Mirrors.mirrors v) (Mirrors.tombstones v)) s)
  | Err e => Err (Mirror e)
  end.

Definition request_view (s : pdb) : Requests.rdb :=
  let b := base s in
  {| Requests.requests := requests (con s); Requests.next_request_id := 0;
     Requests.res := {| Requests.workspaces := ItemDb.tenants b; Requests.items := ItemDb.t_workspace_id <$> ItemDb.items b;
       Requests.images := (fun g => (ItemDb.g_workspace_id g, ItemDb.g_item_id g)) <$> ItemDb.images b;
       Requests.image_jobs := (fun r => (Jobs.k_workspace_id (Jobs.j_key r), Jobs.k_item_image_id (Jobs.j_key r))) <$> ItemDb.q_jobs (ItemDb.queue b);
       Requests.runs := (fun r => (r_workspace_id r, r_item_image_id r)) <$> runs (con s) |} |}.
(** An update of external requests: it inserts no row. *)
Definition on_requests {A} (m : Requests.rtx A) : ptx A := fun s =>
  match m (request_view s) with
  | Ok (a, v) => Ok (a, set_con (with_requests (con s) (Requests.requests v)) s)
  | Err e => Err (Request e)
  end.
End PageDb.
