(* ===== verification/PageStore.v ===== *)
(** * internal/store/annotations.go, ocr_runs.go and ground_truth.go

    The statements of annotations.sql.go, annotation_publications.sql.go, ocr_runs.sql.go and
    ground_truth.sql.go, and the operations of [AnnotationStore] and [OCRRunStore] on the tables
    of [PageDb]. *)

From Stdlib Require Import ZArith Lia Ascii String.
From stdpp Require Import base gmap strings list sorting.
From S2P Require Import Prelude GoStrings Json JsonParse JobSchema JobStore MediaFragment Presentation Quota QuotaStore QuotaOps Requests Resources Mirrors ItemDb ItemOps PageIndex PageDb.

Module PageStore.
Import Jobs GoStr Json JsonParse JobStore MediaFragment Presentation Resources RawText PageIndex PageDb.
#[local] Open Scope Z_scope.

(** ** Statements *)

Definition ptx_of {A} (e : page_store_err) (f : pdb -> option A) : ptx A := fun s =>
  match f s with Some a => Ok (a, s) | None => Err e end.

(** [item_images ii JOIN items i .. WHERE ii.id = ? AND i.workspace_id = ?] *)
Definition image_owned (s : pdb) (ws img : Z) : bool :=
  match ItemDb.images (base s) !! img with
  | Some g => match ItemDb.items (base s) !! ItemDb.g_item_id g with
              | Some t => ItemDb.t_workspace_id t =? ws
              | None => false
              end
  | None => false
  end.
Definition image_of_workspace (s : pdb) (ws img : Z) : option ItemDb.item_image :=
  g ← ItemDb.images (base s) !! img; if ItemDb.g_workspace_id g =? ws then Some g else None.

Definition LockWorkspaceMemberRole (ws user : Z) : ptx unit := on_tables (ItemOps.LockWorkspaceMemberRole ws user).
Definition LockItemImageForUseManual (img ws : Z) : ptx string :=
  ptx_of NoRows (fun s => ItemDb.g_item_id <$> image_of_workspace s ws img).
Definition LockItemImageDimensionsForWorkspaceManual (img ws : Z) : ptx (option Z * option Z) :=
  ptx_of NoRows (fun s => (fun g => (ItemDb.g_width g, ItemDb.g_height g)) <$> image_of_workspace s ws img).
Definition AnnotationPageResourceExists (ws img : Z) : ptx bool := tx_reads (fun s => image_owned s ws img).

Definition GetAnnotationPage (ws img : Z) : ptx page_row :=
  ptx_of NoRows (fun s => if image_owned s ws img then pages (con s) !! (ws, img) else None).
Definition LockAnnotationPageForPublication (ws img : Z) : ptx page_row := ptx_of NoRows (fun s => pages (con s) !! (ws, img)).

Definition set_pages (x : gmap (Z * Z) page_row) (s : pdb) : pdb := set_con (with_pages (con s) x (index (con s))) s.

(** UNIQUE KEY [uq_annotation_pages_page_id] *)
Definition page_id_free (m : gmap (Z * Z) page_row) (k : Z * Z) (id : string) : bool :=
  bool_decide (map_Forall (fun k' p => k' = k \/ p_page_id p <> id) m).

Definition CreateAnnotationPage (ws img : Z) (p : page_row) : ptx unit := fun s =>
  if negb (image_owned s ws img) then Err NoRows else
  match pages (con s) !! (ws, img) with
  | Some _ => Err Constraint
  | None => if page_id_free (pages (con s)) (ws, img) (p_page_id p)
            then Ok (tt, set_pages (<[(ws, img) := p]> (pages (con s))) s) else Err Constraint
  end.

Definition UpdateAnnotationPageCAS (ws img : Z) (p : page_row) (expectedRevision : Z) : ptx bool := fun s =>
  match pages (con s) !! (ws, img) with
  | Some old =>
      if (p_revision old =? expectedRevision) && image_owned s ws img then
        if page_id_free (pages (con s)) (ws, img) (p_page_id p)
        then Ok (true, set_pages (<[(ws, img) :=
               {| p_page_id := p_page_id p; p_canvas_uri := p_canvas_uri p; p_payload := p_payload p;
                  p_revision := p_revision old + 1; p_updated_by := p_updated_by p |}]> (pages (con s))) s)
        else Err Constraint
      else Ok (false, s)
  | None => Ok (false, s)
  end.

(** *** The index *)

Definition annotationIndexInsertChunkSize : nat := 250.

Definition index_entry_row (x : AnnotationIndexEntry) : index_row :=
  {| x_canvas_uri := X_CanvasURI x;
     x_text_granularity := if bool_decide (X_TextGranularity x = ""%string) then None else Some (X_TextGranularity x);
     x_position := X_Position x; x_payload := X_Payload x |}.

Definition DeleteAnnotationIndexForPageManual (ws img : Z) : ptx unit :=
  tx_modify (fun s => set_con (with_pages (con s) (pages (con s)) (filter (fun kv => kv.1.1 <> (ws, img)) (index (con s)))) s).

(** One INSERT statement; a row whose key exists fails it. *)
Fixpoint insertAnnotationIndexChunk (ws img : Z) (entries : list AnnotationIndexEntry) : ptx unit :=
  match entries with
  | [] => mret tt
  | x :: entries' => fun s =>
      match index (con s) !! (ws, img, X_ID x) with
      | Some _ => Err Constraint
      | None => insertAnnotationIndexChunk ws img entries'
                  (set_con (with_pages (con s) (pages (con s)) (<[(ws, img, X_ID x) := index_entry_row x]> (index (con s)))) s)
      end
  end.

(** Each chunk is not empty, so the entries bound the chunks. *)
Fixpoint insert_chunks (fuel : nat) (ws img : Z) (entries : list AnnotationIndexEntry) : ptx unit :=
  match fuel, entries with
  | _, [] => mret tt
  | O, _ => tx_fail Invalid
  | S n, _ =>
      _ ← insertAnnotationIndexChunk ws img (take annotationIndexInsertChunkSize entries);
      insert_chunks n ws img (drop annotationIndexInsertChunkSize entries)
  end.

Definition ReplaceAnnotationIndex (ws img : Z) (entries : list AnnotationIndexEntry) : ptx unit :=
  _ ← DeleteAnnotationIndexForPageManual ws img;
  insert_chunks (length entries) ws img entries.

Definition by_position (a b : string * index_row) : Prop := x_position a.2 <= x_position b.2.
#[export] Instance by_position_dec a b : Decision (by_position a b).
Proof. unfold by_position. apply _. Defined.

Definition annotationIndexEntryFromRow (ix : string * index_row) : AnnotationIndexEntry :=
  {| X_ID := ix.1; X_CanvasURI := x_canvas_uri ix.2; X_TextGranularity := default ""%string (x_text_granularity ix.2);
     X_Position := x_position ix.2; X_Payload := x_payload ix.2 |}.

(** [SearchIndex]: the rows of one page, by position. *)
Definition SearchIndex (ws img : Z) (s : pdb) : list AnnotationIndexEntry :=
  annotationIndexEntryFromRow <$>
  merge_sort by_position (omap (fun kx => if bool_decide (kx.1.1 = (ws, img)) then Some (kx.1.2, kx.2) else None)
                            (map_to_list (index (con s)))).

(** *** OCR runs *)

Definition set_runs (x : gmap string run_row) (y : gmap Z string) (s : pdb) : pdb := set_con (with_runs (con s) x y) s.

(** The run the image points at. *)
Definition current_run (s : pdb) (img : Z) : option (string * run_row) :=
  sid ← current (con s) !! img; r ← runs (con s) !! sid; Some (sid, r).

Definition with_metric (rev : option Z) (distance : Z) (seg : option string) (r : run_row) : run_row :=
  {| r_workspace_id := r_workspace_id r; r_item_image_id := r_item_image_id r; r_context_id := r_context_id r;
     r_context_scope_id := r_context_scope_id r; r_image_url := r_image_url r; r_provider := r_provider r; r_model := r_model r;
     r_original_hocr := r_original_hocr r; r_original_text := r_original_text r; r_canonical_revision := rev;
     r_levenshtein_distance := distance; r_original_page := r_original_page r; r_segmentation_correction := seg |}.

(** Fails when no row changes. *)
Definition SaveCanonicalOCRCorrectionMetric (rev distance img : Z) : ptx unit :=
  if MaxInt64 <? rev then tx_fail Invalid else fun s =>
  match current_run s img with
  | Some (sid, r) =>
      let r' := with_metric (Some rev) distance (r_segmentation_correction r) r in
      if (r_item_image_id r =? img) && negb (bool_decide (r' = r))
      then Ok (tt, set_runs (<[sid := r']> (runs (con s))) (current (con s)) s) else Err NoRows
  | None => Err NoRows
  end.

Definition SetSegmentationCorrection (img : Z) (rev : option Z) (seg : option string) : ptx unit :=
  tx_modify (fun s =>
    match current_run s img with
    | Some (sid, r) =>
        if bool_decide (is_Some rev) && bool_decide (r_canonical_revision r = rev)
        then set_runs (<[sid := with_metric (r_canonical_revision r) (r_levenshtein_distance r) seg r]> (runs (con s))) (current (con s)) s
        else s
    | None => s
    end).

Record OCRRun := {
  O_OriginalPage : string; O_SessionID : string; O_ItemImageID : option Z; O_ContextID : option Z; O_ImageURL : string;
  O_Provider : string; O_Model : string; O_OriginalHOCR : string; O_OriginalText : string;
}.

(** The context of a run, visible to the workspace of its image; [None] when it is not. *)
Definition run_context (s : pdb) (ws : Z) (ctx : option Z) : option (option Z) :=
  match ctx with
  | None => Some None
  | Some c => row ← ItemDb.contexts (base s) !! c;
      if match ItemDb.c_workspace_id row with None => true | Some w => w =? ws end
      then Some (Some (ItemDb.c_scope_id row)) else None
  end.

Definition InsertOCRRun (img : Z) (sid : string) (ctx : option Z) (url provider model hocr text page : string) : ptx unit :=
  if MaxInt64 <? img then tx_fail Invalid else fun s =>
  match ItemDb.images (base s) !! img with
  | None => Err NoRows
  | Some g =>
      match run_context s (ItemDb.g_workspace_id g) ctx with
      | None => Err NoRows
      | Some scope =>
          match runs (con s) !! sid with
          | Some _ => Err Constraint
          | None => Ok (tt, set_runs (<[sid := {| r_workspace_id := ItemDb.g_workspace_id g; r_item_image_id := img;
                       r_context_id := ctx; r_context_scope_id := scope; r_image_url := url; r_provider := provider;
                       r_model := model; r_original_hocr := hocr; r_original_text := text; r_canonical_revision := None;
                       r_levenshtein_distance := 0; r_original_page := ItemOps.db_nullableString page;
                       r_segmentation_correction := None |}]> (runs (con s))) (current (con s)) s)
          end
      end
  end.

(** [ON DUPLICATE KEY UPDATE session_id]: a row of another image with this session is the one updated. *)
Definition SetCurrentOCRRunManual (img : Z) (sid : string) : ptx unit :=
  tx_modify (fun s =>
    if bool_decide (map_Forall (fun img' sid' => img' = img \/ sid' <> sid) (current (con s)))
    then set_runs (runs (con s)) (<[img := sid]> (current (con s))) s else s).

(** ocr_runs.go *)
Definition uint64ToNullInt64 (v : option Z) : option Z := match v with Some n => if MaxInt64 <? n then None else Some n | None => None end.

Definition insertCurrentOCRRun (run : OCRRun) : ptx unit :=
  if bool_decide (TrimSpace (O_SessionID run) = ""%string) || bool_decide (TrimSpace (O_ImageURL run) = ""%string) then tx_fail Invalid else
  match O_ItemImageID run with
  | None => tx_fail Invalid
  | Some img =>
      if (img =? 0) || (MaxInt64 <? img) then tx_fail Invalid else
      let provider := TrimSpace (O_Provider run) in
      let provider := if bool_decide (provider = ""%string) then "unknown"%string else provider in
      _ ← InsertOCRRun img (TrimSpace (O_SessionID run)) (uint64ToNullInt64 (O_ContextID run)) (TrimSpace (O_ImageURL run))
            provider (TrimSpace (O_Model run)) (O_OriginalHOCR run) (O_OriginalText run) (O_OriginalPage run);
      SetCurrentOCRRunManual img (TrimSpace (O_SessionID run))
  end.

(** *** The accounted bytes of an image *)

Definition itemImageDurableDatabaseBytes (ws img : Z) : ptx Z := on_tables (ItemGraph.itemImageDurableDatabaseBytes ws img).
Definition account (ws img : Z) (before : Z) (quota : Quota.StorageQuotaLimits) : ptx unit :=
  after ← itemImageDurableDatabaseBytes ws img;
  on_quota (QuotaOps.applyStorageQuotaUsedDeltaWithLimits ws before after quota).

(** ** Saving a page *)

Record AnnotationPage := {
  WorkspaceID : Z; ItemImage : Z; PageID : string; Canvas : string; Payload : string; UpdatedByUserID : option Z;
}.
Record AnnotationCorrectionMetric := { SegmentationCorrection : string; LevenshteinDistance : Z }.
Record AnnotationJobCompletion := { Fence : fence; CompletionEvent : event; CompletionRun : option OCRRun }.
Record AnnotationReprocessExternalRequest := { Source : string; IdempotencyKey : string; LeaseOwner : string }.
Record AnnotationReprocessCommit := {
  BaselineRun : OCRRun; ContextID : Z; ContextWorkspaceID : option Z; ReprocessEvent : event;
  ExternalRequest : option AnnotationReprocessExternalRequest;
}.
Record annotationPageSaveOptions := {
  metric : option AnnotationCorrectionMetric; save_fence : option fence; completion : option AnnotationJobCompletion;
  reprocess : option AnnotationReprocessCommit;
}.
(** [AnnotationStore]: its admission policy and its limits. *)
Record store_config := { admission : Z; quota : Quota.StorageQuotaLimits }.

(** ** Encoding helpers *)

(** [strconv]: the shortest text of the float a JSON number denotes; [None] out of range. *)
Class FloatText := float_text : string -> option string.

Fixpoint float_numbers `{FloatText} (v : json) : option json :=
  match v with
  | JNumber lit => JNumber <$> float_text lit
  | JArray l => (fix go l := match l with
      | [] => Some []
      | x :: l' => x' ← float_numbers x; r ← go l'; Some (x' :: r)
      end) l ≫= (fun l => Some (JArray l))
  | JObject m => (fix go m := match m with
      | [] => Some []
      | (k, x) :: m' => x' ← float_numbers x; r ← go m'; Some ((k, x') :: r)
      end) m ≫= (fun m => Some (JObject m))
  | _ => Some v
  end.

(** [time.RFC3339Nano] of a whole second, UTC: the civil date of a day, then the digits. *)
Definition civil_date (days : Z) : Z * Z * Z :=
  let z := days + 719468 in
  let era := z / 146097 in
  let doe := z - era * 146097 in
  let yoe := (doe - doe / 1460 + doe / 36524 - doe / 146096) / 365 in
  let doy := doe - (365 * yoe + yoe / 4 - yoe / 100) in
  let mp := (5 * doy + 2) / 153 in
  let month := if mp <? 10 then mp + 3 else mp - 9 in
  (yoe + era * 400 + (if month <=? 2 then 1 else 0), month, doy - (153 * mp + 2) / 5 + 1).
Fixpoint pad (width : nat) (v : string) : string :=
  match width with
  | O => v
  | S n => if (String.length v <? width)%nat then pad n ("0" ++ v) else v
  end.
Definition digits (width : nat) (n : Z) : string := pad width (itoa n).
Definition format_time (t : Z) : string :=
  let '(year, month, day) := civil_date (t / 86400) in
  let s := t mod 86400 in
  (digits 4 year ++ "-" ++ digits 2 month ++ "-" ++ digits 2 day ++ "T" ++
   digits 2 (s / 3600) ++ ":" ++ digits 2 (s / 60 mod 60) ++ ":" ++ digits 2 (s mod 60) ++ "Z")%string.
Definition blank (v : string) : bool := bool_decide (TrimSpace v = ""%string).

Section store.
Context {SC : Schema} {AS : AnnotationSchema} {UP : UrlParser} {UPr : UrlPrinter} {SH : Sha256} {FT : FloatText}.
Context (e : env) (config : store_config).

Definition lift_page {A} (r : result page_err A) : result page_store_err A :=
  match r with Ok a => Ok a | Err x => Err (Page x) end.
Definition lift_index {A} (r : result index_err A) : result page_store_err A :=
  match r with Ok a => Ok a | Err x => Err (Index x) end.
Definition lift_job {A} (r : result Jobs.err A) : result page_store_err A :=
  match r with Ok a => Ok a | Err x => Err (Job x) end.

(** The checks before the transaction: the trimmed page and its index entries. *)
Definition trimmed (page : AnnotationPage) : AnnotationPage :=
  {| WorkspaceID := WorkspaceID page; ItemImage := ItemImage page; PageID := TrimSpace (PageID page);
     Canvas := TrimSpace (Canvas page); Payload := TrimSpace (Payload page); UpdatedByUserID := UpdatedByUserID page |}.

Definition check_page (page : AnnotationPage) : result page_store_err (list AnnotationIndexEntry) :=
  if (WorkspaceID page =? 0) || (ItemImage page =? 0) then Err Invalid else
  let page := trimmed page in
  if bool_decide (PageID page = ""%string) || bool_decide (Canvas page = ""%string) || bool_decide (Payload page = ""%string)
  then Err Invalid else
  identity ← lift_page (PageIdentityFromPageID (PageID page) (Canvas page));
  if negb (ItemImageID identity =? ItemImage page) then Err Invalid else
  _ ← lift_page (ValidateCanonicalAnnotationPage (Payload page) identity);
  entries ← lift_index (annotationIndexEntries (Canvas page) (Payload page));
  if existsb (fun x => negb (bool_decide (X_CanvasURI x = Canvas page))) entries then Err Invalid else
  Ok entries.

(** A column that is null or not positive is an unknown dimension. *)
Definition dimension (v : option Z) : Z := match v with Some n => if n >? 0 then n else 0 | None => 0 end.

(** The locks and checks every save makes; the accounted bytes before it. *)
Definition lock_page (page : AnnotationPage) : ptx Z :=
  let ws := WorkspaceID page in
  let img := ItemImage page in
  _ ← on_quota (QuotaOps.lockStorageQuotaGuards ws);
  _ ← match UpdatedByUserID page with Some user => LockWorkspaceMemberRole ws user | None => mret tt end;
  dims ← (fun s => match LockItemImageDimensionsForWorkspaceManual img ws s with
                   | Err NoRows => Err PageResource | r => r end);
  _ ← tx_lift (lift_page (ValidateAnnotationPageGeometry (Payload page) (dimension dims.1) (dimension dims.2)));
  itemImageDurableDatabaseBytes ws img.

(** What reprocessing locks: the active job, and the context with its snapshot. *)
Definition lock_reprocess (page : AnnotationPage) (commit : AnnotationReprocessCommit)
    : ptx (option (Z * Jobs.job_row) * Z * json) :=
  workspaceID ← on_jobs e (lockTranscriptionAdmissionWorkspace (ItemImage page));
  if negb (workspaceID =? WorkspaceID page) then tx_fail PageResource else
  active ← on_jobs e (Jobs.LockActiveTranscriptionJobForUpdateManual (ItemImage page));
  _ ← match active with
      | None => on_jobs e (enforceTranscriptionJobAdmission workspaceID (admission config))
      | Some _ => mret tt
      end;
  '(context, snapshot) ← on_jobs e (lockContextSnapshotForWorkspace (ContextID commit) (WorkspaceID page) (ItemImage page));
  mret (active, context, snapshot).

Definition lock_fence (page : AnnotationPage) (expectedRevision attempt : Z) (f : fence) : ptx unit :=
  _ ← on_jobs e (lock_lease e f attempt);
  job ← on_jobs e (Jobs.GetTranscriptionJobManual (JobID f));
  if negb (Jobs.k_item_image_id (Jobs.j_key job) =? ItemImage page) || negb (Jobs.k_input_revision (Jobs.j_key job) =? expectedRevision)
  then tx_fail JobFence else mret tt.

Definition annotationPageToRow (page : AnnotationPage) : result page_store_err page_row :=
  _ ← guard_ok (match UpdatedByUserID page with Some user => user <=? MaxInt64 | None => true end) Invalid;
  Ok {| p_page_id := PageID page; p_canvas_uri := Canvas page; p_payload := Payload page; p_revision := 1;
        p_updated_by := UpdatedByUserID page |}.

(** Revision zero creates, any other replaces exactly that revision. *)
Definition write_page (page : AnnotationPage) (expectedRevision : Z) (row : page_row) : ptx unit :=
  let ws := WorkspaceID page in
  let img := ItemImage page in
  if expectedRevision =? 0 then fun s =>
    match CreateAnnotationPage ws img row s with
    | Err x => match GetAnnotationPage ws img s with Ok _ => Err RevisionConflict | Err _ => Err x end
    | r => r
    end
  else
    updated ← UpdateAnnotationPageCAS ws img row expectedRevision;
    if updated : bool then mret tt else tx_fail RevisionConflict.

Definition write_metric (img revision : Z) (m : AnnotationCorrectionMetric) : ptx unit :=
  distance ← tx_lift (lift_job (int32FromInt (LevenshteinDistance m)));
  _ ← SaveCanonicalOCRCorrectionMetric revision distance img;
  SetSegmentationCorrection img (nullableUint64 revision)
    (if bool_decide (SegmentationCorrection m = ""%string) then None else Some (SegmentationCorrection m)).

(** An event and its webhook deliveries. *)
Definition emit (ws : Z) (id type subject body : string) : ptx unit :=
  _ ← on_jobs e (Jobs.InsertEventOutbox id type (nullableUint64 ws) (nullableString subject) body);
  on_jobs e (Jobs.InsertWorkspaceWebhookDeliveries id).

(** The older active job makes way. *)
Definition supersede_active_job (id : Z) (r : Jobs.job_row) : Jobs.stx unit :=
  _ ← (if bool_decide (Jobs.j_status r = Jobs.Running) then
         f ← tx_lift (attemptFenceFromRow id r);
         finishTranscriptionAttempt e f Jobs.AttemptSuperseded "superseded by image reprocessing" None
       else mret tt);
  _ ← requireOneAffected (Jobs.SupersedeTranscriptionJobByIDManual id (db_now e));
  Jobs.DeleteTranscriptionCheckpoints id.

Definition CreateTranscriptionJob (img context : Z) (snapshot : json) : Jobs.stx Z :=
  id ← Jobs.CreateTranscriptionJobManual img (Some context) snapshot (db_now e);
  if id =? 0 then tx_fail Jobs.ENoRows else mret id.

Definition commitAnnotationReprocess (page : AnnotationPage) (active : option (Z * Jobs.job_row))
    (commit : AnnotationReprocessCommit) (context : Z) (snapshot : json) : ptx Z :=
  _ ← insertCurrentOCRRun (BaselineRun commit);
  _ ← match active with Some (id, r) => on_jobs e (supersede_active_job id r) | None => mret tt end;
  jobID ← on_jobs e (CreateTranscriptionJob (ItemImage page) context snapshot);
  _ ← match ExternalRequest commit with
      | Some request => on_requests (Requests.CompleteExternalRequestManual None (nullableUint64 (ItemImage page))
          (nullableUint64 jobID) (nullableString (O_SessionID (BaselineRun commit))) (WorkspaceID page)
          (TrimSpace (Source request)) (TrimSpace (IdempotencyKey request)) (nullableString (LeaseOwner request)) (db_now e))
      | None => mret tt
      end;
  let ev := ReprocessEvent commit in
  _ ← (if blank (ev_id ev) then mret tt else
       let eventType := TrimSpace (ev_type ev) in
       let eventType := if bool_decide (eventType = ""%string) then "dev.scribe.annotations.reprocessed"%string else eventType in
       emit (WorkspaceID page) (TrimSpace (ev_id ev)) eventType (ev_subject ev) (ev_body ev));
  mret jobID.

(** The worker's part of a save: the provenance, the end of its attempt and job, the event. *)
Definition commit_completion (page : AnnotationPage) (revision : Z) (c : AnnotationJobCompletion) : ptx unit :=
  _ ← match CompletionRun c with
      | Some run => if bool_decide (O_ItemImageID run = Some (ItemImage page)) then insertCurrentOCRRun run else tx_fail Invalid
      | None => mret tt
      end;
  _ ← on_jobs e (complete_leased e (Fence c) revision);
  let ev := CompletionEvent c in
  if negb (blank (ev_id ev)) && negb (blank (ev_body ev))
  then emit (WorkspaceID page) (ev_id ev) (ev_type ev) (ev_subject ev) (ev_body ev) else mret tt.

(** The transaction. *)
Definition save_tx (page : AnnotationPage) (entries : list AnnotationIndexEntry) (expectedRevision fenceAttempt : Z)
    (options : annotationPageSaveOptions) : ptx (page_row * Z) :=
  let ws := WorkspaceID page in
  let img := ItemImage page in
  durableBefore ← lock_page page;
  locked ← match reprocess options with
           | Some commit => l ← lock_reprocess page commit; mret (Some (commit, l))
           | None => mret None
           end;
  _ ← match save_fence options with Some f => lock_fence page expectedRevision fenceAttempt f | None => mret tt end;
  resourceExists ← AnnotationPageResourceExists ws img;
  if negb resourceExists then tx_fail PageResource else
  row ← tx_lift (annotationPageToRow page);
  _ ← write_page page expectedRevision row;
  _ ← ReplaceAnnotationIndex ws img entries;
  stored ← GetAnnotationPage ws img;
  _ ← match metric options with Some m => write_metric img (p_revision stored) m | None => mret tt end;
  jobID ← match locked with
          | Some (commit, (active, context, snapshot)) => commitAnnotationReprocess page active commit context snapshot
          | None => mret 0
          end;
  _ ← match completion options with Some c => commit_completion page (p_revision stored) c | None => mret tt end;
  _ ← account ws img durableBefore (quota config);
  mret (stored, jobID).

(** [(T, error)] and the state a method leaves. *)
Definition outcome (A : Type) : Type := result page_store_err A * pdb.

Definition savePage (page : AnnotationPage) (expectedRevision : Z) (options : annotationPageSaveOptions) (s : pdb)
    : outcome (page_row * Z) :=
  match check_page page with
  | Err x => (Err x, s)
  | Ok entries =>
      match (match save_fence options with Some f => lift_job (transcriptionAttemptNumberToDB f) | None => Ok 0 end) with
      | Err _ => (Err JobFence, s)
      | Ok attempt => run_tx (save_tx (trimmed page) entries expectedRevision attempt options) s
      end
  end.

Definition no_options : annotationPageSaveOptions := {| metric := None; save_fence := None; completion := None; reprocess := None |}.

Definition SavePageWithCorrectionMetric (page : AnnotationPage) (expectedRevision : Z) (m : option AnnotationCorrectionMetric) (s : pdb)
    : outcome (page_row * Z) :=
  savePage page expectedRevision {| metric := m; save_fence := None; completion := None; reprocess := None |} s.
Definition SavePage (page : AnnotationPage) (expectedRevision : Z) (s : pdb) : outcome (page_row * Z) :=
  SavePageWithCorrectionMetric page expectedRevision None s.

Definition SavePageAndCompleteTranscriptionJob (page : AnnotationPage) (expectedRevision : Z) (c : AnnotationJobCompletion) (s : pdb)
    : outcome (page_row * Z) :=
  match validateTranscriptionFence (Fence c) with
  | Err _ => (Err JobFence, s)
  | Ok _ =>
      if negb (expectedRevision =? InputRevision (Fence c)) then (Err JobFence, s) else
      if match CompletionRun c with
         | Some run => blank (O_SessionID run) || negb (bool_decide (O_ItemImageID run = Some (ItemImage page)))
         | None => false
         end
      then (Err Invalid, s)
      else savePage page expectedRevision {| metric := None; save_fence := Some (Fence c); completion := Some c; reprocess := None |} s
  end.

Definition validateAnnotationReprocessCommit (page : AnnotationPage) (commit : AnnotationReprocessCommit) : bool :=
  let run := BaselineRun commit in
  let ev := ReprocessEvent commit in
  negb ((ContextID commit =? 0) || (MaxInt64 <? ContextID commit))
  && match ContextWorkspaceID commit with Some w => w =? WorkspaceID page | None => true end
  && negb (blank (O_SessionID run) || blank (O_ImageURL run))
  && bool_decide (O_ItemImageID run = Some (ItemImage page))
  && bool_decide (O_ContextID run = Some (ContextID commit))
  && Bool.eqb (blank (ev_id ev)) (blank (ev_body ev))
  && match ExternalRequest commit with
     | Some r => negb (blank (Source r) || blank (IdempotencyKey r) || blank (LeaseOwner r))
     | None => true
     end.

Definition SavePageAndStartReprocessing (page : AnnotationPage) (expectedRevision : Z) (commit : AnnotationReprocessCommit) (s : pdb)
    : outcome (page_row * Z) :=
  if expectedRevision =? 0 then (Err Invalid, s) else
  if negb (validateAnnotationReprocessCommit page commit) then (Err Invalid, s) else
  savePage page expectedRevision {| metric := None; save_fence := None; completion := None; reprocess := Some commit |} s.

(** ** Publishing *)

Record AnnotationPublicationOptions := {
  ExpectedRevision : Z; PublishedByUserID : option Z; EventID : string; EventType : string; Subject : string;
}.

Definition nullablePublishedUserID (user : option Z) : result page_store_err (option Z) :=
  match user with
  | None => Ok None
  | Some u => if u =? 0 then Ok None else if MaxInt64 <? u then Err Invalid else Ok (Some u)
  end.

Definition set_published (k : Z * Z) (r : published_row) : ptx unit :=
  tx_modify (fun s => set_con (with_published (con s) (<[k := r]> (published (con s)))) s).

(** UNIQUE KEY [uq_published_annotation_pages_page_id] and [.._item_image] *)
Definition publication_free (m : gmap (Z * Z) published_row) (k : Z * Z) (id : string) : bool :=
  bool_decide (map_Forall (fun k' p => k' = k \/ (u_page_id p <> id /\ k'.2 <> k.2)) m).

Definition write_publication (k : Z * Z) (r : published_row) : ptx unit := fun s =>
  if publication_free (published (con s)) k (u_page_id r) then set_published k r s else Err Constraint.

(** [json.Unmarshal] into an empty [map[string]any]: numbers become floats, null the nil map. *)
Definition unmarshal_map (raw : string) : option json :=
  '(v, rest) ← parse_value (S (String.length raw)) raw;
  if bool_decide (skip_ws rest = ""%string) then
    match v with JObject _ | JNull => float_numbers v | _ => None end
  else None.

Definition event_type_or (v default : string) : string :=
  let v := TrimSpace v in if bool_decide (v = ""%string) then default else v.

Definition publicationEventJSON (canonical : page_row) (ws img publishedAt : Z) (options : AnnotationPublicationOptions)
    (itemID : string) (item : ItemDb.item_row) : option string :=
  items ← unmarshal_raw_items (p_payload canonical);
  metadata ← (if bool_decide (ItemDb.t_metadata item = ""%string) then Some (JObject []) else unmarshal_map (ItemDb.t_metadata item));
  let number n := JNumber (itoa n) in
  let optional (key value : string) (m : obj) := if bool_decide (value = ""%string) then m else jset m key (JString value) in
  let data := foldl (fun m kv => jset m kv.1 kv.2) []
    [("workspaceId", number (ItemDb.t_workspace_id item)); ("itemId", JString itemID); ("itemImageId", number img);
     ("canvasUri", JString (p_canvas_uri canonical)); ("revision", number (p_revision canonical)); ("metadata", metadata);
     ("annotationCount", number (Z.of_nat (length items))); ("annotationPageId", JString (p_page_id canonical));
     ("publishedRevision", number (p_revision canonical)); ("publicUrl", JString (p_page_id canonical));
     ("publishedAt", JString (format_time publishedAt))]%string in
  let data := optional "externalReferenceId"%string (ItemDb.t_external_reference_id item) data in
  let data := optional "idempotencyKey"%string (ItemDb.t_caller_idempotency_key item) data in
  Some (Marshal (JObject (foldl (fun m kv => jset m kv.1 kv.2) []
    [("specversion", JString "1.0"); ("id", JString (TrimSpace (EventID options))); ("source", JString "/scribe");
     ("type", JString (event_type_or (EventType options) "dev.scribe.annotations.published"));
     ("subject", JString (TrimSpace (Subject options))); ("time", JString (format_time publishedAt));
     ("datacontenttype", JString "application/json"); ("data", JObject data)]%string))).

(** [GetItemForWorkspace] *)
Definition GetItemForWorkspace (id : string) (ws : Z) : ptx ItemDb.item_row :=
  ptx_of NoRows (fun s => t ← ItemDb.items (base s) !! id; if ItemDb.t_workspace_id t =? ws then Some t else None).

Definition publish_event (canonical : page_row) (ws img publishedAt : Z) (options : AnnotationPublicationOptions) (itemID : string)
    : ptx unit :=
  if blank (EventID options) then mret tt else
  item ← GetItemForWorkspace itemID ws;
  body ← tx_lift (of_option Encode (publicationEventJSON canonical ws img publishedAt options itemID item));
  emit ws (EventID options) (event_type_or (EventType options) "dev.scribe.annotations.published") (Subject options) body.

(** The locked canonical page of the expected revision, and the public one. *)
Definition lock_publication (ws img : Z) (options : AnnotationPublicationOptions)
    : ptx (string * Z * page_row * option published_row) :=
  _ ← on_quota (QuotaOps.lockStorageQuotaGuards ws);
  itemID ← (fun s => match LockItemImageForUseManual img ws s with Err NoRows => Err PageNotFound | r => r end);
  _ ← match PublishedByUserID options with Some user => LockWorkspaceMemberRole ws user | None => mret tt end;
  durableBefore ← itemImageDurableDatabaseBytes ws img;
  canonical ← (fun s => match LockAnnotationPageForPublication ws img s with Err NoRows => Err PageNotFound | r => r end);
  if negb (p_revision canonical =? ExpectedRevision options) then tx_fail RevisionConflict else
  _ ← tx_lift (lift_page (ValidateAnnotationPage (p_payload canonical)));
  existing ← tx_reads (fun s => published (con s) !! (ws, img));
  mret (itemID, durableBefore, canonical, existing).

(** The new snapshot, what its mirrors have to do, and its event. *)
Definition write_snapshot (ws img : Z) (options : AnnotationPublicationOptions) (itemID : string) (canonical : page_row)
    (existing : option published_row) : ptx published_row :=
  publishedBy ← tx_lift (nullablePublishedUserID (PublishedByUserID options));
  let publishedAt := go_now e in
  let row := {| u_page_id := p_page_id canonical; u_canvas_uri := p_canvas_uri canonical; u_payload := p_payload canonical;
                u_revision := p_revision canonical; u_by := publishedBy; u_at := publishedAt |} in
  _ ← write_publication (ws, img) row;
  let previousPayload := match existing with Some x => u_payload x | None => ""%string end in
  _ ← on_mirrors (Mirrors.replaceAnnotationMirrorTombstones img previousPayload (p_payload canonical));
  _ ← on_mirrors (Mirrors.UpsertAnnotationMirrorOutbox img (p_revision canonical) (p_payload canonical) (db_now e));
  _ ← on_quota (QuotaStore.UpsertResourceCleanup (db_now e) QuotaStore.TripletPresentationItem itemID ws 0 publishedAt);
  _ ← publish_event canonical ws img publishedAt options itemID;
  ptx_of NoRows (fun s => published (con s) !! (ws, img)).

Definition publish_tx (ws img : Z) (options : AnnotationPublicationOptions) : ptx (published_row * bool) :=
  '(itemID, durableBefore, canonical, existing) ← lock_publication ws img options;
  let write :=
    stored ← write_snapshot ws img options itemID canonical existing;
    _ ← account ws img durableBefore (quota config);
    mret (stored, true) in
  match existing with
  | Some x =>
      if u_revision x =? p_revision canonical then mret (x, false) else
      if u_revision x >? p_revision canonical then tx_fail RevisionConflict else write
  | None => write
  end.

(** The snapshot, and [NewlyPublished]. *)
Definition PublishPage (ws img : Z) (options : AnnotationPublicationOptions) (s : pdb) : outcome (published_row * bool) :=
  if (ws =? 0) || (img =? 0) || (ExpectedRevision options =? 0) then (Err Invalid, s)
  else run_tx (publish_tx ws img options) s.

(** ** OCR runs *)

Definition create_run_tx (run : OCRRun) (img ws : Z) : ptx unit :=
  _ ← on_quota (QuotaOps.lockStorageQuotaGuards ws);
  _ ← LockItemImageForUseManual img ws;
  _ ← match O_ContextID run with
      | Some c => ptx_of NoRows (fun s => row ← ItemDb.contexts (base s) !! c;
                    if (ItemDb.c_scope_id row =? 0) || (ItemDb.c_scope_id row =? ws) then Some tt else None)
      | None => mret tt
      end;
  before ← itemImageDurableDatabaseBytes ws img;
  _ ← insertCurrentOCRRun run;
  account ws img before (quota config).

(** [OCRRunStore.Create] *)
Definition Create (run : OCRRun) (s : pdb) : outcome unit :=
  match O_ItemImageID run with
  | None => (Err Invalid, s)
  | Some img =>
      if img =? 0 then (Err Invalid, s) else
      match (g ← ItemDb.images (base s) !! img; ItemDb.items (base s) !! ItemDb.g_item_id g) with
      | None => (Err NoRows, s)
      | Some t => run_tx (create_run_tx run img (ItemDb.t_workspace_id t)) s
      end
  end.

(** ** Ground truth *)

Definition HasGroundTruth (ws img revision : Z) (s : pdb) : bool := bool_decide (is_Some (ground_truth (con s) !! (ws, img, revision))).

(** A mark or an unmark of one revision. *)
Definition write_ground_truth (k : Z * Z * Z) (row : ground_row) (exists_ marked : bool) : ptx unit :=
  if marked && negb exists_ then
    if 0 <? k.2 then tx_modify (fun s => set_con (with_ground_truth (con s) (<[k := row]> (ground_truth (con s)))) s)
    else tx_fail Constraint
  else if negb marked then tx_modify (fun s => set_con (with_ground_truth (con s) (delete k (ground_truth (con s)))) s)
  else mret tt.

Definition mark_tx (ws img revision : Z) (snapshot : ground_row) (marked : bool) : ptx unit :=
  _ ← on_quota (QuotaOps.lockStorageQuotaGuards ws);
  _ ← match t_marked_by snapshot with
      | Some user => if user <=? 0 then tx_fail Invalid else LockWorkspaceMemberRole ws user
      | None => mret tt
      end;
  _ ← (fun s => match LockItemImageForUseManual img ws s with Err _ => Err PageNotFound | r => r end);
  page ← (fun s => match LockAnnotationPageForPublication ws img s with Err NoRows => Err PageNotFound | r => r end);
  if marked && negb (p_revision page =? revision) then tx_fail RevisionConflict else
  if marked && negb (bool_decide (p_payload page = t_payload snapshot)) then tx_fail RevisionConflict else
  before ← itemImageDurableDatabaseBytes ws img;
  exists_ ← tx_reads (HasGroundTruth ws img revision);
  _ ← write_ground_truth (ws, img, revision) snapshot exists_ marked;
  account ws img before (quota config).

Definition MarkGroundTruth (ws img revision : Z) (snapshot : ground_row) (marked : bool) (s : pdb) : outcome unit :=
  run_tx (mark_tx ws img revision snapshot marked) s.
End store.

(** ** Reads *)

Section reads.
Context (s : pdb).

Definition LoadPage (ws img : Z) : result page_store_err page_row :=
  of_option PageNotFound (if image_owned s ws img then pages (con s) !! (ws, img) else None).

(** The images of an item, [ORDER BY sequence, id]. *)
Definition image_order (a b : Z * ItemDb.item_image) : Prop :=
  ItemDb.g_sequence a.2 < ItemDb.g_sequence b.2 \/ (ItemDb.g_sequence a.2 = ItemDb.g_sequence b.2 /\ a.1 <= b.1).
#[export] Instance image_order_dec a b : Decision (image_order a b).
Proof. unfold image_order. apply _. Defined.
Definition images_in_order (item : string) : list (Z * ItemDb.item_image) :=
  merge_sort image_order (filter (fun ig => ItemDb.g_item_id ig.2 = item) (map_to_list (ItemDb.images (base s)))).

Definition owned_item (ws : Z) (item : string) : bool :=
  match ItemDb.items (base s) !! item with Some t => ItemDb.t_workspace_id t =? ws | None => false end.
Definition item_pages (ws : Z) (item : string) : list (Z * page_row) :=
  if owned_item ws item then
    omap (fun ig => (fun p => (ig.1, p)) <$> pages (con s) !! (ws, ig.1)) (images_in_order item)
  else [].

(** Image, revision and payload length. *)
Definition ListItemRevisions (ws : Z) (item : string) : result page_store_err (list (Z * Z * Z)) :=
  if (ws =? 0) || blank item then Err Invalid else
  let rows := item_pages ws item in
  if existsb (fun ip => (ip.1 =? 0) || (p_revision ip.2 =? 0)) rows then Err Invalid
  else Ok ((fun ip => (ip.1, p_revision ip.2, len (p_payload ip.2))) <$> rows).

(** The statement itself bounds the bytes it returns. *)
Definition LoadItemPages (ws : Z) (item : string) (maxSourceBytes : Z) : result page_store_err (list (Z * page_row)) :=
  if (ws =? 0) || blank item || (maxSourceBytes <=? 0) then Err Invalid else
  let rows := item_pages ws item in
  Ok (if ItemGraph.total ((fun ip => len (p_payload ip.2)) <$> rows) <=? maxSourceBytes then rows else []).

Definition LoadPublishedPage (img : Z) : result page_store_err (Z * published_row) :=
  if img =? 0 then Err PageNotFound else
  of_option PageNotFound ((fun kp => (kp.1.1, kp.2)) <$>
    head (filter (fun kp => kp.1.2 = img) (map_to_list (published (con s))))).

Record AnnotationManifestReference := {
  M_WorkspaceID : Z; M_ItemImageID : Z; M_PageID : string; M_CanvasURI : string; M_Revision : Z; M_Published : bool;
}.
Definition validateAnnotationManifestReference (r : AnnotationManifestReference) : bool :=
  negb ((M_WorkspaceID r =? 0) || (M_ItemImageID r =? 0) || (M_Revision r =? 0) || blank (M_PageID r) || blank (M_CanvasURI r)).
Definition valid_references (l : list AnnotationManifestReference) : result page_store_err (list AnnotationManifestReference) :=
  if forallb validateAnnotationManifestReference l then Ok l else Err Invalid.

Definition ListItemManifestReferences (ws : Z) (item : string) : result page_store_err (list AnnotationManifestReference) :=
  if (ws =? 0) || blank item then Err Invalid else
  valid_references ((fun ip => {| M_WorkspaceID := ws; M_ItemImageID := ip.1; M_PageID := p_page_id ip.2;
    M_CanvasURI := p_canvas_uri ip.2; M_Revision := p_revision ip.2; M_Published := false |}) <$> item_pages ws (TrimSpace item)).

(** Existence of the row is the grant: no workspace is given. *)
Definition ListPublishedItemManifestReferences (item : string) : result page_store_err (list AnnotationManifestReference) :=
  if blank item then Err Invalid else
  let item := TrimSpace item in
  match ItemDb.items (base s) !! item with
  | None => Ok []
  | Some t => valid_references (omap (fun ig => (fun p => {| M_WorkspaceID := ItemDb.t_workspace_id t; M_ItemImageID := ig.1;
        M_PageID := u_page_id p; M_CanvasURI := u_canvas_uri p; M_Revision := u_revision p; M_Published := true |})
      <$> published (con s) !! (ItemDb.t_workspace_id t, ig.1)) (images_in_order item))
  end.

Definition ImageURLIsPublished (url : string) : bool :=
  negb (blank url) &&
  existsb (fun ig => bool_decide (ItemDb.g_image_url ig.2 = TrimSpace url) && image_owned s (ItemDb.g_workspace_id ig.2) ig.1
      && bool_decide (ItemDb.g_workspace_id ig.2 ∈ ItemDb.tenants (base s))
      && bool_decide (is_Some (published (con s) !! (ItemDb.g_workspace_id ig.2, ig.1)))) (map_to_list (ItemDb.images (base s))).

(** One annotation of the workspace. *)
Definition GetIndexEntry (ws : Z) (id : string) : result page_store_err AnnotationIndexEntry :=
  of_option NoRows ((fun kx => annotationIndexEntryFromRow (kx.1.2, kx.2)) <$>
    head (filter (fun kx => kx.1.1.1 = ws /\ kx.1.2 = TrimSpace id) (map_to_list (index (con s))))).

(** [rowToOCRRun], without the metric. *)
Definition rowToOCRRun (sid : string) (r : run_row) : OCRRun :=
  {| O_OriginalPage := default ""%string (r_original_page r); O_SessionID := sid;
     O_ItemImageID := if r_item_image_id r >? 0 then Some (r_item_image_id r) else None;
     O_ContextID := (c ← r_context_id r; if c >? 0 then Some c else None);
     O_ImageURL := r_image_url r; O_Provider := r_provider r; O_Model := r_model r;
     O_OriginalHOCR := r_original_hocr r; O_OriginalText := r_original_text r |}.
Definition GetOCRRun (sid : string) : result page_store_err OCRRun := of_option NoRows (rowToOCRRun sid <$> runs (con s) !! sid).
Definition GetByItemImageID (img : Z) : result page_store_err OCRRun :=
  of_option NoRows ('(sid, r) ← current_run s img; if r_item_image_id r =? img then Some (rowToOCRRun sid r) else None).

(** *** The ground truth export *)

Definition truth_order (a b : (Z * Z * Z) * ground_row) : Prop :=
  a.1.1.2 < b.1.1.2 \/ (a.1.1.2 = b.1.1.2 /\ a.1.2 <= b.1.2).
#[export] Instance truth_order_dec a b : Decision (truth_order a b).
Proof. unfold truth_order. apply _. Defined.
Definition of_context (ctx : Z) (t : ground_row) : bool := (ctx =? 0) || bool_decide (t_context_id t = Some ctx).
Definition of_export (ws ctx : Z) (item : string) (k : Z * Z * Z) (t : ground_row) : bool :=
  (k.1.1 =? ws) && of_context ctx t
  && (bool_decide (item = ""%string) || match image_of_workspace s ws k.1.2 with
        | Some g => bool_decide (ItemDb.g_item_id g = item) | None => false end).
Definition ListGroundTruthRevisions (ws ctx : Z) (item : string) : list ((Z * Z * Z) * ground_row) :=
  take 101 (merge_sort truth_order (filter (fun kt => of_export ws ctx item kt.1 kt.2 = true) (map_to_list (ground_truth (con s))))).

(** The loop over the sizes: true when they pass the limit of 32 MiB. *)
Fixpoint over_export_limit (bytes : Z) (sizes : list Z) : bool :=
  match sizes with
  | [] => false
  | n :: sizes' => (bytes + n >? 32 * 2 ^ 20) || (n <? 0) || over_export_limit (bytes + n) sizes'
  end.

Definition GroundTruthBundle (ws ctx : Z) (item : string) : result page_store_err (list ((Z * Z * Z) * ground_row)) :=
  if MaxInt64 <? ctx then Err Invalid else
  let refs := ListGroundTruthRevisions ws ctx item in
  if (100 <? length refs)%nat then Err ExportLimit else
  if over_export_limit 0 ((fun kt => ground_size kt.2) <$> refs) then Err ExportLimit else Ok refs.
End reads.
End PageStore.
