(* ===== verification/PageSteps.v ===== *)
(** * The canonical annotation pages: what the transactions write

    Module [PageSteps]: the statements of [PageStore] leave the documents alone ([frame]) but for
    those that write them; what a save, a publication and a mark of ground truth leave when they succeed, and the rows
    of the index in the order of the page. *)

From Stdlib Require Import ZArith Lia Ascii String.
From stdpp Require Import base gmap strings list sorting.
From S2P Require Import Prelude GoStrings Json JsonParse JobSchema JobStore MediaFragment Presentation Quota QuotaStore QuotaOps QuotaInvariant Requests Resources Mirrors ItemDb ItemOps ItemSound PageIndex PageDb PageStore.

Module PageSteps.
Import GoStr Json JobStore MediaFragment Presentation Resources RawText PageIndex PageDb PageStore.
#[local] Open Scope Z_scope.

(** ** The documents *)

(** Two states with the same documents and the same images to hang them on. *)
Record frame (s s' : pdb) : Prop := {
  fr_pages : pages (con s') = pages (con s);
  fr_index : index (con s') = index (con s);
  fr_published : published (con s') = published (con s);
  fr_truth : ground_truth (con s') = ground_truth (con s);
  fr_images : ItemDb.images (base s') = ItemDb.images (base s);
  fr_items : ItemDb.items (base s') = ItemDb.items (base s);
}.
#[export] Instance frame_refl : Reflexive frame.
Proof. by intros s. Qed.
#[export] Instance frame_trans : Transitive frame.
Proof. intros s t u [] []. split; congruence. Qed.

Lemma frame_owned s s' ws img : frame s s' -> image_owned s' ws img = image_owned s ws img.
Proof. intros []. unfold image_owned. by rewrite fr_images0, fr_items0. Qed.

(** ** Relations every step of a transaction respects *)

(** [m] relates the states before and after it by [R]. *)
Definition keeps {A} (R : relation pdb) (m : ptx A) : Prop := forall s a s', m s = Ok (a, s') -> R s s'.

Section keeps.
Context (R : relation pdb) `{!Reflexive R} `{!Transitive R} {A B : Type}.
Lemma along_ret (a : A) : keeps R (mret a).
Proof using Type*. intros s b s' [= _ <-]. reflexivity. Qed.
Lemma along_fail e : keeps R (tx_fail (A := A) e).
Proof. by intros s b s'. Qed.
Lemma along_lift (r : result page_store_err A) : keeps R (tx_lift r).
Proof using Type*. intros s b s' [_ ->]%tx_lift_Ok. reflexivity. Qed.
Lemma along_bind (m : ptx A) (k : A -> ptx B) : keeps R m -> (forall a, keeps R (k a)) -> keeps R (m ≫= k).
Proof using Type*. intros Hm Hk s b s' (a & s1 & H1 & H2)%tx_bind_Ok. etrans; [by eapply Hm|by eapply Hk]. Qed.
Lemma keeps_of e (f : pdb -> option A) : keeps R (ptx_of e f).
Proof using Type*. intros s a s'. unfold ptx_of. destruct (f s); [|done]. intros [= _ <-]. reflexivity. Qed.
Lemma along_reads (f : pdb -> A) : keeps R (tx_reads f).
Proof using Type*. intros s a s' [= _ <-]. reflexivity. Qed.
(** A row that is missing, reported as another error. *)
Lemma keeps_missing x (f : pdb -> option A) : keeps R (fun s => match ptx_of NoRows f s with Err NoRows => Err x | r => r end).
Proof using Type*. intros s a s'. unfold ptx_of. destruct (f s); [|done]. intros [= _ <-]. reflexivity. Qed.
End keeps.
Lemma keeps_weaken {A} (R R' : relation pdb) (m : ptx A) : (forall s s', R s s' -> R' s s') -> keeps R m -> keeps R' m.
Proof. intros HR Hm s a s' H. by eapply HR, Hm. Qed.

(** A transaction that leaves the documents alone. *)
Abbreviation quiet := (keeps frame).

Section quiet.
Context {A : Type}.
Lemma quiet_tables (m : ItemDb.itx A) : (forall s a s', m s = Ok (a, s') -> ItemDb.images s' = ItemDb.images s /\ ItemDb.items s' = ItemDb.items s) ->
  quiet (on_tables m).
Proof.
  intros Hm s a s'. unfold on_tables. destruct (m (tables s)) as [[b t]|x] eqn:E; [|done]. intros [= <- <-].
  apply Hm in E as [Hi Ht]. by split.
Qed.
Lemma quiet_quota (m : QuotaStore.qtx A) : quiet (on_quota m).
Proof. apply quiet_tables. intros s a s' (q & _ & ->)%ItemSound.quota_Ok. done. Qed.
Lemma quiet_jobs e (m : Jobs.stx A) : quiet (on_jobs e m).
Proof. intros s a s'. unfold on_jobs. destruct (m (queue_view s)) as [[b d]|]; [|done]. by intros [= _ <-]. Qed.
Lemma quiet_mirrors (m : Mirrors.mtx A) : quiet (on_mirrors m).
Proof. intros s a s'. unfold on_mirrors. destruct (m _) as [[b d]|]; [|done]. by intros [= _ <-]. Qed.
Lemma quiet_requests (m : Requests.rtx A) : quiet (on_requests m).
Proof. intros s a s'. unfold on_requests. destruct (m _) as [[b d]|]; [|done]. by intros [= _ <-]. Qed.
End quiet.

Lemma quiet_member ws user : quiet (LockWorkspaceMemberRole ws user).
Proof.
  apply quiet_tables. intros s a s'. unfold ItemOps.LockWorkspaceMemberRole, ItemDb.one_of. cbv [mbind tx_bind tx_reads tx_lift of_option].
  by case_bool_decide; intros [= _ <-].
Qed.
Lemma quiet_measure ws img : quiet (itemImageDurableDatabaseBytes ws img).
Proof. apply quiet_tables. intros s a s'. unfold ItemGraph.itemImageDurableDatabaseBytes, ItemGraph.measure. destruct (_ <=? _); [|done]. by intros [= _ <-]. Qed.
Lemma quiet_runs x y : quiet (tx_modify (set_runs x y)).
Proof. by intros s a s' [= _ <-]. Qed.

(** Along the binds, tests and matches of a transaction. *)
Create HintDb keeps.
#[export] Hint Resolve quiet_quota quiet_jobs quiet_mirrors quiet_requests quiet_member quiet_measure : keeps.
Ltac keeps_step :=
  lazymatch goal with
  | |- keeps _ (mret _) => apply along_ret; [apply _..]
  | |- keeps _ (tx_fail _) => apply along_fail
  | |- keeps _ (tx_lift _) => apply along_lift; [apply _..]
  | |- keeps _ (ptx_of _ _) => apply keeps_of; [apply _..]
  | |- keeps _ (tx_reads _) => apply along_reads; [apply _..]
  | |- keeps _ (_ ≫= _) => apply along_bind; [apply _|apply _| |intros ?]
  | |- keeps _ (if ?b then _ else _) => destruct b
  | |- keeps _ (match ?x with _ => _ end) => destruct x
  end.
Ltac solve_keeps := repeat keeps_step; eauto with keeps.

(** ** Everything else a save does *)

Lemma insert_run_quiet img sid ctx url provider model hocr text page : quiet (InsertOCRRun img sid ctx url provider model hocr text page).
Proof.
  unfold InsertOCRRun. solve_keeps. intros s a s'. destruct (ItemDb.images (base s) !! img); [|done].
  destruct (run_context _ _ _); [|done]. destruct (runs (con s) !! sid); [done|]. by intros [= _ <-].
Qed.
Lemma current_run_quiet img sid : quiet (SetCurrentOCRRunManual img sid).
Proof. intros s a s' [= _ <-]. by case_bool_decide. Qed.
#[export] Hint Resolve insert_run_quiet current_run_quiet : keeps.
Lemma insert_current_quiet run : quiet (insertCurrentOCRRun run).
Proof. unfold insertCurrentOCRRun. solve_keeps. Qed.
Lemma set_segmentation_quiet img rev seg : quiet (SetSegmentationCorrection img rev seg).
Proof. intros s a s' [= _ <-]. destruct (current_run s img) as [[sid r]|]; [|done]. by destruct (_ && _). Qed.
Lemma save_metric_quiet rev d img : quiet (SaveCanonicalOCRCorrectionMetric rev d img).
Proof.
  unfold SaveCanonicalOCRCorrectionMetric. solve_keeps. intros s a s'. destruct (current_run s img) as [[sid r]|]; [|done].
  destruct (_ && _); [|done]. by intros [= _ <-].
Qed.
#[export] Hint Resolve insert_current_quiet set_segmentation_quiet save_metric_quiet : keeps.
Lemma write_metric_quiet img rev m : quiet (write_metric img rev m).
Proof. unfold write_metric. solve_keeps. Qed.
Lemma account_quiet ws img b q : quiet (account ws img b q).
Proof. unfold account. solve_keeps. Qed.
#[export] Hint Resolve write_metric_quiet account_quiet : keeps.

(** ** Transactions on the content alone, and on the accounts alone *)

Record content_only (s s' : pdb) : Prop := { co_base : base s' = base s; co_events : events s' = events s }.
#[export] Instance content_only_refl : Reflexive content_only.
Proof. by intros s. Qed.
#[export] Instance content_only_trans : Transitive content_only.
Proof. intros s t u [] []. split; congruence. Qed.

Record accounts_only (s s' : pdb) : Prop := {
  ao_con : con s' = con s; ao_events : events s' = events s; ao_queue : ItemDb.queue (base s') = ItemDb.queue (base s);
}.
#[export] Instance accounts_only_refl : Reflexive accounts_only.
Proof. by intros s. Qed.
#[export] Instance accounts_only_trans : Transitive accounts_only.
Proof. intros s t u [] []. split; congruence. Qed.

(** The jobs, attempts and checkpoints stay. *)
Definition same_queue (s s' : pdb) : Prop := ItemDb.queue (base s') = ItemDb.queue (base s).
#[export] Instance same_queue_refl : Reflexive same_queue.
Proof. by intros s. Qed.
#[export] Instance same_queue_trans : Transitive same_queue.
Proof. unfold same_queue. intros s t u ??. congruence. Qed.
Lemma content_queue {A} (m : ptx A) : keeps content_only m -> keeps same_queue m.
Proof. apply keeps_weaken. intros s s' [H _]. unfold same_queue. by rewrite H. Qed.
Lemma accounts_queue {A} (m : ptx A) : keeps accounts_only m -> keeps same_queue m.
Proof. apply keeps_weaken. by intros s s' []. Qed.

Lemma modify_content f : (forall s, content_only s (f s)) -> keeps content_only (tx_modify f).
Proof. intros Hf s a s' [= _ <-]. apply Hf. Qed.
Lemma insert_run_content img sid ctx url provider model hocr text page :
  keeps content_only (InsertOCRRun img sid ctx url provider model hocr text page).
Proof.
  unfold InsertOCRRun. solve_keeps. intros s a s'. destruct (ItemDb.images (base s) !! img); [|done].
  destruct (run_context _ _ _); [|done]. destruct (runs (con s) !! sid); [done|]. by intros [= _ <-].
Qed.
Lemma current_run_content img sid : keeps content_only (SetCurrentOCRRunManual img sid).
Proof. apply modify_content. intros s. by case_bool_decide. Qed.
#[export] Hint Resolve insert_run_content current_run_content : keeps.
Lemma insert_current_content run : keeps content_only (insertCurrentOCRRun run).
Proof. unfold insertCurrentOCRRun. solve_keeps. Qed.
Lemma set_segmentation_content img rev seg : keeps content_only (SetSegmentationCorrection img rev seg).
Proof. apply modify_content. intros s. destruct (current_run s img) as [[sid r]|]; [|done]. by destruct (_ && _). Qed.
Lemma save_metric_content rev d img : keeps content_only (SaveCanonicalOCRCorrectionMetric rev d img).
Proof.
  unfold SaveCanonicalOCRCorrectionMetric. solve_keeps. intros s a s'. destruct (current_run s img) as [[sid r]|]; [|done].
  destruct (_ && _); [|done]. by intros [= _ <-].
Qed.
#[export] Hint Resolve insert_current_content set_segmentation_content save_metric_content : keeps.
Lemma write_metric_content img rev m : keeps content_only (write_metric img rev m).
Proof. unfold write_metric. solve_keeps. Qed.
Lemma mirrors_content {A} (m : Mirrors.mtx A) : keeps content_only (on_mirrors m).
Proof. intros s a s'. unfold on_mirrors. destruct (m _) as [[b d]|]; [|done]. by intros [= _ <-]. Qed.
Lemma requests_content {A} (m : Requests.rtx A) : keeps content_only (on_requests m).
Proof. intros s a s'. unfold on_requests. destruct (m _) as [[b d]|]; [|done]. by intros [= _ <-]. Qed.

Lemma tables_accounts {A} (m : ItemDb.itx A) : (forall s a s', m s = Ok (a, s') -> ItemDb.queue s' = ItemDb.queue s) ->
  keeps accounts_only (on_tables m).
Proof.
  intros Hm s a s'. unfold on_tables. destruct (m (tables s)) as [[b t]|x] eqn:E; [|done]. intros [= <- <-]. apply Hm in E. by split.
Qed.
Lemma quota_accounts {A} (m : QuotaStore.qtx A) : keeps accounts_only (on_quota m).
Proof. apply tables_accounts. by intros s a s' (q & _ & ->)%ItemSound.quota_Ok. Qed.
Lemma member_accounts ws user : keeps accounts_only (LockWorkspaceMemberRole ws user).
Proof.
  apply tables_accounts. intros s a s'. unfold ItemOps.LockWorkspaceMemberRole, ItemDb.one_of. cbv [mbind tx_bind tx_reads tx_lift of_option].
  by case_bool_decide; intros [= _ <-].
Qed.
Lemma measure_accounts ws img : keeps accounts_only (itemImageDurableDatabaseBytes ws img).
Proof. apply tables_accounts. intros s a s'. unfold ItemGraph.itemImageDurableDatabaseBytes, ItemGraph.measure. destruct (_ <=? _); [|done]. by intros [= _ <-]. Qed.
#[export] Hint Resolve write_metric_content mirrors_content requests_content quota_accounts member_accounts measure_accounts : keeps.
Lemma account_accounts ws img b q : keeps accounts_only (account ws img b q).
Proof. unfold account. solve_keeps. Qed.
#[export] Hint Resolve account_accounts : keeps.
Lemma lock_page_accounts page : keeps accounts_only (lock_page page).
Proof. unfold lock_page. solve_keeps. apply keeps_missing; apply _. Qed.

(** ** The index of a page *)

(** The rows of one page in the index are those of the entries, the others those of [m0]. *)
Record indexed (ws img : Z) (entries : list AnnotationIndexEntry) (m0 m : gmap (Z * Z * string) index_row) : Prop := {
  ix_rows : forall id r, m !! (ws, img, id) = Some r <-> exists x, x ∈ entries /\ X_ID x = id /\ index_entry_row x = r;
  ix_others : forall k, k.1 <> (ws, img) -> m !! k = m0 !! k;
  ix_ids : NoDup (X_ID <$> entries);
}.

Definition set_index (m : gmap (Z * Z * string) index_row) (s : pdb) : pdb := set_con (with_pages (con s) (pages (con s)) m) s.

Lemma chunk_indexed ws img m0 chunk entries s s' :
  indexed ws img entries m0 (index (con s)) -> insertAnnotationIndexChunk ws img chunk s = Ok (tt, s') ->
  exists m', s' = set_index m' s /\ indexed ws img (entries ++ chunk) m0 m'.
Proof.
  revert entries s. induction chunk as [|x chunk IH]; intros entries s Hx H; cbn [insertAnnotationIndexChunk] in H.
  { injection H as <-. exists (index (con s)). rewrite app_nil_r. split; [|done]. by destruct s as [? [] ?]. }
  destruct (index (con s) !! (ws, img, X_ID x)) eqn:Ef; [done|].
  apply (IH (entries ++ [x])) in H as (m' & -> & H); [exists m'; by rewrite <- app_assoc in H|].
  destruct Hx as [Hr Ho Hd]. split; cbn.
  - intros id r. rewrite lookup_insert_Some, Hr. split.
    + intros [[[= <-] <-]|[_ (y & Hy & <- & <-)]]; [|set_solver]. exists x. set_solver.
    + intros (y & Hy & <- & <-). apply elem_of_app in Hy as [Hy|Hy%list_elem_of_singleton].
      * right. split; [|by exists y]. intros [= E]. assert (index (con s) !! (ws, img, X_ID x) = Some (index_entry_row y)) by (apply Hr; by exists y).
        congruence.
      * subst y. by left.
  - intros k Hk. rewrite lookup_insert_ne by (by intros <-). by apply Ho.
  - rewrite fmap_app. apply NoDup_app. split; [done|]. split; [|by apply NoDup_singleton].
    intros id (y & -> & Hy)%list_elem_of_fmap Hin%list_elem_of_singleton.
    assert (index (con s) !! (ws, img, X_ID x) = Some (index_entry_row y)) by (apply Hr; by exists y). congruence.
Qed.

Lemma chunks_indexed fuel ws img m0 rest entries s s' :
  indexed ws img entries m0 (index (con s)) -> insert_chunks fuel ws img rest s = Ok (tt, s') ->
  exists m', s' = set_index m' s /\ indexed ws img (entries ++ rest) m0 m'.
Proof.
  revert rest entries s. induction fuel as [|n IH]; intros rest entries s Hx H; destruct rest as [|x rest]; cbn [insert_chunks] in H; try done.
  1,2: injection H as <-; exists (index (con s)); rewrite app_nil_r; split; [|done]; by destruct s as [? [] ?].
  tx_bind H as [] s1 H1. apply (chunk_indexed _ _ m0 _ entries) in H1 as (m1 & -> & H1); [|done].
  apply (IH _ _ (set_index m1 s) H1) in H as (m' & -> & H). exists m'. split; [done|]. by rewrite <- app_assoc, take_drop in H.
Qed.

Lemma replace_indexed ws img entries s s' : ReplaceAnnotationIndex ws img entries s = Ok (tt, s') ->
  exists m', s' = set_index m' s /\ indexed ws img entries (index (con s)) m'.
Proof.
  unfold ReplaceAnnotationIndex, DeleteAnnotationIndexForPageManual. intros H. tx_bind H as [] s1 H1. injection H1 as <-.
  apply (chunks_indexed _ _ _ (index (con s)) _ []) in H; [done|]. cbn. split.
  - intros id r. rewrite map_lookup_filter_Some. set_solver.
  - intros k Hk. destruct (index (con s) !! k) as [r|] eqn:E.
    + by apply map_lookup_filter_Some.
    + by apply map_lookup_filter_None_2; left.
  - apply NoDup_nil_2.
Qed.

(** The chunks cover the entries: an index whose identifiers differ is always inserted. *)
Lemma chunk_total ws img chunk s : NoDup (X_ID <$> chunk) -> (forall x, x ∈ chunk -> index (con s) !! (ws, img, X_ID x) = None) ->
  exists s', insertAnnotationIndexChunk ws img chunk s = Ok (tt, s') /\ (forall id, id ∉ X_ID <$> chunk ->
    index (con s') !! (ws, img, id) = index (con s) !! (ws, img, id)).
Proof.
  revert s. induction chunk as [|x chunk IH]; intros s Hd Hf; cbn [insertAnnotationIndexChunk]; [by eauto|].
  apply NoDup_cons in Hd as [Hx Hd]. rewrite (Hf x) by set_solver. edestruct IH as (s' & -> & Hs'); [done| |].
  - intros y Hy. cbn. rewrite lookup_insert_ne; [apply Hf; set_solver|]. intros [= E]. apply Hx. apply list_elem_of_fmap. by exists y.
  - exists s'. split; [done|]. intros id Hid. rewrite fmap_cons, not_elem_of_cons in Hid. rewrite Hs' by apply Hid.
    cbn. rewrite lookup_insert_ne; [done|]. intros [= E]. by apply (proj1 Hid).
Qed.
Lemma chunks_total fuel ws img rest s : (length rest <= fuel)%nat -> NoDup (X_ID <$> rest) ->
  (forall x, x ∈ rest -> index (con s) !! (ws, img, X_ID x) = None) -> exists s', insert_chunks fuel ws img rest s = Ok (tt, s').
Proof.
  revert rest s. induction fuel as [|n IH]; intros rest s Hl Hd Hf; (destruct rest as [|x rest]; [by eexists|]); [cbn in Hl; lia|].
  cbn [insert_chunks]. remember (x :: rest) as l eqn:El.
  rewrite <- (take_drop annotationIndexInsertChunkSize l), fmap_app in Hd. apply NoDup_app in Hd as (Hd1 & Hdis & Hd2).
  destruct (chunk_total ws img (take annotationIndexInsertChunkSize l) s) as (s1 & Hs1 & Hk); [done| |].
  { intros y Hy. apply Hf. apply elem_of_take in Hy as (i & Hi & _). by eapply list_elem_of_lookup_2. }
  unfold mbind, tx_bind. rewrite Hs1. apply IH.
  - rewrite length_drop. subst l. cbn [length] in *. unfold annotationIndexInsertChunkSize. lia.
  - done.
  - intros y Hy. assert (X_ID y ∈ X_ID <$> drop annotationIndexInsertChunkSize l) by (apply list_elem_of_fmap; by exists y).
    rewrite Hk by (intros Hin; by eapply Hdis). apply Hf. rewrite <- (take_drop annotationIndexInsertChunkSize l). set_solver.
Qed.
Lemma replace_total ws img entries s : NoDup (X_ID <$> entries) -> exists s', ReplaceAnnotationIndex ws img entries s = Ok (tt, s').
Proof.
  intros Hd. unfold ReplaceAnnotationIndex, DeleteAnnotationIndexForPageManual, mbind, tx_bind, tx_modify.
  apply chunks_total; [done|done|]. intros x _. cbn. apply map_lookup_filter_None_2. right. intros r _. cbn. naive_solver.
Qed.

(** ** The rows of a page, by position, are its entries *)

Definition entry_row (x : AnnotationIndexEntry) : string * index_row := (X_ID x, index_entry_row x).
Definition rows_of (ws img : Z) (m : gmap (Z * Z * string) index_row) : list (string * index_row) :=
  omap (fun kx => if bool_decide (kx.1.1 = (ws, img)) then Some (kx.1.2, kx.2) else None) (map_to_list m).

#[export] Instance by_position_total : Total by_position.
Proof. intros a b. unfold by_position. lia. Qed.
#[export] Instance by_position_trans : Transitive by_position.
Proof. intros a b c. unfold by_position. lia. Qed.

Lemma positions_ge p entries x : X_Position <$> entries = seqZ p (Z.of_nat (length entries)) -> x ∈ entries -> p <= X_Position x.
Proof.
  intros Hp Hx. assert (Hin : X_Position x ∈ X_Position <$> entries) by (apply list_elem_of_fmap; by exists x).
  rewrite Hp in Hin. apply elem_of_seqZ in Hin. lia.
Qed.
Lemma positions_cons p x entries : X_Position <$> x :: entries = seqZ p (Z.of_nat (length (x :: entries))) ->
  X_Position x = p /\ X_Position <$> entries = seqZ (p + 1) (Z.of_nat (length entries)).
Proof.
  cbn [length]. rewrite (seqZ_cons p) by lia. intros [= <- Hp]. split; [done|]. etrans; [exact Hp|]. f_equal; lia.
Qed.
Lemma entries_sorted p entries : X_Position <$> entries = seqZ p (Z.of_nat (length entries)) ->
  StronglySorted by_position (entry_row <$> entries).
Proof.
  revert p. induction entries as [|x entries IH]; intros p Hp; [constructor|].
  apply positions_cons in Hp as [Hx Hp]. constructor; [by eapply IH|]. apply Forall_fmap, Forall_forall. intros y Hy.
  pose proof (positions_ge _ _ _ Hp Hy). unfold by_position. cbn. lia.
Qed.
Lemma entries_apart p entries x y : X_Position <$> entries = seqZ p (Z.of_nat (length entries)) ->
  x ∈ entries -> y ∈ entries -> X_Position x = X_Position y -> x = y.
Proof.
  revert p. induction entries as [|z entries IH]; intros p Hp Hx Hy E; [by apply elem_of_nil in Hx|].
  apply positions_cons in Hp as [Hz Hp]. pose proof (fun u => positions_ge _ _ u Hp) as Hge.
  apply elem_of_cons in Hx as [->|Hx]; apply elem_of_cons in Hy as [->|Hy]; [done| | |by eapply IH].
  - specialize (Hge _ Hy). lia.
  - specialize (Hge _ Hx). lia.
Qed.

Lemma rows_of_NoDup ws img m : NoDup (rows_of ws img m).
Proof.
  unfold rows_of. pose proof (NoDup_map_to_list m) as Hn. induction Hn as [|[[k id] r] l Hk Hn IH]; [constructor|]. simpl.
  case_bool_decide as E; simpl in *; [|done]. constructor; [|done]. intros ([[k' id'] r'] & Hin & Hs)%list_elem_of_omap. simpl in *.
  case_bool_decide; [|done]. simplify_eq. done.
Qed.
Lemma elem_of_page_rows ws img m id r : (id, r) ∈ rows_of ws img m <-> m !! (ws, img, id) = Some r.
Proof.
  unfold rows_of. rewrite list_elem_of_omap. split.
  - intros ([[k id'] r'] & Hin & Hs). simpl in *. case_bool_decide; [|done]. simplify_eq. by apply elem_of_map_to_list in Hin.
  - intros Hm. exists (ws, img, id, r). split; [by apply elem_of_map_to_list|]. simpl. by rewrite bool_decide_true.
Qed.
Lemma rows_entries ws img entries m0 m : indexed ws img entries m0 m -> rows_of ws img m ≡ₚ entry_row <$> entries.
Proof.
  intros [Hr _ Hd]. apply NoDup_Permutation; [apply rows_of_NoDup| |].
  - apply (NoDup_fmap_1 fst). rewrite <- list_fmap_compose. exact Hd.
  - intros [id r]. rewrite elem_of_page_rows, Hr, list_elem_of_fmap. split; intros (x & H1 & H2).
    + exists x. by destruct H2 as [<- <-].
    + exists x. injection H1 as -> ->. done.
Qed.

Lemma search_indexed ws img entries m0 s : indexed ws img entries m0 (index (con s)) ->
  X_Position <$> entries = seqZ 0 (Z.of_nat (length entries)) -> SearchIndex ws img s = entries.
Proof.
  intros Hx Hp. unfold SearchIndex. fold (rows_of ws img (index (con s))).
  assert (merge_sort by_position (rows_of ws img (index (con s))) = entry_row <$> entries) as ->.
  2:{ rewrite <- list_fmap_compose. rewrite <- (list_fmap_id entries) at 2. apply list_fmap_ext. intros i x _.
      destruct x as [id c g p l]. unfold annotationIndexEntryFromRow. cbn. f_equal. by case_bool_decide. }
  apply rows_entries in Hx. apply (StronglySorted_unique_strong by_position).
  - intros a b Ha Hb H1 H2. rewrite merge_sort_Permutation, Hx in Ha.
    apply list_elem_of_fmap in Ha as (x & -> & Hx'). apply list_elem_of_fmap in Hb as (y & -> & Hy').
    f_equal. eapply entries_apart; eauto. unfold by_position in *. cbn in *. lia.
  - apply StronglySorted_merge_sort; apply _.
  - by eapply entries_sorted.
  - by rewrite merge_sort_Permutation.
Qed.

Section store.
Context {SC : Schema} {AS : AnnotationSchema} {UP : UrlParser} {UPr : UrlPrinter} {SH : Sha256} {FT : FloatText}.
Context (e : env) (config : store_config).

Lemma emit_quiet ws id type subject body : quiet (emit e ws id type subject body).
Proof. unfold emit. solve_keeps. Qed.
Lemma lock_page_quiet page : quiet (lock_page page).
Proof.
  unfold lock_page. solve_keeps. apply keeps_missing; apply _.
Qed.
Lemma lock_reprocess_quiet page commit : quiet (lock_reprocess e config page commit).
Proof. unfold lock_reprocess. solve_keeps. Qed.
Lemma lock_fence_quiet page rev att f : quiet (lock_fence e page rev att f).
Proof. unfold lock_fence. solve_keeps. Qed.
#[local] Hint Resolve emit_quiet : keeps.
Lemma commit_reprocess_quiet page active commit ctx snap : quiet (commitAnnotationReprocess e page active commit ctx snap).
Proof. unfold commitAnnotationReprocess. solve_keeps. Qed.
Lemma commit_completion_quiet page rev c : quiet (commit_completion e page rev c).
Proof. unfold commit_completion. solve_keeps. Qed.
Lemma publish_event_quiet p ws img at_ options item : quiet (publish_event e p ws img at_ options item).
Proof. unfold publish_event, GetItemForWorkspace. solve_keeps. Qed.

(** ** A save *)

(** What a save of [page] over [expected] leaves. *)
Record saved (page : AnnotationPage) (entries : list AnnotationIndexEntry) (expected : Z) (stored : page_row) (s s' : pdb) : Prop := {
  sv_pages : pages (con s') = <[(WorkspaceID page, ItemImage page) := stored]> (pages (con s));
  sv_index : indexed (WorkspaceID page) (ItemImage page) entries (index (con s)) (index (con s'));
  sv_published : published (con s') = published (con s);
  sv_truth : ground_truth (con s') = ground_truth (con s);
  sv_images : ItemDb.images (base s') = ItemDb.images (base s);
  sv_items : ItemDb.items (base s') = ItemDb.items (base s);
  sv_stored : p_page_id stored = PageID page /\ p_canvas_uri stored = Canvas page /\ p_payload stored = Payload page
    /\ p_updated_by stored = UpdatedByUserID page /\ p_revision stored = expected + 1;
  sv_previous : if expected =? 0 then pages (con s) !! (WorkspaceID page, ItemImage page) = None
    else exists old, pages (con s) !! (WorkspaceID page, ItemImage page) = Some old /\ p_revision old = expected;
  sv_free : page_id_free (pages (con s)) (WorkspaceID page, ItemImage page) (PageID page) = true;
  sv_owned : image_owned s (WorkspaceID page) (ItemImage page) = true;
}.

Lemma saved_frame page entries expected stored s0 s s1 s' :
  frame s0 s -> saved page entries expected stored s s1 -> frame s1 s' -> saved page entries expected stored s0 s'.
Proof.
  intros Ha [] Hb. pose proof (frame_owned _ _ (WorkspaceID page) (ItemImage page) Ha) as Ho. destruct Ha, Hb.
  rewrite fr_pages0, fr_index0, fr_published0, fr_truth0, fr_images0, fr_items0, Ho in *. split; try done; congruence.
Qed.

Lemma create_page_Ok ws img p s s' : CreateAnnotationPage ws img p s = Ok (tt, s') ->
  pages (con s) !! (ws, img) = None /\ page_id_free (pages (con s)) (ws, img) (p_page_id p) = true /\ s' = set_pages (<[(ws, img) := p]> (pages (con s))) s.
Proof.
  unfold CreateAnnotationPage. destruct (negb _); [done|]. destruct (pages (con s) !! (ws, img)); [done|].
  destruct (page_id_free _ _ _); [|done]. by intros [= <-].
Qed.

Definition revised (p : page_row) (revision : Z) : page_row :=
  {| p_page_id := p_page_id p; p_canvas_uri := p_canvas_uri p; p_payload := p_payload p; p_revision := revision; p_updated_by := p_updated_by p |}.

Lemma update_page_Ok ws img p expected s s' : UpdateAnnotationPageCAS ws img p expected s = Ok (true, s') ->
  exists old, pages (con s) !! (ws, img) = Some old /\ p_revision old = expected /\
    page_id_free (pages (con s)) (ws, img) (p_page_id p) = true /\ s' = set_pages (<[(ws, img) := revised p (expected + 1)]> (pages (con s))) s.
Proof.
  unfold UpdateAnnotationPageCAS. destruct (pages (con s) !! (ws, img)) as [old|]; [|done].
  destruct (_ && _) eqn:E; [|done]. split_bools. destruct (page_id_free _ _ _); [|done]. intros [= <-]. exists old.
  subst expected. done.
Qed.

Lemma write_page_Ok page expected row s s' : p_revision row = 1 -> write_page page expected row s = Ok (tt, s') ->
  (if expected =? 0 then pages (con s) !! (WorkspaceID page, ItemImage page) = None
   else exists old, pages (con s) !! (WorkspaceID page, ItemImage page) = Some old /\ p_revision old = expected) /\
  page_id_free (pages (con s)) (WorkspaceID page, ItemImage page) (p_page_id row) = true /\
  s' = set_pages (<[(WorkspaceID page, ItemImage page) := revised row (expected + 1)]> (pages (con s))) s.
Proof.
  unfold write_page. intros Hrow. destruct (Z.eqb_spec expected 0) as [->|Hne].
  - destruct (CreateAnnotationPage _ _ _ _) as [[[] s1]|x] eqn:E.
    2:{ destruct (GetAnnotationPage _ _ _); done. }
    intros [= <-]. apply create_page_Ok in E as (Hn & Hf & ->). split; [done|]. split; [done|].
    destruct row. cbn in *. by subst.
  - intros H. tx_bind H as b s1 H1. destruct b; [|done]. injection H as <-. apply update_page_Ok in H1 as (old & Ho & Hr & Hf & ->). eauto.
Qed.

Lemma page_row_Ok page row : annotationPageToRow page = Ok row ->
  row = {| p_page_id := PageID page; p_canvas_uri := Canvas page; p_payload := Payload page; p_revision := 1; p_updated_by := UpdatedByUserID page |}.
Proof. unfold annotationPageToRow. intros (u & _ & [= <-])%result_bind_Ok. done. Qed.

Lemma get_page_Ok ws img s p s' : GetAnnotationPage ws img s = Ok (p, s') <-> s' = s /\ image_owned s ws img = true /\ pages (con s) !! (ws, img) = Some p.
Proof.
  unfold GetAnnotationPage, ptx_of. destruct (image_owned s ws img); [destruct (pages (con s) !! (ws, img))|]; naive_solver.
Qed.

Lemma save_tx_saved page entries expected attempt options s stored job s' :
  save_tx e config page entries expected attempt options s = Ok ((stored, job), s') -> saved page entries expected stored s s'.
Proof.
  unfold save_tx. intros H. tx_bind H as before s1 H1. apply lock_page_quiet in H1.
  tx_bind H as locked s2 H2. assert (Hf2 : frame s1 s2).
  { destruct (reprocess options); [|by injection H2 as _ <-]. tx_bind H2 as l s3 H3. injection H2 as _ <-. by eapply lock_reprocess_quiet. }
  tx_bind H as [] s3 H3. assert (Hf3 : frame s2 s3).
  { destruct (save_fence options); [by eapply lock_fence_quiet|by injection H3 as <-]. }
  tx_bind H as ex s4 H4. injection H4 as <- <-. destruct (image_owned s3 _ _) eqn:Hown; [|done]. cbn [negb] in H.
  tx_bind H as row s4 H4. apply tx_lift_Ok in H4 as [Hrow ->]. apply page_row_Ok in Hrow as ->.
  tx_bind H as [] s4 H4. apply write_page_Ok in H4 as (Hprev & Hfree & ->); [|done].
  tx_bind H as [] s5 H5. apply replace_indexed in H5 as (m & -> & Hix).
  tx_bind H as got s6 H6. apply get_page_Ok in H6 as (-> & _ & Hgot). cbn in Hgot. rewrite lookup_insert_eq in Hgot. injection Hgot as <-.
  set (s5 := set_index m _) in *.
  tx_bind H as [] s6 H6. assert (Hf6 : frame s5 s6).
  { destruct (metric options); [by eapply write_metric_quiet|by injection H6 as <-]. }
  tx_bind H as id s7 H7. assert (Hf7 : frame s6 s7).
  { destruct locked as [[commit [[active ctx] snap]]|]; [by eapply commit_reprocess_quiet|by injection H7 as _ <-]. }
  tx_bind H as [] s8 H8. assert (Hf8 : frame s7 s8).
  { destruct (completion options); [by eapply commit_completion_quiet|by injection H8 as <-]. }
  tx_bind H as [] s9 H9. apply account_quiet in H9. injection H as <- <- <-.
  eapply (saved_frame _ _ _ _ s s3 s5); [by do 2 (etrans; [eassumption|])| |by do 3 (etrans; [eassumption|])].
  split; try done; subst s5; cbn; try done.
Qed.

(** ** A publication *)

(** The public row that names a revision of a canonical page. *)
Definition snapshot_of (p : page_row) (by_ : option Z) (at_ : Z) : published_row :=
  {| u_page_id := p_page_id p; u_canvas_uri := p_canvas_uri p; u_payload := p_payload p; u_revision := p_revision p; u_by := by_; u_at := at_ |}.

Record published_as (ws img : Z) (options : AnnotationPublicationOptions) (row : published_row) (new : bool) (s s' : pdb) : Prop := {
  pb_pages : pages (con s') = pages (con s);
  pb_index : index (con s') = index (con s);
  pb_truth : ground_truth (con s') = ground_truth (con s);
  pb_images : ItemDb.images (base s') = ItemDb.images (base s);
  pb_items : ItemDb.items (base s') = ItemDb.items (base s);
  pb_canonical : exists p, pages (con s) !! (ws, img) = Some p /\ p_revision p = ExpectedRevision options /\
    ValidateAnnotationPage (p_payload p) = Ok tt /\ u_revision row = p_revision p /\
    (new = true -> exists by_, row = snapshot_of p by_ (go_now e));
  pb_public : published (con s') !! (ws, img) = Some row;
  pb_others : if new then
      published (con s') = <[(ws, img) := row]> (published (con s)) /\ publication_free (published (con s)) (ws, img) (u_page_id row) = true /\
      match published (con s) !! (ws, img) with Some x => u_revision x < u_revision row | None => True end
    else published (con s') = published (con s);
}.

(** What a publication holds while it runs. *)
Record locked_publication (ws img : Z) (options : AnnotationPublicationOptions) (p : page_row) (existing : option published_row)
    (s s' : pdb) : Prop := {
  lp_frame : frame s s';
  lp_page : pages (con s) !! (ws, img) = Some p;
  lp_revision : p_revision p = ExpectedRevision options;
  lp_valid : ValidateAnnotationPage (p_payload p) = Ok tt;
  lp_existing : existing = published (con s) !! (ws, img);
}.

Lemma lift_page_Ok {A} (r : result page_err A) x : lift_page r = Ok x -> r = Ok x.
Proof. destruct r; [by intros [= ->]|done]. Qed.

Lemma lock_publication_Ok ws img options s item before p existing s' :
  lock_publication ws img options s = Ok ((item, before, p, existing), s') -> locked_publication ws img options p existing s s'.
Proof.
  unfold lock_publication. intros H. tx_bind H as u s1 H1. apply quiet_quota in H1.
  tx_bind H as id s2 H2. assert (Hf2 : frame s1 s2).
  { revert H2. unfold LockItemImageForUseManual, ptx_of. destruct (_ <$> _); [|done]. intros [= _ <-]. reflexivity. }
  tx_bind H as [] s3 H3. assert (Hf3 : frame s2 s3).
  { destruct (PublishedByUserID options); [by eapply quiet_member|by injection H3 as <-]. }
  tx_bind H as b s4 H4. apply quiet_measure in H4.
  tx_bind H as p0 s5 H5. assert (s5 = s4 /\ pages (con s4) !! (ws, img) = Some p0) as [-> Hp].
  { revert H5. unfold LockAnnotationPageForPublication, ptx_of. destruct (pages (con s4) !! (ws, img)); [|done]. by intros [= <- <-]. }
  clear H5. destruct (Z.eqb_spec (p_revision p0) (ExpectedRevision options)) as [Hr|]; [|done]. cbn [negb] in H.
  tx_bind H as [] s5 H5. apply tx_lift_Ok in H5 as [Hv%lift_page_Ok ->]. tx_bind H as ex s5 H5. injection H5 as <- <-.
  injection H as <- <- <- <- <-.
  assert (Hf : frame s s4) by (do 3 (etrans; [eassumption|]); done).
  split; try done; [by rewrite <- (fr_pages _ _ Hf)|by rewrite <- (fr_published _ _ Hf)].
Qed.

Lemma write_snapshot_Ok ws img options item p existing s row s' : write_snapshot e ws img options item p existing s = Ok (row, s') ->
  exists by_, row = snapshot_of p by_ (go_now e) /\ publication_free (published (con s)) (ws, img) (p_page_id p) = true /\
    frame (set_con (with_published (con s) (<[(ws, img) := row]> (published (con s)))) s) s'.
Proof.
  unfold write_snapshot. intros H. tx_bind H as by_ s1 H1. apply tx_lift_Ok in H1 as [_ ->]. exists by_.
  tx_bind H as [] s1 H1. unfold write_publication in H1. destruct (publication_free _ _ _) eqn:Hf; [|done]. injection H1 as <-.
  fold (snapshot_of p by_ (go_now e)) in *.
  tx_bind H as [] s2 H2. apply quiet_mirrors in H2. tx_bind H as [] s3 H3. apply quiet_mirrors in H3.
  tx_bind H as [] s4 H4. apply quiet_quota in H4. tx_bind H as [] s5 H5. apply publish_event_quiet in H5.
  assert (Hfr : frame (set_con (with_published (con s) (<[(ws, img) := snapshot_of p by_ (go_now e)]> (published (con s)))) s) s5)
    by (do 3 (etrans; [eassumption|]); done).
  unfold ptx_of in H. destruct (published (con s5) !! (ws, img)) as [r|] eqn:Hr; [|done]. injection H as <- <-.
  rewrite (fr_published _ _ Hfr) in Hr. cbn in Hr. rewrite lookup_insert_eq in Hr. injection Hr as <-. done.
Qed.

Lemma publish_tx_Ok ws img options s row new s' :
  publish_tx e config ws img options s = Ok ((row, new), s') -> published_as ws img options row new s s'.
Proof.
  unfold publish_tx. intros H. tx_bind H as [[[item before] p] existing] s1 H1. apply lock_publication_Ok in H1 as [Hf Hp Hr Hv ->].
  set (write := _ ≫= _) in H.
  assert (Hw : forall x, write s1 = x -> x = Ok ((row, new), s') ->
    match published (con s) !! (ws, img) with Some x => u_revision x < p_revision p | None => True end -> published_as ws img options row new s s').
  { intros x <- Hwr Hlt. subst write. tx_bind Hwr as r s2 H2. apply write_snapshot_Ok in H2 as (by_ & -> & Hfree & Hf2).
    tx_bind Hwr as [] s3 H3. apply account_quiet in H3. injection Hwr as <- <- <-.
    destruct Hf, Hf2, H3. cbn in *. split; try congruence.
    - exists p. cbn. do 4 (split; [done|]). intros _. by exists by_.
    - rewrite fr_published2, fr_published1. apply lookup_insert_eq.
    - split; [by rewrite fr_published2, fr_published1, fr_published0|]. split; [by rewrite <- fr_published0|done]. }
  destruct (published (con s) !! (ws, img)) as [x|] eqn:Hex; [|by eapply Hw].
  destruct (Z.eqb_spec (u_revision x) (p_revision p)) as [E|E].
  - injection H as <- <- <-. destruct Hf. split; try done; [|by rewrite fr_published0]. exists p. do 4 (split; [done|]). done.
  - rewrite Z.gtb_ltb in H. destruct (Z.ltb_spec (p_revision p) (u_revision x)); [done|]. eapply Hw; [done|done|lia].
Qed.
End store.
End PageSteps.
