(* ===== verification/IngestStore.v ===== *)
(** * internal/store/ingest.go

    The commit of a single image and of a manifest: the item, its images, their pages, indexes and
    runs, the transcription jobs, the answer to an external request and the reservation they use, in
    one transaction on the tables of [PageDb]; module [IngestSteps]: the page an ingest writes. *)

From Stdlib Require Import ZArith Lia Ascii String.
From stdpp Require Import base gmap strings list sorting.
From S2P Require Import Prelude GoStrings Json JobSchema JobStore MediaFragment Presentation Quota QuotaStore QuotaOps ResourceCleanup Requests Resources Mirrors ItemDb ItemOps UploadBatches UploadOps PageIndex PageDb PageStore PageSteps.

Module IngestStore.
Import GoStr Json JobStore MediaFragment Presentation UploadRef Resources PageIndex PageDb PageStore.
#[local] Open Scope Z_scope.

Record SingleFileIngestExternalRequest := { XR_Source : string; XR_IdempotencyKey : string; XR_LeaseOwner : string }.

(** [SingleFileIngestPageFactory]: deterministic; [None] is its error. *)
Definition page_factory : Type := Z -> string -> option AnnotationPage.

(** Of a context only its [ID] is read; a nil factory is [None]. *)
Record SingleFileIngestCommit := {
  Item : ItemOps.CreateItemParams; Image : ItemOps.CreateItemImageParams; Run : OCRRun; PublicBaseURL : string;
  TranscriptionContext : option Z; Reservation : Quota.StorageQuotaReservation; Limits : Quota.StorageQuotaLimits;
  External : option SingleFileIngestExternalRequest; BuildPage : option page_factory;
}.
Record SingleFileIngestResult := {
  S_Item : ItemDb.item_row; S_ImageID : Z; S_Image : ItemDb.item_image; S_Page : page_row; S_TranscriptionJobID : Z;
}.
Record ManifestIngestCanvas := {
  CanvasImage : ItemOps.CreateItemImageParams; CanvasRun : option OCRRun; CanvasBuildPage : option page_factory;
  EnqueueJob : bool;
}.
Record ManifestIngestCommit := {
  M_Item : ItemOps.CreateItemParams; M_Canvases : list ManifestIngestCanvas; M_PublicBaseURL : string;
  M_TranscriptionContext : option Z; M_Reservation : Quota.StorageQuotaReservation; M_Limits : Quota.StorageQuotaLimits;
  M_External : option SingleFileIngestExternalRequest;
}.
Record ManifestIngestResult := {
  MR_Item : ItemDb.item_row; MR_Images : list (Z * ItemDb.item_image); MR_TranscriptionJobIDs : list Z;
}.

(** ** Values *)

Definition in_item (id : string) (p : ItemOps.CreateItemImageParams) : ItemOps.CreateItemImageParams :=
  {| ItemOps.G_ItemID := id; ItemOps.G_Sequence := ItemOps.G_Sequence p; ItemOps.G_ImageURL := ItemOps.G_ImageURL p;
     ItemOps.G_StorageBytes := ItemOps.G_StorageBytes p; ItemOps.G_CanvasURI := ItemOps.G_CanvasURI p;
     ItemOps.G_Width := ItemOps.G_Width p; ItemOps.G_Height := ItemOps.G_Height p; ItemOps.G_Label := ItemOps.G_Label p;
     ItemOps.G_HocrURL := ItemOps.G_HocrURL p |}.
Definition run_of_image (img : Z) (url : string) (run : OCRRun) : OCRRun :=
  {| O_OriginalPage := O_OriginalPage run; O_SessionID := O_SessionID run; O_ItemImageID := Some img;
     O_ContextID := O_ContextID run; O_ImageURL := url; O_Provider := O_Provider run; O_Model := O_Model run;
     O_OriginalHOCR := O_OriginalHOCR run; O_OriginalText := O_OriginalText run |}.
Definition page_of_image (ws img : Z) (canvasURI : string) (page : AnnotationPage) : AnnotationPage :=
  {| WorkspaceID := ws; ItemImage := img; PageID := PageID page; Canvas := canvasURI; Payload := Payload page;
     UpdatedByUserID := UpdatedByUserID page |}.

Section store.
Context {SC : Schema} {AS : AnnotationSchema} {UP : UrlParser} {UPr : UrlPrinter}.
Context (e : env) (config : store_config).

(** ** Before the transaction *)

Definition external_complete (x : option SingleFileIngestExternalRequest) : bool :=
  match x with
  | Some r => negb (blank (XR_Source r) || blank (XR_IdempotencyKey r) || blank (XR_LeaseOwner r))
  | None => true
  end.
Definition reservation_matches (r : Quota.StorageQuotaReservation) (item : ItemOps.CreateItemParams) : bool :=
  negb (bool_decide (Quota.R_ID r = ""%string)) && (Quota.R_WorkspaceID r =? ItemOps.C_WorkspaceID item).
Definition item_identified (item : ItemOps.CreateItemParams) : bool :=
  negb (blank (ItemOps.C_ID item) || (ItemOps.C_WorkspaceID item =? 0) || (ItemOps.C_UserID item =? 0)).

Definition lift_item {A} (r : result ItemDb.store_err A) : result page_store_err A :=
  match r with Ok a => Ok a | Err x => Err (Items x) end.
Definition lift_quota {A} (r : result Quota.quota_err A) : result page_store_err A :=
  match r with Ok a => Ok a | Err x => Err (Items (ItemDb.Quota x)) end.

Definition validateSingleFileIngestCommit (c : SingleFileIngestCommit) : result page_store_err unit :=
  _ ← guard_ok (item_identified (Item c)) Invalid;
  _ ← guard_ok (negb (blank (ItemOps.G_ImageURL (Image c)) || blank (PublicBaseURL c))
        && bool_decide (is_Some (BuildPage c))) Invalid;
  _ ← lift_item (ItemOps.validateImageStorageReference (ItemOps.G_ImageURL (Image c)) (ItemOps.G_StorageBytes (Image c)));
  _ ← guard_ok (negb (blank (O_SessionID (Run c)) || blank (O_OriginalHOCR (Run c)))) Invalid;
  _ ← guard_ok (negb (bool_decide (TranscriptionContext c = Some 0))) Invalid;
  _ ← guard_ok (reservation_matches (Reservation c) (Item c)) Invalid;
  _ ← lift_quota (Quota.validateStorageQuotaLimits (Limits c));
  guard_ok (external_complete (External c)) Invalid.

Definition validate_canvas (context : option Z) (c : ManifestIngestCanvas) : result page_store_err unit :=
  let url := ItemOps.G_ImageURL (CanvasImage c) in
  _ ← guard_ok (negb (blank url) && bool_decide (is_Some (CanvasBuildPage c))) Invalid;
  _ ← lift_item (ItemOps.validateImageStorageReference url (ItemOps.G_StorageBytes (CanvasImage c)));
  _ ← guard_ok (negb (bool_decide (is_Some (NameFromURL url)))) Invalid;
  _ ← guard_ok (negb (EnqueueJob c && match context with Some id => id =? 0 | None => true end)) Invalid;
  guard_ok (match CanvasRun c with Some run => negb (blank (O_OriginalHOCR run)) | None => true end) Invalid.
Fixpoint validate_canvases (context : option Z) (l : list ManifestIngestCanvas) : result page_store_err unit :=
  match l with
  | [] => Ok tt
  | c :: l' => _ ← validate_canvas context c; validate_canvases context l'
  end.

Definition validateManifestIngestCommit (c : ManifestIngestCommit) : result page_store_err unit :=
  _ ← guard_ok (item_identified (M_Item c)) Invalid;
  _ ← guard_ok (negb (bool_decide (M_Canvases c = []) || blank (M_PublicBaseURL c))) Invalid;
  _ ← guard_ok (reservation_matches (M_Reservation c) (M_Item c)) Invalid;
  _ ← lift_quota (Quota.validateStorageQuotaLimits (M_Limits c));
  _ ← validate_canvases (M_TranscriptionContext c) (M_Canvases c);
  guard_ok (external_complete (M_External c)) Invalid.

(** ** One image *)

Definition prepareInitialAnnotationPage (page : AnnotationPage) (width height : Z)
    : result page_store_err (list AnnotationIndexEntry * page_row) :=
  let page := trimmed page in
  _ ← guard_ok (negb (bool_decide (PageID page = ""%string) || bool_decide (Canvas page = ""%string)
        || bool_decide (Payload page = ""%string))) Invalid;
  identity ← lift_page (PageIdentityFromPageID (PageID page) (Canvas page));
  _ ← guard_ok (ItemImageID identity =? ItemImage page) Invalid;
  _ ← lift_page (ValidateCanonicalAnnotationPage (Payload page) identity);
  _ ← lift_page (ValidateAnnotationPageGeometry (Payload page) width height);
  entries ← lift_index (annotationIndexEntries (Canvas page) (Payload page));
  _ ← guard_ok (forallb (fun x => bool_decide (X_CanvasURI x = Canvas page)) entries) Invalid;
  row ← annotationPageToRow page;
  Ok (entries, row).

(** The page and its index. *)
Definition create_page (ws img : Z) (page : AnnotationPage) (width height : Z) : ptx unit :=
  '(entries, row) ← tx_lift (prepareInitialAnnotationPage page width height);
  _ ← CreateAnnotationPage ws img row;
  ReplaceAnnotationIndex ws img entries.

Definition build (factory : option page_factory) (img : Z) (canvasURI : string) : ptx AnnotationPage :=
  tx_lift (of_option Invalid (f ← factory; f img canvasURI)).

Definition canvas_uri (given publicBaseURL : string) (img : Z) : result page_store_err string :=
  let uri := TrimSpace given in
  if bool_decide (uri = ""%string) then lift_page (ItemImageCanvasID publicBaseURL img) else Ok uri.
(** The URI made for an image that came without one. *)
Definition set_canvas (given : string) (img : Z) (uri : string) : ptx unit :=
  if blank given then on_tables (ItemOps.UpdateItemImageCanvasURI img uri) else mret tt.

Definition lock_context (context ws : Z) : ptx (Z * json) := on_tables (UploadOps.lockContextSnapshotForWorkspace context ws).

(** The locks before a job is created, and its admission. *)
Definition admit_job (ws img : Z) : ptx unit :=
  workspaceID ← on_jobs e (lockTranscriptionAdmissionWorkspace img);
  if negb (workspaceID =? ws) then tx_fail PageResource else
  on_jobs e (enforceTranscriptionJobAdmission workspaceID (admission config)).

Definition complete_request (external : option SingleFileIngestExternalRequest) (ws : Z) (item : option string)
    (img job : option Z) (session : option string) : ptx unit :=
  match external with
  | Some r => on_requests (Requests.CompleteExternalRequestManual item img job session ws (TrimSpace (XR_Source r))
                (TrimSpace (XR_IdempotencyKey r)) (nullableString (XR_LeaseOwner r)) (db_now e))
  | None => mret tt
  end.

(** How both ingests start: the locks, the reservation and the item. *)
Definition open_ingest (item : ItemOps.CreateItemParams) (lock : ptx QuotaStore.reservation_row) : ptx QuotaStore.reservation_row :=
  _ ← on_quota (QuotaOps.lockStorageQuotaGuards (ItemOps.C_WorkspaceID item));
  _ ← LockWorkspaceMemberRole (ItemOps.C_WorkspaceID item) (ItemOps.C_UserID item);
  locked ← lock;
  _ ← on_tables (ItemOps.CreateItem item);
  mret locked.

(** ** A single file *)

Definition enqueue_single (ws img : Z) (context : option Z) : ptx Z :=
  match context with
  | None => mret 0
  | Some id =>
      _ ← admit_job ws img;
      '(contextID, snapshot) ← lock_context id ws;
      on_jobs e (CreateTranscriptionJob e img contextID snapshot)
  end.

(** The image with everything that hangs on it, and the job. *)
Definition install_single (c : SingleFileIngestCommit) : ptx (Z * Z) :=
  let ws := ItemOps.C_WorkspaceID (Item c) in
  let params := in_item (ItemOps.C_ID (Item c)) (Image c) in
  img ← on_tables (ItemOps.CreateItemImage params);
  canvasURI ← tx_lift (canvas_uri (ItemOps.G_CanvasURI params) (PublicBaseURL c) img);
  page ← build (BuildPage c) img canvasURI;
  _ ← set_canvas (ItemOps.G_CanvasURI params) img canvasURI;
  _ ← create_page ws img (page_of_image ws img canvasURI page) (ItemOps.G_Width params) (ItemOps.G_Height params);
  _ ← insertCurrentOCRRun (run_of_image img (ItemOps.G_ImageURL params) (Run c));
  job ← enqueue_single ws img (TranscriptionContext c);
  mret (img, job).

Definition single_file_ingest (c : SingleFileIngestCommit) : ptx SingleFileIngestResult :=
  let item := Item c in
  let ws := ItemOps.C_WorkspaceID item in
  locked ← open_ingest item (on_quota (ResourceCleanup.lockSingleFileIngestReservation (db_now e) (Quota.R_ID (Reservation c)) ws
             (ItemOps.G_ImageURL (Image c)) (ItemOps.G_StorageBytes (Image c))));
  '(img, job) ← install_single c;
  _ ← complete_request (External c) ws (nullableString (ItemOps.C_ID item)) (nullableUint64 img) (nullableUint64 job)
        (nullableString (O_SessionID (Run c)));
  itemRow ← on_tables (ItemOps.GetItem (ItemOps.C_ID item));
  imageRow ← on_tables (ItemDb.one_of (fun s => ItemDb.images s !! img));
  stored ← GetAnnotationPage ws img;
  durableBytes ← itemImageDurableDatabaseBytes ws img;
  _ ← on_quota (QuotaOps.retireSingleFileIngestReservation (Reservation c) locked
        {| Quota.Bytes := 0; Quota.DurableBytes := durableBytes; Quota.Items := 1; Quota.Images := 1 |} (Limits c));
  mret {| S_Item := itemRow; S_ImageID := img; S_Image := imageRow; S_Page := stored; S_TranscriptionJobID := job |}.

Definition CommitSingleFileIngest (c : SingleFileIngestCommit) (s : pdb) : outcome SingleFileIngestResult :=
  match validateSingleFileIngestCommit c with
  | Err x => (Err x, s)
  | Ok _ => run_tx (single_file_ingest c) s
  end.

(** ** A manifest *)

Definition enqueue_canvas (ws img : Z) (context : option (Z * json)) : ptx Z :=
  match context with
  | None => tx_fail Invalid
  | Some (contextID, snapshot) =>
      _ ← admit_job ws img;
      on_jobs e (CreateTranscriptionJob e img contextID snapshot)
  end.

(** One Canvas: the image, and the jobs it adds. *)
Definition install_canvas (item : ItemOps.CreateItemParams) (publicBaseURL : string) (context : option (Z * json))
    (c : ManifestIngestCanvas) : ptx (Z * list Z) :=
  let ws := ItemOps.C_WorkspaceID item in
  let params := in_item (ItemOps.C_ID item) (CanvasImage c) in
  img ← on_tables (ItemOps.CreateItemImage params);
  canvasURI ← tx_lift (canvas_uri (ItemOps.G_CanvasURI params) publicBaseURL img);
  _ ← set_canvas (ItemOps.G_CanvasURI params) img canvasURI;
  page ← build (CanvasBuildPage c) img canvasURI;
  _ ← create_page ws img (page_of_image ws img canvasURI page) (ItemOps.G_Width params) (ItemOps.G_Height params);
  _ ← match CanvasRun c with
      | Some run => insertCurrentOCRRun (run_of_image img (ItemOps.G_ImageURL params) run)
      | None => mret tt
      end;
  if EnqueueJob c then job ← enqueue_canvas ws img context; mret (img, [job]) else mret (img, []).

Fixpoint install_canvases (item : ItemOps.CreateItemParams) (publicBaseURL : string) (context : option (Z * json))
    (l : list ManifestIngestCanvas) : ptx (list Z) :=
  match l with
  | [] => mret []
  | c :: l' =>
      '(_, jobs) ← install_canvas item publicBaseURL context c;
      rest ← install_canvases item publicBaseURL context l';
      mret (jobs ++ rest)
  end.

(** The reservation of an external manifest: [uint64] of its images. *)
Definition lock_manifest_reservation (c : ManifestIngestCommit) : ptx QuotaStore.reservation_row :=
  locked ← on_quota (QuotaStore.LockLiveStorageQuotaReservation (db_now e) (Quota.R_ID (M_Reservation c)) (ItemOps.C_WorkspaceID (M_Item c)));
  if (QuotaStore.v_reserved_items locked <? 1)
     || (QuotaStore.v_reserved_images locked mod 2 ^ 64 <? Z.of_nat (length (M_Canvases c)))
     || bool_decide (is_Some (QuotaStore.v_resource_key locked))
  then tx_fail Invalid else mret locked.

Definition manifest_ingest (c : ManifestIngestCommit) : ptx ManifestIngestResult :=
  let item := M_Item c in
  let ws := ItemOps.C_WorkspaceID item in
  locked ← open_ingest item (lock_manifest_reservation c);
  context ← match M_TranscriptionContext c with
            | Some id => x ← lock_context id ws; mret (Some x)
            | None => mret None
            end;
  jobs ← install_canvases item (M_PublicBaseURL c) context (M_Canvases c);
  _ ← complete_request (M_External c) ws (nullableString (ItemOps.C_ID item)) None None None;
  itemRow ← on_tables (ItemOps.GetItem (ItemOps.C_ID item));
  imageRows ← on_tables (tx_reads (ItemOps.ListItemImages (ItemOps.C_ID item)));
  durableBytes ← on_tables (ItemGraph.itemDurableDatabaseBytes ws (ItemOps.C_ID item));
  _ ← on_quota (QuotaOps.retireSingleFileIngestReservation (M_Reservation c) locked
        {| Quota.Bytes := 0; Quota.DurableBytes := durableBytes; Quota.Items := 1;
           Quota.Images := Z.of_nat (length (M_Canvases c)) |} (M_Limits c));
  mret {| MR_Item := itemRow; MR_Images := imageRows; MR_TranscriptionJobIDs := jobs |}.

Definition CommitManifestIngest (c : ManifestIngestCommit) (s : pdb) : outcome ManifestIngestResult :=
  match validateManifestIngestCommit c with
  | Err x => (Err x, s)
  | Ok _ => run_tx (manifest_ingest c) s
  end.
End store.
End IngestStore.

Module IngestSteps.
Import GoStr Json JobStore MediaFragment Presentation UploadRef Resources PageIndex PageDb PageStore PageSteps IngestStore.
#[local] Open Scope Z_scope.

Section store.
Context {SC : Schema} {AS : AnnotationSchema} {UP : UrlParser} {UPr : UrlPrinter}.

(** ** The page of a new image *)

Record prepared (page : AnnotationPage) (width height : Z) (entries : list AnnotationIndexEntry) (row : page_row) : Prop := {
  pr_row : row = {| p_page_id := TrimSpace (PageID page); p_canvas_uri := TrimSpace (Canvas page); p_payload := TrimSpace (Payload page);
                    p_revision := 1; p_updated_by := UpdatedByUserID page |};
  pr_identity : exists identity, PageIdentityFromPageID (p_page_id row) (p_canvas_uri row) = Ok identity /\
    ItemImageID identity = ItemImage page /\ ValidateCanonicalAnnotationPage (p_payload row) identity = Ok tt;
  pr_geometry : ValidateAnnotationPageGeometry (p_payload row) width height = Ok tt;
  pr_entries : annotationIndexEntries (p_canvas_uri row) (p_payload row) = Ok entries;
  pr_canvas : Forall (fun x => X_CanvasURI x = p_canvas_uri row) entries;
}.

Lemma prepare_Ok page w h entries row : prepareInitialAnnotationPage page w h = Ok (entries, row) -> prepared page w h entries row.
Proof.
  unfold prepareInitialAnnotationPage. intros ([] & _ & H)%result_bind_Ok.
  apply result_bind_Ok in H as (identity & Hid%lift_page_Ok & H). apply result_bind_Ok in H as ([] & Himg%guard_ok_Ok & H).
  apply result_bind_Ok in H as ([] & Hv%lift_page_Ok & H). apply result_bind_Ok in H as ([] & Hg%lift_page_Ok & H).
  apply result_bind_Ok in H as (l & Hl & H). apply result_bind_Ok in H as ([] & Hc%guard_ok_Ok & H).
  apply result_bind_Ok in H as (r & Hr%page_row_Ok & [= <- <-]). subst r. cbn [PageID Canvas Payload trimmed UpdatedByUserID] in *.
  split; [done| |done| |]; cbn [p_page_id p_canvas_uri p_payload].
  - exists identity. apply Z.eqb_eq in Himg. done.
  - unfold lift_index in Hl. by destruct (annotationIndexEntries _ _); [injection Hl as ->|].
  - apply Forall_forall. intros x Hx. rewrite forallb_forall in Hc. specialize (Hc x). rewrite <- list_elem_of_In in Hc.
    specialize (Hc Hx). by apply bool_decide_eq_true in Hc.
Qed.

Lemma create_page_prepared ws img page w h s u s' : create_page ws img page w h s = Ok (u, s') -> exists entries row m,
  prepared page w h entries row /\ pages (con s) !! (ws, img) = None /\
  page_id_free (pages (con s)) (ws, img) (p_page_id row) = true /\ indexed ws img entries (index (con s)) m /\
  s' = set_index m (set_pages (<[(ws, img) := row]> (pages (con s))) s).
Proof.
  unfold create_page. intros H. tx_bind H as [entries row] s1 H1. apply tx_lift_Ok in H1 as [Hp%prepare_Ok ->].
  tx_bind H as [] s1 H1. apply create_page_Ok in H1 as (Hnone & Hfree & ->). destruct u.
  apply replace_indexed in H as (m & -> & Hm). by exists entries, row, m.
Qed.
Lemma build_Ok factory img uri s p s' : build factory img uri s = Ok (p, s') -> s' = s /\ exists f, factory = Some f /\ f img uri = Some p.
Proof.
  unfold build. intros [H ->]%tx_lift_Ok. split; [done|]. destruct factory as [f|]; [|done]. cbn in H.
  destruct (f img uri) as [q|] eqn:E; [|done]. injection H as <-. eauto.
Qed.

End store.
End IngestSteps.
