(* ===== verification/PageHistory.v ===== *)
(** * The canonical annotation pages: histories of the store

    Module [PageInvariant]: what holds of the stored pages, their index and the public snapshots;
    [PageHistory]: every call of the store keeps it, whatever it returns, and the revisions of a page name its contents. *)

From Stdlib Require Import ZArith Lia Ascii String.
From stdpp Require Import base gmap strings list sorting relations.
From S2P Require Import Prelude GoStrings Json JobSchema JobStore JsonParse MediaFragment Presentation Quota QuotaStore QuotaOps ResourceCleanup Requests Resources Mirrors ItemDb ItemOps UploadBatches UploadOps PageIndex PageDb PageStore PageSteps IngestStore.

Module PageInvariant.
Import GoStr Json JsonParse JobStore MediaFragment Presentation Resources RawText PageIndex PageDb PageStore PageSteps IngestStore IngestSteps.
#[local] Open Scope Z_scope.

(** ** The items of a valid page *)

Lemma fields_stay_failed {A E} (f : A -> json -> result E A) vs x :
  foldl (fun acc v => a ← acc; f a v) (Err x) vs = Err x.
Proof. by induction vs. Qed.
Lemma fields_follow {A B E} (f : A -> json -> result E A) (g : B -> json -> result E B) vs a b r :
  (forall a b v a', f a v = Ok a' -> exists b', g b v = Ok b') ->
  foldl (fun acc v => a ← acc; f a v) (Ok a) vs = Ok r -> exists r', foldl (fun acc v => b ← acc; g b v) (Ok b) vs = Ok r'.
Proof.
  intros Hs. revert a b. induction vs as [|v vs IH]; intros a b H; cbn [foldl] in *; [by eauto|].
  cbn [mbind result_bind] in *. destruct (f a v) as [a'|x] eqn:Ef; [|by rewrite fields_stay_failed in H].
  destruct (Hs a b v a' Ef) as [b' ->]. by eapply IH.
Qed.

Lemma map_array_is_array ms name l : map_array_field ms name = Ok l -> exists items, raw_array_field ms name = Ok items.
Proof.
  unfold map_array_field, raw_array_field. intros ([backing n] & H & _)%result_bind_Ok.
  eapply (fields_follow (fun a v => let '(backing, _) := a in match v with
      | JArray [] => Ok ([], 0%nat)
      | JArray l => backing ← reuse backing l; Ok (backing, length l)
      | JNull => Ok ([], 0%nat)
      | _ => Err EDecode
      end) (fun _ v => match v with JArray l => Ok l | JNull => Ok [] | _ => Err EDecode end)).
  - intros [b k] c v a' Hv. destruct v; try done; eauto.
  - exact H.
Qed.

Section store.
Context {SC : Schema} {AS : AnnotationSchema} {UP : UrlParser} {UPr : UrlPrinter} {SH : Sha256} {FT : FloatText}.

Lemma valid_page_items raw identity : ValidateCanonicalAnnotationPage raw identity = Ok tt -> exists items, page_items raw = Some items.
Proof.
  unfold ValidateCanonicalAnnotationPage, page_items. intros H.
  apply result_bind_Ok in H as (_ & _ & H). apply result_bind_Ok in H as (pid & _ & H). apply result_bind_Ok in H as (_ & _ & H).
  apply result_bind_Ok in H as (ms & Hms & H). apply result_bind_Ok in H as (id & _ & H). apply result_bind_Ok in H as (l & Hl & _).
  unfold decode_fields in Hms. destruct (DecodeFields raw) as [ms'|]; [|done]. injection Hms as ->. cbn [mbind option_bind].
  apply map_array_is_array in Hl as [items ->]. by exists items.
Qed.
Lemma canonical_is_valid raw identity : ValidateCanonicalAnnotationPage raw identity = Ok tt -> ValidateAnnotationPage raw = Ok tt.
Proof. unfold ValidateCanonicalAnnotationPage. by intros ([] & H & _)%result_bind_Ok. Qed.

(** ** What is stored of one page *)

(** The row is a valid canonical page of its image. *)
Definition page_valid (img : Z) (p : page_row) : Prop :=
  1 <= p_revision p /\ exists identity,
    PageIdentityFromPageID (p_page_id p) (p_canvas_uri p) = Ok identity /\ ItemImageID identity = img /\
    ValidateCanonicalAnnotationPage (p_payload p) identity = Ok tt.
(** The index holds its entries. *)
Definition page_indexed (ws img : Z) (p : page_row) (m : gmap (Z * Z * string) index_row) : Prop :=
  exists entries, annotationIndexEntries (p_canvas_uri p) (p_payload p) = Ok entries /\
    Forall (fun x => X_CanvasURI x = p_canvas_uri p) entries /\ indexed ws img entries m m.

(** A snapshot is of an older revision or of the one that is canonical. *)
Definition snapshot_ok (p : page_row) (u : published_row) : Prop :=
  ValidateAnnotationPage (u_payload u) = Ok tt /\
  (u_revision u < p_revision p \/ u = snapshot_of p (u_by u) (u_at u)).

Record documents_ok (s : pdb) : Prop := {
  dc_pages : forall ws img p, pages (con s) !! (ws, img) = Some p -> page_valid img p /\ page_indexed ws img p (index (con s));
  dc_index : forall ws img id r, index (con s) !! (ws, img, id) = Some r -> is_Some (pages (con s) !! (ws, img));
  dc_published : forall ws img u, published (con s) !! (ws, img) = Some u ->
    exists p, pages (con s) !! (ws, img) = Some p /\ snapshot_ok p u;
  dc_page_ids : forall k k' p p', pages (con s) !! k = Some p -> pages (con s) !! k' = Some p' -> p_page_id p = p_page_id p' -> k = k';
  dc_one_publication : forall k k' u u', published (con s) !! k = Some u -> published (con s) !! k' = Some u' -> k.2 = k'.2 -> k = k';
}.

(** The documents are the same. *)
Record same_documents (s s' : pdb) : Prop := {
  sd_pages : pages (con s') = pages (con s); sd_index : index (con s') = index (con s); sd_published : published (con s') = published (con s);
}.
Lemma frame_documents s s' : frame s s' -> same_documents s s'.
Proof. intros []. by split. Qed.
Lemma documents_same s s' : same_documents s s' -> documents_ok s -> documents_ok s'.
Proof. intros [Hp Hi Hu] []. split; rewrite ?Hp, ?Hi, ?Hu; assumption. Qed.

Lemma indexed_self ws img entries m0 m : indexed ws img entries m0 m -> indexed ws img entries m m.
Proof. intros []. by split. Qed.
Lemma indexed_elsewhere ws img entries m m' : (forall id, m' !! (ws, img, id) = m !! (ws, img, id)) ->
  indexed ws img entries m m -> indexed ws img entries m' m'.
Proof. intros He []. split; try done. intros id r. by rewrite He. Qed.

(** ** Saves *)

Lemma lift_index_Ok {A} (r : result index_err A) x : lift_index r = Ok x -> r = Ok x.
Proof. destruct r; [by intros [= ->]|done]. Qed.
Lemma check_page_Ok page entries : check_page page = Ok entries ->
  (exists identity, PageIdentityFromPageID (PageID (trimmed page)) (Canvas (trimmed page)) = Ok identity /\
     ItemImageID identity = ItemImage page /\ ValidateCanonicalAnnotationPage (Payload (trimmed page)) identity = Ok tt) /\
  annotationIndexEntries (Canvas (trimmed page)) (Payload (trimmed page)) = Ok entries /\
  Forall (fun x => X_CanvasURI x = Canvas (trimmed page)) entries.
Proof.
  unfold check_page. destruct (_ || _); [done|]. destruct (_ || _ || _); [done|]. intros H.
  apply result_bind_Ok in H as (identity & Hid%lift_page_Ok & H). change (ItemImage (trimmed page)) with (ItemImage page) in H.
  destruct (Z.eqb_spec (ItemImageID identity) (ItemImage page)); [|done]. cbn [negb] in H. apply result_bind_Ok in H as ([] & Hv%lift_page_Ok & H). apply result_bind_Ok in H as (es & He & H).
  destruct (existsb _ es) eqn:Hx; [done|]. injection H as ->. split; [by exists identity|]. split; [by apply lift_index_Ok|].
  apply Forall_forall. intros x Hin. destruct (decide (X_CanvasURI x = Canvas (trimmed page))); [done|].
  assert (existsb (fun x => negb (bool_decide (X_CanvasURI x = Canvas (trimmed page)))) entries = true); [|congruence].
  apply existsb_exists. exists x. split; [by apply list_elem_of_In|]. by rewrite bool_decide_false.
Qed.

Lemma saved_documents page entries expected stored s s' : check_page page = Ok entries ->
  documents_ok s -> 0 <= expected -> saved (trimmed page) entries expected stored s s' -> documents_ok s'.
Proof.
  intros (Hid & He & Hc)%check_page_Ok Hd Hexp Hs.
  pose proof (sv_index _ _ _ _ _ _ Hs) as Hix. destruct Hs as [Hpages _ Hpub _ _ _ (Hpid & Hcan & Hpay & _ & Hrev) Hprev Hfree _].
  cbn [WorkspaceID ItemImage trimmed] in Hix. change (WorkspaceID (trimmed page)) with (WorkspaceID page) in *. change (ItemImage (trimmed page)) with (ItemImage page) in *.
  destruct Hd. split.
  - intros ws img p. rewrite Hpages. intros [[[= <- <-] <-]|[Hne Hp]]%lookup_insert_Some.
    + unfold page_valid, page_indexed. rewrite Hpid, Hcan, Hpay, Hrev. split; [split; [lia|done]|].
      exists entries. split_and!; [done|done|by eapply indexed_self].
    + destruct (dc_pages0 ws img p Hp) as [Hv (es & H1 & H2 & H3)]. split; [done|]. exists es. split_and!; [done|done|].
      eapply indexed_elsewhere; [|exact H3]. intros id. by apply (ix_others _ _ _ _ _ Hix).
  - intros ws img id r Hr. rewrite Hpages. destruct (decide ((ws, img) = (WorkspaceID page, ItemImage page))) as [->|Hne].
    + rewrite lookup_insert_eq. eauto.
    + rewrite lookup_insert_ne by congruence. rewrite (ix_others _ _ _ _ _ Hix) in Hr by done. by eapply dc_index0.
  - intros ws img u. rewrite Hpub, Hpages. intros (p & Hp & Hok)%dc_published0.
    destruct (decide ((ws, img) = (WorkspaceID page, ItemImage page))) as [E|Hne].
    + injection E as -> ->. exists stored. rewrite lookup_insert_eq. split; [done|]. destruct Hok as [Hval Hle]. split; [done|]. left.
      rewrite Hrev. destruct (Z.eqb_spec expected 0); [congruence|]. destruct Hprev as (old & Ho & <-). assert (old = p) as -> by congruence.
      destruct Hle as [Hle|Hle]; [|apply (f_equal u_revision) in Hle; cbn in Hle]; lia.
    + exists p. by rewrite lookup_insert_ne by congruence.
  - intros k k' p p'. rewrite Hpages. unfold page_id_free in Hfree. apply bool_decide_eq_true in Hfree.
    intros [[<- <-]|[Hk Hp]]%lookup_insert_Some [[<- <-]|[Hk' Hp']]%lookup_insert_Some E; [done| | |by eapply dc_page_ids0].
    + destruct (Hfree k' p' Hp') as [|Hn]; [done|]. congruence.
    + destruct (Hfree k p Hp) as [|Hn]; [done|]. congruence.
  - rewrite Hpub. exact dc_one_publication0.
Qed.

(** ** Publications *)

Lemma published_documents e ws img options row new s s' : documents_ok s -> published_as e ws img options row new s s' -> documents_ok s'.
Proof.
  intros Hd [Hp Hi _ _ _ (p & Hpage & Hrev & Hval & Hur & Hsnap) Hpublic Ho].
  destruct new; [|by apply (documents_same s)].
  destruct Hsnap as [by_ ->]; [done|]. destruct Ho as (Hpub & Hfree & Hlt). destruct Hd.
  split; rewrite ?Hp, ?Hi, ?Hpub; try done.
  - intros ws' img' u [[[= <- <-] <-]|[_ Hu]]%lookup_insert_Some; [|by apply dc_published0]. exists p. split; [done|]. split; [done|by right].
  - unfold publication_free in Hfree. apply bool_decide_eq_true in Hfree.
    intros k k' u u' [[<- <-]|[Hk Hu]]%lookup_insert_Some [[<- <-]|[Hk' Hu']]%lookup_insert_Some E; [done| | |by eapply dc_one_publication0].
    + destruct (Hfree k' u' Hu') as [|[_ Hn]]; [done|]. by rewrite E in Hn.
    + destruct (Hfree k u Hu) as [|[_ Hn]]; [done|]. by rewrite E in Hn.
Qed.

(** ** Ingests *)

(** The pages there are stay as they are. *)
Record grows (s s' : pdb) : Prop := {
  gr_documents : documents_ok s -> documents_ok s';
  gr_pages : forall k p, pages (con s) !! k = Some p -> pages (con s') !! k = Some p;
}.
#[export] Instance grows_refl : Reflexive grows.
Proof. by split. Qed.
#[export] Instance grows_trans : Transitive grows.
Proof. intros s t u [] []. split; auto. Qed.

Lemma same_grows s s' : same_documents s s' -> grows s s'.
Proof. intros H. split; [by apply documents_same|]. destruct H as [Hp _ _]. by rewrite Hp. Qed.
Lemma quiet_grows {A} (m : ptx A) : quiet m -> keeps grows m.
Proof. apply keeps_weaken. intros s s' H. by apply same_grows, frame_documents. Qed.
Lemma tables_grow {A} (m : ItemDb.itx A) : keeps grows (on_tables m).
Proof. intros s a s'. unfold on_tables. destruct (m (tables s)) as [[b t]|]; [|done]. intros [= _ <-]. by apply same_grows. Qed.

Lemma create_page_grows ws img page w h : ItemImage page = img -> keeps grows (create_page ws img page w h).
Proof.
  intros <- s u s' (entries & row & m & [-> (identity & Hid & Himg & Hv) _ He Hc] & Hnone & Hfree & Hix & ->)%create_page_prepared.
  set (row := Build_page_row _ _ _ _ _) in *. set (img := ItemImage page) in *.
  assert (Hp : forall k p, pages (con s) !! k = Some p -> <[(ws, img) := row]> (pages (con s)) !! k = Some p).
  { intros k p Hp. rewrite lookup_insert_ne; [done|]. congruence. }
  split; [|exact Hp]. intros []. split; cbn.
  - intros ws' i p [[[= <- <-] <-]|[Hne Hk]]%lookup_insert_Some.
    + split; [split; [cbn; lia|by exists identity]|]. exists entries. split_and!; [done|done|by eapply indexed_self].
    + destruct (dc_pages0 ws' i p Hk) as [Hv' (es & H1 & H2 & H3)]. split; [done|]. exists es. split_and!; [done|done|].
      eapply indexed_elsewhere; [|exact H3]. intros id. apply (ix_others _ _ _ _ _ Hix). cbn. congruence.
  - intros ws' i id r Hr. destruct (decide ((ws', i) = (ws, img))) as [->|Hne]; [rewrite lookup_insert_eq; by eauto|].
    rewrite lookup_insert_ne by congruence. rewrite (ix_others _ _ _ _ _ Hix) in Hr by done. by eapply dc_index0.
  - intros ws' i u' (p & Hk & Hok)%dc_published0. exists p. split; [by apply Hp|done].
  - unfold page_id_free in Hfree. apply bool_decide_eq_true in Hfree.
    intros k k' p p' [[<- <-]|[Hk Hp1]]%lookup_insert_Some [[<- <-]|[Hk' Hp2]]%lookup_insert_Some E; [done| | |by eapply dc_page_ids0].
    + destruct (Hfree k' p' Hp2) as [|Hn]; [done|]. congruence.
    + destruct (Hfree k p Hp1) as [|Hn]; [done|]. congruence.
  - exact dc_one_publication0.
Qed.

Section ingest.
Context (e : env) (config : store_config).
Hint Resolve quiet_grows quiet_quota quiet_jobs quiet_requests quiet_member quiet_measure insert_current_quiet tables_grow create_page_grows : keeps.

Lemma get_page_grows ws img : keeps grows (GetAnnotationPage ws img).
Proof. unfold GetAnnotationPage. apply keeps_of; apply _. Qed.
Lemma admit_grows ws img : keeps grows (admit_job e config ws img).
Proof. unfold admit_job. solve_keeps. Qed.
Hint Resolve get_page_grows admit_grows : keeps.
Lemma single_ingest_grows c : keeps grows (single_file_ingest e config c).
Proof. unfold single_file_ingest, open_ingest, install_single, build, set_canvas, enqueue_single, lock_context, complete_request. solve_keeps. Qed.
Lemma install_canvases_grow item base context l : keeps grows (install_canvases e config item base context l).
Proof.
  induction l as [|c l IH]; cbn [install_canvases]; [apply along_ret; apply _|].
  unfold install_canvas, build, set_canvas, enqueue_canvas. solve_keeps.
Qed.
Hint Resolve install_canvases_grow : keeps.
Lemma manifest_ingest_grows c : keeps grows (manifest_ingest e config c).
Proof. unfold manifest_ingest, open_ingest, lock_manifest_reservation, lock_context, complete_request. solve_keeps. Qed.
End ingest.

(** ** Deletions *)

(** What the deletion of images leaves of the documents. *)
Definition without_images (gone : Z -> bool) (s : pdb) : pdb :=
  let c := con s in
  set_con (with_published (with_pages c (filter (fun kp => gone kp.1.2 = false) (pages c)) (filter (fun kx => gone kx.1.1.2 = false) (index c)))
             (filter (fun kp => gone kp.1.2 = false) (published c))) s.

Lemma without_images_documents gone s : documents_ok s -> documents_ok (without_images gone s).
Proof.
  intros []. split; cbn.
  - intros ws img p [Hp Hg]%map_lookup_filter_Some. cbn in Hg. destruct (dc_pages0 ws img p Hp) as [Hv (es & H1 & H2 & H3)]. split; [done|].
    exists es. split_and!; [done|done|]. eapply indexed_elsewhere; [|exact H3]. intros id.
    destruct (index (con s) !! (ws, img, id)) as [r|] eqn:E; [by apply map_lookup_filter_Some|by apply map_lookup_filter_None_2; left].
  - intros ws img id r [Hr Hg]%map_lookup_filter_Some. cbn in Hg. destruct (dc_index0 ws img id r Hr) as [p Hp]. exists p.
    by apply map_lookup_filter_Some.
  - intros ws img u [Hu Hg]%map_lookup_filter_Some. cbn in Hg. destruct (dc_published0 ws img u Hu) as (p & Hp & Hok). exists p.
    split; [by apply map_lookup_filter_Some|done].
  - intros k k' p p' [Hp _]%map_lookup_filter_Some [Hp' _]%map_lookup_filter_Some. by eapply dc_page_ids0.
  - intros k k' u u' [Hu _]%map_lookup_filter_Some [Hu' _]%map_lookup_filter_Some. by eapply dc_one_publication0.
Qed.
End store.
End PageInvariant.

Module PageHistory.
Import GoStr Json JsonParse JobStore MediaFragment Presentation Resources RawText PageIndex PageDb PageStore PageSteps IngestStore IngestSteps PageInvariant.
#[local] Open Scope Z_scope.

Section history.
Context {SC : Schema} {AS : AnnotationSchema} {UP : UrlParser} {UPr : UrlPrinter} {SH : Sha256} {FT : FloatText}.

(** One call of the store or one ingest, whatever it returns, or a change other stores make: of their own tables, or by deleting
    images. [survives] are the images that are not deleted. *)
Inductive pmove (survives : Z -> bool) (s : pdb) : pdb -> Prop :=
| pm_save e config page expected m : 0 <= expected -> pmove survives s (SavePageWithCorrectionMetric e config page expected m s).2
| pm_complete e config page expected c : 0 <= expected -> pmove survives s (SavePageAndCompleteTranscriptionJob e config page expected c s).2
| pm_reprocess e config page expected c : 0 <= expected -> pmove survives s (SavePageAndStartReprocessing e config page expected c s).2
| pm_publish e config ws img options : pmove survives s (PublishPage e config ws img options s).2
| pm_run config run : pmove survives s (Create config run s).2
| pm_truth config ws img revision snapshot marked : pmove survives s (MarkGroundTruth config ws img revision snapshot marked s).2
| pm_ingest e config c : pmove survives s (CommitSingleFileIngest e config c s).2
| pm_manifest e config c : pmove survives s (CommitManifestIngest e config c s).2
| pm_other s' : same_documents s s' -> pmove survives s s'
| pm_delete gone : (forall i, gone i = true -> survives i = false) -> pmove survives s (without_images gone s).

(** What a call that saves a page can leave. *)
Definition may_save (page : AnnotationPage) (expected : Z) (s : pdb) (o : outcome (page_row * Z)) : Prop :=
  match o with
  | (Ok (stored, _), s') => exists entries, check_page page = Ok entries /\ saved (trimmed page) entries expected stored s s'
  | (Err _, s') => s' = s
  end.

Lemma savePage_may e config page expected options s : may_save page expected s (savePage e config page expected options s).
Proof.
  unfold savePage. destruct (check_page page) as [entries|x] eqn:Hc; [|done].
  destruct (match save_fence options with Some _ => _ | None => _ end) as [a|x]; [|done].
  unfold run_tx. destruct (save_tx _ _ _ _ _ _ _ s) as [[[stored job] s']|x] eqn:E; [|done].
  apply save_tx_saved in E. by exists entries.
Qed.
Lemma complete_may e config page expected c s : may_save page expected s (SavePageAndCompleteTranscriptionJob e config page expected c s).
Proof.
  unfold SavePageAndCompleteTranscriptionJob. destruct (validateTranscriptionFence _); [|done]. destruct (negb _); [done|].
  destruct (match CompletionRun c with Some _ => _ | None => _ end); [done|]. apply savePage_may.
Qed.
Lemma reprocess_may e config page expected c s : may_save page expected s (SavePageAndStartReprocessing e config page expected c s).
Proof. unfold SavePageAndStartReprocessing. destruct (expected =? 0); [done|]. destruct (negb _); [done|]. apply savePage_may. Qed.

Lemma publish_may e config ws img options s :
  match PublishPage e config ws img options s with
  | (Ok (row, new), s') => published_as e ws img options row new s s'
  | (Err _, s') => s' = s
  end.
Proof.
  unfold PublishPage. destruct (_ || _); [done|]. unfold run_tx. destruct (publish_tx _ _ _ _ _ s) as [[[row new] s']|x] eqn:E; [|done].
  by eapply publish_tx_Ok.
Qed.

Lemma run_documents {A} (m : ptx A) s : quiet m -> same_documents s (run_tx m s).2.
Proof.
  intros Hm. unfold run_tx. destruct (m s) as [[a s']|x] eqn:E; [|by split]. apply frame_documents. by eapply Hm.
Qed.
Lemma create_documents config run s : same_documents s (Create config run s).2.
Proof.
  unfold Create. destruct (O_ItemImageID run) as [img|]; [|by split]. destruct (img =? 0); [by split|].
  destruct (_ ≫= _) as [t|]; [|by split]. apply run_documents. unfold create_run_tx, LockItemImageForUseManual. solve_keeps.
Qed.
Lemma truth_documents config ws img revision snapshot marked s : same_documents s (MarkGroundTruth config ws img revision snapshot marked s).2.
Proof.
  unfold MarkGroundTruth, run_tx. destruct (mark_tx _ _ _ _ _ _ s) as [[[] s']|x] eqn:H; [|by split]. simpl.
  unfold mark_tx in H. tx_bind H as u s1 H1. apply quiet_quota in H1.
  tx_bind H as [] s2 H2. assert (Hf2 : frame s1 s2).
  { destruct (t_marked_by snapshot); [|by injection H2 as <-]. destruct (_ <=? 0); [done|]. by eapply quiet_member. }
  tx_bind H as id s3 H3. assert (Hf3 : frame s2 s3).
  { revert H3. unfold LockItemImageForUseManual, ptx_of. destruct (_ <$> _); [|done]. intros [= _ <-]. reflexivity. }
  tx_bind H as p s4 H4. assert (s4 = s3) as ->.
  { revert H4. unfold LockAnnotationPageForPublication, ptx_of. destruct (pages (con s3) !! _); [|done]. by intros [= _ <-]. }
  destruct (_ && _); [done|]. destruct (_ && _); [done|]. tx_bind H as b s5 H5. apply quiet_measure in H5.
  tx_bind H as ex s6 H6. injection H6 as <- <-. tx_bind H as [] s6 H6. assert (Hs : same_documents s5 s6).
  { unfold write_ground_truth in H6. destruct (marked && _); [destruct (0 <? _); [|done]; by injection H6 as <-|].
    destruct (negb marked); by injection H6 as <-. }
  apply account_quiet in H. destruct H1, Hf2, Hf3, H5, Hs, H. split; congruence.
Qed.

Lemma run_grows {A} (m : ptx A) s : keeps grows m -> grows s (run_tx m s).2.
Proof. intros Hm. unfold run_tx. destruct (m s) as [[a s']|x] eqn:E; [by eapply Hm|done]. Qed.
Lemma ingest_grows e config c s : grows s (CommitSingleFileIngest e config c s).2.
Proof. unfold CommitSingleFileIngest. destruct (validateSingleFileIngestCommit c); [apply run_grows, single_ingest_grows|done]. Qed.
Lemma manifest_grows e config c s : grows s (CommitManifestIngest e config c s).2.
Proof. unfold CommitManifestIngest. destruct (validateManifestIngestCommit c); [apply run_grows, manifest_ingest_grows|done]. Qed.

(** ** The documents stay well formed *)

Lemma may_save_documents page expected s o : 0 <= expected -> documents_ok s -> may_save page expected s o -> documents_ok o.2.
Proof.
  intros He Hd. destruct o as [[[stored job]|x] s']; simpl; [|by intros ->]. intros (entries & Hc & Hs). by eapply saved_documents.
Qed.
Lemma publish_documents e config ws img options s : documents_ok s -> documents_ok (PublishPage e config ws img options s).2.
Proof.
  intros Hd. pose proof (publish_may e config ws img options s) as Hp. destruct (PublishPage _ _ _ _ _ s) as [[[row new]|x] s']; simpl;
    [by eapply published_documents|by subst].
Qed.
Lemma pmove_documents survives s s' : documents_ok s -> pmove survives s s' -> documents_ok s'.
Proof.
  intros Hd [].
  - eapply may_save_documents; [done|done|apply savePage_may].
  - eapply may_save_documents; [done|done|apply complete_may].
  - eapply may_save_documents; [done|done|apply reprocess_may].
  - by apply publish_documents.
  - eapply (documents_same s); [apply create_documents|done].
  - eapply (documents_same s); [apply truth_documents|done].
  - by apply (gr_documents _ _ (ingest_grows e config c s)).
  - by apply (gr_documents _ _ (manifest_grows e config c s)).
  - by eapply (documents_same s).
  - by apply without_images_documents.
Qed.
Lemma history_documents survives s s' : documents_ok s -> rtc (pmove survives) s s' -> documents_ok s'.
Proof. intros Hd Hr. induction Hr; [done|]. apply IHHr. by eapply pmove_documents. Qed.

(** ** Revisions *)

(** A page only grows, and its revision names its row. *)
Definition follows (p p' : page_row) : Prop := p_revision p < p_revision p' \/ p' = p.
#[export] Instance follows_trans : Transitive follows.
Proof. intros p q r [H1| ->] [H2| ->]; unfold follows; auto; lia. Qed.

Lemma may_save_follows page expected s o k p : may_save page expected s o -> pages (con s) !! k = Some p ->
  exists p', pages (con o.2) !! k = Some p' /\ follows p p'.
Proof.
  destruct o as [[[stored job]|x] s']; simpl; [|intros -> ?; exists p; split; [done|by right]].
  intros (entries & _ & Hs) Hp. rewrite (sv_pages _ _ _ _ _ _ Hs). set (k0 := (WorkspaceID (trimmed page), ItemImage (trimmed page))).
  destruct (decide (k0 = k)) as [<-|Hne]; [|exists p; rewrite lookup_insert_ne by done; split; [done|by right]].
  exists stored. rewrite lookup_insert_eq. split; [done|]. left. pose proof (sv_stored _ _ _ _ _ _ Hs) as (_ & _ & _ & _ & ->).
  pose proof (sv_previous _ _ _ _ _ _ Hs) as Hprev. fold k0 in Hprev. destruct (Z.eqb_spec expected 0); [congruence|].
  destruct Hprev as (old & Ho & <-). assert (old = p) as -> by congruence. lia.
Qed.
Lemma same_follows s s' k p : same_documents s s' -> pages (con s) !! k = Some p -> exists p', pages (con s') !! k = Some p' /\ follows p p'.
Proof. intros [Hp _ _] Hk. exists p. rewrite Hp. split; [done|by right]. Qed.

Lemma pmove_follows survives s s' k p : pmove survives s s' -> survives k.2 = true -> pages (con s) !! k = Some p ->
  exists p', pages (con s') !! k = Some p' /\ follows p p'.
Proof.
  intros [] Hk Hp.
  - by eapply may_save_follows; [apply savePage_may|].
  - by eapply may_save_follows; [apply complete_may|].
  - by eapply may_save_follows; [apply reprocess_may|].
  - pose proof (publish_may e config ws img options s) as Hpub. destruct (PublishPage _ _ _ _ _ s) as [[[row new]|x] t]; simpl; [|subst t; exists p; split; [done|by right]].
    destruct Hpub as [Hpages _ _ _ _ _ _ _]. exists p. rewrite Hpages. split; [done|by right].
  - eapply same_follows; [apply create_documents|done].
  - eapply same_follows; [apply truth_documents|done].
  - exists p. split; [by apply (gr_pages _ _ (ingest_grows e config c s))|by right].
  - exists p. split; [by apply (gr_pages _ _ (manifest_grows e config c s))|by right].
  - by eapply same_follows.
  - exists p. split; [|by right]. cbn. apply map_lookup_filter_Some. split; [done|]. cbn.
    destruct (gone k.2) eqn:Hg; [|done]. apply H in Hg. congruence.
Qed.
Lemma history_follows survives s s' k p : rtc (pmove survives) s s' -> survives k.2 = true -> pages (con s) !! k = Some p ->
  exists p', pages (con s') !! k = Some p' /\ follows p p'.
Proof.
  intros Hr Hk. revert p. induction Hr as [|s t u Hm Hr IH]; intros p Hp; [exists p; split; [done|by right]|].
  eapply pmove_follows in Hm as (q & Hq & Hpq); [|done..]. destruct (IH q Hq) as (r & Hr' & Hqr). exists r. split; [done|by etrans].
Qed.
End history.
End PageHistory.
