(* ===== verification/AnnotationTheorems.v ===== *)
(** * The canonical annotation pages: the theorems

    Module [AnnotationTheorems]: stored pages are canonical and indexed, saves never overwrite what they have not seen, a
    publication is a snapshot, a stale save is a conflict, a worker's page and the end of its job are one commit. *)

From Stdlib Require Import ZArith Lia Ascii String.
From stdpp Require Import base gmap strings list sorting relations.
From S2P Require Import Prelude GoStrings Json JobSchema JobStore JobInvariant JobRefine JsonParse MediaFragment Presentation PageTheorems Quota QuotaStore QuotaOps QuotaInvariant QuotaSteps Requests Resources Mirrors ItemDb ItemOps ItemSound UploadOutcomes PageIndex PageDb PageStore PageSteps PageHistory.

Module AnnotationTheorems.
Import GoStr Json JsonParse JobStore JobInvariant JobRefine MediaFragment Presentation Resources RawText PageIndex PageDb PageStore PageSteps PageInvariant PageHistory.
#[local] Open Scope Z_scope.

Section theorems.
Context {SC : Schema} {AS : AnnotationSchema} {UP : UrlParser} {UPr : UrlPrinter} {SH : Sha256} {FT : FloatText}.

(** C6: After any history of the store every stored page is a valid canonical page of the image it is stored for, its
    revision is positive, and the index lists exactly its items, each with its whole text and in the page's order. *)
Theorem stored_pages_are_canonical survives s s' ws img p :
  documents_ok s -> rtc (pmove survives) s s' -> pages (con s') !! (ws, img) = Some p ->
  1 <= p_revision p /\ exists identity items,
    PageIdentityFromPageID (p_page_id p) (p_canvas_uri p) = Ok identity /\ ItemImageID identity = img /\
    ValidateCanonicalAnnotationPage (p_payload p) identity = Ok tt /\ page_items (p_payload p) = Some items /\
    Forall2 (entry_of (p_canvas_uri p)) items (SearchIndex ws img s') /\
    Forall (fun x => X_CanvasURI x = p_canvas_uri p) (SearchIndex ws img s').
Proof.
  intros Hd Hr Hp. pose proof (history_documents _ _ _ Hd Hr) as Hd'.
  destruct (dc_pages _ Hd' ws img p Hp) as [[Hrev (identity & Hid & Himg & Hv)] (entries & He & Hc & Hx)].
  destruct (valid_page_items _ _ Hv) as [items Hi]. destruct (index_entries_spec _ _ _ _ Hi He) as (Hf & Hpos & _).
  assert (Hsearch : SearchIndex ws img s' = entries).
  { eapply search_indexed; [exact Hx|]. by rewrite Hpos, (Forall2_length _ _ _ Hf). }
  split; [done|]. exists identity, items. by rewrite Hsearch.
Qed.

(** C7: A save that succeeds stores the given page as the revision after the one it replaces.  From then on, until the image is
    deleted, the revision never decreases and names that content, and every save that still expects an earlier
    revision fails and changes nothing: nobody's changes are lost. *)
Theorem saves_never_overwrite survives e config page expected m s stored job s1 s2 :
  SavePageWithCorrectionMetric e config page expected m s = (Ok (stored, job), s1) ->
  rtc (pmove survives) s1 s2 -> survives (ItemImage page) = true ->
  p_revision stored = expected + 1 /\ p_payload stored = TrimSpace (Payload page) /\
  (exists p, pages (con s2) !! (WorkspaceID page, ItemImage page) = Some p /\
     (expected + 1 < p_revision p \/ p = stored)) /\
  forall e' config' page' m' expected', WorkspaceID page' = WorkspaceID page -> ItemImage page' = ItemImage page -> expected' <= expected ->
    exists x, SavePageWithCorrectionMetric e' config' page' expected' m' s2 = (Err x, s2).
Proof.
  intros Hs Hr Hsv. pose proof (savePage_may e config page expected {| metric := m; save_fence := None; completion := None; reprocess := None |} s) as Hm.
  unfold SavePageWithCorrectionMetric in Hs. rewrite Hs in Hm. destruct Hm as (entries & _ & Hsaved).
  pose proof (sv_stored _ _ _ _ _ _ Hsaved) as (_ & _ & Hpay & _ & Hrev).
  assert (Hp1 : pages (con s1) !! (WorkspaceID page, ItemImage page) = Some stored).
  { rewrite (sv_pages _ _ _ _ _ _ Hsaved). apply lookup_insert_eq. }
  destruct (history_follows _ _ _ (WorkspaceID page, ItemImage page) _ Hr Hsv Hp1) as (p & Hp & Hf).
  split; [done|]. split; [done|]. split.
  { exists p. split; [done|]. destruct Hf; [left; lia|by right]. }
  intros e' config' page' m' expected' Hw Hi Hle.
  pose proof (savePage_may e' config' page' expected' {| metric := m'; save_fence := None; completion := None; reprocess := None |} s2) as Hm.
  unfold SavePageWithCorrectionMetric. destruct (savePage _ _ _ _ _ s2) as [[[stored' job']|x] s3]; [|by exists x; rewrite Hm].
  destruct Hm as (entries' & _ & Hsaved'). pose proof (sv_previous _ _ _ _ _ _ Hsaved') as Hprev.
  change (WorkspaceID (trimmed page')) with (WorkspaceID page') in Hprev. change (ItemImage (trimmed page')) with (ItemImage page') in Hprev.
  rewrite Hw, Hi, Hp in Hprev. exfalso. destruct (expected' =? 0); [done|]. destruct Hprev as (old & [= <-] & Ho).
  destruct Hf as [| ->]; lia.
Qed.

(** ** Publications *)

Lemma lock_publication_accounts ws img options : keeps accounts_only (lock_publication ws img options).
Proof. unfold lock_publication, LockAnnotationPageForPublication. solve_keeps; (apply keeps_missing; apply _). Qed.

Lemma published_page_found s ws img u : documents_ok s -> img <> 0 -> published (con s) !! (ws, img) = Some u ->
  LoadPublishedPage s img = Ok (ws, u).
Proof.
  intros Hd Himg Hu. unfold LoadPublishedPage. destruct (Z.eqb_spec img 0); [done|].
  assert (Hall : forall kp, kp ∈ filter (fun kp : (Z * Z) * published_row => kp.1.2 = img) (map_to_list (published (con s))) <-> kp = ((ws, img), u)).
  { intros [k v]. rewrite list_elem_of_filter, elem_of_map_to_list. simpl. split; [|by intros [= -> ->]].
    intros [Hk Hv]. assert (k = (ws, img)) as -> by (eapply (dc_one_publication _ Hd); eauto). congruence. }
  destruct (filter _ _) as [|kp l] eqn:E.
  - specialize (Hall ((ws, img), u)). rewrite elem_of_nil in Hall. by destruct (proj2 Hall eq_refl).
  - assert (kp = ((ws, img), u)) as -> by (apply Hall; set_solver). done.
Qed.

(** C8: A successful publication is the canonical page of exactly the expected revision, and is what an anonymous reader loads.
    Saves of drafts leave it as it is; publishing the same revision again returns it and writes nothing. *)
Theorem publication_is_a_snapshot e config ws img options s row new s1 :
  documents_ok s -> PublishPage e config ws img options s = (Ok (row, new), s1) ->
  (exists p, pages (con s) !! (ws, img) = Some p /\ p_revision p = ExpectedRevision options /\ row = snapshot_of p (u_by row) (u_at row)) /\
  LoadPublishedPage s1 img = Ok (ws, row) /\
  (forall e' config' page expected m, LoadPublishedPage (SavePageWithCorrectionMetric e' config' page expected m s1).2 img = Ok (ws, row)) /\
  forall e' config' options' row' new' s2, ExpectedRevision options' = ExpectedRevision options ->
    PublishPage e' config' ws img options' s1 = (Ok (row', new'), s2) -> row' = row /\ new' = false /\ con s2 = con s1 /\ events s2 = events s1.
Proof.
  intros Hd H. pose proof (publish_may e config ws img options s) as Hp. rewrite H in Hp.
  pose proof (published_documents _ _ _ _ _ _ _ _ Hd Hp) as Hd1.
  assert (Himg : img <> 0).
  { unfold PublishPage in H. destruct (_ || _ || _) eqn:E; [done|]. by split_bools. }
  destruct (pb_canonical _ _ _ _ _ _ _ _ Hp) as (p & Hpage & Hrev & Hval & Hur & Hsnap).
  pose proof (pb_public _ _ _ _ _ _ _ _ Hp) as Hpub.
  assert (Hrow : row = snapshot_of p (u_by row) (u_at row)).
  { destruct new; [by destruct Hsnap as [by_ ->]|]. pose proof (pb_others _ _ _ _ _ _ _ _ Hp) as Ho. cbn in Ho. rewrite Ho in Hpub.
    destruct (dc_published _ Hd ws img row Hpub) as (q & Hq & [_ [Hlt|Heq]]); replace q with p in * by congruence; [lia|done]. }
  split; [by exists p|]. split; [by apply published_page_found|]. split.
  - intros e' config' page expected m.
    pose proof (savePage_may e' config' page expected {| metric := m; save_fence := None; completion := None; reprocess := None |} s1) as Hm.
    unfold SavePageWithCorrectionMetric. destruct (savePage _ _ _ _ _ s1) as [[[stored job]|x] s2] eqn:E; simpl in *; [|subst; by apply published_page_found].
    destruct Hm as (entries & _ & Hs). unfold LoadPublishedPage. rewrite (sv_published _ _ _ _ _ _ Hs). by apply published_page_found.
  - intros e' config' options' row' new' s2 Hexp H2. unfold PublishPage in H2. destruct (_ || _ || _); [done|].
    apply run_tx_Ok in H2. unfold publish_tx in H2. tx_bind H2 as [[[item before] q] existing] t Hl.
    pose proof (lock_publication_accounts _ _ _ _ _ _ Hl) as [Hcon Hev _].
    apply lock_publication_Ok in Hl as [_ Hq Hqr _ ->]. rewrite Hpub in H2. rewrite (pb_pages _ _ _ _ _ _ _ _ Hp) in Hq.
    replace q with p in * by congruence. rewrite Hur, Z.eqb_refl in H2. injection H2 as <- <- <-. done.
Qed.

(** ** Stale saves *)

Lemma write_stale page expected row s : 0 <= expected -> (forall p, pages (con s) !! (WorkspaceID page, ItemImage page) = Some p -> 1 <= p_revision p) ->
  image_owned s (WorkspaceID page) (ItemImage page) = true -> page_id_free (pages (con s)) (WorkspaceID page, ItemImage page) (p_page_id row) = true ->
  match pages (con s) !! (WorkspaceID page, ItemImage page) with Some p => p_revision p | None => 0 end <> expected ->
  write_page page expected row s = Err RevisionConflict.
Proof.
  intros He Hpos Hown Hfree Hne. unfold write_page, CreateAnnotationPage, GetAnnotationPage, UpdateAnnotationPageCAS, ptx_of, mbind, tx_bind. cbv zeta.
  destruct (Z.eqb_spec expected 0) as [->|]; rewrite ?Hown; cbn [negb]; destruct (pages (con s) !! _) as [p|] eqn:Hp; try done.
  by rewrite (proj2 (Z.eqb_neq _ _) Hne).
Qed.
Lemma write_current page expected row s : (forall p, pages (con s) !! (WorkspaceID page, ItemImage page) = Some p -> 1 <= p_revision p) ->
  image_owned s (WorkspaceID page) (ItemImage page) = true -> page_id_free (pages (con s)) (WorkspaceID page, ItemImage page) (p_page_id row) = true ->
  match pages (con s) !! (WorkspaceID page, ItemImage page) with Some p => p_revision p | None => 0 end = expected ->
  exists row', write_page page expected row s = Ok (tt, set_pages (<[(WorkspaceID page, ItemImage page) := row']> (pages (con s))) s).
Proof.
  intros Hpos Hown Hfree Heq. unfold write_page, CreateAnnotationPage, UpdateAnnotationPageCAS, mbind, tx_bind. cbv zeta.
  destruct (Z.eqb_spec expected 0) as [->|Hn]; rewrite ?Hown; cbn [negb]; destruct (pages (con s) !! _) as [p|] eqn:Hp.
  - specialize (Hpos p eq_refl). lia.
  - rewrite Hfree. by eexists.
  - rewrite (proj2 (Z.eqb_eq _ _) Heq); cbn [andb]; rewrite Hfree. by eexists.
  - lia.
Qed.

Lemma account_conflict ws img b q s : account ws img b q s <> Err RevisionConflict.
Proof.
  unfold account, itemImageDurableDatabaseBytes, on_quota, on_tables, mbind, tx_bind.
  destruct (ItemGraph.itemImageDurableDatabaseBytes ws img (tables s)) as [[n t]|x]; [|done].
  by destruct (ItemDb.quota _ _) as [[? ?]|x].
Qed.

(** C24: A save that passes its checks and locks reports a revision conflict exactly when the revision it expects is not the
    stored one (zero for no page), and then leaves everything as it was. *)
Theorem stale_saves_conflict e config page expected entries row b s s1 :
  documents_ok s -> 0 <= expected -> check_page page = Ok entries -> annotationPageToRow (trimmed page) = Ok row ->
  lock_page (trimmed page) s = Ok (b, s1) -> image_owned s (WorkspaceID page) (ItemImage page) = true ->
  page_id_free (pages (con s)) (WorkspaceID page, ItemImage page) (PageID (trimmed page)) = true ->
  ((SavePage e config page expected s).1 = Err RevisionConflict <->
   match pages (con s) !! (WorkspaceID page, ItemImage page) with Some p => p_revision p | None => 0 end <> expected) /\
  ((SavePage e config page expected s).1 = Err RevisionConflict -> (SavePage e config page expected s).2 = s).
Proof.
  intros Hd He Hc Hrow Hl Hown Hfree. pose proof (lock_page_quiet _ _ _ _ Hl) as Hf.
  assert (Hx : NoDup (X_ID <$> entries)).
  { apply check_page_Ok in Hc as ((identity & _ & _ & Hv) & Hent & _). destruct (valid_page_items _ _ Hv) as [items Hi].
    by destruct (index_entries_spec _ _ _ _ Hi Hent) as (_ & _ & Hx). }
  rewrite <- (frame_owned _ _ _ _ Hf) in Hown. rewrite <- (fr_pages _ _ Hf) in Hfree.
  pose proof (page_row_Ok _ _ Hrow) as Hrow'. assert (Hpid : p_page_id row = PageID (trimmed page)) by by rewrite Hrow'. rewrite <- Hpid in Hfree.
  assert (Hpos : forall p, pages (con s1) !! (WorkspaceID (trimmed page), ItemImage (trimmed page)) = Some p -> 1 <= p_revision p).
  { rewrite (fr_pages _ _ Hf). intros p Hp. by apply (dc_pages _ Hd) in Hp as [[? _] _]. }
  rewrite <- (fr_pages _ _ Hf). unfold SavePage, SavePageWithCorrectionMetric, savePage. rewrite Hc. cbn [save_fence]. unfold run_tx.
  assert (Htx : save_tx e config (trimmed page) entries expected 0 {| metric := None; save_fence := None; completion := None; reprocess := None |} s =
    (_ ← write_page (trimmed page) expected row; _ ← ReplaceAnnotationIndex (WorkspaceID page) (ItemImage page) entries;
     stored ← GetAnnotationPage (WorkspaceID page) (ItemImage page); _ ← account (WorkspaceID page) (ItemImage page) b (quota config); mret (stored, 0)) s1).
  { unfold save_tx, AnnotationPageResourceExists. cbn [reprocess save_fence metric completion].
    cbv [mbind tx_bind mret tx_ret tx_reads tx_lift]. rewrite Hl, Hrow. cbn [WorkspaceID ItemImage trimmed] in Hown |- *. by rewrite Hown. }
  rewrite Htx. unfold mbind, tx_bind.
  destruct (decide (match pages (con s1) !! (WorkspaceID page, ItemImage page) with Some p => p_revision p | None => 0 end = expected)) as [Heq|Hne].
  - destruct (write_current (trimmed page) expected row s1 Hpos Hown Hfree Heq) as [row' ->].
    destruct (replace_total (WorkspaceID page) (ItemImage page) entries
      (set_pages (<[(WorkspaceID (trimmed page), ItemImage (trimmed page)) := row']> (pages (con s1))) s1) Hx) as [s2 ->].
    unfold GetAnnotationPage, ptx_of. destruct (if image_owned _ _ _ then _ else _); [|split; [split|]; done].
    pose proof (account_conflict (WorkspaceID page) (ItemImage page) b (quota config) s2) as Hac.
    destruct (account _ _ _ _ s2) as [[[] s4]|x]; [split; [split|]; done|]. cbn. split; [split|]; [congruence|done|congruence].
  - rewrite write_stale by done. done.
Qed.

(** ** A worker's page *)

(** A function of the queue leaves its tables as they are. *)
Lemma jobs_frame {A} e (m : Jobs.stx A) s a s' : (forall d b d', m d = Ok (b, d') -> JobInvariant.same_tables d d') ->
  on_jobs e m s = Ok (a, s') -> same_queue s s'.
Proof.
  unfold on_jobs. intros Hm. destruct (m (queue_view s)) as [[b d]|] eqn:E; [|done]. intros [= <- <-].
  apply Hm in E as (Hj & Ha & Hc & Hn). unfold same_queue. cbn in *. unfold queue_tables. rewrite Hj, Ha, Hc, Hn. by destruct (ItemDb.queue (base s)).
Qed.
Lemma emit_queue e ws id type subject body : keeps same_queue (emit e ws id type subject body).
Proof.
  unfold emit. apply along_bind; [apply _..| |intros []]; intros s u s'; apply jobs_frame; intros d b d'.
  - unfold Jobs.InsertEventOutbox, tx_modify. intros [= _ <-]. by case_match.
  - unfold Jobs.InsertWorkspaceWebhookDeliveries. intros H. repeat case_match; try done. by injection H as _ <-.
Qed.

Definition job_of (s : pdb) (id : Z) : option Jobs.job_row := ItemDb.q_jobs (ItemDb.queue (base s)) !! id.
Definition attempt_of (s : pdb) (id n : Z) : option Jobs.attempt_row := ItemDb.q_attempts (ItemDb.queue (base s)) !! (id, n).

Lemma lock_fence_Ok e page expected n f s s' : lock_fence e page expected n f s = Ok (tt, s') ->
  same_queue s s' /\ exists r, job_of s (JobID f) = Some r /\
    Jobs.lease_held n (InputRevision f) (nullableString (LeaseToken f)) (db_now e) r = true /\
    Jobs.k_item_image_id (Jobs.j_key r) = ItemImage page /\ Jobs.k_input_revision (Jobs.j_key r) = expected.
Proof.
  unfold lock_fence. intros H. tx_bind H as [] s1 H1. tx_bind H as r s2 H2. destruct (_ || _) eqn:E; [done|]. injection H as <-. split_bools.
  revert H1. unfold on_jobs. destruct (lock_lease e f n (queue_view s)) as [[u d]|] eqn:El; [|done]. intros [= -> <-].
  apply lock_lease_Ok in El as (-> & r0 & Hr0 & Hl).
  revert H2. unfold on_jobs. destruct (Jobs.GetTranscriptionJobManual _ _) as [[r' d]|] eqn:Eg; [|done]. intros [= -> <-].
  apply get_job_Ok in Eg as [Hr ->]. cbn in Hr, Hr0. split; [unfold same_queue, queue_tables, queue_view; cbn; by destruct (ItemDb.queue (base s))|].
  exists r. unfold job_of. rewrite Hr in Hr0. injection Hr0 as <-. done.
Qed.

Lemma finish_result e f msg rev s u s' : finishTranscriptionAttempt e f Jobs.AttemptCompleted msg (Some rev) s = Ok (u, s') ->
  exists a m, Jobs.attempts s' !! (JobID f, AttemptNumber f) = Some (Jobs.finish_row Jobs.AttemptCompleted m (Some rev) (db_now e) a).
Proof.
  unfold finishTranscriptionAttempt. intros H. tx_bind H as [] t Hv. apply tx_lift_Ok in Hv as [_ ->].
  case_bool_decide; [done|]. case_bool_decide; [done|]. case_bool_decide; [done|]. tx_bind H as x t Hx.
  destruct (_ || _) in Hx; [done|]. injection Hx as <- <-. apply requireFenceAffected_Ok in H.
  unfold Jobs.FinishTranscriptionJobAttemptManual in H. destruct (Jobs.attempts s !! _) as [a|]; [|done].
  destruct (_ && _) in H; [|done]. destruct (Jobs.attempt_checks _ _); [|done]. case_bool_decide; [done|].
  injection H as <-. exists a. eexists. cbn. apply lookup_insert_eq.
Qed.

Lemma complete_Ok e f rev s s' : complete_leased e f rev s = Ok (tt, s') -> exists r a m,
  Jobs.jobs s !! JobID f = Some r /\
  Jobs.jobs s' !! JobID f = Some (Jobs.close_row Jobs.Completed (Jobs.j_retry_after r) None (Jobs.j_error_message r) (db_now e) r) /\
  Jobs.attempts s' !! (JobID f, AttemptNumber f) = Some (Jobs.finish_row Jobs.AttemptCompleted m (Some rev) (db_now e) a) /\
  forall line, Jobs.checkpoints s' !! (JobID f, line) = None.
Proof.
  unfold complete_leased. intros H. tx_bind H as n s1 Hn. apply tx_lift_Ok in Hn as [_ ->].
  tx_bind H as [] s1 Hfin. tx_bind H as [] s2 Hup. apply requireFenceAffected_Ok in Hup. apply delete_checkpoints_run in H as ->.
  destruct (finish_result _ _ _ _ _ _ _ Hfin) as (a & m & Ha). apply finish_Ok in Hfin as (a0 & m0 & rv & _ & _ & _ & _ & _ & _ & _ & ->).
  apply update_job_Ok in Hup as (r & Hr & _ & _ & _ & _ & ->). exists r, a, m. cbn in *. rewrite lookup_insert_eq.
  split_and!; [done|done|done|]. intros line. apply map_lookup_filter_None_2. right. intros x _ Hx. by apply Hx.
Qed.

(** C23: When a worker's page is saved, its job, still running under its lease for this image and revision, is completed in the same
    commit: the attempt names the stored revision, no checkpoint is left, and the page is the revision after the one the job
    was given.  A call that fails leaves the page, the job and the attempt as they were. *)
Theorem completion_commits_with_the_page e config page expected c s :
  match SavePageAndCompleteTranscriptionJob e config page expected c s with
  | (Ok (stored, _), s') =>
      (exists r r' a, job_of s (JobID (Fence c)) = Some r /\ Jobs.j_status r = Jobs.Running /\
         Jobs.j_attempt_count r = AttemptNumber (Fence c) /\
         Jobs.k_item_image_id (Jobs.j_key r) = ItemImage page /\ Jobs.k_input_revision (Jobs.j_key r) = expected /\
         job_of s' (JobID (Fence c)) = Some r' /\ Jobs.j_status r' = Jobs.Completed /\ Jobs.j_key r' = Jobs.j_key r /\
         attempt_of s' (JobID (Fence c)) (AttemptNumber (Fence c)) = Some a /\
         Jobs.a_outcome a = Jobs.AttemptCompleted /\ Jobs.a_result_revision a = Some (p_revision stored)) /\
      (forall line, ItemDb.q_checkpoints (ItemDb.queue (base s')) !! (JobID (Fence c), line) = None) /\
      pages (con s') !! (WorkspaceID page, ItemImage page) = Some stored /\ p_revision stored = expected + 1
  | (Err _, s') => s' = s
  end.
Proof.
  pose proof (complete_may e config page expected c s) as Hmay.
  destruct (SavePageAndCompleteTranscriptionJob _ _ _ _ _ s) as [[[stored job]|x] s'] eqn:H; [|done].
  destruct Hmay as (entries & _ & Hsaved).
  assert (Hpage : pages (con s') !! (WorkspaceID page, ItemImage page) = Some stored /\ p_revision stored = expected + 1).
  { rewrite (sv_pages _ _ _ _ _ _ Hsaved). split; [apply lookup_insert_eq|]. apply (sv_stored _ _ _ _ _ _ Hsaved). }
  unfold SavePageAndCompleteTranscriptionJob in H. destruct (validateTranscriptionFence _); [|done]. destruct (negb _); [done|].
  destruct (match CompletionRun c with Some _ => _ | None => _ end); [done|].
  unfold savePage in H. destruct (check_page page) as [es|]; [|done]. cbn [save_fence] in H.
  destruct (lift_job (transcriptionAttemptNumberToDB (Fence c))) as [n|x] eqn:En; [|done]. apply run_tx_Ok in H.
  assert (n = AttemptNumber (Fence c)) as ->.
  { unfold lift_job in En. destruct (transcriptionAttemptNumberToDB (Fence c)) eqn:E; [|done]. injection En as <-. by apply attemptNumberToDB_Ok. }
  unfold save_tx in H. cbn [reprocess save_fence metric completion] in H.
  tx_bind H as before s1 H1. apply lock_page_accounts in H1 as [_ _ Hq1]. tx_bind H as locked s2 H2. injection H2 as <- <-.
  tx_bind H as [] s2 H2. apply lock_fence_Ok in H2 as (Hq2 & r & Hr & Hl & Hi & Hrv).
  tx_bind H as ex s3 H3. injection H3 as <- <-. destruct (image_owned s2 _ _); [|done]. cbn [negb] in H.
  tx_bind H as row s3 H3. apply tx_lift_Ok in H3 as [Hrow ->]. pose proof (page_row_Ok _ _ Hrow) as Hrow'.
  tx_bind H as [] s3 H3. apply write_page_Ok in H3 as (_ & _ & Hs3); [|by rewrite Hrow'].
  tx_bind H as [] s4 H4. apply replace_indexed in H4 as (m & Hs4 & _).
  tx_bind H as got s5 H5. apply get_page_Ok in H5 as (-> & _ & _). tx_bind H as [] s5 H5. injection H5 as <-.
  tx_bind H as j s5 H5. injection H5 as <- <-. tx_bind H as [] s5 H5. tx_bind H as [] s6 H6. injection H as <- <- <-.
  apply account_accounts in H6 as [_ _ Hq6].
  unfold commit_completion in H5. tx_bind H5 as [] s7 H7. assert (Hq7 : same_queue s4 s7).
  { destruct (CompletionRun c) as [run|]; [|by injection H7 as <-]. case_bool_decide; [|done].
    by eapply content_queue in H7; [|apply insert_current_content]. }
  tx_bind H5 as [] s8 H8. assert (Hq8 : same_queue s8 s5).
  { destruct (_ && _) in H5; [|by injection H5 as <-]. by eapply emit_queue. }
  assert (Hq : ItemDb.queue (base s7) = ItemDb.queue (base s)).
  { rewrite Hq7, Hs4, Hs3. cbn. by rewrite Hq2. }
  revert H8. unfold on_jobs. destruct (complete_leased _ _ _ _) as [[u d]|] eqn:Ec; [|done]. intros [= -> <-].
  apply complete_Ok in Ec as (r0 & att & m' & Hr0 & Hj & Ha & Hch). cbn in Hr0. unfold job_of, attempt_of in *. rewrite Hq in Hr0.
  rewrite Hq1 in Hr. assert (r0 = r) as -> by congruence. apply lease_held_running in Hl as (Hrun & Hcnt & _).
  assert (Hqe : ItemDb.queue (base s6) = queue_tables d) by by rewrite Hq6, Hq8.
  rewrite Hqe. cbn. split; [|by split]. exists r. do 2 eexists. do 5 (split; [done|]). split; [exact Hj|]. do 2 (split; [done|]). split; [exact Ha|]. done.
Qed.
End theorems.
End AnnotationTheorems.

(** * One page of one image *)

Module AnnotationExamples.
Import GoStr Json JsonParse JobStore MediaFragment Presentation Resources RawText PageIndex PageDb PageStore PageSteps PageInvariant PageHistory PageTheorems AnnotationTheorems.
#[local] Open Scope Z_scope.
#[local] Existing Instances demo_schema demo_parse demo_print demo_sha.
#[local] Instance any_annotation : AnnotationSchema := fun _ => true.
#[local] Instance plain_numbers : FloatText := fun lit => Some lit.

Definition no_content : content :=
  {| pages := ∅; index := ∅; published := ∅; runs := ∅; current := ∅; ground_truth := ∅; mirrors := ∅; tombstones := ∅; requests := ∅ |}.
(** The library of [UploadExamples]. *)
Definition shelf : pdb :=
  {| base := UploadExamples.s_imaged;
     con := no_content; events := {| outbox := ∅; deliveries := ∅; subscriptions := ∅ |} |}.
Definition settings : store_config := {| admission := 5; quota := Quota.unboundedStorageQuotaLimits |}.

Definition draft : AnnotationPage :=
  {| WorkspaceID := 1; ItemImage := 7; PageID := demo_page_id; Canvas := "https://scribe.test/canvas/7";
     Payload := demo_normalized; UpdatedByUserID := Some 7 |}.
Definition clock := UploadExamples.clock.

Definition saved_once : pdb := (SavePageWithCorrectionMetric (clock 2000 "u9") settings draft 0 None shelf).2.
Definition first_row : page_row :=
  {| p_page_id := demo_page_id; p_canvas_uri := "https://scribe.test/canvas/7"; p_payload := demo_normalized; p_revision := 1; p_updated_by := Some 7 |}.
Definition publication : AnnotationPublicationOptions :=
  {| ExpectedRevision := 1; PublishedByUserID := Some 7; EventID := ""; EventType := ""; Subject := "" |}.
Definition published_once : pdb := (PublishPage (clock 2100 "u9") settings 1 7 publication saved_once).2.
Definition snapshot : published_row := snapshot_of first_row (Some 7) 2100.

Lemma outcome_of {A} (o : outcome A) r : o.1 = r -> o = (r, o.2).
Proof. by destruct o as [? ?]; intros <-. Qed.
Lemma saves : SavePageWithCorrectionMetric (clock 2000 "u9") settings draft 0 None shelf = (Ok (first_row, 0), saved_once).
Proof. unfold saved_once. apply outcome_of. vm_compute. reflexivity. Qed.
Lemma publishes : PublishPage (clock 2100 "u9") settings 1 7 publication saved_once = (Ok (snapshot, true), published_once).
Proof. unfold published_once. apply outcome_of. vm_compute. reflexivity. Qed.
Lemma no_content_ok s : con s = no_content -> documents_ok s.
Proof. intros Hc. split; rewrite Hc; by intros. Qed.
Lemma shelf_ok : documents_ok shelf.
Proof. apply no_content_ok. reflexivity. Qed.
Lemma history_saved survives : rtc (pmove survives) shelf saved_once.
Proof. apply rtc_once. refine (pm_save survives shelf (clock 2000 "u9") settings draft 0 None _). apply Z.le_refl. Qed.
Lemma saved_ok : documents_ok saved_once.
Proof. exact (history_documents (fun _ => true) _ _ shelf_ok (history_saved _)). Qed.

Lemma stored_pages_are_canonical_witness : pages (con saved_once) !! (1, 7) = Some first_row /\
  1 <= p_revision first_row /\ exists identity items,
    PageIdentityFromPageID (p_page_id first_row) (p_canvas_uri first_row) = Ok identity /\ ItemImageID identity = 7 /\
    ValidateCanonicalAnnotationPage (p_payload first_row) identity = Ok tt /\ page_items (p_payload first_row) = Some items /\
    Forall2 (entry_of (p_canvas_uri first_row)) items (SearchIndex 1 7 saved_once) /\
    Forall (fun x => X_CanvasURI x = p_canvas_uri first_row) (SearchIndex 1 7 saved_once).
Proof.
  assert (Hp : pages (con saved_once) !! (1, 7) = Some first_row) by (vm_compute; reflexivity). split; [exact Hp|].
  exact (stored_pages_are_canonical (fun _ => true) shelf saved_once 1 7 first_row shelf_ok (history_saved _) Hp).
Defined.

Lemma saves_never_overwrite_witness : exists x,
  SavePageWithCorrectionMetric (clock 2200 "u8") settings draft 0 None published_once = (Err x, published_once).
Proof.
  destruct (saves_never_overwrite (fun _ => true) (clock 2000 "u9") settings draft 0 None shelf first_row 0 saved_once published_once saves) as (_ & _ & _ & H).
  - apply rtc_once. refine (pm_publish _ saved_once (clock 2100 "u9") settings 1 7 publication).
  - reflexivity.
  - apply H; [reflexivity|reflexivity|lia].
Defined.

Lemma publication_is_a_snapshot_witness : LoadPublishedPage published_once 7 = Ok (1, snapshot) /\ u_payload snapshot = demo_normalized.
Proof.
  split; [|reflexivity].
  exact (proj1 (proj2 (publication_is_a_snapshot (clock 2100 "u9") settings 1 7 publication saved_once snapshot true published_once saved_ok publishes))).
Defined.

Lemma stale_saves_conflict_witness : (SavePage (clock 2300 "u8") settings draft 4 saved_once).1 = Err RevisionConflict.
Proof.
  assert (Hc : match check_page draft with Ok _ => true | Err _ => false end = true) by (vm_compute; reflexivity).
  destruct (check_page draft) as [entries|] eqn:Ec; [|discriminate].
  assert (Hl : match lock_page (trimmed draft) saved_once with Ok _ => true | Err _ => false end = true) by (vm_compute; reflexivity).
  destruct (lock_page (trimmed draft) saved_once) as [[b s1]|] eqn:El; [|discriminate].
  refine (proj2 (proj1 (stale_saves_conflict (clock 2300 "u8") settings draft 4 entries _ b saved_once s1 saved_ok _ Ec _ El _ _)) _).
  - lia.
  - reflexivity.
  - vm_compute. reflexivity.
  - vm_compute. reflexivity.
  - vm_compute. discriminate.
Defined.
End AnnotationExamples.
