(* ===== verification/PageKeeps.v ===== *)
(** * The canonical annotation pages: the tables stay sound

    Every statement of the page store keeps the invariant of the items ([sound]) of the tables as
    the item store sees them; while a transaction runs, the usage row of its workspace still
    counts the bytes the image had when it began ([pending]).  Modules [PageSound]: what such a change may be;
    [PageKeeps]: the statements. *)

From Stdlib Require Import ZArith Lia Ascii String.
From stdpp Require Import base gmap strings list sorting.
From S2P Require Import Prelude GoStrings Json JobSchema JobStore JobInvariant JobRefine JobAdmission MediaFragment Presentation Quota QuotaStore QuotaOps QuotaInvariant QuotaSteps Requests RequestTheorems Resources Mirrors ItemDb ItemOps UploadBatches ItemAudit ItemPurge ItemSound ItemSteps UploadSteps ItemKeeps PageIndex PageDb PageStore PageSteps.

Module PageSound.
Import GoStr Json JobInvariant Quota QuotaStore QuotaOps QuotaFacts QuotaInvariant QuotaSteps QuotaTheorems ItemDb ItemGraph ItemAudit ItemPurge ItemMeasure ItemSound ItemSteps UploadSteps ItemKeeps.
#[local] Open Scope Z_scope.

(** ** The rows of one image and the others *)

Section outside.
Context (ws img : Z).

(** What a change of the image's rows leaves. *)
Record agree (k k' : children) : Prop := {
  ag_runs : filter (fun kv => (n_item_image_id kv.2 =? img) = false) (ocr_runs k')
            = filter (fun kv => (n_item_image_id kv.2 =? img) = false) (ocr_runs k);
  ag_pages : filter (fun kv => ((kv.1.1 =? ws) && (kv.1.2 =? img)) = false) (pages k')
            = filter (fun kv => ((kv.1.1 =? ws) && (kv.1.2 =? img)) = false) (pages k);
  ag_truth : filter (fun kv => ((kv.1.1.1 =? ws) && (kv.1.1.2 =? img)) = false) (ground_truth k')
            = filter (fun kv => ((kv.1.1.1 =? ws) && (kv.1.1.2 =? img)) = false) (ground_truth k);
  ag_index : filter (fun kv => ((kv.1.1.1 =? ws) && (kv.1.1.2 =? img)) = false) (index k')
            = filter (fun kv => ((kv.1.1.1 =? ws) && (kv.1.1.2 =? img)) = false) (index k);
  ag_published : filter (fun kv => ((kv.1.1 =? ws) && (kv.1.2 =? img)) = false) (published k')
            = filter (fun kv => ((kv.1.1 =? ws) && (kv.1.2 =? img)) = false) (published k);
  ag_audits : provider_audits k' = provider_audits k;
}.

Definition image_size (t : idb) : Z := GetItemImageDurableDatabaseBytes ws img t.

(** The bytes of a workspace without those of the image. *)
Definition outside_bytes (t : idb) (w : Z) : Z :=
  wsum (fun _ n => when (n_workspace_id n =? w) (n_bytes n)) (filter (fun kv => (n_item_image_id kv.2 =? img) = false) (ocr_runs (kids t)))
  + wsum (fun k p => when (k.1 =? w) (p_bytes p)) (filter (fun kv => ((kv.1.1 =? ws) && (kv.1.2 =? img)) = false) (pages (kids t)))
  + wsum (fun k b => when (k.1.1 =? w) b) (filter (fun kv => ((kv.1.1.1 =? ws) && (kv.1.1.2 =? img)) = false) (ground_truth (kids t)))
  + wsum (fun k b => when (k.1.1 =? w) b) (filter (fun kv => ((kv.1.1.1 =? ws) && (kv.1.1.2 =? img)) = false) (index (kids t)))
  + wsum (fun k p => when (k.1 =? w) (p_bytes p)) (filter (fun kv => ((kv.1.1 =? ws) && (kv.1.2 =? img)) = false) (published (kids t)))
  + wsum (fun _ x => when (t_workspace_id x =? w) (manifest_bytes x)) (items t)
  + wsum (fun _ a => when (u_workspace_id a =? w) (u_database_bytes a)) (filter (fun kv => ((u_workspace_id kv.2 =? ws)
      && some_is (fun i => (i =? img) && bool_decide (is_Some (images t !! i))) (u_item_image_id kv.2)) = false) (provider_audits (kids t))).

Lemma split_bytes t w : related t -> image_parent t ws img = true ->
  stored_bytes t w = outside_bytes t w + when (w =? ws) (image_size t).
Proof.
  intros Hrel Himg. unfold outside_bytes, image_size, GetItemImageDurableDatabaseBytes. rewrite !summed_wsum. unfold stored_bytes.
  rewrite (taken_off (ocr_runs (kids t)) (fun kv => n_item_image_id kv.2 =? img) (fun _ n => n_workspace_id n) (fun _ n => n_bytes n) ws).
  2:{ intros k v Hv Hp. apply Z.eqb_eq in Hp. pose proof (rel_runs _ Hrel k v Hv) as Hok. unfold ok_run in Hok. split_bools.
      simpl in Hp. subst img. apply image_parent_true in Himg as (g & Hg & Hw).
      match goal with H : image_parent _ _ _ = true |- _ => apply image_parent_true in H as (g' & Hg' & Hw') end. congruence. }
  rewrite (taken_off (pages (kids t)) (fun kv => (kv.1.1 =? ws) && (kv.1.2 =? img)) (fun k _ => k.1) (fun _ p => p_bytes p) ws) by (intros ? ? ? ?; by split_bools).
  rewrite (taken_off (ground_truth (kids t)) (fun kv => (kv.1.1.1 =? ws) && (kv.1.1.2 =? img)) (fun k _ => k.1.1) (fun _ p => p) ws) by (intros ? ? ? ?; by split_bools).
  rewrite (taken_off (index (kids t)) (fun kv => (kv.1.1.1 =? ws) && (kv.1.1.2 =? img)) (fun k _ => k.1.1) (fun _ p => p) ws) by (intros ? ? ? ?; by split_bools).
  rewrite (taken_off (published (kids t)) (fun kv => (kv.1.1 =? ws) && (kv.1.2 =? img)) (fun k _ => k.1) (fun _ p => p_bytes p) ws) by (intros ? ? ? ?; by split_bools).
  rewrite (taken_off (provider_audits (kids t)) (fun kv => (u_workspace_id kv.2 =? ws)
      && some_is (fun i => (i =? img) && bool_decide (is_Some (images t !! i))) (u_item_image_id kv.2)) (fun _ a => u_workspace_id a) (fun _ a => u_database_bytes a) ws) by (intros ? ? ? ?; by split_bools).
  unfold when, id. cbn [fst snd]. destruct (w =? ws); lia.
Qed.

Lemma agree_outside t k' w : agree (kids t) k' -> outside_bytes (set_kids k' t) w = outside_bytes t w.
Proof. intros []. unfold outside_bytes. cbn [kids set_kids items images]. by rewrite ag_runs0, ag_pages0, ag_truth0, ag_index0, ag_published0, ag_audits0. Qed.

Lemma agree_refl k : agree k k.
Proof. by split. Qed.
End outside.

(** ** A transaction on the rows of one image *)

(** [d] is what the usage row counts beyond the rest of the store; the image is part of the rest but for its bytes. *)
Record pending (ws img : Z) (d : StorageQuotaRequest) (s : PageDb.pdb) : Prop := {
  pd_near : near None ws (amount_add d (amount (- image_size ws img (PageDb.tables s)) 0 0)) (PageDb.tables s);
  pd_image : image_parent (PageDb.tables s) ws img = true;
  pd_tenant : ws <> 0 /\ is_Some (a_usages (acc (PageDb.base s)) !! ws);
}.

(** A step of such a transaction: it keeps the invariant and changes rows of the image and of the queue only. *)
Record work (ws img : Z) (s s' : PageDb.pdb) : Prop := {
  wk_pending : forall d, pending ws img d s -> pending ws img d s';
  wk_agree : (exists d, pending ws img d s) -> agree ws img (kids (PageDb.tables s)) (kids (PageDb.tables s'));
  wk_items : items (PageDb.base s') = items (PageDb.base s);
  wk_images : images (PageDb.base s') = images (PageDb.base s);
  wk_users : users (PageDb.base s') = users (PageDb.base s);
  wk_accounts : a_usages (acc (PageDb.base s')) = a_usages (acc (PageDb.base s)) /\
    a_reservations (acc (PageDb.base s')) = a_reservations (acc (PageDb.base s));
}.
#[export] Instance work_refl ws img : Reflexive (work ws img).
Proof. intros s. by split. Qed.
#[export] Instance work_trans ws img : Transitive (work ws img).
Proof.
  intros s1 s2 s3 [] []. split; [auto| |congruence..|intuition congruence]. intros [d Hd]. destruct (wk_agree0 ltac:(eauto)), (wk_agree1 ltac:(eauto)).
  split; congruence.
Qed.
Abbreviation works ws img := (PageSteps.keeps (work ws img)).

Lemma kids_near ws img d t k' : near None ws d t -> image_parent t ws img = true -> agree ws img (kids t) k' ->
  related (set_kids k' t) -> truth_related (set_kids k' t) ->
  near None ws (amount_add d (amount (image_size ws img t - image_size ws img (set_kids k' t)) 0 0)) (set_kids k' t).
Proof.
  intros Hn Himg Ha Hr Htr. pose proof (n_related _ _ _ _ Hn) as Hrel.
  assert (Himg' : image_parent (set_kids k' t) ws img = true) by exact Himg.
  pose proof Hn as []. split; try exact _; try assumption.
  { by apply (qview_consistent t). }
  intros w u Hw Hu. rewrite (n_counted0 w u Hw Hu), !stored_sums by done.
  rewrite (split_bytes ws img t w), (split_bytes ws img (set_kids k' t) w), (agree_outside ws img t k' w Ha) by done.
  change (stored_items (set_kids k' t) w) with (stored_items t w). change (stored_images (set_kids k' t) w) with (stored_images t w).
  unfold owes, when, amount, amount_add, no_request. destruct (w =? ws), d; simpl; f_equal; lia.
Qed.

(** ** Relationships under a change of the content *)

(** The runs stay, with their workspace and image. *)
Definition runs_kept (m m' : gmap string ocr_run) : Prop := forall sid n, m !! sid = Some n ->
  exists n', m' !! sid = Some n' /\ n_workspace_id n' = n_workspace_id n /\ n_item_image_id n' = n_item_image_id n.

Record content_ok (t : idb) (k' : children) : Prop := {
  co_sessions : review_sessions k' = review_sessions (kids t);
  co_tokens : review_tokens k' = review_tokens (kids t);
  co_audits : provider_audits k' = provider_audits (kids t);
  co_requests : requests k' = requests (kids t);
  co_kept : runs_kept (ocr_runs (kids t)) (ocr_runs k');
  co_runs : forall sid n, ocr_runs k' !! sid = Some n -> ok_run t n = true;
  co_current : forall i sid, current_runs k' !! i = Some sid ->
    current_runs (kids t) !! i = Some sid \/ (any_image t i = true /\ exists n, ocr_runs k' !! sid = Some n /\ n_item_image_id n = i);
  co_mirrors : forall i, i ∈ mirrors k' -> any_image t i = true;
  co_tombstones : forall i, i ∈ tombstones k' -> any_image t i = true;
  co_pages : forall k p, pages k' !! k = Some p -> image_parent t k.1 k.2 = true /\ user_or_null t (p_user_id p) = true;
  co_page_dom : forall k, is_Some (pages (kids t) !! k) -> is_Some (pages k' !! k);
  co_index : forall k x, index k' !! k = Some x -> image_parent t k.1.1 k.1.2 = true /\ is_Some (pages k' !! (k.1.1, k.1.2));
  co_published : forall k p, published k' !! k = Some p ->
    image_parent t k.1 k.2 = true /\ is_Some (pages k' !! (k.1, k.2)) /\ user_or_null t (p_user_id p) = true;
  co_truth : forall k x, ground_truth k' !! k = Some x -> image_parent t k.1.1 k.1.2 = true;
}.

Lemma request_kept t k' r : runs_kept (ocr_runs (kids t)) (ocr_runs k') -> ok_request t r = true -> ok_request (set_kids k' t) r = true.
Proof.
  intros Hk. unfold ok_request. rewrite !andb_true_iff. intros [H1 H2]. split; [exact H1|].
  destruct (r_session_id r) as [sid|] eqn:Es; [|done].
  unfold request_run in *. rewrite Es in *. cbn [mbind option_bind] in *. change (kids (set_kids k' t)) with k'.
  destruct (ocr_runs (kids t) !! sid) as [n|] eqn:En; [|done]. destruct (Hk sid n En) as (n' & -> & Hw & Hi).
  cbn [mbind option_bind] in *. rewrite Hw, Hi. destruct (_ && _); [|done]. cbn [some_is] in *. by rewrite Hi.
Qed.

Lemma content_related t k' : related t -> content_ok t k' -> related (set_kids k' t).
Proof.
  intros Hrel []. pose proof Hrel as []. split; try assumption; cbn [kids set_kids].
  - by rewrite co_tokens0.
  - rewrite co_sessions0. intros i x Hx. specialize (rel_sessions0 i x Hx). unfold ok_session in *.
    cbn [kids set_kids]. by rewrite co_tokens0.
  - rewrite co_requests0. intros i r Hr. by apply request_kept, (rel_requests0 i).
  - by rewrite co_audits0.
  - intros i sid [Hc|(Ha & n & Hn & Hi)]%co_current0; unfold ok_current; cbn [kids set_kids].
    + pose proof (rel_current0 i sid Hc) as Hok. unfold ok_current in Hok. apply andb_true_iff in Hok as [Hok Ha].
      destruct (ocr_runs (kids t) !! sid) as [n|] eqn:En; [|done]. destruct (co_kept0 sid n En) as (n' & -> & _ & Hi).
      apply andb_true_iff. split; [|exact Ha]. cbn in *. by rewrite Hi.
    + rewrite Hn. cbn. rewrite Hi, Z.eqb_refl. exact Ha.
  - intros k p Hp. exact (proj1 (co_pages0 k p Hp)).
  - intros k p Hp. exact (proj2 (co_pages0 k p Hp)).
  - intros k x Hx. destruct (co_index0 k x Hx) as [Hi Hp]. unfold ok_indexed. apply andb_true_iff. split; [exact Hi|].
    unfold page_parent. by apply bool_decide_eq_true.
  - intros k x Hx. destruct (co_published0 k x Hx) as (Hi & Hp & _). unfold ok_indexed. apply andb_true_iff. split; [exact Hi|].
    unfold page_parent. by apply bool_decide_eq_true.
  - intros k x Hx. exact (proj2 (proj2 (co_published0 k x Hx))).
Qed.

Lemma content_truth t k' : content_ok t k' -> truth_related (set_kids k' t).
Proof. intros []. exact co_truth0. Qed.

(** What holds of the content as it is. *)
Lemma content_same t : related t -> truth_related t -> content_ok t (kids t).
Proof.
  intros [] Htr. split; try done; try assumption.
  - intros sid n Hn. eauto.
  - eauto.
  - intros k p Hp. split; [by apply (rel_pages0 k p)|by apply (rel_editors0 k p)].
  - intros k x Hx. specialize (rel_index0 k x Hx). unfold ok_indexed, page_parent in rel_index0. split_bools. done.
  - intros k x Hx. specialize (rel_published0 k x Hx). unfold ok_indexed, page_parent in rel_published0. split_bools.
    split_and!; [done|done|]. by apply (rel_publishers0 k x).
Qed.

Lemma tables_set_con c s : PageDb.tables (PageDb.set_con c s)
  = set_kids (PageDb.lengths (kids (PageDb.tables s)) c) (PageDb.tables s).
Proof. done. Qed.

(** A change of the rows of the image alone. *)
Lemma content_work ws img c s :
  (forall d, pending ws img d s -> agree ws img (kids (PageDb.tables s)) (PageDb.lengths (kids (PageDb.tables s)) c) /\
     content_ok (PageDb.tables s) (PageDb.lengths (kids (PageDb.tables s)) c)) ->
  work ws img s (PageDb.set_con c s).
Proof.
  intros Hc. split; [|intros [d Hd]; exact (proj1 (Hc d Hd))|done..]. intros d Hd. destruct (Hc d Hd) as [Ha Hok]. destruct Hd as [Hn Himg Ht].
  split; [|exact Himg|exact Ht]. rewrite tables_set_con. pose proof (n_related _ _ _ _ Hn) as Hrel.
  eapply owes_same; [|apply (kids_near ws img _ _ _ Hn Himg Ha); [by apply content_related|by apply content_truth]].
  unfold amount, amount_add. cbn. f_equal; lia.
Qed.

(** ** A change of the queue

    Retention removes jobs and the references to them; a creation adds one. *)

Definition unlinked (old new : gmap Z Jobs.job_row) (r : request_row) : request_row :=
  {| r_workspace_id := r_workspace_id r; r_item_id := r_item_id r; r_item_image_id := r_item_image_id r;
     r_transcription_job_id := PageDb.still_there old new (r_workspace_id r) (r_transcription_job_id r);
     r_session_id := r_session_id r |}.

Section queue.
Context (now : Z) (t : idb) (q : queue_tables).
Abbreviation old := (q_jobs (queue t)).
Abbreviation new := (q_jobs q).
Definition requeued : idb :=
  set_files (map_imap (fun k f => Some (PageDb.file_reference old new now k f)) (files t))
    (set_queue q (set_kids (with_requests (kids t) (unlinked old new <$> requests (kids t))) t)).
Hypothesis Hkeys : forall id r', new !! id = Some r' ->
  (exists r, old !! id = Some r /\ Jobs.j_key r' = Jobs.j_key r) \/ (old !! id = None /\ ok_job t r' = true).
Hypothesis Hqueue : queue_inv (jview requeued).
Hypothesis Hrel : related t.

Lemma kept_job id r : old !! id = Some r -> match new !! id with Some r' => Jobs.j_key r' = Jobs.j_key r | None => True end.
Proof using Hkeys.
  intros Hr. destruct (new !! id) as [r'|] eqn:E; [|done]. destruct (Hkeys id r' E) as [(r0 & Hr0 & Hk)|[Hn _]]; congruence.
Qed.

Lemma reference_same k f : exists f', PageDb.file_reference old new now k f = f' /\ f_status f' = f_status f /\ f_item_image_id f' = f_item_image_id f
  /\ f_transcription_job_id f' = PageDb.still_there old new k.1.1 (f_transcription_job_id f)
  /\ (file_sound f -> file_sound f').
Proof.
  unfold PageDb.file_reference. case_bool_decide as E; eexists; (split; [reflexivity|]); [by split_and!|].
  split_and!; try done. intros []. split; cbn; try done. intros [j Hj]. apply fs_result0.
  unfold PageDb.still_there in Hj. destruct (f_transcription_job_id f); [eauto|done].
Qed.

Lemma requeued_file k f : ok_file t k f = true -> ok_file requeued k (PageDb.file_reference old new now k f) = true.
Proof using Hkeys.
  intros Hok. destruct (reference_same k f) as (f' & -> & _ & Hi & Hj & _). unfold ok_file in *. cbn [batches requeued set_files set_queue set_kids].
  destruct (batches t !! k.1) as [b|]; [|done]. rewrite Hi, Hj. apply andb_true_iff in Hok as [H1 H2]. apply andb_true_iff. split; [exact H1|].
  destruct (f_transcription_job_id f) as [j|]; [|done]. cbn [mbind option_bind PageDb.still_there queue requeued set_files set_queue].
  destruct (old !! j) as [r|] eqn:Er; [|done]. pose proof (kept_job j r Er) as Hk.
  apply andb_true_iff in H2 as [[Hw Hx]%andb_true_iff H3]. destruct (new !! j) as [r'|] eqn:En; [|by rewrite Hw].
  rewrite En, Hk, Hw, Hx. exact H3.
Qed.

Lemma requeued_request r : ok_request t r = true -> ok_request requeued (unlinked old new r) = true.
Proof using Hkeys.
  unfold ok_request. intros [[[[H1 H2]%andb_true_iff H3]%andb_true_iff H4]%andb_true_iff H5]%andb_true_iff.
  change (r_item_id (unlinked old new r)) with (r_item_id r). change (r_item_image_id (unlinked old new r)) with (r_item_image_id r).
  change (r_workspace_id (unlinked old new r)) with (r_workspace_id r). change (r_session_id (unlinked old new r)) with (r_session_id r).
  assert (Hjob : match r_transcription_job_id r with
    | Some j => match r_transcription_job_id (unlinked old new r) with
                | Some j' => exists jr jr', request_job t r = Some jr /\ request_job requeued (unlinked old new r) = Some jr' /\ Jobs.j_key jr' = Jobs.j_key jr
                | None => True end
    | None => r_transcription_job_id (unlinked old new r) = None end).
  { cbn [r_transcription_job_id unlinked]. unfold request_job. cbn [r_transcription_job_id unlinked r_workspace_id r_item_image_id].
    destruct (r_transcription_job_id r) as [j|] eqn:Ej; [|done]. cbn [mbind option_bind PageDb.still_there].
    destruct (request_job t r) as [jr|] eqn:Er; [|done]. unfold request_job in Er. rewrite Ej in Er. cbn [mbind option_bind] in Er.
    destruct (old !! j) as [r0|] eqn:E0; [|done]. cbn [mbind option_bind] in Er. destruct (_ && _) eqn:Ek; [|done]. injection Er as ->.
    pose proof (kept_job j jr E0) as Hk. apply andb_true_iff in Ek as [Hw Hx].
    destruct (new !! j) as [jr'|] eqn:En; [|by rewrite Hw]. cbn [queue requeued set_files set_queue mbind option_bind]. rewrite En. cbn [mbind option_bind].
    exists jr, jr'. rewrite Hk, Hw, Hx. done. }
  apply andb_true_iff; split; [apply andb_true_iff; split; [apply andb_true_iff; split; [apply andb_true_iff; split; [done|done]|done]|]|].
  - destruct (r_transcription_job_id r) as [j|]; [|by rewrite Hjob]. destruct (r_transcription_job_id (unlinked _ _ r)) as [j'|]; [|done].
    destruct Hjob as (jr & jr' & Ej & -> & Hk). rewrite Ej in H4. cbn [some_is] in *. by rewrite Hk.
  - change (request_run requeued (unlinked old new r)) with (request_run t r). destruct (r_session_id r); [|done].
    destruct (request_run t r) as [n|]; [|done]. cbn [some_is] in *. apply andb_true_iff in H5 as [Hn Hs]. apply andb_true_iff. split; [exact Hn|].
    destruct (r_transcription_job_id (unlinked _ _ r)) as [j'|]; [|done].
    destruct (r_transcription_job_id r) as [j|]; [|done].
    destruct Hjob as (jr & jr' & Ej & -> & Hk). rewrite Ej in Hs. by rewrite Hk.
Qed.

Lemma requeued_related : related requeued.
Proof using Hkeys Hqueue Hrel.
  pose proof Hrel as []. split; try assumption.
  - intros i r Hr. cbn in Hr. rewrite lookup_fmap_Some in Hr. destruct Hr as (r0 & <- & Hr). by apply requeued_request, (rel_requests0 i).
  - intros i j Hj. destruct (Hkeys i j Hj) as [(r & Hr & Hk)|[_ Hok]]; [|exact Hok].
    specialize (rel_jobs0 i r Hr). unfold ok_job in *. by rewrite Hk.
  - intros [i n] a Ha. destruct (inv_attempt _ Hqueue i n a Ha) as (_ & r & Hr & _). unfold job_parent. apply bool_decide_eq_true. by exists r.
  - intros [i l] c Hc. destruct (inv_checkpoints _ Hqueue i l ltac:(by exists c)) as (r & Hr & _). unfold job_parent. apply bool_decide_eq_true. by exists r.
  - intros k f' Hf. cbn in Hf. rewrite map_lookup_imap in Hf. destruct (files t !! k) as [f|] eqn:E; [|done]. injection Hf as <-.
    apply requeued_file. by apply (rel_files0 k f).
Qed.

Lemma requeued_near ex ws d : near ex ws d t -> near ex ws d requeued.
Proof using Hkeys Hqueue Hrel.
  intros Hn. pose proof requeued_related as Hrel'. pose proof Hn as [].
  assert (Hlook : forall k f', files requeued !! k = Some f' <-> exists f, files t !! k = Some f /\ PageDb.file_reference old new now k f = f').
  { intros k f'. cbn. rewrite map_lookup_imap. destruct (files t !! k); cbn; naive_solver. }
  split; try done.
  - intros k f' (f & Hf & <-)%Hlook. destruct (reference_same k f) as (f' & -> & _ & _ & _ & Hfs). by apply Hfs, (n_files0 k).
  - intros k b Hb Hex. apply (batch_sound_statuses t); [| |by apply n_batches0].
    + intros i f Hf. destruct (reference_same (k, i) f) as (f' & E & Hst & _). exists f'. split; [|done]. apply Hlook. eauto.
    + intros i f' (f & Hf & <-)%Hlook. destruct (reference_same (k, i) f) as (f' & -> & Hst & _). eauto.
Qed.
End queue.
End PageSound.

(** * The canonical annotation pages: every statement keeps the tables sound

    The statements and functions of [PageStore] as steps of a transaction on the rows of one image ([work]),
    and the bookings that end it. *)

Module PageKeeps.
Import GoStr Json JobStore JobInvariant JobRefine JobAdmission Quota QuotaStore QuotaOps QuotaFacts QuotaInvariant QuotaSteps QuotaTheorems ItemDb ItemGraph ItemAudit ItemPurge ItemMeasure ItemSound ItemSteps UploadSteps ItemKeeps PageSound.
Import (hints) PageSteps.
#[local] Open Scope Z_scope.

(** ** The queue *)

Lemma links_reference old new now r :
  PageDb.request_links (PageDb.request_reference old new now r) = unlinked old new (PageDb.request_links r).
Proof.
  unfold PageDb.request_reference. case_bool_decide as E; [|done].
  unfold unlinked, PageDb.request_links. cbn -[PageDb.still_there]. by rewrite E.
Qed.

Lemma tables_set_jobs now d s : PageDb.tables (PageDb.set_jobs now d s) = requeued now (PageDb.tables s) (PageDb.queue_tables d).
Proof.
  unfold PageDb.tables, requeued, set_files, set_queue, set_kids. cbn -[PageDb.file_reference]. f_equal.
  unfold PageDb.lengths, with_requests. cbn. f_equal. rewrite <- !map_fmap_compose. apply map_fmap_ext. intros i r _. cbn. apply links_reference.
Qed.

(** Jobs go or change, none comes. *)
Definition kept_keys (d d' : Jobs.db) : Prop := forall id r', Jobs.jobs d' !! id = Some r' ->
  exists r, Jobs.jobs d !! id = Some r /\ Jobs.j_key r' = Jobs.j_key r.
#[export] Instance kept_keys_refl : Reflexive kept_keys.
Proof. intros d id r. eauto. Qed.
#[export] Instance kept_keys_trans : Transitive kept_keys.
Proof. intros d1 d2 d3 H1 H2 id r3 (r2 & Hr2 & Hk)%H2. destruct (H1 id r2 Hr2) as (r & Hr & Hk'). exists r. by rewrite Hk. Qed.

Lemma step_keys d d' : JobInvariant.qstep d d' -> Jobs.next_job_id d' = Jobs.next_job_id d -> kept_keys d d'.
Proof.
  intros Hs Hn id x Hx.
  assert (Hput : forall i r r', Jobs.jobs d !! i = Some r -> Jobs.j_key r' = Jobs.j_key r -> Jobs.jobs d' = <[i := r']> (Jobs.jobs d) ->
    exists r0, Jobs.jobs d !! id = Some r0 /\ Jobs.j_key x = Jobs.j_key r0).
  { intros i r r' Hr Hk Hj. rewrite Hj in Hx. apply lookup_insert_Some in Hx as [[<- <-]|[_ Hx]]; eauto. }
  destruct Hs as [(Hj & _)| | | | | | | |]; try lia.
  - rewrite Hj in Hx. eauto.
  - eauto.
  - eauto.
  - eauto.
  - eauto.
  - match goal with H : Jobs.jobs d' = Jobs.jobs d |- _ => rewrite H in Hx end. eauto.
  - match goal with H : Jobs.jobs d' = Jobs.jobs d |- _ => rewrite H in Hx end. eauto.
  - match goal with H : Jobs.jobs d' = delete _ _ |- _ => rewrite H in Hx end. apply lookup_delete_Some in Hx as [_ Hx]. eauto.
Qed.

Lemma queue_same d d' : same_tables d d' -> queue_inv d -> queue_inv d'.
Proof. intros H I. by eapply frame_inv. Qed.

(** A function of the queue that creates no job. *)
Definition serving (d d' : Jobs.db) : Prop := queue_inv d -> queue_inv d' /\ kept_keys d d'.
#[export] Instance serving_refl : Reflexive serving.
Proof. intros d I. done. Qed.
#[export] Instance serving_trans : Transitive serving.
Proof. intros d1 d2 d3 H1 H2 I. destruct (H1 I) as [I2 K]. destruct (H2 I2) as [I3 K']. split; [done|by etrans]. Qed.
#[export] Instance serving_preorder : PreOrder serving := {}.
Definition serves {A} (m : Jobs.stx A) : Prop := forall d a d', m d = Ok (a, d') -> serving d d'.

Lemma serving_step d d' : JobInvariant.qstep d d' -> Jobs.next_job_id d' = Jobs.next_job_id d -> serving d d'.
Proof. intros Hs Hn I. split; [by eapply qstep_inv|by apply step_keys]. Qed.
Lemma serving_frame d d' : same_tables d d' -> serving d d'.
Proof. intros H. apply serving_step; [by apply step_frame|apply H]. Qed.
Lemma serves_read {A} (m : Jobs.stx A) : (forall d a d', m d = Ok (a, d') -> d' = d) -> serves m.
Proof. intros Hm d a d' ->%Hm. reflexivity. Qed.
Lemma serves_ret {A} (a : A) : serves (mret a).
Proof. by apply serves_read; intros d b d' [= _ <-]. Qed.
Lemma serves_bind {A B} (m : Jobs.stx A) (k : A -> Jobs.stx B) : serves m -> (forall a, serves (k a)) -> serves (m ≫= k).
Proof. intros Hm Hk d b d' (a & d1 & H1 & H2)%tx_bind_Ok. etrans; [by eapply Hm|by eapply Hk]. Qed.

Lemma retain_serves ws id d u d' : retain_one ws id d = Ok (u, d') -> serving d d'.
Proof.
  intros H. apply serving_step; [by eapply retain_one_refines|]. revert d u d' H.
  change (keeps Jobs.next_job_id (retain_one ws id)). unfold retain_one. apply keeps_bind; [by apply keeps_modify|intros []].
  apply keeps_bind; [by apply keeps_modify|intros []]. apply keeps_bind; [by apply keeps_modify|intros []].
  apply keeps_bind; [by apply keeps_modify|intros []]. apply keeps_one.
  intros d n d'. unfold Jobs.DeleteRetainedTerminalTranscriptionJobManual. destruct (Jobs.jobs d !! id); [|by intros [= _ <-]].
  destruct (_ && _); by intros [= _ <-].
Qed.
Lemma admission_serves img : serves (lockTranscriptionAdmissionWorkspace img).
Proof.
  intros d ws d' H. apply (admission_R serving) in H as [H _]; [done|exact retain_serves].
Qed.
Lemma active_serves img : serves (Jobs.LockActiveTranscriptionJobForUpdateManual img).
Proof. apply serves_read. by intros d a d' [= _ <-]. Qed.
Lemma enforce_serves ws n : serves (enforceTranscriptionJobAdmission ws n).
Proof.
  apply serves_bind; [apply serves_read; by intros d a d' [= _ <-]|]. intros a. destruct (n <=? a); [by intros d b d'|apply serves_ret].
Qed.
Lemma snapshot_serves cid ws img : serves (lockContextSnapshotForWorkspace cid ws img).
Proof. apply serves_read. intros d a d'. unfold lockContextSnapshotForWorkspace. repeat case_match; try done; by intros [= _ <-]. Qed.
Lemma lease_serves e f n : serves (lock_lease e f n).
Proof. apply serves_read. by intros d a d' [-> _]%lock_lease_Ok. Qed.
Lemma get_serves id : serves (Jobs.GetTranscriptionJobManual id).
Proof. apply serves_read. by intros d a d' [_ ->]%get_job_Ok. Qed.
Lemma outbox_serves id type ws subject body : serves (Jobs.InsertEventOutbox id type ws subject body).
Proof. intros d a d' [= _ <-]. apply serving_frame. by destruct (_ && _). Qed.
Lemma deliveries_serves id : serves (Jobs.InsertWorkspaceWebhookDeliveries id).
Proof.
  intros d a d'. unfold Jobs.InsertWorkspaceWebhookDeliveries. repeat case_match; try done. intros [= _ <-]. by apply serving_frame.
Qed.

Lemma next_update id wh set : keeps Jobs.next_job_id (Jobs.update_job id wh set).
Proof. intros d n d'. unfold Jobs.update_job. repeat case_match; intros [= _ <-]; done. Qed.
Lemma next_finish e f oc msg res : keeps Jobs.next_job_id (finishTranscriptionAttempt e f oc msg res).
Proof. intros d u d' H. by apply finish_Ok in H as (?&?&?&_&_&_&_&_&_&_&->). Qed.

Lemma complete_serves e f rev : serves (complete_leased e f rev).
Proof.
  intros d u d' H I. refine (serving_step _ _ _ _ I); [by eapply complete_leased_refines|]. clear I. revert d u d' H.
  apply (keeps_bind Jobs.next_job_id); [apply keeps_lift|intros n]. apply keeps_bind; [apply next_finish|intros []].
  apply keeps_bind; [apply keeps_fence, next_update|intros []]. by apply keeps_modify.
Qed.

Lemma supersede_serves e id r d u d' : Jobs.jobs d !! id = Some r -> Jobs.is_active (Jobs.j_status r) = true ->
  PageStore.supersede_active_job e id r d = Ok (u, d') -> serving d d'.
Proof.
  unfold PageStore.supersede_active_job. intros Hr Hact H. apply serving_step.
  - tx_bind H as [] s1 Hfin. tx_bind H as [] s2 Hup. apply requireOneAffected_Ok in Hup. case_bool_decide as Hst.
    + tx_bind Hfin as f s3 Hf. apply tx_lift_Ok in Hf as [Hf ->]. eapply close_terminal_run; eauto.
    + injection Hfin as <-. eapply drop_run; [exact Hup|exact H| |done]. intros r0 Hr0.
      assert (r0 = r) as -> by congruence. by destruct (Jobs.j_status r).
  - clear Hr. revert d u d' H. apply (keeps_bind Jobs.next_job_id); [destruct (bool_decide _); [apply keeps_bind; [apply keeps_lift|intros ?; apply next_finish]|apply keeps_ret]|intros []].
    apply keeps_bind; [apply keeps_one, next_update|intros []]. by apply keeps_modify.
Qed.

Section queue.
Context (ws img : Z) (e : env).

(** The jobs after a function of the queue: those before it, and new ones of images that exist. *)
Definition admitted (t : idb) (old new : gmap Z Jobs.job_row) : Prop := forall id r', new !! id = Some r' ->
  (exists r, old !! id = Some r /\ Jobs.j_key r' = Jobs.j_key r) \/ (old !! id = None /\ ok_job t r' = true).
Lemma queue_work s d' : (related (PageDb.tables s) -> queue_inv (PageDb.queue_view s) ->
    queue_inv d' /\ admitted (PageDb.tables s) (Jobs.jobs (PageDb.queue_view s)) (Jobs.jobs d')) ->
  work ws img s (PageDb.set_jobs (db_now e) d' s).
Proof.
  intros Hs. split; [| |done..].
  - intros d [Hn Himg Ht]. pose proof (n_queue _ _ _ _ Hn) as Hq. pose proof (n_related _ _ _ _ Hn) as Hrel.
    assert (Hv : queue_inv (PageDb.queue_view s)) by (by apply (queue_same (jview (PageDb.tables s)))).
    destruct (Hs Hrel Hv) as [Hi Hk].
    split; [|by rewrite tables_set_jobs|exact Ht]. rewrite tables_set_jobs.
    change (image_size ws img (requeued (db_now e) (PageDb.tables s) (PageDb.queue_tables d'))) with (image_size ws img (PageDb.tables s)).
    apply requeued_near; [exact Hk|by apply (queue_same d')|exact Hrel|exact Hn].
  - intros _. by split.
Qed.
Lemma jobs_work s d' : serving (PageDb.queue_view s) d' -> work ws img s (PageDb.set_jobs (db_now e) d' s).
Proof. intros Hs. apply queue_work. intros _ Hq. destruct (Hs Hq) as [Hi Hk]. split; [done|]. intros id r' Hr'. left. by apply Hk. Qed.
Lemma serves_work {A} (m : Jobs.stx A) : serves m -> works ws img (PageDb.on_jobs e m).
Proof.
  intros Hm s a s'. unfold PageDb.on_jobs. destruct (m (PageDb.queue_view s)) as [[b d]|] eqn:E; [|done]. intros [= _ <-].
  apply jobs_work. by eapply Hm.
Qed.

(** An image the queue sees is one of the workspace of its item. *)
Lemma seen_image s i it : related (PageDb.tables s) -> Jobs.image_item (PageDb.queue_view s) i = Some it ->
  image_parent (PageDb.tables s) (Jobs.it_workspace_id it) i = true.
Proof.
  intros Hrel. unfold Jobs.image_item. cbn. rewrite lookup_fmap.
  destruct (images (PageDb.base s) !! i) as [g|] eqn:Hg; [|done]. cbn. rewrite lookup_fmap.
  destruct (items (PageDb.base s) !! g_item_id g) as [x|] eqn:Hx; [|done]. intros [= <-]. cbn.
  pose proof (rel_images _ Hrel i g Hg) as Hok. unfold ok_image in Hok. apply item_parent_true in Hok as (x' & Hx' & Hw).
  cbn in Hx'. apply image_parent_true. exists g. split; [exact Hg|]. congruence.
Qed.
Lemma insert_admitted s i ctx snap now id d' : related (PageDb.tables s) ->
  Jobs.CreateTranscriptionJobManual i ctx snap now (PageDb.queue_view s) = Ok (id, d') ->
  admitted (PageDb.tables s) (Jobs.jobs (PageDb.queue_view s)) (Jobs.jobs d').
Proof.
  intros Hrel H. assert (Hold : admitted (PageDb.tables s) (Jobs.jobs (PageDb.queue_view s)) (Jobs.jobs (PageDb.queue_view s))) by (intros ? ? ?; eauto).
  unfold Jobs.CreateTranscriptionJobManual in H.
  destruct (Jobs.image_item (PageDb.queue_view s) i) as [it|] eqn:Hit; cbn -[PageDb.queue_view] in H; [|by injection H as <- <-].
  destruct (Jobs.pages _ !! _) as [rev|]; cbn -[PageDb.queue_view] in H; [|by injection H as <- <-].
  destruct ctx as [cid|]; cbn -[PageDb.queue_view] in H; [|by injection H as <- <-].
  destruct (Jobs.contexts _ !! cid) as [c|] eqn:Hc; cbn -[PageDb.queue_view] in H; [|by injection H as <- <-].
  destruct (match Jobs.c_workspace_id c with Some w => _ | None => _ end) as [[[[ws' rev'] cid'] c']|] eqn:Hf; [|by injection H as <- <-].
  assert (Hw : ws' = Jobs.it_workspace_id it /\ cid' = cid /\ c' = c /\ (Jobs.c_workspace_id c = None \/ Jobs.c_workspace_id c = Some ws')).
  { destruct (Jobs.c_workspace_id c) as [w|]; [|injection Hf as <- <- <- <-; by auto]. destruct (Z.eqb_spec w (Jobs.it_workspace_id it)); [|done].
    injection Hf as <- <- <- <-. subst. auto. } destruct Hw as (-> & -> & -> & Hcw).
  destruct (Jobs.active_job_of _ _) as [[]|]; [by injection H as <- <-|]. destruct (_ && _) eqn:Hb; [|done].
  injection H as <- <-. intros j r' Hr'. cbn -[PageDb.queue_view] in Hr'. apply lookup_insert_Some in Hr' as [[<- <-]|[_ Hr']]; [|eauto].
  right. apply andb_true_iff in Hb as [_ Hb]. apply bool_decide_eq_true in Hb. split; [exact Hb|].
  unfold ok_job. cbn -[PageDb.queue_view PageDb.tables]. rewrite (seen_image s i it Hrel Hit). cbn in Hc |- *. rewrite lookup_fmap in Hc.
  destruct (contexts (PageDb.base s) !! cid) as [c0|]; [|done]. injection Hc as <-. cbn in Hcw |- *. unfold c_scope_id in *.
  destruct Hcw as [-> | ->]; cbn; [done|]. by rewrite Z.eqb_refl, orb_true_r.
Qed.
Lemma create_work i ctx snap : works ws img (PageDb.on_jobs e (PageStore.CreateTranscriptionJob e i ctx snap)).
Proof.
  intros s a s'. unfold PageDb.on_jobs. destruct (PageStore.CreateTranscriptionJob _ _ _ _ _) as [[b d]|] eqn:E; [|done]. intros [= _ <-].
  unfold PageStore.CreateTranscriptionJob in E. tx_bind E as id d1 E1. destruct (id =? 0); [done|]. injection E as _ <-.
  apply queue_work. intros Hrel Hq. split; [|by eapply insert_admitted]. eapply qstep_inv; [exact Hq|by eapply insert_refines].
Qed.
End queue.

(** ** The content of an image *)

Lemma outside_insert {K A} `{Countable K} (p : K * A -> bool) (m : gmap K A) k v :
  p (k, v) = true -> (forall y, m !! k = Some y -> p (k, y) = true) ->
  filter (fun kv => p kv = false) (<[k := v]> m) = filter (fun kv => p kv = false) m.
Proof.
  intros Hp Hy. apply map_filter_insert_not'; cbn; [by rewrite Hp|]. intros y Hm. by rewrite (Hy y Hm).
Qed.
Lemma outside_alike {K A} `{Countable K} (p : K * A -> bool) (m m' : gmap K A) :
  (forall k v, p (k, v) = false -> m' !! k = Some v <-> m !! k = Some v) ->
  filter (fun kv => p kv = false) m' = filter (fun kv => p kv = false) m.
Proof. intros Hm. apply map_eq. intros k. apply option_eq. intros v. rewrite !map_lookup_filter_Some. cbn. naive_solver. Qed.

Section content.
Context (ws img : Z).
Abbreviation tabs := PageDb.tables.

Lemma set_runs_content x y s : PageStore.set_runs x y s = PageDb.set_con (PageDb.with_runs (PageDb.con s) x y) s.
Proof. done. Qed.

Lemma new_run_work s sid row cur : PageDb.runs (PageDb.con s) !! sid = None -> PageDb.r_item_image_id row = img ->
  (related (tabs s) -> ok_run (tabs s) (PageDb.run_size row) = true) ->
  cur = PageDb.current (PageDb.con s) \/ cur = <[img := sid]> (PageDb.current (PageDb.con s)) ->
  work ws img s (PageStore.set_runs (<[sid := row]> (PageDb.runs (PageDb.con s))) cur s).
Proof.
  intros Hnone Hrow Hok Hcur. apply content_work. intros d [Hn Himg _].
  pose proof (n_related _ _ _ _ Hn) as Hrel. pose proof (content_same _ Hrel (n_truth _ _ _ _ Hn)) as [].
  assert (Hfree : forall n, ocr_runs (kids (tabs s)) !! sid = Some n -> False).
  { intros n. cbn. by rewrite lookup_fmap, Hnone. }
  split.
  - split; try done. cbn. rewrite fmap_insert. apply (outside_insert (fun kv => n_item_image_id kv.2 =? img)); cbn.
    + by rewrite Hrow, Z.eqb_refl.
    + intros y Hy. by destruct (Hfree y).
  - split; try done; cbn [PageDb.lengths PageDb.with_runs PageDb.runs PageDb.current ocr_runs current_runs]; rewrite ?fmap_insert.
    + intros sid' n Hn'. exists n. destruct (decide (sid' = sid)) as [->|]; [by destruct (Hfree n)|]. by rewrite lookup_insert_ne.
    + intros sid' n [[<- <-]|[_ Hn']]%lookup_insert_Some; [by apply Hok|]. by eapply co_runs0.
    + assert (Hold : forall i sid', PageDb.current (PageDb.con s) !! i = Some sid' ->
        current_runs (kids (tabs s)) !! i = Some sid' \/ any_image (tabs s) i = true /\ exists n,
          <[sid := PageDb.run_size row]> (PageDb.run_size <$> PageDb.runs (PageDb.con s)) !! sid' = Some n /\ n_item_image_id n = i) by (intros i sid' Hi; by left).
      intros i sid' Hi. destruct Hcur as [-> | ->]; [by apply Hold|]. apply lookup_insert_Some in Hi as [[<- <-]|[_ Hi]]; [|by apply Hold].
      right. split; [apply bool_decide_eq_true; apply image_parent_true in Himg as (g & Hg & _); by exists g|].
      exists (PageDb.run_size row). by rewrite lookup_insert_eq.
Qed.

(** The image's current run, with another metric. *)
Lemma changed_run_work s sid r row : PageDb.runs (PageDb.con s) !! sid = Some r -> PageDb.current (PageDb.con s) !! img = Some sid ->
  PageDb.r_workspace_id row = PageDb.r_workspace_id r -> PageDb.r_item_image_id row = PageDb.r_item_image_id r ->
  PageDb.r_context_id row = PageDb.r_context_id r ->
  work ws img s (PageStore.set_runs (<[sid := row]> (PageDb.runs (PageDb.con s))) (PageDb.current (PageDb.con s)) s).
Proof.
  intros Hr Hc Hw Hi Hx. apply content_work. intros d [Hn Himg _].
  pose proof (n_related _ _ _ _ Hn) as Hrel. pose proof (content_same _ Hrel (n_truth _ _ _ _ Hn)) as [].
  assert (Hrun : ocr_runs (kids (tabs s)) !! sid = Some (PageDb.run_size r)) by (cbn; by rewrite lookup_fmap, Hr).
  assert (Him : PageDb.r_item_image_id r = img).
  { pose proof (rel_current _ Hrel img sid Hc) as Hok. unfold ok_current in Hok. rewrite Hrun in Hok. apply andb_true_iff in Hok as [Hok _].
    by apply Z.eqb_eq in Hok. }
  split.
  - split; try done. cbn. rewrite fmap_insert. apply (outside_insert (fun kv => n_item_image_id kv.2 =? img)); cbn.
    + by rewrite Hi, Him, Z.eqb_refl.
    + intros y Hy. rewrite lookup_fmap, Hr in Hy. injection Hy as <-. cbn. by rewrite Him, Z.eqb_refl.
  - split; try done; cbn [PageDb.lengths PageDb.with_runs PageDb.runs PageDb.current ocr_runs current_runs]; rewrite ?fmap_insert.
    + intros sid' n Hn'. destruct (decide (sid' = sid)) as [->|].
      * rewrite lookup_insert_eq. rewrite Hrun in Hn'. injection Hn' as <-. by exists (PageDb.run_size row).
      * exists n. by rewrite lookup_insert_ne.
    + intros sid' n [[<- <-]|[_ Hn']]%lookup_insert_Some; [|by eapply co_runs0].
      specialize (co_runs0 sid _ Hrun). unfold ok_run in *. cbn in co_runs0 |- *. by rewrite Hw, Hi, Hx.
    + by left.
Qed.

Lemma run_context_ok s w ctx scope : PageStore.run_context s w ctx = Some scope -> context_or_null (tabs s) w ctx = true.
Proof.
  unfold PageStore.run_context, context_or_null. destruct ctx as [c|]; [|done]. cbn.
  destruct (contexts (PageDb.base s) !! c) as [row|]; [|done]. cbn. unfold c_scope_id. destruct (c_workspace_id row) as [w'|]; [|done].
  destruct (w' =? w) eqn:E; [|done]. intros _. cbn. by rewrite E, orb_true_r.
Qed.

Lemma insert_current_work run : PageStore.O_ItemImageID run = Some img -> works ws img (PageStore.insertCurrentOCRRun run).
Proof.
  intros Hrun s [] s'. unfold PageStore.insertCurrentOCRRun. destruct (_ || _); [done|]. rewrite Hrun.
  destruct (_ || _); [done|]. set (sid := TrimSpace (PageStore.O_SessionID run)). set (ctx := PageStore.uint64ToNullInt64 (PageStore.O_ContextID run)).
  intros H. tx_bind H as [] s1 H1. unfold PageStore.InsertOCRRun in H1. destruct (MaxInt64 <? img); [done|].
  destruct (images (PageDb.base s) !! img) as [g|] eqn:Hg; [|done].
  destruct (PageStore.run_context s (g_workspace_id g) ctx) as [scope|] eqn:Hscope; [|done].
  destruct (PageDb.runs (PageDb.con s) !! sid) eqn:Hsid; [done|]. injection H1 as <-.
  injection H as <-. set (row := PageDb.Build_run_row _ _ _ _ _ _ _ _ _ _ _ _ _).
  assert (Hw : forall cur, cur = PageDb.current (PageDb.con s) \/ cur = <[img := sid]> (PageDb.current (PageDb.con s)) ->
    work ws img s (PageStore.set_runs (<[sid := row]> (PageDb.runs (PageDb.con s))) cur s)).
  { intros cur Hcur. apply new_run_work; [done|done| |done]. intros Hrel. unfold ok_run. cbn.
    rewrite (run_context_ok s _ ctx scope Hscope), andb_true_r. apply image_parent_true. by exists g. }
  case_bool_decide; apply Hw; [by right|by left].
Qed.

Lemma write_metric_work rev m : works ws img (PageStore.write_metric img rev m).
Proof.
  intros s [] s' H. unfold PageStore.write_metric in H. tx_bind H as n s1 H1. apply tx_lift_Ok in H1 as [_ ->].
  assert (Hm : forall s sid r rev' n' seg, PageStore.current_run s img = Some (sid, r) ->
    work ws img s (PageStore.set_runs (<[sid := PageStore.with_metric rev' n' seg r]> (PageDb.runs (PageDb.con s))) (PageDb.current (PageDb.con s)) s)).
  { intros s0 sid r rev' n' seg Hc. unfold PageStore.current_run in Hc. destruct (PageDb.current (PageDb.con s0) !! img) as [sid'|] eqn:Hcur; [|done].
    cbn in Hc. destruct (PageDb.runs (PageDb.con s0) !! sid') as [r'|] eqn:Hr; [|done]. injection Hc as -> ->. by eapply changed_run_work. }
  tx_bind H as [] s1 H1. transitivity s1.
  - unfold PageStore.SaveCanonicalOCRCorrectionMetric in H1. destruct (MaxInt64 <? rev); [done|].
    destruct (PageStore.current_run s img) as [[sid r]|] eqn:Hc; [|done]. destruct (_ && _); [|done]. injection H1 as <-. by apply Hm.
  - injection H as <-. destruct (PageStore.current_run s1 img) as [[sid r]|] eqn:Hc; [|done]. destruct (_ && _); [by apply Hm|done].
Qed.

(** The page and its index. *)
Lemma page_work s m row entries : PageSteps.indexed ws img entries (PageDb.index (PageDb.con s)) m ->
  user_or_null (tabs s) (PageDb.p_updated_by row) = true ->
  work ws img s (PageSteps.set_index m (PageStore.set_pages (<[(ws, img) := row]> (PageDb.pages (PageDb.con s))) s)).
Proof.
  intros [_ Hothers _] Huser.
  change (work ws img s (PageDb.set_con (PageDb.with_pages (PageDb.con s) (<[(ws, img) := row]> (PageDb.pages (PageDb.con s))) m) s)).
  apply content_work. intros d [Hn Himg _]. pose proof (n_related _ _ _ _ Hn) as Hrel.
  pose proof (content_same _ Hrel (n_truth _ _ _ _ Hn)) as [].
  assert (Hpage : forall k, is_Some (pages (kids (tabs s)) !! k) -> is_Some (<[(ws, img) := PageDb.page_size row]> (pages (kids (tabs s))) !! k)).
  { intros k Hk. apply lookup_insert_is_Some. destruct (decide ((ws, img) = k)); auto. }
  split.
  - split; try done; cbn [PageDb.lengths PageDb.with_pages PageDb.pages PageDb.index pages index].
    + rewrite fmap_insert. apply (outside_insert (fun kv => (kv.1.1 =? ws) && (kv.1.2 =? img))); [|intros y _]; cbn; by rewrite !Z.eqb_refl.
    + apply (outside_alike (fun kv => (kv.1.1.1 =? ws) && (kv.1.1.2 =? img))). intros k v Hk. cbn. rewrite !lookup_fmap.
      rewrite Hothers; [done|]. destruct k as [[a b] c]. cbn in *. intros [= -> ->]. by rewrite !Z.eqb_refl in Hk.
  - split; try done; cbn [PageDb.lengths PageDb.with_pages PageDb.pages PageDb.index PageDb.published pages index published]; rewrite ?fmap_insert.
    + intros k p [[<- <-]|[_ Hp]]%lookup_insert_Some; [|by apply (co_pages0 k)]. split; [exact Himg|exact Huser].
    + exact Hpage.
    + intros k x Hx. destruct (decide (k.1 = (ws, img))) as [E|Hk].
      * rewrite E. cbn. split; [exact Himg|]. rewrite lookup_insert_eq. by eexists.
      * rewrite lookup_fmap, Hothers in Hx by done. destruct (co_index0 k x) as [Hi Hp]; [cbn; by rewrite lookup_fmap|]. split; [exact Hi|by apply Hpage].
    + intros k p Hp. destruct (co_published0 k p Hp) as (Hi & Hpg & Hu). split_and!; [exact Hi|by apply Hpage|exact Hu].
Qed.

(** The public snapshot of a page that is there. *)
Lemma published_work s row : is_Some (PageDb.pages (PageDb.con s) !! (ws, img)) -> user_or_null (tabs s) (PageDb.u_by row) = true ->
  work ws img s (PageDb.set_con (PageDb.with_published (PageDb.con s) (<[(ws, img) := row]> (PageDb.published (PageDb.con s)))) s).
Proof.
  intros Hpage Huser. apply content_work. intros d [Hn Himg _]. pose proof (n_related _ _ _ _ Hn) as Hrel.
  pose proof (content_same _ Hrel (n_truth _ _ _ _ Hn)) as [].
  split; split; try done; cbn [PageDb.lengths PageDb.with_published PageDb.published published]; rewrite fmap_insert.
  - apply (outside_insert (fun kv => (kv.1.1 =? ws) && (kv.1.2 =? img))); [|intros y _]; cbn; by rewrite !Z.eqb_refl.
  - intros k p [[<- <-]|[_ Hp]]%lookup_insert_Some; [|by apply (co_published0 k)]. split_and!; [exact Himg| |exact Huser].
    cbn. rewrite lookup_fmap. destruct Hpage as [x ->]. by eexists.
Qed.

(** A mark or an unmark of ground truth. *)
Lemma truth_work s m : (forall k, k.1 <> (ws, img) -> m !! k = PageDb.ground_truth (PageDb.con s) !! k) ->
  work ws img s (PageDb.set_con (PageDb.with_ground_truth (PageDb.con s) m) s).
Proof.
  intros Hothers. apply content_work. intros d [Hn Himg _]. pose proof (n_related _ _ _ _ Hn) as Hrel.
  pose proof (content_same _ Hrel (n_truth _ _ _ _ Hn)) as [].
  split; split; try done; cbn [PageDb.lengths PageDb.with_ground_truth PageDb.ground_truth ground_truth].
  - apply (outside_alike (fun kv => (kv.1.1.1 =? ws) && (kv.1.1.2 =? img))). intros k v Hk. cbn. rewrite !lookup_fmap.
    rewrite Hothers; [done|]. destruct k as [[a b] c]. cbn in *. intros [= -> ->]. by rewrite !Z.eqb_refl in Hk.
  - intros k x Hx. destruct (decide (k.1 = (ws, img))) as [->|Hk]; [exact Himg|]. rewrite lookup_fmap, Hothers in Hx by done.
    apply (co_truth0 k x). cbn. by rewrite lookup_fmap.
Qed.

(** The mirror and the tombstone of the image. *)
Lemma mirrors_work {A} (m : Mirrors.mtx A) :
  (forall v a v', m v = Ok (a, v') -> (forall i, i ∈ dom (Mirrors.mirrors v') -> i = img \/ i ∈ dom (Mirrors.mirrors v)) /\
     (forall i, i ∈ dom (Mirrors.tombstones v') -> i = img \/ i ∈ dom (Mirrors.tombstones v))) ->
  works ws img (PageDb.on_mirrors m).
Proof.
  intros Hm s a s'. unfold PageDb.on_mirrors. destruct (m _) as [[b v']|] eqn:E; [|done]. intros [= _ <-].
  apply Hm in E as [H1 H2]. cbn [Mirrors.mirrors Mirrors.tombstones] in H1, H2. apply content_work. intros d [Hn Himg _]. pose proof (n_related _ _ _ _ Hn) as Hrel.
  pose proof (content_same _ Hrel (n_truth _ _ _ _ Hn)) as [].
  assert (Hany : any_image (tabs s) img = true) by (apply bool_decide_eq_true; apply image_parent_true in Himg as (g & Hg & _); by exists g).
  split; split; try done; cbn [PageDb.lengths PageDb.with_mirrors PageDb.mirrors PageDb.tombstones mirrors tombstones].
  - intros i [->|Hi]%H1; [done|by apply co_mirrors0].
  - intros i [->|Hi]%H2; [done|by apply co_tombstones0].
Qed.
Lemma upsert_mirror_work rev payload now : works ws img (PageDb.on_mirrors (Mirrors.UpsertAnnotationMirrorOutbox img rev payload now)).
Proof.
  apply mirrors_work. intros v a v' [= _ <-]. split; intros i; cbn; [|auto]. rewrite dom_insert, elem_of_union, elem_of_singleton. done.
Qed.
Lemma tombstones_work {SC : Presentation.Schema} {AS : Resources.AnnotationSchema} {UP : MediaFragment.UrlParser} previous next :
  works ws img (PageDb.on_mirrors (Mirrors.replaceAnnotationMirrorTombstones img previous next)).
Proof.
  apply mirrors_work. intros v a v' H. unfold Mirrors.replaceAnnotationMirrorTombstones in H. destruct (img =? 0); [done|].
  tx_bind H as row v1 H1. injection H1 as _ <-. tx_bind H as stale v1 H1. apply tx_lift_Ok in H1 as [_ ->].
  tx_bind H as p1 v1 H1. apply tx_lift_Ok in H1 as [_ ->]. tx_bind H as p2 v1 H1. apply tx_lift_Ok in H1 as [_ ->].
  revert H. unfold Mirrors.store_tombstones. repeat case_match; try done; intros [= _ <-]; split; intros i; cbn; auto;
    rewrite ?dom_insert, ?dom_delete, ?elem_of_union, ?elem_of_difference, ?elem_of_singleton; naive_solver.
Qed.
End content.

(** ** The external requests *)

Section requests.
Abbreviation tabs := PageDb.tables.
Context (s : PageDb.pdb).

Lemma requests_related m : related (tabs s) -> (forall i r, m !! i = Some r -> ok_request (tabs s) (PageDb.request_links r) = true) ->
  related (tabs (PageDb.set_con (PageDb.with_requests (PageDb.con s) m) s)).
Proof.
  intros [] Hm. split; try done. intros i r. cbn. rewrite lookup_fmap_Some. intros (r' & <- & Hr). exact (Hm i r' Hr).
Qed.
Lemma requests_near ex ws d m : (forall i r, m !! i = Some r -> ok_request (tabs s) (PageDb.request_links r) = true) ->
  near ex ws d (tabs s) -> near ex ws d (tabs (PageDb.set_con (PageDb.with_requests (PageDb.con s) m) s)).
Proof.
  intros Hm Hn. pose proof (requests_related m (n_related _ _ _ _ Hn) Hm) as Hrel'. pose proof Hn as []. by split.
Qed.
Lemma requests_work ws img m :
  (related (tabs s) -> forall i r, m !! i = Some r -> ok_request (tabs s) (PageDb.request_links r) = true) ->
  work ws img s (PageDb.set_con (PageDb.with_requests (PageDb.con s) m) s).
Proof.
  intros Hm. split; [|intros _; by split|done..]. intros d [Hn Himg Ht]. split; [|exact Himg|exact Ht].
  change (image_size ws img (tabs (PageDb.set_con (PageDb.with_requests (PageDb.con s) m) s))) with (image_size ws img (tabs s)).
  apply requests_near; [by apply Hm, (n_related _ _ _ _ Hn)|exact Hn].
Qed.

Lemma same_item i g it : (exists h, images (PageDb.base s) !! i = Some h /\ (g_workspace_id h, g_item_id h) = (g, it)) ->
  forall item, Requests.opt_all item (fun j => bool_decide (it = j)) = true -> image_not_of (tabs s) i item = false.
Proof.
  intros (h & Hh & [= _ <-]) [j|]; cbn; [|done]. rewrite Hh. intros ->%bool_decide_eq_true. by rewrite bool_decide_true.
Qed.

(** The answer to a request names rows that belong together. *)
Lemma matched_request ws item image job session r : Requests.resources_match (Requests.res (PageDb.request_view s)) ws item image job session = true ->
  r_workspace_id r = ws -> r_item_id r = item -> r_item_image_id r = image -> r_transcription_job_id r = job -> r_session_id r = session ->
  workspace_parent (tabs s) ws = true -> ok_request (tabs s) r = true.
Proof.
  destruct r as [? ? ? ? ?]. cbn. intros Hm -> -> -> -> -> Hws. unfold Requests.resources_match in Hm. cbn in Hm.
  apply andb_true_iff in Hm as [Hm Hjs]. apply andb_true_iff in Hm as [Hm His]. apply andb_true_iff in Hm as [Hm Hij].
  apply andb_true_iff in Hm as [Hm Hs]. apply andb_true_iff in Hm as [Hm Hj]. apply andb_true_iff in Hm as [Hi Hg].
  unfold ok_request. cbn -[request_job request_run]. rewrite Hws. cbn -[request_job request_run].
  assert (Himg : forall g w it, (fun h => (g_workspace_id h, g_item_id h)) <$> images (PageDb.base s) !! g = Some (w, it) ->
    exists h, images (PageDb.base s) !! g = Some h /\ (g_workspace_id h, g_item_id h) = (w, it)) by (intros g w it; rewrite fmap_Some; naive_solver).
  assert (Hjob : forall j, job = Some j -> exists x, q_jobs (queue (PageDb.base s)) !! j = Some x /\ Jobs.k_workspace_id (Jobs.j_key x) = ws /\
      (forall g, image = Some g -> Jobs.k_item_image_id (Jobs.j_key x) = g) /\ image_not_of (tabs s) (Jobs.k_item_image_id (Jobs.j_key x)) item = false).
  { intros j ->. cbn in Hj. rewrite lookup_fmap in Hj. destruct (q_jobs (queue (PageDb.base s)) !! j) as [x|] eqn:Ex; [|done]. cbn in Hj.
    apply andb_true_iff in Hj as [Hw Hx]. exists x. split_and!; [done|by apply Z.eqb_eq| |].
    - intros g ->. by apply Z.eqb_eq.
    - destruct item as [i|]; [|done]. cbn in Hij. rewrite lookup_fmap, Ex in Hij. cbn in Hij. apply andb_true_iff in Hij as [_ Hij]. rewrite lookup_fmap in Hij.
      destruct (_ <$> images _ !! _) as [[w it]|] eqn:Eg; [|done]. apply andb_true_iff in Hij as [_ Hij]. by eapply same_item; [apply Himg|]. }
  assert (Hrun : forall sid, session = Some sid -> exists x, PageDb.runs (PageDb.con s) !! sid = Some x /\ PageDb.r_workspace_id x = ws /\
      (forall g, image = Some g -> PageDb.r_item_image_id x = g) /\ image_not_of (tabs s) (PageDb.r_item_image_id x) item = false).
  { intros sid ->. cbn in Hs. rewrite lookup_fmap in Hs. destruct (PageDb.runs (PageDb.con s) !! sid) as [x|] eqn:Ex; [|done]. cbn in Hs.
    apply andb_true_iff in Hs as [Hw Hx]. exists x. split_and!; [done|by apply Z.eqb_eq| |].
    - intros g ->. by apply Z.eqb_eq.
    - destruct item as [i|]; [|done]. cbn in His. rewrite lookup_fmap, Ex in His. cbn in His. apply andb_true_iff in His as [_ His]. rewrite lookup_fmap in His.
      destruct (_ <$> images _ !! _) as [[w it]|] eqn:Eg; [|done]. apply andb_true_iff in His as [_ His]. by eapply same_item; [apply Himg|]. }
  assert (Hfound : forall j, job = Some j -> exists x, q_jobs (queue (PageDb.base s)) !! j = Some x /\
      request_job (tabs s) {| r_workspace_id := ws; r_item_id := item; r_item_image_id := image; r_transcription_job_id := job; r_session_id := session |} = Some x /\
      image_not_of (tabs s) (Jobs.k_item_image_id (Jobs.j_key x)) item = false).
  { intros j Ej. destruct (Hjob j Ej) as (x & Hx & Hw & Hgx & Hn). exists x. split; [done|]. split; [|done]. unfold request_job. subst job. cbn. rewrite Hx. cbn.
    rewrite Hw, Z.eqb_refl. cbn. destruct image as [g|]; cbn; [rewrite (Hgx g eq_refl)|]; by rewrite Z.eqb_refl. }
  rewrite !andb_true_iff. split_and!.
  - destruct item as [i|]; [|done]. cbn in Hi. apply bool_decide_eq_true in Hi. rewrite lookup_fmap in Hi. unfold item_parent. cbn.
    destruct (items (PageDb.base s) !! i); [|done]. injection Hi as <-. cbn. apply Z.eqb_refl.
  - destruct image as [g|]; [|done]. cbn in Hg. rewrite lookup_fmap in Hg. destruct (_ <$> images _ !! g) as [[w it]|] eqn:Eg; [|done].
    apply andb_true_iff in Hg as [Hw Hit]. apply Z.eqb_eq in Hw. subst w. destruct (Himg _ _ _ Eg) as (h & Hh & E). injection E as Ew Et.
    assert (Hp : image_parent (tabs s) ws g = true) by (apply image_parent_true; eauto). rewrite Hp. cbn.
    rewrite (same_item g ws it) by (eauto || by rewrite Ew, Et). done.
  - destruct job as [j|]; [|done]. destruct (Hfound j eq_refl) as (x & _ & -> & Hn). cbn. by rewrite Hn.
  - destruct session as [sid|]; [|done]. destruct (Hrun sid eq_refl) as (x & Hx & Hw & Hgx & Hn).
    assert (request_run (tabs s) {| r_workspace_id := ws; r_item_id := item; r_item_image_id := image; r_transcription_job_id := job; r_session_id := Some sid |}
      = Some (PageDb.run_size x)) as ->.
    { unfold request_run. cbn. rewrite lookup_fmap, Hx. cbn. rewrite Hw, Z.eqb_refl. cbn.
      destruct image as [g|]; cbn; [rewrite (Hgx g eq_refl)|]; by rewrite Z.eqb_refl. }
    cbn -[request_job]. rewrite Hn. cbn -[request_job]. destruct job as [j|]; [|done]. destruct (Hfound j eq_refl) as (y & Hy & -> & _).
    cbn in Hjs. rewrite !lookup_fmap, Hy, Hx in Hjs. cbn in Hjs. by apply andb_true_iff in Hjs as [_ Hjs].
Qed.

Lemma complete_links item image job session w source key owner now a s' :
  PageDb.on_requests (Requests.CompleteExternalRequestManual item image job session w source key owner now) s = Ok (a, s') ->
  exists m, s' = PageDb.set_con (PageDb.with_requests (PageDb.con s) m) s /\
    (related (tabs s) -> forall i r, m !! i = Some r -> ok_request (tabs s) (PageDb.request_links r) = true).
Proof.
  unfold PageDb.on_requests, Requests.CompleteExternalRequestManual, Requests.update_request.
  destruct (Requests.find_request _ w source key) as [[id r]|] eqn:Ef; [|done].
  apply RequestTheorems.find_request_Some in Ef as [Hr Hk]. destruct (_ && _) eqn:Ew; [|done]. intros [= _ <-]. apply andb_true_iff in Ew as [_ Hm].
  eexists. split; [reflexivity|]. intros Hrel i r' Hr'. cbn [Requests.set_requests Requests.requests] in Hr'.
  assert (Hold : forall i r, PageDb.requests (PageDb.con s) !! i = Some r -> ok_request (tabs s) (PageDb.request_links r) = true).
  { intros j x Hx. apply (rel_requests _ Hrel j). cbn. by rewrite lookup_fmap, Hx. }
  apply lookup_insert_Some in Hr' as [[<- <-]|[_ Hr']]; [|by eapply Hold].
  assert (Hws : Requests.q_workspace_id r = w) by (unfold Requests.has_key in Hk; by split_bools).
  eapply matched_request; try done. specialize (Hold id r Hr). unfold ok_request in Hold. repeat apply andb_true_iff in Hold as [Hold _]. by rewrite <- Hws.
Qed.
Lemma complete_work ws img item image job session w source key owner now a s' :
  PageDb.on_requests (Requests.CompleteExternalRequestManual item image job session w source key owner now) s = Ok (a, s') -> work ws img s s'.
Proof. intros (m & -> & Hm)%complete_links. by apply requests_work. Qed.
End requests.

(** ** Reads, and the booking that ends a transaction *)

Record reads (s s' : PageDb.pdb) : Prop := { rd_tables : PageDb.tables s' = PageDb.tables s; rd_con : PageDb.con s' = PageDb.con s }.
#[export] Instance reads_refl : Reflexive reads.
Proof. by intros s. Qed.
#[export] Instance reads_trans : Transitive reads.
Proof. intros s t u [] []. split; congruence. Qed.
Abbreviation reading := (PageSteps.keeps reads).

Lemma reads_work ws img s s' : reads s s' -> work ws img s s'.
Proof.
  intros [Ht Hc]. split.
  - intros d [Hn Himg Hws]. split; [by rewrite Ht|by rewrite Ht|].
    change (acc (PageDb.base s')) with (acc (PageDb.tables s')). rewrite Ht. exact Hws.
  - intros _. rewrite Ht. apply agree_refl.
  - change (items (PageDb.tables s') = items (PageDb.tables s)). by rewrite Ht.
  - change (images (PageDb.tables s') = images (PageDb.tables s)). by rewrite Ht.
  - change (users (PageDb.tables s') = users (PageDb.tables s)). by rewrite Ht.
  - change (acc (PageDb.base s')) with (acc (PageDb.tables s')). by rewrite Ht.
Qed.

(** What a statement of the item store leaves. *)
Definition with_base (t : idb) (s : PageDb.pdb) : PageDb.pdb := {| PageDb.base := t; PageDb.con := PageDb.con s; PageDb.events := PageDb.events s |}.
Lemma on_tables_Ok {A} (m : itx A) s a s' : PageDb.on_tables m s = Ok (a, s') <->
  exists t, m (PageDb.tables s) = Ok (a, t) /\ s' = with_base t s.
Proof. unfold PageDb.on_tables. destruct (m (PageDb.tables s)) as [[b t]|]; [|naive_solver]. split; [intros [= <- <-]; eauto|]. by intros (x & [= <- <-] & ->). Qed.
(** The item store leaves the content alone. *)
Lemma with_base_tables t s : kids t = kids (PageDb.tables s) -> PageDb.tables (with_base t s) = t.
Proof. intros H. unfold PageDb.tables, with_base. cbn. rewrite H. destruct t. cbn in *. by subst. Qed.
Lemma read_tables {A} (m : itx A) : (forall t a t', m t = Ok (a, t') -> t' = t) -> reading (PageDb.on_tables m).
Proof. intros Hm s a s' (t & ->%Hm & ->)%on_tables_Ok. split; [by apply with_base_tables|done]. Qed.

Lemma member_reads ws user : reading (PageStore.LockWorkspaceMemberRole ws user).
Proof. apply read_tables. by intros t a t' [_ ->]%one_of_Ok. Qed.
Lemma measure_reads ws img : reading (PageStore.itemImageDurableDatabaseBytes ws img).
Proof. apply read_tables. by intros t a t' [_ ->]%measure_Ok. Qed.
Lemma quota_reads {A} (m : qtx A) : (forall q a q', m q = Ok (a, q') -> q' = q) -> reading (PageDb.on_quota m).
Proof. intros Hm. apply read_tables. by intros t a t' [_ ->]%read_Ok. Qed.
Lemma guard_reads ws s u s' : PageDb.on_quota (lockStorageQuotaGuards ws) s = Ok (u, s') ->
  ws <> 0 /\ is_Some (a_usages (acc (PageDb.base s)) !! ws) /\ reads s s'.
Proof.
  intros H. pose proof H as (t & Ht & _)%on_tables_Ok. apply guard_Ok in Ht as (Hws & Hu & _). split_and!; [exact Hws|exact Hu|].
  eapply quota_reads; [|exact H]. by intros q a q' (_ & _ & ->)%guards_Ok.
Qed.
Lemma measured ws img s n s' : PageStore.itemImageDurableDatabaseBytes ws img s = Ok (n, s') ->
  n = image_size ws img (PageDb.tables s) /\ n <= MaxInt64 /\ reads s s'.
Proof.
  intros H. split; [|split; [|by eapply measure_reads]]; apply on_tables_Ok in H as (t & H & _); [by apply measure_Ok in H as [-> _]|].
  unfold itemImageDurableDatabaseBytes, measure in H. destruct (Z.leb_spec (GetItemImageDurableDatabaseBytes ws img (PageDb.tables s)) MaxInt64); [|done].
  by injection H as <- _.
Qed.

(** The audited bytes are an unsigned column; every other payload is a length. *)
Definition unsigned_audits (s : PageDb.pdb) : Prop := map_Forall (fun _ a => 0 <= u_database_bytes a) (provider_audits (kids (PageDb.base s))).
Lemma wsum_nonneg {K A} `{Countable K} (f : K -> A -> Z) (m : gmap K A) : (forall k v, m !! k = Some v -> 0 <= f k v) -> 0 <= wsum f m.
Proof.
  intros Hf. rewrite wsum_list. assert (Hl : Forall (fun x => 0 <= x) ((fun kv => f kv.1 kv.2) <$> map_to_list m)).
  { apply Forall_fmap, Forall_forall. intros [k v] Hk. apply elem_of_map_to_list in Hk. by apply Hf. }
  induction Hl as [|x l Hx _ IH]; [done|]. rewrite total_cons. lia.
Qed.
Lemma image_size_nonneg ws img s : unsigned_audits s -> 0 <= image_size ws img (PageDb.tables s).
Proof.
  intros Ha. unfold image_size, GetItemImageDurableDatabaseBytes. rewrite !summed_wsum.
  assert (Hl : forall x, 0 <= len x) by (induction x; cbn [len]; lia).
  repeat apply Z.add_nonneg_nonneg; apply wsum_nonneg; intros k v Hv; cbn in Hv; case_match; try lia.
  all: try (apply lookup_fmap_Some in Hv as (x & <- & _)).
  - cbn. unfold PageDb.text_len. pose proof (Hl (PageDb.r_original_hocr x)). pose proof (Hl (PageDb.r_original_text x)).
    pose proof (Hl (default ""%string (PageDb.r_original_page x))). pose proof (Hl (default ""%string (PageDb.r_segmentation_correction x))). lia.
  - apply Hl.
  - unfold id, PageDb.ground_size. pose proof (Hl (PageDb.t_payload x)). pose proof (Hl (PageDb.t_original_page x)). pose proof (Hl (PageDb.t_transcript x)). lia.
  - apply Hl.
  - apply Hl.
  - by eapply Ha.
Qed.

Lemma account_settles ws img b limits s s' : pending ws img (amount b 0 0) s -> unsigned_audits s -> 0 <= b <= MaxInt64 ->
  PageStore.account ws img b limits s = Ok (tt, s') -> sound (PageDb.tables s').
Proof.
  intros Hp Ha Hb H. unfold PageStore.account in H. tx_bind H as n s1 H1. apply measured in H1 as (-> & Hmax & Hr).
  pose proof (image_size_nonneg ws img s Ha) as Hpos. apply (wk_pending _ _ _ _ (reads_work ws img _ _ Hr)) in Hp as [Hn _ [Hws Hu]].
  rewrite (rd_tables _ _ Hr) in Hn. set (n := image_size ws img (PageDb.tables s)) in *. change (acc (PageDb.base s1)) with (acc (PageDb.tables s1)) in Hu.
  rewrite (rd_tables _ _ Hr) in Hu. apply on_tables_Ok in H as (t & Ht & ->). rewrite (rd_tables _ _ Hr) in Ht.
  assert (Hk : kids t = kids (PageDb.tables s1)) by (rewrite (rd_tables _ _ Hr); by apply quota_Ok in Ht as (q & _ & ->)).
  rewrite (with_base_tables t s1 Hk). apply quota_Ok in Ht as (q & Ht & ->). unfold applyStorageQuotaUsedDeltaWithLimits in Ht. tx_bind Ht as [] q1 H1.
  assert (q1 = qview (PageDb.tables s)) as ->.
  { destruct (n >? b); [|by injection H1]. tx_bind H1 as u q2 H2. apply one_row_Ok in H2 as [_ ->].
    tx_bind H1 as g q2 H2. apply one_row_Ok in H2 as [_ ->]. by apply tx_lift_Ok in H1 as [_ ->]. }
  unfold applyStorageQuotaUsedDelta in Ht. destruct (Z.gtb_spec n b); [|destruct (Z.gtb_spec b n)].
  - eapply (settled ws); [eapply add_near; [exact Hn|exact Hws|exact Hu|apply quota_Ok; eauto]|].
    cbn. rewrite usub_sub by (unfold MaxInt64, MaxUint64 in *; lia). unfold amount, amount_add, no_request. cbn. f_equal; lia.
  - eapply (settled ws); [eapply sub_near; [exact Hn|exact Hws|exact Hu|apply quota_Ok; eauto]|].
    cbn. rewrite usub_sub by (unfold MaxInt64, MaxUint64 in *; lia). unfold amount, amount_add, amount_sub, no_request. cbn. f_equal; lia.
  - injection Ht as <-. rewrite acc_eta. eapply (settled ws); [exact Hn|]. unfold amount, amount_add, no_request. cbn. f_equal; lia.
Qed.
End PageKeeps.
