(* ===== verification/PageBooks.v ===== *)
(** * The canonical annotation pages: saves, publications, runs and marks keep the books

    Every transaction of [PageStore] that commits leaves the tables sound: the usage row of the workspace
    counts the bytes that are stored, and the audit of the relationships is silent. *)

From Stdlib Require Import ZArith Lia Ascii String.
From stdpp Require Import base gmap strings list sorting.
From S2P Require Import Prelude GoStrings Json JobSchema JobStore JobInvariant JobRefine JobAdmission MediaFragment Presentation Quota QuotaStore QuotaOps QuotaInvariant QuotaSteps Requests Resources Mirrors ItemDb ItemOps UploadBatches ItemAudit ItemPurge ItemSound ItemSteps UploadSteps ItemKeeps PageIndex PageDb PageStore PageSteps PageKeeps.

Module PageBooks.
Import GoStr Json JobStore MediaFragment Presentation Resources Quota ItemAudit ItemPurge ItemSound ItemSteps UploadSteps ItemKeeps PageIndex PageDb PageStore PageSteps PageSound PageKeeps.
#[local] Open Scope Z_scope.

Section store.
Context {SC : Schema} {AS : AnnotationSchema} {UP : UrlParser} {UPr : UrlPrinter} {SH : Sha256} {FT : FloatText}.
Context (e : env) (config : store_config) (ws img : Z).

(** ** Steps *)

Lemma work_bind {A B} (m : ptx A) (k : A -> ptx B) : works ws img m -> (forall a, works ws img (k a)) -> works ws img (m ≫= k).
Proof. apply along_bind; apply _. Qed.
Lemma emit_work w id type subject body : works ws img (emit e w id type subject body).
Proof. apply work_bind; [apply serves_work, outbox_serves|intros a; apply serves_work, deliveries_serves]. Qed.
Lemma reading_work {A} (m : ptx A) : reading m -> works ws img m.
Proof. intros Hm s a s' H. apply reads_work. by eapply Hm. Qed.

Lemma cleanup_work now kind key bytes next : works ws img (on_quota (QuotaStore.UpsertResourceCleanup now kind key ws bytes next)).
Proof.
  intros s [] s' (t & Ht & ->)%on_tables_Ok. pose proof Ht as (q & _ & ->)%quota_Ok.
  assert (Hk : ItemDb.kids (ItemDb.set_accounts q (tables s)) = ItemDb.kids (tables s)) by done.
  split; [|intros _; rewrite (with_base_tables _ _ Hk); apply agree_refl|done..|].
  2:{ apply quota_Ok in Ht as (q' & Hq & E). unfold QuotaStore.UpsertResourceCleanup, tx_modify in Hq. injection Hq as <-. by rewrite E. }
  intros d [Hn Himg [Hws Hu]]. pose proof (upsert_near _ _ _ _ _ _ _ _ _ _ Hn Hu Ht) as (Hn' & q' & E & [Husage _]).
  split; [rewrite (with_base_tables _ _ Hk); exact Hn'|rewrite (with_base_tables _ _ Hk); exact Himg|]. split; [exact Hws|].
  rewrite E in *. cbn in Husage |- *. by rewrite Husage.
Qed.

(** ** The locks a transaction starts with *)

Definition known (u : option Z) (s : pdb) : Prop := user_or_null (tables s) u = true.
Lemma known_work u s s' : work ws img s s' -> known u s -> known u s'.
Proof. intros [_ _ _ _ Hu _]. unfold known, user_or_null, user_parent. cbn. by rewrite Hu. Qed.

Lemma member_known s user s' : sound (tables s) -> LockWorkspaceMemberRole ws user s = Ok (tt, s') -> known (Some user) s.
Proof.
  intros Hs H. apply on_tables_Ok in H as (t & H & _). apply one_of_Ok in H as [H ->]. case_bool_decide as Hin; [|done].
  destruct (member_rows _ _ _ (n_related _ _ _ _ Hs) Hin) as [_ Hu]. unfold known, user_or_null, user_parent. by apply bool_decide_eq_true.
Qed.
Lemma owned_parent s g : image_of_workspace s ws img = Some g -> image_parent (tables s) ws img = true.
Proof.
  unfold image_of_workspace. intros H. apply image_parent_true. cbn. destruct (ItemDb.images (base s) !! img) as [h|]; [|done].
  cbn in H. destruct (Z.eqb_spec (ItemDb.g_workspace_id h) ws); [|done]. eauto.
Qed.

(** A sound state, and the bytes of the image in it. *)
Lemma start_pending s : sound (tables s) -> ws <> 0 -> is_Some (ItemDb.a_usages (ItemDb.acc (base s)) !! ws) ->
  image_parent (tables s) ws img = true -> pending ws img (amount (image_size ws img (tables s)) 0 0) s.
Proof.
  intros Hs Hws Hu Himg. split; [|exact Himg|by split]. eapply owes_same; [|by apply unsettled].
  unfold amount, amount_add, no_request. cbn. f_equal; lia.
Qed.

Record opened (b : Z) (s s' : pdb) : Prop := {
  op_work : work ws img s s';
  op_start : sound (tables s) -> exists d, pending ws img d s;
  op_pending : sound (tables s) -> pending ws img (amount b 0 0) s';
  op_bytes : unsigned_audits s -> 0 <= b <= MaxInt64;
}.

Lemma audits_work s s' : (exists d, pending ws img d s) -> work ws img s s' -> unsigned_audits s -> unsigned_audits s'.
Proof. intros Hd [_ Ha _ _ _ _] Hu. unfold unsigned_audits. pose proof (ag_audits _ _ _ _ (Ha Hd)) as E. cbn in E. by rewrite E. Qed.
Lemma sound_reads s s' : reads s s' -> sound (tables s) -> sound (tables s').
Proof. intros [Ht _]. by rewrite Ht. Qed.

(** The locks before the measure only read. *)
Lemma open_Ok s0 s1 s2 b : reads s0 s1 -> itemImageDurableDatabaseBytes ws img s1 = Ok (b, s2) ->
  ws <> 0 -> is_Some (ItemDb.a_usages (ItemDb.acc (base s0)) !! ws) -> image_parent (tables s0) ws img = true -> opened b s0 s2.
Proof.
  intros Hr H Hws Hu Himg. apply measured in H as (-> & Hmax & Hr2). rewrite (rd_tables _ _ Hr) in *.
  assert (Hw : work ws img s0 s2) by (apply reads_work; by etrans).
  split; [exact Hw|intros Hs; eexists; by apply start_pending| |intros Ha; split; [by apply image_size_nonneg|exact Hmax]].
  intros Hs. apply (wk_pending _ _ _ _ Hw). by apply start_pending.
Qed.

Lemma settle s0 s1 s2 b limits : sound (tables s0) -> unsigned_audits s0 -> opened b s0 s1 -> work ws img s1 s2 ->
  forall s', account ws img b limits s2 = Ok (tt, s') -> sound (tables s').
Proof.
  intros Hs Ha [Hw Hd Hp Hb] Hw2 s' H. assert (Hp1 := Hp Hs). eapply account_settles; [by apply (wk_pending _ _ _ _ Hw2)| |by apply Hb|exact H].
  eapply audits_work; [by eexists|exact Hw2|]. eapply audits_work; [by apply Hd|exact Hw|exact Ha].
Qed.
End store.

Section transactions.
Context {SC : Schema} {AS : AnnotationSchema} {UP : UrlParser} {UPr : UrlPrinter} {SH : Sha256} {FT : FloatText}.
Context (e : env) (config : store_config).

(** ** Saving a page *)

Lemma lock_page_Ok ws img page s b s' : WorkspaceID page = ws -> ItemImage page = img -> sound (tables s) ->
  lock_page page s = Ok (b, s') -> opened ws img b s s' /\ known (UpdatedByUserID page) s'.
Proof.
  intros <- <- Hs H. unfold lock_page in H. tx_bind H as u s1 H1. apply guard_reads in H1 as (Hws & Hu & Hr1).
  tx_bind H as [] s2 H2. assert (Hr2 : reads s1 s2).
  { destruct (UpdatedByUserID page); [by eapply member_reads|by injection H2 as <-]. }
  assert (Hk : known (UpdatedByUserID page) s1).
  { destruct (UpdatedByUserID page) as [user|] eqn:E; [|done]. eapply member_known; [|exact H2]. by eapply sound_reads. }
  tx_bind H as dims s3 H3. unfold LockItemImageDimensionsForWorkspaceManual, ptx_of in H3.
  destruct (image_of_workspace s2 _ _) as [g|] eqn:Hg; [|done]. injection H3 as <- <-. apply owned_parent in Hg.
  tx_bind H as x s3 H3. apply tx_lift_Ok in H3 as [_ ->]. assert (Hr : reads s s2) by (by etrans).
  assert (Ho : opened (WorkspaceID page) (ItemImage page) b s s').
  { eapply open_Ok; [exact Hr|exact H|exact Hws|exact Hu|]. by rewrite <- (rd_tables _ _ Hr). }
  split; [exact Ho|]. apply measured in H as (_ & _ & Hr3). unfold known in *. rewrite (rd_tables _ _ Hr3), (rd_tables _ _ Hr2). exact Hk.
Qed.

(** The job that reprocessing locks. *)
Definition locked_job (active : option (Z * Jobs.job_row)) (s : pdb) : Prop :=
  match active with
  | Some (id, r) => ItemDb.q_jobs (ItemDb.queue (base s)) !! id = Some r /\ Jobs.is_active (Jobs.j_status r) = true
  | None => True
  end.
Lemma locked_same active s s' : same_queue s s' -> locked_job active s -> locked_job active s'.
Proof. unfold same_queue, locked_job. by intros ->. Qed.

Lemma jobs_read {A} (m : Jobs.stx A) : (forall d a d', m d = Ok (a, d') -> d' = d) -> keeps same_queue (on_jobs e m).
Proof.
  intros Hm s a s'. unfold on_jobs. destruct (m (queue_view s)) as [[b d]|] eqn:E; [|done]. apply Hm in E as ->. intros [= _ <-].
  unfold same_queue, set_jobs, queue_tables, ItemDb.set_files, ItemDb.set_queue, queue_view. cbn. destruct (ItemDb.queue (base s)). done.
Qed.
Lemma lock_fence_queue page rev att f : keeps same_queue (lock_fence e page rev att f).
Proof.
  unfold lock_fence. apply along_bind; [apply _|apply _| |intros []].
  { apply jobs_read. by intros d a d' [-> _]%JobRefine.lock_lease_Ok. }
  apply along_bind; [apply _|apply _| |intros job; solve_keeps]. apply jobs_read. by intros d a d' [_ ->]%JobRefine.get_job_Ok.
Qed.
Lemma lock_fence_work ws img page rev att f : works ws img (lock_fence e page rev att f).
Proof.
  apply work_bind; [apply serves_work, lease_serves|intros []]. apply work_bind; [apply serves_work, get_serves|intros job; solve_keeps].
Qed.

Lemma lock_reprocess_Ok ws img page commit s active ctx snap s' : lock_reprocess e config page commit s = Ok ((active, ctx, snap), s') ->
  work ws img s s' /\ locked_job active s'.
Proof.
  unfold lock_reprocess. intros H. tx_bind H as w s1 H1. pose proof (serves_work ws img e _ (admission_serves _) _ _ _ H1) as Hw1.
  destruct (negb _); [done|]. tx_bind H as act s2 H2. pose proof (serves_work ws img e _ (active_serves _) _ _ _ H2) as Hw2.
  assert (Hl : locked_job act s2).
  { unfold on_jobs, Jobs.LockActiveTranscriptionJobForUpdateManual in H2. cbv [tx_reads] in H2. injection H2 as <- <-.
    destruct (Jobs.active_job_of _ _) as [[id r]|] eqn:E; [|done]. apply JobRefine.active_job_of_Some in E as [Hr Hi].
    split; [exact Hr|]. by eapply JobRefine.active_image_active. }
  tx_bind H as [] s3 H3. assert (Hw3 : work ws img s2 s3 /\ same_queue s2 s3).
  { destruct act; [by injection H3 as <-|]. split; [by eapply (serves_work ws img e _ (enforce_serves _ _))|].
    eapply jobs_read; [|exact H3]. intros d a d' Hd. unfold enforceTranscriptionJobAdmission in Hd. tx_bind Hd as n d1 Hn. injection Hn as _ <-.
    destruct (_ <=? n); [done|]. by injection Hd. }
  tx_bind H as [c j] s4 H4. pose proof (serves_work ws img e _ (snapshot_serves _ _ _) _ _ _ H4) as Hw4.
  assert (Hq4 : same_queue s3 s4).
  { eapply jobs_read; [|exact H4]. intros d a d'. unfold lockContextSnapshotForWorkspace. repeat case_match; try done; by intros [= _ <-]. }
  injection H as <- <- <- <-. destruct Hw3 as [Hw3 Hq3]. split; [do 3 (etrans; [eassumption|]); done|].
  eapply locked_same; [exact Hq4|]. by eapply locked_same.
Qed.

Lemma supersede_work ws img id r s u s' : locked_job (Some (id, r)) s -> on_jobs e (supersede_active_job e id r) s = Ok (u, s') -> work ws img s s'.
Proof.
  intros [Hr Ha]. unfold on_jobs. destruct (supersede_active_job _ _ _ _) as [[b d]|] eqn:E; [|done]. intros [= _ <-].
  apply jobs_work. by eapply supersede_serves.
Qed.

Lemma commit_reprocess_work ws img page active commit ctx snap s id s' : ItemImage page = img -> O_ItemImageID (BaselineRun commit) = Some img ->
  locked_job active s -> commitAnnotationReprocess e page active commit ctx snap s = Ok (id, s') -> work ws img s s'.
Proof.
  intros <- Hrun Hl H. unfold commitAnnotationReprocess in H. tx_bind H as [] s1 H1.
  pose proof (content_queue _ (insert_current_content _) _ _ _ H1) as Hq. apply (insert_current_work ws _ _ Hrun) in H1.
  tx_bind H as [] s2 H2. assert (Hw2 : work ws (ItemImage page) s1 s2).
  { destruct active as [[i r]|]; [|by injection H2 as <-]. eapply supersede_work; [|exact H2]. by eapply locked_same. }
  tx_bind H as job s3 H3. apply create_work with (ws := ws) (img := ItemImage page) in H3. tx_bind H as [] s4 H4.
  assert (Hw4 : work ws (ItemImage page) s3 s4).
  { destruct (ExternalRequest commit); [by eapply complete_work|by injection H4 as <-]. }
  tx_bind H as [] s5 H5. assert (Hw5 : work ws (ItemImage page) s4 s5).
  { destruct (blank _); [by injection H5 as <-|by eapply emit_work]. }
  injection H as _ <-. do 4 (etrans; [eassumption|]). done.
Qed.

Lemma completion_work ws img page rev c : ItemImage page = img -> works ws img (commit_completion e page rev c).
Proof.
  intros <- s [] s' H. unfold commit_completion in H. tx_bind H as [] s1 H1. assert (Hw1 : work ws (ItemImage page) s s1).
  { destruct (CompletionRun c) as [run|]; [|by injection H1 as <-]. case_bool_decide as Hr; [|done]. by eapply insert_current_work. }
  tx_bind H as [] s2 H2. apply (serves_work ws (ItemImage page) e _ (complete_serves _ _ _)) in H2.
  assert (Hw3 : work ws (ItemImage page) s2 s').
  { destruct (_ && _); [by eapply emit_work|by injection H as <-]. }
  do 2 (etrans; [eassumption|]). done.
Qed.

Lemma save_tx_sound page entries expected attempt options s r s' :
  (forall c, reprocess options = Some c -> O_ItemImageID (BaselineRun c) = Some (ItemImage page)) ->
  sound (tables s) -> unsigned_audits s -> save_tx e config page entries expected attempt options s = Ok (r, s') -> sound (tables s').
Proof.
  intros Hrun Hs Ha H. unfold save_tx in H. set (ws := WorkspaceID page) in *. set (img := ItemImage page) in *.
  tx_bind H as before s1 H1. apply (lock_page_Ok ws img) in H1 as [Ho Hk]; [|done..].
  tx_bind H as locked s2 H2.
  assert (Hw2 : work ws img s1 s2 /\ match locked with Some (c, (active, _, _)) => reprocess options = Some c /\ locked_job active s2 | None => True end).
  { destruct (reprocess options) as [c|]; [|by injection H2 as <- <-]. tx_bind H2 as [[active ctx] snap] s3 H3. injection H2 as <- <-.
    by apply (lock_reprocess_Ok ws img) in H3 as [Hw Hl]. } destruct Hw2 as [Hw2 Hl].
  tx_bind H as [] s3 H3. assert (Hw3 : work ws img s2 s3 /\ same_queue s2 s3).
  { destruct (save_fence options); [|by injection H3 as <-]. split; [by eapply lock_fence_work|by eapply lock_fence_queue]. } destruct Hw3 as [Hw3 Hq3].
  tx_bind H as ex s4 H4. injection H4 as <- <-. destruct (image_owned s3 _ _); [|done]. cbn [negb] in H.
  tx_bind H as row s4 H4. apply tx_lift_Ok in H4 as [Hrow ->]. apply page_row_Ok in Hrow as ->.
  tx_bind H as [] s4 H4. apply write_page_Ok in H4 as (_ & _ & ->); [|done].
  tx_bind H as [] s5 H5. apply replace_indexed in H5 as (m & -> & Hix). cbn in Hix.
  tx_bind H as got s6 H6. apply get_page_Ok in H6 as (-> & _ & _). fold ws img in H.
  match type of H with context [set_pages (<[_ := ?row]> _) _] => pose proof (page_work ws img s3 m row entries Hix) as Hw5 end.
  specialize (Hw5 (known_work ws img _ _ _ Hw3 (known_work ws img _ _ _ Hw2 Hk))).
  change (WorkspaceID page, ItemImage page) with (ws, img) in *. set (s5 := set_index m _) in *.
  tx_bind H as [] s6 H6. assert (Hw6 : work ws img s5 s6 /\ same_queue s5 s6).
  { destruct (metric options); [|by injection H6 as <-]. split; [by eapply write_metric_work|by eapply (content_queue _ (write_metric_content _ _ _))]. } destruct Hw6 as [Hw6 Hq6].
  tx_bind H as id s7 H7. assert (Hw7 : work ws img s6 s7).
  { destruct locked as [[c [[active ctx] snap]]|]; [|by injection H7 as _ <-]. destruct Hl as [Hc Hl].
    eapply commit_reprocess_work; [done|by apply Hrun| |exact H7]. eapply locked_same; [exact Hq6|]. by eapply (locked_same _ s2). }
  tx_bind H as [] s8 H8. assert (Hw8 : work ws img s7 s8).
  { destruct (completion options); [by eapply completion_work|by injection H8 as <-]. }
  tx_bind H as [] s9 H9. injection H as <- <-. eapply settle; [exact Hs|exact Ha|exact Ho| |exact H9]. do 5 (etrans; [eassumption|]). done.
Qed.

(** ** Publishing *)

Lemma publish_event_work ws img p w i at_ options item : works ws img (publish_event e p w i at_ options item).
Proof.
  unfold publish_event. destruct (blank _); [apply along_ret; apply _|]. apply work_bind; [apply keeps_of; apply _|intros x].
  apply work_bind; [apply along_lift; apply _|intros body]. apply emit_work.
Qed.

Lemma write_snapshot_work ws img options item p existing s r s' :
  is_Some (pages (con s) !! (ws, img)) -> known (PublishedByUserID options) s ->
  write_snapshot e ws img options item p existing s = Ok (r, s') -> work ws img s s'.
Proof.
  intros Hp Hk H. unfold write_snapshot in H. tx_bind H as by_ s1 H1. apply tx_lift_Ok in H1 as [Hby ->].
  tx_bind H as [] s1 H1. unfold write_publication in H1. destruct (publication_free _ _ _); [|done]. injection H1 as <-.
  match type of H with _ _ (set_con (with_published _ (<[_ := ?row]> _)) _) = _ => pose proof (published_work ws img s row Hp) as Hw1 end.
  tx_bind H as [] s2 H2. apply tombstones_work with (ws := ws) in H2. tx_bind H as [] s3 H3. apply upsert_mirror_work with (ws := ws) in H3.
  tx_bind H as [] s4 H4. apply cleanup_work with (img := img) in H4. tx_bind H as [] s5 H5. apply (publish_event_work ws img) in H5.
  unfold ptx_of in H. destruct (published (con s5) !! _); [|done]. injection H as _ <-.
  etrans; [apply Hw1|do 3 (etrans; [eassumption|]); done].
  unfold nullablePublishedUserID in Hby. destruct (PublishedByUserID options) as [u|]; [|by injection Hby as <-].
  destruct (u =? 0); [by injection Hby as <-|]. destruct (MaxInt64 <? u); [done|]. injection Hby as <-. exact Hk.
Qed.

Lemma publish_tx_sound ws img options s r s' : sound (tables s) -> unsigned_audits s ->
  publish_tx e config ws img options s = Ok (r, s') -> sound (tables s').
Proof.
  intros Hs Ha H. unfold publish_tx in H. tx_bind H as [[[item before] p] existing] s1 H1. unfold lock_publication in H1.
  tx_bind H1 as u t1 G1. apply guard_reads in G1 as (Hws & Hu & Hr1).
  tx_bind H1 as id t2 G2. unfold LockItemImageForUseManual, ptx_of in G2. destruct (image_of_workspace t1 ws img) as [g|] eqn:Hg; [|done].
  cbn in G2. injection G2 as <- <-. apply owned_parent in Hg.
  tx_bind H1 as [] t2 G2. assert (Hr2 : reads t1 t2 /\ known (PublishedByUserID options) t1).
  { destruct (PublishedByUserID options) as [user|] eqn:E; [|by injection G2 as <-]. split; [by eapply member_reads|].
    eapply member_known; [|exact G2]. by eapply sound_reads. } destruct Hr2 as [Hr2 Hk].
  tx_bind H1 as b t3 G3. assert (Ho : opened ws img b s t3).
  { eapply (open_Ok ws img s t2); [by etrans|exact G3|exact Hws|exact Hu|]. by rewrite <- (rd_tables _ _ Hr1). }
  apply measured in G3 as (_ & _ & Hr3).
  tx_bind H1 as p0 t4 G4. unfold LockAnnotationPageForPublication, ptx_of in G4. destruct (pages (con t3) !! (ws, img)) as [p1|] eqn:Hp; [|done].
  injection G4 as <- <-. destruct (negb _); [done|]. tx_bind H1 as [] t4 G4. apply tx_lift_Ok in G4 as [_ ->].
  tx_bind H1 as ex t4 G4. injection G4 as <- <-. injection H1 as <- <- <- <- <-.
  set (write := _ ≫= _) in H. assert (Hw : write t3 = Ok (r, s') -> sound (tables s')).
  { intros Hw. subst write. tx_bind Hw as stored t4 G4. tx_bind Hw as [] t5 G5. injection Hw as _ <-.
    eapply settle; [exact Hs|exact Ha|exact Ho| |exact G5]. eapply write_snapshot_work; [by eexists| |exact G4].
    unfold known in *. by rewrite (rd_tables _ _ Hr3), (rd_tables _ _ Hr2). }
  assert (Hsame : sound (tables t3)) by (by rewrite (rd_tables _ _ Hr3), (rd_tables _ _ Hr2), (rd_tables _ _ Hr1)).
  destruct (published (con t3) !! (ws, img)) as [x|]; [|by apply Hw].
  destruct (_ =? _); [by injection H as _ <-|]. destruct (_ >? _); [done|]. by apply Hw.
Qed.

(** ** Runs and ground truth *)

Lemma create_run_sound run ws img s u s' : O_ItemImageID run = Some img -> sound (tables s) -> unsigned_audits s ->
  create_run_tx config run img ws s = Ok (u, s') -> sound (tables s').
Proof.
  intros Hrun Hs Ha H. unfold create_run_tx in H. tx_bind H as x s1 H1. apply guard_reads in H1 as (Hws & Hu & Hr1).
  tx_bind H as id s2 H2. unfold LockItemImageForUseManual, ptx_of in H2. destruct (image_of_workspace s1 ws img) as [g|] eqn:Hg; [|done].
  cbn in H2. injection H2 as <- <-. apply owned_parent in Hg.
  tx_bind H as [] s2 H2. assert (Hr2 : reads s1 s2).
  { destruct (O_ContextID run); [|by injection H2 as <-]. revert H2. apply keeps_of; apply _. }
  tx_bind H as b s3 H3. assert (Ho : opened ws img b s s3).
  { eapply (open_Ok ws img s s2); [by etrans|exact H3|exact Hws|exact Hu|]. by rewrite <- (rd_tables _ _ Hr1). }
  tx_bind H as [] s4 H4. apply (insert_current_work ws _ _ Hrun) in H4. destruct u. by eapply settle.
Qed.

Lemma mark_sound ws img revision snapshot marked s u s' : sound (tables s) -> unsigned_audits s ->
  mark_tx config ws img revision snapshot marked s = Ok (u, s') -> sound (tables s').
Proof.
  intros Hs Ha H. unfold mark_tx in H. tx_bind H as x s1 H1. apply guard_reads in H1 as (Hws & Hu & Hr1).
  tx_bind H as [] s2 H2. assert (Hr2 : reads s1 s2).
  { destruct (t_marked_by snapshot) as [user|]; [|by injection H2 as <-]. destruct (user <=? 0); [done|by eapply member_reads]. }
  tx_bind H as id s3 H3. unfold LockItemImageForUseManual, ptx_of in H3. destruct (image_of_workspace s2 ws img) as [g|] eqn:Hg; [|done].
  cbn in H3. injection H3 as <- <-. apply owned_parent in Hg.
  tx_bind H as p s3 H3. unfold LockAnnotationPageForPublication, ptx_of in H3. destruct (pages (con s2) !! (ws, img)); [|done]. injection H3 as <- <-.
  destruct (marked && _); [done|]. destruct (marked && _); [done|].
  tx_bind H as b s3 H3. assert (Hr : reads s s2) by (by etrans).
  assert (Ho : opened ws img b s s3). { eapply (open_Ok ws img s s2); [exact Hr|exact H3|exact Hws|exact Hu|]. by rewrite <- (rd_tables _ _ Hr). }
  tx_bind H as ex s4 H4. injection H4 as <- <-. tx_bind H as [] s4 H4. assert (Hw : work ws img s3 s4).
  { unfold write_ground_truth in H4. destruct (marked && _); [destruct (0 <? _); [|done]|destruct (negb marked); [|by injection H4 as <-]];
      injection H4 as <-; apply truth_work; intros k Hk.
    - apply lookup_insert_ne. by intros <-.
    - apply lookup_delete_ne. by intros <-. }
  destruct u. by eapply settle.
Qed.
End transactions.
End PageBooks.
