(* ===== verification/IngestBooks.v ===== *)
(** * Ingests keep the books

    A committed ingest leaves the tables sound: the usage row counts the item, its images and their
    bytes, the reservation is gone, and the audit of the relationships is silent. *)

From Stdlib Require Import ZArith Lia Ascii String.
From stdpp Require Import base gmap strings list sorting.
From S2P Require Import Prelude GoStrings Json JobSchema JobStore JobInvariant JobRefine JobAdmission MediaFragment Presentation Quota QuotaStore QuotaOps ResourceCleanup QuotaInvariant QuotaSteps Requests Resources Mirrors ItemDb ItemOps UploadBatches UploadOps ItemAudit ItemPurge ItemSound ItemSteps UploadSteps ItemKeeps UploadKeeps PageIndex PageDb PageStore PageSteps IngestStore PageKeeps PageBooks.

Module IngestBooks.
Import GoStr Json JobStore MediaFragment Presentation UploadRef Resources Quota QuotaStore QuotaOps QuotaFacts QuotaInvariant QuotaSteps ItemGraph ItemAudit ItemPurge ItemMeasure ItemSound ItemSteps UploadSteps ItemKeeps UploadKeeps PageIndex PageDb PageStore PageSteps PageSound PageKeeps PageBooks IngestStore IngestSteps.
#[local] Open Scope Z_scope.

(** ** The reservation becomes usage *)

Lemma retire_near ws d s R v a l u s' : near None ws d s -> R_WorkspaceID R = ws ->
  reservation_of (R_ID R) ws (ItemDb.qview s) = Some v ->
  ItemDb.quota (retireSingleFileIngestReservation R v a l) s = Ok (u, s') -> near None ws (amount_add d (with_Bytes 0 a)) s'.
Proof.
  intros Hn <- Hv (q & Hr & ->)%quota_Ok. destruct u. pose proof (n_quota _ _ _ _ Hn) as Hc.
  destruct (rows_of_workspace _ _ _ _ Hc Hv) as (Hid & Hvw & Hws & Hsome & Hok).
  pose proof (retire_consistent R v a l _ _ Hc Hv Hr) as Hq. set (ws := R_WorkspaceID R) in *.
  unfold retireSingleFileIngestReservation in Hr.
  tx_bind Hr as g s1 H1. apply one_row_Ok in H1 as [Hg ->]. tx_bind Hr as u s1 H1. apply one_row_Ok in H1 as [Hu ->]. tx_check Hr as [] Hchk.
  tx_bind Hr as [] s1 H1. apply replace_accounting_Ok in H1 as [-> Hcol]; [|done]. set (b := book _ _ _) in *.
  tx_bind Hr as [] s2 H2. assert (H2' : usages s2 = usages b /\ reservations s2 = reservations b /\
      forall k x, cleanups s2 !! k = Some x -> cleanups b !! k = Some x).
  { destruct (v_resource_key v); [|by injection H2 as <-]. apply quota_one_Ok in H2.
    unfold DeleteResourceCleanupByKindKey in H2. destruct (cleanups b !! _); [|done]. injection H2 as <-. split_and!; [done|done|].
    intros k x Hx. cbn in Hx. by apply lookup_delete_Some in Hx as [_ Hx]. } destruct H2' as (Hus & Hrs & Hcl).
  apply quota_one_Ok, delete_reservation_Ok in Hr as (v' & Hv' & ->).
  assert (Hl : forall w, usages b !! w = if (w =? 0) || (w =? ws) then rebill (req v) no_request a <$> ItemDb.a_usages (ItemDb.acc s) !! w else ItemDb.a_usages (ItemDb.acc s) !! w).
  { intros w. unfold b. by rewrite lookup_book. }
  assert (Hdom : forall w, is_Some (usages b !! w) <-> is_Some (ItemDb.a_usages (ItemDb.acc s) !! w)).
  { intros w. rewrite Hl. destruct ((w =? 0) || (w =? ws)); [|done]. split; [by intros [x [y [? ?]]%fmap_Some]|by intros [x ->]]. }
  apply (accounts_near s _) with (ex := None) (d := d); [cbn; by rewrite Hus| | | |done|exact Hq|].
  - intros i x. cbn. rewrite Hrs. intros [_ Hx]%lookup_delete_Some.
    pose proof (rel_reservations _ (n_related _ _ _ _ Hn) i x Hx) as Hk. unfold ok_reservation, workspace_parent in Hk.
    by rewrite bool_decide_eq_true in Hk.
  - intros k x Hx Hpos. cbn in Hx |- *. rewrite Hus. apply Hdom. apply Hcl in Hx. pose proof (rel_cleanups _ (n_related _ _ _ _ Hn) k x Hx) as Hk.
    unfold ok_cleanup in Hk. rewrite (proj2 (Z.ltb_lt _ _)) in Hk by done. simpl in Hk. by rewrite bool_decide_eq_true in Hk.
  - by eapply owns_tenant.
  - intros w u1 u2 Hw Hu1 Hu2. cbn in Hu2. rewrite Hus in Hu2.
    rewrite Hl, (proj2 (Z.eqb_neq w 0)), Hu1 in Hu2 by done. simpl in Hu2. unfold owes.
    destruct (w =? ws); simplify_eq; [|done]. rewrite rebill_used. generalize (stored s w). intros st.
    unfold amount_add, with_Bytes. destruct st, d, a. simpl. intros [= ]. f_equal; lia.
Qed.

(** ** The bytes of an item *)

Lemma wsum_off {K A} `{Countable K} (p : K * A -> bool) g (m : gmap K A) :
  (forall k v, m !! k = Some v -> p (k, v) = true -> g k v = 0) -> wsum g m = wsum g (filter (fun kv => p kv = false) m).
Proof.
  intros Hz. rewrite wsum_filter. apply wsum_ext. intros k v Hv. destruct (p (k, v)) eqn:E; [by apply Hz|done].
Qed.

Lemma gone_agree ws img P t t' : agree ws img (ItemDb.kids t) (ItemDb.kids t') -> P img = false -> gone_bytes P t' = gone_bytes P t.
Proof.
  intros [] HP. unfold gone_bytes, when. rewrite ag_audits0.
  rewrite (wsum_off (fun kv => ItemDb.n_item_image_id kv.2 =? img) _ (ItemDb.ocr_runs (ItemDb.kids t'))), ag_runs0, <- wsum_off.
  2,3: intros k v _ Hk; cbn in Hk; apply Z.eqb_eq in Hk; by rewrite Hk, HP.
  rewrite (wsum_off (fun kv => (kv.1.1 =? ws) && (kv.1.2 =? img)) _ (ItemDb.pages (ItemDb.kids t'))), ag_pages0, <- wsum_off.
  2,3: intros k v _ [_ Hk%Z.eqb_eq]%andb_true_iff; cbn in Hk; by rewrite Hk, HP.
  rewrite (wsum_off (fun kv => (kv.1.1.1 =? ws) && (kv.1.1.2 =? img)) _ (ItemDb.ground_truth (ItemDb.kids t'))), ag_truth0, <- wsum_off.
  2,3: intros k v _ [_ Hk%Z.eqb_eq]%andb_true_iff; cbn in Hk; by rewrite Hk, HP.
  rewrite (wsum_off (fun kv => (kv.1.1.1 =? ws) && (kv.1.1.2 =? img)) _ (ItemDb.index (ItemDb.kids t'))), ag_index0, <- wsum_off.
  2,3: intros k v _ [_ Hk%Z.eqb_eq]%andb_true_iff; cbn in Hk; by rewrite Hk, HP.
  rewrite (wsum_off (fun kv => (kv.1.1 =? ws) && (kv.1.2 =? img)) _ (ItemDb.published (ItemDb.kids t'))), ag_published0, <- wsum_off; [done|..].
  all: intros k v _ [_ Hk%Z.eqb_eq]%andb_true_iff; cbn in Hk; by rewrite Hk, HP.
Qed.

Lemma gone_ext P Q t : (forall i, P i = Q i) -> gone_bytes P t = gone_bytes Q t.
Proof.
  intros HPQ. unfold gone_bytes, some_is.
  repeat (f_equal; [|apply wsum_ext; intros k v _; try destruct (ItemDb.u_item_image_id v); by rewrite ?HPQ]).
  apply wsum_ext. intros k v _. by rewrite HPQ.
Qed.
Lemma gone_or P img t : P img = false -> gone_bytes (fun i => P i || (i =? img)) t = gone_bytes P t + gone_bytes (fun i => i =? img) t.
Proof.
  intros HP. unfold gone_bytes, some_is.
  assert (Hw : forall i n, when (P i || (i =? img)) n = when (P i) n + when (i =? img) n).
  { intros i n. unfold when. destruct (Z.eqb_spec i img) as [->|]; [rewrite HP; simpl; lia|]. rewrite orb_false_r. destruct (P i); lia. }
  assert (Hs : forall {K A} `{Countable K} (m : gmap K A) (f : K -> A -> Z) (n : K -> A -> Z),
    wsum (fun k v => when (P (f k v) || (f k v =? img)) (n k v)) m = wsum (fun k v => when (P (f k v)) (n k v)) m + wsum (fun k v => when (f k v =? img) (n k v)) m).
  { intros K A ? ? m f n. rewrite wsum_add. apply wsum_ext. intros k v _. apply Hw. }
  rewrite !(Hs _ _ _ _ _ (fun _ n => ItemDb.n_item_image_id n)), !(Hs _ _ _ _ _ (fun k _ => k.2)), !(Hs _ _ _ _ _ (fun k _ => k.1.2)).
  assert (wsum (fun _ a => when match ItemDb.u_item_image_id a with Some i => P i || (i =? img) | None => false end (ItemDb.u_database_bytes a)) (ItemDb.provider_audits (ItemDb.kids t))
    = wsum (fun _ a => when match ItemDb.u_item_image_id a with Some i => P i | None => false end (ItemDb.u_database_bytes a)) (ItemDb.provider_audits (ItemDb.kids t))
    + wsum (fun _ a => when match ItemDb.u_item_image_id a with Some i => i =? img | None => false end (ItemDb.u_database_bytes a)) (ItemDb.provider_audits (ItemDb.kids t))) as ->.
  { rewrite wsum_add. apply wsum_ext. intros k v _. destruct (ItemDb.u_item_image_id v); [apply Hw|done]. }
  lia.
Qed.

(** Nothing hangs on an image that is not there. *)
Lemma gone_fresh img t : related t -> truth_related t -> ItemDb.images t !! img = None -> gone_bytes (fun i => i =? img) t = 0.
Proof.
  intros [] Htr Hno. assert (Hp : forall w i, image_parent t w i = true -> (i =? img) = false).
  { intros w i (g & Hg & _)%image_parent_true. apply Z.eqb_neq. congruence. }
  unfold gone_bytes, when. rewrite !wsum_zero; [done|..]; intros k v Hv.
  - specialize (rel_audits0 k v Hv). unfold ok_audit, some_is in *. destruct (ItemDb.u_item_image_id v); [|done]. split_bools. by erewrite Hp.
  - specialize (rel_published0 k v Hv). unfold ok_indexed in *. split_bools. by erewrite Hp.
  - specialize (rel_index0 k v Hv). unfold ok_indexed in *. split_bools. by erewrite Hp.
  - specialize (Htr k v Hv). cbn in Htr. by erewrite Hp.
  - specialize (rel_pages0 k v Hv). cbn in rel_pages0. by erewrite Hp.
  - specialize (rel_runs0 k v Hv). unfold ok_run in *. split_bools. by erewrite Hp.
Qed.

(** ** A new image *)

Section image.
Context (ws : Z) (item : string).

Record placed (img : Z) (s s' : pdb) : Prop := {
  pl_kids : ItemDb.kids (tables s') = ItemDb.kids (tables s);
  pl_fresh : ItemDb.images (base s) !! img = None;
  pl_target : forall i, target (tables s') ws item 0 i = target (tables s) ws item 0 i || (i =? img);
  pl_items : ItemDb.items (base s') = ItemDb.items (base s);
  pl_users : ItemDb.users (base s') = ItemDb.users (base s);
  pl_accounts : ItemDb.acc (base s') = ItemDb.acc (base s);
}.

Lemma target_same s s' : (forall i, (fun g => (ItemDb.g_workspace_id g, ItemDb.g_item_id g)) <$> ItemDb.images s' !! i =
    (fun g => (ItemDb.g_workspace_id g, ItemDb.g_item_id g)) <$> ItemDb.images s !! i) ->
  forall i, target s' ws item 0 i = target s ws item 0 i.
Proof.
  intros H i. specialize (H i). unfold target. destruct (ItemDb.images s' !! i), (ItemDb.images s !! i); try done.
  cbn in H. by injection H as -> ->.
Qed.

Lemma create_image_Ok d p s img s' : near None ws d (tables s) -> ItemOps.G_ItemID p = item -> item_parent (tables s) ws item = true ->
  on_tables (ItemOps.CreateItemImage p) s = Ok (img, s') ->
  placed img s s' /\ near None ws (amount_sub d (amount 0 0 1)) (tables s') /\ image_parent (tables s') ws img = true.
Proof.
  intros Hn Hit Hp (t & H & ->)%on_tables_Ok. unfold ItemOps.CreateItemImage in H.
  destruct (ItemOps.nullableImageDimension _) as [w|]; [|done]. destruct (ItemOps.nullableImageDimension _) as [h|]; [|done].
  rewrite Hit in H. pose proof Hp as (x & Hx & Hw)%item_parent_true. rewrite Hx in H.
  destruct (ItemOps.image_at _ _ _) eqn:Hat; [done|]. injection H as <- <-. set (g := ItemDb.Build_item_image _ _ _ _ _ _ _ _ _ _).
  assert (Hfresh : ItemDb.images (base s) !! ItemDb.next_image_id (base s) = None).
  { destruct (ItemDb.images (base s) !! ItemDb.next_image_id (base s)) eqn:E; [|done]. pose proof (n_ids _ _ _ _ Hn _ _ E) as Hi. cbn in Hi. lia. }
  rewrite with_base_tables by done. split; [|split].
  - split; [by rewrite with_base_tables|exact Hfresh| |done..]. intros i. rewrite with_base_tables by done. unfold target. cbn.
    destruct (Z.eqb_spec i (ItemDb.next_image_id (base s))) as [->|Hne].
    + rewrite lookup_insert_eq, Hfresh. cbn. by rewrite Hw, Z.eqb_refl, bool_decide_true.
    + rewrite lookup_insert_ne, orb_false_r by done. done.
  - exact (new_image_near None ws d (tables s) g Hn Hw Hp Hat).
  - apply image_parent_true. exists g. cbn. by rewrite lookup_insert_eq.
Qed.

Lemma set_canvas_Ok d given img uri s0 s u s' : placed img s0 s -> near None ws d (tables s) -> image_parent (tables s) ws img = true ->
  set_canvas given img uri s = Ok (u, s') -> placed img s0 s' /\ near None ws d (tables s') /\ image_parent (tables s') ws img = true.
Proof.
  intros Hp Hn Hi H. unfold set_canvas in H. destruct (blank given); [|by injection H as _ <-].
  apply on_tables_Ok in H as (t & H & ->). injection H as _ <-. set (h := ItemOps.with_canvas _).
  assert (Hat : forall i, (fun g => (ItemDb.g_workspace_id g, ItemDb.g_item_id g)) <$> alter h img (ItemDb.images (tables s)) !! i
    = (fun g => (ItemDb.g_workspace_id g, ItemDb.g_item_id g)) <$> ItemDb.images (tables s) !! i).
  { intros i. rewrite lookup_alter. destruct (decide (img = i)) as [->|]; [|done]. by destruct (ItemDb.images (tables s) !! i). }
  rewrite with_base_tables by done. split; [|split].
  - destruct Hp. split; [by rewrite with_base_tables|done| |done..]. intros i. rewrite with_base_tables by done.
    rewrite <- pl_target0. by apply target_same.
  - refine (alter_image_near None ws d (tables s) img h _ Hn). by intros g.
  - apply image_parent_true in Hi as (g & Hg & Hw). apply image_parent_true. exists (h g). split; [|exact Hw].
    cbn in Hg |- *. by rewrite lookup_alter_eq, Hg.
Qed.

(** Nothing counts for the image yet. *)
Lemma placed_pending d img s s' : near None ws d (tables s') -> image_parent (tables s') ws img = true -> placed img s s' ->
  related (tables s) -> truth_related (tables s) -> ws <> 0 /\ is_Some (ItemDb.a_usages (ItemDb.acc (base s)) !! ws) -> pending ws img d s'.
Proof.
  intros Hn Hi [] Hrel Htr Ht. split; [|exact Hi|by rewrite pl_accounts0].
  pose proof Hi as (g & Hg & Hw)%image_parent_true. pose proof (n_ids _ _ _ _ Hn _ _ Hg) as Hid.
  eapply owes_same; [|exact Hn]. unfold image_size.
  rewrite (image_bytes (tables s') ws (n_related _ _ _ _ Hn) (n_truth _ _ _ _ Hn) img g) by (done || lia).
  rewrite (gone_ext _ (fun i => i =? img)) by (apply target_one; [lia|done|done]).
  assert (gone_bytes (fun i => i =? img) (tables s') = gone_bytes (fun i => i =? img) (tables s)) as -> by (unfold gone_bytes; by rewrite pl_kids0).
  rewrite gone_fresh by done. unfold amount_add, amount. destruct d. cbn. f_equal; lia.
Qed.

(** The item grows by the image. *)
Lemma item_grows img s s1 s2 d : placed img s s1 -> pending ws img d s1 -> work ws img s1 s2 ->
  related (tables s) -> truth_related (tables s) -> item_parent (tables s) ws item = true ->
  GetItemDurableDatabaseBytes ws item (tables s2) = GetItemDurableDatabaseBytes ws item (tables s) + image_size ws img (tables s2).
Proof.
  intros [] Hp Hw Hrel Htr (x & Hx & Hxw)%item_parent_true. pose proof (wk_pending _ _ _ _ Hw _ Hp) as [Hn2 Hi2 _].
  pose proof Hi2 as (g & Hg & Hgw)%image_parent_true. pose proof (n_ids _ _ _ _ Hn2 _ _ Hg) as Hid.
  pose proof (n_related _ _ _ _ Hn2) as Hrel2. pose proof (n_truth _ _ _ _ Hn2) as Htr2.
  assert (Hx2 : ItemDb.items (tables s2) !! item = Some x).
  { change (ItemDb.items (base s2) !! item = Some x). by rewrite (wk_items _ _ _ _ Hw), pl_items0. }
  assert (Htimg : target (tables s) ws item 0 img = false) by (unfold target; change (ItemDb.images (tables s)) with (ItemDb.images (base s)); by rewrite pl_fresh0).
  rewrite (item_bytes (tables s2) ws Hrel2 Htr2 item x Hx2 Hxw), (item_bytes (tables s) ws Hrel Htr item x Hx Hxw).
  unfold image_size. rewrite (image_bytes (tables s2) ws Hrel2 Htr2 img g) by (done || lia).
  rewrite (gone_ext (target (tables s2) ws item 0) (fun i => target (tables s) ws item 0 i || (i =? img))).
  2:{ intros i. rewrite <- pl_target0. apply target_same. intros j. change (ItemDb.images (tables s2)) with (ItemDb.images (base s2)). by rewrite (wk_images _ _ _ _ Hw). }
  rewrite gone_or by done. rewrite (gone_ext (target (tables s2) ws (ItemDb.g_item_id g) img) (fun i => i =? img)) by (apply target_one; [lia|done|done]).
  rewrite (gone_agree ws img _ (tables s1) (tables s2)) by (done || (apply (wk_agree _ _ _ _ Hw); by eexists)).
  assert (gone_bytes (target (tables s) ws item 0) (tables s1) = gone_bytes (target (tables s) ws item 0) (tables s)) as -> by (unfold gone_bytes; by rewrite pl_kids0).
  lia.
Qed.
End image.

(** ** Installing an image *)

Section install.
Context {SC : Schema} {AS : AnnotationSchema} {UP : UrlParser} {UPr : UrlPrinter}.
Context (e : env) (config : store_config).

(** The pages a factory builds name no user, or the one who ingests. *)
Definition attributes (factory : option page_factory) (user : Z) : Prop := forall f i u p,
  factory = Some f -> f i u = Some p -> UpdatedByUserID p = None \/ UpdatedByUserID p = Some user.

Lemma create_page_work ws img page w h s u s' : known (UpdatedByUserID page) s ->
  create_page ws img page w h s = Ok (u, s') -> work ws img s s'.
Proof.
  intros Hk (entries & row & m & [-> _ _ _ _] & _ & _ & Hm & ->)%create_page_prepared. eapply page_work; [exact Hm|exact Hk].
Qed.

Lemma admit_work ws img : works ws img (admit_job e config ws img).
Proof.
  unfold admit_job. apply work_bind; [apply serves_work, admission_serves|intros w]. destruct (negb _); [apply along_fail|].
  apply serves_work, enforce_serves.
Qed.
Lemma context_reads cid ws : reading (lock_context cid ws).
Proof. apply read_tables. intros t a t' H. unfold UploadOps.lockContextSnapshotForWorkspace in H. tx_bind H as c t1 H1. apply one_of_Ok in H1 as [_ ->]. by injection H. Qed.
Lemma enqueue_single_work ws img ctx : works ws img (enqueue_single e config ws img ctx).
Proof.
  destruct ctx as [cid|]; [|apply along_ret; apply _]. apply work_bind; [apply admit_work|intros u].
  apply work_bind; [apply reading_work, context_reads|intros [c j]; apply create_work].
Qed.
Lemma enqueue_canvas_work ws img ctx : works ws img (enqueue_canvas e config ws img ctx).
Proof. destruct ctx as [[c j]|]; [|apply along_fail]. apply work_bind; [apply admit_work|intros u; apply create_work]. Qed.
Lemma request_work external w item g job session ws img : works ws img (complete_request e external w item g job session).
Proof. destruct external as [x|]; [|apply along_ret; apply _]. intros s a s' H. by eapply complete_work. Qed.

(** What an image and what hangs on it leave. *)
Record installed (ws : Z) (item : string) (d : StorageQuotaRequest) (img : Z) (s s' : pdb) : Prop := {
  in_placed : exists s1, placed ws item img s s1 /\ pending ws img (amount_sub d (amount 0 0 1)) s1 /\ work ws img s1 s';
}.

Lemma place_Ok ws item d params given uri img s s1 u s2 : near None ws d (tables s) -> item_parent (tables s) ws item = true ->
  ws <> 0 /\ is_Some (ItemDb.a_usages (ItemDb.acc (base s)) !! ws) -> ItemOps.G_ItemID params = item ->
  on_tables (ItemOps.CreateItemImage params) s = Ok (img, s1) -> set_canvas given img uri s1 = Ok (u, s2) ->
  placed ws item img s s2 /\ pending ws img (amount_sub d (amount 0 0 1)) s2.
Proof.
  intros Hn Hp Ht Hit H1 H2. eapply create_image_Ok in H1 as (Hpl & Hn1 & Hi1); [|exact Hn|exact Hit|exact Hp].
  eapply set_canvas_Ok in H2 as (Hpl2 & Hn2 & Hi2); [|exact Hpl|exact Hn1|exact Hi1]. split; [exact Hpl2|].
  eapply placed_pending; [exact Hn2|exact Hi2|exact Hpl2|by eapply n_related|by eapply n_truth|exact Ht].
Qed.
Lemma placed_known ws item img s s' u : placed ws item img s s' -> known u s -> known u s'.
Proof. intros []. unfold known, user_or_null, user_parent. cbn. by rewrite pl_users0. Qed.
Lemma attributed factory user f img uri p s : attributes factory user -> factory = Some f -> f img uri = Some p ->
  known (Some user) s -> known (UpdatedByUserID p) s.
Proof. intros Ha Hf Hp Hk. destruct (Ha f img uri p Hf Hp) as [-> | ->]; [done|exact Hk]. Qed.

Lemma install_single_Ok d c s r s' : let ws := ItemOps.C_WorkspaceID (Item c) in let item := ItemOps.C_ID (Item c) in
  near None ws d (tables s) -> item_parent (tables s) ws item = true ->
  ws <> 0 /\ is_Some (ItemDb.a_usages (ItemDb.acc (base s)) !! ws) ->
  attributes (BuildPage c) (ItemOps.C_UserID (Item c)) -> known (Some (ItemOps.C_UserID (Item c))) s ->
  install_single e config c s = Ok (r, s') -> installed ws item d r.1 s s'.
Proof.
  intros ws item Hn Hp Ht Ha Hk H. unfold install_single in H. fold ws item in H. tx_bind H as img s1 H1.
  tx_bind H as uri s2 H2. apply tx_lift_Ok in H2 as [_ ->]. tx_bind H as page s2 H2. apply build_Ok in H2 as (-> & f & Hf & Hpage).
  tx_bind H as u s2 H2. eapply place_Ok in H2 as [Hpl Hpend]; [|exact Hn|exact Hp|exact Ht| |exact H1]; [|done].
  tx_bind H as u3 s3 H3. apply create_page_work in H3; [|change (known (UpdatedByUserID page) s2); eapply (attributed _ _ f); [exact Ha|exact Hf|exact Hpage|by eapply placed_known]].
  tx_bind H as u4 s4 H4. eapply insert_current_work with (ws := ws) in H4; [|done].
  tx_bind H as job s5 H5. apply enqueue_single_work in H5. injection H as <- <-. split. exists s2. split_and!; [exact Hpl|exact Hpend|].
  cbn. do 2 (etrans; [eassumption|]). done.
Qed.

Lemma install_canvas_Ok d item publicBaseURL context c s r s' : let ws := ItemOps.C_WorkspaceID item in
  near None ws d (tables s) -> item_parent (tables s) ws (ItemOps.C_ID item) = true ->
  ws <> 0 /\ is_Some (ItemDb.a_usages (ItemDb.acc (base s)) !! ws) ->
  attributes (CanvasBuildPage c) (ItemOps.C_UserID item) -> known (Some (ItemOps.C_UserID item)) s ->
  install_canvas e config item publicBaseURL context c s = Ok (r, s') -> installed ws (ItemOps.C_ID item) d r.1 s s'.
Proof.
  intros ws Hn Hp Ht Ha Hk H. unfold install_canvas in H. fold ws in H. tx_bind H as img s1 H1.
  tx_bind H as uri s2 H2. apply tx_lift_Ok in H2 as [_ ->]. tx_bind H as u s2 H2.
  eapply place_Ok in H2 as [Hpl Hpend]; [|exact Hn|exact Hp|exact Ht| |exact H1]; [|done].
  tx_bind H as page s3 H3. apply build_Ok in H3 as (-> & f & Hf & Hpage).
  tx_bind H as u3 s3 H3. apply create_page_work in H3; [|change (known (UpdatedByUserID page) s2); eapply (attributed _ _ f); [exact Ha|exact Hf|exact Hpage|by eapply placed_known]].
  tx_bind H as u4 s4 H4. assert (Hw4 : work ws img s3 s4).
  { destruct (CanvasRun c) as [run|]; [eapply insert_current_work; [|exact H4]; done|by injection H4 as _ <-]. }
  assert (Hw5 : work ws img s4 s' /\ r.1 = img).
  { destruct (EnqueueJob c); [|by injection H as <- <-]. tx_bind H as job s5 H5. apply enqueue_canvas_work in H5. by injection H as <- <-. }
  destruct Hw5 as [Hw5 ->]. split. exists s2. split_and!; [exact Hpl|exact Hpend|]. do 2 (etrans; [eassumption|]). done.
Qed.

(** ** The item while its images are installed *)

Record open_item (ws : Z) (item : string) (user : Z) (id : string) (v : reservation_row) (k : Z) (s : pdb) : Prop := {
  oi_near : near None ws (amount (- GetItemDurableDatabaseBytes ws item (tables s)) (-1) (- k)) (tables s);
  oi_item : item_parent (tables s) ws item = true;
  oi_tenant : ws <> 0 /\ is_Some (ItemDb.a_usages (ItemDb.acc (base s)) !! ws);
  oi_user : known (Some user) s;
  oi_reservation : reservation_of id ws (ItemDb.qview (tables s)) = Some v;
}.

Lemma installed_more ws item d img s s' s2 : installed ws item d img s s' -> work ws img s' s2 -> installed ws item d img s s2.
Proof. intros [(s1 & Hp & Hpd & Hw)] Hw2. split. exists s1. split_and!; [done|done|by etrans]. Qed.

Lemma installed_open ws item user id v k img s s' : open_item ws item user id v k s ->
  installed ws item (amount (- GetItemDurableDatabaseBytes ws item (tables s)) (-1) (- k)) img s s' -> open_item ws item user id v (k + 1) s'.
Proof.
  intros [Hn Hi Ht Hu Hr] [(s1 & Hp & Hpd & Hw)]. pose proof (n_related _ _ _ _ Hn) as Hrel. pose proof (n_truth _ _ _ _ Hn) as Htr.
  pose proof (item_grows ws item img s s1 s' _ Hp Hpd Hw Hrel Htr Hi) as Hg. pose proof (wk_pending _ _ _ _ Hw _ Hpd) as [Hn' Hi' Ht'].
  destruct (wk_accounts _ _ _ _ Hw) as [_ Hrs]. destruct Hp as [_ _ _ Hits Hus Hacc]. split.
  - eapply owes_same; [|exact Hn']. rewrite Hg. unfold amount, amount_add, amount_sub. cbn. f_equal; lia.
  - apply item_parent_true in Hi as (x & Hx & Hxw). apply item_parent_true. exists x. split; [|done].
    change (ItemDb.items (base s') !! item = Some x). by rewrite (wk_items _ _ _ _ Hw), Hits.
  - exact Ht'.
  - eapply known_work; [exact Hw|]. unfold known, user_or_null, user_parent in *. cbn in *. by rewrite Hus.
  - unfold reservation_of in *. cbn in *. by rewrite Hrs, Hacc.
Qed.

Lemma create_item_open p s u s' id v : sound (tables s) -> TrimSpace (ItemOps.C_ID p) = ItemOps.C_ID p -> ItemOps.C_ID p <> ""%string ->
  ItemOps.C_WorkspaceID p <> 0 -> is_Some (ItemDb.a_usages (ItemDb.acc (base s)) !! ItemOps.C_WorkspaceID p) ->
  (ItemOps.C_WorkspaceID p, ItemOps.C_UserID p) ∈ ItemDb.members (base s) ->
  reservation_of id (ItemOps.C_WorkspaceID p) (ItemDb.qview (tables s)) = Some v ->
  on_tables (ItemOps.CreateItem p) s = Ok (u, s') ->
  open_item (ItemOps.C_WorkspaceID p) (ItemOps.C_ID p) (ItemOps.C_UserID p) id v 0 s' /\
  GetItemDurableDatabaseBytes (ItemOps.C_WorkspaceID p) (ItemOps.C_ID p) (tables s') = ItemDb.manifest_bytes (ItemOps.created_item p).
Proof.
  intros Hs Htrim Hname Hws Hu Hmem Hr (t & H & ->)%on_tables_Ok. set (ws := ItemOps.C_WorkspaceID p) in *. set (item := ItemOps.C_ID p) in *.
  unfold ItemOps.CreateItem in H. destruct (negb _); [done|]. fold item in H. destruct (ItemDb.items (tables s) !! item) eqn:Hfresh; [done|].
  injection H as _ <-. set (x := ItemOps.created_item p) in *. pose proof (unsettled ws _ Hs) as Hn. pose proof (n_related _ _ _ _ Hn) as Hrel.
  destruct (member_rows _ _ _ Hrel Hmem) as [Htn Hus].
  apply (new_item_near item x (tables s) Hfresh None ws) in Hn; [| |done..].
  2:{ unfold ok_item, workspace_parent, user_parent. cbn. by rewrite !bool_decide_true. }
  assert (Hx : ItemDb.items (ItemDb.set_items (<[item := x]> (ItemDb.items (tables s))) (tables s)) !! item = Some x) by (cbn; by rewrite lookup_insert_eq).
  assert (Hb : GetItemDurableDatabaseBytes ws item (ItemDb.set_items (<[item := x]> (ItemDb.items (tables s))) (tables s)) = ItemDb.manifest_bytes x).
  { rewrite (item_bytes _ ws (n_related _ _ _ _ Hn) (n_truth _ _ _ _ Hn) item x Hx eq_refl).
    rewrite (gone_ext _ (fun _ => false)).
    - unfold gone_bytes, when, some_is. rewrite !wsum_zero; [lia|..]; intros; try done. by destruct (ItemDb.u_item_image_id _).
    - intros i. unfold target. cbn. destruct (ItemDb.images (base s) !! i) as [g|] eqn:Hg; [|done].
      rewrite (bool_decide_false (ItemDb.g_item_id g = item)), andb_false_r; [done|]. intros E.
      pose proof (rel_images _ Hrel i g Hg) as Hok. unfold ok_image in Hok. apply item_parent_true in Hok as (y & Hy & _). congruence. }
  rewrite with_base_tables by done. split; [|exact Hb]. split.
  - rewrite with_base_tables by done. eapply owes_same; [|exact Hn].
    match goal with |- context [GetItemDurableDatabaseBytes ws item ?z] => change z with (ItemDb.set_items (<[item := x]> (ItemDb.items (tables s))) (tables s)) end.
    rewrite Hb. unfold amount, amount_sub, no_request. cbn. f_equal; lia.
  - rewrite with_base_tables by done. apply item_parent_true. by exists x.
  - done.
  - unfold known, user_or_null, user_parent. cbn. by apply bool_decide_eq_true.
  - by rewrite with_base_tables.
Qed.

Lemma open_reads ws item user id v k s s' : reads s s' -> open_item ws item user id v k s -> open_item ws item user id v k s'.
Proof.
  intros [Ht _] []. split; rewrite ?Ht; try done; [|unfold known in *; by rewrite Ht].
  change (ItemDb.acc (base s')) with (ItemDb.acc (tables s')). by rewrite Ht.
Qed.

Lemma close_item ws item user R v k s bytes l u s' : open_item ws item user (R_ID R) v k s -> R_WorkspaceID R = ws ->
  bytes = GetItemDurableDatabaseBytes ws item (tables s) ->
  on_quota (retireSingleFileIngestReservation R v {| Quota.Bytes := 0; Quota.DurableBytes := bytes; Quota.Items := 1; Quota.Images := k |} l) s = Ok (u, s') ->
  sound (tables s').
Proof.
  intros [Hn _ _ _ Hr] HR Hb (t & Ht & ->)%on_tables_Ok.
  pose proof Ht as (q & _ & E)%quota_Ok. rewrite with_base_tables by (by rewrite E).
  eapply (settled ws); [eapply retire_near; [exact Hn|exact HR|exact Hr|exact Ht]|].
  rewrite Hb. unfold amount, amount_add, with_Bytes, no_request. cbn. f_equal; lia.
Qed.

Lemma item_read id : reading (on_tables (ItemOps.GetItem id)).
Proof. apply read_tables. by intros t a t' [_ ->]%one_of_Ok. Qed.
Lemma image_read img : reading (on_tables (ItemDb.one_of (fun s => ItemDb.images s !! img))).
Proof. apply read_tables. by intros t a t' [_ ->]%one_of_Ok. Qed.
Lemma page_read ws img : reading (GetAnnotationPage ws img).
Proof. intros s p s' (-> & _ & _)%get_page_Ok. reflexivity. Qed.

(** The reservation an ingest locks. *)
Lemma lock_reservation_Ok now id ws url bytes s v s' :
  on_quota (ResourceCleanup.lockSingleFileIngestReservation now id ws url bytes) s = Ok (v, s') ->
  reservation_of id ws (ItemDb.qview (tables s)) = Some v /\ reads s s' /\ v_resource_key v = ImmutableNameFromURL url.
Proof.
  intros H. assert (Hq : forall q v q', ResourceCleanup.lockSingleFileIngestReservation now id ws url bytes q = Ok (v, q') ->
    reservation_of id ws q = Some v /\ q' = q /\ v_resource_key v = ImmutableNameFromURL url).
  { intros q w q' Hq. unfold ResourceCleanup.lockSingleFileIngestReservation in Hq. tx_bind Hq as r q1 H1. apply one_row_Ok in H1 as [H1 ->].
    assert (Hr : reservation_of id ws q = Some r) by (destruct (reservation_of id ws q); [|done]; by destruct (now <? _)).
    destruct (_ || _); [done|]. destruct (ImmutableNameFromURL url) as [name|].
    - case_bool_decide as Hk; [|done]. tx_bind Hq as c q1 H2. apply one_row_Ok in H2 as [_ ->].
      destruct (negb _ || _); [done|]. destruct (bool_decide _); [done|]. by injection Hq as <- <-.
    - destruct (NameFromURL url); [done|]. case_bool_decide as Hk; [done|]. injection Hq as <- <-. split_and!; [done|done|].
      destruct (v_resource_key r); [|done]. destruct Hk. by eexists. }
  split; [|split; [eapply quota_reads; [|exact H]; intros q w q' (_ & -> & _)%Hq; done|]];
    apply on_tables_Ok in H as (t & (q & H & _)%quota_Ok & _); by apply Hq in H as (? & _ & ?).
Qed.

(** ** The two ingests *)

(** What [open_ingest] leaves: the item alone. *)
Record opens (item : ItemOps.CreateItemParams) (id : string) (v : reservation_row) (s s' : pdb) : Prop := {
  on_open : open_item (ItemOps.C_WorkspaceID item) (ItemOps.C_ID item) (ItemOps.C_UserID item) id v 0 s';
  on_bytes : GetItemDurableDatabaseBytes (ItemOps.C_WorkspaceID item) (ItemOps.C_ID item) (tables s') = ItemDb.manifest_bytes (ItemOps.created_item item);
  on_free : ItemDb.items (base s) !! ItemOps.C_ID item = None;
  on_item : ItemDb.items (base s') = <[ItemOps.C_ID item := ItemOps.created_item item]> (ItemDb.items (base s));
  on_rest : ItemDb.images (base s') = ItemDb.images (base s) /\ ItemDb.queue (base s') = ItemDb.queue (base s) /\ con s' = con s /\
    ItemDb.contexts (base s') = ItemDb.contexts (base s);
}.

Lemma open_ingest_Ok item lock id (P : reservation_row -> Prop) s v s' : sound (tables s) -> TrimSpace (ItemOps.C_ID item) = ItemOps.C_ID item -> ItemOps.C_ID item <> ""%string ->
  (forall t w t', tables t = tables s -> lock t = Ok (w, t') -> reservation_of id (ItemOps.C_WorkspaceID item) (ItemDb.qview (tables t)) = Some w /\ reads t t' /\ P w) ->
  open_ingest item lock s = Ok (v, s') -> opens item id v s s' /\ P v.
Proof.
  intros Hs Hid Hname Hl H. unfold open_ingest in H. set (ws := ItemOps.C_WorkspaceID item) in *.
  tx_bind H as u0 s1 H1. apply guard_reads in H1 as (Hws & Hu & Hr1).
  tx_bind H as u1 s2 H2. pose proof (member_reads _ _ _ _ _ H2) as Hr2. apply on_tables_Ok in H2 as (t2 & H2 & _). apply one_of_Ok in H2 as [Hmem _].
  case_bool_decide as Hin; [|done]. tx_bind H as locked s3 H3. apply Hl in H3 as (Hlock & Hr3 & HP); [|by rewrite (rd_tables _ _ Hr2), (rd_tables _ _ Hr1)].
  assert (Hr : reads s s3) by (etrans; [exact Hr1|by etrans]). assert (E3 : tables s3 = tables s) by apply (rd_tables _ _ Hr).
  rewrite <- (rd_tables _ _ Hr3) in Hlock. rewrite (rd_tables _ _ Hr1), <- E3 in Hin.
  change (ItemDb.acc (base s)) with (ItemDb.acc (tables s)) in Hu. rewrite <- E3 in Hu, Hs.
  tx_bind H as u3 s4 H4. injection H as <- <-. pose proof H4 as H5.
  eapply create_item_open in H4 as [Ho Hb]; [|exact Hs|exact Hid|exact Hname|exact Hws|exact Hu|exact Hin|exact Hlock].
  apply on_tables_Ok in H5 as (t & H5 & ->). unfold ItemOps.CreateItem in H5. destruct (negb _); [done|].
  destruct (ItemDb.items (tables s3) !! ItemOps.C_ID item) eqn:Hfree; [done|]. injection H5 as _ <-. rewrite E3 in Hfree.
  split; [|exact HP]. split; [exact Ho|exact Hb|exact Hfree|by cbn; rewrite (f_equal ItemDb.items E3 : ItemDb.items (base s3) = ItemDb.items (base s))|].
  split_and!; [exact (f_equal ItemDb.images E3)|exact (f_equal ItemDb.queue E3)|apply (rd_con _ _ Hr)|exact (f_equal ItemDb.contexts E3)].
Qed.

(** Identifiers are generated, a single file has no manifest, and pages name nobody but the user. *)
Record single_ok (c : SingleFileIngestCommit) : Prop := {
  so_id : TrimSpace (ItemOps.C_ID (Item c)) = ItemOps.C_ID (Item c);
  so_manifest : ItemOps.C_SourceManifest (Item c) = ""%string;
  so_pages : attributes (BuildPage c) (ItemOps.C_UserID (Item c));
}.

Lemma single_ingest_sound c s r s' : single_ok c -> ItemOps.C_ID (Item c) <> ""%string -> R_WorkspaceID (Reservation c) = ItemOps.C_WorkspaceID (Item c) ->
  sound (tables s) -> single_file_ingest e config c s = Ok (r, s') -> sound (tables s').
Proof.
  intros [Hid Hman Hpages] Hname HR Hs H. unfold single_file_ingest in H. set (ws := ItemOps.C_WorkspaceID (Item c)) in *. set (item := ItemOps.C_ID (Item c)) in *.
  tx_bind H as locked s4 H4. eapply open_ingest_Ok in H4 as [[Ho Hb _ _ _] _]; [|exact Hs|exact Hid|exact Hname|intros t w t' _; apply lock_reservation_Ok].
  fold ws item in Ho, Hb. tx_bind H as [img job] s5 H5.
  pose proof Ho as [Hn Hi Ht Hk _]. pose proof (install_single_Ok _ c s4 _ s5 Hn Hi Ht Hpages Hk H5) as Hinst. cbn in Hinst. fold ws item in Hinst.
  tx_bind H as u5 s6 H6. apply (request_work _ _ _ _ _ _ ws img) in H6. apply (installed_more _ _ _ _ _ _ _ Hinst) in H6.
  pose proof (installed_open _ _ _ _ _ _ _ _ _ Ho H6) as Ho6.
  assert (Hsize : GetItemDurableDatabaseBytes ws item (tables s6) = image_size ws img (tables s6)).
  { destruct H6 as [(s0 & Hp & Hpd & Hw)]. rewrite (item_grows ws item img s4 s0 s6 _ Hp Hpd Hw (n_related _ _ _ _ Hn) (n_truth _ _ _ _ Hn) Hi), Hb.
    unfold ItemDb.manifest_bytes, ItemOps.created_item. cbn. rewrite Hman. done. }
  tx_bind H as row s7 H7. apply item_read in H7. tx_bind H as irow s8 H8. apply image_read in H8. tx_bind H as stored s9 H9. apply page_read in H9.
  tx_bind H as bytes s10 H10. apply measured in H10 as (Hbytes & _ & H10). tx_bind H as u10 s11 H11. injection H as _ <-.
  assert (Hr9 : reads s6 s9) by (etrans; [exact H7|by etrans]). assert (Hr10 : reads s6 s10) by (by etrans).
  eapply (close_item ws item _ (Reservation c) locked 1); [eapply open_reads; [exact Hr10|exact Ho6]|exact HR| |exact H11].
  by rewrite Hbytes, (rd_tables _ _ Hr9), (rd_tables _ _ Hr10).
Qed.

Record manifest_ok (c : ManifestIngestCommit) : Prop := {
  mo_id : TrimSpace (ItemOps.C_ID (M_Item c)) = ItemOps.C_ID (M_Item c);
  mo_pages : Forall (fun x => attributes (CanvasBuildPage x) (ItemOps.C_UserID (M_Item c))) (M_Canvases c);
}.

Lemma install_canvases_open item publicBaseURL context id v l k s jobs s' :
  Forall (fun x => attributes (CanvasBuildPage x) (ItemOps.C_UserID item)) l ->
  open_item (ItemOps.C_WorkspaceID item) (ItemOps.C_ID item) (ItemOps.C_UserID item) id v k s ->
  install_canvases e config item publicBaseURL context l s = Ok (jobs, s') ->
  open_item (ItemOps.C_WorkspaceID item) (ItemOps.C_ID item) (ItemOps.C_UserID item) id v (k + Z.of_nat (length l)) s'.
Proof.
  intros Hl. revert k s jobs. induction Hl as [|c l Hc _ IH]; intros k s jobs Ho H; cbn [install_canvases] in H.
  { injection H as _ <-. by rewrite Z.add_0_r. }
  tx_bind H as [img j] s1 H1. pose proof Ho as [Hn Hi Ht Hk _]. apply (install_canvas_Ok _ _ _ _ _ _ _ _ Hn Hi Ht Hc Hk) in H1.
  apply (installed_open _ _ _ _ _ _ _ _ _ Ho) in H1. tx_bind H as rest s2 H2. injection H as _ <-.
  cbn [length]. replace (k + Z.of_nat (S (length l))) with (k + 1 + Z.of_nat (length l)) by lia. by eapply IH.
Qed.

Lemma request_open external w g it j se ws item user id v k s u s' : complete_request e external w g it j se s = Ok (u, s') ->
  open_item ws item user id v k s -> open_item ws item user id v k s'.
Proof.
  unfold complete_request. destruct external as [x|]; [|by intros [= _ <-]]. intros (m & -> & Hm)%complete_links [Hn Hi Ht Hk Hr].
  split; [|exact Hi|exact Ht|exact Hk|exact Hr]. apply requests_near; [by apply Hm, (n_related _ _ _ _ Hn)|exact Hn].
Qed.

Lemma lock_manifest_Ok c s v s' : lock_manifest_reservation e c s = Ok (v, s') ->
  reservation_of (R_ID (M_Reservation c)) (ItemOps.C_WorkspaceID (M_Item c)) (ItemDb.qview (tables s)) = Some v /\ reads s s' /\ v_resource_key v = None.
Proof.
  unfold lock_manifest_reservation. intros H. tx_bind H as w s1 H1. destruct (_ || _) eqn:Hk; [done|]. injection H as <- <-.
  split; [|split; [eapply quota_reads; [|exact H1]; by intros q x q' [_ ->]%one_row_Ok|]].
  2:{ apply orb_false_iff in Hk as [_ Hk]. apply bool_decide_eq_false in Hk. destruct (v_resource_key w); [|done]. destruct Hk. by eexists. } apply on_tables_Ok in H1 as (t & H1 & _). by apply LockLive_Ok in H1 as [H1 _].
Qed.
Lemma manifest_ingest_sound c s r s' : manifest_ok c -> ItemOps.C_ID (M_Item c) <> ""%string ->
  R_WorkspaceID (M_Reservation c) = ItemOps.C_WorkspaceID (M_Item c) ->
  sound (tables s) -> manifest_ingest e config c s = Ok (r, s') -> sound (tables s').
Proof.
  intros [Hid Hpages] Hname HR Hs H. unfold manifest_ingest in H. set (ws := ItemOps.C_WorkspaceID (M_Item c)) in *. set (item := ItemOps.C_ID (M_Item c)) in *.
  tx_bind H as v s5 H5. eapply open_ingest_Ok in H5 as [[Ho _ _ _ _] _]; [|exact Hs|exact Hid|exact Hname|intros t w t' _; apply lock_manifest_Ok].
  fold ws item in Ho. tx_bind H as context s6 H6. assert (Hr6 : reads s5 s6).
  { destruct (M_TranscriptionContext c); [|by injection H6 as _ <-]. tx_bind H6 as x s7 H7. apply context_reads in H7. by injection H6 as _ <-. }
  apply (open_reads _ _ _ _ _ _ _ _ Hr6) in Ho. tx_bind H as jobs s7 H7. eapply install_canvases_open in H7; [|exact Hpages|exact Ho].
  tx_bind H as u8 s8 H8. apply (request_open _ _ _ _ _ _ _ _ _ _ _ _ _ _ _ H8) in H7. fold ws item in H7.
  tx_bind H as row s9 H9. apply item_read in H9. tx_bind H as rows s10 H10. assert (Hr10 : reads s9 s10).
  { revert H10. apply read_tables. by intros t a t' [= _ <-]. }
  tx_bind H as bytes s11 H11. assert (Hm : bytes = GetItemDurableDatabaseBytes ws item (tables s10) /\ reads s10 s11).
  { split; [|revert H11; apply read_tables; by intros t a t' [_ ->]%measure_Ok]. apply on_tables_Ok in H11 as (t & H11 & _). by apply measure_Ok in H11 as [-> _]. }
  destruct Hm as [Hbytes Hr11]. tx_bind H as u12 s12 H12. injection H as _ <-.
  assert (Hr9 : reads s8 s10) by (by etrans). assert (Hra : reads s8 s11) by (by etrans).
  eapply (close_item ws item _ (M_Reservation c) v); [eapply open_reads; [exact Hra|exact H7]|exact HR| |exact H12].
  by rewrite Hbytes, (rd_tables _ _ Hr9), (rd_tables _ _ Hra).
Qed.
End install.
End IngestBooks.
