(* ===== verification/IngestTheorems.v ===== *)
(** * The books of the whole library, and what an ingest leaves

    Module [LibraryHistory]: the calls of the page store and of the ingests interleaved with the items and
    uploads; [LibraryTheorems]: after any such history the accounts count what is stored and the audit finds nothing;
    [IngestOutcomes]: what a committed ingest leaves; [IngestExamples]: both at one image and its page. *)

From Stdlib Require Import ZArith Lia Ascii String.
From stdpp Require Import base gmap strings list sorting relations.
From S2P Require Import Prelude GoStrings Json JobSchema JobStore JobInvariant JobRefine JobAdmission MediaFragment Presentation PageTheorems Quota QuotaStore QuotaOps ResourceCleanup QuotaInvariant QuotaSteps Requests RequestTheorems Resources Mirrors ItemDb ItemOps UploadBatches UploadOps ItemAudit ItemPurge ItemSound ItemSteps UploadSteps ItemKeeps UploadKeeps UploadTheorems UploadOutcomes PageIndex PageDb PageStore PageSteps IngestStore PageHistory AnnotationTheorems PageKeeps PageBooks IngestBooks.

Module LibraryHistory.
Import GoStr Json JobStore MediaFragment Presentation Resources ItemAudit ItemPurge ItemMeasure ItemSound PageIndex PageDb PageStore PageSteps PageSound PageKeeps PageBooks IngestStore IngestSteps IngestBooks.
#[local] Open Scope Z_scope.

(** ** The provider calls, which these transactions leave alone *)

Definition same_calls (s s' : pdb) : Prop :=
  ItemDb.provider_audits (ItemDb.kids (base s')) = ItemDb.provider_audits (ItemDb.kids (base s)).
#[export] Instance same_calls_refl : Reflexive same_calls.
Proof. by intros s. Qed.
#[export] Instance same_calls_trans : Transitive same_calls.
Proof. unfold same_calls. intros s t u ??. congruence. Qed.
Lemma unsigned_same s s' : same_calls s s' -> unsigned_audits s -> unsigned_audits s'.
Proof. unfold same_calls, unsigned_audits. by intros ->. Qed.

Section calls.
Context {A : Type}.
Lemma calls_tables (m : ItemDb.itx A) : (forall s a s', m s = Ok (a, s') -> ItemDb.kids s' = ItemDb.kids s) -> keeps same_calls (on_tables m).
Proof.
  intros Hm s a s'. unfold on_tables. destruct (m (tables s)) as [[b t]|x] eqn:E; [|done]. intros [= <- <-].
  apply Hm in E. unfold same_calls. cbn. by rewrite E.
Qed.
Lemma calls_quota (m : QuotaStore.qtx A) : keeps same_calls (on_quota m).
Proof. apply calls_tables. by intros s a s' (q & _ & ->)%quota_Ok. Qed.
Lemma calls_jobs e (m : Jobs.stx A) : keeps same_calls (on_jobs e m).
Proof. intros s a s'. unfold on_jobs. destruct (m (queue_view s)) as [[b d]|]; [|done]. by intros [= _ <-]. Qed.
Lemma calls_content (m : ptx A) : keeps content_only m -> keeps same_calls m.
Proof. apply keeps_weaken. intros s s' [H _]. unfold same_calls. by rewrite H. Qed.
Lemma calls_reads (m : ItemDb.itx A) : (forall s a s', m s = Ok (a, s') -> s' = s) -> keeps same_calls (on_tables m).
Proof. intros Hm. apply calls_tables. by intros s a s' ->%Hm. Qed.
End calls.
Lemma calls_member ws user : keeps same_calls (LockWorkspaceMemberRole ws user).
Proof. apply calls_reads. intros s a s' H. unfold ItemOps.LockWorkspaceMemberRole in H. by apply ItemKeeps.one_of_Ok in H as [_ ->]. Qed.
Lemma calls_measure ws img : keeps same_calls (itemImageDurableDatabaseBytes ws img).
Proof. apply calls_reads. by intros s a s' [_ ->]%ItemKeeps.measure_Ok. Qed.
#[local] Hint Resolve calls_quota calls_jobs calls_member calls_measure mirrors_content requests_content insert_current_content write_metric_content : keeps.
#[local] Hint Extern 5 (keeps same_calls _) => apply calls_content; eauto with keeps : keeps.

Section transactions.
Context {SC : Schema} {AS : AnnotationSchema} {UP : UrlParser} {UPr : UrlPrinter} {SH : Sha256} {FT : FloatText}.
Context (e : env) (config : store_config).

Lemma calls_account ws img b q : keeps same_calls (account ws img b q).
Proof. unfold account. solve_keeps. Qed.
Lemma calls_emit ws id type subject body : keeps same_calls (emit e ws id type subject body).
Proof. unfold emit. solve_keeps. Qed.
Hint Resolve calls_account calls_emit : keeps.

Lemma calls_write_page page expected row : keeps same_calls (write_page page expected row).
Proof.
  unfold write_page. destruct (expected =? 0).
  - intros s a s'. destruct (CreateAnnotationPage _ _ _ s) as [[[] t]|] eqn:E; [|by destruct (GetAnnotationPage _ _ _)].
    apply create_page_Ok in E as (_ & _ & ->). by intros [= _ <-].
  - solve_keeps. intros s a s' H. unfold UpdateAnnotationPageCAS in H. repeat case_match; try done; by injection H as _ <-.
Qed.
Lemma calls_index ws img entries : keeps same_calls (ReplaceAnnotationIndex ws img entries).
Proof. intros s [] s' H. by apply replace_indexed in H as (m & -> & _). Qed.
Lemma calls_missing {A} x f : keeps same_calls (fun s => match ptx_of (A := A) NoRows f s with Err _ => Err x | r => r end).
Proof. intros s a s'. unfold ptx_of. destruct (f s); [|done]. by intros [= _ <-]. Qed.
Hint Resolve calls_write_page calls_index : keeps.
Lemma calls_save page entries expected attempt options : keeps same_calls (save_tx e config page entries expected attempt options).
Proof.
  unfold save_tx, lock_page, lock_reprocess, lock_fence, commitAnnotationReprocess, commit_completion, GetAnnotationPage, AnnotationPageResourceExists.
  solve_keeps. apply keeps_missing; apply _.
Qed.
Lemma calls_publication k row : keeps same_calls (write_publication k row).
Proof. intros s a s'. unfold write_publication. destruct (publication_free _ _ _); [|done]. by intros [= _ <-]. Qed.
Hint Resolve calls_publication : keeps.
Lemma calls_publish ws img options : keeps same_calls (publish_tx e config ws img options).
Proof.
  unfold publish_tx, lock_publication, write_snapshot, publish_event, GetItemForWorkspace. solve_keeps; apply keeps_missing; apply _.
Qed.
Lemma calls_create_run run ws img : keeps same_calls (create_run_tx config run img ws).
Proof. unfold create_run_tx, LockItemImageForUseManual. solve_keeps. Qed.
Lemma calls_mark ws img revision snapshot marked : keeps same_calls (mark_tx config ws img revision snapshot marked).
Proof.
  unfold mark_tx, write_ground_truth. solve_keeps; try (apply keeps_missing; apply _); try apply calls_missing; by intros ? ? ? [= _ <-].
Qed.

Lemma calls_create_page ws img page w h : keeps same_calls (create_page ws img page w h).
Proof. intros s u s' (entries & row & m & _ & _ & _ & _ & ->)%create_page_prepared. done. Qed.
Lemma calls_image params : keeps same_calls (on_tables (ItemOps.CreateItemImage params)).
Proof. apply calls_tables. intros s a s' H. unfold ItemOps.CreateItemImage in H. repeat case_match; try done; by injection H as _ <-. Qed.
Lemma calls_item params : keeps same_calls (on_tables (ItemOps.CreateItem params)).
Proof. apply calls_tables. intros s a s' H. unfold ItemOps.CreateItem in H. repeat case_match; try done; by injection H as _ <-. Qed.
Lemma calls_canvas img uri : keeps same_calls (on_tables (ItemOps.UpdateItemImageCanvasURI img uri)).
Proof. apply calls_tables. by intros s a s' [= _ <-]. Qed.
Lemma calls_context context ws : keeps same_calls (lock_context context ws).
Proof. intros s a s' [Ht _]%context_reads. exact (f_equal (fun t => ItemDb.provider_audits (ItemDb.kids t)) Ht). Qed.
Lemma calls_row {A} (f : ItemDb.idb -> option A) : keeps same_calls (on_tables (ItemDb.one_of f)).
Proof. apply calls_reads. by intros s a s' [_ ->]%ItemKeeps.one_of_Ok. Qed.
Lemma calls_list {A} (f : ItemDb.idb -> A) : keeps same_calls (on_tables (tx_reads f)).
Proof. apply calls_reads. by intros s a s' [= _ <-]. Qed.
Lemma calls_item_bytes ws id : keeps same_calls (on_tables (ItemGraph.itemDurableDatabaseBytes ws id)).
Proof. apply calls_reads. by intros s a s' [_ ->]%ItemKeeps.measure_Ok. Qed.
Hint Resolve calls_list calls_item_bytes calls_create_page calls_image calls_item calls_canvas calls_context calls_row : keeps.
Lemma calls_single c : keeps same_calls (single_file_ingest e config c).
Proof.
  unfold single_file_ingest, open_ingest, install_single, build, set_canvas, enqueue_single, admit_job, complete_request, GetAnnotationPage. solve_keeps.
Qed.
Lemma calls_canvases item publicBaseURL context l : keeps same_calls (install_canvases e config item publicBaseURL context l).
Proof.
  induction l as [|c l IH]; cbn [install_canvases]; [apply along_ret; apply _|].
  unfold install_canvas, build, set_canvas, enqueue_canvas, admit_job. solve_keeps.
Qed.
Hint Resolve calls_canvases : keeps.
Lemma calls_manifest c : keeps same_calls (manifest_ingest e config c).
Proof.
  unfold manifest_ingest, open_ingest, lock_manifest_reservation, complete_request. solve_keeps.
Qed.
End transactions.

(** ** Histories *)

Section history.
Context {SC : Schema} {AS : AnnotationSchema} {UP : UrlParser} {UPr : UrlPrinter} {SH : Sha256} {FT : FloatText}.

(** One call, whatever it returns: of the page store, an ingest, or a move of the item and upload stores and of the other
    components on their own tables ([UploadHistory.move]).  The costs of provider calls are unsigned columns. *)
Inductive lmove (s : pdb) : pdb -> Prop :=
| lm_save e config page expected m : lmove s (SavePageWithCorrectionMetric e config page expected m s).2
| lm_complete e config page expected c : lmove s (SavePageAndCompleteTranscriptionJob e config page expected c s).2
| lm_reprocess e config page expected c : lmove s (SavePageAndStartReprocessing e config page expected c s).2
| lm_publish e config ws img options : lmove s (PublishPage e config ws img options s).2
| lm_run config run : lmove s (Create config run s).2
| lm_truth config ws img revision snapshot marked : lmove s (MarkGroundTruth config ws img revision snapshot marked s).2
| lm_ingest e config c : single_ok c -> lmove s (CommitSingleFileIngest e config c s).2
| lm_manifest e config c : manifest_ok c -> lmove s (CommitManifestIngest e config c s).2
| lm_items s' : UploadHistory.move (tables s) (tables s') -> unsigned_audits s' -> lmove s s'.

Record books (s : pdb) : Prop := { bk_sound : sound (tables s); bk_calls : unsigned_audits s }.

Lemma run_books {A} (m : ptx A) s : keeps same_calls m -> (forall a s', m s = Ok (a, s') -> sound (tables s')) -> books s -> books (run_tx m s).2.
Proof.
  intros Hc Hm Hb. unfold run_tx. destruct (m s) as [[a s']|x] eqn:E; [|done]. split; [by eapply Hm|].
  eapply unsigned_same; [by eapply Hc|apply Hb].
Qed.

Lemma savePage_books e config page expected options s :
  (forall c, reprocess options = Some c -> O_ItemImageID (BaselineRun c) = Some (ItemImage page)) ->
  books s -> books (savePage e config page expected options s).2.
Proof.
  intros Hr Hb. unfold savePage. destruct (check_page page) as [entries|]; [|done].
  destruct (match save_fence options with Some _ => _ | None => _ end) as [a|]; [|done].
  apply run_books; [apply calls_save| |done]. intros r s' H. destruct Hb. by eapply save_tx_sound in H.
Qed.

Lemma identified item : item_identified item = true -> ItemOps.C_ID item <> ""%string.
Proof. unfold item_identified, blank. intros H E. rewrite E in H. done. Qed.
Lemma matching r item : reservation_matches r item = true -> Quota.R_WorkspaceID r = ItemOps.C_WorkspaceID item.
Proof. unfold reservation_matches. intros [_ H%Z.eqb_eq]%andb_true_iff. done. Qed.

Lemma single_valid c : validateSingleFileIngestCommit c = Ok tt ->
  ItemOps.C_ID (Item c) <> ""%string /\ Quota.R_WorkspaceID (Reservation c) = ItemOps.C_WorkspaceID (Item c).
Proof.
  unfold validateSingleFileIngestCommit. intros H. apply result_bind_Ok in H as ([] & H1%guard_ok_Ok%identified & H).
  do 4 (apply result_bind_Ok in H as ([] & _ & H)). apply result_bind_Ok in H as ([] & H2%guard_ok_Ok%matching & _). done.
Qed.
Lemma manifest_valid c : validateManifestIngestCommit c = Ok tt ->
  ItemOps.C_ID (M_Item c) <> ""%string /\ Quota.R_WorkspaceID (M_Reservation c) = ItemOps.C_WorkspaceID (M_Item c).
Proof.
  unfold validateManifestIngestCommit. intros H. apply result_bind_Ok in H as ([] & H1%guard_ok_Ok%identified & H).
  apply result_bind_Ok in H as ([] & _ & H). apply result_bind_Ok in H as ([] & H2%guard_ok_Ok%matching & _). done.
Qed.

Lemma lmove_books s s' : lmove s s' -> books s -> books s'.
Proof.
  intros [] Hb; try (pose proof Hb as [Hs Hu]).
  - by apply savePage_books.
  - unfold SavePageAndCompleteTranscriptionJob. destruct (validateTranscriptionFence _); [|done]. destruct (negb _); [done|].
    destruct (match CompletionRun c with Some _ => _ | None => _ end); [done|]. by apply savePage_books.
  - unfold SavePageAndStartReprocessing. destruct (expected =? 0); [done|].
    destruct (validateAnnotationReprocessCommit page c) eqn:Hv; [|done]. apply savePage_books; [|done]. intros c' [= <-].
    unfold validateAnnotationReprocessCommit in Hv. split_bools. done.
  - unfold PublishPage. destruct (_ || _); [done|]. apply run_books; [apply calls_publish| |done]. intros r t' Hr'. by eapply publish_tx_sound in Hr'.
  - unfold Create. destruct (O_ItemImageID run) as [img|] eqn:Hrun; [|done]. destruct (img =? 0); [done|].
    destruct (_ ≫= _) as [t|]; [|done]. apply run_books; [apply calls_create_run| |done]. intros r t' Hr'. by eapply create_run_sound in Hr'.
  - apply run_books; [apply calls_mark| |done]. intros r t' Hr'. by eapply mark_sound in Hr'.
  - unfold CommitSingleFileIngest. destruct (validateSingleFileIngestCommit c) as [[]|] eqn:Hv; [|done]. apply single_valid in Hv as [Hid Hr].
    apply run_books; [apply calls_single| |done]. intros r t' Hr'. by eapply single_ingest_sound in Hr'.
  - unfold CommitManifestIngest. destruct (validateManifestIngestCommit c) as [[]|] eqn:Hv; [|done]. apply manifest_valid in Hv as [Hid Hr].
    apply run_books; [apply calls_manifest| |done]. intros r t' Hr'. by eapply manifest_ingest_sound in Hr'.
  - split; [|done]. by eapply UploadHistory.move_sound.
Qed.
Lemma history_books s s' : rtc lmove s s' -> books s -> books s'.
Proof. intros Hr. induction Hr as [|s t u Hm _ IH]; [done|]. intros Hb. by eapply IH, lmove_books. Qed.
End history.
End LibraryHistory.

Module LibraryTheorems.
Import GoStr Json JobStore MediaFragment Presentation Resources Quota QuotaStore ItemAudit ItemPurge ItemSound PageIndex PageDb PageStore QuotaInvariant LibraryHistory.
#[local] Open Scope Z_scope.

Section theorems.
Context {SC : Schema} {AS : AnnotationSchema} {UP : UrlParser} {UPr : UrlPrinter} {SH : Sha256} {FT : FloatText}.

(** C4: After any history of ingests, saves, publications, runs, marks of ground truth, and operations on items and uploads, the
    usage row of each workspace counts exactly the items, images and database bytes that are stored for it, as the rebuild would
    measure them, and the relationship audit, which stands for the foreign keys the database does not have, finds nothing. *)
Theorem library_keeps_the_books s s' : sound (tables s) -> PageKeeps.unsigned_audits s -> rtc lmove s s' ->
  ItemAudit.AuditRelationshipIntegrity (tables s') = Ok [] /\
  forall w u, w <> 0 -> ItemDb.a_usages (ItemDb.acc (base s')) !! w = Some u ->
    Quota.Items (used u) = Quota.Items (used (measured (ItemDb.qview (tables s')) w)) /\
    Images (used u) = Images (used (measured (ItemDb.qview (tables s')) w)) /\
    DurableBytes (used u) = DurableBytes (used (measured (ItemDb.qview (tables s')) w)).
Proof.
  intros Hs Hu Hr. destruct (history_books _ _ Hr) as [Hs' _]; [by split|]. split; [by apply audit_silent, (n_related _ _ _ _ Hs')|].
  intros w u Hw. by apply (UploadTheorems.UploadTheorems.sound_counts (tables s')).
Qed.
End theorems.
End LibraryTheorems.

(** * What an ingest leaves

    Module [IngestOutcomes]: an ingest that succeeds leaves every image with its canonical page at revision one, the
    index of that page, its baseline run and its job; the request is answered and the reservation is gone. *)

Module IngestOutcomes.
Import GoStr Json JobStore JobRefine JobAdmission MediaFragment Presentation Resources ItemAudit ItemPurge ItemSound PageIndex PageDb PageStore PageSteps PageInvariant PageSound PageKeeps PageBooks IngestStore IngestSteps IngestBooks LibraryHistory.
#[local] Open Scope Z_scope.

Abbreviation jobs_of s := (ItemDb.q_jobs (ItemDb.queue (base s))).

Section store.
Context {SC : Schema} {AS : AnnotationSchema} {UP : UrlParser} {UPr : UrlPrinter} {SH : Sha256} {FT : FloatText}.
Context (e : env) (config : store_config).

(** ** What an image is left with *)

Record ingested (ws : Z) (item publicBaseURL : string) (params : ItemOps.CreateItemImageParams) (factory : option page_factory)
    (run : option OCRRun) (img : Z) (uri : string) (s : pdb) : Prop := {
  ig_canvas : canvas_uri (ItemOps.G_CanvasURI params) publicBaseURL img = Ok uri;
  ig_image : exists g, ItemDb.images (base s) !! img = Some g /\ ItemDb.g_workspace_id g = ws /\ ItemDb.g_item_id g = item /\
    ItemDb.g_image_url g = ItemOps.G_ImageURL params /\ ItemDb.g_storage_bytes g = ItemOps.G_StorageBytes params /\
    ItemDb.g_canvas_uri g = ItemOps.db_nullableString (if blank (ItemOps.G_CanvasURI params) then uri else ItemOps.G_CanvasURI params);
  ig_page : exists f page entries row, factory = Some f /\ f img uri = Some page /\
    prepared (page_of_image ws img uri page) (ItemOps.G_Width params) (ItemOps.G_Height params) entries row /\
    pages (con s) !! (ws, img) = Some row /\ indexed ws img entries (index (con s)) (index (con s));
  ig_run : forall r, run = Some r -> current (con s) !! img = Some (TrimSpace (O_SessionID r)) /\
    exists row, runs (con s) !! TrimSpace (O_SessionID r) = Some row /\ r_workspace_id row = ws /\ r_item_image_id row = img /\
      r_original_hocr row = O_OriginalHOCR r /\ r_original_text row = O_OriginalText r /\ r_canonical_revision row = None;
}.

(** A job waits for the image, with the context as it was, for the page's first revision. *)
Definition queued (img cid : Z) (snapshot : json) (job : Z) (s : pdb) : Prop := exists r,
  jobs_of s !! job = Some r /\ Jobs.j_status r = Jobs.Pending /\ Jobs.active_image r = Some img /\
  Jobs.k_context_id (Jobs.j_key r) = Some cid /\ Jobs.k_context_snapshot (Jobs.j_key r) = snapshot /\ Jobs.k_input_revision (Jobs.j_key r) = 1.

(** ** Later states keep it *)

Record later (s s' : pdb) : Prop := {
  lt_contexts : ItemDb.contexts (base s') = ItemDb.contexts (base s);
  lt_images : ItemDb.images (base s) ⊆ ItemDb.images (base s');
  lt_pages : pages (con s) ⊆ pages (con s');
  lt_index : forall ws img, is_Some (pages (con s) !! (ws, img)) -> forall id, index (con s') !! (ws, img, id) = index (con s) !! (ws, img, id);
  lt_current : current (con s) ⊆ current (con s');
  lt_runs : runs (con s) ⊆ runs (con s');
  lt_jobs : forall id r, jobs_of s !! id = Some r -> Jobs.j_status r = Jobs.Pending -> jobs_of s' !! id = Some r;
}.
#[export] Instance later_refl : Reflexive later.
Proof. by intros s. Qed.
#[export] Instance later_trans : Transitive later.
Proof.
  intros s t u H1 H2. pose proof H1 as [Ht1 Hi1 Hp1 Hx1 Hc1 Hr1 Hj1]. pose proof H2 as [Ht2 Hi2 Hp2 Hx2 Hc2 Hr2 Hj2].
  split; try (etrans; eassumption); [|auto]. intros ws img Hp id. rewrite Hx2; [by apply Hx1|].
  destruct Hp as [p Hp]. exists p. by eapply lookup_weaken.
Qed.

Lemma ingested_later ws item base params factory run img uri s s' : later s s' ->
  ingested ws item base params factory run img uri s -> ingested ws item base params factory run img uri s'.
Proof.
  intros [_ Hi Hp Hx Hc Hr _] [Hcan (g & Hg & Hrest) (f & page & entries & row & Hf & Hb & Hprep & Hrow & Hix) Hrun]. split; [done| | |].
  - exists g. split; [by eapply lookup_weaken|done].
  - exists f, page, entries, row. split_and!; [done|done|done|by eapply lookup_weaken|].
    eapply indexed_elsewhere; [|exact Hix]. apply Hx. by eexists.
  - intros r (H1 & rr & H2 & H3)%Hrun. split; [by eapply lookup_weaken|]. exists rr. split; [by eapply lookup_weaken|done].
Qed.
Lemma queued_later img cid snapshot job s s' : later s s' -> queued img cid snapshot job s -> queued img cid snapshot job s'.
Proof. intros Hl (r & Hr & Hp & H). exists r. split; [by apply (lt_jobs _ _ Hl)|done]. Qed.

Lemma reads_later s s' : reads s s' -> later s s'.
Proof.
  intros [Ht Hc]. assert (Hi : ItemDb.images (base s') = ItemDb.images (base s)) by exact (f_equal ItemDb.images Ht).
  assert (Hq : ItemDb.queue (base s') = ItemDb.queue (base s)) by exact (f_equal ItemDb.queue Ht).
  split; rewrite ?Hi, ?Hc, ?Hq; try done. exact (f_equal ItemDb.contexts Ht).
Qed.
Lemma quota_later {A} (m : QuotaStore.qtx A) : keeps later (on_quota m).
Proof. intros s a s' (t & (q & _ & ->)%quota_Ok & ->)%on_tables_Ok. by split. Qed.
Lemma requests_later {A} (m : Requests.rtx A) : keeps later (on_requests m).
Proof. intros s a s'. unfold on_requests. destruct (m _) as [[b v]|]; [|done]. intros [= _ <-]. by split. Qed.
Lemma jobs_later {A} (m : Jobs.stx A) :
  (forall d a d', m d = Ok (a, d') -> forall id r, Jobs.jobs d !! id = Some r -> Jobs.j_status r = Jobs.Pending -> Jobs.jobs d' !! id = Some r) ->
  keeps later (on_jobs e m).
Proof.
  intros Hm s a s'. unfold on_jobs. destruct (m (queue_view s)) as [[b d]|] eqn:E; [|done]. intros [= _ <-]. split; try done.
  exact (Hm _ _ _ E).
Qed.

(** ** The job *)

Definition kept_pending (d d' : Jobs.db) : Prop := Jobs.par d' = Jobs.par d /\ Jobs.jobs d' ⊆ Jobs.jobs d /\
  forall id r, Jobs.jobs d !! id = Some r -> Jobs.j_status r = Jobs.Pending -> Jobs.jobs d' !! id = Some r.
#[export] Instance kept_pending_preorder : PreOrder kept_pending.
Proof. split; [by intros d|]. intros d1 d2 d3 (? & ? & ?) (? & ? & ?). split_and!; [congruence|by etrans|auto]. Qed.

Lemma admission_pending img d ws d' : lockTranscriptionAdmissionWorkspace img d = Ok (ws, d') -> kept_pending d d'.
Proof.
  intros H. apply (admission_R kept_pending) in H as [H _]; [done|]. intros w id s u s' (r & Hr & _ & Ht & Hj & Hp)%retain_one_spec.
  unfold kept_pending. rewrite Hj. split_and!; [done|apply delete_subseteq|]. intros i x Hx Hpend. rewrite lookup_delete_ne; [done|].
  intros <-. rewrite Hr in Hx. injection Hx as ->. by rewrite Hpend in Ht.
Qed.

(** The locks before a job: no job comes. *)
Record admitted (s s' : pdb) : Prop := { am_later : later s s'; am_frame : frame s s'; am_jobs : jobs_of s' ⊆ jobs_of s }.
Lemma admit_spec ws img s u s' : admit_job e config ws img s = Ok (u, s') -> admitted s s'.
Proof.
  unfold admit_job. intros H. tx_bind H as w s1 H1. destruct (negb _); [done|].
  assert (Hq : later s s1 /\ frame s s1 /\ jobs_of s1 ⊆ jobs_of s).
  { split_and!; [|by eapply quiet_jobs|].
    - eapply jobs_later; [|exact H1]. by intros d a d' (_ & _ & Hk)%admission_pending.
    - revert H1. unfold on_jobs. destruct (lockTranscriptionAdmissionWorkspace _ _) as [[b d]|] eqn:E; [|done]. intros [= _ <-].
      by apply admission_pending in E as (_ & Hs & _). }
  destruct Hq as (Hl & Hf & Hj). revert H. unfold on_jobs. destruct (enforceTranscriptionJobAdmission _ _ _) as [[b d]|] eqn:E; [|done]. intros [= _ <-].
  assert (d = queue_view s1) as ->.
  { unfold enforceTranscriptionJobAdmission in E. tx_bind E as n d1 En. injection En as _ <-. destruct (_ <=? n); [done|]. by injection E as _ <-. }
  split; [etrans; [exact Hl|by split]|etrans; [exact Hf|by split]|exact Hj].
Qed.

Lemma create_queued ws img cid snapshot s job s' row : 
  (forall j r, jobs_of s !! j = Some r -> Jobs.k_item_image_id (Jobs.j_key r) <> img) ->
  (forall g, ItemDb.images (base s) !! img = Some g -> exists t, ItemDb.items (base s) !! ItemDb.g_item_id g = Some t /\ ItemDb.t_workspace_id t = ws) ->
  pages (con s) !! (ws, img) = Some row -> p_revision row = 1 ->
  on_jobs e (CreateTranscriptionJob e img cid snapshot) s = Ok (job, s') -> later s s' /\ queued img cid snapshot job s'.
Proof.
  intros Hnone Himg Hrow Hrev. unfold on_jobs. destruct (CreateTranscriptionJob _ _ _ _ _) as [[b d]|] eqn:E; [|done]. intros [= -> <-].
  unfold CreateTranscriptionJob in E. tx_bind E as id d1 E1. destruct (Z.eqb_spec id 0); [done|]. injection E as <- <-.
  apply insert_spec in E1 as (r & Hr & Ha & Hnew); [|done]. destruct Hnew as (Hfresh & Hj & it & rev & c & Hit & [= <-] & Hp & Hc & Hv & Hsn & Hst).
  { destruct (Jobs.active_job_of _ _) as [[i x]|] eqn:Ea; [|done]. apply active_job_of_Some in Ea as [Hi Hx].
    apply Hnone in Hi. unfold Jobs.active_image in Hx. destruct (Jobs.is_active _); [|done]. by injection Hx as Hx. }
  split.
  - split; try done. intros i x Hx _. cbn. rewrite Hj. rewrite lookup_insert_ne; [done|]. intros <-. cbn in Hfresh. congruence.
  - exists r. split_and!; [done|done|done|done|done|]. rewrite Hv. unfold Jobs.image_item in Hit. cbn in Hit, Hp. rewrite lookup_fmap in Hit.
    destruct (ItemDb.images (base s) !! img) as [g|]; [|done]. destruct (Himg g eq_refl) as (t & Ht & Hw).
    cbn in Hit. rewrite lookup_fmap, Ht in Hit. injection Hit as <-. cbn in Hp. rewrite Hw in Hp.
    rewrite (lookup_fmap p_revision), Hrow in Hp. injection Hp as <-. done.
Qed.

(** ** The image, its page and its run *)

(** Nothing refers to an image that is not there. *)
Record unused (img : Z) (s : pdb) : Prop := {
  un_image : ItemDb.images (base s) !! img = None;
  un_current : current (con s) !! img = None;
  un_jobs : forall j r, jobs_of s !! j = Some r -> Jobs.k_item_image_id (Jobs.j_key r) <> img;
  un_runs : forall i sid, current (con s) !! i = Some sid -> is_Some (runs (con s) !! sid);
}.
Lemma fresh_unused img s : related (tables s) -> ItemDb.images (base s) !! img = None -> unused img s.
Proof.
  intros Hrel Hno. assert (Hcur : forall i sid, current (con s) !! i = Some sid -> is_Some (runs (con s) !! sid) /\ i <> img).
  { intros i sid Hi. pose proof (rel_current _ Hrel i sid Hi) as Hok. unfold ok_current in Hok. apply andb_true_iff in Hok as [Hr Ha].
    unfold any_image in Ha. apply bool_decide_eq_true in Ha. split; [|intros ->; destruct Ha as [g Hg]; cbn in Hg; congruence].
    cbn in Hr. rewrite lookup_fmap in Hr. by destruct (runs (con s) !! sid). }
  split; [done| | |intros i sid Hi; by apply (Hcur i sid)].
  - destruct (current (con s) !! img) as [sid|] eqn:E; [|done]. by apply Hcur in E as [_ ?].
  - intros j r Hr E. pose proof (rel_jobs _ Hrel j r Hr) as Hok. unfold ok_job in Hok. apply andb_true_iff in Hok as [Hok _].
    apply image_parent_true in Hok as (g & Hg & _). cbn in Hg. congruence.
Qed.

(** The row of a new image. *)
Definition row_of (ws : Z) (item : string) (params : ItemOps.CreateItemImageParams) (uri : string) (g : ItemDb.item_image) : Prop :=
  ItemDb.g_workspace_id g = ws /\ ItemDb.g_item_id g = item /\ ItemDb.g_image_url g = ItemOps.G_ImageURL params /\
  ItemDb.g_storage_bytes g = ItemOps.G_StorageBytes params /\
  ItemDb.g_canvas_uri g = ItemOps.db_nullableString (if blank (ItemOps.G_CanvasURI params) then uri else ItemOps.G_CanvasURI params).

Record image_added (ws : Z) (item : string) (params : ItemOps.CreateItemImageParams) (img : Z) (uri : string) (s s' : pdb) : Prop := {
  ia_unused : unused img s;
  ia_row : exists g, row_of ws item params uri g /\ ItemDb.images (base s') = <[img := g]> (ItemDb.images (base s));
  ia_items : ItemDb.items (base s') = ItemDb.items (base s);
  ia_queue : ItemDb.queue (base s') = ItemDb.queue (base s);
  ia_contexts : ItemDb.contexts (base s') = ItemDb.contexts (base s);
  ia_con : con s' = con s;
}.

Lemma image_added_Ok ws item d params img uri s s1 u s2 : near None ws d (tables s) -> item_parent (tables s) ws item = true ->
  on_tables (ItemOps.CreateItemImage (in_item item params)) s = Ok (img, s1) -> set_canvas (ItemOps.G_CanvasURI params) img uri s1 = Ok (u, s2) ->
  image_added ws item params img uri s s2.
Proof.
  intros Hn (x & Hx & Hw)%item_parent_true (t & H & ->)%on_tables_Ok H2. unfold ItemOps.CreateItemImage in H.
  destruct (ItemOps.nullableImageDimension _) as [w|]; [|done]. destruct (ItemOps.nullableImageDimension _) as [h|]; [|done].
  cbn [ItemOps.G_ItemID in_item] in H. rewrite Hx in H. destruct (ItemOps.image_at _ _ _); [done|]. injection H as <- <-.
  assert (Hfresh : ItemDb.images (base s) !! ItemDb.next_image_id (base s) = None).
  { destruct (ItemDb.images (base s) !! ItemDb.next_image_id (base s)) eqn:E; [|done]. pose proof (n_ids _ _ _ _ Hn _ _ E) as Hi. cbn in Hi. lia. }
  pose proof (fresh_unused _ _ (n_related _ _ _ _ Hn) Hfresh) as Hun. unfold set_canvas in H2.
  destruct (blank (ItemOps.G_CanvasURI params)) eqn:Hb.
  - apply on_tables_Ok in H2 as (t & H2 & ->). injection H2 as _ <-. split; try done. eexists. split; [|cbn; by rewrite alter_insert_eq].
    unfold row_of. rewrite Hb. by split_and!.
  - injection H2 as _ <-. split; try done. eexists. split; [|done]. unfold row_of. rewrite Hb. by split_and!.
Qed.

Lemma insert_current_Ok run img s u s' g : O_ItemImageID run = Some img -> current (con s) !! img = None ->
  (forall i sid, current (con s) !! i = Some sid -> is_Some (runs (con s) !! sid)) -> ItemDb.images (base s) !! img = Some g ->
  insertCurrentOCRRun run s = Ok (u, s') -> let sid := TrimSpace (O_SessionID run) in
  later s s' /\ frame s s' /\ same_queue s s' /\ current (con s') !! img = Some sid /\
  exists row, runs (con s') !! sid = Some row /\ r_workspace_id row = ItemDb.g_workspace_id g /\ r_item_image_id row = img /\
    r_original_hocr row = O_OriginalHOCR run /\ r_original_text row = O_OriginalText run /\ r_canonical_revision row = None.
Proof.
  intros Himg Hcur Hruns Hg H sid. destruct u. pose proof (insert_current_quiet _ _ _ _ H) as Hf.
  pose proof (content_queue _ (insert_current_content _) _ _ _ H) as Hq. unfold insertCurrentOCRRun in H.
  destruct (_ || _); [done|]. rewrite Himg in H. destruct (_ || _); [done|]. fold sid in H. tx_bind H as [] s1 H1.
  unfold InsertOCRRun in H1. destruct (MaxInt64 <? img); [done|]. rewrite Hg in H1. destruct (run_context _ _ _); [|done].
  destruct (runs (con s) !! sid) eqn:Hsid; [done|]. injection H1 as <-. injection H as <-.
  match type of Hq with context [bool_decide ?P] => assert (P) as Hfree end.
  { intros i sid' Hi. right. intros ->. apply Hruns in Hi. rewrite Hsid in Hi. by destruct Hi. }
  rewrite (bool_decide_true _ Hfree) in Hf, Hq |- *.
  cbn in *. split_and!; [|done|done|apply lookup_insert_eq|].
  - split; cbn; try done; by apply insert_subseteq.
  - eexists. rewrite lookup_insert_eq. by split_and!.
Qed.

(** The image with its page, before its job. *)
Record written (ws : Z) (item : string) (img : Z) (s s' : pdb) : Prop := {
  wr_later : later s s';
  wr_image : exists g, ItemDb.images (base s') !! img = Some g /\ ItemDb.g_item_id g = item;
  wr_items : ItemDb.items (base s') = ItemDb.items (base s);
  wr_jobs : forall j r, jobs_of s' !! j = Some r -> Jobs.k_item_image_id (Jobs.j_key r) <> img;
  wr_page : exists row, pages (con s') !! (ws, img) = Some row /\ p_revision row = 1;
}.

Lemma written_Ok ws item publicBaseURL params f page run img uri s s2 u s3 v s4 :
  image_added ws item params img uri s s2 -> canvas_uri (ItemOps.G_CanvasURI params) publicBaseURL img = Ok uri -> f img uri = Some page ->
  create_page ws img (page_of_image ws img uri page) (ItemOps.G_Width params) (ItemOps.G_Height params) s2 = Ok (u, s3) ->
  match run with Some r => insertCurrentOCRRun (run_of_image img (ItemOps.G_ImageURL params) r) | None => mret tt end s3 = Ok (v, s4) ->
  written ws item img s s4 /\ ingested ws item publicBaseURL params (Some f) run img uri s4.
Proof.
  intros [[Hno Hcur Hjobs Hruns] (g & Hg & Himgs) Hitems Hqueue Hcontexts Hcon] Huri Hpage (entries & row & m & Hprep & Hnone & Hfree & Hix & ->)%create_page_prepared H.
  set (s3 := set_index m _) in *.
  assert (Hg3 : ItemDb.images (base s3) !! img = Some g) by (cbn; rewrite Himgs; apply lookup_insert_eq).
  assert (Hp3 : pages (con s3) !! (ws, img) = Some row) by (cbn; apply lookup_insert_eq).
  assert (Hl3 : later s s3).
  { split; cbn; rewrite ?Himgs, ?Hcon, ?Hqueue; try done; [by apply insert_subseteq|apply insert_subseteq; by rewrite <- Hcon|].
    intros w i [p Hp] id. rewrite (ix_others _ _ _ _ _ Hix); [by rewrite Hcon|]. cbn. intros [= -> ->]. rewrite Hcon in Hnone. congruence. }
  assert (Hr : later s3 s4 /\ frame s3 s4 /\ same_queue s3 s4 /\ forall r, run = Some r -> current (con s4) !! img = Some (TrimSpace (O_SessionID r)) /\
    exists x, runs (con s4) !! TrimSpace (O_SessionID r) = Some x /\ r_workspace_id x = ws /\ r_item_image_id x = img /\
      r_original_hocr x = O_OriginalHOCR r /\ r_original_text x = O_OriginalText r /\ r_canonical_revision x = None).
  { destruct run as [r|]; [|injection H as _ <-; by split_and!]. eapply insert_current_Ok in H as (H1 & H2 & H3 & H4 & H5); [|done|cbn; by rewrite Hcon|cbn; by rewrite Hcon|exact Hg3].
    split_and!; [done..|]. destruct Hg as (<- & _). intros r' [= <-]. done. }
  destruct Hr as (Hl4 & Hf4 & Hq4 & Hrun). pose proof Hf4 as [Hpg Hin _ _ Him Hit]. split.
  - split; [by etrans|exists g; rewrite Him; split; [exact Hg3|apply Hg]|by rewrite Hit; cbn|by rewrite Hq4; cbn; rewrite Hqueue|].
    exists row. rewrite Hpg. split; [exact Hp3|]. by rewrite (pr_row _ _ _ _ _ Hprep).
  - split; [done| | |exact Hrun].
    + exists g. rewrite Him. by split.
    + exists f, page, entries, row. rewrite Hpg, Hin. split_and!; [done..|]. cbn. by eapply indexed_self.
Qed.

Lemma job_Ok ws item img cid snapshot s s4 s5 s6 job s' : written ws item img s s4 -> item_parent (tables s) ws item = true ->
  admitted s4 s5 -> reads s5 s6 -> on_jobs e (CreateTranscriptionJob e img cid snapshot) s6 = Ok (job, s') ->
  later s4 s' /\ queued img cid snapshot job s'.
Proof.
  intros [Hl (g & Hg & Hgi) Hits Hj (row & Hrow & Hrev)] (t & Ht & Hw)%item_parent_true [Hl5 [Hpg _ _ _ Him Hit] Hj5] Hr H.
  pose proof (reads_later _ _ Hr) as Hl6. assert (Hb : ItemDb.images (base s6) = ItemDb.images (base s5) /\ ItemDb.items (base s6) = ItemDb.items (base s5) /\ jobs_of s6 = jobs_of s5).
  { destruct Hr as [E _]. split_and!; [exact (f_equal ItemDb.images E)|exact (f_equal ItemDb.items E)|exact (f_equal (fun t => ItemDb.q_jobs (ItemDb.queue t)) E)]. }
  destruct Hb as (Eim & Eit & Ej). eapply (create_queued ws) in H as [Hl' Hq]; [| | | |exact Hrev].
  - split; [|exact Hq]. do 2 (etrans; [eassumption|]). done.
  - rewrite Ej. intros j r Hr'. apply (Hj j). by eapply lookup_weaken.
  - rewrite Eim, Eit, Him, Hit. intros g' Hg'. exists t. rewrite Hits. split; [|done]. cbn in Ht. congruence.
  - destruct Hr as [_ ->]. by rewrite Hpg.
Qed.

(** ** Installing *)

(** The document of a context the workspace can see. *)
Definition snapshot_of (ws cid : Z) (snapshot : json) (s : pdb) : Prop := exists row, ItemDb.contexts (base s) !! cid = Some row /\
  (ItemDb.c_scope_id row = 0 \/ ItemDb.c_scope_id row = ws) /\ snapshot = JObject (ItemDb.c_fields row).
Lemma snapshot_later ws cid sn s s' : later s s' -> snapshot_of ws cid sn s -> snapshot_of ws cid sn s'.
Proof. intros Hl. unfold snapshot_of. by rewrite (lt_contexts _ _ Hl). Qed.

(** The job of an image, if it gets one: it carries the document of its context. *)
Definition job_for (ws img : Z) (context : option Z) (job : option Z) (s : pdb) : Prop :=
  match context, job with
  | Some cid, Some j => exists snapshot, snapshot_of ws cid snapshot s /\ queued img cid snapshot j s
  | None, None => True
  | _, _ => False
  end.
Lemma job_for_later ws img context job s s' : later s s' -> job_for ws img context job s -> job_for ws img context job s'.
Proof.
  intros Hl. destruct context, job; try done. intros (sn & Hs & Hq). exists sn. split; [by eapply snapshot_later|by eapply queued_later].
Qed.

Record installs (ws : Z) (item publicBaseURL : string) (params : ItemOps.CreateItemImageParams) (factory : option page_factory)
    (run : option OCRRun) (context : option Z) (img : Z) (job : option Z) (s s' : pdb) : Prop := {
  is_fresh : ItemDb.images (base s) !! img = None;
  is_later : later s s';
  is_image : exists uri, ingested ws item publicBaseURL params factory run img uri s';
  is_job : job_for ws img context job s';
}.

Lemma context_locked cid ws s c sn s' : lock_context cid ws s = Ok ((c, sn), s') -> c = cid /\ snapshot_of ws cid sn s.
Proof.
  intros (t & H & _)%on_tables_Ok. unfold UploadOps.lockContextSnapshotForWorkspace in H. tx_bind H as x t1 Hx.
  apply ItemKeeps.one_of_Ok in Hx as [Hx _]. injection H as <- <- _. split; [done|]. cbn in Hx.
  destruct (ItemDb.contexts (base s) !! cid) as [row|] eqn:E; [|done]. cbn in Hx. exists row. split; [done|].
  destruct (_ || _) eqn:Hv; [injection Hx as <-|done]. apply orb_true_iff in Hv as [Hv|Hv]; apply Z.eqb_eq in Hv; auto.
Qed.
Lemma install_single_spec d c s img job s' : let ws := ItemOps.C_WorkspaceID (Item c) in let item := ItemOps.C_ID (Item c) in
  near None ws d (tables s) -> item_parent (tables s) ws item = true -> install_single e config c s = Ok ((img, job), s') ->
  installs ws item (PublicBaseURL c) (Image c) (BuildPage c) (Some (Run c)) (TranscriptionContext c) img
    (_ ← TranscriptionContext c; Some job) s s' /\ (TranscriptionContext c = None -> job = 0).
Proof.
  intros ws item Hn Hp H. unfold install_single in H. fold ws item in H. tx_bind H as i s1 H1. tx_bind H as uri s2 H2.
  apply tx_lift_Ok in H2 as [Huri ->]. tx_bind H as page s2 H2. apply build_Ok in H2 as (-> & f & Hf & Hpage).
  tx_bind H as u s2 H2. eapply (image_added_Ok _ _ _ (Image c)) in H2 as Ha; [|exact Hn|exact Hp|exact H1].
  tx_bind H as u3 s3 H3. tx_bind H as u4 s4 H4.
  destruct (written_Ok _ _ _ _ _ _ (Some (Run c)) _ _ _ _ _ _ _ _ Ha Huri Hpage H3 H4) as [Hw Hi].
  tx_bind H as j s5 H5. injection H as <- <- <-. rewrite Hf.
  assert (Hj : later s4 s5 /\ job_for ws i (TranscriptionContext c) (_ ← TranscriptionContext c; Some j) s5 /\ (TranscriptionContext c = None -> j = 0)).
  { unfold enqueue_single in H5. destruct (TranscriptionContext c) as [cid|]; [|by injection H5 as <- <-].
    tx_bind H5 as u6 s6 H6. apply admit_spec in H6. tx_bind H5 as [c' sn] s7 H7. pose proof H7 as Hr7%context_reads.
    apply context_locked in H7 as [-> Hsn].
    destruct (job_Ok _ _ _ _ _ _ _ _ _ _ _ Hw Hp H6 Hr7 H5) as [Hl Hq]. split_and!; [done| |done]. exists sn. split; [|exact Hq].
    eapply snapshot_later; [exact Hl|]. unfold snapshot_of in *. by rewrite <- (lt_contexts _ _ (am_later _ _ H6)). }
  destruct Hj as (Hl & Hj & Hz). split; [|done]. split; [apply (ia_unused _ _ _ _ _ _ _ Ha)|etrans; [apply Hw|exact Hl]| |exact Hj].
  exists uri. eapply ingested_later; [exact Hl|exact Hi].
Qed.

Lemma install_canvas_spec d item publicBaseURL context c s img jobs s' : let ws := ItemOps.C_WorkspaceID item in
  near None ws d (tables s) -> item_parent (tables s) ws (ItemOps.C_ID item) = true ->
  (forall x, context = Some x -> snapshot_of ws x.1 x.2 s) ->
  install_canvas e config item publicBaseURL context c s = Ok ((img, jobs), s') ->
  exists job, jobs = option_list job /\
    installs ws (ItemOps.C_ID item) publicBaseURL (CanvasImage c) (CanvasBuildPage c) (CanvasRun c)
      (if EnqueueJob c then fst <$> context else None) img job s s'.
Proof.
  intros ws Hn Hp Hcx H. unfold install_canvas in H. fold ws in H. tx_bind H as i s1 H1. tx_bind H as uri s2 H2.
  apply tx_lift_Ok in H2 as [Huri ->]. tx_bind H as u s2 H2. eapply (image_added_Ok _ _ _ (CanvasImage c)) in H2 as Ha; [|exact Hn|exact Hp|exact H1].
  tx_bind H as page s3 H3. apply build_Ok in H3 as (-> & f & Hf & Hpage). tx_bind H as u3 s3 H3. tx_bind H as u4 s4 H4.
  destruct (written_Ok _ _ _ _ _ _ (CanvasRun c) _ _ _ _ _ _ _ _ Ha Huri Hpage H3 H4) as [Hw Hi]. rewrite Hf.
  assert (Hfresh := un_image _ _ (ia_unused _ _ _ _ _ _ _ Ha)).
  destruct (EnqueueJob c).
  - tx_bind H as j s5 H5. injection H as <- <- <-. exists (Some j). split; [done|]. unfold enqueue_canvas in H5.
    destruct context as [[cid sn]|]; [|done]. specialize (Hcx _ eq_refl). tx_bind H5 as u6 s6 H6. apply admit_spec in H6.
    destruct (job_Ok _ _ _ _ _ _ _ _ _ _ _ Hw Hp H6 (reflexivity _) H5) as [Hl Hq].
    split; [done|etrans; [apply Hw|exact Hl]|exists uri; eapply ingested_later; [exact Hl|exact Hi]|].
    exists sn. split; [|exact Hq]. eapply snapshot_later; [etrans; [apply Hw|exact Hl]|exact Hcx].
  - injection H as <- <- <-. exists None. split; [done|]. split; [done|apply Hw|by exists uri|done].
Qed.

(** ** The answer and the reservation *)

(** The request names what was made. *)
Definition answered (ws : Z) (x : SingleFileIngestExternalRequest) (item : option string) (img job : option Z) (session : option string)
    (s : pdb) : Prop := exists i q, requests (con s) !! i = Some q /\
  Requests.has_key ws (TrimSpace (XR_Source x)) (TrimSpace (XR_IdempotencyKey x)) q = true /\ Requests.q_status q = Requests.RCompleted /\
  Requests.q_item_id q = item /\ Requests.q_item_image_id q = img /\ Requests.q_job_id q = job /\ Requests.q_session_id q = session.

Lemma answered_Ok external ws item img job session s u s' : complete_request e external ws item img job session s = Ok (u, s') ->
  later s s' /\ frame s s' /\ forall x, external = Some x -> answered ws x item img job session s'.
Proof.
  unfold complete_request. destruct external as [x|]; [|by intros [= _ <-]]. intros H. split; [by eapply requests_later|].
  split; [by eapply quiet_requests|]. intros x' [= <-]. revert H. unfold on_requests, Requests.CompleteExternalRequestManual, Requests.update_request.
  destruct (Requests.find_request _ _ _ _) as [[i q]|] eqn:Ef; [|done]. apply RequestTheorems.RequestTheorems.find_request_Some in Ef as [Hq Hk].
  destruct (_ && _); [|done]. intros [= _ <-]. exists i. eexists. cbn. rewrite lookup_insert_eq. by split_and!.
Qed.

(** The reservation is used up, with the deletion it held ready. *)
Definition used_up (id : string) (key : option string) (s : pdb) : Prop :=
  ItemDb.a_reservations (ItemDb.acc (base s)) !! id = None /\
  forall name, key = Some name -> ItemDb.a_cleanups (ItemDb.acc (base s)) !! (QuotaStore.UploadBlob, name) = None.

Lemma used_up_Ok R v a l s u s' : on_quota (QuotaOps.retireSingleFileIngestReservation R v a l) s = Ok (u, s') ->
  later s s' /\ frame s s' /\ con s' = con s /\ used_up (Quota.R_ID R) (QuotaStore.v_resource_key v) s'.
Proof.
  intros H. split; [by eapply quota_later|]. split; [by eapply quiet_quota|]. apply on_tables_Ok in H as (t & (q & H & ->)%quota_Ok & ->).
  split; [done|]. destruct u. unfold QuotaOps.retireSingleFileIngestReservation in H. tx_bind H as g q1 H1. tx_bind H as w q2 H2.
  tx_bind H as [] q2' H2'. tx_bind H as [] q3 H3. tx_bind H as [] q4 H4. apply QuotaFacts.quota_one_Ok, QuotaSteps.QuotaSteps.delete_reservation_Ok in H as (x & _ & ->).
  split; [cbn; apply lookup_delete_eq|]. intros name Hk. rewrite Hk in H4. clear Hk. apply QuotaFacts.quota_one_Ok in H4.
  unfold QuotaStore.DeleteResourceCleanupByKindKey in H4. destruct (QuotaStore.cleanups q3 !! _); [|done]. injection H4 as <-. cbn. apply lookup_delete_eq.
Qed.

(** ** The items *)

Definition same_items (s s' : pdb) : Prop := ItemDb.items (base s') = ItemDb.items (base s).
#[export] Instance same_items_refl : Reflexive same_items.
Proof. by intros s. Qed.
#[export] Instance same_items_trans : Transitive same_items.
Proof. unfold same_items. intros s t u ??. congruence. Qed.
Lemma quiet_items {A} (m : ptx A) : quiet m -> keeps same_items m.
Proof. apply keeps_weaken. by intros s s' []. Qed.
Lemma read_items {A} (m : ptx A) : reading m -> keeps same_items m.
Proof. apply keeps_weaken. intros s s' [E _]. exact (f_equal ItemDb.items E). Qed.
Lemma image_items params : keeps same_items (on_tables (ItemOps.CreateItemImage params)).
Proof.
  intros s a s' (t & H & ->)%on_tables_Ok. unfold ItemOps.CreateItemImage in H. repeat case_match; try done; by injection H as _ <-.
Qed.
Lemma canvas_items given img uri : keeps same_items (set_canvas given img uri).
Proof. unfold set_canvas. destruct (blank given); [|apply along_ret; apply _]. by intros s a s' (t & [= _ <-] & ->)%on_tables_Ok. Qed.
Lemma page_items ws img page w h : keeps same_items (create_page ws img page w h).
Proof. by intros s u s' (entries & row & m & _ & _ & _ & _ & ->)%create_page_prepared. Qed.
Hint Resolve quiet_items quiet_jobs insert_current_quiet image_items canvas_items page_items : keeps.
Lemma admit_items ws img : keeps same_items (admit_job e config ws img).
Proof. unfold admit_job. solve_keeps. Qed.
Lemma context_items cid ws : keeps same_items (lock_context cid ws).
Proof. apply read_items, context_reads. Qed.
Hint Resolve admit_items context_items : keeps.
Lemma single_items c : keeps same_items (install_single e config c).
Proof. unfold install_single, build, enqueue_single. solve_keeps. Qed.
Lemma canvases_items item publicBaseURL context l : keeps same_items (install_canvases e config item publicBaseURL context l).
Proof.
  induction l as [|c l IH]; cbn [install_canvases]; [apply along_ret; apply _|]. unfold install_canvas, build, enqueue_canvas. solve_keeps.
Qed.

(** ** The theorems *)

Lemma opens_later item id v s s' : opens item id v s s' -> later s s'.
Proof. intros [_ _ _ _ (Hi & Hq & Hc & Ht)]. split; by rewrite ?Ht, ?Hi, ?Hq, ?Hc. Qed.
Lemma installs_between ws item publicBaseURL params factory run context img job s0 s s' t :
  installs ws item publicBaseURL params factory run context img job s s' -> later s0 s -> later s' t ->
  installs ws item publicBaseURL params factory run context img job s0 t.
Proof.
  intros [Hf Hl (uri & Hu) Hj] H0 Ht. split; [|by do 2 (etrans; [eassumption|])|exists uri; by eapply ingested_later|by eapply job_for_later].
  destruct (ItemDb.images (base s0) !! img) eqn:E; [|done]. eapply lookup_weaken in E; [|apply (lt_images _ _ H0)]. congruence.
Qed.

(** The item is new, and the tables of a later state still have it. *)
Definition created (item : ItemOps.CreateItemParams) (s s' : pdb) : Prop :=
  ItemDb.items (base s) !! ItemOps.C_ID item = None /\
  ItemDb.items (base s') = <[ItemOps.C_ID item := ItemOps.created_item item]> (ItemDb.items (base s)).

(** C9: An ingest of a single file that succeeds leaves the new item, its image with the canonical page the factory built at
    revision one, the index of that page, the OCR baseline as the image's current run and, if a context is given, a waiting job
    for the first revision with the document of that context, which the workspace can see, as its snapshot; the external request is answered with these, the reservation and the staged upload's pending
    deletion are gone, and no earlier row of an image, page or run changes.  One that fails changes nothing.  The tables are sound and the item's
    identifier, which the code generates, carries no white space around it. *)
Theorem single_file_ingest_commits_everything c s : sound (tables s) -> TrimSpace (ItemOps.C_ID (Item c)) = ItemOps.C_ID (Item c) ->
  match CommitSingleFileIngest e config c s with
  | (Ok r, s') =>
      let ws := ItemOps.C_WorkspaceID (Item c) in let id := ItemOps.C_ID (Item c) in let img := S_ImageID r in
      created (Item c) s s' /\ S_Item r = ItemOps.created_item (Item c) /\
      installs ws id (PublicBaseURL c) (Image c) (BuildPage c) (Some (Run c)) (TranscriptionContext c) img
        (_ ← TranscriptionContext c; Some (S_TranscriptionJobID r)) s s' /\ (TranscriptionContext c = None -> S_TranscriptionJobID r = 0) /\
      ItemDb.images (base s') !! img = Some (S_Image r) /\ pages (con s') !! (ws, img) = Some (S_Page r) /\
      (forall x, External c = Some x -> answered ws x (nullableString id) (nullableUint64 img) (nullableUint64 (S_TranscriptionJobID r))
         (nullableString (O_SessionID (Run c))) s') /\
      used_up (Quota.R_ID (Reservation c)) (UploadRef.ImmutableNameFromURL (ItemOps.G_ImageURL (Image c))) s'
  | (Err _, s') => s' = s
  end.
Proof.
  intros Hs Hid. destruct (CommitSingleFileIngest e config c s) as [[r|x] s'] eqn:H; unfold CommitSingleFileIngest in H.
  2:{ destruct (validateSingleFileIngestCommit c); [|by injection H]. unfold run_tx in H. destruct (single_file_ingest _ _ _ _) as [[]|]; [done|by injection H]. }
  destruct (validateSingleFileIngestCommit c) as [[]|] eqn:Hv; [|done]. apply single_valid in Hv as [Hname HR]. apply run_tx_Ok in H. intros ws id img.
  unfold single_file_ingest in H. fold ws id in H. tx_bind H as locked s4 H4.
  eapply open_ingest_Ok in H4 as [Ho Hkey]; [|exact Hs|exact Hid|exact Hname|intros t w t' _; apply lock_reservation_Ok].
  pose proof (opens_later _ _ _ _ _ Ho) as Hl4. destruct Ho as [[Hn Hi _ _ _] _ Hfree Hitem _].
  tx_bind H as [i job] s5 H5. pose proof H5 as Hins. eapply install_single_spec in Hins as [Hins Hjob]; [|exact Hn|exact Hi].
  apply single_items in H5 as Hits5.
  tx_bind H as u5 s6 H6. apply answered_Ok in H6 as (Hl6 & Hf6 & Hans).
  tx_bind H as row s7 H7. pose proof H7 as Hr7%item_read. tx_bind H as irow s8 H8. pose proof H8 as Hr8%image_read.
  tx_bind H as stored s9 H9. pose proof H9 as Hr9%page_read. tx_bind H as bytes s10 H10. apply measured in H10 as (_ & _ & Hr10).
  tx_bind H as u10 s11 H11. apply used_up_Ok in H11 as (Hl11 & Hf11 & Hc11 & Hup). injection H as <- <-. cbn [S_ImageID S_Item S_Image S_Page S_TranscriptionJobID] in *.
  pose proof (transitivity Hr7 (transitivity Hr8 (transitivity Hr9 Hr10))) as Hr. subst img.
  assert (Hits : ItemDb.items (base s11) = ItemDb.items (base s4)).
  { rewrite (fr_items _ _ Hf11), (f_equal ItemDb.items (rd_tables _ _ Hr) : ItemDb.items (base s10) = ItemDb.items (base s6)), (fr_items _ _ Hf6). exact Hits5. }
  assert (Hlr : later s5 s11) by (etrans; [exact Hl6|etrans; [by apply reads_later|exact Hl11]]).
  apply on_tables_Ok in H7 as (t7 & [Hrow _]%ItemKeeps.one_of_Ok & _). apply on_tables_Ok in H8 as (t8 & [Hirow _]%ItemKeeps.one_of_Ok & _). apply get_page_Ok in H9 as (-> & _ & Hst).
  split_and!.
  - split; [exact Hfree|by rewrite Hits].
  - change (ItemDb.items (base s6) !! id = Some row) in Hrow. rewrite (fr_items _ _ Hf6), Hits5, Hitem, lookup_insert_eq in Hrow. by injection Hrow.
  - eapply installs_between; [exact Hins|exact Hl4|exact Hlr].
  - exact Hjob.
  - eapply lookup_weaken; [exact Hirow|]. change (ItemDb.images (base s7) ⊆ ItemDb.images (base s11)).
    apply (lt_images s7). etrans; [apply reads_later, (transitivity Hr8 Hr10)|exact Hl11].
  - rewrite Hc11, (rd_con _ _ Hr10). exact Hst.
  - intros x Hx. specialize (Hans x Hx) as (j & q & Hq & Hans). exists j, q. by rewrite Hc11, (rd_con _ _ Hr).
  - rewrite <- Hkey. exact Hup.
Qed.

Lemma list_read {A} (f : ItemDb.idb -> A) s a s' : on_tables (tx_reads f) s = Ok (a, s') -> a = f (tables s) /\ reads s s'.
Proof.
  intros H. split; [by apply on_tables_Ok in H as (t & [= <- _] & _)|]. revert H. apply read_tables. by intros t b t' [= _ <-].
Qed.
Lemma listed_image t id img g : (img, g) ∈ ItemOps.ListItemImages id t <-> ItemDb.images t !! img = Some g /\ ItemDb.g_item_id g = id.
Proof.
  unfold ItemOps.ListItemImages. rewrite (merge_sort_Permutation _ _), list_elem_of_filter, elem_of_map_to_list. cbn. naive_solver.
Qed.

Lemma install_canvases_spec item publicBaseURL context id v l k s jobs s' :
  Forall (fun x => attributes (CanvasBuildPage x) (ItemOps.C_UserID item)) l ->
  open_item (ItemOps.C_WorkspaceID item) (ItemOps.C_ID item) (ItemOps.C_UserID item) id v k s ->
  (forall x, context = Some x -> snapshot_of (ItemOps.C_WorkspaceID item) x.1 x.2 s) ->
  install_canvases e config item publicBaseURL context l s = Ok (jobs, s') ->
  exists xs : list (Z * option Z), jobs = omap snd xs /\ NoDup xs.*1 /\ later s s' /\
    Forall2 (fun c x => installs (ItemOps.C_WorkspaceID item) (ItemOps.C_ID item) publicBaseURL (CanvasImage c) (CanvasBuildPage c) (CanvasRun c)
      (if EnqueueJob c then fst <$> context else None) x.1 x.2 s s') l xs.
Proof.
  intros Hl. revert k s jobs. induction Hl as [|c l Hc _ IH]; intros k s jobs Ho Hcx H; cbn [install_canvases] in H.
  { injection H as <- <-. exists []. split_and!; [done|apply NoDup_nil_2|done|constructor]. }
  tx_bind H as [img j] s1 H1. pose proof Ho as [Hn Hi Ht Hk _]. pose proof H1 as (job & -> & Hins)%(install_canvas_spec _ _ _ _ _ _ _ _ _ Hn Hi Hcx).
  apply (install_canvas_Ok _ _ _ _ _ _ _ _ _ _ Hn Hi Ht Hc Hk) in H1. apply (installed_open _ _ _ _ _ _ _ _ _ Ho) in H1.
  tx_bind H as rest s2 H2. injection H as <- <-. destruct (IH _ _ _ H1 (fun x Hx => snapshot_later _ _ _ _ _ (is_later _ _ _ _ _ _ _ _ _ _ _ Hins) (Hcx x Hx)) H2) as (xs & -> & Hd & Hlat & Hf).
  exists ((img, job) :: xs). split_and!.
  - cbn. by destruct job.
  - cbn. apply NoDup_cons. split; [|done]. intros (x & Ex & Hx)%list_elem_of_fmap.
    apply list_elem_of_lookup in Hx as [n Hn']. apply (Forall2_lookup_r _ _ _ _ _ Hf) in Hn' as (c' & _ & [Hfresh _ _ _]).
    destruct Hins as [_ _ (uri & [_ (g & Hg & _) _ _]) _]. cbn in Hg, Ex. congruence.
  - etrans; [apply Hins|exact Hlat].
  - constructor; [eapply installs_between; [exact Hins|done|exact Hlat]|]. eapply Forall2_impl; [exact Hf|]. intros c' x Hx.
    eapply installs_between; [exact Hx|apply Hins|done].
Qed.

(** C10: An ingest of a manifest that succeeds leaves the new item and, for every Canvas in order, a new image with its canonical page
    at revision one, index, baseline run where one is given, and a waiting job exactly where one is asked for, with the document of the
    given context as its snapshot; the identifiers of the jobs are returned, the request is answered and the reservation is gone.  One that fails changes nothing. *)
Theorem manifest_ingest_commits_every_canvas c s : sound (tables s) -> manifest_ok c ->
  match CommitManifestIngest e config c s with
  | (Ok r, s') =>
      let ws := ItemOps.C_WorkspaceID (M_Item c) in let id := ItemOps.C_ID (M_Item c) in
      created (M_Item c) s s' /\ MR_Item r = ItemOps.created_item (M_Item c) /\
      (exists xs : list (Z * option Z), NoDup xs.*1 /\ MR_TranscriptionJobIDs r = omap snd xs /\
         Forall2 (fun x y => installs ws id (M_PublicBaseURL c) (CanvasImage x) (CanvasBuildPage x) (CanvasRun x)
           (if EnqueueJob x then M_TranscriptionContext c else None) y.1 y.2 s s') (M_Canvases c) xs) /\
      (forall img g, (img, g) ∈ MR_Images r <-> ItemDb.images (base s') !! img = Some g /\ ItemDb.g_item_id g = id) /\
      (forall x, M_External c = Some x -> answered ws x (nullableString id) None None None s') /\
      used_up (Quota.R_ID (M_Reservation c)) None s'
  | (Err _, s') => s' = s
  end.
Proof.
  intros Hs [Hid Hpages]. destruct (CommitManifestIngest e config c s) as [[r|x] s'] eqn:H; unfold CommitManifestIngest in H.
  2:{ destruct (validateManifestIngestCommit c); [|by injection H]. unfold run_tx in H. destruct (manifest_ingest _ _ _ _) as [[]|]; [done|by injection H]. }
  destruct (validateManifestIngestCommit c) as [[]|] eqn:Hv; [|done]. apply manifest_valid in Hv as [Hname HR]. apply run_tx_Ok in H. intros ws id.
  unfold manifest_ingest in H. fold ws id in H. tx_bind H as locked s4 H4.
  eapply open_ingest_Ok in H4 as [Hopens Hkey]; [|exact Hs|exact Hid|exact Hname|intros t w t' _; apply lock_manifest_Ok].
  pose proof (opens_later _ _ _ _ _ Hopens) as Hl4. destruct Hopens as [Ho _ Hfree Hitem _].
  tx_bind H as context s5 H5. assert (Hc : reads s4 s5 /\ fst <$> context = M_TranscriptionContext c /\ (forall x, context = Some x -> snapshot_of ws x.1 x.2 s4)).
  { destruct (M_TranscriptionContext c) as [cid|]; [|by injection H5 as <- <-]. tx_bind H5 as [c' sn] s6 H6. injection H5 as <- <-.
    split; [by eapply context_reads|]. apply context_locked in H6 as [-> Hsn]. split; [done|]. by intros x [= <-]. }
  destruct Hc as (Hr5 & Hctx & Hcx). apply (open_reads _ _ _ _ _ _ _ _ Hr5) in Ho.
  tx_bind H as jobs s6 H6. apply canvases_items in H6 as Hits6.
  eapply install_canvases_spec in H6 as (xs & -> & Hd & Hl6 & Hxs); [|exact Hpages|exact Ho|intros x Hx; by eapply snapshot_later, Hcx; [apply reads_later|]].
  tx_bind H as u7 s7 H7. apply answered_Ok in H7 as (Hl7 & Hf7 & Hans).
  tx_bind H as row s8 H8. pose proof H8 as Hr8%item_read. tx_bind H as rows s9 H9. apply list_read in H9 as [-> Hr9].
  tx_bind H as bytes s10 H10. assert (Hr10 : reads s9 s10) by (revert H10; apply read_tables; by intros t a t' [_ ->]%ItemKeeps.measure_Ok).
  tx_bind H as u11 s11 H11. apply used_up_Ok in H11 as (Hl11 & Hf11 & Hc11 & Hup). injection H as <- <-. cbn [MR_Item MR_Images MR_TranscriptionJobIDs] in *.
  pose proof (transitivity Hr8 (transitivity Hr9 Hr10)) as Hr.
  assert (Hits : ItemDb.items (base s11) = ItemDb.items (base s4)).
  { rewrite (fr_items _ _ Hf11), (f_equal ItemDb.items (rd_tables _ _ Hr) : ItemDb.items (base s10) = ItemDb.items (base s7)), (fr_items _ _ Hf7), Hits6.
    exact (f_equal ItemDb.items (rd_tables _ _ Hr5)). }
  assert (Hlr : later s6 s11) by (etrans; [exact Hl7|etrans; [by apply reads_later|exact Hl11]]).
  assert (Hl5 : later s s5) by (etrans; [exact Hl4|by apply reads_later]).
  apply on_tables_Ok in H8 as (t8 & [Hrow _]%ItemKeeps.one_of_Ok & _).
  split_and!.
  - split; [exact Hfree|by rewrite Hits].
  - change (ItemDb.items (base s7) !! id = Some row) in Hrow. rewrite (fr_items _ _ Hf7), Hits6 in Hrow.
    rewrite (f_equal ItemDb.items (rd_tables _ _ Hr5) : ItemDb.items (base s5) = ItemDb.items (base s4)), Hitem, lookup_insert_eq in Hrow. by injection Hrow.
  - exists xs. split_and!; [done|done|]. rewrite Hctx in Hxs. eapply Forall2_impl; [exact Hxs|]. intros x y Hx. eapply installs_between; [exact Hx|exact Hl5|exact Hlr].
  - intros img g. rewrite (listed_image (tables s8)).
    rewrite (fr_images _ _ Hf11), (f_equal ItemDb.images (rd_tables _ _ (transitivity Hr9 Hr10)) : ItemDb.images (base s10) = ItemDb.images (base s8)). done.
  - intros x Hx. specialize (Hans x Hx) as (j & q & Hq & Hans). exists j, q. by rewrite Hc11, (rd_con _ _ Hr).
  - rewrite <- Hkey. exact Hup.
Qed.
End store.
End IngestOutcomes.

(** * One image and its page *)

Module IngestExamples.
Import GoStr Json JobStore MediaFragment Presentation Resources PageTheorems ItemAudit ItemSound PageIndex PageDb PageStore PageSound PageKeeps PageBooks IngestStore IngestBooks LibraryHistory IngestOutcomes AnnotationExamples.
#[local] Open Scope Z_scope.
#[local] Existing Instances demo_schema demo_parse demo_print demo_sha any_annotation plain_numbers.

(** An open request of worker w1. *)
Definition asked : Requests.request_row :=
  {| Requests.q_workspace_id := 1; Requests.q_source := "ingest"; Requests.q_idempotency_key := "k1"; Requests.q_request_hash := "h1";
     Requests.q_status := Requests.InProgress; Requests.q_item_id := None; Requests.q_item_image_id := None; Requests.q_job_id := None;
     Requests.q_session_id := None; Requests.q_event_header := None; Requests.q_attempt_count := 1; Requests.q_max_attempts := 3;
     Requests.q_lease_until := Some 5000; Requests.q_locked_by := Some "w1"; Requests.q_error_message := None; Requests.q_updated_at := 900 |}.
Definition empty_shelf : pdb :=
  {| base := UploadExamples.library0; con := no_content; events := {| outbox := ∅; deliveries := ∅; subscriptions := ∅ |} |}.
Definition stocked : pdb := set_con (with_requests no_content {[ 1 := asked ]}) empty_shelf.

Lemma stocked_sound : sound (tables stocked).
Proof.
  apply (requests_near empty_shelf None 0 Quota.no_request {[ 1 := asked ]}); [|exact UploadExamples.library0_sound].
  intros i r [<- <-]%lookup_singleton_Some. vm_compute. reflexivity.
Qed.

Definition new_item : ItemOps.CreateItemParams :=
  {| ItemOps.C_DocumentType := ""; ItemOps.C_ID := "i2"; ItemOps.C_UserID := 7; ItemOps.C_WorkspaceID := 1; ItemOps.C_Name := "Letter";
     ItemOps.C_SourceType := "url"; ItemOps.C_SourceURL := ""; ItemOps.C_SourceManifest := ""; ItemOps.C_Metadata := "";
     ItemOps.C_ExternalReferenceID := ""; ItemOps.C_CallerIdempotencyKey := "" |}.
Definition new_image : ItemOps.CreateItemImageParams :=
  {| ItemOps.G_ItemID := ""; ItemOps.G_Sequence := 1; ItemOps.G_ImageURL := "https://library.example/iiif/letter.png"; ItemOps.G_StorageBytes := 0;
     ItemOps.G_CanvasURI := "https://scribe.test/canvas/7"; ItemOps.G_Width := 600; ItemOps.G_Height := 800; ItemOps.G_Label := ""; ItemOps.G_HocrURL := "" |}.
Definition baseline : OCRRun :=
  {| O_OriginalPage := ""; O_SessionID := "u8"; O_ItemImageID := None; O_ContextID := None; O_ImageURL := ""; O_Provider := "tesseract"; O_Model := "";
     O_OriginalHOCR := "<html/>"; O_OriginalText := "" |}.
Definition request : SingleFileIngestExternalRequest := {| XR_Source := "ingest"; XR_IdempotencyKey := "k1"; XR_LeaseOwner := "w1" |}.
Definition first_page : page_factory := fun _ _ => Some draft.

Definition single : SingleFileIngestCommit :=
  {| Item := new_item; Image := new_image; Run := baseline; IngestStore.PublicBaseURL := "https://scribe.test"; TranscriptionContext := Some 5;
     Reservation := UploadExamples.reservation; Limits := Quota.unboundedStorageQuotaLimits; External := Some request; BuildPage := Some first_page |}.
Definition manifest : ManifestIngestCommit :=
  {| M_Item := new_item; M_Canvases := [{| CanvasImage := new_image; CanvasRun := Some baseline; CanvasBuildPage := Some first_page; EnqueueJob := true |}];
     M_PublicBaseURL := "https://scribe.test"; M_TranscriptionContext := Some 5; M_Reservation := UploadExamples.reservation;
     M_Limits := Quota.unboundedStorageQuotaLimits; M_External := Some request |}.

Definition now := clock 2000 "u9".
Definition shelved : pdb := (CommitSingleFileIngest now settings single stocked).2.
Lemma ingests : exists r, CommitSingleFileIngest now settings single stocked = (Ok r, shelved) /\ S_ImageID r = 7 /\ S_TranscriptionJobID r = 1.
Proof. unfold shelved. eexists. split; [apply outcome_of; vm_compute; reflexivity|by split]. Qed.
Definition imported : pdb := (CommitManifestIngest now settings manifest stocked).2.
Lemma imports : exists r, CommitManifestIngest now settings manifest stocked = (Ok r, imported) /\ MR_TranscriptionJobIDs r = [1].
Proof. unfold imported. eexists. split; [apply outcome_of; vm_compute; reflexivity|done]. Qed.

Lemma first_page_attributes : attributes (Some first_page) 7.
Proof. intros f i u p [= <-] [= <-]. by right. Qed.
Lemma single_fits : single_ok single.
Proof. split; [vm_compute; reflexivity|reflexivity|exact first_page_attributes]. Qed.
Lemma manifest_fits : manifest_ok manifest.
Proof. split; [vm_compute; reflexivity|]. constructor; [exact first_page_attributes|constructor]. Qed.

Lemma single_file_ingest_commits_everything_witness : created new_item stocked shelved /\ used_up "r1" None shelved /\
  answered 1 request (Some "i2"%string) (Some 7) (Some 1) (Some "u8"%string) shelved /\
  installs 1 "i2" "https://scribe.test" new_image (Some first_page) (Some baseline) (Some 5) 7 (Some 1) stocked shelved.
Proof.
  destruct ingests as (r & H & Hi & Hj).
  pose proof (single_file_ingest_commits_everything now settings single stocked stocked_sound ltac:(vm_compute; reflexivity)) as Hw.
  rewrite H in Hw. cbv zeta in Hw. rewrite Hi, Hj in Hw. destruct Hw as (Hc & _ & Hin & _ & _ & _ & Ha & Hu).
  split; [exact Hc|]. split; [exact Hu|]. split; [exact (Ha request eq_refl)|exact Hin].
Defined.

Lemma manifest_ingest_commits_every_canvas_witness : created new_item stocked imported /\ used_up "r1" None imported /\
  exists img, installs 1 "i2" "https://scribe.test" new_image (Some first_page) (Some baseline) (Some 5) img (Some 1) stocked imported.
Proof.
  destruct imports as (r & H & Hj).
  pose proof (manifest_ingest_commits_every_canvas now settings manifest stocked stocked_sound manifest_fits) as Hw.
  rewrite H in Hw. cbv zeta in Hw. destruct Hw as (Hc & _ & (xs & _ & Hx & Hf) & _ & _ & Hu). split; [exact Hc|]. split; [exact Hu|].
  rewrite Hj in Hx. apply Forall2_cons_inv_l in Hf as ([img job] & xs' & Hin & Hf & ->). apply Forall2_nil_inv_l in Hf as ->.
  exists img. destruct job as [j|]; [|done]. injection Hx as <-. exact Hin.
Defined.

Lemma library_keeps_the_books_witness : exists s u, s = (SavePageWithCorrectionMetric now settings draft 1 None shelved).2 /\
  AuditRelationshipIntegrity (tables s) = Ok [] /\ ItemDb.a_usages (ItemDb.acc (base s)) !! 1 = Some u /\
  Quota.Images (Quota.used u) = 1 /\
  Quota.DurableBytes (Quota.used u) = Quota.DurableBytes (Quota.used (QuotaStore.measured (ItemDb.qview (tables s)) 1)).
Proof.
  assert (Hr : rtc lmove stocked (SavePageWithCorrectionMetric now settings draft 1 None shelved).2).
  { apply (rtc_l _ _ shelved); [exact (lm_ingest stocked now settings single single_fits)|]. apply rtc_once. exact (lm_save shelved now settings draft 1 None). }
  destruct (LibraryTheorems.library_keeps_the_books stocked _ stocked_sound ltac:(by intros i x Hx) Hr) as [Ha Hu].
  eexists. eexists. split; [reflexivity|]. split; [exact Ha|]. split; [vm_compute; reflexivity|]. split; [reflexivity|].
  eapply Hu; [discriminate|vm_compute; reflexivity].
Defined.
End IngestExamples.
