(* ===== verification/ContextDb.v ===== *)
(** * Recognition contexts: the tables and their statements

    Module [ContextDb]: contexts and selection rules (internal/database/migrations/0001_initial.sql) with the
    unique keys [uq_contexts_scope_name] and [uq_contexts_default_scope], and one definition per statement of
    internal/db/contexts.sql.go through the adapters of internal/db/contexts.go.  Everything else is the state of
    [ItemDb]; the contexts that its statements see are those of the catalog ([tables]). *)

From Stdlib Require Import ZArith Lia Ascii String.
From stdpp Require Import base gmap strings list sorting.
From S2P Require Import Prelude GoStrings Json JsonParse JobSchema JobStore Presentation ItemDb ItemOps PageStore.

Module ContextDb.
Import GoStr Json JobStore ItemOps.
#[local] Open Scope Z_scope.

Inductive context_err :=
| NoRows                          (* sql.ErrNoRows *)
| Duplicate                       (* a unique key *)
| OutOfRange                      (* an id beyond an int64 *)
| ScopeInvalid | NameRequired | RetiredInvalid | NotConfigured | WorkspaceRequired
| RuleInvalid                     (* validateSelectionRule *)
| ConditionsInvalid               (* rowToRule: conditions that do not decode *)
| InvalidContextPage | InvalidSelectionRulePage | SelectionRuleLimit | ContextResolutionLimit | InvalidContextMetadata.
#[export] Instance context_err_eq_dec : EqDecision context_err.
Proof. solve_decision. Defined.

(** ** Rows *)

(** The columns of a context that an UPDATE assigns.  A temperature is a float64 by its shortest literal. *)
Record settings := {
  s_name : string; s_description : option string; s_is_default : bool; s_document_type : string;
  s_segmentation_model : string; s_transcription_provider : string; s_transcription_model : string;
  s_temperature : option string; s_system_prompt : option string;
}.
#[export] Instance settings_eq_dec : EqDecision settings.
Proof. solve_decision. Defined.

Record row := {
  x_user_id : option Z; x_workspace_id : option Z; x_settings : settings; x_created_at : Z; x_updated_at : Z;
}.
Record rule_row := { r_context_id : Z; r_priority : Z; r_conditions : json; r_created_at : Z }.

Definition x_name (x : row) : string := s_name (x_settings x).
Definition x_is_default (x : row) : bool := s_is_default (x_settings x).
Definition is_system (x : row) : bool := bool_decide (x_workspace_id x = None).

(** The generated columns [scope_id] and [default_scope_id]. *)
Definition x_scope_id (x : row) : Z := default 0 (x_workspace_id x).
Definition x_default_scope_id (x : row) : option Z := if x_is_default x then Some (x_scope_id x) else None.

Definition with_settings (st : settings) (now : Z) (x : row) : row :=
  {| x_user_id := x_user_id x; x_workspace_id := x_workspace_id x; x_settings := st;
     x_created_at := x_created_at x; x_updated_at := now |}.
Definition no_default (st : settings) : settings :=
  {| s_name := s_name st; s_description := s_description st; s_is_default := false; s_document_type := s_document_type st;
     s_segmentation_model := s_segmentation_model st; s_transcription_provider := s_transcription_provider st;
     s_transcription_model := s_transcription_model st; s_temperature := s_temperature st; s_system_prompt := s_system_prompt st |}.

(** ** The store's context *)

Record Context := {
  DocumentType : string; ID : Z; UserID : option Z; WorkspaceID : option Z; Name : string; Description : string;
  IsDefault : bool; SegmentationModel : string; TranscriptionProvider : string; TranscriptionModel : string;
  Temperature : option string; SystemPrompt : string; CreatedAt : Z; UpdatedAt : Z;
}.

Definition rowToContext (id : Z) (x : row) : Context :=
  let st := x_settings x in
  {| DocumentType := s_document_type st; ID := id; UserID := x_user_id x; WorkspaceID := x_workspace_id x;
     Name := s_name st; Description := default ""%string (s_description st); IsDefault := s_is_default st;
     SegmentationModel := s_segmentation_model st; TranscriptionProvider := s_transcription_provider st;
     TranscriptionModel := s_transcription_model st; Temperature := s_temperature st;
     SystemPrompt := default ""%string (s_system_prompt st); CreatedAt := x_created_at x; UpdatedAt := x_updated_at x |}.

(** The JSON of a [Context]: its tags, with [omitempty], as a JSON column keeps it. *)
Definition present (k : string) (v : option json) : obj := match v with Some v => [(k, v)] | None => [] end.
Definition given (v : string) : option json := if bool_decide (v = ""%string) then None else Some (JString v).
Definition number (z : Z) : json := JNumber (itoa z).
Definition context_json (c : Context) : obj :=
  foldl (fun m kv => jset m kv.1 kv.2) [] (concat (A := string * json)
   [[("document_type", JString (DocumentType c)); ("id", number (ID c))];
    present "user_id" (number <$> UserID c); present "workspace_id" (number <$> WorkspaceID c);
    [("name", JString (Name c))]; present "description" (given (Description c));
    [("is_default", JBool (IsDefault c)); ("segmentation_model", JString (SegmentationModel c));
     ("transcription_provider", JString (TranscriptionProvider c)); ("transcription_model", JString (TranscriptionModel c))];
    present "temperature" (JNumber <$> Temperature c); present "system_prompt" (given (SystemPrompt c));
    [("created_at", JString (PageStore.format_time (CreatedAt c))); ("updated_at", JString (PageStore.format_time (UpdatedAt c)))]]).

(** ** The state *)

Record cdb := {
  base : ItemDb.idb;
  catalog : gmap Z row; next_context_id : Z;       (* contexts *)
  rules : gmap Z rule_row; next_rule_id : Z;       (* context_selection_rules *)
}.
Abbreviation ctx := (tx cdb context_err).

Definition set_base (t : ItemDb.idb) (s : cdb) : cdb :=
  {| base := t; catalog := catalog s; next_context_id := next_context_id s; rules := rules s; next_rule_id := next_rule_id s |}.
Definition set_catalog (m : gmap Z row) (n : Z) (s : cdb) : cdb :=
  {| base := base s; catalog := m; next_context_id := n; rules := rules s; next_rule_id := next_rule_id s |}.
Definition set_rules (m : gmap Z rule_row) (n : Z) (s : cdb) : cdb :=
  {| base := base s; catalog := catalog s; next_context_id := next_context_id s; rules := m; next_rule_id := n |}.

Definition context_row_of (id : Z) (x : row) : ItemDb.context_row :=
  {| ItemDb.c_workspace_id := x_workspace_id x; ItemDb.c_user_id := x_user_id x;
     ItemDb.c_fields := context_json (rowToContext id x) |}.
Definition set_contexts (m : gmap Z ItemDb.context_row) (t : ItemDb.idb) : ItemDb.idb :=
  {| ItemDb.users := ItemDb.users t; ItemDb.tenants := ItemDb.tenants t; ItemDb.members := ItemDb.members t;
     ItemDb.contexts := m; ItemDb.acc := ItemDb.acc t; ItemDb.queue := ItemDb.queue t; ItemDb.kids := ItemDb.kids t;
     ItemDb.items := ItemDb.items t; ItemDb.images := ItemDb.images t; ItemDb.next_image_id := ItemDb.next_image_id t;
     ItemDb.batches := ItemDb.batches t; ItemDb.files := ItemDb.files t |}.
(** The database of the other stores: their contexts are the rows of the catalog. *)
Definition tables (s : cdb) : ItemDb.idb :=
  set_contexts (map_imap (fun id x => Some (context_row_of id x)) (catalog s)) (base s).

(** What another store leaves: it has no statement that writes contexts. *)
Definition set_tables (t : ItemDb.idb) (s : cdb) : cdb := set_base (set_contexts (ItemDb.contexts (base s)) t) s.
Definition on_items {A} (m : ItemDb.itx A) (err : ItemDb.store_err -> context_err) : ctx A := fun s =>
  match m (tables s) with Ok (a, t) => Ok (a, set_tables t s) | Err e => Err (err e) end.
Definition one_of {A} (f : cdb -> option A) : ctx A := o ← tx_reads f; tx_lift (of_option NoRows o).

(** [uint64ToInt64] *)
Definition int64_of (v : Z) : result context_err Z := if MaxInt64 <? v then Err OutOfRange else Ok v.
Definition nullUint64 (v : option Z) : result context_err (option Z) :=
  match v with None => Ok None | Some v => v ← int64_of v; Ok (Some v) end.
(** [lastInsertID]: the driver reports an int64. *)
Definition lastInsertID (id : Z) : result context_err Z := int64_of id.
Definition contextDocumentType (v : string) : string := if bool_decide (v = ""%string) then "generic"%string else v.

(** ** Contexts *)

(** Two rows that a unique key keeps apart. *)
Definition clash (x y : row) : bool :=
  (x_scope_id x =? x_scope_id y)
  && (bool_decide (x_name x = x_name y) || bool_decide (is_Some (x_default_scope_id x) /\ is_Some (x_default_scope_id y))).
Definition fits (m : gmap Z row) (id : Z) (x : row) : bool :=
  bool_decide (map_Forall (fun k y => k = id \/ clash x y = false) m).

Definition CreateContextManual (now : Z) (user ws : option Z) (st : settings) : ctx Z := fun s =>
  let id := next_context_id s in
  let x := {| x_user_id := user; x_workspace_id := ws; x_settings := st; x_created_at := now; x_updated_at := now |} in
  if fits (catalog s) id x then Ok (id, set_catalog (<[id := x]> (catalog s)) (id + 1) s) else Err Duplicate.

(** The number of rows it changes: none for the values that are there already. *)
Definition UpdateContextManual (now id : Z) (st : settings) : ctx Z := fun s =>
  match catalog s !! id with
  | None => Ok (0, s)
  | Some x =>
      if bool_decide (x_settings x = st) then Ok (0, s) else
      let x' := with_settings st now x in
      if fits (catalog s) id x' then Ok (1, set_catalog (<[id := x']> (catalog s)) (next_context_id s) s) else Err Duplicate
  end.

Definition cleared_default (now : Z) (ws : option Z) (except id : Z) (x : row) : row :=
  if x_is_default x && bool_decide (x_workspace_id x = ws) && negb (id =? except)
  then with_settings (no_default (x_settings x)) now x else x.
Definition ClearDefaultContextsForScopeManual (now : Z) (ws : option Z) (except : Z) : ctx unit :=
  tx_modify (fun s => set_catalog (map_imap (fun id x => Some (cleared_default now ws except id x)) (catalog s)) (next_context_id s) s).

Definition owned_by (ws : Z) (x : row) : bool := bool_decide (x_workspace_id x = Some ws).
Definition readable_by (ws : Z) (x : row) : bool := is_system x || owned_by ws x.

Definition context_if (p : row -> bool) (id : Z) (s : cdb) : option row :=
  x ← catalog s !! id; if p x then Some x else None.
Definition GetContext (id : Z) : ctx row := one_of (fun s => catalog s !! id).
Definition LockContextForDeleteManual := GetContext.
Definition LockContextByIDForUseManual := GetContext.
Definition LockContextForWorkspaceDeleteManual (id : Z) (ws : option Z) : ctx Z :=
  one_of (fun s => ws ← ws; _ ← context_if (owned_by ws) id s; Some id).
(** [scope_id IN (0, ?)] *)
Definition LockContextForUseManual (id : Z) (ws : option Z) : ctx row :=
  one_of (context_if (fun x => (x_scope_id x =? 0) || match ws with Some ws => x_scope_id x =? ws | None => false end) id).

(** The first row, in the order of the ids, that satisfies a condition. *)
Definition contexts_where (p : row -> bool) (s : cdb) : list (Z * row) :=
  merge_sort by_id (filter (fun kx => p kx.2 = true) (map_to_list (catalog s))).
Definition first_context (p : row -> bool) (s : cdb) : option (Z * row) := head (contexts_where p s).

Definition system_default (x : row) : bool := x_is_default x && is_system x.
Definition HasDefaultContextManual (s : cdb) : bool := negb (bool_decide (contexts_where system_default s = [])).
Definition GetDefaultContextManual : cdb -> option (Z * row) := first_context system_default.
Definition GetSystemContextByNameManual (name : string) : cdb -> option (Z * row) :=
  first_context (fun x => is_system x && bool_decide (x_name x = name)).
(** [ORDER BY workspace_id IS NULL ASC LIMIT 1] *)
Definition GetDefaultContextForWorkspaceManual (ws : Z) (s : cdb) : option (Z * row) :=
  match first_context (fun x => x_is_default x && owned_by ws x) s with
  | Some r => Some r
  | None => first_context system_default s
  end.

Definition exists_context (p : row -> bool) (id : Z) (s : cdb) : bool := bool_decide (is_Some (context_if p id s)).
Definition WorkspaceCanReadContextManual (id ws : Z) : cdb -> bool := exists_context (readable_by ws) id.
Definition WorkspaceCanWriteContextManual (id ws : Z) : cdb -> bool := exists_context (owned_by ws) id.

Definition DeleteContextManual (id : Z) : ctx Z := fun s =>
  Ok (if bool_decide (is_Some (catalog s !! id)) then 1 else 0, set_catalog (delete id (catalog s)) (next_context_id s) s).
Definition DeleteContextForWorkspaceManual (id ws : Z) : ctx Z := fun s =>
  if exists_context (owned_by ws) id s then DeleteContextManual id s else Ok (0, s).

(** [ORDER BY is_default DESC, (workspace_id IS NULL) DESC, id ASC] *)
Definition catalog_le (a b : Z * row) : Prop :=
  let d x := Z.b2z (x_is_default x.2) in
  let y x := Z.b2z (is_system x.2) in
  d b < d a \/ d a = d b /\ (y b < y a \/ y a = y b /\ a.1 <= b.1).
#[export] Instance catalog_le_dec : RelDecision catalog_le.
Proof. intros a b. unfold catalog_le. apply _. Defined.

(** The keyset condition: the rows after (is_default, is_system, id). *)
Definition after_context (isDefault isSystem : bool) (cursor : Z) (kx : Z * row) : bool :=
  let d := Z.b2z (x_is_default kx.2) in
  let y := Z.b2z (is_system kx.2) in
  (cursor =? 0) || (d <? Z.b2z isDefault)
  || ((d =? Z.b2z isDefault) && (y <? Z.b2z isSystem))
  || ((d =? Z.b2z isDefault) && (y =? Z.b2z isSystem) && (cursor <? kx.1)).
Definition ListContextsPageForWorkspaceManual (systemOnly : bool) (ws cursor : Z) (isDefault isSystem : bool) (limit : Z)
    (s : cdb) : list (Z * row) :=
  take (Z.to_nat limit) (merge_sort catalog_le (filter (fun kx =>
    (is_system kx.2 || (negb systemOnly && owned_by ws kx.2)) && after_context isDefault isSystem cursor kx = true)
    (map_to_list (catalog s)))).

(** ** Selection rules: joined with their contexts *)

Definition rule_context (s : cdb) (r : rule_row) : option row := catalog s !! r_context_id r.
Definition rule_of (p : row -> bool) (s : cdb) (r : rule_row) : bool :=
  match rule_context s r with Some x => p x | None => false end.

(** [ORDER BY r.priority DESC, r.id ASC] *)
Definition rule_le (a b : Z * rule_row) : Prop :=
  r_priority b.2 < r_priority a.2 \/ r_priority a.2 = r_priority b.2 /\ a.1 <= b.1.
#[export] Instance rule_le_dec : RelDecision rule_le.
Proof. intros a b. unfold rule_le. apply _. Defined.
Definition rules_where (p : Z * rule_row -> bool) (s : cdb) : list (Z * rule_row) :=
  merge_sort rule_le (filter (fun kr => p kr = true) (map_to_list (rules s))).

Definition CreateSelectionRuleManual (now contextID priority : Z) (conditions : json) : ctx Z := fun s =>
  let id := next_rule_id s in
  Ok (id, set_rules (<[id := {| r_context_id := contextID; r_priority := priority; r_conditions := conditions;
                                r_created_at := now |}]> (rules s)) (id + 1) s).
Definition GetSelectionRuleByIDManual (id : Z) : ctx rule_row := one_of (fun s => rules s !! id).
Definition GetSelectionRuleForWorkspaceManual (ws id : Z) : ctx rule_row :=
  one_of (fun s => r ← rules s !! id; if rule_of (owned_by ws) s r then Some r else None).
Definition CountSelectionRulesForWorkspaceManual (ws : Z) (s : cdb) : Z :=
  Z.of_nat (length (filter (fun kr => rule_of (readable_by ws) s kr.2 = true) (map_to_list (rules s)))).
Definition ListSelectionRulesForResolutionManual (limit : Z) (s : cdb) : list (Z * rule_row) :=
  take (Z.to_nat limit) (rules_where (fun kr => rule_of is_system s kr.2) s).
Definition ListSelectionRulesForWorkspaceResolutionManual (ws limit : Z) (s : cdb) : list (Z * rule_row) :=
  take (Z.to_nat limit) (rules_where (fun kr => rule_of (readable_by ws) s kr.2) s).

Definition after_rule (cursor priority : Z) (kr : Z * rule_row) : bool :=
  (cursor =? 0) || (r_priority kr.2 <? priority) || ((r_priority kr.2 =? priority) && (cursor <? kr.1)).
Definition ListSelectionRulesPageForWorkspaceManual (ws contextID cursor priority limit : Z) (s : cdb) : list (Z * rule_row) :=
  take (Z.to_nat limit) (rules_where (fun kr => rule_of (readable_by ws) s kr.2
    && ((contextID =? 0) || (r_context_id kr.2 =? contextID)) && after_rule cursor priority kr) s).

Definition WorkspaceOwnsSelectionRuleManual (id ws : Z) (s : cdb) : bool :=
  match rules s !! id with Some r => rule_of (owned_by ws) s r | None => false end.
Definition DeleteSelectionRuleManual (id : Z) : ctx unit := tx_modify (fun s => set_rules (delete id (rules s)) (next_rule_id s) s).
Definition DeleteSelectionRuleForWorkspaceManual (id ws : Z) : ctx Z := fun s =>
  if WorkspaceOwnsSelectionRuleManual id ws s then Ok (1, set_rules (delete id (rules s)) (next_rule_id s) s) else Ok (0, s).
Definition DeleteSelectionRulesForContextManual (id : Z) : ctx unit :=
  tx_modify (fun s => set_rules (filter (fun kr => r_context_id kr.2 <> id) (rules s)) (next_rule_id s) s).

(** ** The optional links of other rows *)

Definition linked (cid : option Z) (link : option Z) : bool := bool_decide (is_Some cid /\ link = cid).
Definition on_base (f : ItemDb.idb -> ItemDb.idb) : ctx unit := tx_modify (fun s => set_base (f (base s)) s).

Definition unlink_run (cid : option Z) (n : ItemDb.ocr_run) : ItemDb.ocr_run :=
  if linked cid (ItemDb.n_context_id n)
  then {| ItemDb.n_workspace_id := ItemDb.n_workspace_id n; ItemDb.n_item_image_id := ItemDb.n_item_image_id n;
          ItemDb.n_context_id := None; ItemDb.n_bytes := ItemDb.n_bytes n |} else n.
Definition ClearOCRRunContextLinksManual (cid : option Z) : ctx unit := on_base (fun t =>
  ItemDb.set_kids (ItemGraph.with_runs (ItemDb.kids t) (ItemDb.current_runs (ItemDb.kids t))
    (unlink_run cid <$> ItemDb.ocr_runs (ItemDb.kids t))) t).

Definition unlink_job (now : Z) (cid : option Z) (j : Jobs.job_row) : Jobs.job_row :=
  let k := Jobs.j_key j in
  if linked cid (Jobs.k_context_id k)
  then {| Jobs.j_key := {| Jobs.k_workspace_id := Jobs.k_workspace_id k; Jobs.k_item_image_id := Jobs.k_item_image_id k;
            Jobs.k_context_id := None; Jobs.k_context_scope_id := None; Jobs.k_context_snapshot := Jobs.k_context_snapshot k;
            Jobs.k_input_revision := Jobs.k_input_revision k; Jobs.k_max_attempts := Jobs.k_max_attempts k;
            Jobs.k_created_at := Jobs.k_created_at k |};
          Jobs.j_status := Jobs.j_status j; Jobs.j_total_segments := Jobs.j_total_segments j;
          Jobs.j_completed_segments := Jobs.j_completed_segments j; Jobs.j_failed_segments := Jobs.j_failed_segments j;
          Jobs.j_attempt_count := Jobs.j_attempt_count j; Jobs.j_retry_after := Jobs.j_retry_after j;
          Jobs.j_lease_until := Jobs.j_lease_until j; Jobs.j_locked_by := Jobs.j_locked_by j;
          Jobs.j_current_annotation_id := Jobs.j_current_annotation_id j;
          Jobs.j_current_annotation_json := Jobs.j_current_annotation_json j;
          Jobs.j_last_result_annotation_json := Jobs.j_last_result_annotation_json j;
          Jobs.j_error_message := Jobs.j_error_message j; Jobs.j_updated_at := now |} else j.
Definition ClearTranscriptionJobContextLinksManual (now : Z) (cid : option Z) : ctx unit := on_base (fun t =>
  let q := ItemDb.queue t in
  ItemDb.set_queue {| ItemDb.q_jobs := unlink_job now cid <$> ItemDb.q_jobs q; ItemDb.q_attempts := ItemDb.q_attempts q;
                      ItemDb.q_checkpoints := ItemDb.q_checkpoints q; ItemDb.q_next_job_id := ItemDb.q_next_job_id q |} t).

Definition unlink_batch (now : Z) (cid : option Z) (b : ItemDb.batch_row) : ItemDb.batch_row :=
  if linked cid (ItemDb.b_context_id b)
  then {| ItemDb.b_item_id := ItemDb.b_item_id b; ItemDb.b_context_id := None; ItemDb.b_context_scope_id := None;
          ItemDb.b_context_snapshot := ItemDb.b_context_snapshot b; ItemDb.b_request_hash := ItemDb.b_request_hash b;
          ItemDb.b_creation_token := ItemDb.b_creation_token b; ItemDb.b_status := ItemDb.b_status b;
          ItemDb.b_created_at := ItemDb.b_created_at b; ItemDb.b_updated_at := now |} else b.
Definition ClearUploadBatchContextLinksManual (now : Z) (cid : option Z) : ctx unit := on_base (fun t =>
  ItemDb.set_batches (unlink_batch now cid <$> ItemDb.batches t) t).

Definition unlink_audit (cid : option Z) (a : ItemDb.audit_row) : ItemDb.audit_row :=
  if linked cid (ItemDb.u_context_id a)
  then {| ItemDb.u_workspace_id := ItemDb.u_workspace_id a; ItemDb.u_item_image_id := ItemDb.u_item_image_id a;
          ItemDb.u_context_id := None; ItemDb.u_database_bytes := ItemDb.u_database_bytes a |} else a.
Definition ClearProviderAuditContextLinksManual (cid : option Z) : ctx unit := on_base (fun t =>
  ItemDb.set_kids (ItemGraph.with_audits (ItemDb.kids t) (unlink_audit cid <$> ItemDb.provider_audits (ItemDb.kids t))) t).
End ContextDb.
