(* ===== verification/ContextStore.v ===== *)
(** * Recognition contexts: internal/store/contexts.go and internal/app/contexts.go

    Module [ContextStore]: the catalog of contexts, the selection rules and the resolution of the context of a
    request.  A method that runs a transaction is a [ctx] run by [run_tx]; the advisory lock around the seeding of the
    catalog is taken (its timeout is a failure of the infrastructure).  Module [SystemCatalog]: the presets of a
    start. *)

From Stdlib Require Import ZArith Lia Ascii String.
From stdpp Require Import base gmap strings list sorting.
From S2P Require Import Prelude GoStrings GoFloat Json JsonParse JobSchema JobStore Presentation ItemDb ItemOps PageStore ContextDb.

Module ContextStore.
Import GoStr Json JsonParse Presentation ItemOps ContextDb.
#[local] Open Scope Z_scope.

Definition MaxContextPageSize : Z := 100.
Definition MaxSelectionRulePageSize : Z := 100.
Definition MaxSelectionRulesPerWorkspace : Z := 100.
Definition MaxSelectionRuleConditions : nat := 32.
Definition MaxSelectionRuleFieldBytes : Z := 255.
Definition MaxSelectionRuleValueBytes : Z := 4096.
Definition MaxContextMetadataFields : nat := 64.
Definition MaxContextMetadataKeyBytes : Z := 255.
Definition MaxContextMetadataScalarBytes : Z := 4096.

Definition DocumentProfile (c : Context) : string :=
  if negb (bool_decide (DocumentType c = ""%string)) then DocumentType c else
  if bool_decide (SegmentationModel c = "newspapers"%string) || bool_decide (SegmentationModel c = "layout+kraken"%string)
  then "newspaper"%string else "generic"%string.

(** [contextCreateParams] and [contextUpdateParams], through [CreateContext] and [UpdateContext] of internal/db. *)
Definition contextUpdateParams (c : Context) : settings :=
  {| s_name := Name c; s_description := db_nullableString (Description c); s_is_default := IsDefault c;
     s_document_type := contextDocumentType (DocumentProfile c); s_segmentation_model := SegmentationModel c;
     s_transcription_provider := TranscriptionProvider c; s_transcription_model := TranscriptionModel c;
     s_temperature := Temperature c; s_system_prompt := db_nullableString (SystemPrompt c) |}.
Definition CreateContext (now : Z) (c : Context) : ctx Z :=
  userID ← tx_lift (nullUint64 (UserID c));
  workspaceID ← tx_lift (nullUint64 (WorkspaceID c));
  id ← CreateContextManual now userID workspaceID (contextUpdateParams c);
  tx_lift (lastInsertID id).
Definition UpdateContext (now id : Z) (c : Context) : ctx Z := UpdateContextManual now id (contextUpdateParams c).

Definition requireDeletedRow (affected : Z) : ctx unit := if affected =? 1 then mret tt else tx_fail NoRows.

(** ** Reading *)

Definition Get (id : Z) (s : cdb) : result context_err Context :=
  match catalog s !! id with Some x => Ok (rowToContext id x) | None => Err NoRows end.
Definition GetForWorkspace (id ws : Z) (s : cdb) : result context_err Context :=
  c ← Get id s;
  match WorkspaceID c with
  | None => Ok c
  | Some w => if w =? ws then Ok c else Err NoRows
  end.
Definition found (o : option (Z * row)) : result context_err Context :=
  match o with Some (id, x) => Ok (rowToContext id x) | None => Err NoRows end.
Definition GetDefault (s : cdb) : result context_err Context := found (GetDefaultContextManual s).
Definition GetDefaultForWorkspace (ws : Z) (s : cdb) : result context_err Context :=
  ws ← int64_of ws; found (GetDefaultContextForWorkspaceManual ws s).
Definition WorkspaceCanReadContext (ws id : Z) (s : cdb) : result context_err bool :=
  ws ← int64_of ws; Ok (WorkspaceCanReadContextManual id ws s).
Definition WorkspaceCanWriteContext (ws id : Z) (s : cdb) : result context_err bool :=
  ws ← int64_of ws; Ok (WorkspaceCanWriteContextManual id ws s).

Record ContextPageCursor := { K_ID : Z; K_IsDefault : bool; K_IsSystem : bool }.
Record ContextPage := { Contexts : list Context; NextCursor : option ContextPageCursor }.

Definition cursor_of (c : Context) : ContextPageCursor :=
  {| K_ID := ID c; K_IsDefault := IsDefault c; K_IsSystem := bool_decide (WorkspaceID c = None) |}.
Definition ListPageForWorkspace (ws : Z) (systemOnly : bool) (pageSize : Z) (cursor : option ContextPageCursor) (s : cdb)
    : result context_err ContextPage :=
  if ws =? 0 then Err InvalidContextPage else
  if (pageSize =? 0) || (MaxContextPageSize <? pageSize) then Err InvalidContextPage else
  if match cursor with Some k => K_ID k =? 0 | None => false end then Err InvalidContextPage else
  ws ← int64_of ws;
  let '(id, d, y) := match cursor with Some k => (K_ID k, K_IsDefault k, K_IsSystem k) | None => (0, false, false) end in
  let rows := ListContextsPageForWorkspaceManual systemOnly ws id d y (pageSize + 1) s in
  let hasMore := pageSize <? Z.of_nat (length rows) in
  let rows := if hasMore then take (Z.to_nat pageSize) rows else rows in
  let page := (fun kx => rowToContext kx.1 kx.2) <$> rows in
  Ok {| Contexts := page; NextCursor := if hasMore then cursor_of <$> last page else None |}.

(** ** Changing a context *)

Definition contextWorkspaceParam (ws : option Z) : result context_err (option Z) := nullUint64 ws.
Definition contextWorkspaceParamFromRow (ws : option Z) : result context_err (option Z) :=
  match ws with Some w => if w <? 0 then Err OutOfRange else Ok ws | None => Ok None end.
Definition no_rows (_ : ItemDb.store_err) : context_err := NoRows.

Definition create_context (now : Z) (c : Context) : ctx Z :=
  _ ← match UserID c, WorkspaceID c with
      | Some user, Some ws => on_items (ItemOps.LockWorkspaceMemberRole ws user) no_rows
      | _, _ => mret tt
      end;
  _ ← if IsDefault c then
        workspaceID ← tx_lift (contextWorkspaceParam (WorkspaceID c));
        ClearDefaultContextsForScopeManual now workspaceID 0
      else mret tt;
  CreateContext now c.

(** The context is read again after the commit. *)
Definition then_get (r : result context_err Z * cdb) : result context_err Context * cdb :=
  match r with (Ok id, s') => (Get id s', s') | (Err e, s') => (Err e, s') end.
(** The user and the workspace are given together, and neither is 0. *)
Definition valid_scope (c : Context) : bool :=
  match UserID c, WorkspaceID c with
  | Some user, Some ws => negb (user =? 0) && negb (ws =? 0)
  | None, None => true
  | _, _ => false
  end.
Definition Create (now : Z) (c : Context) (s : cdb) : result context_err Context * cdb :=
  if negb (valid_scope c) then (Err ScopeInvalid, s) else then_get (run_tx (create_context now c) s).

Definition update_context (now : Z) (c : Context) (ws : Z) : ctx Z :=
  _ ← if ws =? 0 then _ ← LockContextForDeleteManual (ID c); mret tt
      else _ ← LockContextForWorkspaceDeleteManual (ID c) (JobStore.nullableUint64 ws); mret tt;
  existing ← GetContext (ID c);
  _ ← if IsDefault c then
        workspaceID ← tx_lift (contextWorkspaceParamFromRow (x_workspace_id existing));
        ClearDefaultContextsForScopeManual now workspaceID (ID c)
      else mret tt;
  affected ← UpdateContext now (ID c) c;
  _ ← requireDeletedRow affected;
  mret (ID c).
Definition updateContext (now : Z) (c : Context) (ws : Z) (s : cdb) : result context_err Context * cdb :=
  then_get (run_tx (update_context now c ws) s).
Definition Update (now : Z) (c : Context) (s : cdb) : result context_err Context * cdb := updateContext now c 0 s.

Definition rescoped (user ws : option Z) (name : string) (isDefault : bool) (c : Context) : Context :=
  {| DocumentType := DocumentType c; ID := ID c; UserID := user; WorkspaceID := ws; Name := name;
     Description := Description c; IsDefault := isDefault; SegmentationModel := SegmentationModel c;
     TranscriptionProvider := TranscriptionProvider c; TranscriptionModel := TranscriptionModel c;
     Temperature := Temperature c; SystemPrompt := SystemPrompt c; CreatedAt := CreatedAt c; UpdatedAt := UpdatedAt c |}.
Definition UpdateForWorkspace (now : Z) (c : Context) (ws user : Z) (s : cdb) : result context_err Context * cdb :=
  if (ws =? 0) || (user =? 0) then (Err NoRows, s) else
  updateContext now (rescoped (Some user) (Some ws) (Name c) (IsDefault c) c) ws s.

Definition clearContextReferences (now id : Z) : ctx unit :=
  _ ← DeleteSelectionRulesForContextManual id;
  let contextID := JobStore.nullableUint64 id in
  _ ← ClearOCRRunContextLinksManual contextID;
  _ ← ClearTranscriptionJobContextLinksManual now contextID;
  _ ← ClearUploadBatchContextLinksManual now contextID;
  ClearProviderAuditContextLinksManual contextID.

Definition delete_context (now id ws : Z) : ctx unit :=
  _ ← if ws =? 0 then _ ← LockContextForDeleteManual id; mret tt
      else _ ← LockContextForWorkspaceDeleteManual id (JobStore.nullableUint64 ws); mret tt;
  _ ← clearContextReferences now id;
  affected ← (if ws =? 0 then DeleteContextManual id
              else workspaceParam ← tx_lift (int64_of ws); DeleteContextForWorkspaceManual id workspaceParam);
  requireDeletedRow affected.
Definition deleteContext (now id ws : Z) (s : cdb) : result context_err unit * cdb :=
  if id =? 0 then (Err NoRows, s) else run_tx (delete_context now id ws) s.
Definition Delete (now id : Z) (s : cdb) : result context_err unit * cdb := deleteContext now id 0 s.
Definition DeleteForWorkspace (now id ws : Z) (s : cdb) : result context_err unit * cdb :=
  if ws =? 0 then (Err NoRows, s) else deleteContext now id ws s.

(** ** The system's contexts *)

Definition ensure_default (now : Z) (c : Context) : ctx unit :=
  has ← tx_reads HasDefaultContextManual;
  if has : bool then mret tt else
  existing ← tx_reads (GetSystemContextByNameManual (Name c));
  match existing with
  | Some (id, _) => affected ← UpdateContext now id c; requireDeletedRow affected
  | None => _ ← CreateContext now c; mret tt
  end.
Definition EnsureDefault (now : Z) (defaultCtx : Context) (s : cdb) : result context_err unit * cdb :=
  run_tx (ensure_default now (rescoped None None (Name defaultCtx) true defaultCtx)) s.

Definition ensure_system (now : Z) (desired : Context) : ctx unit :=
  existing ← tx_reads (GetSystemContextByNameManual (Name desired));
  match existing with
  | Some (id, current) =>
      let isDefault := IsDefault desired && x_is_default current in
      _ ← UpdateContext now id (rescoped None None (Name desired) isDefault desired); mret tt
  | None =>
      isDefault ← (if IsDefault desired then has ← tx_reads HasDefaultContextManual; mret (negb has) else mret false);
      _ ← CreateContext now (rescoped None None (Name desired) isDefault desired); mret tt
  end.
Definition EnsureSystemContext (now : Z) (desired : Context) (s : cdb) : result context_err unit * cdb :=
  let desired := rescoped None None (TrimSpace (Name desired)) (IsDefault desired) desired in
  if bool_decide (Name desired = ""%string) then (Err NameRequired, s) else
  run_tx (ensure_system now desired) s.

(** The names to retire, trimmed, each once. *)
Fixpoint retired_names (desired : string) (names retired : list string) : result context_err (list string) :=
  match names with
  | [] => Ok retired
  | name :: names =>
      let name := TrimSpace name in
      if bool_decide (name = ""%string) || bool_decide (name = desired) then Err RetiredInvalid else
      retired_names desired names (if bool_decide (name ∈ retired) then retired else retired ++ [name])
  end.
Fixpoint retire (now : Z) (names : list string) : ctx unit :=
  match names with
  | [] => mret tt
  | name :: names =>
      r ← tx_reads (GetSystemContextByNameManual name);
      match r with
      | None => retire now names
      | Some (id, _) =>
          _ ← LockContextForDeleteManual id;
          _ ← clearContextReferences now id;
          affected ← DeleteContextManual id;
          _ ← requireDeletedRow affected;
          retire now names
      end
  end.
Definition replace_default (now : Z) (desired : Context) (retired : list string) : ctx unit :=
  existing ← tx_reads (GetSystemContextByNameManual (Name desired));
  let id := match existing with Some (id, _) => id | None => 0 end in
  _ ← ClearDefaultContextsForScopeManual now None id;
  _ ← if id =? 0 then _ ← CreateContext now desired; mret tt else _ ← UpdateContext now id desired; mret tt;
  retire now retired.
Definition ReplaceSystemDefault (now : Z) (desired : Context) (retiredNames : list string) (s : cdb) : result context_err unit * cdb :=
  let desired := rescoped None None (TrimSpace (Name desired)) true desired in
  if bool_decide (Name desired = ""%string) then (Err NameRequired, s) else
  match retired_names (Name desired) retiredNames [] with
  | Err e => (Err e, s)
  | Ok retired => run_tx (replace_default now desired retired) s
  end.

(** ** Selection rules *)

Record RuleCondition := { Field : string; Operator : string; Value : string }.
#[export] Instance RuleCondition_eq_dec : EqDecision RuleCondition.
Proof. solve_decision. Defined.
(** Nil conditions are [None]. *)
Record ContextSelectionRule := {
  L_ID : Z; L_ContextID : Z; L_Priority : Z; L_Conditions : option (list RuleCondition); L_CreatedAt : Z;
}.
Definition conditions (r : ContextSelectionRule) : list RuleCondition := default [] (L_Conditions r).

Definition operators : list string := ["eq"; "neq"; "contains"; "starts_with"; "ends_with"]%string.
Definition valid_condition (c : RuleCondition) : bool :=
  valid_utf8 (Field c) && negb (PageStore.blank (Field c)) && (len (Field c) <=? MaxSelectionRuleFieldBytes)
  && valid_utf8 (Value c) && (len (Value c) <=? MaxSelectionRuleValueBytes)
  && bool_decide (Operator c ∈ operators).
Definition validateSelectionRule (r : ContextSelectionRule) : result context_err unit :=
  if (L_ContextID r =? 0) || (MaxSelectionRuleConditions <? length (conditions r))%nat
     || negb (forallb valid_condition (conditions r)) then Err RuleInvalid else Ok tt.

(** [json.Marshal] of the conditions, and [json.Unmarshal] of the column. *)
Definition condition_json (c : RuleCondition) : json :=
  JObject [("field", JString (Field c)); ("operator", JString (Operator c)); ("value", JString (Value c))]%string.
Definition conditions_json (l : option (list RuleCondition)) : json :=
  match l with Some l => JArray (condition_json <$> l) | None => JNull end.
Definition decoded (r : result page_err string) : result context_err string :=
  match r with Ok v => Ok v | Err _ => Err ConditionsInvalid end.
Definition decode_condition (v : json) : result context_err RuleCondition :=
  match v with
  | JNull => Ok {| Field := ""; Operator := ""; Value := "" |}
  | JObject ms =>
      field ← decoded (string_field ms "field");
      operator ← decoded (string_field ms "operator");
      value ← decoded (string_field ms "value");
      Ok {| Field := field; Operator := operator; Value := value |}
  | _ => Err ConditionsInvalid
  end.
Fixpoint decode_conditions (l : list json) : result context_err (list RuleCondition) :=
  match l with
  | [] => Ok []
  | v :: l => c ← decode_condition v; cs ← decode_conditions l; Ok (c :: cs)
  end.
Definition rowToRule (id : Z) (r : rule_row) : result context_err ContextSelectionRule :=
  match r_conditions r with
  | JArray l =>
      cs ← decode_conditions l;
      let rule := {| L_ID := id; L_ContextID := r_context_id r; L_Priority := r_priority r; L_Conditions := Some cs;
                     L_CreatedAt := r_created_at r |} in
      _ ← validateSelectionRule rule;
      Ok rule
  | _ => Err ConditionsInvalid      (* null leaves the slice nil *)
  end.

Definition CreateSelectionRule (now : Z) (rule : ContextSelectionRule) : ctx Z :=
  id ← CreateSelectionRuleManual now (L_ContextID rule) (L_Priority rule) (conditions_json (L_Conditions rule));
  tx_lift (lastInsertID id).
Definition CreateRule (now : Z) (rule : ContextSelectionRule) (s : cdb) : result context_err ContextSelectionRule * cdb :=
  run_tx (_ ← tx_lift (validateSelectionRule rule);
          _ ← LockContextByIDForUseManual (L_ContextID rule);
          id ← CreateSelectionRule now rule;
          row ← GetSelectionRuleByIDManual id;
          tx_lift (rowToRule id row)) s.
Definition GetRule (id : Z) (s : cdb) : result context_err ContextSelectionRule :=
  match rules s !! id with Some r => rowToRule id r | None => Err NoRows end.

(** A nil slice is made empty. *)
Definition not_nil (rule : ContextSelectionRule) : ContextSelectionRule :=
  {| L_ID := L_ID rule; L_ContextID := L_ContextID rule; L_Priority := L_Priority rule;
     L_Conditions := Some (conditions rule); L_CreatedAt := L_CreatedAt rule |}.
Definition admit_rule (now ws : Z) (rule : ContextSelectionRule) : ctx ContextSelectionRule :=
  _ ← one_of (fun s => if bool_decide (ws ∈ ItemDb.tenants (base s)) then Some ws else None);
  canWrite ← tx_reads (WorkspaceCanWriteContextManual (L_ContextID rule) ws);
  if negb canWrite then tx_fail NoRows else
  _ ← LockContextForUseManual (L_ContextID rule) (JobStore.nullableUint64 ws);
  ruleCount ← tx_reads (CountSelectionRulesForWorkspaceManual ws);
  if MaxSelectionRulesPerWorkspace <=? ruleCount then tx_fail SelectionRuleLimit else
  id ← CreateSelectionRule now rule;
  row ← GetSelectionRuleForWorkspaceManual ws id;
  tx_lift (rowToRule id row).
Definition CreateRuleForWorkspace (now ws : Z) (rule : ContextSelectionRule) (s : cdb)
    : result context_err ContextSelectionRule * cdb :=
  if ws =? 0 then (Err NotConfigured, s) else
  run_tx (_ ← tx_lift (validateSelectionRule rule);
          workspaceParam ← tx_lift (int64_of ws);
          admit_rule now workspaceParam (not_nil rule)) s.

Definition DeleteRuleForWorkspace (ws id : Z) (s : cdb) : result context_err unit * cdb :=
  run_tx (workspaceID ← tx_lift (int64_of ws);
          affected ← DeleteSelectionRuleForWorkspaceManual id workspaceID;
          if affected =? 0 then tx_fail NoRows else mret tt) s.
Definition DeleteRule (id : Z) (s : cdb) : result context_err unit * cdb := run_tx (DeleteSelectionRuleManual id) s.
Definition WorkspaceOwnsSelectionRule (ws id : Z) (s : cdb) : result context_err bool :=
  if (ws =? 0) || (id =? 0) then Ok false else
  ws ← int64_of ws; Ok (WorkspaceOwnsSelectionRuleManual id ws s).

Fixpoint to_rules (rows : list (Z * rule_row)) : result context_err (list ContextSelectionRule) :=
  match rows with
  | [] => Ok []
  | (id, row) :: rows => rule ← rowToRule id row; rest ← to_rules rows; Ok (rule :: rest)
  end.
Definition boundedSelectionRules (rows : list (Z * rule_row)) : result context_err (list ContextSelectionRule) :=
  if MaxSelectionRulesPerWorkspace <? Z.of_nat (length rows) then Err ContextResolutionLimit else to_rules rows.

Record SelectionRulePageCursor := { V_ID : Z; V_Priority : Z }.
Record SelectionRulePage := { Rules : list ContextSelectionRule; NextRule : option SelectionRulePageCursor }.
Definition ListRulePageForWorkspace (ws contextID pageSize : Z) (cursor : option SelectionRulePageCursor) (s : cdb)
    : result context_err SelectionRulePage :=
  if ws =? 0 then Err InvalidSelectionRulePage else
  if (pageSize =? 0) || (MaxSelectionRulePageSize <? pageSize) then Err InvalidSelectionRulePage else
  if match cursor with Some k => V_ID k =? 0 | None => false end then Err InvalidSelectionRulePage else
  ws ← int64_of ws;
  let '(id, priority) := match cursor with Some k => (V_ID k, V_Priority k) | None => (0, 0) end in
  let rows := ListSelectionRulesPageForWorkspaceManual ws contextID id priority (pageSize + 1) s in
  let hasMore := pageSize <? Z.of_nat (length rows) in
  let rows := if hasMore then take (Z.to_nat pageSize) rows else rows in
  page ← to_rules rows;
  Ok {| Rules := page;
        NextRule := if hasMore then (fun r => {| V_ID := L_ID r; V_Priority := L_Priority r |}) <$> last page else None |}.

(** ** Resolution

    The callers pass no metadata or what [decodeContextMetadataJSON] decodes with [UseNumber], so the values are
    those of JSON, a number by its literal ([json.Number]); the other kinds of numbers do not occur. *)

Definition normalizeContextMetadataScalar (v : json) : result context_err string :=
  match v with
  | JNull => Ok "null"%string
  | JString s => Ok s
  | JBool b => Ok (if b then "true"%string else "false"%string)
  | JNumber lit => match GoFloat.ParseFloat lit with Some _ => Ok lit | None => Err InvalidContextMetadata end
  | JArray _ | JObject _ => Err InvalidContextMetadata
  end.
Definition normalized_field (field : string) (raw : json) : result context_err string :=
  if negb (valid_utf8 field) || PageStore.blank field || (MaxContextMetadataKeyBytes <? len field) then Err InvalidContextMetadata else
  value ← normalizeContextMetadataScalar raw;
  if negb (valid_utf8 value) || (MaxContextMetadataScalarBytes <? len value) then Err InvalidContextMetadata else
  Ok value.
(** Every error of a field is [ErrInvalidContextMetadata], so the order of the range does not matter. *)
Definition normalizeContextMetadata (metadata : gmap string json) : result context_err (gmap string string) :=
  if (MaxContextMetadataFields <? size metadata)%nat then Err InvalidContextMetadata else
  if bool_decide (map_Forall (fun k v => is_ok (normalized_field k v) = true) metadata)
  then Ok (map_imap (fun k v => match normalized_field k v with Ok x => Some x | Err _ => None end) metadata)
  else Err InvalidContextMetadata.

Definition HasSuffix (s p : string) : bool := HasPrefix (GoStr.rev s) (GoStr.rev p).
Definition holds (c : RuleCondition) (value : string) : bool :=
  if bool_decide (Operator c = "eq"%string) then bool_decide (value = Value c) else
  if bool_decide (Operator c = "neq"%string) then negb (bool_decide (value = Value c)) else
  if bool_decide (Operator c = "contains"%string) then Contains value (Value c) else
  if bool_decide (Operator c = "starts_with"%string) then HasPrefix value (Value c) else
  if bool_decide (Operator c = "ends_with"%string) then HasSuffix value (Value c) else false.
Fixpoint matchesAll (l : list RuleCondition) (metadata : gmap string string) : bool :=
  match l with
  | [] => true
  | c :: l =>
      match metadata !! Field c with
      | None => false
      | Some value => if holds c value then matchesAll l metadata else false
      end
  end.

(** The first rule that matches and whose context can be read. *)
Fixpoint first_match (get : Z -> result context_err Context) (metadata : gmap string string)
    (l : list ContextSelectionRule) : option Context :=
  match l with
  | [] => None
  | r :: l =>
      if matchesAll (conditions r) metadata then
        match get (L_ContextID r) with Ok c => Some c | Err _ => first_match get metadata l end
      else first_match get metadata l
  end.
Definition resolve (metadata : gmap string json) (rows : result context_err (list (Z * rule_row)))
    (get : Z -> result context_err Context) (def : result context_err Context) : result context_err (Context * bool) :=
  normalized ← normalizeContextMetadata metadata;
  rows ← rows;
  rules ← boundedSelectionRules rows;
  match first_match get normalized rules with
  | Some c => Ok (c, false)
  | None => def ← def; Ok (def, true)
  end.
Definition Resolve (metadata : gmap string json) (s : cdb) : result context_err (Context * bool) :=
  resolve metadata (Ok (ListSelectionRulesForResolutionManual (MaxSelectionRulesPerWorkspace + 1) s))
    (fun id => Get id s) (GetDefault s).
Definition ListSelectionRulesForWorkspaceResolution (ws limit : Z) (s : cdb) : result context_err (list (Z * rule_row)) :=
  ws ← int64_of ws; Ok (ListSelectionRulesForWorkspaceResolutionManual ws limit s).
Definition ResolveForWorkspace (ws : Z) (metadata : gmap string json) (s : cdb) : result context_err (Context * bool) :=
  if ws =? 0 then Err WorkspaceRequired else
  resolve metadata (ListSelectionRulesForWorkspaceResolution ws (MaxSelectionRulesPerWorkspace + 1) s)
    (fun id => GetForWorkspace id ws s) (GetDefaultForWorkspace ws s).
End ContextStore.

(** * The presets of a start: internal/app/contexts.go *)

Module SystemCatalog.
Import GoStr ContextDb ContextStore.
#[local] Open Scope Z_scope.

Definition retiredSystemContextNames : list string :=
  ["Default"; "Scribe Custom"; "Tesseract OCR"; "Kraken BLLA"; "Gemini Pro"; "Kraken CATMuS"; "Kraken BLLA + GLM-OCR";
   "Kraken BLLA + Gemini Pro"; "Kraken BLLA + Gemini Flash"; "Kraken BLLA + CATMuS Medieval"; "Kraken BLLA + CATMuS Print"]%string.

Definition preset (name description : string) (isDefault : bool) (segmentor provider model prompt : string) : Context :=
  {| DocumentType := ""; ID := 0; UserID := None; WorkspaceID := None; Name := name; Description := description;
     IsDefault := isDefault; SegmentationModel := segmentor; TranscriptionProvider := provider; TranscriptionModel := model;
     Temperature := None; SystemPrompt := prompt; CreatedAt := 0; UpdatedAt := 0 |}.
Definition documents : list (string * string) :=
  [("Letters", "kraken"); ("Medieval manuscripts", "kraken"); ("Newspapers", "newspapers")]%string.
Definition transcriptions : list (string * (string * string)) :=
  [("GLM-OCR", ("ollama", "glm-ocr:bf16")); ("Gemini Pro", ("gemini", "gemini-3.1-pro-preview"));
   ("Gemini Flash", ("gemini", "gemini-3.8-flash")); ("OpenAI", ("openai", "gpt-4.1"))]%string.
(** A preset of the nested loops; the first one is the default. *)
Definition line_preset (prompt : string) (isDefault : bool) (document segmentor label provider model : string) : Context :=
  preset (document ++ " + " ++ label) ("Segment " ++ document ++ " into lines and transcribe each crop with " ++ label ++ ".")
    isDefault segmentor provider model prompt.
(** [cfg.LLM.DefaultSystemPrompt] is the argument. *)
Definition systemContexts (prompt : string) : list Context :=
  app (foldl (fun catalog '(document, segmentor, (label, (provider, model))) =>
        app catalog [line_preset prompt (bool_decide (length catalog = 0%nat)) document segmentor label provider model])
      [] (d ← documents; t ← transcriptions; [(d, t)]))
    [preset "Medieval manuscripts + Kraken CATMuS" "Full-page BLLA recognition with CATMuS Medieval v1.6.2." false
       "kraken" "kraken" "catmus-medieval" "";
     preset "Letters + Kraken McCATMuS"
       ("Full-page BLLA recognition of 16th" ++ String "226"%char (String "128"%char (String "147"%char "")) ++
        "21st century handwriting with McCATMuS.")
       false "kraken" "kraken" "mccatmus" ""].

(** The names are distinct and one preset is the default; [accepts] is the verdict of the provider registry
    ([ValidateSegmentation] and [ValidateSelection]). *)
Definition validateSystemContextCatalog (accepts : Context -> bool) (catalog : list Context) : bool :=
  bool_decide (NoDup (Name <$> catalog)) && forallb accepts catalog
  && bool_decide (length (filter (fun c => IsDefault c = true) catalog) = 1%nat).

Fixpoint ensure_all (now : Z) (l : list Context) (s : cdb) : result context_err unit * cdb :=
  match l with
  | [] => (Ok tt, s)
  | c :: l =>
      match EnsureSystemContext now c s with
      | (Ok _, s') => ensure_all now l s'
      | r => r
      end
  end.
Definition EnsureSystemContexts (accepts : Context -> bool) (now : Z) (prompt : string) (s : cdb) : result context_err unit * cdb :=
  let catalog := systemContexts prompt in
  if negb (validateSystemContextCatalog accepts catalog) then (Err ScopeInvalid, s) else
  match ensure_all now catalog s with
  | (Ok _, s') =>
      match filter (fun c => IsDefault c = true) catalog with
      | c :: _ => ReplaceSystemDefault now c retiredSystemContextNames s'
      | [] => (Err NameRequired, s')        (* the zero context has no name *)
      end
  | r => r
  end.
End SystemCatalog.
