(* ===== verification/ContextKeeps.v ===== *)
(** * Recognition contexts: what their operations keep

    Module [ContextLinks]: clearing the links to a context and changing the table of contexts keep the
    other tables [sound].  Module [ContextKeeps]: the catalog's own invariant, and each operation of
    [ContextStore] as a change of the catalog. *)

From Stdlib Require Import ZArith Lia Ascii String.
From stdpp Require Import base gmap strings list sorting relations.
From S2P Require Import Prelude GoStrings Json JsonParse JobSchema JobStore JobInvariant Presentation Quota QuotaStore QuotaInvariant ItemDb ItemOps UploadBatches ItemAudit ItemPurge ItemSound PageStore ContextDb ContextStore.

Module ContextLinks.
Import GoStr Json JobInvariant ItemDb ItemAudit ItemPurge ItemMeasure ItemSound ContextDb.
#[local] Open Scope Z_scope.

(** What [clearContextReferences] leaves of the other tables. *)
Definition without_links (now : Z) (cid : option Z) (t : idb) : idb :=
  set_batches (unlink_batch now cid <$> batches t)
    (set_queue {| q_jobs := unlink_job now cid <$> q_jobs (queue t); q_attempts := q_attempts (queue t);
                  q_checkpoints := q_checkpoints (queue t); q_next_job_id := q_next_job_id (queue t) |}
      (set_kids (ItemGraph.with_audits
         (ItemGraph.with_runs (kids t) (current_runs (kids t)) (unlink_run cid <$> ocr_runs (kids t)))
         (unlink_audit cid <$> provider_audits (kids t))) t)).

Lemma unlinked_none link : linked None link = false.
Proof. unfold linked. apply bool_decide_eq_false. intros [[? [=]] _]. Qed.
Lemma without_none now t : without_links now None t = t.
Proof.
  unfold without_links.
  rewrite (map_fmap_ext _ id (batches t)), map_fmap_id by (intros; unfold unlink_batch; by rewrite unlinked_none).
  rewrite (map_fmap_ext _ id (q_jobs (queue t))), map_fmap_id by (intros; unfold unlink_job; by rewrite unlinked_none).
  rewrite (map_fmap_ext _ id (ocr_runs (kids t))), map_fmap_id by (intros; unfold unlink_run; by rewrite unlinked_none).
  rewrite (map_fmap_ext _ id (provider_audits (kids t))), map_fmap_id by (intros; unfold unlink_audit; by rewrite unlinked_none).
  by destruct t as [? ? ? ? ? [] [] ? ? ? ? ?].
Qed.

(** ** An unlinked row is the row but for its context *)

Section unlinked.
Context (now : Z) (cid : option Z).

Lemma unlink_run_same n : n_workspace_id (unlink_run cid n) = n_workspace_id n
  /\ n_item_image_id (unlink_run cid n) = n_item_image_id n /\ n_bytes (unlink_run cid n) = n_bytes n
  /\ n_context_id (unlink_run cid n) = (if linked cid (n_context_id n) then None else n_context_id n).
Proof. unfold unlink_run. by destruct (linked cid (n_context_id n)). Qed.
Lemma unlink_audit_same a : u_workspace_id (unlink_audit cid a) = u_workspace_id a
  /\ u_item_image_id (unlink_audit cid a) = u_item_image_id a /\ u_database_bytes (unlink_audit cid a) = u_database_bytes a
  /\ u_context_id (unlink_audit cid a) = (if linked cid (u_context_id a) then None else u_context_id a).
Proof. unfold unlink_audit. by destruct (linked cid (u_context_id a)). Qed.
Lemma unlink_batch_same b : b_item_id (unlink_batch now cid b) = b_item_id b /\ b_status (unlink_batch now cid b) = b_status b
  /\ b_context_id (unlink_batch now cid b) = (if linked cid (b_context_id b) then None else b_context_id b).
Proof. unfold unlink_batch. by destruct (linked cid (b_context_id b)). Qed.
Lemma unlink_job_same j :
  let k := Jobs.j_key j in let k' := Jobs.j_key (unlink_job now cid j) in
  Jobs.k_workspace_id k' = Jobs.k_workspace_id k /\ Jobs.k_item_image_id k' = Jobs.k_item_image_id k
  /\ Jobs.k_context_snapshot k' = Jobs.k_context_snapshot k /\ Jobs.k_input_revision k' = Jobs.k_input_revision k
  /\ Jobs.k_max_attempts k' = Jobs.k_max_attempts k
  /\ Jobs.k_context_id k' = (if linked cid (Jobs.k_context_id k) then None else Jobs.k_context_id k)
  /\ Jobs.j_status (unlink_job now cid j) = Jobs.j_status j /\ Jobs.j_attempt_count (unlink_job now cid j) = Jobs.j_attempt_count j
  /\ Jobs.j_locked_by (unlink_job now cid j) = Jobs.j_locked_by j.
Proof. cbv zeta. unfold unlink_job. by destruct (linked cid (Jobs.k_context_id (Jobs.j_key j))). Qed.

Lemma unlink_job_checks j : Jobs.job_checks j = true -> Jobs.job_checks (unlink_job now cid j) = true.
Proof.
  unfold unlink_job. destruct (linked _ _); [|done]. unfold Jobs.job_checks. simpl. rewrite !andb_true_iff. tauto.
Qed.

Lemma unlink_queue_inv t : queue_inv (jview t) -> queue_inv (jview (without_links now cid t)).
Proof.
  intros []. simpl in *.
  assert (Hj : forall id r, (unlink_job now cid <$> q_jobs (queue t)) !! id = Some r ->
    exists j, q_jobs (queue t) !! id = Some j /\ r = unlink_job now cid j).
  { intros id r. rewrite lookup_fmap. destruct (q_jobs (queue t) !! id) as [j|]; [|done]. intros [= <-]. eauto. }
  assert (Hk : forall id j, q_jobs (queue t) !! id = Some j -> (unlink_job now cid <$> q_jobs (queue t)) !! id = Some (unlink_job now cid j)).
  { intros id j Hl. by rewrite lookup_fmap, Hl. }
  assert (Ha : forall j, Jobs.active_image (unlink_job now cid j) = Jobs.active_image j).
  { intros j. pose proof (unlink_job_same j) as (_ & Hi & _ & _ & _ & _ & Hs & _). unfold Jobs.active_image. by rewrite Hi, Hs. }
  constructor; simpl.
  - intros id r (j & Hl & ->)%Hj. destruct (inv_checks0 id j Hl). split; [by apply unlink_job_checks|done].
  - done.
  - intros id1 id2 r1 r2 img (j1 & H1 & ->)%Hj (j2 & H2 & ->)%Hj. rewrite !Ha. by eapply inv_active0.
  - intros id r (j & Hl & ->)%Hj. pose proof (unlink_job_same j) as (_ & _ & _ & Hr & _ & _ & Hs & Hn & Hb).
    cbv zeta in *. rewrite Hs, Hn, Hb, Hr. by apply inv_running0.
  - intros id n a Hl. destruct (inv_attempt0 id n a Hl) as (? & j & Hl' & Hn & Hr). split; [done|].
    exists (unlink_job now cid j). pose proof (unlink_job_same j) as (_ & _ & _ & _ & _ & _ & Hs & Hc & _).
    rewrite Hs, Hc. split; [by apply Hk|done].
  - intros id r n (j & Hl & ->)%Hj. pose proof (unlink_job_same j) as (_ & _ & _ & _ & _ & _ & _ & Hc & _). rewrite Hc. by apply inv_history0.
  - done.
  - intros id r (j & Hl & ->)%Hj. pose proof (unlink_job_same j) as (_ & _ & _ & _ & Hm & _ & Hs & Hc & _). cbv zeta in *.
    rewrite Hs, Hc, Hm. by eapply inv_budget0.
  - intros id line Hl. destruct (inv_checkpoints0 id line Hl) as (j & Hl' & Hact). exists (unlink_job now cid j).
    pose proof (unlink_job_same j) as (_ & _ & _ & _ & _ & _ & Hs & _). rewrite Hs. split; [by apply Hk|done].
Qed.
End unlinked.

(** ** Another table of contexts *)

Section relink.
Context (now : Z) (cid : option Z) (cs : gmap Z context_row) (t : idb).
Definition relink : idb := set_contexts cs (without_links now cid t).

Hypothesis Hlink : forall ws c, Some c <> cid -> context_or_null t ws (Some c) = true -> context_or_null relink ws (Some c) = true.
Hypothesis Hcs : map_Forall (fun _ c => ok_context t c = true) cs.

Lemma relink_context ws o : context_or_null t ws o = true -> context_or_null relink ws (if linked cid o then None else o) = true.
Proof using Hlink.
  destruct (linked cid o) eqn:E; [done|]. destruct o as [c|]; [|done]. apply Hlink. intros <-.
  unfold linked in E. apply bool_decide_eq_false in E. apply E. split; [by eexists|done].
Qed.

Lemma relink_related : related t -> related relink.
Proof using Hlink Hcs.
  intros []. split; try done.
  - intros k r Hr. specialize (rel_requests0 k r Hr). simpl in rel_requests0 |- *. rewrite <- rel_requests0. unfold ok_request.
    assert (Hrj : request_job relink r = unlink_job now cid <$> request_job t r).
    { unfold request_job. destruct (r_transcription_job_id r) as [job|]; [|done]. simpl. rewrite lookup_fmap.
      destruct (q_jobs (queue t) !! job) as [j|]; [|done]. simpl. pose proof (unlink_job_same now cid j) as (Hw & Hi & _).
      cbv zeta in *. rewrite Hw, Hi. by destruct (_ && _). }
    assert (Hrr : request_run relink r = unlink_run cid <$> request_run t r).
    { unfold request_run. destruct (r_session_id r) as [sid|]; [|done]. simpl. rewrite lookup_fmap.
      destruct (ocr_runs (kids t) !! sid) as [n|]; [|done]. simpl. pose proof (unlink_run_same cid n) as (Hw & Hi & _).
      rewrite Hw, Hi. by destruct (_ && _). }
    rewrite Hrj, Hrr. f_equal; [f_equal|].
    + destruct (r_transcription_job_id r); [|done]. destruct (request_job t r) as [j|]; [|done]. simpl.
      pose proof (unlink_job_same now cid j) as (_ & Hi & _). cbv zeta in *. by rewrite Hi.
    + destruct (r_session_id r); [|done]. destruct (request_run t r) as [n|]; [|done]. simpl.
      pose proof (unlink_run_same cid n) as (_ & Hi & _). rewrite Hi. f_equal.
      destruct (r_transcription_job_id r); [|done]. destruct (request_job t r) as [j|]; [|done]. simpl.
      pose proof (unlink_job_same now cid j) as (_ & Hj & _). cbv zeta in *. by rewrite Hj.
  - intros k a'. simpl. rewrite lookup_fmap. destruct (provider_audits (kids t) !! k) as [a|] eqn:E; [|done]. intros [= <-].
    specialize (rel_audits0 k a E). unfold ok_audit in *. apply andb_true_iff in rel_audits0 as [H1 H2].
    pose proof (unlink_audit_same cid a) as (-> & -> & _ & ->). apply andb_true_iff. split; [done|by apply relink_context].
  - intros k n'. simpl. rewrite lookup_fmap. destruct (ocr_runs (kids t) !! k) as [n|] eqn:E; [|done]. intros [= <-].
    specialize (rel_runs0 k n E). unfold ok_run in *. apply andb_true_iff in rel_runs0 as [H1 H2].
    pose proof (unlink_run_same cid n) as (-> & -> & _ & ->). apply andb_true_iff. split; [done|by apply relink_context].
  - intros k sid Hk. specialize (rel_current0 k sid Hk). simpl in rel_current0 |- *. rewrite <- rel_current0. unfold ok_current.
    simpl. rewrite lookup_fmap. destruct (ocr_runs (kids t) !! sid) as [n|]; [|done]. simpl.
    pose proof (unlink_run_same cid n) as (_ & -> & _). done.
  - intros k j'. simpl. rewrite lookup_fmap. destruct (q_jobs (queue t) !! k) as [j|] eqn:E; [|done]. intros [= <-].
    specialize (rel_jobs0 k j E). unfold ok_job in *. apply andb_true_iff in rel_jobs0 as [H1 H2].
    pose proof (unlink_job_same now cid j) as (Hw & Hi & _ & _ & _ & Hc & _). cbv zeta in *. rewrite Hw, Hi, Hc.
    apply andb_true_iff. split; [done|by apply relink_context].
  - intros k a Hk. specialize (rel_attempts0 k a Hk). simpl in *. unfold job_parent in *. simpl. rewrite lookup_fmap.
    apply bool_decide_eq_true in rel_attempts0 as [j Hj]. rewrite Hj. by apply bool_decide_eq_true.
  - intros k a Hk. specialize (rel_checkpoints0 k a Hk). simpl in *. unfold job_parent in *. simpl. rewrite lookup_fmap.
    apply bool_decide_eq_true in rel_checkpoints0 as [j Hj]. rewrite Hj. by apply bool_decide_eq_true.
  - intros k b'. simpl. rewrite lookup_fmap. destruct (batches t !! k) as [b|] eqn:E; [|done]. intros [= <-].
    specialize (rel_batches0 k b E). unfold ok_batch in *. apply andb_true_iff in rel_batches0 as [H1 H2].
    pose proof (unlink_batch_same now cid b) as (-> & _ & ->). apply andb_true_iff. split; [done|by apply relink_context].
  - intros k f Hf. specialize (rel_files0 k f Hf). unfold ok_file in *. simpl. rewrite lookup_fmap.
    destruct (batches t !! k.1) as [b|]; [|done]. simpl. pose proof (unlink_batch_same now cid b) as (-> & _).
    apply andb_true_iff in rel_files0 as [H1 H2]. apply andb_true_iff. split; [done|].
    destruct (f_transcription_job_id f) as [job|]; [|done]. rewrite lookup_fmap.
    destruct (q_jobs (queue t) !! job) as [j|]; [|done]. simpl. pose proof (unlink_job_same now cid j) as (Hw & Hi & _).
    cbv zeta in *. by rewrite Hw, Hi.
Qed.

Lemma wsum_fmap {K A B} `{Countable K} (f : A -> B) (g : K -> B -> Z) (m : gmap K A) :
  wsum g (f <$> m) = wsum (fun k a => g k (f a)) m.
Proof.
  revert m. apply (map_ind (fun m => wsum g (f <$> m) = wsum (fun k a => g k (f a)) m)); [by rewrite fmap_empty|].
  intros k a m Hk IH. rewrite fmap_insert, !wsum_insert, IH; [done|done|by rewrite lookup_fmap, Hk].
Qed.

Lemma relink_stored w : related t -> stored relink w = stored t w.
Proof using Hlink Hcs.
  intros Hr. rewrite !stored_sums by (done || by apply relink_related). f_equal. unfold stored_bytes. simpl.
  rewrite !wsum_fmap.
  assert (Hn : forall k n, ocr_runs (kids t) !! k = Some n ->
    when (n_workspace_id (unlink_run cid n) =? w) (n_bytes (unlink_run cid n)) = when (n_workspace_id n =? w) (n_bytes n)).
  { intros k n _. by pose proof (unlink_run_same cid n) as (-> & _ & -> & _). }
  assert (Ha : forall k a, provider_audits (kids t) !! k = Some a ->
    when (u_workspace_id (unlink_audit cid a) =? w) (u_database_bytes (unlink_audit cid a)) = when (u_workspace_id a =? w) (u_database_bytes a)).
  { intros k a _. by pose proof (unlink_audit_same cid a) as (-> & _ & -> & _). }
  by rewrite (wsum_ext _ _ _ Hn), (wsum_ext _ _ _ Ha).
Qed.

Lemma relink_sound : sound t -> sound relink.
Proof using Hlink Hcs.
  intros Hs. destruct Hs. split; try done.
  - by apply relink_related.
  - by apply (qview_consistent t).
  - by apply (jview_inv (without_links now cid t)), unlink_queue_inv.
  - intros k b'. simpl. rewrite lookup_fmap. destruct (batches t !! k) as [b|] eqn:E; [|done]. intros [= <-] Hex.
    specialize (n_batches0 k b E Hex). unfold batch_sound in *. pose proof (unlink_batch_same now cid b) as (_ & -> & ->).
    destruct (b_status b); [done|destruct n_batches0 as [H1 ->]..]; (split; [done|by destruct (linked _ _)]).
  - intros k b'. simpl. rewrite lookup_fmap. destruct (batches t !! k) as [b|] eqn:E; [|done]. intros _. by eapply n_batch_names0.
  - intros k k' b1 b2. simpl. rewrite !lookup_fmap. destruct (batches t !! k) as [b|] eqn:E; [|done]. intros [= <-].
    destruct (batches t !! k') as [b'|] eqn:E'; [|done]. intros [= <-].
    pose proof (unlink_batch_same now cid b) as (-> & _). pose proof (unlink_batch_same now cid b') as (-> & _). by eapply n_one_batch0.
  - intros w u Hw Hu. rewrite relink_stored by done. by apply n_counted0.
Qed.
End relink.
End ContextLinks.

(** * The catalog *)

Module ContextKeeps.
Import GoStr Json ItemDb ItemAudit ItemSound ContextDb ContextStore ContextLinks.
#[local] Open Scope Z_scope.

Record catalog_sound (s : cdb) : Prop := {
  cs_apart : forall i j x y, catalog s !! i = Some x -> catalog s !! j = Some y -> i <> j -> clash x y = false;
  cs_ids : forall i x, catalog s !! i = Some x -> 0 < i < next_context_id s /\ i <= MaxInt64;
  cs_next : 0 < next_context_id s /\ 0 < next_rule_id s;
  cs_rules : forall i r, rules s !! i = Some r ->
    is_Some (catalog s !! r_context_id r) /\ is_ok (rowToRule i r) = true /\ 0 < i < next_rule_id s;
  cs_base : sound (tables s);
}.

Definition cleared (now : Z) (ws : option Z) (except : Z) (m : gmap Z row) : gmap Z row :=
  map_imap (fun id x => Some (cleared_default now ws except id x)) m.
Lemma lookup_cleared now ws except m id : cleared now ws except m !! id = cleared_default now ws except id <$> m !! id.
Proof. unfold cleared. rewrite map_lookup_imap. by destruct (m !! id). Qed.
Lemma cleared_scope now ws except id x : x_workspace_id (cleared_default now ws except id x) = x_workspace_id x
  /\ x_user_id (cleared_default now ws except id x) = x_user_id x /\ x_name (cleared_default now ws except id x) = x_name x.
Proof. unfold cleared_default. by destruct (_ && _). Qed.

Definition owner_ok (s : cdb) (x : row) : Prop := ok_context (base s) (context_row_of 0 x) = true.

(** The catalog and the rules become others, and the links to [cid] are cleared. *)
Definition changed (now : Z) (cid : option Z) (m : gmap Z row) (n : Z) (r : gmap Z rule_row) (nr : Z) (s : cdb) : cdb :=
  {| base := without_links now cid (base s); catalog := m; next_context_id := n; rules := r; next_rule_id := nr |}.

(** ** The changes that the operations are made of

    [sc] is the scope of the context that changes: a workspace or the system; [adds] says whether rules may be added. *)

Inductive edit (adds : bool) (sc : option Z) (s : cdb) : cdb -> Prop :=
| ed_insert x : x_workspace_id x = sc -> owner_ok s x -> next_context_id s <= MaxInt64 ->
    fits (catalog s) (next_context_id s) x = true ->
    edit adds sc s (set_catalog (<[next_context_id s := x]> (catalog s)) (next_context_id s + 1) s)
| ed_update now id x st : catalog s !! id = Some x -> x_workspace_id x = sc ->
    fits (catalog s) id (with_settings st now x) = true ->
    edit adds sc s (set_catalog (<[id := with_settings st now x]> (catalog s)) (next_context_id s) s)
| ed_clear now except : edit adds sc s (set_catalog (cleared now sc except (catalog s)) (next_context_id s) s)
| ed_remove now id x : catalog s !! id = Some x -> x_workspace_id x = sc ->
    edit adds sc s (changed now (Some id) (delete id (catalog s)) (next_context_id s)
                 (filter (fun kr => r_context_id kr.2 <> id) (rules s)) (next_rule_id s) s)
| ed_add_rule r x : adds = true -> catalog s !! r_context_id r = Some x -> x_workspace_id x = sc -> is_ok (rowToRule (next_rule_id s) r) = true ->
    edit adds sc s (set_rules (<[next_rule_id s := r]> (rules s)) (next_rule_id s + 1) s)
| ed_drop_rule id r x : rules s !! id = Some r -> catalog s !! r_context_id r = Some x -> x_workspace_id x = sc ->
    edit adds sc s (set_rules (delete id (rules s)) (next_rule_id s) s).

Lemma fits_spec m id x : fits m id x = true <-> forall k y, m !! k = Some y -> k <> id -> clash x y = false.
Proof.
  unfold fits. rewrite bool_decide_eq_true. split.
  - intros H k y Hk Hne. by destruct (H k y Hk).
  - intros H k y Hk. destruct (decide (k = id)); [by left|right]. by eapply H.
Qed.
Lemma clash_sym x y : clash x y = clash y x.
Proof.
  unfold clash. rewrite (Z.eqb_sym (x_scope_id x)). f_equal. f_equal; apply bool_decide_ext; [done|tauto].
Qed.

(** ** Each keeps the tables sound *)

Lemma tables_changed now cid m n r nr s :
  tables (changed now cid m n r nr s) = relink now cid (map_imap (fun id x => Some (context_row_of id x)) m) (tables s).
Proof. done. Qed.

Lemma changed_base now cid m n r nr s : catalog_sound s ->
  (forall id x, catalog s !! id = Some x -> Some id <> cid -> exists y, m !! id = Some y /\ x_workspace_id y = x_workspace_id x) ->
  (forall id y, m !! id = Some y -> owner_ok s y) ->
  sound (tables (changed now cid m n r nr s)).
Proof.
  intros Hs Hkeep Hown. rewrite tables_changed. apply relink_sound; [| |apply Hs].
  - intros ws c Hc. unfold context_or_null. simpl. rewrite !map_lookup_imap.
    destruct (catalog s !! c) as [x|] eqn:E; [|done]. destruct (Hkeep c x E Hc) as (y & -> & Hy). simpl.
    unfold c_scope_id. simpl. by rewrite Hy.
  - intros id y. rewrite map_lookup_imap. destruct (m !! id) as [x|] eqn:E; [|done]. intros [= <-]. by apply (Hown id x).
Qed.
Lemma catalog_changed m n s : set_catalog m n s = changed 0 None m n (rules s) (next_rule_id s) s.
Proof. unfold changed. by rewrite without_none. Qed.

Lemma owners s id x : catalog_sound s -> catalog s !! id = Some x -> owner_ok s x.
Proof.
  intros Hs Hx. pose proof (rel_contexts _ (n_related _ _ _ _ (cs_base _ Hs)) id (context_row_of id x)) as H.
  apply H. simpl. by rewrite map_lookup_imap, Hx.
Qed.

Lemma insert_base m n s id x : catalog_sound s -> owner_ok s x ->
  (forall y, catalog s !! id = Some y -> x_workspace_id x = x_workspace_id y) -> m = <[id := x]> (catalog s) ->
  sound (tables (set_catalog m n s)).
Proof.
  intros Hs Ho Hsame ->. rewrite catalog_changed. apply changed_base; [done| |].
  - intros k y Hk _. destruct (decide (k = id)) as [->|Hne].
    + exists x. by rewrite lookup_insert_eq, (Hsame y Hk).
    + exists y. by rewrite lookup_insert_ne.
  - intros k y. destruct (decide (k = id)) as [->|Hne]; [rewrite lookup_insert_eq; intros [= <-]; done|].
    rewrite lookup_insert_ne by done. by apply owners.
Qed.

Lemma insert_apart m id x : (forall i j y z, m !! i = Some y -> m !! j = Some z -> i <> j -> clash y z = false) -> fits m id x = true ->
  forall i j y z, <[id := x]> m !! i = Some y -> <[id := x]> m !! j = Some z -> i <> j -> clash y z = false.
Proof.
  intros Ha Hf i j y z. pose proof (proj1 (fits_spec _ _ _) Hf) as Hc. destruct (decide (i = id)) as [->|Hi], (decide (j = id)) as [->|Hj].
  - done.
  - rewrite lookup_insert_eq, lookup_insert_ne by done. intros [= <-] Hz _. by eapply Hc.
  - rewrite lookup_insert_ne, lookup_insert_eq by done. intros Hy [= <-] _. rewrite clash_sym. by eapply Hc.
  - rewrite !lookup_insert_ne by done. by eapply Ha.
Qed.

Lemma clash_mono x y x' y' : x_workspace_id x' = x_workspace_id x -> x_workspace_id y' = x_workspace_id y ->
  x_name x' = x_name x -> x_name y' = x_name y ->
  (x_is_default x' = true -> x_is_default x = true) -> (x_is_default y' = true -> x_is_default y = true) ->
  clash x y = false -> clash x' y' = false.
Proof.
  intros Hx Hy Hn Hm Hd He H. apply not_true_iff_false. intros Hc. apply not_true_iff_false in H. apply H.
  unfold clash, x_scope_id, x_default_scope_id in *. rewrite Hx, Hy, Hn, Hm in Hc.
  rewrite andb_true_iff, orb_true_iff, !bool_decide_eq_true in *. destruct Hc as [Hs [Hc|[H1 H2]]]; split; auto. right.
  split.
  - destruct (x_is_default x'); [|by destruct H1]. rewrite (Hd eq_refl). done.
  - destruct (x_is_default y'); [|by destruct H2]. rewrite (He eq_refl). done.
Qed.
Lemma cleared_less now ws except id x : x_is_default (cleared_default now ws except id x) = true -> x_is_default x = true.
Proof. unfold cleared_default. destruct (_ && _) eqn:E; [done|done]. Qed.

Lemma cleared_apart now ws except m :
  (forall i j y z, m !! i = Some y -> m !! j = Some z -> i <> j -> clash y z = false) ->
  forall i j y z, cleared now ws except m !! i = Some y -> cleared now ws except m !! j = Some z -> i <> j -> clash y z = false.
Proof.
  intros Ha i j y z. rewrite !lookup_cleared. destruct (m !! i) as [y0|] eqn:Ei; [|done]. destruct (m !! j) as [z0|] eqn:Ej; [|done].
  intros [= <-] [= <-] Hne. destruct (cleared_scope now ws except i y0) as (Hy1 & _ & Hy2).
  destruct (cleared_scope now ws except j z0) as (Hz1 & _ & Hz2).
  apply (clash_mono y0 z0); [done..|apply cleared_less|apply cleared_less|]. by eapply Ha.
Qed.

Lemma rules_kept s m n : catalog_sound s -> (forall id, is_Some (catalog s !! id) -> is_Some (m !! id)) ->
  forall i r, rules (set_catalog m n s) !! i = Some r ->
    is_Some (m !! r_context_id r) /\ is_ok (rowToRule i r) = true /\ 0 < i < next_rule_id (set_catalog m n s).
Proof. intros Hs Hm i r Hr. destruct (cs_rules _ Hs i r Hr) as (H1 & H2 & H3). auto. Qed.

Section edits.
Context (b : bool).

Lemma edit_sound sc s s' : catalog_sound s -> edit b sc s s' -> catalog_sound s'.
Proof.
  intros Hs He. pose proof (cs_next _ Hs) as [Hn Hnr]. destruct He as [x Hsc Ho Hmax Hf|now id x st Hx Hsc Hf|now except|now id x Hx Hsc|r x Hb Hx Hsc Hr|id r x Hr Hx Hsc].
  - split.
    + apply insert_apart; [by apply cs_apart|done].
    + intros i y. simpl. destruct (decide (i = next_context_id s)) as [->|Hne]; [lia|]. rewrite lookup_insert_ne by done.
      intros Hy. destruct (cs_ids _ Hs i y Hy). lia.
    + simpl. lia.
    + apply rules_kept; [done|]. intros id [y Hy]. destruct (decide (id = next_context_id s)) as [->|Hne].
      * rewrite lookup_insert_eq. by eexists.
      * rewrite lookup_insert_ne by done. by eexists.
    + eapply insert_base; [done|done| |done]. intros y Hy. destruct (cs_ids _ Hs _ _ Hy). lia.
  - split.
    + apply insert_apart; [by apply cs_apart|done].
    + intros i y. simpl. destruct (decide (i = id)) as [->|Hne]; [intros _; by eapply cs_ids|]. rewrite lookup_insert_ne by done. by apply cs_ids.
    + done.
    + apply rules_kept; [done|]. intros k [y Hy]. destruct (decide (k = id)) as [->|Hne].
      * rewrite lookup_insert_eq. by eexists.
      * rewrite lookup_insert_ne by done. by eexists.
    + eapply insert_base; [done| | |done]; [exact (owners s id x Hs Hx)|]. intros y Hy. simpl. congruence.
  - split.
    + apply cleared_apart. by apply cs_apart.
    + intros i y. simpl. rewrite lookup_cleared. destruct (catalog s !! i) as [z|] eqn:E; [|done]. intros _. by eapply cs_ids.
    + done.
    + apply rules_kept; [done|]. intros k [y Hy]. rewrite lookup_cleared, Hy. by eexists.
    + rewrite catalog_changed. apply changed_base; [done| |].
      * intros k y Hk _. rewrite lookup_cleared, Hk. eexists. split; [done|]. apply cleared_scope.
      * intros k y. rewrite lookup_cleared. destruct (catalog s !! k) as [z|] eqn:E; [|done]. intros [= <-].
        pose proof (owners s k z Hs E) as Ho. unfold owner_ok, ok_context in *. simpl in *.
        by destruct (cleared_scope now sc except k z) as (-> & -> & _).
  - split; simpl.
    + intros i j y z [_ Hy]%lookup_delete_Some [_ Hz]%lookup_delete_Some. by eapply cs_apart.
    + intros i y [_ Hy]%lookup_delete_Some. by eapply cs_ids.
    + done.
    + intros i r [Hr Hne]%map_lookup_filter_Some. simpl in Hne. destruct (cs_rules _ Hs i r Hr) as (H1 & H2 & H3).
      split; [|done]. by rewrite lookup_delete_ne.
    + apply changed_base; [done| |].
      * intros k y Hk Hne. exists y. by rewrite lookup_delete_ne by congruence.
      * intros k y [_ Hk]%lookup_delete_Some. by eapply owners.
  - split; simpl; try apply Hs; [lia|]. intros i r'. destruct (decide (i = next_rule_id s)) as [->|Hne].
    + rewrite lookup_insert_eq. intros [= <-]. split; [by eexists|split; [done|lia]].
    + rewrite lookup_insert_ne by done. intros Hl. destruct (cs_rules _ Hs i r' Hl) as (H1 & H2 & H3). split; [done|split; [done|lia]].
  - split; simpl; try apply Hs. intros i r' [_ Hl]%lookup_delete_Some. by eapply cs_rules.
Qed.
Lemma edits_sound sc s s' : catalog_sound s -> rtc (edit b sc) s s' -> catalog_sound s'.
Proof. intros Hs He. induction He as [|s t u Ht _ IH]; [done|]. apply IH. by eapply edit_sound. Qed.

(** ** The operations are edits of one scope *)

Lemma row_of_Ok {A} (f : cdb -> option A) s a s' : ContextDb.one_of f s = Ok (a, s') <-> f s = Some a /\ s' = s.
Proof. unfold ContextDb.one_of. cbv [mbind tx_bind tx_reads tx_lift of_option]. destruct (f s); naive_solver. Qed.
Lemma nullUint64_Ok v o : nullUint64 v = Ok o -> o = v.
Proof. destruct v as [v|]; simpl; [|by intros [= <-]]. unfold int64_of. destruct (_ <? _); [done|]. by intros [= <-]. Qed.
Lemma set_tables_same s : set_tables (tables s) s = s.
Proof. by destruct s as [[] ? ? ? ?]. Qed.
Lemma int64_of_Ok v w : int64_of v = Ok w -> w = v /\ v <= MaxInt64.
Proof. unfold int64_of. destruct (Z.ltb_spec MaxInt64 v); [done|]. by intros [= <-]. Qed.

Definition new_row (now : Z) (c : Context) : row :=
  {| x_user_id := UserID c; x_workspace_id := WorkspaceID c; x_settings := contextUpdateParams c;
     x_created_at := now; x_updated_at := now |}.

Lemma CreateContext_Ok now c s id s' : CreateContext now c s = Ok (id, s') ->
  id = next_context_id s /\ id <= MaxInt64 /\ fits (catalog s) id (new_row now c) = true /\
  s' = set_catalog (<[id := new_row now c]> (catalog s)) (id + 1) s.
Proof.
  unfold CreateContext. intros H. tx_bind H as u s1 H1. apply tx_lift_Ok in H1 as [Hu%nullUint64_Ok ->]. subst u.
  tx_bind H as w s1 H1. apply tx_lift_Ok in H1 as [Hw%nullUint64_Ok ->]. subst w.
  tx_bind H as k s1 H1. unfold CreateContextManual in H1. fold (new_row now c) in H1.
  destruct (fits _ _ _) eqn:Hf; [|done]. injection H1 as <- <-. apply tx_lift_Ok in H as [[-> Hmax]%int64_of_Ok ->]. done.
Qed.

Lemma insert_edit now c s id s' : owner_ok s (new_row now c) -> CreateContext now c s = Ok (id, s') -> edit b (WorkspaceID c) s s'.
Proof. intros Ho (-> & Hm & Hf & ->)%CreateContext_Ok. by apply ed_insert. Qed.

Lemma UpdateContextManual_edit now id x st s n s' : catalog s !! id = Some x -> UpdateContextManual now id st s = Ok (n, s') ->
  (n = 0 /\ x_settings x = st /\ s' = s) \/
  (n = 1 /\ fits (catalog s) id (with_settings st now x) = true
   /\ s' = set_catalog (<[id := with_settings st now x]> (catalog s)) (next_context_id s) s).
Proof.
  intros Hx. unfold UpdateContextManual. rewrite Hx. case_bool_decide; [intros [= <- <-]; by left|].
  destruct (fits _ _ _); [|done]. intros [= <- <-]. by right.
Qed.
Lemma update_edits now id x st s n s' : catalog s !! id = Some x -> UpdateContextManual now id st s = Ok (n, s') ->
  rtc (edit b (x_workspace_id x)) s s'.
Proof.
  intros Hx H. apply (UpdateContextManual_edit _ _ _ _ _ _ _ Hx) in H as [(-> & _ & ->)|(-> & Hf & ->)]; [reflexivity|].
  apply rtc_once. by eapply ed_update.
Qed.

Lemma run_tx_edits {A} (m : ctx A) (R : relation cdb) s : (forall a s', m s = Ok (a, s') -> rtc R s s') -> rtc R s (run_tx m s).2.
Proof. intros H. unfold run_tx. destruct (m s) as [[a s']|]; [by eapply H|reflexivity]. Qed.
Lemma then_get_edits (R : relation cdb) (r : result context_err Z * cdb) s : rtc R s r.2 -> rtc R s (then_get r).2.
Proof. by destruct r as [[]]. Qed.

Lemma create_edits now c s id s' : catalog_sound s -> valid_scope c = true -> create_context now c s = Ok (id, s') -> rtc (edit b (WorkspaceID c)) s s'.
Proof.
  intros Hs Hsc H. unfold create_context in H. tx_bind H as [] s0 H0.
  assert (s0 = s /\ owner_ok s (new_row now c)) as [-> Ho].
  { unfold valid_scope in Hsc. unfold owner_ok, ok_context. simpl. destruct (UserID c) as [user|], (WorkspaceID c) as [ws|]; try done.
    - unfold on_items in H0. destruct (ItemOps.LockWorkspaceMemberRole ws user (tables s)) as [[[] t]|] eqn:E; [|done]. injection H0 as <-.
      unfold ItemOps.LockWorkspaceMemberRole, ItemDb.one_of in E. cbv [mbind tx_bind tx_reads tx_lift of_option] in E.
      case_bool_decide; [|done]. injection E as <-. split; [apply set_tables_same|by apply bool_decide_eq_true].
    - by injection H0 as <-. }
  tx_bind H as [] s1 H1. assert (s1 = s \/ edit b (WorkspaceID c) s s1) as Hs1.
  { destruct (IsDefault c); [|injection H1 as <-; by left]. tx_bind H1 as w s2 H2. apply tx_lift_Ok in H2 as [->%nullUint64_Ok ->].
    injection H1 as <-. right. apply ed_clear. }
  assert (rtc (edit b (WorkspaceID c)) s s1) as Hr by (destruct Hs1 as [->|]; [reflexivity|by apply rtc_once]).
  eapply rtc_r; [exact Hr|]. eapply insert_edit; [|exact H].
  destruct Hs1 as [->|He]; [done|]. destruct He; exact Ho.
Qed.

Lemma Create_edits now c s : catalog_sound s -> rtc (edit b (WorkspaceID c)) s (Create now c s).2.
Proof.
  intros Hs. unfold Create. destruct (valid_scope c) eqn:Hc; [|reflexivity]. apply then_get_edits, run_tx_edits.
  intros id s' H. by eapply create_edits.
Qed.

Lemma context_if_Some p id s x : context_if p id s = Some x <-> catalog s !! id = Some x /\ p x = true.
Proof.
  unfold context_if. destruct (catalog s !! id) as [y|]; simpl; [|by split; [|intros []]].
  destruct (p y) eqn:E; split; [by intros [= ->]|by intros [[= ->] _]|done|intros [[= ->] ?]; congruence].
Qed.
Lemma owned_by_true ws x : owned_by ws x = true <-> x_workspace_id x = Some ws.
Proof. unfold owned_by. by rewrite bool_decide_eq_true. Qed.
Lemma context_param_Some v w : JobStore.nullableUint64 v = Some w -> w = v /\ v <> 0 /\ v <= MaxInt64.
Proof.
  unfold JobStore.nullableUint64. destruct (Z.eqb_spec v 0); [done|]. destruct (Z.ltb_spec MaxInt64 v); [done|]. by intros [= <-].
Qed.

(** Both ways to lock a context before a change. *)
Lemma lock_Ok id ws s u s' :
  (if ws =? 0 then _ ← LockContextForDeleteManual id; mret tt
   else _ ← LockContextForWorkspaceDeleteManual id (JobStore.nullableUint64 ws); mret tt) s = Ok (u, s') ->
  s' = s /\ exists x, catalog s !! id = Some x /\ (ws <> 0 -> x_workspace_id x = Some ws).
Proof.
  destruct (Z.eqb_spec ws 0) as [->|Hw]; intros H; tx_bind H as x s1 H1; injection H as _ <-.
  - apply row_of_Ok in H1 as [Hx ->]. split; [done|]. by exists x.
  - apply row_of_Ok in H1 as [Hx ->]. destruct (JobStore.nullableUint64 ws) as [w|] eqn:E; [|done].
    apply context_param_Some in E as (-> & _). simpl in Hx. destruct (context_if _ _ _) as [y|] eqn:Ey; [|done].
    apply context_if_Some in Ey as [Hy Ho%owned_by_true]. by eauto.
Qed.

Lemma update_context_edits now c ws s id s' : update_context now c ws s = Ok (id, s') ->
  exists x, catalog s !! ID c = Some x /\ (ws <> 0 -> x_workspace_id x = Some ws) /\ rtc (edit b (x_workspace_id x)) s s'.
Proof.
  intros H. unfold update_context in H. tx_bind H as u s0 H0. apply lock_Ok in H0 as (-> & x & Hx & Hw).
  exists x. split; [done|split; [done|]].
  tx_bind H as x' s1 H1. apply row_of_Ok in H1 as [Hx' ->]. simplify_eq.
  tx_bind H as [] s1 H1. assert (rtc (edit b (x_workspace_id x)) s s1 /\ exists y, catalog s1 !! ID c = Some y /\ x_workspace_id y = x_workspace_id x) as (Hr & y & Hy & Hyx).
  { destruct (IsDefault c); [|injection H1 as <-; by eauto using rtc_refl]. tx_bind H1 as w s2 H2. apply tx_lift_Ok in H2 as [Hp ->].
    assert (w = x_workspace_id x) as ->.
    { unfold contextWorkspaceParamFromRow in Hp. destruct (x_workspace_id x); [destruct (_ <? _); [done|]|]; by injection Hp as <-. }
    injection H1 as <-. split; [apply rtc_once, ed_clear|]. 
    exists (cleared_default now (x_workspace_id x) (ID c) (ID c) x). split; [|apply cleared_scope].
    etrans; [exact (lookup_cleared now (x_workspace_id x) (ID c) (catalog s) (ID c))|by rewrite Hx]. }
  tx_bind H as n s2 H2. tx_bind H as [] s3 H3. injection H as _ <-. unfold requireDeletedRow in H3. destruct (n =? 1); [|done].
  injection H3 as <-. rewrite Hr. rewrite <- Hyx. by eapply update_edits.
Qed.
Lemma updateContext_edits now c ws s : ws <> 0 -> rtc (edit b (Some ws)) s (updateContext now c ws s).2.
Proof.
  intros Hw. apply then_get_edits, run_tx_edits. intros id s' (x & _ & Hx & Hr)%update_context_edits. by rewrite Hx in Hr.
Qed.
Lemma Update_edits now c s : exists sc, rtc (edit b sc) s (Update now c s).2.
Proof.
  unfold Update, updateContext, run_tx. destruct (update_context now c 0 s) as [[id s']|] eqn:E; [|exists None; reflexivity].
  apply update_context_edits in E as (x & _ & _ & Hr). by exists (x_workspace_id x).
Qed.
Lemma UpdateForWorkspace_edits now c ws user s : rtc (edit b (Some ws)) s (UpdateForWorkspace now c ws user s).2.
Proof.
  unfold UpdateForWorkspace. destruct (Z.eqb_spec ws 0); [reflexivity|]. simpl. destruct (user =? 0); [reflexivity|]. by apply updateContext_edits.
Qed.

Lemma references_cleared now id s : clearContextReferences now id s =
  Ok (tt, changed now (JobStore.nullableUint64 id) (catalog s) (next_context_id s)
            (filter (fun kr => r_context_id kr.2 <> id) (rules s)) (next_rule_id s) s).
Proof. done. Qed.

(** The state after a deletion. *)
Definition removed (now id : Z) (s : cdb) : cdb :=
  changed now (Some id) (delete id (catalog s)) (next_context_id s) (filter (fun kr => r_context_id kr.2 <> id) (rules s)) (next_rule_id s) s.
Lemma nullable_id s id x : catalog_sound s -> catalog s !! id = Some x -> JobStore.nullableUint64 id = Some id.
Proof.
  intros Hs Hx. destruct (cs_ids _ Hs id x Hx). unfold JobStore.nullableUint64.
  rewrite (proj2 (Z.eqb_neq id 0)) by lia. by rewrite (proj2 (Z.ltb_ge MaxInt64 id)) by lia.
Qed.

Lemma delete_context_Ok now id ws s u s' : catalog_sound s -> delete_context now id ws s = Ok (u, s') ->
  s' = removed now id s /\ exists x, catalog s !! id = Some x /\ (ws <> 0 -> x_workspace_id x = Some ws).
Proof.
  intros Hs H. unfold delete_context in H. tx_bind H as v s0 H0. apply lock_Ok in H0 as (-> & x & Hx & Hw).
  split; [|by eauto]. tx_bind H as [] s1 H1. rewrite references_cleared, (nullable_id s id x) in H1 by done. injection H1 as <-.
  tx_bind H as n s2 H2. unfold requireDeletedRow in H. destruct (n =? 1); [|done]. injection H as _ <-.
  destruct (Z.eqb_spec ws 0) as [->|Hne].
  - by injection H2 as _ <-.
  - tx_bind H2 as w s3 H3. apply tx_lift_Ok in H3 as [[-> _]%int64_of_Ok ->]. unfold DeleteContextForWorkspaceManual in H2.
    destruct (exists_context _ _ _) eqn:E; [by injection H2 as _ <-|]. unfold exists_context in E.
    apply bool_decide_eq_false in E. destruct E. exists x. apply context_if_Some. split; [done|]. apply owned_by_true.
    by apply Hw.
Qed.

Lemma elem_contexts_where p s id x : (id, x) ∈ contexts_where p s <-> catalog s !! id = Some x /\ p x = true.
Proof.
  unfold contexts_where. rewrite merge_sort_Permutation, list_elem_of_filter, elem_of_map_to_list. simpl. tauto.
Qed.
Lemma first_context_Some p s id x : first_context p s = Some (id, x) -> catalog s !! id = Some x /\ p x = true.
Proof. unfold first_context. intros H. apply elem_contexts_where. apply head_Some_elem_of in H. done. Qed.
Lemma first_context_None p s : first_context p s = None <-> forall id x, catalog s !! id = Some x -> p x = false.
Proof.
  unfold first_context. rewrite head_None. split.
  - intros H id x Hx. destruct (p x) eqn:E; [|done]. assert ((id, x) ∈ contexts_where p s) as Hin by by apply elem_contexts_where.
    rewrite H in Hin. by apply not_elem_of_nil in Hin.
  - intros H. destruct (contexts_where p s) as [|[id x] l] eqn:E; [done|].
    assert ((id, x) ∈ contexts_where p s) as [Hx Hp]%elem_contexts_where by (rewrite E; by left). by rewrite (H id x Hx) in Hp.
Qed.
Lemma is_system_true x : is_system x = true <-> x_workspace_id x = None.
Proof. unfold is_system. by rewrite bool_decide_eq_true. Qed.
Lemma by_name_Some name s id x : GetSystemContextByNameManual name s = Some (id, x) ->
  catalog s !! id = Some x /\ x_workspace_id x = None /\ x_name x = name.
Proof.
  intros [Hx Hp]%first_context_Some. apply andb_true_iff in Hp as [Hs%is_system_true Hn]. by apply bool_decide_eq_true in Hn.
Qed.
Lemma by_name_None name s : GetSystemContextByNameManual name s = None <->
  forall id x, catalog s !! id = Some x -> x_workspace_id x = None -> x_name x <> name.
Proof.
  unfold GetSystemContextByNameManual. rewrite first_context_None. split.
  - intros H id x Hx Hs Hn. specialize (H id x Hx). by rewrite (proj2 (is_system_true x) Hs), bool_decide_true in H.
  - intros H id x Hx. destruct (is_system x) eqn:E; [|done]. apply is_system_true in E. simpl. apply bool_decide_eq_false. by eapply H.
Qed.

Lemma system_owner s now name d c : owner_ok s (new_row now (rescoped None None name d c)).
Proof. done. Qed.
Lemma EnsureDefault_edits now c s : rtc (edit b None) s (EnsureDefault now c s).2.
Proof.
  apply run_tx_edits. intros [] s' H. unfold ensure_default in H. tx_bind H as has s0 H0. injection H0 as <- <-.
  destruct (HasDefaultContextManual s); [injection H as <-; reflexivity|]. tx_bind H as ex s0 H0. injection H0 as <- <-.
  destruct (GetSystemContextByNameManual _ s) as [[id x]|] eqn:E.
  - apply by_name_Some in E as (Hx & Hsys & _). tx_bind H as n s1 H1. unfold requireDeletedRow in H.
    destruct (n =? 1); [|done]. injection H as <-. rewrite <- Hsys. by eapply update_edits.
  - tx_bind H as id s1 H1. injection H as <-. apply rtc_once. by eapply (insert_edit now _ s id s1 (system_owner _ _ _ _ _)).
Qed.

Lemma EnsureSystemContext_edits now c s : rtc (edit b None) s (EnsureSystemContext now c s).2.
Proof.
  unfold EnsureSystemContext. case_bool_decide as Hname; [reflexivity|]. apply run_tx_edits. intros [] s' H.
  unfold ensure_system in H. tx_bind H as ex s0 H0. injection H0 as <- <-.
  destruct (GetSystemContextByNameManual _ s) as [[id x]|] eqn:E.
  - apply by_name_Some in E as (Hx & Hsys & _). tx_bind H as n s1 H1. injection H as <-. rewrite <- Hsys. by eapply update_edits.
  - tx_bind H as d s1 H1. assert (s1 = s) as -> by (destruct (IsDefault _); by injection H1 as _ <-).
    tx_bind H as id s2 H2. injection H as <-. apply rtc_once. by eapply (insert_edit now _ s id s2 (system_owner _ _ _ _ _)).
Qed.

Lemma retire_edits now names s u s' : catalog_sound s -> retire now names s = Ok (u, s') -> rtc (edit b None) s s'.
Proof.
  intros Hs H. revert s Hs H. induction names as [|name names IH]; intros s Hs H; [injection H as _ <-; reflexivity|].
  simpl in H. tx_bind H as r s0 H0. injection H0 as <- <-. destruct (GetSystemContextByNameManual _ s) as [[id x]|] eqn:E; [|by apply IH].
  apply by_name_Some in E as (Hx & Hsys & _). tx_bind H as y s1 H1. apply row_of_Ok in H1 as [_ ->].
  tx_bind H as [] s1 H1. rewrite references_cleared, (nullable_id s id x) in H1 by done. injection H1 as <-.
  tx_bind H as n s2 H2. injection H2 as _ <-. tx_bind H as [] s3 H3. unfold requireDeletedRow in H3. destruct (_ =? 1); [|done].
  injection H3 as <-. assert (edit b None s (removed now id s)) as He by (rewrite <- Hsys; by eapply ed_remove).
  eapply rtc_l; [exact He|]. apply IH; [|done]. by eapply edit_sound.
Qed.

Lemma ReplaceSystemDefault_edits now c retired s : catalog_sound s -> rtc (edit b None) s (ReplaceSystemDefault now c retired s).2.
Proof.
  intros Hs. unfold ReplaceSystemDefault. case_bool_decide as Hname; [reflexivity|]. destruct (retired_names _ _ _) as [names|]; [|reflexivity].
  apply run_tx_edits. intros [] s' H. unfold replace_default in H. tx_bind H as ex s0 H0. injection H0 as <- <-.
  set (id := match GetSystemContextByNameManual _ s with Some (id, _) => id | None => 0 end) in H.
  tx_bind H as [] s1 H1. injection H1 as <-. set (s1 := set_catalog _ _ s) in *.
  assert (edit b None s s1) as H1 by apply ed_clear. tx_bind H as [] s2 H2.
  assert (rtc (edit b None) s1 s2) as Hr.
  { destruct (Z.eqb_spec id 0) as [Hid|Hid]; tx_bind H2 as k s3 H3; injection H2 as <-.
    - apply rtc_once. by eapply (insert_edit now _ s1 k s3 (system_owner _ _ _ _ _)).
    - destruct (GetSystemContextByNameManual _ s) as [[i x]|] eqn:E; [|done]. apply by_name_Some in E as (Hx & Hsys & _). subst id.
      set (y := cleared_default now None i i x). assert (x_workspace_id y = None) as Hy by (rewrite <- Hsys; apply cleared_scope).
      rewrite <- Hy. eapply update_edits; [|exact H3].
      etrans; [exact (lookup_cleared now None i (catalog s) i)|by rewrite Hx]. }
  eapply rtc_l; [exact H1|]. rewrite Hr. eapply retire_edits; [|exact H]. eapply edits_sound; [|exact Hr]. by eapply edit_sound.
Qed.

End edits.

(** ** Rules *)

Definition new_rule (now : Z) (rule : ContextSelectionRule) : rule_row :=
  {| r_context_id := L_ContextID rule; r_priority := L_Priority rule; r_conditions := conditions_json (L_Conditions rule);
     r_created_at := now |}.
Lemma CreateSelectionRule_Ok now rule s id s' : CreateSelectionRule now rule s = Ok (id, s') ->
  id = next_rule_id s /\ s' = set_rules (<[id := new_rule now rule]> (rules s)) (id + 1) s.
Proof.
  intros H. unfold CreateSelectionRule in H. tx_bind H as k s1 H1. injection H1 as <- <-.
  by apply tx_lift_Ok in H as [[-> _]%int64_of_Ok ->].
Qed.

Lemma CreateRule_edits now rule s : exists sc, rtc (edit true sc) s (CreateRule now rule s).2.
Proof.
  unfold CreateRule, run_tx. match goal with |- context [match ?m s with _ => _ end] => destruct (m s) as [[r s']|] eqn:H end;
    [|exists None; reflexivity]. simpl.
  tx_bind H as u s1 H1. apply tx_lift_Ok in H1 as [_ ->]. tx_bind H as x s1 H1. apply row_of_Ok in H1 as [Hx ->].
  tx_bind H as id s1 H1. apply CreateSelectionRule_Ok in H1 as [-> ->]. tx_bind H as row s2 H2. apply row_of_Ok in H2 as [Hrow ->].
  simpl in Hrow. rewrite lookup_insert_eq in Hrow. injection Hrow as <-. apply tx_lift_Ok in H as [Hr ->].
  exists (x_workspace_id x). apply rtc_once. eapply ed_add_rule; [done|exact Hx|done|]. by rewrite Hr.
Qed.

(** An admitted rule: its context is the workspace's own, and there was room for it. *)
Lemma CreateRuleForWorkspace_Ok now ws rule s r s' : CreateRuleForWorkspace now ws rule s = (Ok r, s') ->
  ws <> 0 /\ CountSelectionRulesForWorkspaceManual ws s < MaxSelectionRulesPerWorkspace /\
  (exists x, catalog s !! L_ContextID rule = Some x /\ x_workspace_id x = Some ws) /\
  rowToRule (next_rule_id s) (new_rule now (not_nil rule)) = Ok r /\
  s' = set_rules (<[next_rule_id s := new_rule now (not_nil rule)]> (rules s)) (next_rule_id s + 1) s.
Proof.
  unfold CreateRuleForWorkspace. destruct (Z.eqb_spec ws 0); [done|]. intros H. apply run_tx_Ok in H.
  tx_bind H as u s1 H1. apply tx_lift_Ok in H1 as [_ ->]. tx_bind H as w s1 H1. apply tx_lift_Ok in H1 as [[-> _]%int64_of_Ok ->].
  unfold admit_rule in H. tx_bind H as v s1 H1. apply row_of_Ok in H1 as [_ ->]. tx_bind H as can s1 H1. injection H1 as <- <-.
  destruct (WorkspaceCanWriteContextManual _ _ _) eqn:Hcan; [|done]. cbn [negb] in H. tx_bind H as x s1 H1. apply row_of_Ok in H1 as [_ ->].
  tx_bind H as count s1 H1. injection H1 as <- <-. destruct (Z.leb_spec MaxSelectionRulesPerWorkspace (CountSelectionRulesForWorkspaceManual ws s)) as [|Hcount]; [done|].
  tx_bind H as id s1 H1. apply CreateSelectionRule_Ok in H1 as [-> ->]. tx_bind H as row s2 H2. apply row_of_Ok in H2 as [Hrow ->].
  cbn [rules set_rules] in Hrow. rewrite lookup_insert_eq in Hrow. apply tx_lift_Ok in H as [Hr ->].
  unfold WorkspaceCanWriteContextManual, exists_context in Hcan. apply bool_decide_eq_true in Hcan as [y [Hy Ho%owned_by_true]%context_if_Some].
  cbn [option_bind mbind] in Hrow. destruct (rule_of _ _ _); [|done]. injection Hrow as <-. by eauto 10.
Qed.
Lemma CreateRuleForWorkspace_edits now ws rule s : rtc (edit true (Some ws)) s (CreateRuleForWorkspace now ws rule s).2.
Proof.
  destruct (CreateRuleForWorkspace now ws rule s) as [[r|e] s'] eqn:H; simpl.
  - apply CreateRuleForWorkspace_Ok in H as (_ & _ & (x & Hx & Hw) & Hr & ->). apply rtc_once.
    apply (ed_add_rule _ _ _ (new_rule now (not_nil rule)) x eq_refl Hx Hw). by rewrite Hr.
  - unfold CreateRuleForWorkspace in H. destruct (ws =? 0); [by injection H as _ <-|]. by apply run_tx_Err in H as ->.
Qed.

Lemma rule_of_true p s r : rule_of p s r = true <-> exists x, catalog s !! r_context_id r = Some x /\ p x = true.
Proof.
  unfold rule_of, rule_context. destruct (catalog s !! r_context_id r) as [x|]; [|by split; [|intros (? & ? & _)]].
  split; [by eauto|by intros (y & [= ->] & Hy)].
Qed.
Lemma DeleteRuleForWorkspace_edits b ws id s : rtc (edit b (Some ws)) s (DeleteRuleForWorkspace ws id s).2.
Proof.
  apply run_tx_edits. intros [] s' H. tx_bind H as w s1 H1. apply tx_lift_Ok in H1 as [[-> _]%int64_of_Ok ->].
  tx_bind H as n s1 H1. unfold DeleteSelectionRuleForWorkspaceManual in H1. destruct (WorkspaceOwnsSelectionRuleManual id ws s) eqn:E.
  - injection H1 as <- <-. injection H as <-. unfold WorkspaceOwnsSelectionRuleManual in E. destruct (rules s !! id) as [r|] eqn:Hr; [|done].
    apply rule_of_true in E as (x & Hx & Hw%owned_by_true). apply rtc_once. by eapply ed_drop_rule.
  - injection H1 as <- <-. done.
Qed.
Lemma DeleteRule_edits b id s : catalog_sound s -> exists sc, rtc (edit b sc) s (DeleteRule id s).2.
Proof.
  intros Hs. unfold DeleteRule. simpl. destruct (rules s !! id) as [r|] eqn:Hr.
  - destruct (cs_rules _ Hs id r Hr) as [[x Hx] _]. exists (x_workspace_id x). apply rtc_once. by eapply ed_drop_rule.
  - exists None. rewrite delete_id by done. by destruct s.
Qed.
Lemma Delete_edits b now id ws s : catalog_sound s -> ws <> 0 -> rtc (edit b (Some ws)) s (deleteContext now id ws s).2.
Proof.
  intros Hs Hw. unfold deleteContext. destruct (id =? 0); [reflexivity|]. apply run_tx_edits.
  intros u s' (-> & x & Hx & Hsc)%delete_context_Ok; [|done]. apply rtc_once. eapply ed_remove; [done|by apply Hsc].
Qed.
Lemma Delete_system_edits b now id s : catalog_sound s -> exists sc, rtc (edit b sc) s (Delete now id s).2.
Proof.
  intros Hs. unfold Delete, deleteContext. destruct (id =? 0); [by exists None|]. unfold run_tx.
  destruct (delete_context now id 0 s) as [[u s']|] eqn:E; [|exists None; reflexivity].
  apply delete_context_Ok in E as (-> & x & Hx & _); [|done]. exists (x_workspace_id x). apply rtc_once. by eapply ed_remove.
Qed.
End ContextKeeps.
