(* ===== verification/ContextTheorems.v ===== *)
(** * Recognition contexts: histories of the catalog and of the other tables

    Module [ContextFrame]: no operation on items or upload batches writes contexts.  Module [ContextHistory]: the
    calls that workspaces, the system and the other stores make, and what every history of them keeps. *)

From Stdlib Require Import ZArith Lia Ascii String.
From stdpp Require Import base gmap strings list sorting relations.
From S2P Require Import Prelude GoStrings Json JobSchema JobStore JobInvariant MediaFragment Presentation Quota QuotaStore QuotaOps ItemDb ItemOps UploadBatches UploadOps ItemAudit ItemPurge ItemSound UploadTheorems UploadOutcomes ContextDb ContextStore ContextKeeps.

Module ContextFrame.
Import GoStr JobStore MediaFragment UploadRef Quota QuotaStore QuotaOps ItemDb ItemGraph ItemOps UploadBatches UploadOps UploadHistory.
#[local] Open Scope Z_scope.

Definition keeps {A} (m : itx A) : Prop := forall s a s', m s = Ok (a, s') -> contexts s' = contexts s.

Section keeps.
Context {A B : Type}.
Lemma same_ret (a : A) : keeps (mret a).
Proof. by intros s b s' [= _ <-]. Qed.
Lemma same_fail e : keeps (tx_fail (A := A) e).
Proof. by intros s b s'. Qed.
Lemma same_lift (r : result store_err A) : keeps (tx_lift r).
Proof. by intros s b s' [_ ->]%tx_lift_Ok. Qed.
Lemma same_reads (f : idb -> A) : keeps (tx_reads f).
Proof. by intros s b s' [= _ <-]. Qed.
Lemma keeps_one_of (f : idb -> option A) : keeps (one_of f).
Proof. intros s b s'. unfold one_of. cbv [mbind tx_bind tx_reads tx_lift of_option]. destruct (f s); [|done]. by intros [= _ <-]. Qed.
Lemma same_bind (m : itx A) (k : A -> itx B) : keeps m -> (forall a, keeps (k a)) -> keeps (m ≫= k).
Proof. intros Hm Hk s b s' (a & s1 & H1 & H2)%tx_bind_Ok. apply Hm in H1. apply Hk in H2. congruence. Qed.
Lemma keeps_quota (m : qtx A) : keeps (quota m).
Proof. by intros s a s' (q & _ & ->)%ItemSound.quota_Ok. Qed.
Lemma keeps_found (m : itx A) : keeps m -> keeps (found m).
Proof. intros Hm s a s' H. unfold found in H. repeat case_match; simplify_eq. by eapply Hm. Qed.
Lemma keeps_measure f : keeps (measure f).
Proof. intros s a s' H. unfold measure in H. case_match; by simplify_eq. Qed.
Lemma keeps_kids f : keeps (on_kids f).
Proof. by intros s a s' [= _ <-]. Qed.
Lemma keeps_queue f : keeps (on_queue f).
Proof. by intros s a s' [= _ <-]. Qed.
End keeps.

(** A statement: every case of it leaves the contexts alone. *)
Ltac statement :=
  let s := fresh in let a := fresh in let s' := fresh in let H := fresh in intros s a s' H;
  match type of H with ?l = ?r => let l' := eval hnf in l in change (l' = r) in H end;
  simplify_eq/=; repeat (case_match; simplify_eq/=); done.
Create HintDb contexts.
#[export] Hint Resolve keeps_quota keeps_kids keeps_queue keeps_measure keeps_one_of : contexts.
Ltac keeps_step :=
  lazymatch goal with
  | |- keeps (mret _) => apply same_ret
  | |- keeps (tx_fail _) => apply same_fail
  | |- keeps (tx_lift _) => apply same_lift
  | |- keeps (tx_reads _) => apply same_reads
  | |- keeps (found _) => apply keeps_found
  | |- keeps (_ ≫= _) => apply same_bind; [|intros ?]
  | |- keeps (if ?b then _ else _) => destruct b
  | |- keeps (match ?x with _ => _ end) => destruct x
  end.
Ltac solve_keeps := repeat keeps_step; eauto with contexts.

Lemma keeps_deleted m : keeps m -> keeps (requireDeletedRow m).
Proof. intros Hm. unfold requireDeletedRow. by solve_keeps. Qed.
Lemma keeps_update k wh set : keeps (update_file k wh set).
Proof. unfold update_file. statement. Qed.
#[export] Hint Resolve keeps_deleted keeps_update : contexts.

Section operations.
Context `{UrlParser}.

Lemma graph_keeps now ws id img : keeps (deleteItemResourceGraph now ws id img).
Proof.
  unfold deleteItemResourceGraph. solve_keeps; try statement. apply keeps_deleted.
  unfold DeleteItemImageForWorkspaceManual. statement.
Qed.
#[local] Hint Resolve graph_keeps : contexts.

Lemma cleanup_keeps e img url ws bytes now : keeps (enqueueImageCleanup e img url ws bytes now).
Proof. unfold enqueueImageCleanup, enqueueTripletImageCleanup. solve_keeps. Qed.
Lemma item_cleanup_keeps e id ws now : keeps (enqueueTripletItemCleanup e id ws now).
Proof. unfold enqueueTripletItemCleanup. solve_keeps. Qed.
Lemma each_image_keeps e now l m : keeps (each_image e now l m).
Proof. revert m. induction l as [|i l IH]; intros m; simpl; [apply same_ret|]. unfold enqueueTripletImageCleanup. solve_keeps. Qed.
Lemma each_upload_keeps e now l : keeps (each_upload e now l).
Proof. induction l as [|[name [ws b]] l IH]; simpl; [apply same_ret|]. solve_keeps. Qed.
Lemma cleanups_keep e l : keeps (enqueueImageCleanups e l).
Proof. unfold enqueueImageCleanups. apply same_bind; [apply each_image_keeps|intros ?; apply each_upload_keeps]. Qed.
#[local] Hint Resolve cleanup_keeps item_cleanup_keeps cleanups_keep : contexts.

Lemma create_item_keeps p : keeps (CreateItem p).
Proof. unfold CreateItem. statement. Qed.
Lemma create_image_keeps p : keeps (CreateItemImage p).
Proof. unfold CreateItemImage. statement. Qed.
#[local] Hint Resolve create_item_keeps create_image_keeps : contexts.
Lemma Create_keeps p : keeps (Create p).
Proof. unfold Create, LockWorkspaceMemberRole. solve_keeps. Qed.
Lemma delete_item_keeps ws id : keeps (DeleteItemForWorkspaceManual ws id).
Proof. unfold DeleteItemForWorkspaceManual. statement. Qed.
#[local] Hint Resolve delete_item_keeps : contexts.
Lemma DeleteForWorkspace_keeps e id ws : keeps (DeleteForWorkspace e id ws).
Proof. unfold DeleteForWorkspace, LockItemForCleanup, itemDurableDatabaseBytes. solve_keeps. Qed.
Lemma DeleteItemImageForWorkspace_keeps e id ws : keeps (DeleteItemImageForWorkspace e id ws).
Proof. unfold DeleteItemImageForWorkspace, LockItemImageForCleanup, itemImageDurableDatabaseBytes. solve_keeps. Qed.
Lemma AddImage_keeps p : keeps (AddImage p).
Proof. unfold AddImage, GetItem, LockItemForUseManual, LockItemForCleanup. solve_keeps. Qed.
Lemma canvas_keeps id uri : keeps (EnsureImageCanvasURI id uri).
Proof. unfold EnsureImageCanvasURI, SetItemImageCanvasURIIfMissing. solve_keeps. statement. Qed.

Lemma insert_batch_keeps ws id item cid r : keeps (InsertUploadBatchManual ws id item cid r).
Proof. unfold InsertUploadBatchManual. statement. Qed.
Lemma declare_keeps now ws b seq l : keeps (declare_files now ws b seq l).
Proof.
  revert seq. induction l as [|i l IH]; intros seq; simpl; [apply same_ret|]. solve_keeps.
  unfold InsertUploadBatchFileManual. statement.
Qed.
#[local] Hint Resolve insert_batch_keeps declare_keeps : contexts.
Lemma start_keeps e p : keeps (start_batch e p).
Proof. unfold start_batch, LockWorkspaceMemberRole, lockContextSnapshotForWorkspace, LockUploadBatchManual. solve_keeps. Qed.

Lemma provisional_keeps e ws b seq : keeps (cleanupUploadBatchFileImage e ws b seq).
Proof. unfold cleanupUploadBatchFileImage, ClearUploadBatchFileResourcesManual, itemImageDurableDatabaseBytes. solve_keeps. Qed.
Lemma active_keeps e ws b seq o : keeps (lockActiveUploadBatchFileAttempt e ws b seq o).
Proof. unfold lockActiveUploadBatchFileAttempt, LockUploadBatchManual, LockUploadBatchFileManual. solve_keeps. Qed.
#[local] Hint Resolve provisional_keeps active_keeps : contexts.
Lemma claim_keeps e ws b seq size sha : keeps (claim_file e ws b seq size sha).
Proof. unfold claim_file, LockUploadBatchManual, LockUploadBatchFileManual, ClaimUploadBatchFileManual. solve_keeps. Qed.
Lemma renew_keeps e ws b seq o : keeps (RenewUploadBatchFileLease e ws b seq o).
Proof. unfold RenewUploadBatchFileLease. solve_keeps. intros s0 n s' Hr. by eapply keeps_update. Qed.
Lemma abort_keeps e ws b seq o err : keeps (AbortUploadBatchFileAttempt e ws b seq o err).
Proof. unfold AbortUploadBatchFileAttempt, LockUploadBatchManual, LockUploadBatchFileManual, FailUploadBatchFileManual. solve_keeps. Qed.
Lemma ensure_image_keeps now url b w h k o : keeps (EnsureUploadBatchImageManual now url b w h k o).
Proof. unfold EnsureUploadBatchImageManual. statement. Qed.
#[local] Hint Resolve ensure_image_keeps : contexts.
Lemma ensure_keeps e ws r b seq o url bytes w h base : keeps (EnsureUploadBatchImage e ws r b seq o url bytes w h base).
Proof. unfold EnsureUploadBatchImage, LockItemForUseManual, LockItemForCleanup, staged_image, UpdateItemImageCanvasURI. solve_keeps. statement. Qed.
Lemma complete_keeps e ws b seq o img job : keeps (complete_file e ws b seq o img job).
Proof.
  unfold complete_file, LockUploadBatchCompletionImageManual, LockUploadBatchCompletionJobManual, lock_if. solve_keeps;
    try statement. intros s0 n s' Hr. unfold CompleteUploadBatchFileManual in Hr. case_match; [done|by eapply keeps_update].
Qed.
Lemma cancel_images_keep e ws id l d : keeps (cancel_images e ws id l d).
Proof.
  revert d. induction l as [|i l IH]; intros d; simpl; [apply same_ret|].
  unfold itemImageDurableDatabaseBytes, ClearUploadBatchFileResourcesManual. solve_keeps.
Qed.
#[local] Hint Resolve cancel_images_keep : contexts.
Lemma cancel_keeps e ws b : keeps (cancel_batch e ws b).
Proof.
  unfold cancel_batch, LockUploadBatchManual, CancelUploadBatchJobsManual, DeleteCheckpointsForUploadBatch. solve_keeps.
  - unfold CancelUploadBatchManual. statement.
  - statement.
Qed.

Lemma after_keeps {A} (m : itx A) s : keeps m -> contexts (after m s) = contexts s.
Proof. intros Hm. unfold run_tx. destruct (m s) as [[a s']|] eqn:E; [by eapply Hm|done]. Qed.
Lemma returning_keeps {A} ws id (m : itx A) s : keeps m -> contexts (returning ws id m s).2 = contexts s.
Proof. intros Hm. pose proof (after_keeps m s Hm) as Ha. unfold returning. by destruct (run_tx m s) as [[a|err] s']. Qed.

(** ** No call on items or upload batches writes contexts *)

Lemma move_contexts s s' : move s s' -> contexts s' = contexts s.
Proof.
  intros Hm. destruct Hm.
  - apply after_keeps, Create_keeps.
  - apply after_keeps, DeleteForWorkspace_keeps.
  - apply after_keeps, DeleteItemImageForWorkspace_keeps.
  - apply after_keeps, AddImage_keeps.
  - apply after_keeps, canvas_keeps.
  - pose proof (after_keeps (start_batch e p) s (start_keeps e p)) as Ha. unfold StartUploadBatch. case_match; [done|].
    destruct (run_tx (start_batch e p) s) as [[a|[]] s']; exact Ha.
  - pose proof (returning_keeps ws id (claim_file e ws id seq size sha) s (claim_keeps _ _ _ _ _ _)) as Ha.
    unfold ClaimUploadBatchFile. by destruct (returning _ _ _ _).
  - apply after_keeps, renew_keeps.
  - apply after_keeps, abort_keeps.
  - apply after_keeps, ensure_keeps.
  - unfold CompleteUploadBatchFile. case_match; [done|]. apply returning_keeps, complete_keeps.
  - apply returning_keeps, cancel_keeps.
  - done.
  - done.
Qed.
End operations.
End ContextFrame.

(** * Histories of the catalog *)

Module ContextHistory.
Import GoStr MediaFragment ItemDb ItemAudit ItemSound UploadHistory ContextDb ContextStore ContextLinks ContextKeeps.
#[local] Open Scope Z_scope.

(** ** The calls *)

(** What the handlers of internal/server/connect_contexts.go call for a workspace. *)
Inductive workspace_call (ws : Z) (s : cdb) : cdb -> Prop :=
| wc_create now user c : workspace_call ws s (Create now (rescoped (Some user) (Some ws) (Name c) (IsDefault c) c) s).2
| wc_update now user c : workspace_call ws s (UpdateForWorkspace now c ws user s).2
| wc_delete now id : workspace_call ws s (DeleteForWorkspace now id ws s).2
| wc_create_rule now rule : workspace_call ws s (CreateRuleForWorkspace now ws rule s).2
| wc_delete_rule id : workspace_call ws s (DeleteRuleForWorkspace ws id s).2.

(** What a start calls, and the methods without a workspace. *)
Inductive system_call (s : cdb) : cdb -> Prop :=
| sc_ensure_default now c : system_call s (EnsureDefault now c s).2
| sc_ensure now c : system_call s (EnsureSystemContext now c s).2
| sc_replace now c retired : system_call s (ReplaceSystemDefault now c retired s).2
| sc_create now c : system_call s (Create now c s).2
| sc_update now c : system_call s (Update now c s).2
| sc_delete now id : system_call s (Delete now id s).2
| sc_create_rule now rule : system_call s (CreateRule now rule s).2
| sc_delete_rule id : system_call s (DeleteRule id s).2.

Lemma workspace_edits ws s s' : catalog_sound s -> workspace_call ws s s' -> rtc (edit true (Some ws)) s s'.
Proof.
  intros Hs Hc. destruct Hc.
  - by apply (Create_edits _ now (rescoped (Some user) (Some ws) (Name c) (IsDefault c) c)).
  - apply UpdateForWorkspace_edits.
  - unfold DeleteForWorkspace. destruct (Z.eqb_spec ws 0); [reflexivity|by apply Delete_edits].
  - apply CreateRuleForWorkspace_edits.
  - apply DeleteRuleForWorkspace_edits.
Qed.
Lemma system_edits s s' : catalog_sound s -> system_call s s' -> exists sc, rtc (edit true sc) s s'.
Proof.
  intros Hs Hc. destruct Hc.
  - eexists. apply EnsureDefault_edits.
  - eexists. apply EnsureSystemContext_edits.
  - eexists. by apply ReplaceSystemDefault_edits.
  - eexists. by apply Create_edits.
  - apply Update_edits.
  - by apply Delete_system_edits.
  - apply CreateRule_edits.
  - by apply DeleteRule_edits.
Qed.

Section history.
Context `{UrlParser}.

(** One call, of any store. *)
Inductive step (s : cdb) : cdb -> Prop :=
| st_workspace ws s' : workspace_call ws s s' -> step s s'
| st_system s' : system_call s s' -> step s s'
| st_items t : move (tables s) t -> step s (set_tables t s).

Lemma items_sound s t : catalog_sound s -> move (tables s) t -> catalog_sound (set_tables t s).
Proof.
  intros Hs Hm. pose proof (move_sound _ _ (cs_base _ Hs) Hm) as Ht. pose proof (ContextFrame.move_contexts _ _ Hm) as Hc.
  destruct Hs. split; try done. assert (tables (set_tables t s) = t) as ->; [|done].
  destruct t. simpl in Hc. subst. done.
Qed.
Lemma step_sound s s' : catalog_sound s -> step s s' -> catalog_sound s'.
Proof.
  intros Hs [ws t Hw|t Hc|t Hm].
  - eapply edits_sound; [done|]. by apply workspace_edits.
  - destruct (system_edits _ _ Hs Hc) as [sc He]. by eapply edits_sound.
  - by apply items_sound.
Qed.
Lemma calls_sound s s' : catalog_sound s -> rtc step s s' -> catalog_sound s'.
Proof. intros Hs Hh. induction Hh as [|s t u Ht _ IH]; [done|]. apply IH. by eapply step_sound. Qed.
End history.

(** ** What an edit of one scope leaves alone *)

Definition foreign (sc : option Z) (s : cdb) (r : rule_row) : Prop :=
  exists x, catalog s !! r_context_id r = Some x /\ x_workspace_id x <> sc.
Record others (sc : option Z) (s s' : cdb) : Prop := {
  ot_rows : forall id x, x_workspace_id x <> sc -> (catalog s !! id = Some x <-> catalog s' !! id = Some x);
  ot_rules : forall id r, foreign sc s r -> (rules s !! id = Some r <-> rules s' !! id = Some r);
}.
Lemma others_foreign sc s s' r : others sc s s' -> foreign sc s r <-> foreign sc s' r.
Proof. intros [Hr _]. unfold foreign. split; intros (x & Hx & Hne); exists x; (split; [|done]); by apply (Hr _ _ Hne). Qed.
#[export] Instance others_refl sc : Reflexive (others sc).
Proof. intros s. by split. Qed.
#[export] Instance others_trans sc : Transitive (others sc).
Proof.
  intros s t u H1 H2. split.
  - intros id x Hne. rewrite (ot_rows _ _ _ H1) by done. by apply H2.
  - intros id r Hf. rewrite (ot_rules _ _ _ H1) by done. apply H2. by apply (others_foreign _ _ _ _ H1).
Qed.

Lemma edit_others b sc s s' : catalog_sound s -> edit b sc s s' -> others sc s s'.
Proof.
  intros Hs He. assert (Hown : forall id x y, catalog s !! id = Some x -> x_workspace_id x = sc -> x_workspace_id y <> sc -> catalog s !! id <> Some y).
  { intros id x y Hx Hsc Hne Hy. congruence. }
  destruct He as [x Hsc Ho Hmax Hf|now id x st Hx Hsc Hf|now except|now id x Hx Hsc|r x Hb Hx Hsc Hr|id r x Hr Hx Hsc]; split; simpl; try done.
  - intros id y Hne. destruct (decide (id = next_context_id s)) as [->|]; [|by rewrite lookup_insert_ne].
    rewrite lookup_insert_eq. split; [|intros [= ->]; congruence]. intros Hy. destruct (cs_ids _ Hs _ _ Hy). lia.
  - intros k y Hne. destruct (decide (k = id)) as [->|]; [|by rewrite lookup_insert_ne].
    rewrite lookup_insert_eq. split; [intros Hy; by destruct (Hown _ _ _ Hx Hsc Hne)|]. intros [= <-]. simpl in Hne. congruence.
  - intros k y Hne. rewrite lookup_cleared. destruct (catalog s !! k) as [z|] eqn:E; [|done]. simpl. unfold cleared_default.
    destruct (decide (x_workspace_id z = sc)) as [Hz|Hz].
    + split; [congruence|]. intros [= <-]. destruct (_ && _); simpl in Hne; congruence.
    + by rewrite (bool_decide_false _ Hz), andb_false_r.
  - intros k y Hne. rewrite lookup_delete_Some. split; [|tauto]. intros Hy. split; [|done]. intros ->. by destruct (Hown _ _ _ Hx Hsc Hne).
  - intros k r (y & Hy & Hne). rewrite map_lookup_filter_Some. simpl. split; [|tauto]. intros Hr. split; [done|].
    intros E. rewrite E in Hy. by destruct (Hown _ _ _ Hx Hsc Hne).
  - intros k r' (y & Hy & Hne). destruct (decide (k = next_rule_id s)) as [->|]; [|by rewrite lookup_insert_ne].
    rewrite lookup_insert_eq. split; [intros Hl; destruct (cs_rules _ Hs _ _ Hl) as (_ & _ & ?); lia|].
    intros [= <-]. by destruct (Hown _ _ _ Hx Hsc Hne).
  - intros k r' (y & Hy & Hne). rewrite lookup_delete_Some. split; [|tauto]. intros Hl. split; [|done]. intros ->.
    assert (r' = r) as -> by congruence. by destruct (Hown _ _ _ Hx Hsc Hne).
Qed.
Lemma edits_others b sc s s' : catalog_sound s -> rtc (edit b sc) s s' -> others sc s s'.
Proof.
  intros Hs He. induction He as [|s t u Ht _ IH]; [reflexivity|]. etrans; [by eapply edit_others|]. apply IH. by eapply edit_sound.
Qed.

(** ** Queries: a filter of a table in the order of a statement *)

Section ordered.
Context {A : Type} (le : relation (Z * A)) `{!RelDecision le, !Transitive le, !Total le}.
Hypothesis le_id : forall a b, le a b -> le b a -> a.1 = b.1.

Definition query (p : Z * A -> bool) (m : gmap Z A) : list (Z * A) :=
  merge_sort le (filter (fun kx => p kx = true) (map_to_list m)).

Lemma elem_query p m k x : (k, x) ∈ query p m <-> m !! k = Some x /\ p (k, x) = true.
Proof using Type. unfold query. rewrite (merge_sort_Permutation le), list_elem_of_filter, elem_of_map_to_list. tauto. Qed.
Lemma query_sorted p m : StronglySorted le (query p m).
Proof using Type*. apply StronglySorted_merge_sort; apply _. Qed.
Lemma query_unique p m a b : a ∈ query p m -> b ∈ query p m -> a.1 = b.1 -> a = b.
Proof using Type. destruct a as [k x], b as [k' y]. simpl. intros [Hx _]%elem_query [Hy _]%elem_query <-. congruence. Qed.
Lemma query_NoDup p m : NoDup (query p m).
Proof using Type. unfold query. rewrite (merge_sort_Permutation le). apply NoDup_filter, NoDup_map_to_list. Qed.

(** A list is the query when it has its rows, once each, in its order. *)
Lemma query_eq p m l : StronglySorted le l -> NoDup l ->
  (forall k x, (k, x) ∈ l <-> m !! k = Some x /\ p (k, x) = true) -> query p m = l.
Proof using Type*.
  intros Hs Hn Hin. assert (query p m ≡ₚ l) as Hp.
  { apply NoDup_Permutation; [apply query_NoDup|done|]. intros [k x]. by rewrite elem_query, Hin. }
  apply (StronglySorted_unique_strong le); [|apply query_sorted|done|done].
  intros a b Ha Hb H1 H2. rewrite <- Hp in Hb. eapply query_unique; [done|done|by apply le_id].
Qed.
Lemma query_ext p p' m m' : (forall k x, m !! k = Some x /\ p (k, x) = true <-> m' !! k = Some x /\ p' (k, x) = true) ->
  query p m = query p' m'.
Proof using Type*. intros H. apply query_eq; [apply query_sorted|apply query_NoDup|]. intros k x. by rewrite elem_query, H. Qed.
Lemma query_filter p q m : query (fun kx => p kx && q kx) m = filter (fun kx => q kx = true) (query p m).
Proof using Type*.
  apply query_eq.
  - pose proof (query_sorted p m) as Hs. induction Hs as [|a l Hl IH Ha]; [constructor|]. rewrite filter_cons.
    case_decide; [|done]. constructor; [done|]. rewrite Forall_forall in *. intros b [_ Hb]%list_elem_of_filter. by apply Ha.
  - apply NoDup_filter, query_NoDup.
  - intros k x. rewrite list_elem_of_filter, elem_query, andb_true_iff. tauto.
Qed.
(** The rows after a row, by the keyset condition of a page. *)
Lemma keyset (P : Z * A -> bool) p m l a l' : query p m = l ++ a :: l' -> (forall b, P b = true <-> ~ le b a) ->
  filter (fun b => P b = true) (l ++ a :: l') = l'.
Proof using Type*.
  intros Hq HP. pose proof (query_sorted p m) as Hs. pose proof (query_NoDup p m) as Hn. rewrite Hq in Hs, Hn.
  assert (Hl : filter (fun b => P b = true) l = []).
  { clear Hn Hq. induction l as [|b l IH]; [done|]. rewrite filter_cons. rewrite decide_False.
    - apply IH. by apply StronglySorted_inv in Hs as [? _].
    - rewrite HP. intros Hb. apply Hb. apply StronglySorted_inv in Hs as [_ Hs]. rewrite Forall_forall in Hs. apply Hs. set_solver. }
  rewrite filter_app, Hl, filter_cons, decide_False by (rewrite HP; intros Hb; apply Hb; destruct (Total0 a a); done). simpl.
  apply StronglySorted_app in Hs as (_ & _ & Hs). apply StronglySorted_inv in Hs as [_ Hs]. rewrite Forall_forall in Hs.
  apply NoDup_app in Hn as (_ & _ & [Ha _]%NoDup_cons).
  assert (Hin : forall b, b ∈ l' -> b ∈ query p m) by (rewrite Hq; set_solver).
  assert (Hall : forall b, b ∈ l' -> P b = true).
  { intros b Hb. rewrite HP. intros Hle. assert (b = a) as ->; [|done].
    eapply (query_unique p m); [by apply Hin|rewrite Hq; set_solver|apply le_id; [done|by apply Hs]]. }
  clear -Hall. induction l' as [|b l' IH]; [done|]. rewrite filter_cons, decide_True by (apply Hall; by left).
  f_equal. apply IH. intros c Hc. apply Hall. by right.
Qed.
Lemma query_length p m : length (query p m) = length (filter (fun kx => p kx = true) (map_to_list m)).
Proof using Type. apply Permutation_length, merge_sort_Permutation. Qed.
End ordered.

#[export] Instance rule_le_trans : Transitive rule_le.
Proof. intros a b c. unfold rule_le. lia. Qed.
#[export] Instance rule_le_total : Total rule_le.
Proof. intros a b. unfold rule_le. lia. Qed.
Lemma rule_le_id a b : rule_le a b -> rule_le b a -> a.1 = b.1.
Proof. unfold rule_le. lia. Qed.
#[export] Instance catalog_le_trans : Transitive catalog_le.
Proof. intros a b c. unfold catalog_le. lia. Qed.
#[export] Instance catalog_le_total : Total catalog_le.
Proof. intros a b. unfold catalog_le. lia. Qed.
Lemma catalog_le_id a b : catalog_le a b -> catalog_le b a -> a.1 = b.1.
Proof. unfold catalog_le. lia. Qed.
#[export] Instance by_id_trans {A} : Transitive (@ItemOps.by_id A).
Proof. intros a b c. unfold ItemOps.by_id. lia. Qed.
#[export] Instance by_id_total {A} : Total (@ItemOps.by_id A).
Proof. intros a b. unfold ItemOps.by_id. lia. Qed.
Lemma by_id_id {A} (a b : Z * A) : ItemOps.by_id a b -> ItemOps.by_id b a -> a.1 = b.1.
Proof. unfold ItemOps.by_id. lia. Qed.

(** ** What another workspace sees *)

Lemma readable_true ws x : readable_by ws x = true <-> x_workspace_id x = None \/ x_workspace_id x = Some ws.
Proof. unfold readable_by. by rewrite orb_true_iff, is_system_true, owned_by_true. Qed.
Lemma GetForWorkspace_if id ws s : GetForWorkspace id ws s =
  match context_if (readable_by ws) id s with Some x => Ok (rowToContext id x) | None => Err NoRows end.
Proof.
  unfold GetForWorkspace, Get, context_if. destruct (catalog s !! id) as [x|]; [|done]. simpl.
  unfold readable_by, is_system, owned_by. destruct (x_workspace_id x) as [w|]; simpl; [|done]. destruct (Z.eqb_spec w ws) as [->|Hne].
  - by rewrite bool_decide_true.
  - by rewrite bool_decide_false by congruence.
Qed.

Section elsewhere.
Context (ws ws' : Z) (s s' : cdb).
Hypothesis Hne : ws' <> ws.
Hypothesis Ho : others (Some ws) s s'.

Lemma same_if (p : row -> bool) id x : (forall y, p y = true -> x_workspace_id y <> Some ws) ->
  catalog s !! id = Some x /\ p x = true <-> catalog s' !! id = Some x /\ p x = true.
Proof using Ho. intros Hp. split; intros [Hx Hpx]; (split; [|done]); by apply (ot_rows _ _ _ Ho _ _ (Hp x Hpx)). Qed.
Lemma readable_elsewhere y : readable_by ws' y = true -> x_workspace_id y <> Some ws.
Proof using Hne. rewrite readable_true. intros [->| ->]; congruence. Qed.

Lemma same_contexts p : (forall y, p y = true -> x_workspace_id y <> Some ws) -> contexts_where p s' = contexts_where p s.
Proof using Ho. intros Hp. apply (query_ext ItemOps.by_id); [apply by_id_id|]. intros k x. symmetry. by apply same_if. Qed.
Lemma same_context id : context_if (readable_by ws') id s' = context_if (readable_by ws') id s.
Proof using Ho Hne.
  destruct (context_if (readable_by ws') id s) as [x|] eqn:E.
  - apply context_if_Some in E. apply context_if_Some. apply (same_if (readable_by ws')); [apply readable_elsewhere|done].
  - destruct (context_if (readable_by ws') id s') as [x|] eqn:E'; [|done]. apply context_if_Some in E'.
    apply (same_if (readable_by ws')) in E'; [|apply readable_elsewhere]. apply context_if_Some in E'. congruence.
Qed.
Lemma same_rule q k r : (rules s' !! k = Some r /\ rule_of (readable_by ws') s' r && q (k, r) = true)
  <-> (rules s !! k = Some r /\ rule_of (readable_by ws') s r && q (k, r) = true).
Proof using Ho Hne.
  rewrite !andb_true_iff, !rule_of_true. split; intros (Hr & (x & Hx & Hp) & Hq);
    pose proof (readable_elsewhere x Hp) as Hfar; pose proof (proj1 (ot_rows _ _ _ Ho (r_context_id r) x Hfar)) as H1;
    pose proof (proj2 (ot_rows _ _ _ Ho (r_context_id r) x Hfar)) as H2.
  - split; [|split; [|done]]; [|by eauto]. apply (ot_rules _ _ _ Ho); [exists x; by auto|done].
  - split; [|split; [|done]]; [|by eauto]. apply (ot_rules _ _ _ Ho); [exists x; by auto|done].
Qed.
Lemma same_rules q : rules_where (fun kr => rule_of (readable_by ws') s' kr.2 && q kr) s'
  = rules_where (fun kr => rule_of (readable_by ws') s kr.2 && q kr) s.
Proof using Ho Hne. apply (query_ext rule_le); [apply rule_le_id|]. intros k r. apply same_rule. Qed.
End elsewhere.

(** ** The rules a workspace evaluates *)

Definition visible (ws : Z) (s : cdb) (k : Z) (r : rule_row) : Prop := rules s !! k = Some r /\ rule_of (readable_by ws) s r = true.
Lemma visible_count ws s : CountSelectionRulesForWorkspaceManual ws s
  = Z.of_nat (length (rules_where (fun kr => rule_of (readable_by ws) s kr.2) s)).
Proof. unfold CountSelectionRulesForWorkspaceManual. f_equal. symmetry. apply (query_length rule_le). Qed.
Lemma rules_bounded ws s s' n : (forall k r, visible ws s' k r -> visible ws s k r \/ k = n) ->
  CountSelectionRulesForWorkspaceManual ws s' <= CountSelectionRulesForWorkspaceManual ws s + 1.
Proof.
  intros H. rewrite !visible_count. set (l' := rules_where _ s'). set (l := rules_where _ s).
  assert (Hl : forall t k r, (k, r) ∈ rules_where (fun kr => rule_of (readable_by ws) t kr.2) t <-> visible ws t k r) by
    (intros t k r; apply (elem_query rule_le)).
  assert (Hn : NoDup (l'.*1)).
  { apply NoDup_fmap_fst; [|apply (query_NoDup rule_le)]. intros k x y Hx Hy.
    apply Hl in Hx as [Hx _], Hy as [Hy _]. congruence. }
  enough (length l'.*1 <= length (n :: l.*1))%nat as Hlen by (rewrite length_cons, !length_fmap in Hlen; lia).
  apply submseteq_length, NoDup_submseteq; [done|]. intros k ([k' r] & -> & Hin)%list_elem_of_fmap.
  apply Hl, H in Hin as [Hin| ->]; [|by left]. right. apply list_elem_of_fmap. exists (k', r). split; [done|]. by apply Hl.
Qed.
Lemma count_mono ws s s' : (forall k r, visible ws s' k r -> visible ws s k r) ->
  CountSelectionRulesForWorkspaceManual ws s' <= CountSelectionRulesForWorkspaceManual ws s.
Proof.
  intros H. rewrite !visible_count. set (l' := rules_where _ s'). set (l := rules_where _ s).
  assert (Hl : forall t k r, (k, r) ∈ rules_where (fun kr => rule_of (readable_by ws) t kr.2) t <-> visible ws t k r) by
    (intros t k r; apply (elem_query rule_le)).
  enough (length l' <= length l)%nat by lia. apply submseteq_length, NoDup_submseteq; [apply (query_NoDup rule_le)|].
  intros [k r] Hin. apply Hl, H, Hl in Hin. done.
Qed.

Lemma edit_fewer sc ws s s' : catalog_sound s -> edit false sc s s' -> forall k r, visible ws s' k r -> visible ws s k r.
Proof.
  intros Hs He k r [Hr (x & Hx & Hp)%rule_of_true].
  destruct He as [y Hsc Ho Hmax Hf|now id y st Hy Hsc Hf|now except|now id y Hy Hsc|r' y Hb|id r' y Hr' Hy Hsc]; simpl in *; try done.
  - split; [done|]. apply rule_of_true. destruct (decide (r_context_id r = next_context_id s)) as [E|Hne].
    + destruct (cs_rules _ Hs k r Hr) as [[z Hz] _]. destruct (cs_ids _ Hs _ _ Hz). lia.
    + rewrite lookup_insert_ne in Hx by done. by eauto.
  - split; [done|]. apply rule_of_true. destruct (decide (r_context_id r = id)) as [E|Hne].
    + rewrite E in *. rewrite lookup_insert_eq in Hx. injection Hx as <-. by eauto.
    + rewrite lookup_insert_ne in Hx by done. by eauto.
  - split; [done|]. apply rule_of_true. rewrite lookup_cleared in Hx. destruct (catalog s !! r_context_id r) as [z|]; [|done].
    injection Hx as <-. exists z. split; [done|]. apply readable_true. apply readable_true in Hp.
    by destruct (cleared_scope now sc except (r_context_id r) z) as (<- & _).
  - apply map_lookup_filter_Some in Hr as [Hr Hne]. apply lookup_delete_Some in Hx as [_ Hx]. split; [done|]. apply rule_of_true. by eauto.
  - apply lookup_delete_Some in Hr as [_ Hr]. split; [done|]. apply rule_of_true. by eauto.
Qed.
Lemma edits_fewer sc ws s s' : catalog_sound s -> rtc (edit false sc) s s' ->
  CountSelectionRulesForWorkspaceManual ws s' <= CountSelectionRulesForWorkspaceManual ws s.
Proof.
  intros Hs He. induction He as [s|s t u Ht _ IH]; [done|]. etrans; [apply IH; by eapply edit_sound|].
  apply count_mono. by eapply edit_fewer.
Qed.

(** A call of a workspace keeps the number of rules that any workspace evaluates within the limit. *)
Lemma workspace_call_bound ws w s s' : catalog_sound s -> workspace_call ws s s' ->
  CountSelectionRulesForWorkspaceManual w s <= MaxSelectionRulesPerWorkspace ->
  CountSelectionRulesForWorkspaceManual w s' <= MaxSelectionRulesPerWorkspace.
Proof.
  intros Hs Hc Hw. assert (Hfew : rtc (edit false (Some ws)) s s' -> CountSelectionRulesForWorkspaceManual w s' <= MaxSelectionRulesPerWorkspace).
  { intros He. etrans; [by eapply edits_fewer|done]. }
  destruct Hc as [now user c|now user c|now id|now rule|id].
  - apply Hfew. by apply (Create_edits _ now (rescoped (Some user) (Some ws) (Name c) (IsDefault c) c)).
  - apply Hfew, UpdateForWorkspace_edits.
  - apply Hfew. unfold DeleteForWorkspace. destruct (Z.eqb_spec ws 0); [reflexivity|by apply Delete_edits].
  - destruct (CreateRuleForWorkspace now ws rule s) as [[r|e] s'] eqn:H; simpl.
    + apply CreateRuleForWorkspace_Ok in H as (_ & Hlt & (x & Hx & Hsc) & Hr & ->).
      set (row := new_rule now (not_nil rule)). destruct (decide (w = ws)) as [->|Hne].
      * etrans; [apply (rules_bounded ws s _ (next_rule_id s))|lia]. intros k r' [Hl Hv]. simpl in Hl.
        destruct (decide (k = next_rule_id s)); [by right|left]. rewrite lookup_insert_ne in Hl by done. by split.
      * etrans; [|exact Hw]. apply count_mono. intros k r' [Hl Hv]. split; [|done]. simpl in Hl.
        destruct (decide (k = next_rule_id s)) as [->|]; [|by rewrite lookup_insert_ne in Hl].
        rewrite lookup_insert_eq in Hl. injection Hl as <-. apply rule_of_true in Hv as (y & Hy & Hp%readable_true).
        simpl in Hy. rewrite Hx in Hy. injection Hy as <-. rewrite Hsc in Hp. destruct Hp as [|[=]]; congruence.
    + unfold CreateRuleForWorkspace in H. destruct (ws =? 0); [by injection H as _ <-|]. by apply run_tx_Err in H as ->.
  - apply Hfew, DeleteRuleForWorkspace_edits.
Qed.
End ContextHistory.

(** * Recognition contexts: the theorems *)

Module ContextTheorems.
Import GoStr MediaFragment ItemDb ItemAudit ItemSound UploadHistory ContextDb ContextStore ContextKeeps ContextHistory.
#[local] Open Scope Z_scope.

(** ** Resolution *)

(** [HasPrefix], [HasSuffix] and [Contains] find the prefixes, the suffixes and the parts of a string. *)
Lemma HasPrefix_spec v p : HasPrefix v p = true <-> exists b, v = (p ++ b)%string.
Proof. split; [intros H%HasPrefix_true; eauto|intros [b ->]; apply HasPrefix_app]. Qed.
Lemma Contains_spec v p : Contains v p = true <-> exists a b, v = (a ++ p ++ b)%string.
Proof.
  induction v as [|c v IH]; simpl.
  - rewrite orb_false_r, HasPrefix_spec. split; [intros [b Hb]; by exists ""%string, b|]. intros (a & b & Hab). destruct a; [|done]. by exists b.
  - rewrite orb_true_iff, HasPrefix_spec, IH. split.
    + intros [[b Hb]|(a & b & ->)]; [by exists ""%string, b|by exists (String c a), b].
    + intros ([|c' a] & b & Hab); [by left; exists b|]. right. simpl in Hab. injection Hab as -> ->. by exists a, b.
Qed.
Lemma rev_append a b : GoStr.rev (a ++ b) = (GoStr.rev b ++ GoStr.rev a)%string.
Proof.
  assert (Happ : forall acc, rev_app (a ++ b) acc = rev_app b (rev_app a acc)) by (induction a as [|c a IH]; intros acc; [done|apply IH]).
  unfold GoStr.rev. by rewrite Happ, rev_app_app.
Qed.
Lemma HasSuffix_spec v p : HasSuffix v p = true <-> exists a, v = (a ++ p)%string.
Proof.
  unfold HasSuffix. rewrite HasPrefix_spec. split.
  - intros [b Hb]. exists (GoStr.rev b). by rewrite <- (GoStr.rev_rev v), Hb, rev_append, GoStr.rev_rev.
  - intros [a ->]. exists (GoStr.rev a). apply rev_append.
Qed.

Section resolution.
Context (ws : Z) (m : gmap string string) (s : cdb).
Hypothesis Hs : catalog_sound s.

(** What an operator says of a value. *)
Definition meets (c : RuleCondition) (value : string) : Prop :=
  (Operator c = "eq"%string /\ value = Value c) \/ (Operator c = "neq"%string /\ value <> Value c)
  \/ (Operator c = "contains"%string /\ exists a b, value = (a ++ Value c ++ b)%string)
  \/ (Operator c = "starts_with"%string /\ exists b, value = (Value c ++ b)%string)
  \/ (Operator c = "ends_with"%string /\ exists a, value = (a ++ Value c)%string).
Definition met (c : RuleCondition) : Prop := exists value, m !! Field c = Some value /\ meets c value.
(** A rule the workspace evaluates, and whose conditions all hold. *)
Definition matching (id : Z) (r : rule_row) : Prop :=
  visible ws s id r /\ exists rule, rowToRule id r = Ok rule /\ Forall met (conditions rule).
(** It is tried no later: by descending priority, and among equals by id. *)
Definition no_later (a b : Z * rule_row) : Prop :=
  r_priority b.2 < r_priority a.2 \/ r_priority b.2 = r_priority a.2 /\ a.1 <= b.1.

Lemma rowToRule_keys id r rule : rowToRule id r = Ok rule -> L_ID rule = id /\ L_ContextID rule = r_context_id r /\ L_Priority rule = r_priority r.
Proof.
  unfold rowToRule. destruct (r_conditions r); try done. destruct (decode_conditions l) as [cs|]; [|done]. cbn [mbind result_bind].
  destruct (validateSelectionRule _); [|done]. by intros [= <-].
Qed.

Lemma holds_spec c value : holds c value = true <-> meets c value.
Proof.
  unfold holds, meets. repeat case_bool_decide; rewrite ?Contains_spec, ?HasPrefix_spec, ?HasSuffix_spec, ?negb_true_iff,
    ?bool_decide_eq_false, ?bool_decide_eq_true; intuition congruence.
Qed.
Lemma matchesAll_spec l : matchesAll l m = true <-> Forall met l.
Proof.
  induction l as [|c l IH]; simpl; [by split|]. rewrite Forall_cons. unfold met at 1. destruct (m !! Field c) as [value|].
  - destruct (holds c value) eqn:E; rewrite <- IH.
    + apply holds_spec in E. split; [eauto|by intros [_ ?]].
    + split; [done|]. intros [(v & [= <-] & Hs'%holds_spec) _]. congruence.
  - split; [done|by intros [(v & ? & _) _]].
Qed.

Lemma to_rules_Ok l : (forall id r, (id, r) ∈ l -> visible ws s id r) ->
  exists rs, to_rules l = Ok rs /\ Forall2 (fun kr rule => rowToRule kr.1 kr.2 = Ok rule) l rs.
Proof using Hs.
  induction l as [|[id r] l IH]; intros Hl; [by exists []|]. destruct (Hl id r ltac:(by left)) as [Hr _].
  destruct (cs_rules _ Hs id r Hr) as (_ & Hok & _). destruct (rowToRule id r) as [rule|] eqn:E; [|done].
  destruct IH as (rs & Hrs & Hall); [intros; apply Hl; by right|]. exists (rule :: rs). simpl. rewrite E. cbn [mbind result_bind].
  rewrite Hrs. by split; [|constructor].
Qed.

Lemma first_match_spec l rs : (forall id r, (id, r) ∈ l -> visible ws s id r) -> StronglySorted rule_le l ->
  Forall2 (fun kr rule => rowToRule kr.1 kr.2 = Ok rule) l rs ->
  match first_match (fun id => GetForWorkspace id ws s) m rs with
  | Some c => exists id r x, (id, r) ∈ l /\ matching id r /\ catalog s !! r_context_id r = Some x /\ c = rowToContext (r_context_id r) x
      /\ forall id' r', (id', r') ∈ l -> matching id' r' -> no_later (id, r) (id', r')
  | None => forall id r, (id, r) ∈ l -> ~ matching id r
  end.
Proof.
  intros Hl Hso Hall. induction Hall as [|[id r] rule l rs Hrow Hall IH]; [by intros ? ? ?%not_elem_of_nil|]. simpl in Hrow.
  apply StronglySorted_inv in Hso as [Hso Hle]. rewrite Forall_forall in Hle.
  specialize (IH ltac:(intros; apply Hl; by right) Hso). simpl.
  destruct (Hl id r ltac:(by left)) as [Hr Hv]. pose proof Hv as (x & Hx & Hp)%rule_of_true.
  pose proof (rowToRule_keys id r rule Hrow) as (_ & Hctx & _).
  destruct (matchesAll (conditions rule) m) eqn:Em.
  - rewrite GetForWorkspace_if, Hctx, (proj2 (context_if_Some (readable_by ws) _ s x) (conj Hx Hp)).
    exists id, r, x. split; [by left|split; [split; [done|]; exists rule; by rewrite <- matchesAll_spec|split; [done|split; [done|]]]].
    intros id' r' [[= -> ->]|Hin]%elem_of_cons _; [unfold no_later; simpl; lia|]. specialize (Hle _ Hin). unfold no_later, rule_le in *. lia.
  - assert (Hno : ~ matching id r) by (intros [_ (rule' & Hrow' & Hm%matchesAll_spec)]; congruence).
    destruct (first_match _ m rs) as [c|].
    + destruct IH as (i & q & y & Hin & Hm & Hy & Hc & Hfirst). exists i, q, y. split; [by right|split; [done|split; [done|split; [done|]]]].
      intros id' r' [[= -> ->]|Hin']%elem_of_cons Hm'; [done|by apply Hfirst].
    + intros id' r' [[= -> ->]|Hin]%elem_of_cons; [done|by apply IH].
Qed.
End resolution.

(** The default of the workspace, or of the system when it has none. *)
Definition default_for (ws : Z) (s : cdb) (c : Context) : Prop :=
  exists id x, c = rowToContext id x /\ catalog s !! id = Some x /\ x_is_default x = true /\
    (x_workspace_id x = Some ws \/
     x_workspace_id x = None /\ forall id' x', catalog s !! id' = Some x' -> x_is_default x' = true -> x_workspace_id x' <> Some ws).

(** C13: with valid metadata, at most 100 rules to evaluate and a default of the system, the context of a request is
    found: the context of the first rule, by descending priority and then by id, among the rules of the system and
    of the workspace whose conditions all hold, and the workspace's default or else the system's default when no rule
    matches. *)
Theorem resolution_takes_the_first_match ws metadata m s : catalog_sound s -> 0 < ws <= MaxInt64 ->
  normalizeContextMetadata metadata = Ok m ->
  CountSelectionRulesForWorkspaceManual ws s <= MaxSelectionRulesPerWorkspace ->
  (exists id x, catalog s !! id = Some x /\ x_workspace_id x = None /\ x_is_default x = true) ->
  exists c isDefault, ResolveForWorkspace ws metadata s = Ok (c, isDefault) /\
    if isDefault : bool then default_for ws s c /\ forall id r, ~ matching ws m s id r
    else exists id r x, matching ws m s id r /\ catalog s !! r_context_id r = Some x /\ c = rowToContext (r_context_id r) x
      /\ forall id' r', matching ws m s id' r' -> no_later (id, r) (id', r').
Proof.
  intros Hs Hws Hm Hcount (i0 & x0 & Hx0 & Hsys0 & Hd0).
  set (rows := rules_where (fun kr => rule_of (readable_by ws) s kr.2) s).
  assert (Hrows : forall id r, (id, r) ∈ rows <-> visible ws s id r) by (intros; apply (elem_query rule_le)).
  destruct (to_rules_Ok ws s Hs rows) as (rs & Hrs & Hall); [by intros ? ? ?%Hrows|].
  pose proof (first_match_spec ws m s rows rs ltac:(by intros ? ? ?%Hrows) (query_sorted rule_le rule_le_id _ _) Hall) as Hfirst.
  assert (Hres : ResolveForWorkspace ws metadata s = match first_match (fun id => GetForWorkspace id ws s) m rs with
      | Some c => Ok (c, false) | None => d ← GetDefaultForWorkspace ws s; Ok (d, true) end).
  { unfold ResolveForWorkspace. rewrite (proj2 (Z.eqb_neq ws 0)) by lia. unfold resolve. rewrite Hm. cbn [mbind result_bind].
    unfold ListSelectionRulesForWorkspaceResolution, int64_of. rewrite (proj2 (Z.ltb_ge _ _)) by lia. cbn [mbind result_bind].
    unfold ListSelectionRulesForWorkspaceResolutionManual. fold rows. rewrite visible_count in Hcount. fold rows in Hcount.
    rewrite firstn_all2 by (unfold MaxSelectionRulesPerWorkspace in *; lia). unfold boundedSelectionRules.
    rewrite (proj2 (Z.ltb_ge _ _)) by lia. by rewrite Hrs. }
  rewrite Hres. destruct (first_match _ m rs) as [c|].
  - destruct Hfirst as (id & r & x & Hin & Hmt & Hx & Hc & Hle). exists c, false. split; [done|]. exists id, r, x.
    split; [done|split; [done|split; [done|]]]. intros id' r' Hm'. apply Hle; [|done]. apply Hrows, Hm'.
  - assert (Hno : forall id r, ~ matching ws m s id r) by (intros id r Hmt; eapply Hfirst; [apply Hrows, Hmt|done]).
    unfold GetDefaultForWorkspace, int64_of. rewrite (proj2 (Z.ltb_ge _ _)) by lia. cbn [mbind result_bind].
    unfold GetDefaultContextForWorkspaceManual. destruct (first_context (fun x => x_is_default x && owned_by ws x) s) as [[id x]|] eqn:E.
    + apply first_context_Some in E as [Hx [Hd Ho%owned_by_true]%andb_true_iff]. exists (rowToContext id x), true. split; [done|split; [|done]].
      exists id, x. by eauto.
    + destruct (first_context system_default s) as [[id x]|] eqn:E'.
      * apply first_context_Some in E' as [Hx [Hd Hsys%is_system_true]%andb_true_iff]. exists (rowToContext id x), true. split; [done|split; [|done]].
        exists id, x. split; [done|split; [done|split; [done|right; split; [done|]]]]. intros i y Hy Hyd Hyw.
        pose proof (proj1 (first_context_None _ _) E i y Hy) as Hf. cbv beta in Hf. by rewrite Hyd, (proj2 (owned_by_true ws y) Hyw) in Hf.
      * pose proof (proj1 (first_context_None _ _) E' i0 x0 Hx0) as Hf. unfold system_default in Hf.
        by rewrite Hd0, (proj2 (is_system_true x0) Hsys0) in Hf.
Qed.

(** ** Pages of the catalog *)

(** A client that follows the cursors, for at most [fuel] pages. *)
Fixpoint follow_pages (fuel : nat) (ws : Z) (systemOnly : bool) (n : Z) (k : option ContextPageCursor) (s : cdb) : option (list (list Context)) :=
  match fuel with
  | O => None
  | S fuel =>
      match ListPageForWorkspace ws systemOnly n k s with
      | Ok page =>
          match NextCursor page with
          | None => Some [Contexts page]
          | Some k' => cons (Contexts page) <$> follow_pages fuel ws systemOnly n (Some k') s
          end
      | Err _ => None
      end
  end.

Section pages.
Context (ws : Z) (systemOnly : bool) (n : Z) (s : cdb).
Hypothesis Hs : catalog_sound s.
Hypothesis Hws : 0 < ws <= MaxInt64.
Hypothesis Hn : 1 <= n <= MaxContextPageSize.

Definition in_catalog (kx : Z * row) : bool := is_system kx.2 || (negb systemOnly && owned_by ws kx.2).
Definition listed : list (Z * row) := query catalog_le in_catalog (catalog s).
Definition shown (l : list (Z * row)) : list Context := (fun kx => rowToContext kx.1 kx.2) <$> l.

Lemma after_spec k x kx : k <> 0 -> after_context (x_is_default x) (is_system x) k kx = true <-> ~ catalog_le kx (k, x).
Proof.
  intros Hk. unfold after_context, catalog_le. simpl. rewrite (proj2 (Z.eqb_neq k 0)) by done. simpl.
  rewrite !orb_true_iff, !andb_true_iff, !Z.eqb_eq, !Z.ltb_lt. lia.
Qed.

(** Where a client is that has seen the rows [seen]. *)
Definition at_cursor (k : option ContextPageCursor) (seen : list (Z * row)) : Prop :=
  match k with
  | None => seen = []
  | Some k => exists i x l, seen = l ++ [(i, x)] /\ k = cursor_of (rowToContext i x)
  end.
Lemma rows_after k seen rest : listed = seen ++ rest -> at_cursor k seen ->
  filter (fun kx => match k with Some k => after_context (K_IsDefault k) (K_IsSystem k) (K_ID k) kx
                               | None => after_context false false 0 kx end = true) listed = rest.
Proof using Hs Hws Hn.
  intros Hl Hk. destruct k as [k|].
  - destruct Hk as (i & x & l & -> & ->). simpl. fold (is_system x).
    assert (Hi : i <> 0).
    { assert ((i, x) ∈ listed) as [Hx _]%(elem_query catalog_le) by (rewrite Hl; set_solver). destruct (cs_ids _ Hs i x Hx). lia. }
    rewrite <- app_assoc in Hl. rewrite Hl. simpl in Hl |- *. eapply (keyset catalog_le catalog_le_id); [exact Hl|].
    intros b. by apply after_spec.
  - simpl in Hk. subst seen. simpl in Hl. rewrite <- Hl. unfold after_context. simpl. clear.
    induction listed as [|b l IH]; [done|]. rewrite filter_cons, decide_True by done. by rewrite IH.
Qed.

Lemma page_of k seen rest : listed = seen ++ rest -> at_cursor k seen ->
  ListPageForWorkspace ws systemOnly n k s = Ok {| Contexts := shown (take (Z.to_nat n) rest);
    NextCursor := if n <? Z.of_nat (length rest) then cursor_of <$> last (shown (take (Z.to_nat n) rest)) else None |}.
Proof using Hs Hws Hn.
  intros Hl Hk. unfold ListPageForWorkspace. rewrite (proj2 (Z.eqb_neq ws 0)), (proj2 (Z.eqb_neq n 0)), (proj2 (Z.ltb_ge _ _)) by lia. simpl.
  assert (match k with Some k => K_ID k =? 0 | None => false end = false) as ->.
  { destruct k as [k|]; [|done]. destruct Hk as (i & x & l & -> & ->). simpl. apply Z.eqb_neq.
    assert ((i, x) ∈ listed) as [Hx _]%(elem_query catalog_le) by (rewrite Hl; set_solver). destruct (cs_ids _ Hs i x Hx). lia. }
  unfold int64_of. rewrite (proj2 (Z.ltb_ge _ _)) by lia. cbn [mbind result_bind].
  pose proof (rows_after k seen rest Hl Hk) as Hr. unfold listed in Hr. rewrite <- (query_filter catalog_le catalog_le_id) in Hr.
  set (rows := ListContextsPageForWorkspaceManual systemOnly ws) in *.
  assert (Hrows : forall i d y, (i, d, y) = match k with Some k => (K_ID k, K_IsDefault k, K_IsSystem k) | None => (0, false, false) end ->
    rows i d y (n + 1) s = take (Z.to_nat (n + 1)) rest).
  { intros i d y E. subst rows. unfold ListContextsPageForWorkspaceManual. f_equal. rewrite <- Hr. by destruct k; injection E as -> -> ->. }
  destruct (match k with Some k => (K_ID k, K_IsDefault k, K_IsSystem k) | None => (0, false, false) end) as [[i d] y] eqn:E.
  rewrite (Hrows i d y eq_refl). clear Hrows Hr. rewrite length_take.
  assert ((n <? Z.of_nat (Z.to_nat (n + 1) `min` length rest)) = (n <? Z.of_nat (length rest))) as ->.
  { destruct (Z.ltb_spec n (Z.of_nat (length rest))); [apply Z.ltb_lt|apply Z.ltb_ge]; lia. }
  destruct (Z.ltb_spec n (Z.of_nat (length rest))).
  - rewrite take_take. replace (Z.to_nat n `min` Z.to_nat (n + 1))%nat with (Z.to_nat n) by lia. done.
  - rewrite !firstn_all2 by lia. done.
Qed.

Lemma follow_rest fuel k seen rest : listed = seen ++ rest -> at_cursor k seen -> (length rest < fuel)%nat ->
  exists pages, follow_pages fuel ws systemOnly n k s = Some pages /\ concat pages = shown rest
    /\ Forall (fun page => Z.of_nat (length page) <= n) pages.
Proof using Hs Hws Hn.
  revert k seen rest. induction fuel as [|fuel IH]; intros k seen rest Hl Hk Hf; [lia|]. simpl. rewrite (page_of k seen rest Hl Hk). simpl.
  assert (Hlen : Z.of_nat (length (shown (take (Z.to_nat n) rest))) <= n) by (unfold shown; rewrite length_fmap, length_take; lia).
  destruct (Z.ltb_spec n (Z.of_nat (length rest))) as [Hlt|Hge].
  - pose proof (length_take rest (Z.to_nat n)) as Hlt'. destruct (last (take (Z.to_nat n) rest)) as [[i x]|] eqn:El.
    2:{ apply last_None in El. rewrite El in Hlt'. simpl in Hlt'. lia. }
    unfold shown at 1. rewrite fmap_last, El. simpl. apply last_Some in El as [l El].
    destruct (IH (Some (cursor_of (rowToContext i x))) (seen ++ take (Z.to_nat n) rest) (drop (Z.to_nat n) rest)) as (pages & Hp & Hc & Hall).
    + by rewrite <- app_assoc, take_drop.
    + exists i, x, (seen ++ l). by rewrite El, app_assoc.
    + rewrite length_drop. lia.
    + rewrite Hp. eexists. split; [done|split; [|by constructor]]. simpl. rewrite Hc. unfold shown. by rewrite <- fmap_app, take_drop.
  - exists [shown (take (Z.to_nat n) rest)]. split; [done|split; [|by repeat constructor]]. simpl.
    by rewrite app_nil_r, firstn_all2 by lia.
Qed.
End pages.

(** C22: Listing the catalog ends: a client that follows the cursors gets, after at most one page more than there
    are contexts, pages of at most the size it asked for that together show every context it may read exactly once,
    defaults first, then those of the system, then by id. *)
Theorem catalog_pages_terminate ws systemOnly n s : catalog_sound s -> 0 < ws <= MaxInt64 -> 1 <= n <= MaxContextPageSize ->
  exists rows pages, follow_pages (S (size (catalog s))) ws systemOnly n None s = Some pages /\
    concat pages = (fun kx => rowToContext kx.1 kx.2) <$> rows /\
    StronglySorted catalog_le rows /\ NoDup rows /\
    (forall id x, (id, x) ∈ rows <-> catalog s !! id = Some x /\ (x_workspace_id x = None \/ systemOnly = false /\ x_workspace_id x = Some ws)) /\
    Forall (fun page => Z.of_nat (length page) <= n) pages.
Proof.
  intros Hs Hws Hn. set (rows := listed ws systemOnly s).
  destruct (follow_rest ws systemOnly n s Hs Hws Hn (S (size (catalog s))) None [] rows) as (pages & Hp & Hc & Hall); [done|done| |].
  { unfold rows, listed. rewrite (query_length catalog_le), <- length_map_to_list. apply Nat.lt_succ_r, length_filter. }
  exists rows, pages. split; [done|split; [done|split; [|split; [apply (query_NoDup catalog_le)|split; [|done]]]]].
  - apply (query_sorted catalog_le catalog_le_id).
  - intros id x. unfold rows, listed. rewrite (elem_query catalog_le). unfold in_catalog. simpl.
    rewrite orb_true_iff, andb_true_iff, negb_true_iff, is_system_true, owned_by_true. done.
Qed.

(** ** The catalog of a start *)

(** A row of the system with the settings of a preset, but for its default flag. *)
Definition installed (s : cdb) (c : Context) : Prop :=
  exists id x, catalog s !! id = Some x /\ x_workspace_id x = None /\ x_name x = Name c
    /\ no_default (x_settings x) = no_default (contextUpdateParams c).
(** One row of the system with the name of [c] is put in place. *)
Definition put (c : Context) (s s' : cdb) : Prop :=
  exists id x, catalog s' = <[id := x]> (catalog s) /\ x_workspace_id x = None /\ x_name x = Name c
    /\ no_default (x_settings x) = no_default (contextUpdateParams c)
    /\ (forall y, catalog s !! id = Some y -> x_name y = Name c).

Lemma put_installs c s s' : put c s s' -> installed s' c.
Proof. intros (id & x & Hc & H1 & H2 & H3 & _). exists id, x. by rewrite Hc, lookup_insert_eq. Qed.
Lemma put_keeps c d s s' : put c s s' -> Name d <> Name c -> installed s d -> installed s' d.
Proof.
  intros (id & x & Hc & _ & _ & _ & Hold) Hne (k & y & Hy & H1 & H2 & H3). exists k, y. rewrite Hc. split; [|done].
  rewrite lookup_insert_ne; [done|]. intros ->. specialize (Hold y Hy). congruence.
Qed.

Lemma fits_update s id x st now : catalog_sound s -> catalog s !! id = Some x -> s_name st = x_name x ->
  (s_is_default st = true -> x_is_default x = true) -> fits (catalog s) id (with_settings st now x) = true.
Proof.
  intros Hs Hx Hn Hd. apply fits_spec. intros k y Hy Hne. apply (clash_mono x y); [done|done|done|done|done|done|].
  by eapply (cs_apart _ Hs id k).
Qed.
Lemma fits_system s id now c : catalog_sound s -> WorkspaceID c = None -> GetSystemContextByNameManual (Name c) s = None ->
  (IsDefault c = true -> first_context system_default s = None) -> (forall k y, catalog s !! k = Some y -> k <> id -> x_workspace_id y = None \/ x_scope_id y <> 0) ->
  fits (catalog s) id (new_row now c) = true.
Proof.
  intros Hs Hw Hname Hd Hsc. apply fits_spec. intros k y Hy Hne. apply not_true_iff_false. unfold clash, x_scope_id at 1. simpl. rewrite Hw.
  rewrite andb_true_iff, Z.eqb_eq, orb_true_iff, !bool_decide_eq_true. intros [H0 Hc]. simpl in H0.
  destruct (Hsc k y Hy Hne) as [Hsys|]; [|done]. destruct Hc as [Hc|[H1 H2]].
  - by eapply (proj1 (by_name_None _ _) Hname k y).
  - unfold x_default_scope_id, x_is_default in H1. simpl in H1. destruct (IsDefault c); [|by destruct H1].
    pose proof (proj1 (first_context_None _ _) (Hd eq_refl) k y Hy) as Hf. unfold system_default in Hf.
    rewrite (proj2 (is_system_true y) Hsys), andb_true_r in Hf. unfold x_default_scope_id in H2. rewrite Hf in H2. by destruct H2.
Qed.

(** Only the system's rows have scope 0. *)
Lemma scopes s k y : catalog_sound s -> catalog s !! k = Some y -> x_workspace_id y = None \/ x_scope_id y <> 0.
Proof.
  intros Hs Hy. pose proof (owners s k y Hs Hy) as Ho. unfold owner_ok, ok_context, x_scope_id in *. simpl in Ho.
  destruct (x_workspace_id y) as [w|]; [right; simpl|by left]. intros ->. destruct (x_user_id y) as [u|]; [|done].
  apply bool_decide_eq_true in Ho. pose proof (n_related _ _ _ _ (cs_base _ Hs)) as Hr.
  pose proof (rel_members _ Hr (0, u) Ho) as Hm. unfold ok_member, workspace_parent in Hm. apply andb_true_iff in Hm as [Hm _].
  apply bool_decide_eq_true in Hm. by destruct (n_workspaces _ _ _ _ (cs_base _ Hs)).
Qed.

Lemma ensure_puts now c s : catalog_sound s -> next_context_id s <= MaxInt64 -> TrimSpace (Name c) = Name c -> Name c <> ""%string ->
  exists s', EnsureSystemContext now c s = (Ok tt, s') /\ put c s s' /\ next_context_id s' <= next_context_id s + 1.
Proof.
  intros Hs Hmax Htrim Hne. unfold EnsureSystemContext. simpl. rewrite Htrim, bool_decide_false by done.
  unfold run_tx, ensure_system. cbv [mbind tx_bind tx_reads mret tx_ret]. cbn [Name rescoped]. destruct (GetSystemContextByNameManual (Name c) s) as [[id x]|] eqn:E.
  - apply by_name_Some in E as (Hx & Hsys & Hn). unfold UpdateContext, UpdateContextManual. rewrite Hx. simpl.
    set (st := contextUpdateParams _). case_bool_decide as Hst.
    + eexists. split; [done|split; [|lia]]. exists id, x. rewrite insert_id by done. split; [done|split; [done|split; [done|split; [|naive_solver]]]].
      by rewrite Hst.
    + rewrite (fits_update s id x st now Hs Hx) by (done || (subst st; simpl; by intros [_ ?]%andb_true_iff)).
      eexists. split; [done|split; [|simpl; lia]]. exists id, (with_settings st now x). split; [done|split; [done|split; [done|split; [done|naive_solver]]]].
  - set (d := if IsDefault c then negb (HasDefaultContextManual s) else false).
    assert (Hd : (if IsDefault (rescoped None None (Name c) (IsDefault c) c) then has ← tx_reads HasDefaultContextManual; mret (negb has) else mret false) s
        = Ok (d, s) :> result context_err (bool * cdb)) by (subst d; simpl; by destruct (IsDefault c)).
    cbv [mbind tx_bind tx_reads mret tx_ret] in Hd. rewrite Hd. clear Hd.
    unfold CreateContext. cbv [mbind tx_bind tx_lift]. simpl. unfold CreateContextManual.
    set (c' := rescoped None None (Name c) d (rescoped None None (Name c) (IsDefault c) c)).
    pose proof (fits_system s (next_context_id s) now c' Hs eq_refl E) as Hf. unfold new_row in Hf. simpl in Hf. rewrite Hf.
    + unfold lastInsertID, int64_of. rewrite (proj2 (Z.ltb_ge _ _)) by lia. eexists. split; [done|split; [|simpl; lia]].
      eexists (next_context_id s), _. split; [done|split; [done|split; [done|split; [done|]]]].
      intros y Hy. destruct (cs_ids _ Hs _ _ Hy). lia.
    + subst d. destruct (IsDefault c); [|done]. unfold HasDefaultContextManual. rewrite negb_involutive, bool_decide_eq_true.
      unfold first_context. by intros ->.
    + intros k y Hy _. by eapply scopes.
Qed.

Lemma ensure_all_installs now l s : catalog_sound s -> next_context_id s + Z.of_nat (length l) <= MaxInt64 ->
  NoDup (Name <$> l) -> Forall (fun c => TrimSpace (Name c) = Name c /\ Name c <> ""%string) l ->
  exists s', SystemCatalog.ensure_all now l s = (Ok tt, s') /\ catalog_sound s' /\ rtc (edit false None) s s'
    /\ next_context_id s' <= next_context_id s + Z.of_nat (length l)
    /\ (forall d, Name d ∉ Name <$> l -> installed s d -> installed s' d) /\ (forall c, c ∈ l -> installed s' c).
Proof.
  revert s. induction l as [|c l IH]; intros s Hs Hmax Hnd Hall.
  - exists s. split; [done|split; [done|split; [reflexivity|split; [lia|split; [done|by intros c ?%not_elem_of_nil]]]]].
  - apply NoDup_cons in Hnd as [Hc Hnd]. apply Forall_cons in Hall as [[Ht Hb] Hall]. rewrite length_cons in Hmax.
    destruct (ensure_puts now c s Hs ltac:(lia) Ht Hb) as (s1 & H1 & Hp & Hn).
    pose proof (EnsureSystemContext_edits false now c s) as He. rewrite H1 in He. simpl in He.
    assert (Hs1 : catalog_sound s1) by by eapply edits_sound.
    destruct (IH s1 Hs1 ltac:(lia) Hnd Hall) as (s' & H' & Hs' & He' & Hn' & Hkeep & Hin). exists s'. simpl. rewrite H1, H'.
    split; [done|split; [done|split; [by etrans|split; [lia|split]]]].
    + intros d Hd Hi. apply Hkeep; [set_solver|]. eapply put_keeps; [done| |done]. intros E. apply Hd. rewrite E. by left.
    + intros d [->|Hd]%elem_of_cons; [|by apply Hin]. apply Hkeep; [done|]. by eapply put_installs.
Qed.

Lemma one_name s i j x y : catalog_sound s -> catalog s !! i = Some x -> catalog s !! j = Some y ->
  x_workspace_id x = x_workspace_id y -> x_name x = x_name y -> i = j.
Proof.
  intros Hs Hx Hy Hw Hn. destruct (decide (i = j)) as [|Hne]; [done|]. pose proof (cs_apart _ Hs i j x y Hx Hy Hne) as Hc.
  unfold clash, x_scope_id in Hc. by rewrite Hw, Hn, Z.eqb_refl, bool_decide_true in Hc.
Qed.
Lemma one_default s i j x y : catalog_sound s -> catalog s !! i = Some x -> catalog s !! j = Some y ->
  x_workspace_id x = x_workspace_id y -> x_is_default x = true -> x_is_default y = true -> i = j.
Proof.
  intros Hs Hx Hy Hw Hd He. destruct (decide (i = j)) as [|Hne]; [done|]. pose proof (cs_apart _ Hs i j x y Hx Hy Hne) as Hc.
  unfold clash, x_scope_id, x_default_scope_id in Hc. rewrite Hw, Hd, He, Z.eqb_refl, (bool_decide_true (is_Some _ /\ _)), orb_true_r in Hc; done.
Qed.

Lemma retire_spec now names s : catalog_sound s -> exists s', retire now names s = Ok (tt, s') /\
  forall id x, catalog s' !! id = Some x <-> catalog s !! id = Some x /\ (x_workspace_id x <> None \/ x_name x ∉ names).
Proof.
  revert s. induction names as [|name names IH]; intros s Hs.
  { exists s. split; [done|]. intros id x. set_solver. }
  simpl. cbv [mbind tx_bind tx_reads]. destruct (GetSystemContextByNameManual name s) as [[id x]|] eqn:E.
  - apply by_name_Some in E as (Hx & Hsys & Hn).
    unfold LockContextForDeleteManual, GetContext. rewrite (proj2 (row_of_Ok (fun s => catalog s !! id) s x s) (conj Hx eq_refl)), references_cleared, (nullable_id s id x Hs Hx).
    unfold DeleteContextManual. cbn [catalog changed]. rewrite bool_decide_true by by eexists.
    assert (Hr : catalog_sound (removed now id s)) by (eapply (edit_sound false); [done|by eapply ed_remove]).
    destruct (IH _ Hr) as (s' & H' & Hs'). exists s'. split; [exact H'|]. intros k y. rewrite Hs'. cbn [catalog removed changed].
    rewrite lookup_delete_Some. split.
    + intros [[Hne Hy] Hk]. split; [done|]. destruct Hk as [Hk|Hk]; [by left|]. destruct (decide (x_workspace_id y = None)) as [Hys|]; [right|by left].
      rewrite not_elem_of_cons. split; [|done]. intros Hyn. apply Hne. symmetry. by eapply (one_name s k id y x Hs); congruence.
    + intros [Hy Hk]. split; [|set_solver]. split; [|done]. intros <-. assert (y = x) as -> by congruence.
      destruct Hk as [|Hk]; [done|]. apply Hk. rewrite Hn. by left.
  - destruct (IH s Hs) as (s' & H' & Hs'). exists s'. split; [done|]. intros k y. rewrite Hs'. pose proof (proj1 (by_name_None _ _) E k y) as Hno.
    destruct (decide (x_workspace_id y = None)) as [Hys|]; [|naive_solver].
    rewrite not_elem_of_cons. split; [|naive_solver]. intros [Hy [|Hk]]; [done|]. split; [done|right]. split; [by apply Hno|done].
Qed.

Lemma replace_installs now c retired names s : catalog_sound s -> installed s c -> IsDefault c = true -> UserID c = None -> WorkspaceID c = None ->
  TrimSpace (Name c) = Name c -> Name c <> ""%string -> retired_names (Name c) names [] = Ok retired -> Name c ∉ retired ->
  exists s', ReplaceSystemDefault now c names s = (Ok tt, s') /\
    (exists id x, catalog s' !! id = Some x /\ x_workspace_id x = None /\ x_name x = Name c /\ x_settings x = contextUpdateParams c) /\
    (forall d, installed s d -> Name d <> Name c -> Name d ∉ retired -> IsDefault d = false ->
       exists id x, catalog s' !! id = Some x /\ x_workspace_id x = None /\ x_name x = Name d /\ x_settings x = contextUpdateParams d) /\
    (forall id x, catalog s' !! id = Some x -> x_workspace_id x = None -> x_name x ∉ retired).
Proof.
  intros Hs (i & x & Hx & Hsys & Hn & Hst) Hd Hu Hw Htrim Hb Hret Hnot. unfold ReplaceSystemDefault. cbn [Name rescoped].
  rewrite Htrim, bool_decide_false by done. rewrite Hret. assert (rescoped None None (Name c) true c = c) as -> by (destruct c; unfold rescoped; simpl in *; congruence).
  unfold run_tx, replace_default. cbv [mbind tx_bind tx_reads mret tx_ret].
  destruct (GetSystemContextByNameManual (Name c) s) as [[id x0]|] eqn:E; [|by destruct (proj1 (by_name_None _ _) E i x)].
  apply by_name_Some in E as (Hx0 & Hsys0 & Hn0). assert (id = i) as -> by (eapply (one_name s id i x0 x Hs); congruence).
  assert (x0 = x) as -> by congruence. destruct (cs_ids _ Hs i x Hx) as [Hi _]. rewrite (proj2 (Z.eqb_neq i 0)) by lia.
  set (s1 := set_catalog (cleared now None i (catalog s)) (next_context_id s) s).
  assert (Hs1 : catalog_sound s1) by (eapply (edit_sound false None s); [done|apply ed_clear]).
  assert (Hx1 : catalog s1 !! i = Some x).
  { subst s1. simpl. rewrite lookup_cleared, Hx. unfold cleared_default. simpl. by rewrite Z.eqb_refl, andb_false_r. }
  assert (Hothers : forall k y, catalog s1 !! k = Some y -> k <> i -> x_workspace_id y = None -> x_is_default y = false).
  { intros k y. subst s1. simpl. rewrite lookup_cleared. destruct (catalog s !! k) as [z|]; [|done]. intros [= <-] Hne.
    destruct (cleared_scope now None i k z) as (-> & _). intros Hz. unfold cleared_default. rewrite Hz, bool_decide_true by done.
    rewrite (proj2 (Z.eqb_neq k i)) by done. destruct (x_is_default z) eqn:Ez; [done|done]. }
  assert (Hup : exists y n s2, UpdateContext now i c s1 = Ok (n, s2) /\ catalog_sound s2 /\ catalog s2 = <[i := y]> (catalog s1)
      /\ x_workspace_id y = None /\ x_name y = Name c /\ x_settings y = contextUpdateParams c).
  { unfold UpdateContext, UpdateContextManual. rewrite Hx1. case_bool_decide as Heq.
    - exists x, 0, s1. by rewrite insert_id.
    - assert (Hf : fits (catalog s1) i (with_settings (contextUpdateParams c) now x) = true).
      { apply fits_spec. intros k y Hy Hne. apply not_true_iff_false. unfold clash. rewrite andb_true_iff, Z.eqb_eq, orb_true_iff, !bool_decide_eq_true.
        unfold x_scope_id at 1. simpl. rewrite Hsys. simpl. intros [H0 Hc]. destruct (scopes s1 k y Hs1 Hy) as [Hys|]; [|done].
        destruct Hc as [Hc|[_ Hc]].
        - apply Hne. eapply (one_name s1 k i y x Hs1); [done|done|congruence|rewrite Hn; exact (eq_sym Hc)].
        - unfold x_default_scope_id in Hc. rewrite (Hothers k y Hy Hne Hys) in Hc. by destruct Hc. }
      rewrite Hf. eexists _, _, _. split; [done|split]; [eapply (edit_sound false); [done|by eapply ed_update]|done]. }
  destruct Hup as (y & n & s2 & Hup & Hs2 & Hc2 & Hyw & Hyn & Hys). unfold ClearDefaultContextsForScopeManual, tx_modify.
  fold (cleared now None i (catalog s)). fold s1. rewrite Hup. destruct (retire_spec now retired s2 Hs2) as (s' & -> & Hs').
  exists s'. split; [done|split; [|split]].
  - exists i, y. split; [|done]. apply Hs'. rewrite Hc2, lookup_insert_eq. split; [done|right; congruence].
  - intros d (k & z & Hz & Hzw & Hzn & Hzs) Hne Hdn Hdd. assert (Hk : k <> i) by (intros ->; congruence).
    exists k, (cleared_default now None i k z). destruct (cleared_scope now None i k z) as (Hcw & _ & Hcn).
    assert (Hl : catalog s1 !! k = Some (cleared_default now None i k z)) by (subst s1; simpl; by rewrite lookup_cleared, Hz).
    split; [|split; [congruence|split; [congruence|]]].
    + apply Hs'. rewrite Hc2, lookup_insert_ne by done. split; [done|right; congruence].
    + assert (Hzd : x_is_default (cleared_default now None i k z) = false) by (eapply (Hothers k); [done|done|congruence]).
      assert (Hzz : no_default (x_settings (cleared_default now None i k z)) = no_default (x_settings z)) by (unfold cleared_default; by destruct (_ && _)).
      rewrite Hzs in Hzz. unfold no_default, x_is_default in *. revert Hzz Hzd. generalize (cleared_default now None i k z). intros [w u t a b]. simpl.
      destruct t. simpl. intros [= -> -> -> -> -> -> -> ->] ->. unfold contextUpdateParams. by rewrite Hdd.
  - intros k z [_ Hz]%Hs' Hk. by destruct Hz.
Qed.

(** C19: A start converges: on every catalog it succeeds, and then the system's contexts include every preset of
    internal/app/contexts.go with its settings, the only default of the system is the first preset, no retired name
    is left, and the contexts of workspaces are as they were. *)
Theorem startup_installs_the_catalog accepts now prompt s : catalog_sound s -> next_context_id s + 14 <= MaxInt64 ->
  (forall c, c ∈ SystemCatalog.systemContexts prompt -> accepts c = true) ->
  exists s', SystemCatalog.EnsureSystemContexts accepts now prompt s = (Ok tt, s') /\
    (forall c, c ∈ SystemCatalog.systemContexts prompt ->
       exists id x, catalog s' !! id = Some x /\ x_workspace_id x = None /\ x_name x = Name c /\ x_settings x = contextUpdateParams c) /\
    (forall id x, catalog s' !! id = Some x -> x_workspace_id x = None ->
       (x_is_default x = true <-> x_name x = "Letters + GLM-OCR"%string) /\ x_name x ∉ SystemCatalog.retiredSystemContextNames) /\
    (forall id x, x_workspace_id x <> None -> (catalog s !! id = Some x <-> catalog s' !! id = Some x)).
Proof.
  intros Hs Hmax Hacc. set (l := SystemCatalog.systemContexts prompt) in *.
  assert (Hv : SystemCatalog.validateSystemContextCatalog accepts l = true).
  { unfold SystemCatalog.validateSystemContextCatalog. rewrite (proj2 (forallb_forall accepts l)) by (intros c Hc; apply Hacc; by apply list_elem_of_In).
    rewrite andb_true_r. by vm_compute. }
  assert (Hnd : bool_decide (NoDup (Name <$> l)) = true) by by vm_compute.
  apply bool_decide_eq_true in Hnd.
  assert (Hnames : forallb (fun c => bool_decide (TrimSpace (Name c) = Name c /\ Name c <> ""%string)) l = true) by by vm_compute.
  rewrite forallb_forall in Hnames. setoid_rewrite bool_decide_eq_true in Hnames. apply List.Forall_forall in Hnames.
  destruct (ensure_all_installs now l s Hs ltac:(simpl; lia) Hnd Hnames) as (s1 & H1 & Hs1 & He & _ & _ & Hin).
  set (c := SystemCatalog.line_preset prompt true "Letters" "kraken" "GLM-OCR" "ollama" "glm-ocr:bf16").
  assert (Hfirst : filter (fun c => IsDefault c = true) l = [c]) by done.
  assert (Hrest : forall d, d ∈ l -> d = c \/ Name d <> Name c /\ IsDefault d = false /\ Name d ∉ SystemCatalog.retiredSystemContextNames).
  { assert (Hl : l = c :: List.tl l) by done. assert (Ht : forallb (fun d => bool_decide (Name d <> Name c /\ IsDefault d = false
      /\ Name d ∉ SystemCatalog.retiredSystemContextNames)) (List.tl l) = true) by by vm_compute.
    rewrite forallb_forall in Ht. intros d Hd. rewrite Hl in Hd. apply elem_of_cons in Hd as [->|Hd]; [by left|right].
    apply list_elem_of_In, Ht in Hd. by apply bool_decide_eq_true in Hd. }
  set (R := SystemCatalog.retiredSystemContextNames) in *.
  assert (Hret : retired_names (Name c) R [] = Ok R) by (vm_compute; reflexivity).
  assert (Htrim : TrimSpace (Name c) = Name c) by (vm_compute; reflexivity).
  assert (Hnot : bool_decide (Name c ∉ R) = true) by (vm_compute; reflexivity). apply bool_decide_eq_true in Hnot.
  assert (Hic : installed s1 c) by (apply Hin; by left).
  destruct (replace_installs now c R R s1 Hs1 Hic eq_refl eq_refl eq_refl Htrim ltac:(discriminate) Hret Hnot) as (s' & H' & Hc & Hd & Hr).
  pose proof (ReplaceSystemDefault_edits false now c R s1 Hs1) as He'. rewrite H' in He'. simpl in He'.
  assert (Hs' : catalog_sound s') by by eapply edits_sound.
  exists s'. split.
  { unfold SystemCatalog.EnsureSystemContexts. fold l. by rewrite Hv, H1, Hfirst. }
  split; [|split].
  - intros d Hdl. destruct (Hrest d Hdl) as [->|(H2 & H3 & H4)]; [done|]. apply Hd; [by apply Hin|done|done|done].
  - intros id x Hx Hsys. split; [|by eapply Hr]. destruct Hc as (i & y & Hy & Hyw & Hyn & Hys). split; intros Hxd.
    + assert (id = i) as -> by (eapply (one_default s' id i x y Hs'); [done|done|congruence|done|unfold x_is_default; by rewrite Hys]).
      assert (x = y) as -> by congruence. done.
    + assert (id = i) as -> by (eapply (one_name s' id i x y Hs'); [done|done|congruence|by rewrite Hyn]).
      assert (x = y) as -> by congruence. unfold x_is_default. by rewrite Hys.
  - intros id x Hx. assert (rtc (edit false None) s s') as Hall by by etrans.
    by apply (ot_rows _ _ _ (edits_others false None s s' Hs Hall)).
Qed.

(** ** Histories *)

Section histories.
Context `{UrlParser}.

(** C11: Over any history of calls of workspaces, of starts and of the item and upload stores the names of a scope are
    distinct, a workspace and the system have at most one default each, every selection rule belongs to a context and
    decodes to a valid rule, and the relationship audit stays silent: deleting a context leaves no link to it. *)
Theorem contexts_stay_consistent s s' : catalog_sound s -> rtc step s s' ->
  (forall i j x y, catalog s' !! i = Some x -> catalog s' !! j = Some y -> x_workspace_id x = x_workspace_id y ->
     x_name x = x_name y \/ (x_is_default x = true /\ x_is_default y = true) -> i = j) /\
  (forall id r, rules s' !! id = Some r -> is_Some (catalog s' !! r_context_id r) /\
     exists rule, rowToRule id r = Ok rule /\ validateSelectionRule rule = Ok tt) /\
  AuditRelationshipIntegrity (tables s') = Ok [].
Proof.
  intros Hs0 Hh. assert (Hs : catalog_sound s') by by eapply calls_sound. split; [|split].
  - intros i j x y Hx Hy Hw [Hn|[Hd He]]; [by eapply one_name|by eapply one_default].
  - intros id r Hr. destruct (cs_rules _ Hs id r Hr) as (Hc & Hok & _). split; [done|]. unfold rowToRule in *.
    destruct (r_conditions r); try done. destruct (decode_conditions l) as [cs|]; [|done]. cbn [mbind result_bind] in *.
    destruct (validateSelectionRule _) as [[]|] eqn:E; [|done]. eauto.
  - apply ItemPurge.audit_silent. exact (n_related _ _ _ _ (cs_base _ Hs)).
Qed.

(** A call of a workspace, or of the item and upload stores. *)
Inductive tenant_step (s : cdb) : cdb -> Prop :=
| ts_workspace ws s' : workspace_call ws s s' -> tenant_step s s'
| ts_items t : move (tables s) t -> tenant_step s (set_tables t s).

Lemma tenant_bound s s' : catalog_sound s -> rtc tenant_step s s' ->
  (forall w, CountSelectionRulesForWorkspaceManual w s <= MaxSelectionRulesPerWorkspace) ->
  catalog_sound s' /\ forall w, CountSelectionRulesForWorkspaceManual w s' <= MaxSelectionRulesPerWorkspace.
Proof.
  intros Hs Hh. induction Hh as [s|s t u Ht _ IH]; [done|]. intros Hb. apply IH.
  - destruct Ht as [ws t Hw|t Hm]; [|by apply items_sound]. eapply edits_sound; [done|by apply workspace_edits].
  - intros w. destruct Ht as [ws t Hw|t Hm]; [by eapply workspace_call_bound|]. apply Hb.
Qed.

(** C32: The rules that a workspace evaluates stay at most 100 over any history of calls of workspaces, so the
    resolution of a context never fails on its limit. *)
Theorem admission_bounds_resolution s s' : catalog_sound s -> rtc tenant_step s s' ->
  (forall w, CountSelectionRulesForWorkspaceManual w s <= MaxSelectionRulesPerWorkspace) ->
  (forall w, CountSelectionRulesForWorkspaceManual w s' <= MaxSelectionRulesPerWorkspace) /\
  forall w metadata, ResolveForWorkspace w metadata s' <> Err ContextResolutionLimit.
Proof.
  intros Hs0 Hh Hb0. destruct (tenant_bound s s' Hs0 Hh Hb0) as [Hs Hb]. split; [done|]. intros w metadata.
  unfold ResolveForWorkspace. destruct (w =? 0); [done|]. unfold resolve. destruct (normalizeContextMetadata metadata) as [m|e] eqn:Em.
  2:{ cbn [mbind result_bind]. unfold normalizeContextMetadata in Em. destruct (_ <? _)%nat; [by injection Em as <-|]. case_bool_decide; [done|by injection Em as <-]. }
  cbn [mbind result_bind]. unfold ListSelectionRulesForWorkspaceResolution, GetDefaultForWorkspace, int64_of.
  destruct (_ <? _); [done|]. cbn [mbind result_bind]. unfold ListSelectionRulesForWorkspaceResolutionManual.
  set (rows := rules_where (fun kr => rule_of (readable_by w) s' kr.2) s').
  assert (Hrows : forall id r, (id, r) ∈ rows <-> visible w s' id r) by (intros; apply (elem_query rule_le)).
  specialize (Hb w). rewrite visible_count in Hb. fold rows in Hb.
  rewrite firstn_all2 by (unfold MaxSelectionRulesPerWorkspace in *; lia). unfold boundedSelectionRules.
  rewrite (proj2 (Z.ltb_ge _ _)) by lia. destruct (to_rules_Ok w s' Hs rows) as (rs & -> & _); [by intros ? ? ?%Hrows|].
  cbn [mbind result_bind]. destruct (first_match _ m rs); [done|]. by destruct (GetDefaultContextForWorkspaceManual w s') as [[]|].
Qed.
End histories.

(** ** One workspace does not reach another *)

(** The rows of other workspaces that link to contexts. *)
Record same_links (ws : Z) (t t' : idb) : Prop := {
  sl_jobs : forall id j, Jobs.k_workspace_id (Jobs.j_key j) <> ws -> (q_jobs (queue t) !! id = Some j <-> q_jobs (queue t') !! id = Some j);
  sl_batches : forall k, k.1 <> ws -> batches t' !! k = batches t !! k;
  sl_runs : forall id n, n_workspace_id n <> ws -> (ocr_runs (kids t) !! id = Some n <-> ocr_runs (kids t') !! id = Some n);
  sl_audits : forall id a, u_workspace_id a <> ws -> (provider_audits (kids t) !! id = Some a <-> provider_audits (kids t') !! id = Some a);
}.
#[export] Instance same_links_refl ws : Reflexive (same_links ws).
Proof. intros t. by split. Qed.
#[export] Instance same_links_trans ws : Transitive (same_links ws).
Proof.
  intros t u v [] []. split.
  - intros k x Hne. by rewrite sl_jobs0, sl_jobs1.
  - intros k Hne. by rewrite sl_batches1, sl_batches0.
  - intros k x Hne. by rewrite sl_runs0, sl_runs1.
  - intros k x Hne. by rewrite sl_audits0, sl_audits1.
Qed.

Section far.
Context (ws now id : Z) (s : cdb) (x : row).
Hypothesis Hs : catalog_sound s.
Hypothesis Hx : catalog s !! id = Some x.
Hypothesis Hw : x_workspace_id x = Some ws.

Lemma unlinked_far w o : w <> ws -> context_or_null (tables s) w o = true -> linked (Some id) o = false.
Proof using Hs Hx Hw.
  intros Hne Ho. unfold linked. apply bool_decide_eq_false. intros [_ ->]. simpl in Ho. rewrite map_lookup_imap, Hx in Ho. simpl in Ho.
  unfold c_scope_id in Ho. simpl in Ho. rewrite Hw in Ho. simpl in Ho. destruct (scopes s id x Hs Hx) as [|H0]; [congruence|].
  unfold x_scope_id in H0. rewrite Hw in H0. simpl in H0. rewrite orb_true_iff, !Z.eqb_eq in Ho. destruct Ho; congruence.
Qed.
Lemma same_fmap {K A} `{Countable K} (f : A -> A) (m : gmap K A) (far : A -> Prop) k a :
  (forall k a, m !! k = Some a -> far a -> f a = a) -> (forall a, far (f a) <-> far a) -> far a -> m !! k = Some a <-> (f <$> m) !! k = Some a.
Proof using Type.
  intros Hf Hff Ha. rewrite lookup_fmap. destruct (m !! k) as [b|] eqn:E; [|done]. simpl. split.
  - intros [= ->]. by rewrite (Hf k a E Ha).
  - intros [= <-]. by rewrite (Hf k b E (proj1 (Hff b) Ha)).
Qed.
Lemma removed_far : same_links ws (base s) (base (removed now id s)).
Proof using Hs Hx Hw.
  pose proof (n_related _ _ _ _ (cs_base _ Hs)) as Hr. split; simpl.
  - intros k j. apply (same_fmap _ _ (fun j => Jobs.k_workspace_id (Jobs.j_key j) <> ws)).
    + intros i j' Hj Hne. pose proof (rel_jobs _ Hr i j' Hj) as Hok. unfold ok_job in Hok. apply andb_true_iff in Hok as [_ Hok].
      unfold ContextDb.unlink_job. by rewrite (unlinked_far _ _ Hne Hok).
    + intros j'. by destruct (ContextLinks.unlink_job_same now (Some id) j') as (-> & _).
  - intros k Hne. rewrite lookup_fmap. destruct (batches (base s) !! k) as [b'|] eqn:E; [|done]. simpl. f_equal.
    pose proof (rel_batches _ Hr k b' E) as Hok. unfold ok_batch in Hok. apply andb_true_iff in Hok as [_ Hok].
    unfold ContextDb.unlink_batch. by rewrite (unlinked_far _ _ Hne Hok).
  - intros k n. apply (same_fmap _ _ (fun n => n_workspace_id n <> ws)).
    + intros i n' Hn Hne. pose proof (rel_runs _ Hr i n' Hn) as Hok. unfold ok_run in Hok. apply andb_true_iff in Hok as [_ Hok].
      unfold ContextDb.unlink_run. by rewrite (unlinked_far _ _ Hne Hok).
    + intros n'. by destruct (ContextLinks.unlink_run_same (Some id) n') as (-> & _).
  - intros k a. apply (same_fmap _ _ (fun a => u_workspace_id a <> ws)).
    + intros i a' Ha Hne. pose proof (rel_audits _ Hr i a' Ha) as Hok. unfold ok_audit in Hok. apply andb_true_iff in Hok as [_ Hok].
      unfold ContextDb.unlink_audit. by rewrite (unlinked_far _ _ Hne Hok).
    + intros a'. by destruct (ContextLinks.unlink_audit_same (Some id) a') as (-> & _).
Qed.
End far.
Lemma edits_far b ws s s' : catalog_sound s -> rtc (edit b (Some ws)) s s' -> same_links ws (base s) (base s').
Proof.
  intros Hs He. induction He as [|s t u Ht _ IH]; [reflexivity|]. etrans; [|apply IH; by eapply edit_sound].
  destruct Ht; [reflexivity..| |reflexivity|reflexivity]. by eapply removed_far.
Qed.
Lemma calls_edits ws s s' : catalog_sound s -> rtc (workspace_call ws) s s' -> rtc (edit true (Some ws)) s s'.
Proof.
  intros Hs Hc. induction Hc as [|s t u Ht _ IH]; [reflexivity|]. apply workspace_edits in Ht; [|done]. etrans; [exact Ht|].
  apply IH. by eapply edits_sound.
Qed.

(** C12: What a workspace does to contexts and rules does not reach the rest: the contexts of the system and of other
    workspaces and their rules stay as they are, so do the jobs, batches, recognition runs and audits of other
    workspaces, and another workspace resolves and lists as before. *)
Theorem workspaces_are_isolated ws s s' : catalog_sound s -> rtc (workspace_call ws) s s' ->
  (forall id x, x_workspace_id x <> Some ws -> (catalog s !! id = Some x <-> catalog s' !! id = Some x)) /\
  same_links ws (base s) (base s') /\
  forall ws', ws' <> ws ->
    (forall metadata, ResolveForWorkspace ws' metadata s' = ResolveForWorkspace ws' metadata s) /\
    (forall systemOnly n k, ListPageForWorkspace ws' systemOnly n k s' = ListPageForWorkspace ws' systemOnly n k s) /\
    (forall cid n k, ListRulePageForWorkspace ws' cid n k s' = ListRulePageForWorkspace ws' cid n k s).
Proof.
  intros Hs Hc. pose proof (calls_edits ws s s' Hs Hc) as He. pose proof (edits_others _ _ _ _ Hs He) as Ho.
  split; [by apply Ho|split; [by eapply edits_far|]]. intros ws' Hne. split; [|split].
  - intros metadata. unfold ResolveForWorkspace. destruct (ws' =? 0); [done|].
    assert (Hl : ListSelectionRulesForWorkspaceResolution ws' (MaxSelectionRulesPerWorkspace + 1) s'
      = ListSelectionRulesForWorkspaceResolution ws' (MaxSelectionRulesPerWorkspace + 1) s).
    { unfold ListSelectionRulesForWorkspaceResolution, int64_of. destruct (_ <? _); [done|]. cbn [mbind result_bind]. f_equal.
      unfold ListSelectionRulesForWorkspaceResolutionManual. f_equal. apply (query_ext rule_le); [apply rule_le_id|]. intros k r.
      pose proof (same_rule ws ws' s s' Hne Ho (fun _ => true) k r) as Hsame. by rewrite !andb_true_r in Hsame. }
    assert (Hd : GetDefaultForWorkspace ws' s' = GetDefaultForWorkspace ws' s).
    { unfold GetDefaultForWorkspace, int64_of. destruct (_ <? _); [done|]. cbn [mbind result_bind]. f_equal.
      unfold GetDefaultContextForWorkspaceManual, first_context. rewrite !(same_contexts ws s s' Ho); [done|..].
      - intros y [_ Hy%is_system_true]%andb_true_iff. congruence.
      - intros y [_ Hy%owned_by_true]%andb_true_iff. congruence. }
    unfold resolve. rewrite Hl, Hd. destruct (normalizeContextMetadata metadata) as [m|]; [|done]. cbn [mbind result_bind].
    destruct (ListSelectionRulesForWorkspaceResolution _ _ s) as [rows|]; [|done]. cbn [mbind result_bind].
    destruct (boundedSelectionRules rows) as [rs|]; [|done]. cbn [mbind result_bind].
    assert (Hf : first_match (fun id => GetForWorkspace id ws' s') m rs = first_match (fun id => GetForWorkspace id ws' s) m rs).
    { induction rs as [|r rs IH]; [done|]. simpl. by rewrite !GetForWorkspace_if, (same_context ws ws' s s' Hne Ho), IH. }
    by rewrite Hf.
  - intros systemOnly n k. unfold ListPageForWorkspace, int64_of. destruct (ws' =? 0); [done|]. destruct (_ || _); [done|].
    destruct (match k with Some k => _ | None => _ end); [done|]. destruct (_ <? _); [done|]. cbn [mbind result_bind].
    destruct (match k with Some k => (K_ID k, K_IsDefault k, K_IsSystem k) | None => (0, false, false) end) as [[i d] y].
    assert (Hl : ListContextsPageForWorkspaceManual systemOnly ws' i d y (n + 1) s' = ListContextsPageForWorkspaceManual systemOnly ws' i d y (n + 1) s).
    { unfold ListContextsPageForWorkspaceManual. f_equal. apply (query_ext catalog_le); [apply catalog_le_id|]. intros j x. simpl.
      rewrite !andb_true_iff. pose proof (same_if ws s s' Ho (fun x => is_system x || negb systemOnly && owned_by ws' x) j x) as Hsame. cbv beta in Hsame.
      assert (Hfar : forall z, is_system z || negb systemOnly && owned_by ws' z = true -> x_workspace_id z <> Some ws).
      { intros z [Hz%is_system_true|[_ Hz%owned_by_true]%andb_true_iff]%orb_true_iff; congruence. }
      specialize (Hsame Hfar). tauto. }
    by rewrite Hl.
  - intros cid n k. unfold ListRulePageForWorkspace, int64_of. destruct (ws' =? 0); [done|]. destruct (_ || _); [done|].
    destruct (match k with Some k => _ | None => _ end); [done|]. destruct (_ <? _); [done|]. cbn [mbind result_bind].
    destruct (match k with Some k => (V_ID k, V_Priority k) | None => (0, 0) end) as [i p].
    assert (Hl : ListSelectionRulesPageForWorkspaceManual ws' cid i p (n + 1) s' = ListSelectionRulesPageForWorkspaceManual ws' cid i p (n + 1) s).
    { unfold ListSelectionRulesPageForWorkspaceManual. f_equal. apply (query_ext rule_le); [apply rule_le_id|]. intros j r.
      rewrite <- !andb_assoc.
      exact (same_rule ws ws' s s' Hne Ho (fun kr => ((cid =? 0) || (r_context_id kr.2 =? cid)) && after_rule i p kr) j r). }
    by rewrite Hl.
Qed.
End ContextTheorems.

(** * Recognition contexts: examples *)

Module ContextExamples.
Import GoStr Json MediaFragment ItemDb ItemAudit ItemSound UploadHistory ContextDb ContextStore ContextLinks ContextKeeps ContextHistory ContextTheorems UploadExamples.
#[local] Open Scope Z_scope.

(** A library with one system context, and a workspace that adds a default of its own and two rules. *)
Definition letters : row :=
  {| x_user_id := None; x_workspace_id := None;
     x_settings := {| s_name := "Letters"; s_description := None; s_is_default := true; s_document_type := "generic";
       s_segmentation_model := "kraken"; s_transcription_provider := "ollama"; s_transcription_model := "glm-ocr:bf16";
       s_temperature := None; s_system_prompt := None |}; x_created_at := 10; x_updated_at := 10 |}.
Definition s0 : cdb :=
  {| base := library0; catalog := {[ 5 := letters ]}; next_context_id := 6; rules := ∅; next_rule_id := 1 |}.
Definition diaries (isDefault : bool) : Context :=
  {| DocumentType := ""; ID := 6; UserID := None; WorkspaceID := None; Name := "Diaries"; Description := "";
     IsDefault := isDefault; SegmentationModel := "kraken"; TranscriptionProvider := "gemini";
     TranscriptionModel := "gemini-3.1-pro-preview"; Temperature := Some "0.2"; SystemPrompt := ""; CreatedAt := 0; UpdatedAt := 0 |}%string.
Definition rule (priority : Z) (op value : string) : ContextSelectionRule :=
  {| L_ID := 0; L_ContextID := 6; L_Priority := priority;
     L_Conditions := Some [{| Field := "language"; Operator := op; Value := value |}]; L_CreatedAt := 0 |}.
Definition s1 : cdb := (Create 100 (rescoped (Some 7) (Some 1) (Name (diaries true)) (IsDefault (diaries true)) (diaries true)) s0).2.
Definition s2 : cdb := (CreateRuleForWorkspace 110 1 (rule 5 "starts_with" "e") s1).2.
Definition s3 : cdb := (CreateRuleForWorkspace 120 1 (rule 9 "eq" "la") s2).2.
Definition english : gmap string json := {[ "language"%string := JString "en" ]}.

Lemma s0_sound : catalog_sound s0.
Proof.
  split.
  - intros i j x y. simpl. rewrite !lookup_singleton_Some. by intros [<- _] [<- _].
  - intros i x. simpl. rewrite lookup_singleton_Some. intros [<- _]. done.
  - done.
  - done.
  - change (tables s0) with (set_contexts (map_imap (fun id x => Some (context_row_of id x)) (catalog s0)) library0).
    rewrite <- (without_none 0 library0). apply (relink_sound 0 None _ library0); [| |apply library0_sound].
    + intros ws c _. unfold ItemAudit.context_or_null. simpl. destruct (decide (c = 5)) as [->|Hne].
      * intros _. vm_compute. reflexivity.
      * rewrite lookup_singleton_ne by congruence. done.
    + intros k c. rewrite map_lookup_imap. simpl. destruct (decide (k = 5)) as [->|Hne]; [by intros [= <-]|].
      by rewrite lookup_singleton_ne by congruence.
Qed.
Lemma calls : rtc (workspace_call 1) s0 s3.
Proof.
  eapply rtc_l; [apply (wc_create 1 s0 100 7 (diaries true))|]. eapply rtc_l; [apply (wc_create_rule 1 s1 110 (rule 5 "starts_with" "e"))|].
  apply rtc_once. apply (wc_create_rule 1 s2 120 (rule 9 "eq" "la")).
Qed.
Lemma s3_sound : catalog_sound s3.
Proof. eapply edits_sound; [apply s0_sound|]. apply calls_edits; [apply s0_sound|apply calls]. Qed.

Example two_contexts : (fun kx => (kx.1, x_name kx.2, x_workspace_id kx.2)) <$> map_to_list (catalog s3) = [(5, "Letters"%string, None); (6, "Diaries"%string, Some 1)].
Proof. vm_compute. reflexivity. Qed.
Example two_rules : CountSelectionRulesForWorkspaceManual 1 s3 = 2.
Proof. vm_compute. reflexivity. Qed.
Definition english_is : option (string * bool) :=
  match ResolveForWorkspace 1 english s3 with Ok r => Some (Name r.1, r.2) | Err _ => None end.
Example english_is_a_diary : english_is = Some ("Diaries"%string, false).
Proof. vm_compute. reflexivity. Qed.

(** An update that changes nothing is reported as a context that is not there. *)
Lemma unchanged_save_is_refused : UpdateForWorkspace 130 (diaries true) 1 7 s3 = (Err NoRows, s3)
  /\ is_ok (UpdateForWorkspace 130 (diaries false) 1 7 s3).1 = true.
Proof. split; vm_compute; reflexivity. Qed.
(** Rules without conditions, when the slice is nil, are stored as null and refused when they are read again. *)
Lemma nil_conditions_are_refused : (CreateRule 130 {| L_ID := 0; L_ContextID := 6; L_Priority := 1; L_Conditions := None; L_CreatedAt := 0 |} s3).1
  = Err ConditionsInvalid
  /\ is_ok (CreateRuleForWorkspace 130 1 {| L_ID := 0; L_ContextID := 6; L_Priority := 1; L_Conditions := None; L_CreatedAt := 0 |} s3).1 = true.
Proof. split; vm_compute; reflexivity. Qed.
(** ** The theorems at this library *)

#[local] Existing Instance one_host.

Lemma resolution_takes_the_first_match_witness : exists c, ResolveForWorkspace 1 english s3 = Ok (c, false) /\ Name c = "Diaries"%string.
Proof.
  destruct (resolution_takes_the_first_match 1 english {[ "language"%string := "en"%string ]} s3 s3_sound) as (c & d & Hr & _).
  - unfold MaxInt64. lia.
  - vm_compute. reflexivity.
  - apply Z.leb_le. vm_compute. reflexivity.
  - exists 5, letters. split; [vm_compute; reflexivity|done].
  - assert (He : english_is = Some ("Diaries"%string, false)) by (vm_compute; reflexivity).
    unfold english_is in He. rewrite Hr in He. injection He as Hn ->. exists c. split; [exact Hr|exact Hn].
Defined.

Lemma catalog_pages_terminate_witness : exists pages, follow_pages 3 1 false 1 None s3 = Some pages /\ (map Name) <$> pages = [["Letters"]; ["Diaries"]]%string.
Proof.
  destruct (catalog_pages_terminate 1 false 1 s3 s3_sound) as (rows & pages & Hp & _).
  - unfold MaxInt64. lia.
  - unfold MaxContextPageSize. lia.
  - assert (Hz : size (catalog s3) = 2%nat) by (vm_compute; reflexivity). rewrite Hz in Hp. exists pages. split; [exact Hp|].
    assert (He : map Name <$> default [] (follow_pages 3 1 false 1 None s3) = [["Letters"]; ["Diaries"]]%string) by (vm_compute; reflexivity).
    rewrite Hp in He. exact He.
Defined.

Lemma startup_installs_the_catalog_witness :
  (SystemCatalog.EnsureSystemContexts (fun _ => true) 200 "Transcribe." s3).1 = Ok tt.
Proof.
  destruct (startup_installs_the_catalog (fun _ => true) 200 "Transcribe." s3 s3_sound) as (s' & -> & _).
  - apply Z.leb_le. vm_compute. reflexivity.
  - done.
  - done.
Defined.

Lemma contexts_stay_consistent_witness : AuditRelationshipIntegrity (tables s3) = Ok [] /\ size (catalog s3) = 2%nat.
Proof.
  split; [|vm_compute; reflexivity]. apply (contexts_stay_consistent s0 s3 s0_sound).
  refine (rtc_subrel (workspace_call 1) _ _ _ _ calls). intros s s' Hc. by eapply st_workspace.
Defined.

Lemma admission_bounds_resolution_witness : CountSelectionRulesForWorkspaceManual 1 s3 = 2 /\ ResolveForWorkspace 1 english s3 <> Err ContextResolutionLimit.
Proof.
  split; [vm_compute; reflexivity|]. apply (admission_bounds_resolution s0 s3 s0_sound).
  - refine (rtc_subrel (workspace_call 1) _ _ _ _ calls). intros s s' Hc. by eapply ts_workspace.
  - intros w. apply Z.leb_le. reflexivity.
Defined.

Lemma workspaces_are_isolated_witness : ResolveForWorkspace 2 english s3 = ResolveForWorkspace 2 english s0.
Proof. apply (workspaces_are_isolated 1 s0 s3 s0_sound calls); done. Defined.
End ContextExamples.
